(* ===== verification/_CoqProject ===== *)
-Q . S2P
Prelude.v
GoString.v
GoError.v
GoMonad.v
Patterns.v
Sanitize.v
SubmissionDomain.v
SubmissionPorts.v
GoTime.v
JsonDecode.v
GoCrypto.v
OutboxRelay.v
CreateSubmission.v
RejudgeSubmission.v
ApplyResult.v
SubmissionSystem.v
PgStore.v
MemStore.v
EventHub.v
HubHistory.v
StreamSystem.v
SubmissionGuarantees.v
WorkerDomain.v
Diagnostics.v
TestcaseCache.v
GoPath.v
SandboxCache.v
GoJudgeClient.v
JudgeWorker.v
OfficialLoader.v
KafkaConsumers.v
JudgeMessages.v
StreamTicket.v
EventStream.v
StreamGuarantees.v
WorkerGuarantees.v
ProblemDomain.v
ProblemAdmin.v
ProblemTestcases.v
Redis.v
ProblemEligibility.v
AuthDomain.v
AuthRedis.v
AuthSessions.v
AuthAccounts.v
AuthUsers.v
PgUsers.v
AuthWorld.v
AuthRevocation.v
AuthLimits.v
AuthLogin.v
AuthSpec.v
AuthDemo.v
AuthGuarantees.v
PgProblems.v
ProblemTools.v
ProblemStore.v
ProblemSlugs.v
ProblemSpec.v
ProblemInvariant.v
PgCatalogue.v
ProblemDemo.v
ProblemArchive.v
ProblemAccess.v
ProblemGuarantees.v
SubmissionClients.v
RunCode.v
SubmissionQueries.v
PgQueries.v
QueryGuarantees.v
Responses.v
SubmissionApi.v
ProblemApi.v
AuthApi.v
MailProvider.v
Provisioning.v
BenchScheduler.v
BenchConfig.v
BenchStats.v
BenchRun.v
