(* ===== verification/Prelude.v ===== *)
(** Verification of the AstraCode online judge (go-judge-system).

    This development is kept beside the Go code under src/.  It translates the
    services and the judge worker into executable Rocq definitions (a shallow
    embedding) and proves about them what makes the judge correct.

    * The program

    Four processes and their stores.  The auth service (src/services/auth) keeps
    accounts in PostgreSQL and sessions, one-time tokens and rate limits in
    Redis, and signs the tokens that every service checks (src/pkg/middleware).
    The problem service (src/services/problem) keeps problems, tags and testcase
    archives (PostgreSQL, MinIO, a Redis cache) and answers two gRPC calls: which
    problem a user may submit to, and where the testcases of a problem are.  The
    submission service (src/services/submission) stores submissions and judge
    attempts, hands jobs to Kafka through a transactional outbox, applies the
    results that come back, and streams status changes to browsers.  The judge
    worker (src/workers/judge) takes jobs from Kafka, loads the testcases of the
    problem, runs the program in the go-judge sandbox, and publishes a result.

      browser -> auth -> (tokens) -> problem, submission
      submission -> outbox -> Kafka -> worker -> sandbox
                 <- Kafka <- result <- worker <- problem (archive)
      submission -> event hub -> event stream -> browser

    * How the code is modelled

    A Go function that touches the outside is a computation [M W A] of GoMonad.v,
    from a world [W] to an error or a value and the world afterwards; the world is
    a parameter.  A port of the code is a record of such operations, an adapter is
    a value of the record.  What the code calls and does not contain (PostgreSQL
    and GORM, Redis, Kafka, MinIO, gRPC transport, the sandbox, clocks, random
    sources) is a parameter with its documented behaviour as a type class, named
    ...Laws, and each class has an instance over a concrete world (MemStore.v,
    AuthDemo.v, ProblemDemo.v, WorkerGuarantees.v), where the witnesses run.
    Integers are Z with the wrap-around of int64, int32 and uint64 written out;
    strings are byte sequences; error values keep codes, wrapping and
    [errors.Is].  Concurrent parts are step relations or transition functions
    whose steps are the critical sections of the code.

    * The files

    Go and its libraries: Prelude (integers, lists, tactics), GoString, GoError
    (pkg/response/errors.go and codes.go; roles and claims of pkg/rbac and
    pkg/auth), GoMonad, Patterns (regular expressions and SQL's LIKE), GoTime
    (times and JSON texts), JsonDecode, GoCrypto, GoPath, Redis, Responses
    (pkg/response: generic handlers and replies).

    Submission service: SubmissionDomain (entities), SubmissionPorts (ports and
    their contract [StoreLaws]), PgStore (the repositories meet the contract),
    Sanitize, CreateSubmission, RejudgeSubmission, ApplyResult, OutboxRelay (the
    use cases and adapters of these names), SubmissionSystem (the service as a
    transition system on its database, with its invariant), SubmissionClients
    (the gRPC clients and the cooldown), RunCode (programs run without being
    submitted), SubmissionQueries (the use cases that read, against the contract
    [ReadingLaws]), PgQueries (the queries meet it), EventHub, HubHistory,
    StreamSystem, StreamTicket, EventStream (the stream of status changes, from
    the goroutines inside the hub to the bytes that are written), SubmissionApi
    (routes and handlers), MemStore (a concrete world), SubmissionGuarantees,
    StreamGuarantees and QueryGuarantees (the theorems).

    Judge worker: WorkerDomain, Diagnostics, TestcaseCache (the cache of inputs
    in the sandbox, its locked steps and their interleavings, those of a worker
    that takes over the files of an earlier one included), SandboxCache (its
    calls), GoJudgeClient (compilation, batches, verdict), OfficialLoader
    (download, verification and extraction of archives), JudgeWorker (the use
    cases), KafkaConsumers, JudgeMessages (what worker and submission service
    write is what the other reads, the database's [jsonb] between them),
    WorkerGuarantees (the theorems).

    Auth service: AuthDomain (with the limits against abuse), AuthRedis,
    AuthSessions, AuthAccounts,
    AuthUsers, PgUsers (the code), AuthWorld (laws, and what calls do to the
    cutoff of a user), AuthRevocation, AuthLimits, AuthLogin, AuthSpec
    (proofs), AuthDemo, AuthGuarantees, AuthApi (routes, handlers and cookies),
    MailProvider (links and SMTP), Provisioning (benchmark accounts).

    Problem service: ProblemDomain, ProblemAdmin, ProblemTestcases,
    ProblemEligibility, ProblemTools (storage, seeding and backfill), PgProblems
    (the code), ProblemStore (the contract [CatalogueLaws]), PgCatalogue (the
    repositories meet it), ProblemSlugs, ProblemSpec (the abstract machine over
    the catalogue), ProblemInvariant, ProblemArchive, ProblemAccess (proofs),
    ProblemDemo, ProblemGuarantees, ProblemApi (routes and handlers).

    Judge benchmark (src/tools/benchmark/judge): BenchScheduler (arrivals, the
    pool of users, bursts), BenchConfig (validation of a run and its sessions),
    BenchStats (percentiles, ledger, windows), BenchRun (summary, survival,
    classification).

    The doc comment of every file names the Go files it translates; definitions
    have the names of the code where Rocq allows it.

    * What the theorems show

    Submissions.  Any sequence of use cases keeps the invariant of the database;
    a finished attempt never changes again and the first result wins; creating,
    rejudging and applying a result happen entirely or not at all; the relay
    delivers a job at least once unless its retries are exhausted.  Streams: a
    stream misses no committed result, the hub neither panics nor blocks on its
    readers, and a stream opens only with a valid ticket.  Reading shows a
    submission only to those who may see it, a listing is exactly the page of the
    reader's submissions, the numbers of a profile add up, admissions of a user
    are apart by the cooldown, and code reaches the judge only within the limits.

    Worker.  A job ends in one result message or in an error and a retry, the
    verdict is the first failure, every official run has the same limits, the
    cache keeps the worker's own uploads within its budget whatever it took over
    from an earlier worker, an execution gives back its pins, a single worker
    passes no unfinished message while its session runs (the default pool can),
    datasets are complete, extraction stays inside its directory.

    Accounts.  A revoked session is dead in every service, the account table
    changes only as the abstract machine allows, a used token is dead, limits
    count all or nothing.  Mails transmit passwords and tokens only as the checked
    configuration allows; provisioning adds accounts and changes none, and a rotation of its
    passwords touches nothing else.

    Problems.  The catalogue changes only as the abstract machine allows, its rows
    stay well-formed, published problems carry active tags, a decision on who
    may submit is that of the catalogue during the call or, from the cache, of at
    most the life of an entry and two loads ago, accepted archives can be judged, the search for a slug ends.

    Over HTTP.  For each of the three services the routes, guards and handlers
    together change the database only as the service's machine allows, and only
    for a user with a valid session and the role of the route; the exceptions are
    the public routes of the auth service that register an account, verify an
    address or reset a password.

    Benchmark.  A load plans exactly the arrivals due within its duration, has
    a user for each when as many are eligible as it asks for, beyond those who are
    disabled or sent away on the way, and respects the cooldown of each ([cooldown_is_kept]); a validated run keeps to its cap and
    its target ([validated_run_is_safe]); windows and summary account for every
    submission ([windows_account_for_everything], [summary_balances]).

    Some theorems state what the code does and should not do; they are listed as
    findings in the manifest.

    * Bounds and fuel

    Loops whose recursion is not structural take fuel, and a theorem or the
    definition says how much is enough: the search for a slug one more than there
    are rows ([slug_search_terminates]); regular expressions and JSON the length
    of the text ([more_fuel], [json_value_fuel]); batches of testcases their
    number; publishing in the hub a measure of its tasks ([publish_terminates]);
    the windows of a benchmark the rest of its duration.  The random generator of
    the benchmark redraws at most 64 times, each with a chance below 2^-32 for
    the bounds that occur; the plan is valid whatever is drawn.
    Sizes and counters are at their width: the sum of announced sizes wraps at
    2^64, versions and offsets at 2^63, gRPC numbers at 2^31.

    * Not modelled

    What Gin does with a request before a handler sees it (parsing and validation
    of bodies, parameters, queries and forms are arguments of the handlers), the
    start and stop of servers, wiring and configuration loading; the HTML of the
    mails; bcrypt; the command line around the provisioning; of the benchmark its
    HTTP client, observer, bootstrap of sessions and reports; logging and metrics; generated protocol code; the gateway and the
    website.  Timeouts of contexts appear as errors that a call
    may return.  The opposite of a parameter's law (a Redis that loses writes, a
    Kafka that reorders a partition) is outside the model. *)

From stdpp Require Export base tactics option list list_numbers strings gmap sorting.
From Stdlib Require Export ZArith Lia.
From Stdlib Require Ascii String.
Export Stdlib.Strings.Ascii (ascii(..), N_of_ascii, ascii_of_N).
Export Stdlib.Strings.String (list_ascii_of_string, string_of_list_ascii).

#[global] Open Scope Z_scope.
#[global] Set Default Goal Selector "!".

(** ** Machine integers

    Go's [int] and [int64] are 64-bit two's complement on every platform the
    services are built for; arithmetic wraps around. *)

Definition int64_min : Z := - 2 ^ 63.
Definition int64_max : Z := 2 ^ 63 - 1.

Definition wrap64 (z : Z) : Z := (z + 2 ^ 63) mod 2 ^ 64 - 2 ^ 63.

Definition in_int64 (z : Z) : Prop := int64_min <= z <= int64_max.

Lemma wrap64_id z : in_int64 z -> wrap64 z = z.
Proof.
  unfold in_int64, int64_min, int64_max, wrap64. intros H.
  rewrite Z.mod_small by lia. lia.
Qed.

Lemma wrap64_range z : in_int64 (wrap64 z).
Proof.
  unfold in_int64, int64_min, int64_max, wrap64.
  pose proof (Z.mod_pos_bound (z + 2 ^ 63) (2 ^ 64)). lia.
Qed.

(** [len(s)] of a Go string: the number of bytes. *)
Definition len (s : string) : Z := Z.of_nat (String.length s).

(** ** Automation shared by the components *)

(** Case analysis on the innermost scrutinee of the goal or of a hypothesis,
    keeping the equation. *)
Ltac case_one :=
  match goal with
  | H : context [match ?x with _ => _ end] |- _ =>
      lazymatch x with context [match _ with _ => _ end] => fail | _ => destruct x eqn:? end
  | |- context [match ?x with _ => _ end] =>
      lazymatch x with context [match _ with _ => _ end] => fail | _ => destruct x eqn:? end
  end.

Ltac split_ands := repeat match goal with |- _ /\ _ => split end.

Create HintDb judge discriminated.

(** Boolean facts turned into propositions. *)
Ltac bools :=
  repeat match goal with
  | H : (_ && _)%bool = true |- _ => apply andb_true_iff in H; destruct H
  | H : (_ || _)%bool = false |- _ => apply orb_false_iff in H; destruct H
  | H : negb _ = true |- _ => apply negb_true_iff in H
  | H : negb _ = false |- _ => apply negb_false_iff in H
  | H : (_ =? _)%Z = true |- _ => apply Z.eqb_eq in H
  | H : (_ =? _)%Z = false |- _ => apply Z.eqb_neq in H
  | H : (_ <=? _)%Z = true |- _ => apply Z.leb_le in H
  | H : (_ <=? _)%Z = false |- _ => apply Z.leb_gt in H
  | H : (_ <? _)%Z = true |- _ => apply Z.ltb_lt in H
  | H : (_ <? _)%Z = false |- _ => apply Z.ltb_ge in H
  | H : bool_decide _ = true |- _ => apply bool_decide_eq_true in H
  | H : bool_decide _ = false |- _ => apply bool_decide_eq_false in H
  end.

(** ** Lists *)

Lemma Forall_app_inv {A} (P : A -> Prop) l1 l2 :
  Forall P (l1 ++ l2) -> Forall P l1 /\ Forall P l2.
Proof. apply Forall_app. Qed.

Lemma Forall_forallb_leb {A} (f : A -> Z) (n : Z) (l : list A) :
  forallb (fun x => n <=? f x) l = true -> Forall (fun x => n <= f x) l.
Proof. induction l; cbn; intros H; constructor; bools; auto. Qed.

(** The first element satisfying a boolean predicate. *)
Fixpoint find_first {A} (p : A -> bool) (l : list A) : option A :=
  match l with
  | [] => None
  | x :: r => if p x then Some x else find_first p r
  end.

Lemma find_first_some {A} (p : A -> bool) l x :
  find_first p l = Some x -> x ∈ l /\ p x = true.
Proof.
  induction l as [|y l IH]; simpl; [done|].
  destruct (p y) eqn:E; intros H; [inv H; split; [left|done]|].
  destruct (IH H). split; [by right|done].
Qed.

Lemma find_first_none {A} (p : A -> bool) l :
  find_first p l = None <-> Forall (fun x => p x = false) l.
Proof.
  induction l as [|y l IH]; simpl; [by split|].
  destruct (p y) eqn:E; rewrite Forall_cons, E; [split; [done|by intros []]|].
  rewrite IH. naive_solver.
Qed.

(** Sum of a measure over a list, used for byte accounting. *)
Definition sum_by {A} (f : A -> Z) (l : list A) : Z := foldr (fun x acc => f x + acc) 0 l.

Lemma sum_by_cons {A} (f : A -> Z) x l : sum_by f (x :: l) = f x + sum_by f l.
Proof. done. Qed.

Lemma sum_by_app {A} (f : A -> Z) l1 l2 : sum_by f (l1 ++ l2) = sum_by f l1 + sum_by f l2.
Proof. induction l1; simpl; lia. Qed.

Lemma sum_by_perm {A} (f : A -> Z) l1 l2 : l1 ≡ₚ l2 -> sum_by f l1 = sum_by f l2.
Proof. induction 1; simpl; lia. Qed.

Lemma sum_by_nonneg {A} (f : A -> Z) l : Forall (fun x => 0 <= f x) l -> 0 <= sum_by f l.
Proof. induction 1; simpl; lia. Qed.

(** ** Maps *)

(** Sum of a measure over the values of a map. *)
Definition msum {K V} `{Countable K} (f : V -> Z) (m : gmap K V) : Z := sum_by (fun p => f p.2) (map_to_list m).

Section msum.
Context {K V : Type} `{Countable K} (f : V -> Z).

Lemma msum_empty : msum f (∅ : gmap K V) = 0.
Proof. unfold msum. by rewrite map_to_list_empty. Qed.

Lemma msum_insert_new (m : gmap K V) k v : m !! k = None -> msum f (<[k := v]> m) = f v + msum f m.
Proof. intros Hk. unfold msum. by rewrite (sum_by_perm _ _ _ (map_to_list_insert m k v Hk)). Qed.

Lemma msum_delete (m : gmap K V) k v : m !! k = Some v -> msum f (delete k m) = msum f m - f v.
Proof.
  intros Hk. rewrite <- (insert_delete_id m k v Hk) at 2. rewrite msum_insert_new by apply lookup_delete_eq. lia.
Qed.

Lemma msum_insert (m : gmap K V) k v v' : m !! k = Some v' -> msum f (<[k := v]> m) = msum f m - f v' + f v.
Proof.
  intros Hk. rewrite <- insert_delete_eq, msum_insert_new by apply lookup_delete_eq. rewrite (msum_delete m k v') by done. lia.
Qed.

Lemma msum_nonneg (m : gmap K V) : (forall k v, m !! k = Some v -> 0 <= f v) -> 0 <= msum f m.
Proof.
  intros H0. apply sum_by_nonneg, Forall_forall. intros [k v] Hk%elem_of_map_to_list. by eapply H0.
Qed.
End msum.
