(* ===== verification/GoString.v ===== *)
(** Go strings: byte sequences and the parts of the packages [strings],
    [unicode/utf8], [strconv] and [encoding/hex] that the services use.  A Go
    string is a Rocq [string], i.e. a sequence of 8-bit [ascii] values; the
    algorithms run on [list ascii]. *)

From S2P Require Import Prelude.

Abbreviation bytes := (list ascii).
Abbreviation chars := list_ascii_of_string.
Abbreviation str := string_of_list_ascii.

(** Numeric value of a byte. *)
Definition code (c : ascii) : N := N_of_ascii c.

(** [c] lies in the inclusive byte range [lo..hi]. *)
Definition within (lo hi : N) (c : ascii) : bool := (lo <=? code c)%N && (code c <=? hi)%N.
Definition is_byte (n : N) (c : ascii) : bool := (code c =? n)%N.

(** ** UTF-8 (package [unicode/utf8])

    [runes] is the iteration [for _, r := range s]: the byte chunk of each
    rune together with whether it is a valid encoding; an invalid byte is a
    chunk of its own (Go decodes it as U+FFFD of width 1). *)

Definition cont : ascii -> bool := within 128 191.
Definition rune1 : ascii -> bool := within 0 127.
Definition rune2 (c1 c2 : ascii) : bool := within 194 223 c1 && cont c2.
Definition rune3 (c1 c2 c3 : ascii) : bool :=
  (is_byte 224 c1 && within 160 191 c2 && cont c3)
  || ((within 225 236 c1 || within 238 239 c1) && cont c2 && cont c3)
  || (is_byte 237 c1 && within 128 159 c2 && cont c3).
Definition rune4 (c1 c2 c3 c4 : ascii) : bool :=
  (is_byte 240 c1 && within 144 191 c2 && cont c3 && cont c4)
  || (within 241 243 c1 && cont c2 && cont c3 && cont c4)
  || (is_byte 244 c1 && within 128 143 c2 && cont c3 && cont c4).

Fixpoint runes (l : bytes) : list (bytes * bool) :=
  match l with
  | [] => []
  | c1 :: l1 =>
      if rune1 c1 then ([c1], true) :: runes l1 else
      match l1 with
      | [] => ([c1], false) :: runes l1
      | c2 :: l2 =>
          if rune2 c1 c2 then ([c1; c2], true) :: runes l2 else
          match l2 with
          | [] => ([c1], false) :: runes l1
          | c3 :: l3 =>
              if rune3 c1 c2 c3 then ([c1; c2; c3], true) :: runes l3 else
              match l3 with
              | [] => ([c1], false) :: runes l1
              | c4 :: l4 =>
                  if rune4 c1 c2 c3 c4 then ([c1; c2; c3; c4], true) :: runes l4
                  else ([c1], false) :: runes l1
              end
          end
      end
  end.

(** [utf8.ValidString]. *)
Definition valid_utf8 (l : bytes) : bool := forallb snd (runes l).
Definition ValidString (s : string) : bool := valid_utf8 (chars s).

(** [strings.ToValidUTF8(s, "")]: the invalid bytes are dropped. *)
Definition to_valid (l : bytes) : bytes :=
  concat (map fst (List.filter snd (runes l))).
Definition ToValidUTF8 (s : string) : string := str (to_valid (chars s)).

(** [strings.Map] with a mapping that keeps or drops runes; a kept invalid
    byte is written back as the encoding of U+FFFD. *)
Definition replacement : bytes := [ascii_of_N 239; ascii_of_N 191; ascii_of_N 189].
Definition map_keep (keep : bytes -> bool) (l : bytes) : bytes :=
  concat (map (fun '(r, ok) => if ok : bool then (if keep r then r else []) else replacement) (runes l)).

(** ** [strings.TrimSpace] (white space as in [unicode.IsSpace]) *)

Definition space1 (c : ascii) : bool := within 9 13 c || is_byte 32 c.
Definition space2 (c1 c2 : ascii) : bool := is_byte 194 c1 && (is_byte 133 c2 || is_byte 160 c2).
Definition space3 (c1 c2 c3 : ascii) : bool :=
  (is_byte 225 c1 && is_byte 154 c2 && is_byte 128 c3)
  || (is_byte 226 c1 && is_byte 128 c2
      && (within 128 138 c3 || is_byte 168 c3 || is_byte 169 c3 || is_byte 175 c3))
  || (is_byte 226 c1 && is_byte 129 c2 && is_byte 159 c3)
  || (is_byte 227 c1 && is_byte 128 c2 && is_byte 128 c3).

Fixpoint trim_head (s1 : ascii -> bool) (s2 : ascii -> ascii -> bool)
    (s3 : ascii -> ascii -> ascii -> bool) (l : bytes) : bytes :=
  match l with
  | [] => []
  | c1 :: l1 =>
      if s1 c1 then trim_head s1 s2 s3 l1 else
      match l1 with
      | [] => l
      | c2 :: l2 =>
          if s2 c1 c2 then trim_head s1 s2 s3 l2 else
          match l2 with
          | [] => l
          | c3 :: l3 => if s3 c1 c2 c3 then trim_head s1 s2 s3 l3 else l
          end
      end
  end.

Definition trim_left (l : bytes) : bytes := trim_head space1 space2 space3 l.
Definition trim_right (l : bytes) : bytes :=
  rev (trim_head space1 (fun a b => space2 b a) (fun a b c => space3 c b a) (rev l)).
Definition trim (l : bytes) : bytes := trim_right (trim_left l).
Definition TrimSpace (s : string) : string := str (trim (chars s)).

(** [strings.TrimSpace(s) == ""] *)
Definition blank (s : string) : bool := bool_decide (TrimSpace s = ""%string).

(** [strings.TrimRight(s, cutset)] for an ASCII cutset. *)
Fixpoint drop_while (p : ascii -> bool) (l : bytes) : bytes :=
  match l with
  | [] => []
  | c :: r => if p c then drop_while p r else l
  end.
Definition trim_right_set (p : ascii -> bool) (l : bytes) : bytes := rev (drop_while p (rev l)).

(** [strings.Split(s, sep)] for a one-byte separator and [strings.Join]. *)
Fixpoint split_on (c : ascii) (l : bytes) : list bytes :=
  match l with
  | [] => [[]]
  | x :: r =>
      if Stdlib.Strings.Ascii.eqb x c then [] :: split_on c r
      else match split_on c r with
           | [] => [[x]]
           | h :: t => (x :: h) :: t
           end
  end.

Fixpoint join_with (c : ascii) (ls : list bytes) : bytes :=
  match ls with
  | [] => []
  | [l] => l
  | l :: r => l ++ c :: join_with c r
  end.

(** [strings.HasPrefix]. *)
Fixpoint has_prefix (p l : bytes) : bool :=
  match p, l with
  | [], _ => true
  | _ :: _, [] => false
  | x :: p', y :: l' => Stdlib.Strings.Ascii.eqb x y && has_prefix p' l'
  end.

(** ASCII letters in upper case; the callers compare the result with ASCII
    language names only. *)
Definition upper_ascii (c : ascii) : ascii :=
  if within 97 122 c then ascii_of_N (code c - 32) else c.

(** A byte chunk that is exactly one valid UTF-8 encoding. *)
Definition is_rune (r : bytes) : bool :=
  match r with
  | [c1] => rune1 c1
  | [c1; c2] => rune2 c1 c2
  | [c1; c2; c3] => rune3 c1 c2 c3
  | [c1; c2; c3; c4] => rune4 c1 c2 c3 c4
  | _ => false
  end.

(** Valid UTF-8 as a sequence of runes. *)
Inductive Valid : bytes -> Prop :=
| Valid_nil : Valid []
| Valid_rune r l : is_rune r = true -> Valid l -> Valid (r ++ l).

(** ** Facts about bytes and runes *)

#[export] Hint Constructors Valid : judge.

Ltac byte_unfold :=
  unfold rune1, rune2, rune3, rune4, space1, space2, space3, cont, within, is_byte in *.

(** Decide a goal on byte ranges. *)
Ltac byte_solve :=
  byte_unfold;
  repeat match goal with
  | H : context [(?x <=? ?y)%N] |- _ => destruct (N.leb_spec x y)
  | H : context [(?x =? ?y)%N] |- _ => destruct (N.eqb_spec x y)
  | |- context [(?x <=? ?y)%N] => destruct (N.leb_spec x y)
  | |- context [(?x =? ?y)%N] => destruct (N.eqb_spec x y)
  end; simpl in *; try congruence; try (exfalso; lia).

Ltac byte_range :=
  byte_unfold;
  repeat first [rewrite andb_true_iff | rewrite orb_true_iff | rewrite N.leb_le | rewrite N.eqb_eq].

Lemma code_range c : (code c < 256)%N.
Proof. apply Stdlib.Strings.Ascii.N_ascii_bounded. Qed.

(** A property of all bytes, by enumeration. *)
Lemma all_bytes (P : ascii -> bool) : forallb P (map (fun i => ascii_of_N (N.of_nat i)) (seq 0 256)) = true ->
  forall c, P c = true.
Proof.
  intros H c. rewrite forallb_forall in H. apply H. apply in_map_iff. exists (N.to_nat (code c)).
  pose proof (code_range c). split.
  - rewrite N2Nat.id. apply Stdlib.Strings.Ascii.ascii_N_embedding.
  - apply in_seq. lia.
Qed.

Lemma rune1_range c : rune1 c = true <-> (code c <= 127)%N.
Proof. byte_range. lia. Qed.

Lemma rune2_range c1 c2 : rune2 c1 c2 = true ->
  (194 <= code c1 <= 223)%N /\ (128 <= code c2 <= 191)%N.
Proof. byte_range. lia. Qed.

Lemma rune3_range c1 c2 c3 : rune3 c1 c2 c3 = true ->
  (224 <= code c1 <= 239)%N /\ (128 <= code c2 <= 191)%N /\ (128 <= code c3 <= 191)%N.
Proof. byte_range. lia. Qed.

Lemma rune4_range c1 c2 c3 c4 : rune4 c1 c2 c3 c4 = true ->
  (240 <= code c1 <= 244)%N /\ (128 <= code c2 <= 191)%N /\ (128 <= code c3 <= 191)%N
  /\ (128 <= code c4 <= 191)%N.
Proof. byte_range. lia. Qed.

Lemma space1_range c : space1 c = true -> (9 <= code c <= 32)%N.
Proof. byte_range. lia. Qed.

Lemma space2_range c1 c2 : space2 c1 c2 = true -> (code c1 = 194)%N /\ (128 <= code c2 <= 191)%N.
Proof. byte_range. lia. Qed.

Lemma space3_range c1 c2 c3 : space3 c1 c2 c3 = true ->
  (225 <= code c1 <= 227)%N /\ (128 <= code c2 <= 191)%N /\ (128 <= code c3 <= 191)%N.
Proof. byte_range. lia. Qed.

(** Turn every known rune or space test into its byte ranges. *)
Ltac ranges :=
  repeat match goal with
  | H : rune1 _ = true |- _ => apply rune1_range in H
  | H : rune2 _ _ = true |- _ => apply rune2_range in H
  | H : rune3 _ _ _ = true |- _ => apply rune3_range in H
  | H : rune4 _ _ _ _ = true |- _ => apply rune4_range in H
  | H : space1 _ = true |- _ => apply space1_range in H
  | H : space2 _ _ = true |- _ => apply space2_range in H
  | H : space3 _ _ _ = true |- _ => apply space3_range in H
  end.

Ltac range_contra := exfalso; ranges; lia.

(** Shapes of one rune. *)
Lemma is_rune_cases r : is_rune r = true ->
  (exists a, r = [a] /\ rune1 a = true) \/ (exists a b, r = [a; b] /\ rune2 a b = true)
  \/ (exists a b c, r = [a; b; c] /\ rune3 a b c = true)
  \/ (exists a b c d, r = [a; b; c; d] /\ rune4 a b c d = true).
Proof. destruct r as [|a [|b [|c [|d [|e r]]]]]; simpl; intros; try done; naive_solver. Qed.

Ltac rune_cases H :=
  apply is_rune_cases in H as [(?a & -> & H)|[(?a & ?b & -> & H)|
    [(?a & ?b & ?c & -> & H)|(?a & ?b & ?c & ?d & -> & H)]]].

Lemma runes_app_rune r l : is_rune r = true -> runes (r ++ l) = (r, true) :: runes l.
Proof.
  intros H. rune_cases H; simpl; repeat case_match; try done; try congruence; range_contra.
Qed.

(** One step of the iteration: a valid rune or a single invalid byte. *)
Lemma runes_cases c l : exists r rest ok,
  c :: l = r ++ rest /\ runes (c :: l) = (r, ok) :: runes rest
  /\ (length rest <= length l)%nat /\ (if ok : bool then is_rune r = true else r = [c]).
Proof.
  destruct (rune1 c) eqn:E1.
  { exists [c], l, true. simpl. rewrite E1. done. }
  destruct l as [|c2 l].
  { exists [c], [], false. simpl. rewrite E1. done. }
  destruct (rune2 c c2) eqn:E2.
  { exists [c; c2], l, true. simpl. rewrite E1, E2. split_and!; [done|done|lia|done]. }
  destruct l as [|c3 l].
  { exists [c], [c2], false. split_and!; [done| |done|done]. cbn [runes]. by rewrite E1, E2. }
  destruct (rune3 c c2 c3) eqn:E3.
  { exists [c; c2; c3], l, true. simpl. rewrite E1, E2, E3. split_and!; [done|done|lia|done]. }
  destruct l as [|c4 l].
  { exists [c], [c2; c3], false. split_and!; [done| |done|done]. cbn [runes]. by rewrite E1, E2, E3. }
  destruct (rune4 c c2 c3 c4) eqn:E4.
  { exists [c; c2; c3; c4], l, true. simpl. rewrite E1, E2, E3, E4. split_and!; [done|done|lia|done]. }
  exists [c], (c2 :: c3 :: c4 :: l), false. split_and!; [done| |done|done].
  set (t := runes (c2 :: c3 :: c4 :: l)). cbn [runes]. by rewrite E1, E2, E3, E4.
Qed.

(** Induction along the iteration over runes. *)
Lemma runes_ind (P : bytes -> Prop) :
  P [] ->
  (forall r rest, is_rune r = true -> runes (r ++ rest) = (r, true) :: runes rest ->
     P rest -> P (r ++ rest)) ->
  (forall c rest, runes (c :: rest) = ([c], false) :: runes rest -> P rest -> P (c :: rest)) ->
  forall l, P l.
Proof.
  intros Hnil Hok Hbad l. remember (length l) as n eqn:En.
  revert l En. induction n as [n IH] using lt_wf_ind. intros [|c l] En; [done|].
  destruct (runes_cases c l) as (r & rest & ok & E & R & L & K).
  assert (P rest) by (eapply IH; [|done]; simpl in En; lia).
  destruct ok.
  - rewrite E. rewrite E in R. by apply Hok.
  - subst r. simpl in E. inv E. by apply Hbad.
Qed.

Lemma runes_concat l : concat (map fst (runes l)) = l.
Proof.
  induction l as [|r rest Hr R IH|c rest R IH] using runes_ind; [done| |];
    rewrite R; simpl; by rewrite IH.
Qed.

Lemma valid_utf8_spec l : valid_utf8 l = true <-> Valid l.
Proof.
  split.
  - unfold valid_utf8.
    induction l as [|r rest Hr R IH|c rest R IH] using runes_ind; [constructor| |];
      rewrite R; simpl; [|done]. intros. constructor; auto.
  - unfold valid_utf8. induction 1 as [|r l Hr _ IH]; [done|]. by rewrite runes_app_rune.
Qed.

Lemma Valid_app l1 l2 : Valid l1 -> Valid l2 -> Valid (l1 ++ l2).
Proof. induction 1; [done|]. rewrite <- app_assoc. intros. constructor; auto. Qed.

Lemma Valid_one r : is_rune r = true -> Valid r.
Proof. intros H. rewrite <- (app_nil_r r). auto with judge. Qed.

Lemma Valid_snoc_inv l : Valid l -> l = [] \/ exists l' r, l = l' ++ r /\ is_rune r = true /\ Valid l'.
Proof.
  induction 1 as [|r l Hr Hl [->|(l' & r' & -> & H1 & H2)]]; [by left| |]; right.
  - exists [], r. rewrite app_nil_r. auto with judge.
  - exists (r ++ l'), r'. rewrite app_assoc. auto with judge.
Qed.

Lemma to_valid_valid l : Valid (to_valid l).
Proof.
  unfold to_valid.
  induction l as [|r rest Hr R IH|c rest R IH] using runes_ind; [constructor| |];
    rewrite R; simpl; auto with judge.
Qed.

Lemma to_valid_id l : Valid l -> to_valid l = l.
Proof.
  unfold to_valid. induction 1 as [|r l Hr _ IH]; [done|].
  rewrite runes_app_rune by done. simpl. by rewrite IH.
Qed.

(** ** Facts about trimming *)

Definition trim_rev (l : bytes) : bytes :=
  trim_head space1 (fun a b => space2 b a) (fun a b c => space3 c b a) l.

Lemma trim_right_rev l : trim_right (rev l) = rev (trim_rev l).
Proof. unfold trim_right. by rewrite rev_involutive. Qed.

(** Trimming returns a suffix. *)
Lemma trim_head_suffix s1 s2 s3 l : exists p, l = p ++ trim_head s1 s2 s3 l.
Proof.
  induction l as [l IH] using (induction_ltof1 _ (@length _)); unfold ltof in IH.
  destruct l as [|c1 l1]; [by exists []|]. cbn [trim_head].
  assert (forall q m, (length m < length (c1 :: l1))%nat -> c1 :: l1 = q ++ m ->
    exists p, c1 :: l1 = p ++ trim_head s1 s2 s3 m) as K.
  { intros q m Hm ->. destruct (IH m Hm) as [p Hp]. exists (q ++ p). rewrite <- app_assoc. by f_equal. }
  repeat case_match; try (by exists []); subst.
  - apply (K [c1] l1); [simpl; lia|done].
  - eapply (K [c1; _]); [simpl; lia|done].
  - eapply (K [c1; _; _]); [simpl; lia|done].
Qed.

Lemma trim_left_suffix l : exists p, l = p ++ trim_left l.
Proof. apply trim_head_suffix. Qed.

Lemma trim_right_prefix l : exists p, l = trim_right l ++ p.
Proof.
  unfold trim_right. destruct (trim_head_suffix space1 (fun a b => space2 b a)
    (fun a b c => space3 c b a) (rev l)) as [p Hp].
  exists (rev p). rewrite <- rev_app_distr. rewrite <- Hp. by rewrite rev_involutive.
Qed.

Lemma trim_sublist l : exists p q, l = p ++ trim l ++ q.
Proof.
  unfold trim. destruct (trim_left_suffix l) as [p Hp], (trim_right_prefix (trim_left l)) as [q Hq].
  exists p, q. by rewrite <- Hq.
Qed.

Lemma trim_length l : (length (trim l) <= length l)%nat.
Proof. destruct (trim_sublist l) as (p & q & E). rewrite E at 2. rewrite !length_app. lia. Qed.

Lemma trim_Forall (P : ascii -> Prop) l : Forall P l -> Forall P (trim l).
Proof.
  destruct (trim_sublist l) as (p & q & E). rewrite E at 1. rewrite !Forall_app. naive_solver.
Qed.

(** What a list must look like for trimming to stop. *)
Definition trim_stops (s1 : ascii -> bool) s2 s3 (l : bytes) : Prop := trim_head s1 s2 s3 l = l.

Lemma trim_head_idem s1 s2 s3 l : trim_head s1 s2 s3 (trim_head s1 s2 s3 l) = trim_head s1 s2 s3 l.
Proof.
  induction l as [l IH] using (induction_ltof1 _ (@length _)); unfold ltof in IH.
  destruct l as [|c1 l1]; [done|]. cbn [trim_head].
  destruct (s1 c1) eqn:E1; [apply IH; simpl; lia|].
  destruct l1 as [|c2 l2]; [simpl; by rewrite E1|].
  destruct (s2 c1 c2) eqn:E2; [apply IH; simpl; lia|].
  destruct l2 as [|c3 l3]; [simpl; by rewrite E1, E2|].
  destruct (s3 c1 c2 c3) eqn:E3; [apply IH; simpl; lia|].
  simpl. by rewrite E1, E2, E3.
Qed.

(** A non-empty prefix of a list on which trimming stops also stops. *)
Lemma trim_head_prefix s1 s2 s3 l p :
  trim_head s1 s2 s3 (l ++ p) = l ++ p -> trim_head s1 s2 s3 l = l.
Proof.
  assert (forall m, (length (trim_head s1 s2 s3 m) <= length m)%nat) as L.
  { intros m. destruct (trim_head_suffix s1 s2 s3 m) as [q Hq]. rewrite Hq at 2. rewrite length_app. lia. }
  destruct l as [|c1 [|c2 [|c3 l]]]; cbn; intros H; try done.
  - destruct (s1 c1) eqn:?; [|done]. pose proof (L p) as K. rewrite H in K. simpl in K. lia.
  - destruct (s1 c1) eqn:?.
    { pose proof (L (c2 :: p)) as K. cbn [trim_head] in K. rewrite H in K. simpl in K. lia. }
    destruct (s2 c1 c2) eqn:?; [|done]. pose proof (L p) as K. rewrite H in K. simpl in K. lia.
  - destruct (s1 c1) eqn:?.
    { pose proof (L (c2 :: c3 :: l ++ p)) as K. cbn [trim_head] in K. rewrite H in K. simpl in K. lia. }
    destruct (s2 c1 c2) eqn:?.
    { pose proof (L (c3 :: l ++ p)) as K. cbn [trim_head] in K. rewrite H in K. simpl in K. lia. }
    destruct (s3 c1 c2 c3) eqn:?; [|done]. pose proof (L (l ++ p)) as K. rewrite H in K. simpl in K. lia.
Qed.

Lemma trim_right_idem l : trim_right (trim_right l) = trim_right l.
Proof. unfold trim_right. rewrite rev_involutive. by rewrite trim_head_idem. Qed.

Lemma trim_idem l : trim (trim l) = trim l.
Proof.
  unfold trim. destruct (trim_right_prefix (trim_left l)) as [p Hp].
  assert (trim_left (trim_right (trim_left l)) = trim_right (trim_left l)) as ->.
  { apply (trim_head_prefix _ _ _ _ p). rewrite <- Hp. apply trim_head_idem. }
  apply trim_right_idem.
Qed.

Lemma trim_left_valid l : Valid l -> Valid (trim_left l).
Proof.
  unfold trim_left. induction 1 as [|r l Hr Hl IH]; [constructor|].
  pose proof (Valid_rune _ _ Hr Hl) as HV. revert HV.
  rune_cases Hr; simpl; intros HV; repeat case_match; subst; try done; range_contra.
Qed.

Lemma trim_right_valid l : Valid l -> Valid (trim_right l).
Proof.
  induction l as [l IH] using (induction_ltof1 _ (@length _)); unfold ltof in IH. intros HV.
  destruct (Valid_snoc_inv l HV) as [->|(l' & r & -> & Hr & Hl')]; [constructor|].
  assert (Valid (trim_right l')) as K.
  { apply IH; [|done]. rewrite length_app. rune_cases Hr; simpl; lia. }
  unfold trim_right in *. rewrite rev_app_distr.
  rune_cases Hr; simpl; repeat case_match; subst; simpl;
    rewrite ?rev_involutive, <- ?app_assoc; try done; try range_contra.
  all: match goal with H : rev _ = _ |- _ =>
      apply (f_equal (@rev _)) in H; rewrite rev_involutive in H; simpl in H;
      subst; rewrite <- ?app_assoc in HV; exact HV
    end.
Qed.

Lemma trim_valid l : Valid l -> Valid (trim l).
Proof. intros H. by apply trim_right_valid, trim_left_valid. Qed.

(** ** Conversions *)

Lemma chars_str l : chars (str l) = l.
Proof. induction l; simpl; congruence. Qed.

Lemma str_chars s : str (chars s) = s.
Proof. induction s; simpl; congruence. Qed.

Lemma chars_inj s t : chars s = chars t -> s = t.
Proof. intros H. by rewrite <- (str_chars s), H, str_chars. Qed.

Lemma length_chars s : length (chars s) = String.length s.
Proof. induction s; simpl; congruence. Qed.

Lemma len_str l : len (str l) = Z.of_nat (length l).
Proof. unfold len. by rewrite <- length_chars, chars_str. Qed.

Lemma TrimSpace_idem s : TrimSpace (TrimSpace s) = TrimSpace s.
Proof. unfold TrimSpace. by rewrite chars_str, trim_idem. Qed.

Lemma blank_trim s : blank (TrimSpace s) = blank s.
Proof. unfold blank. by rewrite TrimSpace_idem. Qed.

Lemma blank_empty : blank "" = true.
Proof. reflexivity. Qed.

Lemma not_blank_nonempty s : blank s = false -> s <> ""%string.
Proof. intros H ->. by rewrite blank_empty in H. Qed.

(** ** Integers in decimal: [strconv.Itoa], [strconv.FormatInt] and [strconv.ParseInt] *)

Definition digit (d : Z) : ascii := ascii_of_N (48 + Z.to_N d).
Definition is_digit : ascii -> bool := within 48 57.
Definition digit_val (c : ascii) : Z := Z.of_N (code c) - 48.

(** Digits of a non-negative number, most significant first; [n] bounds the
    number of digits still to produce. *)
Fixpoint format_digits (n : nat) (z : Z) (acc : bytes) : bytes :=
  match n with
  | O => acc
  | S n' => let acc' := digit (z mod 10) :: acc in
            if z <? 10 then acc' else format_digits n' (z / 10) acc'
  end.

(** Twenty digits are enough for every 64-bit value. *)
Definition format_nat (z : Z) : bytes := format_digits 20 z [].

Definition Itoa (z : Z) : string :=
  if z <? 0 then str (ascii_of_N 45 :: format_nat (- z)) else str (format_nat z).

Fixpoint parse_digits (l : bytes) (acc : Z) : option Z :=
  match l with
  | [] => Some acc
  | c :: r => if is_digit c then parse_digits r (acc * 10 + digit_val c) else None
  end.

(** [strconv.ParseInt(s, 10, 64)] and [strconv.Atoi]: [None] is an error
    (syntax or out of range). *)
Definition ParseInt (s : string) : option Z :=
  let go (neg : bool) (l : bytes) :=
    match l with
    | [] => None
    | _ => match parse_digits l 0 with
           | Some v =>
               let v := if neg then - v else v in
               if (int64_min <=? v) && (v <=? int64_max) then Some v else None
           | None => None
           end
    end in
  match chars s with
  | c :: l => if is_byte 45 c then go true l else if is_byte 43 c then go false l else go false (c :: l)
  | [] => None
  end.

Lemma digit_spec d : 0 <= d < 10 -> is_digit (digit d) = true /\ digit_val (digit d) = d.
Proof.
  intros H. unfold is_digit, digit_val, digit, within, code.
  rewrite Ascii.N_ascii_embedding by lia.
  split; [|lia]. apply andb_true_iff. rewrite !N.leb_le. lia.
Qed.

Lemma parse_format_digits n z acc : (0 < n)%nat -> 0 <= z < 10 ^ Z.of_nat n ->
  parse_digits (format_digits n z acc) 0 = parse_digits acc z.
Proof.
  revert z acc. induction n as [|n IH]; intros z acc Hn Hz; [lia|]. cbn [format_digits].
  pose proof (Z.mod_pos_bound z 10).
  destruct (digit_spec (z mod 10) ltac:(lia)) as [D1 D2].
  destruct (Z.ltb_spec z 10).
  - simpl. rewrite D1, D2, Z.mod_small by lia. done.
  - destruct n as [|n]; [simpl in Hz; lia|].
    rewrite IH; [|lia|].
    + simpl. rewrite D1, D2. f_equal. pose proof (Z.div_mod z 10). lia.
    + rewrite Nat2Z.inj_succ, Z.pow_succ_r in Hz by lia.
      split; [apply Z.div_pos; lia|apply Z.div_lt_upper_bound; lia].
Qed.

Lemma format_digits_nonempty n z acc : (0 < n)%nat ->
  exists c r, format_digits n z acc = c :: r /\ (is_digit c = true).
Proof.
  revert z acc. induction n as [|n IH]; intros z acc Hn; [lia|]. cbn [format_digits].
  pose proof (Z.mod_pos_bound z 10).
  destruct (digit_spec (z mod 10) ltac:(lia)) as [D1 _].
  destruct (z <? 10); [eauto|]. destruct n; [simpl; eauto|]. apply IH. lia.
Qed.

(** [strconv.ParseInt] reads back what [strconv.FormatInt] prints. *)
Lemma ParseInt_Itoa z : in_int64 z -> ParseInt (Itoa z) = Some z.
Proof.
  unfold in_int64, int64_min, int64_max. intros H. unfold Itoa, format_nat.
  destruct (Z.ltb_spec z 0); unfold ParseInt; rewrite chars_str.
  - assert (is_byte 45 (ascii_of_N 45) = true) as -> by reflexivity.
    pose proof (parse_format_digits 20 (- z) [] ltac:(lia) ltac:(lia)) as E.
    destruct (format_digits_nonempty 20 (- z) [] ltac:(lia)) as (c & r & Ec & _).
    rewrite Ec in *. rewrite E. simpl parse_digits. cbn match.
    rewrite Z.opp_involutive.
    assert ((int64_min <=? z) && (z <=? int64_max) = true) as ->; [|done].
    rewrite andb_true_iff, !Z.leb_le. unfold int64_min, int64_max. lia.
  - pose proof (parse_format_digits 20 z [] ltac:(lia) ltac:(lia)) as E.
    destruct (format_digits_nonempty 20 z [] ltac:(lia)) as (c & r & Ec & Hc).
    rewrite Ec in *.
    assert (is_byte 45 c = false /\ is_byte 43 c = false) as [-> ->].
    { unfold is_digit in Hc. byte_unfold. apply andb_true_iff in Hc as [H1 H2].
      rewrite N.leb_le in H1, H2. rewrite !N.eqb_neq. lia. }
    rewrite E. simpl parse_digits. cbn match.
    assert ((int64_min <=? z) && (z <=? int64_max) = true) as ->; [|done].
    rewrite andb_true_iff, !Z.leb_le. unfold int64_min, int64_max. lia.
Qed.

(** ** Lower case *)

Definition lower_ascii (c : ascii) : ascii := if within 65 90 c then ascii_of_N (code c + 32) else c.

(** [strings.ToLower]: bytes of ASCII texts, otherwise rune by rune with the
    tables of package unicode, [lower_rune], for the runes beyond ASCII. *)
Definition ToLower (lower_rune : bytes -> bytes) (s : string) : string :=
  if forallb rune1 (chars s) then str (map lower_ascii (chars s))
  else str (concat (map (fun p => match p with
                                  | (r, false) => replacement
                                  | ([c], true) => [lower_ascii c]
                                  | (r, true) => lower_rune r
                                  end) (runes (chars s)))).
