(* ===== verification/GoError.v ===== *)
(** Go error values: pkg/response (codes.go, errors.go), the wrapping of
    [fmt.Errorf] with [%w], [errors.Is]/[errors.As], the errors of the
    submission service (internal/domain/errors.go) and of the judge worker
    (internal/domain/error.go).

    At the end: roles and authenticated claims (pkg/rbac/role.go and
    pkg/auth/claims.go). *)

From S2P Require Import Prelude GoString.

(** ** Business codes (pkg/response/codes.go) *)

Definition CodeSuccess : Z := 20000.
Definition CodeCreated : Z := 20100.
Definition CodeUpdated : Z := 20001.
Definition CodeDeleted : Z := 20002.
Definition CodeRetrieved : Z := 20003.
Definition CodeBadRequest : Z := 40000.
Definition CodeParamInvalid : Z := 40001.
Definition CodeInvalidID : Z := 40002.
Definition CodePayloadTooLarge : Z := 41300.
Definition CodeUnauthorized : Z := 40100.
Definition CodeInvalidToken : Z := 40101.
Definition CodeTokenExpired : Z := 40102.
Definition CodeInvalidPassword : Z := 40103.
Definition CodeForbidden : Z := 40300.
Definition CodeAccountNotFound : Z := 40401.
Definition CodeNotFound : Z := 40400.
Definition CodeConflict : Z := 40900.
Definition CodeValidationFailed : Z := 42200.
Definition CodeRateLimitExceeded : Z := 42900.
Definition CodeInternalServer : Z := 50000.
Definition CodeInternalError : Z := 50001.
Definition CodeDatabaseError : Z := 50002.
Definition CodeMongoDBError : Z := 50003.
Definition CodeRedisError : Z := 50004.
Definition CodeServiceUnavailable : Z := 50300.
Definition CodeGatewayTimeout : Z := 50400.

(** ** Error values

    [ESentinel] is a package-level error variable compared by identity (its
    text identifies it); [EText] is a fresh [errors.New]/[fmt.Errorf] value
    without [%w]; [EWrap] is [fmt.Errorf("prefix: %w", err)]; [ENonRetryable]
    is the worker's [nonRetryableError]; [EStatus] is a gRPC status error.
    The [Stack] of an [AppError] is debugging output and is left out. *)
Inductive error :=
| EApp (Code : Z) (Message : string) (Err : option error) (RetryAfter : Z)
| ESentinel (text : string)
| EText (text : string)
| EWrap (prefix : string) (err : error)
| ENonRetryable (err : error)
| EStatus (grpc_code : Z) (text : string).

(** [AppError.Error] and the [Error] methods of the other values. *)
Fixpoint error_text (e : error) : string :=
  match e with
  | EApp _ m (Some c) _ => m +:+ ": " +:+ error_text c
  | EApp _ m None _ => m
  | ESentinel t | EText t => t
  | EWrap p c => p +:+ ": " +:+ error_text c
  | ENonRetryable c => error_text c
  | EStatus _ t => t
  end.

(** [err == target], or [AppError.Is], which compares by code only. *)
Definition error_matches (e target : error) : bool :=
  match e, target with
  | EApp c _ _ _, EApp c' _ _ _ => c =? c'
  | ESentinel t, ESentinel t' => bool_decide (t = t')
  | _, _ => false
  end.

(** [errors.Is]: some error of the [Unwrap] chain matches the target. *)
Fixpoint errors_Is (e target : error) : bool :=
  error_matches e target
  || match e with
     | EApp _ _ (Some c) _ | EWrap _ c | ENonRetryable c => errors_Is c target
     | _ => false
     end.

Definition NewAppError (code : Z) (message : string) (err : option error) : error :=
  EApp code message err 0.

Definition NewRateLimitError (message : string) (retryAfter : Z) : error :=
  EApp CodeRateLimitExceeded message None retryAfter.

(** [AppError.Wrap]: a copy without the [RetryAfter] of the original. *)
Definition Wrap (e cause : error) : error :=
  match e with
  | EApp c m _ _ => EApp c m (Some cause) 0
  | _ => e
  end.

(** [response.GetHTTPStatus]. *)
Definition GetHTTPStatus (code : Z) : Z :=
  let one_of l := bool_decide (code ∈ (l : list Z)) in
  if one_of [CodeSuccess; CodeUpdated; CodeDeleted; CodeRetrieved] then 200
  else if one_of [CodeCreated] then 201
  else if one_of [CodeParamInvalid; CodeBadRequest; CodeInvalidID; CodeInternalError] then 400
  else if one_of [CodePayloadTooLarge] then 413
  else if one_of [CodeUnauthorized; CodeInvalidToken; CodeTokenExpired; CodeInvalidPassword] then 401
  else if one_of [CodeForbidden] then 403
  else if one_of [CodeAccountNotFound; CodeNotFound] then 404
  else if one_of [CodeConflict] then 409
  else if one_of [CodeValidationFailed] then 422
  else if one_of [CodeRateLimitExceeded] then 429
  else if one_of [CodeInternalServer; CodeDatabaseError; CodeMongoDBError; CodeRedisError] then 500
  else if one_of [CodeServiceUnavailable] then 503
  else if one_of [CodeGatewayTimeout] then 504
  else if (20000 <=? code) && (code <? 30000) then 200
  else if (40000 <=? code) && (code <? 41000) then 400
  else if (41000 <=? code) && (code <? 42000) then 401
  else if (43000 <=? code) && (code <? 44000) then 403
  else if (44000 <=? code) && (code <? 45000) then 404
  else if (49000 <=? code) && (code <? 50000) then 409
  else if (50000 <=? code) && (code <? 60000) then 500
  else 500.

(** [context.Canceled] and [context.DeadlineExceeded]. *)
Definition context_Canceled : error := ESentinel "context canceled".
Definition context_DeadlineExceeded : error := ESentinel "context deadline exceeded".

Definition is_context_error (e : error) : bool :=
  errors_Is e context_Canceled || errors_Is e context_DeadlineExceeded.

(** ** Errors of the submission service *)

Definition ErrSubmissionNotFound := NewAppError CodeNotFound "submission not found" None.
Definition ErrSubmissionForbidden := NewAppError CodeForbidden "you are not allowed to access this submission" None.
Definition ErrInvalidSubmissionID := NewAppError CodeBadRequest "invalid submission ID" None.
Definition ErrSubmissionUnauthenticated := NewAppError CodeUnauthorized "submission authentication required" None.
Definition ErrInvalidProblemID := NewAppError CodeBadRequest "invalid problem ID" None.
Definition ErrInvalidUserID := NewAppError CodeBadRequest "invalid user ID" None.
Definition ErrProblemActorUnauthenticated := NewAppError CodeUnauthorized "problem actor authentication required" None.
Definition ErrProblemActorForbidden := NewAppError CodeForbidden "problem access forbidden" None.
Definition ErrProblemNotFound := NewAppError CodeNotFound "problem not found" None.
Definition ErrProblemServiceUnavailable := NewAppError CodeServiceUnavailable "problem service unavailable" None.
Definition ErrAuthServiceUnavailable := NewAppError CodeServiceUnavailable "auth service unavailable" None.
Definition ErrPublicProfileNotFound := NewAppError CodeNotFound "public profile not found" None.
Definition ErrInvalidLanguage := NewAppError CodeBadRequest "invalid submission language" None.
Definition ErrInvalidSourceCode := NewAppError CodeBadRequest "invalid source code" None.
Definition ErrSourceCodeTooLarge := NewAppError CodeBadRequest "source code is too large" None.
Definition ErrInvalidRunTestCase := NewAppError CodeBadRequest "invalid run testcase" None.
Definition ErrRunPayloadTooLarge := NewAppError CodePayloadTooLarge "run payload is too large" None.
Definition ErrUnsupportedRunLanguage := NewAppError CodeValidationFailed "unsupported run language" None.
Definition ErrJudgeWorkerUnavailable := NewAppError CodeServiceUnavailable "judge worker unavailable" None.
Definition ErrJudgeWorkerTimeout := NewAppError CodeGatewayTimeout "judge worker timeout" None.
Definition ErrInvalidSubmissionStatus := NewAppError CodeBadRequest "invalid submission status" None.
Definition ErrInvalidJudgeResult := NewAppError CodeBadRequest "invalid judge result" None.
Definition ErrInvalidPage := NewAppError CodeBadRequest "invalid page" None.
Definition ErrInvalidLimit := NewAppError CodeBadRequest "invalid limit" None.
Definition ErrInvalidStatusTransition := NewAppError CodeConflict "invalid submission status transition" None.
Definition ErrSubmissionRejudgeConflict := NewAppError CodeConflict "submission cannot be rejudged in its current state" None.
Definition ErrSubmissionTestCaseRequired := NewAppError CodeConflict "active testcase dataset is required before rejudge" None.
Definition ErrSubmissionCooldownUnavailable := NewAppError CodeServiceUnavailable "submission protection is temporarily unavailable" None.
Definition ErrInvalidStreamTicket := NewAppError CodeUnauthorized "invalid submission stream ticket" None.
Definition ErrExpiredStreamTicket := NewAppError CodeUnauthorized "expired submission stream ticket" None.
Definition ErrSubmissionStreamUnsupported := NewAppError CodeInternalServer "submission stream unsupported" None.
Definition ErrInternalServer := NewAppError CodeInternalServer "internal server error" None.

(** ** Errors of the judge worker *)

(** [IsNonRetryable]: [errors.As] with a [nonRetryableError] target. *)
Fixpoint IsNonRetryable (e : error) : bool :=
  match e with
  | ENonRetryable _ => true
  | EApp _ _ (Some c) _ | EWrap _ c => IsNonRetryable c
  | _ => false
  end.

Definition MarkNonRetryable (e : error) : error :=
  if IsNonRetryable e then e else ENonRetryable e.

(** ** gRPC status codes *)

Definition code_Unknown : Z := 2.
Definition code_InvalidArgument : Z := 3.
Definition code_DeadlineExceeded : Z := 4.
Definition code_NotFound : Z := 5.
Definition code_AlreadyExists : Z := 6.
Definition code_PermissionDenied : Z := 7.
Definition code_ResourceExhausted : Z := 8.
Definition code_FailedPrecondition : Z := 9.
Definition code_Internal : Z := 13.
Definition code_Unavailable : Z := 14.
Definition code_Unauthenticated : Z := 16.

(** [status.Code] of a non-nil error: the first status of its chain. *)
Fixpoint status_Code (e : error) : Z :=
  match e with
  | EStatus c _ => c
  | EApp _ _ (Some c) _ | EWrap _ c | ENonRetryable c => status_Code c
  | _ => code_Unknown
  end.

(** ** Facts *)

Lemma errors_Is_refl_app c m o r c' m' o' r' :
  errors_Is (EApp c m o r) (EApp c' m' o' r') = (c =? c')
    || match o with Some e => errors_Is e (EApp c' m' o' r') | None => false end.
Proof. destruct o; reflexivity. Qed.

Lemma IsNonRetryable_mark e : IsNonRetryable (MarkNonRetryable e) = true.
Proof. unfold MarkNonRetryable. destruct (IsNonRetryable e) eqn:E; [done|reflexivity]. Qed.

Lemma MarkNonRetryable_text e : error_text (MarkNonRetryable e) = error_text e.
Proof. unfold MarkNonRetryable. by destruct (IsNonRetryable e). Qed.

(** Roles and authenticated claims: pkg/rbac/role.go and pkg/auth/claims.go. *)

(** [type Role string]: any text may arrive, four of them are roles. *)
Definition Role : Type := string.
Definition RoleUser : Role := "user".
Definition RoleContributor : Role := "contributor".
Definition RoleModerator : Role := "moderator".
Definition RoleAdmin : Role := "admin".

Definition Level (r : Role) : Z :=
  if bool_decide (r = RoleUser) then 1
  else if bool_decide (r = RoleContributor) then 2
  else if bool_decide (r = RoleModerator) then 3
  else if bool_decide (r = RoleAdmin) then 4
  else 0.

Definition AtLeast (r min : Role) : bool := Level min <=? Level r.

Definition ParseRole (value : string) : option Role :=
  if 0 <? Level value then Some value else None.

Record Claims := mkClaims {
  UserID : string;
  Username : string;
  ClaimRole : Role;
  TokenIssuedAt : Z;
}.

(** The role switch of the user-facing submission use cases:
    [case RoleUser, RoleContributor, RoleModerator, RoleAdmin]. *)
Definition known_role (r : Role) : bool :=
  bool_decide (r ∈ [RoleUser; RoleContributor; RoleModerator; RoleAdmin]).

Lemma Level_range r : 0 <= Level r <= 4.
Proof. unfold Level. repeat case_match; lia. Qed.

Lemma known_role_level r : known_role r = true <-> 0 < Level r.
Proof.
  unfold known_role, Level. rewrite bool_decide_eq_true, !elem_of_cons, elem_of_nil.
  repeat (case_bool_decide; [naive_solver lia|]). naive_solver lia.
Qed.

Lemma AtLeast_refl r : AtLeast r r = true.
Proof. apply Z.leb_refl. Qed.

Lemma AtLeast_trans a b c : AtLeast a b = true -> AtLeast b c = true -> AtLeast a c = true.
Proof. unfold AtLeast. rewrite !Z.leb_le. lia. Qed.
