(* ===== verification/GoMonad.v ===== *)
(** State and error monad of the embedding.

    A Go function that reads or changes the outside world and returns
    [(T, error)] is a computation [M W T]: from a world [W] (database, queues,
    clocks, caches, ...) to either an error or a value, and the world after the
    call.  What the world is stays a parameter of the components that only
    talk to it through their ports. *)

From S2P Require Import Prelude GoString GoError.

Definition M (W A : Type) : Type := W -> (error + A) * W.

Definition ret {W A} (a : A) : M W A := fun w => (inr a, w).
Definition fail {W A} (e : error) : M W A := fun w => (inl e, w).
Definition bind {W A B} (m : M W A) (f : A -> M W B) : M W B :=
  fun w => match m w with
           | (inl e, w') => (inl e, w')
           | (inr a, w') => f a w'
           end.

(** [x, err := m(); ...] with the error handled by the continuation. *)
Definition try {W A} (m : M W A) : M W (error + A) :=
  fun w => let '(r, w') := m w in (inr r, w').

(** [if err := m(); err != nil { return h(err) }]. *)
Definition on_error {W A} (h : error -> error) (m : M W A) : M W A :=
  fun w => match m w with
           | (inl e, w') => (inl (h e), w')
           | (inr a, w') => (inr a, w')
           end.

(** [if b { return err }]. *)
Definition guard {W} (b : bool) (e : error) : M W unit := if b then fail e else ret tt.

Declare Scope go_scope.
Delimit Scope go_scope with go.
Notation "'let*' x := m 'in' k" := (bind m (fun x => k))
  (at level 10, x pattern, m at level 100, k at level 200) : go_scope.
Notation "m ;; k" := (bind m (fun _ => k))
  (at level 100, k at level 200, right associativity) : go_scope.
#[global] Open Scope go_scope.

(** ** Reasoning about runs *)

Lemma bind_inr {W A B} (m : M W A) (f : A -> M W B) w a w' :
  m w = (inr a, w') -> bind m f w = f a w'.
Proof. unfold bind. by intros ->. Qed.

Lemma bind_inl {W A B} (m : M W A) (f : A -> M W B) w e w' :
  m w = (inl e, w') -> bind m f w = (inl e, w').
Proof. unfold bind. by intros ->. Qed.

Lemma bind_inr_inv {W A B} (m : M W A) (f : A -> M W B) w b w'' :
  bind m f w = (inr b, w'') -> exists a w', m w = (inr a, w') /\ f a w' = (inr b, w'').
Proof. unfold bind. destruct (m w) as [[e|a] w']; [done|eauto]. Qed.

Lemma bind_inl_inv {W A B} (m : M W A) (f : A -> M W B) w e w'' :
  bind m f w = (inl e, w'') ->
  m w = (inl e, w'') \/ exists a w', m w = (inr a, w') /\ f a w' = (inl e, w'').
Proof.
  unfold bind. destruct (m w) as [[e'|a] w'] eqn:E; [|eauto].
  injection 1 as -> ->. by left.
Qed.

Lemma on_error_inr {W A} h (m : M W A) w a w' :
  on_error h m w = (inr a, w') <-> m w = (inr a, w').
Proof. unfold on_error. destruct (m w) as [[e|x] w1]; split; naive_solver. Qed.

Lemma on_error_inl_inv {W A} h (m : M W A) w e w' :
  on_error h m w = (inl e, w') -> exists e0, e = h e0 /\ m w = (inl e0, w').
Proof. unfold on_error. destruct (m w) as [[e0|x] w1]; naive_solver. Qed.

(** A property of the world that a computation keeps. *)
Definition keeps {W A X} (view : W -> X) (m : M W A) : Prop :=
  forall w r w', m w = (r, w') -> view w' = view w.

Lemma keeps_ret {W A X} (view : W -> X) (a : A) : keeps view (ret a).
Proof. intros w r w' [= <- <-]. done. Qed.

Lemma keeps_fail {W A X} (view : W -> X) e : keeps view (fail (A := A) e).
Proof. intros w r w' [= <- <-]. done. Qed.

Lemma keeps_bind {W A B X} (view : W -> X) (m : M W A) (f : A -> M W B) :
  keeps view m -> (forall a, keeps view (f a)) -> keeps view (bind m f).
Proof.
  intros Hm Hf w r w''. unfold bind. destruct (m w) as [[e|a] w'] eqn:E.
  - intros [= <- <-]. eauto.
  - intros Hr. rewrite (Hf _ _ _ _ Hr). eauto.
Qed.

Lemma keeps_guard {W X} (view : W -> X) b e : keeps view (guard (W := W) b e).
Proof. unfold guard. destruct b; [apply keeps_fail|apply keeps_ret]. Qed.

Lemma keeps_on_error {W A X} (view : W -> X) h (m : M W A) : keeps view m -> keeps view (on_error h m).
Proof.
  intros Hm w r w'. unfold on_error. destruct (m w) as [[e|a] w1] eqn:E; intros [= <- <-]; eauto.
Qed.

Lemma keeps_try {W A X} (view : W -> X) (m : M W A) : keeps view m -> keeps view (try m).
Proof. intros Hm w r w'. unfold try. destruct (m w) as [x w1] eqn:E. intros [= <- <-]. eauto. Qed.

Lemma keeps_pair {W A X Y} (v1 : W -> X) (v2 : W -> Y) (m : M W A) :
  keeps v1 m -> keeps v2 m -> keeps (fun w => (v1 w, v2 w)) m.
Proof. intros K1 K2 w r w' E. by rewrite (K1 _ _ _ E), (K2 _ _ _ E). Qed.

(** A preorder on worlds along which a computation moves. *)
Definition moves {W A} (R : relation W) (m : M W A) : Prop :=
  forall w r w', m w = (r, w') -> R w w'.

Section moves.
Context {W : Type} (R : relation W) {PR : PreOrder R}.

Lemma moves_ret {A} (a : A) : moves R (ret a).
Proof. intros w r w' [= <- <-]. reflexivity. Qed.

Lemma moves_fail {A} e : moves R (fail (A := A) e).
Proof. intros w r w' [= <- <-]. reflexivity. Qed.

Lemma moves_bind {A B} (m : M W A) (f : A -> M W B) :
  moves R m -> (forall a, moves R (f a)) -> moves R (bind m f).
Proof.
  intros Hm Hf w r w''. unfold bind. destruct (m w) as [[e|a] w'] eqn:E.
  - intros [= <- <-]. eauto.
  - intros Hr. etrans; [by eapply Hm|by eapply Hf].
Qed.

Lemma moves_guard b e : moves R (guard b e).
Proof. unfold guard. destruct b; [apply moves_fail|apply moves_ret]. Qed.

Lemma moves_on_error {A} h (m : M W A) : moves R m -> moves R (on_error h m).
Proof. intros Hm w r w'. unfold on_error. destruct (m w) as [[e|a] w1] eqn:E; intros [= <- <-]; eauto. Qed.

Lemma moves_try {A} (m : M W A) : moves R m -> moves R (try m).
Proof. intros Hm w r w'. unfold try. destruct (m w) as [x w1] eqn:E. intros [= <- <-]. eauto. Qed.

Lemma moves_weaken {A} (R' : relation W) (m : M W A) : (forall w w', R' w w' -> R w w') -> moves R' m -> moves R m.
Proof. intros H Hm w r w' E. eauto. Qed.
End moves.

(** Decompose a computation along its control flow; what is left are the calls
    of the ports. *)
Ltac moves_step :=
  lazymatch goal with
  | |- moves _ (ret _) => apply moves_ret; exact _
  | |- moves _ (fail _) => apply moves_fail; exact _
  | |- moves _ (guard _ _) => apply moves_guard; exact _
  | |- moves _ (bind _ _) => apply moves_bind; [exact _| |intros ?]
  | |- moves _ (on_error _ _) => apply moves_on_error
  | |- moves _ (try _) => apply moves_try
  | |- moves _ (match ?x with _ => _ end) => destruct x
  | |- moves _ (let _ := _ in _) => cbv zeta
  end.

(** A computation that leaves a property of the world alone when it fails. *)
Definition undoes {W A X} (view : W -> X) (m : M W A) : Prop :=
  forall w e w', m w = (inl e, w') -> view w' = view w.

Lemma keeps_undoes {W A X} (view : W -> X) (m : M W A) : keeps view m -> undoes view m.
Proof. intros H w e w' E. eauto. Qed.

(** Everything before the step that may fail keeps the property ... *)
Lemma undoes_bind {W A B X} (view : W -> X) (m : M W A) (f : A -> M W B) :
  keeps view m -> (forall a, undoes view (f a)) -> undoes view (bind m f).
Proof.
  intros Hm Hf w e w' [H|(a & w1 & H1 & H2)]%bind_inl_inv; [eauto|].
  rewrite (Hf _ _ _ _ H2). eauto.
Qed.

(** ... and nothing after it fails. *)
Lemma undoes_last {W A B X} (view : W -> X) (m : M W A) (f : A -> M W B) :
  undoes view m -> (forall a w, exists b w', f a w = (inr b, w')) -> undoes view (bind m f).
Proof.
  intros Hm Hf w e w' [H|(a & w1 & H1 & H2)]%bind_inl_inv; [eauto|].
  destruct (Hf a w1) as (b & w2 & E). congruence.
Qed.

Lemma undoes_ret {W A X} (view : W -> X) (a : A) : undoes view (ret a).
Proof. done. Qed.
Lemma undoes_fail {W A X} (view : W -> X) e : undoes view (fail (A := A) e).
Proof. apply keeps_undoes, keeps_fail. Qed.
Lemma undoes_on_error {W A X} (view : W -> X) h (m : M W A) : undoes view m -> undoes view (on_error h m).
Proof. intros H w e w' (e0 & _ & E)%on_error_inl_inv. eauto. Qed.

#[export] Hint Resolve keeps_ret keeps_fail keeps_guard undoes_ret undoes_fail : judge.

(** Split a successful run into the runs of its parts. *)
Ltac run_inv H :=
  repeat lazymatch type of H with
  | bind _ _ _ = (inr _, _) =>
      let a := fresh "a" in let w := fresh "w" in let E := fresh "E" in
      apply bind_inr_inv in H as (a & w & E & H)
  | guard ?b _ _ = (inr _, _) => unfold guard in H; destruct b eqn:?; [discriminate H|]
  end;
  repeat match goal with u : unit |- _ => destruct u end.
