(* ===== verification/Patterns.v ===== *)
(** Go's package [regexp], for the patterns the services use.

    Leftmost-first (Perl) matching by backtracking with an explicit
    continuation.  Patterns are matched byte by byte, which agrees with Go's
    rune-wise matching here: every class of the patterns either consists of
    ASCII characters or excludes ASCII characters only, so it accepts all
    bytes of a multi-byte encoding.

    At the end: search texts escaped for the operator LIKE of SQL, and what an
    escaped pattern matches. *)

From S2P Require Import Prelude GoString.

Inductive regex :=
| RSet (p : ascii -> bool)          (* a character class *)
| REps
| RSeq (a b : regex)
| RAlt (a b : regex)                (* a|b, a preferred *)
| RStar (a : regex)                 (* a*, greedy *)
| RLazy (a : regex)                 (* a*?, lazy *)
| RGroup (n : nat) (a : regex)      (* (a), capture number n *)
| RBol                              (* ^ with flag (?m): start of text or after a newline *)
| REol                              (* $ with flag (?m): end of text or before a newline *)
| RBeg                              (* ^ without flags: start of text *)
| REnd                              (* $ without flags: end of text *)
| RWordB.                           (* \b *)

(** A position of the subject: the byte before it and the rest of the text. *)
Definition pos : Type := option ascii * bytes.

(** Captures, most recent first. *)
Definition caps : Type := list (nat * bytes).

Definition newline : ascii := ascii_of_N 10.
Definition is_word (c : ascii) : bool :=
  within 48 57 c || within 65 90 c || within 97 122 c || is_byte 95 c.
Definition at_word (o : option ascii) : bool := match o with Some c => is_word c | None => false end.

(** The text consumed between two positions of the same subject. *)
Definition consumed (from to : bytes) : bytes := take (length from - length to) from.

Section matcher.
Context {X : Type}.

(** Iterations of a starred sub-pattern; every iteration has to consume. *)
Fixpoint star_loop (step : pos -> caps -> (pos -> caps -> option X) -> option X) (greedy : bool)
    (fuel : nat) (i : pos) (cs : caps) (k : pos -> caps -> option X) : option X :=
  let more (fuel' : nat) :=
    step i cs (fun i' cs' =>
      if (length i'.2 <? length i.2)%nat then star_loop step greedy fuel' i' cs' k else None) in
  match fuel with
  | O => k i cs
  | S fuel' =>
      if greedy
      then match more fuel' with Some x => Some x | None => k i cs end
      else match k i cs with Some x => Some x | None => more fuel' end
  end.

Fixpoint rmatch (r : regex) (i : pos) (cs : caps) (k : pos -> caps -> option X) : option X :=
  match r with
  | RSet p => match i.2 with
              | c :: l => if p c then k (Some c, l) cs else None
              | [] => None
              end
  | REps => k i cs
  | RSeq a b => rmatch a i cs (fun i' cs' => rmatch b i' cs' k)
  | RAlt a b => match rmatch a i cs k with Some x => Some x | None => rmatch b i cs k end
  | RStar a => star_loop (rmatch a) true (length i.2) i cs k
  | RLazy a => star_loop (rmatch a) false (length i.2) i cs k
  | RGroup n a => rmatch a i cs (fun i' cs' => k i' ((n, consumed i.2 i'.2) :: cs'))
  | RBol => match i.1 with
            | None => k i cs
            | Some c => if Stdlib.Strings.Ascii.eqb c newline then k i cs else None
            end
  | REol => match i.2 with
            | [] => k i cs
            | c :: _ => if Stdlib.Strings.Ascii.eqb c newline then k i cs else None
            end
  | RBeg => match i.1 with None => k i cs | Some _ => None end
  | REnd => match i.2 with [] => k i cs | _ :: _ => None end
  | RWordB => if xorb (at_word i.1) (at_word (head i.2)) then k i cs else None
  end.
End matcher.

(** The preferred match starting exactly at a position: the position after it
    and its captures. *)
Definition match_at (r : regex) (i : pos) : option (pos * caps) :=
  rmatch r i [] (fun i' cs => Some (i', cs)).

(** The leftmost match: the text skipped, the captures, and the position after
    the match ([regexp.FindStringSubmatch]). *)
Fixpoint find_from (r : regex) (before : option ascii) (l : bytes) (skipped : bytes)
  : option (bytes * pos * caps) :=
  match match_at r (before, l) with
  | Some (i', cs) => Some (rev skipped, i', cs)
  | None => match l with
            | [] => None
            | c :: l' => find_from r (Some c) l' (c :: skipped)
            end
  end.

Definition capture (cs : caps) (n : nat) : bytes :=
  match find_first (fun p => bool_decide (p.1 = n)) cs with Some p => p.2 | None => [] end.

Definition FindSubmatch (r : regex) (l : bytes) : option caps :=
  match find_from r None l [] with Some (_, _, cs) => Some cs | None => None end.

(** Successive non-overlapping matches.  The patterns of the services never
    match the empty text, so every match consumes and [length l] matches are
    enough. *)
Fixpoint replace_loop (r : regex) (f : caps -> bytes) (fuel : nat) (i : pos) : bytes :=
  match fuel with
  | O => i.2
  | S n => match find_from r i.1 i.2 [] with
           | None => i.2
           | Some (skipped, i', cs) =>
               if (length i'.2 <? length i.2)%nat
               then skipped ++ f cs ++ replace_loop r f n i'
               else i.2
           end
  end.

(** [re.ReplaceAllString(s, repl)] with the expansion of [repl] given by [f]. *)
Definition ReplaceAll (r : regex) (f : caps -> bytes) (l : bytes) : bytes :=
  replace_loop r f (length l) (None, l).

Fixpoint find_all_loop (r : regex) (fuel : nat) (i : pos) : list caps :=
  match fuel with
  | O => []
  | S n => match find_from r i.1 i.2 [] with
           | None => []
           | Some (_, i', cs) =>
               if (length i'.2 <? length i.2)%nat then cs :: find_all_loop r n i' else []
           end
  end.

(** [re.FindAllStringSubmatch(s, -1)]. *)
Definition FindAll (r : regex) (l : bytes) : list caps := find_all_loop r (length l) (None, l).

(** ** Pattern building blocks *)

Definition RChr (c : ascii) : regex := RSet (Stdlib.Strings.Ascii.eqb c).
Definition RLit (s : string) : regex := foldr (fun c r => RSeq (RChr c) r) REps (chars s).
Definition RSeqs (l : list regex) : regex := foldr RSeq REps l.
Fixpoint RAlts (l : list regex) : regex :=
  match l with
  | [] => RSet (fun _ => false)
  | [r] => r
  | r :: t => RAlt r (RAlts t)
  end.
Definition ROpt (r : regex) : regex := RAlt r REps.
Definition RPlus (r : regex) : regex := RSeq r (RStar r).
(** [\s], [\d] and [.] *)
Definition RSpace : regex := RSet (fun c => within 9 10 c || within 12 13 c || is_byte 32 c).
Definition RDigit : regex := RSet is_digit.
Definition RAny : regex := RSet (fun c => negb (is_byte 10 c)).

(** ** Facts *)

(** Replacing with a pattern that has no match anywhere leaves the text. *)
Lemma ReplaceAll_no_match r f l : find_from r None l [] = None -> ReplaceAll r f l = l.
Proof. unfold ReplaceAll. destruct l; simpl; [done|]. by intros ->. Qed.

(** Search by pattern: the escaping of search texts that the repositories share
    (escapeLikePattern in services/auth and services/problem), the operator LIKE
    of SQL, and what an escaped pattern matches. *)

(** ** Search patterns *)

Definition percent : ascii := ascii_of_N 37.
Definition underscore : ascii := ascii_of_N 95.
Definition back : ascii := ascii_of_N 92.

(** [strings.ReplaceAll(value, c, r)] for a single character [c]. *)
Definition replace_char (c : ascii) (r l : bytes) : bytes :=
  concat (map (fun x => if Stdlib.Strings.Ascii.eqb x c then r else [x]) l).

Definition escapeLikePattern (value : bytes) : bytes :=
  replace_char underscore [back; underscore]
    (replace_char percent [back; percent] (replace_char back [back; back] value)).

Definition search_pattern (search : string) : string := str (percent :: escapeLikePattern (chars search) ++ [percent]).

(** ** LIKE *)

(** The characters of a text. *)
Definition characters (l : bytes) : list bytes := map fst (runes l).

(** The operator LIKE with the backslash as its escape character; [fold] maps
    characters that ILIKE identifies to the same value. *)
Section like.
Context (fold : bytes -> bytes).

Fixpoint like (p t : list bytes) : bool :=
  match p with
  | [] => match t with [] => true | _ => false end
  | c :: p =>
      if bool_decide (c = [percent]) then
        (fix any (t : list bytes) : bool := like p t || match t with [] => false | _ :: t => any t end) t
      else if bool_decide (c = [underscore]) then match t with [] => false | _ :: t => like p t end
      else if bool_decide (c = [back]) then
        match p, t with
        | d :: p, x :: t => bool_decide (fold x = fold d) && like p t
        | _, _ => false
        end
      else match t with [] => false | x :: t => bool_decide (fold x = fold c) && like p t end
  end.

(** A text contains another, up to [fold]. *)
Definition contains (s t : list bytes) : Prop := exists a b c, t = a ++ b ++ c /\ map fold b = map fold s.

Definition special (c : bytes) : bool := bool_decide (c = [percent]) || bool_decide (c = [underscore]) || bool_decide (c = [back]).
Definition escape_char (c : bytes) : list bytes := if special c then [[back]; c] else [c].

Lemma like_back d p t : like ([back] :: d :: p) t = match t with [] => false | x :: t => bool_decide (fold x = fold d) && like p t end.
Proof. reflexivity. Qed.

Lemma like_plain c p t : special c = false ->
  like (c :: p) t = match t with [] => false | x :: t => bool_decide (fold x = fold c) && like p t end.
Proof.
  intros HS. apply orb_false_iff in HS as [[H1 H2]%orb_false_iff H3]. cbn [like].
  apply bool_decide_eq_false in H1, H2, H3. by rewrite !bool_decide_false.
Qed.

(** An escaped character matches itself. *)
Lemma like_escape_char x p t : like (escape_char x ++ p) t =
  match t with [] => false | y :: t => bool_decide (fold y = fold x) && like p t end.
Proof. unfold escape_char. destruct (special x) eqn:E; cbn [app]; [apply like_back|by apply like_plain]. Qed.

Lemma like_escaped s q t : like (concat (map escape_char s) ++ q) t = true <->
  exists b c, t = b ++ c /\ map fold b = map fold s /\ like q c = true.
Proof.
  revert t. induction s as [|x s IH]; intros t; cbn [map concat].
  { split; [intros HL; by exists [], t|]. intros (b & c & -> & E & HL). by destruct b. }
  rewrite <- app_assoc, like_escape_char. destruct t as [|y t].
  { split; [done|]. by intros ([|] & c & [=] & [=] & _). }
  rewrite andb_true_iff, bool_decide_eq_true, IH. split.
  - intros [E (b & c & -> & EB & HL)]. exists (y :: b), c. cbn. split_ands; [done|by f_equal|done].
  - intros (b & c & ET & EB & HL). destruct b as [|y' b]; [done|]. cbn in ET, EB. injection ET as <- ->. injection EB as E EB.
    split; [done|]. eauto.
Qed.

Lemma like_percent q t : like ([percent] :: q) t = true <-> exists a b, t = a ++ b /\ like q b = true.
Proof.
  cbn [like]. rewrite bool_decide_true by done. induction t as [|x t IH].
  - rewrite orb_false_r. split; [by exists [], []|]. intros ([|] & b & E & HL); cbn in E; [by subst|discriminate E].
  - rewrite orb_true_iff, IH. split.
    + intros [HL|(a & b & -> & HL)]; [by exists [], (x :: t)|by exists (x :: a), b].
    + intros ([|y a] & b & E & HL); cbn [app] in E; [left; by subst b|right]. injection E as <- ->. eauto.
Qed.

(** A search pattern matches the texts that contain the search text. *)
Lemma like_search s t : like ([percent] :: concat (map escape_char s) ++ [[percent]]) t = true <-> contains s t.
Proof.
  rewrite like_percent. split.
  - intros (a & b & -> & (b' & c & -> & E & _)%like_escaped). by exists a, b', c.
  - intros (a & b & c & -> & E). exists a, (b ++ c). split; [done|]. apply like_escaped. exists b, c. split; [done|]. split; [done|].
    apply like_percent. exists c, []. by rewrite app_nil_r.
Qed.
End like.

(** *** The escaping of the repositories *)

Lemma replace_app a r x y : replace_char a r (x ++ y) = replace_char a r x ++ replace_char a r y.
Proof. unfold replace_char. by rewrite map_app, concat_app. Qed.
Lemma replace_none a r x : Forall (fun c => c <> a) x -> replace_char a r x = x.
Proof.
  unfold replace_char. induction 1 as [|c x Hc _ IH]; [done|]. cbn. destruct (Stdlib.Strings.Ascii.eqb_spec c a); [done|]. cbn. by f_equal.
Qed.

Lemma escape_rune r l : is_rune r = true -> escapeLikePattern (r ++ l) = concat (escape_char r) ++ escapeLikePattern l.
Proof.
  intros Hr. unfold escapeLikePattern. rewrite !replace_app. f_equal.
  destruct (decide (r = [percent])) as [->|N1]; [reflexivity|]. destruct (decide (r = [underscore])) as [->|N2]; [reflexivity|].
  destruct (decide (r = [back])) as [->|N3]; [reflexivity|].
  assert (Forall (fun c => c <> back /\ c <> percent /\ c <> underscore) r) as HF.
  { assert (code back = 92 /\ code percent = 37 /\ code underscore = 95)%N as (C1 & C2 & C3) by done.
    rune_cases Hr; repeat apply Forall_cons_2; try apply Forall_nil_2; split_ands; intros ->; first [done|range_contra]. }
  unfold escape_char, special. rewrite !bool_decide_false by done. cbn. rewrite app_nil_r.
  assert (forall a x, (a = back \/ a = percent \/ a = underscore) -> replace_char a x r = r) as HR.
  { intros a x Ha. apply replace_none. eapply Forall_impl; [exact HF|]. cbn. intros c (?&?&?). by destruct Ha as [->|[->| ->]]. }
  by rewrite !HR by auto.
Qed.

Lemma pattern_characters s : Valid s -> characters (percent :: escapeLikePattern s ++ [percent])
  = [percent] :: concat (map escape_char (characters s)) ++ [[percent]].
Proof.
  intros HV. unfold characters. change (percent :: ?l) with ([percent] ++ l) at 1. rewrite runes_app_rune by done. cbn [map fst]. f_equal.
  induction HV as [|r l Hr HV IH]; [reflexivity|]. rewrite escape_rune, <- app_assoc by done.
  rewrite (runes_app_rune r l Hr). cbn [map fst concat]. rewrite <- app_assoc, <- IH. unfold escape_char.
  destruct (special r) eqn:ES; cbn [concat]; rewrite ?app_nil_r; [|by rewrite runes_app_rune].
  rewrite <- app_assoc, !runes_app_rune by done. done.
Qed.

(** The operator ILIKE as PostgreSQL documents it. *)
Definition ilike_law (fold : bytes -> bytes) (ILIKE : string -> string -> bool) : Prop :=
  forall p t, ILIKE p t = like fold (characters (chars p)) (characters (chars t)).

Definition text_contains (fold : bytes -> bytes) (s t : string) : Prop := contains fold (characters (chars s)) (characters (chars t)).

(** The pattern built from a search text finds the texts that contain it. *)
Lemma search_finds fold ILIKE s t : ilike_law fold ILIKE -> ValidString s = true ->
  ILIKE (search_pattern s) t = true <-> text_contains fold s t.
Proof.
  intros HL HV. rewrite HL. unfold search_pattern, text_contains. rewrite chars_str.
  rewrite pattern_characters by by apply valid_utf8_spec. apply like_search.
Qed.
