(* ===== verification/Sanitize.v ===== *)
(** Error texts shown to users: the worker's output sanitizer
    (workers/judge/internal/adapter/outbound/execute/diagnostics.go) and the
    submission service's public error message
    (services/submission/internal/application/usecase/result/apply_judge_result.go).
    The two services carry the same patterns and the same truncation. *)

From S2P Require Import Prelude GoString Patterns.

(** ** The patterns *)

Definition internal_dirs : regex :=
  RAlts (map RLit ["/tmp/"; "/w/"; "/workspace/"; "/app/workspace/"; "/judge/"]%string).
Definition source_names : regex :=
  RAlts (map RLit ["main.go"; "main.cpp"; "main.py"; "Main.java"]%string).
(** Any character but a colon, white space or a double quote. *)
Definition path_char : regex :=
  RSet (fun c => negb (is_byte 58 c || within 9 10 c || within 12 13 c || is_byte 32 c || is_byte 34 c)).

Definition internalPathWithSource : regex :=
  RSeqs [internal_dirs; RStar path_char; RLit "/"; RGroup 1 source_names].
Definition remainingInternalPrefix : regex := RPlus internal_dirs.
Definition relativeSourcePath : regex := RSeqs [RLit "./"; RGroup 1 source_names].

(** The three replacements, in the order both services apply them. *)
Definition strip_paths (l : bytes) : bytes :=
  let l := ReplaceAll internalPathWithSource (fun cs => capture cs 1) l in
  let l := ReplaceAll relativeSourcePath (fun cs => capture cs 1) l in
  ReplaceAll remainingInternalPrefix (fun _ => []) l.

(** [stripControlCharacters]: newline, carriage return and tab are kept, other
    C0 controls and DEL are dropped. *)
Definition keep_rune (r : bytes) : bool :=
  match r with
  | [c] => is_byte 10 c || is_byte 13 c || is_byte 9 c
           || negb ((code c <? 32)%N || is_byte 127 c)
  | _ => true
  end.
Definition stripControlCharacters (l : bytes) : bytes := map_keep keep_rune l.

Definition max_error_bytes : nat := Z.to_nat 4096.

(** [for !utf8.ValidString(m) && len(m) > 0 { m = m[:len(m)-1] }]; [n] bounds
    the iterations by the length of the text. *)
Fixpoint shrink_to_valid (n : nat) (l : bytes) : bytes :=
  match n with
  | O => l
  | S n' => if negb (valid_utf8 l) && (0 <? length l)%nat then shrink_to_valid n' (removelast l) else l
  end.

Definition ellipsis : bytes := [ascii_of_N 226; ascii_of_N 128; ascii_of_N 166].

(** Cut to the byte limit, back off to a rune boundary, mark the cut. *)
Definition truncate_message (l : bytes) : bytes :=
  let t := take max_error_bytes l in trim (shrink_to_valid (length t) t) ++ ellipsis.

(** The common tail: [None] is the empty message. *)
Definition clean_message (l : bytes) : option bytes :=
  let l := trim (stripControlCharacters (to_valid l)) in
  match l with
  | [] => None
  | _ =>
      if (length l <=? max_error_bytes)%nat then Some l
      else Some (truncate_message l)
  end.

Module Worker.
(** [sanitizeOutput] *)
Definition sanitizeOutput (output : string) : string := str (trim (strip_paths (chars output))).

(** [publicErrorMessage]: the empty string when nothing is left. *)
Definition publicErrorMessage (message : string) : string :=
  match clean_message (chars (sanitizeOutput message)) with
  | Some l => str l
  | None => ""
  end.
End Worker.

Module Submission.
(** [publicErrorMessage] of the submission service: [None] is the nil pointer. *)
Definition publicErrorMessage (value : option string) : option string :=
  match value with
  | None => None
  | Some v => str <$> clean_message (strip_paths (chars v))
  end.
End Submission.

(** ** Facts *)

(** Bytes that may appear in a public message: no C0 control but newline,
    carriage return and tab, and no DEL. *)
Definition public_byte (c : ascii) : bool :=
  is_byte 10 c || is_byte 13 c || is_byte 9 c || negb ((code c <? 32)%N || is_byte 127 c).

Lemma strip_valid l : Valid l -> Valid (stripControlCharacters l).
Proof.
  unfold stripControlCharacters, map_keep. induction 1 as [|r l Hr _ IH]; [constructor|].
  rewrite runes_app_rune by done. simpl. destruct (keep_rune r); simpl; auto with judge.
Qed.

Lemma keep_rune_public r : is_rune r = true -> keep_rune r = true -> Forall (fun c => public_byte c = true) r.
Proof.
  assert (forall c, (128 <= code c)%N -> public_byte c = true) as K.
  { intros c Hc. unfold public_byte, is_byte.
    destruct (N.ltb_spec (code c) 32), (N.eqb_spec (code c) 127); try lia; simpl; by rewrite !orb_true_r. }
  intros Hr Hk. rune_cases Hr; simpl in Hk; repeat constructor; try done; apply K; ranges; lia.
Qed.

Lemma strip_public l : Valid l -> Forall (fun c => public_byte c = true) (stripControlCharacters l).
Proof.
  unfold stripControlCharacters, map_keep. induction 1 as [|r l Hr _ IH]; [constructor|].
  rewrite runes_app_rune by done. simpl. apply Forall_app. split; [|done].
  destruct (keep_rune r) eqn:E; [by apply keep_rune_public|constructor].
Qed.

Lemma removelast_snoc {A} (x : A) l : exists y, x :: l = removelast (x :: l) ++ [y].
Proof. eexists. apply (app_removelast_last x). done. Qed.

Lemma shrink_spec n l : (length l <= n)%nat ->
  Valid (shrink_to_valid n l) /\ exists p, l = shrink_to_valid n l ++ p.
Proof.
  revert l. induction n as [|n IH]; intros l Hl; simpl.
  - destruct l; [split; [constructor|by exists []]|simpl in Hl; lia].
  - destruct (valid_utf8 l) eqn:E; simpl.
    { split; [by apply valid_utf8_spec|exists []; by rewrite app_nil_r]. }
    destruct l as [|c l]; simpl; [split; [constructor|by exists []]|].
    destruct (removelast_snoc c l) as [y Hy]. set (r := removelast (c :: l)) in *.
    change (match l with [] => [] | _ :: _ => c :: removelast l end) with r.
    destruct (IH r) as [H1 [q Hq]].
    { apply (f_equal length) in Hy. rewrite length_app in Hy. simpl in *. lia. }
    split; [done|]. exists (q ++ [y]). rewrite app_assoc, <- Hq. exact Hy.
Qed.

Lemma ellipsis_valid : Valid ellipsis.
Proof. apply valid_utf8_spec. reflexivity. Qed.

Lemma Forall_prefix {A} (P : A -> Prop) l1 l2 p : l1 = l2 ++ p -> Forall P l1 -> Forall P l2.
Proof. intros ->. rewrite Forall_app. naive_solver. Qed.

Lemma truncate_message_spec l : Forall (fun c => public_byte c = true) l ->
  truncate_message l <> [] /\ (length (truncate_message l) <= max_error_bytes + 3)%nat
  /\ Valid (truncate_message l) /\ Forall (fun c => public_byte c = true) (truncate_message l).
Proof.
  intros HP. unfold truncate_message. set (u := take max_error_bytes l).
  destruct (shrink_spec (length u) u ltac:(lia)) as [HS [p Hp]].
  set (v := shrink_to_valid (length u) u) in *.
  assert (length u <= max_error_bytes)%nat by (unfold u; rewrite length_take; lia).
  split_and!.
  - intros E%(f_equal length). rewrite length_app in E. simpl in E. lia.
  - rewrite length_app. pose proof (trim_length v).
    apply (f_equal length) in Hp. rewrite length_app in Hp.
    change (length ellipsis) with 3%nat. lia.
  - apply Valid_app; [by apply trim_valid|apply ellipsis_valid].
  - apply Forall_app. split; [|by repeat constructor].
    apply trim_Forall. apply (Forall_prefix _ u v p); [done|]. by apply Forall_take.
Qed.

(** Every message that survives cleaning is non-empty, within the byte budget,
    valid UTF-8 and free of control characters. *)
Lemma clean_message_spec l m : clean_message l = Some m ->
  m <> [] /\ (length m <= max_error_bytes + 3)%nat /\ Valid m
  /\ Forall (fun c => public_byte c = true) m.
Proof.
  unfold clean_message. set (t := trim _).
  assert (Valid t) as HV by (apply trim_valid, strip_valid, to_valid_valid).
  assert (Forall (fun c => public_byte c = true) t) as HP
    by (apply trim_Forall, strip_public, to_valid_valid).
  destruct t as [|c t']; [done|]. intros H.
  destruct (Nat.leb_spec (length (c :: t')) max_error_bytes); injection H as <-.
  - split_and!; [done|lia|done|done].
  - by apply truncate_message_spec.
Qed.
