(* ===== verification/SubmissionDomain.v ===== *)
(** Entities of the submission service
    (services/submission/internal/domain/entity) and the messages exchanged
    with the judge worker (pkg/judge). *)

From S2P Require Import Prelude GoString.

(** [time.Time] as nanoseconds since the zero time of Go. *)
Definition Time : Type := Z.

(** ** Languages and statuses (submission.go) *)

Definition Language : Type := string.
Definition LanguageC : Language := "C".
Definition LanguageCPP : Language := "CPP".
Definition LanguageJava : Language := "JAVA".
Definition LanguagePython : Language := "PYTHON".
Definition LanguageGo : Language := "GO".
Definition LanguageJavaScript : Language := "JAVASCRIPT".
Definition MaxSourceCodeBytes : Z := 256 * 1024.

Definition IsExecutable (l : Language) : bool :=
  bool_decide (l ∈ [LanguageCPP; LanguageGo; LanguagePython; LanguageJava]).

Definition ParseLanguage (value : string) : option Language :=
  if bool_decide (value ∈ [LanguageC; LanguageCPP; LanguageJava; LanguagePython; LanguageGo; LanguageJavaScript])
  then Some value else None.

Definition Status : Type := string.
Definition StatusPending : Status := "PENDING".
Definition StatusJudging : Status := "JUDGING".
Definition StatusAccepted : Status := "ACCEPTED".
Definition StatusWrongAnswer : Status := "WRONG_ANSWER".
Definition StatusTimeLimitExceed : Status := "TIME_LIMIT_EXCEEDED".
Definition StatusMemoryLimitExceed : Status := "MEMORY_LIMIT_EXCEEDED".
Definition StatusOutputLimitExceed : Status := "OUTPUT_LIMIT_EXCEEDED".
Definition StatusRuntimeError : Status := "RUNTIME_ERROR".
Definition StatusCompilationError : Status := "COMPILATION_ERROR".
Definition StatusSystemError : Status := "SYSTEM_ERROR".

Definition terminal_statuses : list Status :=
  [StatusAccepted; StatusWrongAnswer; StatusTimeLimitExceed; StatusMemoryLimitExceed;
   StatusOutputLimitExceed; StatusRuntimeError; StatusCompilationError; StatusSystemError].

Definition ParseStatus (value : string) : option Status :=
  if bool_decide (value ∈ StatusPending :: StatusJudging :: terminal_statuses) then Some value else None.

Definition IsTerminalStatus (s : Status) : bool := bool_decide (s ∈ terminal_statuses).

(** ** Submission *)

Record Submission := mkSubmission {
  ID : Z;
  ProblemID : Z;
  ProblemName : string;
  SubUserID : string;
  SubUsername : string;
  SubLanguage : Language;
  SourceCode : string;
  CurrentAttemptID : string;
  SubStatus : Status;
  ExecutionTime : option Z;
  MemoryUsed : option Z;
  CompileOutput : option string;
  ErrorMessage : option string;
  CreatedAt : Time;
  UpdatedAt : Time;
}.

(** [NewSubmission]; [now] is the single call of [time.Now]. *)
Definition NewSubmission (now : Time) (problemID : Z) (problemName userID username : string)
    (language : Language) (sourceCode currentAttemptID : string) : Submission :=
  {| ID := 0; ProblemID := problemID; ProblemName := problemName; SubUserID := userID;
     SubUsername := username; SubLanguage := language; SourceCode := sourceCode;
     CurrentAttemptID := currentAttemptID; SubStatus := StatusPending;
     ExecutionTime := None; MemoryUsed := None; CompileOutput := None; ErrorMessage := None;
     CreatedAt := now; UpdatedAt := now |}.

Definition set_ID (s : Submission) (id : Z) : Submission :=
  {| ID := id; ProblemID := s.(ProblemID); ProblemName := s.(ProblemName); SubUserID := s.(SubUserID);
     SubUsername := s.(SubUsername); SubLanguage := s.(SubLanguage); SourceCode := s.(SourceCode);
     CurrentAttemptID := s.(CurrentAttemptID); SubStatus := s.(SubStatus);
     ExecutionTime := s.(ExecutionTime); MemoryUsed := s.(MemoryUsed);
     CompileOutput := s.(CompileOutput); ErrorMessage := s.(ErrorMessage);
     CreatedAt := s.(CreatedAt); UpdatedAt := s.(UpdatedAt) |}.

(** The mutable part of a submission: what every state change below sets. *)
Definition with_outcome (s : Submission) (attemptID : string) (status : Status)
    (timeUsed memoryUsed : option Z) (compileOutput errorMessage : option string) (now : Time) : Submission :=
  {| ID := s.(ID); ProblemID := s.(ProblemID); ProblemName := s.(ProblemName); SubUserID := s.(SubUserID);
     SubUsername := s.(SubUsername); SubLanguage := s.(SubLanguage); SourceCode := s.(SourceCode);
     CurrentAttemptID := attemptID; SubStatus := status;
     ExecutionTime := timeUsed; MemoryUsed := memoryUsed;
     CompileOutput := compileOutput; ErrorMessage := errorMessage;
     CreatedAt := s.(CreatedAt); UpdatedAt := now |}.

Definition MarkJudging (s : Submission) (now : Time) : Submission :=
  with_outcome s s.(CurrentAttemptID) StatusJudging s.(ExecutionTime) s.(MemoryUsed)
    s.(CompileOutput) s.(ErrorMessage) now.

Definition MarkCompleted (s : Submission) (status : Status) (timeUsed memoryUsed : option Z)
    (compileOutput errorMessage : option string) (now : Time) : Submission :=
  with_outcome s s.(CurrentAttemptID) status timeUsed memoryUsed compileOutput errorMessage now.

Definition ResetForRejudge (s : Submission) (now : Time) : Submission :=
  with_outcome s s.(CurrentAttemptID) StatusPending None None None None now.

Definition set_CurrentAttemptID (s : Submission) (a : string) : Submission :=
  with_outcome s a s.(SubStatus) s.(ExecutionTime) s.(MemoryUsed) s.(CompileOutput) s.(ErrorMessage)
    s.(UpdatedAt).

(** ** Events and snapshots (submission_stream.go) *)

Record SubmissionEvent := mkEvent {
  EvSubmissionID : Z;
  EvAttemptID : string;
  EvStatus : string;
  EvUpdatedAt : Time;
}.

(** [Submission.Event]. *)
Definition Event (s : Submission) : SubmissionEvent :=
  mkEvent s.(ID) s.(CurrentAttemptID) s.(SubStatus) s.(UpdatedAt).

Record SubmissionStreamSnapshot := mkSnapshot {
  SnapSubmissionID : Z;
  SnapUserID : string;
  SnapAttemptID : string;
  SnapStatus : Status;
  SnapUpdatedAt : Time;
}.

(** [SubmissionStreamSnapshot.Event]. *)
Definition SnapshotEvent (s : SubmissionStreamSnapshot) : SubmissionEvent :=
  mkEvent s.(SnapSubmissionID) s.(SnapAttemptID) s.(SnapStatus) s.(SnapUpdatedAt).

(** ** Attempts (submission_attempt.go) *)

Definition AttemptTriggerSubmission : string := "SUBMISSION".
Definition AttemptTriggerAdminRejudge : string := "ADMIN_REJUDGE".

Record SubmissionAttempt := mkAttempt {
  AttID : Z;
  AttSubmissionID : Z;
  AttAttemptID : string;
  TriggerType : string;
  TriggeredByUserID : option string;
  AttStatus : Status;
  AttTestcaseVersion : option Z;
  AttTestCount : option Z;
  AttDatasetChecksum : option string;
  AttCreatedAt : Time;
  AttUpdatedAt : Time;
}.

Definition nonBlankStringPointer (value : string) : option string :=
  let value := TrimSpace value in
  if bool_decide (value = ""%string) then None else Some value.

Definition NewSubmissionAttempt (now : Time) (submissionID : Z) (attemptID triggerType triggeredBy : string)
  : SubmissionAttempt :=
  mkAttempt 0 submissionID (TrimSpace attemptID) triggerType (nonBlankStringPointer triggeredBy)
    StatusPending None None None now now.

(** ** Test results (submission_result.go) and outbox messages (outbox_message.go) *)

Definition result_statuses : list string :=
  ["ACCEPTED"; "WRONG_ANSWER"; "TIME_LIMIT_EXCEEDED"; "MEMORY_LIMIT_EXCEEDED";
   "OUTPUT_LIMIT_EXCEEDED"; "RUNTIME_ERROR"; "SYSTEM_ERROR"]%string.
Definition ResultAccepted : string := "ACCEPTED".

Record SubmissionResult := mkResult {
  ResID : Z;
  ResSubmissionID : Z;
  ResAttemptID : string;
  TestIndex : Z;
  ResStatus : string;
  ResActualOutput : option string;
  ResInput : option string;
  ResExpectedOutput : option string;
  ResExecutionTime : option Z;
  ResMemoryUsed : option Z;
  ResCreatedAt : Time;
}.

Definition OutboxStatusPending : string := "PENDING".
Definition OutboxStatusPublished : string := "PUBLISHED".
Definition OutboxStatusFailed : string := "FAILED".

Record OutboxMessage := mkOutbox {
  ObID : Z;
  AggregateID : Z;
  Topic : string;
  Payload : string;
  ObStatus : string;
  ObCreatedAt : Time;
  PublishedAt : option Time;
  RetryCount : Z;
  ErrorReason : option string;
}.

(** ** Messages between the services (pkg/judge) *)

Record JobMessage := mkJob {
  JobSubmissionID : Z;
  JobProblemID : Z;
  JobProblemSlug : string;
  JobUserID : string;
  JobLanguage : string;
  JobSourceCode : string;
  JobAttemptID : string;
  EnqueuedAt : Time;
}.

Record TestCaseResultItem := mkItem {
  ItemIndex : Z;
  ItemStatus : string;
  ItemActualOutput : option string;
  ItemInput : option string;
  ItemExpectedOutput : option string;
  ItemExecutionTime : option Z;
  ItemMemoryUsed : option Z;
}.

Record ResultMessage := mkResultMessage {
  MsgSubmissionID : Z;
  MsgAttemptID : string;
  MsgStatus : string;
  MsgCompileOutput : option string;
  MsgErrorMessage : option string;
  MsgExecutionTime : option Z;
  MsgMemoryUsed : option Z;
  MsgError : option string;
  MsgTestcaseVersion : option Z;
  MsgTestCount : option Z;
  MsgDatasetChecksum : option string;
  MsgTestCases : list TestCaseResultItem;
}.

(** The fields of [sarama.ProducerMessage] the services set. *)
Record ProducerMessage := mkProducer { PmTopic : string; PmKey : string; PmValue : string }.

(** ** Facts *)

Lemma terminal_parses s : IsTerminalStatus s = true -> ParseStatus s = Some s.
Proof.
  unfold IsTerminalStatus, ParseStatus. rewrite bool_decide_eq_true. intros H.
  rewrite bool_decide_eq_true_2; [done|]. by do 2 right.
Qed.

Lemma pending_not_terminal : IsTerminalStatus StatusPending = false.
Proof. reflexivity. Qed.

Lemma ParseStatus_id s t : ParseStatus s = Some t -> t = s.
Proof. unfold ParseStatus. case_bool_decide; congruence. Qed.
