(* ===== verification/SubmissionPorts.v ===== *)
(** Outbound ports of the submission service
    (services/submission/internal/application/port/outbound/submission.go and
    problem.go) as records of operations over an abstract world, the relational
    content of [submission_db] they work on, and the contract ([StoreLaws]) the
    use cases rely on.  The contract is discharged for the PostgreSQL
    repositories in PgStore.v. *)

From S2P Require Import Prelude GoString GoError GoMonad SubmissionDomain.

(** ** The content of [submission_db]: one map per table, by primary key *)

Record store := mkStore {
  subs : gmap Z Submission;
  attempts : gmap Z SubmissionAttempt;
  results : gmap Z SubmissionResult;
  outbox : gmap Z OutboxMessage;
}.

Definition set_subs (s : store) m := mkStore m s.(attempts) s.(results) s.(outbox).
Definition set_attempts (s : store) m := mkStore s.(subs) m s.(results) s.(outbox).
Definition set_results (s : store) m := mkStore s.(subs) s.(attempts) m s.(outbox).
Definition set_outbox (s : store) m := mkStore s.(subs) s.(attempts) s.(results) m.

(** ** Data of the ports *)

Record ListSubmissionsFilter := mkFilter {
  FUserID : option string;
  FStatus : option string;
  FLanguage : option string;
  FProblemID : option Z;
  FLimit : Z;
  FOffset : Z;
}.

(** The elements of [Items] are pointers. *)
Record ListSubmissionsResult := mkList { LItems : list (option Submission); LTotal : Z }.

Record SubmissionResultSummary := mkSummary { SumSubmissionID : Z; Passed : Z; Total : Z }.

Record ProblemActor := mkActor { ActorUserID : string; ActorRole : Role }.

(** The float [TimeLimit] of the metadata is only read by the run-code use case
    and is carried there. *)
Record ProblemMetadata := mkProblem { PID : Z; PTitle : string; PSlug : string }.

Record ProblemTestCaseMetadata := mkTCMeta { TCProblemID : Z; TCTestCount : Z; TCVersion : Z }.

(** [RetryAfter] in nanoseconds. *)
Record CooldownResult := mkCooldown { Allowed : bool; RetryAfter : Z }.

(** ** The ports *)

Section ports.
Context (W : Type).

Record SubmissionRepository := {
  SR_Create : Submission -> M W Z;           (* the ID written back into the entity *)
  SR_GetByID : Z -> M W (option Submission); (* [None] is the nil pointer *)
  SR_GetByIDForUpdate : Z -> M W Submission;
  SR_Update : Submission -> M W unit;
}.

(** The listing half of the Go interface [SubmissionRepository]. *)
Record SubmissionListing := {
  SR_List : ListSubmissionsFilter -> M W ListSubmissionsResult;
  SR_ResultSummaries : list Z -> M W (gmap Z SubmissionResultSummary);
}.

Record AttemptRepository := {
  AR_Create : SubmissionAttempt -> M W Z;
  AR_GetByAttemptID : string -> M W SubmissionAttempt;
  AR_MarkCompleted : string -> Status -> option Z -> option Z -> option string -> M W unit;
}.

Record ResultRepository := {
  RR_GetBySubmissionIDAndAttemptID : Z -> string -> M W (list (option SubmissionResult));
  RR_Replace : Z -> string -> list SubmissionResult -> M W unit;
}.

Record OutboxRepository := {
  OR_Create : OutboxMessage -> M W Z;
  OR_GetPending : Z -> M W (list OutboxMessage);
  OR_MarkPublished : Z -> M W unit;
  OR_MarkFailed : Z -> string -> M W unit;
}.

(** [TransactionManager]; the value is what the Go closure assigns to the
    variables it captures. *)
Record TransactionManager := { ExecuteInTx : forall A, M W A -> M W A }.

Record ProblemReader := {
  PR_GetProblem : Z -> ProblemActor -> M W ProblemMetadata;
  PR_GetTestCaseMetadata : Z -> M W ProblemTestCaseMetadata;
}.

(** [SubmissionCooldown]: [Acquire] of a user and a problem. *)
Definition SubmissionCooldown := string -> Z -> M W CooldownResult.

(** Everything else the use cases call: the clock, the attempt ID generator
    and the event hub. *)
Record SubmissionServices := {
  Now : M W Time;
  NewAttemptID : M W string;
  HubPublish : SubmissionEvent -> M W unit;
}.
End ports.

Arguments SR_Create {W}. Arguments SR_GetByID {W}. Arguments SR_GetByIDForUpdate {W}.
Arguments SR_Update {W}. Arguments SR_List {W}. Arguments SR_ResultSummaries {W}.
Arguments AR_Create {W}. Arguments AR_GetByAttemptID {W}. Arguments AR_MarkCompleted {W}.
Arguments RR_GetBySubmissionIDAndAttemptID {W}. Arguments RR_Replace {W}.
Arguments OR_Create {W}. Arguments OR_GetPending {W}. Arguments OR_MarkPublished {W}.
Arguments OR_MarkFailed {W}. Arguments ExecuteInTx {W} _ {A}.
Arguments PR_GetProblem {W}. Arguments PR_GetTestCaseMetadata {W}.
Arguments Now {W}. Arguments NewAttemptID {W}. Arguments HubPublish {W}.

(** ** Effects of the operations on the content *)

(** The columns [submissionRepository.Update] writes. *)
Definition updated_row (old new : Submission) : Submission :=
  with_outcome old new.(CurrentAttemptID) new.(SubStatus) new.(ExecutionTime) new.(MemoryUsed)
    new.(CompileOutput) new.(ErrorMessage) new.(UpdatedAt).

Definition set_AttID (a : SubmissionAttempt) (id : Z) : SubmissionAttempt :=
  mkAttempt id a.(AttSubmissionID) a.(AttAttemptID) a.(TriggerType) a.(TriggeredByUserID) a.(AttStatus)
    a.(AttTestcaseVersion) a.(AttTestCount) a.(AttDatasetChecksum) a.(AttCreatedAt) a.(AttUpdatedAt).

(** [SubmissionAttempt.MarkCompleted] and the columns the repository writes. *)
Definition AttemptMarkCompleted (a : SubmissionAttempt) (status : Status)
    (version count : option Z) (checksum : option string) (now : Time) : SubmissionAttempt :=
  mkAttempt a.(AttID) a.(AttSubmissionID) a.(AttAttemptID) a.(TriggerType) a.(TriggeredByUserID) status
    version count checksum a.(AttCreatedAt) now.

Definition complete_attempts (m : gmap Z SubmissionAttempt) (aid : string) status version count checksum now
  : gmap Z SubmissionAttempt :=
  (fun a => if bool_decide (a.(AttAttemptID) = aid)
            then AttemptMarkCompleted a status version count checksum now else a) <$> m.

(** The row written for one mapped testcase result. *)
Definition result_row (sid : Z) (aid : string) (r : SubmissionResult) (id : Z) (created : Time) : SubmissionResult :=
  mkResult id sid aid r.(TestIndex) r.(ResStatus) r.(ResActualOutput) r.(ResInput) r.(ResExpectedOutput)
    r.(ResExecutionTime) r.(ResMemoryUsed) created.

Definition of_attempt (sid : Z) (aid : string) (r : SubmissionResult) : Prop :=
  r.(ResSubmissionID) = sid /\ r.(ResAttemptID) = aid.
#[export] Instance of_attempt_dec sid aid r : Decision (of_attempt sid aid r).
Proof. unfold of_attempt. apply _. Defined.

(** The rows of other attempts. *)
Definition others (sid : Z) (aid : string) (m : gmap Z SubmissionResult) : gmap Z SubmissionResult :=
  filter (fun p => ~ of_attempt sid aid p.2) m.

(** Rows of other attempts are kept, the rows of this attempt are exactly the
    given ones, under fresh primary keys. *)
Definition replaced (m m' : gmap Z SubmissionResult) (sid : Z) (aid : string) (rs : list SubmissionResult) : Prop :=
  exists ids t,
    length ids = length rs /\ NoDup ids /\ (forall i, i ∈ ids -> others sid aid m !! i = None)
    /\ m' = list_to_map (zip ids (zip_with (fun r i => result_row sid aid r i t) rs ids))
            ∪ others sid aid m.

(** The outbox row stored for a new message; [jsonb] is the normal form the
    database keeps of a [jsonb] column. *)
Definition new_outbox_row (jsonb : string -> string) (m : OutboxMessage) (id : Z) (t : Time) : OutboxMessage :=
  mkOutbox id m.(AggregateID) m.(Topic) (jsonb m.(Payload)) m.(ObStatus) t None 0 None.

(** The columns [outboxRepository.MarkPublished] and [MarkFailed] write. *)
Definition published_row (t : Time) (m : OutboxMessage) : OutboxMessage :=
  mkOutbox m.(ObID) m.(AggregateID) m.(Topic) m.(Payload) OutboxStatusPublished m.(ObCreatedAt)
    (Some t) m.(RetryCount) m.(ErrorReason).
Definition failed_row (reason : string) (m : OutboxMessage) : OutboxMessage :=
  mkOutbox m.(ObID) m.(AggregateID) m.(Topic) m.(Payload) m.(ObStatus) m.(ObCreatedAt)
    m.(PublishedAt) (m.(RetryCount) + 1) (Some reason).

(** ** The contract *)

Section laws.
Context {W : Type} (sr : SubmissionRepository W) (ar : AttemptRepository W)
  (rr : ResultRepository W) (tx : TransactionManager W).

(** [db w] is the committed or, inside a transaction, the current content of
    the database; [sent w] the events handed to the in-process hub. *)
Class StoreLaws (db : W -> store) (sent : W -> list SubmissionEvent) := {
  tx_commit : forall A (f : M W A) w a w', ExecuteInTx tx f w = (inr a, w') ->
    exists w0 w1, db w0 = db w /\ sent w0 = sent w /\ f w0 = (inr a, w1)
      /\ db w' = db w1 /\ sent w' = sent w1;
  tx_rollback : forall A (f : M W A) w e w', ExecuteInTx tx f w = (inl e, w') ->
    db w' = db w /\ (keeps sent f -> sent w' = sent w);

  get_for_update : forall id w s w', SR_GetByIDForUpdate sr id w = (inr s, w') ->
    db w' = db w /\ (db w).(subs) !! id = Some s /\ s.(ID) = id;
  get_by_id : forall id w s w', SR_GetByID sr id w = (inr s, w') ->
    db w' = db w /\ (db w).(subs) !! id = s /\ s <> None;
  get_by_id_error : forall id w e w', SR_GetByID sr id w = (inl e, w') -> db w' = db w;
  update_ok : forall s w w', SR_Update sr s w = (inr tt, w') ->
    exists old, (db w).(subs) !! s.(ID) = Some old
      /\ db w' = set_subs (db w) (<[s.(ID) := updated_row old s]> (db w).(subs));
  create_ok : forall s w id w', SR_Create sr s w = (inr id, w') ->
    s.(CreatedAt) <> 0 -> s.(UpdatedAt) <> 0 ->
    0 < id /\ (db w).(subs) !! id = None
    /\ db w' = set_subs (db w) (<[id := set_ID s id]> (db w).(subs));

  attempt_create_ok : forall a w id w', AR_Create ar a w = (inr id, w') ->
    a.(AttCreatedAt) <> 0 -> a.(AttUpdatedAt) <> 0 ->
    (db w).(attempts) !! id = None
    /\ (forall i b, (db w).(attempts) !! i = Some b -> b.(AttAttemptID) <> a.(AttAttemptID))
    /\ db w' = set_attempts (db w) (<[id := set_AttID a id]> (db w).(attempts));
  attempt_complete_ok : forall aid st v c k w w', AR_MarkCompleted ar aid st v c k w = (inr tt, w') ->
    blank aid = false
    /\ exists t, db w' = set_attempts (db w)
         (complete_attempts (db w).(attempts) (TrimSpace aid) st v c k t);

  replace_ok : forall sid aid rs w w', RR_Replace rr sid aid rs w = (inr tt, w') ->
    blank aid = false
    /\ exists m', replaced (db w).(results) m' sid (TrimSpace aid) rs
       /\ db w' = set_results (db w) m';

  repos_quiet :
    (forall id, keeps sent (SR_GetByIDForUpdate sr id)) /\ (forall id, keeps sent (SR_GetByID sr id))
    /\ (forall s, keeps sent (SR_Update sr s)) /\ (forall s, keeps sent (SR_Create sr s))
    /\ (forall a, keeps sent (AR_Create ar a))
    /\ (forall aid st v c k, keeps sent (AR_MarkCompleted ar aid st v c k))
    /\ (forall sid aid rs, keeps sent (RR_Replace rr sid aid rs));
}.
End laws.

(** The clock neither fails nor touches the database or the hub; the hub
    records what it is given. *)
Class ServiceLaws {W} (sv : SubmissionServices W) (db : W -> store) (sent : W -> list SubmissionEvent) := {
  now_total : forall w, exists t w', Now sv w = (inr t, w') /\ 0 < t;
  now_db : keeps db (Now sv);
  now_sent : keeps sent (Now sv);
  attempt_id_db : keeps db (NewAttemptID sv);
  attempt_id_sent : keeps sent (NewAttemptID sv);
  hub_publish : forall e w, exists w', HubPublish sv e w = (inr tt, w')
    /\ db w' = db w /\ sent w' = sent w ++ [e];
}.

(** The contract of the outbox repository. *)
Class OutboxLaws {W} (or : OutboxRepository W) (jsonb : string -> string) (db : W -> store)
    (sent : W -> list SubmissionEvent) := {
  outbox_create_ok : forall m w id w', OR_Create or m w = (inr id, w') ->
    exists t, (db w).(outbox) !! id = None
      /\ db w' = set_outbox (db w) (<[id := new_outbox_row jsonb m id t]> (db w).(outbox));
  outbox_pending_ok : forall n w l w', OR_GetPending or n w = (inr l, w') ->
    db w' = db w /\ NoDup (map ObID l) /\ Z.of_nat (length l) <= Z.max 0 n
    /\ forall m, m ∈ l -> m.(ObStatus) = OutboxStatusPending /\ (db w).(outbox) !! m.(ObID) = Some m;
  outbox_published_ok : forall id w w', OR_MarkPublished or id w = (inr tt, w') ->
    exists t, db w' = set_outbox (db w) (alter (published_row t) id (db w).(outbox));
  outbox_failed_ok : forall id reason w w', OR_MarkFailed or id reason w = (inr tt, w') ->
    db w' = set_outbox (db w) (alter (failed_row reason) id (db w).(outbox));
  outbox_error : forall w e w',
    ((exists n, OR_GetPending or n w = (inl e, w')) \/ (exists id, OR_MarkPublished or id w = (inl e, w'))
     \/ (exists id r, OR_MarkFailed or id r w = (inl e, w'))) -> db w' = db w;
  outbox_quiet : (forall m, keeps sent (OR_Create or m)) /\ (forall n, keeps sent (OR_GetPending or n))
    /\ (forall id, keeps sent (OR_MarkPublished or id)) /\ (forall id r, keeps sent (OR_MarkFailed or id r));
}.

(** Reading a problem or taking the cooldown leaves the database and the hub
    alone: both live in other systems. *)
Class QuietPorts {W} (pr : ProblemReader W) (cd : option (SubmissionCooldown W)) (db : W -> store)
    (sent : W -> list SubmissionEvent) := {
  problem_quiet : forall id actor, keeps db (PR_GetProblem pr id actor) /\ keeps sent (PR_GetProblem pr id actor);
  testcase_quiet : forall id, keeps db (PR_GetTestCaseMetadata pr id) /\ keeps sent (PR_GetTestCaseMetadata pr id);
  cooldown_quiet : forall acquire u p, cd = Some acquire -> keeps db (acquire u p) /\ keeps sent (acquire u p);
}.

Lemma now_pos {W} (sv : SubmissionServices W) db sent {VL : ServiceLaws sv db sent} w t w' :
  Now sv w = (inr t, w') -> 0 < t /\ db w' = db w.
Proof.
  intros H. destruct (now_total w) as (t' & w1 & N & T). rewrite N in H. simplify_eq.
  split; [done|by eapply now_db].
Qed.
