(* ===== verification/GoTime.v ===== *)
(** Package [encoding/json] as far as the services use it to write messages:
    strings with Go's default (HTML-safe) escaping, integers, optional fields,
    objects in field order, and [time.Time] in RFC 3339 with nanoseconds; then
    package [time] with its calendar and the parser of that format. *)

From S2P Require Import Prelude GoString.

Definition hex_digit (n : N) : ascii := if (n <? 10)%N then ascii_of_N (48 + n) else ascii_of_N (87 + n).

(** [\u00xx] *)
Definition u_escape (c : ascii) : bytes :=
  chars "\u00" ++ [hex_digit (code c / 16); hex_digit (code c mod 16)].

Definition quote : ascii := ascii_of_N 34.
Definition backslash : ascii := ascii_of_N 92.

(** One rune of a string value. *)
Definition json_rune (p : bytes * bool) : bytes :=
  match p with
  | (_, false) => chars "\ufffd"
  | ([c], true) =>
      if is_byte 34 c || is_byte 92 c then [backslash; c]
      else if is_byte 8 c then chars "\b"
      else if is_byte 12 c then chars "\f"
      else if is_byte 10 c then chars "\n"
      else if is_byte 13 c then chars "\r"
      else if is_byte 9 c then chars "\t"
      else if (code c <? 32)%N || is_byte 60 c || is_byte 62 c || is_byte 38 c then u_escape c
      else [c]
  | ([c1; c2; c3], true) =>
      if is_byte 226 c1 && is_byte 128 c2 && is_byte 168 c3 then chars "\u2028"
      else if is_byte 226 c1 && is_byte 128 c2 && is_byte 169 c3 then chars "\u2029"
      else [c1; c2; c3]
  | (r, true) => r
  end.

Definition json_string (s : string) : bytes :=
  quote :: concat (map json_rune (runes (chars s))) ++ [quote].
Definition json_int (z : Z) : bytes := chars (Itoa z).

Definition comma : ascii := ascii_of_N 44.
Definition colon : ascii := ascii_of_N 58.

(** An object; absent fields (omitempty) are [None]. *)
Definition json_object (fields : list (string * option bytes)) : bytes :=
  let present := omap (fun '(k, v) => (fun v => json_string k ++ colon :: v) <$> v) fields in
  ascii_of_N 123 :: join_with comma present ++ [ascii_of_N 125].

Definition json_array (l : list bytes) : bytes := ascii_of_N 91 :: join_with comma l ++ [ascii_of_N 93].

(** ** [time.Time] values, in nanoseconds since 0001-01-01T00:00:00Z *)

(** Year, month and day of a day number counted from 0001-01-01 (proleptic
    Gregorian calendar). *)
Definition civil (days : Z) : Z * Z * Z :=
  let z := days + 306 in                        (* from 0000-03-01 *)
  let era := z / 146097 in
  let doe := z mod 146097 in
  let yoe := (doe - doe / 1460 + doe / 36524 - doe / 146096) / 365 in
  let doy := doe - (365 * yoe + yoe / 4 - yoe / 100) in
  let mp := (5 * doy + 2) / 153 in
  let d := doy - (153 * mp + 2) / 5 + 1 in
  let m := if mp <? 10 then mp + 3 else mp - 9 in
  (yoe + era * 400 + (if m <=? 2 then 1 else 0), m, d).

(** A number with leading zeros up to a width. *)
Definition pad (width : nat) (z : Z) : bytes :=
  let d := format_nat z in repeat (ascii_of_N 48) (width - length d) ++ d.

Definition second_ns : Z := 1000000000.

(** The layout [2006-01-02T15:04:05.999999999Z07:00] of a UTC time. *)
Definition rfc3339_nano (t : Z) : bytes :=
  let secs := t / second_ns in
  let ns := t mod second_ns in
  let '(y, m, d) := civil (secs / 86400) in
  let sod := secs mod 86400 in
  let frac := trim_right_set (is_byte 48) (pad 9 ns) in
  pad 4 y ++ chars "-" ++ pad 2 m ++ chars "-" ++ pad 2 d ++ chars "T"
    ++ pad 2 (sod / 3600) ++ chars ":" ++ pad 2 (sod / 60 mod 60) ++ chars ":" ++ pad 2 (sod mod 60)
    ++ (match frac with [] => [] | _ => chars "." ++ frac end) ++ chars "Z".

(** [Time.MarshalJSON]: an error outside the years 0 to 9999. *)
Definition json_time (t : Z) : option bytes :=
  let '(y, _, _) := civil (t / second_ns / 86400) in
  if (0 <=? y) && (y <=? 9999) then Some (quote :: rfc3339_nano t ++ [quote]) else None.

(** The layout RFC 3339 without fractions of a time in UTC. *)
Definition rfc3339 (t : Z) : string := str (rfc3339_nano (t - t mod second_ns)).

Example civil_epoch : civil 719162 = (1970, 1, 1).
Proof. reflexivity. Qed.
Example civil_leap : civil (719162 + 19782) = (2024, 2, 29).
Proof. reflexivity. Qed.
Example rfc3339_example : str (rfc3339_nano (719162 * 86400 * second_ns + 3661 * second_ns + 120000000))
  = "1970-01-01T01:01:01.12Z"%string.
Proof. vm_compute. reflexivity. Qed.

(** Package [time] as far as messages carry times: the inverse of the calendar
    of GoTime.v and [time.Parse] with the layout [time.RFC3339], which is what
    [Time.UnmarshalJSON] accepts. *)

(** ** Calendar *)

Definition isLeap (y : Z) : bool := (y mod 4 =? 0) && (negb (y mod 100 =? 0) || (y mod 400 =? 0)).

Definition daysIn (m y : Z) : Z :=
  if m =? 2 then if isLeap y then 29 else 28
  else if (m =? 4) || (m =? 6) || (m =? 9) || (m =? 11) then 30 else 31.

(** The day number of a date, counted from 0001-01-01. *)
Definition days_of (y m d : Z) : Z :=
  let y' := if m <=? 2 then y - 1 else y in
  let mp := if m <=? 2 then m + 9 else m - 3 in
  let yoe := y' mod 400 in
  y' / 400 * 146097 + (365 * yoe + yoe / 4 - yoe / 100) + ((153 * mp + 2) / 5 + d - 1) - 306.

(** ** [time.Parse(time.RFC3339, s)] *)

(** [getnum(value, true)]: exactly two digits. *)
Definition two_digits (l : bytes) : option (Z * bytes) :=
  match l with
  | a :: b :: r => if is_digit a && is_digit b then Some (digit_val a * 10 + digit_val b, r) else None
  | _ => None
  end.
(** [getnum(value, false)]: one digit is enough. *)
Definition one_or_two_digits (l : bytes) : option (Z * bytes) :=
  match l with
  | a :: r =>
      if negb (is_digit a) then None else
      match r with
      | b :: r1 => if is_digit b then Some (digit_val a * 10 + digit_val b, r1) else Some (digit_val a, r)
      | [] => Some (digit_val a, [])
      end
  | [] => None
  end.
Definition four_digits (l : bytes) : option (Z * bytes) :=
  match two_digits l with
  | Some (a, r) => match two_digits r with Some (b, r1) => Some (a * 100 + b, r1) | None => None end
  | None => None
  end.
Definition literal (n : N) (l : bytes) : option bytes :=
  match l with c :: r => if is_byte n c then Some r else None | [] => None end.

(** [parseNanoseconds]: at most nine digits count. *)
Definition nanoseconds (digits : bytes) : Z :=
  let d := take 9 digits in
  match parse_digits d 0 with Some n => n * 10 ^ (9 - Z.of_nat (length d)) | None => 0 end.

Fixpoint take_digits (l : bytes) : bytes * bytes :=
  match l with
  | c :: r => if is_digit c then let (a, b) := take_digits r in (c :: a, b) else ([], l)
  | [] => ([], [])
  end.

(** A fraction of the seconds, after a period or a comma, need not be there. *)
Definition fraction (l : bytes) : Z * bytes :=
  match l with
  | c :: r => if is_byte 46 c || is_byte 44 c
              then match take_digits r with ([], _) => (0, l) | (a, b) => (nanoseconds a, b) end
              else (0, l)
  | [] => (0, [])
  end.

(** [Z] or an offset, in seconds east of UTC; nothing may follow. *)
Definition zone (l : bytes) : option Z :=
  match l with
  | [c] => if is_byte 90 c then Some 0 else None
  | c :: r =>
      match two_digits r with
      | Some (h, r1) =>
          match literal 58 r1 with
          | Some r2 =>
              match two_digits r2 with
              | Some (m, []) =>
                  if (24 <? h) || (60 <? m) then None
                  else if is_byte 43 c then Some ((h * 60 + m) * 60)
                  else if is_byte 45 c then Some (- ((h * 60 + m) * 60))
                  else None
              | _ => None
              end
          | None => None
          end
      | None => None
      end
  | [] => None
  end.

Definition parse_rfc3339 (l : bytes) : option Z :=
  let obind {A B} (o : option A) (k : A -> option B) := match o with Some a => k a | None => None end in
  obind (four_digits l) (fun '(y, l) => obind (literal 45 l) (fun l =>
  obind (two_digits l) (fun '(mo, l) => obind (literal 45 l) (fun l =>
  obind (two_digits l) (fun '(d, l) => obind (literal 84 l) (fun l =>
  obind (one_or_two_digits l) (fun '(h, l) => obind (literal 58 l) (fun l =>
  obind (two_digits l) (fun '(mi, l) => obind (literal 58 l) (fun l =>
  obind (two_digits l) (fun '(s, l) =>
  let '(ns, l) := fraction l in
  obind (zone l) (fun off =>
    if (mo =? 0) || (12 <? mo) || (23 <? h) || (59 <? mi) || (59 <? s) || (d <? 1) || (daysIn mo y <? d) then None
    else Some (((days_of y mo d * 24 + h) * 60 + mi) * 60 * second_ns + s * second_ns + ns - off * second_ns))))))))))))).

Example parse_utc : parse_rfc3339 (chars "1970-01-01T01:01:01.12Z") = Some (719162 * 86400 * second_ns + 3661 * second_ns + 120000000).
Proof. vm_compute. reflexivity. Qed.
Example parse_offset : parse_rfc3339 (chars "2024-02-29T23:30:00+07:00") = parse_rfc3339 (chars "2024-02-29T16:30:00Z").
Proof. vm_compute. reflexivity. Qed.
Example parse_no_day : parse_rfc3339 (chars "2023-02-29T00:00:00Z") = None.
Proof. vm_compute. reflexivity. Qed.

(** ** The calendar is inverted *)

Lemma year_of_era doe : 0 <= doe < 146097 ->
  let yoe := (doe - doe / 1460 + doe / 36524 - doe / 146096) / 365 in
  let doy := doe - (365 * yoe + yoe / 4 - yoe / 100) in
  0 <= yoe <= 399 /\ 0 <= doy <= 365.
Proof. intros H yoe doy. subst yoe doy. split; Z.to_euclidean_division_equations; lia. Qed.

(** The 29th of February comes only in leap years. *)
Lemma leap_day doe : 0 <= doe < 146097 ->
  let yoe := (doe - doe / 1460 + doe / 36524 - doe / 146096) / 365 in
  doe - (365 * yoe + yoe / 4 - yoe / 100) = 365 ->
  (yoe + 1) mod 4 = 0 /\ ((yoe + 1) mod 100 <> 0 \/ (yoe + 1) mod 400 = 0).
Proof. intros H yoe. subst yoe. intros E. Z.to_euclidean_division_equations; lia. Qed.

Lemma civil_inverse days y m d : civil days = (y, m, d) ->
  1 <= m <= 12 /\ 1 <= d <= daysIn m y /\ days_of y m d = days.
Proof.
  unfold civil. cbv zeta. set (z := days + 306). set (doe := z mod 146097). set (era := z / 146097).
  assert (Hd : 0 <= doe < 146097) by (apply Z.mod_pos_bound; lia).
  pose proof (year_of_era doe Hd) as [Hy Hdoy]. pose proof (leap_day doe Hd) as L.
  set (yoe := (doe - doe / 1460 + doe / 36524 - doe / 146096) / 365) in *.
  set (doy := doe - (365 * yoe + yoe / 4 - yoe / 100)) in *.
  set (mp := (5 * doy + 2) / 153). intros E. injection E as Ey Em Ed.
  assert (M : 0 <= mp <= 11) by (unfold mp; Z.to_euclidean_division_equations; lia).
  rewrite Em in Ey.
  assert (B : 1 <= m <= 12) by (subst m; destruct (Z.ltb_spec mp 10); lia). split; [done|].
  assert (Z0 : z = era * 146097 + doe) by (unfold era, doe; rewrite (Z.div_mod z 146097) at 1; lia).
  assert (Dd : doe = 365 * yoe + yoe / 4 - yoe / 100 + doy) by (unfold doy; lia).
  assert (Mp : (if m <=? 2 then m + 9 else m - 3) = mp)
    by (clear Ey; destruct (Z.ltb_spec mp 10), (Z.leb_spec m 2); lia).
  assert (Y : (if m <=? 2 then y - 1 else y) = era * 400 + yoe) by (destruct (m <=? 2); lia).
  split.
  - assert (Lp : m = 2 -> isLeap y = ((yoe + 1) mod 4 =? 0) && (negb ((yoe + 1) mod 100 =? 0) || ((yoe + 1) mod 400 =? 0))).
    { intros E2. rewrite E2 in Ey. change (2 <=? 2) with true in Ey. cbv iota in Ey. assert (y = yoe + 1 + era * 400) as -> by lia. unfold isLeap.
      replace ((yoe + 1 + era * 400) mod 4) with ((yoe + 1) mod 4) by (Z.to_euclidean_division_equations; lia).
      replace ((yoe + 1 + era * 400) mod 100) with ((yoe + 1) mod 100) by (Z.to_euclidean_division_equations; lia).
      by replace ((yoe + 1 + era * 400) mod 400) with ((yoe + 1) mod 400) by (Z.to_euclidean_division_equations; lia). }
    assert (D1 : mp * 153 <= 5 * doy + 2 < mp * 153 + 153) by (unfold mp; Z.to_euclidean_division_equations; lia).
    split; [subst d; Z.to_euclidean_division_equations; lia|]. unfold daysIn.
    assert (D2 : 5 * ((153 * mp + 2) / 5) <= 153 * mp + 2 < 5 * ((153 * mp + 2) / 5) + 5) by (Z.to_euclidean_division_equations; lia).
    clear Mp Y. clearbody mp. destruct (Z.eqb_spec m 2) as [M2|M2].
    2:{ clear Lp L Ey. destruct (Z.eqb_spec m 4), (Z.eqb_spec m 6), (Z.eqb_spec m 9), (Z.eqb_spec m 11), (Z.ltb_spec mp 10);
          cbn; lia. }
    assert (mp = 11) as -> by (clear Ey; destruct (Z.ltb_spec mp 10); lia). clear Ey Em.
    destruct (Z.eq_dec doy 365) as [E|E]; [|case_match; lia].
    rewrite Lp by lia. destruct (L E) as [-> [N| ->]]; [apply Z.eqb_neq in N; rewrite N|rewrite orb_true_r]; cbn; lia.
  - unfold days_of. rewrite Mp, Y. replace ((era * 400 + yoe) mod 400) with yoe by (Z.to_euclidean_division_equations; lia).
    replace ((era * 400 + yoe) / 400) with era by (Z.to_euclidean_division_equations; lia). unfold z in Z0. lia.
Qed.

(** ** What [Time.MarshalJSON] writes is read back *)

Lemma parse_digits_app l1 l2 acc :
  parse_digits (l1 ++ l2) acc = match parse_digits l1 acc with Some v => parse_digits l2 v | None => None end.
Proof. revert acc. induction l1 as [|c l1 IH]; intros acc; cbn; [done|]. by destruct (is_digit c). Qed.

Definition zeros (k : nat) : bytes := repeat (ascii_of_N 48) k.

Lemma parse_zeros k acc : parse_digits (zeros k) acc = Some (acc * 10 ^ Z.of_nat k).
Proof.
  revert acc. induction k as [|k IH]; intros acc; cbn [zeros repeat parse_digits]; [f_equal; lia|].
  change (is_digit (ascii_of_N 48)) with true. cbv iota. change (digit_val (ascii_of_N 48)) with 0.
  fold (zeros k). rewrite IH, Nat2Z.inj_succ, Z.pow_succ_r by lia. f_equal. lia.
Qed.

Lemma format_digits_length n z acc k : 0 <= z < 10 ^ Z.of_nat k -> (0 < k)%nat ->
  (length (format_digits n z acc) <= k + length acc)%nat.
Proof.
  revert z acc k. induction n as [|n IH]; intros z acc k Hz Hk; cbn [format_digits]; [lia|].
  destruct (Z.ltb_spec z 10); [cbn; lia|]. destruct k as [|[|k]]; [lia|cbn in Hz; lia|].
  etrans; [apply (IH _ _ (S k))|cbn; lia]; [|lia].
  rewrite (Nat2Z.inj_succ (S k)), Z.pow_succ_r in Hz by lia. split; [apply Z.div_pos; lia|apply Z.div_lt_upper_bound; lia].
Qed.

Lemma forallb_zeros k : forallb is_digit (zeros k) = true.
Proof. induction k; [done|]. cbn. by fold (zeros k). Qed.

Lemma format_nat_digits z : forallb is_digit (format_nat z) = true.
Proof.
  unfold format_nat. assert (G : forall n z acc, forallb is_digit acc = true -> forallb is_digit (format_digits n z acc) = true).
  { induction n as [|n IH]; intros z0 acc H; [done|]. cbn [format_digits].
    assert (forallb is_digit (digit (z0 mod 10) :: acc) = true) as H1.
    { cbn. rewrite H, andb_true_r. apply (digit_spec (z0 mod 10)). apply Z.mod_pos_bound. lia. }
    destruct (z0 <? 10); [done|]. by apply IH. }
  by apply G.
Qed.

(** A padded number: its width, and that it is the number. *)
Lemma pad_spec w z : 0 <= z < 10 ^ Z.of_nat w -> (0 < w <= 20)%nat ->
  length (pad w z) = w /\ forallb is_digit (pad w z) = true /\ parse_digits (pad w z) 0 = Some z.
Proof.
  intros Hz Hw. unfold pad. fold (zeros (w - length (format_nat z))).
  pose proof (format_digits_length 20 z [] w Hz ltac:(lia)) as L. cbn [length] in L. fold (format_nat z) in L.
  assert (P : parse_digits (format_nat z) 0 = Some z).
  { unfold format_nat. rewrite parse_format_digits; [done|lia|]. split; [lia|].
    eapply Z.lt_le_trans; [apply Hz|]. apply Z.pow_le_mono_r; lia. }
  split_and!.
  - rewrite length_app. unfold zeros. rewrite repeat_length. lia.
  - by rewrite forallb_app, forallb_zeros, format_nat_digits.
  - by rewrite parse_digits_app, parse_zeros, Z.mul_0_l.
Qed.

Lemma two_digits_pad z r : 0 <= z < 100 -> two_digits (pad 2 z ++ r) = Some (z, r).
Proof.
  intros Hz. destruct (pad_spec 2 z) as (L & D & P); [done|lia|].
  destruct (pad 2 z) as [|a [|b [|]]]; try done. cbn in *. rewrite andb_true_r in D.
  destruct (is_digit a), (is_digit b); try done. cbn in *. injection P as <-. apply (f_equal (fun x => Some (x, r))). lia.
Qed.

Lemma one_or_two_digits_pad z r : 0 <= z < 100 -> one_or_two_digits (pad 2 z ++ r) = Some (z, r).
Proof.
  intros Hz. destruct (pad_spec 2 z) as (L & D & P); [done|lia|].
  destruct (pad 2 z) as [|a [|b [|]]]; try done. cbn in *. rewrite andb_true_r in D.
  destruct (is_digit a), (is_digit b); try done. cbn in *. injection P as <-. apply (f_equal (fun x => Some (x, r))). lia.
Qed.

Lemma four_digits_pad z r : 0 <= z < 10000 -> four_digits (pad 4 z ++ r) = Some (z, r).
Proof.
  intros Hz. destruct (pad_spec 4 z) as (L & D & P); [done|lia|].
  destruct (pad 4 z) as [|a [|b [|c [|d [|]]]]]; try done. unfold four_digits. cbn in *. rewrite andb_true_r in D.
  destruct (is_digit a) eqn:Ea, (is_digit b) eqn:Eb, (is_digit c) eqn:Ec, (is_digit d) eqn:Ed; try done.
  cbn. rewrite Ec, Ed. cbn. injection P as <-.
  apply (f_equal (fun x => Some (x, r))). lia.
Qed.

Lemma trim_right_set_split p l : exists tl, l = trim_right_set p l ++ tl /\ forallb p tl = true.
Proof.
  unfold trim_right_set. assert (G : forall l, exists hd, l = hd ++ drop_while p l /\ forallb p hd = true).
  { clear l. induction l as [|c l (hd & E & H)]; [by exists []|]. cbn. destruct (p c) eqn:Pc; [|by exists []].
    exists (c :: hd). cbn. rewrite Pc. split; [by rewrite E at 1|done]. }
  destruct (G (rev l)) as (hd & E & H). exists (rev hd). split.
  - rewrite <- rev_app_distr, <- E. symmetry. apply rev_involutive.
  - rewrite <- H. clear. induction hd as [|c hd IH]; [done|]. cbn. rewrite forallb_app, IH. cbn. by rewrite andb_true_r, andb_comm.
Qed.

Lemma only_zeros l : forallb (is_byte 48) l = true -> l = zeros (length l).
Proof.
  induction l as [|c l IH]; [done|]. cbn. intros [E H]%andb_true_iff. f_equal; [|by apply IH].
  unfold is_byte in E. apply N.eqb_eq in E. change (c = ascii_of_N 48). rewrite <- E. symmetry. apply Stdlib.Strings.Ascii.ascii_N_embedding.
Qed.

Lemma take_digits_stop l c r : forallb is_digit l = true -> is_digit c = false -> take_digits (l ++ c :: r) = (l, c :: r).
Proof.
  intros H C. induction l as [|d l IH]; cbn in *; [by rewrite C|]. apply andb_true_iff in H as [-> H]. by rewrite IH.
Qed.

Lemma fraction_written ns : 0 <= ns < second_ns ->
  let frac := trim_right_set (is_byte 48) (pad 9 ns) in
  fraction (match frac with [] => [] | _ => chars "." ++ frac end ++ chars "Z") = (ns, chars "Z").
Proof.
  intros Hn frac. destruct (pad_spec 9 ns) as (L & D & P); [done|lia|].
  destruct (trim_right_set_split (is_byte 48) (pad 9 ns)) as (tl & E & T). fold frac in E. clearbody frac. rename frac into f.
  apply only_zeros in T. rewrite T in E. rewrite E in D, P, L.
  rewrite forallb_app in D. apply andb_true_iff in D as [D _].
  rewrite parse_digits_app in P. destruct (parse_digits f 0) as [v|] eqn:V; [|done]. rewrite parse_zeros in P.
  rewrite length_app in L. unfold zeros in L. rewrite repeat_length in L. injection P as P.
  destruct f as [|c r].
  - cbn in V. injection V as <-. assert (ns = 0) as -> by lia. reflexivity.
  - change (fraction ((chars "." ++ c :: r) ++ chars "Z")) with
      (match take_digits ((c :: r) ++ chars "Z") with ([], _) => (0, (chars "." ++ c :: r) ++ chars "Z")
       | (a, b) => (nanoseconds a, b) end).
    change (chars "Z") with ([ascii_of_N 90]). rewrite take_digits_stop by done. f_equal. unfold nanoseconds.
    rewrite take_ge by lia. rewrite V, <- P. f_equal. f_equal. lia.
Qed.

Theorem parse_rfc3339_nano t : (exists y m d, civil (t / second_ns / 86400) = (y, m, d) /\ 0 <= y <= 9999) ->
  parse_rfc3339 (rfc3339_nano t) = Some t.
Proof.
  intros (y & m & d & C & Hy). destruct (civil_inverse _ _ _ _ C) as (Hm & Hd & Inv).
  unfold rfc3339_nano. rewrite C. set (secs := t / second_ns) in *. set (ns := t mod second_ns).
  set (sod := secs mod 86400). set (frac := trim_right_set (is_byte 48) (pad 9 ns)).
  assert (Hns : 0 <= ns < second_ns) by (apply Z.mod_pos_bound; done).
  assert (Hsod : 0 <= sod < 86400) by (apply Z.mod_pos_bound; done).
  assert (D31 : daysIn m y <= 31) by (unfold daysIn; repeat case_match; lia).
  pose proof (fraction_written ns Hns) as F. cbv zeta in F. fold frac in F.
  set (tail := match frac with [] => [] | _ => chars "." ++ frac end ++ chars "Z").
  unfold parse_rfc3339. rewrite four_digits_pad by lia. cbn [literal app chars]. change (is_byte 45 _) with true. cbv iota.
  rewrite two_digits_pad by lia. cbn [literal app chars]. change (is_byte 45 _) with true. cbv iota.
  rewrite two_digits_pad by lia. cbn [literal app chars]. change (is_byte 84 _) with true. cbv iota.
  rewrite one_or_two_digits_pad by (Z.to_euclidean_division_equations; lia). cbn [literal app chars].
  change (is_byte 58 _) with true. cbv iota.
  rewrite two_digits_pad by (Z.to_euclidean_division_equations; lia). cbn [literal app chars].
  change (is_byte 58 _) with true. cbv iota.
  rewrite two_digits_pad by (Z.to_euclidean_division_equations; lia).
  change (fraction _) with (fraction tail). change (fraction tail = (ns, chars "Z")) in F. rewrite F. cbn [zone chars]. change (is_byte 90 _) with true. cbv iota.
  replace ((m =? 0) || (12 <? m) || (23 <? sod / 3600) || (59 <? sod / 60 mod 60) || (59 <? sod mod 60) || (d <? 1) || (daysIn m y <? d))
    with false.
  - f_equal. rewrite Inv.
    assert (Et : t = secs * second_ns + ns) by (unfold secs, ns; rewrite (Z.div_mod t second_ns) at 1; [lia|done]).
    assert (Es : secs = secs / 86400 * 86400 + sod) by (unfold sod; rewrite (Z.div_mod secs 86400) at 1; lia).
    assert (Eo : sod = (sod / 3600 * 60 + sod / 60 mod 60) * 60 + sod mod 60) by (Z.to_euclidean_division_equations; lia).
    clearbody sod ns. unfold second_ns in *. clear Inv C. generalize dependent secs. intros secs. lia.
  - symmetry. rewrite !orb_false_iff, !Z.ltb_ge, Z.eqb_neq. split_and!; Z.to_euclidean_division_equations; lia.
Qed.
