(* ===== verification/JsonDecode.v ===== *)
(** Package [encoding/json] as far as the services use it to read messages:
    the syntax of JSON values, Go's decoding of string literals, integers and
    structs ([json.Unmarshal]), and that it inverts the writer of GoTime.v. *)

From S2P Require Import Prelude GoString GoTime.

(** ** Values

    Strings and object keys are kept as written, without the quotes. *)
Inductive json :=
  | JNull
  | JBool (b : bool)
  | JNumber (lit : bytes)
  | JString (raw : bytes)
  | JArray (l : list json)
  | JObject (l : list (bytes * json)).

(** ** Syntax *)

Definition json_space (c : ascii) : bool := is_byte 32 c || is_byte 9 c || is_byte 10 c || is_byte 13 c.
Definition skip_space (l : bytes) : bytes := drop_while json_space l.

Definition is_hex (c : ascii) : bool := within 48 57 c || within 97 102 c || within 65 70 c.
Definition is_escape (c : ascii) : bool :=
  is_byte 34 c || is_byte 92 c || is_byte 47 c || is_byte 98 c || is_byte 102 c || is_byte 110 c
  || is_byte 114 c || is_byte 116 c.

(** The rest of a string literal after its opening quote: the raw content and
    what follows the closing quote. *)
Fixpoint scan_string (l : bytes) : option (bytes * bytes) :=
  match l with
  | [] => None
  | c :: r =>
      if is_byte 34 c then Some ([], r)
      else if (code c <? 32)%N then None
      else if is_byte 92 c then
        match r with
        | e :: r1 =>
            if is_escape e then (fun p => (c :: e :: p.1, p.2)) <$> scan_string r1
            else if is_byte 117 e then
              match r1 with
              | h1 :: h2 :: h3 :: h4 :: r2 =>
                  if is_hex h1 && is_hex h2 && is_hex h3 && is_hex h4
                  then (fun p => (c :: e :: h1 :: h2 :: h3 :: h4 :: p.1, p.2)) <$> scan_string r2
                  else None
              | _ => None
              end
            else None
        | [] => None
        end
      else (fun p => (c :: p.1, p.2)) <$> scan_string r
  end.

Fixpoint span (p : ascii -> bool) (l : bytes) : bytes * bytes :=
  match l with
  | c :: r => if p c then let (a, b) := span p r in (c :: a, b) else ([], l)
  | [] => ([], [])
  end.

(** The parts of a number: one digit or digits without a leading zero, a
    fraction, an exponent. *)
Definition scan_int (l : bytes) : option (bytes * bytes) :=
  match l with
  | c :: r => if is_byte 48 c then Some ([c], r)
              else if within 49 57 c then let (a, b) := span is_digit r in Some (c :: a, b)
              else None
  | [] => None
  end.
Definition scan_frac (l : bytes) : option (bytes * bytes) :=
  match l with
  | c :: r => if is_byte 46 c
              then match span is_digit r with ([], _) => None | (a, b) => Some (c :: a, b) end
              else Some ([], l)
  | [] => Some ([], [])
  end.
Definition scan_exp (l : bytes) : option (bytes * bytes) :=
  match l with
  | c :: r =>
      if is_byte 101 c || is_byte 69 c then
        let (s, r1) := match r with
                       | d :: r1 => if is_byte 43 d || is_byte 45 d then ([d], r1) else ([], r)
                       | [] => ([], [])
                       end in
        match span is_digit r1 with ([], _) => None | (a, b) => Some (c :: s ++ a, b) end
      else Some ([], l)
  | [] => Some ([], [])
  end.
Definition scan_number (l : bytes) : option (bytes * bytes) :=
  let (s, l1) := match l with
                 | c :: r => if is_byte 45 c then ([c], r) else ([], l)
                 | [] => ([], [])
                 end in
  match scan_int l1 with
  | None => None
  | Some (a, l2) =>
      match scan_frac l2 with
      | None => None
      | Some (b, l3) =>
          match scan_exp l3 with
          | None => None
          | Some (e, l4) => Some (s ++ a ++ b ++ e, l4)
          end
      end
  end.

Definition strip (p l : bytes) : option bytes := if has_prefix p l then Some (drop (length p) l) else None.

(** [maxNestingDepth] of the decoder's scanner. *)
Definition max_depth : nat := 100 * 100.

(** One value, the members of an object and the elements of an array; [fuel]
    bounds the recursion, [depth] is the nesting still allowed. *)
Fixpoint json_value (fuel depth : nat) (l : bytes) : option (json * bytes) :=
  match fuel with
  | O => None
  | S f =>
      match skip_space l with
      | [] => None
      | c :: r =>
          if is_byte 34 c then (fun p => (JString p.1, p.2)) <$> scan_string r
          else if is_byte 123 c then
            match depth with
            | O => None
            | S d =>
                match skip_space r with
                | c1 :: r1 => if is_byte 125 c1 then Some (JObject [], r1)
                              else (fun p => (JObject p.1, p.2)) <$> json_members f d r
                | [] => None
                end
            end
          else if is_byte 91 c then
            match depth with
            | O => None
            | S d =>
                match skip_space r with
                | c1 :: r1 => if is_byte 93 c1 then Some (JArray [], r1)
                              else (fun p => (JArray p.1, p.2)) <$> json_elements f d r
                | [] => None
                end
            end
          else if is_byte 45 c || is_digit c then (fun p => (JNumber p.1, p.2)) <$> scan_number (c :: r)
          else match strip (chars "null") (c :: r), strip (chars "true") (c :: r), strip (chars "false") (c :: r) with
               | Some r1, _, _ => Some (JNull, r1)
               | _, Some r1, _ => Some (JBool true, r1)
               | _, _, Some r1 => Some (JBool false, r1)
               | _, _, _ => None
               end
      end
  end
with json_members (fuel depth : nat) (l : bytes) : option (list (bytes * json) * bytes) :=
  match fuel with
  | O => None
  | S f =>
      match skip_space l with
      | q :: r =>
          if negb (is_byte 34 q) then None else
          match scan_string r with
          | None => None
          | Some (key, r1) =>
              match skip_space r1 with
              | c :: r2 =>
                  if negb (is_byte 58 c) then None else
                  match json_value f depth r2 with
                  | None => None
                  | Some (v, r3) =>
                      match skip_space r3 with
                      | c :: r4 =>
                          if is_byte 44 c then (fun p => ((key, v) :: p.1, p.2)) <$> json_members f depth r4
                          else if is_byte 125 c then Some ([(key, v)], r4)
                          else None
                      | [] => None
                      end
                  end
              | [] => None
              end
          end
      | [] => None
      end
  end
with json_elements (fuel depth : nat) (l : bytes) : option (list json * bytes) :=
  match fuel with
  | O => None
  | S f =>
      match json_value f depth l with
      | None => None
      | Some (v, r) =>
          match skip_space r with
          | c :: r1 =>
              if is_byte 44 c then (fun p => (v :: p.1, p.2)) <$> json_elements f depth r1
              else if is_byte 93 c then Some ([v], r1)
              else None
          | [] => None
          end
      end
  end.

(** A whole document. *)
Definition json_parse (s : string) : option json :=
  let l := chars s in
  match json_value (2 * length l + 1) max_depth l with
  | Some (v, r) => match skip_space r with [] => Some v | _ => None end
  | None => None
  end.

(** ** String literals *)

Definition hex4 (h1 h2 h3 h4 : ascii) : Z :=
  let v c := let n := Z.of_N (code c) in
             if within 48 57 c then n - 48 else if within 97 102 c then n - 87 else n - 55 in
  ((v h1 * 16 + v h2) * 16 + v h3) * 16 + v h4.

(** [utf8.AppendRune] *)
Definition byte_z (z : Z) : ascii := ascii_of_N (Z.to_N z).
Definition encode_rune (r : Z) : bytes :=
  if r <? 128 then [byte_z r]
  else if r <? 2048 then [byte_z (192 + r / 64); byte_z (128 + r mod 64)]
  else if (r <? 55296) || ((57343 <? r) && (r <? 65536))
  then [byte_z (224 + r / 4096); byte_z (128 + r / 64 mod 64); byte_z (128 + r mod 64)]
  else if (65535 <? r) && (r <? 1114112)
  then [byte_z (240 + r / 262144); byte_z (128 + r / 4096 mod 64); byte_z (128 + r / 64 mod 64); byte_z (128 + r mod 64)]
  else replacement.

Definition is_surrogate (r : Z) : bool := (55296 <=? r) && (r <? 57344).
(** [utf16.DecodeRune] *)
Definition surrogate_pair (r1 r2 : Z) : option Z :=
  if (55296 <=? r1) && (r1 <? 56320) && (56320 <=? r2) && (r2 <? 57344)
  then Some ((r1 - 55296) * 1024 + (r2 - 56320) + 65536) else None.

Definition simple_escape (e : ascii) : bytes :=
  if is_byte 98 e then [ascii_of_N 8]
  else if is_byte 102 e then [ascii_of_N 12]
  else if is_byte 110 e then [ascii_of_N 10]
  else if is_byte 114 e then [ascii_of_N 13]
  else if is_byte 116 e then [ascii_of_N 9]
  else [e].

(** The content of a literal, rune by rune: escapes are resolved, a surrogate
    without its partner and an invalid byte become U+FFFD. *)
Fixpoint unquote_runes (l : list (bytes * bool)) : bytes :=
  match l with
  | [] => []
  | (_, false) :: r => replacement ++ unquote_runes r
  | ([c], true) :: r =>
      if is_byte 92 c then
        match r with
        | ([e], true) :: r1 =>
            if is_byte 117 e then
              match r1 with
              | ([h1], true) :: ([h2], true) :: ([h3], true) :: ([h4], true) :: r2 =>
                  let rr := hex4 h1 h2 h3 h4 in
                  if is_surrogate rr then
                    match r2 with
                    | ([b], true) :: ([u], true) :: ([g1], true) :: ([g2], true) :: ([g3], true) :: ([g4], true) :: r3 =>
                        if is_byte 92 b && is_byte 117 u then
                          match surrogate_pair rr (hex4 g1 g2 g3 g4) with
                          | Some p => encode_rune p ++ unquote_runes r3
                          | None => replacement ++ unquote_runes r2
                          end
                        else replacement ++ unquote_runes r2
                    | _ => replacement ++ unquote_runes r2
                    end
                  else encode_rune rr ++ unquote_runes r2
              | _ => unquote_runes r1
              end
            else simple_escape e ++ unquote_runes r1
        | _ => unquote_runes r
        end
      else c :: unquote_runes r
  | (ch, true) :: r => ch ++ unquote_runes r
  end.
Definition unquote (raw : bytes) : bytes := unquote_runes (runes raw).

(** A text with apostrophes for quotation marks. *)
Definition quoted (s : string) : bytes := map (fun c => if is_byte 39 c then quote else c) (chars s).

Example unquote_escapes : unquote (chars "a\u00e9\n\ud83d\ude00\ud83d!") =
  chars "a" ++ map ascii_of_N [195; 169; 10; 240; 159; 152; 128; 239; 191; 189]%N ++ chars "!".
Proof. vm_compute. reflexivity. Qed.
Example parse_nested : json_parse (str (quoted " { 'a' : [1, -2.5e3,{}], 'b':null}"))
  = Some (JObject [(chars "a", JArray [JNumber (chars "1"); JNumber (chars "-2.5e3"); JObject []]); (chars "b", JNull)]).
Proof. vm_compute. reflexivity. Qed.
Example parse_leading_zero : json_parse "01" = None.
Proof. vm_compute. reflexivity. Qed.

(** ** What the writer of GoTime.v produces is read back *)

(** The raw content of a written string. *)
Definition escaped (s : string) : bytes := concat (map json_rune (runes (chars s))).

#[global] Arguments escaped : simpl never.
#[global] Arguments unquote : simpl never.

Lemma json_string_escaped s : json_string s = quote :: escaped s ++ [quote].
Proof. done. Qed.

(** The string with its invalid bytes replaced, as it is after a trip. *)
Definition coerce_utf8 (l : bytes) : bytes := map_keep (fun _ => true) l.

Lemma coerce_valid l : Valid l -> coerce_utf8 l = l.
Proof.
  induction 1 as [|r l Hr _ IH]; [done|]. unfold coerce_utf8, map_keep in *. rewrite runes_app_rune by done. cbn. by f_equal.
Qed.

(** A chunk that is not escaped. *)
Definition plain (c : ascii) : bool := negb (is_byte 34 c) && negb (code c <? 32)%N && negb (is_byte 92 c).

Lemma scan_plain r l : forallb plain r = true -> scan_string (r ++ l) = (fun p => (r ++ p.1, p.2)) <$> scan_string l.
Proof.
  induction r as [|c r IH]; cbn [forallb]; intros H; [cbn; by destruct (scan_string l) as [[? ?]|]|].
  apply andb_true_iff in H as [H H2]. unfold plain in H. bools. cbn. rewrite H, H1, H0, IH by done.
  by destruct (scan_string l) as [[? ?]|].
Qed.

(** The shapes of [json_rune]: kept as it is, a two-character escape, or a
    [\u00xx] of an ASCII character. *)
Inductive written_as (r : bytes) : bytes -> Prop :=
  | as_is : is_rune r = true -> forallb plain r = true -> written_as r r
  | as_escape c e : r = [c] -> is_escape e = true -> is_byte 117 e = false -> simple_escape e = [c] -> rune1 e = true ->
      written_as r [backslash; e]
  | as_unicode h1 h2 h3 h4 : forallb is_hex [h1; h2; h3; h4] = true -> forallb rune1 [h1; h2; h3; h4] = true ->
      is_surrogate (hex4 h1 h2 h3 h4) = false -> encode_rune (hex4 h1 h2 h3 h4) = r ->
      written_as r (chars "\u" ++ [h1; h2; h3; h4]).

Definition unicode_written (r w : bytes) : bool :=
  match w with
  | [b; u; h1; h2; h3; h4] =>
      bool_decide ([b; u] = chars "\u") && forallb is_hex [h1; h2; h3; h4] && forallb rune1 [h1; h2; h3; h4]
      && negb (is_surrogate (hex4 h1 h2 h3 h4)) && bool_decide (encode_rune (hex4 h1 h2 h3 h4) = r)
  | _ => false
  end.

Lemma unicode_written_as r w : unicode_written r w = true -> written_as r w.
Proof.
  destruct w as [|b [|u [|h1 [|h2 [|h3 [|h4 [|]]]]]]]; try done. unfold unicode_written.
  rewrite !andb_true_iff, !bool_decide_eq_true, negb_true_iff. intros ((((E & ?) & ?) & ?) & ?).
  change (written_as r ([b; u] ++ [h1; h2; h3; h4])). rewrite E. by apply as_unicode.
Qed.

Definition ascii_written (c : ascii) : bool :=
  if negb (rune1 c) then true else
  match json_rune ([c], true) with
  | [a] => Stdlib.Strings.Ascii.eqb a c && plain c
  | [b; e] => Stdlib.Strings.Ascii.eqb b backslash && is_escape e && negb (is_byte 117 e) && rune1 e
              && match simple_escape e with [d] => Stdlib.Strings.Ascii.eqb d c | _ => false end
  | l => unicode_written [c] l
  end.

Lemma ascii_written_all c : ascii_written c = true.
Proof. revert c. apply all_bytes. vm_compute. reflexivity. Qed.

Lemma plain_high c : (128 <= code c)%N -> plain c = true.
Proof.
  intros H. unfold plain, is_byte. rewrite !andb_true_iff, !negb_true_iff, !N.eqb_neq, N.ltb_ge. lia.
Qed.

Lemma json_rune_written r : is_rune r = true -> written_as r (json_rune (r, true)).
Proof.
  intros H. pose proof H as R. rune_cases H.
  - pose proof (ascii_written_all a) as W. unfold ascii_written in W. rewrite H in W. cbn [negb] in W.
    destruct (json_rune ([a], true)) as [|b [|e [|]]] eqn:E.
    + done.
    + apply andb_true_iff in W as [->%Stdlib.Strings.Ascii.eqb_eq W]. apply as_is; [done|]. cbn. by rewrite W.
    + rewrite !andb_true_iff in W. destruct W as [[[[->%Stdlib.Strings.Ascii.eqb_eq W2] W3] W4] W5].
      destruct (simple_escape e) as [|d [|]] eqn:S; try done. apply Stdlib.Strings.Ascii.eqb_eq in W5 as ->.
      eapply as_escape; try done. by apply negb_true_iff.
    + by apply unicode_written_as.
  - apply rune2_range in H. apply as_is; [done|]. cbn. rewrite !plain_high by lia. done.
  - apply rune3_range in H.
    assert (K : forall x n, is_byte n x = true -> x = ascii_of_N n).
    { intros x n <-%N.eqb_eq. symmetry. apply Stdlib.Strings.Ascii.ascii_N_embedding. }
    assert (P : forallb plain [a; b; c] = true) by (cbn; by rewrite !plain_high by lia).
    unfold json_rune. destruct (is_byte 226 a && is_byte 128 b && is_byte 168 c) eqn:E1.
    { rewrite !andb_true_iff in E1. destruct E1 as [[->%K ->%K] ->%K]. by apply unicode_written_as. }
    destruct (is_byte 226 a && is_byte 128 b && is_byte 169 c) eqn:E2.
    { rewrite !andb_true_iff in E2. destruct E2 as [[->%K ->%K] ->%K]. by apply unicode_written_as. }
    by apply as_is.
  - apply rune4_range in H. apply as_is; [done|]. cbn. rewrite !plain_high by lia. done.
Qed.

(** Scanning and decoding one written rune. *)
Lemma scan_written r w l : written_as r w -> scan_string (w ++ l) = (fun p => (w ++ p.1, p.2)) <$> scan_string l.
Proof.
  intros [_ P|c e -> E U _ _|h1 h2 h3 h4 H _ _ _]; [by apply scan_plain| |].
  - cbn. by rewrite E.
  - cbn. cbn in H. rewrite andb_true_r in H. by rewrite <- !andb_assoc, H.
Qed.

Lemma runes_ascii c l : rune1 c = true -> runes (c :: l) = ([c], true) :: runes l.
Proof. intros H. cbn. by rewrite H. Qed.

Lemma unquote_written r w l : written_as r w -> is_rune r = true ->
  unquote (w ++ l) = r ++ unquote l.
Proof.
  intros W R. unfold unquote. destruct W as [_ P|c e -> E U S A|h1 h2 h3 h4 _ A N S].
  - rewrite runes_app_rune by done. rune_cases R; cbn; try done.
    cbn in P. unfold plain in P. rewrite andb_true_r in P. bools. by match goal with H : is_byte 92 _ = false |- _ => rewrite H end.
  - cbn [app]. rewrite runes_ascii by done. rewrite runes_ascii by done. cbn [unquote_runes].
    by rewrite U, S.
  - cbn in A. rewrite andb_true_r, !andb_true_iff in A. destruct A as (A1 & A2 & A3 & A4).
    change ((chars "\u" ++ [h1; h2; h3; h4]) ++ l) with (backslash :: ascii_of_N 117 :: h1 :: h2 :: h3 :: h4 :: l).
    rewrite !runes_ascii by done. cbn [unquote_runes].
    change (is_byte 92 backslash) with true. change (is_byte 117 (ascii_of_N 117)) with true. cbv iota zeta.
    by rewrite N, S.
Qed.

Lemma scan_escaped s l : scan_string (escaped s ++ quote :: l) = Some (escaped s, l).
Proof.
  unfold escaped. induction (chars s) as [|r rest Hr R IH|c rest R IH] using runes_ind; [done| |].
  - rewrite R. cbn [map concat]. rewrite <- (assoc_L app), (scan_written r); [|by apply json_rune_written].
    by rewrite IH.
  - rewrite R. cbn [map concat]. change (json_rune ([c], false)) with (chars "\ufffd"). cbn. cbn in IH. by rewrite IH.
Qed.

Lemma unquote_escaped s : unquote (escaped s) = coerce_utf8 (chars s).
Proof.
  unfold escaped, coerce_utf8, map_keep. induction (chars s) as [|r rest Hr R IH|c rest R IH] using runes_ind; [done| |].
  - rewrite R. cbn [map concat]. rewrite (unquote_written r); [|by apply json_rune_written|done]. by rewrite IH.
  - rewrite R. cbn [map concat]. change (json_rune ([c], false)) with (chars "\ufffd").
    unfold unquote in *. change (chars "\ufffd") with (backslash :: ascii_of_N 117 :: chars "fffd").
    cbn [app chars]. rewrite !runes_ascii by done. cbn [unquote_runes].
    change (is_byte 92 backslash) with true. change (is_byte 117 (ascii_of_N 117)) with true. cbv iota zeta.
    change (is_surrogate _) with false. cbv iota. by rewrite IH.
Qed.

(** What may follow a written value. *)
Definition stops (l : bytes) : Prop :=
  match l with [] => True | c :: _ => c = comma \/ c = ascii_of_N 125 \/ c = ascii_of_N 93 end.

Lemma span_stops p l rest : forallb p l = true -> match rest with [] => True | c :: _ => p c = false end ->
  span p (l ++ rest) = (l, rest).
Proof.
  intros H S. induction l as [|c l IH]; cbn in *.
  - destruct rest as [|c r]; [done|]. cbn. by rewrite S.
  - apply andb_true_iff in H as [-> H]. by rewrite IH.
Qed.

Lemma stops_not (p : ascii -> bool) l : p comma = false -> p (ascii_of_N 125) = false -> p (ascii_of_N 93) = false ->
  stops l -> match l with [] => True | c :: _ => p c = false end.
Proof. destruct l as [|c l]; [done|]. by intros ? ? ? [->|[->| ->]]. Qed.

(** The digits of a number that is not negative. *)
Lemma format_digits_all n z acc : forallb is_digit acc = true -> forallb is_digit (format_digits n z acc) = true.
Proof.
  revert z acc. induction n as [|n IH]; intros z acc H; [done|]. cbn [format_digits].
  assert (forallb is_digit (digit (z mod 10) :: acc) = true) as H1.
  { cbn. rewrite H, andb_true_r. apply (digit_spec (z mod 10)). apply Z.mod_pos_bound. lia. }
  destruct (z <? 10); [done|]. by apply IH.
Qed.

Lemma digit_nonzero d : 0 < d < 10 -> within 49 57 (digit d) = true /\ is_byte 48 (digit d) = false.
Proof.
  intros H. unfold within, is_byte, digit, code. rewrite Ascii.N_ascii_embedding by lia.
  split; [apply andb_true_iff; rewrite !N.leb_le; lia|apply N.eqb_neq; lia].
Qed.

Lemma format_digits_lead n z acc : 0 < z < 10 ^ Z.of_nat n ->
  exists d r, format_digits n z acc = digit d :: r ++ acc /\ 0 < d < 10 /\ forallb is_digit r = true.
Proof.
  revert z acc. induction n as [|n IH]; intros z acc Hz; [cbn in Hz; lia|]. cbn [format_digits].
  destruct (Z.ltb_spec z 10).
  - exists z, []. rewrite Z.mod_small by lia. split_and!; done || lia.
  - rewrite Nat2Z.inj_succ, Z.pow_succ_r in Hz by lia.
    destruct (IH (z / 10) (digit (z mod 10) :: acc)) as (d & r & E & D & R).
    { split; [apply Z.div_str_pos; lia|apply Z.div_lt_upper_bound; lia]. }
    exists d, (r ++ [digit (z mod 10)]). rewrite E, <- (assoc_L app). split_and!; try done; try lia.
    rewrite forallb_app, R. cbn. rewrite andb_true_r. apply (digit_spec (z mod 10)), Z.mod_pos_bound. lia.
Qed.

Lemma scan_int_format z rest : 0 <= z < 10 ^ 20 -> match rest with [] => True | c :: _ => is_digit c = false end ->
  scan_int (format_nat z ++ rest) = Some (format_nat z, rest).
Proof.
  intros Hz S. unfold format_nat. destruct (decide (z = 0)) as [->|N]; [done|].
  destruct (format_digits_lead 20 z []) as (d & r & -> & D & R); [lia|]. rewrite app_nil_r.
  destruct (digit_nonzero d D) as [W Z0]. cbn. by rewrite Z0, W, (span_stops is_digit).
Qed.

Lemma scan_number_Itoa z rest : in_int64 z -> stops rest ->
  scan_number (chars (Itoa z) ++ rest) = Some (chars (Itoa z), rest).
Proof.
  unfold in_int64, int64_min, int64_max. intros Hz S.
  assert (D : match rest with [] => True | c :: _ => is_digit c = false end) by (by apply stops_not).
  assert (F : scan_frac rest = Some ([], rest) /\ scan_exp rest = Some ([], rest)).
  { destruct rest as [|c r]; [done|]. by destruct S as [->|[->| ->]]. }
  destruct F as [F1 F2]. unfold scan_number, Itoa.
  destruct (Z.ltb_spec z 0); rewrite chars_str.
  - cbn [app]. change (is_byte 45 (ascii_of_N 45)) with true. cbv iota.
    rewrite scan_int_format by (try lia; done). rewrite F1, F2. by rewrite !app_nil_r.
  - destruct (format_digits_nonempty 20 z [] ltac:(lia)) as (c & r & Ec & Hc).
    pose proof (scan_int_format z rest ltac:(lia) D) as E. unfold format_nat in *. rewrite Ec in *. cbn [app] in *.
    assert (is_byte 45 c = false) as ->.
    { unfold is_digit in Hc. byte_unfold. apply andb_true_iff in Hc as [H1 H2].
      rewrite N.leb_le in H1, H2. rewrite N.eqb_neq. lia. }
    rewrite E, F1, F2. by rewrite !app_nil_r.
Qed.

(** The text [b] is the value [v], nested at most [dep] deep: it is read
    whatever stopping text follows. *)
Definition reads (v : json) (b : bytes) (dep : nat) : Prop :=
  forall f d rest, (length b <= f)%nat -> (dep <= d)%nat -> stops rest -> json_value f d (b ++ rest) = Some (v, rest).

Lemma reads_string s : reads (JString (escaped s)) (json_string s) 0.
Proof.
  intros [|f] d rest Hf _ S; [cbn in Hf; lia|].
  rewrite json_string_escaped. change ((quote :: escaped s ++ [quote]) ++ rest) with (quote :: (escaped s ++ [quote]) ++ rest).
  rewrite <- (assoc_L app). change (json_value (Datatypes.S f) d (quote :: escaped s ++ [quote] ++ rest))
    with ((fun p => (JString p.1, p.2)) <$> scan_string (escaped s ++ quote :: rest)).
  by rewrite scan_escaped.
Qed.

Lemma drop_while_stop p c l : p c = false -> drop_while p (c :: l) = c :: l.
Proof. intros H. cbn. by rewrite H. Qed.

(** The first byte of a number decides how it is read. *)
Definition number_start (c : ascii) : bool := is_byte 45 c || is_digit c.

Lemma number_start_only c : number_start c = true ->
  json_space c = false /\ is_byte 34 c = false /\ is_byte 123 c = false /\ is_byte 91 c = false.
Proof.
  intros H. enough (implb (number_start c) (negb (json_space c) && negb (is_byte 34 c) && negb (is_byte 123 c)
    && negb (is_byte 91 c)) = true) as E by (rewrite H in E; cbn in E; bools; done).
  clear H. revert c. apply all_bytes. vm_compute. reflexivity.
Qed.

Lemma Itoa_start z : in_int64 z -> exists c r, chars (Itoa z) = c :: r /\ number_start c = true.
Proof.
  intros H. unfold Itoa, format_nat. destruct (z <? 0); rewrite chars_str; [eexists _, _; by split|].
  destruct (format_digits_nonempty 20 z [] ltac:(lia)) as (c & r & -> & Hc). exists c, r. split; [done|].
  unfold number_start. by rewrite Hc, orb_true_r.
Qed.

Lemma reads_int z : in_int64 z -> reads (JNumber (chars (Itoa z))) (json_int z) 0.
Proof.
  intros Hz [|f] d rest Hf _ S; unfold json_int in *; destruct (Itoa_start z Hz) as (c & r & E & N).
  { rewrite E in Hf. cbn in Hf. lia. }
  pose proof (scan_number_Itoa z rest Hz S) as SN. rewrite E in *. cbn [app] in *.
  destruct (number_start_only c N) as (N1 & N2 & N3 & N4). cbn [json_value]. unfold skip_space.
  rewrite drop_while_stop by done. unfold number_start in N. by rewrite N2, N3, N4, N, SN.
Qed.

(** The text of an object with the members [ms], given as key, value and text. *)
Definition member := (string * json * bytes)%type.
Definition member_text (m : member) : bytes := json_string m.1.1 ++ colon :: m.2.
Definition member_of (m : member) : bytes * json := (escaped m.1.1, m.1.2).

Lemma scan_member f d m rest : (length (member_text m) <= f)%nat -> reads m.1.2 m.2 d -> stops rest ->
  rest <> [] -> json_members (Datatypes.S f) d (member_text m ++ rest) =
    match rest with
    | c :: r => if is_byte 44 c then (fun p => (member_of m :: p.1, p.2)) <$> json_members f d r
                else if is_byte 125 c then Some ([member_of m], r) else None
    | [] => None
    end.
Proof.
  destruct m as [[k v] b]. unfold member_text, member_of. cbn [fst snd]. intros Hf R S N.
  rewrite json_string_escaped. rewrite <- (assoc_L app). cbn [app]. rewrite <- (assoc_L app). cbn [app].
  cbn [json_members]. unfold skip_space. rewrite drop_while_stop by done.
  change (negb (is_byte 34 quote)) with false. cbv iota. rewrite scan_escaped.
  rewrite drop_while_stop by done. change (negb (is_byte 58 colon)) with false. cbv iota.
  rewrite R; [|rewrite length_app in Hf; cbn in Hf; lia|done|done].
  destruct rest as [|c r]; [done|]. by destruct S as [->|[->| ->]].
Qed.

Lemma reads_members ms d f rest : Forall (fun m => reads m.1.2 m.2 d) ms -> ms <> [] ->
  (length (join_with comma (map member_text ms)) < f)%nat ->
  json_members f d (join_with comma (map member_text ms) ++ ascii_of_N 125 :: rest) = Some (map member_of ms, rest).
Proof.
  intros F. revert f. induction F as [|m ms R F IH]; intros f N Hf; [done|]. destruct f as [|f]; [lia|].
  destruct ms as [|m' ms].
  - cbn [map join_with] in *. rewrite scan_member; [done|lia|done|by right; left|done].
  - change (join_with comma (map member_text (m :: m' :: ms)))
      with (member_text m ++ comma :: join_with comma (map member_text (m' :: ms))) in *.
    rewrite length_app in Hf. cbn [length] in Hf. rewrite <- (assoc_L app). cbn [app].
    rewrite scan_member; [|lia|done|by left|done]. change (is_byte 44 comma) with true. cbv iota.
    rewrite IH by (done || lia). done.
Qed.

Lemma reads_object ms dep : Forall (fun m => reads m.1.2 m.2 dep) ms -> ms <> [] ->
  reads (JObject (map member_of ms)) (ascii_of_N 123 :: join_with comma (map member_text ms) ++ [ascii_of_N 125]) (S dep).
Proof.
  intros F N [|f] d rest Hf Hd S; [cbn in Hf; lia|]. destruct d as [|d]; [lia|].
  set (b := join_with comma (map member_text ms)) in *. cbn [length] in Hf. rewrite length_app in Hf. cbn [length] in Hf.
  assert (F' : Forall (fun m => reads m.1.2 m.2 d) ms).
  { eapply Forall_impl; [exact F|]. intros m R f' d' r' H1 H2. apply R; lia. }
  assert (B : exists c r, b = c :: r /\ json_space c = false /\ is_byte 125 c = false).
  { unfold b. destruct ms as [|m [|m' ms]]; [done| |]; by eexists _, _. }
  destruct B as (c & r & B & B1 & B2).
  rewrite <- app_comm_cons, <- (assoc_L app). cbn [json_value app]. unfold skip_space.
  rewrite drop_while_stop by done. change (is_byte 34 (ascii_of_N 123)) with false.
  change (is_byte 123 (ascii_of_N 123)) with true. cbv iota.
  pose proof (reads_members ms d f rest F' N ltac:(fold b; lia)) as E. fold b in E. rewrite E.
  rewrite B. cbn [app]. rewrite drop_while_stop by done. by rewrite B2.
Qed.

Lemma reads_elements vs d f rest : Forall (fun p : json * bytes => reads p.1 p.2 d) vs -> vs <> [] ->
  (length (join_with comma (map snd vs)) < f)%nat ->
  json_elements f d (join_with comma (map snd vs) ++ ascii_of_N 93 :: rest) = Some (map fst vs, rest).
Proof.
  intros F. revert f. induction F as [|[v b] vs R F IH]; intros f N Hf; [done|]. destruct f as [|f]; [lia|].
  destruct vs as [|p vs].
  - cbn [map join_with snd fst] in *. cbn [json_elements]. rewrite R; [done|lia|done|by right; right].
  - change (join_with comma (map snd ((v, b) :: p :: vs))) with (b ++ comma :: join_with comma (map snd (p :: vs))) in *.
    rewrite length_app in Hf. cbn [length] in Hf. rewrite <- (assoc_L app). cbn [app json_elements fst snd] in *.
    rewrite R; [|lia|done|by left]. unfold skip_space. rewrite drop_while_stop by done.
    change (is_byte 44 comma) with true. cbv iota. by rewrite IH by (done || lia).
Qed.

Lemma reads_array vs dep : Forall (fun p => reads p.1 p.2 dep) vs ->
  (forall p, p ∈ vs -> exists c r, p.2 = c :: r /\ json_space c = false /\ is_byte 93 c = false) ->
  reads (JArray (map fst vs)) (json_array (map snd vs)) (S dep).
Proof.
  intros F H [|f] d rest Hf Hd S; [cbn in Hf; lia|]. destruct d as [|d]; [lia|]. unfold json_array in *.
  set (b := join_with comma (map snd vs)) in *. cbn [length] in Hf. rewrite length_app in Hf. cbn [length] in Hf.
  rewrite <- app_comm_cons, <- (assoc_L app). cbn [json_value app]. unfold skip_space.
  rewrite drop_while_stop by done. change (is_byte 34 (ascii_of_N 91)) with false.
  change (is_byte 123 (ascii_of_N 91)) with false. change (is_byte 91 (ascii_of_N 91)) with true. cbv iota.
  destruct (decide (vs = [])) as [->|N]; [done|].
  assert (F' : Forall (fun p : json * bytes => reads p.1 p.2 d) vs).
  { eapply Forall_impl; [exact F|]. intros p R f' d' r' H1 H2. apply R; lia. }
  assert (B : exists c r, b = c :: r /\ json_space c = false /\ is_byte 93 c = false).
  { unfold b. destruct vs as [|p [|p' vs]]; [done|apply H; left|].
    destruct (H p) as (c & r & E & ? & ?); [left|]. exists c. cbn. rewrite E. by eexists. }
  destruct B as (c & r & B & B1 & B2).
  pose proof (reads_elements vs d f rest F' N ltac:(fold b; lia)) as E. fold b in E. rewrite E.
  rewrite B. cbn [app]. rewrite drop_while_stop by done. by rewrite B2.
Qed.

Lemma reads_parse v b dep : reads v b dep -> (dep <= max_depth)%nat -> json_parse (str b) = Some v.
Proof.
  intros R D. unfold json_parse. rewrite chars_str.
  rewrite <- (app_nil_r b) at 2. rewrite R; [done|lia|done|done].
Qed.

(** ** The fuel is enough: more never changes the result *)

Lemma skip_space_length l : (length (skip_space l) <= length l)%nat.
Proof. unfold skip_space. induction l as [|c l IH]; cbn; [done|]. case_match; cbn; lia. Qed.

Lemma scan_string_length l p : scan_string l = Some p -> (length p.2 < length l)%nat.
Proof.
  remember (length l) as n eqn:E. revert l p E. induction n as [n IH] using lt_wf_ind. intros [|c r] p E H; [done|].
  cbn in E. assert (G : forall l' f, (length l' <= length r)%nat -> (fun q => (f q.1, q.2)) <$> scan_string l' = Some p ->
    (length p.2 < n)%nat).
  { intros l' f L F. apply fmap_Some in F as (q & Hq & ->). cbn. enough (length q.2 < length l')%nat by lia.
    eapply (IH (length l')); [lia|done|done]. }
  cbn [scan_string] in H. destruct (is_byte 34 c); [simplify_eq; cbn; lia|]. destruct (_ <? _)%N; [done|].
  destruct (is_byte 92 c); [|by eapply (G r (fun l => c :: l))].
  destruct r as [|e r1]; [done|]. destruct (is_escape e).
  { eapply (G r1 (fun l => c :: e :: l)); [cbn; lia|exact H]. }
  destruct (is_byte 117 e); [|done]. destruct r1 as [|h1 [|h2 [|h3 [|h4 r2]]]]; try done.
  destruct (_ && _); [|done]. eapply (G r2 (fun l => c :: e :: h1 :: h2 :: h3 :: h4 :: l)); [cbn; lia|exact H].
Qed.

Lemma span_length p l : (length (span p l).2 <= length l)%nat.
Proof. induction l as [|c l IH]; cbn; [done|]. case_match; cbn; [|done]. destruct (span p l). cbn in *. lia. Qed.

Lemma scan_number_length l p : scan_number l = Some p -> (length p.2 < length l)%nat.
Proof.
  assert (I : forall l q, scan_int l = Some q -> (length q.2 < length l)%nat).
  { intros [|c r] q; cbn; [done|]. pose proof (span_length is_digit r). repeat case_match; intros; simplify_eq/=; lia. }
  assert (F : forall l q, scan_frac l = Some q -> (length q.2 <= length l)%nat).
  { intros [|c r] q; cbn; [by intros [= <-]|]. destruct (is_byte 46 c); [|by intros [= <-]].
    pose proof (span_length is_digit r). destruct (span is_digit r) as [[|x a] b]; [done|]. intros [= <-]. cbn in *. lia. }
  assert (X : forall l q, scan_exp l = Some q -> (length q.2 <= length l)%nat).
  { intros [|c r] q; cbn; [by intros [= <-]|]. destruct (_ || _); [|by intros [= <-]].
    destruct r as [|d r1]; [done|].
    pose proof (span_length is_digit r1) as L1. pose proof (span_length is_digit (d :: r1)) as L2.
    destruct (is_byte 43 d || is_byte 45 d).
    - destruct (span is_digit r1) as [[|x a] b]; [done|]. intros [= <-]. cbn in *. lia.
    - destruct (span is_digit (d :: r1)) as [[|x a] b]; [done|]. intros [= <-]. cbn in *. lia. }
  unfold scan_number. destruct l as [|c r]; [done|].
  set (l1 := (if is_byte 45 c then ([c], r) else ([], c :: r))).
  assert (L1 : (length l1.2 <= length (c :: r))%nat) by (unfold l1; case_match; cbn; lia).
  destruct l1 as [s l1']. cbn in L1. intros H. destruct (scan_int l1') as [[a l2]|] eqn:E1; [|done].
  destruct (scan_frac l2) as [[b l3]|] eqn:E2; [|done]. destruct (scan_exp l3) as [[e l4]|] eqn:E3; [|done].
  apply I in E1. apply F in E2. apply X in E3. simplify_eq/=. lia.
Qed.

Lemma strip_length p l r : p <> [] -> strip p l = Some r -> (length r < length l)%nat.
Proof.
  unfold strip. intros N. destruct (has_prefix p l) eqn:E; [|done]. intros [= <-]. rewrite length_drop.
  destruct p; [done|]. destruct l; [done|]. cbn. lia.
Qed.

(** Every reader consumes something. *)
Lemma readers_consume f :
  (forall d l p, json_value f d l = Some p -> (length p.2 < length l)%nat)
  /\ (forall d l p, json_members f d l = Some p -> (length p.2 < length l)%nat)
  /\ (forall d l p, json_elements f d l = Some p -> (length p.2 < length l)%nat).
Proof.
  induction f as [|f (IV & IM & IE)]; [done|]. split_and!; intros d l p H.
  - cbn in H. pose proof (skip_space_length l) as L. destruct (skip_space l) as [|c r]; [done|]. cbn in L.
    pose proof (skip_space_length r) as Lr.
    destruct (is_byte 34 c). { apply fmap_Some in H as (q & H%scan_string_length & ->). cbn. lia. }
    destruct (is_byte 123 c).
    { destruct d as [|d]; [done|]. destruct (skip_space r) as [|c1 r1]; [done|]. cbn in Lr.
      destruct (is_byte 125 c1); [simplify_eq; cbn; lia|]. apply fmap_Some in H as (q & H%IM & ->). cbn. lia. }
    destruct (is_byte 91 c).
    { destruct d as [|d]; [done|]. destruct (skip_space r) as [|c1 r1]; [done|]. cbn in Lr.
      destruct (is_byte 93 c1); [simplify_eq; cbn; lia|]. apply fmap_Some in H as (q & H%IE & ->). cbn. lia. }
    destruct (_ || _). { apply fmap_Some in H as (q & H%scan_number_length & ->). cbn in *. lia. }
    repeat match type of H with
      context [strip ?x _] => destruct (strip x _) eqn:E; [apply strip_length in E; [|done]; simplify_eq; cbn in *; lia|clear E]
    end. done.
  - cbn in H. pose proof (skip_space_length l) as L. destruct (skip_space l) as [|q r]; [done|]. cbn in L.
    destruct (negb _); [done|]. destruct (scan_string r) as [[k r1]|] eqn:E1; [|done]. apply scan_string_length in E1.
    pose proof (skip_space_length r1) as L1. cbn in E1. destruct (skip_space r1) as [|c r2]; [done|]. cbn in L1.
    destruct (negb _); [done|]. destruct (json_value f d r2) as [[v r3]|] eqn:E2; [|done]. apply IV in E2. cbn in E2.
    pose proof (skip_space_length r3) as L3. destruct (skip_space r3) as [|c4 r4]; [done|]. cbn in L3.
    destruct (is_byte 44 c4). { apply fmap_Some in H as (p' & H%IM & ->). cbn. lia. }
    destruct (is_byte 125 c4); [simplify_eq; cbn; lia|done].
  - cbn in H. destruct (json_value f d l) as [[v r]|] eqn:E1; [|done]. apply IV in E1. cbn in E1.
    pose proof (skip_space_length r) as L. destruct (skip_space r) as [|c r1]; [done|]. cbn in L.
    destruct (is_byte 44 c). { apply fmap_Some in H as (p' & H%IE & ->). cbn. lia. }
    destruct (is_byte 93 c); [simplify_eq; cbn; lia|done].
Qed.

Lemma more_fuel f : forall g,
  (forall d l, (2 * length l + 1 <= f)%nat -> (f <= g)%nat -> json_value g d l = json_value f d l)
  /\ (forall d l, (2 * length l + 1 <= f)%nat -> (f <= g)%nat -> json_members g d l = json_members f d l)
  /\ (forall d l, (2 * length l + 2 <= f)%nat -> (f <= g)%nat -> json_elements g d l = json_elements f d l).
Proof.
  induction f as [|f IH]; intros g; [split_and!; intros; lia|].
  destruct g as [|g]; [split_and!; intros; lia|]. destruct (IH g) as (IV & IM & IE).
  split_and!; intros d l Hf Hg; cbn.
  - pose proof (skip_space_length l) as L. destruct (skip_space l) as [|c r]; [done|]. cbn in L.
    destruct (is_byte 34 c); [done|]. destruct (is_byte 123 c).
    { destruct d as [|d]; [done|]. destruct (skip_space r) as [|c1 r1]; [done|]. by rewrite IM by lia. }
    destruct (is_byte 91 c); [|done].
    destruct d as [|d]; [done|]. destruct (skip_space r) as [|c1 r1]; [done|]. by rewrite IE by lia.
  - pose proof (skip_space_length l) as L. destruct (skip_space l) as [|q r]; [done|]. cbn in L.
    destruct (negb _); [done|]. destruct (scan_string r) as [[k r1]|] eqn:E1; [|done]. apply scan_string_length in E1.
    pose proof (skip_space_length r1) as L1. cbn in E1. destruct (skip_space r1) as [|c r2]; [done|]. cbn in L1.
    destruct (negb _); [done|]. rewrite IV by lia. destruct (json_value f d r2) as [[v r3]|] eqn:E2; [|done].
    apply (proj1 (readers_consume f)) in E2. cbn in E2.
    pose proof (skip_space_length r3) as L3. destruct (skip_space r3) as [|c4 r4]; [done|]. cbn in L3.
    by rewrite IM by lia.
  - rewrite IV by lia. destruct (json_value f d l) as [[v r]|] eqn:E1; [|done].
    apply (proj1 (readers_consume f)) in E1. cbn in E1.
    pose proof (skip_space_length r) as L. destruct (skip_space r) as [|c r1]; [done|]. cbn in L.
    by rewrite IE by lia.
Qed.

Lemma json_value_fuel f d l : (2 * length l + 1 <= f)%nat -> json_value f d l = json_value (2 * length l + 1) d l.
Proof. intros H. by apply more_fuel. Qed.

#[global] Opaque json_parse.

(** [json.Unmarshal] into structs, and the messages that are written and read
    by different services: judge jobs and judge results (pkg/judge).  A field
    takes the last value given for it; a value of the wrong kind anywhere makes
    the whole call fail. *)

(** ** Field names

    A key selects the field of that name, or of that name up to case folding;
    besides ASCII letters only the long s and the Kelvin sign fold to ASCII. *)
Fixpoint fold_runes (l : list (bytes * bool)) : bytes :=
  match l with
  | [] => []
  | (r, _) :: rest =>
      (if bool_decide (r = [ascii_of_N 197; ascii_of_N 191]) then chars "S"
       else if bool_decide (r = map ascii_of_N [226; 132; 170]%N) then chars "K"
       else map upper_ascii r) ++ fold_runes rest
  end.
Definition foldName (l : bytes) : bytes := fold_runes (runes l).

Definition same_name (name key : bytes) : bool :=
  bool_decide (key = name) || bool_decide (foldName key = foldName name).

(** The values an object gives for a field, in order. *)
Definition values_of (name : string) (l : list (bytes * json)) : list json :=
  omap (fun m => if same_name (chars name) (unquote m.1) then Some m.2 else None) l.

(** ** Kinds of fields *)

Definition dec_string (v : json) : option string :=
  match v with JString raw => Some (str (unquote raw)) | _ => None end.
Definition dec_int (v : json) : option Z :=
  match v with JNumber lit => ParseInt (str lit) | _ => None end.
Definition dec_time (v : json) : option Z :=
  match v with JString raw => parse_rfc3339 raw | _ => None end.

Section fields.
Context {A : Type} (dec : json -> option A).

(** [null] leaves a field as it is ... *)
Definition field_step (acc : option A) (v : json) : option A :=
  match acc, v with
  | None, _ => None
  | Some a, JNull => Some a
  | Some _, v => dec v
  end.
Definition field (init : A) (vs : list json) : option A := foldl field_step (Some init) vs.

(** ... and makes a pointer nil. *)
Definition pointer_step (acc : option (option A)) (v : json) : option (option A) :=
  match acc, v with
  | None, _ => None
  | Some _, JNull => Some None
  | Some _, v => Some <$> dec v
  end.
Definition pointer (vs : list json) : option (option A) := foldl pointer_step (Some None) vs.
End fields.

(** A slice: the array it points to and its length.  Elements are decoded into
    what the array already holds. *)
Section slice.
Context {A : Type} (zero : A) (dec : A -> json -> option A).

Fixpoint fill (mem : list A) (l : list json) : option (list A) :=
  match l with
  | [] => Some mem
  | v :: r =>
      match dec (match mem with a :: _ => a | [] => zero end) v, fill (tail mem) r with
      | Some a, Some m => Some (a :: m)
      | _, _ => None
      end
  end.
Definition slice_step (acc : option (list A * nat)) (v : json) : option (list A * nat) :=
  match acc, v with
  | None, _ => None
  | Some _, JNull => Some ([], 0%nat)
  | Some _, JArray [] => Some ([], 0%nat)
  | Some (mem, _), JArray l => (fun m => (m, length l)) <$> fill mem l
  | _, _ => None
  end.
Definition slice (vs : list json) : option (list A) :=
  (fun p => take p.2 p.1) <$> foldl slice_step (Some ([], 0%nat)) vs.
End slice.

(** The document as a struct: [null] changes nothing, anything but an object
    is an error. *)
Definition unmarshal {A} (zero : A) (dec : list (bytes * json) -> option A) (s : string) : option A :=
  match json_parse s with
  | Some (JObject l) => dec l
  | Some JNull => Some zero
  | _ => None
  end.

(** ** Written objects *)

(** A field to write: its name and, unless it is omitted, its value and text. *)
Definition jfield := (string * option (json * bytes))%type.
Definition present (fs : list jfield) : list member := omap (fun f => (fun p => (f.1, p.1, p.2)) <$> f.2) fs.

Lemma json_object_present (fs : list jfield) :
  json_object (map (fun f => (f.1, snd <$> f.2)) fs)
  = ascii_of_N 123 :: join_with comma (map member_text (present fs)) ++ [ascii_of_N 125].
Proof.
  unfold json_object. do 3 f_equal. induction fs as [|[k [[v b]|]] fs IH]; [done| |done].
  cbn. by f_equal.
Qed.

Lemma present_some k p fs : present ((k, Some p) :: fs) <> [].
Proof. intros [=]. Qed.

Definition field_reads (dep : nat) (f : jfield) : Prop := match f.2 with Some (v, b) => reads v b dep | None => True end.

Lemma present_reads dep fs : Forall (field_reads dep) fs -> Forall (fun m => reads m.1.2 m.2 dep) (present fs).
Proof.
  induction 1 as [|[k [[v b]|]] fs R F IH]; [constructor| |done]. unfold present. cbn. by constructor.
Qed.

(** The values a written object gives for a field. *)
Definition given (name : string) (fs : list jfield) : list json :=
  omap (fun f => if same_name (chars name) (chars f.1) then fst <$> f.2 else None) fs.

Lemma values_of_written name fs : Forall (fun f : jfield => valid_utf8 (chars f.1) = true) fs ->
  values_of name (map member_of (present fs)) = given name fs.
Proof.
  induction 1 as [|[k [[v b]|]] fs V F IH]; [done| |].
  - unfold values_of, present, given in *. cbn in *. rewrite unquote_escaped, coerce_valid by (by apply valid_utf8_spec).
    destruct (same_name (chars name) (chars k)); [by f_equal|done].
  - unfold values_of, present, given in *. cbn in *. destruct (same_name (chars name) (chars k)); done.
Qed.

Lemma unmarshal_written {A} (zero : A) dec fs dep : Forall (field_reads dep) fs -> present fs <> [] -> (dep < max_depth)%nat ->
  unmarshal zero dec (str (json_object (map (fun f => (f.1, snd <$> f.2)) fs))) = dec (map member_of (present fs)).
Proof.
  intros R N D. unfold unmarshal. rewrite json_object_present.
  by rewrite (reads_parse (JObject (map member_of (present fs))) _ (S dep)); [|apply reads_object; [apply present_reads|]|lia].
Qed.

(** Names that select different fields. *)
Definition distinct_names (ns : list string) : bool :=
  forallb (fun n => forallb (fun k => implb (same_name (chars n) (chars k)) (bool_decide (n = k))) ns) ns
  && bool_decide (NoDup ns).

Definition given_value (o : option (json * bytes)) : list json := match o with Some p => [p.1] | None => [] end.

Lemma same_name_refl n : same_name n n = true.
Proof. unfold same_name. by rewrite bool_decide_true. Qed.

Lemma given_cons name k o fs : given name ((k, o) :: fs) =
  (if same_name (chars name) (chars k) then given_value o else []) ++ given name fs.
Proof. unfold given. cbn. destruct (same_name _ _); [|done]. by destruct o. Qed.

(** Each field of a written object is given its own value only. *)
Lemma given_nth fs i name o : distinct_names (map fst fs) = true -> fs !! i = Some (name, o) -> given name fs = given_value o.
Proof.
  unfold distinct_names. rewrite andb_true_iff, bool_decide_eq_true. intros [D N] Hi.
  assert (S : forall k, k ∈ map fst fs -> same_name (chars name) (chars k) = true -> k = name).
  { intros k Hk%list_elem_of_In E. rewrite forallb_forall in D.
    assert (In name (map fst fs)) as Hn by (apply in_map_iff; exists (name, o); split; [done|]; by eapply list_elem_of_In, list_elem_of_lookup_2).
    specialize (D _ Hn). rewrite forallb_forall in D. specialize (D _ Hk). rewrite E in D. cbn in D.
    by apply bool_decide_eq_true in D. }
  clear D. revert i Hi. induction fs as [|[k p] fs IH]; intros i Hi; [done|]. cbn in N. apply NoDup_cons in N as [N0 N].
  rewrite given_cons. destruct i as [|i]; cbn in Hi.
  - injection Hi as -> ->. rewrite same_name_refl. rewrite <- (app_nil_r (given_value o)) at 2. f_equal.
    clear IH. induction fs as [|[k q] fs IH]; [done|]. rewrite given_cons. cbn in *.
    destruct (same_name (chars name) (chars k)) eqn:Sk.
    + apply S in Sk; [|right; left]. subst k. destruct N0. by left.
    + apply IH; [set_solver|by apply NoDup_cons in N as [_ ?]|set_solver].
  - destruct (same_name (chars name) (chars k)) eqn:Sk.
    + apply S in Sk; [|by left]. subst k. destruct N0. apply list_elem_of_In, in_map_iff. exists (name, o).
      split; [done|]. by eapply list_elem_of_In, list_elem_of_lookup_2.
    + apply (IH N) with (i := i); [|done]. intros k' Hk'. apply S. by right.
Qed.

(** Decoding one given value. *)
Lemma field_one {A} (dec : json -> option A) init p a : dec p = Some a -> p <> JNull -> field dec init [p] = Some a.
Proof. intros D N. cbn. by destruct p. Qed.

Lemma pointer_one {A} (dec : json -> option A) init p a : dec p = Some a -> p <> JNull ->
  foldl (pointer_step dec) (Some init) [p] = Some (Some a).
Proof. intros D N. cbn. destruct p; [done|..]; by rewrite D. Qed.

(** The next field of a struct decoder. *)
Lemma decoded {A B} (m : option A) a (f : A -> option B) : m = Some a -> (m ≫= f) = f a.
Proof. by intros ->. Qed.
