(* ===== verification/GoCrypto.v ===== *)
(** Packages [crypto/sha256], [crypto/hmac], [encoding/hex] and
    [encoding/base64] (raw URL alphabet) on byte lists. *)

From S2P Require Import Prelude GoString.

(** ** SHA-256 (FIPS 180-4); words are integers below [2 ^ 32] *)

Definition word_mask : Z := 2 ^ 32 - 1.
Definition add32 (a b : Z) : Z := Z.land (a + b) word_mask.
Definition rotr (n x : Z) : Z := Z.lor (Z.shiftr x n) (Z.land (Z.shiftl x (32 - n)) word_mask).
Definition not32 (x : Z) : Z := Z.lxor x word_mask.

(** The round constants are the first 32 bits of the fractional parts of the
    cube roots of the first 64 primes, the initial state those of the square
    roots of the first eight (FIPS 180-4, 4.2.2 and 5.3.3). *)
Definition is_prime (n : Z) : bool :=
  forallb (fun d => negb (n mod (Z.of_nat d) =? 0)) (seq 2 (Z.to_nat n - 2)).
Definition primes (n : nat) : list Z :=
  take n (filter (fun p => is_prime p = true) (map Z.of_nat (seq 2 310))).

(** The largest [r] with [f r <= n] among the integers of [bits] bits above [r]. *)
Fixpoint largest (f : Z -> Z) (n : Z) (bits : nat) (r : Z) : Z :=
  match bits with
  | O => r
  | S b => let r' := r + 2 ^ Z.of_nat b in largest f n b (if f r' <=? n then r' else r)
  end.
Definition root_word (k : Z) (p : Z) : Z :=
  Z.land (largest (fun r => r ^ k) (p * 2 ^ (32 * k)) 40 0) word_mask.

Definition sha_k : list Z := Eval vm_compute in map (root_word 3) (primes 64).
Definition sha_init : list Z := Eval vm_compute in map (root_word 2) (primes 8).

(** Big-endian words of a block, and back. *)
Definition byte_of (z : Z) : ascii := ascii_of_N (Z.to_N (Z.land z 255)).
Definition be_bytes (n : nat) (z : Z) : bytes :=
  map (fun i => byte_of (Z.shiftr z (8 * Z.of_nat (n - 1 - i)))) (seq 0 n).
Fixpoint be_words (l : bytes) : list Z :=
  match l with
  | a :: b :: c :: d :: r =>
      Z.lor (Z.lor (Z.shiftl (Z.of_N (code a)) 24) (Z.shiftl (Z.of_N (code b)) 16))
            (Z.lor (Z.shiftl (Z.of_N (code c)) 8) (Z.of_N (code d))) :: be_words r
  | _ => []
  end.

(** The message schedule, latest word first. *)
Fixpoint extend (n : nat) (w : list Z) : list Z :=
  match n with
  | O => w
  | S n' =>
      let at_ i := nth i w 0 in
      let s0 x := Z.lxor (Z.lxor (rotr 7 x) (rotr 18 x)) (Z.shiftr x 3) in
      let s1 x := Z.lxor (Z.lxor (rotr 17 x) (rotr 19 x)) (Z.shiftr x 10) in
      extend n' (add32 (add32 (at_ 15%nat) (s0 (at_ 14%nat))) (add32 (at_ 6%nat) (s1 (at_ 1%nat))) :: w)
  end.

Definition round (s : list Z) (kw : Z * Z) : list Z :=
  match s with
  | [a; b; c; d; e; f; g; h] =>
      let s1 := Z.lxor (Z.lxor (rotr 6 e) (rotr 11 e)) (rotr 25 e) in
      let ch := Z.lxor (Z.land e f) (Z.land (not32 e) g) in
      let t1 := add32 (add32 (add32 h s1) (add32 ch kw.1)) kw.2 in
      let s0 := Z.lxor (Z.lxor (rotr 2 a) (rotr 13 a)) (rotr 22 a) in
      let maj := Z.lxor (Z.lxor (Z.land a b) (Z.land a c)) (Z.land b c) in
      [add32 t1 (add32 s0 maj); a; b; c; add32 d t1; e; f; g]
  | _ => s
  end.

Definition compress (h : list Z) (block : bytes) : list Z :=
  let w := rev (extend 48 (rev (be_words block))) in
  zip_with add32 h (fold_left round (zip sha_k w) h).

Definition sha_pad (l : bytes) : bytes :=
  let n := length l in
  let zeros := Z.to_nat ((55 - Z.of_nat n) mod 64) in
  l ++ byte_of 128 :: repeat (byte_of 0) zeros ++ be_bytes 8 (8 * Z.of_nat n).

(** Blocks of 64 bytes; [fuel] bounds their number. *)
Fixpoint sha_blocks (fuel : nat) (h : list Z) (l : bytes) : list Z :=
  match fuel with
  | O => h
  | S f => match l with [] => h | _ => sha_blocks f (compress h (take 64 l)) (drop 64 l) end
  end.

(** [sha256.Sum256]: 32 bytes. *)
Definition Sum256 (l : bytes) : bytes :=
  let m := sha_pad l in concat (map (be_bytes 4) (take 8 (sha_blocks (length m) sha_init m ++ repeat 0 8))).

(** ** HMAC-SHA-256 *)

Definition hmac_block (key : bytes) : bytes :=
  let k := if (64 <? length key)%nat then Sum256 key else key in
  k ++ repeat (byte_of 0) (64 - length k).
Definition xor_with (n : Z) (l : bytes) : bytes := map (fun c => byte_of (Z.lxor (Z.of_N (code c)) n)) l.
Definition HmacSha256 (key payload : bytes) : bytes :=
  let k := hmac_block key in
  Sum256 (xor_with 0x5c k ++ Sum256 (xor_with 0x36 k ++ payload)).

(** ** Hexadecimal *)

Definition hex_char (n : Z) : ascii := ascii_of_N (Z.to_N (if n <? 10 then 48 + n else 87 + n)).
Definition HexEncode (l : bytes) : bytes :=
  concat (map (fun c => let n := Z.of_N (code c) in [hex_char (n / 16); hex_char (n mod 16)]) l).

(** A hexadecimal digit of either case. *)
Definition hex_val (c : ascii) : option Z :=
  let n := Z.of_N (code c) in
  if within 48 57 c then Some (n - 48)
  else if within 97 102 c then Some (n - 87)
  else if within 65 70 c then Some (n - 55)
  else None.

(** [hex.DecodeString]; [None] is an error. *)
Fixpoint HexDecode (l : bytes) : option bytes :=
  match l with
  | [] => Some []
  | a :: b :: r =>
      match hex_val a, hex_val b, HexDecode r with
      | Some x, Some y, Some t => Some (byte_of (16 * x + y) :: t)
      | _, _, _ => None
      end
  | [_] => None
  end.

(** ** Base64 with the URL alphabet and without padding *)

Definition b64_char (n : Z) : ascii :=
  ascii_of_N (Z.to_N (if n <? 26 then 65 + n else if n <? 52 then 71 + n else if n <? 62 then n - 4
                      else if n =? 62 then 45 else 95)).
Definition b64_val (c : ascii) : option Z :=
  let n := Z.of_N (code c) in
  if within 65 90 c then Some (n - 65)
  else if within 97 122 c then Some (n - 71)
  else if within 48 57 c then Some (n + 4)
  else if is_byte 45 c then Some 62
  else if is_byte 95 c then Some 63
  else None.

Fixpoint B64Encode (l : bytes) : bytes :=
  let v c := Z.of_N (code c) in
  match l with
  | [] => []
  | [a] => [b64_char (v a / 4); b64_char (v a mod 4 * 16)]
  | [a; b] => [b64_char (v a / 4); b64_char (v a mod 4 * 16 + v b / 16); b64_char (v b mod 16 * 4)]
  | a :: b :: c :: r =>
      b64_char (v a / 4) :: b64_char (v a mod 4 * 16 + v b / 16)
        :: b64_char (v b mod 16 * 4 + v c / 64) :: b64_char (v c mod 64) :: B64Encode r
  end.

(** [DecodeString]: carriage returns and newlines are skipped, trailing bits
    are ignored, a single left-over character is an error. *)
Fixpoint b64_groups (l : list Z) : option bytes :=
  match l with
  | [] => Some []
  | [_] => None
  | [x; y] => Some [byte_of (x * 4 + y / 16)]
  | [x; y; z] => Some [byte_of (x * 4 + y / 16); byte_of (y mod 16 * 16 + z / 4)]
  | x :: y :: z :: t :: r =>
      match b64_groups r with
      | Some s => Some (byte_of (x * 4 + y / 16) :: byte_of (y mod 16 * 16 + z / 4) :: byte_of (z mod 4 * 64 + t) :: s)
      | None => None
      end
  end.
Fixpoint b64_vals (l : bytes) : option (list Z) :=
  match l with
  | [] => Some []
  | c :: r => if is_byte 10 c || is_byte 13 c then b64_vals r
              else match b64_val c, b64_vals r with Some x, Some t => Some (x :: t) | _, _ => None end
  end.
Definition B64Decode (l : bytes) : option bytes :=
  match b64_vals l with Some v => b64_groups v | None => None end.

(** ** Test vectors *)

Example sha256_empty : str (HexEncode (Sum256 []))
  = "e3b0c44298fc1c149afbf4c8996fb92427ae41e4649b934ca495991b7852b855"%string.
Proof. vm_compute. reflexivity. Qed.
Example sha256_abc : str (HexEncode (Sum256 (chars "abc")))
  = "ba7816bf8f01cfea414140de5dae2223b00361a396177a9cb410ff61f20015ad"%string.
Proof. vm_compute. reflexivity. Qed.
Example sha256_two_blocks :
  str (HexEncode (Sum256 (chars "abcdbcdecdefdefgefghfghighijhijkijkljklmklmnlmnomnopnopq")))
  = "248d6a61d20638b8e5c026930c3e6039a33ce45964ff2167f6ecedd419db06c1"%string.
Proof. vm_compute. reflexivity. Qed.
Example hmac_example : str (HexEncode (HmacSha256 (chars "key") (chars "The quick brown fox jumps over the lazy dog")))
  = "f7bc83f430538424b13298e6aa6fb143ef4d59a14946175997479dbc2d1a3cd8"%string.
Proof. vm_compute. reflexivity. Qed.
Example b64_example : str (B64Encode (chars "any carnal pleas")) = "YW55IGNhcm5hbCBwbGVhcw"%string.
Proof. vm_compute. reflexivity. Qed.

(** ** Facts *)


Lemma Sum256_length l : length (Sum256 l) = 32%nat.
Proof.
  unfold Sum256. set (h := sha_blocks _ _ _). clearbody h.
  assert (length (take 8 (h ++ repeat 0 8)) = 8%nat) as H.
  { rewrite length_take, length_app, repeat_length. lia. }
  set (t := take 8 _) in *. clearbody t. clear h.
  assert (forall t : list Z, length (concat (map (be_bytes 4) t)) = (4 * length t)%nat) as K.
  { clear. induction t as [|x t IH]; [done|]. cbn [map concat length]. rewrite length_app, IH. cbn. lia. }
  rewrite K, H. done.
Qed.

Lemma HexEncode_length l : length (HexEncode l) = (2 * length l)%nat.
Proof. unfold HexEncode. induction l as [|c l IH]; cbn in *; [done|]. rewrite IH. lia. Qed.

Definition lower_hex (c : ascii) : bool := within 97 102 c || within 48 57 c.

Lemma HexEncode_lower l : forallb lower_hex (HexEncode l) = true.
Proof.
  unfold HexEncode. induction l as [|c l IH]; [done|]. cbn [map concat]. rewrite forallb_app, IH, andb_true_r.
  revert c. apply all_bytes. vm_compute. reflexivity.
Qed.

Lemma HexDecode_Encode l : HexDecode (HexEncode l) = Some l.
Proof.
  unfold HexEncode. induction l as [|c l IH]; [done|]. cbn [map concat app HexDecode]. rewrite IH.
  assert (forall c, bool_decide (match hex_val (hex_char (Z.of_N (code c) / 16)), hex_val (hex_char (Z.of_N (code c) mod 16)) with
    | Some x, Some y => Some (byte_of (16 * x + y)) | _, _ => None end = Some c) = true) as K.
  { apply all_bytes. vm_compute. reflexivity. }
  specialize (K c). apply bool_decide_eq_true in K.
  destruct (hex_val (hex_char (Z.of_N (code c) / 16))), (hex_val (hex_char (Z.of_N (code c) mod 16))); congruence.
Qed.

Lemma b64_val_char n : 0 <= n < 64 -> b64_val (b64_char n) = Some n
  /\ is_byte 10 (b64_char n) = false /\ is_byte 13 (b64_char n) = false /\ is_byte 46 (b64_char n) = false.
Proof.
  intros H. assert (forallb (fun i => bool_decide (b64_val (b64_char i) = Some i)
     && negb (is_byte 10 (b64_char i)) && negb (is_byte 13 (b64_char i)) && negb (is_byte 46 (b64_char i)))
     (seqZ 0 64) = true) as K by (vm_compute; reflexivity).
  rewrite forallb_forall in K. assert (n ∈ seqZ 0 64) as E by (apply elem_of_seqZ; lia).
  apply list_elem_of_In, K in E. bools. done.
Qed.

Lemma b64_vals_cons n r : 0 <= n < 64 ->
  b64_vals (b64_char n :: r) = match b64_vals r with Some t => Some (n :: t) | None => None end.
Proof. intros H. cbn [b64_vals]. by destruct (b64_val_char n H) as (-> & -> & -> & _). Qed.

Lemma byte_of_code c : byte_of (Z.of_N (code c)) = c.
Proof.
  apply (fun H => proj1 (bool_decide_eq_true _) (H c)).
  apply (all_bytes (fun c => bool_decide (byte_of (Z.of_N (code c)) = c))). vm_compute. reflexivity.
Qed.

(** The sextets of a text, and the text of its sextets. *)
Fixpoint sextets (l : bytes) : list Z :=
  let v c := Z.of_N (code c) in
  match l with
  | [] => []
  | [a] => [v a / 4; v a mod 4 * 16]
  | [a; b] => [v a / 4; v a mod 4 * 16 + v b / 16; v b mod 16 * 4]
  | a :: b :: c :: r =>
      v a / 4 :: v a mod 4 * 16 + v b / 16 :: v b mod 16 * 4 + v c / 64 :: v c mod 64 :: sextets r
  end.

Lemma triple_ind (P : bytes -> Prop) : P [] -> (forall a, P [a]) -> (forall a b, P [a; b]) ->
  (forall a b c r, P r -> P (a :: b :: c :: r)) -> forall l, P l.
Proof.
  intros H0 H1 H2 H3. fix IH 1. intros [|a [|b [|c r]]]; [apply H0|apply H1|apply H2|apply H3, IH].
Qed.

Lemma v_range c : 0 <= Z.of_N (code c) < 256.
Proof. pose proof (code_range c). lia. Qed.

Ltac div_lia := Z.div_mod_to_equations; lia.

Lemma b64_vals_encode l : b64_vals (B64Encode l) = Some (sextets l).
Proof.
  induction l as [|a|a b|a b c r IH] using triple_ind; cbn [B64Encode sextets]; [done|..];
    repeat match goal with x : ascii |- _ => lazymatch goal with H : 0 <= Z.of_N (code x) < 256 |- _ => fail
      | _ => pose proof (v_range x) end end.
  - rewrite !b64_vals_cons by div_lia. done.
  - rewrite !b64_vals_cons by div_lia. done.
  - rewrite !b64_vals_cons by div_lia. by rewrite IH.
Qed.

Lemma b64_first a y : 0 <= y < 16 -> byte_of (Z.of_N (code a) / 4 * 4 + (Z.of_N (code a) mod 4 * 16 + y) / 16) = a.
Proof. intros H. rewrite <- (byte_of_code a) at 3. f_equal. pose proof (v_range a). div_lia. Qed.
Lemma b64_second a b z : 0 <= z < 4 ->
  byte_of ((Z.of_N (code a) mod 4 * 16 + Z.of_N (code b) / 16) mod 16 * 16 + (Z.of_N (code b) mod 16 * 4 + z) / 4) = b.
Proof.
  intros H. rewrite <- (byte_of_code b) at 3. f_equal. pose proof (v_range a). pose proof (v_range b). div_lia.
Qed.
Lemma b64_third b c : byte_of ((Z.of_N (code b) mod 16 * 4 + Z.of_N (code c) / 64) mod 4 * 64 + Z.of_N (code c) mod 64) = c.
Proof.
  rewrite <- (byte_of_code c) at 3. f_equal. pose proof (v_range b). pose proof (v_range c). div_lia.
Qed.

Lemma B64Decode_Encode l : B64Decode (B64Encode l) = Some l.
Proof.
  unfold B64Decode. rewrite b64_vals_encode.
  induction l as [|a|a b|a b c r IH] using triple_ind; cbn [sextets b64_groups]; [done|..].
  - rewrite <- (Z.add_0_r (Z.of_N (code a) mod 4 * 16)), b64_first by lia. done.
  - pose proof (v_range b). rewrite b64_first by div_lia.
    rewrite <- (Z.add_0_r (Z.of_N (code b) mod 16 * 4)), b64_second by lia. done.
  - pose proof (v_range b). pose proof (v_range c). rewrite IH, b64_first, b64_second by div_lia.
    by rewrite b64_third.
Qed.

Lemma B64Encode_no_dot l : Forall (fun c => is_byte 46 c = false) (B64Encode l).
Proof.
  induction l as [|a|a b|a b c r IH] using triple_ind; cbn [B64Encode];
    repeat match goal with x : ascii |- _ => lazymatch goal with H : 0 <= Z.of_N (code x) < 256 |- _ => fail
      | _ => pose proof (v_range x) end end; repeat constructor; try done; apply b64_val_char; div_lia.
Qed.

Lemma B64Encode_nonempty l : l <> [] -> B64Encode l <> [].
Proof. destruct l as [|a [|b [|c r]]]; done. Qed.
