(* ===== verification/OutboxRelay.v ===== *)
(** The transactional outbox as judge publisher
    (services/submission/internal/adapter/outbound/judge/kafka_judge.go) and
    the JSON form of a job (pkg/judge/job_message.go); then the relay that
    publishes the rows of the outbox. *)

From S2P Require Import Prelude GoString GoError GoMonad GoTime SubmissionDomain SubmissionPorts.

(** [json.Marshal(job)] *)
Definition marshal_job (job : JobMessage) : option string :=
  match json_time job.(EnqueuedAt) with
  | None => None
  | Some t => Some (str (json_object
      [("submission_id", Some (json_int job.(JobSubmissionID)));
       ("problem_id", Some (json_int job.(JobProblemID)));
       ("problem_slug", if bool_decide (job.(JobProblemSlug) = "") then None
                        else Some (json_string job.(JobProblemSlug)));
       ("user_id", Some (json_string job.(JobUserID)));
       ("language", Some (json_string job.(JobLanguage)));
       ("source_code", Some (json_string job.(JobSourceCode)));
       ("attempt_id", Some (json_string job.(JobAttemptID)));
       ("enqueued_at", Some t)]%string))
  end.

(** [NewOutboxJudgePublisher]: the configured topic or the default one. *)
Definition publisher_topic (job_topic : string) : string :=
  if bool_decide (job_topic = "")%string then "judge.submission.jobs" else job_topic.

(** The pending outbox row of a job. *)
Definition job_row (topic : string) (jsonb : string -> string) (job : JobMessage) (payload : string)
    (id : Z) (t : Time) : OutboxMessage :=
  mkOutbox id job.(JobSubmissionID) topic (jsonb payload) OutboxStatusPending t None 0 None.

(** [s'] is [s] with one more pending outbox row, the one of [job]. *)
Definition queued (topic : string) (jsonb : string -> string) (job : JobMessage) (s s' : store) : Prop :=
  exists payload id t, marshal_job job = Some payload /\ s.(outbox) !! id = None
    /\ s' = set_outbox s (<[id := job_row topic jsonb job payload id t]> s.(outbox)).

(** What the use cases rely on of the port [JudgePublisher]: a published job
    is durably queued in the current transaction. *)
Class PublisherLaws {W} (Publish : JobMessage -> M W unit) (topic : string) (jsonb : string -> string)
    (db : W -> store) (sent : W -> list SubmissionEvent) := {
  publish_ok : forall job w w', Publish job w = (inr tt, w') ->
    blank job.(JobAttemptID) = false /\ queued topic jsonb job (db w) (db w');
  publish_sent : forall job, keeps sent (Publish job);
}.

Section publisher.
Context {W : Type} (or : OutboxRepository W) (topic : string).

(** [outboxJudgePublisher.Publish] *)
Definition outbox_Publish (job : JobMessage) : M W unit :=
  if bool_decide (TrimSpace job.(JobAttemptID) = ""%string)
  then fail (EText "publish judge job: attempt ID is required")
  else match marshal_job job with
       | None => fail (EText "marshal judge job payload")
       | Some value =>
           let* _ := OR_Create or
             (mkOutbox 0 job.(JobSubmissionID) topic value OutboxStatusPending 0 None 0 None) in
           ret tt
       end.

Context (jsonb : string -> string) (db : W -> store) (sent : W -> list SubmissionEvent)
  {OL : OutboxLaws or jsonb db sent}.

#[export] Instance outbox_PublisherLaws : PublisherLaws outbox_Publish topic jsonb db sent.
Proof.
  split; unfold outbox_Publish.
  - intros job w w' H. case_bool_decide as B; [done|].
    split; [by apply bool_decide_eq_false|].
    destruct (marshal_job job) as [p|] eqn:E; [|done]. run_inv H. injection H as <-.
    apply outbox_create_ok in E0 as (t & H1 & H2). by exists p, a, t.
  - intros job. case_bool_decide; [apply keeps_fail|].
    destruct (marshal_job job); [|apply keeps_fail].
    apply keeps_bind; [apply (outbox_quiet (or := or))|intros; apply keeps_ret].
Qed.
End publisher.

(** The outbox relay, which moves pending jobs from the database to Kafka:
    services/submission/internal/adapter/outbound/outbox/relay.go.

    The Kafka producer is a parameter: [Send] is [producer.SendMessage],
    [delivered w] the messages the broker has accepted so far.  Logging is left
    out. *)

Definition maxPublishRetries : Z := 5.

Definition relay_message (msg : OutboxMessage) : ProducerMessage :=
  {| PmTopic := msg.(Topic); PmKey := Itoa msg.(AggregateID); PmValue := msg.(Payload) |}.

Section relay.
Context {W : Type} (repo : OutboxRepository W) (Send : ProducerMessage -> M W (Z * Z)) (Done : M W bool).

(** One iteration of the loop over the fetched messages. *)
Definition relayOne (msg : OutboxMessage) : M W unit :=
  if maxPublishRetries <=? msg.(RetryCount) then ret tt
  else
    let* sent := try (Send (relay_message msg)) in
    match sent with
    | inl err => let* _ := try (OR_MarkFailed repo msg.(ObID) (error_text err)) in ret tt
    | inr _ => let* _ := try (OR_MarkPublished repo msg.(ObID)) in ret tt
    end.

Fixpoint relayLoop (messages : list OutboxMessage) : M W unit :=
  match messages with
  | [] => ret tt
  | msg :: rest =>
      let* done := Done in
      if done then ret tt else (relayOne msg ;; relayLoop rest)
  end.

Definition relayBatch : Z := 100.

(** [OutboxRelay.processPendingMessages]. *)
Definition processPendingMessages : M W unit :=
  let* messages := try (OR_GetPending repo relayBatch) in
  match messages with
  | inl _ => ret tt
  | inr messages => relayLoop messages
  end.
End relay.

(** ** Specification: what one pass may do to the outbox *)

(** A successful send is accepted by the broker; a failed one may have been
    accepted as well.  Sending and the context touch neither database nor hub. *)
Class ProducerLaws {W} (Send : ProducerMessage -> M W (Z * Z)) (Done : M W bool) (db : W -> store)
    (sent : W -> list SubmissionEvent) (delivered : W -> list ProducerMessage) := {
  send_ok : forall m w p w', Send m w = (inr p, w') -> delivered w' = delivered w ++ [m];
  send_failed : forall m w e w', Send m w = (inl e, w') ->
    delivered w' = delivered w \/ delivered w' = delivered w ++ [m];
  send_quiet : forall m, keeps db (Send m) /\ keeps sent (Send m);
  done_total : forall w, exists b w', Done w = (inr b, w');
  done_quiet : keeps db Done /\ keeps sent Done /\ keeps delivered Done;
}.

(** The repository does not deliver anything. *)
Class RelayStore {W} (repo : OutboxRepository W) (delivered : W -> list ProducerMessage) := {
  relay_repo_quiet : (forall n, keeps delivered (OR_GetPending repo n))
    /\ (forall id, keeps delivered (OR_MarkPublished repo id))
    /\ (forall id r, keeps delivered (OR_MarkFailed repo id r));
}.

(** One row may be published, if it was delivered, or its failure recorded,
    if it was not exhausted. *)
Inductive relay_step : store * list ProducerMessage -> store * list ProducerMessage -> Prop :=
| relay_sent s d m : relay_step (s, d) (s, d ++ [relay_message m])
| relay_published s d id t m : s.(outbox) !! id = Some m -> relay_message m ∈ d ->
    m.(RetryCount) < maxPublishRetries ->
    relay_step (s, d) (set_outbox s (alter (published_row t) id s.(outbox)), d)
| relay_failed s d id r m : s.(outbox) !! id = Some m -> m.(RetryCount) < maxPublishRetries ->
    relay_step (s, d) (set_outbox s (alter (failed_row r) id s.(outbox)), d).

(** ** Lemmas *)

Section proofs.
Context {W : Type} (repo : OutboxRepository W) (Send : ProducerMessage -> M W (Z * Z)) (Done : M W bool)
  (jsonb : string -> string) (db : W -> store) (sent : W -> list SubmissionEvent)
  (delivered : W -> list ProducerMessage)
  {OL : OutboxLaws repo jsonb db sent} {KL : ProducerLaws Send Done db sent delivered}
  {RS : RelayStore repo delivered}.

#[local] Abbreviation view := (fun w => (db w, delivered w)).
#[local] Abbreviation one := (relayOne repo Send).
#[local] Abbreviation loop := (relayLoop repo Send Done).

Lemma relayOne_total m w : exists w', one m w = (inr tt, w').
Proof.
  unfold relayOne, bind, try. destruct (_ <=? _); [eexists; reflexivity|].
  destruct (Send _ w) as [[e|p] w1].
  - destruct (OR_MarkFailed _ _ _ w1) as [r w2]. eexists; reflexivity.
  - destruct (OR_MarkPublished _ _ w1) as [r w2]. eexists; reflexivity.
Qed.

Lemma relayLoop_total l w : exists w', loop l w = (inr tt, w').
Proof.
  revert w. induction l as [|m l IH]; intros w; [eexists; reflexivity|]. cbn [relayLoop]. unfold bind.
  destruct (done_total w) as (b & w1 & ->). destruct b; [eexists; reflexivity|].
  destruct (relayOne_total m w1) as (w2 & ->). apply IH.
Qed.

Lemma relayOne_steps m w w' : one m w = (inr tt, w') ->
  (db w).(outbox) !! m.(ObID) = Some m ->
  rtc relay_step (view w) (view w') /\ sent w' = sent w
  /\ forall i, i <> m.(ObID) -> (db w').(outbox) !! i = (db w).(outbox) !! i.
Proof.
  unfold relayOne, bind, try. intros H Hm. destruct (Z.leb_spec maxPublishRetries m.(RetryCount)) as [|Hr].
  { injection H as <-. split_and!; [reflexivity|done|done]. }
  destruct relay_repo_quiet as (_ & Q1 & Q2). destruct (outbox_quiet (or := repo)) as (_ & _ & Q3 & Q4).
  destruct (Send _ w) as [r w1] eqn:E1.
  destruct (send_quiet (Send := Send) (relay_message m)) as [D1 S1].
  apply D1 in E1 as D1'. apply S1 in E1 as S1'.
  assert (rtc relay_step (db w, delivered w) (db w1, delivered w1)) as R1.
  { rewrite D1'. destruct r as [e|p].
    - apply send_failed in E1 as [->| ->]; [reflexivity|apply rtc_once; constructor].
    - apply send_ok in E1 as ->. apply rtc_once. constructor. }
  destruct r as [e|p].
  - destruct (OR_MarkFailed _ _ _ w1) as [[e'|[]] w2] eqn:E2; injection H as <-;
      rewrite (Q2 _ _ _ _ _ E2), (Q4 _ _ _ _ _ E2).
    + rewrite (outbox_error (jsonb := jsonb) (db := db) (sent := sent) _ _ _ (or_intror (or_intror (ex_intro _ _ (ex_intro _ _ E2))))). split_and!; [exact R1|done|by rewrite D1'].
    + apply outbox_failed_ok in E2 as ->. rewrite D1' in *. split_and!; [|done|].
      * etrans; [exact R1|]. apply rtc_once. by eapply relay_failed.
      * intros i Hi. cbn. by rewrite lookup_alter_ne.
  - pose proof (send_ok _ _ _ _ E1) as L1.
    destruct (OR_MarkPublished _ _ w1) as [[e'|[]] w2] eqn:E2; injection H as <-;
      rewrite (Q1 _ _ _ _ E2), (Q3 _ _ _ _ E2).
    + rewrite (outbox_error (jsonb := jsonb) (db := db) (sent := sent) _ _ _ (or_intror (or_introl (ex_intro _ _ E2)))). split_and!; [exact R1|done|by rewrite D1'].
    + apply outbox_published_ok in E2 as (t & ->). rewrite D1' in *. split_and!; [|done|].
      * etrans; [exact R1|]. apply rtc_once. eapply relay_published; [done| |done].
        rewrite L1. apply elem_of_app. right. by left.
      * intros i Hi. cbn. by rewrite lookup_alter_ne.
Qed.

Lemma relayLoop_steps l w w' : loop l w = (inr tt, w') -> NoDup (map ObID l) ->
  (forall m, m ∈ l -> (db w).(outbox) !! m.(ObID) = Some m) ->
  rtc relay_step (view w) (view w') /\ sent w' = sent w.
Proof.
  revert w. induction l as [|m l IH]; intros w H ND Hl; [by injection H as <-|].
  cbn [relayLoop] in H. unfold bind in H. destruct (Done w) as [[e|b] w1] eqn:E1; [done|].
  destruct done_quiet as (Q1 & Q2 & Q3).
  pose proof (Q1 _ _ _ E1) as D1. pose proof (Q2 _ _ _ E1) as S1. pose proof (Q3 _ _ _ E1) as L1.
  destruct b; [injection H as <-; by rewrite D1, S1, L1|].
  destruct (relayOne_total m w1) as (w2 & E2). rewrite E2 in H.
  inversion_clear ND as [|x y ND1 ND2].
  apply relayOne_steps in E2 as (R & S2 & F); [|rewrite D1; apply Hl; by left].
  apply IH in H as [R' S3]; [|done|].
  - rewrite D1, L1 in R. split; [by etrans|congruence].
  - intros x Hx. rewrite F, D1; [apply Hl; by right|].
    intros E. apply ND1. rewrite <- E. apply list_elem_of_fmap. eauto.
Qed.

Lemma processPendingMessages_steps w : exists w', processPendingMessages repo Send Done w = (inr tt, w')
  /\ rtc relay_step (view w) (view w') /\ sent w' = sent w.
Proof.
  unfold processPendingMessages, bind, try.
  destruct (OR_GetPending repo relayBatch w) as [r w1] eqn:E.
  destruct relay_repo_quiet as (Q1 & _). destruct (outbox_quiet (or := repo)) as (_ & Q2 & _).
  pose proof (Q1 _ _ _ _ E) as L. pose proof (Q2 _ _ _ _ E) as S.
  destruct r as [e|l].
  - exists w1. rewrite L, S, (outbox_error (jsonb := jsonb) (db := db) (sent := sent) _ _ _ (or_introl (ex_intro _ _ E))). done.
  - apply outbox_pending_ok in E as (D & ND & _ & Hl).
    destruct (relayLoop_total l w1) as (w2 & H). exists w2. split; [done|].
    rewrite <- D, <- L, <- S. apply (relayLoop_steps l); [done..|]. intros m Hm. rewrite D. by apply Hl.
Qed.

(** A pass over exhausted messages changes nothing at all. *)
Lemma relayLoop_exhausted l w : Forall (fun m => maxPublishRetries <= m.(RetryCount)) l ->
  exists w', loop l w = (inr tt, w') /\ db w' = db w /\ delivered w' = delivered w.
Proof.
  revert w. induction l as [|m l IH]; intros w H; [by exists w|]. inversion_clear H as [|x y H1 H2].
  cbn [relayLoop]. unfold bind. destruct (done_total w) as (b & w1 & E). rewrite E.
  destruct done_quiet as (Q1 & _ & Q3). rewrite <- (Q1 _ _ _ E), <- (Q3 _ _ _ E).
  destruct b; [by exists w1|]. unfold relayOne. rewrite (proj2 (Z.leb_le _ _) H1). by apply IH.
Qed.
End proofs.

(** ** Invariants of relay steps *)

(** Nothing is marked published that was not delivered, and no failure count
    exceeds the retry limit. *)
Definition relay_inv (s : store) (d : list ProducerMessage) : Prop :=
  forall id m, s.(outbox) !! id = Some m -> m.(RetryCount) <= maxPublishRetries
    /\ (m.(ObStatus) = OutboxStatusPublished -> relay_message m ∈ d).

Lemma relay_step_inv s d s' d' : relay_step (s, d) (s', d') -> relay_inv s d -> relay_inv s' d'.
Proof.
  intros H HI. inversion H as [? ? m|? ? id t m Hm Hd Hr|? ? id r m Hm Hr]; subst.
  - intros i x Hx. destruct (HI _ _ Hx) as [H1 H2]. split; [done|]. intros E. apply elem_of_app. left. auto.
  - intros i x Hx. cbn in Hx. apply lookup_alter_Some in Hx as [(<- & m' & Hm' & ->)|[_ Hx]]; [|by apply HI in Hx].
    rewrite Hm in Hm'. injection Hm' as <-. split; [cbn; lia|done].
  - intros i x Hx. cbn in Hx. apply lookup_alter_Some in Hx as [(<- & m' & Hm' & ->)|[_ Hx]]; [|by apply HI in Hx].
    rewrite Hm in Hm'. injection Hm' as <-. split; [cbn; lia|]. by apply HI in Hm as [_ Hm].
Qed.

Lemma relay_steps_inv p q : rtc relay_step p q -> relay_inv p.1 p.2 -> relay_inv q.1 q.2.
Proof.
  induction 1 as [|[s d] [s1 d1] z H _ IH]; [done|]. intros HI. apply IH. by eapply relay_step_inv.
Qed.
