(* ===== verification/CreateSubmission.v ===== *)
(** Creating a submission:
    services/submission/internal/application/usecase/user/create_submission.go. *)

From S2P Require Import Prelude GoString GoError GoMonad SubmissionDomain SubmissionPorts OutboxRelay.

Record CreateSubmissionRequest := mkCreateReq {
  ReqProblemID : Z;
  ReqLanguage : string;
  ReqSourceCode : string;
}.

Record CreateSubmissionResponse := mkCreateResp {
  RespID : Z;
  RespProblemID : Z;
  RespProblemTitle : string;
  RespLanguage : string;
  RespStatus : string;
  RespCreatedAt : Time;
}.

(** The checks before the first call of a port. *)
Definition validateCreate (claims : Claims) (req : CreateSubmissionRequest) : error + Language :=
  if bool_decide (claims.(UserID) = ""%string) then inl (NewAppError CodeUnauthorized "unauthorized" None)
  else if req.(ReqProblemID) <=? 0 then inl ErrInvalidProblemID
  else match ParseLanguage req.(ReqLanguage) with
       | None => inl ErrInvalidLanguage
       | Some language =>
           if negb (IsExecutable language) then inl ErrInvalidLanguage
           else if bool_decide (TrimSpace req.(ReqSourceCode) = ""%string) then inl ErrInvalidSourceCode
           else if MaxSourceCodeBytes <? len req.(ReqSourceCode) then inl ErrSourceCodeTooLarge
           else inr language
       end.

Definition cooldown_error (retryAfter : Z) : error :=
  NewRateLimitError "You're submitting too quickly. Please try again shortly." retryAfter.

Section create.
Context {W : Type} (sr : SubmissionRepository W) (ar : option (AttemptRepository W))
  (tx : TransactionManager W) (Publish : JobMessage -> M W unit) (pr : ProblemReader W)
  (cooldown : option (SubmissionCooldown W)) (sv : SubmissionServices W).

(** The closure of the transaction; it returns the submission with the
    identifier the repository wrote into it. *)
Definition createInTx (claims : Claims) (problem : ProblemMetadata) (submission : Submission) : M W Submission :=
  let* id := SR_Create sr submission in
  let submission := set_ID submission id in
  (match ar with
   | Some ar =>
       let* now := Now sv in
       let* _ := AR_Create ar (NewSubmissionAttempt now submission.(ID) submission.(CurrentAttemptID)
                     AttemptTriggerSubmission claims.(UserID)) in
       ret tt
   | None => ret tt
   end) ;;
  let* now := Now sv in
  let job := {|
    JobSubmissionID := submission.(ID);
    JobProblemID := submission.(ProblemID);
    JobProblemSlug := problem.(PSlug);
    JobUserID := submission.(SubUserID);
    JobLanguage := submission.(SubLanguage);
    JobSourceCode := submission.(SourceCode);
    JobAttemptID := submission.(CurrentAttemptID);
    EnqueuedAt := now |} in
  Publish job ;;
  ret submission.

(** The cooldown check: an allowed submission continues. *)
Definition acquireCooldown (claims : Claims) (problem : ProblemMetadata) : M W unit :=
  match cooldown with
  | None => fail ErrSubmissionCooldownUnavailable
  | Some acquire =>
      let* result := on_error (Wrap ErrSubmissionCooldownUnavailable) (acquire claims.(UserID) problem.(PID)) in
      if result.(Allowed) then ret tt else fail (cooldown_error result.(RetryAfter))
  end.

(** [createSubmissionUseCase.Execute]. *)
Definition createExecute (claims : Claims) (req : CreateSubmissionRequest) : M W CreateSubmissionResponse :=
  match validateCreate claims req with
  | inl e => fail e
  | inr language =>
      let* problem := PR_GetProblem pr req.(ReqProblemID) (mkActor claims.(UserID) claims.(ClaimRole)) in
      acquireCooldown claims problem ;;
      let* rawID := NewAttemptID sv in
      let attemptID := TrimSpace rawID in
      if bool_decide (attemptID = ""%string) then fail (Wrap ErrInternalServer ErrInvalidJudgeResult)
      else
        let* now := Now sv in
        let submission := NewSubmission now problem.(PID) problem.(PTitle) claims.(UserID) claims.(Username)
                            language req.(ReqSourceCode) attemptID in
        let* submission := on_error (Wrap ErrInternalServer)
                             (ExecuteInTx tx (createInTx claims problem submission)) in
        ret {| RespID := submission.(ID); RespProblemID := submission.(ProblemID);
               RespProblemTitle := submission.(ProblemName); RespLanguage := submission.(SubLanguage);
               RespStatus := submission.(SubStatus); RespCreatedAt := submission.(CreatedAt) |}
  end.
End create.

(** ** Abstract specification: one submission enters the system *)

Definition valid_source (code : string) : Prop :=
  blank code = false /\ len code <= MaxSourceCodeBytes.

(** A submission, its first attempt and the job for the judge appear together;
    nothing that was there changes. *)
Record submitted (topic : string) (jsonb : string -> string) (sub : Submission) (att : SubmissionAttempt)
    (job : JobMessage) (s s' : store) : Prop := {
  sm_id : 0 < sub.(ID) /\ s.(subs) !! sub.(ID) = None;
  sm_pending : sub.(SubStatus) = StatusPending /\ sub.(CurrentAttemptID) = att.(AttAttemptID)
    /\ TrimSpace sub.(CurrentAttemptID) = sub.(CurrentAttemptID) /\ sub.(CurrentAttemptID) <> ""%string;
  sm_source : valid_source sub.(SourceCode) /\ IsExecutable sub.(SubLanguage) = true;
  sm_attempt : att.(AttSubmissionID) = sub.(ID) /\ att.(AttStatus) = StatusPending
    /\ s.(attempts) !! att.(AttID) = None
    /\ forall i b, s.(attempts) !! i = Some b -> b.(AttAttemptID) <> att.(AttAttemptID);
  sm_job : job.(JobSubmissionID) = sub.(ID) /\ job.(JobAttemptID) = sub.(CurrentAttemptID)
    /\ job.(JobSourceCode) = sub.(SourceCode) /\ job.(JobLanguage) = sub.(SubLanguage)
    /\ job.(JobProblemID) = sub.(ProblemID) /\ job.(JobUserID) = sub.(SubUserID);
  sm_store : queued topic jsonb job
    (set_attempts (set_subs s (<[sub.(ID) := sub]> s.(subs)))
                  (<[att.(AttID) := att]> s.(attempts))) s';
}.

(** The response of a creation describes the stored submission. *)
Definition describes (resp : CreateSubmissionResponse) (sub : Submission) : Prop :=
  resp = mkCreateResp sub.(ID) sub.(ProblemID) sub.(ProblemName) sub.(SubLanguage) sub.(SubStatus) sub.(CreatedAt).

(** ** Lemmas *)

Lemma validateCreate_inr claims req l : validateCreate claims req = inr l ->
  l = req.(ReqLanguage) /\ IsExecutable l = true /\ valid_source req.(ReqSourceCode)
  /\ 0 < req.(ReqProblemID) /\ claims.(UserID) <> ""%string.
Proof.
  unfold validateCreate, ParseLanguage, valid_source, blank. intros H.
  repeat (case_match; try done). simplify_eq. bools. split_and!; try done; try lia.
Qed.

Section proofs.
Context {W : Type} (sr : SubmissionRepository W) (ar : AttemptRepository W)
  (rr : ResultRepository W) (tx : TransactionManager W) (Publish : JobMessage -> M W unit)
  (pr : ProblemReader W) (cooldown : option (SubmissionCooldown W)) (sv : SubmissionServices W)
  (topic : string) (jsonb : string -> string) (db : W -> store) (sent : W -> list SubmissionEvent)
  {SL : StoreLaws sr ar rr tx db sent} {VL : ServiceLaws sv db sent}
  {PL : PublisherLaws Publish topic jsonb db sent} {QL : QuietPorts pr cooldown db sent}.

#[local] Abbreviation run := (createExecute sr (Some ar) tx Publish pr cooldown sv).
#[local] Abbreviation body := (createInTx sr (Some ar) Publish sv).

Lemma createInTx_quiet claims problem sub : keeps sent (body claims problem sub).
Proof.
  destruct (repos_quiet sr ar rr tx) as (Q1 & Q2 & Q3 & Q4 & Q5 & Q6 & Q7).
  unfold createInTx. apply keeps_bind; [done|]. intros id.
  apply keeps_bind.
  { apply keeps_bind; [apply now_sent|]. intros t. apply keeps_bind; [done|auto with judge]. }
  intros _. apply keeps_bind; [apply now_sent|]. intros t.
  apply keeps_bind; [apply publish_sent|auto with judge].
Qed.

Lemma acquireCooldown_quiet claims problem :
  keeps db (acquireCooldown cooldown claims problem) /\ keeps sent (acquireCooldown cooldown claims problem).
Proof.
  unfold acquireCooldown. destruct cooldown as [acquire|] eqn:E; [|auto with judge].
  destruct (cooldown_quiet (pr := pr) acquire claims.(UserID) problem.(PID) eq_refl).
  split; (apply keeps_bind; [by apply keeps_on_error|intros r; destruct r.(Allowed); auto with judge]).
Qed.

(** The transaction body, when it succeeds. *)
Lemma createInTx_spec claims problem sub w sub' w' :
  0 < sub.(CreatedAt) -> 0 < sub.(UpdatedAt) -> sub.(SubStatus) = StatusPending ->
  TrimSpace sub.(CurrentAttemptID) = sub.(CurrentAttemptID) -> sub.(CurrentAttemptID) <> ""%string ->
  valid_source sub.(SourceCode) -> IsExecutable sub.(SubLanguage) = true ->
  body claims problem sub w = (inr sub', w') ->
  exists id att job, sub' = set_ID sub id
    /\ submitted topic jsonb sub' att job (db w) (db w').
Proof.
  intros Hc Hu Hp Ht Hb Hs Hl H. unfold createInTx in H. run_inv H.
  run_inv E0. injection E0 as <-. injection H as <- <-.
  apply (create_ok sr ar rr tx) in E as (I1 & I2 & D1); [|lia..].
  apply (now_pos sv db sent) in E3 as (T1 & D2).
  apply (attempt_create_ok sr ar rr tx) in E4 as (A1 & A2 & D3); [|cbn; lia..].
  apply now_db in E1. apply publish_ok in E2 as (_ & Q).
  rewrite E1 in Q. rewrite D3, D2 in Q. rewrite D2 in A1, A2.
  rewrite D1 in A1, A2, Q. cbn in A1, A2.
  eexists a, _, _. split; [done|]. constructor; [..|exact Q]; cbn; try done.
Qed.

(** The successful runs refine the specification. *)
Lemma createExecute_spec claims req w resp w' : run claims req w = (inr resp, w') ->
  validateCreate claims req = inr req.(ReqLanguage)
  /\ exists sub att job, submitted topic jsonb sub att job (db w) (db w') /\ describes resp sub
    /\ sub.(SourceCode) = req.(ReqSourceCode) /\ sub.(SubLanguage) = req.(ReqLanguage)
    /\ sub.(SubUserID) = claims.(UserID) /\ sent w' = sent w.
Proof.
  unfold createExecute. destruct (validateCreate claims req) as [e|l] eqn:V; [done|].
  apply validateCreate_inr in V as (-> & Hl & Hs & Hp & Hu). intros H. run_inv H.
  rename a into problem, a1 into rawID.
  pose proof (proj1 (problem_quiet (cd := cooldown) _ _) _ _ _ E) as D0.
  pose proof (proj2 (problem_quiet (cd := cooldown) _ _) _ _ _ E) as S0.
  pose proof (proj1 (acquireCooldown_quiet _ _) _ _ _ E0) as D1.
  pose proof (proj2 (acquireCooldown_quiet _ _) _ _ _ E0) as S1.
  pose proof (attempt_id_db _ _ _ E1) as D2. pose proof (attempt_id_sent _ _ _ E1) as S2.
  case_bool_decide as B; [done|]. run_inv H. rename a into t.
  pose proof (now_sent _ _ _ E2) as S3. apply (now_pos sv db sent) in E2 as (T & D3).
  apply on_error_inr in E3. apply (tx_commit sr ar rr tx) in E3 as (wb & wc & D4 & S4 & Hb & D5 & S5).
  pose proof (createInTx_quiet _ _ _ _ _ _ Hb) as S6.
  apply createInTx_spec in Hb as (id & att & job & -> & Hsub); try done; [|apply TrimSpace_idem].
  split; [done|]. eexists _, att, job. injection H as <- <-.
  rewrite D5. replace (db w) with (db wb) by congruence.
  split_and!; [exact Hsub|done..|congruence].
Qed.

(** A rejected or failed creation leaves no trace in the database. *)
Lemma createExecute_error claims req w e w' : run claims req w = (inl e, w') ->
  db w' = db w /\ sent w' = sent w.
Proof.
  enough (undoes (fun w => (db w, sent w)) (run claims req)) as K
    by (intros E; apply K in E; by injection E).
  unfold createExecute. destruct (validateCreate claims req) as [e0|l]; [apply undoes_fail|].
  apply undoes_bind; [apply keeps_pair; apply (problem_quiet (cd := cooldown))|intros problem].
  apply undoes_bind; [apply keeps_pair; apply acquireCooldown_quiet|intros _].
  apply undoes_bind; [apply keeps_pair; [apply attempt_id_db|apply attempt_id_sent]|intros rawID].
  case_bool_decide; [apply undoes_fail|].
  apply undoes_bind; [apply keeps_pair; [apply now_db|apply now_sent]|intros t].
  apply undoes_last; [|intros; eexists _, _; reflexivity]. apply undoes_on_error.
  intros w0 e0 w1 [-> ->]%(tx_rollback sr ar rr tx); [done|apply createInTx_quiet].
Qed.
End proofs.
