(* ===== verification/RejudgeSubmission.v ===== *)
(** Rejudging a submission:
    services/submission/internal/application/usecase/admin/rejudge_submission.go. *)

From S2P Require Import Prelude GoString GoError GoMonad SubmissionDomain SubmissionPorts OutboxRelay.

Record RejudgeResponse := mkRejudgeResp {
  RjSubmissionID : Z;
  RjAttemptID : string;
  RjStatus : string;
  RjAttemptTrigger : string;
  RjTriggeredBy : string;
  RjEnqueuedAt : Time;
}.

Definition mapRejudgeReadError (e : error) : error :=
  if is_context_error e || errors_Is e ErrSubmissionNotFound then e else Wrap ErrInternalServer e.

(** How an error of the transaction is reported. *)
Definition rejudgeTxError (e : error) : error :=
  if errors_Is e ErrSubmissionNotFound || errors_Is e ErrSubmissionRejudgeConflict then e
  else Wrap ErrInternalServer e.

(** The checks before the first call of a port. *)
Definition validateRejudge (claims : Claims) (submissionID : Z) : option error :=
  if bool_decide (TrimSpace claims.(UserID) = ""%string) || bool_decide (claims.(ClaimRole) = ""%string)
  then Some ErrSubmissionUnauthenticated
  else if negb (AtLeast claims.(ClaimRole) RoleModerator) then Some ErrSubmissionForbidden
  else if submissionID <=? 0 then Some ErrInvalidSubmissionID
  else None.

Section rejudge.
Context {W : Type} (sr : SubmissionRepository W) (ar : AttemptRepository W)
  (tx : TransactionManager W) (Publish : JobMessage -> M W unit) (pr : ProblemReader W)
  (sv : SubmissionServices W).

(** The job of a rejudged submission carries no problem slug. *)
Definition rejudge_job (sub : Submission) (attemptID : string) (enqueuedAt : Time) : JobMessage :=
  {| JobSubmissionID := sub.(ID);
     JobProblemID := sub.(ProblemID);
     JobProblemSlug := "";
     JobUserID := sub.(SubUserID);
     JobLanguage := sub.(SubLanguage);
     JobSourceCode := sub.(SourceCode);
     JobAttemptID := attemptID;
     EnqueuedAt := enqueuedAt |}.

(** The closure of the transaction. *)
Definition rejudgeInTx (claims : Claims) (submissionID : Z) (attemptID : string) (enqueuedAt : Time) : M W unit :=
  let* lockedSubmission := SR_GetByIDForUpdate sr submissionID in
  if negb (IsTerminalStatus lockedSubmission.(SubStatus)) then fail ErrSubmissionRejudgeConflict
  else
    let* now := Now sv in
    let lockedSubmission := ResetForRejudge (set_CurrentAttemptID lockedSubmission attemptID) now in
    SR_Update sr lockedSubmission ;;
    let* now := Now sv in
    let* _ := AR_Create ar (NewSubmissionAttempt now lockedSubmission.(ID) attemptID
                  AttemptTriggerAdminRejudge claims.(UserID)) in
    Publish (rejudge_job lockedSubmission attemptID enqueuedAt).

(** [rejudgeAdminSubmissionUseCase.Execute]. *)
Definition rejudgeExecute (claims : Claims) (submissionID : Z) : M W RejudgeResponse :=
  match validateRejudge claims submissionID with
  | Some e => fail e
  | None =>
      let* submission := on_error mapRejudgeReadError (SR_GetByID sr submissionID) in
      match submission with
      | None => fail ErrSubmissionNotFound
      | Some submission =>
          if negb (IsTerminalStatus submission.(SubStatus)) then fail ErrSubmissionRejudgeConflict
          else
            let* _ := PR_GetTestCaseMetadata pr submission.(ProblemID) in
            let* rawID := NewAttemptID sv in
            let attemptID := TrimSpace rawID in
            if bool_decide (attemptID = ""%string) then fail (Wrap ErrInternalServer ErrInvalidJudgeResult)
            else
              let* enqueuedAt := Now sv in
              on_error rejudgeTxError (ExecuteInTx tx (rejudgeInTx claims submissionID attemptID enqueuedAt)) ;;
              ret {| RjSubmissionID := submissionID; RjAttemptID := attemptID; RjStatus := StatusPending;
                     RjAttemptTrigger := AttemptTriggerAdminRejudge; RjTriggeredBy := claims.(UserID);
                     RjEnqueuedAt := enqueuedAt |}
      end
  end.
End rejudge.

(** ** Abstract specification: a finished submission starts over *)

(** Only a finished submission is reset; it gets a fresh attempt and one new
    job with its own source code. *)
Record rejudged (topic : string) (jsonb : string -> string) (sid : Z) (old : Submission) (now : Time)
    (att : SubmissionAttempt) (job : JobMessage) (s s' : store) : Prop := {
  rj_old : s.(subs) !! sid = Some old /\ old.(ID) = sid /\ IsTerminalStatus old.(SubStatus) = true;
  rj_attempt : att.(AttSubmissionID) = sid /\ att.(AttStatus) = StatusPending
    /\ TrimSpace att.(AttAttemptID) = att.(AttAttemptID) /\ att.(AttAttemptID) <> ""%string
    /\ s.(attempts) !! att.(AttID) = None
    /\ forall i b, s.(attempts) !! i = Some b -> b.(AttAttemptID) <> att.(AttAttemptID);
  rj_job : job.(JobSubmissionID) = sid /\ job.(JobAttemptID) = att.(AttAttemptID)
    /\ job.(JobSourceCode) = old.(SourceCode) /\ job.(JobLanguage) = old.(SubLanguage)
    /\ job.(JobProblemID) = old.(ProblemID) /\ job.(JobUserID) = old.(SubUserID);
  rj_store : queued topic jsonb job
    (set_attempts
      (set_subs s (<[sid := with_outcome old att.(AttAttemptID) StatusPending None None None None now]> s.(subs)))
      (<[att.(AttID) := att]> s.(attempts))) s';
}.

(** ** Lemmas *)

Lemma validateRejudge_none claims sid : validateRejudge claims sid = None ->
  0 < sid /\ AtLeast claims.(ClaimRole) RoleModerator = true /\ blank claims.(UserID) = false.
Proof.
  unfold validateRejudge, blank. intros H. repeat (case_match; try done). bools.
  split_and!; [lia|done|by apply bool_decide_eq_false].
Qed.

Section proofs.
Context {W : Type} (sr : SubmissionRepository W) (ar : AttemptRepository W)
  (rr : ResultRepository W) (tx : TransactionManager W) (Publish : JobMessage -> M W unit)
  (pr : ProblemReader W) (cooldown : option (SubmissionCooldown W)) (sv : SubmissionServices W)
  (topic : string) (jsonb : string -> string) (db : W -> store) (sent : W -> list SubmissionEvent)
  {SL : StoreLaws sr ar rr tx db sent} {VL : ServiceLaws sv db sent}
  {PL : PublisherLaws Publish topic jsonb db sent} {QL : QuietPorts pr cooldown db sent}.

#[local] Abbreviation run := (rejudgeExecute sr ar tx Publish pr sv).
#[local] Abbreviation body := (rejudgeInTx sr ar Publish sv).

Lemma rejudgeInTx_quiet claims sid aid t : keeps sent (body claims sid aid t).
Proof.
  destruct (repos_quiet sr ar rr tx) as (Q1 & Q2 & Q3 & Q4 & Q5 & Q6 & Q7).
  unfold rejudgeInTx. apply keeps_bind; [done|intros s].
  destruct (negb _); [apply keeps_fail|].
  apply keeps_bind; [apply now_sent|intros n]. apply keeps_bind; [done|intros _].
  apply keeps_bind; [apply now_sent|intros n']. apply keeps_bind; [done|intros _].
  apply publish_sent.
Qed.

Lemma rejudgeInTx_spec claims sid aid t w w' :
  TrimSpace aid = aid -> aid <> ""%string -> body claims sid aid t w = (inr tt, w') ->
  exists old now att job, att.(AttAttemptID) = aid /\ rejudged topic jsonb sid old now att job (db w) (db w').
Proof.
  intros Ht Hb H. unfold rejudgeInTx in H. run_inv H. rename a into old.
  apply (get_for_update sr ar rr tx) in E as (D0 & Hsub & HID).
  destruct (IsTerminalStatus old.(SubStatus)) eqn:T; cbn in H; [|done]. run_inv H.
  rename a into now.
  apply (now_pos sv db sent) in E as (_ & D1), E1 as (T1 & D3).
  apply (update_ok sr ar rr tx) in E0 as (old' & Hold & D2).
  apply (attempt_create_ok sr ar rr tx) in E2 as (A1 & A2 & D4); [|cbn; lia..].
  apply publish_ok in H as (_ & Q).
  rewrite D3, D2 in A1, A2, D4. rewrite D4 in Q. cbn in A1, A2, Hold. rewrite D1, D0 in *.
  rewrite HID in Hold. rewrite Hsub in Hold. injection Hold as <-. cbn in Q. rewrite HID in Q.
  pose (att := set_AttID (NewSubmissionAttempt a1 sid aid AttemptTriggerAdminRejudge (UserID claims)) a2).
  assert (att.(AttAttemptID) = aid) as HA by done.
  eexists old, now, att, _. split; [done|]. rewrite Ht in A2.
  constructor; [done| | |rewrite HA; exact Q]; rewrite ?HA; done.
Qed.

Lemma rejudgeExecute_spec claims sid w resp w' : run claims sid w = (inr resp, w') ->
  validateRejudge claims sid = None
  /\ exists old now att job, rejudged topic jsonb sid old now att job (db w) (db w')
    /\ resp.(RjSubmissionID) = sid /\ resp.(RjAttemptID) = att.(AttAttemptID) /\ sent w' = sent w.
Proof.
  unfold rejudgeExecute. destruct (validateRejudge claims sid) as [e|] eqn:V; [done|]. intros H. run_inv H.
  destruct (repos_quiet sr ar rr tx) as (_ & Q2 & _).
  apply on_error_inr in E. pose proof (Q2 _ _ _ _ E) as S0.
  apply (get_by_id sr ar rr tx) in E as (D0 & _). destruct a as [sub|]; [|done].
  destruct (negb _); [done|]. run_inv H.
  pose proof (proj1 (testcase_quiet (cd := cooldown) _) _ _ _ E) as D1.
  pose proof (proj2 (testcase_quiet (cd := cooldown) _) _ _ _ E) as S1.
  pose proof (attempt_id_db _ _ _ E0) as D2. pose proof (attempt_id_sent _ _ _ E0) as S2.
  case_bool_decide as B; [done|]. run_inv H. rename a1 into t.
  pose proof (now_sent _ _ _ E1) as S3. apply now_db in E1 as D3.
  apply on_error_inr in E2. apply (tx_commit sr ar rr tx) in E2 as (wb & wc & D4 & S4 & Hb & D5 & S5).
  pose proof (rejudgeInTx_quiet _ _ _ _ _ _ _ Hb) as S6.
  apply rejudgeInTx_spec in Hb as (old & now & att & job & Ha & Hr); [|apply TrimSpace_idem|done].
  injection H as <- <-. split; [done|]. exists old, now, att, job. rewrite D5.
  replace (db w) with (db wb) by congruence. split_and!; [done..|congruence].
Qed.

Lemma rejudgeExecute_error claims sid w e w' : run claims sid w = (inl e, w') ->
  db w' = db w /\ sent w' = sent w.
Proof.
  enough (undoes (fun w => (db w, sent w)) (run claims sid)) as K by (intros E; apply K in E; by injection E).
  destruct (repos_quiet sr ar rr tx) as (_ & Q2 & _).
  unfold rejudgeExecute. destruct (validateRejudge claims sid); [apply undoes_fail|].
  apply undoes_bind.
  { apply keeps_on_error, keeps_pair; [|apply Q2]. intros w0 [e0|s] w1 H.
    - by eapply get_by_id_error in H.
    - by apply (get_by_id sr ar rr tx) in H as (H & _). }
  intros [sub|]; [|apply undoes_fail]. destruct (negb _); [apply undoes_fail|].
  apply undoes_bind; [apply keeps_pair; apply (testcase_quiet (cd := cooldown))|intros _].
  apply undoes_bind; [apply keeps_pair; [apply attempt_id_db|apply attempt_id_sent]|intros rawID].
  case_bool_decide; [apply undoes_fail|].
  apply undoes_bind; [apply keeps_pair; [apply now_db|apply now_sent]|intros t].
  apply undoes_last; [|intros; eexists _, _; reflexivity]. apply undoes_on_error.
  intros w0 e0 w1 [-> ->]%(tx_rollback sr ar rr tx); [done|apply rejudgeInTx_quiet].
Qed.
End proofs.
