(* ===== verification/ApplyResult.v ===== *)
(** Applying a judge result to a submission:
    services/submission/internal/application/usecase/result/apply_judge_result.go. *)

From S2P Require Import Prelude GoString GoError GoMonad Patterns Sanitize SubmissionDomain SubmissionPorts.

(** ** Validation and mapping *)

Definition publicSystemErrorMessage : string := "The judge could not complete this submission.".
Definition publicTimeLimitMessage : string := "Execution exceeded the time limit.".
Definition publicMemoryLimitMessage : string := "Execution exceeded the memory limit.".
Definition publicOutputLimitMessage : string := "Execution exceeded the output limit.".

(** [^[a-f0-9]{64}$] *)
Definition is_sha256_hex (s : string) : bool :=
  (len s =? 64) && forallb (fun c => within 97 102 c || within 48 57 c) (chars s).

Definition validateDatasetChecksum (value : option string) : option error :=
  match value with
  | None => None
  | Some v => if is_sha256_hex v then None else Some ErrInvalidJudgeResult
  end.

Definition mapTerminalSubmissionStatus (raw : string) : error + Status :=
  match ParseStatus raw with
  | None => inl ErrInvalidSubmissionStatus
  | Some status =>
      if bool_decide (status ∈ terminal_statuses) then inr status else inl ErrInvalidSubmissionStatus
  end.

Definition mapTestCaseStatus (raw : string) : error + string :=
  if bool_decide (raw ∈ result_statuses) then inr raw else inl ErrInvalidJudgeResult.

(** The database identifier and creation time of the entity stay zero. *)
Fixpoint mapTestCaseResults (submissionID : Z) (attemptID : string) (items : list TestCaseResultItem)
  : error + list SubmissionResult :=
  match items with
  | [] => inr []
  | item :: rest =>
      if item.(ItemIndex) <=? 0 then inl ErrInvalidJudgeResult
      else match mapTestCaseStatus item.(ItemStatus) with
           | inl e => inl e
           | inr status =>
               match mapTestCaseResults submissionID attemptID rest with
               | inl e => inl e
               | inr rs => inr (mkResult 0 submissionID attemptID item.(ItemIndex) status
                   item.(ItemActualOutput) item.(ItemInput) item.(ItemExpectedOutput)
                   item.(ItemExecutionTime) item.(ItemMemoryUsed) 0 :: rs)
               end
           end
  end.

Definition nonBlankString (value : option string) : option string :=
  match value with
  | None => None
  | Some v => if bool_decide (TrimSpace v = ""%string) then None else value
  end.

Definition or_default (m : option string) (d : string) : option string :=
  match m with Some _ => m | None => Some d end.

(** [judgeOutputFields]: the compile output and the error message to store. *)
Definition judgeOutputFields (status : Status) (msg : ResultMessage) : option string * option string :=
  let public := Submission.publicErrorMessage msg.(MsgErrorMessage) in
  if bool_decide (status = StatusCompilationError) then (nonBlankString msg.(MsgCompileOutput), None)
  else if bool_decide (status = StatusRuntimeError) then (None, public)
  else if bool_decide (status = StatusTimeLimitExceed) then (None, or_default public publicTimeLimitMessage)
  else if bool_decide (status = StatusMemoryLimitExceed) then (None, or_default public publicMemoryLimitMessage)
  else if bool_decide (status = StatusOutputLimitExceed) then (None, or_default public publicOutputLimitMessage)
  else if bool_decide (status = StatusSystemError) then (None, Some publicSystemErrorMessage)
  else (None, None).

(** Everything checked before the transaction. *)
Definition validateResult (msg : ResultMessage) : error + (Status * list SubmissionResult) :=
  if (msg.(MsgSubmissionID) <=? 0) || bool_decide (TrimSpace msg.(MsgAttemptID) = ""%string)
  then inl ErrInvalidJudgeResult
  else match mapTerminalSubmissionStatus msg.(MsgStatus) with
       | inl e => inl e
       | inr status =>
           match validateDatasetChecksum msg.(MsgDatasetChecksum) with
           | Some e => inl e
           | None =>
               match mapTestCaseResults msg.(MsgSubmissionID) msg.(MsgAttemptID) msg.(MsgTestCases) with
               | inl e => inl e
               | inr rs => inr (status, rs)
               end
           end
       end.

(** ** The use case *)

Section apply.
Context {W : Type} (sr : SubmissionRepository W) (ar : option (AttemptRepository W))
  (rr : ResultRepository W) (tx : TransactionManager W) (sv : SubmissionServices W)
  (has_hub : bool).

(** The transaction body; the value is [eventToPublish]. *)
Definition applyInTx (msg : ResultMessage) (status : Status) (rs : list SubmissionResult)
  : M W (option SubmissionEvent) :=
  let* submission := SR_GetByIDForUpdate sr msg.(MsgSubmissionID) in
  if bool_decide (TrimSpace submission.(CurrentAttemptID) = ""%string) then ret None
  else if bool_decide (submission.(CurrentAttemptID) <> msg.(MsgAttemptID)) then ret None
  else if IsTerminalStatus submission.(SubStatus) then ret None
  else
    let '(compileOutput, errorMessage) := judgeOutputFields status msg in
    let* now := Now sv in
    let submission := MarkCompleted submission status msg.(MsgExecutionTime) msg.(MsgMemoryUsed)
                        compileOutput errorMessage now in
    SR_Update sr submission ;;
    RR_Replace rr msg.(MsgSubmissionID) msg.(MsgAttemptID) rs ;;
    (match ar with
     | Some ar => AR_MarkCompleted ar msg.(MsgAttemptID) status msg.(MsgTestcaseVersion)
                    msg.(MsgTestCount) msg.(MsgDatasetChecksum)
     | None => ret tt
     end) ;;
    ret (Some (Event submission)).

(** [applyJudgeResultUseCase.Execute]. *)
Definition applyExecute (msg : ResultMessage) : M W unit :=
  match validateResult msg with
  | inl e => fail e
  | inr (status, rs) =>
      let* eventToPublish := ExecuteInTx tx (applyInTx msg status rs) in
      match eventToPublish with
      | Some event => if has_hub then HubPublish sv event else ret tt
      | None => ret tt
      end
  end.
End apply.

(** ** Abstract specification: what one message may do to the content *)

(** The message is for the current attempt of an unfinished submission. *)
Definition applicable (msg : ResultMessage) (s : store) (sub : Submission) : Prop :=
  s.(subs) !! msg.(MsgSubmissionID) = Some sub
  /\ sub.(CurrentAttemptID) = msg.(MsgAttemptID)
  /\ IsTerminalStatus sub.(SubStatus) = false.

(** The content after the message has been applied at time [t] (submission
    row) and [t'] (attempt row). *)
Record applied (msg : ResultMessage) (s s' : store) (sub : Submission) (t t' : Time) : Prop := {
  ap_subs : s'.(subs) = <[msg.(MsgSubmissionID) :=
      MarkCompleted sub msg.(MsgStatus) msg.(MsgExecutionTime) msg.(MsgMemoryUsed)
        (fst (judgeOutputFields msg.(MsgStatus) msg)) (snd (judgeOutputFields msg.(MsgStatus) msg)) t]>
      s.(subs);
  ap_attempts : s'.(attempts) = complete_attempts s.(attempts) (TrimSpace msg.(MsgAttemptID))
      msg.(MsgStatus) msg.(MsgTestcaseVersion) msg.(MsgTestCount) msg.(MsgDatasetChecksum) t';
  ap_results : exists rs,
      mapTestCaseResults msg.(MsgSubmissionID) msg.(MsgAttemptID) msg.(MsgTestCases) = inr rs
      /\ replaced s.(results) s'.(results) msg.(MsgSubmissionID) (TrimSpace msg.(MsgAttemptID)) rs;
  ap_outbox : s'.(outbox) = s.(outbox);
}.

Definition apply_spec (msg : ResultMessage) (s s' : store) (ev : list SubmissionEvent) : Prop :=
  (exists sub t t', applicable msg s sub /\ applied msg s s' sub t t'
     /\ ev = [mkEvent msg.(MsgSubmissionID) msg.(MsgAttemptID) msg.(MsgStatus) t])
  \/ (s' = s /\ ev = [] /\ forall sub, ~ applicable msg s sub).

(** ** Lemmas *)

Lemma validateResult_inr msg status rs : validateResult msg = inr (status, rs) ->
  status = msg.(MsgStatus) /\ IsTerminalStatus status = true /\ 0 < msg.(MsgSubmissionID)
  /\ blank msg.(MsgAttemptID) = false
  /\ validateDatasetChecksum msg.(MsgDatasetChecksum) = None
  /\ mapTestCaseResults msg.(MsgSubmissionID) msg.(MsgAttemptID) msg.(MsgTestCases) = inr rs.
Proof.
  unfold validateResult, mapTerminalSubmissionStatus. intros H.
  destruct (_ || _)%bool eqn:E0; [done|]. bools.
  destruct (ParseStatus _) as [st|] eqn:E1; [|done]. apply ParseStatus_id in E1 as ->.
  case_bool_decide as E2; [|done]. unfold blank.
  destruct (validateDatasetChecksum _) eqn:E3; [done|].
  destruct (mapTestCaseResults _ _ _) eqn:E4; [done|]. simplify_eq.
  split_and!; try done.
  - by apply bool_decide_eq_true.
  - by apply bool_decide_eq_false.
Qed.

Lemma validateResult_error msg e : validateResult msg = inl e ->
  errors_Is e ErrInvalidJudgeResult = true.
Proof.
  unfold validateResult, mapTerminalSubmissionStatus, validateDatasetChecksum. intros H.
  assert (forall items, mapTestCaseResults msg.(MsgSubmissionID) msg.(MsgAttemptID) items = inl e ->
            errors_Is e ErrInvalidJudgeResult = true) as K.
  { intros items. induction items as [|i l IH]; [done|]. cbn [mapTestCaseResults].
    unfold mapTestCaseStatus. intros Hi. repeat case_match; simplify_eq; auto. }
  repeat case_match; simplify_eq; try done; eauto.
Qed.

Section proofs.
Context {W : Type} (sr : SubmissionRepository W) (ar : AttemptRepository W)
  (rr : ResultRepository W) (tx : TransactionManager W) (sv : SubmissionServices W)
  (db : W -> store) (sent : W -> list SubmissionEvent)
  `{!StoreLaws sr ar rr tx db sent} `{!ServiceLaws sv db sent}.

#[local] Abbreviation run msg := (applyExecute sr (Some ar) rr tx sv true msg).
#[local] Abbreviation body := (applyInTx sr (Some ar) rr sv).

Lemma applyInTx_quiet msg st rs : keeps sent (body msg st rs).
Proof.
  destruct (repos_quiet sr ar rr tx) as (Q1 & Q2 & Q3 & Q4 & Q5 & Q6 & Q7).
  unfold applyInTx. apply keeps_bind; [done|]. intros s.
  repeat case_match; auto with judge.
  apply keeps_bind; [apply now_sent|]. intros t.
  repeat (apply keeps_bind; [done|intros _]); auto with judge.
Qed.

(** The transaction body, when it succeeds. *)
Lemma applyInTx_spec msg st rs w ev w' :
  validateResult msg = inr (st, rs) -> body msg st rs w = (inr ev, w') ->
  apply_spec msg (db w) (db w') (option_list ev).
Proof.
  intros V H. apply validateResult_inr in V as (-> & HT & _ & HB & _ & Hrs).
  unfold applyInTx in H. run_inv H. rename a into sub.
  apply (get_for_update sr ar rr tx) in E as (D0 & Hsub & HID).
  case_bool_decide as B1.
  { unfold ret in H. simplify_eq. right. split_and!; [done|done|]. intros s (Hs & Ha & _). simplify_eq.
    unfold blank in HB. rewrite <- Ha, B1 in HB. by apply bool_decide_eq_false in HB. }
  case_bool_decide as B2.
  { unfold ret in H. simplify_eq. right. split_and!; [done|done|]. intros s (Hs & Ha & _). congruence. }
  destruct (IsTerminalStatus sub.(SubStatus)) eqn:B3.
  { unfold ret in H. simplify_eq. right. split_and!; [done|done|]. intros s (Hs & _ & Hn). congruence. }
  destruct (judgeOutputFields _ _) as [co em] eqn:EJ. run_inv H. rename a into t.
  apply now_db in E. unfold ret in H. simplify_eq.
  apply (update_ok sr ar rr tx) in E0 as (old & Hold & D1).
  apply (replace_ok sr ar rr tx) in E1 as (_ & m' & Hm & D2).
  apply (attempt_complete_ok sr ar rr tx) in E2 as (_ & t' & D3).
  left. exists sub, t, t'. cbn in Hold, D1. rewrite E, D0, HID in *. simplify_eq.
  rewrite D1 in D2, Hm. rewrite D2 in D3. rewrite D3. cbn in *.
  split; [done|]. split; [constructor; cbn; rewrite ?EJ; cbn; eauto|].
  unfold Event. cbn. by rewrite HID, B2.
Qed.

Lemma applyExecute_atomic msg w e w' :
  run msg w = (inl e, w') -> db w' = db w /\ sent w' = sent w.
Proof.
  unfold applyExecute. destruct (validateResult msg) as [e0|[st rs]].
  { by intros [= <- <-]. }
  intros [H|(ev & w1 & H1 & H2)]%bind_inl_inv.
  - apply (tx_rollback sr ar rr tx) in H as [D S]. split; [done|]. apply S, applyInTx_quiet.
  - destruct ev as [ev|]; [|done]. destruct (hub_publish ev w1) as (w2 & E & _). congruence.
Qed.

Lemma applyExecute_refines msg w w' :
  run msg w = (inr tt, w') ->
  exists st rs ev, validateResult msg = inr (st, rs)
    /\ apply_spec msg (db w) (db w') ev /\ sent w' = sent w ++ ev.
Proof.
  unfold applyExecute. destruct (validateResult msg) as [e0|[st rs]] eqn:V; [done|].
  intros H. run_inv H.
  apply (tx_commit sr ar rr tx) in E as (wb & wc & D0 & S0 & B & D1 & S1).
  pose proof (applyInTx_quiet msg st rs _ _ _ B) as Q.
  eapply applyInTx_spec in B; [|done]. rewrite D0, <- D1 in B.
  exists st, rs, (option_list a). split; [done|].
  destruct a as [ev|]; cbn in *.
  - destruct (hub_publish ev w0) as (w3 & E & D3 & S3). rewrite E in H. simplify_eq.
    rewrite D3, S3, S1, Q, S0. done.
  - unfold ret in H. simplify_eq. rewrite S1, Q, S0, app_nil_r. done.
Qed.
End proofs.
