(* ===== verification/SubmissionSystem.v ===== *)
(** The submission service as a transition system on the content of its
    database: submissions enter, are judged, are rejudged, and their jobs leave
    through the outbox.  The steps are the abstract specifications of the use
    cases; [use_case_refines] connects them to the code. *)

From S2P Require Import Prelude GoString GoError GoMonad SubmissionDomain SubmissionPorts OutboxRelay CreateSubmission RejudgeSubmission ApplyResult.

Section system.
Context (topic : string) (jsonb : string -> string).

Inductive step (s s' : store) : Prop :=
| step_submit sub att job : submitted topic jsonb sub att job s s' -> step s s'
| step_rejudge sid old now att job : rejudged topic jsonb sid old now att job s s' -> step s s'
| step_apply msg st rs ev : validateResult msg = inr (st, rs) -> apply_spec msg s s' ev -> step s s'
| step_published id t : s' = set_outbox s (alter (published_row t) id s.(outbox)) -> step s s'
| step_failed id reason : s' = set_outbox s (alter (failed_row reason) id s.(outbox)) -> step s s'.

Definition steps : store -> store -> Prop := rtc step.

Definition empty_store : store := mkStore ∅ ∅ ∅ ∅.
Definition reachable (s : store) : Prop := steps empty_store s.

(** ** The invariant *)

Definition sub_ok (s : store) (i : Z) (sub : Submission) : Prop :=
  sub.(ID) = i /\ 0 < i
  /\ valid_source sub.(SourceCode) /\ IsExecutable sub.(SubLanguage) = true
  /\ (sub.(SubStatus) = StatusPending \/ IsTerminalStatus sub.(SubStatus) = true)
  /\ TrimSpace sub.(CurrentAttemptID) = sub.(CurrentAttemptID)
  /\ exists k a, s.(attempts) !! k = Some a /\ a.(AttAttemptID) = sub.(CurrentAttemptID)
       /\ a.(AttSubmissionID) = i /\ a.(AttStatus) = sub.(SubStatus).

(** The outbox holds the job of the attempt, with the source code of its
    submission. *)
Definition has_job (s : store) (a : SubmissionAttempt) (sub : Submission) : Prop :=
  exists o m job payload, s.(outbox) !! o = Some m /\ m.(AggregateID) = a.(AttSubmissionID)
    /\ m.(Topic) = topic /\ m.(Payload) = jsonb payload /\ marshal_job job = Some payload
    /\ job.(JobAttemptID) = a.(AttAttemptID) /\ job.(JobSubmissionID) = a.(AttSubmissionID)
    /\ job.(JobSourceCode) = sub.(SourceCode) /\ job.(JobLanguage) = sub.(SubLanguage).

Definition attempt_ok (s : store) (a : SubmissionAttempt) : Prop :=
  TrimSpace a.(AttAttemptID) = a.(AttAttemptID)
  /\ exists sub, s.(subs) !! a.(AttSubmissionID) = Some sub
    /\ (sub.(CurrentAttemptID) = a.(AttAttemptID) \/ IsTerminalStatus a.(AttStatus) = true)
    /\ has_job s a sub.

(** Result rows belong to a finished attempt. *)
Definition result_ok (s : store) (r : SubmissionResult) : Prop :=
  exists k a, s.(attempts) !! k = Some a /\ a.(AttAttemptID) = r.(ResAttemptID)
    /\ a.(AttSubmissionID) = r.(ResSubmissionID) /\ IsTerminalStatus a.(AttStatus) = true.

Record Inv (s : store) : Prop := {
  inv_subs : forall i sub, s.(subs) !! i = Some sub -> sub_ok s i sub;
  inv_unique : forall i j a b, s.(attempts) !! i = Some a -> s.(attempts) !! j = Some b ->
    a.(AttAttemptID) = b.(AttAttemptID) -> i = j;
  inv_attempts : forall k a, s.(attempts) !! k = Some a -> attempt_ok s a;
  inv_results : forall k r, s.(results) !! k = Some r -> result_ok s r;
}.

Lemma empty_Inv : Inv empty_store.
Proof. by constructor. Qed.

(** ** Preservation *)

(** Adding a job keeps the jobs that are there. *)
Lemma queued_job job s s' a sub : queued topic jsonb job s s' -> has_job s a sub -> has_job s' a sub.
Proof.
  intros (p & o & t & Hp & Hn & ->) (o' & m & job' & p' & Hm & H). exists o', m, job', p'.
  cbn. rewrite lookup_insert_ne by congruence. done.
Qed.

Lemma queued_new job s s' (a : SubmissionAttempt) (sub : Submission) : queued topic jsonb job s s' ->
  job.(JobAttemptID) = a.(AttAttemptID) -> job.(JobSubmissionID) = a.(AttSubmissionID) ->
  job.(JobSourceCode) = sub.(SourceCode) -> job.(JobLanguage) = sub.(SubLanguage) -> has_job s' a sub.
Proof.
  intros (p & o & t & Hp & Hn & ->) H1 H2 H3 H4. eexists o, _, job, p. cbn.
  rewrite lookup_insert_eq. done.
Qed.

Lemma queued_rest job s s' : queued topic jsonb job s s' ->
  s'.(subs) = s.(subs) /\ s'.(attempts) = s.(attempts) /\ s'.(results) = s.(results).
Proof. by intros (p & o & t & _ & _ & ->). Qed.

(** A new attempt with an unused identifier keeps the attempts apart. *)
Lemma insert_unique (m : gmap Z SubmissionAttempt) (att : SubmissionAttempt) :
  (forall i j a b, m !! i = Some a -> m !! j = Some b -> a.(AttAttemptID) = b.(AttAttemptID) -> i = j) ->
  (forall i b, m !! i = Some b -> b.(AttAttemptID) <> att.(AttAttemptID)) ->
  forall k i j a b, <[k := att]> m !! i = Some a -> <[k := att]> m !! j = Some b ->
    a.(AttAttemptID) = b.(AttAttemptID) -> i = j.
Proof.
  intros HU HN k i j a b [[<- <-]|[Hi Ha]]%lookup_insert_Some [[<- <-]|[Hj Hb]]%lookup_insert_Some E; eauto.
  - by destruct (HN _ _ Hb).
  - by destruct (HN _ _ Ha).
Qed.

Lemma submitted_Inv sub att job s s' : Inv s -> submitted topic jsonb sub att job s s' -> Inv s'.
Proof.
  intros [HS HU HA HR] [[I1 I2] (P1 & P2 & P3 & P4) [Src Lang] (A1 & A2 & A3 & A4) (J1 & J2 & J3 & J4 & _) Q].
  pose proof (queued_rest _ _ _ Q) as (R1 & R2 & R3). cbn in R1, R2, R3.
  constructor; rewrite ?R1, ?R2, ?R3.
  - intros i x [[<- <-]|[Hi Hx]]%lookup_insert_Some; unfold sub_ok; rewrite R2.
    + split_and!; auto. exists att.(AttID), att. rewrite lookup_insert_eq, P1. done.
    + apply HS in Hx as (X1 & X2 & X3 & X4 & X5 & X6 & k & a & X7 & X8). split_and!; auto.
      exists k, a. rewrite lookup_insert_ne by congruence. done.
  - by apply insert_unique.
  - intros k a [[<- <-]|[Hk Ha]]%lookup_insert_Some; unfold attempt_ok; rewrite R1.
    + split; [congruence|]. exists sub. rewrite A1, lookup_insert_eq. split_and!; [done|by left|].
      eapply queued_new; [exact Q|congruence..].
    + destruct (HA _ _ Ha) as (X0 & x & X1 & X2 & X3). split; [done|]. exists x.
      rewrite lookup_insert_ne by congruence. split_and!; [done..|]. exact (queued_job _ _ _ _ _ Q X3).
  - intros k r Hr. apply HR in Hr as (k' & a & X1 & X2). exists k', a. rewrite R2.
    rewrite lookup_insert_ne by congruence. done.
Qed.

Lemma rejudged_Inv sid old now att job s s' : Inv s -> rejudged topic jsonb sid old now att job s s' -> Inv s'.
Proof.
  intros [HS HU HA HR] [(O1 & O2 & O3) (A1 & A2 & P3 & P4 & A3 & A4) (J1 & J2 & J3 & J4 & _) Q].
  pose proof (queued_rest _ _ _ Q) as (R1 & R2 & R3). cbn in R1, R2, R3.
  destruct (HS _ _ O1) as (X1 & X2 & X3 & X4 & _ & X6 & k0 & a0 & K1 & K2 & K3 & K4).
  constructor; rewrite ?R1, ?R2, ?R3.
  - intros i x [[<- <-]|[Hi Hx]]%lookup_insert_Some; unfold sub_ok; rewrite R2.
    + split_and!; cbn; auto. exists att.(AttID), att. rewrite lookup_insert_eq. done.
    + apply HS in Hx as (Y1 & Y2 & Y3 & Y4 & Y5 & Y6 & k & a & Y7 & Y8). split_and!; auto.
      exists k, a. rewrite lookup_insert_ne by congruence. done.
  - by apply insert_unique.
  - intros k a [[<- <-]|[Hk Ha]]%lookup_insert_Some; unfold attempt_ok; rewrite R1.
    + split; [done|]. eexists. rewrite A1, lookup_insert_eq. split_and!; [done|by left|].
      eapply queued_new; [exact Q|cbn; congruence..].
    + destruct (HA _ _ Ha) as (Y0 & x & Y1 & Y2 & Y3). split; [done|].
      pose proof (queued_job _ _ _ _ _ Q Y3) as Y3'.
      destruct (decide (a.(AttSubmissionID) = sid)) as [HE|Hne].
      * rewrite HE in *. rewrite lookup_insert_eq. eexists. split; [done|]. rewrite O1 in Y1. injection Y1 as <-.
        split; [right|done]. destruct Y2 as [Y2|Y2]; [|done].
        assert (k = k0) as -> by (eapply HU; eauto; congruence). congruence.
      * exists x. by rewrite lookup_insert_ne.
  - intros k r Hr. apply HR in Hr as (k' & a & Y1 & Y2). exists k', a. rewrite R2.
    rewrite lookup_insert_ne by congruence. done.
Qed.

(** *** Applying a result *)

Lemma complete_lookup m aid st v c k t i a' :
  complete_attempts m aid st v c k t !! i = Some a' ->
  exists a, m !! i = Some a
    /\ a' = if bool_decide (a.(AttAttemptID) = aid) then AttemptMarkCompleted a st v c k t else a.
Proof.
  unfold complete_attempts. rewrite lookup_fmap. destruct (m !! i) as [a|]; [|done].
  intros [= <-]. eauto.
Qed.

Lemma complete_fields a (aid : string) st v c k t :
  let a' := if bool_decide (a.(AttAttemptID) = aid) then AttemptMarkCompleted a st v c k t else a in
  a'.(AttAttemptID) = a.(AttAttemptID) /\ a'.(AttSubmissionID) = a.(AttSubmissionID).
Proof. by destruct (bool_decide _). Qed.

Lemma replaced_lookup m m' sid aid rs k r : replaced m m' sid aid rs -> m' !! k = Some r ->
  m !! k = Some r \/ of_attempt sid aid r.
Proof.
  intros (ids & t & L & ND & F & ->) [H|[_ H]]%lookup_union_Some_raw.
  - right. apply elem_of_list_to_map_2 in H. apply elem_of_zip_r in H.
    clear -H. revert ids H. induction rs as [|x rs IH]; intros [|i ids]; cbn; try by intros ?%elem_of_nil.
    intros [->|H]%elem_of_cons; [done|eauto].
  - left. by apply map_lookup_filter_Some in H as [H _].
Qed.

Lemma outbox_job_eq s s' a sub : s'.(outbox) = s.(outbox) -> has_job s a sub -> has_job s' a sub.
Proof. unfold has_job. by intros ->. Qed.

(** A job is for the attempt's identifiers only. *)
Lemma has_job_ids s a b sub sub' : has_job s a sub ->
  b.(AttAttemptID) = a.(AttAttemptID) -> b.(AttSubmissionID) = a.(AttSubmissionID) ->
  sub'.(SourceCode) = sub.(SourceCode) -> sub'.(SubLanguage) = sub.(SubLanguage) -> has_job s b sub'.
Proof. unfold has_job. by intros H -> -> -> ->. Qed.

Lemma applied_Inv msg s s' sub t t' : Inv s -> IsTerminalStatus msg.(MsgStatus) = true ->
  applicable msg s sub -> applied msg s s' sub t t' -> Inv s'.
Proof.
  intros [HS HU HA HR] HT (O1 & O2 & O3) [S1 S2 (rs & _ & S3) S4].
  destruct (HS _ _ O1) as (X1 & X2 & X3 & X4 & X5 & X6 & k0 & a0 & K1 & K2 & K3 & K4).
  rewrite O2 in X6. rewrite X6 in S2, S3.
  assert (forall i b, s.(attempts) !! i = Some b -> b.(AttAttemptID) = msg.(MsgAttemptID) -> i = k0) as HK.
  { intros i b Hb E. eapply HU; eauto. congruence. }
  constructor.
  - intros i x. rewrite S1. unfold sub_ok. rewrite S2.
    intros [[<- <-]|[Hi Hx]]%lookup_insert_Some.
    + split_and!; cbn; auto; [by rewrite O2|]. exists k0. unfold complete_attempts.
      rewrite lookup_fmap, K1. eexists. split; [done|]. rewrite K2, O2, bool_decide_eq_true_2 by done.
      cbn. split_and!; congruence.
    + apply HS in Hx as (Y1 & Y2 & Y3 & Y4 & Y5 & Y6 & k & a & Y7 & Y8 & Y9 & Y10).
      split_and!; auto. exists k, a. unfold complete_attempts. rewrite lookup_fmap, Y7. cbn.
      rewrite bool_decide_eq_false_2; [done|]. intros E. apply Hi. apply HK in Y7 as E'; [|done].
      congruence.
  - rewrite S2. intros i j a b (a1 & Ha & ->)%complete_lookup (b1 & Hb & ->)%complete_lookup.
    rewrite !(proj1 (complete_fields _ _ _ _ _ _ _)). by apply HU.
  - rewrite S2. intros k a' (a & Ha & ->)%complete_lookup. unfold attempt_ok.
    destruct (complete_fields a msg.(MsgAttemptID) msg.(MsgStatus) msg.(MsgTestcaseVersion)
      msg.(MsgTestCount) msg.(MsgDatasetChecksum) t') as [-> ->].
    destruct (HA _ _ Ha) as (Y0 & x & Y1 & Y2 & Y3). split; [done|]. rewrite S1.
    destruct (decide (a.(AttSubmissionID) = msg.(MsgSubmissionID))) as [HE|Hne].
    + rewrite HE in *. rewrite lookup_insert_eq. rewrite O1 in Y1. injection Y1 as <-.
      eexists. split; [done|]. split.
      * case_bool_decide; cbn; tauto.
      * apply (outbox_job_eq s); [done|].
        eapply has_job_ids; [exact Y3|by destruct (bool_decide _)..| |]; done.
    + exists x. rewrite lookup_insert_ne by done. split; [done|]. split.
      * case_bool_decide; cbn; tauto.
      * apply (outbox_job_eq s); [done|].
        eapply has_job_ids; [exact Y3|by destruct (bool_decide _)..| |]; done.
  - intros k r Hr. unfold result_ok. rewrite S2. unfold complete_attempts.
    destruct (replaced_lookup _ _ _ _ _ _ _ S3 Hr) as [Hr'|[E1 E2]].
    + apply HR in Hr' as (k' & a & Y1 & Y2 & Y3 & Y4).
      exists k'. rewrite lookup_fmap, Y1. eexists. split; [done|].
      case_bool_decide; done.
    + exists k0. rewrite lookup_fmap, K1. eexists. split; [done|].
      rewrite K2, O2, bool_decide_eq_true_2 by done. cbn. split_and!; congruence.
Qed.

(** *** The outbox relay *)

Lemma outbox_alter_Inv (f : OutboxMessage -> OutboxMessage) id s :
  (forall m, (f m).(AggregateID) = m.(AggregateID) /\ (f m).(Topic) = m.(Topic)
     /\ (f m).(Payload) = m.(Payload)) ->
  Inv s -> Inv (set_outbox s (alter f id s.(outbox))).
Proof.
  intros Hf [HS HU HA HR]. constructor; cbn; auto.
  intros k a Ha. destruct (HA _ _ Ha) as (Y0 & x & Y1 & Y2 & o & m & job & p & Hm & E1 & E2 & E3 & E4).
  split; [done|]. exists x. split_and!; [done..|].
  destruct (Hf m) as (F1 & F2 & F3).
  destruct (decide (o = id)) as [->|Hne].
  - exists id, (f m), job, p. cbn. rewrite lookup_alter_eq, Hm. cbn. rewrite F1, F2, F3. done.
  - exists o, m, job, p. cbn. by rewrite lookup_alter_ne.
Qed.

Lemma step_Inv s s' : Inv s -> step s s' -> Inv s'.
Proof.
  intros HI [sub att job H|sid old now att job H|msg st rs ev V H|id t ->|id reason ->].
  - by eapply submitted_Inv.
  - by eapply rejudged_Inv.
  - apply validateResult_inr in V as (-> & HT & _).
    destruct H as [(sub & t & t' & Hp & Ha & _)|(-> & _)]; [by eapply applied_Inv|done].
  - by apply outbox_alter_Inv.
  - by apply outbox_alter_Inv.
Qed.

Lemma steps_Inv s s' : Inv s -> steps s s' -> Inv s'.
Proof. intros HI. induction 1; eauto using step_Inv. Qed.

(** ** What never changes *)

(** The rows of the testcase results of an attempt. *)
Definition rows_of (s : store) (a : SubmissionAttempt) : gmap Z SubmissionResult :=
  filter (fun p => of_attempt a.(AttSubmissionID) a.(AttAttemptID) p.2) s.(results).

Lemma replaced_keeps m m' sid aid rs k r : replaced m m' sid aid rs ->
  m !! k = Some r -> ~ of_attempt sid aid r -> m' !! k = Some r.
Proof.
  intros (ids & t & L & ND & F & ->) Hm Hn.
  assert (others sid aid m !! k = Some r) as Ho by (apply map_lookup_filter_Some; done).
  rewrite lookup_union_r; [done|]. apply not_elem_of_list_to_map_1. intros Hk.
  apply list_elem_of_fmap in Hk as ([k' x] & -> & Hk). apply elem_of_zip_l in Hk.
  apply F in Hk. cbn in *. congruence.
Qed.

(** A finished attempt is final: no step changes its row or its results. *)
Lemma step_final s s' k a : Inv s -> step s s' ->
  s.(attempts) !! k = Some a -> IsTerminalStatus a.(AttStatus) = true ->
  s'.(attempts) !! k = Some a /\ rows_of s' a = rows_of s a.
Proof.
  intros HI [sub att job H|sid old now att job H|msg st rs ev V H|id t ->|id reason ->] Hk Ht; [| | |done..].
  - destruct H as [_ _ _ (_ & _ & A3 & _) _ Q]. pose proof (queued_rest _ _ _ Q) as (_ & R2 & R3).
    unfold rows_of. rewrite R2, R3. cbn. rewrite lookup_insert_ne by congruence. done.
  - destruct H as [_ (_ & _ & _ & _ & A3 & _) _ Q]. pose proof (queued_rest _ _ _ Q) as (_ & R2 & R3).
    unfold rows_of. rewrite R2, R3. cbn. rewrite lookup_insert_ne by congruence. done.
  - destruct H as [(sub & t & t' & (O1 & O2 & O3) & [S1 S2 (rs' & _ & S3) S4] & _)|(-> & _)]; [|done].
    destruct HI as [HS HU HA HR].
    destruct (HS _ _ O1) as (_ & _ & _ & _ & _ & X6 & k0 & a0 & K1 & K2 & K3 & K4).
    rewrite O2 in X6. rewrite X6 in S2, S3.
    assert (a.(AttAttemptID) <> msg.(MsgAttemptID)) as Hne.
    { intros E. assert (k = k0) as -> by (eapply HU; eauto; congruence). congruence. }
    split.
    + rewrite S2. unfold complete_attempts. rewrite lookup_fmap, Hk. cbn. by rewrite bool_decide_eq_false_2.
    + apply map_eq. intros i. apply option_eq. intros r. unfold rows_of. rewrite !map_lookup_filter_Some.
      split; intros [Hr [E1 E2]]; (split; [|done]).
      * apply (replaced_lookup _ _ _ _ _ _ _ S3) in Hr as [Hr|[_ E]]; [done|]. cbn in *. congruence.
      * apply (replaced_keeps _ _ _ _ _ _ _ S3); [done|]. intros [_ E]. cbn in *. congruence.
Qed.

Lemma steps_final s s' k a : Inv s -> steps s s' ->
  s.(attempts) !! k = Some a -> IsTerminalStatus a.(AttStatus) = true ->
  s'.(attempts) !! k = Some a /\ rows_of s' a = rows_of s a.
Proof.
  intros HI H. induction H as [|x y z Hxy Hyz IH]; [done|]. intros Hk Ht.
  destruct (step_final _ _ _ _ HI Hxy Hk Ht) as [H1 H2].
  destruct IH as [H3 H4]; [by eapply step_Inv|done|done|]. split; [done|congruence].
Qed.

(** The identity of a submission: everything but the judging outcome. *)
Definition identity (s : Submission) :=
  (s.(ID), s.(ProblemID), s.(ProblemName), s.(SubUserID), s.(SubUsername), s.(SubLanguage), s.(SourceCode), s.(CreatedAt)).

Lemma step_identity s s' i sub : step s s' -> s.(subs) !! i = Some sub ->
  exists sub', s'.(subs) !! i = Some sub' /\ identity sub' = identity sub.
Proof.
  intros [sub0 att job H|sid old now att job H|msg st rs ev V H|id t ->|id reason ->] Hi; [| | |eauto..].
  - destruct H as [[_ I2] _ _ _ _ Q]. pose proof (queued_rest _ _ _ Q) as (R1 & _). rewrite R1. cbn.
    rewrite lookup_insert_ne by congruence. eauto.
  - destruct H as [(O1 & _) _ _ Q]. pose proof (queued_rest _ _ _ Q) as (R1 & _). rewrite R1. cbn.
    destruct (decide (i = sid)) as [->|]; [|rewrite lookup_insert_ne by done; eauto].
    rewrite lookup_insert_eq. rewrite O1 in Hi. injection Hi as <-. eauto.
  - destruct H as [(sub0 & t & t' & (O1 & _) & [S1 _ _ _] & _)|(-> & _)]; [|eauto]. rewrite S1.
    destruct (decide (i = msg.(MsgSubmissionID))) as [->|]; [|rewrite lookup_insert_ne by done; eauto].
    rewrite lookup_insert_eq. rewrite O1 in Hi. injection Hi as <-. eauto.
Qed.

Lemma steps_identity s s' i sub : steps s s' -> s.(subs) !! i = Some sub ->
  exists sub', s'.(subs) !! i = Some sub' /\ identity sub' = identity sub.
Proof.
  intros H. revert sub. induction H as [|x y z Hxy Hyz IH]; [eauto|]. intros sub Hi.
  destruct (step_identity _ _ _ _ Hxy Hi) as (s1 & H1 & E1). destruct (IH _ H1) as (s2 & H2 & E2).
  exists s2. split; [done|congruence].
Qed.

(** The second of two messages for one attempt never has an effect. *)
Lemma apply_spec_once msg msg' st st' rs rs' s s1 s2 ev ev' :
  validateResult msg = inr (st, rs) -> validateResult msg' = inr (st', rs') ->
  msg'.(MsgSubmissionID) = msg.(MsgSubmissionID) -> msg'.(MsgAttemptID) = msg.(MsgAttemptID) ->
  apply_spec msg s s1 ev -> apply_spec msg' s1 s2 ev' -> s2 = s1 /\ ev' = [].
Proof.
  intros (-> & HT & _)%validateResult_inr (-> & HT' & _)%validateResult_inr E1 E2 H1 H2.
  destruct H2 as [(sub' & t2 & t2' & (O1' & O2' & O3') & _)|(-> & -> & _)]; [exfalso|done].
  destruct H1 as [(sub & t & t' & (O1 & O2 & O3) & [S1 _ _ _] & _)|(-> & _ & HN)].
  - rewrite E1, S1, lookup_insert_eq in O1'. injection O1' as <-. cbn in O3'. congruence.
  - apply (HN sub'). unfold applicable. rewrite <- E1, <- E2. done.
Qed.

Lemma relay_step_steps p q : rtc relay_step p q -> steps p.1 q.1.
Proof.
  induction 1 as [|p q r H _ IH]; [reflexivity|]. etrans; [|exact IH].
  destruct H as [s d m|s d id t m Hm Hd Hr|s d id rr m Hm Hr]; [reflexivity|apply rtc_once..].
  - by eapply step_published.
  - by eapply step_failed.
Qed.
End system.

(** ** The use cases run in this system *)

Inductive call :=
| CallCreate (claims : Claims) (req : CreateSubmissionRequest)
| CallRejudge (claims : Claims) (submissionID : Z)
| CallApply (msg : ResultMessage)
| CallRelay.

Section runs.
Context {W : Type} (sr : SubmissionRepository W) (ar : AttemptRepository W)
  (rr : ResultRepository W) (or : OutboxRepository W) (tx : TransactionManager W)
  (pr : ProblemReader W) (cooldown : option (SubmissionCooldown W)) (sv : SubmissionServices W)
  (Send : ProducerMessage -> M W (Z * Z)) (Done : M W bool) (topic : string).

(** One request, message or tick; the world after it, whatever it returned. *)
Definition run_call (c : call) (w : W) : W :=
  match c with
  | CallCreate claims req =>
      snd (createExecute sr (Some ar) tx (outbox_Publish or topic) pr cooldown sv claims req w)
  | CallRejudge claims sid => snd (rejudgeExecute sr ar tx (outbox_Publish or topic) pr sv claims sid w)
  | CallApply msg => snd (applyExecute sr (Some ar) rr tx sv true msg w)
  | CallRelay => snd (processPendingMessages or Send Done w)
  end.

Definition run_calls (cs : list call) (w : W) : W := fold_left (fun w c => run_call c w) cs w.

Context (jsonb : string -> string) (db : W -> store) (sent : W -> list SubmissionEvent)
  (delivered : W -> list ProducerMessage)
  {SL : StoreLaws sr ar rr tx db sent} {VL : ServiceLaws sv db sent}
  {OL : OutboxLaws or jsonb db sent} {QL : QuietPorts pr cooldown db sent}
  {KL : ProducerLaws Send Done db sent delivered} {RS : RelayStore or delivered}.

(** Every run of the code is a run of the system. *)
Lemma run_call_steps c w : steps topic jsonb (db w) (db (run_call c w)).
Proof.
  destruct c as [claims req|claims sid|msg|]; cbn.
  - destruct (createExecute _ _ _ _ _ _ _ _ _ w) as [[e|r] w'] eqn:E; cbn.
    + apply (createExecute_error sr ar rr tx _ pr cooldown sv topic jsonb db sent) in E as [E _].
      by rewrite E.
    + apply (createExecute_spec sr ar rr tx _ pr cooldown sv topic jsonb db sent) in E
        as (_ & sub & att & job & H & _). apply rtc_once. by eapply step_submit.
  - destruct (rejudgeExecute _ _ _ _ _ _ _ _ w) as [[e|r] w'] eqn:E; cbn.
    + apply (rejudgeExecute_error sr ar rr tx _ pr cooldown sv topic jsonb db sent) in E as [E _].
      by rewrite E.
    + apply (rejudgeExecute_spec sr ar rr tx _ pr cooldown sv topic jsonb db sent) in E
        as (_ & old & now & att & job & H & _). apply rtc_once. by eapply step_rejudge.
  - destruct (applyExecute _ _ _ _ _ _ _ w) as [[e|[]] w'] eqn:E; cbn.
    + apply (applyExecute_atomic sr ar rr tx sv db sent) in E as [E _]. by rewrite E.
    + apply (applyExecute_refines sr ar rr tx sv db sent) in E as (st & rs & ev & V & H & _).
      apply rtc_once. by eapply step_apply.
  - destruct (processPendingMessages_steps or Send Done jsonb db sent delivered w) as (w' & -> & H & _).
    by apply (relay_step_steps topic jsonb) in H.
Qed.

Lemma run_calls_steps cs w : steps topic jsonb (db w) (db (run_calls cs w)).
Proof.
  revert w. induction cs as [|c cs IH]; intros w; [reflexivity|].
  etrans; [apply run_call_steps|apply IH].
Qed.
End runs.
