(* ===== verification/PgStore.v ===== *)
(** The PostgreSQL repositories of the submission service
    (services/submission/internal/adapter/outbound/persistence/postgres).

    GORM and PostgreSQL are a parameter: [TableOps] are the calls the
    repositories make on one table and [TableLaws] is their documented
    behaviour.  [pg_StoreLaws] shows that the repositories over any such tables
    meet the contract of the ports. *)

From S2P Require Import Prelude GoString GoError GoMonad SubmissionDomain SubmissionPorts.

(** [gorm.ErrRecordNotFound] *)
Definition gorm_ErrRecordNotFound : error := ESentinel "record not found".

(** ** GORM on one table *)

Record TableOps (W R : Type) := {
  t_create : R -> M W R;                       (* db.Create(dao): the row as stored *)
  t_create_many : list R -> M W unit;          (* db.Create(&daos) *)
  t_first : (R -> bool) -> M W R;              (* db.Where(p).First(&dao) *)
  t_find : (R -> bool) -> option Z -> M W (list R); (* db.Where(p).Limit(n).Find(&daos) *)
  t_updates : (R -> bool) -> (R -> R) -> M W Z; (* db.Model().Where(p).Updates(..).RowsAffected *)
  t_delete : (R -> bool) -> M W unit;          (* db.Where(p).Delete(..) *)
}.
Arguments t_create {W R}. Arguments t_create_many {W R}. Arguments t_first {W R}.
Arguments t_find {W R}. Arguments t_updates {W R}. Arguments t_delete {W R}.

(** What is documented of the calls.  [rows] is the content of the table by
    primary key, [rest] everything else in the world, [stamp r id t] the row
    [r] with the generated key and, where they are zero, the automatic
    timestamps, [key] its primary key column and [clash] a violation of a unique index. *)
Class TableLaws {W R X : Type} (ops : TableOps W R) (rows : W -> gmap Z R) (rest : W -> X)
    (key : R -> Z)
    (stamp : R -> Z -> Time -> R) (clash : R -> R -> Prop) := {
  tl_key : forall w id r, rows w !! id = Some r -> key r = id;
  tl_create : forall r w r' w', t_create ops r w = (inr r', w') ->
    exists id t, 0 < id /\ rows w !! id = None /\ r' = stamp r id t
      /\ (forall i r2, rows w !! i = Some r2 -> ~ clash r r2)
      /\ rows w' = <[id := r']> (rows w);
  tl_create_many : forall rs w w', t_create_many ops rs w = (inr tt, w') ->
    exists ids t, length ids = length rs /\ NoDup ids /\ (forall i, i ∈ ids -> rows w !! i = None)
      /\ rows w' = list_to_map (zip ids (zip_with (fun r i => stamp r i t) rs ids)) ∪ rows w;
  tl_first : forall p w r w', t_first ops p w = (inr r, w') ->
    rows w' = rows w /\ p r = true /\ exists id, rows w !! id = Some r;
  tl_first_none : forall p w w', t_first ops p w = (inl gorm_ErrRecordNotFound, w') ->
    forall id r, rows w !! id = Some r -> p r = false;
  tl_find : forall p n w l w', t_find ops p n w = (inr l, w') ->
    rows w' = rows w /\ NoDup l
    /\ (forall r, r ∈ l -> p r = true /\ exists id, rows w !! id = Some r)
    /\ match n with
       | None => forall id r, rows w !! id = Some r -> p r = true -> r ∈ l
       | Some n => Z.of_nat (length l) <= Z.max 0 n
       end;
  tl_updates : forall p f w n w', t_updates ops p f w = (inr n, w') ->
    (forall r, key (f r) = key r) ->
    rows w' = (fun r => if p r then f r else r) <$> rows w
    /\ n = Z.of_nat (size (filter (fun q => p q.2 = true) (rows w)));
  tl_delete : forall p w w', t_delete ops p w = (inr tt, w') ->
    rows w' = filter (fun q => p q.2 = false) (rows w);
  tl_error : forall w e w',
    ((exists r, t_create ops r w = (inl e, w')) \/ (exists p, t_first ops p w = (inl e, w'))
     \/ (exists p n, t_find ops p n w = (inl e, w')) \/ (exists p f, t_updates ops p f w = (inl e, w'))) ->
    rows w' = rows w;
  tl_rest : (forall r, keeps rest (t_create ops r)) /\ (forall rs, keeps rest (t_create_many ops rs))
    /\ (forall p, keeps rest (t_first ops p)) /\ (forall p n, keeps rest (t_find ops p n))
    /\ (forall p f, keeps rest (t_updates ops p f)) /\ (forall p, keeps rest (t_delete ops p));
}.

(** ** Data access objects *)

Module SubmissionDAO.
Record t := mk {
  ID : Z; ProblemID : Z; ProblemName : string; UserID : string; Username : string;
  Language : string; SourceCode : string; CurrentAttemptID : string; Status : string;
  ExecutionTime : option Z; MemoryUsed : option Z; CompileOutput : option string;
  ErrorMessage : option string; CreatedAt : Time; UpdatedAt : Time;
}.
End SubmissionDAO.

Module SubmissionAttemptDAO.
Record t := mk {
  ID : Z; SubmissionID : Z; AttemptID : string; TriggerType : string;
  TriggeredByUserID : option string; Status : string; TestcaseVersion : option Z;
  TestCount : option Z; DatasetChecksum : option string; CreatedAt : Time; UpdatedAt : Time;
}.
End SubmissionAttemptDAO.

Module SubmissionResultDAO.
Record t := mk {
  ID : Z; SubmissionID : Z; AttemptID : string; TestIndex : Z; Status : string;
  ActualOutput : option string; Input : option string; ExpectedOutput : option string;
  ExecutionTime : option Z; MemoryUsed : option Z; CreatedAt : Time;
}.
End SubmissionResultDAO.

Module OutboxMessageDAO.
Record t := mk {
  ID : Z; AggregateID : Z; Topic : string; Payload : string; Status : string;
  CreatedAt : Time; PublishedAt : option Time; RetryCount : Z; ErrorReason : option string;
}.
End OutboxMessageDAO.

Definition toSubmissionDAO (s : Submission) : SubmissionDAO.t :=
  SubmissionDAO.mk s.(ID) s.(ProblemID) s.(ProblemName) s.(SubUserID) s.(SubUsername) s.(SubLanguage)
    s.(SourceCode) s.(CurrentAttemptID) s.(SubStatus) s.(ExecutionTime) s.(MemoryUsed)
    s.(CompileOutput) s.(ErrorMessage) s.(CreatedAt) s.(UpdatedAt).

Definition toSubmissionEntity (d : SubmissionDAO.t) : Submission :=
  mkSubmission d.(SubmissionDAO.ID) d.(SubmissionDAO.ProblemID) d.(SubmissionDAO.ProblemName)
    d.(SubmissionDAO.UserID) d.(SubmissionDAO.Username) d.(SubmissionDAO.Language)
    d.(SubmissionDAO.SourceCode) d.(SubmissionDAO.CurrentAttemptID) d.(SubmissionDAO.Status)
    d.(SubmissionDAO.ExecutionTime) d.(SubmissionDAO.MemoryUsed) d.(SubmissionDAO.CompileOutput)
    d.(SubmissionDAO.ErrorMessage) d.(SubmissionDAO.CreatedAt) d.(SubmissionDAO.UpdatedAt).

Definition toSubmissionAttemptDAO (a : SubmissionAttempt) : SubmissionAttemptDAO.t :=
  SubmissionAttemptDAO.mk a.(AttID) a.(AttSubmissionID) a.(AttAttemptID) a.(TriggerType)
    a.(TriggeredByUserID) a.(AttStatus) a.(AttTestcaseVersion) a.(AttTestCount)
    a.(AttDatasetChecksum) a.(AttCreatedAt) a.(AttUpdatedAt).

Definition toSubmissionAttemptEntity (d : SubmissionAttemptDAO.t) : SubmissionAttempt :=
  mkAttempt d.(SubmissionAttemptDAO.ID) d.(SubmissionAttemptDAO.SubmissionID)
    d.(SubmissionAttemptDAO.AttemptID) d.(SubmissionAttemptDAO.TriggerType)
    d.(SubmissionAttemptDAO.TriggeredByUserID) d.(SubmissionAttemptDAO.Status)
    d.(SubmissionAttemptDAO.TestcaseVersion) d.(SubmissionAttemptDAO.TestCount)
    d.(SubmissionAttemptDAO.DatasetChecksum) d.(SubmissionAttemptDAO.CreatedAt)
    d.(SubmissionAttemptDAO.UpdatedAt).

Definition toSubmissionResultEntity (d : SubmissionResultDAO.t) : SubmissionResult :=
  mkResult d.(SubmissionResultDAO.ID) d.(SubmissionResultDAO.SubmissionID)
    d.(SubmissionResultDAO.AttemptID) d.(SubmissionResultDAO.TestIndex) d.(SubmissionResultDAO.Status)
    d.(SubmissionResultDAO.ActualOutput) d.(SubmissionResultDAO.Input)
    d.(SubmissionResultDAO.ExpectedOutput) d.(SubmissionResultDAO.ExecutionTime)
    d.(SubmissionResultDAO.MemoryUsed) d.(SubmissionResultDAO.CreatedAt).

(** The entity [GetPending] builds from a row. *)
Definition toOutboxEntity (d : OutboxMessageDAO.t) : OutboxMessage :=
  mkOutbox d.(OutboxMessageDAO.ID) d.(OutboxMessageDAO.AggregateID) d.(OutboxMessageDAO.Topic)
    d.(OutboxMessageDAO.Payload) d.(OutboxMessageDAO.Status) d.(OutboxMessageDAO.CreatedAt)
    d.(OutboxMessageDAO.PublishedAt) d.(OutboxMessageDAO.RetryCount) d.(OutboxMessageDAO.ErrorReason).

(** ** Automatic columns and unique indexes of the four tables *)

Definition auto_time (t now : Time) : Time := if t =? 0 then now else t.

Definition stamp_submission (d : SubmissionDAO.t) (id : Z) (now : Time) : SubmissionDAO.t :=
  SubmissionDAO.mk id d.(SubmissionDAO.ProblemID) d.(SubmissionDAO.ProblemName)
    d.(SubmissionDAO.UserID) d.(SubmissionDAO.Username) d.(SubmissionDAO.Language)
    d.(SubmissionDAO.SourceCode) d.(SubmissionDAO.CurrentAttemptID) d.(SubmissionDAO.Status)
    d.(SubmissionDAO.ExecutionTime) d.(SubmissionDAO.MemoryUsed) d.(SubmissionDAO.CompileOutput)
    d.(SubmissionDAO.ErrorMessage) (auto_time d.(SubmissionDAO.CreatedAt) now)
    (auto_time d.(SubmissionDAO.UpdatedAt) now).

Definition stamp_attempt (d : SubmissionAttemptDAO.t) (id : Z) (now : Time) : SubmissionAttemptDAO.t :=
  SubmissionAttemptDAO.mk id d.(SubmissionAttemptDAO.SubmissionID) d.(SubmissionAttemptDAO.AttemptID)
    d.(SubmissionAttemptDAO.TriggerType) d.(SubmissionAttemptDAO.TriggeredByUserID)
    d.(SubmissionAttemptDAO.Status) d.(SubmissionAttemptDAO.TestcaseVersion)
    d.(SubmissionAttemptDAO.TestCount) d.(SubmissionAttemptDAO.DatasetChecksum)
    (auto_time d.(SubmissionAttemptDAO.CreatedAt) now) (auto_time d.(SubmissionAttemptDAO.UpdatedAt) now).

Definition stamp_result (d : SubmissionResultDAO.t) (id : Z) (now : Time) : SubmissionResultDAO.t :=
  SubmissionResultDAO.mk id d.(SubmissionResultDAO.SubmissionID) d.(SubmissionResultDAO.AttemptID)
    d.(SubmissionResultDAO.TestIndex) d.(SubmissionResultDAO.Status) d.(SubmissionResultDAO.ActualOutput)
    d.(SubmissionResultDAO.Input) d.(SubmissionResultDAO.ExpectedOutput)
    d.(SubmissionResultDAO.ExecutionTime) d.(SubmissionResultDAO.MemoryUsed)
    (auto_time d.(SubmissionResultDAO.CreatedAt) now).

(** The payload column has type [jsonb]: PostgreSQL stores its normal form. *)
Definition stamp_outbox (jsonb : string -> string) (d : OutboxMessageDAO.t) (id : Z) (now : Time) : OutboxMessageDAO.t :=
  OutboxMessageDAO.mk id d.(OutboxMessageDAO.AggregateID) d.(OutboxMessageDAO.Topic)
    (jsonb d.(OutboxMessageDAO.Payload)) d.(OutboxMessageDAO.Status) (auto_time d.(OutboxMessageDAO.CreatedAt) now)
    d.(OutboxMessageDAO.PublishedAt) d.(OutboxMessageDAO.RetryCount) d.(OutboxMessageDAO.ErrorReason).

Definition no_clash {R} (a b : R) : Prop := False.
Definition attempt_clash (a b : SubmissionAttemptDAO.t) : Prop :=
  a.(SubmissionAttemptDAO.AttemptID) = b.(SubmissionAttemptDAO.AttemptID).

(** ** The repositories *)

Section repositories.
Context {W : Type}
  (ts : TableOps W SubmissionDAO.t) (ta : TableOps W SubmissionAttemptDAO.t)
  (tr : TableOps W SubmissionResultDAO.t) (to : TableOps W OutboxMessageDAO.t)
  (now : M W Time).

(** [fmt.Errorf("prefix: %w", err)]; a value formatted with [%q] appears unquoted. *)
Definition wrapf (prefix : string) (e : error) : error := EWrap prefix e.

(** [submissionRepository.Create] *)
Definition pg_Create (s : Submission) : M W Z :=
  let* dao := on_error (wrapf "create submission") (t_create ts (toSubmissionDAO s)) in
  ret dao.(SubmissionDAO.ID).

(** [submissionRepository.getByID]; the row lock of [forUpdate] shows in the
    atomicity of transactions only. *)
Definition pg_getByID (id : Z) : M W Submission :=
  let* dao := on_error
      (fun e => if errors_Is e gorm_ErrRecordNotFound then ErrSubmissionNotFound
                else wrapf ("get submission " +:+ Itoa id) e)
      (t_first ts (fun d => d.(SubmissionDAO.ID) =? id)) in
  ret (toSubmissionEntity dao).

Definition pg_GetByID (id : Z) : M W (option Submission) :=
  let* s := pg_getByID id in ret (Some s).

(** [submissionRepository.Update] *)
Definition pg_Update (s : Submission) : M W unit :=
  let upd (d : SubmissionDAO.t) := SubmissionDAO.mk d.(SubmissionDAO.ID) d.(SubmissionDAO.ProblemID)
    d.(SubmissionDAO.ProblemName) d.(SubmissionDAO.UserID) d.(SubmissionDAO.Username)
    d.(SubmissionDAO.Language) d.(SubmissionDAO.SourceCode) s.(CurrentAttemptID) s.(SubStatus)
    s.(ExecutionTime) s.(MemoryUsed) s.(CompileOutput) s.(ErrorMessage)
    d.(SubmissionDAO.CreatedAt) s.(UpdatedAt) in
  let* affected := on_error (wrapf ("update submission " +:+ Itoa s.(ID)))
      (t_updates ts (fun d => d.(SubmissionDAO.ID) =? s.(ID)) upd) in
  if affected =? 0 then fail ErrSubmissionNotFound else ret tt.

(** [submissionAttemptRepository] *)
Definition pg_AttemptCreate (a : SubmissionAttempt) : M W Z :=
  let* dao := on_error (wrapf ("create submission attempt " +:+ a.(AttAttemptID)))
      (t_create ta (toSubmissionAttemptDAO a)) in
  ret dao.(SubmissionAttemptDAO.ID).

Definition pg_GetByAttemptID (attemptID : string) : M W SubmissionAttempt :=
  let attemptID := TrimSpace attemptID in
  if bool_decide (attemptID = ""%string) then fail ErrSubmissionNotFound
  else
    let* dao := on_error
        (fun e => if errors_Is e gorm_ErrRecordNotFound then ErrSubmissionNotFound
                  else wrapf ("get submission attempt " +:+ attemptID) e)
        (t_first ta (fun d => bool_decide (d.(SubmissionAttemptDAO.AttemptID) = attemptID))) in
    ret (toSubmissionAttemptEntity dao).

Definition pg_AttemptMarkCompleted (attemptID : string) (status : Status)
    (version count : option Z) (checksum : option string) : M W unit :=
  let attemptID := TrimSpace attemptID in
  if bool_decide (attemptID = ""%string)
  then fail (EText "mark submission attempt completed: attempt ID is required")
  else
    let* t := now in
    let* _ := on_error (wrapf ("mark submission attempt " +:+ attemptID +:+ " completed"))
        (t_updates ta (fun d => bool_decide (d.(SubmissionAttemptDAO.AttemptID) = attemptID))
           (fun d => SubmissionAttemptDAO.mk d.(SubmissionAttemptDAO.ID)
              d.(SubmissionAttemptDAO.SubmissionID) d.(SubmissionAttemptDAO.AttemptID)
              d.(SubmissionAttemptDAO.TriggerType) d.(SubmissionAttemptDAO.TriggeredByUserID)
              status version count checksum d.(SubmissionAttemptDAO.CreatedAt) t)) in
    ret tt.

(** [submissionResultRepository] *)
Definition result_of (submissionID : Z) (attemptID : string) (d : SubmissionResultDAO.t) : bool :=
  (d.(SubmissionResultDAO.SubmissionID) =? submissionID)
  && bool_decide (d.(SubmissionResultDAO.AttemptID) = attemptID).

Definition result_dao (submissionID : Z) (attemptID : string) (item : SubmissionResult) : SubmissionResultDAO.t :=
  SubmissionResultDAO.mk 0 submissionID attemptID item.(TestIndex) item.(ResStatus)
    item.(ResActualOutput) item.(ResInput) item.(ResExpectedOutput) item.(ResExecutionTime)
    item.(ResMemoryUsed) 0.

Definition pg_ReplaceBySubmissionIDAndAttemptID (submissionID : Z) (attemptID : string)
    (rs : list SubmissionResult) : M W unit :=
  let attemptID := TrimSpace attemptID in
  if bool_decide (attemptID = ""%string)
  then fail (EText "replace submission results: attempt ID is required")
  else
    t_delete tr (result_of submissionID attemptID) ;;
    match rs with
    | [] => ret tt
    | _ => t_create_many tr (map (result_dao submissionID attemptID) rs)
    end.

(** [outboxRepository] *)
Definition pg_OutboxCreate (m : OutboxMessage) : M W Z :=
  let* dao := on_error (wrapf "create outbox message")
      (t_create to (OutboxMessageDAO.mk 0 m.(AggregateID) m.(Topic) m.(Payload) m.(ObStatus)
                      0 None 0 None)) in
  ret dao.(OutboxMessageDAO.ID).

Definition pg_GetPending (limit : Z) : M W (list OutboxMessage) :=
  let* daos := on_error (wrapf "fetch pending outbox messages")
      (t_find to (fun d => bool_decide (d.(OutboxMessageDAO.Status) = OutboxStatusPending)) (Some limit)) in
  ret (map toOutboxEntity daos).

Definition pg_MarkPublished (id : Z) : M W unit :=
  let* t := now in
  let* _ := on_error (wrapf ("mark outbox message " +:+ Itoa id +:+ " published"))
      (t_updates to (fun d => d.(OutboxMessageDAO.ID) =? id)
         (fun d => OutboxMessageDAO.mk d.(OutboxMessageDAO.ID) d.(OutboxMessageDAO.AggregateID)
            d.(OutboxMessageDAO.Topic) d.(OutboxMessageDAO.Payload) OutboxStatusPublished
            d.(OutboxMessageDAO.CreatedAt) (Some t) d.(OutboxMessageDAO.RetryCount)
            d.(OutboxMessageDAO.ErrorReason))) in
  ret tt.

Definition pg_MarkFailed (id : Z) (errReason : string) : M W unit :=
  let* _ := on_error (wrapf ("mark outbox message " +:+ Itoa id +:+ " failed"))
      (t_updates to (fun d => d.(OutboxMessageDAO.ID) =? id)
         (fun d => OutboxMessageDAO.mk d.(OutboxMessageDAO.ID) d.(OutboxMessageDAO.AggregateID)
            d.(OutboxMessageDAO.Topic) d.(OutboxMessageDAO.Payload) d.(OutboxMessageDAO.Status)
            d.(OutboxMessageDAO.CreatedAt) d.(OutboxMessageDAO.PublishedAt)
            (d.(OutboxMessageDAO.RetryCount) + 1) (Some errReason))) in
  ret tt.
End repositories.

(** ** Table facts *)

Lemma updates_hit {R} (p : R -> bool) (m : gmap Z R) n :
  n = Z.of_nat (size (filter (fun q => p q.2 = true) m)) -> n <> 0 ->
  exists id r, m !! id = Some r /\ p r = true.
Proof.
  intros -> Hn. destruct (map_eq_dec_empty (filter (fun q => p q.2 = true) m)) as [E|E].
  - rewrite E in Hn. rewrite map_size_empty in Hn. done.
  - apply map_choose in E as (id & r & E). apply map_lookup_filter_Some in E as [E1 E2]. eauto.
Qed.

(** Updating the row with primary key [id], seen through a conversion [conv]. *)
Lemma update_one_row {R E} (key : R -> Z) (conv : R -> E) (m : gmap Z R) (f : R -> R) (g : E -> E) id d :
  (forall i r, m !! i = Some r -> key r = i) ->
  m !! id = Some d -> conv (f d) = g (conv d) ->
  conv <$> ((fun r => if key r =? id then f r else r) <$> m) = <[id := g (conv d)]> (conv <$> m).
Proof.
  intros Hk Hd Hg. apply map_eq. intros i. rewrite !lookup_fmap.
  destruct (decide (i = id)) as [->|Hne].
  - rewrite lookup_insert_eq, Hd. cbn. rewrite (Hk _ _ Hd), Z.eqb_refl. cbn. by rewrite Hg.
  - rewrite lookup_insert_ne by done. rewrite lookup_fmap. destruct (m !! i) as [r|] eqn:Hr; [|done].
    cbn. rewrite (Hk _ _ Hr). by rewrite (proj2 (Z.eqb_neq i id) Hne).
Qed.

(** ** The contract of the ports holds for the repositories *)

Section contract.
Context {W : Type}
  (ts : TableOps W SubmissionDAO.t) (ta : TableOps W SubmissionAttemptDAO.t)
  (tr : TableOps W SubmissionResultDAO.t) (to : TableOps W OutboxMessageDAO.t)
  (jsonb : string -> string) (now : M W Time)
  (lookup_results : Z -> string -> M W (list (option SubmissionResult)))
  (transaction : forall A, M W A -> M W A).
Context (rows_s : W -> gmap Z SubmissionDAO.t) (rows_a : W -> gmap Z SubmissionAttemptDAO.t)
  (rows_r : W -> gmap Z SubmissionResultDAO.t) (rows_o : W -> gmap Z OutboxMessageDAO.t)
  (sent : W -> list SubmissionEvent).
Context
  `{LS : !TableLaws ts rows_s (fun w => (rows_a w, rows_r w, rows_o w, sent w))
           SubmissionDAO.ID stamp_submission no_clash}
  `{LA : !TableLaws ta rows_a (fun w => (rows_s w, rows_r w, rows_o w, sent w))
           SubmissionAttemptDAO.ID stamp_attempt attempt_clash}
  `{LR : !TableLaws tr rows_r (fun w => (rows_s w, rows_a w, rows_o w, sent w))
           SubmissionResultDAO.ID stamp_result no_clash}
  `{LO : !TableLaws to rows_o (fun w => (rows_s w, rows_a w, rows_r w, sent w))
           OutboxMessageDAO.ID (stamp_outbox jsonb) no_clash}.

(** The content of the database as entities. *)
Definition pg_db (w : W) : store :=
  mkStore (toSubmissionEntity <$> rows_s w) (toSubmissionAttemptEntity <$> rows_a w)
    (toSubmissionResultEntity <$> rows_r w) (toOutboxEntity <$> rows_o w).

(** [db.Transaction]: commit when the closure returns nil, otherwise roll the
    database back; a failing commit is an error as well. *)
Class TransactionLaws := {
  txl_commit : forall A (f : M W A) w a w', transaction A f w = (inr a, w') ->
    exists w0 w1, pg_db w0 = pg_db w /\ sent w0 = sent w /\ f w0 = (inr a, w1)
      /\ pg_db w' = pg_db w1 /\ sent w' = sent w1;
  txl_rollback : forall A (f : M W A) w e w', transaction A f w = (inl e, w') ->
    pg_db w' = pg_db w /\ (keeps sent f -> sent w' = sent w);
  txl_now_rows : keeps (fun w => (rows_s w, rows_a w, rows_r w, rows_o w, sent w)) now;
}.
Context {TL : TransactionLaws}.

(** [transactionManager.ExecuteInTx] *)
Definition pg_ExecuteInTx (A : Type) (f : M W A) : M W A :=
  on_error (wrapf "execute transaction") (transaction A f).

Definition pg_submissionRepository : SubmissionRepository W :=
  {| SR_Create := pg_Create ts; SR_GetByID := pg_GetByID ts; SR_GetByIDForUpdate := pg_getByID ts;
     SR_Update := pg_Update ts |}.
Definition pg_attemptRepository : AttemptRepository W :=
  {| AR_Create := pg_AttemptCreate ta; AR_GetByAttemptID := pg_GetByAttemptID ta;
     AR_MarkCompleted := pg_AttemptMarkCompleted ta now |}.
(** The read side of the result repository is given with the queries. *)
Definition pg_resultRepository : ResultRepository W :=
  {| RR_GetBySubmissionIDAndAttemptID := lookup_results;
     RR_Replace := pg_ReplaceBySubmissionIDAndAttemptID tr |}.
Definition pg_outboxRepository : OutboxRepository W :=
  {| OR_Create := pg_OutboxCreate to; OR_GetPending := pg_GetPending to;
     OR_MarkPublished := pg_MarkPublished to now; OR_MarkFailed := pg_MarkFailed to |}.
Definition pg_transactionManager : TransactionManager W := {| ExecuteInTx := pg_ExecuteInTx |}.

Lemma auto_time_id t n : t <> 0 -> auto_time t n = t.
Proof. intros H. unfold auto_time. by rewrite (proj2 (Z.eqb_neq t 0) H). Qed.

Lemma stamp_submission_entity s id t : s.(CreatedAt) <> 0 -> s.(UpdatedAt) <> 0 ->
  toSubmissionEntity (stamp_submission (toSubmissionDAO s) id t) = set_ID s id.
Proof. intros H1 H2. unfold toSubmissionEntity, set_ID. simpl. by rewrite !auto_time_id. Qed.

Lemma stamp_attempt_entity a id t : a.(AttCreatedAt) <> 0 -> a.(AttUpdatedAt) <> 0 ->
  toSubmissionAttemptEntity (stamp_attempt (toSubmissionAttemptDAO a) id t) = set_AttID a id.
Proof. intros H1 H2. unfold toSubmissionAttemptEntity, set_AttID. simpl. by rewrite !auto_time_id. Qed.

(** Looking up the row with a given primary key. *)
Lemma getByID_row id w s w' : pg_getByID ts id w = (inr s, w') ->
  exists d, rows_s w !! id = Some d /\ s = toSubmissionEntity d /\ s.(ID) = id
    /\ rows_s w' = rows_s w
    /\ (rows_a w', rows_r w', rows_o w', sent w') = (rows_a w, rows_r w, rows_o w, sent w).
Proof.
  unfold pg_getByID. intros H. run_inv H. unfold ret in H. simplify_eq.
  apply on_error_inr in E. pose proof (proj1 (proj2 (proj2 (tl_rest (ops := ts)))) _ _ _ _ E) as R.
  apply tl_first in E as (E1 & E2 & id' & E3).
  pose proof (tl_key _ _ _ E3) as K. bools. rewrite K in E2. subst id'.
  exists a. split_and!; done.
Qed.

Lemma pg_get_for_update id w s w' : pg_getByID ts id w = (inr s, w') ->
  pg_db w' = pg_db w /\ (pg_db w).(subs) !! id = Some s /\ s.(ID) = id.
Proof.
  intros (d & H1 & -> & H2 & H3 & H4)%getByID_row. unfold pg_db. simplify_eq H4.
  intros -> -> -> _. rewrite H3. cbn. rewrite lookup_fmap, H1. done.
Qed.

Lemma pg_getByID_error id w e w' : pg_getByID ts id w = (inl e, w') -> pg_db w' = pg_db w.
Proof.
  unfold pg_getByID. intros [H|(a & w1 & _ & H)]%bind_inl_inv; [|done].
  apply on_error_inl_inv in H as (e0 & _ & H).
  pose proof (proj1 (proj2 (proj2 (tl_rest (ops := ts)))) _ _ _ _ H) as R.
  assert (rows_s w' = rows_s w) as R' by (apply (tl_error (ops := ts) w e0 w'); eauto 6).
  cbn in R. simplify_eq R. intros R1 R2 R3 _. unfold pg_db. by rewrite R', R1, R2, R3.
Qed.

Lemma pg_update_ok s w w' : pg_Update ts s w = (inr tt, w') ->
  exists old, (pg_db w).(subs) !! s.(ID) = Some old
    /\ pg_db w' = set_subs (pg_db w) (<[s.(ID) := updated_row old s]> (pg_db w).(subs)).
Proof.
  unfold pg_Update. intros H. run_inv H.
  apply on_error_inr in E.
  pose proof (proj1 (proj2 (proj2 (proj2 (proj2 (tl_rest (ops := ts)))))) _ _ _ _ _ E) as R.
  apply tl_updates in E as [E1 E2]; [|done].
  injection R as R1 R2 R3 _.
  destruct (Z.eqb_spec a 0) as [|Ha]; [done|]. injection H as <-.
  destruct (updates_hit (fun d => d.(SubmissionDAO.ID) =? s.(ID)) _ _ E2 Ha) as (id & d & Hd & Hp). bools.
  pose proof (tl_key _ _ _ Hd) as K. rewrite K in Hp. subst id.
  exists (toSubmissionEntity d). unfold pg_db, set_subs. cbn [subs].
  rewrite lookup_fmap, Hd, R1, R2, R3, E1. split; [done|].
  f_equal. apply (update_one_row SubmissionDAO.ID toSubmissionEntity (rows_s w) _
    (fun old => updated_row old s)); [intros ? ?; apply tl_key|done|done].
Qed.
Lemma pg_create_ok s w id w' : pg_Create ts s w = (inr id, w') ->
  s.(CreatedAt) <> 0 -> s.(UpdatedAt) <> 0 ->
  0 < id /\ (pg_db w).(subs) !! id = None
  /\ pg_db w' = set_subs (pg_db w) (<[id := set_ID s id]> (pg_db w).(subs)).
Proof.
  unfold pg_Create. intros H Hc Hu. run_inv H. apply on_error_inr in E.
  pose proof (proj1 (tl_rest (ops := ts)) _ _ _ _ E) as R. injection R as R1 R2 R3 _.
  apply tl_create in E as (i & t & Hi & Hn & -> & _ & E). injection H as <- <-.
  unfold pg_db, set_subs. cbn [subs]. rewrite R1, R2, R3, E, lookup_fmap.
  split_and!; [done|by cbn; rewrite Hn|].
  f_equal. rewrite fmap_insert. by rewrite stamp_submission_entity.
Qed.

Lemma pg_attempt_create_ok a w id w' : pg_AttemptCreate ta a w = (inr id, w') ->
  a.(AttCreatedAt) <> 0 -> a.(AttUpdatedAt) <> 0 ->
  (pg_db w).(attempts) !! id = None
  /\ (forall i b, (pg_db w).(attempts) !! i = Some b -> b.(AttAttemptID) <> a.(AttAttemptID))
  /\ pg_db w' = set_attempts (pg_db w) (<[id := set_AttID a id]> (pg_db w).(attempts)).
Proof.
  unfold pg_AttemptCreate. intros H Hc Hu. run_inv H. apply on_error_inr in E.
  pose proof (proj1 (tl_rest (ops := ta)) _ _ _ _ E) as R. injection R as R1 R2 R3 _.
  apply tl_create in E as (i & t & Hi & Hn & -> & Hx & E). injection H as <- <-.
  unfold pg_db, set_attempts. cbn [attempts]. rewrite R1, R2, R3, E, lookup_fmap.
  split_and!; [by cbn; rewrite Hn| |].
  - intros j b. rewrite lookup_fmap. destruct (rows_a w !! j) as [d|] eqn:Hd; [|done].
    intros [= <-] Heq. apply (Hx _ _ Hd). symmetry. exact Heq.
  - f_equal. rewrite fmap_insert. by rewrite stamp_attempt_entity.
Qed.

Lemma pg_attempt_complete_ok aid st v c k w w' :
  pg_AttemptMarkCompleted ta now aid st v c k w = (inr tt, w') ->
  blank aid = false
  /\ exists t, pg_db w' = set_attempts (pg_db w)
       (complete_attempts (pg_db w).(attempts) (TrimSpace aid) st v c k t).
Proof.
  unfold pg_AttemptMarkCompleted. intros H. case_bool_decide as B; [done|]. run_inv H.
  injection H as <-. apply on_error_inr in E0.
  pose proof (txl_now_rows _ _ _ E) as N. injection N as N1 N2 N3 N4 _.
  pose proof (proj1 (proj2 (proj2 (proj2 (proj2 (tl_rest (ops := ta)))))) _ _ _ _ _ E0) as R.
  injection R as R1 R2 R3 _. apply tl_updates in E0 as [E0 _]; [|done].
  split; [by apply bool_decide_eq_false|]. exists a.
  unfold pg_db, set_attempts, complete_attempts. cbn [attempts].
  rewrite R1, R2, R3, E0, N1, N2, N3, N4. f_equal.
  rewrite <- !map_fmap_compose. apply map_fmap_ext. intros i d _. cbn.
  by destruct (bool_decide _).
Qed.

(** The rows created for one attempt, seen as entities. *)
Lemma result_rows_entities sid aid rs ids t :
  toSubmissionResultEntity <$>
    (list_to_map (zip ids (zip_with (fun r i => stamp_result r i t)
      (map (result_dao sid aid) rs) ids)) : gmap Z SubmissionResultDAO.t)
  = list_to_map (zip ids (zip_with (fun r i => result_row sid aid r i t) rs ids)).
Proof.
  rewrite <- list_to_map_fmap. f_equal.
  revert ids. induction rs as [|r rs IH]; intros [|i ids]; cbn; try done.
  rewrite IH. done.
Qed.

Lemma pg_replace_ok sid aid rs w w' :
  pg_ReplaceBySubmissionIDAndAttemptID tr sid aid rs w = (inr tt, w') ->
  blank aid = false
  /\ exists m', replaced (pg_db w).(results) m' sid (TrimSpace aid) rs
     /\ pg_db w' = set_results (pg_db w) m'.
Proof.
  unfold pg_ReplaceBySubmissionIDAndAttemptID. intros H. case_bool_decide as B; [done|].
  split; [by apply bool_decide_eq_false|]. run_inv H.
  pose proof (proj2 (proj2 (proj2 (proj2 (proj2 (tl_rest (ops := tr)))))) _ _ _ _ E) as R.
  injection R as R1 R2 R3 _. apply tl_delete in E.
  assert (toSubmissionResultEntity <$> rows_r w0
    = others sid (TrimSpace aid) (toSubmissionResultEntity <$> rows_r w)) as F.
  { unfold others. rewrite E, map_filter_fmap. f_equal. apply map_filter_ext. intros i d _. cbn.
    unfold result_of, of_attempt. cbn.
    destruct (Z.eqb_spec d.(SubmissionResultDAO.SubmissionID) sid);
      destruct (bool_decide_reflect (d.(SubmissionResultDAO.AttemptID) = TrimSpace aid)); naive_solver. }
  destruct rs as [|r rs].
  - injection H as <-. eexists. split.
    + exists [], 0. split_and!; [done|constructor|set_solver|done].
    + unfold pg_db, set_results. cbn [results subs attempts outbox]. cbn.
      by rewrite (left_id_L ∅ (∪)), R1, R2, R3, F.
  - remember (r :: rs) as l eqn:El. clear El r rs.
    pose proof (proj1 (proj2 (tl_rest (ops := tr))) _ _ _ _ H) as R'. injection R' as R1' R2' R3' _.
    apply tl_create_many in H as (ids & t & L & ND & Fr & H). rewrite length_map in L.
    eexists. split.
    + exists ids, t. split_and!; [done|done| |reflexivity].
      intros i Hi. apply Fr in Hi. cbn [results pg_db]. rewrite <- F, lookup_fmap, Hi. done.
    + unfold pg_db, set_results. cbn [results subs attempts outbox].
      by rewrite R1', R2', R3', R1, R2, R3, H, map_fmap_union, result_rows_entities, F.
Qed.

(** No repository call touches the event hub. *)
Lemma keeps_sent_of {A X} (v : W -> X) (m : M W A) :
  keeps (fun w => (v w, sent w)) m -> keeps sent m.
Proof. intros K w r w' E. apply K in E. by injection E. Qed.

Ltac quiet ops v :=
  apply (keeps_sent_of v); destruct (tl_rest (ops := ops)) as (? & ? & ? & ? & ? & ?); eauto.

Lemma quiet_s : (forall r, keeps sent (t_create ts r)) /\ (forall p, keeps sent (t_first ts p))
  /\ (forall p f, keeps sent (t_updates ts p f)).
Proof. split_and!; intros; quiet ts (fun w => (rows_a w, rows_r w, rows_o w)). Qed.
Lemma quiet_a : (forall r, keeps sent (t_create ta r)) /\ (forall p f, keeps sent (t_updates ta p f)).
Proof. split_and!; intros; quiet ta (fun w => (rows_s w, rows_r w, rows_o w)). Qed.
Lemma quiet_r : (forall rs, keeps sent (t_create_many tr rs)) /\ (forall p, keeps sent (t_delete tr p)).
Proof. split_and!; intros; quiet tr (fun w => (rows_s w, rows_a w, rows_o w)). Qed.
Lemma quiet_now : keeps sent now.
Proof. apply (keeps_sent_of (fun w => (rows_s w, rows_a w, rows_r w, rows_o w))), txl_now_rows. Qed.

#[export] Instance pg_StoreLaws :
  StoreLaws pg_submissionRepository pg_attemptRepository pg_resultRepository pg_transactionManager pg_db sent.
Proof.
  destruct quiet_s as (S1 & S2 & S3), quiet_a as (A1 & A2), quiet_r as (R1 & R2).
  split; cbn.
  - intros A f w a w' H. apply on_error_inr in H. by apply txl_commit.
  - intros A f w e w' H. apply on_error_inl_inv in H as (e0 & _ & H). by apply txl_rollback in H.
  - apply pg_get_for_update.
  - intros id w s w' H. unfold pg_GetByID in H. run_inv H. injection H as <- <-.
    apply pg_get_for_update in E as (E1 & E2 & _). done.
  - intros id w e w' [H|(a & w1 & _ & H)]%bind_inl_inv; [|done]. by eapply pg_getByID_error.
  - apply pg_update_ok.
  - apply pg_create_ok.
  - apply pg_attempt_create_ok.
  - apply pg_attempt_complete_ok.
  - apply pg_replace_ok.
  - assert (forall id, keeps sent (pg_getByID ts id)) as G.
    { intros id. apply keeps_bind; [apply keeps_on_error, S2|intros; apply keeps_ret]. }
    split_and!; intros.
    + apply G.
    + apply keeps_bind; [apply G|intros; apply keeps_ret].
    + apply keeps_bind; [apply keeps_on_error, S3|]. intros n. destruct (n =? 0); auto with judge.
    + apply keeps_bind; [apply keeps_on_error, S1|intros; apply keeps_ret].
    + apply keeps_bind; [apply keeps_on_error, A1|intros; apply keeps_ret].
    + unfold pg_AttemptMarkCompleted. case_bool_decide; [apply keeps_fail|].
      apply keeps_bind; [apply quiet_now|intros].
      apply keeps_bind; [apply keeps_on_error, A2|intros; apply keeps_ret].
    + unfold pg_ReplaceBySubmissionIDAndAttemptID. case_bool_decide; [apply keeps_fail|].
      apply keeps_bind; [apply R2|intros]. destruct rs; [apply keeps_ret|apply R1].
Qed.

(** Updating the row [id] of the outbox, seen as entities. *)
Lemma outbox_update (f : OutboxMessageDAO.t -> OutboxMessageDAO.t) (g : OutboxMessage -> OutboxMessage) w id :
  (forall d, toOutboxEntity (f d) = g (toOutboxEntity d)) ->
  toOutboxEntity <$> ((fun d => if d.(OutboxMessageDAO.ID) =? id then f d else d) <$> rows_o w)
  = alter g id (toOutboxEntity <$> rows_o w).
Proof.
  intros Hfg. apply map_eq. intros i. destruct (decide (i = id)) as [->|Hne].
  - rewrite lookup_alter_eq, !lookup_fmap. destruct (rows_o w !! id) as [d|] eqn:E; [|done]. cbn.
    rewrite (tl_key _ _ _ E), Z.eqb_refl. cbn. by rewrite Hfg.
  - rewrite lookup_alter_ne, !lookup_fmap by done. destruct (rows_o w !! i) as [d|] eqn:E; [|done]. cbn.
    rewrite (tl_key _ _ _ E). by rewrite (proj2 (Z.eqb_neq i id) Hne).
Qed.

Lemma outbox_db_error w e w' :
  ((exists r, t_create to r w = (inl e, w')) \/ (exists p, t_first to p w = (inl e, w'))
   \/ (exists p n, t_find to p n w = (inl e, w')) \/ (exists p f, t_updates to p f w = (inl e, w'))) ->
  pg_db w' = pg_db w.
Proof.
  intros H. pose proof (tl_error _ _ _ H) as R.
  assert ((rows_s w', rows_a w', rows_r w', sent w') = (rows_s w, rows_a w, rows_r w, sent w)) as R'.
  { destruct (tl_rest (ops := to)) as (K1 & K2 & K3 & K4 & K5 & K6).
    destruct H as [[? H]|[[? H]|[(? & ? & H)|(? & ? & H)]]];
      [eapply K1 in H|eapply K3 in H|eapply K4 in H|eapply K5 in H]; done. }
  injection R' as R1 R2 R3 _. unfold pg_db. by rewrite R, R1, R2, R3.
Qed.

Lemma quiet_o : (forall r, keeps sent (t_create to r)) /\ (forall p n, keeps sent (t_find to p n))
  /\ (forall p f, keeps sent (t_updates to p f)).
Proof. split_and!; intros; quiet to (fun w => (rows_s w, rows_a w, rows_r w)). Qed.

#[export] Instance pg_OutboxLaws : OutboxLaws pg_outboxRepository jsonb pg_db sent.
Proof.
  destruct quiet_o as (O1 & O2 & O3).
  destruct (tl_rest (ops := to)) as (K1 & K2 & K3 & K4 & K5 & K6).
  assert (forall w r w', now w = (r, w') -> pg_db w' = pg_db w) as N.
  { intros w r w' E. pose proof (txl_now_rows _ _ _ E) as N. injection N as N1 N2 N3 N4 _.
    unfold pg_db. by rewrite N1, N2, N3, N4. }
  split; cbn -[pg_db].
  - unfold pg_OutboxCreate. intros m w id w' H. run_inv H. apply on_error_inr in E.
    pose proof (K1 _ _ _ _ E) as R. injection R as R1 R2 R3 _.
    apply tl_create in E as (i & t & Hi & Hn & -> & _ & E). injection H as <- <-.
    exists (auto_time 0 t). unfold pg_db, set_outbox. cbn. rewrite R1, R2, R3, E, lookup_fmap, Hn.
    split; [done|]. f_equal. by rewrite fmap_insert.
  - unfold pg_GetPending. intros n w l w' H. run_inv H. apply on_error_inr in E.
    pose proof (K4 _ _ _ _ _ E) as R. injection R as R1 R2 R3 _.
    apply tl_find in E as (E1 & E2 & E3 & E4). injection H as <- <-.
    unfold pg_db. rewrite R1, R2, R3, E1. split_and!; [done| |by rewrite length_map|].
    + rewrite map_map. cbn. clear -E2 E3 LO. induction E2 as [|d l Hd _ IH]; [constructor|].
      cbn. constructor.
      * intros (d' & Heq & Hd')%list_elem_of_fmap. apply Hd.
        destruct (E3 d) as (_ & i & Hi); [by left|]. destruct (E3 d') as (_ & j & Hj); [by right|].
        pose proof (tl_key _ _ _ Hi) as Ki. pose proof (tl_key _ _ _ Hj) as Kj. cbn in *. congruence.
      * apply IH. intros r Hr. apply E3. by right.
    + intros m (d & -> & Hd)%list_elem_of_fmap. apply E3 in Hd as (Hp & i & Hi). bools.
      pose proof (tl_key _ _ _ Hi) as Ki. cbn in *. rewrite Ki, lookup_fmap, Hi. done.
  - unfold pg_MarkPublished. intros id w w' H. run_inv H. injection H as <-. apply on_error_inr in E0.
    pose proof (K5 _ _ _ _ _ E0) as R. injection R as R1 R2 R3 _.
    apply tl_updates in E0 as [E0 _]; [|done]. apply N in E. exists a.
    rewrite <- E. unfold pg_db, set_outbox. cbn [outbox subs attempts results]. rewrite R1, R2, R3, E0. f_equal. by apply outbox_update.
  - unfold pg_MarkFailed. intros id r w w' H. run_inv H. injection H as <-. apply on_error_inr in E.
    pose proof (K5 _ _ _ _ _ E) as R. injection R as R1 R2 R3 _.
    apply tl_updates in E as [E _]; [|done].
    unfold pg_db, set_outbox. cbn [outbox subs attempts results]. rewrite R1, R2, R3, E. f_equal. by apply outbox_update.
  - intros w e w' [(n & H)|[(id & H)|(id & r & H)]];
      unfold pg_GetPending, pg_MarkPublished, pg_MarkFailed in H.
    + apply bind_inl_inv in H as [H|(? & ? & _ & H)]; [|done].
      apply on_error_inl_inv in H as (e0 & _ & H). eapply outbox_db_error; eauto 6.
    + apply bind_inl_inv in H as [H|(? & w1 & Hn & H)]; [by eapply N|].
      rewrite <- (N _ _ _ Hn). apply bind_inl_inv in H as [H|(? & ? & _ & H)]; [|done].
      apply on_error_inl_inv in H as (e0 & _ & H). eapply outbox_db_error; eauto 6.
    + apply bind_inl_inv in H as [H|(? & ? & _ & H)]; [|done].
      apply on_error_inl_inv in H as (e0 & _ & H). eapply outbox_db_error; eauto 6.
  - split_and!; intros.
    + apply keeps_bind; [apply keeps_on_error, O1|intros; apply keeps_ret].
    + apply keeps_bind; [apply keeps_on_error, O2|intros; apply keeps_ret].
    + apply keeps_bind; [apply quiet_now|intros].
      apply keeps_bind; [apply keeps_on_error, O3|intros; apply keeps_ret].
    + apply keeps_bind; [apply keeps_on_error, O3|intros; apply keeps_ret].
Qed.
End contract.
