(* ===== verification/MemStore.v ===== *)
(** A concrete world for the witnesses: four in-memory tables, the events
    handed to the hub, a clock and the messages delivered to Kafka.  It meets the
    documented behaviour assumed of GORM in PgStore.v and of the services in
    SubmissionPorts.v, so those assumptions can hold together. *)

From S2P Require Import Prelude GoString GoError GoMonad SubmissionDomain SubmissionPorts OutboxRelay PgStore.

Record world := mkWorld {
  w_subs : gmap Z SubmissionDAO.t;
  w_attempts : gmap Z SubmissionAttemptDAO.t;
  w_results : gmap Z SubmissionResultDAO.t;
  w_outbox : gmap Z OutboxMessageDAO.t;
  w_sent : list SubmissionEvent;
  w_clock : Z;
  w_delivered : list ProducerMessage;
}.

Definition empty_world : world := mkWorld ∅ ∅ ∅ ∅ [] 1 [].

(** A key above every key in use. *)
Definition fresh_key {R} (m : gmap Z R) : Z := 1 + foldr Z.max 0 (map fst (map_to_list m)).

Lemma fresh_key_pos {R} (m : gmap Z R) : 0 < fresh_key m.
Proof.
  unfold fresh_key. induction (map fst (map_to_list m)); simpl; lia.
Qed.

Lemma fresh_key_above {R} (m : gmap Z R) i r : m !! i = Some r -> i < fresh_key m.
Proof.
  intros H. unfold fresh_key. apply elem_of_map_to_list in H.
  assert (i ∈ map fst (map_to_list m)) as K by (apply list_elem_of_fmap; exists (i, r); done).
  induction (map fst (map_to_list m)) as [|j l IH]; [by apply elem_of_nil in K|].
  apply elem_of_cons in K as [->|K]; simpl; [lia|]. specialize (IH K). lia.
Qed.

Lemma fresh_key_spec {R} (m : gmap Z R) n : m !! (fresh_key m + Z.of_nat n) = None.
Proof.
  destruct (m !! _) eqn:E; [|done]. apply fresh_key_above in E. lia.
Qed.

Section table.
Context {R : Type} (get : world -> gmap Z R) (put : gmap Z R -> world -> world)
  (key : R -> Z) (stamp : R -> Z -> Time -> R) (clash : R -> R -> Prop)
  `{Hd : forall a b, Decision (clash a b)}.

(** The rows stored under their own primary key. *)
Definition mem_table (w : world) : gmap Z R := filter (fun p => key p.2 = p.1) (get w).

Definition mem_clashes (m : gmap Z R) (r : R) : bool :=
  existsb (fun p => bool_decide (clash r p.2)) (map_to_list m).

Definition mem_create (r : R) : M world R := fun w =>
  if mem_clashes (mem_table w) r then (inl (EText "duplicate key value violates unique constraint"), w)
  else let r' := stamp r (fresh_key (mem_table w)) w.(w_clock) in
       (inr r', put (<[fresh_key (mem_table w) := r']> (mem_table w)) w).

Definition mem_ids (m : gmap Z R) (n : nat) : list Z :=
  map (fun i => fresh_key m + Z.of_nat i) (seq 0 n).

Definition mem_create_many (rs : list R) : M world unit := fun w =>
  let ids := mem_ids (mem_table w) (length rs) in
  (inr tt, put (list_to_map (zip ids (zip_with (fun r i => stamp r i w.(w_clock)) rs ids)) ∪ mem_table w) w).

Definition mem_rows (p : R -> bool) (w : world) : list R :=
  filter (fun r => p r = true) (map snd (map_to_list (mem_table w))).

Definition mem_first (p : R -> bool) : M world R := fun w =>
  match mem_rows p w with
  | r :: _ => (inr r, w)
  | [] => (inl gorm_ErrRecordNotFound, w)
  end.

Definition mem_find (p : R -> bool) (n : option Z) : M world (list R) := fun w =>
  (inr match n with None => mem_rows p w | Some n => take (Z.to_nat n) (mem_rows p w) end, w).

Definition mem_updates (p : R -> bool) (f : R -> R) : M world Z := fun w =>
  (inr (Z.of_nat (size (filter (fun q => p q.2 = true) (mem_table w)))),
   put ((fun r => if p r then f r else r) <$> mem_table w) w).

Definition mem_delete (p : R -> bool) : M world unit := fun w =>
  (inr tt, put (filter (fun q => p q.2 = false) (mem_table w)) w).

Definition mem_ops : TableOps world R :=
  {| t_create := mem_create; t_create_many := mem_create_many; t_first := mem_first;
     t_find := mem_find; t_updates := mem_updates; t_delete := mem_delete |}.

Context {X : Type} (rest : world -> X).
Context (get_put : forall m w, get (put m w) = m) (rest_put : forall m w, rest (put m w) = rest w)
  (key_stamp : forall r id t, key (stamp r id t) = id).

Lemma mem_table_put m w : (forall i r, m !! i = Some r -> key r = i) -> mem_table (put m w) = m.
Proof.
  intros H. unfold mem_table. rewrite get_put. apply map_filter_id. intros i r Hr. by apply H.
Qed.

Lemma mem_table_key w i r : mem_table w !! i = Some r -> key r = i.
Proof. intros H. by apply map_lookup_filter_Some in H as [_ H]. Qed.

Lemma mem_rows_spec p w r : r ∈ mem_rows p w <-> p r = true /\ exists id, mem_table w !! id = Some r.
Proof.
  unfold mem_rows. rewrite list_elem_of_filter, list_elem_of_fmap. f_equiv.
  split.
  - intros ((i & r') & -> & H). apply elem_of_map_to_list in H. eauto.
  - intros (i & H). exists (i, r). by rewrite elem_of_map_to_list.
Qed.

Lemma mem_rows_nodup p w : NoDup (mem_rows p w).
Proof.
  unfold mem_rows. apply NoDup_filter. apply (NoDup_fmap_1 key).
  change (NoDup (map key (map snd (map_to_list (mem_table w))))). rewrite map_map.
  rewrite (map_ext_in _ fst); [apply NoDup_fst_map_to_list|].
  intros [i r] H%list_elem_of_In%elem_of_map_to_list. by apply mem_table_key in H.
Qed.

Lemma zip_key rs ids t i r :
  (list_to_map (zip ids (zip_with (fun r i => stamp r i t) rs ids)) : gmap Z R) !! i = Some r ->
  key r = i.
Proof.
  revert ids. induction rs as [|x rs IH]; intros [|j ids]; cbn; try done.
  intros [[<- <-]|[_ H]]%lookup_insert_Some; [apply key_stamp|by eapply IH].
Qed.

Lemma mem_ids_spec (m : gmap Z R) n : length (mem_ids m n) = n /\ NoDup (mem_ids m n)
  /\ forall i, i ∈ mem_ids m n -> m !! i = None.
Proof.
  unfold mem_ids. split_and!.
  - by rewrite length_map, length_seq.
  - assert (Inj (=) (=) (fun k : nat => fresh_key m + Z.of_nat k)) by (intros x y ?; lia).
    apply (NoDup_fmap_2 (fun k => fresh_key m + Z.of_nat k)), NoDup_seq.
  - intros i (k & -> & _)%list_elem_of_fmap. apply fresh_key_spec.
Qed.

Lemma mem_updates_key (p : R -> bool) (f : R -> R) w : (forall r, key (f r) = key r) ->
  forall i r, ((fun r => if p r then f r else r) <$> mem_table w) !! i = Some r -> key r = i.
Proof.
  intros Hf i r. rewrite lookup_fmap. destruct (mem_table w !! i) as [r0|] eqn:E; [|done].
  intros [= <-]. apply mem_table_key in E. destruct (p r0); [by rewrite Hf|done].
Qed.

Lemma mem_rest : (forall r, keeps rest (mem_create r)) /\ (forall rs, keeps rest (mem_create_many rs))
  /\ (forall p, keeps rest (mem_first p)) /\ (forall p n, keeps rest (mem_find p n))
  /\ (forall p f, keeps rest (mem_updates p f)) /\ (forall p, keeps rest (mem_delete p)).
Proof.
  unfold keeps, mem_create, mem_create_many, mem_first, mem_find, mem_updates, mem_delete.
  split_and!; intros; repeat case_match; simplify_eq; auto.
Qed.

Lemma mem_TableLaws : TableLaws mem_ops mem_table rest key stamp clash.
Proof.
  split; cbn.
  - apply mem_table_key.
  - unfold mem_create. intros r w r' w' H.
    destruct (mem_clashes (mem_table w) r) eqn:C; [done|]. simplify_eq.
    exists (fresh_key (mem_table w)), w.(w_clock). split_and!.
    + apply fresh_key_pos.
    + rewrite <- (Z.add_0_r (fresh_key _)). apply (fresh_key_spec _ 0).
    + done.
    + intros i r2 H Hc. enough (mem_clashes (mem_table w) r = true) by congruence.
      apply existsb_exists. exists (i, r2).
      rewrite <- list_elem_of_In, elem_of_map_to_list. by rewrite bool_decide_eq_true.
    + apply mem_table_put. intros i r0 [[<- <-]|[_ H]]%lookup_insert_Some; [apply key_stamp|].
      by apply mem_table_key in H.
  - unfold mem_create_many. intros rs w w' H. simplify_eq.
    destruct (mem_ids_spec (mem_table w) (length rs)) as (L & ND & Fr).
    exists (mem_ids (mem_table w) (length rs)), w.(w_clock). split_and!; try done.
    apply mem_table_put. intros i r [H|[_ H]]%lookup_union_Some_raw.
    + by eapply zip_key.
    + by apply mem_table_key in H.
  - unfold mem_first. intros p w r w' H. destruct (mem_rows p w) as [|x l] eqn:E; [done|].
    simplify_eq. split; [done|]. apply mem_rows_spec. rewrite E. left.
  - unfold mem_first. intros p w w' H id r Hr. destruct (mem_rows p w) as [|x l] eqn:E; [|done].
    destruct (p r) eqn:P; [|done]. assert (r ∈ mem_rows p w) as K by (apply mem_rows_spec; eauto).
    rewrite E in K. by apply elem_of_nil in K.
  - unfold mem_find. intros p n w l w' H. simplify_eq. split; [done|].
    pose proof (mem_rows_nodup p w') as ND.
    destruct n as [n|]; split_and!; try done.
    + by eapply sublist_NoDup, sublist_take.
    + intros r Hr. apply mem_rows_spec. apply elem_of_take in Hr as (k & Hk & _). by eapply list_elem_of_lookup_2.
    + rewrite length_take. lia.
    + intros r Hr. by apply mem_rows_spec.
    + intros id r Hr Hp. apply mem_rows_spec. eauto.
  - unfold mem_updates. intros p f w n w' H Hf. simplify_eq. split; [|done].
    by apply mem_table_put, mem_updates_key.
  - unfold mem_delete. intros p w w' H. simplify_eq. apply mem_table_put.
    intros i r [H _]%map_lookup_filter_Some. by apply mem_table_key in H.
  - intros w e w'. unfold mem_create, mem_first, mem_find, mem_updates.
    intros [(r & H)|[(p & H)|[(p & n & H)|(p & f & H)]]]; repeat case_match; by simplify_eq.
  - apply mem_rest.
Qed.
End table.

(** ** The four tables *)

Definition put_subs m w := mkWorld m w.(w_attempts) w.(w_results) w.(w_outbox) w.(w_sent) w.(w_clock) w.(w_delivered).
Definition put_attempts m w := mkWorld w.(w_subs) m w.(w_results) w.(w_outbox) w.(w_sent) w.(w_clock) w.(w_delivered).
Definition put_results m w := mkWorld w.(w_subs) w.(w_attempts) m w.(w_outbox) w.(w_sent) w.(w_clock) w.(w_delivered).
Definition put_outbox m w := mkWorld w.(w_subs) w.(w_attempts) w.(w_results) m w.(w_sent) w.(w_clock) w.(w_delivered).

#[export] Instance no_clash_dec {R} (a b : R) : Decision (no_clash a b).
Proof. right. intros []. Defined.
#[export] Instance attempt_clash_dec a b : Decision (attempt_clash a b).
Proof. unfold attempt_clash. apply _. Defined.

Definition tab_s := mem_ops w_subs put_subs SubmissionDAO.ID stamp_submission no_clash.
Definition tab_a := mem_ops w_attempts put_attempts SubmissionAttemptDAO.ID stamp_attempt attempt_clash.
Definition tab_r := mem_ops w_results put_results SubmissionResultDAO.ID stamp_result no_clash.
Definition tab_o := mem_ops w_outbox put_outbox OutboxMessageDAO.ID (stamp_outbox id) no_clash.

Definition see_s := mem_table w_subs SubmissionDAO.ID.
Definition see_a := mem_table w_attempts SubmissionAttemptDAO.ID.
Definition see_r := mem_table w_results SubmissionResultDAO.ID.
Definition see_o := mem_table w_outbox OutboxMessageDAO.ID.

#[export] Instance laws_s : TableLaws tab_s see_s (fun w => (see_a w, see_r w, see_o w, w_sent w))
  SubmissionDAO.ID stamp_submission no_clash.
Proof. by apply mem_TableLaws. Qed.
#[export] Instance laws_a : TableLaws tab_a see_a (fun w => (see_s w, see_r w, see_o w, w_sent w))
  SubmissionAttemptDAO.ID stamp_attempt attempt_clash.
Proof. by apply mem_TableLaws. Qed.
#[export] Instance laws_r : TableLaws tab_r see_r (fun w => (see_s w, see_a w, see_o w, w_sent w))
  SubmissionResultDAO.ID stamp_result no_clash.
Proof. by apply mem_TableLaws. Qed.
#[export] Instance laws_o : TableLaws tab_o see_o (fun w => (see_s w, see_a w, see_r w, w_sent w))
  OutboxMessageDAO.ID (stamp_outbox id) no_clash.
Proof. by apply mem_TableLaws. Qed.

(** ** Transactions, clock and hub *)

(** Roll everything but the hub and the clock back on an error. *)
Definition mem_transaction (A : Type) (f : M world A) : M world A := fun w =>
  match f w with
  | (inr a, w') => (inr a, w')
  | (inl e, w') => (inl e, mkWorld w.(w_subs) w.(w_attempts) w.(w_results) w.(w_outbox) w'.(w_sent) w'.(w_clock) w'.(w_delivered))
  end.

(** Every reading advances the clock by one nanosecond. *)
Definition mem_now : M world Time := fun w =>
  let t := Z.max 0 w.(w_clock) + 1 in
  (inr t, mkWorld w.(w_subs) w.(w_attempts) w.(w_results) w.(w_outbox) w.(w_sent) t w.(w_delivered)).

Definition mem_hub (e : SubmissionEvent) : M world unit := fun w =>
  (inr tt, mkWorld w.(w_subs) w.(w_attempts) w.(w_results) w.(w_outbox) (w.(w_sent) ++ [e]) w.(w_clock) w.(w_delivered)).

(** Attempt identifiers from the clock. *)
Definition mem_attempt_id : M world string := fun w =>
  let t := Z.max 0 w.(w_clock) + 1 in
  (inr ("attempt-" +:+ Itoa t), mkWorld w.(w_subs) w.(w_attempts) w.(w_results) w.(w_outbox) w.(w_sent) t w.(w_delivered)).

Definition mem_db : world -> store := pg_db see_s see_a see_r see_o.

#[export] Instance mem_TransactionLaws : TransactionLaws mem_now mem_transaction see_s see_a see_r see_o w_sent.
Proof.
  split.
  - intros A f w a w' H. exists w, w'. unfold mem_transaction in H.
    destruct (f w) as [[e|x] w1]; [done|]. by simplify_eq.
  - intros A f w e w' H. unfold mem_transaction in H.
    destruct (f w) as [[e'|x] w1] eqn:E; [|done]. simplify_eq. split; [done|]. intros K. by eapply K in E.
  - intros w r w' H. unfold mem_now in H. by simplify_eq.
Qed.

Definition mem_sr := pg_submissionRepository tab_s.
Definition mem_ar := pg_attemptRepository tab_a mem_now.
Definition mem_rr := pg_resultRepository tab_r (fun _ _ => ret []).
Definition mem_tx := pg_transactionManager mem_transaction.

#[export] Instance mem_StoreLaws : StoreLaws mem_sr mem_ar mem_rr mem_tx mem_db w_sent.
Proof. unfold mem_sr, mem_ar, mem_rr, mem_tx, mem_db. apply _. Qed.

(** ** The other services *)

Definition mem_or := pg_outboxRepository tab_o mem_now.

#[export] Instance mem_OutboxLaws : OutboxLaws mem_or id mem_db w_sent.
Proof.
  unfold mem_or, mem_db.
  apply (pg_OutboxLaws tab_o id mem_now mem_transaction see_s see_a see_r see_o w_sent).
Qed.

Definition mem_sv : SubmissionServices world :=
  {| Now := mem_now; NewAttemptID := mem_attempt_id; HubPublish := mem_hub |}.

#[export] Instance mem_ServiceLaws : ServiceLaws mem_sv mem_db w_sent.
Proof.
  split.
  - intros w. eexists _, _. split; [reflexivity|]. lia.
  - intros w r w' [= <- <-]. done.
  - intros w r w' [= <- <-]. done.
  - intros w r w' [= <- <-]. done.
  - intros w r w' [= <- <-]. done.
  - intros e w. eexists. done.
Qed.

(** One public problem with two testcases, and a cooldown that always allows. *)
Definition mem_pr : ProblemReader world :=
  {| PR_GetProblem := fun id _ => ret (mkProblem id "Two Sum" "two-sum");
     PR_GetTestCaseMetadata := fun id => ret (mkTCMeta id 2 1) |}.
Definition mem_cooldown : SubmissionCooldown world := fun _ _ => ret (mkCooldown true 0).

#[export] Instance mem_QuietPorts : QuietPorts mem_pr (Some mem_cooldown) mem_db w_sent.
Proof.
  split.
  - intros; split; apply keeps_ret.
  - intros; split; apply keeps_ret.
  - intros acquire u p [= <-]. split; apply keeps_ret.
Qed.

(** A broker that accepts every message with a topic, and a context that is
    never cancelled. *)
Definition mem_send (m : ProducerMessage) : M world (Z * Z) := fun w =>
  if bool_decide (m.(PmTopic) = "")%string then (inl (EText "kafka: unknown topic"), w)
  else (inr (0, Z.of_nat (length w.(w_delivered))),
        mkWorld w.(w_subs) w.(w_attempts) w.(w_results) w.(w_outbox) w.(w_sent) w.(w_clock)
          (w.(w_delivered) ++ [m])).
Definition mem_done : M world bool := ret false.

#[export] Instance mem_ProducerLaws : ProducerLaws mem_send mem_done mem_db w_sent w_delivered.
Proof.
  assert (forall m, keeps mem_db (mem_send m) /\ keeps w_sent (mem_send m)) as K.
  { intros m. split; intros w r w'; unfold mem_send; case_bool_decide; intros [= <- <-]; done. }
  split.
  - intros m w p w'. unfold mem_send. case_bool_decide; [done|]. by intros [= <- <-].
  - intros m w e w'. unfold mem_send. case_bool_decide; [|done]. intros [= <- <-]. by left.
  - done.
  - intros w. by exists false, w.
  - split_and!; apply keeps_ret.
Qed.

#[export] Instance mem_RelayStore : RelayStore mem_or w_delivered.
Proof.
  assert (TableLaws tab_o see_o w_delivered OutboxMessageDAO.ID (stamp_outbox id) no_clash) as L
    by by apply mem_TableLaws.
  destruct (tl_rest (ops := tab_o)) as (_ & _ & _ & Q4 & Q5 & _).
  assert (keeps w_delivered mem_now) as N by (intros w r w' [= <- <-]; done).
  split. cbn. split_and!; intros.
  - apply keeps_bind; [apply keeps_on_error, Q4|intros; apply keeps_ret].
  - apply keeps_bind; [apply N|intros].
    apply keeps_bind; [apply keeps_on_error, Q5|intros; apply keeps_ret].
  - apply keeps_bind; [apply keeps_on_error, Q5|intros; apply keeps_ret].
Qed.

(** The services with their default topic over this world. *)
Definition mem_topic : string := publisher_topic "".
Definition mem_publish : JobMessage -> M world unit := outbox_Publish mem_or mem_topic.
