(* ===== verification/EventHub.v ===== *)
(** The in-process event hub of the submission service
    (services/submission/internal/adapter/outbound/stream/event_hub.go).

    Publishers, unsubscribing streams and receivers run concurrently, so the
    hub is a transition system: [perform] executes one atomic step of one
    goroutine.  A critical section of [h.mu] only touches the map of
    subscribers and is one step; inside a critical section of [s.mu] each
    channel operation is its own step, because receivers do not take the
    mutex.  A step that cannot run yet is [Blocked], a Go panic (a send on or a
    close of a closed channel, a nil pointer) is [Panic]. *)

From S2P Require Import Prelude SubmissionDomain.

(** ** State *)

Definition submissionEventBufferSize : nat := 1.

(** [submissionSubscriber] with the variables its [unsubscribe] closure
    captures: the submission and the [sync.Once].  [ch_closed] is the state of
    the Go channel, [closed] the field. *)
Record Subscriber := mkSub {
  sub_mu : option nat;               (* the goroutine that holds the mutex *)
  ch : list SubmissionEvent;
  ch_closed : bool;
  closed : bool;
  sub_id : Z;
  once_done : bool;
}.

(** Where a goroutine is: between two subscribers of [Publish], at one of the
    three selects of [trySendLatest], or in [unsubscribe]. *)
Inductive Task :=
  | TPublish (e : SubmissionEvent) (todo : list nat)
  | TFirst (e : SubmissionEvent) (s : nat) (todo : list nat)
  | TDrain (e : SubmissionEvent) (s : nat) (todo : list nat)
  | TSecond (e : SubmissionEvent) (s : nat) (todo : list nat)
  | TRemove (s : nat)
  | TCloseWait (s : nat)
  | TClose (s : nat)
  | TClosing (s : nat).

(** [SubmissionEventHub], the heap of subscribers its maps point to, and the
    goroutines inside one of its methods. *)
Record Hub := mkHub {
  subscribers : gmap Z (gset nat);
  heap : gmap nat Subscriber;
  tasks : gmap nat Task;
}.

Definition NewSubmissionEventHub : Hub := mkHub ∅ ∅ ∅.

(** ** Observations and outcomes *)

Inductive Obs :=
  | Sent (s : nat) (e : SubmissionEvent)       (* accepted by the channel *)
  | Discarded (s : nat) (e : SubmissionEvent)  (* taken out for a later event *)
  | Lost (s : nat) (e : SubmissionEvent)       (* the last [default] *)
  | Received (s : nat) (e : SubmissionEvent)
  | Ended (s : nat).                           (* the receiver sees the channel closed *)

Inductive Outcome :=
  | Blocked
  | Panic
  | Next (h : Hub) (o : list Obs).

(** ** Updates *)

Definition with_sub (s : nat) (x : Subscriber) (h : Hub) : Hub :=
  mkHub h.(subscribers) (<[s := x]> h.(heap)) h.(tasks).
Definition with_task (t : nat) (k : option Task) (h : Hub) : Hub :=
  mkHub h.(subscribers) h.(heap) (partial_alter (fun _ => k) t h.(tasks)).
Definition set_mu (x : Subscriber) (o : option nat) : Subscriber :=
  mkSub o x.(ch) x.(ch_closed) x.(closed) x.(sub_id) x.(once_done).
Definition set_ch (x : Subscriber) (l : list SubmissionEvent) : Subscriber :=
  mkSub x.(sub_mu) l x.(ch_closed) x.(closed) x.(sub_id) x.(once_done).
Definition set_ch_closed (x : Subscriber) : Subscriber :=
  mkSub x.(sub_mu) x.(ch) true x.(closed) x.(sub_id) x.(once_done).
Definition set_closed (x : Subscriber) : Subscriber :=
  mkSub x.(sub_mu) x.(ch) x.(ch_closed) true x.(sub_id) x.(once_done).
Definition set_once (x : Subscriber) : Subscriber :=
  mkSub x.(sub_mu) x.(ch) x.(ch_closed) x.(closed) x.(sub_id) true.

(** ** The methods *)

(** [len(h.subscribers[id])] and the elements; a missing bucket is nil. *)
Definition bucket (h : Hub) (id : Z) : gset nat := default ∅ (h.(subscribers) !! id).
Definition SubscriberCount (h : Hub) (id : Z) : nat := size (bucket h id).

(** [Subscribe]; [s] is the new pointer. *)
Definition Subscribe (id : Z) (s : nat) (h : Hub) : Hub :=
  mkHub (<[id := {[s]} ∪ bucket h id]> h.(subscribers))
    (<[s := mkSub None [] false false id false]> h.(heap)) h.(tasks).

(** The part of [unsubscribe] under [h.mu]. *)
Definition remove (id : Z) (s : nat) (h : Hub) : Hub :=
  match h.(subscribers) !! id with
  | None => h
  | Some b =>
      let b := b ∖ {[s]} in
      mkHub (if bool_decide (b = ∅) then delete id h.(subscribers) else <[id := b]> h.(subscribers))
        h.(heap) h.(tasks)
  end.

Definition has_room (x : Subscriber) : bool := (length x.(ch) <? submissionEventBufferSize)%nat.

Arguments has_room : simpl never.

(** One step of the goroutine [t], which is at [k]; [x] is the subscriber it
    works on. *)
Definition advance (t : nat) (k : Task) (h : Hub) : Outcome :=
  let at_sub s (f : Subscriber -> Outcome) :=
    match h.(heap) !! s with None => Panic | Some x => f x end in
  let next s x k o := Next (with_sub s x (with_task t k h)) o in
  match k with
  | TPublish e [] => Next (with_task t None h) []
  | TPublish e (s :: todo) => at_sub s (fun x =>
      match x.(sub_mu) with
      | Some _ => Blocked
      | None => if x.(closed) then Next (with_task t (Some (TPublish e todo)) h) []
                else next s (set_mu x (Some t)) (Some (TFirst e s todo)) []
      end)
  | TFirst e s todo => at_sub s (fun x =>
      if x.(ch_closed) then Panic
      else if has_room x
      then next s (set_mu (set_ch x (x.(ch) ++ [e])) None) (Some (TPublish e todo)) [Sent s e]
      else Next (with_task t (Some (TDrain e s todo)) h) [])
  | TDrain e s todo => at_sub s (fun x =>
      match x.(ch) with
      | [] => Next (with_task t (Some (TSecond e s todo)) h) []
      | e0 :: r => next s (set_ch x r) (Some (TSecond e s todo)) [Discarded s e0]
      end)
  | TSecond e s todo => at_sub s (fun x =>
      if x.(ch_closed) then Panic
      else if has_room x
      then next s (set_mu (set_ch x (x.(ch) ++ [e])) None) (Some (TPublish e todo)) [Sent s e]
      else next s (set_mu x None) (Some (TPublish e todo)) [Lost s e])
  | TRemove s => at_sub s (fun x =>
      Next (remove x.(sub_id) s (with_task t (Some (TCloseWait s)) h)) [])
  | TCloseWait s => at_sub s (fun x =>
      match x.(sub_mu) with
      | Some _ => Blocked
      | None => if x.(closed) then Next (with_task t None h) []
                else next s (set_mu x (Some t)) (Some (TClose s)) []
      end)
  | TClose s => at_sub s (fun x => next s (set_closed x) (Some (TClosing s)) [])
  | TClosing s => at_sub s (fun x =>
      if x.(ch_closed) then Panic else next s (set_mu (set_ch_closed x) None) None [])
  end.

(** What can happen next: a call of a method by the goroutine [t], a step of a
    running one, or a receive from the channel of [s]. *)
Inductive Label :=
  | LSubscribe (id : Z) (s : nat)
  | LPublish (t : nat) (e : SubmissionEvent) (order : list nat)
  | LUnsubscribe (t : nat) (s : nat)
  | LStep (t : nat)
  | LReceive (s : nat).

(** [Publish] copies the bucket in the map's iteration order, which is any. *)
Definition iterates (order : list nat) (b : gset nat) : Prop := NoDup order /\ list_to_set order = b.
#[export] Instance iterates_dec order b : Decision (iterates order b).
Proof. unfold iterates. apply _. Defined.

Definition perform (l : Label) (h : Hub) : Outcome :=
  match l with
  | LSubscribe id s =>
      if decide (h.(heap) !! s = None) then Next (Subscribe id s h) [] else Blocked
  | LPublish t e order =>
      if decide (h.(tasks) !! t = None /\ iterates order (bucket h e.(EvSubmissionID)))
      then Next (with_task t (Some (TPublish e order)) h) [] else Blocked
  | LUnsubscribe t s =>
      match h.(heap) !! s with
      | None => Blocked
      | Some x =>
          if x.(once_done) then Next h []
          else if decide (h.(tasks) !! t = None)
          then Next (with_sub s (set_once x) (with_task t (Some (TRemove s)) h)) [] else Blocked
      end
  | LStep t => match h.(tasks) !! t with None => Blocked | Some k => advance t k h end
  | LReceive s =>
      match h.(heap) !! s with
      | None => Blocked
      | Some x =>
          match x.(ch) with
          | e :: r => Next (with_sub s (set_ch x r) h) [Received s e]
          | [] => if x.(ch_closed) then Next h [Ended s] else Blocked
          end
      end
  end.

(** Runs from a hub, with what was observed. *)
Inductive run : Hub -> list Label -> Hub -> list Obs -> Prop :=
  | run_nil h : run h [] h []
  | run_snoc h ls h1 o1 l h2 o2 :
      run h ls h1 o1 -> perform l h1 = Next h2 o2 -> run h (ls ++ [l]) h2 (o1 ++ o2).

Definition reachable (h : Hub) : Prop := exists ls o, run NewSubmissionEventHub ls h o.

(** ** The invariant *)

(** The mutex a goroutine holds. *)
Definition holds (k : Task) : option nat :=
  match k with
  | TFirst _ s _ | TDrain _ s _ | TSecond _ s _ | TClose s | TClosing s => Some s
  | TPublish _ _ | TRemove _ | TCloseWait _ => None
  end.

(** The subscriber a goroutine is unsubscribing. *)
Definition unsubscribing (k : Task) : option nat :=
  match k with
  | TRemove s | TCloseWait s | TClose s | TClosing s => Some s
  | _ => None
  end.

(** The pointers a goroutine still uses. *)
Definition refs (k : Task) : list nat :=
  match k with
  | TPublish _ todo => todo
  | TFirst _ s todo | TDrain _ s todo | TSecond _ s todo => s :: todo
  | TRemove s | TCloseWait s | TClose s | TClosing s => [s]
  end.

(** What the holder of the mutex knows about the subscriber. *)
Definition knows (k : Task) (x : Subscriber) : Prop :=
  match k with
  | TFirst _ _ _ | TDrain _ _ _ | TClose _ => x.(closed) = false
  | TSecond _ _ _ => x.(closed) = false /\ x.(ch) = []
  | TClosing _ => x.(closed) = true /\ x.(ch_closed) = false
  | TPublish _ _ | TRemove _ | TCloseWait _ => True
  end.

Definition subscriber_ok (x : Subscriber) : Prop :=
  (length x.(ch) <= submissionEventBufferSize)%nat
  /\ (x.(ch_closed) = true -> x.(closed) = true)
  /\ (x.(closed) = true -> x.(once_done) = true).

(** A subscription the hub still delivers to: [unsubscribe] was not called or
    has not removed it yet. *)
Definition subscribed (h : Hub) (s : nat) (x : Subscriber) : Prop :=
  x.(once_done) = false \/ exists t, h.(tasks) !! t = Some (TRemove s).

Record hub_ok (h : Hub) : Prop := {
  ok_refs : forall t k s, h.(tasks) !! t = Some k -> s ∈ refs k -> is_Some (h.(heap) !! s);
  ok_locks : forall s x t, h.(heap) !! s = Some x ->
    x.(sub_mu) = Some t <-> exists k, h.(tasks) !! t = Some k /\ holds k = Some s;
  ok_knows : forall t k s x, h.(tasks) !! t = Some k -> holds k = Some s -> h.(heap) !! s = Some x -> knows k x;
  ok_subs : forall s x, h.(heap) !! s = Some x -> subscriber_ok x;
  ok_once : forall t k s x, h.(tasks) !! t = Some k -> unsubscribing k = Some s ->
    h.(heap) !! s = Some x -> x.(once_done) = true;
  ok_single : forall t1 t2 k1 k2 s, h.(tasks) !! t1 = Some k1 -> h.(tasks) !! t2 = Some k2 ->
    unsubscribing k1 = Some s -> unsubscribing k2 = Some s -> t1 = t2;
  ok_buckets : forall id s, s ∈ bucket h id <->
    exists x, h.(heap) !! s = Some x /\ x.(sub_id) = id /\ subscribed h s x;
  ok_nonempty : forall id, h.(subscribers) !! id <> Some ∅;
}.

Lemma holds_refs k s : holds k = Some s -> s ∈ refs k.
Proof. destruct k; cbn; intros [= ->]; set_solver. Qed.

Lemma unsubscribing_refs k s : unsubscribing k = Some s -> s ∈ refs k.
Proof. destruct k; cbn; intros [= ->]; set_solver. Qed.

Lemma lookup_task h t k t' : (with_task t k h).(tasks) !! t' = if decide (t = t') then k else h.(tasks) !! t'.
Proof.
  cbn. case_decide as E; [subst; by rewrite lookup_partial_alter_eq|by rewrite lookup_partial_alter_ne].
Qed.

Lemma lookup_sub h s x s' : (with_sub s x h).(heap) !! s' = if decide (s = s') then Some x else h.(heap) !! s'.
Proof. cbn. case_decide as E; [subst; by rewrite lookup_insert_eq|by rewrite lookup_insert_ne]. Qed.

(** ** One goroutine moves

    Every step replaces the task of one goroutine and at most one subscriber.
    [moves h t k s x x'] collects what such a step has to respect. *)

Definition task_is (o : option Task) (f : Task -> option nat) : option nat := o ≫= f.

Record moves (h : Hub) (t : nat) (k : option Task) (s : nat) (x x' : Subscriber) : Prop := {
  mv_heap : h.(heap) !! s = Some x;
  mv_id : x'.(sub_id) = x.(sub_id);
  mv_ok : subscriber_ok x';
  mv_refs : forall k', k = Some k' -> forall r, r ∈ refs k' -> is_Some (h.(heap) !! r);
  mv_other : forall t', t' <> t -> x'.(sub_mu) = Some t' <-> x.(sub_mu) = Some t';
  mv_self : x'.(sub_mu) = Some t <-> task_is k holds = Some s;
  mv_only : forall r, r <> s -> task_is k holds <> Some r /\ task_is (h.(tasks) !! t) holds <> Some r;
  mv_knows : forall t' k', t' <> t -> h.(tasks) !! t' = Some k' -> holds k' = Some s -> knows k' x -> knows k' x';
  mv_knows' : forall k', k = Some k' -> holds k' = Some s -> knows k' x';
  mv_once : x.(once_done) = true -> x'.(once_done) = true;
  mv_once' : task_is k unsubscribing = Some s -> x'.(once_done) = true;
  mv_unsub : forall r, task_is k unsubscribing = Some r -> r = s;
  mv_single : task_is k unsubscribing = Some s ->
    x.(once_done) = false \/ task_is (h.(tasks) !! t) unsubscribing = Some s;
}.

(** The subscriptions the step leaves in the buckets. *)
Definition step_hub (h : Hub) t k s x' subs : Hub :=
  mkHub subs (<[s := x']> h.(heap)) (partial_alter (fun _ => k) t h.(tasks)).

Section step_hub.
Context (h : Hub) (t : nat) (k : option Task) (s : nat) (x x' : Subscriber) (subs : gmap Z (gset nat)).
Context (OK : hub_ok h) (MV : moves h t k s x x').
Let h' := step_hub h t k s x' subs.

Lemma step_task t' k' : h'.(tasks) !! t' = Some k' ->
  (t' = t /\ k = Some k') \/ (t' <> t /\ h.(tasks) !! t' = Some k').
Proof.
  cbn. destruct (decide (t = t')) as [<-|N].
  - rewrite lookup_partial_alter_eq. naive_solver.
  - rewrite lookup_partial_alter_ne by done. naive_solver.
Qed.

Lemma step_sub s' y : h'.(heap) !! s' = Some y -> (s' = s /\ y = x') \/ (s' <> s /\ h.(heap) !! s' = Some y).
Proof.
  cbn. intros [[<- <-]|[? ?]]%lookup_insert_Some; [by left|by right].
Qed.

Lemma step_is_Some s' : is_Some (h.(heap) !! s') -> is_Some (h'.(heap) !! s').
Proof. intros. cbn. apply lookup_insert_is_Some. destruct (decide (s = s')); [by left|by right]. Qed.

Lemma step_ok_refs t' k' r : h'.(tasks) !! t' = Some k' -> r ∈ refs k' -> is_Some (h'.(heap) !! r).
Proof.
  intros [[-> E]|[_ E]]%step_task Hr; apply step_is_Some.
  - by eapply (mv_refs _ _ _ _ _ _ MV).
  - by eapply (ok_refs _ OK).
Qed.

Lemma step_ok_locks s' y t' : h'.(heap) !! s' = Some y ->
  y.(sub_mu) = Some t' <-> exists k', h'.(tasks) !! t' = Some k' /\ holds k' = Some s'.
Proof.
  intros Hy. pose proof (mv_heap _ _ _ _ _ _ MV) as Hx.
  assert (E : forall t' r, (exists k', h'.(tasks) !! t' = Some k' /\ holds k' = Some r)
    <-> if decide (t = t') then task_is k holds = Some r else exists k', h.(tasks) !! t' = Some k' /\ holds k' = Some r).
  { intros t0 r. cbn. case_decide as D.
    - subst t0. rewrite lookup_partial_alter_eq. unfold task_is. destruct k; cbn; naive_solver.
    - by rewrite lookup_partial_alter_ne. }
  rewrite E. apply step_sub in Hy as [[-> ->]|[N Hy]]; case_decide as D.
  - subst t'. apply (mv_self _ _ _ _ _ _ MV).
  - rewrite (mv_other _ _ _ _ _ _ MV) by congruence. by apply (ok_locks _ OK).
  - subst t'. destruct (mv_only _ _ _ _ _ _ MV _ N) as [O1 O2].
    rewrite (ok_locks _ OK) by done. split; [|done]. intros (k0 & Hk & ?). rewrite Hk in O2. done.
  - by apply (ok_locks _ OK).
Qed.

Lemma step_ok_knows t' k' s' y : h'.(tasks) !! t' = Some k' -> holds k' = Some s' ->
  h'.(heap) !! s' = Some y -> knows k' y.
Proof.
  pose proof (mv_heap _ _ _ _ _ _ MV) as Hx.
  intros Hk Hh Hy. apply step_sub in Hy as [[-> ->]|[N Hy]]; apply step_task in Hk as [[-> E]|[N' E]].
  - by apply (mv_knows' _ _ _ _ _ _ MV).
  - eapply (mv_knows _ _ _ _ _ _ MV); eauto using ok_knows.
  - destruct (mv_only _ _ _ _ _ _ MV _ N) as [O1 _]. by rewrite E in O1.
  - by eapply ok_knows.
Qed.

Lemma step_ok_once t' k' s' y : h'.(tasks) !! t' = Some k' -> unsubscribing k' = Some s' ->
  h'.(heap) !! s' = Some y -> y.(once_done) = true.
Proof.
  pose proof (mv_heap _ _ _ _ _ _ MV) as Hx.
  intros Hk Hu Hy. apply step_sub in Hy as [[-> ->]|[N Hy]]; apply step_task in Hk as [[-> E]|[N' E]].
  - apply (mv_once' _ _ _ _ _ _ MV). by rewrite E.
  - apply (mv_once _ _ _ _ _ _ MV). by eapply ok_once.
  - rewrite E in MV. by pose proof (mv_unsub _ _ _ _ _ _ MV _ Hu).
  - by eapply ok_once.
Qed.

Lemma step_ok_single t1 t2 k1 k2 r : h'.(tasks) !! t1 = Some k1 -> h'.(tasks) !! t2 = Some k2 ->
  unsubscribing k1 = Some r -> unsubscribing k2 = Some r -> t1 = t2.
Proof.
  assert (forall t0 k0 k3, t0 <> t -> h.(tasks) !! t0 = Some k0 -> k = Some k3 ->
    unsubscribing k0 = Some r -> unsubscribing k3 = Some r -> t0 = t) as G.
  { intros t0 k0 k3 N H0 E U0 U3. rewrite E in MV. pose proof (mv_unsub _ _ _ _ _ _ MV _ U3) as ->.
    destruct (mv_single _ _ _ _ _ _ MV U3) as [F|F].
    - pose proof (ok_once _ OK _ _ _ _ H0 U0 (mv_heap _ _ _ _ _ _ MV)). congruence.
    - unfold task_is in F. destruct (h.(tasks) !! t) as [kt|] eqn:Et; [|done].
      by eapply (ok_single _ OK). }
  intros [[-> E1]|[N1 E1]]%step_task [[-> E2]|[N2 E2]]%step_task U1 U2; eauto.
  - symmetry. eauto.
  - by eapply (ok_single _ OK).
Qed.

(** The buckets still list exactly the subscriptions. *)
Lemma step_hub_ok :
  (forall id r, r ∈ bucket h' id <->
     exists y, h'.(heap) !! r = Some y /\ y.(sub_id) = id /\ subscribed h' r y) ->
  (forall id, subs !! id <> Some ∅) -> hub_ok h'.
Proof.
  intros B N. split; eauto using step_ok_refs, step_ok_knows, step_ok_once, step_ok_single.
  - intros. by apply step_ok_locks.
  - intros s' y [[-> ->]|[_ H]]%step_sub; [apply (mv_ok _ _ _ _ _ _ MV)|by eapply ok_subs].
Qed.

(** A step that neither subscribes nor removes. *)
Lemma step_same_buckets :
  subs = h.(subscribers) -> x'.(once_done) = x.(once_done) ->
  (forall r, h.(tasks) !! t <> Some (TRemove r)) -> (forall r, k <> Some (TRemove r)) ->
  hub_ok h'.
Proof.
  intros Es Ho N1 N2. apply step_hub_ok; [|rewrite Es; apply (ok_nonempty _ OK)].
  intros id r. replace (bucket h' id) with (bucket h id) by (unfold bucket; cbn; by rewrite Es).
  rewrite (ok_buckets _ OK).
  assert (R : forall r, (exists t', h'.(tasks) !! t' = Some (TRemove r)) <-> exists t', h.(tasks) !! t' = Some (TRemove r)).
  { intros r'. split; intros [t' H]; exists t'.
    - apply step_task in H as [[_ E]|[_ E]]; [by destruct (N2 r')|done].
    - cbn. destruct (decide (t = t')) as [<-|]; [by destruct (N1 r')|by rewrite lookup_partial_alter_ne]. }
  pose proof (mv_heap _ _ _ _ _ _ MV) as Hx. unfold subscribed. split.
  - intros (y & Hy & Hi & S). destruct (decide (r = s)) as [->|Ne].
    + exists x'. rewrite R. cbn. rewrite lookup_insert_eq. rewrite Hx in Hy. injection Hy as <-.
      by rewrite Ho, (mv_id _ _ _ _ _ _ MV).
    + exists y. rewrite R. cbn. by rewrite lookup_insert_ne.
  - intros (y & [[-> ->]|[Ne Hy]]%step_sub & Hi & S); rewrite R in S.
    + exists x. rewrite Ho in S. by rewrite <- (mv_id _ _ _ _ _ _ MV).
    + by exists y.
Qed.
End step_hub.

(** A goroutine that holds no mutex moves on without touching a subscriber. *)
Lemma retask_ok h t k0 k : hub_ok h -> h.(tasks) !! t = k0 ->
  task_is k0 holds = None -> task_is k holds = None -> task_is k unsubscribing = None ->
  (forall k' r, k = Some k' -> r ∈ refs k' -> is_Some (h.(heap) !! r)) ->
  (forall r, k0 <> Some (TRemove r)) -> hub_ok (with_task t k h).
Proof.
  intros OK E0 H0 H1 U R N.
  assert (L : forall t' k', (with_task t k h).(tasks) !! t' = Some k' ->
    (t' = t /\ k = Some k') \/ (t' <> t /\ h.(tasks) !! t' = Some k')).
  { intros t' k'. rewrite lookup_task. case_decide; naive_solver. }
  assert (Hno : forall k' r, k = Some k' -> holds k' <> Some r) by (intros k' r E; rewrite E in H1; cbn in H1; congruence).
  assert (Uno : forall k' r, k = Some k' -> unsubscribing k' <> Some r) by (intros k' r E; rewrite E in U; cbn in U; congruence).
  split.
  - intros t' k' r [[-> E]|[_ E]]%L Hr; [by eapply R|by eapply (ok_refs _ OK)].
  - intros s x t' Hx. rewrite (ok_locks _ OK) by done. split.
    + intros (k' & E & Hh). exists k'. rewrite lookup_task. case_decide; [|done]. subst t'.
      rewrite <- E0, E in H0. cbn in H0. congruence.
    + intros (k' & [[-> E]|[_ E]]%L & Hh); [by apply (Hno k' s) in E|eauto].
  - intros t' k' s x [[-> E]|[_ E]]%L Hh; [by apply (Hno k' s) in E|eauto using ok_knows].
  - apply (ok_subs _ OK).
  - intros t' k' s x [[-> E]|[_ E]]%L Hu; [by apply (Uno k' s) in E|eauto using ok_once].
  - intros t1 t2 k1 k2 s [[-> E1]|[_ E1]]%L [[-> E2]|[_ E2]]%L U1 U2; try done;
      [by apply (Uno k1 s) in E1|by apply (Uno k2 s) in E2|by eapply (ok_single _ OK)].
  - intros id s. change (bucket (with_task t k h) id) with (bucket h id). rewrite (ok_buckets _ OK).
    assert (S : forall x, subscribed (with_task t k h) s x <-> subscribed h s x).
    { intros x. unfold subscribed. f_equiv. f_equiv. intros t'. rewrite lookup_task.
      case_decide as D; [|done]. subst t'. split; [|intros E; by destruct (N s); rewrite <- E0].
      intros E. by apply (Uno _ s) in E. }
    split; intros (x & ? & ? & ?%S); eauto.
  - apply (ok_nonempty _ OK).
Qed.

Definition good (r : Outcome) : Prop :=
  match r with Blocked => True | Panic => False | Next h _ => hub_ok h end.

(** The holder of a mutex, or the goroutine that takes a free one, is the only
    one to know anything about the subscriber. *)
Lemma no_other_holder h t s x : hub_ok h -> h.(heap) !! s = Some x -> x.(sub_mu) = None \/ x.(sub_mu) = Some t ->
  forall t' k', t' <> t -> h.(tasks) !! t' = Some k' -> holds k' <> Some s.
Proof.
  intros OK Hx L t' k' N E H. assert (x.(sub_mu) = Some t') by (apply (ok_locks _ OK s); eauto).
  destruct L; congruence.
Qed.


(** The subscription a goroutine is about to remove. *)
Definition removing (k : Task) : option nat := match k with TRemove s => Some s | _ => None end.

Definition one_of (o : option nat) (s : nat) : Prop := o = None \/ o = Some s.

(** A step inside [trySendLatest] or [close], or on the mutex [s.mu]. *)
Section locked_step.
Context (h : Hub) (t : nat) (k0 : Task) (s : nat) (x : Subscriber).
Context (OK : hub_ok h) (E0 : h.(tasks) !! t = Some k0) (Hx : h.(heap) !! s = Some x).

(** The task after the step, the mutex and the channel it leaves. *)
Lemma locked_step k' x' :
  subscriber_ok x' -> (forall k1, k' = Some k1 -> holds k1 = Some s -> knows k1 x') ->
  one_of (holds k0) s -> one_of (task_is k' holds) s ->
  x.(sub_mu) = None \/ x.(sub_mu) = Some t ->
  x'.(sub_mu) = (if decide (task_is k' holds = Some s) then Some t else None) ->
  x'.(sub_id) = x.(sub_id) -> x'.(once_done) = x.(once_done) ->
  (forall k1, k' = Some k1 -> refs k1 ⊆ refs k0) ->
  task_is k' unsubscribing = None \/
    (task_is k' unsubscribing = Some s /\ unsubscribing k0 = Some s) ->
  removing k0 = None -> task_is k' removing = None ->
  hub_ok (with_sub s x' (with_task t k' h)).
Proof using OK E0 Hx.
  intros S K A Hh L L' I O R U N N'. pose proof (no_other_holder _ _ _ _ OK Hx L) as NH.
  change (hub_ok (step_hub h t k' s x' h.(subscribers))).
  eapply step_same_buckets; [done| |done|done| |].
  2:{ rewrite E0. intros r [= ->]. done. }
  2:{ intros r ->. done. }
  split; try done.
  - intros k1 E r Hr. eapply (ok_refs _ OK); [done|]. by apply (R k1).
  - intros t' Nt. rewrite L'. split; [case_decide; congruence|]. destruct L; congruence.
  - rewrite L'. case_decide; naive_solver.
  - intros r Nr. rewrite E0. unfold one_of in A, Hh. cbn. naive_solver congruence.
  - intros t' k1 Nt E H. by destruct (NH t' k1).
  - by rewrite O.
  - intros H. rewrite O. destruct U as [U|[_ U]]; [congruence|]. by eapply ok_once.
  - intros r H. destruct U as [U|[U _]]; congruence.
  - intros H. right. rewrite E0. destruct U as [U|[_ U]]; [congruence|done].
Qed.

(** ... that leaves the subscriber as it is. *)
Lemma locked_task k' :
  (forall k1, k' = Some k1 -> holds k1 = Some s -> knows k1 x) ->
  holds k0 = Some s -> task_is k' holds = Some s -> (forall k1, k' = Some k1 -> refs k1 ⊆ refs k0) ->
  task_is k' unsubscribing = None -> removing k0 = None -> task_is k' removing = None ->
  hub_ok (with_task t k' h).
Proof using OK E0 Hx.
  intros K A B R U N N'.
  assert (L : x.(sub_mu) = Some t) by (apply (ok_locks _ OK s); eauto).
  replace (with_task t k' h) with (with_sub s x (with_task t k' h)).
  - apply locked_step; auto; [by eapply ok_subs|by right|by right|]. by rewrite B, decide_True.
  - unfold with_sub, with_task. cbn. by rewrite insert_id.
Qed.
End locked_step.

Lemma subscriber_ok_ch x l o : subscriber_ok x -> (length l <= submissionEventBufferSize)%nat ->
  subscriber_ok (mkSub o l x.(ch_closed) x.(closed) x.(sub_id) x.(once_done)).
Proof. intros (_ & A & B) L. by split_and!. Qed.

(** The side conditions of [locked_step] that do not depend on the channel. *)
Ltac locked OK E Hx :=
  apply (locked_step _ _ _ _ _ OK E Hx); cbn;
  [ idtac | intros ? [= <-]; cbn | first [by left|by right] | first [by left|by right]
  | first [by left|by right] | first [by rewrite decide_True | by rewrite decide_False]
  | done | done | intros ? [= <-]; set_solver | first [by left|by right] | done | done ]; try done.

Lemma bucket_remove h id s id' : bucket (remove id s h) id' = if decide (id = id') then bucket h id ∖ {[s]} else bucket h id'.
Proof.
  unfold remove, bucket. destruct (h.(subscribers) !! id) as [b|] eqn:E; cbn.
  - case_bool_decide as B; cbn; case_decide as D; try subst id'.
    + rewrite lookup_delete_eq. cbn. by rewrite B.
    + by rewrite lookup_delete_ne.
    + by rewrite lookup_insert_eq.
    + by rewrite lookup_insert_ne.
  - case_decide as D; [subst id'|done]. rewrite E. cbn. set_solver.
Qed.

Lemma remove_nonempty h id s : (forall i, h.(subscribers) !! i <> Some ∅) ->
  forall i, (remove id s h).(subscribers) !! i <> Some ∅.
Proof.
  intros N i. unfold remove. destruct (h.(subscribers) !! id) as [b|] eqn:E; cbn; [|apply N].
  case_bool_decide as B; cbn.
  - rewrite lookup_delete_Some. intros [_ H]. by apply (N i).
  - intros [[_ H]|[_ H]]%lookup_insert_Some; [done|by apply (N i)].
Qed.

Lemma remove_ok h t s x : hub_ok h -> h.(tasks) !! t = Some (TRemove s) -> h.(heap) !! s = Some x ->
  hub_ok (remove x.(sub_id) s (with_task t (Some (TCloseWait s)) h)).
Proof.
  intros OK E Hx. set (h1 := with_task t _ h).
  assert (S : remove x.(sub_id) s h1 = step_hub h t (Some (TCloseWait s)) s x (remove x.(sub_id) s h1).(subscribers)).
  { unfold step_hub. rewrite insert_id by done. unfold remove. by destruct (h1.(subscribers) !! _). }
  rewrite S. pose proof (ok_once _ OK _ _ _ _ E eq_refl Hx) as Ho. eapply step_hub_ok; try done.
  - split; try done; try (by intros; simplify_eq); cbn.
    + by eapply ok_subs.
    + intros k' [= <-] r ->%list_elem_of_singleton. eauto.
    + rewrite (ok_locks _ OK _ _ _ Hx). split; [|done]. intros (k & Ek & H). rewrite E in Ek. by simplify_eq.
    + intros r _. by rewrite E.
    + by intros r [= ->].
    + intros _. right. by rewrite E.
  - intros id r. rewrite <- S. rewrite bucket_remove. change (bucket h1) with (bucket h).
    pose proof (ok_buckets _ OK) as B. unfold subscribed in *. rewrite S. cbn.
    assert (R : forall r, r <> s -> (exists t', partial_alter (fun _ => Some (TCloseWait s)) t h.(tasks) !! t' = Some (TRemove r))
      <-> exists t', h.(tasks) !! t' = Some (TRemove r)).
    { intros r0 N. split; intros [t' H]; exists t'; destruct (decide (t = t')) as [<-|]; cbn in *.
      - by rewrite lookup_partial_alter_eq in H.
      - by rewrite lookup_partial_alter_ne in H.
      - congruence.
      - by rewrite lookup_partial_alter_ne. }
    assert (R1 : ~ exists t', partial_alter (fun _ => Some (TCloseWait s)) t h.(tasks) !! t' = Some (TRemove s)).
    { intros [t' H]. destruct (decide (t = t')) as [<-|]; [by rewrite lookup_partial_alter_eq in H|].
      rewrite lookup_partial_alter_ne in H by done. by pose proof (ok_single _ OK _ _ _ _ _ E H eq_refl eq_refl). }
    rewrite insert_id by done. destruct (decide (r = s)) as [->|N].
    + split; [|intros (y & Hy & <- & [F|F]); congruence || by destruct R1].
      intros Hs. exfalso. case_decide as D; [set_solver|]. apply B in Hs as (y & Hy & Hi & _). congruence.
    + setoid_rewrite (R _ N). case_decide as D; [subst id|by rewrite B].
      rewrite elem_of_difference, B, elem_of_singleton. tauto.
  - apply remove_nonempty, (ok_nonempty _ OK).
Qed.

Lemma advance_ok h t k : hub_ok h -> h.(tasks) !! t = Some k -> good (advance t k h).
Proof.
  intros OK E.
  assert (AT : forall s f, s ∈ refs k -> (forall x, h.(heap) !! s = Some x -> good (f x)) ->
    good (match h.(heap) !! s with None => Panic | Some x => f x end)).
  { intros s f Hs Hf. destruct (ok_refs _ OK _ _ _ E Hs) as [x Hx]. rewrite Hx. by apply Hf. }
  assert (LK : forall s x, holds k = Some s -> h.(heap) !! s = Some x ->
    x.(sub_mu) = Some t /\ knows k x /\ subscriber_ok x).
  { intros s x H Hx. split_and!; [apply (ok_locks _ OK s); eauto|eauto using ok_knows|by eapply ok_subs]. }
  destruct k as [e [|s todo]|e s todo|e s todo|e s todo|s|s|s|s]; cbn in AT, LK |- *.
  - by eapply retask_ok.
  - apply AT; [set_solver|]. intros x Hx. destruct (x.(sub_mu)) eqn:L; [done|].
    pose proof (ok_subs _ OK _ _ Hx). destruct x.(closed) eqn:C; cbn.
    + eapply retask_ok; try done. intros k' r [= <-] ?. eapply (ok_refs _ OK); [done|]. set_solver.
    + locked OK E Hx.
  - apply AT; [set_solver|]. intros x Hx. destruct (LK s x eq_refl Hx) as (L & C & SO); pose proof SO as (B & CC & CO).
    destruct x.(ch_closed) eqn:D; [by rewrite CC in C|]. destruct (has_room x) eqn:Rm; cbn.
    + apply Nat.ltb_lt in Rm. locked OK E Hx. apply (subscriber_ok_ch _ _ None SO).
      cbn. rewrite length_app. unfold submissionEventBufferSize in *. cbn. lia.
    + apply (locked_task _ _ _ _ _ OK E Hx); cbn; try done; intros ? [= <-]; set_solver.
  - apply AT; [set_solver|]. intros x Hx. destruct (LK s x eq_refl Hx) as (L & C & SO); pose proof SO as (B & CC & CO).
    destruct x.(ch) as [|e0 r] eqn:Q; cbn.
    + apply (locked_task _ _ _ _ _ OK E Hx); cbn; try done; intros ? [= <-]; [done|set_solver].
    + locked OK E Hx; [|split; [done|]].
      * apply (subscriber_ok_ch _ _ _ SO). cbn in *. lia.
      * unfold submissionEventBufferSize in B. destruct r; [done|cbn in B; lia].
  - apply AT; [set_solver|]. intros x Hx. destruct (LK s x eq_refl Hx) as (L & (C & Q) & SO); pose proof SO as (B & CC & CO).
    destruct x.(ch_closed) eqn:D; [by rewrite CC in C|]. unfold has_room. rewrite Q. cbn.
    locked OK E Hx. by apply (subscriber_ok_ch _ _ None SO).
  - apply AT; [set_solver|]. intros x Hx. cbn. by apply remove_ok.
  - apply AT; [set_solver|]. intros x Hx. destruct (x.(sub_mu)) eqn:L; [done|].
    pose proof (ok_subs _ OK _ _ Hx). destruct x.(closed) eqn:C; cbn.
    + by eapply retask_ok.
    + locked OK E Hx.
  - apply AT; [set_solver|]. intros x Hx. destruct (LK s x eq_refl Hx) as (L & C & SO); pose proof SO as (B & CC & CO).
    locked OK E Hx.
    + split_and!; try done. intros _. exact (ok_once _ OK _ _ _ _ E eq_refl Hx).
    + split; [done|]. cbn. destruct x.(ch_closed); [by rewrite CC in C|done].
  - apply AT; [set_solver|]. intros x Hx. destruct (LK s x eq_refl Hx) as (L & (C & D) & SO); pose proof SO as (B & CC & CO).
    rewrite D. locked OK E Hx.
Qed.

(** ** Every call keeps the invariant *)

Lemma Subscribe_ok h id s : hub_ok h -> h.(heap) !! s = None -> hub_ok (Subscribe id s h).
Proof.
  intros OK Hs.
  assert (F : forall t k, h.(tasks) !! t = Some k -> s ∉ refs k).
  { intros t k E H. destruct (ok_refs _ OK _ _ _ E H). congruence. }
  assert (L : forall r y, (Subscribe id s h).(heap) !! r = Some y ->
    (r = s /\ y = mkSub None [] false false id false) \/ (r <> s /\ h.(heap) !! r = Some y)).
  { intros r y. cbn. intros [[<- <-]|[? ?]]%lookup_insert_Some; eauto. }
  split; cbn.
  - intros t k r E Hr. destruct (ok_refs _ OK _ _ _ E Hr) as [y Hy].
    rewrite lookup_insert_ne by congruence. eauto.
  - intros r y t [[-> ->]|[_ Hy]]%L; [|by apply (ok_locks _ OK)].
    cbn. split; [done|]. intros (k & E & H). by destruct (F t k E); apply holds_refs.
  - intros t k r y E H [[-> ->]|[_ Hy]]%L; [by destruct (F t k E); apply holds_refs|eauto using ok_knows].
  - intros r y [[-> ->]|[_ Hy]]%L; [|by eapply ok_subs]. split_and!; cbn; try done. lia.
  - intros t k r y E H [[-> ->]|[_ Hy]]%L; [|eauto using ok_once].
    by destruct (F t k E); apply unsubscribing_refs.
  - apply (ok_single _ OK).
  - intros i r. unfold bucket, subscribed. cbn. pose proof (ok_buckets _ OK i r) as B.
    unfold bucket, subscribed in B. destruct (decide (r = s)) as [->|N].
    + rewrite lookup_insert_eq. destruct (decide (id = i)) as [->|Ni].
      * rewrite lookup_insert_eq. cbn. split; [intros _; eexists; eauto|set_solver].
      * rewrite lookup_insert_ne by done. rewrite B. split; [|naive_solver].
        intros (y & Hy & _). congruence.
    + rewrite (lookup_insert_ne h.(heap)) by done. destruct (decide (id = i)) as [->|Ni].
      * rewrite lookup_insert_eq. cbn. rewrite <- B. set_solver.
      * by rewrite lookup_insert_ne.
  - intros i. intros [[_ H]|[_ H]]%lookup_insert_Some; [set_solver|by apply (ok_nonempty _ OK i)].
Qed.

Lemma Unsubscribe_ok h t s x : hub_ok h -> h.(heap) !! s = Some x -> x.(once_done) = false ->
  h.(tasks) !! t = None -> hub_ok (with_sub s (set_once x) (with_task t (Some (TRemove s)) h)).
Proof.
  intros OK Hx Ho Et.
  change (hub_ok (step_hub h t (Some (TRemove s)) s (set_once x) h.(subscribers))). eapply step_hub_ok; try done.
  - split; try done; try (by intros; simplify_eq); cbn.
    + destruct (ok_subs _ OK _ _ Hx) as (A & B & _). by split_and!.
    + intros k' [= <-] r ->%list_elem_of_singleton. eauto.
    + rewrite (ok_locks _ OK _ _ _ Hx), Et. naive_solver.
    + intros r _. by rewrite Et.
    + by intros r [= ->].
    + by left.
  - intros id r. pose proof (ok_buckets _ OK id r) as B. unfold bucket, subscribed in *. cbn. rewrite B.
    assert (T : forall t' r', partial_alter (fun _ => Some (TRemove s)) t h.(tasks) !! t' = Some (TRemove r')
      <-> (t' = t /\ r' = s) \/ h.(tasks) !! t' = Some (TRemove r')).
    { intros t' r'. destruct (decide (t = t')) as [<-|N]; [rewrite lookup_partial_alter_eq|rewrite lookup_partial_alter_ne by done].
      - split; [intros [= <-]; by left|]. intros [[_ ->]|H]; congruence.
      - naive_solver. }
    setoid_rewrite T. destruct (decide (r = s)) as [->|N].
    + rewrite lookup_insert_eq. split.
      * intros (y & Hy & Hi & _). assert (y = x) as -> by congruence. eexists. split_and!; [done|done|]. right. eauto.
      * intros (y & [= <-] & Hi & _). cbn in *. eauto 6.
    + rewrite lookup_insert_ne by done. naive_solver.
  - apply (ok_nonempty _ OK).
Qed.

Lemma Receive_ok h s x e r : hub_ok h -> h.(heap) !! s = Some x -> x.(ch) = e :: r -> hub_ok (with_sub s (set_ch x r) h).
Proof.
  intros OK Hx Q. pose proof (ok_subs _ OK _ _ Hx) as SO.
  assert (L : forall r' y, (with_sub s (set_ch x r) h).(heap) !! r' = Some y ->
    exists y0, h.(heap) !! r' = Some y0 /\ y.(sub_mu) = y0.(sub_mu) /\ y.(sub_id) = y0.(sub_id)
      /\ y.(once_done) = y0.(once_done) /\ subscriber_ok y /\ forall k, knows k y0 -> knows k y).
  { intros r' y. rewrite lookup_sub. case_decide as D; [subst r'; intros [= <-]|].
    - exists x. split_and!; try done.
      + apply (subscriber_ok_ch _ _ _ SO). destruct SO as (B & _). rewrite Q in B. cbn in B. lia.
      + intros k. destruct k; cbn; try done. intros [? E]. congruence.
    - intros Hy. exists y. split_and!; try done. by eapply ok_subs. }
  split.
  - intros t k r' E H. destruct (ok_refs _ OK _ _ _ E H). rewrite lookup_sub. case_decide; eauto.
  - intros r' y t (y0 & H0 & Em & _)%L. rewrite Em. by apply (ok_locks _ OK).
  - intros t k r' y E H (y0 & H0 & _ & _ & _ & _ & K)%L. eauto using ok_knows.
  - by intros r' y (y0 & _ & _ & _ & _ & S & _)%L.
  - intros t k r' y E H (y0 & H0 & _ & _ & -> & _)%L. eauto using ok_once.
  - apply (ok_single _ OK).
  - intros id r'. change (bucket (with_sub s (set_ch x r) h) id) with (bucket h id). rewrite (ok_buckets _ OK).
    unfold subscribed. rewrite lookup_sub. case_decide as D; [subst r'|done].
    split; intros (y & Hy & ?); simplify_eq/=; eauto.
  - apply (ok_nonempty _ OK).
Qed.

Lemma perform_ok l h : hub_ok h -> good (perform l h).
Proof.
  intros OK. destruct l as [id s|t e order|t s|t|s]; cbn.
  - case_decide; [by apply Subscribe_ok|done].
  - case_decide as D; [|done]. destruct D as (Et & _ & B). eapply retask_ok; try done; rewrite ?Et; try done.
    intros k' r [= <-] Hr. cbn in Hr. assert (r ∈ bucket h e.(EvSubmissionID)) as Hb by (rewrite <- B; set_solver).
    apply (ok_buckets _ OK) in Hb as (x & Hx & _). eauto.
  - destruct (h.(heap) !! s) as [x|] eqn:Hx; [|done]. destruct x.(once_done) eqn:O; [done|].
    case_decide; [by apply Unsubscribe_ok|done].
  - destruct (h.(tasks) !! t) as [k|] eqn:E; [by apply advance_ok|done].
  - destruct (h.(heap) !! s) as [x|] eqn:Hx; [|done].
    destruct x.(ch) as [|e r] eqn:Q; [by destruct x.(ch_closed)|by eapply Receive_ok].
Qed.

Lemma run_ok h ls h' o : run h ls h' o -> hub_ok h -> hub_ok h'.
Proof.
  intros R OK. induction R as [|h ls h1 o1 l h2 o2 R IH E]; [done|].
  specialize (IH OK). pose proof (perform_ok l h1 IH) as G. by rewrite E in G.
Qed.

Lemma new_hub_ok : hub_ok NewSubmissionEventHub.
Proof.
  split; cbn; intros; try (by rewrite lookup_empty in *); try set_solver.
Qed.

Lemma hub_reachable_ok h : reachable h -> hub_ok h.
Proof. intros (ls & o & R). eapply run_ok; [done|apply new_hub_ok]. Qed.
