(* ===== verification/HubHistory.v ===== *)
(** What the event hub guarantees to publishers and streams: the history of
    every subscription (a first-in-first-out channel in which a new event
    replaces an unread one), that a finished [Publish] has served every
    subscription it found, and that nobody inside the hub waits for a reader.
    The transition system and its invariant are in EventHub.v. *)

From S2P Require Import Prelude SubmissionDomain EventHub.

(** ** What a subscriber receives *)

Definition on_sub (s : nat) (s' : nat) (e : SubmissionEvent) : option SubmissionEvent :=
  if decide (s = s') then Some e else None.

(** The events the channel of [s] accepted, in order; the ones taken out of it
    again, by the receiver or for a later event; the received ones. *)
Definition sent_to (s : nat) : list Obs -> list SubmissionEvent :=
  omap (fun ob => match ob with Sent s' e => on_sub s s' e | _ => None end).
Definition taken_from (s : nat) : list Obs -> list SubmissionEvent :=
  omap (fun ob => match ob with Received s' e | Discarded s' e => on_sub s s' e | _ => None end).
Definition received_by (s : nat) : list Obs -> list SubmissionEvent :=
  omap (fun ob => match ob with Received s' e => on_sub s s' e | _ => None end).

(** A publisher that has just emptied the channel and holds the mutex. *)
Definition refilling (h : Hub) (s : nat) : Prop :=
  exists t e todo, h.(tasks) !! t = Some (TSecond e s todo).

(** The history of one subscriber. *)
Record history (s : nat) (x : Subscriber) (h : Hub) (o : list Obs) : Prop := {
  hist_fifo : taken_from s o ++ x.(ch) = sent_to s o;
  hist_latest : ~ refilling h s -> last (received_by s o ++ x.(ch)) = last (sent_to s o);
}.

Record traced (h : Hub) (o : list Obs) : Prop := {
  tr_new : forall s, h.(heap) !! s = None -> sent_to s o = [] /\ taken_from s o = [] /\ received_by s o = [];
  tr_hist : forall s x, h.(heap) !! s = Some x -> history s x h o;
  tr_lost : forall s e, Lost s e ∉ o;
}.

Lemma sent_to_app s o1 o2 : sent_to s (o1 ++ o2) = sent_to s o1 ++ sent_to s o2.
Proof. apply omap_app. Qed.
Lemma taken_from_app s o1 o2 : taken_from s (o1 ++ o2) = taken_from s o1 ++ taken_from s o2.
Proof. apply omap_app. Qed.
Lemma received_by_app s o1 o2 : received_by s (o1 ++ o2) = received_by s o1 ++ received_by s o2.
Proof. apply omap_app. Qed.

Lemma on_sub_eq s e : on_sub s s e = Some e.
Proof. unfold on_sub. by rewrite decide_True. Qed.
Lemma on_sub_ne s s' e : s <> s' -> on_sub s s' e = None.
Proof. intros. unfold on_sub. by rewrite decide_False. Qed.

(** What one step does to the channel content [q] of [s]. *)
Inductive ch_step (s : nat) (h h' : Hub) (q : list SubmissionEvent) (o : list Obs) : list SubmissionEvent -> Prop :=
  | ch_quiet : sent_to s o = [] -> taken_from s o = [] -> received_by s o = [] ->
      (refilling h s -> refilling h' s) -> ch_step s h h' q o q
  | ch_send e : o = [Sent s e] -> ch_step s h h' q o (q ++ [e])
  | ch_receive e r : q = e :: r -> o = [Received s e] -> (refilling h s -> refilling h' s) -> ch_step s h h' q o r
  | ch_discard e r : q = e :: r -> o = [Discarded s e] -> refilling h' s -> ch_step s h h' q o r.

Lemma ch_step_history s h h' o o2 x x' : ch_step s h h' x.(ch) o2 x'.(ch) -> history s x h o -> history s x' h' (o ++ o2).
Proof.
  intros S [F L]. split; rewrite sent_to_app, ?taken_from_app, ?received_by_app.
  - rewrite <- F. inversion S as [E1 E2 _ _|e ->|e r Q -> _|e r Q -> _]; cbn.
    + by rewrite E1, E2, !app_nil_r.
    + by rewrite on_sub_eq, app_nil_r, (assoc_L app).
    + by rewrite Q, on_sub_eq, app_nil_r, <- (assoc_L app).
    + by rewrite Q, on_sub_eq, app_nil_r, <- (assoc_L app).
  - intros R. inversion S as [E1 _ E3 K|e ->|e r Q -> K|e r Q -> K]; cbn.
    + rewrite E1, E3, !app_nil_r. apply L. auto.
    + by rewrite on_sub_eq, app_nil_r, (assoc_L app), !last_snoc.
    + rewrite on_sub_eq, app_nil_r, <- (assoc_L app). cbn. rewrite <- Q. apply L. auto.
    + done.
Qed.

Lemma refilling_keep h t k0 k' s : h.(tasks) !! t = k0 -> (forall e todo, k0 <> Some (TSecond e s todo)) ->
  refilling h s -> refilling (with_task t k' h) s.
Proof.
  intros E N (t' & e & todo & H). exists t', e, todo. rewrite lookup_task. case_decide; [|done].
  subst. by destruct (N e todo).
Qed.

Lemma omap_none {A B} (f : A -> option B) l : (forall x, x ∈ l -> f x = None) -> omap f l = [].
Proof.
  induction l as [|x l IH]; intros H; [done|]. cbn. rewrite (H x) by left. apply IH. intros y Hy. apply H. by right.
Qed.

(** A step that leaves the subscriber [s] alone, or its channel. *)
Definition nothing_about (s : nat) (o : list Obs) : Prop :=
  forall e, Sent s e ∉ o /\ Received s e ∉ o /\ Discarded s e ∉ o.

Lemma nothing_seen s o : nothing_about s o -> sent_to s o = [] /\ taken_from s o = [] /\ received_by s o = [].
Proof.
  intros N. split_and!.
  all: apply omap_none; intros [s' e|s' e|s' e|s' e|s'] H; try done; unfold on_sub; case_decide; try done; subst; by destruct (N e) as (? & ? & ?).
Qed.

Ltac nothing := unfold nothing_about; set_solver.

Lemma quiet_on s h h' q o : nothing_about s o -> (refilling h s -> refilling h' s) -> ch_step s h h' q o q.
Proof. intros (? & ? & ?)%nothing_seen R. by apply ch_quiet. Qed.

(** A step of [t] at the subscriber [s0], seen from [s]. *)
Section seen_from.
Context (h : Hub) (t : nat) (k' : option Task) (s s0 : nat) (x y y' : Subscriber) (o : list Obs).
Context (Hx : h.(heap) !! s = Some x) (Hy : h.(heap) !! s0 = Some y).
Let h' := with_sub s0 y' (with_task t k' h).

Lemma other_sub : s0 <> s -> nothing_about s o ->
  (refilling h s -> refilling h' s) -> exists x', h'.(heap) !! s = Some x' /\ ch_step s h h' x.(ch) o x'.(ch).
Proof using Hx.
  intros N O R. exists x. split; [|by apply quiet_on]. unfold h'. rewrite lookup_sub. by case_decide.
Qed.

Lemma this_sub : s0 = s -> (x = y -> ch_step s h h' y.(ch) o y'.(ch)) ->
  exists x', h'.(heap) !! s = Some x' /\ ch_step s h h' x.(ch) o x'.(ch).
Proof using Hx Hy.
  intros <- S. exists y'. assert (x = y) as -> by congruence. split; [|by apply S].
  unfold h'. rewrite lookup_sub. by case_decide.
Qed.

Lemma quiet_sub : y'.(ch) = y.(ch) -> nothing_about s o ->
  (refilling h s -> refilling h' s) -> exists x', h'.(heap) !! s = Some x' /\ ch_step s h h' x.(ch) o x'.(ch).
Proof using Hx Hy.
  intros C O R. destruct (decide (s0 = s)); [|by apply other_sub].
  apply this_sub; [done|]. intros _. rewrite C. by apply quiet_on.
Qed.
End seen_from.

Lemma advance_ch t k h h' o s x : hub_ok h -> h.(tasks) !! t = Some k -> advance t k h = Next h' o ->
  h.(heap) !! s = Some x -> exists x', h'.(heap) !! s = Some x' /\ ch_step s h h' x.(ch) o x'.(ch).
Proof.
  intros OK E A Hx.
  assert (R : forall k', (forall e todo, k <> TSecond e s todo) -> refilling h s -> refilling (with_task t k' h) s).
  { intros k' N. eapply refilling_keep; [exact E|]. intros e todo [= ->]. by destruct (N e todo). }
  destruct k as [e [|s0 todo]|e s0 todo|e s0 todo|e s0 todo|s0|s0|s0|s0]; cbn in A.

  - injection A as <- <-. exists x. split; [done|]. apply quiet_on; [nothing|]. by apply R.
  - destruct (h.(heap) !! s0) as [y|] eqn:Hy; [|done]. destruct y.(sub_mu); [done|].
    destruct y.(closed); injection A as <- <-.
    + exists x. split; [done|]. apply quiet_on; [nothing|]. by apply R.
    + eapply (quiet_sub _ _ _ _ _ _ _ _ _ Hx Hy); try done; [nothing|]. by apply R.
  - destruct (h.(heap) !! s0) as [y|] eqn:Hy; [|done]. destruct y.(ch_closed); [done|].
    destruct (has_room y); injection A as <- <-.
    + destruct (decide (s0 = s)) as [->|]; [eapply (this_sub _ _ _ _ _ _ _ _ _ Hx Hy); try done; intros _; by apply ch_send|].
      eapply (other_sub _ _ _ _ _ _ _ _ Hx); try done; [nothing|]. by apply R.
    + exists x. split; [done|]. apply quiet_on; [nothing|]. by apply R.
  - destruct (h.(heap) !! s0) as [y|] eqn:Hy; [|done]. destruct y.(ch) as [|e0 r] eqn:Q; injection A as <- <-.
    + exists x. split; [done|]. apply quiet_on; [nothing|]. by apply R.
    + destruct (decide (s0 = s)) as [->|]; [eapply (this_sub _ _ _ _ _ _ _ _ _ Hx Hy); try done; intros _; eapply ch_discard; try done|].
      * exists t, e, todo. cbn. by rewrite lookup_partial_alter_eq.
      * eapply (other_sub _ _ _ _ _ _ _ _ Hx); try done; [nothing|]. by apply R.
  - destruct (h.(heap) !! s0) as [y|] eqn:Hy; [|done]. destruct y.(ch_closed); [done|].
    destruct (ok_knows _ OK _ _ _ _ E eq_refl Hy) as [_ Q]. unfold has_room in A. rewrite Q in A. cbn in A.
    injection A as <- <-. destruct (decide (s0 = s)) as [->|].
    + eapply (this_sub _ _ _ _ _ _ _ _ _ Hx Hy); try done. intros _. rewrite Q. by apply (ch_send _ _ _ []).
    + eapply (other_sub _ _ _ _ _ _ _ _ Hx); try done; [nothing|]. apply R. congruence.
  - destruct (h.(heap) !! s0) as [y|] eqn:Hy; [|done]. injection A as <- <-. exists x.
    unfold remove. destruct (_ !! y.(sub_id)); (split; [done|]; apply quiet_on; [nothing|by apply R]).
  - destruct (h.(heap) !! s0) as [y|] eqn:Hy; [|done]. destruct y.(sub_mu); [done|].
    destruct y.(closed); injection A as <- <-.
    + exists x. split; [done|]. apply quiet_on; [nothing|]. by apply R.
    + eapply (quiet_sub _ _ _ _ _ _ _ _ _ Hx Hy); try done; [nothing|]. by apply R.
  - destruct (h.(heap) !! s0) as [y|] eqn:Hy; [|done]. injection A as <- <-.
    eapply (quiet_sub _ _ _ _ _ _ _ _ _ Hx Hy); try done; [nothing|]. by apply R.
  - destruct (h.(heap) !! s0) as [y|] eqn:Hy; [|done]. destruct y.(ch_closed); [done|]. injection A as <- <-.
    eapply (quiet_sub _ _ _ _ _ _ _ _ _ Hx Hy); try done; [nothing|]. by apply R.
Qed.

Lemma perform_ch l h h' o s x : hub_ok h -> perform l h = Next h' o -> h.(heap) !! s = Some x ->
  exists x', h'.(heap) !! s = Some x' /\ ch_step s h h' x.(ch) o x'.(ch).
Proof.
  intros OK A Hx. destruct l as [id s0|t e order|t s0|t|s0]; cbn in A.
  - case_decide as D; [|done]. injection A as <- <-. exists x. split; [|by apply quiet_on; [nothing|]].
    cbn. rewrite lookup_insert_ne; congruence.
  - case_decide as D; [|done]. injection A as <- <-. exists x. split; [done|]. apply quiet_on; [nothing|].
    eapply refilling_keep; [apply D|done].
  - destruct (h.(heap) !! s0) as [y|] eqn:Hy; [|done]. destruct y.(once_done).
    + injection A as <- <-. exists x. split; [done|]. by apply quiet_on; [nothing|].
    + case_decide as D; [|done]. injection A as <- <-.
      eapply (quiet_sub _ _ _ _ _ _ _ _ _ Hx Hy); try done; [nothing|]. by eapply (refilling_keep _ _ _ _ _ D).
  - destruct (h.(tasks) !! t) as [k|] eqn:E; [by eapply advance_ch|done].
  - destruct (h.(heap) !! s0) as [y|] eqn:Hy; [|done]. destruct y.(ch) as [|e r] eqn:Q.
    + destruct y.(ch_closed); [|done]. injection A as <- <-. exists x. split; [done|]. by apply quiet_on; [nothing|].
    + injection A as <- <-. destruct (decide (s0 = s)) as [->|N].
      * assert (x = y) as -> by congruence. exists (set_ch y r). rewrite lookup_sub, decide_True by done.
        split; [done|]. rewrite Q. by eapply ch_receive.
      * exists x. rewrite lookup_sub, decide_False by done. split; [done|]. by apply quiet_on; [nothing|].
Qed.

(** A subscriber that does not exist yet has no history, and nothing is ever lost. *)
Lemma perform_new l h h' o s : hub_ok h -> perform l h = Next h' o -> h.(heap) !! s = None ->
  nothing_about s o
  /\ (forall x, h'.(heap) !! s = Some x -> x.(ch) = []).
Proof.
  intros OK A Hs.
  assert (S : forall s0 y, h.(heap) !! s0 = Some y -> s0 <> s) by congruence.
  assert (W : forall s0 y y' hh, h.(heap) !! s0 = Some y -> hh.(heap) = h.(heap) ->
    forall x, (with_sub s0 y' hh).(heap) !! s = Some x -> x.(ch) = []).
  { intros s0 y y' hh Hy Eh x. rewrite lookup_sub. case_decide as D; [by destruct (S _ _ Hy)|congruence]. }
  destruct l as [id s0|t e order|t s0|t|s0]; cbn in A.
  - case_decide as D; [|done]. injection A as <- <-. split; [nothing|]. cbn.
    intros x [[_ <-]|[_ ?]]%lookup_insert_Some; [done|congruence].
  - case_decide as D; [|done]. injection A as <- <-. split; [nothing|]. cbn. congruence.
  - destruct (h.(heap) !! s0) as [y|] eqn:Hy; [|done]. repeat case_match; simplify_eq; (split; [nothing|]);
      [congruence|by eapply W].
  - destruct (h.(tasks) !! t) as [[e [|s0 todo]|e s0 todo|e s0 todo|e s0 todo|s0|s0|s0|s0]|] eqn:E; [..|done]; cbn in A.
    1: injection A as <- <-; split; [nothing|]; cbn; intros x Hx; congruence.
    all: destruct (h.(heap) !! s0) as [y|] eqn:Hy; [|done]; pose proof (S _ _ Hy);
      repeat case_match; simplify_eq; (split; [nothing|]); try (by eapply W); try (cbn; congruence).
    unfold remove. cbn. destruct (h.(subscribers) !! _); cbn; congruence.
  - destruct (h.(heap) !! s0) as [y|] eqn:Hy; [|done]. pose proof (S _ _ Hy).
    repeat case_match; simplify_eq; (split; [nothing|]); [congruence|by eapply W].
Qed.

Lemma perform_lost l h h' o s e : hub_ok h -> perform l h = Next h' o -> Lost s e ∉ o.
Proof.
  intros OK A. destruct l as [id s0|t e0 order|t s0|t|s0]; cbn in A.
  4: destruct (h.(tasks) !! t) as [[e1 [|s0 todo]|e1 s0 todo|e1 s0 todo|e1 s0 todo|s0|s0|s0|s0]|] eqn:E; cbn in A.
  8: { destruct (h.(heap) !! s0) as [y|] eqn:Hy; [|done]. destruct (ok_knows _ OK _ _ _ _ E eq_refl Hy) as [_ Q].
    unfold has_room in A. rewrite Q in A. cbn in A. repeat case_match; simplify_eq; set_solver. }
  all: repeat case_match; simplify_eq; set_solver.
Qed.

Lemma traced_step l h h' o o2 : hub_ok h -> traced h o -> perform l h = Next h' o2 -> traced h' (o ++ o2).
Proof.
  intros OK [N H L] A.
  assert (Z : forall s, h.(heap) !! s = None -> sent_to s o2 = [] /\ taken_from s o2 = [] /\ received_by s o2 = []).
  { intros s Hs. destruct (perform_new _ _ _ _ _ OK A Hs) as [F _].
    by apply nothing_seen. }
  split.
  - intros s Hs. destruct (h.(heap) !! s) as [x|] eqn:Hx.
    { destruct (perform_ch _ _ _ _ _ _ OK A Hx) as (x' & ? & _). congruence. }
    destruct (N s Hx) as (? & ? & ?), (Z s Hx) as (? & ? & ?).
    rewrite sent_to_app, taken_from_app, received_by_app. split_and!; congruence || by apply app_nil.
  - intros s x' Hs. destruct (h.(heap) !! s) as [x|] eqn:Hx.
    + destruct (perform_ch _ _ _ _ _ _ OK A Hx) as (x1 & ? & S). assert (x1 = x') as -> by congruence.
      eapply ch_step_history; [exact S|by apply H].
    + destruct (N s Hx) as (N1 & N2 & N3), (Z s Hx) as (Z1 & Z2 & Z3).
      destruct (perform_new _ _ _ _ _ OK A Hx) as [_ C].
      split; rewrite sent_to_app, ?taken_from_app, ?received_by_app, ?N1, ?N2, ?N3, ?Z1, ?Z2, ?Z3, (C _ Hs); done.
  - intros s e. rewrite elem_of_app. intros [?|?]; [by eapply L|by eapply perform_lost].
Qed.

Lemma run_traced ls h o : run NewSubmissionEventHub ls h o -> hub_ok h /\ traced h o.
Proof.
  intros R. remember NewSubmissionEventHub as h0 eqn:E0. induction R as [|h0 ls h1 o1 l h2 o2 R IH A].
  - subst h. split; [apply new_hub_ok|]. split; [done| |set_solver]. intros s x. cbn. by rewrite lookup_empty.
  - destruct (IH E0) as [OK T]. split; [|by eapply traced_step].
    pose proof (perform_ok l h1 OK) as G. by rewrite A in G.
Qed.

(** ** What a publisher achieves *)

(** The event a goroutine is publishing and the subscribers it still has to
    serve. *)
Definition publishing (k : Task) : option (SubmissionEvent * list nat) :=
  match k with
  | TPublish e todo => Some (e, todo)
  | TFirst e s todo | TDrain e s todo | TSecond e s todo => Some (e, s :: todo)
  | _ => None
  end.

Definition is_closed (h : Hub) (s : nat) : Prop := exists x, h.(heap) !! s = Some x /\ x.(closed) = true.

(** The event reached the channel, or the stream was gone. *)
Definition served (h : Hub) (e : SubmissionEvent) (o : list Obs) (s : nat) : Prop := Sent s e ∈ o \/ is_closed h s.

(** The publisher [t] of [e] has served [order] up to what is left. *)
Definition serving (h : Hub) (t : nat) (e : SubmissionEvent) (order : list nat) (o : list Obs) : Prop :=
  Forall (served h e o) order
  \/ exists k done left, h.(tasks) !! t = Some k /\ publishing k = Some (e, left)
       /\ order = done ++ left /\ Forall (served h e o) done.

Lemma closed_stays l h h' o s : perform l h = Next h' o -> is_closed h s -> is_closed h' s.
Proof.
  intros A (x & Hx & C).
  assert (G : forall s0 y y', h.(heap) !! s0 = Some y -> (y.(closed) = true -> y'.(closed) = true) ->
    forall hh, hh.(heap) = h.(heap) -> is_closed (with_sub s0 y' hh) s).
  { intros s0 y y' Hy K hh Eh. unfold is_closed. rewrite lookup_sub, Eh. case_decide; [|eauto].
    exists y'. split; [done|]. apply K. congruence. }
  assert (I : forall hh, hh.(heap) = h.(heap) -> is_closed hh s) by (intros hh Eh; exists x; by rewrite Eh).
  destruct l as [id s0|t e order|t s0|t|s0]; cbn in A.
  - case_decide as D; [|done]. injection A as <- <-. exists x. split; [|done]. cbn. rewrite lookup_insert_ne; congruence.
  - case_decide; [|done]. injection A as <- <-. by apply I.
  - destruct (h.(heap) !! s0) as [y|] eqn:Hy; [|done]. repeat case_match; simplify_eq; [by apply I|by eapply G].
  - destruct (h.(tasks) !! t) as [[e [|s0 todo]|e s0 todo|e s0 todo|e s0 todo|s0|s0|s0|s0]|] eqn:E; [..|done]; cbn in A.
    1: injection A as <- <-; by apply I.
    all: destruct (h.(heap) !! s0) as [y|] eqn:Hy; [|done]; repeat case_match; simplify_eq;
      try (by apply I); try (by eapply G).
    apply I. unfold remove. by destruct (_ !! y.(sub_id)).
  - destruct (h.(heap) !! s0) as [y|] eqn:Hy; [|done]. repeat case_match; simplify_eq; [by apply I|by eapply G].
Qed.

Lemma served_mono l h h' o o2 e s : perform l h = Next h' o2 -> served h e o s -> served h' e (o ++ o2) s.
Proof. intros A [H|H]; [left; set_solver|right; by eapply closed_stays]. Qed.

Lemma task_kept l h h' o t k : perform l h = Next h' o -> h.(tasks) !! t = Some k -> l <> LStep t ->
  h'.(tasks) !! t = Some k.
Proof.
  intros A E N. destruct l as [id s0|t0 e order|t0 s0|t0|s0]; cbn in A.
  - case_decide; [|done]. by injection A as <- <-.
  - case_decide as D; [|done]. injection A as <- <-. rewrite lookup_task. case_decide; [|done]. subst. destruct D. congruence.
  - destruct (h.(heap) !! s0) as [y|] eqn:Hy; [|done]. repeat case_match; simplify_eq; [done|].
    cbn. rewrite lookup_partial_alter_ne; [done|congruence].
  - assert (t0 <> t) as Nt by congruence.
    destruct (h.(tasks) !! t0) as [[e [|s0 todo]|e s0 todo|e s0 todo|e s0 todo|s0|s0|s0|s0]|] eqn:E0; [..|done]; cbn in A.
    1: injection A as <- <-; by rewrite lookup_task, decide_False.
    all: destruct (h.(heap) !! s0) as [y|] eqn:Hy; [|done]; repeat case_match; simplify_eq;
      try (cbn; by rewrite lookup_partial_alter_ne).
    unfold remove. destruct (_ !! y.(sub_id)); cbn; by rewrite lookup_partial_alter_ne.
  - destruct (h.(heap) !! s0) as [y|] eqn:Hy; [|done]. by repeat case_match; simplify_eq.
Qed.

(** One step of the publisher itself. *)
Lemma publisher_step h h' o t k e left : hub_ok h -> h.(tasks) !! t = Some k -> publishing k = Some (e, left) ->
  advance t k h = Next h' o ->
  (h'.(tasks) !! t = None /\ left = [])
  \/ exists k' left', h'.(tasks) !! t = Some k' /\ publishing k' = Some (e, left')
       /\ (left' = left \/ exists s, left = s :: left' /\ served h' e o s).
Proof.
  intros OK E P A.
  assert (T : forall k', (partial_alter (fun _ => k') t h.(tasks)) !! t = k') by (intros; apply lookup_partial_alter_eq).
  destruct k as [e0 [|s0 todo]|e0 s0 todo|e0 s0 todo|e0 s0 todo|s0|s0|s0|s0]; cbn in A, P; simplify_eq.
  - left. by rewrite lookup_task, decide_True.
  - destruct (h.(heap) !! s0) as [y|] eqn:Hy; [|done]. destruct y.(sub_mu) eqn:L; [done|].
    right. destruct y.(closed) eqn:C; injection A as <- <-; cbn; rewrite T; eexists _, _; split_and!; try done; [|by left].
    right. exists s0. split; [done|]. right. by exists y.
  - destruct (h.(heap) !! s0) as [y|] eqn:Hy; [|done]. right. repeat case_match; simplify_eq; cbn; rewrite T;
      eexists _, _; split_and!; try done; [|by left]. right. exists s0. split; [done|]. left. by left.
  - destruct (h.(heap) !! s0) as [y|] eqn:Hy; [|done]. right. repeat case_match; simplify_eq; cbn; rewrite T;
      eexists _, _; split_and!; try done; by left.
  - destruct (h.(heap) !! s0) as [y|] eqn:Hy; [|done]. destruct (ok_knows _ OK _ _ _ _ E eq_refl Hy) as [_ Q].
    unfold has_room in A. rewrite Q in A. cbn in A. destruct y.(ch_closed); [done|]. injection A as <- <-. right.
    cbn. rewrite T. eexists _, _; split_and!; try done. right. exists s0. split; [done|]. left. by left.
Qed.

Lemma serving_step l h h' o o2 t e order : hub_ok h -> perform l h = Next h' o2 ->
  serving h t e order o -> serving h' t e order (o ++ o2).
Proof.
  intros OK A [S|(k & dn & lft & E & P & -> & D)].
  - left. eapply Forall_impl; [exact S|]. intros s. by eapply served_mono.
  - assert (D' : Forall (served h' e (o ++ o2)) dn) by (eapply Forall_impl; [exact D|]; intros s; by eapply served_mono).
    assert (l = LStep t \/ l <> LStep t) as [->|N].
    { destruct l as [| | |t'|]; try (by right). destruct (decide (t' = t)) as [->|]; [by left|right; congruence]. }
    + cbn in A. rewrite E in A.
      destruct (publisher_step _ _ _ _ _ _ _ OK E P A) as [(_ & ->)|(k' & l' & E' & P' & [->|(s & -> & Sv)])].
      * left. by rewrite app_nil_r.
      * right. by exists k', dn, lft.
      * right. exists k', (dn ++ [s]), l'. rewrite <- (assoc_L app). split_and!; try done.
        apply Forall_app. split; [done|]. apply Forall_singleton. destruct Sv as [?|?]; [left; set_solver|by right].
    + right. exists k, dn, lft. split_and!; try done. by eapply task_kept.
Qed.

(** A finished [Publish] has put its event into the channel of every
    subscriber it found, unless that stream was closed meanwhile. *)
Lemma publish_serves h0 t e order ls h o : hub_ok h0 -> h0.(tasks) !! t = Some (TPublish e order) ->
  run h0 ls h o -> h.(tasks) !! t = None -> Forall (served h e o) order.
Proof.
  intros OK E R N. assert (serving h t e order o /\ hub_ok h) as [[S|(k & _ & _ & Ek & _)] _]; [|done|congruence].
  clear N. induction R as [|h0 ls h1 o1 l h2 o2 R IH A].
  - split; [|done]. right. exists (TPublish e order), [], order. by split_and!.
  - destruct (IH OK E) as [S OK1]. split; [by eapply serving_step|].
    pose proof (perform_ok l h1 OK1) as G. by rewrite A in G.
Qed.

(** ** Nobody waits for a reader *)

(** The steps a goroutine still has to take. *)
Definition work (k : Task) : nat :=
  match k with
  | TPublish _ todo => 4 * length todo + 1
  | TFirst _ _ todo => 4 * length todo + 4
  | TDrain _ _ todo => 4 * length todo + 3
  | TSecond _ _ todo => 4 * length todo + 2
  | TRemove _ => 4
  | TCloseWait _ => 3
  | TClose _ => 2
  | TClosing _ => 1
  end.

Definition total_work (h : Hub) : Z := msum (fun k => Z.of_nat (work k)) h.(tasks).

Lemma total_work_pos h : 0 <= total_work h.
Proof. apply msum_nonneg. intros; lia. Qed.

Lemma partial_alter_work h t k k' : h.(tasks) !! t = Some k -> (forall k1, k' = Some k1 -> (work k1 < work k)%nat) ->
  total_work (with_task t k' h) < total_work h.
Proof.
  intros E W. unfold total_work. cbn. destruct k' as [k1|].
  - change (partial_alter _ t h.(tasks)) with (<[t := k1]> h.(tasks)).
    rewrite (msum_insert _ _ _ _ k) by done. specialize (W k1 eq_refl). lia.
  - change (partial_alter _ t h.(tasks)) with (delete t h.(tasks)).
    rewrite (msum_delete _ _ _ k) by done. enough (0 < work k)%nat by lia. destruct k; cbn; lia.
Qed.

Lemma with_sub_work s x h : total_work (with_sub s x h) = total_work h.
Proof. done. Qed.

Lemma advance_work t k h h' o : h.(tasks) !! t = Some k -> advance t k h = Next h' o -> total_work h' < total_work h.
Proof.
  intros E A.
  destruct k as [e [|s0 todo]|e s0 todo|e s0 todo|e s0 todo|s0|s0|s0|s0]; cbn in A;
    [injection A as <- _|destruct (h.(heap) !! s0) as [y|] eqn:Hy; [|done]..].
  1: by eapply partial_alter_work.
  5: { injection A as <- _. replace (total_work (remove _ _ _)) with (total_work (with_task t (Some (TCloseWait s0)) h)).
    - eapply partial_alter_work; [done|]. intros k1 [= <-]. cbn. lia.
    - unfold remove. by destruct (_ !! y.(sub_id)). }
  all: repeat case_match; simplify_eq; rewrite ?with_sub_work; (eapply partial_alter_work; [exact E|]);
    intros k1 [= <-]; cbn; lia.
Qed.

(** The goroutine that holds a mutex can go on; if no mutex is held, every
    goroutine can. *)
Lemma some_step h : hub_ok h -> h.(tasks) <> ∅ -> exists t h' o, perform (LStep t) h = Next h' o.
Proof.
  intros OK N.
  assert (P : forall t k, h.(tasks) !! t = Some k ->
    (forall s x, h.(heap) !! s = Some x -> holds k = None -> s ∈ refs k -> x.(sub_mu) = None) ->
    exists h' o, perform (LStep t) h = Next h' o).
  { intros t k E L. pose proof (perform_ok (LStep t) h OK) as G. cbn in *. rewrite E in *.
    destruct (advance t k h) as [| |h' o] eqn:A; [|done|eauto]. exfalso.
    destruct k as [e [|s0 todo]|e s0 todo|e s0 todo|e s0 todo|s0|s0|s0|s0]; cbn in A; try done;
      destruct (h.(heap) !! s0) as [y|] eqn:Hy; try done; cbn in L.
    all: try (rewrite (L _ _ Hy eq_refl) in A by set_solver); repeat case_match; done. }
  destruct (decide (map_Exists (fun _ k => is_Some (holds k)) h.(tasks))) as [(t & k & E & s & H)|F].
  - exists t. apply (P t k E). intros; congruence.
  - apply map_choose in N as (t & k & E). exists t. apply (P t k E). intros s x Hx _ _.
    destruct x.(sub_mu) as [t1|] eqn:M; [|done]. exfalso. apply F.
    apply (ok_locks _ OK _ _ _ Hx) in M as (k1 & E1 & H1). exists t1, k1. by rewrite H1.
Qed.

Lemma step_work t h h' o : perform (LStep t) h = Next h' o -> total_work h' < total_work h.
Proof. cbn. destruct (h.(tasks) !! t) as [k|] eqn:E; [by apply advance_work|done]. Qed.

Definition step_of (l : Label) : Prop := match l with LStep _ => True | _ => False end.

(** Whatever the scheduler does, the goroutines inside the hub take at most
    [total_work] steps ... *)
Lemma steps_bounded h ls h' o : run h ls h' o -> Forall step_of ls ->
  Z.of_nat (length ls) + total_work h' <= total_work h.
Proof.
  intros R F. induction R as [|h ls h1 o1 l h2 o2 R IH A]; [cbn; lia|].
  apply Forall_app in F as [F F1]. rewrite Forall_singleton in F1. specialize (IH F).
  destruct l as [| | |t|]; try destruct F1. apply step_work in A. rewrite length_app. cbn. lia.
Qed.

(** ... and can always finish, without any receiver. *)
Lemma hub_quiesces h : hub_ok h -> exists ls h' o, Forall step_of ls /\ run h ls h' o /\ h'.(tasks) = ∅.
Proof.
  intros OK. enough (G : forall n ls h1 o, Forall step_of ls -> run h ls h1 o -> total_work h1 <= Z.of_nat n ->
    exists ls h' o, Forall step_of ls /\ run h ls h' o /\ h'.(tasks) = ∅).
  { apply (G (Z.to_nat (total_work h)) [] h []); [done|constructor|]. pose proof (total_work_pos h). lia. }
  induction n as [|n IH]; intros ls h1 o F R W.
  all: destruct (decide (h1.(tasks) = ∅)) as [|N]; [by exists ls, h1, o|].
  all: destruct (some_step h1 (run_ok _ _ _ _ R OK) N) as (t & h2 & o2 & A).
  all: pose proof (step_work _ _ _ _ A); pose proof (total_work_pos h2).
  - lia.
  - apply (IH (ls ++ [LStep t]) h2 (o ++ o2)); [|by eapply run_snoc|lia]. apply Forall_app. split; [done|by repeat constructor].
Qed.

(** A subscription that was not ended is found by every [Publish] for its
    submission. *)
Lemma publish_finds h t e order h' o s x : hub_ok h -> perform (LPublish t e order) h = Next h' o ->
  h.(heap) !! s = Some x -> x.(sub_id) = e.(EvSubmissionID) -> x.(once_done) = false -> s ∈ order.
Proof.
  intros OK A Hx Hi Ho. cbn in A. case_decide as D; [|done]. destruct D as (_ & _ & B).
  enough (s ∈ bucket h e.(EvSubmissionID)) by (rewrite <- B in *; set_solver).
  apply (ok_buckets _ OK). exists x. split_and!; [done|done|by left].
Qed.

(** When no goroutine is inside the hub its maps hold exactly the open
    subscriptions, and no empty bucket is left behind. *)
Lemma quiet_buckets h id : hub_ok h -> h.(tasks) = ∅ ->
  (forall s, s ∈ bucket h id <-> exists x, h.(heap) !! s = Some x /\ x.(sub_id) = id /\ x.(once_done) = false)
  /\ (is_Some (h.(subscribers) !! id) <-> SubscriberCount h id <> 0%nat).
Proof.
  intros OK Q. split.
  - intros s. rewrite (ok_buckets _ OK). unfold subscribed. setoid_rewrite Q. setoid_rewrite lookup_empty. naive_solver.
  - unfold SubscriberCount, bucket. pose proof (ok_nonempty _ OK id) as N.
    destruct (h.(subscribers) !! id) as [b|] eqn:E; cbn; [|rewrite is_Some_alt; split; [done|by rewrite size_empty]].
    split; [|eauto]. intros _ Z. apply N. f_equal. by apply size_empty_inv in Z; apply leibniz_equiv.
Qed.

Lemma received_sublist s x h o : history s x h o -> sublist (received_by s o) (sent_to s o).
Proof.
  intros [F _]. rewrite <- F. etrans; [|apply sublist_inserts_r; reflexivity]. clear F.
  induction o as [|ob o IH]; [constructor|]. destruct ob as [s' e|s' e|s' e|s' e|s']; cbn; try done.
  - destruct (on_sub s s' e); [by constructor|done].
  - destruct (on_sub s s' e); [by constructor|done].
Qed.
