(* ===== verification/StreamSystem.v ===== *)
(** The event hub together with the goroutines that commit to the database:
    what a stream that reads its snapshot after subscribing can rely on.

    A goroutine of [ApplyJudgeResult] commits the result of a submission and then
    publishes it (no other use case publishes); both happen in any order with the
    steps inside the hub.  EventHub.v is the hub, EventStream.v what a stream does
    with the events it receives. *)

From S2P Require Import Prelude SubmissionDomain EventHub HubHistory.

(** ** The system *)

Record System := mkSys {
  sys_hub : Hub;
  committed : list SubmissionEvent;        (* the results committed, oldest first *)
  announcing : gmap nat SubmissionEvent;   (* goroutines between commit and [Publish] *)
  since : gmap nat nat;                    (* the commits made when a stream subscribed *)
}.

Definition new_system : System := mkSys NewSubmissionEventHub [] ∅ ∅.

Inductive Move :=
  | Commit (t : nat) (e : SubmissionEvent)
  | Announce (t : nat) (order : list nat)
  | Join (id : Z) (s : nat)
  | Other (l : Label).

(** The moves of the hub that are no moves of their own here. *)
Definition plain (l : Label) : bool := match l with LSubscribe _ _ | LPublish _ _ _ => false | _ => true end.

Definition via (l : Label) (y : System) (f : Hub -> System) : option (System * list Obs) :=
  match perform l y.(sys_hub) with Next h o => Some (f h, o) | _ => None end.

Definition act (m : Move) (y : System) : option (System * list Obs) :=
  match m with
  | Commit t e =>
      if decide (y.(announcing) !! t = None /\ y.(sys_hub).(tasks) !! t = None)
      then Some (mkSys y.(sys_hub) (y.(committed) ++ [e]) (<[t := e]> y.(announcing)) y.(since), []) else None
  | Announce t order =>
      match y.(announcing) !! t with
      | Some e => via (LPublish t e order) y (fun h => mkSys h y.(committed) (delete t y.(announcing)) y.(since))
      | None => None
      end
  | Join id s => via (LSubscribe id s) y (fun h => mkSys h y.(committed) y.(announcing) (<[s := length y.(committed)]> y.(since)))
  | Other l => if plain l then via l y (fun h => mkSys h y.(committed) y.(announcing) y.(since)) else None
  end.

(** Runs in which every move is [allowed]. *)
Inductive sys_run (allowed : Move -> System -> Prop) : System -> list Obs -> Prop :=
  | sys_start : sys_run allowed new_system []
  | sys_move y o m y' o' : sys_run allowed y o -> allowed m y -> act m y = Some (y', o') -> sys_run allowed y' (o ++ o').

Definition any (m : Move) (y : System) : Prop := True.

(** The commits of a submission from the [n]th commit on. *)
Definition commits_of (id : Z) (n : nat) (l : list SubmissionEvent) : list SubmissionEvent :=
  filter (fun e => e.(EvSubmissionID) = id) (drop n l).

Lemma sys_run_hub P y o : sys_run P y o -> exists ls, run NewSubmissionEventHub ls y.(sys_hub) o.
Proof.
  induction 1 as [|y o m y' o' R (ls & IH) _ A]; [exists []; constructor|].
  assert (V : forall l f, via l y f = Some (y', o') -> (forall h, (f h).(sys_hub) = h) ->
    exists ls, run NewSubmissionEventHub ls y'.(sys_hub) (o ++ o')).
  { intros l f E Hf. unfold via in E. destruct (perform l y.(sys_hub)) as [| |h o1] eqn:A1; try done.
    injection E as <- <-. rewrite Hf. exists (ls ++ [l]). by eapply run_snoc. }
  destruct m as [t e|t order|id s|l]; cbn in A.
  - case_decide; [|done]. injection A as <- <-. exists ls. by rewrite app_nil_r.
  - destruct (y.(announcing) !! t); [|done]. by eapply V.
  - by eapply V.
  - destruct (plain l); [|done]. by eapply V.
Qed.

Lemma sys_run_ok P y o : sys_run P y o -> hub_ok y.(sys_hub) /\ traced y.(sys_hub) o.
Proof. intros (ls & R)%sys_run_hub. by eapply run_traced. Qed.

(** ** Subscribers over time *)

(** What a subscriber keeps. *)
Definition kept (x x' : Subscriber) : Prop :=
  x'.(sub_id) = x.(sub_id) /\ (x.(once_done) = true -> x'.(once_done) = true).

Lemma kept_refl x : kept x x.
Proof. done. Qed.

Lemma with_sub_kept h s0 y y' s x : h.(heap) !! s0 = Some y -> kept y y' -> h.(heap) !! s = Some x ->
  forall hh, hh.(heap) = h.(heap) -> exists x', (with_sub s0 y' hh).(heap) !! s = Some x' /\ kept x x'.
Proof.
  intros Hy K Hx hh E. rewrite lookup_sub, E. case_decide; [|by exists x]. exists y'. split; [done|]. congruence.
Qed.

Lemma sub_stays l h h' o s x : perform l h = Next h' o -> h.(heap) !! s = Some x ->
  exists x', h'.(heap) !! s = Some x' /\ kept x x'.
Proof.
  intros A Hx. assert (I : forall hh, hh.(heap) = h.(heap) -> exists x', hh.(heap) !! s = Some x' /\ kept x x')
    by (intros hh ->; by exists x).
  destruct l as [id s0|t e order|t s0|t|s0]; cbn in A.
  - case_decide as D; [|done]. injection A as <- <-. exists x. cbn. rewrite lookup_insert_ne by congruence. done.
  - case_decide; [|done]. injection A as <- <-. by apply I.
  - destruct (h.(heap) !! s0) as [y|] eqn:Hy; [|done]. repeat case_match; simplify_eq; [by apply I|].
    by apply (with_sub_kept h s0 y).
  - destruct (h.(tasks) !! t) as [[e [|s0 todo]|e s0 todo|e s0 todo|e s0 todo|s0|s0|s0|s0]|]; [..|done]; cbn in A.
    1: injection A as <- <-; by apply I.
    all: destruct (h.(heap) !! s0) as [y|] eqn:Hy; [|done]; repeat case_match; simplify_eq;
      try (by apply I); try (by apply (with_sub_kept h s0 y)).
    apply I. unfold remove. by destruct (_ !! y.(sub_id)).
  - destruct (h.(heap) !! s0) as [y|] eqn:Hy; [|done]. repeat case_match; simplify_eq; [by apply I|].
    by apply (with_sub_kept h s0 y).
Qed.

(** Only [Subscribe] makes subscribers. *)
Lemma sub_was_there l h h' o s : perform l h = Next h' o -> (forall id, l <> LSubscribe id s) ->
  h.(heap) !! s = None -> h'.(heap) !! s = None.
Proof.
  intros A N Hs. assert (W : forall s0 y y' hh, h.(heap) !! s0 = Some y -> hh.(heap) = h.(heap) ->
    (with_sub s0 y' hh).(heap) !! s = None) by (intros s0 y y' hh Hy E; rewrite lookup_sub, E; case_decide; congruence).
  destruct l as [id s0|t e order|t s0|t|s0]; cbn in A.
  - case_decide as D; [|done]. injection A as <- <-. cbn. rewrite lookup_insert_ne; [done|]. intros ->. by destruct (N id).
  - case_decide; [|done]. by injection A as <- <-.
  - destruct (h.(heap) !! s0) as [y|] eqn:Hy; [|done]. repeat case_match; simplify_eq; [done|by eapply W].
  - destruct (h.(tasks) !! t) as [[e [|s0 todo]|e s0 todo|e s0 todo|e s0 todo|s0|s0|s0|s0]|]; [..|done]; cbn in A.
    1: by injection A as <- <-.
    all: destruct (h.(heap) !! s0) as [y|] eqn:Hy; [|done]; repeat case_match; simplify_eq; try done; try (by eapply W).
    unfold remove. by destruct (_ !! y.(sub_id)).
  - destruct (h.(heap) !! s0) as [y|] eqn:Hy; [|done]. repeat case_match; simplify_eq; [done|by eapply W].
Qed.

(** ** Every commit is on its way *)

(** A goroutine inside [Publish] still has to serve the stream. *)
Definition to_serve (h : Hub) (s : nat) (e : SubmissionEvent) : Prop :=
  exists t k left, h.(tasks) !! t = Some k /\ publishing k = Some (e, left) /\ s ∈ left.

Definition gone (h : Hub) (s : nat) : Prop := exists x, h.(heap) !! s = Some x /\ x.(once_done) = true.

Definition underway (h : Hub) (o : list Obs) (s : nat) (e : SubmissionEvent) : Prop :=
  to_serve h s e \/ Sent s e ∈ o \/ gone h s.

Lemma served_underway h e o s : hub_ok h -> served h e o s -> Sent s e ∈ o \/ gone h s.
Proof.
  intros OK [S|(x & Hx & C)]; [by left|]. right. exists x. split; [done|].
  by apply (ok_subs _ OK _ _ Hx).
Qed.

Lemma gone_step l h h' o s : perform l h = Next h' o -> gone h s -> gone h' s.
Proof.
  intros A (x & Hx & O). destruct (sub_stays _ _ _ _ _ _ A Hx) as (x' & Hx' & _ & K). exists x'. auto.
Qed.

Lemma perform_hub_ok l h h' o : hub_ok h -> perform l h = Next h' o -> hub_ok h'.
Proof. intros OK A. pose proof (perform_ok l h OK) as G. by rewrite A in G. Qed.

Lemma underway_step l h h' o o2 s e : hub_ok h -> perform l h = Next h' o2 ->
  underway h o s e -> underway h' (o ++ o2) s e.
Proof.
  intros OK A [(t & k & lft & E & P & L)|[S|G]].
  - assert (l = LStep t \/ l <> LStep t) as [->|N].
    { destruct l as [| | |t'|]; try (by right). destruct (decide (t' = t)) as [->|]; [by left|right; congruence]. }
    + cbn in A. rewrite E in A.
      destruct (publisher_step _ _ _ _ _ _ _ OK E P A) as [(_ & ->)|(k' & l' & E' & P' & [->|(s0 & -> & Sv)])].
      * by apply elem_of_nil in L.
      * left. by exists t, k', lft.
      * apply elem_of_cons in L as [->|L]; [|left; by exists t, k', l'].
        right. apply served_underway in Sv as [?|?]; [left; set_solver|by right|].
        eapply (perform_hub_ok (LStep t)); [exact OK|]. cbn. by rewrite E.
    + left. exists t, k, lft. split_and!; try done. by eapply task_kept.
  - right. left. set_solver.
  - right. right. by eapply gone_step.
Qed.

(** The commits a stream has not missed. *)
Definition coming (y : System) (o : list Obs) (s : nat) (e : SubmissionEvent) : Prop :=
  (exists t, y.(announcing) !! t = Some e) \/ underway y.(sys_hub) o s e.

Record followed (y : System) (o : list Obs) : Prop := {
  fo_since : forall s n, y.(since) !! s = Some n -> is_Some (y.(sys_hub).(heap) !! s);
  fo_coming : forall s x n e, y.(sys_hub).(heap) !! s = Some x -> y.(since) !! s = Some n ->
    e ∈ commits_of x.(sub_id) n y.(committed) -> coming y o s e;
}.

Lemma commits_of_snoc id n l e0 : commits_of id n (l ++ [e0]) =
  commits_of id n l ++ (if decide (e0.(EvSubmissionID) = id /\ (n <= length l)%nat) then [e0] else []).
Proof.
  unfold commits_of. destruct (le_lt_dec n (length l)) as [L|L].
  - rewrite drop_app_le, filter_app by done. f_equal. rewrite filter_cons, filter_nil.
    by repeat case_decide; destruct_and?; try tauto.
  - rewrite drop_ge by (rewrite length_app; cbn; lia). rewrite (drop_ge l) by lia.
    rewrite decide_False by lia. done.
Qed.

Lemma via_inv l y f y' o : via l y f = Some (y', o) -> exists h, perform l y.(sys_hub) = Next h o /\ y' = f h.
Proof. unfold via. destruct (perform l y.(sys_hub)) as [| |h o1] eqn:A; try done. intros [= <- <-]. by exists h. Qed.

(** A step of the hub that is no subscription and takes no announced event. *)
Lemma followed_via l y h o o2 : hub_ok y.(sys_hub) -> perform l y.(sys_hub) = Next h o2 ->
  (forall id s, l <> LSubscribe id s) -> followed y o ->
  followed (mkSys h y.(committed) y.(announcing) y.(since)) (o ++ o2).
Proof.
  intros OK A N [F C]. split; cbn.
  - intros s n Hs. destruct (F _ _ Hs) as (x & Hx). destruct (sub_stays _ _ _ _ _ _ A Hx) as (x' & -> & _). eauto.
  - intros s x' n e Hx' Hs He. destruct (F _ _ Hs) as (x & Hx).
    destruct (sub_stays _ _ _ _ _ _ A Hx) as (x1 & E1 & I & _). assert (x1 = x') as -> by congruence.
    rewrite I in He. destruct (C _ _ _ _ Hx Hs He) as [Ha|U]; [by left|]. right. by eapply underway_step.
Qed.

Lemma followed_act m y y' o o2 : hub_ok y.(sys_hub) -> act m y = Some (y', o2) -> followed y o -> followed y' (o ++ o2).
Proof.
  intros OK A FC. destruct m as [t e0|t order|id s0|l]; unfold act in A.
  - destruct FC as [F C]. case_decide as D; [|done]. injection A as <- <-. rewrite app_nil_r. split; [done|]. cbn. intros s x n e Hx Hs.
    rewrite commits_of_snoc, elem_of_app. intros [He|He].
    + destruct (C _ _ _ _ Hx Hs He) as [(t' & Ha)|U]; [|by right]. left. exists t'. cbn.
      rewrite lookup_insert_ne; [done|]. intros ->. destruct D. congruence.
    + case_decide; [|by apply elem_of_nil in He]. apply list_elem_of_singleton in He as ->. left. exists t. cbn. by rewrite lookup_insert_eq.
  - destruct (y.(announcing) !! t) as [e0|] eqn:Ha; [|done]. apply via_inv in A as (h & A & ->).
    destruct (followed_via _ _ _ _ _ OK A ltac:(done) FC) as [F C]. split; [exact F|]. cbn in C |- *.
    intros s x n e Hx Hs He. destruct (C _ _ _ _ Hx Hs He) as [(t' & Ht)|U]; [|by right]. cbn in Ht.
    destruct (decide (t' = t)) as [->|Nt]; [|left; exists t'; cbn; by rewrite lookup_delete_ne].
    right. assert (e0 = e) as -> by congruence. destruct (y.(sys_hub).(heap) !! s) as [x0|] eqn:Hx0.
    + destruct (sub_stays _ _ _ _ _ _ A Hx0) as (x1 & E1 & I & _). assert (x1 = x) as -> by congruence.
      destruct x0.(once_done) eqn:O; [right; right; eapply gone_step; [exact A|by exists x0]|]. left.
      exists t, (TPublish e order), order. pose proof A as A'. cbn in A. case_decide as D; [|done]. injection A as <- <-.
      split_and!; [cbn; by rewrite lookup_partial_alter_eq|done|]. eapply (publish_finds _ t e order); [exact OK|exact A'|exact Hx0| |done].
      rewrite <- I. apply list_elem_of_filter in He as [-> _]. done.
    + rewrite (sub_was_there _ _ _ _ _ A) in Hx; [done|done|done].
  - apply via_inv in A as (h & A & ->). destruct FC as [F C]. cbn in A. case_decide as D; [|done]. injection A as <- <-. split; cbn.
    + intros s n. rewrite lookup_insert_is_Some. intros [[-> _]|[N Hs]]%lookup_insert_Some; [by left|right; eauto].
    + intros s x n e Hx Hs He. apply lookup_insert_Some in Hs as [[-> <-]|[N Hs]].
      * unfold commits_of in He. rewrite drop_all in He. by apply elem_of_nil in He.
      * rewrite lookup_insert_ne in Hx by done. destruct (C _ _ _ _ Hx Hs He) as [Ha|U]; [by left|]. right.
        eapply (underway_step (LSubscribe id s0)); [exact OK| |exact U]. cbn. by rewrite decide_True.
  - destruct (plain l) eqn:P; [|done]. apply via_inv in A as (h & A & ->).
    eapply followed_via; [done|exact A| |done]. by intros ? ? ->.
Qed.

Lemma new_followed : followed new_system [].
Proof. split; intros s; [intros n|intros x n e]; cbn; rewrite lookup_empty; done. Qed.

Lemma run_followed P y o : sys_run P y o -> followed y o.
Proof.
  induction 1 as [|y o m y' o' R IH _ A]; [apply new_followed|].
  eapply followed_act; [by apply (sys_run_ok P y o)|done|done].
Qed.

(** When nothing is under way an open stream has been sent every commit. *)
Definition at_rest (y : System) : Prop := y.(announcing) = ∅ /\ y.(sys_hub).(tasks) = ∅.

Lemma sent_to_elem s e o : e ∈ sent_to s o <-> Sent s e ∈ o.
Proof.
  unfold sent_to. rewrite list_elem_of_omap. split.
  - intros (ob & H & E). destruct ob as [s' e'|s' e'|s' e'|s' e'|s']; try done. unfold on_sub in E. case_decide; [|done]. by simplify_eq.
  - intros H. exists (Sent s e). split; [done|]. apply on_sub_eq.
Qed.

Lemma rest_sent P y o s x n e : sys_run P y o -> at_rest y -> y.(sys_hub).(heap) !! s = Some x ->
  x.(once_done) = false -> y.(since) !! s = Some n -> e ∈ commits_of x.(sub_id) n y.(committed) -> e ∈ sent_to s o.
Proof.
  intros R [Q1 Q2] Hx O Hs He. apply sent_to_elem. destruct (run_followed _ _ _ R) as [_ C].
  destruct (C _ _ _ _ Hx Hs He) as [(t & Ht)|[(t & k & lft & E & _)|[?|(x' & ? & ?)]]].
  - rewrite Q1, lookup_empty in Ht. done.
  - rewrite Q2, lookup_empty in E. done.
  - done.
  - congruence.
Qed.

Lemma rest_latest P y o s x : sys_run P y o -> at_rest y -> y.(sys_hub).(heap) !! s = Some x ->
  last (received_by s o ++ x.(ch)) = last (sent_to s o).
Proof.
  intros R [_ Q] Hx. destruct (sys_run_ok _ _ _ R) as [_ T]. apply (hist_latest _ _ _ _ (tr_hist _ _ T _ _ Hx)).
  intros (t & e & todo & E). by rewrite Q, lookup_empty in E.
Qed.

(** ** Commits that are published one after the other *)

Definition carries (y : System) (t : nat) (e : SubmissionEvent) : Prop :=
  y.(announcing) !! t = Some e \/ exists k left, y.(sys_hub).(tasks) !! t = Some k /\ publishing k = Some (e, left).

(** No commit to a submission while another one is still being published. *)
Definition one_at_a_time (m : Move) (y : System) : Prop :=
  match m with
  | Commit _ e => forall t e', carries y t e' -> e'.(EvSubmissionID) <> e.(EvSubmissionID)
  | _ => True
  end.

Definition targets (h : Hub) : Prop := forall t k e left s x, h.(tasks) !! t = Some k -> publishing k = Some (e, left) ->
  s ∈ left -> h.(heap) !! s = Some x -> x.(sub_id) = e.(EvSubmissionID).

Definition latest (id : Z) (l : list SubmissionEvent) (e : SubmissionEvent) : Prop := last (commits_of id 0 l) = Some e.

Record in_order (y : System) (o : list Obs) : Prop := {
  io_carry : forall t e, carries y t e -> latest e.(EvSubmissionID) y.(committed) e;
  io_targets : targets y.(sys_hub);
  io_last : forall s x n e, y.(sys_hub).(heap) !! s = Some x -> y.(since) !! s = Some n ->
    last (commits_of x.(sub_id) n y.(committed)) = Some e ->
    (exists t, y.(announcing) !! t = Some e) \/ to_serve y.(sys_hub) s e
    \/ last (sent_to s o) = Some e \/ gone y.(sys_hub) s;
}.

Lemma sent_by l h h' o s e : perform l h = Next h' o -> Sent s e ∈ o ->
  exists t k todo, h.(tasks) !! t = Some k /\ publishing k = Some (e, s :: todo).
Proof.
  intros A S. destruct l as [id s0|t e0 order|t s0|t|s0]; cbn in A.
  4: destruct (h.(tasks) !! t) as [[e1 [|s0 todo]|e1 s0 todo|e1 s0 todo|e1 s0 todo|s0|s0|s0|s0]|] eqn:E; cbn in A.
  all: repeat case_match; simplify_eq; try set_solver.
  all: apply list_elem_of_singleton in S as [= <- <-]; by eexists t, _, todo.
Qed.

(** What a hub step leaves being published, and for whom. *)
Lemma publishing_step l h h' o t k e left : hub_ok h -> perform l h = Next h' o -> h'.(tasks) !! t = Some k ->
  publishing k = Some (e, left) ->
  (exists k0 left0, h.(tasks) !! t = Some k0 /\ publishing k0 = Some (e, left0) /\ left ⊆ left0)
  \/ l = LPublish t e left.
Proof.
  intros OK A E P.
  assert (l = LStep t \/ l <> LStep t) as [->|N].
  { destruct l as [| | |t'|]; try (by right). destruct (decide (t' = t)) as [->|]; [by left|right; congruence]. }
  - left. destruct (h.(tasks) !! t) as [k0|] eqn:E0; cbn in A; rewrite E0 in A; [|done].
    destruct (publishing k0) as [[e0 left0]|] eqn:P0.
    + destruct (publisher_step _ _ _ _ _ _ _ OK E0 P0 A) as [(X & _)|(k1 & l1 & E1 & P1 & D)]; [congruence|].
      assert (k1 = k) as -> by congruence. rewrite P in P1. injection P1 as <- <-. exists k0, left0. split_and!; try done.
      destruct D as [->|(s & -> & _)]; set_solver.
    + exfalso. destruct k0 as [e1 todo|e1 s0 todo|e1 s0 todo|e1 s0 todo|s0|s0|s0|s0]; try done; cbn in A;
        (destruct (h.(heap) !! s0) as [y|]; [|done]); repeat case_match; simplify_eq; cbn in E;
        try (unfold remove in E; destruct (_ !! y.(sub_id)); cbn in E); rewrite lookup_partial_alter_eq in E; by simplify_eq.
  - destruct (h.(tasks) !! t) as [k0|] eqn:E0.
    + left. exists k0, left. rewrite (task_kept _ _ _ _ _ _ A E0 N) in E. by simplify_eq.
    + right. destruct l as [id s0|t0 e0 order|t0 s0|t0|s0]; cbn in A.
      * case_decide; [|done]. injection A as <- <-. cbn in E. congruence.
      * case_decide; [|done]. injection A as <- <-. rewrite lookup_task in E. case_decide; [|congruence]. subst. injection E as <-.
        cbn in P. by injection P as <- <-.
      * destruct (h.(heap) !! s0) as [y|]; [|done]. repeat case_match; simplify_eq. cbn in E.
        destruct (decide (t0 = t)) as [->|]; [rewrite lookup_partial_alter_eq in E; by simplify_eq|].
        rewrite lookup_partial_alter_ne in E by done. congruence.
      * assert (t0 <> t) as Nt by congruence. exfalso.
        destruct (h.(tasks) !! t0) as [k1|]; [|done].
        destruct k1 as [e1 [|s1 todo]|e1 s1 todo|e1 s1 todo|e1 s1 todo|s1|s1|s1|s1]; cbn in A;
          [injection A as <- <-; cbn in E; rewrite lookup_partial_alter_ne in E by done; congruence|
           destruct (h.(heap) !! s1) as [y|]; [|done]..]; repeat case_match; simplify_eq; cbn in E;
          try (unfold remove in E; destruct (_ !! y.(sub_id)); cbn in E);
          rewrite ?lookup_partial_alter_ne in E by done; congruence.
      * destruct (h.(heap) !! s0) as [y|]; [|done]. repeat case_match; simplify_eq; cbn in E; congruence.
Qed.

Lemma targets_step l h h' o : hub_ok h -> targets h -> perform l h = Next h' o -> targets h'.
Proof.
  intros OK T A t k e left s x' E P L Hx'.
  destruct (publishing_step _ _ _ _ _ _ _ _ OK A E P) as [(k0 & left0 & E0 & P0 & Sub) | ->].
  - assert (is_Some (h.(heap) !! s)) as (x & Hx).
    { eapply (ok_refs _ OK); [exact E0|]. apply Sub in L. destruct k0; cbn in P0; simplify_eq; done. }
    destruct (sub_stays _ _ _ _ _ _ A Hx) as (x1 & E1 & I & _). assert (x1 = x') as -> by congruence. rewrite I.
    eapply T; [exact E0|exact P0|by apply Sub|done].
  - cbn in A. case_decide as D; [|done]. destruct D as (_ & _ & B). injection A as <- <-.
    assert (Hb : s ∈ bucket h e.(EvSubmissionID)) by (rewrite <- B; set_solver). apply (ok_buckets _ OK) in Hb as (x & Hx & I & _).
    cbn in Hx'. congruence.
Qed.

Lemma commits_of_last id n l e : last (commits_of id n l) = Some e -> latest id l e.
Proof.
  unfold latest, commits_of. rewrite drop_0. intros H. rewrite <- (take_drop n l) at 1. rewrite filter_app, last_app, H. done.
Qed.

Lemma latest_id id l e : latest id l e -> e.(EvSubmissionID) = id.
Proof.
  unfold latest, commits_of. intros H. apply last_Some_elem_of, list_elem_of_filter in H. apply H.
Qed.

(** The last event sent, when all new ones are the same. *)
Lemma last_sent s o o2 e : last (sent_to s o) = Some e \/ Sent s e ∈ o2 -> (forall e', Sent s e' ∈ o2 -> e' = e) ->
  last (sent_to s (o ++ o2)) = Some e.
Proof.
  intros H A. rewrite sent_to_app. destruct (last (sent_to s o2)) as [e'|] eqn:L.
  - rewrite last_app, L. f_equal. apply A, sent_to_elem. by apply last_Some_elem_of.
  - apply last_None in L. rewrite last_app, L. cbn. destruct H as [H|H]; [done|]. apply sent_to_elem in H. rewrite L in H. by apply elem_of_nil in H.
Qed.

Lemma in_order_via l y h o o2 : hub_ok y.(sys_hub) -> perform l y.(sys_hub) = Next h o2 ->
  (forall id s, l <> LSubscribe id s) ->
  (forall t e order, l = LPublish t e order -> y.(announcing) !! t = Some e) ->
  in_order y o -> in_order (mkSys h y.(committed) y.(announcing) y.(since)) (o ++ o2).
Proof.
  intros OK A NS PA [IC IT IL]. split; cbn.
  - intros t e [Ha|(k & lft & E & P)]; cbn in *; [apply (IC t); by left|].
    destruct (publishing_step _ _ _ _ _ _ _ _ OK A E P) as [(k0 & left0 & E0 & P0 & _) | ->].
    + apply (IC t). right. by exists k0, left0.
    + apply (IC t). left. by eapply PA.
  - by eapply targets_step.
  - intros s x' n e Hx' Hs L. destruct (y.(sys_hub).(heap) !! s) as [x|] eqn:Hx; [|rewrite (sub_was_there _ _ _ _ _ A) in Hx'; [done|by intros ?|done]].
    destruct (sub_stays _ _ _ _ _ _ A Hx) as (x1 & E1 & I & _). assert (x1 = x') as -> by congruence. rewrite I in L.
    assert (U : forall e', Sent s e' ∈ o2 -> e' = e).
    { intros e' S. destruct (sent_by _ _ _ _ _ _ A S) as (t & k & todo & E & P).
      assert (L' : latest e'.(EvSubmissionID) y.(committed) e') by (apply (IC t); right; by eexists _, _).
      rewrite <- (IT _ _ _ _ s x E P) in L'; [|set_solver|done]. apply commits_of_last in L. unfold latest in *. congruence. }
    destruct (IL _ _ _ _ Hx Hs L) as [Ha|[T|[S|G]]]; [by left| | |].
    + right. destruct (underway_step _ _ _ [] _ s e OK A (or_introl T)) as [T'|[S|G]]; [by left| |by do 2 right].
      right. left. apply last_sent; [by right|done].
    + do 2 right. left. apply last_sent; [by left|done].
    + do 3 right. by eapply gone_step.
Qed.

Lemma in_order_act m y y' o o2 : hub_ok y.(sys_hub) -> one_at_a_time m y -> act m y = Some (y', o2) ->
  followed y o -> in_order y o -> in_order y' (o ++ o2).
Proof.
  intros OK ON A FO IO. destruct m as [t e0|t order|id s0|l]; unfold act in A.
  - case_decide as D; [|done]. injection A as <- <-. rewrite app_nil_r. destruct IO as [IC IT IL]. split; cbn.
    + intros t' e [Ha|C]; cbn in *.
      * apply lookup_insert_Some in Ha as [[-> ->]|[N Ha]].
        -- unfold latest. rewrite commits_of_snoc, decide_True by (split; [done|lia]). apply last_snoc.
        -- unfold latest. rewrite commits_of_snoc, decide_False; [rewrite app_nil_r; apply (IC t'); by left|].
           intros [X _]. apply (ON t' e); [by left|done].
      * unfold latest. rewrite commits_of_snoc, decide_False; [rewrite app_nil_r; apply (IC t'); by right|].
        intros [X _]. apply (ON t' e); [by right|done].
    + exact IT.
    + intros s x n e Hx Hs. rewrite commits_of_snoc. case_decide as K.
      * rewrite last_snoc. intros [= <-]. left. exists t. by rewrite lookup_insert_eq.
      * rewrite app_nil_r. intros L. destruct (IL _ _ _ _ Hx Hs L) as [(t' & Ha)|R]; [|by right]. left. exists t'.
        rewrite lookup_insert_ne; [done|]. intros ->. destruct D. congruence.
  - destruct (y.(announcing) !! t) as [e0|] eqn:Ha; [|done]. apply via_inv in A as (h & A & ->).
    destruct (in_order_via _ _ _ o _ OK A ltac:(done) ltac:(by intros ? ? ? [= <- <- _]) IO) as [IC IT IL].
    assert (E : h.(tasks) !! t = Some (TPublish e0 order)).
    { cbn in A. case_decide; [|done]. injection A as <- _. cbn. by rewrite lookup_partial_alter_eq. }
    split; [|exact IT|]; cbn in IC, IL |- *.
    + intros t' e [X|X]; cbn in X; [|apply (IC t'); by right].
      apply lookup_delete_Some in X as [_ X]. apply (IC t'). by left.
    + intros s x n e Hx Hs L. destruct (IL _ _ _ _ Hx Hs L) as [(t' & X)|R]; [|by right].
      destruct (decide (t' = t)) as [->|N]; [|left; exists t'; by rewrite lookup_delete_ne]. right.
      assert (e0 = e) as -> by congruence.
      destruct (y.(sys_hub).(heap) !! s) as [x0|] eqn:Hx0; [|rewrite (sub_was_there _ _ _ _ _ A) in Hx; done].
      destruct (sub_stays _ _ _ _ _ _ A Hx0) as (x1 & E1 & I & _). assert (x1 = x) as -> by congruence.
      destruct x0.(once_done) eqn:O; [do 2 right; eapply gone_step; [exact A|by exists x0]|]. left.
      exists t, (TPublish e order), order. split_and!; [done|done|]. eapply (publish_finds _ t e order); [exact OK|exact A|exact Hx0| |done].
      rewrite <- I. symmetry. by eapply latest_id, commits_of_last.
  - apply via_inv in A as (h & A & ->). destruct IO as [IC IT IL].
    assert (IT' : targets h) by (by eapply targets_step). cbn in A. case_decide as D; [|done]. injection A as <- <-.
    rewrite app_nil_r. split; [exact IC|exact IT'|]. cbn. intros s x n e Hx Hs L.
    apply lookup_insert_Some in Hs as [[-> <-]|[N Hs]].
    + unfold commits_of in L. rewrite drop_all in L. done.
    + rewrite lookup_insert_ne in Hx by done. destruct (IL _ _ _ _ Hx Hs L) as [?|[?|[?|(x' & ? & ?)]]]; [by left|by right; left|by do 2 right; left|].
      do 3 right. exists x'. split; [|done]. cbn. by rewrite lookup_insert_ne.
  - destruct (plain l) eqn:P; [|done]. apply via_inv in A as (h & A & ->).
    eapply in_order_via; [done|exact A|by intros ? ? ->|by intros ? ? ? ->|done].
Qed.

Lemma run_in_order y o : sys_run one_at_a_time y o -> in_order y o.
Proof.
  induction 1 as [|y o m y' o' R IH ON A].
  - split.
    + intros t e [X|(k & lft & X & _)]; cbn in X; rewrite lookup_empty in X; done.
    + intros t k e lft s x X. cbn in X. by rewrite lookup_empty in X.
    + intros s x n e X. cbn in X. by rewrite lookup_empty in X.
  - eapply in_order_act; [by apply (sys_run_ok one_at_a_time y o)|done|done|by eapply run_followed|done].
Qed.

(** Then, at rest, the last commit is the last event the stream has seen or
    still has to read. *)
Lemma rest_caught_up y o s x n e : sys_run one_at_a_time y o -> at_rest y -> y.(sys_hub).(heap) !! s = Some x ->
  x.(once_done) = false -> y.(since) !! s = Some n -> last (commits_of x.(sub_id) n y.(committed)) = Some e ->
  last (received_by s o ++ x.(ch)) = Some e.
Proof.
  intros R Q Hx O Hs L. rewrite (rest_latest _ _ _ _ _ R Q Hx). destruct Q as [Q1 Q2].
  destruct (io_last _ _ (run_in_order _ _ R) _ _ _ _ Hx Hs L) as [(t & X)|[(t & k & lft & X & _)|[?|(x' & ? & ?)]]].
  - by rewrite Q1, lookup_empty in X.
  - by rewrite Q2, lookup_empty in X.
  - done.
  - congruence.
Qed.

(** ** Running a system *)

(** Moves in a row, each of which passes [ok], and the observations made. *)
Fixpoint exec (ok : Move -> System -> bool) (ms : list Move) (y : System) : option (System * list Obs) :=
  match ms with
  | [] => Some (y, [])
  | m :: r => if ok m y then
                match act m y with
                | Some (y1, o1) => match exec ok r y1 with Some (y2, o2) => Some (y2, o1 ++ o2) | None => None end
                | None => None
                end
              else None
  end.

Lemma exec_run (P : Move -> System -> Prop) ok ms y o y' o' : (forall m y, ok m y = true -> P m y) ->
  sys_run P y o -> exec ok ms y = Some (y', o') -> sys_run P y' (o ++ o').
Proof.
  intros K. revert y o y' o'. induction ms as [|m ms IH]; intros y o y' o' R; cbn.
  - intros [= <- <-]. by rewrite app_nil_r.
  - destruct (ok m y) eqn:Ok; [|done]. destruct (act m y) as [[y1 o1]|] eqn:A; [|done].
    destruct (exec ok ms y1) as [[y2 o2]|] eqn:E; [|done].
    intros [= <- <-]. rewrite (assoc_L app). eapply IH; [|exact E]. eapply sys_move; [done|by apply K|done].
Qed.

(** [one_at_a_time] as a test. *)
Definition calm (m : Move) (y : System) : bool :=
  match m with
  | Commit _ e =>
      forallb (fun p => negb (p.2.(EvSubmissionID) =? e.(EvSubmissionID))) (map_to_list y.(announcing))
      && forallb (fun p => match publishing p.2 with
                           | Some (e', _) => negb (e'.(EvSubmissionID) =? e.(EvSubmissionID)) | None => true end)
           (map_to_list y.(sys_hub).(tasks))
  | _ => true
  end.

Lemma calm_spec m y : calm m y = true -> one_at_a_time m y.
Proof.
  destruct m as [t e| | |]; try done. cbn. rewrite andb_true_iff, !forallb_forall. intros [F1 F2] t' e' [H|(k & lft & H & P)].
  - apply elem_of_map_to_list, list_elem_of_In, F1 in H. cbn in H. apply negb_true_iff, Z.eqb_neq in H. done.
  - apply elem_of_map_to_list, list_elem_of_In, F2 in H. cbn in H. rewrite P in H. apply negb_true_iff, Z.eqb_neq in H. done.
Qed.

Definition freely (m : Move) (y : System) : bool := true.

Lemma exec_any ms y o : exec freely ms new_system = Some (y, o) -> sys_run any y o.
Proof. intros E. change o with ([] ++ o). eapply exec_run; [|apply sys_start|exact E]. done. Qed.

Lemma exec_calm ms y o : exec calm ms new_system = Some (y, o) -> sys_run one_at_a_time y o.
Proof. intros E. change o with ([] ++ o). eapply exec_run; [|apply sys_start|exact E]. apply calm_spec. Qed.
