(* ===== verification/SubmissionGuarantees.v ===== *)
(** What the submission service guarantees, end to end: the theorems about
    whole use cases and about sequences of them, each with a run on the
    in-memory world of MemStore.v. *)

From S2P Require Import Prelude GoString GoError GoMonad Sanitize SubmissionDomain SubmissionPorts OutboxRelay CreateSubmission RejudgeSubmission ApplyResult SubmissionSystem PgStore MemStore.

(** ** A running example *)

Definition alice : Claims := mkClaims "u-1" "alice" RoleUser 1700000000.
Definition mallory : Claims := mkClaims "m-1" "mod" RoleModerator 1700000000.
Definition demo_request : CreateSubmissionRequest := mkCreateReq 7 "CPP" "int main() { return 0; }".

Definition demo_call : call -> world -> world :=
  run_call mem_sr mem_ar mem_rr mem_or mem_tx mem_pr (Some mem_cooldown) mem_sv mem_send mem_done mem_topic.
Definition demo_calls : list call -> world -> world :=
  run_calls mem_sr mem_ar mem_rr mem_or mem_tx mem_pr (Some mem_cooldown) mem_sv mem_send mem_done mem_topic.

(** The message a worker sends for the demo submission. *)
Definition demo_item : TestCaseResultItem := mkItem 1 "ACCEPTED" None None None (Some 3) (Some 1024).
Definition demo_message (aid : string) (status : Status) : ResultMessage :=
  mkResultMessage 1 aid status None None (Some 3) (Some 1024) None (Some 1) (Some 1) None [demo_item].

Definition attempt1 : string := "attempt-2".
Definition calls1 : list call := [CallCreate alice demo_request].
Definition calls2 : list call := [CallCreate alice demo_request; CallApply (demo_message attempt1 StatusAccepted)].
Definition world1 : world := demo_calls calls1 empty_world.
Definition world2 : world := demo_calls calls2 empty_world.

Example world1_pending : SubStatus <$> ((mem_db world1).(subs) !! 1) = Some StatusPending
  /\ CurrentAttemptID <$> ((mem_db world1).(subs) !! 1) = Some attempt1.
Proof. split; vm_compute; reflexivity. Qed.
Example world2_accepted : SubStatus <$> ((mem_db world2).(subs) !! 1) = Some StatusAccepted
  /\ length (w_sent world2) = 1%nat.
Proof. split; vm_compute; reflexivity. Qed.

Lemma empty_world_Inv : Inv mem_topic id (mem_db empty_world).
Proof. apply (empty_Inv mem_topic id). Qed.

Lemma demo_Inv cs : Inv mem_topic id (mem_db (demo_calls cs empty_world)).
Proof.
  eapply steps_Inv; [exact empty_world_Inv|].
  apply (run_calls_steps mem_sr mem_ar mem_rr mem_or mem_tx mem_pr (Some mem_cooldown) mem_sv
    mem_send mem_done mem_topic id mem_db w_sent w_delivered).
Qed.

(** ** Sequences of requests, results and relay passes *)

Section guarantees.
Context {W : Type} (sr : SubmissionRepository W) (ar : AttemptRepository W)
  (rr : ResultRepository W) (or : OutboxRepository W) (tx : TransactionManager W)
  (pr : ProblemReader W) (cooldown : option (SubmissionCooldown W)) (sv : SubmissionServices W)
  (Send : ProducerMessage -> M W (Z * Z)) (Done : M W bool) (topic : string)
  (jsonb : string -> string) (db : W -> store) (sent : W -> list SubmissionEvent)
  (delivered : W -> list ProducerMessage)
  {SL : StoreLaws sr ar rr tx db sent} {VL : ServiceLaws sv db sent}
  {OL : OutboxLaws or jsonb db sent} {QL : QuietPorts pr cooldown db sent}
  {KL : ProducerLaws Send Done db sent delivered} {RS : RelayStore or delivered}.

(** C1: whatever requests, judge results and relay passes are run in whatever
    order, and whether they succeed or fail, the database keeps its invariant:
    every submission has a current attempt whose status agrees with its own,
    superseded attempts are finished, attempt identifiers are unique, every
    attempt has its job in the outbox with the source code of its submission,
    and testcase results only exist for finished attempts. *)
Theorem calls_keep_invariant cs w :
  Inv topic jsonb (db w) ->
  Inv topic jsonb (db (run_calls sr ar rr or tx pr cooldown sv Send Done topic cs w)).
Proof. intros HI. eapply steps_Inv; [exact HI|by eapply run_calls_steps]. Qed.

(** C2: a finished attempt is final: no later request, result message or relay
    pass changes its row or its testcase results. *)
Theorem finished_attempt_is_final cs w k a :
  Inv topic jsonb (db w) -> (db w).(attempts) !! k = Some a -> IsTerminalStatus a.(AttStatus) = true ->
  (db (run_calls sr ar rr or tx pr cooldown sv Send Done topic cs w)).(attempts) !! k = Some a
  /\ rows_of (db (run_calls sr ar rr or tx pr cooldown sv Send Done topic cs w)) a = rows_of (db w) a.
Proof. intros HI. eapply steps_final; [exact HI|by eapply run_calls_steps]. Qed.

(** The owner, problem, language, source code and creation time of a stored
    submission never change and the submission is never removed. *)
Theorem submission_identity_is_kept cs w i sub :
  (db w).(subs) !! i = Some sub ->
  exists sub', (db (run_calls sr ar rr or tx pr cooldown sv Send Done topic cs w)).(subs) !! i = Some sub'
    /\ identity sub' = identity sub.
Proof. eapply steps_identity. by eapply run_calls_steps. Qed.

(** C3: applying a judge result refines its specification: it either stores
    the outcome of the current attempt of an unfinished submission, with the
    attempt row and exactly the reported testcases, and publishes one event,
    or, when the message is stale, changes nothing; every error leaves the
    database and the event hub as they were. *)
Theorem apply_refines msg w r w' : applyExecute sr (Some ar) rr tx sv true msg w = (r, w') ->
  match r with
  | inr _ => exists st rs ev, validateResult msg = inr (st, rs)
      /\ apply_spec msg (db w) (db w') ev /\ sent w' = sent w ++ ev
  | inl _ => db w' = db w /\ sent w' = sent w
  end.
Proof.
  intros H. destruct r as [e|[]].
  - by apply (applyExecute_atomic sr ar rr tx sv db sent) in H.
  - by apply (applyExecute_refines sr ar rr tx sv db sent) in H.
Qed.

(** The first result of an attempt wins: once a message for an attempt has
    been applied, every other message for that attempt, a redelivery or a
    contradicting one, changes neither the database nor the event stream. *)
Theorem first_result_wins msg msg' w w1 w2 :
  applyExecute sr (Some ar) rr tx sv true msg w = (inr tt, w1) -> applyExecute sr (Some ar) rr tx sv true msg' w1 = (inr tt, w2) ->
  msg'.(MsgSubmissionID) = msg.(MsgSubmissionID) -> msg'.(MsgAttemptID) = msg.(MsgAttemptID) ->
  db w2 = db w1 /\ sent w2 = sent w1.
Proof.
  intros (st & rs & ev & V & H & _)%(applyExecute_refines sr ar rr tx sv db sent).
  intros (st' & rs' & ev' & V' & H' & ->)%(applyExecute_refines sr ar rr tx sv db sent) E1 E2.
  destruct (apply_spec_once _ _ _ _ _ _ _ _ _ _ _ V V' E1 E2 H H') as [-> ->]. by rewrite app_nil_r.
Qed.

(** C4: creating a submission is all or nothing: on success a valid request has
    stored one pending submission with its first attempt and queued one job
    with its source code, and the response describes that submission; on any
    error, the rate limit included, the database and the hub are unchanged. *)
Theorem create_all_or_nothing claims req w r w' : createExecute sr (Some ar) tx (outbox_Publish or topic) pr cooldown sv claims req w = (r, w') ->
  match r with
  | inr resp => validateCreate claims req = inr req.(ReqLanguage)
      /\ exists sub att job, submitted topic jsonb sub att job (db w) (db w') /\ describes resp sub
         /\ sub.(SourceCode) = req.(ReqSourceCode) /\ sub.(SubLanguage) = req.(ReqLanguage)
         /\ sub.(SubUserID) = claims.(UserID) /\ sent w' = sent w
  | inl _ => db w' = db w /\ sent w' = sent w
  end.
Proof.
  intros H. destruct r as [e|resp].
  - by apply (createExecute_error sr ar rr tx _ pr cooldown sv topic jsonb db sent) in H.
  - by apply (createExecute_spec sr ar rr tx _ pr cooldown sv topic jsonb db sent) in H.
Qed.

(** C5: rejudging is all or nothing and guarded: it succeeds only for a
    moderator or an administrator and a finished submission, which then waits
    for a fresh attempt with one new job; on any error nothing changes. *)
Theorem rejudge_all_or_nothing claims sid w r w' : rejudgeExecute sr ar tx (outbox_Publish or topic) pr sv claims sid w = (r, w') ->
  match r with
  | inr resp => AtLeast claims.(ClaimRole) RoleModerator = true
      /\ exists old now att job, rejudged topic jsonb sid old now att job (db w) (db w')
         /\ resp.(RjSubmissionID) = sid /\ resp.(RjAttemptID) = att.(AttAttemptID) /\ sent w' = sent w
  | inl _ => db w' = db w /\ sent w' = sent w
  end.
Proof.
  intros H. destruct r as [e|resp].
  - by apply (rejudgeExecute_error sr ar rr tx _ pr cooldown sv topic jsonb db sent) in H.
  - apply (rejudgeExecute_spec sr ar rr tx _ pr cooldown sv topic jsonb db sent) in H as (V & H).
    by apply validateRejudge_none in V as (_ & V & _).
Qed.

(** C6: the relay publishes at least once: a pass always terminates without an
    error, and after it still every row marked as published has been accepted
    by the broker with its topic, key and payload, and no row has failed more
    often than the retry limit. *)
Theorem relay_publishes_at_least_once w : relay_inv (db w) (delivered w) ->
  exists w', processPendingMessages or Send Done w = (inr tt, w') /\ relay_inv (db w') (delivered w') /\ sent w' = sent w.
Proof.
  intros HI. destruct (processPendingMessages_steps or Send Done jsonb db sent delivered w) as (w' & E & H & S).
  exists w'. split_and!; [done| |done]. by apply relay_steps_inv in H.
Qed.

(** Rows that have used up their retries stay pending and are fetched
    again: when the fetched batch holds only such rows, the pass publishes
    nothing, however many other rows are pending. *)
Theorem exhausted_batch_blocks_relay w l w1 : OR_GetPending or relayBatch w = (inr l, w1) ->
  Forall (fun m => maxPublishRetries <= m.(RetryCount)) l ->
  exists w', processPendingMessages or Send Done w = (inr tt, w') /\ db w' = db w /\ delivered w' = delivered w.
Proof.
  intros E HF. unfold processPendingMessages, bind, try. rewrite E.
  destruct (relayLoop_exhausted or Send Done db sent delivered l w1 HF) as (w' & H & D & L).
  exists w'. rewrite H, D, L. pose proof (proj1 relay_repo_quiet _ _ _ _ E) as Q.
  apply outbox_pending_ok in E as (-> & _). by rewrite Q.
Qed.
End guarantees.

(** ** Runs *)

Lemma calls_keep_invariant_witness :
  Inv mem_topic id (mem_db empty_world)
  /\ Inv mem_topic id (mem_db (demo_calls [CallCreate alice demo_request; CallRelay;
       CallApply (demo_message attempt1 StatusAccepted); CallRejudge mallory 1] empty_world)).
Proof.
  split; [exact empty_world_Inv|].
  apply (calls_keep_invariant mem_sr mem_ar mem_rr mem_or mem_tx mem_pr (Some mem_cooldown) mem_sv
    mem_send mem_done mem_topic id mem_db w_sent w_delivered), empty_world_Inv.
Defined.

Lemma finished_attempt_is_final_witness :
  exists a, (mem_db world2).(attempts) !! 1 = Some a /\ IsTerminalStatus a.(AttStatus) = true
  /\ (mem_db (demo_calls [CallRejudge mallory 1; CallApply (demo_message attempt1 StatusWrongAnswer)] world2)).(attempts) !! 1
     = Some a.
Proof.
  eexists. split; [vm_compute; reflexivity|]. split; [vm_compute; reflexivity|].
  eapply (finished_attempt_is_final mem_sr mem_ar mem_rr mem_or mem_tx mem_pr (Some mem_cooldown) mem_sv
    mem_send mem_done mem_topic id mem_db w_sent w_delivered).
  - apply demo_Inv.
  - vm_compute; reflexivity.
  - vm_compute; reflexivity.
Defined.

Lemma submission_identity_is_kept_witness :
  exists sub sub', (mem_db world1).(subs) !! 1 = Some sub
  /\ (mem_db (demo_calls [CallApply (demo_message attempt1 StatusAccepted)] world1)).(subs) !! 1 = Some sub'
  /\ identity sub' = identity sub.
Proof.
  eexists.
  destruct (submission_identity_is_kept mem_sr mem_ar mem_rr mem_or mem_tx mem_pr (Some mem_cooldown) mem_sv
    mem_send mem_done mem_topic id mem_db w_sent w_delivered
    [CallApply (demo_message attempt1 StatusAccepted)] world1 1 (default (set_ID (mkSubmission 0 0 "" "" "" "" "" "" ""
      None None None None 0 0) 0) ((mem_db world1).(subs) !! 1))) as (sub' & H1 & H2).
  - vm_compute. reflexivity.
  - exists sub'. split; [vm_compute; reflexivity|]. split; [exact H1|exact H2].
Defined.

Lemma apply_refines_witness :
  exists w', applyExecute mem_sr (Some mem_ar) mem_rr mem_tx mem_sv true
    (demo_message attempt1 StatusAccepted) world1 = (inr tt, w')
  /\ exists ev, apply_spec (demo_message attempt1 StatusAccepted) (mem_db world1) (mem_db w') ev
     /\ w_sent w' = w_sent world1 ++ ev.
Proof.
  exists (snd (applyExecute mem_sr (Some mem_ar) mem_rr mem_tx mem_sv true
    (demo_message attempt1 StatusAccepted) world1)).
  assert (applyExecute mem_sr (Some mem_ar) mem_rr mem_tx mem_sv true
    (demo_message attempt1 StatusAccepted) world1 = (inr tt, snd (applyExecute mem_sr (Some mem_ar) mem_rr mem_tx mem_sv true
    (demo_message attempt1 StatusAccepted) world1))) as E by (vm_compute; reflexivity).
  split; [exact E|].
  destruct (apply_refines mem_sr mem_ar mem_rr mem_tx mem_sv mem_db w_sent _ _ _ _ E) as (st & rs & ev & _ & H1 & H2).
  exists ev. split; [exact H1|exact H2].
Defined.

Definition demo_apply (aid : string) (st : Status) : M world unit :=
  applyExecute mem_sr (Some mem_ar) mem_rr mem_tx mem_sv true (demo_message aid st).

Lemma first_result_wins_witness :
  fst (demo_apply attempt1 StatusAccepted world1) = inr tt
  /\ fst (demo_apply attempt1 StatusWrongAnswer (snd (demo_apply attempt1 StatusAccepted world1))) = inr tt
  /\ mem_db (snd (demo_apply attempt1 StatusWrongAnswer (snd (demo_apply attempt1 StatusAccepted world1))))
     = mem_db (snd (demo_apply attempt1 StatusAccepted world1)).
Proof.
  assert (fst (demo_apply attempt1 StatusAccepted world1) = inr tt) as E1 by (vm_compute; reflexivity).
  assert (fst (demo_apply attempt1 StatusWrongAnswer (snd (demo_apply attempt1 StatusAccepted world1))) = inr tt)
    as E2 by (vm_compute; reflexivity).
  split; [exact E1|]. split; [exact E2|].
  apply (first_result_wins mem_sr mem_ar mem_rr mem_tx mem_sv mem_db w_sent
    (demo_message attempt1 StatusAccepted) (demo_message attempt1 StatusWrongAnswer) world1).
  - unfold demo_apply in E1. rewrite <- E1. apply surjective_pairing.
  - unfold demo_apply in E2. rewrite <- E2. apply surjective_pairing.
  - reflexivity.
  - reflexivity.
Defined.

Definition demo_create : M world CreateSubmissionResponse :=
  createExecute mem_sr (Some mem_ar) mem_tx (outbox_Publish mem_or mem_topic) mem_pr (Some mem_cooldown) mem_sv
    alice demo_request.

Lemma create_all_or_nothing_witness :
  exists resp w', demo_create empty_world = (inr resp, w')
  /\ exists sub att job, submitted mem_topic id sub att job (mem_db empty_world) (mem_db w')
     /\ describes resp sub /\ sub.(SubUserID) = "u-1"%string.
Proof.
  exists (mkCreateResp 1 7 "Two Sum" "CPP" "PENDING" 3), (snd (demo_create empty_world)).
  assert (demo_create empty_world
    = (inr (mkCreateResp 1 7 "Two Sum" "CPP" "PENDING" 3), snd (demo_create empty_world))) as E
    by (vm_compute; reflexivity).
  split; [exact E|].
  destruct (create_all_or_nothing mem_sr mem_ar mem_rr mem_or mem_tx mem_pr (Some mem_cooldown) mem_sv mem_topic
    id mem_db w_sent alice demo_request _ _ _ E) as (_ & sub & att & job & H1 & H2 & _ & _ & H3 & _).
  exists sub, att, job. split; [exact H1|]. split; [exact H2|exact H3].
Defined.

Definition demo_rejudge : M world RejudgeResponse :=
  rejudgeExecute mem_sr mem_ar mem_tx (outbox_Publish mem_or mem_topic) mem_pr mem_sv mallory 1.

Lemma rejudge_all_or_nothing_witness :
  exists resp w', demo_rejudge world2 = (inr resp, w')
  /\ exists old now att job, rejudged mem_topic id 1 old now att job (mem_db world2) (mem_db w')
     /\ resp.(RjAttemptID) = att.(AttAttemptID).
Proof.
  assert (exists resp, demo_rejudge world2 = (inr resp, snd (demo_rejudge world2))) as [resp E].
  { eexists. vm_compute. reflexivity. }
  exists resp, (snd (demo_rejudge world2)). split; [exact E|].
  destruct (rejudge_all_or_nothing mem_sr mem_ar mem_rr mem_or mem_tx mem_pr (Some mem_cooldown) mem_sv mem_topic
    id mem_db w_sent mallory 1 _ _ _ E) as (_ & old & now & att & job & H1 & _ & H2 & _).
  exists old, now, att, job. split; [exact H1|exact H2].
Defined.

Lemma relay_publishes_at_least_once_witness :
  relay_inv (mem_db world1) (w_delivered world1)
  /\ exists w', processPendingMessages mem_or mem_send mem_done world1 = (inr tt, w')
     /\ relay_inv (mem_db w') (w_delivered w').
Proof.
  assert (relay_inv (mem_db world1) (w_delivered world1)) as HI.
  { intros i m H. assert (map_to_list (mem_db world1).(outbox) = [(1, default m ((mem_db world1).(outbox) !! 1))]) as L
      by (vm_compute; reflexivity).
    apply elem_of_map_to_list in H. rewrite L in H. apply list_elem_of_singleton in H as [= -> ->].
    split; vm_compute; [discriminate|discriminate]. }
  split; [exact HI|].
  destruct (relay_publishes_at_least_once mem_or mem_send mem_done id mem_db w_sent w_delivered world1 HI)
    as (w' & E & H & _).
  exists w'. split; [exact E|exact H].
Defined.

(** One hundred exhausted rows and a fresh one, which the unordered query does not return. *)
Definition stuck_row (i retries : Z) : OutboxMessageDAO.t :=
  OutboxMessageDAO.mk i 1 mem_topic "{}" OutboxStatusPending 1 None retries None.
Definition fresh_row_id : Z := 1.
Definition stuck_world : world :=
  put_outbox (list_to_map ((fresh_row_id, stuck_row fresh_row_id 0)
    :: map (fun i => (i, stuck_row i 5)) (seqZ 2 100))) empty_world.
Definition stuck_batch : list OutboxMessage :=
  match fst (OR_GetPending mem_or relayBatch stuck_world) with inr l => l | inl _ => [] end.

Lemma exhausted_batch_blocks_relay_witness :
  (exists m, (mem_db stuck_world).(outbox) !! fresh_row_id = Some m /\ m.(ObStatus) = OutboxStatusPending
     /\ m.(RetryCount) = 0)
  /\ exists w', processPendingMessages mem_or mem_send mem_done stuck_world = (inr tt, w')
     /\ mem_db w' = mem_db stuck_world /\ w_delivered w' = [].
Proof.
  split; [eexists; split; [vm_compute; reflexivity|]; split; reflexivity|].
  assert (OR_GetPending mem_or relayBatch stuck_world = (inr stuck_batch, stuck_world)) as E
    by (vm_compute; reflexivity).
  assert (Forall (fun m => maxPublishRetries <= m.(RetryCount)) stuck_batch) as HF
    by (apply Forall_forallb_leb; vm_compute; reflexivity).
  exact (exhausted_batch_blocks_relay mem_or mem_send mem_done id mem_db w_sent w_delivered
    stuck_world stuck_batch stuck_world E HF).
Defined.
