(* ===== verification/WorkerDomain.v ===== *)
(** Data and pure logic of the judge worker: the outbound port
    (workers/judge/internal/application/port/outbound/judge.go), output
    comparison (internal/domain/output.go), languages (pkg/gojudge/config.go)
    and limits (adapter/outbound/execute/go_judge_client.go). *)

From S2P Require Import Prelude GoString.

(** ** The port's data *)

Record ProblemTestCaseMetadata := mkMetadata {
  MdProblemID : Z;
  ZipDownloadURL : string;
  MdTestCount : Z;
  MdVersion : Z;
}.

Record TestcaseDatasetIdentity := mkIdentity {
  IdProblemID : Z;
  IdVersion : Z;
  IdDatasetChecksum : string;
}.

Record ExecutionTestCase := mkTestCase {
  TcIndex : Z;
  TcID : string;
  TcKind : string;
  Stdin : string;
  SandboxInputPath : string;
  TcExpectedOutput : option string;
}.

Record OfficialTestCaseBundle := mkBundle {
  BdTestCases : list ExecutionTestCase;
  BdTestCount : Z;
  BdVersion : Z;
  BdDatasetChecksum : string;
}.

Record ExecutionLimits := mkLimits {
  TimeLimitMS : Z;
  MemoryLimitKB : Z;
  OutputLimitBytes : Z;
}.
Definition no_limits : ExecutionLimits := mkLimits 0 0 0.

Record ExecutionRequest := mkExecReq {
  ExLanguage : string;
  ExSourceCode : string;
  ExTestCases : list ExecutionTestCase;
  ExLimits : ExecutionLimits;
  StopOnFirstFailure : bool;
  TestcaseDataset : option TestcaseDatasetIdentity;
}.

Record CodeDiagnostic := mkDiag {
  DgTestCaseID : option string;
  DgKind : string;
  DgSeverity : string;
  DgMessage : string;
  DgLine : Z;
  DgColumn : Z;
}.

Record TestCaseResult := mkTCResult {
  RsIndex : Z;
  RsID : string;
  RsKind : string;
  RsStatus : string;
  RsActualOutput : option string;
  RsStderr : option string;
  RsInput : option string;
  RsExpectedOutput : option string;
  RsExecutionTime : Z;
  RsMemoryUsed : Z;
  RsDiagnostics : list CodeDiagnostic;
}.

Record ExecutionResult := mkExecResult {
  EStatus : string;
  ECompileOutput : option string;
  EErrorMessage : option string;
  EDiagnostics : list CodeDiagnostic;
  ETestCases : list TestCaseResult;
  EExecutionTime : Z;
  EMemoryUsed : Z;
  EError : option string;
  ETestcaseVersion : option Z;
  ETestCount : option Z;
  EDatasetChecksum : option string;
}.

(** ** Output comparison *)

Definition cr : ascii := ascii_of_N 13.
Definition nl : ascii := ascii_of_N 10.

(** [strings.ReplaceAll(value, "\r\n", "\n")] *)
Fixpoint replace_crlf (l : bytes) : bytes :=
  match l with
  | [] => []
  | c :: r =>
      match r with
      | d :: _ => if is_byte 13 c && is_byte 10 d then replace_crlf r else c :: replace_crlf r
      | [] => [c]
      end
  end.

(** [strings.ReplaceAll(value, "\r", "\n")] *)
Definition replace_cr (l : bytes) : bytes := map (fun c => if is_byte 13 c then nl else c) l.

Definition blank_char (c : ascii) : bool := is_byte 32 c || is_byte 9 c.

Definition normalize_bytes (l : bytes) : bytes :=
  let lines := split_on nl (replace_cr (replace_crlf l)) in
  trim_right_set (is_byte 10) (join_with nl (map (trim_right_set blank_char) lines)).

Definition NormalizeOutput (value : string) : string := str (normalize_bytes (chars value)).

Definition OutputEqual (actual expected : string) : bool :=
  bool_decide (NormalizeOutput actual = NormalizeOutput expected).

(** ** Languages *)

Record RunCmd := mkRunCmd { Command : list string; Env : list string }.
Record LanguageConfig := mkLangCfg { Compile : option RunCmd; Run : RunCmd }.

Definition GetSourceFileName (language : string) : string :=
  if bool_decide (language = "CPP")%string then "main.cpp"
  else if bool_decide (language = "GO")%string then "main.go"
  else if bool_decide (language = "PYTHON")%string then "main.py"
  else if bool_decide (language = "JAVA")%string then "Main.java"
  else "main.txt".

Definition GetExeFileName (language : string) : string :=
  if bool_decide (language = "CPP")%string then "main"
  else if bool_decide (language = "GO")%string then "main"
  else if bool_decide (language = "JAVA")%string then "main.jar"
  else "main.out".

Definition GetLanguageConfig (language sourceFile exeFile : string) : option LanguageConfig :=
  let path := ["PATH=/usr/bin:/bin"]%string in
  if bool_decide (language = "CPP")%string then
    Some (mkLangCfg (Some (mkRunCmd ["/usr/bin/g++"; "-O3"; "-std=c++17"; sourceFile; "-o"; exeFile]%string path))
            (mkRunCmd [exeFile] path))
  else if bool_decide (language = "GO")%string then
    Some (mkLangCfg (Some (mkRunCmd ["/usr/local/go/bin/go"; "build"; "-o"; exeFile; sourceFile]%string
                             ["PATH=/usr/local/go/bin:/usr/bin:/bin"; "GOCACHE=/tmp"; "GOPATH=/tmp/go";
                              "CGO_ENABLED=0"; "GOPROXY=off"; "GOSUMDB=off"]%string))
            (mkRunCmd [exeFile] path))
  else if bool_decide (language = "PYTHON")%string then
    Some (mkLangCfg None (mkRunCmd ["/usr/bin/python3"; sourceFile]%string path))
  else if bool_decide (language = "JAVA")%string then
    Some (mkLangCfg (Some (mkRunCmd ["/bin/sh"; "-lc";
             "mkdir -p classes && /usr/bin/javac -d classes Main.java && /usr/bin/jar --create --file main.jar -C classes ."]%string
             path))
            (mkRunCmd ["/usr/bin/java"; "-cp"; exeFile; "Main"]%string path))
  else None.

(** ** Limits *)

Definition normalizeLimits (limits : ExecutionLimits) : ExecutionLimits :=
  mkLimits (if limits.(TimeLimitMS) <=? 0 then 2000 else limits.(TimeLimitMS))
    (if limits.(MemoryLimitKB) <=? 0 then 256 * 1024 else limits.(MemoryLimitKB))
    (if limits.(OutputLimitBytes) <=? 0 then 1024 * 1024 else limits.(OutputLimitBytes)).

Definition expectedOutputHeadroomBytes : Z := 64 * 1024.

Definition required_output (required : Z) (tc : ExecutionTestCase) : Z :=
  match tc.(TcExpectedOutput) with
  | None => required
  | Some e => let size := len e + expectedOutputHeadroomBytes in
              if required <? size then size else required
  end.

Definition ensureOutputLimitForExpected (limits : ExecutionLimits) (testCases : list ExecutionTestCase)
  : ExecutionLimits :=
  mkLimits limits.(TimeLimitMS) limits.(MemoryLimitKB)
    (fold_left required_output testCases limits.(OutputLimitBytes)).

Definition maxInt64 (a b : Z) : Z := if b <? a then a else b.

(** ** Facts about output comparison *)

Lemma drop_while_spec (p : ascii -> bool) l :
  exists q, l = q ++ drop_while p l /\ Forall (fun c => p c = true) q
    /\ match drop_while p l with c :: _ => p c = false | [] => True end.
Proof.
  induction l as [|c l (q & H1 & H2 & H3)]; cbn; [by exists []|].
  destruct (p c) eqn:E; [|by exists []]. exists (c :: q). cbn. split_and!; [by f_equal|by constructor|done].
Qed.

(** Trimming on the right: what is cut, and where it stops. *)
Lemma trim_right_set_spec p l :
  exists q, l = trim_right_set p l ++ q /\ Forall (fun c => p c = true) q
    /\ match last (trim_right_set p l) with Some c => p c = false | None => True end.
Proof.
  unfold trim_right_set. destruct (drop_while_spec p (rev l)) as (q & H1 & H2 & H3).
  exists (rev q). split_and!.
  - rewrite <- rev_app_distr, <- H1. symmetry. apply rev_involutive.
  - by apply Forall_rev.
  - destruct (drop_while p (rev l)) as [|c r]; cbn; [done|]. by rewrite last_snoc.
Qed.

Lemma trim_right_set_stop p l :
  match last l with Some c => p c = false | None => True end -> trim_right_set p l = l.
Proof.
  unfold trim_right_set. intros H. rewrite <- (rev_involutive l) at 2. f_equal.
  destruct (rev l) as [|c r] eqn:E; [done|]. cbn.
  assert (l = rev r ++ [c]) as -> by (rewrite <- (rev_involutive l), E; done).
  rewrite last_snoc in H. by rewrite H.
Qed.

Lemma trim_right_set_idem p l : trim_right_set p (trim_right_set p l) = trim_right_set p l.
Proof. apply trim_right_set_stop. by destruct (trim_right_set_spec p l) as (q & _ & _ & H). Qed.

Lemma trim_right_set_app p l q : Forall (fun c => p c = true) q -> trim_right_set p (l ++ q) = trim_right_set p l.
Proof.
  intros H. unfold trim_right_set. rewrite rev_app_distr. f_equal.
  apply Forall_rev in H. induction H as [|c r Hc _ IH]; [done|]. cbn. by rewrite Hc.
Qed.

(** Joining the pieces of a split, and splitting a join of newline-free lines. *)
Lemma join_split c l : join_with c (split_on c l) = l.
Proof.
  induction l as [|x l IH]; [done|]. cbn [split_on].
  destruct (Stdlib.Strings.Ascii.eqb x c) eqn:E.
  - apply Stdlib.Strings.Ascii.eqb_eq in E as ->. rewrite <- IH at 2. destruct (split_on c l) eqn:S; [|done].
    destruct l as [|y l]; cbn in S; [done|]. repeat case_match; done.
  - destruct (split_on c l) as [|h t] eqn:S; [by destruct l|].
    destruct t; cbn in *; by rewrite <- IH.
Qed.

Lemma split_not_nil c l : split_on c l <> [].
Proof. destruct l; cbn; [done|]. repeat case_match; done. Qed.

Lemma split_lines_free c l : Forall (fun h => Forall (fun x => x <> c) h) (split_on c l).
Proof.
  induction l as [|x l IH]; cbn; [repeat constructor|].
  destruct (Stdlib.Strings.Ascii.eqb_spec x c) as [->|Hne]; [by constructor|].
  destruct (split_on c l) as [|h t]; [by repeat constructor|].
  inversion_clear IH. by repeat constructor.
Qed.

Lemma split_line c h : Forall (fun x => x <> c) h -> split_on c h = [h].
Proof.
  induction 1 as [|x h Hx _ IH]; [done|]. cbn.
  destruct (Stdlib.Strings.Ascii.eqb_spec x c); [done|]. by rewrite IH.
Qed.

Lemma split_app_sep c h l : Forall (fun x => x <> c) h -> split_on c (h ++ c :: l) = h :: split_on c l.
Proof.
  induction 1 as [|x h Hx _ IH]; cbn.
  - by rewrite Stdlib.Strings.Ascii.eqb_refl.
  - destruct (Stdlib.Strings.Ascii.eqb_spec x c); [done|]. by rewrite IH.
Qed.

Lemma split_join c ls : ls <> [] -> Forall (fun h => Forall (fun x => x <> c) h) ls ->
  split_on c (join_with c ls) = ls.
Proof.
  intros Hne H. induction H as [|h ls Hh Hls IH]; [done|]. destruct ls as [|h' ls].
  - by apply split_line.
  - cbn [join_with] in *. rewrite split_app_sep by done. f_equal. by apply IH.
Qed.

Lemma split_app c l r : split_on c (l ++ c :: r) = split_on c l ++ split_on c r.
Proof.
  induction l as [|x l IH]; cbn; [by rewrite Stdlib.Strings.Ascii.eqb_refl|].
  destruct (Stdlib.Strings.Ascii.eqb x c); [by rewrite IH|]. rewrite IH.
  destruct (split_on c l) eqn:E; [by apply split_not_nil in E|done].
Qed.

(** ** The normal form of an output *)

(** Every line without its trailing blanks. *)
Definition trim_lines (l : bytes) : bytes := join_with nl (map (trim_right_set blank_char) (split_on nl l)).

Definition no_cr (l : bytes) : Prop := Forall (fun c => is_byte 13 c = false) l.

Lemma nl_eq c : is_byte 10 c = true -> c = nl.
Proof.
  unfold is_byte, code. intros H%N.eqb_eq. rewrite <- (Stdlib.Strings.Ascii.ascii_N_embedding c), H. done.
Qed.

Lemma replace_crlf_cons c l : is_byte 13 c = false -> replace_crlf (c :: l) = c :: replace_crlf l.
Proof. intros H. destruct l as [|d l]; [done|]. cbn [replace_crlf]. by rewrite H. Qed.

Lemma replace_crlf_id l : no_cr l -> replace_crlf l = l.
Proof.
  induction 1 as [|c l Hc _ IH]; [done|]. rewrite replace_crlf_cons by done. by f_equal.
Qed.

Lemma replace_cr_id l : no_cr l -> replace_cr l = l.
Proof.
  unfold replace_cr. induction 1 as [|c l Hc _ IH]; [done|]. cbn [map]. rewrite Hc. by f_equal.
Qed.

Lemma replace_cr_no l : no_cr (replace_cr l).
Proof.
  unfold replace_cr, no_cr. induction l as [|c l IH]; cbn [map]; constructor; [|done].
  by destruct (is_byte 13 c) eqn:E.
Qed.

Lemma trim_right_set_Forall (P : ascii -> Prop) p l : Forall P l -> Forall P (trim_right_set p l).
Proof. destruct (trim_right_set_spec p l) as (q & E & _). rewrite E at 1. by intros [H _]%Forall_app_inv. Qed.

Lemma split_Forall (P : ascii -> Prop) c l : Forall P l -> Forall (Forall P) (split_on c l).
Proof.
  induction 1 as [|x l Hx _ IH]; cbn; [by repeat constructor|].
  destruct (Stdlib.Strings.Ascii.eqb x c); [by constructor|].
  destruct (split_on c l); inversion_clear IH; by repeat constructor.
Qed.

Lemma join_Forall (P : ascii -> Prop) c ls : P c -> Forall (Forall P) ls -> Forall P (join_with c ls).
Proof.
  intros Hc. induction 1 as [|l ls Hl Hls IH]; [constructor|]. destruct ls; [done|].
  cbn [join_with] in *. apply Forall_app. split; [done|]. by constructor.
Qed.

Lemma split_trim_lines l : split_on nl (trim_lines l) = map (trim_right_set blank_char) (split_on nl l).
Proof.
  apply split_join; [by destruct (split_on nl l) eqn:E; [apply split_not_nil in E|]|].
  pose proof (split_lines_free nl l) as H. induction H as [|h t Hh _ IH]; constructor; [|done].
  by apply trim_right_set_Forall.
Qed.

Lemma trim_lines_no_cr l : no_cr l -> no_cr (trim_lines l).
Proof.
  intros H. apply join_Forall; [done|]. apply (split_Forall _ nl) in H.
  induction H as [|h t Hh _ IH]; constructor; [by apply trim_right_set_Forall|done].
Qed.

(** Cutting trailing newlines keeps the lines that remain. *)
Lemma split_trim_newlines l (P : bytes -> Prop) :
  Forall P (split_on nl l) -> Forall P (split_on nl (trim_right_set (is_byte 10) l)).
Proof.
  destruct (trim_right_set_spec (is_byte 10) l) as (q & E & Hq & _).
  remember (trim_right_set (is_byte 10) l) as t. rewrite E.
  destruct Hq as [|c q Hc _]; [by rewrite app_nil_r|]. apply nl_eq in Hc as ->.
  rewrite split_app. by intros [H _]%Forall_app_inv.
Qed.

Lemma trim_lines_id l : Forall (fun h => trim_right_set blank_char h = h) (split_on nl l) -> trim_lines l = l.
Proof.
  intros H. unfold trim_lines. rewrite <- (join_split nl l) at 2. f_equal.
  induction H as [|h t Hh _ IH]; [done|]. cbn. by rewrite Hh, IH.
Qed.

(** The shape of a normalized output: no carriage return, no trailing newline,
    no line with trailing blanks. *)
Definition normal_output (l : bytes) : Prop :=
  no_cr l /\ match last l with Some c => is_byte 10 c = false | None => True end
  /\ Forall (fun h => trim_right_set blank_char h = h) (split_on nl l).

Lemma normalize_normal l : normal_output (normalize_bytes l).
Proof.
  unfold normalize_bytes. fold (trim_lines (replace_cr (replace_crlf l))).
  set (m := replace_cr _). split_and!.
  - apply trim_right_set_Forall, trim_lines_no_cr, replace_cr_no.
  - by destruct (trim_right_set_spec (is_byte 10) (trim_lines m)) as (q & _ & _ & H).
  - apply split_trim_newlines. rewrite split_trim_lines. apply Forall_forall. intros h Hh.
    apply list_elem_of_fmap in Hh as (h' & -> & _). apply trim_right_set_idem.
Qed.

Lemma normalize_id l : normal_output l -> normalize_bytes l = l.
Proof.
  intros (H1 & H2 & H3). unfold normalize_bytes. rewrite replace_crlf_id, replace_cr_id by done.
  change (trim_right_set (is_byte 10) (trim_lines l) = l). rewrite trim_lines_id by done.
  by apply trim_right_set_stop.
Qed.

(** Line endings of either kind are the same output. *)
Definition dos_lines (l : bytes) : bytes := concat (map (fun c => if is_byte 10 c then [cr; nl] else [c]) l).

Lemma replace_crlf_dos l : no_cr l -> replace_crlf (dos_lines l) = l.
Proof.
  intros H. induction H as [|c l Hc Hl IH]; [done|]. unfold dos_lines in *. cbn [map concat].
  destruct (is_byte 10 c) eqn:E; cbn [app].
  - apply nl_eq in E as ->. change (replace_crlf (cr :: nl :: ?x)) with (replace_crlf (nl :: x)).
    rewrite replace_crlf_cons by done. by f_equal.
  - rewrite replace_crlf_cons by done. by f_equal.
Qed.

Lemma normalize_dos l : no_cr l -> normalize_bytes (dos_lines l) = normalize_bytes l.
Proof. intros H. unfold normalize_bytes. by rewrite replace_crlf_dos, replace_crlf_id. Qed.

(** Trailing newlines do not count. *)
Lemma trim_lines_newline l : trim_lines (l ++ [nl]) = trim_lines l ++ [nl].
Proof.
  unfold trim_lines. rewrite split_app. cbn [split_on]. rewrite map_app. cbn [map].
  change (trim_right_set blank_char []) with (@nil ascii).
  destruct (map (trim_right_set blank_char) (split_on nl l)) as [|h t] eqn:E.
  - apply map_eq_nil, split_not_nil in E as [].
  - clear E. revert h. induction t as [|h' t IH]; intros h; [done|].
    change (join_with nl ((h :: h' :: t) ++ [[]])) with (h ++ nl :: join_with nl ((h' :: t) ++ [[]])).
    rewrite IH. change (join_with nl (h :: h' :: t)) with (h ++ nl :: join_with nl (h' :: t)).
    by rewrite <- app_assoc.
Qed.

Lemma replace_crlf_snoc l : no_cr l -> normalize_bytes (l ++ [nl]) = normalize_bytes l.
Proof.
  intros H. assert (no_cr (l ++ [nl])) as H' by (apply Forall_app; by repeat constructor).
  unfold normalize_bytes. rewrite !replace_crlf_id, !replace_cr_id by done.
  change (trim_right_set (is_byte 10) (trim_lines (l ++ [nl])) = trim_right_set (is_byte 10) (trim_lines l)).
  rewrite trim_lines_newline. apply trim_right_set_app. by repeat constructor.
Qed.

Lemma NormalizeOutput_idem s : NormalizeOutput (NormalizeOutput s) = NormalizeOutput s.
Proof.
  unfold NormalizeOutput. rewrite chars_str. f_equal. apply normalize_id, normalize_normal.
Qed.

(** ** Facts about limits *)

Lemma required_output_ge l r : r <= fold_left required_output l r.
Proof.
  revert r. induction l as [|tc l IH]; intros r; cbn; [lia|]. etrans; [|apply IH].
  unfold required_output. destruct tc.(TcExpectedOutput); [|lia]. cbv zeta.
  destruct (Z.ltb_spec r (len s + expectedOutputHeadroomBytes)); lia.
Qed.

Lemma required_output_covers l r tc e : tc ∈ l -> tc.(TcExpectedOutput) = Some e ->
  len e + expectedOutputHeadroomBytes <= fold_left required_output l r.
Proof.
  revert r. induction l as [|x l IH]; intros r; [by intros ?%elem_of_nil|].
  intros [->|H]%elem_of_cons He; cbn; [|by apply IH].
  etrans; [|apply required_output_ge]. unfold required_output. rewrite He. cbv zeta.
  destruct (Z.ltb_spec r (len e + expectedOutputHeadroomBytes)); lia.
Qed.
