(* ===== verification/Diagnostics.v ===== *)
(** Compiler and runtime diagnostics of the worker:
    workers/judge/internal/adapter/outbound/execute/diagnostics.go. *)

From S2P Require Import Prelude GoString Patterns Sanitize WorkerDomain.

Definition diagnosticKindCompile : string := "compile".
Definition diagnosticKindRuntime : string := "runtime".
Definition diagnosticSeverityErr : string := "error".

(** ** Patterns *)

(** [(?m)(?:^|\n)], [(?:\./)?(?:.*/)?] and [(\d+)] *)
Definition line_start : regex := RAlt RBol (RChr nl).
Definition some_path : regex := RSeq (ROpt (RLit "./")) (ROpt (RSeq (RStar RAny) (RLit "/"))).
Definition number (n : nat) : regex := RGroup n (RPlus RDigit).
Definition rest_of_line (n : nat) : regex := RGroup n (RPlus RAny).
Definition error_or_warning : regex := RSeq (RAlt (RLit "error") (RLit "warning")) (RLit ":").

Definition goCompileDiagnostic : regex :=
  RSeqs [line_start; RStar RSpace; some_path; RLit "main.go:"; number 1; RLit ":"; number 2; RLit ":";
         RStar RSpace; rest_of_line 3].
Definition cppCompileDiagnostic : regex :=
  RSeqs [line_start; RStar RSpace; some_path; RLit "main.cpp:"; number 1; RLit ":"; number 2; RLit ":";
         RStar RSpace; ROpt (RSeq (RLit "fatal") (RPlus RSpace)); error_or_warning; RStar RSpace; rest_of_line 3].
Definition javaCompileDiagnostic : regex :=
  RSeqs [line_start; RStar RSpace; some_path; RLit "Main.java:"; number 1; RLit ":";
         RStar RSpace; error_or_warning; RStar RSpace; rest_of_line 2].
Definition goRuntimeFrame : regex :=
  RSeqs [line_start; RStar RSpace; some_path; RLit "main.go:"; number 1; RAlts [RSpace; RLit "+"; REol]].
Definition cppRuntimeFrame : regex :=
  RSeqs [line_start; RLazy RAny; some_path; RLit "main.cpp:"; number 1; ROpt (RLit ":"); ROpt (number 2)].
Definition javaRuntimeFrame : regex :=
  RSeqs [RWordB; RLit "at"; RPlus RSpace; RLit "Main."; RStar (RSet (fun c => negb (is_byte 40 c)));
         RLit "(Main.java:"; number 1; RLit ")"].
Definition pythonRuntimeFrame : regex :=
  RSeqs [RLit "File"; RPlus RSpace; RChr (ascii_of_N 34); ROpt (RSeq (RStar RAny) (RLit "/")); RLit "main.py";
         RChr (ascii_of_N 34); RLit ","; RPlus RSpace; RLit "line"; RPlus RSpace; number 1].

(** ** Parsing *)

Definition ToUpper (s : string) : string := str (map upper_ascii (chars s)).

Definition parsePositiveInt (raw : string) (fallback : Z) : Z :=
  match ParseInt (TrimSpace raw) with
  | Some value => if value <=? 0 then fallback else value
  | None => fallback
  end.

(** [match[i]]; group 0 stands for "no such group" in the callers. *)
Definition group (cs : caps) (n : nat) : string := str (capture cs n).

Definition parseLineColumnDiagnostics (output : string) (pattern : regex) (kind : string)
    (lineGroup columnGroup messageGroup : nat) : list CodeDiagnostic :=
  omap (fun cs =>
    let line := parsePositiveInt (group cs lineGroup) 0 in
    if line <=? 0 then None
    else
      let column := if (0 <? columnGroup)%nat then parsePositiveInt (group cs columnGroup) 1 else 1 in
      let message := TrimSpace (group cs messageGroup) in
      let message := if bool_decide (message = ""%string) then TrimSpace output else message in
      Some (mkDiag None kind diagnosticSeverityErr (Worker.sanitizeOutput message) line column))
    (FindAll pattern (chars output)).

Definition parseCompileDiagnostics (language output : string) : list CodeDiagnostic :=
  let output := Worker.sanitizeOutput output in
  let upper := ToUpper language in
  if bool_decide (upper = "GO")%string then
    parseLineColumnDiagnostics output goCompileDiagnostic diagnosticKindCompile 1 2 3
  else if bool_decide (upper = "CPP")%string then
    parseLineColumnDiagnostics output cppCompileDiagnostic diagnosticKindCompile 1 2 3
  else if bool_decide (upper = "JAVA")%string then
    parseLineColumnDiagnostics output javaCompileDiagnostic diagnosticKindCompile 1 0 2
  else [].

Definition parseRuntimeFrame (pattern : regex) (output : string) (lineGroup columnGroup : nat) : option (Z * Z) :=
  match FindSubmatch pattern (chars output) with
  | None => None
  | Some cs =>
      let line := parsePositiveInt (group cs lineGroup) 0 in
      if line <=? 0 then None
      else Some (line, if (0 <? columnGroup)%nat then parsePositiveInt (group cs columnGroup) 1 else 1)
  end.

Definition runtimeSourceLocation (language output : string) : option (Z * Z) :=
  let upper := ToUpper language in
  if bool_decide (upper = "GO")%string then parseRuntimeFrame goRuntimeFrame output 1 0
  else if bool_decide (upper = "CPP")%string then parseRuntimeFrame cppRuntimeFrame output 1 2
  else if bool_decide (upper = "JAVA")%string then parseRuntimeFrame javaRuntimeFrame output 1 0
  else if bool_decide (upper = "PYTHON")%string then parseRuntimeFrame pythonRuntimeFrame output 1 0
  else None.

Definition skipped_headline (line : string) : bool :=
  existsb (fun p => has_prefix (chars p) (chars line)) ["goroutine "; "Traceback "; "File "; "at "]%string.

Definition runtimeHeadline (output : string) : string :=
  let lines := map (fun l => TrimSpace (str l)) (split_on nl (chars output)) in
  match find_first (fun l => negb (bool_decide (l = ""%string)) && negb (skipped_headline l)) lines with
  | Some line => line
  | None => TrimSpace output
  end.

Definition parseRuntimeDiagnostics (language testcaseID output : string) : list CodeDiagnostic :=
  let output := Worker.sanitizeOutput output in
  if bool_decide (TrimSpace output = ""%string) then []
  else match runtimeSourceLocation language output with
       | None => []
       | Some (line, column) =>
           [mkDiag (Some testcaseID) diagnosticKindRuntime diagnosticSeverityErr (runtimeHeadline output) line column]
       end.

(** The first runtime diagnostic with a message that survives cleaning. *)
Fixpoint first_public_message (diagnostics : list CodeDiagnostic) : option string :=
  match diagnostics with
  | [] => None
  | d :: rest =>
      if bool_decide (d.(DgKind) = diagnosticKindRuntime)
      then let message := Worker.publicErrorMessage d.(DgMessage) in
           if bool_decide (message = ""%string) then first_public_message rest else Some message
      else first_public_message rest
  end.

Definition runtimeErrorMessage (stderr : string) (diagnostics : list CodeDiagnostic) : string :=
  match first_public_message diagnostics with
  | Some message => message
  | None => Worker.publicErrorMessage (runtimeHeadline (Worker.sanitizeOutput stderr))
  end.

(** ** Examples *)

Example go_compile_example :
  parseCompileDiagnostics "GO" "./main.go:3:5: undefined: x"
  = [mkDiag None "compile" "error" "undefined: x" 3 5].
Proof. vm_compute. reflexivity. Qed.

Definition python_trace : string :=
  let q := [ascii_of_N 34] in
  str (join_with nl [chars "Traceback (most recent call last):";
    chars "  File " ++ q ++ chars "/w/main.py" ++ q ++ chars ", line 12, in <module>"; chars "ValueError: bad"]).
Example python_runtime_example :
  parseRuntimeDiagnostics "PYTHON" "tc-1" python_trace
  = [mkDiag (Some "tc-1"%string) "runtime" "error" "ValueError: bad" 12 1].
Proof. vm_compute. reflexivity. Qed.
Example java_runtime_example :
  runtimeSourceLocation "JAVA" "Exception in thread main at Main.solve(Main.java:42)" = Some (42, 1).
Proof. vm_compute. reflexivity. Qed.
Example cpp_runtime_example : runtimeSourceLocation "CPP" "==1== at main.cpp:17:9" = Some (17, 9).
Proof. vm_compute. reflexivity. Qed.

(** ** Facts *)

Lemma parsePositiveInt_pos raw fallback : 0 <= fallback -> fallback <= parsePositiveInt raw fallback \/ 0 < parsePositiveInt raw fallback.
Proof. unfold parsePositiveInt. destruct (ParseInt _) as [v|]; [|lia]. destruct (Z.leb_spec v 0); lia. Qed.

(** What every diagnostic the worker reports satisfies. *)
Definition diagnostic_ok (d : CodeDiagnostic) : Prop :=
  0 < d.(DgLine) /\ 0 < d.(DgColumn) /\ d.(DgSeverity) = diagnosticSeverityErr
  /\ d.(DgLine) <= int64_max /\ d.(DgColumn) <= int64_max.

Lemma ParseInt_range s v : ParseInt s = Some v -> in_int64 v.
Proof.
  unfold ParseInt, in_int64. intros H. repeat (case_match; try done); simplify_eq; bools; lia.
Qed.

Lemma parsePositiveInt_range raw : 0 < parsePositiveInt raw 1 <= int64_max.
Proof.
  unfold parsePositiveInt. destruct (ParseInt _) as [v|] eqn:E; [|done]. apply ParseInt_range in E as [_ E].
  destruct (Z.leb_spec v 0); [done|lia].
Qed.

Lemma parsePositiveInt_max raw : parsePositiveInt raw 0 <= int64_max.
Proof.
  unfold parsePositiveInt. destruct (ParseInt _) as [v|] eqn:E; [|done]. apply ParseInt_range in E as [_ E].
  destruct (Z.leb_spec v 0); [done|lia].
Qed.

Lemma line_column_ok output pattern kind l c m :
  Forall (fun d => diagnostic_ok d /\ d.(DgKind) = kind) (parseLineColumnDiagnostics output pattern kind l c m).
Proof.
  apply Forall_forall. intros d Hd. apply list_elem_of_omap in Hd as (cs & _ & H). cbv zeta in H.
  destruct (Z.leb_spec (parsePositiveInt (group cs l) 0) 0) as [|Hl]; [done|]. injection H as <-.
  pose proof (parsePositiveInt_range (group cs c)). pose proof (parsePositiveInt_max (group cs l)).
  unfold diagnostic_ok. cbn [DgLine DgColumn DgSeverity DgKind].
  destruct (0 <? c)%nat; split_and!; try done; unfold int64_max in *; lia.
Qed.

Lemma compile_diagnostics_ok language output :
  Forall (fun d => diagnostic_ok d /\ d.(DgKind) = diagnosticKindCompile) (parseCompileDiagnostics language output).
Proof. unfold parseCompileDiagnostics. repeat case_bool_decide; try apply line_column_ok. constructor. Qed.

Lemma frame_ok pattern output l c line column : parseRuntimeFrame pattern output l c = Some (line, column) ->
  0 < line <= int64_max /\ 0 < column <= int64_max.
Proof.
  unfold parseRuntimeFrame. destruct (FindSubmatch _ _) as [cs|]; [|done]. cbv zeta.
  destruct (Z.leb_spec (parsePositiveInt (group cs l) 0) 0) as [|Hl]; [done|]. intros [= <- <-].
  pose proof (parsePositiveInt_range (group cs c)). pose proof (parsePositiveInt_max (group cs l)).
  destruct (0 <? c)%nat; unfold int64_max in *; lia.
Qed.

Lemma runtime_diagnostics_ok language tc output :
  Forall (fun d => diagnostic_ok d /\ d.(DgKind) = diagnosticKindRuntime /\ d.(DgTestCaseID) = Some tc)
    (parseRuntimeDiagnostics language tc output)
  /\ (length (parseRuntimeDiagnostics language tc output) <= 1)%nat.
Proof.
  unfold parseRuntimeDiagnostics. case_bool_decide; [split; [constructor|cbn; lia]|].
  destruct (runtimeSourceLocation _ _) as [[line column]|] eqn:E; [|split; [constructor|cbn; lia]].
  assert (0 < line <= int64_max /\ 0 < column <= int64_max) as [H1 H2].
  { unfold runtimeSourceLocation in E. repeat case_bool_decide; try done; by eapply frame_ok. }
  split; [|done]. repeat constructor; cbn; try done; lia.
Qed.

Lemma worker_public_spec m : Worker.publicErrorMessage m <> ""%string ->
  len (Worker.publicErrorMessage m) <= 4096 + 3 /\ ValidString (Worker.publicErrorMessage m) = true
  /\ Forall (fun c => public_byte c = true) (chars (Worker.publicErrorMessage m)).
Proof.
  unfold Worker.publicErrorMessage. destruct (clean_message _) as [l|] eqn:E; [|done]. intros _.
  apply clean_message_spec in E as (_ & H1 & H2 & H3). unfold ValidString.
  rewrite len_str, chars_str. split_and!; [|by apply valid_utf8_spec|done].
  change (4096 + 3) with (Z.of_nat (max_error_bytes + 3)). lia.
Qed.

Lemma first_public_message_spec ds m : first_public_message ds = Some m ->
  m <> ""%string /\ exists d, d ∈ ds /\ m = Worker.publicErrorMessage d.(DgMessage).
Proof.
  induction ds as [|d ds IH]; cbn; [done|]. case_bool_decide; [case_bool_decide as B|].
  - intros H'. apply IH in H' as (H1 & d' & H2 & H3). split; [done|]. exists d'. split; [by right|done].
  - intros [= <-]. split; [done|]. exists d. split; [by left|done].
  - intros H'. apply IH in H' as (H1 & d' & H2 & H3). split; [done|]. exists d'. split; [by right|done].
Qed.

(** The message shown for a runtime error is empty or a public message. *)
Lemma runtimeErrorMessage_public stderr ds : exists m,
  runtimeErrorMessage stderr ds = Worker.publicErrorMessage m.
Proof.
  unfold runtimeErrorMessage. destruct (first_public_message ds) as [m|] eqn:E; [|eauto].
  apply first_public_message_spec in E as (_ & d & _ & ->). eauto.
Qed.
