(* ===== verification/TestcaseCache.v ===== *)
(** The sandbox testcase-input cache of the worker:
    workers/judge/internal/adapter/outbound/execute/testcase_cache.go.

    Every function of the file that holds [c.mu] is one pure step here, so
    goroutines interleave at exactly these steps; the calls of the sandbox
    happen outside the lock.  [step] is a step of one cache, [worker_step] adds
    those of [reconcile], which takes over the files an earlier worker left in
    the sandbox; [reachable] is what the goroutines of a new worker can reach. *)

From S2P Require Import Prelude GoString GoError GoMonad GoCrypto WorkerDomain.

(** ** Keys and names *)

Record testcaseCacheKey := mkKey {
  problemID : Z;
  datasetVersion : Z;
  datasetChecksum : string;
  testcaseID : string;
  inputChecksum : string;
}.

#[export] Instance testcaseCacheKey_eq_dec : EqDecision testcaseCacheKey.
Proof. solve_decision. Defined.
#[export] Instance testcaseCacheKey_countable : Countable testcaseCacheKey.
Proof.
  apply (inj_countable' (fun k => (k.(problemID), k.(datasetVersion), k.(datasetChecksum), k.(testcaseID), k.(inputChecksum)))
    (fun '(a, b, c, d, e) => mkKey a b c d e)). by intros [].
Defined.

Definition isSHA256Hex (value : string) : bool := (len value =? 64) && forallb lower_hex (chars value).

Definition newTestcaseCacheKey (identity : option TestcaseDatasetIdentity) (tc : ExecutionTestCase) : option testcaseCacheKey :=
  match identity with
  | None => None
  | Some i =>
      if (i.(IdProblemID) <=? 0) || (i.(IdVersion) <=? 0) || negb (isSHA256Hex i.(IdDatasetChecksum))
         || bool_decide (tc.(TcID) = ""%string)
      then None
      else Some (mkKey i.(IdProblemID) i.(IdVersion) i.(IdDatasetChecksum) tc.(TcID)
                   (str (HexEncode (Sum256 (chars tc.(Stdin))))))
  end.

Definition dash : ascii := ascii_of_N 45.

Definition name_parts (k : testcaseCacheKey) : list bytes :=
  [chars "astracode"; chars "tc"; chars "v1";
   chars "p" ++ chars (Itoa k.(problemID)); chars "v" ++ chars (Itoa k.(datasetVersion));
   chars "d" ++ chars k.(datasetChecksum); chars "t" ++ HexEncode (chars k.(testcaseID));
   chars "i" ++ chars k.(inputChecksum)].

Definition name (k : testcaseCacheKey) : string := str (join_with dash (name_parts k)).
Definition nameWithSize (k : testcaseCacheKey) (inputSize : Z) : string :=
  str (join_with dash (name_parts k ++ [chars "s" ++ chars (Itoa inputSize)])).

(** The pattern [[1-9][0-9]*]. *)
Definition is_positive_number (l : bytes) : bool :=
  match l with c :: r => within 49 57 c && forallb is_digit r | [] => false end.
(** A field with its one-letter prefix. *)
Definition field (letter : N) (ok : bytes -> bool) (l : bytes) : option bytes :=
  match l with c :: r => if is_byte letter c && ok r then Some r else None | [] => None end.
Definition nonempty (p : ascii -> bool) (l : bytes) : bool := negb (bool_decide (l = [])) && forallb p l.
Definition is_hash (l : bytes) : bool := (length l =? 64)%nat && forallb lower_hex l.

(** [parseTestcaseCacheName].  No field of the pattern contains a dash, so the
    pattern matches exactly the texts whose dash-separated parts have the given
    shapes.  The result is the key, the size and whether it is known. *)
Definition parse_key (p v d t i : bytes) : option testcaseCacheKey :=
  match field 112 is_positive_number p, field 118 is_positive_number v, field 100 is_hash d,
        field 116 (nonempty lower_hex) t, field 105 is_hash i with
  | Some p, Some v, Some d, Some t, Some i =>
      match ParseInt (str p), ParseInt (str v), HexDecode t with
      | Some p, Some v, Some t =>
          if (p <=? 0) || (v <=? 0) || bool_decide (t = []) then None
          else Some (mkKey p v (str d) (str t) (str i))
      | _, _, _ => None
      end
  | _, _, _, _, _ => None
  end.

Definition parseTestcaseCacheName (n : string) : option (testcaseCacheKey * Z * bool) :=
  match split_on dash (chars n) with
  | a :: b :: c :: p :: v :: d :: t :: i :: rest =>
      if bool_decide ((a, b, c) = (chars "astracode", chars "tc", chars "v1")) then
        match parse_key p v d t i with
        | None => None
        | Some key =>
            match rest with
            | [] => Some (key, 0, false)
            | [s] =>
                match field 115 (nonempty is_digit) s with
                | Some s => match ParseInt (str s) with
                            | Some size => if size <? 0 then None else Some (key, size, true)
                            | None => None
                            end
                | None => None
                end
            | _ => None
            end
        end
      else None
  | _ => None
  end.

(** ** State *)

Record testcaseCacheBinding := mkBinding { BKey : testcaseCacheKey; BFileID : string }.

Record testcaseCacheEntry := mkEntry {
  fileID : string;
  sizeBytes : Z;
  sizeKnown : bool;
  createdAt : Z;
  lastUsed : Z;
  inUse : Z;
  deleting : bool;
}.

Record TestcaseCacheConfig := mkCacheConfig {
  Enabled : bool;
  MaxBytes : Z;
  MaxEntries : Z;
  IdleTTL : Z;
  CleanupInterval : Z;
}.

Record cache := mkCache {
  entries : gmap testcaseCacheKey testcaseCacheEntry;
  totalBytes : Z;
  unknownEntries : Z;
  reservedBytes : Z;
  reservedEntries : Z;
  reconciled : bool;
  reconcileAttempted : bool;
  cleanupRunning : bool;
  closed : bool;
  nextCleanup : Z;
}.

Definition empty_cache : cache := mkCache ∅ 0 0 0 0 false false false false 0.

(** [newConfiguredSandboxTestcaseCache]: whether the cache is enabled, or the
    configuration error. *)
Definition cache_enabled (cfg : TestcaseCacheConfig) : error + bool :=
  if negb cfg.(Enabled) then inr false
  else if cfg.(MaxBytes) <=? 0 then inl (EText "testcase cache max_bytes must be greater than zero when enabled")
  else if cfg.(MaxEntries) <=? 0 then inl (EText "testcase cache max_entries must be greater than zero when enabled")
  else if cfg.(IdleTTL) <? 0 then inl (EText "testcase cache idle_ttl must not be negative")
  else if cfg.(CleanupInterval) <=? 0 then inl (EText "testcase cache cleanup_interval must be greater than zero when enabled")
  else inr true.

Definition with_entries (c : cache) (m : gmap testcaseCacheKey testcaseCacheEntry) (total unknown : Z) : cache :=
  mkCache m total unknown c.(reservedBytes) c.(reservedEntries) c.(reconciled) c.(reconcileAttempted)
    c.(cleanupRunning) c.(closed) c.(nextCleanup).
Definition with_reserved (c : cache) (bytes n : Z) : cache :=
  mkCache c.(entries) c.(totalBytes) c.(unknownEntries) bytes n c.(reconciled) c.(reconcileAttempted)
    c.(cleanupRunning) c.(closed) c.(nextCleanup).
Definition with_reconcile (c : cache) (done attempted : bool) : cache :=
  mkCache c.(entries) c.(totalBytes) c.(unknownEntries) c.(reservedBytes) c.(reservedEntries) done attempted
    c.(cleanupRunning) c.(closed) c.(nextCleanup).
Definition with_cleanup (c : cache) (running closed : bool) (next : Z) : cache :=
  mkCache c.(entries) c.(totalBytes) c.(unknownEntries) c.(reservedBytes) c.(reservedEntries) c.(reconciled)
    c.(reconcileAttempted) running closed next.

(** ** The locked steps *)

Definition pin (key : testcaseCacheKey) (inputSize now : Z) (c : cache) : option testcaseCacheBinding * cache :=
  match c.(entries) !! key with
  | None => (None, c)
  | Some e =>
      if e.(deleting) then (None, c)
      else
        let used size := mkEntry e.(fileID) size true e.(createdAt) now (e.(inUse) + 1) e.(deleting) in
        let '(e', total, unknown) :=
          if e.(sizeKnown) then (used e.(sizeBytes), c.(totalBytes), c.(unknownEntries))
          else (used inputSize, c.(totalBytes) + inputSize, c.(unknownEntries) - 1) in
        (Some (mkBinding key e.(fileID)), with_entries c (<[key := e']> c.(entries)) total unknown)
  end.

Definition release_one (now : Z) (c : cache) (b : testcaseCacheBinding) : cache :=
  match c.(entries) !! b.(BKey) with
  | None => c
  | Some e =>
      if negb (bool_decide (e.(fileID) = b.(BFileID))) || (e.(inUse) =? 0) then c
      else with_entries c
             (<[b.(BKey) := mkEntry e.(fileID) e.(sizeBytes) e.(sizeKnown) e.(createdAt) now (e.(inUse) - 1) e.(deleting)]>
                c.(entries)) c.(totalBytes) c.(unknownEntries)
  end.
Definition release (bindings : list testcaseCacheBinding) (now : Z) (c : cache) : cache :=
  fold_left (release_one now) bindings c.

Definition reserve (cfg : TestcaseCacheConfig) (size : Z) (c : cache) : bool * cache :=
  if (size <? 0) || (cfg.(MaxBytes) <? size) then (false, c)
  else if (0 <? c.(unknownEntries))
          || (cfg.(MaxEntries) <=? Z.of_nat (map_size c.(entries)) + c.(reservedEntries))
          || (cfg.(MaxBytes) <? c.(totalBytes) + c.(reservedBytes) + size)
  then (false, c)
  else (true, with_reserved c (c.(reservedBytes) + size) (c.(reservedEntries) + 1)).

Definition releaseReservation (size : Z) (c : cache) : cache :=
  let bytes := c.(reservedBytes) - size in
  let n := c.(reservedEntries) - 1 in
  if (bytes <? 0) || (n <? 0) then with_reserved c 0 0 else with_reserved c bytes n.

(** [removeAccounting]: the counters without an entry. *)
Definition removeAccounting (e : testcaseCacheEntry) (total unknown : Z) : Z * Z :=
  if e.(sizeKnown) then (total - e.(sizeBytes), unknown) else (total, unknown - 1).

Definition store (key : testcaseCacheKey) (fid : string) (size : Z) (known : bool) (now : Z) (c : cache) : cache :=
  let add total unknown :=
    with_entries c (<[key := mkEntry fid size known now now 0 false]> c.(entries))
      (if known then total + size else total) (if known then unknown else unknown + 1) in
  match c.(entries) !! key with
  | None => add c.(totalBytes) c.(unknownEntries)
  | Some e =>
      if bool_decide (e.(fileID) = fid) then
        if negb e.(sizeKnown) && known
        then with_entries c
               (<[key := mkEntry e.(fileID) size true e.(createdAt) e.(lastUsed) e.(inUse) e.(deleting)]> c.(entries))
               (c.(totalBytes) + size) (c.(unknownEntries) - 1)
        else c
      else let '(total, unknown) := removeAccounting e c.(totalBytes) c.(unknownEntries) in add total unknown
  end.

Definition removeIfMatch (key : testcaseCacheKey) (fid : string) (c : cache) : bool * cache :=
  match c.(entries) !! key with
  | None => (false, c)
  | Some e =>
      if negb (bool_decide (e.(fileID) = fid)) then (false, c)
      else let '(total, unknown) := removeAccounting e c.(totalBytes) c.(unknownEntries) in
           (true, with_entries c (delete key c.(entries)) total unknown)
  end.

Definition set_deleting (e : testcaseCacheEntry) (d : bool) : testcaseCacheEntry :=
  mkEntry e.(fileID) e.(sizeBytes) e.(sizeKnown) e.(createdAt) e.(lastUsed) e.(inUse) d.

Definition markDeleteFailed (b : testcaseCacheBinding) (c : cache) : cache :=
  match c.(entries) !! b.(BKey) with
  | Some e => if bool_decide (e.(fileID) = b.(BFileID))
              then with_entries c (<[b.(BKey) := set_deleting e false]> c.(entries)) c.(totalBytes) c.(unknownEntries)
              else c
  | None => c
  end.

Definition lookup_file (key : testcaseCacheKey) (c : cache) : option string :=
  match c.(entries) !! key with
  | Some e => if e.(deleting) then None else Some e.(fileID)
  | None => None
  end.

(** [maybeScheduleCleanup]: whether a cleanup goroutine is started. *)
Definition maybeScheduleCleanup (cfg : TestcaseCacheConfig) (now : Z) (c : cache) : bool * cache :=
  if negb cfg.(Enabled) then (false, c)
  else if c.(closed) || c.(cleanupRunning) || (now <? c.(nextCleanup)) then (false, c)
  else (true, with_cleanup c true c.(closed) (now + cfg.(CleanupInterval))).

(** [Close]: the locked part; the caller then waits for the cleanups. *)
Definition Close (cfg : TestcaseCacheConfig) (c : cache) : cache :=
  if negb cfg.(Enabled) then c else if c.(closed) then c else with_cleanup c c.(cleanupRunning) true c.(nextCleanup).

(** *** Eviction *)

Definition candidate : Type := testcaseCacheKey * testcaseCacheEntry.

(** Least recently used first, ties by name. *)
Definition older (a b : candidate) : Prop :=
  a.2.(lastUsed) < b.2.(lastUsed)
  \/ a.2.(lastUsed) = b.2.(lastUsed) /\ Stdlib.Strings.String.leb (name a.1) (name b.1) = true.
#[export] Instance older_dec a b : Decision (older a b).
Proof. unfold older. apply _. Defined.

Definition eligible (c : cache) : list candidate :=
  merge_sort older (filter (fun p => p.2.(inUse) = 0 /\ p.2.(deleting) = false) (map_to_list c.(entries))).

Definition idle (cfg : TestcaseCacheConfig) (now : Z) (e : testcaseCacheEntry) : bool :=
  (0 <? cfg.(IdleTTL)) && (e.(lastUsed) + cfg.(IdleTTL) <=? now).

(** The loop over the eligible entries; [n] and [bytes] are what remains. *)
Fixpoint select_loop (cfg : TestcaseCacheConfig) (now : Z) (l : list candidate) (n bytes : Z) : list candidate :=
  match l with
  | [] => []
  | p :: rest =>
      if negb (idle cfg now p.2) && (n <=? cfg.(MaxEntries)) && (bytes <=? cfg.(MaxBytes))
      then select_loop cfg now rest n bytes
      else p :: select_loop cfg now rest (n - 1) (if p.2.(sizeKnown) then bytes - p.2.(sizeBytes) else bytes)
  end.

Definition selected (cfg : TestcaseCacheConfig) (now : Z) (c : cache) : list candidate :=
  select_loop cfg now (eligible c) (Z.of_nat (map_size c.(entries))) c.(totalBytes).

Definition selectEvictionCandidates (cfg : TestcaseCacheConfig) (now : Z) (c : cache)
  : list testcaseCacheBinding * cache :=
  let sel := selected cfg now c in
  (map (fun p => mkBinding p.1 p.2.(fileID)) sel,
   with_entries c (foldr (fun p m => <[p.1 := set_deleting p.2 true]> m) c.(entries) sel)
     c.(totalBytes) c.(unknownEntries)).

(** ** Accounting *)

Definition known_bytes (e : testcaseCacheEntry) : Z := if e.(sizeKnown) then e.(sizeBytes) else 0.
Definition unknown_one (e : testcaseCacheEntry) : Z := if e.(sizeKnown) then 0 else 1.

(** The counters are what the entries say. *)
Record accounted (c : cache) : Prop := {
  acc_bytes : c.(totalBytes) = msum known_bytes c.(entries);
  acc_unknown : c.(unknownEntries) = msum unknown_one c.(entries);
  acc_entries : forall k e, c.(entries) !! k = Some e -> 0 <= e.(sizeBytes) /\ 0 <= e.(inUse);
}.

Lemma empty_accounted : accounted empty_cache.
Proof. constructor; cbn; rewrite ?msum_empty; done. Qed.

(** Replacing one entry. *)
Lemma accounted_insert c k e e' total unknown : accounted c -> c.(entries) !! k = Some e ->
  0 <= e'.(sizeBytes) -> 0 <= e'.(inUse) ->
  total = c.(totalBytes) - known_bytes e + known_bytes e' ->
  unknown = c.(unknownEntries) - unknown_one e + unknown_one e' ->
  accounted (with_entries c (<[k := e']> c.(entries)) total unknown).
Proof.
  intros [H1 H2 H3] Hk Hs Hu -> ->. constructor; cbn.
  - rewrite (msum_insert _ _ _ _ _ Hk). lia.
  - rewrite (msum_insert _ _ _ _ _ Hk). lia.
  - intros k' x [[<- <-]|[_ Hx]]%lookup_insert_Some; [done|eauto].
Qed.

Lemma accounted_new c k e : accounted c -> c.(entries) !! k = None -> 0 <= e.(sizeBytes) -> 0 <= e.(inUse) ->
  accounted (with_entries c (<[k := e]> c.(entries)) (c.(totalBytes) + known_bytes e) (c.(unknownEntries) + unknown_one e)).
Proof.
  intros [H1 H2 H3] Hk Hs Hu. constructor; cbn.
  - rewrite msum_insert_new by done. lia.
  - rewrite msum_insert_new by done. lia.
  - intros k' x [[<- <-]|[_ Hx]]%lookup_insert_Some; [done|eauto].
Qed.

Lemma pin_accounted key size now c : accounted c -> 0 <= size -> accounted (pin key size now c).2.
Proof.
  intros HA Hs. unfold pin. destruct (entries c !! key) as [e|] eqn:E; [|done].
  destruct (deleting e) eqn:D; [done|]. pose proof (acc_entries c HA _ _ E) as [E1 E2].
  destruct (sizeKnown e) eqn:K; cbn; (eapply accounted_insert; [done|done|cbn; lia|cbn; lia|..]);
    unfold known_bytes, unknown_one; rewrite K; cbn; lia.
Qed.

Lemma release_one_accounted now c b : accounted c -> accounted (release_one now c b).
Proof.
  intros HA. unfold release_one. destruct (entries c !! BKey b) as [e|] eqn:E; [|done].
  destruct (_ || _) eqn:D; [done|]. bools. pose proof (acc_entries c HA _ _ E) as [E1 E2].
  eapply accounted_insert; [done|done|cbn; lia|cbn; lia|..]; unfold known_bytes, unknown_one; cbn; lia.
Qed.

Lemma release_accounted bs now c : accounted c -> accounted (release bs now c).
Proof.
  unfold release. revert c. induction bs as [|b bs IH]; intros c HA; [done|]. cbn.
  by apply IH, release_one_accounted.
Qed.

Lemma reserved_accounted c b n : accounted c -> accounted (with_reserved c b n).
Proof. intros [H1 H2 H3]. by constructor. Qed.

Lemma store_accounted key fid size known now c : accounted c -> 0 <= size -> accounted (store key fid size known now c).
Proof.
  intros HA Hs. unfold store. destruct (entries c !! key) as [e|] eqn:E.
  - pose proof (acc_entries c HA _ _ E) as [E1 E2].
    case_bool_decide as B.
    + destruct (negb _ && known) eqn:D; [|done]. bools.
      eapply accounted_insert; [done|done|cbn; lia|cbn; lia|..]; unfold known_bytes, unknown_one; cbn;
        rewrite H; lia.
    + unfold removeAccounting. destruct (sizeKnown e) eqn:K, known;
        (eapply accounted_insert; [done|done|cbn; lia|cbn; lia|..]);
        unfold known_bytes, unknown_one; rewrite K; cbn; lia.
  - pose proof (accounted_new c key (mkEntry fid size known now now 0 false) HA E Hs ltac:(cbn; lia)) as H.
    unfold known_bytes, unknown_one in H. cbn in H. destruct known; [by rewrite Z.add_0_r in H|].
    by rewrite Z.add_0_r in H.
Qed.

Lemma removeIfMatch_accounted key fid c : accounted c -> accounted (removeIfMatch key fid c).2.
Proof.
  intros HA. unfold removeIfMatch. destruct (entries c !! key) as [e|] eqn:E; [|done].
  destruct (negb _); [done|]. destruct HA as [H1 H2 H3]. unfold removeAccounting.
  assert (forall k e', delete key (entries c) !! k = Some e' -> 0 <= sizeBytes e' /\ 0 <= inUse e') as H3'.
  { intros k e' [_ H]%lookup_delete_Some. eauto. }
  destruct (sizeKnown e) eqn:K; constructor; cbn; try done; rewrite (msum_delete _ _ _ _ E);
    unfold known_bytes, unknown_one in *; rewrite K; lia.
Qed.

Lemma markDeleteFailed_accounted b c : accounted c -> accounted (markDeleteFailed b c).
Proof.
  intros HA. unfold markDeleteFailed. destruct (entries c !! BKey b) as [e|] eqn:E; [|done].
  case_bool_decide; [|done]. pose proof (acc_entries c HA _ _ E) as [E1 E2].
  eapply accounted_insert; [done|done|done|done|..]; unfold known_bytes, unknown_one; cbn; lia.
Qed.

(** The candidates are entries of the cache that are not in use and not
    already being deleted. *)
Lemma eligible_spec c k e : (k, e) ∈ eligible c <->
  entries c !! k = Some e /\ inUse e = 0 /\ deleting e = false.
Proof.
  unfold eligible. rewrite merge_sort_Permutation, list_elem_of_filter, elem_of_map_to_list. naive_solver.
Qed.

Lemma select_loop_sublist cfg now l n b : sublist (select_loop cfg now l n b) l.
Proof.
  revert n b. induction l as [|p l IH]; intros n b; [constructor|]. cbn. destruct (_ && _); constructor; apply IH.
Qed.

Lemma selected_spec cfg now c k e : (k, e) ∈ selected cfg now c ->
  entries c !! k = Some e /\ inUse e = 0 /\ deleting e = false.
Proof.
  intros H. apply eligible_spec. eapply elem_of_submseteq; [exact H|]. apply sublist_submseteq, select_loop_sublist.
Qed.

Lemma select_accounted cfg now c : accounted c -> accounted (selectEvictionCandidates cfg now c).2.
Proof.
  intros HA. unfold selectEvictionCandidates. cbn.
  assert (forall sel, (forall p, p ∈ sel -> entries c !! p.1 = Some p.2) ->
    let m := foldr (fun p m => <[p.1 := set_deleting p.2 true]> m) (entries c) sel in
    msum known_bytes m = msum known_bytes (entries c) /\ msum unknown_one m = msum unknown_one (entries c)
    /\ forall k e, m !! k = Some e -> exists e0 d, entries c !! k = Some e0 /\ e = set_deleting e0 d) as K.
  { induction sel as [|p sel IH]; cbn; intros Hs.
    - split_and!; try done. intros k e He. exists e, (deleting e). split; [done|by destruct e].
    - destruct IH as (I1 & I2 & I3); [intros q Hq; apply Hs; by right|].
      set (m := foldr _ _ sel) in *. pose proof (Hs p ltac:(by left)) as Hp.
      assert (exists d, m !! p.1 = Some (set_deleting p.2 d)) as [d Hm].
      { destruct (m !! p.1) as [e|] eqn:Em.
        - destruct (I3 _ _ Em) as (e0 & d & He & ->). rewrite Hp in He. injection He as <-. eauto.
        - exfalso. clear -Em Hp. unfold m in Em. clear m. induction sel as [|q sel IH]; cbn in Em; [congruence|].
          apply lookup_insert_None in Em as [Em _]. auto. }
      rewrite !(msum_insert _ _ _ _ _ Hm). unfold known_bytes, unknown_one in *. cbn.
      split_and!; [lia|lia|]. intros k e [[<- <-]|[_ He]]%lookup_insert_Some; [eauto|by apply I3]. }
  destruct (K (selected cfg now c)) as (K1 & K2 & K3).
  { intros [k e] H. by apply selected_spec in H as [H _]. }
  destruct HA as [H1 H2 H3]. constructor; cbn; [congruence|congruence|].
  intros k e He. destruct (K3 _ _ He) as (e0 & d & H & ->). cbn. by apply (H3 k).
Qed.

(** ** Eviction policy *)

Definition sel_bytes (l : list candidate) : Z := sum_by (fun p => known_bytes p.2) l.

Lemma select_loop_fits cfg now l n b : Forall (fun p => 0 <= known_bytes p.2) l ->
  select_loop cfg now l n b = l
  \/ (n - Z.of_nat (length (select_loop cfg now l n b)) <= cfg.(MaxEntries)
      /\ b - sel_bytes (select_loop cfg now l n b) <= cfg.(MaxBytes)).
Proof.
  assert (forall l n b, Forall (fun p => 0 <= known_bytes p.2) l -> n <= cfg.(MaxEntries) -> b <= cfg.(MaxBytes) ->
    n - Z.of_nat (length (select_loop cfg now l n b)) <= cfg.(MaxEntries)
    /\ b - sel_bytes (select_loop cfg now l n b) <= cfg.(MaxBytes)) as K.
  { clear. induction l as [|p l IH]; intros n b HF Hn Hb; [cbn; lia|]. inversion_clear HF as [|x y H1 H2].
    cbn [select_loop]. destruct (_ && _); [by apply IH|].
    unfold sel_bytes in *. rewrite sum_by_cons. cbn [length].
    assert (known_bytes p.2 = if sizeKnown p.2 then sizeBytes p.2 else 0) as EK by done. rewrite EK in *.
    destruct (sizeKnown p.2);
      [destruct (IH (n - 1) (b - sizeBytes p.2) H2)|destruct (IH (n - 1) b H2)]; lia || (split; lia). }
  revert n b. induction l as [|p l IH]; intros n b HF; [by left|]. inversion_clear HF as [|x y H1 H2].
  cbn [select_loop]. destruct (_ && _) eqn:E.
  - right. bools. by apply K.
  - set (b' := if sizeKnown p.2 then _ else _).
    destruct (IH (n - 1) b' H2) as [->|[I1 I2]]; [by left|right].
    unfold sel_bytes in *. rewrite sum_by_cons. cbn [length].
    assert (known_bytes p.2 = if sizeKnown p.2 then sizeBytes p.2 else 0) as EK by done. rewrite EK in *.
    unfold b' in *. destruct (sizeKnown p.2); lia || (split; lia).
Qed.

(** Under pressure, everything older than an evicted entry is evicted too. *)
Lemma select_loop_pressure cfg now l1 l2 p n b : Forall (fun p => 0 <= known_bytes p.2) (l1 ++ p :: l2) ->
  NoDup (l1 ++ p :: l2) ->
  p ∈ select_loop cfg now (l1 ++ p :: l2) n b -> idle cfg now p.2 = false ->
  forall q, q ∈ l1 -> q ∈ select_loop cfg now (l1 ++ p :: l2) n b.
Proof.
  assert (forall l n b q, q ∈ select_loop cfg now l n b -> q ∈ l) as Sub.
  { intros l n' b' q H. eapply elem_of_submseteq; [exact H|]. apply sublist_submseteq, select_loop_sublist. }
  assert (forall l n b, Forall (fun p => 0 <= known_bytes p.2) l -> n <= cfg.(MaxEntries) -> b <= cfg.(MaxBytes) ->
    p ∈ select_loop cfg now l n b -> idle cfg now p.2 = true) as K.
  { induction l as [|x l IH]; intros n' b' HF Hn Hb; cbn; [by intros ?%elem_of_nil|].
    inversion_clear HF as [|? ? F1 F2]. destruct (negb (idle cfg now x.2) && _ && _) eqn:E; [by apply IH|].
    intros [->|H]%elem_of_cons.
    - rewrite (proj2 (Z.leb_le _ _) Hn), (proj2 (Z.leb_le _ _) Hb), !andb_true_r in E. by bools.
    - eapply IH; [done| | |exact H]; [lia|]. unfold known_bytes in F1. destruct (sizeKnown x.2); lia. }
  intros HF ND Hp Hi q Hq. revert n b HF ND Hp. induction l1 as [|x l1 IH]; intros n b HF ND Hp; [by apply elem_of_nil in Hq|].
  cbn [app select_loop] in *. apply Forall_cons in HF as [F1 F2]. apply NoDup_cons in ND as [N1 N2].
  destruct (negb (idle cfg now x.2) && (n <=? MaxEntries cfg) && (b <=? MaxBytes cfg)) eqn:E.
  - exfalso. bools. rewrite (K _ n b F2) in Hi; done.
  - apply elem_of_cons in Hp as [->|Hp]; [exfalso; apply N1; set_solver|].
    apply elem_of_cons in Hq as [->|Hq]; [by left|right]. by apply IH.
Qed.

(** ** Goroutines *)

(** The cache with the uploads between [reserve] and [store] ([pend]), the
    reservations still held after [store] ([held]), the pins handed out
    ([live]) and the evictions whose [FileDelete] is in flight ([dels]). *)
Record system := mkSystem {
  ca : cache;
  pend : list (testcaseCacheKey * Z);
  held : list Z;
  live : list testcaseCacheBinding;
  dels : list testcaseCacheBinding;
}.

Definition known_file (s : system) (fid : string) : Prop :=
  (exists k e, s.(ca).(entries) !! k = Some e /\ e.(fileID) = fid)
  \/ (exists b, b ∈ s.(live) ++ s.(dels) /\ b.(BFileID) = fid).

(** One locked step of one goroutine.  [FileAdd] returns an identifier that no
    stored file has. *)
Inductive step (cfg : TestcaseCacheConfig) : system -> system -> Prop :=
| step_pin c c' p h l l' d key size now b : 0 <= size -> pin key size now c = (Some b, c') -> l' ≡ₚ b :: l ->
    step cfg (mkSystem c p h l d) (mkSystem c' p h l' d)
| step_release c p h l l' d b now : l ≡ₚ b :: l' ->
    step cfg (mkSystem c p h l d) (mkSystem (release_one now c b) p h l' d)
| step_reserve c c' p h l d key size : reserve cfg size c = (true, c') ->
    step cfg (mkSystem c p h l d) (mkSystem c' ((key, size) :: p) h l d)
| step_upload_failed c p p' h l d key size : p ≡ₚ (key, size) :: p' ->
    step cfg (mkSystem c p h l d) (mkSystem (releaseReservation size c) p' h l d)
| step_store c p p' h l d key size fid now : p ≡ₚ (key, size) :: p' ->
    ~ known_file (mkSystem c p h l d) fid ->
    step cfg (mkSystem c p h l d) (mkSystem (store key fid size true now c) p' (size :: h) l d)
| step_unreserve c p h h' l d size : h ≡ₚ size :: h' ->
    step cfg (mkSystem c p h l d) (mkSystem (releaseReservation size c) p h' l d)
| step_select c c' p h l d now bs : selectEvictionCandidates cfg now c = (bs, c') ->
    step cfg (mkSystem c p h l d) (mkSystem c' p h l (bs ++ d))
| step_deleted c p h l d d' b : d ≡ₚ b :: d' ->
    step cfg (mkSystem c p h l d) (mkSystem (removeIfMatch b.(BKey) b.(BFileID) c).2 p h l d')
| step_delete_failed c p h l d d' b : d ≡ₚ b :: d' ->
    step cfg (mkSystem c p h l d) (mkSystem (markDeleteFailed b c) p h l d')
| step_schedule c p h l d now :
    step cfg (mkSystem c p h l d) (mkSystem (maybeScheduleCleanup cfg now c).2 p h l d)
| step_close c p h l d : step cfg (mkSystem c p h l d) (mkSystem (Close cfg c) p h l d)
| step_stale c p h l d b : step cfg (mkSystem c p h l d) (mkSystem (removeIfMatch b.(BKey) b.(BFileID) c).2 p h l d).

Definition idle_system (c : cache) : system := mkSystem c [] [] [] [].

(** *** The files a sandbox still has from an earlier worker

    [listing] is what is left of the response of [FileList] while [reconcile]
    takes it over, and [imported] are the files it has taken over.  The other
    goroutines go on meanwhile: only the caller that set [reconcileAttempted]
    waits for the response. *)
Record worker := mkWorker {
  sys : system;
  listing : option (list (string * string));
  imported : gset string;
}.

Definition new_worker : worker := mkWorker (idle_system empty_cache) None ∅.

(** A step of any goroutine of the worker: one of [step], the steps of
    [reconcile], and the [store] of an upload whose file is in the response
    already. *)
Inductive worker_step (cfg : TestcaseCacheConfig) : worker -> worker -> Prop :=
| go s s' q i : step cfg s s' -> worker_step cfg (mkWorker s q i) (mkWorker s' q i)
| reconcile_begins c p h l d i : c.(reconciled) = false -> c.(reconcileAttempted) = false ->
    worker_step cfg (mkWorker (mkSystem c p h l d) None i)
      (mkWorker (mkSystem (with_reconcile c c.(reconciled) true) p h l d) None i)
| list_arrives c p h l d i files : c.(reconciled) = false -> c.(reconcileAttempted) = true ->
    worker_step cfg (mkWorker (mkSystem c p h l d) None i) (mkWorker (mkSystem c p h l d) (Some files) i)
| import_file c p h l d i fid n files key size known now :
    parseTestcaseCacheName n = Some (key, size, known) -> fid <> ""%string ->
    worker_step cfg (mkWorker (mkSystem c p h l d) (Some ((fid, n) :: files)) i)
      (mkWorker (mkSystem (store key fid size known now c) p h l d) (Some files) ({[fid]} ∪ i))
| import_skips s i fid n files : parseTestcaseCacheName n = None \/ fid = ""%string ->
    worker_step cfg (mkWorker s (Some ((fid, n) :: files)) i) (mkWorker s (Some files) i)
| reconcile_ends c p h l d i :
    worker_step cfg (mkWorker (mkSystem c p h l d) (Some []) i)
      (mkWorker (mkSystem (with_reconcile c true c.(reconcileAttempted)) p h l d) None i)
| store_imported c p p' h l d q i key size fid now : p ≡ₚ (key, size) :: p' -> fid ∈ i ->
    worker_step cfg (mkWorker (mkSystem c p h l d) q i)
      (mkWorker (mkSystem (store key fid size true now c) p' (size :: h) l d) q i).

(** Everything the goroutines of a worker can reach. *)
Definition reachable (cfg : TestcaseCacheConfig) : worker -> Prop := rtc (worker_step cfg) new_worker.

(** *** The byte and entry budget *)

Section weights.
Context {K V : Type} `{Countable K}.

Lemma msum_mono (f g : V -> Z) (m : gmap K V) : (forall k v, m !! k = Some v -> f v <= g v) -> msum f m <= msum g m.
Proof.
  induction m as [|k v m Hk IH] using map_ind; intros Hm; [by rewrite !msum_empty|].
  rewrite !msum_insert_new by done. pose proof (Hm k v (lookup_insert_eq _ _ _)).
  assert (msum f m <= msum g m); [|lia]. apply IH. intros k' v' Hv. apply (Hm k'). rewrite lookup_insert_ne by congruence. done.
Qed.

Lemma msum_one (m : gmap K V) : msum (fun _ => 1) m = Z.of_nat (size m).
Proof.
  induction m as [|k v m Hk IH] using map_ind; [by rewrite msum_empty, map_size_empty|].
  rewrite msum_insert_new, map_size_insert_None, IH by done. lia.
Qed.
End weights.

(** A measure of an entry that does not depend on its use. *)
Record weight (i : gset string) (g : testcaseCacheEntry -> Z) : Prop := {
  wt_pos : forall e, 0 <= e.(sizeBytes) -> 0 <= g e;
  wt_use : forall e e', e'.(fileID) = e.(fileID) -> e'.(sizeKnown) = e.(sizeKnown) -> e'.(sizeBytes) = e.(sizeBytes) -> g e' = g e;
  wt_imported : forall e, e.(fileID) ∈ i -> g e = 0;
}.

(** What an entry counts unless its file was imported. *)
Definition own (i : gset string) (f : testcaseCacheEntry -> Z) (e : testcaseCacheEntry) : Z :=
  if bool_decide (e.(fileID) ∈ i) then 0 else f e.
Definition one (_ : testcaseCacheEntry) : Z := 1.

Lemma known_bytes_pos e : 0 <= e.(sizeBytes) -> 0 <= known_bytes e.
Proof. unfold known_bytes. by destruct (sizeKnown e). Qed.

Lemma own_bytes_weight i : weight i (own i known_bytes).
Proof.
  constructor; unfold own.
  - intros e He. pose proof (known_bytes_pos e He). case_bool_decide; lia.
  - intros e e' -> E2 E3. unfold known_bytes. by rewrite E2, E3.
  - intros e He. by rewrite bool_decide_eq_true_2.
Qed.
Lemma own_entries_weight i : weight i (own i one).
Proof.
  constructor; unfold own, one.
  - intros e _. case_bool_decide; lia.
  - by intros e e' -> _ _.
  - intros e He. by rewrite bool_decide_eq_true_2.
Qed.
#[local] Hint Resolve own_bytes_weight own_entries_weight : core.

(** The entries of unknown size are imported ones. *)
Definition sizes_known (i : gset string) (c : cache) : Prop :=
  forall k e, c.(entries) !! k = Some e -> e.(sizeKnown) = false -> e.(fileID) ∈ i.

Lemma weight_replace i g (m : gmap testcaseCacheKey testcaseCacheEntry) k e e' : weight i g -> m !! k = Some e ->
  g e' <= g e -> msum g (<[k := e']> m) <= msum g m.
Proof. intros G Hk L. rewrite (msum_insert _ _ _ _ _ Hk). lia. Qed.

Lemma sizes_known_insert i c k e total unknown : sizes_known i c -> (e.(sizeKnown) = false -> e.(fileID) ∈ i) ->
  sizes_known i (with_entries c (<[k := e]> c.(entries)) total unknown).
Proof. intros U He k' x Hx Hk. cbn in Hx. apply lookup_insert_Some in Hx as [[<- <-]|[_ Hx]]; [by apply He|by apply (U k')]. Qed.

Lemma pin_weight i g key size now c b c' : weight i g -> sizes_known i c -> pin key size now c = (Some b, c') ->
  msum g c'.(entries) <= msum g c.(entries) /\ sizes_known i c'.
Proof.
  intros G U. unfold pin. destruct (entries c !! key) as [e|] eqn:E; [|done]. destruct (deleting e); [done|].
  destruct (sizeKnown e) eqn:K; intros [= <- <-]; (split; [eapply weight_replace; [done|exact E|]|by apply sizes_known_insert]).
  - rewrite (wt_use _ _ G e); [lia|done..].
  - rewrite !(wt_imported _ _ G); [lia|exact (U _ _ E K)|exact (U _ _ E K)].
Qed.

Lemma release_one_weight i g now c b : weight i g -> sizes_known i c ->
  msum g (release_one now c b).(entries) <= msum g c.(entries) /\ sizes_known i (release_one now c b).
Proof.
  intros G U. unfold release_one. destruct (entries c !! BKey b) as [e|] eqn:E; [|done]. destruct (_ || _); [done|]. split.
  - eapply weight_replace; [done|exact E|]. rewrite (wt_use _ _ G e); [lia|done..].
  - apply sizes_known_insert; [done|]. cbn. by apply (U (BKey b)).
Qed.

Lemma markDeleteFailed_weight i g b c : weight i g -> sizes_known i c ->
  msum g (markDeleteFailed b c).(entries) <= msum g c.(entries) /\ sizes_known i (markDeleteFailed b c).
Proof.
  intros G U. unfold markDeleteFailed. destruct (entries c !! BKey b) as [e|] eqn:E; [|done]. case_bool_decide; [|done]. split.
  - eapply weight_replace; [done|exact E|]. rewrite (wt_use _ _ G e); [lia|done..].
  - apply sizes_known_insert; [done|]. cbn. by apply (U (BKey b)).
Qed.

Lemma removeIfMatch_weight i g key fid c : weight i g -> accounted c -> sizes_known i c ->
  msum g (removeIfMatch key fid c).2.(entries) <= msum g c.(entries) /\ sizes_known i (removeIfMatch key fid c).2.
Proof.
  intros G A U. unfold removeIfMatch. destruct (entries c !! key) as [e|] eqn:E; [|done]. destruct (negb _); [done|].
  destruct (removeAccounting e _ _). cbn. split.
  - rewrite (msum_delete _ _ _ _ E). pose proof (wt_pos _ _ G e (proj1 (acc_entries _ A _ _ E))). lia.
  - intros k x Hx. cbn in Hx. apply lookup_delete_Some in Hx as [_ Hx]. by apply (U k).
Qed.

(** A new file adds at most its own weight. *)
Lemma store_weight i g key fid size known now c : weight i g -> accounted c -> sizes_known i c ->
  0 <= size -> known = true \/ fid ∈ i -> let c' := store key fid size known now c in
  msum g c'.(entries) <= msum g c.(entries) + g (mkEntry fid size known now now 0 false) /\ sizes_known i c'.
Proof.
  intros G A U Hs Hk. cbv zeta. pose proof (wt_pos _ _ G (mkEntry fid size known now now 0 false) Hs) as P.
  assert (Hn : known = false -> fid ∈ i) by (by destruct Hk as [->|]).
  unfold store. destruct (entries c !! key) as [e|] eqn:E.
  - pose proof (wt_pos _ _ G e (proj1 (acc_entries _ A _ _ E))) as P0.
    case_bool_decide as B; [destruct (_ && _) eqn:K|destruct (removeAccounting e _ _)].
    + bools. split; [|by apply sizes_known_insert]. cbn. rewrite (msum_insert _ _ _ _ _ E).
      rewrite (wt_imported _ _ G (mkEntry (fileID e) _ _ _ _ _ _)) by (cbn; by eapply U). lia.
    + split; [lia|done].
    + split; [|by apply sizes_known_insert]. cbn. rewrite (msum_insert _ _ _ _ _ E). lia.
  - split; [|by apply sizes_known_insert]. cbn. rewrite msum_insert_new by done. lia.
Qed.

Lemma select_weight i g cfg now c : weight i g -> sizes_known i c ->
  msum g (selectEvictionCandidates cfg now c).2.(entries) <= msum g c.(entries)
  /\ sizes_known i (selectEvictionCandidates cfg now c).2.
Proof.
  intros G U. unfold selectEvictionCandidates. cbn.
  assert (forall sel, (forall p, p ∈ sel -> entries c !! p.1 = Some p.2) ->
    let m := foldr (fun p m => <[p.1 := set_deleting p.2 true]> m) (entries c) sel in
    msum g m <= msum g (entries c) /\ (forall k e, m !! k = Some e -> exists e0 d, entries c !! k = Some e0 /\ e = set_deleting e0 d)
    /\ forall k, is_Some (entries c !! k) -> is_Some (m !! k)) as K.
  { induction sel as [|p sel IH]; cbn; intros Hs.
    - split_and!; [lia| |done]. intros k e He. exists e, (deleting e). split; [done|by destruct e].
    - destruct IH as (I1 & I2 & I3); [intros q Hq; apply Hs; by right|].
      set (m := foldr _ _ sel) in *. pose proof (Hs p ltac:(by left)) as Hp.
      destruct (I3 p.1 ltac:(by eexists)) as [e1 Hm]. destruct (I2 _ _ Hm) as (e0 & d & He & ->).
      rewrite Hp in He. injection He as <-. split_and!.
      + assert (W : forall d, g (set_deleting p.2 d) = g p.2) by (intros d'; by apply (wt_use _ _ G)).
        rewrite (msum_insert _ _ _ _ _ Hm), !W. lia.
      + intros k e [[<- <-]|[_ He]]%lookup_insert_Some; [eauto|by apply I2].
      + intros k Hk. apply lookup_insert_is_Some'. right. by apply I3. }
  destruct (K (selected cfg now c)) as (K1 & K2 & _).
  { intros [k e] H. by apply selected_spec in H as [H _]. }
  split; [done|]. intros k e He Hk. destruct (K2 _ _ He) as (e0 & d & H & ->). by apply (U k e0 H).
Qed.

Lemma selected_size cfg now c : size (selectEvictionCandidates cfg now c).2.(entries) = size c.(entries).
Proof.
  unfold selectEvictionCandidates. cbn.
  assert (forall sel, (forall p, p ∈ sel -> is_Some (entries c !! p.1)) ->
    let m := foldr (fun p m => <[p.1 := set_deleting p.2 true]> m) (entries c) sel in
    size m = size (entries c) /\ forall k, is_Some (m !! k) <-> is_Some (entries c !! k)) as K.
  { induction sel as [|p sel IH]; cbn; intros Hs; [done|].
    destruct IH as [I1 I2]; [intros q Hq; apply Hs; by right|].
    assert (is_Some (foldr (fun p m => <[p.1 := set_deleting p.2 true]> m) (entries c) sel !! p.1)) as HS
      by (apply I2, Hs; by left). split.
    - by rewrite map_size_insert_Some.
    - intros k. rewrite lookup_insert_is_Some'. rewrite I2. split; [intros [<-|?]|]; auto. apply Hs. by left. }
  apply K. intros [k e] H. apply selected_spec in H as [H _]. by exists e.
Qed.

Lemma releaseReservation_exact size c : size <= c.(reservedBytes) -> 0 < c.(reservedEntries) ->
  releaseReservation size c = with_reserved c (c.(reservedBytes) - size) (c.(reservedEntries) - 1).
Proof.
  intros H1 H2. unfold releaseReservation. destruct (Z.ltb_spec (reservedBytes c - size) 0); [lia|].
  destruct (Z.ltb_spec (reservedEntries c - 1) 0); [lia|]. done.
Qed.

Lemma reserve_spec cfg size c c' : reserve cfg size c = (true, c') ->
  0 <= size /\ c' = with_reserved c (c.(reservedBytes) + size) (c.(reservedEntries) + 1) /\ c.(unknownEntries) <= 0
  /\ Z.of_nat (map_size c.(entries)) + c.(reservedEntries) < cfg.(MaxEntries)
  /\ c.(totalBytes) + c.(reservedBytes) + size <= cfg.(MaxBytes).
Proof.
  unfold reserve. destruct (_ || _) eqn:E1; [done|]. destruct (_ || _ || _) eqn:E2; [done|].
  intros [= <-]. bools. split_and!; try done; lia.
Qed.

Lemma perm_cons_sum {A} (f : A -> Z) l x l' : l ≡ₚ x :: l' ->
  sum_by f l = f x + sum_by f l' /\ length l = S (length l').
Proof. intros H. split; [by rewrite (sum_by_perm _ _ _ H)|by rewrite H]. Qed.

(** The flags of the cleanup and of [reconcile] are no part of the accounting. *)
Definition same_books (c c' : cache) : Prop := c'.(entries) = c.(entries) /\ c'.(totalBytes) = c.(totalBytes)
  /\ c'.(unknownEntries) = c.(unknownEntries) /\ c'.(reservedBytes) = c.(reservedBytes)
  /\ c'.(reservedEntries) = c.(reservedEntries).

Lemma schedule_books cfg now c : same_books c (maybeScheduleCleanup cfg now c).2.
Proof. unfold maybeScheduleCleanup. destruct (negb _); [done|]. by destruct (_ || _). Qed.
Lemma close_books cfg c : same_books c (Close cfg c).
Proof. unfold Close. destruct (negb _); [done|]. by destruct (closed c). Qed.

Lemma books_accounted c c' : same_books c c' -> accounted c -> accounted c'.
Proof. intros (E1 & E2 & E3 & _) [H1 H2 H3]. constructor; by rewrite ?E1, ?E2, ?E3. Qed.

(** The uploads under way and the reservations held after them. *)
Record reservations (s : system) : Prop := {
  rs_sizes : Forall (fun p => 0 <= p.2) s.(pend) /\ Forall (fun z => 0 <= z) s.(held);
  rs_bytes : s.(ca).(reservedBytes) = sum_by snd s.(pend) + sum_by id s.(held);
  rs_entries : s.(ca).(reservedEntries) = Z.of_nat (length s.(pend)) + Z.of_nat (length s.(held));
}.

(** What the worker itself has put into the sandbox or is putting there is
    within the limits; what it took over from an earlier one is not
    limited. *)
Record budget (cfg : TestcaseCacheConfig) (i : gset string) (s : system) : Prop := {
  bu_acc : accounted s.(ca);
  bu_known : sizes_known i s.(ca);
  bu_reserved : reservations s;
  bu_bytes : msum (own i known_bytes) s.(ca).(entries) + sum_by snd s.(pend) <= cfg.(MaxBytes);
  bu_entries : msum (own i one) s.(ca).(entries) + Z.of_nat (length s.(pend)) <= cfg.(MaxEntries);
}.

(** A step that adds no file. *)
Definition lighter (i : gset string) (c c' : cache) : Prop :=
  (forall g, weight i g -> msum g c'.(entries) <= msum g c.(entries)) /\ sizes_known i c'
  /\ c'.(reservedBytes) = c.(reservedBytes) /\ c'.(reservedEntries) = c.(reservedEntries).

Lemma budget_lighter cfg i c c' p h l l' d d' : budget cfg i (mkSystem c p h l d) -> accounted c' -> lighter i c c' ->
  budget cfg i (mkSystem c' p h l' d').
Proof.
  intros [B1 B2 [B3 B4 B5] B6 B7] A (L1 & L2 & L3 & L4). pose proof (L1 _ (own_bytes_weight i)).
  pose proof (L1 _ (own_entries_weight i)). cbn -[msum sum_by Z.of_nat length] in *.
  constructor; cbn -[msum sum_by Z.of_nat length]; [done|done| |lia|lia]. constructor; cbn -[sum_by Z.of_nat length]; [done|lia|lia].
Qed.

Lemma own_total i c : accounted c ->
  msum (own i known_bytes) c.(entries) <= c.(totalBytes) /\ msum (own i one) c.(entries) <= Z.of_nat (map_size c.(entries)).
Proof.
  intros [-> _ H3]. split.
  - apply msum_mono. intros k e He. pose proof (known_bytes_pos e (proj1 (H3 _ _ He))). unfold own. case_bool_decide; lia.
  - change (map_size (entries c)) with (size (entries c)). rewrite <- msum_one. apply msum_mono. intros k e He.
    unfold own, one. case_bool_decide; lia.
Qed.

(** An upload starts only within the limits, all files counted. *)
Lemma reserve_budget cfg i c c' p h l d key size : budget cfg i (mkSystem c p h l d) -> reserve cfg size c = (true, c') ->
  budget cfg i (mkSystem c' ((key, size) :: p) h l d) /\ c'.(unknownEntries) = 0
  /\ c'.(totalBytes) + c'.(reservedBytes) <= cfg.(MaxBytes)
  /\ Z.of_nat (map_size c'.(entries)) + c'.(reservedEntries) <= cfg.(MaxEntries).
Proof.
  intros [B1 B2 [[B3 B3'] B4 B5] B6 B7] (R0 & -> & R1 & R2 & R3)%reserve_spec. destruct (own_total i c B1) as [O1 O2].
  pose proof (sum_by_nonneg id h B3') as HN. cbn -[msum sum_by Z.of_nat length] in *. split; [constructor|]; cbn -[msum sum_by Z.of_nat length].
  - by apply reserved_accounted.
  - exact B2.
  - constructor; cbn -[sum_by Z.of_nat length]; rewrite ?sum_by_cons; cbn [snd length]; [split; [by constructor|done]|lia|lia].
  - rewrite sum_by_cons. cbn [snd]. lia.
  - cbn [length]. lia.
  - split; [|split; lia]. destruct B1 as [_ A2 _]. assert (0 <= msum unknown_one (entries c)); [|lia].
    apply msum_nonneg. intros k v _. unfold unknown_one. by destruct (sizeKnown v).
Qed.

Lemma removeIfMatch_lighter i key fid c : accounted c -> sizes_known i c -> lighter i c (removeIfMatch key fid c).2.
Proof.
  intros A U. split_and!; [intros g G; by apply (removeIfMatch_weight i)
    |by apply (removeIfMatch_weight i _ _ _ _ (own_bytes_weight i))|..];
    unfold removeIfMatch; repeat case_match; simplify_eq; done.
Qed.

Lemma store_budget cfg i c p p' h l d key size fid now : budget cfg i (mkSystem c p h l d) -> p ≡ₚ (key, size) :: p' ->
  budget cfg i (mkSystem (store key fid size true now c) p' (size :: h) l d).
Proof.
  intros [B1 B2 [[B3 B3'] B4 B5] B6 B7] HP. cbn -[msum sum_by Z.of_nat length] in *.
  destruct (perm_cons_sum snd _ _ _ HP) as [S1 S2]. cbn in S1. rewrite HP in B3. apply Forall_cons in B3 as [P1 P2]. cbn in P1.
  destruct (store_weight i _ key fid size true now c (own_bytes_weight i) B1 B2 P1 (or_introl eq_refl)) as [W1 U].
  destruct (store_weight i _ key fid size true now c (own_entries_weight i) B1 B2 P1 (or_introl eq_refl)) as [W2 _].
  assert (W1' : own i known_bytes (mkEntry fid size true now now 0 false) <= size) by (unfold own, known_bytes; cbn; case_bool_decide; lia).
  assert (W2' : own i one (mkEntry fid size true now now 0 false) <= 1) by (unfold own, one; case_bool_decide; lia).
  assert (RB : (store key fid size true now c).(reservedBytes) = c.(reservedBytes)
    /\ (store key fid size true now c).(reservedEntries) = c.(reservedEntries)).
  { unfold store. repeat case_match; simplify_eq; done. }
  destruct RB as [RB RE]. constructor; cbn -[msum sum_by Z.of_nat length].
  - by apply store_accounted.
  - exact U.
  - constructor; cbn -[sum_by Z.of_nat length]; rewrite ?sum_by_cons; cbn [length]; [split; [done|by constructor]| |].
    + change (id size) with size. lia.
    + lia.
  - lia.
  - lia.
Qed.

Lemma unreserve_budget cfg i c p p' h h' l d size : budget cfg i (mkSystem c p h l d) ->
  (exists key, p ≡ₚ (key, size) :: p' /\ h' = h) \/ (p' = p /\ h ≡ₚ size :: h') ->
  budget cfg i (mkSystem (releaseReservation size c) p' h' l d).
Proof.
  intros [B1 B2 [[B3 B3'] B4 B5] B6 B7] HH. cbn -[msum sum_by Z.of_nat length] in *.
  assert (K : 0 <= size /\ Forall (fun q => 0 <= q.2) p' /\ Forall (fun z => 0 <= z) h'
    /\ sum_by snd p' + sum_by id h' = sum_by snd p + sum_by id h - size
    /\ Z.of_nat (length p') + Z.of_nat (length h') = Z.of_nat (length p) + Z.of_nat (length h) - 1
    /\ sum_by snd p' <= sum_by snd p /\ (length p' <= length p)%nat).
  { destruct HH as [(key & HP & ->)|[-> HP]].
    - destruct (perm_cons_sum snd _ _ _ HP) as [S1 S2]. cbn in S1. rewrite HP in B3. apply Forall_cons in B3 as [P1 P2].
      cbn in P1. split_and!; try done; lia.
    - destruct (perm_cons_sum id _ _ _ HP) as [S1 S2]. change (id size) with size in S1. rewrite HP in B3'.
      apply Forall_cons in B3' as [P1 P2]. split_and!; try done; lia. }
  destruct K as (K1 & K2 & K3 & K4 & K5 & K6 & K7). pose proof (sum_by_nonneg _ _ K2). pose proof (sum_by_nonneg id h' K3).
  rewrite releaseReservation_exact by lia.
  constructor; cbn -[msum sum_by Z.of_nat length]; [by apply reserved_accounted|exact B2| |lia|lia].
  constructor; cbn -[sum_by Z.of_nat length]; [done|lia|lia].
Qed.

Lemma books_lighter i c c' : sizes_known i c -> same_books c c' -> lighter i c c'.
Proof.
  intros U (E1 & _ & _ & E4 & E5). split_and!; try done; [intros g _; by rewrite E1|]. intros k e. rewrite E1. apply U.
Qed.

Lemma step_budget cfg i s s' : budget cfg i s -> step cfg s s' -> budget cfg i s'.
Proof.
  intros B H. pose proof (bu_acc _ _ _ B) as A. pose proof (bu_known _ _ _ B) as U. destruct H; cbn [ca] in A, U.
  - eapply budget_lighter; [exact B| |].
    + replace c' with (pin key size now c).2 by (by rewrite H0). by apply pin_accounted.
    + split_and!; [intros g G; by eapply pin_weight|by eapply (pin_weight i _ _ _ _ _ _ _ (own_bytes_weight i))|..];
        unfold pin in H0; repeat case_match; by simplify_eq.
  - eapply budget_lighter; [exact B|by apply release_one_accounted|].
    split_and!; [intros g G; by apply (release_one_weight i)|by apply (release_one_weight i _ _ _ _ (own_bytes_weight i))|..];
      unfold release_one; by repeat case_match.
  - by eapply reserve_budget.
  - eapply unreserve_budget; [exact B|]. left. by exists key.
  - by eapply store_budget.
  - eapply unreserve_budget; [exact B|]. by right.
  - assert (E : c' = (selectEvictionCandidates cfg now c).2) by (by rewrite H).
    eapply budget_lighter; [exact B|rewrite E; by apply select_accounted|]. rewrite E.
    split_and!; [intros g G; by apply (select_weight i)|by apply (select_weight i _ _ _ _ (own_bytes_weight i))|done..].
  - eapply budget_lighter; [exact B|by apply removeIfMatch_accounted|by apply removeIfMatch_lighter].
  - eapply budget_lighter; [exact B|by apply markDeleteFailed_accounted|].
    split_and!; [intros g G; by apply (markDeleteFailed_weight i)|by apply (markDeleteFailed_weight i _ _ _ (own_bytes_weight i))|..];
      unfold markDeleteFailed; by repeat case_match.
  - eapply budget_lighter; [exact B|by eapply books_accounted, A; apply schedule_books|apply books_lighter; [done|apply schedule_books]].
  - eapply budget_lighter; [exact B|by eapply books_accounted, A; apply close_books|apply books_lighter; [done|apply close_books]].
  - eapply budget_lighter; [exact B|by apply removeIfMatch_accounted|by apply removeIfMatch_lighter].
Qed.

(** Taking a file over: it counts for nothing from then on. *)
Lemma own_more i fid f e : 0 <= f e -> own ({[fid]} ∪ i) f e <= own i f e.
Proof. intros H. unfold own. repeat case_bool_decide; [lia|lia|set_solver|lia]. Qed.

Lemma import_budget cfg i c p h l d key fid size known now : budget cfg i (mkSystem c p h l d) -> 0 <= size ->
  budget cfg ({[fid]} ∪ i) (mkSystem (store key fid size known now c) p h l d).
Proof.
  intros [B1 B2 B3 B6 B7] Hs. cbn -[msum sum_by Z.of_nat length] in *.
  assert (B : budget cfg ({[fid]} ∪ i) (mkSystem c p h l d)).
  { constructor; cbn -[msum sum_by Z.of_nat length]; [done| |done| |].
    - intros k e He Hk. apply elem_of_union_r. by apply (B2 k).
    - etrans; [|exact B6]. apply Z.add_le_mono_r, msum_mono. intros k e He. apply own_more, known_bytes_pos, (acc_entries _ B1 _ _ He).
    - etrans; [|exact B7]. apply Z.add_le_mono_r, msum_mono. intros k e He. by apply own_more. }
  assert (Hf : fid ∈ ({[fid]} ∪ i : gset string)) by set_solver.
  eapply budget_lighter; [exact B|by apply store_accounted|].
  assert (K : sizes_known ({[fid]} ∪ i) c) by exact (bu_known _ _ _ B). split_and!.
  - intros g G. destruct (store_weight _ g key fid size known now c G B1 K Hs (or_intror Hf)) as [W _].
    rewrite (wt_imported _ _ G (mkEntry _ _ _ _ _ _ _)) in W by done. lia.
  - by apply (store_weight _ _ key fid size known now c (own_bytes_weight _) B1 K Hs (or_intror Hf)).
  - unfold store. repeat case_match; simplify_eq; done.
  - unfold store. repeat case_match; simplify_eq; done.
Qed.

Lemma parse_size n key size known : parseTestcaseCacheName n = Some (key, size, known) -> 0 <= size.
Proof. unfold parseTestcaseCacheName. repeat case_match; intros [= <- <- <-]; try lia. Qed.

Lemma worker_step_budget cfg w w' : budget cfg w.(imported) w.(sys) -> worker_step cfg w w' ->
  budget cfg w'.(imported) w'.(sys).
Proof.
  intros B H. destruct H; cbn [imported sys] in *; try done.
  - by eapply step_budget.
  - eapply budget_lighter; [exact B|eapply books_accounted, (bu_acc _ _ _ B)|apply books_lighter; [exact (bu_known _ _ _ B)|]]; done.
  - apply import_budget; [done|by eapply parse_size].
  - eapply budget_lighter; [exact B|eapply books_accounted, (bu_acc _ _ _ B)|apply books_lighter; [exact (bu_known _ _ _ B)|]]; done.
  - by eapply store_budget.
Qed.

Lemma reachable_budget cfg w : 0 <= cfg.(MaxBytes) -> 0 <= cfg.(MaxEntries) -> reachable cfg w -> budget cfg w.(imported) w.(sys).
Proof.
  intros H1 H2 R. unfold reachable in R. remember new_worker as w0 eqn:E. assert (budget cfg w0.(imported) w0.(sys)) as B.
  { subst w0. constructor; cbn; rewrite ?msum_empty; [apply empty_accounted| |by constructor|lia|lia].
    intros k e He. cbn in He. by rewrite lookup_empty in He. }
  clear E. induction R as [|x y z S _ IH]; [done|]. apply IH. by eapply worker_step_budget.
Qed.

(** *** Pinned files are not deleted *)

#[export] Instance binding_eq_dec : EqDecision testcaseCacheBinding.
Proof. solve_decision. Defined.

(** How often a binding is pinned. *)
Definition pins (b : testcaseCacheBinding) (l : list testcaseCacheBinding) : Z :=
  sum_by (fun b' => if bool_decide (b' = b) then 1 else 0) l.
Arguments pins : simpl never.

Record safe (s : system) : Prop := {
  sf_live : forall b e, b ∈ s.(live) -> s.(ca).(entries) !! b.(BKey) = Some e -> e.(fileID) = b.(BFileID) ->
    e.(deleting) = false /\ 0 < pins b s.(live) <= e.(inUse);
  sf_dels : forall b e, b ∈ s.(dels) -> s.(ca).(entries) !! b.(BKey) = Some e -> e.(fileID) = b.(BFileID) ->
    e.(deleting) = true;
  sf_disjoint : forall b, b ∈ s.(dels) -> b ∉ s.(live);
  sf_nodup : NoDup s.(dels);
}.

Lemma pins_nonneg b l : 0 <= pins b l.
Proof. apply sum_by_nonneg, Forall_forall. intros x _. case_bool_decide; lia. Qed.

Lemma pins_pos b l : b ∈ l -> 0 < pins b l.
Proof.
  unfold pins. induction l as [|x l IH]; [by intros ?%elem_of_nil|]. rewrite sum_by_cons.
  pose proof (pins_nonneg b l) as P. unfold pins in P. intros [->|H]%elem_of_cons.
  - rewrite bool_decide_eq_true_2 by done. lia.
  - specialize (IH H). case_bool_decide; lia.
Qed.

Lemma pins_zero b l : b ∉ l -> pins b l = 0.
Proof.
  unfold pins. induction l as [|x l IH]; [done|]. rewrite sum_by_cons. intros H.
  rewrite bool_decide_eq_false_2 by (intros ->; apply H; by left). rewrite IH; [done|]. intros Hl. apply H. by right.
Qed.

Lemma pins_perm b l l' : l ≡ₚ l' -> pins b l = pins b l'.
Proof. apply sum_by_perm. Qed.

Lemma pins_cons b x l : pins b (x :: l) = (if bool_decide (x = b) then 1 else 0) + pins b l.
Proof. done. Qed.

(** A step that only shrinks the set of entries or clears the flags of a
    finished deletion keeps the safety of the rest. *)
Lemma safe_same_lists c c' p p' h h' l d : safe (mkSystem c p h l d) ->
  (forall k e', c'.(entries) !! k = Some e' -> exists e, c.(entries) !! k = Some e /\ e'.(fileID) = e.(fileID)
     /\ e'.(deleting) = e.(deleting) /\ e'.(inUse) = e.(inUse)) ->
  safe (mkSystem c' p' h' l d).
Proof.
  intros [S1 S2 S3 S4] HE. constructor; cbn in *; [| |done|done].
  - intros b e' Hb He Hf. destruct (HE _ _ He) as (e & H1 & H2 & H3 & H4). rewrite H3, H4.
    apply (S1 b e Hb H1). congruence.
  - intros b e' Hb He Hf. destruct (HE _ _ He) as (e & H1 & H2 & H3 & H4). rewrite H3.
    apply (S2 b e Hb H1). congruence.
Qed.

Lemma removeIfMatch_entries key fid c k e : (removeIfMatch key fid c).2.(entries) !! k = Some e -> c.(entries) !! k = Some e
  /\ (k = key -> e.(fileID) <> fid).
Proof.
  unfold removeIfMatch. destruct (entries c !! key) as [e0|] eqn:E; [|cbn; intros H; split; [done|intros ->; congruence]].
  case_bool_decide as B; cbn.
  - destruct (removeAccounting e0 _ _). cbn. intros [H1 H2]%lookup_delete_Some. split; [done|]. by intros ->.
  - intros H. split; [done|]. intros ->. congruence.
Qed.

Lemma pin_spec key size now c b c' : pin key size now c = (Some b, c') ->
  exists e e', c.(entries) !! key = Some e /\ e.(deleting) = false /\ b = mkBinding key e.(fileID)
    /\ c'.(entries) = <[key := e']> c.(entries) /\ e'.(fileID) = e.(fileID) /\ e'.(deleting) = false
    /\ e'.(inUse) = e.(inUse) + 1.
Proof.
  unfold pin. destruct (entries c !! key) as [e|] eqn:E; [|done]. destruct (deleting e) eqn:D; [done|].
  intros H. exists e. destruct (sizeKnown e); injection H as <- <-; eexists; cbn; split_and!; done.
Qed.

(** The entries after a selection: the selected ones are marked. *)
Lemma select_entries cfg now c k e' :
  (selectEvictionCandidates cfg now c).2.(entries) !! k = Some e' ->
  exists e, c.(entries) !! k = Some e /\ (e' = e \/ (e' = set_deleting e true /\ (k, e) ∈ selected cfg now c)).
Proof.
  unfold selectEvictionCandidates. cbn.
  assert (forall sel, (forall p, p ∈ sel -> entries c !! p.1 = Some p.2) ->
    foldr (fun p m => <[p.1 := set_deleting p.2 true]> m) (entries c) sel !! k = Some e' ->
    exists e, entries c !! k = Some e /\ (e' = e \/ (e' = set_deleting e true /\ (k, e) ∈ sel))) as K.
  { induction sel as [|p sel IH]; cbn; intros Hs; [eauto|].
    intros [[<- <-]|[_ H]]%lookup_insert_Some.
    - exists p.2. split; [apply Hs; by left|]. right. split; [done|]. destruct p. by left.
    - destruct IH as (e & H1 & H2); [intros q Hq; apply Hs; by right|done|]. exists e. split; [done|].
      destruct H2 as [->|[-> H2]]; [by left|right; split; [done|by right]]. }
  apply K. intros [k' e] H. by apply selected_spec in H as [H _].
Qed.

Lemma select_others cfg now c k : k ∉ map fst (selected cfg now c) ->
  (selectEvictionCandidates cfg now c).2.(entries) !! k = c.(entries) !! k.
Proof.
  unfold selectEvictionCandidates. cbn. generalize (selected cfg now c). induction l as [|p sel IH]; [done|]. cbn.
  intros H. rewrite lookup_insert_ne by (intros E; apply H; rewrite <- E; by left). apply IH. intros Hs. apply H. by right.
Qed.

Lemma select_marks cfg now c k e : (k, e) ∈ selected cfg now c ->
  exists e', (selectEvictionCandidates cfg now c).2.(entries) !! k = Some e' /\ e'.(deleting) = true.
Proof.
  unfold selectEvictionCandidates. cbn. generalize (selected cfg now c). induction l as [|p sel IH]; [by intros ?%elem_of_nil|].
  cbn. destruct (decide (p.1 = k)) as [<-|Hne].
  - intros _. rewrite lookup_insert_eq. eauto.
  - intros [<-|H]%elem_of_cons; [done|]. rewrite lookup_insert_ne by done. auto.
Qed.

Lemma selected_keys cfg now c : NoDup (map fst (selected cfg now c)).
Proof.
  eapply (sublist_NoDup _ (map fst (eligible c))); [|apply fmap_sublist, select_loop_sublist].
  unfold eligible. rewrite merge_sort_Permutation.
  eapply (sublist_NoDup _ (map fst (map_to_list (entries c)))); [apply NoDup_fst_map_to_list|].
  apply fmap_sublist, sublist_filter.
Qed.

Lemma selected_nodup cfg now c : NoDup (map (fun p : candidate => mkBinding p.1 p.2.(fileID)) (selected cfg now c)).
Proof.
  apply (NoDup_fmap_1 BKey). change (NoDup (map BKey (map (fun p : candidate => mkBinding p.1 p.2.(fileID)) (selected cfg now c)))).
  rewrite map_map. cbn. apply selected_keys.
Qed.

Lemma binding_eta b k fid : k = b.(BKey) -> fid = b.(BFileID) -> mkBinding k fid = b.
Proof. destruct b. by intros -> ->. Qed.

Lemma release_one_spec now c b k e' : (release_one now c b).(entries) !! k = Some e' ->
  exists e, c.(entries) !! k = Some e /\ e'.(fileID) = e.(fileID) /\ e'.(deleting) = e.(deleting)
    /\ (if bool_decide (mkBinding k e.(fileID) = b) then e.(inUse) <> 0 -> e'.(inUse) = e.(inUse) - 1
        else e'.(inUse) = e.(inUse)).
Proof.
  unfold release_one. destruct (entries c !! BKey b) as [e|] eqn:E.
  - destruct (_ || _) eqn:D; cbn.
    + intros H. exists e'. split_and!; try done. destruct (decide (mkBinding k (fileID e') = b)) as [B|B];
        [rewrite (bool_decide_eq_true_2 _ B)|by rewrite (bool_decide_eq_false_2 _ B)]. subst b. cbn in *. rewrite H in E.
      injection E as ->. intros Hn. apply orb_true_iff in D as [D|D]; bools; congruence.
    + bools. intros [[<- <-]|[Hne Hx]]%lookup_insert_Some; [exists e|exists e']; cbn; split_and!; try done.
      * by rewrite bool_decide_eq_true_2 by (by apply binding_eta).
      * rewrite bool_decide_eq_false_2; [done|]. intros <-. by apply Hne.
  - intros H. exists e'. split_and!; try done. case_bool_decide as B; [|reflexivity]. subst b. cbn in *. congruence.
Qed.

Lemma store_fresh_entries key fid size now c k e' :
  (forall e, c.(entries) !! key = Some e -> e.(fileID) <> fid) ->
  (store key fid size true now c).(entries) !! k = Some e' ->
  (k = key /\ e'.(fileID) = fid) \/ (k <> key /\ c.(entries) !! k = Some e').
Proof.
  intros HF. unfold store. destruct (entries c !! key) as [e|] eqn:E.
  - rewrite bool_decide_eq_false_2 by (by apply HF). destruct (removeAccounting _ _ _). cbn.
    intros [[<- <-]|[? ?]]%lookup_insert_Some; [by left|by right].
  - cbn. intros [[<- <-]|[? ?]]%lookup_insert_Some; [by left|by right].
Qed.


(** A pinned file is not being deleted, and no step changes that. *)
Lemma pin_safe key size now c b c' p h l d : accounted c -> safe (mkSystem c p h l d) ->
  pin key size now c = (Some b, c') -> safe (mkSystem c' p h (b :: l) d).
Proof.
  intros HA [S1 S2 S3 S4] H. apply pin_spec in H as (e & e' & E1 & E2 & -> & E4 & E5 & E6 & E7). cbn in *.
  constructor; cbn in *; [| | |done].
  - intros b x Hb Hx Hf. rewrite E4 in Hx. pose proof (pins_nonneg b l).
    rewrite pins_cons.
    destruct (decide (key = BKey b)) as [Hk|Hne].
    + rewrite Hk, lookup_insert_eq in Hx. injection Hx as <-. rewrite E6, E7.
      rewrite bool_decide_eq_true_2 by (apply binding_eta; congruence). split; [done|].
      destruct (decide (b ∈ l)) as [Hin|Hout].
      * destruct (S1 b e Hin); [congruence|congruence|lia].
      * rewrite (pins_zero b l Hout). pose proof (acc_entries _ HA _ _ E1). lia.
    + rewrite lookup_insert_ne in Hx by done. rewrite bool_decide_eq_false_2 by (intros <-; by apply Hne).
      apply elem_of_cons in Hb as [->|Hb]; [by cbn in Hne|]. by apply (S1 b x).
  - intros b x Hb Hx Hf. rewrite E4 in Hx. apply lookup_insert_Some in Hx as [[Hk <-]|[_ Hx]]; [|by apply (S2 b)].
    subst key. pose proof (S2 b e Hb E1 ltac:(congruence)). congruence.
  - intros b Hb [->|Hl]%elem_of_cons; [|by apply (S3 b)].
    pose proof (S2 _ e Hb E1 eq_refl). congruence.
Qed.

Lemma release_safe c p h l l' d b now : safe (mkSystem c p h l d) -> l ≡ₚ b :: l' ->
  safe (mkSystem (release_one now c b) p h l' d).
Proof.
  intros [S1 S2 S3 S4] HP. cbn in *. constructor; cbn in *; [| | |done].
  - intros b' x Hb Hx Hf. apply release_one_spec in Hx as (e & H1 & H2 & H3 & H4).
    assert (b' ∈ l) as Hl by (rewrite HP; by right).
    destruct (S1 b' e Hl H1 ltac:(congruence)) as [D1 D2]. split; [congruence|].
    pose proof (pins_pos _ _ Hb). rewrite (pins_perm b' _ _ HP), pins_cons in D2.
    rewrite (binding_eta b') in H4 by congruence.
    case_bool_decide as B1; case_bool_decide as B2; try (by exfalso; auto using eq_sym).
    + rewrite H4 in * by lia. lia.
    + lia.
  - intros b' x Hb Hx Hf. apply release_one_spec in Hx as (e & H1 & H2 & H3 & H4). rewrite H3.
    apply (S2 b'); congruence.
  - intros b' Hb Hl. apply (S3 b' Hb). rewrite HP. by right.
Qed.

Lemma select_safe cfg now c c' bs p h l d : safe (mkSystem c p h l d) ->
  selectEvictionCandidates cfg now c = (bs, c') -> safe (mkSystem c' p h l (bs ++ d)).
Proof.
  intros [S1 S2 S3 S4] H. pose proof (select_entries cfg now c) as HE. pose proof (select_marks cfg now c) as HM.
  pose proof (selected_nodup cfg now c) as HN. rewrite H in HE, HM. cbn in HE, HM.
  assert (bs = map (fun q : candidate => mkBinding q.1 q.2.(fileID)) (selected cfg now c)) as Hbs
    by (unfold selectEvictionCandidates in H; by injection H as <- _). rewrite <- Hbs in HN.
  assert (forall b, b ∈ bs -> exists e, entries c !! BKey b = Some e /\ fileID e = BFileID b
            /\ (BKey b, e) ∈ selected cfg now c) as HB.
  { intros b. rewrite Hbs. intros ([k e] & -> & Hin)%list_elem_of_fmap. cbn. exists e.
    by apply selected_spec in Hin as Hs; destruct Hs as (? & _ & _). }
  assert (forall b, b ∈ bs -> b ∉ l /\ b ∉ d) as HX.
  { intros b (e & E1 & E2 & E3)%HB. apply selected_spec in E3 as (_ & U & D). cbn in *. split; intros Hin.
    - destruct (S1 b e Hin E1 E2). lia.
    - by rewrite (S2 b e Hin E1 E2) in D. }
  cbn in *. constructor; cbn.
  - intros b x Hb Hx Hf. destruct (HE _ _ Hx) as (e & E1 & [->|[-> E2]]); [by apply (S1 b)|].
    cbn in Hf. apply selected_spec in E2 as (_ & U & D). destruct (S1 b e Hb E1 Hf). lia.
  - intros b x [Hb|Hb]%elem_of_app Hx Hf.
    + destruct (HB _ Hb) as (e & E1 & E2 & E3). destruct (HM _ _ E3) as (e' & M1 & M2). congruence.
    + destruct (HE _ _ Hx) as (e & E1 & [->|[-> E2]]); [by apply (S2 b)|done].
  - intros b [Hb|Hb]%elem_of_app; [by apply HX|by apply S3].
  - apply NoDup_app. split_and!; [done| |done]. intros b Hb. by apply HX.
Qed.

Lemma store_safe c p p' h h' l d key fid size now : safe (mkSystem c p h l d) ->
  ~ known_file (mkSystem c p h l d) fid -> safe (mkSystem (store key fid size true now c) p' h' l d).
Proof.
  intros [S1 S2 S3 S4] HF.
  assert (forall e, entries c !! key = Some e -> fileID e <> fid) as HF1.
  { intros e He Hf. apply HF. left. eauto. }
  assert (forall b, b ∈ l ++ d -> BFileID b <> fid) as HF2.
  { intros b Hb Hf. apply HF. right. eauto. }
  cbn in *. constructor; cbn; [| |done|done].
  - intros b x Hb Hx Hf. apply store_fresh_entries in Hx as [[_ E]|[_ E]]; [|by apply (S1 b)|done].
    exfalso. apply (HF2 b); [set_solver|congruence].
  - intros b x Hb Hx Hf. apply store_fresh_entries in Hx as [[_ E]|[_ E]]; [|by apply (S2 b)|done].
    exfalso. apply (HF2 b); [set_solver|congruence].
Qed.

(** Once a deletion is over the binding leaves the list of deletions. *)
Lemma safe_drop_del c p h l d d' b : safe (mkSystem c p h l d) -> d ≡ₚ b :: d' -> safe (mkSystem c p h l d') /\ b ∉ d'.
Proof.
  intros [S1 S2 S3 S4] HP. cbn in *. rewrite HP in S4. apply NoDup_cons in S4 as [N1 N2]. split; [|done].
  constructor; cbn; [done| | |done].
  - intros b' x Hb. apply S2. rewrite HP. by right.
  - intros b' Hb. apply S3. rewrite HP. by right.
Qed.

Lemma remove_safe c p h l d b : safe (mkSystem c p h l d) ->
  safe (mkSystem (removeIfMatch b.(BKey) b.(BFileID) c).2 p h l d).
Proof.
  intros HS. eapply safe_same_lists; [exact HS|]. intros k e [H _]%removeIfMatch_entries. eauto.
Qed.

Lemma delete_failed_safe c p h l d b : safe (mkSystem c p h l d) -> b ∉ d -> safe (mkSystem (markDeleteFailed b c) p h l d).
Proof.
  intros [S1 S2 S3 S4] Hb. unfold markDeleteFailed. destruct (entries c !! BKey b) as [e|] eqn:E; [|by constructor].
  case_bool_decide as B; [|by constructor]. cbn in *. constructor; cbn; [| |done|done].
  - intros b' x Hb' Hx Hf. apply lookup_insert_Some in Hx as [[Hk <-]|[_ Hx]]; [|by apply (S1 b')].
    cbn in *. rewrite Hk in E. by destruct (S1 b' e Hb' E Hf).
  - intros b' x Hb' Hx Hf. apply lookup_insert_Some in Hx as [[Hk <-]|[_ Hx]]; [|by apply (S2 b')].
    cbn in Hf. assert (b' = b) as -> by (destruct b, b'; cbn in *; congruence). by destruct Hb.
Qed.

Lemma safe_perm c p h l l' d : l ≡ₚ l' -> safe (mkSystem c p h l d) -> safe (mkSystem c p h l' d).
Proof.
  intros HP [S1 S2 S3 S4]. cbn in *. constructor; cbn; [|done| |done].
  - intros b e Hb. rewrite <- (pins_perm b _ _ HP). apply S1. by rewrite HP.
  - intros b. rewrite <- HP. apply S3.
Qed.

Lemma step_safe cfg s s' : accounted s.(ca) -> safe s -> step cfg s s' -> safe s'.
Proof.
  intros HA HS H. destruct H; cbn in HA.
  - eapply safe_perm; [symmetry; exact H1|]. by eapply pin_safe.
  - by eapply release_safe.
  - unfold reserve in H. repeat destruct (_ || _); try done. injection H as <-.
    eapply safe_same_lists; [exact HS|]. cbn. eauto.
  - eapply safe_same_lists; [exact HS|]. unfold releaseReservation. destruct (_ || _); cbn; eauto.
  - by eapply store_safe.
  - eapply safe_same_lists; [exact HS|]. unfold releaseReservation. destruct (_ || _); cbn; eauto.
  - by eapply select_safe.
  - destruct (safe_drop_del _ _ _ _ _ _ _ HS H) as [HS' _]. by apply remove_safe.
  - destruct (safe_drop_del _ _ _ _ _ _ _ HS H) as [HS' HN]. by apply delete_failed_safe.
  - eapply safe_same_lists; [exact HS|]. destruct (schedule_books cfg now c) as [-> _]. eauto.
  - eapply safe_same_lists; [exact HS|]. destruct (close_books cfg c) as [-> _]. eauto.
  - by apply remove_safe.
Qed.

Definition sound (s : system) : Prop := accounted s.(ca) /\ Forall (fun p => 0 <= p.2) s.(pend).

Lemma step_sound cfg s s' : sound s -> step cfg s s' -> sound s'.
Proof.
  intros [A P] H. destruct H; unfold sound; cbn [ca pend] in *; try (split; [|by try (rewrite H in P; apply Forall_cons in P as [_ ?])]).
  - replace c' with (pin key size now c).2 by (by rewrite H0). by apply pin_accounted.
  - by apply release_one_accounted.
  - apply reserve_spec in H as (R & -> & _). split; [by apply reserved_accounted|by constructor].
  - unfold releaseReservation. destruct (_ || _); by apply reserved_accounted.
  - rewrite H in P. apply Forall_cons in P as [P _]. by apply store_accounted.
  - unfold releaseReservation. destruct (_ || _); by apply reserved_accounted.
  - replace c' with (selectEvictionCandidates cfg now c).2 by (by rewrite H). by apply select_accounted.
  - by apply removeIfMatch_accounted.
  - by apply markDeleteFailed_accounted.
  - eapply books_accounted; [apply schedule_books|done].
  - eapply books_accounted; [apply close_books|done].
  - by apply removeIfMatch_accounted.
Qed.

(** From a cache that nobody uses, as long as no response of [FileList] is
    taken over. *)
Lemma steps_safe cfg c s : accounted c -> rtc (step cfg) (idle_system c) s -> safe s.
Proof.
  intros A R. assert (sound (idle_system c) /\ safe (idle_system c)) as B.
  { split; [by split|]. constructor; cbn; [by intros ? ? ?%elem_of_nil|by intros ? ? ?%elem_of_nil|by intros ? ?%elem_of_nil|constructor]. }
  induction R as [|x y z S _ IH]; [by apply B|]. apply IH. destruct B as [B1 B2]. split; [by eapply step_sound|].
  eapply step_safe; [apply B1|done|done].
Qed.
