(* ===== verification/GoPath.v ===== *)
(** Slash-separated paths: [filepath.Clean], [IsAbs], [Base], [Join] and [Rel]
    of the Go library on Unix, and the containment test of the worker
    (workers/judge/internal/adapter/outbound/execute/go_judge_client.go). *)

From S2P Require Import Prelude GoString WorkerDomain.

Definition slash : ascii := ascii_of_N 47.
Definition dot1 : bytes := chars ".".
Definition dot2 : bytes := chars "..".

Definition IsAbs (path : bytes) : bool := match path with c :: _ => is_byte 47 c | [] => false end.

(** The elements of a path that [Clean] looks at. *)
Definition elements (path : bytes) : list bytes :=
  filter (fun e => e <> [] /\ e <> dot1) (split_on slash path).

(** One element against the elements so far, last first. *)
Definition clean_step (rooted : bool) (acc : list bytes) (e : bytes) : list bytes :=
  if bool_decide (e = dot2) then
    match acc with
    | top :: rest => if bool_decide (top = dot2) then e :: acc else rest
    | [] => if rooted then [] else [e]
    end
  else e :: acc.
Definition clean_elements (path : bytes) : list bytes :=
  rev (fold_left (clean_step (IsAbs path)) (elements path) []).

Definition Clean (path : bytes) : bytes :=
  let body := join_with slash (clean_elements path) in
  if IsAbs path then slash :: body
  else match body with [] => dot1 | _ => body end.

(** [filepath.Base] *)
Definition Base (path : bytes) : bytes :=
  match path with
  | [] => dot1
  | _ => match trim_right_set (is_byte 47) path with
         | [] => [slash]
         | p => default [] (last (split_on slash p))
         end
  end.

(** [filepath.Join] of two elements. *)
Definition Join (a b : bytes) : bytes :=
  match a, b with
  | [], [] => []
  | [], _ => Clean b
  | _, [] => Clean a
  | _, _ => Clean (a ++ slash :: b)
  end.

(** [filepath.Rel] on clean paths: drop the common elements, climb over the
    rest of the base. *)
Fixpoint rel_elements (base target : list bytes) : option (list bytes) :=
  match base, target with
  | b :: bs, t :: ts =>
      if bool_decide (b = t) then rel_elements bs ts
      else if bool_decide (b = dot2) then None else Some (map (fun _ => dot2) base ++ target)
  | [], _ => Some target
  | b :: _, [] => if bool_decide (b = dot2) then None else Some (map (fun _ => dot2) base)
  end.
Definition Rel (base target : bytes) : option bytes :=
  if negb (eqb (IsAbs base) (IsAbs target)) then None
  else match rel_elements (clean_elements base) (clean_elements target) with
       | None => None
       | Some [] => Some dot1
       | Some l => Some (join_with slash l)
       end.

Definition isContainedPath (root path : bytes) : bool :=
  match Rel root path with
  | None => false
  | Some rel =>
      negb (bool_decide (rel = dot1)) && negb (bool_decide (rel = dot2))
      && negb (has_prefix (dot2 ++ [slash]) rel) && negb (IsAbs rel)
  end.

Example clean_examples :
  map (fun s => str (Clean (chars s))) ["/cache/testcases/problem_3/1.in"; "/cache/../etc/./passwd"; "a//b/../../.."; ""; "/.."]%string
  = ["/cache/testcases/problem_3/1.in"; "/etc/passwd"; ".."; "."; "/"]%string.
Proof. vm_compute. reflexivity. Qed.

Example contained_examples :
  map (fun s => isContainedPath (chars "/cache/testcases") (chars s))
    ["/cache/testcases/problem_3/1.in"; "/cache/testcases"; "/cache/testcases/../secret"; "/cache/testcases2/x"; "x"]%string
  = [true; false; false; false; false].
Proof. vm_compute. reflexivity. Qed.

(** ** Clean paths *)

Definition plain (e : bytes) : Prop := e <> [] /\ e <> dot1 /\ Forall (fun x => x <> slash) e.
Definition down (e : bytes) : Prop := plain e /\ e <> dot2.

Lemma elements_plain path : Forall plain (elements path).
Proof.
  unfold elements. pose proof (split_lines_free slash path) as H. rewrite Forall_forall in *.
  intros e ((H1 & H2) & H3)%list_elem_of_filter. split_and!; try done. by apply H.
Qed.

(** The elements of a rooted clean path never climb. *)
Lemma clean_rooted path : IsAbs path = true -> Forall down (clean_elements path).
Proof.
  intros HA. unfold clean_elements. rewrite HA. apply Forall_rev. pose proof (elements_plain path) as HE. clear HA.
  assert (forall acc, Forall down acc -> Forall down (fold_left (clean_step true) (elements path) acc)) as K;
    [|by apply K].
  induction HE as [|e l He _ IH]; intros acc Hacc; [done|]. cbn. apply IH. unfold clean_step.
  case_bool_decide as B; [|by constructor]. destruct Hacc as [|top rest Ht Hr]; [done|].
  case_bool_decide as B2; [by destruct Ht|done].
Qed.

Lemma has_prefix_inv p l : has_prefix p l = true -> exists r, l = p ++ r.
Proof.
  revert l. induction p as [|x p IH]; intros l H; [by exists l|]. destruct l as [|y l]; [done|]. cbn in H.
  apply andb_true_iff in H as [H1 H2]. apply Stdlib.Strings.Ascii.eqb_eq in H1 as <-.
  destruct (IH _ H2) as [r ->]. by exists r.
Qed.

(** A path relative to a directory, from the elements below it. *)
Lemma join_down l : l <> [] -> Forall down l ->
  let rel := join_with slash l in
  rel <> dot1 /\ rel <> dot2 /\ has_prefix (dot2 ++ [slash]) rel = false /\ IsAbs rel = false.
Proof.
  intros Hne HF rel. assert (split_on slash rel = l) as HS.
  { apply split_join; [done|]. eapply Forall_impl; [exact HF|]. by intros e ((_ & _ & H) & _). }
  assert (forall e, e ∈ l -> e <> [] /\ e <> dot1 /\ e <> dot2) as HD.
  { intros e He. rewrite Forall_forall in HF. by destruct (HF e He) as ((? & ? & _) & ?). }
  split_and!.
  - intros E. rewrite E in HS. cbn in HS. subst l. destruct (HD dot1) as (_ & ? & _); [by left|done].
  - intros E. rewrite E in HS. cbn in HS. subst l. destruct (HD dot2) as (_ & _ & ?); [by left|done].
  - destruct (has_prefix _ rel) eqn:E; [|done]. apply has_prefix_inv in E as [r E]. rewrite E in HS.
    rewrite <- app_assoc in HS. cbn [app] in HS. rewrite (split_app_sep slash dot2) in HS by (by repeat constructor).
    subst l. destruct (HD dot2) as (_ & _ & ?); [by left|done].
  - destruct rel as [|c r] eqn:E; [done|]. cbn. destruct (is_byte 47 c) eqn:B; [|done].
    assert (c = slash) as ->.
    { unfold is_byte, code in B. apply N.eqb_eq in B. unfold slash. rewrite <- B. symmetry. apply Ascii.ascii_N_embedding. }
    assert (split_on slash (slash :: r) = [] :: split_on slash r) as HX by done. rewrite HX in HS.
    subst l. destruct (HD []) as (? & _); [by left|done].
Qed.

Lemma rel_elements_prefix base target : Forall down base ->
  match rel_elements base target with
  | Some (e :: _) => e = dot2 \/ (exists rest, target = base ++ rest /\ rel_elements base target = Some rest)
  | _ => True
  end.
Proof.
  intros HF. revert target. induction HF as [|b base Hb HF IH]; intros target; cbn.
  - destruct target; [done|]. right. eexists. done.
  - destruct target as [|t target].
    + case_bool_decide; [by destruct Hb|]. by left.
    + case_bool_decide as B; [|case_bool_decide; [by destruct Hb|by left]]. subst t. specialize (IH target).
      destruct (rel_elements base target) as [[|e l]|] eqn:E; try done. destruct IH as [->|(rest & -> & H)]; [by left|].
      right. exists rest. split; [done|]. congruence.
Qed.

Lemma rel_elements_app base rest : rel_elements base (base ++ rest) = Some rest.
Proof. induction base as [|b base IH]; [done|]. cbn. by rewrite bool_decide_eq_true_2. Qed.

(** The containment test accepts exactly the paths below the root. *)
Lemma isContainedPath_spec root path : IsAbs root = true ->
  isContainedPath root path = true <->
  IsAbs path = true /\ exists rest, rest <> [] /\ clean_elements path = clean_elements root ++ rest.
Proof.
  intros HR. pose proof (clean_rooted root HR) as HD. unfold isContainedPath, Rel. rewrite HR. split.
  - destruct (IsAbs path) eqn:HP; [|done]. cbn [negb eqb]. pose proof (rel_elements_prefix _ (clean_elements path) HD) as HE.
    destruct (rel_elements _ _) as [[|e l]|] eqn:E; [done| |done].
    destruct HE as [->|(rest & E1 & E2)].
    + intros H. exfalso. destruct l as [|e l]; [done|]. cbn in H. bools. cbn in *. congruence.
    + injection E2 as <-. intros _. split; [done|]. by exists (e :: l).
  - intros (HP & rest & Hne & E). rewrite HP, E, rel_elements_app. cbn [negb eqb].
    assert (Forall down rest) as HF.
    { pose proof (clean_rooted path HP) as HF. rewrite E in HF. by apply Forall_app in HF as [_ HF]. }
    destruct (join_down rest Hne HF) as (J1 & J2 & J3 & J4). destruct rest as [|e l]; [done|].
    by rewrite (bool_decide_eq_false_2 _ J1), (bool_decide_eq_false_2 _ J2), J3, J4.
Qed.

(** ** Joining *)

Lemma elements_app a b : elements (a ++ slash :: b) = elements a ++ elements b.
Proof. unfold elements. by rewrite split_app, filter_app. Qed.

Lemma elements_plain_id l : Forall plain l -> filter (fun e => e <> [] /\ e <> dot1) l = l.
Proof.
  induction 1 as [|e l (H1 & H2 & _) _ IH]; [done|]. rewrite filter_cons_True by done. by rewrite IH.
Qed.

Lemma elements_one e : plain e -> elements e = [e].
Proof.
  intros H. unfold elements. rewrite split_line by (by destruct H as (_ & _ & H)).
  apply (elements_plain_id [e]). by constructor.
Qed.

Lemma clean_fold l acc : Forall down l -> fold_left (clean_step true) l acc = rev l ++ acc.
Proof.
  intros H. revert acc. induction H as [|e l [_ He] _ IH]; intros acc; [done|]. cbn. rewrite IH, <- app_assoc. cbn.
  unfold clean_step. by rewrite bool_decide_eq_false_2.
Qed.

Lemma clean_elements_clean p : IsAbs p = true -> IsAbs (Clean p) = true /\ clean_elements (Clean p) = clean_elements p.
Proof.
  intros HA. pose proof (clean_rooted p HA) as HD. unfold Clean. rewrite HA. split; [done|].
  unfold clean_elements at 1. cbn [IsAbs]. change (is_byte 47 slash) with true.
  assert (elements (slash :: join_with slash (clean_elements p)) = clean_elements p) as ->.
  { change (slash :: join_with slash (clean_elements p)) with ([] ++ slash :: join_with slash (clean_elements p)).
    rewrite elements_app. change (elements []) with (@nil bytes). cbn [app].
    assert (Forall plain (clean_elements p)) as HP by (eapply Forall_impl; [exact HD|]; by intros e []).
    destruct (clean_elements p) as [|e l] eqn:E; [done|]. unfold elements. rewrite split_join; [by apply elements_plain_id|done|].
    eapply Forall_impl; [exact HP|]. by intros x (_ & _ & ?). }
  by rewrite clean_fold, app_nil_r, rev_involutive.
Qed.

(** A file name below a rooted directory. *)
Lemma Join_elements dir name : IsAbs dir = true -> down name ->
  IsAbs (Join dir name) = true /\ clean_elements (Join dir name) = clean_elements dir ++ [name].
Proof.
  intros HA [HP HD]. destruct dir as [|c dir]; [done|]. destruct name as [|x name]; [by destruct HP as [? _]|].
  assert (Join (c :: dir) (x :: name) = Clean ((c :: dir) ++ slash :: x :: name)) as -> by done.
  assert (IsAbs ((c :: dir) ++ slash :: x :: name) = true) as HA' by done.
  destruct (clean_elements_clean _ HA') as [C1 C2]. split; [done|]. rewrite C2. unfold clean_elements. rewrite HA', HA.
  rewrite elements_app, (elements_one (x :: name)) by done. rewrite fold_left_app. cbn [fold_left].
  unfold clean_step at 1. rewrite bool_decide_eq_false_2 by done. done.
Qed.

Lemma Join_contained dir name : IsAbs dir = true -> down name -> isContainedPath dir (Join dir name) = true.
Proof.
  intros HA HD. destruct (Join_elements dir name HA HD) as [J1 J2]. apply isContainedPath_spec; [done|].
  split; [done|]. by exists [name].
Qed.
