(* ===== verification/SandboxCache.v ===== *)
(** The sandbox calls of the testcase-input cache
    (workers/judge/internal/adapter/outbound/execute/testcase_cache.go):
    [getOrAdd], [reconcile], [invalidateMissing], [release] with the cleanup it
    schedules, and [cleanup], composed from the locked steps of TestcaseCache.

    One call is run here from its start to its end; what other goroutines do
    between its locked steps is the step relation of TestcaseCache, and the
    lemmas on [conducts] show that each call, that of [reconcile] included, is
    made of such steps.  The single-flight groups only merge equal concurrent
    calls. *)

From S2P Require Import Prelude GoString GoError GoMonad GoCrypto WorkerDomain TestcaseCache.

(** [sandboxFileRPC].  [FileAdd] returns the identifier of the stored file, if
    any; [FileList] the response, if any, as pairs of identifier and name. *)
Record sandboxFileRPC (W : Type) := mkFileRPC {
  FileAdd : string -> string -> M W (option string);
  FileList : M W (option (list (string * string)));
  FileDelete : string -> M W unit;
  is_NotFound : error -> bool;
  clock : W -> Z * W;
}.
Arguments FileAdd {W}.
Arguments FileList {W}.
Arguments FileDelete {W}.
Arguments is_NotFound {W}.
Arguments clock {W}.

Definition errTestcaseCacheAdmissionDenied : error := ESentinel "sandbox testcase cache admission denied".

Section Calls.
Context {W : Type} (cfg : TestcaseCacheConfig) (client : sandboxFileRPC W).

Definition locked {A} (f : cache -> A * cache) : M (cache * W) A :=
  fun '(c, w) => let '(a, c') := f c in (inr a, (c', w)).
Definition update (f : cache -> cache) : M (cache * W) unit := locked (fun c => (tt, f c)).
Definition rpc {A} (m : M W A) : M (cache * W) A := fun '(c, w) => let '(r, w') := m w in (r, (c, w')).
Definition time_now : M (cache * W) Z := fun '(c, w) => let '(t, w') := client.(clock) w in (inr t, (c, w')).

Definition do_pin (key : testcaseCacheKey) (size : Z) : M (cache * W) (option testcaseCacheBinding) :=
  let* now := time_now in locked (pin key size now).
Definition do_store (key : testcaseCacheKey) (fid : string) (size : Z) (known : bool) : M (cache * W) unit :=
  let* now := time_now in update (store key fid size known now).

Definition do_release (bindings : list testcaseCacheBinding) : M (cache * W) bool :=
  if negb cfg.(Enabled) || bool_decide (bindings = []) then ret false
  else let* now := time_now in update (release bindings now) ;; locked (maybeScheduleCleanup cfg now).

Fixpoint import (files : list (string * string)) : M (cache * W) unit :=
  match files with
  | [] => ret tt
  | (fid, n) :: rest =>
      match parseTestcaseCacheName n with
      | Some (key, size, known) =>
          if bool_decide (fid = ""%string) then import rest
          else do_store key fid size known ;; import rest
      | None => import rest
      end
  end.

Definition reconcile : M (cache * W) unit :=
  if negb cfg.(Enabled) then ret tt
  else
    let* first := locked (fun c => if c.(reconciled) || c.(reconcileAttempted) then (false, c)
                                   else (true, with_reconcile c c.(reconciled) true)) in
    if negb first then ret tt
    else
      let* response := rpc client.(FileList) in
      match response with
      | None => fail (EText "sandbox FileList returned nil response")
      | Some files => import files ;; update (fun c => with_reconcile c true c.(reconcileAttempted))
      end.

(** The function that the single-flight group runs. *)
Definition upload (key : testcaseCacheKey) (stdin : string) : M (cache * W) string :=
  let* fid := rpc (client.(FileAdd) (nameWithSize key (len stdin)) stdin) in
  match fid with
  | None => fail (EText "sandbox FileAdd returned an empty FileID")
  | Some fid =>
      if bool_decide (fid = ""%string) then fail (EText "sandbox FileAdd returned an empty FileID")
      else do_store key fid (len stdin) true ;; ret fid
  end.
Definition load (key : testcaseCacheKey) (stdin : string) : M (cache * W) string :=
  let* hit := do_pin key (len stdin) in
  match hit with
  | Some b => do_release [b] ;; ret b.(BFileID)
  | None =>
      let* ok := locked (reserve cfg (len stdin)) in
      if negb ok then fail errTestcaseCacheAdmissionDenied
      else
        let* r := try (upload key stdin) in
        update (releaseReservation (len stdin)) ;;
        match r with inl e => fail e | inr fid => ret fid end
  end.

(** [ctxErr] is the error of the caller's context when it is done before the
    load is. *)
Definition getOrAdd (ctxErr : option error) (identity : option TestcaseDatasetIdentity) (tc : ExecutionTestCase)
  : M (cache * W) (option testcaseCacheBinding) :=
  match newTestcaseCacheKey identity tc with
  | None => ret None
  | Some key =>
      if negb cfg.(Enabled) then ret None
      else
        try reconcile ;;
        let* hit := do_pin key (len tc.(Stdin)) in
        match hit with
        | Some b => ret (Some b)
        | None =>
            let* r := try (load key tc.(Stdin)) in
            match ctxErr with
            | Some e => fail e
            | None => match r with
                      | inl _ => ret None
                      | inr _ => do_pin key (len tc.(Stdin))
                      end
            end
        end
  end.

Fixpoint drop_missing (active : list string) (bindings : list testcaseCacheBinding) : M (cache * W) bool :=
  match bindings with
  | [] => ret false
  | b :: rest =>
      if bool_decide (b.(BFileID) ∈ active) then drop_missing active rest
      else
        let* gone := locked (removeIfMatch b.(BKey) b.(BFileID)) in
        let* more := drop_missing active rest in ret (gone || more)
  end.

Definition invalidateMissing (bindings : list testcaseCacheBinding) : M (cache * W) bool :=
  if negb cfg.(Enabled) || bool_decide (bindings = []) then ret false
  else
    let* response := try (rpc client.(FileList)) in
    match response with
    | inr (Some files) => drop_missing (map fst files) bindings
    | _ => ret false
    end.

Fixpoint delete_candidates (bindings : list testcaseCacheBinding) : M (cache * W) unit :=
  match bindings with
  | [] => ret tt
  | b :: rest =>
      let* r := try (rpc (client.(FileDelete) b.(BFileID))) in
      (match r with
       | inl e => if negb (client.(is_NotFound) e) then update (markDeleteFailed b)
                  else let* _ := locked (removeIfMatch b.(BKey) b.(BFileID)) in ret tt
       | inr _ => let* _ := locked (removeIfMatch b.(BKey) b.(BFileID)) in ret tt
       end) ;; delete_candidates rest
  end.

Definition cleanup : M (cache * W) unit :=
  if negb cfg.(Enabled) then ret tt
  else
    let* now := time_now in
    let* candidates := locked (selectEvictionCandidates cfg now) in
    delete_candidates candidates.

(** The goroutine that [maybeScheduleCleanup] starts. *)
Definition cleanup_goroutine : M (cache * W) unit :=
  cleanup ;; update (fun c => with_cleanup c false c.(closed) c.(nextCleanup)).
End Calls.

(** ** Names and keys *)

Definition no_dash (l : bytes) : Prop := Forall (fun x => x <> dash) l.

Lemma no_dash_by (p : ascii -> bool) l : p dash = false -> forallb p l = true -> no_dash l.
Proof.
  intros Hp H. apply Forall_forall. intros x Hx ->. rewrite forallb_forall in H.
  rewrite list_elem_of_In in Hx. apply H in Hx. congruence.
Qed.

Lemma format_digits_shape n z acc : (0 < n)%nat -> 0 <= z < 10 ^ Z.of_nat n ->
  exists d r, format_digits n z acc = digit d :: r ++ acc /\ 0 <= d < 10 /\ (0 < z -> 0 < d) /\ forallb is_digit r = true.
Proof.
  revert z acc. induction n as [|n IH]; intros z acc Hn Hz; [lia|]. cbn [format_digits].
  pose proof (Z.mod_pos_bound z 10 ltac:(lia)). destruct (Z.ltb_spec z 10).
  - exists (z mod 10), []. split_and!; try done; try lia. rewrite Z.mod_small by lia. lia.
  - destruct n as [|n]; [simpl in Hz; lia|]. rewrite Nat2Z.inj_succ, Z.pow_succ_r in Hz by lia.
    destruct (IH (z / 10) (digit (z mod 10) :: acc)) as (d & r & E & H1 & H2 & H3); [lia| |].
    { split; [apply Z.div_pos; lia|apply Z.div_lt_upper_bound; lia]. }
    exists d, (r ++ [digit (z mod 10)]). rewrite E, <- app_assoc. split_and!; try done; try lia.
    + intros _. apply H2. assert (1 <= z / 10); [|lia]. apply Z.div_le_lower_bound; lia.
    + rewrite forallb_app, H3. cbn. by rewrite (proj1 (digit_spec (z mod 10) ltac:(lia))).
Qed.

Lemma Itoa_shape z : 0 <= z <= int64_max -> exists d r, chars (Itoa z) = digit d :: r
  /\ 0 <= d < 10 /\ (0 < z -> 0 < d) /\ forallb is_digit r = true.
Proof.
  intros Hz. unfold Itoa. destruct (Z.ltb_spec z 0); [lia|]. rewrite chars_str. unfold format_nat.
  destruct (format_digits_shape 20 z []) as (d & r & E & H1 & H2 & H3); [lia|unfold int64_max in Hz; lia|].
  exists d, r. by rewrite E, app_nil_r.
Qed.

Lemma Itoa_number z : 0 <= z <= int64_max -> nonempty is_digit (chars (Itoa z)) = true.
Proof.
  intros Hz. destruct (Itoa_shape z Hz) as (d & r & -> & H1 & _ & H3). unfold nonempty. cbn.
  by rewrite (proj1 (digit_spec d H1)), H3.
Qed.

Lemma Itoa_positive z : 0 < z <= int64_max -> is_positive_number (chars (Itoa z)) = true.
Proof.
  intros Hz. destruct (Itoa_shape z ltac:(lia)) as (d & r & -> & H1 & H2 & H3). cbn. rewrite H3, andb_true_r.
  specialize (H2 ltac:(lia)). unfold within, code, digit. rewrite Ascii.N_ascii_embedding by lia.
  apply andb_true_iff. rewrite !N.leb_le. lia.
Qed.

Lemma Itoa_no_dash z : 0 <= z <= int64_max -> no_dash (chars (Itoa z)).
Proof.
  intros Hz. apply (no_dash_by is_digit); [reflexivity|]. pose proof (Itoa_number z Hz) as H.
  unfold nonempty in H. by bools.
Qed.

(** The keys that [newTestcaseCacheKey] makes. *)
Record key_ok (k : testcaseCacheKey) : Prop := {
  ko_problem : 0 < k.(problemID) <= int64_max;
  ko_version : 0 < k.(datasetVersion) <= int64_max;
  ko_dataset : is_hash (chars k.(datasetChecksum)) = true;
  ko_testcase : k.(testcaseID) <> ""%string;
  ko_input : is_hash (chars k.(inputChecksum)) = true;
}.

Lemma hash_no_dash l : is_hash l = true -> no_dash l.
Proof. intros H. unfold is_hash in H. bools. by apply (no_dash_by lower_hex). Qed.

Lemma newTestcaseCacheKey_ok i tc k : i.(IdProblemID) <= int64_max -> i.(IdVersion) <= int64_max ->
  newTestcaseCacheKey (Some i) tc = Some k -> key_ok k.
Proof.
  intros H1 H2. unfold newTestcaseCacheKey. destruct (_ || _) eqn:E; [done|]. intros [= <-].
  bools. constructor; cbn; try lia; try done.
  - unfold is_hash. unfold isSHA256Hex in *. bools. unfold len in *. apply andb_true_iff. split; [|done].
    apply Nat.eqb_eq. rewrite length_chars. lia.
  - unfold is_hash. rewrite chars_str, HexEncode_length, Sum256_length, HexEncode_lower. done.
Qed.

Lemma name_parts_no_dash k : key_ok k -> Forall no_dash (name_parts k).
Proof.
  intros [H1 H2 H3 H4 H5].
  assert (forall s, forallb (fun c => negb (is_byte 45 c)) (chars s) = true -> no_dash (chars s)) as L.
  { intros s. by apply no_dash_by. }
  unfold name_parts. rewrite !Forall_cons. split_and!; try (apply L; reflexivity); try apply Forall_nil_2;
    (apply Forall_app_2; [apply L; reflexivity|]).
  - apply Itoa_no_dash. lia.
  - apply Itoa_no_dash. lia.
  - by apply hash_no_dash.
  - apply (no_dash_by lower_hex); [reflexivity|apply HexEncode_lower].
  - by apply hash_no_dash.
Qed.

Lemma field_letter letter ok l : ok l = true -> forall s, chars s = [ascii_of_N letter] -> (letter < 256)%N ->
  field letter ok (chars s ++ l) = Some l.
Proof.
  intros H s -> Hl. cbn. unfold is_byte, code. rewrite Ascii.N_ascii_embedding, N.eqb_refl, H by done. done.
Qed.

Lemma parse_key_parts k : key_ok k ->
  parse_key (chars "p" ++ chars (Itoa k.(problemID))) (chars "v" ++ chars (Itoa k.(datasetVersion)))
    (chars "d" ++ chars k.(datasetChecksum)) (chars "t" ++ HexEncode (chars k.(testcaseID)))
    (chars "i" ++ chars k.(inputChecksum)) = Some k.
Proof.
  intros [H1 H2 H3 H4 H5]. unfold parse_key.
  assert (chars (testcaseID k) <> []) as H4' by (intros E; apply H4; by apply chars_inj).
  assert (nonempty lower_hex (HexEncode (chars (testcaseID k))) = true) as HT.
  { unfold nonempty. rewrite HexEncode_lower, andb_true_r. apply negb_true_iff, bool_decide_eq_false_2.
    intros E. apply (f_equal length) in E. rewrite HexEncode_length in E. by destruct (chars (testcaseID k)). }
  rewrite !field_letter by (try done; by apply Itoa_positive).
  rewrite !str_chars, !ParseInt_Itoa, HexDecode_Encode by (unfold in_int64, int64_min, int64_max in *; lia).
  destruct (Z.leb_spec (problemID k) 0); [lia|]. destruct (Z.leb_spec (datasetVersion k) 0); [lia|].
  rewrite bool_decide_eq_false_2 by done. cbn. rewrite !str_chars. by destruct k.
Qed.

(** What the cache writes as a file name it reads back. *)
Lemma parse_name k n : key_ok k -> 0 <= n <= int64_max ->
  parseTestcaseCacheName (nameWithSize k n) = Some (k, n, true).
Proof.
  intros HK Hn. unfold parseTestcaseCacheName, nameWithSize. rewrite chars_str, split_join.
  - unfold name_parts. cbn [app]. rewrite bool_decide_eq_true_2 by done.
    change (chars "p" ++ ?x) with (chars "p" ++ x). rewrite (parse_key_parts k HK).
    rewrite field_letter by (try done; by apply Itoa_number). rewrite str_chars, ParseInt_Itoa
      by (unfold in_int64, int64_min, int64_max in *; lia).
    by destruct (Z.ltb_spec n 0); [lia|].
  - done.
  - apply Forall_app. split; [by apply name_parts_no_dash|]. constructor; [|constructor].
    apply Forall_app_2; [by repeat constructor|]. by apply Itoa_no_dash.
Qed.

(** ** [getOrAdd] *)

Section Runs.
Context {W : Type} (cfg : TestcaseCacheConfig) (client : sandboxFileRPC W).
Implicit Types (c : cache) (w : W).

Lemma locked_inv {A} (f : cache -> A * cache) c w r c' w' : locked f (c, w) = (r, (c', w')) ->
  exists a, r = inr a /\ f c = (a, c') /\ w' = w.
Proof. cbn. destruct (f c) as [a c1]. intros [= <- <- <-]. eauto. Qed.

Lemma update_inv (f : cache -> cache) c w r c' w' : update f (c, w) = (r, (c', w')) -> r = inr tt /\ c' = f c /\ w' = w.
Proof. intros [= <- <- <-]. done. Qed.

Lemma rpc_inv {A} (m : M W A) c w r c' w' : rpc m (c, w) = (r, (c', w')) -> c' = c /\ m w = (r, w').
Proof. cbn. destruct (m w) as [x w1]. intros [= <- <- <-]. eauto. Qed.

Lemma do_pin_inv key n c w r c' w' : do_pin client key n (c, w) = (r, (c', w')) ->
  exists now o, r = inr o /\ client.(clock) w = (now, w') /\ pin key n now c = (o, c').
Proof.
  unfold do_pin, bind, time_now. destruct (clock client w) as [now w1]. intros H.
  apply locked_inv in H as (o & -> & H & ->). eauto.
Qed.

Lemma do_store_inv key fid n known c w r c' w' : do_store client key fid n known (c, w) = (r, (c', w')) ->
  exists now, r = inr tt /\ client.(clock) w = (now, w') /\ c' = store key fid n known now c.
Proof.
  unfold do_store, bind, time_now. destruct (clock client w) as [now w1]. intros [= <- <- <-]. eauto.
Qed.

Lemma pin_none key n now c c' : pin key n now c = (None, c') -> c' = c /\ forall now', pin key n now' c = (None, c).
Proof.
  unfold pin. destruct (entries c !! key) as [e|]; [|by intros [= <-]].
  destruct (deleting e); [by intros [= <-]|]. destruct (sizeKnown e); discriminate.
Qed.

Lemma pin_some key n now c b c' : accounted c -> pin key n now c = (Some b, c') ->
  b.(BKey) = key /\ exists e, c'.(entries) !! key = Some e /\ e.(fileID) = b.(BFileID) /\ e.(deleting) = false
    /\ e.(sizeKnown) = true /\ 0 < e.(inUse).
Proof.
  intros HA H. pose proof H as H0. apply pin_spec in H as (e & e' & E1 & E2 & -> & E4 & E5 & E6 & E7).
  split; [done|]. exists e'. cbn. rewrite E4, lookup_insert_eq. pose proof (acc_entries _ HA _ _ E1) as [_ U].
  split_and!; try done; [|lia]. unfold pin in H0. rewrite E1, E2 in H0.
  destruct (sizeKnown e) eqn:K; injection H0 as <-; cbn in E4; apply (f_equal (fun m => m !! key)) in E4;
    rewrite !lookup_insert_eq in E4; by injection E4 as <-.
Qed.

(** The identifiers the sandbox has issued so far: [FileAdd] makes a new one,
    [FileList] shows such ones. *)
Context (issued : W -> gset string).

Class SandboxLaws := {
  sb_add : forall n content w r w', client.(FileAdd) n content w = (r, w') ->
    issued w ⊆ issued w' /\ forall fid, r = inr (Some fid) -> fid ∉ issued w /\ fid ∈ issued w';
  sb_list : forall w r w', client.(FileList) w = (r, w') -> issued w ⊆ issued w'
    /\ forall files, r = inr (Some files) -> Forall (fun f => f.1 ∈ issued w') files;
  sb_delete : forall fid w r w', client.(FileDelete) fid w = (r, w') -> issued w ⊆ issued w';
  sb_clock : forall w t w', client.(clock) w = (t, w') -> issued w ⊆ issued w';
}.

(** The deletions under way, and the response that another caller of
    [reconcile] is taking over, if any. *)
Context (d : list testcaseCacheBinding) (q : option (list (string * string))).

(** A goroutine that holds the pins [l] and nothing else. *)
Definition alone c (l : list testcaseCacheBinding) : system := mkSystem c [] [] l d.
Definition holding c (l : list testcaseCacheBinding) (i : gset string) : worker := mkWorker (alone c l) q i.

(** What holds between the calls: [reconcile] is entered once, and the files
    known to the cache are files of the sandbox. *)
Record ready c (l : list testcaseCacheBinding) w : Prop := {
  rd_listing : c.(reconciled) = false -> c.(reconcileAttempted) = false -> q = None;
  rd_entries : forall k e, c.(entries) !! k = Some e -> e.(fileID) ∈ issued w;
  rd_bindings : forall b, b ∈ l ++ d -> b.(BFileID) ∈ issued w;
}.

Lemma ready_fresh c l w fid : ready c l w -> fid ∉ issued w -> ~ known_file (alone c l) fid.
Proof. intros [_ H1 H2] HF [(k & e & He & <-)|(b & Hb & <-)]; apply HF; eauto. Qed.

Lemma ready_later c l w w' : ready c l w -> issued w ⊆ issued w' -> ready c l w'.
Proof. intros [H1 H2 H3] HS. constructor; eauto. Qed.

(** The flags of [reconcile] stay. *)
Definition same_flags c c' : Prop := c'.(reconciled) = c.(reconciled) /\ c'.(reconcileAttempted) = c.(reconcileAttempted).

(** A step that keeps the files of the entries. *)
Lemma ready_entries c c' l l' w : ready c l w -> same_flags c c' ->
  (forall k e', c'.(entries) !! k = Some e' -> exists k0 e, c.(entries) !! k0 = Some e /\ e'.(fileID) = e.(fileID)) ->
  (forall b, b ∈ l' -> b ∈ l ++ d \/ exists k e, c.(entries) !! k = Some e /\ b.(BFileID) = e.(fileID)) ->
  ready c' l' w.
Proof.
  intros [H1 H2 H3] [R1 R2] HE HL. constructor; [by rewrite R1, R2| |].
  - intros k e' (k0 & e & He & ->)%HE. eauto.
  - intros b [Hb|Hb]%elem_of_app; [|apply H3; set_solver].
    destruct (HL b Hb) as [Hl|(k & e & He & ->)]; eauto.
Qed.

(** A computation that is a sequence of locked steps of such a goroutine;
    [post] is what it holds afterwards. *)
Definition conducts {A} (m : M (cache * W) A) (l : list testcaseCacheBinding)
    (post : error + A -> list testcaseCacheBinding) : Prop :=
  forall c w i r c' w', ready c l w -> m (c, w) = (r, (c', w')) ->
    exists i', rtc (worker_step cfg) (holding c l i) (holding c' (post r) i') /\ ready c' (post r) w'.

(** The same without a step of [reconcile]. *)
Lemma conducts_quiet {A} (m : M (cache * W) A) l post :
  (forall c w r c' w', ready c l w -> m (c, w) = (r, (c', w')) ->
    rtc (step cfg) (alone c l) (alone c' (post r)) /\ ready c' (post r) w') -> conducts m l post.
Proof.
  intros Hm c w i r c' w' HR H. destruct (Hm _ _ _ _ _ HR H) as [S R]. exists i. split; [|done].
  eapply (rtc_congruence (fun s => mkWorker s q i)); [|exact S]. intros s s'. apply go.
Qed.

Lemma conducts_ret {A} (a : A) l post : post (inr a) = l -> conducts (ret a) l post.
Proof. intros HP c w i r c' w' HR [= <- <- <-]. exists i. rewrite HP. by split; [apply rtc_refl|]. Qed.
Lemma conducts_fail {A} e l post : post (inl e) = l -> conducts (fail (A := A) e) l post.
Proof. intros HP c w i r c' w' HR [= <- <- <-]. exists i. rewrite HP. by split; [apply rtc_refl|]. Qed.

(** The continuation only meets values that the first part returns. *)
Lemma conducts_bind_run {A B} (m : M (cache * W) A) (f : A -> M (cache * W) B) l mid post :
  conducts m l mid -> (forall e, mid (inl e) = post (inl e)) ->
  (forall a s s', m s = (inr a, s') -> conducts (f a) (mid (inr a)) post) -> conducts (bind m f) l post.
Proof.
  intros Hm He Hf c w i r c' w' HR. unfold bind. destruct (m (c, w)) as [[e|a] [c1 w1]] eqn:E;
    pose proof E as E0; apply (Hm _ _ i) in E as (i1 & E1 & E2); try done.
  - intros [= <- <- <-]. rewrite <- He. by exists i1.
  - intros H. eapply (Hf a _ _ E0 _ _ i1) in H as (i2 & H1 & H2); [|done]. exists i2. split; [|done]. by etrans.
Qed.

Lemma conducts_bind {A B} (m : M (cache * W) A) (f : A -> M (cache * W) B) l mid post :
  conducts m l mid -> (forall e, mid (inl e) = post (inl e)) -> (forall a, conducts (f a) (mid (inr a)) post) ->
  conducts (bind m f) l post.
Proof. intros Hm He Hf. eapply conducts_bind_run; eauto. Qed.

Lemma conducts_try {A} (m : M (cache * W) A) l mid post :
  conducts m l mid -> (forall r, post (inr r) = mid r) -> conducts (try m) l post.
Proof.
  intros Hm HP c w i r c' w' HR. unfold try. destruct (m (c, w)) as [x [c1 w1]] eqn:E. intros [= <- <- <-].
  rewrite HP. by apply (Hm _ _ i) in E.
Qed.

Lemma conducts_rpc {A} (m : M W A) l : (forall w r w', m w = (r, w') -> issued w ⊆ issued w') ->
  conducts (rpc m) l (fun _ => l).
Proof.
  intros HI. apply conducts_quiet. intros c w r c' w' HR [-> E]%rpc_inv. split; [apply rtc_refl|]. eapply ready_later; [exact HR|eauto].
Qed.

Lemma conducts_time {L : SandboxLaws} l post : (forall t, post (inr t) = l) -> conducts (time_now client) l post.
Proof.
  intros HP. apply conducts_quiet. intros c w r c' w' HR. unfold time_now. destruct (clock client w) as [t w1] eqn:E.
  intros [= <- <- <-]. rewrite HP. split; [apply rtc_refl|]. apply sb_clock in E. by eapply ready_later.
Qed.

Lemma conducts_release_one l b now : conducts (update (fun c => release_one now c b)) (b :: l) (fun _ => l).
Proof.
  apply conducts_quiet. intros c w r c' w' HR (-> & -> & ->)%update_inv. split.
  - apply rtc_once. by eapply step_release.
  - eapply ready_entries; [exact HR| | |].
    + unfold release_one. by repeat case_match.
    + intros k e' (e & E1 & E2 & _)%release_one_spec. eauto.
    + intros b' Hb. left. set_solver.
Qed.

Lemma conducts_schedule l now : conducts (locked (W := W) (maybeScheduleCleanup cfg now)) l (fun _ => l).
Proof.
  apply conducts_quiet. intros c w r c' w' HR (u & -> & H & ->)%locked_inv. pose proof (schedule_books cfg now c) as (HB & _).
  assert (c' = (maybeScheduleCleanup cfg now c).2) as -> by (by rewrite H). split.
  - apply rtc_once, step_schedule.
  - eapply ready_entries; [exact HR| | |].
    + unfold maybeScheduleCleanup. by repeat case_match.
    + rewrite HB. eauto.
    + intros b' Hb. left. set_solver.
Qed.

Lemma conducts_releases bs l now : conducts (update (release bs now)) (bs ++ l) (fun _ => l).
Proof.
  induction bs as [|b bs IH].
  - apply conducts_quiet. intros c w r c' w' HR [= <- <- <-]. by split; [apply rtc_refl|].
  - intros c w i r c' w' HR H.
    assert (update (fun c => release_one now c b) (c, w) = (inr tt, (release_one now c b, w))) as H1 by done.
    apply (conducts_release_one (bs ++ l) b now _ _ i) in H1 as (i1 & S1 & R1); [|exact HR].
    assert (update (release bs now) (release_one now c b, w) = (r, (c', w'))) as H2 by exact H.
    apply (IH _ _ i1) in H2 as (i2 & S2 & R2); [|done]. exists i2. split; [by etrans|done].
Qed.

(** [release] gives back the pins it is given. *)
Lemma conducts_release {L : SandboxLaws} bs l : cfg.(Enabled) = true \/ bs = [] ->
  conducts (do_release cfg client bs) (bs ++ l) (fun _ => l).
Proof.
  intros HE. unfold do_release. case_bool_decide as HB.
  { subst bs. rewrite orb_true_r. by apply conducts_ret. }
  destruct HE as [HE|]; [|done]. rewrite HE. cbn [negb orb].
  eapply (conducts_bind _ _ _ (fun r => match r with inl _ => l | inr _ => bs ++ l end)); [by apply conducts_time|done|]. intros now.
  eapply (conducts_bind _ _ _ (fun _ => l)); [apply conducts_releases|done|]. intros _. apply conducts_schedule.
Qed.

Lemma reserve_inv size c ok c' : reserve cfg size c = (ok, c') ->
  c'.(entries) = c.(entries) /\ same_flags c c' /\ (ok = false -> c' = c).
Proof. unfold reserve. repeat destruct (_ || _); intros [= <- <-]; done. Qed.

Lemma ready_same_entries c c' l w : c'.(entries) = c.(entries) -> same_flags c c' -> ready c l w -> ready c' l w.
Proof. intros E1 [E2 E3] [H1 H2 H3]. constructor; rewrite ?E1, ?E2, ?E3; done. Qed.

Lemma ready_pin key size now c b c' l l' w : ready c l w -> pin key size now c = (Some b, c') -> l' ≡ₚ b :: l -> ready c' l' w.
Proof.
  intros HR HP HL. pose proof HP as HP0. apply pin_spec in HP as (e & e' & E1 & E2 & -> & E4 & E5 & _).
  eapply ready_entries; [exact HR| | |].
  - unfold pin in HP0. rewrite E1, E2 in HP0. by destruct (sizeKnown e); injection HP0 as <-.
  - intros k x. rewrite E4. intros [[<- <-]|[_ Hx]]%lookup_insert_Some; eauto.
  - intros b. rewrite HL. intros [->|Hb]%elem_of_cons; [right; eauto|left; set_solver].
Qed.

Lemma store_flags key fid size known now c : same_flags c (store key fid size known now c).
Proof. unfold store, removeAccounting. repeat case_match; simplify_eq; done. Qed.

Lemma store_files key fid size known now c k e' : (store key fid size known now c).(entries) !! k = Some e' ->
  e'.(fileID) = fid \/ exists k0 e, c.(entries) !! k0 = Some e /\ e'.(fileID) = e.(fileID).
Proof.
  unfold store, removeAccounting. repeat case_match; simplify_eq; cbn; try (intros H'; right; by eauto);
    intros [[<- <-]|[_ Hx]]%lookup_insert_Some; cbn; eauto.
Qed.

Lemma ready_store key fid size known now c l w : ready c l w -> fid ∈ issued w -> ready (store key fid size known now c) l w.
Proof.
  intros [H1 H2 H3] HF. destruct (store_flags key fid size known now c) as [F1 F2]. constructor; [by rewrite F1, F2| |done].
  intros k e' [->|(k0 & e & He & ->)]%store_files; eauto.
Qed.

Lemma conducts_pin {L : SandboxLaws} key size l post : 0 <= size -> post (inr None) = l ->
  (forall b, post (inr (Some b)) ≡ₚ b :: l) -> conducts (do_pin client key size) l post.
Proof.
  intros Hs P1 P2. apply conducts_quiet. intros c w r c' w' HR H. apply do_pin_inv in H as (now & o & -> & Hc & H).
  apply sb_clock in Hc. pose proof (ready_later _ _ _ _ HR Hc) as HR'. destruct o as [b|].
  - split; [|by eapply ready_pin]. apply rtc_once. by eapply step_pin.
  - apply pin_none in H as [-> _]. rewrite P1. by split; [apply rtc_refl|].
Qed.

Lemma upload_steps {L : SandboxLaws} key stdin c c' w w' r l :
  ready c l w -> upload client key stdin (c, w) = (r, (c', w')) -> issued w ⊆ issued w' /\
  ((exists e, r = inl e /\ c' = c)
  \/ (exists fid now, r = inr fid /\ c' = store key fid (len stdin) true now c /\ ~ known_file (alone c l) fid
        /\ fid ∈ issued w')).
Proof.
  intros HF. unfold upload, bind at 1. destruct (rpc _ (c, w)) as [[e|o] [c1 w1]] eqn:E;
    apply rpc_inv in E as [-> E]; apply sb_add in E as [S1 S2].
  - intros [= <- <- <-]. eauto 10.
  - destruct o as [fid|]; [|intros [= <- <- <-]; eauto 10]. case_bool_decide; [intros [= <- <- <-]; eauto 10|].
    unfold bind. destruct (do_store _ _ _ _ _ _) as [[e|u] [c2 w2]] eqn:E2;
      apply do_store_inv in E2 as (now & ? & Hc & ->); try done.
    intros [= <- <- <-]. destruct (S2 fid eq_refl) as [N1 N2]. apply sb_clock in Hc.
    split; [set_solver|]. right. exists fid, now. split_and!; try done; [|set_solver]. by eapply ready_fresh.
Qed.

(** The part of [load] after its miss. *)
Lemma conducts_populate {L : SandboxLaws} key stdin l :
  conducts (let* ok := locked (reserve cfg (len stdin)) in
            if negb ok then fail errTestcaseCacheAdmissionDenied
            else
              let* r := try (upload client key stdin) in
              update (releaseReservation (len stdin)) ;;
              match r with inl e => fail e | inr fid => ret fid end) l (fun _ => l).
Proof.
  apply conducts_quiet. intros c w r c' w' HF. unfold bind at 1.
  destruct (locked _ _) as [x [c2 w1]] eqn:E. apply locked_inv in E as (ok & -> & E & ->).
  destruct (reserve_inv _ _ _ _ E) as (EQ1 & EQ2 & EQ3). destruct ok; cbn [negb].
  2:{ intros [= <- <- <-]. rewrite (EQ3 eq_refl). by split; [apply rtc_refl|]. }
  pose proof (step_reserve cfg c c2 [] [] l d key (len stdin) E) as S1.
  pose proof (ready_same_entries _ _ _ _ EQ1 EQ2 HF) as HF2.
  unfold bind at 1, try. destruct (upload client key stdin (c2, w)) as [r1 [c3 w3]] eqn:EU.
  eapply upload_steps in EU; [|exact HF2]. unfold bind. intros H. cbn in H.
  destruct EU as [HI [(e & -> & ->)|(fid & now2 & -> & -> & NF & HN)]]; injection H as <- <- <-;
    pose proof (ready_later _ _ _ _ HF2 HI) as HF3; split.
  - apply (rtc_l _ _ _ _ S1), rtc_once. by apply (step_upload_failed cfg c2 _ [] [] l d key).
  - eapply ready_same_entries; [| |exact HF3]; unfold releaseReservation; by destruct (_ || _).
  - apply (rtc_l _ _ _ _ S1). eapply rtc_l; [by apply (step_store cfg c2 _ [] [] l d key (len stdin) fid now2)|].
    apply rtc_once. by apply step_unreserve.
  - eapply ready_same_entries; [| |apply (ready_store key fid (len stdin) true now2 c2 l w3 HF3 HN)];
      unfold releaseReservation; by destruct (_ || _).
Qed.

Lemma conducts_load {L : SandboxLaws} key stdin l : cfg.(Enabled) = true ->
  conducts (load cfg client key stdin) l (fun _ => l).
Proof.
  intros HE. unfold load. eapply (conducts_bind _ _ _ (fun r => match r with inr (Some b) => b :: l | _ => l end));
    [apply conducts_pin; [unfold len; lia|done|done]|done|].
  intros [b|]; [|apply conducts_populate].
  eapply (conducts_bind _ _ _ (fun _ => l)); [apply (conducts_release [b] l); by left|done|]. intros _. by apply conducts_ret.
Qed.

(** [reconcile] takes over the files of the response one after the other. *)
Lemma import_steps {L : SandboxLaws} files l c w i r c' w' : ready c l w -> Forall (fun f => f.1 ∈ issued w) files ->
  import client files (c, w) = (r, (c', w')) ->
  exists i', rtc (worker_step cfg) (mkWorker (alone c l) (Some files) i) (mkWorker (alone c' l) (Some []) i') /\ ready c' l w'
    /\ r = inr tt /\ same_flags c c'.
Proof.
  revert c w i. induction files as [|[fid n] files IH]; intros c w i HR F; cbn [import].
  { intros [= <- <- <-]. exists i. by split_and!; [apply rtc_refl|..]. }
  apply Forall_cons in F as [Hf F]. cbn in Hf.
  assert (Sk : parseTestcaseCacheName n = None \/ fid = ""%string -> import client files (c, w) = (r, (c', w')) ->
    exists i', rtc (worker_step cfg) (mkWorker (alone c l) (Some ((fid, n) :: files)) i) (mkWorker (alone c' l) (Some []) i')
      /\ ready c' l w' /\ r = inr tt /\ same_flags c c').
  { intros HS (i' & S & R)%(IH _ _ i); [|done|done]. exists i'. split; [|done]. eapply rtc_l; [|exact S]. by apply import_skips. }
  destruct (parseTestcaseCacheName n) as [[[key size] known]|] eqn:P; [|intros H; apply Sk; [by left|done]].
  case_bool_decide as B; [intros H; apply Sk; [by right|done]|]. clear Sk.
  unfold bind. destruct (do_store _ _ _ _ _ _) as [r1 [c1 w1]] eqn:E.
  apply do_store_inv in E as (now & -> & Hc & ->). apply sb_clock in Hc. intros H.
  eapply (IH _ _ ({[fid]} ∪ i)) in H as (i' & S & R1 & R2 & R3 & R4).
  - exists i'. split_and!; [|done|done|..].
    + eapply rtc_l; [|exact S]. by eapply import_file.
    + destruct (store_flags key fid size known now c) as [F1 F2]. split; congruence.
  - apply ready_store; [by eapply ready_later|set_solver].
  - eapply Forall_impl; [exact F|]. set_solver.
Qed.

Lemma conducts_reconcile {L : SandboxLaws} l : conducts (reconcile cfg client) l (fun _ => l).
Proof.
  unfold reconcile. destruct (negb _); [by apply conducts_ret|]. intros c w i r c' w' HR. unfold bind at 1, locked at 1.
  destruct (reconciled c || reconcileAttempted c) eqn:E.
  { cbn [negb]. intros [= <- <- <-]. exists i. by split; [apply rtc_refl|]. }
  apply orb_false_iff in E as [E1 E2]. pose proof (rd_listing _ _ _ HR E1 E2) as Q. cbn [negb].
  set (c1 := with_reconcile c c.(reconciled) true).
  assert (S1 : worker_step cfg (holding c l i) (holding c1 l i)) by (unfold holding; rewrite Q; by apply reconcile_begins).
  assert (R1 : ready c1 l w) by (destruct HR as [_ H2 H3]; by constructor).
  unfold bind at 1. destruct (rpc _ _) as [x [c2 w1]] eqn:E. apply rpc_inv in E as [-> E].
  apply sb_list in E as [I F]. pose proof (ready_later _ _ _ _ R1 I) as R2.
  destruct x as [e|[files|]].
  - intros [= <- <- <-]. exists i. by split; [apply rtc_once|].
  - unfold bind at 1. destruct (import client files (c1, w1)) as [r1 [c3 w3]] eqn:EI.
    apply (import_steps files l _ _ i) in EI as (i' & S & R3 & -> & F1 & F2); [|done|by apply F].
    intros [= <- <- <-]. exists i'. split.
    + eapply rtc_l; [exact S1|]. unfold holding. rewrite Q. eapply rtc_l; [by apply list_arrives|].
      eapply rtc_r; [exact S|]. apply reconcile_ends.
    + destruct R3 as [_ H2 H3]. constructor; [|exact H2|exact H3]. done.
  - intros [= <- <- <-]. exists i. by split; [apply rtc_once|].
Qed.

(** A [getOrAdd] is a sequence of locked steps of one goroutine, and the pin it
    returns is all it hands out. *)
Lemma conducts_getOrAdd {L : SandboxLaws} ctxErr identity tc l post :
  (forall e, post (inl e) = l) -> post (inr None) = l -> (forall b, post (inr (Some b)) ≡ₚ b :: l) ->
  conducts (getOrAdd cfg client ctxErr identity tc) l post.
Proof.
  intros P1 P2 P3. unfold getOrAdd. destruct (newTestcaseCacheKey identity tc) as [key|]; [|by apply conducts_ret].
  destruct (Enabled cfg) eqn:EE; cbn [negb]; [|by apply conducts_ret]. assert (0 <= len (Stdin tc)) as Hn by (unfold len; lia).
  eapply (conducts_bind _ _ _ (fun _ => l)); [eapply conducts_try; [apply conducts_reconcile|done]|done|]. intros _.
  eapply (conducts_bind _ _ _ post); [by apply conducts_pin|done|].
  intros [b|]; [by apply conducts_ret|]. rewrite P2.
  eapply (conducts_bind _ _ _ (fun _ => l)); [eapply conducts_try; [by apply conducts_load|done]|done|]. intros x.
  destruct ctxErr as [e|]; [by apply conducts_fail|]. destruct x; [by apply conducts_ret|by apply conducts_pin].
Qed.

Lemma conducts_remove l key fid : conducts (locked (W := W) (removeIfMatch key fid)) l (fun _ => l).
Proof.
  apply conducts_quiet. intros c w r c' w' HR (u & -> & H & ->)%locked_inv.
  assert (c' = (removeIfMatch key fid c).2) as -> by (by rewrite H). split.
  - apply rtc_once. apply (step_stale cfg c [] [] l d (mkBinding key fid)).
  - eapply ready_entries; [exact HR| | |].
    + unfold removeIfMatch, removeAccounting. repeat case_match; simplify_eq; done.
    + intros k e' [He _]%removeIfMatch_entries. eauto.
    + intros b' Hb. left. set_solver.
Qed.

Lemma conducts_drop_missing active bs l : conducts (drop_missing (W := W) active bs) l (fun _ => l).
Proof.
  induction bs as [|b bs IH]; [by apply conducts_ret|]. cbn. case_bool_decide; [done|].
  eapply (conducts_bind _ _ _ (fun _ => l)); [apply conducts_remove|done|]. intros gone.
  eapply (conducts_bind _ _ _ (fun _ => l)); [exact IH|done|]. intros more. by apply conducts_ret.
Qed.

Lemma conducts_invalidateMissing {L : SandboxLaws} bs l : conducts (invalidateMissing cfg client bs) l (fun _ => l).
Proof.
  unfold invalidateMissing. destruct (_ || _); [by apply conducts_ret|].
  eapply (conducts_bind _ _ _ (fun _ => l)); [|done|].
  - eapply (conducts_try _ _ (fun _ => l)); [|done]. apply conducts_rpc. intros w r w' E. by apply sb_list in E as [E _].
  - intros [e|[files|]]; [by apply conducts_ret|apply conducts_drop_missing|by apply conducts_ret].
Qed.
End Runs.

(** A new worker knows no file. *)
Lemma new_ready {W} (issued : W -> gset string) w : ready issued [] None empty_cache [] w.
Proof.
  constructor; [done| |by intros b ?%elem_of_nil]. intros k e He. cbn in He. by rewrite lookup_empty in He.
Qed.

(** ** Accounting *)

Section Accounting.
Context {W : Type} (cfg : TestcaseCacheConfig) (client : sandboxFileRPC W).

(** A computation that keeps the counters of the cache right. *)
Definition accounts {A} (m : M (cache * W) A) : Prop :=
  forall c w r c' w', accounted c -> m (c, w) = (r, (c', w')) -> accounted c'.

Lemma accounts_ret {A} (a : A) : accounts (ret a).
Proof. intros c w r c' w' HA [= <- <- <-]. done. Qed.
Lemma accounts_fail {A} e : accounts (fail (A := A) e).
Proof. intros c w r c' w' HA [= <- <- <-]. done. Qed.
Lemma accounts_bind {A B} (m : M (cache * W) A) (f : A -> M (cache * W) B) :
  accounts m -> (forall a, accounts (f a)) -> accounts (bind m f).
Proof.
  intros Hm Hf c w r c' w' HA. unfold bind. destruct (m (c, w)) as [[e|a] [c1 w1]] eqn:E; [intros [= <- <- <-]; eauto|].
  intros H. eapply Hf; [|exact H]. eauto.
Qed.
Lemma accounts_try {A} (m : M (cache * W) A) : accounts m -> accounts (try m).
Proof.
  intros Hm c w r c' w' HA. unfold try. destruct (m (c, w)) as [x [c1 w1]] eqn:E. intros [= <- <- <-]. eauto.
Qed.
Lemma accounts_rpc {A} (m : M W A) : accounts (rpc m).
Proof. intros c w r c' w' HA [-> _]%rpc_inv. done. Qed.
Lemma accounts_locked {A} (f : cache -> A * cache) : (forall c, accounted c -> accounted (f c).2) -> accounts (locked f).
Proof. intros Hf c w r c' w' HA (a & -> & H & ->)%locked_inv. specialize (Hf c HA). by rewrite H in Hf. Qed.
Lemma accounts_time : accounts (time_now client).
Proof. intros c w r c' w' HA. unfold time_now. destruct (clock client w). intros [= <- <- <-]. done. Qed.

Lemma accounts_store key fid n known : 0 <= n -> accounts (do_store client key fid n known).
Proof.
  intros Hn. apply accounts_bind; [apply accounts_time|]. intros now. apply accounts_locked. intros c HA.
  by apply store_accounted.
Qed.
Lemma accounts_pin key n : 0 <= n -> accounts (do_pin client key n).
Proof.
  intros Hn. apply accounts_bind; [apply accounts_time|]. intros now. apply accounts_locked. intros c HA.
  by apply pin_accounted.
Qed.
Lemma accounts_release bs : accounts (do_release cfg client bs).
Proof.
  unfold do_release. destruct (_ || _); [apply accounts_ret|]. apply accounts_bind; [apply accounts_time|]. intros now.
  apply accounts_bind; [|intros _]; apply accounts_locked; intros c HA; [by apply release_accounted|].
  unfold maybeScheduleCleanup. repeat case_match; try done; destruct HA; by constructor.
Qed.

Lemma accounts_import files : accounts (import client files).
Proof.
  induction files as [|[fid n] rest IH]; [apply accounts_ret|]. cbn.
  destruct (parseTestcaseCacheName n) as [[[key size] known]|] eqn:E; [|done]. case_bool_decide; [done|].
  apply accounts_bind; [|done]. apply accounts_store. by eapply parse_size.
Qed.

Lemma accounts_reconcile : accounts (reconcile cfg client).
Proof.
  unfold reconcile. destruct (negb _); [apply accounts_ret|]. apply accounts_bind.
  - apply accounts_locked. intros c HA. destruct (_ || _); [done|]. destruct HA; by constructor.
  - intros first. destruct (negb first); [apply accounts_ret|]. apply accounts_bind; [apply accounts_rpc|].
    intros [files|]; [|apply accounts_fail]. apply accounts_bind; [apply accounts_import|]. intros _.
    apply accounts_locked. intros c HA. destruct HA; by constructor.
Qed.

Lemma reserve_accounted size c : accounted c -> accounted (reserve cfg size c).2.
Proof. intros HA. unfold reserve. repeat destruct (_ || _); try done. by apply reserved_accounted. Qed.

Lemma accounts_load key stdin : accounts (load cfg client key stdin).
Proof.
  assert (0 <= len stdin) as Hn by (unfold len; lia).
  apply accounts_bind; [by apply accounts_pin|]. intros [b|].
  - apply accounts_bind; [apply accounts_release|]. intros _. apply accounts_ret.
  - apply accounts_bind; [apply accounts_locked; intros c; apply reserve_accounted|]. intros ok.
    destruct (negb ok); [apply accounts_fail|]. apply accounts_bind.
    + apply accounts_try, accounts_bind; [apply accounts_rpc|]. intros [fid|]; [|apply accounts_fail].
      case_bool_decide; [apply accounts_fail|]. apply accounts_bind; [by apply accounts_store|]. intros _. apply accounts_ret.
    + intros r. apply accounts_bind; [|intros _; destruct r; [apply accounts_fail|apply accounts_ret]].
      apply accounts_locked. intros c HA. unfold releaseReservation. cbn.
      destruct (_ || _); by apply reserved_accounted.
Qed.

(** Every pin handed out is a live entry with that file, in use. *)
Lemma getOrAdd_entry ctxErr identity tc c c' w w' b :
  accounted c -> getOrAdd cfg client ctxErr identity tc (c, w) = (inr (Some b), (c', w')) ->
  newTestcaseCacheKey identity tc = Some b.(BKey) /\ accounted c' /\
  exists e, c'.(entries) !! b.(BKey) = Some e /\ e.(fileID) = b.(BFileID) /\ e.(deleting) = false
    /\ e.(sizeKnown) = true /\ 0 < e.(inUse).
Proof.
  intros HA. unfold getOrAdd. assert (0 <= len (Stdin tc)) as Hn by (unfold len; lia).
  destruct (newTestcaseCacheKey identity tc) as [key|]; [|discriminate].
  destruct (negb _); [discriminate|]. intros H. run_inv H. destruct w0 as [c1 u1], w1 as [c2 u2].
  pose proof (accounts_try _ accounts_reconcile _ _ _ _ _ HA E) as HA1.
  assert (forall c w b c' w', accounted c -> do_pin client key (len (Stdin tc)) (c, w) = (inr (Some b), (c', w')) ->
    Some key = Some (BKey b) /\ accounted c' /\
    exists e, c'.(entries) !! b.(BKey) = Some e /\ e.(fileID) = b.(BFileID) /\ e.(deleting) = false
      /\ e.(sizeKnown) = true /\ 0 < e.(inUse)) as K.
  { intros x y b' x' y' HX HP. pose proof (accounts_pin _ _ Hn _ _ _ _ _ HX HP) as HX'.
    apply do_pin_inv in HP as (now & o & Ho & _ & HP). injection Ho as <-.
    apply pin_some in HP as [<- HE]; done. }
  destruct a0 as [b0|].
  - injection H as <- <- <-. by apply (K c1 u1 b0 c2 u2).
  - pose proof (accounts_pin _ _ Hn _ _ _ _ _ HA1 E0) as HA2. run_inv H. destruct w0 as [c3 u3].
    pose proof (accounts_try _ (accounts_load _ _) _ _ _ _ _ HA2 E1) as HA3.
    destruct ctxErr; [discriminate|]. destruct a0; [discriminate|]. by apply (K c3 u3 b c' w').
Qed.

(** ** [cleanup] *)

Definition remove_binding (c : cache) (b : testcaseCacheBinding) : cache := (removeIfMatch b.(BKey) b.(BFileID) c).2.

Lemma delete_candidates_run bs c w r c' w' :
  (forall fid w e w', client.(FileDelete) fid w = (inl e, w') -> client.(is_NotFound) e = true) ->
  delete_candidates client bs (c, w) = (r, (c', w')) -> c' = fold_left remove_binding bs c.
Proof.
  intros HD. revert c w. induction bs as [|b bs IH]; intros c w; cbn [delete_candidates]; [by intros [= <- <- <-]|].
  unfold bind at 1. unfold try at 1. destruct (rpc _ _) as [r1 [c1 w1]] eqn:E. apply rpc_inv in E as [-> E].
  assert ((match r1 with
    | inl e => if negb (is_NotFound client e) then update (markDeleteFailed b)
               else let* _ := locked (removeIfMatch (BKey b) (BFileID b)) in ret tt
    | inr _ => let* _ := locked (removeIfMatch (BKey b) (BFileID b)) in ret tt
    end) (c, w1) = (inr tt, (remove_binding c b, w1))) as HS.
  { unfold remove_binding, bind, locked. destruct r1 as [e|]; [rewrite (HD _ _ _ _ E)|]; cbn; by destruct (removeIfMatch _ _ c). }
  rewrite (bind_inr _ _ _ _ _ HS). cbn [fold_left]. apply IH.
Qed.

(** Deleting the selected entries one after the other. *)
Lemma remove_all (sel : list candidate) c : accounted c -> NoDup (map fst sel) ->
  (forall p, p ∈ sel -> exists e, c.(entries) !! p.1 = Some e /\ e.(fileID) = p.2.(fileID)
     /\ known_bytes e = known_bytes p.2) ->
  let c' := fold_left remove_binding (map (fun p => mkBinding p.1 p.2.(fileID)) sel) c in
  c'.(totalBytes) = c.(totalBytes) - sel_bytes sel
  /\ Z.of_nat (size c'.(entries)) = Z.of_nat (size c.(entries)) - Z.of_nat (length sel)
  /\ forall k e, c'.(entries) !! k = Some e <-> c.(entries) !! k = Some e /\ k ∉ map fst sel.
Proof.
  revert c. induction sel as [|p sel IH]; intros c HA ND HS.
  - cbn. split_and!; [unfold sel_bytes; cbn; lia|lia|]. set_solver.
  - cbn [map fold_left]. apply NoDup_cons in ND as [N1 N2]. destruct (HS p) as (e & E1 & E2 & E3); [by left|].
    assert (remove_binding c (mkBinding p.1 (fileID p.2)) =
      with_entries c (delete p.1 (entries c)) (totalBytes c - known_bytes e) (unknownEntries c - unknown_one e)) as HR.
    { unfold remove_binding, removeIfMatch. cbn. rewrite E1, bool_decide_eq_true_2 by done. cbn.
      unfold removeAccounting, known_bytes, unknown_one. destruct (sizeKnown e); cbn; f_equal; lia. }
    pose proof (removeIfMatch_accounted p.1 (fileID p.2) c HA) as HA'.
    change (accounted (remove_binding c (mkBinding p.1 (fileID p.2)))) in HA'. rewrite HR in HA' |- *.
    destruct (IH _ HA' N2) as (I1 & I2 & I3).
    { intros q Hq. destruct (HS q) as (e' & Q1 & Q2); [by right|]. exists e'. cbn. split; [|done].
      rewrite lookup_delete_ne; [done|]. intros Hk. apply N1. rewrite Hk. apply list_elem_of_fmap. eauto. }
    split_and!.
    + rewrite I1. unfold sel_bytes. rewrite sum_by_cons, <- E3. cbn [totalBytes with_entries]. lia.
    + rewrite I2. cbn [entries with_entries]. rewrite map_size_delete_Some by done.
      assert (size (entries c) <> 0%nat) by (apply map_size_ne_0_lookup; eauto). cbn [length]. lia.
    + intros k x. rewrite I3. cbn. rewrite lookup_delete_Some. set_solver.
Qed.

Lemma cleanup_result c c' w r w' :
  (forall fid w e w', client.(FileDelete) fid w = (inl e, w') -> client.(is_NotFound) e = true) ->
  cfg.(Enabled) = true -> accounted c -> cleanup cfg client (c, w) = (r, (c', w')) ->
  (forall k e, c.(entries) !! k = Some e -> e.(inUse) <> 0 \/ e.(deleting) = true -> c'.(entries) !! k = Some e)
  /\ (Z.of_nat (size c'.(entries)) <= cfg.(MaxEntries) /\ c'.(totalBytes) <= cfg.(MaxBytes)
      \/ forall k e, c'.(entries) !! k = Some e -> e.(inUse) <> 0 \/ e.(deleting) = true).
Proof.
  intros HD HE HA. unfold cleanup. rewrite HE. cbn [negb]. unfold bind, time_now. destruct (clock client w) as [now w1].
  unfold locked. destruct (selectEvictionCandidates cfg now c) as [bs c1] eqn:ES. intros H.
  apply delete_candidates_run in H; [|done].
  pose proof (select_accounted cfg now c HA) as HA1. pose proof (selected_size cfg now c) as HSz.
  assert (totalBytes c1 = totalBytes c) as HT by (by unfold selectEvictionCandidates in ES; injection ES as <- <-).
  pose proof (fun k e => select_entries cfg now c k e) as HSE. rewrite ES in HA1, HSz, HSE. cbn in HA1, HSz, HSE.
  assert (bs = map (fun q : candidate => mkBinding q.1 q.2.(fileID)) (selected cfg now c)) as ->
    by (unfold selectEvictionCandidates in ES; by injection ES as <- _).
  destruct (remove_all (selected cfg now c) c1 HA1) as (R1 & R2 & R3).
  - apply selected_keys.
  - intros [k e] Hp. destruct (select_marks cfg now c k e Hp) as (e' & M1 & _). rewrite ES in M1. exists e'.
    cbn. split; [done|]. apply selected_spec in Hp as (K & _ & _).
    destruct (HSE _ _ M1) as (e0 & K0 & [->|[-> _]]); rewrite K in K0; by injection K0 as <-.
  - change (totalBytes (fold_left remove_binding (map (fun q : candidate => mkBinding q.1 q.2.(fileID))
      (selected cfg now c)) c1) = totalBytes c1 - sel_bytes (selected cfg now c)) in R1.
    cbv zeta in R1, R2, R3. rewrite <- H in R1. unfold candidate in H. rewrite <- H in R2, R3. split.
    + intros k e Hk HU. apply R3.
      assert (k ∉ map fst (selected cfg now c)) as HK.
      { intros ([k' e'] & -> & Hp)%list_elem_of_fmap. cbn in *. apply selected_spec in Hp as (K & U & D).
        rewrite K in Hk. injection Hk as ->. destruct HU; congruence. }
      split; [|done]. pose proof (select_others cfg now c k HK) as HO. rewrite ES in HO. cbn in HO. congruence.
    + destruct (select_loop_fits cfg now (eligible c) (Z.of_nat (map_size (entries c))) (totalBytes c)) as [HF|[F1 F2]].
      * apply Forall_forall. intros [k e] Hp%eligible_spec. destruct Hp as (K & _ & _). unfold known_bytes. cbn.
        destruct (sizeKnown e); [|done]. by apply (acc_entries c HA k).
      * right. intros k e (K1 & K2)%R3.
        pose proof (select_others cfg now c k K2) as HO. rewrite ES in HO. cbn in HO. rewrite HO in K1.
        destruct (decide (inUse e = 0)) as [HU|HU]; [|by left]. right. destruct (deleting e) eqn:D; [done|].
        exfalso. apply K2. unfold selected. rewrite HF. apply list_elem_of_fmap. exists (k, e). split; [done|].
        by apply eligible_spec.
      * left. rewrite R1, R2, HT, HSz. split; [exact F1|exact F2].
Qed.
End Accounting.
