(* ===== verification/GoJudgeClient.v ===== *)
(** The go-judge adapter of the worker:
    workers/judge/internal/adapter/outbound/execute/go_judge_client.go.

    The sandbox service is a parameter ([executorRPC]); the records below are
    the fields of its messages that the adapter builds or reads. *)

From S2P Require Import Prelude GoString GoError GoMonad WorkerDomain Sanitize Diagnostics GoPath TestcaseCache SandboxCache.

(** ** Messages of the sandbox *)

Inductive Request_File :=
| MemoryFile (content : string)
| CachedFile (fileID : string)
| LocalFile (src : string)
| PipeCollector (name : string) (max : Z).

Record CmdType := mkCmd {
  Args : list string;
  CmdEnv : list string;
  Files : list Request_File;
  CopyIn : list (string * Request_File);
  CopyOut : list string;
  CopyOutCached : list string;
  MemoryLimit : Z;
  CpuTimeLimit : Z;
  ClockTimeLimit : Z;
  ProcLimit : Z;
}.
Definition Request : Type := list CmdType.

(** [Response_Result_StatusType]; [StatusOther] stands for the values the
    adapter does not name. *)
Inductive StatusType :=
| SAccepted | SMemoryLimitExceeded | STimeLimitExceeded | SOutputLimitExceeded | SFileError
| SNonZeroExitStatus | SSignalled | SInternalError | StatusOther.
#[export] Instance StatusType_eq_dec : EqDecision StatusType.
Proof. solve_decision. Defined.

Record Response_Result := mkResult {
  RStatus : StatusType;
  RExitStatus : Z;
  RError : string;
  RTime : Z;
  RMemory : Z;
  RFiles : gmap string string;
  RFileIDs : gmap string string;
  RFileError : nat;
}.
(** A response: its error text and its results, [None] for a nil result. *)
Record Response := mkResponse { PError : string; PResults : list (option Response_Result) }.

(** [executorRPC] with the state of the contexts the adapter looks at: the
    error of the RPC context after a failed call, and of the caller's context
    when a cache load is still running. *)
Record executorRPC (W : Type) := mkExecutor {
  Exec : Request -> M W (option Response);
  file_rpc : sandboxFileRPC W;
  rpcCtxErr : W -> option error;
  loadCtxErr : option error;
}.
Arguments Exec {W}.
Arguments file_rpc {W}.
Arguments rpcCtxErr {W}.
Arguments loadCtxErr {W}.

(** ** Constants *)

Definition defaultBatchSize : Z := 50.
Definition officialBatchSize : Z := 4.
Definition sandboxGRPCSafeRequestBytes : Z := 3 * 1024 * 1024.
Definition officialTestcaseRoot : string := "/cache/testcases".
Definition minCompileLimitMS : Z := 30000.
Definition millisecond : Z := 1000000.
Definition uint64 (z : Z) : Z := z mod 2 ^ 64.

(** ** Results *)

Definition mapJudgeStatus (status : StatusType) (exitStatus : Z) : string :=
  match status with
  | SAccepted => if negb (exitStatus =? 0) then "RUNTIME_ERROR" else "ACCEPTED"
  | SMemoryLimitExceeded => "MEMORY_LIMIT_EXCEEDED"
  | STimeLimitExceeded => "TIME_LIMIT_EXCEEDED"
  | SOutputLimitExceeded => "OUTPUT_LIMIT_EXCEEDED"
  | SFileError | SNonZeroExitStatus | SSignalled => "RUNTIME_ERROR"
  | SInternalError => "SYSTEM_ERROR"
  | StatusOther => "SYSTEM_ERROR"
  end.

Definition mapOfficialSubmissionStatus (status : string) : string := status.

Definition file_text (m : gmap string string) (n : string) : string := default ""%string (m !! n).
Definition nonempty_text (s : string) : option string := if bool_decide (s = ""%string) then None else Some s.

Definition is_accepted (status : string) : bool := bool_decide (status = "ACCEPTED"%string).

Definition mapTestCaseResult (language : string) (testCase : ExecutionTestCase) (res : Response_Result)
    (officialSubmission : bool) : TestCaseResult :=
  let status := mapJudgeStatus res.(RStatus) res.(RExitStatus) in
  let status := if officialSubmission then mapOfficialSubmissionStatus status else status in
  let stdout := file_text res.(RFiles) "stdout" in
  let stderr := Worker.sanitizeOutput (file_text res.(RFiles) "stderr") in
  let diagnostics := parseRuntimeDiagnostics language testCase.(TcID) stderr in
  let status :=
    match testCase.(TcExpectedOutput) with
    | Some expected => if is_accepted status && negb (OutputEqual stdout expected) then "WRONG_ANSWER"%string else status
    | None => status
    end in
  mkTCResult testCase.(TcIndex) testCase.(TcID) testCase.(TcKind) status (nonempty_text stdout) (nonempty_text stderr)
    None testCase.(TcExpectedOutput) (res.(RTime) / millisecond) (res.(RMemory) / 1024) diagnostics.

Definition errorMessageForTestCase (testCase : TestCaseResult) : option string :=
  let message :=
    if bool_decide (testCase.(RsStatus) = "RUNTIME_ERROR"%string)
    then runtimeErrorMessage (default ""%string testCase.(RsStderr)) testCase.(RsDiagnostics)
    else if bool_decide (testCase.(RsStatus) = "TIME_LIMIT_EXCEEDED"%string)
    then "Execution exceeded the time limit."%string
    else if bool_decide (testCase.(RsStatus) = "MEMORY_LIMIT_EXCEEDED"%string)
    then "Execution exceeded the memory limit."%string
    else if bool_decide (testCase.(RsStatus) = "SYSTEM_ERROR"%string)
    then "The judge could not complete this submission."%string
    else ""%string in
  if blank message then None else Some message.

Definition hasFileErrors (r : Response) : bool :=
  existsb (fun o => match o with Some res => (0 <? res.(RFileError))%nat | None => false end) r.(PResults).

(** The result an execution starts from, and the one after a testcase. *)
Definition accepted_result : ExecutionResult :=
  mkExecResult "ACCEPTED" None None [] [] 0 0 None None None None.
Definition add_result (result : ExecutionResult) (tc : TestCaseResult) : ExecutionResult :=
  let fails := negb (is_accepted tc.(RsStatus)) && is_accepted result.(EStatus) in
  mkExecResult
    (if fails then tc.(RsStatus) else result.(EStatus)) result.(ECompileOutput)
    (if fails then errorMessageForTestCase tc else result.(EErrorMessage)) result.(EDiagnostics)
    (result.(ETestCases) ++ [tc])
    (if result.(EExecutionTime) <? tc.(RsExecutionTime) then tc.(RsExecutionTime) else result.(EExecutionTime))
    (if result.(EMemoryUsed) <? tc.(RsMemoryUsed) then tc.(RsMemoryUsed) else result.(EMemoryUsed))
    result.(EError) result.(ETestcaseVersion) result.(ETestCount) result.(EDatasetChecksum).

(** The loop over the results of one batch; [true] is the early return. *)
Fixpoint collect (language : string) (stop : bool) (result : ExecutionResult)
    (batch : list ExecutionTestCase) (raws : list (option Response_Result)) : error + (bool * ExecutionResult) :=
  match batch, raws with
  | tc :: batch, raw :: raws =>
      match raw with
      | None => inl (EText ("go-judge returned an incomplete result for testcase " +:+ Itoa tc.(TcIndex)))
      | Some raw =>
          let tcResult := mapTestCaseResult language tc raw stop in
          let result := add_result result tcResult in
          if stop && negb (is_accepted tcResult.(RsStatus)) then inr (true, result)
          else collect language stop result batch raws
      end
  | _, _ => inr (false, result)
  end.

(** ** Requests *)

Section Client.
Context {W : Type} (cfg : TestcaseCacheConfig) (client : executorRPC W).
(** [filepath.EvalSymlinks] *)
Context (EvalSymlinks : string -> option string).

Definition containedLocalFilePath (root candidate : string) : option string :=
  let root := str (Clean (chars root)) in
  let path := str (Clean (chars candidate)) in
  if negb (isContainedPath (chars root) (chars path)) then None
  else match EvalSymlinks root with
       | None => None
       | Some resolvedRoot =>
           match EvalSymlinks path with
           | None => None
           | Some resolvedPath =>
               if negb (isContainedPath (chars resolvedRoot) (chars resolvedPath)) then None else Some path
           end
       end.

Definition officialSandboxInputPath (testCase : ExecutionTestCase) : option string :=
  if negb (bool_decide (testCase.(TcKind) = "official"%string)) || blank testCase.(SandboxInputPath) then None
  else containedLocalFilePath officialTestcaseRoot testCase.(SandboxInputPath).

Definition exec (operation : string) (req : Request) : M (cache * W) Response :=
  fun '(c, w) =>
    let '(r, w') := client.(Exec) req w in
    (match r with
     | inl err =>
         match client.(rpcCtxErr) w' with
         | Some ctxErr => inl (EWrap ("go-judge " +:+ operation +:+ " RPC canceled or timed out") ctxErr)
         | None => inl (EWrap ("go-judge " +:+ operation +:+ " gRPC transport failure") err)
         end
     | inr None => inl (EText ("go-judge " +:+ operation +:+ " RPC returned an empty response"))
     | inr (Some resp) =>
         if negb (bool_decide (resp.(PError) = ""%string)) && bool_decide (resp.(PResults) = [])
         then inl (EText ("go-judge " +:+ operation +:+ " RPC returned an execution error"))
         else inr resp
     end, (c, w')).

Definition cleanupExecutableFile (fileID : string) : M (cache * W) unit :=
  if bool_decide (fileID = ""%string) then ret tt
  else let* _ := try (rpc (client.(file_rpc).(FileDelete) fileID)) in ret tt.

Definition compile_request (language sourceCode : string) (cmd : RunCmd) (limits : ExecutionLimits) : Request :=
  let compileLimitMS := maxInt64 limits.(TimeLimitMS) minCompileLimitMS in
  let compileMemoryKB := maxInt64 limits.(MemoryLimitKB) (512 * 1024) in
  [mkCmd cmd.(Command) cmd.(Env)
     [MemoryFile ""; PipeCollector "stdout" limits.(OutputLimitBytes); PipeCollector "stderr" limits.(OutputLimitBytes)]
     [(GetSourceFileName language, MemoryFile sourceCode)]
     ["stdout"; "stderr"]%string [GetExeFileName language]
     (uint64 (wrap64 (compileMemoryKB * 1024))) (uint64 (wrap64 (compileLimitMS * millisecond)))
     (uint64 (wrap64 (wrap64 (compileLimitMS * millisecond) * 2))) 500].

(** [compile]: a result when the compilation failed, the identifier of the
    executable otherwise. *)
Definition compile (language sourceCode : string) (cmd : RunCmd) (limits : ExecutionLimits)
  : M (cache * W) (ExecutionResult + string) :=
  let* resp := exec "compile" (compile_request language sourceCode cmd limits) in
  match resp.(PResults) with
  | Some res :: _ =>
      if negb (bool_decide (res.(RStatus) = SAccepted)) then
        let stderr := file_text res.(RFiles) "stderr" in
        let stdout := file_text res.(RFiles) "stdout" in
        let compileOutput := if negb (bool_decide (stderr = ""%string)) then stderr
                             else if negb (bool_decide (stdout = ""%string)) then stdout else res.(RError) in
        let compileOutput := Worker.sanitizeOutput compileOutput in
        ret (inl (mkExecResult "COMPILATION_ERROR" (Some compileOutput) None
                    (parseCompileDiagnostics language compileOutput) [] 0 0 None None None None))
      else
        let fileID := file_text res.(RFileIDs) (GetExeFileName language) in
        if bool_decide (fileID = ""%string)
        then fail (EText "compile succeeded but executable file ID was absent from response")
        else ret (inr fileID)
  | _ => fail (EText "go-judge compile response did not contain a result")
  end.

(** The command of one testcase with its standard input. *)
Definition run_command (language sourceCode : string) (langCfg : LanguageConfig) (limits : ExecutionLimits)
    (exeFileID : option string) (stdin : Request_File) : CmdType :=
  mkCmd langCfg.(Run).(Command) langCfg.(Run).(Env)
    [stdin; PipeCollector "stdout" limits.(OutputLimitBytes); PipeCollector "stderr" limits.(OutputLimitBytes)]
    (match exeFileID with
     | Some fileID => [(GetExeFileName language, CachedFile fileID)]
     | None => [(GetSourceFileName language, MemoryFile sourceCode)]
     end)
    ["stdout"; "stderr"]%string []
    (uint64 (wrap64 (limits.(MemoryLimitKB) * 1024))) (uint64 (wrap64 (limits.(TimeLimitMS) * millisecond)))
    (uint64 (wrap64 (wrap64 (limits.(TimeLimitMS) * millisecond) * 2))) 50.

(** The standard input of one testcase: the file, the pin if it is cached and
    the bytes it adds to the request. *)
Definition choose_stdin (dataset : option TestcaseDatasetIdentity) (memoryBytes : Z) (tc : ExecutionTestCase)
  : M (cache * W) (Request_File * option testcaseCacheBinding * Z) :=
  let inputBytes := len tc.(Stdin) in
  let localPath := officialSandboxInputPath tc in
  let large := sandboxGRPCSafeRequestBytes <? inputBytes in
  match localPath with
  | None =>
      if large then fail (MarkNonRetryable (EText "official testcase input exceeds the safe sandbox gRPC request budget and has no safe LocalFile path"))
      else
        let* b := getOrAdd cfg client.(file_rpc) client.(loadCtxErr) dataset tc in
        match b with
        | Some b => ret (CachedFile b.(BFileID), Some b, memoryBytes)
        | None =>
            if sandboxGRPCSafeRequestBytes <? memoryBytes + inputBytes
            then fail (MarkNonRetryable (EText "official testcase batch exceeds the safe sandbox gRPC request budget and has no safe LocalFile path"))
            else ret (MemoryFile tc.(Stdin), None, memoryBytes + inputBytes)
        end
  | Some path =>
      if large then ret (LocalFile path, None, memoryBytes)
      else
        let* b := getOrAdd cfg client.(file_rpc) client.(loadCtxErr) dataset tc in
        match b with
        | Some b => ret (CachedFile b.(BFileID), Some b, memoryBytes)
        | None =>
            if sandboxGRPCSafeRequestBytes <? memoryBytes + inputBytes then ret (LocalFile path, None, memoryBytes)
            else ret (MemoryFile tc.(Stdin), None, memoryBytes + inputBytes)
        end
  end.

(** The loop of [newRunBatchRequest]; the pins taken so far are released when
    a testcase fails. *)
Fixpoint batch_commands (command : Request_File -> CmdType) (dataset : option TestcaseDatasetIdentity)
    (testCases : list ExecutionTestCase) (memoryBytes : Z) (cmds : Request) (bindings : list testcaseCacheBinding)
  : M (cache * W) (Request * list testcaseCacheBinding) :=
  match testCases with
  | [] => ret (cmds, bindings)
  | tc :: rest =>
      let* choice := try (choose_stdin dataset memoryBytes tc) in
      match choice with
      | inl err => let* _ := do_release cfg client.(file_rpc) bindings in fail err
      | inr (stdin, b, memoryBytes) =>
          batch_commands command dataset rest memoryBytes (cmds ++ [command stdin])
            (match b with Some b => bindings ++ [b] | None => bindings end)
      end
  end.

Definition newRunBatchRequest (language sourceCode : string) (langCfg : LanguageConfig) (limits : ExecutionLimits)
    (exeFileID : option string) (dataset : option TestcaseDatasetIdentity) (testCases : list ExecutionTestCase)
  : M (cache * W) (Request * list testcaseCacheBinding) :=
  batch_commands (run_command language sourceCode langCfg limits exeFileID) dataset testCases 0 [] [].

Definition runBatch (language sourceCode : string) (langCfg : LanguageConfig) (limits : ExecutionLimits)
    (exeFileID : option string) (dataset : option TestcaseDatasetIdentity) (testCases : list ExecutionTestCase)
  : M (cache * W) (list (option Response_Result)) :=
  let* rb := newRunBatchRequest language sourceCode langCfg limits exeFileID dataset testCases in
  let* r := try (exec "run_batch" rb.1) in
  let* _ := do_release cfg client.(file_rpc) rb.2 in
  match r with
  | inl err => fail err
  | inr resp =>
      let* stale := if hasFileErrors resp then invalidateMissing cfg client.(file_rpc) rb.2 else ret false in
      if stale then
        let* rb := newRunBatchRequest language sourceCode langCfg limits exeFileID dataset testCases in
        let* r := try (exec "run_batch" rb.1) in
        let* _ := do_release cfg client.(file_rpc) rb.2 in
        match r with
        | inl err => fail err
        | inr resp => ret resp.(PResults)
        end
      else ret resp.(PResults)
  end.

(** The loop over the batches; [fuel] bounds their number. *)
Fixpoint run_batches (fuel : nat) (batchSize : nat) (language : string) (stop : bool)
    (run : list ExecutionTestCase -> M (cache * W) (list (option Response_Result)))
    (testCases : list ExecutionTestCase) (result : ExecutionResult) : M (cache * W) ExecutionResult :=
  match fuel, testCases with
  | S fuel, _ :: _ =>
      let batch := take batchSize testCases in
      let* runResp := run batch in
      if negb (length runResp =? length batch)%nat
      then fail (EText ("go-judge returned " +:+ Itoa (Z.of_nat (length runResp)) +:+ " results for "
                         +:+ Itoa (Z.of_nat (length batch)) +:+ " test cases"))
      else
        match collect language stop result batch runResp with
        | inl err => fail err
        | inr (true, result) => ret result
        | inr (false, result) => run_batches fuel batchSize language stop run (drop batchSize testCases) result
        end
  | _, _ => ret result
  end.

Definition run_all (req : ExecutionRequest) (langCfg : LanguageConfig) (limits : ExecutionLimits)
    (exeFileID : option string) : M (cache * W) ExecutionResult :=
  let batchSize := if req.(StopOnFirstFailure) then officialBatchSize else defaultBatchSize in
  run_batches (length req.(ExTestCases)) (Z.to_nat batchSize) req.(ExLanguage) req.(StopOnFirstFailure)
    (runBatch req.(ExLanguage) req.(ExSourceCode) langCfg limits exeFileID req.(TestcaseDataset))
    req.(ExTestCases) accepted_result.

Definition Execute (req : ExecutionRequest) : M (cache * W) ExecutionResult :=
  if blank req.(ExLanguage) then fail (MarkNonRetryable (EText "language not specified"))
  else if bool_decide (req.(ExSourceCode) = ""%string) then fail (MarkNonRetryable (EText "source code is empty"))
  else if bool_decide (req.(ExTestCases) = []) then fail (MarkNonRetryable (EText "no test cases provided"))
  else
    match GetLanguageConfig req.(ExLanguage) (GetSourceFileName req.(ExLanguage)) (GetExeFileName req.(ExLanguage)) with
    | None => fail (MarkNonRetryable (EText ("unsupported language: " +:+ req.(ExLanguage))))
    | Some langCfg =>
        let limits := ensureOutputLimitForExpected (normalizeLimits req.(ExLimits)) req.(ExTestCases) in
        match langCfg.(Compile) with
        | Some cmd =>
            let* compiled := compile req.(ExLanguage) req.(ExSourceCode) cmd limits in
            match compiled with
            | inl compileResult => ret compileResult
            | inr exeFileID =>
                let* r := try (run_all req langCfg limits (Some exeFileID)) in
                cleanupExecutableFile exeFileID ;;
                match r with inl err => fail err | inr result => ret result end
            end
        | None => run_all req langCfg limits None
        end
    end.
End Client.

(** ** Verdicts *)

Definition accepts (r : TestCaseResult) : Prop := r.(RsStatus) = "ACCEPTED"%string.

Lemma is_accepted_spec s : is_accepted s = true <-> s = "ACCEPTED"%string.
Proof. apply bool_decide_eq_true. Qed.

(** The first testcase that was not accepted decides. *)
Definition first_failure (l : list TestCaseResult) : option TestCaseResult :=
  find_first (fun r => negb (is_accepted r.(RsStatus))) l.
Definition verdict (l : list TestCaseResult) : string :=
  match first_failure l with Some r => r.(RsStatus) | None => "ACCEPTED" end.
Definition slowest (l : list TestCaseResult) : Z := foldr (fun r => Z.max r.(RsExecutionTime)) 0 l.
Definition largest (l : list TestCaseResult) : Z := foldr (fun r => Z.max r.(RsMemoryUsed)) 0 l.

Record summarises (l : list TestCaseResult) (res : ExecutionResult) : Prop := {
  sm_tests : res.(ETestCases) = l;
  sm_status : res.(EStatus) = verdict l;
  sm_message : res.(EErrorMessage) = match first_failure l with Some r => errorMessageForTestCase r | None => None end;
  sm_time : res.(EExecutionTime) = slowest l;
  sm_memory : res.(EMemoryUsed) = largest l;
}.

Lemma first_failure_snoc l r : first_failure (l ++ [r]) =
  match first_failure l with Some x => Some x | None => if is_accepted r.(RsStatus) then None else Some r end.
Proof.
  unfold first_failure. induction l as [|x l IH]; cbn; [by destruct (is_accepted _)|]. destruct (negb _); [done|exact IH].
Qed.

Lemma foldr_max_snoc (f : TestCaseResult -> Z) l r :
  foldr (fun r => Z.max (f r)) 0 (l ++ [r]) = Z.max (foldr (fun r => Z.max (f r)) 0 l) (Z.max (f r) 0).
Proof. induction l as [|x l IH]; cbn; [lia|]. rewrite IH. lia. Qed.

Lemma foldr_max_nonneg (f : TestCaseResult -> Z) l : 0 <= foldr (fun r => Z.max (f r)) 0 l.
Proof. induction l; cbn; lia. Qed.

Lemma verdict_accepted l : verdict l = "ACCEPTED"%string <-> first_failure l = None.
Proof.
  unfold verdict. destruct (first_failure l) as [r|] eqn:E; [|done]. split; [|done]. intros H.
  apply find_first_some in E as [_ E]. apply negb_true_iff, not_true_iff_false in E. exfalso. apply E.
  by apply is_accepted_spec.
Qed.

Lemma summarises_snoc l res r : summarises l res -> summarises (l ++ [r]) (add_result res r).
Proof.
  intros [S1 S2 S3 S4 S5]. unfold add_result. rewrite S2.
  assert (is_accepted (verdict l) = match first_failure l with Some _ => false | None => true end) as HV.
  { destruct (first_failure l) eqn:E.
    - apply not_true_iff_false. rewrite is_accepted_spec, verdict_accepted. by rewrite E.
    - apply is_accepted_spec, verdict_accepted. done. }
  pose proof (first_failure_snoc l r) as HF.
  constructor; cbn.
  - by rewrite S1.
  - rewrite HV. unfold verdict. rewrite HF. destruct (first_failure l); cbn; [by rewrite andb_false_r|].
    rewrite andb_true_r. destruct (is_accepted (RsStatus r)) eqn:E; cbn; [done|done].
  - rewrite HV, HF, S3. destruct (first_failure l); cbn; [by rewrite andb_false_r|].
    rewrite andb_true_r. by destruct (is_accepted (RsStatus r)).
  - rewrite S4. unfold slowest. rewrite foldr_max_snoc. pose proof (foldr_max_nonneg RsExecutionTime l).
    destruct (Z.ltb_spec (foldr (fun r => Z.max (RsExecutionTime r)) 0 l) (RsExecutionTime r)); lia.
  - rewrite S5. unfold largest. rewrite foldr_max_snoc. pose proof (foldr_max_nonneg RsMemoryUsed l).
    destruct (Z.ltb_spec (foldr (fun r => Z.max (RsMemoryUsed r)) 0 l) (RsMemoryUsed r)); lia.
Qed.

Lemma accepted_summarises : summarises [] accepted_result.
Proof. by constructor. Qed.

(** What the results of the first testcases make. *)
Definition judged (language : string) (stop : bool) (tests : list ExecutionTestCase) (raws : list Response_Result)
  : list TestCaseResult := zip_with (fun tc raw => mapTestCaseResult language tc raw stop) tests raws.

(** With [stop] the run ends at the first testcase that is not accepted. *)
Inductive ends (stop : bool) : bool -> list TestCaseResult -> Prop :=
| ends_all l : (stop = true -> Forall accepts l) -> ends stop false l
| ends_early l r : stop = true -> Forall accepts l -> ~ accepts r -> ends stop true (l ++ [r]).

Lemma collect_spec language stop batch raws res early res' l : summarises l res ->
  length raws = length batch -> collect language stop res batch raws = inr (early, res') ->
  exists rs, (length rs <= length batch)%nat /\ (early = false -> length rs = length batch)
    /\ summarises (l ++ judged language stop batch rs) res' /\ ends stop early (judged language stop batch rs).
Proof.
  revert raws res l. induction batch as [|tc batch IH]; intros raws res l HS HL H.
  - destruct raws; [|done]. injection H as <- <-. exists []. rewrite app_nil_r. split_and!; try done. by constructor.
  - destruct raws as [|[raw|] raws]; try done. cbn [collect] in H.
    set (r := mapTestCaseResult language tc raw stop) in *.
    pose proof (summarises_snoc _ _ r HS) as HS'. destruct (stop && _) eqn:E.
    + injection H as <- <-. apply andb_true_iff in E as [-> E]. exists [raw].
      assert (judged language true (tc :: batch) [raw] = [r]) as -> by (unfold judged; cbn; by rewrite zip_with_nil_r).
      split_and!; [cbn; lia|done|done|].
      apply (ends_early true [] r); [done|done|]. unfold accepts. intros Ha%is_accepted_spec. by rewrite Ha in E.
    + destruct (IH raws (add_result res r) (l ++ [r]) HS') as (rs & L1 & L2 & H1 & H2); [by injection HL|exact H|].
      exists (raw :: rs). cbn [judged zip_with length]. fold r. change (zip_with _ batch rs) with (judged language stop batch rs).
      split_and!; [lia|intros He; by rewrite L2|by rewrite <- app_assoc in H1|].
      assert (stop = true -> accepts r) as Ha.
      { intros ->. apply is_accepted_spec. by destruct (is_accepted (RsStatus r)). }
      destruct H2 as [l2 H2|l2 x Hs H2 Hx].
      * constructor. intros Hs. constructor; auto.
      * apply (ends_early stop (r :: l2)); [done|constructor; auto|done].
Qed.

Lemma run_batches_fuel {W} n m batchSize language stop run tests res (w : cache * W) : (0 < batchSize)%nat ->
  (length tests <= n)%nat -> (length tests <= m)%nat ->
  run_batches n batchSize language stop run tests res w = run_batches m batchSize language stop run tests res w.
Proof.
  intros HB. revert m tests res w. induction n as [|n IH]; intros [|m] tests res w Hn Hm; destruct tests as [|t tests]; try done;
    try (cbn in *; lia).
  cbn [run_batches]. unfold bind. destruct (run _ w) as [[e|rs] w1]; [done|]. destruct (negb _); [done|].
  destruct (collect _ _ _ _ _) as [e|[[] res1]]; [done|done|]. apply IH; rewrite length_drop; cbn in *; lia.
Qed.

Lemma judged_app language stop t1 t2 r1 r2 : length t1 = length r1 ->
  judged language stop (t1 ++ t2) (r1 ++ r2) = judged language stop t1 r1 ++ judged language stop t2 r2.
Proof. intros HL. unfold judged. by rewrite zip_with_app. Qed.

Lemma run_batches_spec {W} n batchSize language stop run tests res res' l (w w' : cache * W) : (0 < batchSize)%nat ->
  (length tests <= n)%nat -> summarises l res ->
  run_batches n batchSize language stop run tests res w = (inr res', w') ->
  exists rs early, (length rs <= length tests)%nat /\ (early = false -> length rs = length tests)
    /\ summarises (l ++ judged language stop tests rs) res' /\ ends stop early (judged language stop tests rs).
Proof.
  intros HB. revert tests res w l. induction n as [|n IH]; intros tests res w l Hn HS; destruct tests as [|t tests].
  1,3: intros [= <- _]; exists [], false; rewrite app_nil_r; split_and!; try done; by constructor.
  - cbn in Hn. lia.
  - cbn [run_batches]. intros H. apply bind_inr_inv in H as (raws & w1 & _ & H).
    destruct (negb _) eqn:EL; [discriminate|]. apply negb_false_iff, Nat.eqb_eq in EL.
    set (ts := t :: tests) in *. destruct (collect _ _ _ _ _) as [e|[early res1]] eqn:EC; [discriminate|].
    pose proof (take_drop batchSize ts) as HTD.
    destruct (collect_spec _ _ _ _ _ _ _ _ HS EL EC) as (rs & L1 & L2 & H1 & H2).
    assert (length (take batchSize ts) <= length ts)%nat as HLe by (rewrite length_take; lia).
    destruct early.
    + injection H as <- <-. exists rs, true.
      assert (judged language stop ts rs = judged language stop (take batchSize ts) rs) as HJ.
      { rewrite <- HTD at 1. rewrite <- (app_nil_r rs) at 1. clear -L1. unfold judged.
        revert rs L1. generalize (take batchSize ts) as a. induction a as [|x a IH]; intros [|r rs] HL; cbn in *; try done.
        - by destruct (drop batchSize ts).
        - lia.
        - f_equal. apply IH. lia. }
      rewrite HJ. split_and!; [lia|done|done|done].
    + destruct (IH (drop batchSize ts) res1 w1 (l ++ judged language stop (take batchSize ts) rs)) as (rs2 & early & M1 & M2 & M3 & M4).
      * rewrite length_drop. unfold ts. cbn in *. lia.
      * done.
      * exact H.
      * exists (rs ++ rs2), early. specialize (L2 eq_refl).
        assert (judged language stop ts (rs ++ rs2)
          = judged language stop (take batchSize ts) rs ++ judged language stop (drop batchSize ts) rs2) as HJ.
        { rewrite <- HTD at 1. by apply judged_app. }
        rewrite HJ, app_assoc. rewrite length_app. pose proof (f_equal length HTD) as HLn. rewrite length_app in HLn.
        split_and!; [lia|intros He; specialize (M2 He); lia|done|].
        inversion H2 as [l2 F2 E1 E2|]; subst. destruct M4 as [l3 F3|l3 x Hs F3 Hx].
        -- constructor. intros Hs. apply Forall_app. auto.
        -- rewrite app_assoc. apply ends_early; [done| |done]. apply Forall_app. auto.
Qed.

Lemma Execute_inr_inv {W} cfg (client : executorRPC W) links req c w res w' :
  Execute cfg client links req (c, w) = (inr res, w') ->
  (exists langCfg cmd c1 w1, let limits := ensureOutputLimitForExpected (normalizeLimits req.(ExLimits)) req.(ExTestCases) in
     langCfg.(Compile) = Some cmd
     /\ compile client req.(ExLanguage) req.(ExSourceCode) cmd limits (c, w) = (inr (inl res), (c1, w1)) /\ w' = (c1, w1))
  \/ (exists langCfg limits exe w1 w2, run_all cfg client links req langCfg limits exe w1 = (inr res, w2)).
Proof.
  unfold Execute. destruct (blank _); [discriminate|]. do 2 (destruct (bool_decide _); [discriminate|]).
  destruct (GetLanguageConfig _ _ _) as [langCfg|]; [|discriminate]. destruct (Compile langCfg) as [cmd|] eqn:EC; [|eauto 10].
  intros H. apply bind_inr_inv in H as (o & [c1 w1] & E & H). destruct o as [r|exe].
  - injection H as -> <-. left. exists langCfg, cmd, c1, w1. done.
  - right. run_inv H. destruct a as [e|r]; [discriminate|]. injection H as ->. unfold try in E0.
    destruct (run_all _ _ _ _ _ _ _ _) as [x u2] eqn:ER. injection E0 as -> _. eauto 10.
Qed.

Lemma compile_result {W} (client : executorRPC W) language src cmd limits c w res w' :
  compile client language src cmd limits (c, w) = (inr (inl res), w') -> res.(EStatus) = "COMPILATION_ERROR"%string.
Proof.
  unfold compile. intros H. apply bind_inr_inv in H as (resp & w1 & _ & H).
  destruct (PResults resp) as [|[r|] l]; try discriminate. destruct (negb _); [by injection H as <- _|].
  destruct (bool_decide _); discriminate.
Qed.

(** A submission that could be compiled has the result of the testcases that
    were run, in the order of the request. *)
Lemma Execute_summary {W} cfg (client : executorRPC W) links req w res w' :
  Execute cfg client links req w = (inr res, w') -> res.(EStatus) <> "COMPILATION_ERROR"%string ->
  exists rs early, let stop := req.(StopOnFirstFailure) in
    (length rs <= length req.(ExTestCases))%nat /\ (early = false -> length rs = length req.(ExTestCases))
    /\ summarises (judged req.(ExLanguage) stop req.(ExTestCases) rs) res
    /\ ends stop early (judged req.(ExLanguage) stop req.(ExTestCases) rs).
Proof.
  destruct w as [c w]. intros H HC. apply Execute_inr_inv in H as [(lc & cmd & c1 & w1 & _ & H & _)|(lc & lim & exe & w1 & w2 & H)].
  - by apply compile_result in H.
  - unfold run_all in H. eapply (run_batches_spec _ _ _ _ _ _ _ _ []) in H; [exact H| |done|apply accepted_summarises].
    unfold officialBatchSize, defaultBatchSize. destruct (StopOnFirstFailure req); lia.
Qed.

(** ** Bounds of a request *)

(** The bytes of standard input that travel inside a request. *)
Definition stdin_bytes (cmd : CmdType) : Z :=
  match cmd.(Files) with MemoryFile content :: _ => len content | _ => 0 end.

Lemma choose_stdin_bounds {W} cfg (client : executorRPC W) links dataset memory tc w f b memory' w' :
  0 <= memory <= sandboxGRPCSafeRequestBytes ->
  choose_stdin cfg client links dataset memory tc w = (inr (f, b, memory'), w') ->
  memory' = memory + (match f with MemoryFile content => len content | _ => 0 end)
  /\ memory' <= sandboxGRPCSafeRequestBytes
  /\ match f with
     | MemoryFile content => content = tc.(Stdin)
     | LocalFile path => officialSandboxInputPath links tc = Some path
     | CachedFile fid => exists b0, b = Some b0 /\ fid = b0.(BFileID)
     | PipeCollector _ _ => False
     end.
Proof.
  intros HM. unfold choose_stdin. destruct (officialSandboxInputPath links tc) as [path|] eqn:EP.
  - destruct (_ <? len (Stdin tc)); [intros H; unfold ret in H; simplify_eq; split_and!; try done; lia|].
    intros H. apply bind_inr_inv in H as (o & w1 & _ & H). destruct o as [b0|]; [unfold ret in H; simplify_eq; split_and!; eauto; lia|].
    destruct (Z.ltb_spec sandboxGRPCSafeRequestBytes (memory + len (Stdin tc))); unfold ret in H; simplify_eq; split_and!; done || lia.
  - destruct (_ <? len (Stdin tc)); [discriminate|].
    intros H. apply bind_inr_inv in H as (o & w1 & _ & H). destruct o as [b0|]; [unfold ret in H; simplify_eq; split_and!; eauto; lia|].
    destruct (Z.ltb_spec sandboxGRPCSafeRequestBytes (memory + len (Stdin tc))); [discriminate|].
    unfold ret in H; simplify_eq; split_and!; done || lia.
Qed.

(** The standard inputs of a batch, one per testcase, in order. *)
Definition serves {W} (client : executorRPC W) (links : string -> option string) (tc : ExecutionTestCase) (f : Request_File) : Prop :=
  match f with
  | MemoryFile content => content = tc.(Stdin)
  | LocalFile path => officialSandboxInputPath links tc = Some path
  | CachedFile _ => True
  | PipeCollector _ _ => False
  end.

Lemma batch_commands_bounds {W} cfg (client : executorRPC W) links (command : Request_File -> CmdType) dataset tests :
  (forall f, exists rest, (command f).(Files) = f :: rest) ->
  forall memory cmds bs w cmds' bs' w', memory = sum_by stdin_bytes cmds -> memory <= sandboxGRPCSafeRequestBytes ->
  batch_commands cfg client links command dataset tests memory cmds bs w = (inr (cmds', bs'), w') ->
  sum_by stdin_bytes cmds' <= sandboxGRPCSafeRequestBytes
  /\ exists fs, cmds' = cmds ++ map command fs /\ Forall2 (serves client links) tests fs.
Proof.
  intros HC. induction tests as [|tc tests IH]; intros memory cmds bs w cmds' bs' w' -> HM H.
  - injection H as <- <- _. split; [done|]. exists []. by rewrite app_nil_r.
  - cbn [batch_commands] in H. apply bind_inr_inv in H as (o & w1 & E & H).
    destruct o as [e|[[f b] memory']]; [run_inv H; discriminate|].
    unfold try in E. destruct (choose_stdin _ _ _ _ _ _ _) as [x w2] eqn:EC. injection E as -> ->.
    assert (0 <= sum_by stdin_bytes cmds) as HN.
    { apply sum_by_nonneg, Forall_forall. intros c _. unfold stdin_bytes. repeat case_match; unfold len; lia. }
    apply choose_stdin_bounds in EC as (E1 & E2 & E3); [|lia].
    assert (memory' = sum_by stdin_bytes (cmds ++ [command f])) as E4.
    { rewrite sum_by_app, sum_by_cons. change (sum_by stdin_bytes []) with 0. unfold stdin_bytes at 2.
      destruct (HC f) as [rest ->]. rewrite E1. destruct f; lia. }
    destruct (IH _ _ _ _ _ _ _ E4 E2 H) as (H1 & fs & H2 & H3).
    split; [done|]. exists (f :: fs). rewrite H2, <- app_assoc. split; [done|]. constructor; [|done].
    unfold serves. by destruct f.
Qed.

Lemma newRunBatchRequest_bounds {W} cfg (client : executorRPC W) links language src langCfg limits exe dataset tests w req bs w' :
  newRunBatchRequest cfg client links language src langCfg limits exe dataset tests w = (inr (req, bs), w') ->
  sum_by stdin_bytes req <= sandboxGRPCSafeRequestBytes
  /\ exists fs, req = map (run_command language src langCfg limits exe) fs /\ Forall2 (serves client links) tests fs.
Proof.
  intros H. apply batch_commands_bounds in H; [exact H|intros f; eexists; done|done|done].
Qed.

(** A file served from the disk of the sandbox lies below the testcase root,
    also after its links were followed. *)
Lemma officialSandboxInputPath_contained links tc path : officialSandboxInputPath links tc = Some path ->
  isContainedPath (chars officialTestcaseRoot) (chars path) = true
  /\ exists root' path', links officialTestcaseRoot = Some root' /\ links path = Some path'
     /\ isContainedPath (chars root') (chars path') = true.
Proof.
  unfold officialSandboxInputPath. destruct (_ || _); [done|]. unfold containedLocalFilePath.
  assert (str (Clean (chars officialTestcaseRoot)) = officialTestcaseRoot) as -> by (vm_compute; reflexivity).
  destruct (negb _) eqn:E1; [done|]. destruct (links officialTestcaseRoot) as [root'|] eqn:E2; [|done].
  destruct (links (str (Clean _))) as [path'|] eqn:E3; [|done].
  destruct (negb (isContainedPath (chars root') _)) eqn:E4; [done|].
  intros [= <-]. apply negb_false_iff in E1, E4. eauto 10.
Qed.

(** ** Pins *)

Lemma getOrAdd_disabled {W} cfg (client : sandboxFileRPC W) ctxErr identity tc w b w' : cfg.(Enabled) = false ->
  getOrAdd cfg client ctxErr identity tc w = (inr b, w') -> b = None.
Proof.
  intros HE. unfold getOrAdd. rewrite HE. destruct (newTestcaseCacheKey _ _); by intros [= <- _].
Qed.

Lemma choose_stdin_disabled {W} cfg (client : executorRPC W) links dataset memory tc w f b m w' : cfg.(Enabled) = false ->
  choose_stdin cfg client links dataset memory tc w = (inr (f, b, m), w') -> b = None.
Proof.
  intros HE. unfold choose_stdin. destruct (officialSandboxInputPath links tc); destruct (_ <? len _); try discriminate;
    try (by intros [= <- <- <- <-]);
    intros H; apply bind_inr_inv in H as (o & w1 & E & H); apply getOrAdd_disabled in E as ->; try done;
    destruct (_ <? _); try discriminate; unfold ret in H; by simplify_eq.
Qed.

Section Pins.
Context {W : Type} (cfg : TestcaseCacheConfig) (client : executorRPC W) (links : string -> option string).
Context (issued : W -> gset string) {L : SandboxLaws client.(file_rpc) issued}.
Context (exec_issued : forall req w r w', client.(Exec) req w = (r, w') -> issued w ⊆ issued w').
Context (d : list testcaseCacheBinding) (q : option (list (string * string))).

Local Abbreviation conducts := (conducts cfg issued d q).

Lemma conducts_exec operation req l : conducts (exec client operation req) l (fun _ => l).
Proof using exec_issued.
  apply conducts_quiet. intros c w r c' w' HR. unfold exec. destruct (Exec client req w) as [x w1] eqn:E. intros [= <- <- <-].
  split; [apply rtc_refl|]. eapply ready_later; [exact HR|by eapply exec_issued].
Qed.

Definition held_after (l : list testcaseCacheBinding) (ins : testcaseCacheBinding -> list testcaseCacheBinding)
    (b : option testcaseCacheBinding) : list testcaseCacheBinding := match b with Some b => ins b | None => l end.

Lemma conducts_choose dataset memory tc l ins : (forall b, ins b ≡ₚ b :: l) ->
  conducts (choose_stdin cfg client links dataset memory tc) l
    (fun r => match r with inl _ => l | inr (_, b, _) => held_after l ins b end).
Proof using L.
  intros HI. unfold choose_stdin.
  assert (forall f m k, conducts (k : M (cache * W) (Request_File * option testcaseCacheBinding * Z)) l
      (fun r => match r with inl _ => l | inr (_, b, _) => held_after l ins b end) ->
    conducts (bind (getOrAdd cfg client.(file_rpc) client.(loadCtxErr) dataset tc)
      (fun b => match b with Some b => ret (f b, Some b, m) | None => k end)) l
      (fun r => match r with inl _ => l | inr (_, b, _) => held_after l ins b end)) as G.
  { intros f m k Hk. eapply (conducts_bind _ _ _ _ _ _ _ (fun r => match r with inl _ => l | inr b => held_after l ins b end)).
    - by apply conducts_getOrAdd.
    - done.
    - intros [b|]; [by apply conducts_ret|exact Hk]. }
  destruct (officialSandboxInputPath links tc); destruct (_ <? len _);
    try (by apply conducts_ret); try (by apply conducts_fail); apply (G (fun b => CachedFile (BFileID b)));
    destruct (_ <? _); by (apply conducts_ret || apply conducts_fail).
Qed.

Lemma conducts_batch command dataset tests l : forall memory cmds bs, cfg.(Enabled) = true \/ bs = [] ->
  conducts (batch_commands cfg client links command dataset tests memory cmds bs) (bs ++ l)
    (fun r => match r with inl _ => l | inr (_, bs') => bs' ++ l end).
Proof using L.
  induction tests as [|tc tests IH]; intros memory cmds bs HE; [by apply conducts_ret|].
  cbn [batch_commands]. eapply (conducts_bind_run _ _ _ _ _ _ _
    (fun r => match r with inl _ => l | inr (inr (_, b, _)) => held_after (bs ++ l) (fun b => (bs ++ [b]) ++ l) b
                    | inr (inl _) => bs ++ l end)).
  - eapply conducts_try; [apply (conducts_choose dataset memory tc (bs ++ l) (fun b => (bs ++ [b]) ++ l))|].
    + intros b. rewrite <- app_assoc. cbn. symmetry. apply Permutation_middle.
    + by intros [e|[[f [b|]] m]].
  - done.
  - intros [e|[[f b] m]] s s' Hrun.
    + eapply (conducts_bind _ _ _ _ _ _ _ (fun _ => l)); [by apply conducts_release|done|]. intros _. by apply conducts_fail.
    + destruct b as [b|]; [|by apply IH]. apply IH. destruct HE as [HE|HE]; [by left|]. left.
      destruct (Enabled cfg) eqn:E; [done|]. exfalso. unfold try in Hrun.
      destruct (choose_stdin _ _ _ _ _ _ _) as [x s1] eqn:EC. injection Hrun as -> _.
      by apply choose_stdin_disabled in EC.
Qed.

Lemma batch_enabled command dataset tests memory cmds bs w x bs' w' :
  cfg.(Enabled) = true \/ bs = [] ->
  batch_commands cfg client links command dataset tests memory cmds bs w = (inr (x, bs'), w') -> cfg.(Enabled) = true \/ bs' = [].
Proof.
  destruct (Enabled cfg) eqn:E; [by left|]. intros [|HE]; [done|]. revert memory cmds bs w HE.
  induction tests as [|tc tests IH]; intros memory cmds bs w HE; [intros [= <- <- _]; by right|].
  cbn [batch_commands]. intros H. apply bind_inr_inv in H as (o & w1 & E1 & H).
  destruct o as [e|[[f b] m]]; [run_inv H; discriminate|]. unfold try in E1.
  destruct (choose_stdin _ _ _ _ _ _ _) as [y w2] eqn:EC. injection E1 as -> ->.
  apply choose_stdin_disabled in EC as ->; [|done]. by eapply IH.
Qed.

Lemma conducts_newRunBatchRequest language src langCfg limits exe dataset tests l :
  conducts (newRunBatchRequest cfg client links language src langCfg limits exe dataset tests) l
    (fun r => match r with inl _ => l | inr (_, bs) => bs ++ l end).
Proof using L. apply (conducts_batch _ _ _ l 0 [] []). by right. Qed.

(** One attempt: build the request, run it, give the pins back. *)
Lemma conducts_attempt {B} language src langCfg limits exe dataset tests l post
    (k : Request * list testcaseCacheBinding -> error + Response -> M (cache * W) B) :
  (forall e, post (inl e) = l) -> (forall rb r, conducts (k rb r) l post) ->
  conducts (let* rb := newRunBatchRequest cfg client links language src langCfg limits exe dataset tests in
            let* r := try (exec client "run_batch" rb.1) in
            let* _ := do_release cfg client.(file_rpc) rb.2 in k rb r) l post.
Proof using L exec_issued.
  intros P1 P2. eapply conducts_bind_run; [apply conducts_newRunBatchRequest|intros e; by rewrite P1|]. intros [req bs] s s' Hrun. cbn.
  eapply (conducts_bind _ _ _ _ _ _ _ (fun r => match r with inl _ => l | inr _ => bs ++ l end)).
  - eapply conducts_try; [apply conducts_exec|done].
  - intros e. by rewrite P1.
  - intros r. eapply (conducts_bind _ _ _ _ _ _ _ (fun _ => l)); [|intros e; by rewrite P1|intros _; apply P2].
    apply (conducts_release _ _ _ _ _ bs l). eapply batch_enabled; [|exact Hrun]. by right.
Qed.

Lemma conducts_runBatch language src langCfg limits exe dataset tests l :
  conducts (runBatch cfg client links language src langCfg limits exe dataset tests) l (fun _ => l).
Proof using L exec_issued.
  apply conducts_attempt; [done|]. intros rb [e|resp]; [by apply conducts_fail|].
  eapply (conducts_bind _ _ _ _ _ _ _ (fun _ => l)); [|done|].
  - destruct (hasFileErrors resp); [apply (conducts_invalidateMissing _ _ _ _ _ _ l)|by apply conducts_ret].
  - intros [|]; [|by apply conducts_ret]. apply conducts_attempt; [done|].
    intros rb' [e|resp']; [by apply conducts_fail|by apply conducts_ret].
Qed.

Lemma conducts_run_batches n batchSize language stop run tests res l : (forall b, conducts (run b) l (fun _ => l)) ->
  conducts (run_batches n batchSize language stop run tests res) l (fun _ => l).
Proof.
  intros HR. revert tests res. induction n as [|n IH]; intros [|t tests] res; try by apply conducts_ret.
  cbn [run_batches]. eapply (conducts_bind _ _ _ _ _ _ _ (fun _ => l)); [apply HR|done|]. intros raws.
  destruct (negb _); [by apply conducts_fail|]. destruct (collect _ _ _ _ _) as [e|[[] r]]; [by apply conducts_fail|by apply conducts_ret|apply IH].
Qed.

(** An execution takes and gives back pins in locked steps only, and holds
    none when it is over, whatever the sandbox answers. *)
Lemma conducts_Execute req l : conducts (Execute cfg client links req) l (fun _ => l).
Proof using L exec_issued.
  unfold Execute. destruct (blank _); [by apply conducts_fail|]. do 2 (destruct (bool_decide _); [by apply conducts_fail|]).
  destruct (GetLanguageConfig _ _ _) as [langCfg|]; [|by apply conducts_fail].
  assert (forall limits exe, conducts (run_all cfg client links req langCfg limits exe) l (fun _ => l)) as K.
  { intros limits exe. apply conducts_run_batches. intros b. apply conducts_runBatch. }
  destruct (Compile langCfg) as [cmd|]; [|apply K].
  eapply (conducts_bind _ _ _ _ _ _ _ (fun _ => l)); [|done|].
  - eapply (conducts_bind _ _ _ _ _ _ _ (fun _ => l)); [apply conducts_exec|done|]. intros resp.
    destruct (PResults resp) as [|[r|] rs]; try by apply conducts_fail. destruct (negb _); [by apply conducts_ret|].
    cbv zeta. case_bool_decide; [by apply conducts_fail|by apply conducts_ret].
  - intros [r|fid]; [by apply conducts_ret|]. eapply (conducts_bind _ _ _ _ _ _ _ (fun _ => l)); [|done|].
    + eapply conducts_try; [apply K|done].
    + intros r. eapply (conducts_bind _ _ _ _ _ _ _ (fun _ => l)); [|done|intros _; destruct r; [by apply conducts_fail|by apply conducts_ret]].
      unfold cleanupExecutableFile. case_bool_decide; [by apply conducts_ret|].
      eapply (conducts_bind _ _ _ _ _ _ _ (fun _ => l)); [|done|intros _; by apply conducts_ret].
      eapply conducts_try; [|done]. apply conducts_rpc. intros u x u'. by apply sb_delete.
Qed.
End Pins.

(** ** What an execution leaves alone *)

Section Quiet.
Context {W X : Type} (cfg : TestcaseCacheConfig) (client : executorRPC W) (links : string -> option string) (view : W -> X).
Context (q_exec : forall req, keeps view (client.(Exec) req)).
Context (q_add : forall n c, keeps view (client.(file_rpc).(FileAdd) n c)) (q_list : keeps view client.(file_rpc).(FileList))
  (q_delete : forall f, keeps view (client.(file_rpc).(FileDelete) f))
  (q_clock : forall w t w', client.(file_rpc).(clock) w = (t, w') -> view w' = view w).

Definition outside (s : cache * W) : X := view s.2.

Lemma quiet_rpc {A} (m : M W A) : keeps view m -> keeps outside (rpc m).
Proof. intros H [c w] r [c' w'] [-> E]%rpc_inv. unfold outside. cbn. eauto. Qed.
Lemma quiet_locked {A} (f : cache -> A * cache) : keeps outside (locked f).
Proof. intros [c w] r [c' w'] (a & _ & _ & ->)%locked_inv. done. Qed.
Lemma quiet_time : keeps outside (time_now client.(file_rpc)).
Proof using q_clock.
  intros [c w] r [c' w']. unfold time_now. destruct (clock _ w) eqn:E. intros [= _ _ <-]. unfold outside. cbn. eauto.
Qed.

Lemma quiet_store key f n known : keeps outside (do_store client.(file_rpc) key f n known).
Proof using q_clock. apply keeps_bind; [apply quiet_time|]. intros now. apply quiet_locked. Qed.
Lemma quiet_pin key n : keeps outside (do_pin client.(file_rpc) key n).
Proof using q_clock. apply keeps_bind; [apply quiet_time|]. intros now. apply quiet_locked. Qed.
Lemma quiet_release bs : keeps outside (do_release cfg client.(file_rpc) bs).
Proof using q_clock.
  unfold do_release. destruct (_ || _); [apply keeps_ret|]. apply keeps_bind; [apply quiet_time|]. intros now.
  apply keeps_bind; [apply quiet_locked|]. intros _. apply quiet_locked.
Qed.

Lemma quiet_import files : keeps outside (import client.(file_rpc) files).
Proof using q_clock.
  induction files as [|[f n] rest IH]; [apply keeps_ret|]. cbn.
  destruct (parseTestcaseCacheName n) as [[[key size] known]|]; [|done]. case_bool_decide; [done|].
  apply keeps_bind; [apply quiet_store|done].
Qed.

Lemma quiet_reconcile : keeps outside (reconcile cfg client.(file_rpc)).
Proof using q_clock q_list.
  unfold reconcile. destruct (negb _); [apply keeps_ret|]. apply keeps_bind; [apply quiet_locked|]. intros first.
  destruct (negb first); [apply keeps_ret|]. apply keeps_bind; [by apply quiet_rpc|]. intros [files|]; [|apply keeps_fail].
  apply keeps_bind; [apply quiet_import|]. intros _. apply quiet_locked.
Qed.

Lemma quiet_load key stdin : keeps outside (load cfg client.(file_rpc) key stdin).
Proof using q_clock q_add.
  apply keeps_bind; [apply quiet_pin|]. intros [b|].
  - apply keeps_bind; [apply quiet_release|]. intros _. apply keeps_ret.
  - apply keeps_bind; [apply quiet_locked|]. intros ok. destruct (negb ok); [apply keeps_fail|]. apply keeps_bind.
    + apply keeps_try, keeps_bind; [by apply quiet_rpc|]. intros [f|]; [|apply keeps_fail].
      case_bool_decide; [apply keeps_fail|]. apply keeps_bind; [apply quiet_store|]. intros _. apply keeps_ret.
    + intros r. apply keeps_bind; [apply quiet_locked|]. intros _. destruct r; [apply keeps_fail|apply keeps_ret].
Qed.

Lemma quiet_getOrAdd e i tc : keeps outside (getOrAdd cfg client.(file_rpc) e i tc).
Proof using q_clock q_add q_list.
  unfold getOrAdd. destruct (newTestcaseCacheKey i tc); [|apply keeps_ret]. destruct (negb _); [apply keeps_ret|].
  apply keeps_bind; [apply keeps_try, quiet_reconcile|]. intros _. apply keeps_bind; [apply quiet_pin|].
  intros [b|]; [apply keeps_ret|]. apply keeps_bind; [apply keeps_try, quiet_load|]. intros r.
  destruct e; [apply keeps_fail|]. destruct r; [apply keeps_ret|apply quiet_pin].
Qed.

Lemma quiet_batch command dataset tests memory cmds bs :
  keeps outside (batch_commands cfg client links command dataset tests memory cmds bs).
Proof using q_clock q_add q_list.
  revert memory cmds bs. induction tests as [|tc tests IH]; intros memory cmds bs; [apply keeps_ret|].
  cbn [batch_commands]. apply keeps_bind.
  - apply keeps_try. unfold choose_stdin.
    destruct (officialSandboxInputPath links tc); (destruct (_ <? len _); [apply keeps_ret || apply keeps_fail|]);
      (apply keeps_bind; [apply quiet_getOrAdd|]); intros [b|]; try apply keeps_ret;
      destruct (_ <? _); apply keeps_ret || apply keeps_fail.
  - intros [e|[[f b] m]]; [|apply IH]. apply keeps_bind; [apply quiet_release|]. intros _. apply keeps_fail.
Qed.

Lemma quiet_exec operation req : keeps outside (exec client operation req).
Proof using q_exec.
  intros [c w] r [c' w']. unfold exec. destruct (Exec client req w) as [x w1] eqn:E. intros [= _ _ <-].
  unfold outside. cbn. by eapply q_exec.
Qed.

Lemma quiet_drop active bs : keeps outside (drop_missing (W := W) active bs).
Proof.
  induction bs as [|b bs IH]; [apply keeps_ret|]. cbn. case_bool_decide; [done|].
  apply keeps_bind; [apply quiet_locked|]. intros gone. apply keeps_bind; [done|]. intros more. apply keeps_ret.
Qed.

Lemma quiet_runBatch language src langCfg limits exe dataset tests :
  keeps outside (runBatch cfg client links language src langCfg limits exe dataset tests).
Proof using q_exec q_clock q_add q_list.
  assert (forall B (k : Request * list testcaseCacheBinding -> error + Response -> M (cache * W) B),
    (forall rb r, keeps outside (k rb r)) ->
    keeps outside (let* rb := newRunBatchRequest cfg client links language src langCfg limits exe dataset tests in
                   let* r := try (exec client "run_batch" rb.1) in
                   let* _ := do_release cfg client.(file_rpc) rb.2 in k rb r)) as Attempt.
  { intros B k Hk. apply keeps_bind; [apply quiet_batch|]. intros rb. apply keeps_bind; [apply keeps_try, quiet_exec|].
    intros r. apply keeps_bind; [apply quiet_release|]. intros _. apply Hk. }
  apply Attempt. intros rb [e|resp]; [apply keeps_fail|]. apply keeps_bind.
  - destruct (hasFileErrors resp); [|apply keeps_ret]. unfold invalidateMissing. destruct (_ || _); [apply keeps_ret|].
    apply keeps_bind; [by apply keeps_try, quiet_rpc|]. intros [e|[files|]]; [apply keeps_ret|apply quiet_drop|apply keeps_ret].
  - intros [|]; [|apply keeps_ret]. apply Attempt. intros rb' [e|resp']; [apply keeps_fail|apply keeps_ret].
Qed.

Lemma quiet_run_batches n size language stop run tests res : (forall b, keeps outside (run b)) ->
  keeps outside (run_batches (W := W) n size language stop run tests res).
Proof.
  intros HR. revert tests res. induction n as [|n IH]; intros [|t tests] res; try apply keeps_ret.
  cbn [run_batches]. apply keeps_bind; [apply HR|]. intros raws. destruct (negb _); [apply keeps_fail|].
  destruct (collect _ _ _ _ _) as [e|[[] r]]; [apply keeps_fail|apply keeps_ret|apply IH].
Qed.

(** An execution talks to the sandbox and the cache only. *)
Lemma Execute_quiet req : keeps outside (Execute cfg client links req).
Proof using q_exec q_clock q_add q_list q_delete.
  unfold Execute. destruct (blank _); [apply keeps_fail|]. do 2 (destruct (bool_decide _); [apply keeps_fail|]).
  destruct (GetLanguageConfig _ _ _) as [langCfg|]; [|apply keeps_fail].
  assert (forall limits exe, keeps outside (run_all cfg client links req langCfg limits exe)) as K.
  { intros limits exe. apply quiet_run_batches. intros b. apply quiet_runBatch. }
  destruct (Compile langCfg) as [cmd|]; [|apply K]. apply keeps_bind.
  - apply keeps_bind; [apply quiet_exec|]. intros resp.
    destruct (PResults resp) as [|[r|] rs]; try apply keeps_fail. destruct (negb _); [apply keeps_ret|].
    cbv zeta. case_bool_decide; [apply keeps_fail|apply keeps_ret].
  - intros [r|f]; [apply keeps_ret|]. apply keeps_bind; [apply keeps_try, K|]. intros r. apply keeps_bind.
    + unfold cleanupExecutableFile. case_bool_decide; [apply keeps_ret|]. apply keeps_bind; [by apply keeps_try, quiet_rpc|].
      intros _. apply keeps_ret.
    + intros _. destruct r; [apply keeps_fail|apply keeps_ret].
Qed.
End Quiet.

(** ** What is sent to the sandbox *)

(** The limits a run request carries: those of the execution for every command,
    and the standard inputs inline only up to the safe size. *)
Definition run_within (limits : ExecutionLimits) (req : Request) : Prop :=
  sum_by stdin_bytes req <= sandboxGRPCSafeRequestBytes
  /\ Forall (fun c => c.(CpuTimeLimit) = uint64 (wrap64 (limits.(TimeLimitMS) * millisecond))
                /\ c.(ClockTimeLimit) = uint64 (wrap64 (wrap64 (limits.(TimeLimitMS) * millisecond) * 2))
                /\ c.(MemoryLimit) = uint64 (wrap64 (limits.(MemoryLimitKB) * 1024))) req.

Section Requests.
Context {W : Type} (cfg : TestcaseCacheConfig) (client : executorRPC W) (links : string -> option string).

(** [ran] is what the sandbox was asked to run: [Exec] adds its request, and
    nothing else does. *)
Context (ran : W -> list Request).

Class ExecLog := {
  el_exec : forall req w r w', client.(Exec) req w = (r, w') -> ran w' = ran w ++ [req];
  el_add : forall n content, keeps ran (client.(file_rpc).(FileAdd) n content);
  el_list : keeps ran client.(file_rpc).(FileList);
  el_delete : forall fid, keeps ran (client.(file_rpc).(FileDelete) fid);
  el_clock : forall w t w', client.(file_rpc).(clock) w = (t, w') -> ran w' = ran w;
}.
Context {EL : ExecLog}.

(** A computation that sends requests with the property [P] only. *)
Definition sends (P : Request -> Prop) {A} (m : M (cache * W) A) : Prop :=
  forall s r s', m s = (r, s') -> exists reqs, ran s'.2 = ran s.2 ++ reqs /\ Forall P reqs.

Lemma sends_none P {A} (m : M (cache * W) A) : keeps (outside ran) m -> sends P m.
Proof using. intros K s r s' H. exists []. rewrite app_nil_r. split; [exact (K _ _ _ H)|constructor]. Qed.

Lemma sends_bind_run P {A B} (m : M (cache * W) A) (f : A -> M (cache * W) B) :
  sends P m -> (forall a s s', m s = (inr a, s') -> sends P (f a)) -> sends P (bind m f).
Proof using.
  intros Hm Hf s r s'. unfold bind. destruct (m s) as [[e|a] s1] eqn:E; pose proof E as E0; apply Hm in E as (l1 & R1 & F1).
  - intros [= <- <-]. by exists l1.
  - intros (l2 & R2 & F2)%(Hf _ _ _ E0). exists (l1 ++ l2). rewrite R2, R1, (assoc_L app). split; [done|by apply Forall_app].
Qed.
Lemma sends_bind P {A B} (m : M (cache * W) A) (f : A -> M (cache * W) B) :
  sends P m -> (forall a, sends P (f a)) -> sends P (bind m f).
Proof using. intros Hm Hf. apply sends_bind_run; [done|]. intros a s s' _. apply Hf. Qed.
Lemma sends_try P {A} (m : M (cache * W) A) : sends P m -> sends P (try m).
Proof using. intros Hm s r s'. unfold try. destruct (m s) as [x s1] eqn:E. intros [= _ <-]. by apply Hm in E. Qed.

Lemma exec_sends operation req s r s' : exec client operation req s = (r, s') -> ran s'.2 = ran s.2 ++ [req].
Proof using EL.
  destruct s as [c w]. unfold exec. destruct (Exec client req w) as [x w1] eqn:E. intros [= _ <-]. cbn. by eapply el_exec.
Qed.

Lemma sends_exec (P : Request -> Prop) operation req : P req -> sends P (exec client operation req).
Proof using EL. intros HP s r s' H. exists [req]. split; [by eapply exec_sends|by constructor]. Qed.

Lemma batch_within language src langCfg limits exe dataset tests w req bs w' :
  newRunBatchRequest cfg client links language src langCfg limits exe dataset tests w = (inr (req, bs), w') -> run_within limits req.
Proof using.
  intros (HB & fs & -> & _)%newRunBatchRequest_bounds. split; [done|]. apply Forall_forall.
  by intros c (f & -> & _)%list_elem_of_fmap.
Qed.

Lemma sends_attempt language src langCfg limits exe dataset tests {B} (k : Request * list testcaseCacheBinding -> error + Response -> M (cache * W) B) :
  (forall rb r, sends (run_within limits) (k rb r)) ->
  sends (run_within limits) (let* rb := newRunBatchRequest cfg client links language src langCfg limits exe dataset tests in
                             let* r := try (exec client "run_batch" rb.1) in
                             let* _ := do_release cfg client.(file_rpc) rb.2 in k rb r).
Proof using EL.
  intros Hk. apply sends_bind_run.
  - apply sends_none. apply quiet_batch; [exact el_add|exact el_list|exact el_clock].
  - intros [req bs] s s' E. apply batch_within in E. apply sends_bind; [by apply sends_try, sends_exec|]. intros r.
    apply sends_bind; [apply sends_none, quiet_release; exact el_clock|]. intros _. apply Hk.
Qed.

Lemma sends_runBatch language src langCfg limits exe dataset tests :
  sends (run_within limits) (runBatch cfg client links language src langCfg limits exe dataset tests).
Proof using EL.
  apply sends_attempt. intros rb [e|resp]; [apply sends_none, keeps_fail|]. apply sends_bind.
  - apply sends_none. destruct (hasFileErrors resp); [|apply keeps_ret]. unfold invalidateMissing.
    destruct (_ || _); [apply keeps_ret|].
    apply keeps_bind; [by apply keeps_try, quiet_rpc, el_list|]. intros [e|[files|]]; [apply keeps_ret|apply quiet_drop|apply keeps_ret].
  - intros [|]; [|apply sends_none, keeps_ret]. apply sends_attempt.
    intros rb' [e|resp']; apply sends_none; [apply keeps_fail|apply keeps_ret].
Qed.

Lemma sends_run_batches P n size language stop run tests res : (forall b, sends P (run b)) ->
  sends P (run_batches (W := W) n size language stop run tests res).
Proof using.
  intros HR. revert tests res. induction n as [|n IH]; intros [|t tests] res; try apply sends_none, keeps_ret.
  cbn [run_batches]. apply sends_bind; [apply HR|]. intros raws. destruct (negb _); [apply sends_none, keeps_fail|].
  destruct (collect _ _ _ _ _) as [e|[[] r]]; [apply sends_none, keeps_fail|apply sends_none, keeps_ret|apply IH].
Qed.

(** An execution sends at most one request to compile, before all others, and
    every other one carries the limits of the request with the defaults filled
    in. *)
Lemma Execute_sends req s r s' : Execute cfg client links req s = (r, s') ->
  let limits := ensureOutputLimitForExpected (normalizeLimits req.(ExLimits)) req.(ExTestCases) in
  exists pre runs, ran s'.2 = ran s.2 ++ pre ++ runs
    /\ (pre = [] \/ exists cmd, pre = [compile_request req.(ExLanguage) req.(ExSourceCode) cmd limits])
    /\ Forall (run_within limits) runs.
Proof using EL.
  intros H limits.
  assert (N : forall s1 : cache * W, ran s1.2 = ran s.2 -> exists pre runs, ran s1.2 = ran s.2 ++ pre ++ runs
    /\ (pre = [] \/ exists cmd, pre = [compile_request req.(ExLanguage) req.(ExSourceCode) cmd limits]) /\ Forall (run_within limits) runs).
  { intros s1 E. exists [], []. rewrite E, app_nil_r. split_and!; [done|by left|constructor]. }
  unfold Execute in H. destruct (blank _); [injection H as _ <-; by apply N|].
  do 2 (destruct (bool_decide _); [injection H as _ <-; by apply N|]).
  destruct (GetLanguageConfig _ _ _) as [langCfg|]; [|injection H as _ <-; by apply N]. fold limits in H.
  assert (K : forall exe, sends (run_within limits) (run_all cfg client links req langCfg limits exe)).
  { intros exe. apply sends_run_batches. intros b. apply sends_runBatch. }
  destruct (Compile langCfg) as [cmd|].
  - unfold bind at 1 in H. destruct (compile _ _ _ _ _ s) as [x s1] eqn:EC.
    assert (C : ran s1.2 = ran s.2 ++ [compile_request req.(ExLanguage) req.(ExSourceCode) cmd limits]).
    { unfold compile, bind in EC. destruct (exec _ _ _ s) as [y s2] eqn:EX. apply exec_sends in EX.
      destruct y as [e|resp]; [injection EC as _ <-; done|].
      destruct (PResults resp) as [|[r0|] rs]; try (injection EC as _ <-; done).
      destruct (negb _); [injection EC as _ <-; done|]. cbv zeta in EC. destruct (bool_decide _); injection EC as _ <-; done. }
    destruct x as [e|[res|exe]].
    1,2: injection H as _ <-; exists [compile_request req.(ExLanguage) req.(ExSourceCode) cmd limits], [];
      rewrite C, app_nil_r; split_and!; [done|right; by exists cmd|constructor].
    assert (S : sends (run_within limits) (let* r := try (run_all cfg client links req langCfg limits (Some exe)) in
      cleanupExecutableFile client exe ;; match r with inl err => fail err | inr result => ret result end)).
    { apply sends_bind; [apply sends_try, K|]. intros x. apply sends_bind; [|intros _]; apply sends_none.
      - unfold cleanupExecutableFile. case_bool_decide; [apply keeps_ret|]. apply keeps_bind; [by apply keeps_try, quiet_rpc, el_delete|].
        intros _. apply keeps_ret.
      - destruct x; [apply keeps_fail|apply keeps_ret]. }
    apply S in H as (runs & R & F). exists [compile_request req.(ExLanguage) req.(ExSourceCode) cmd limits], runs.
    rewrite R, C, <- (assoc_L app). split_and!; [done|right; by exists cmd|done].
  - apply K in H as (runs & R & F). exists [], runs. split_and!; [done|by left|done].
Qed.
End Requests.
