(* ===== verification/JudgeWorker.v ===== *)
(** The use cases of the judge worker and the adapters around them:
    workers/judge/internal/application/usecase/judge (process_judge_job.go,
    run_code.go), adapter/outbound/judge/kafka_result_publisher.go,
    adapter/outbound/problem/grpc_metadata_reader.go and
    adapter/inbound/grpc/handler/run_code.go. *)

From S2P Require Import Prelude GoString GoError GoMonad GoTime SubmissionDomain WorkerDomain SubmissionPorts ApplyResult.

(** ** Metadata of the official testcases *)

(** [GetTestCaseResponse]: the fields the reader uses. *)
Record GetTestCaseResponse := mkGetTC { RespZipDownloadUrl : string; RespTestCount : Z; RespVersion : Z }.

Definition isNonRetryableGRPCError (err : error) : bool :=
  bool_decide (status_Code err ∈ [code_InvalidArgument; code_NotFound; code_FailedPrecondition; code_PermissionDenied]).

Definition GetTestCaseMetadata {W} (GetTestCase : Z -> M W (option GetTestCaseResponse)) (problemID : Z)
  : M W WorkerDomain.ProblemTestCaseMetadata :=
  if problemID <=? 0 then fail (MarkNonRetryable (EText "problem_id must be greater than zero"))
  else
    let* resp := try (GetTestCase problemID) in
    match resp with
    | inl err =>
        let e := EWrap "get testcase metadata from problem-service" err in
        fail (if isNonRetryableGRPCError err then MarkNonRetryable e else e)
    | inr None => fail (EText "problem-service returned nil testcase metadata")
    | inr (Some resp) =>
        let metadata := WorkerDomain.mkMetadata problemID (TrimSpace resp.(RespZipDownloadUrl)) resp.(RespTestCount)
                          resp.(RespVersion) in
        if bool_decide (metadata.(ZipDownloadURL) = ""%string)
        then fail (MarkNonRetryable (EText ("problem-service returned empty zip_download_url for problem_id=" +:+ Itoa problemID)))
        else if metadata.(MdTestCount) <=? 0
        then fail (MarkNonRetryable (EText ("problem-service returned invalid test_count=" +:+ Itoa metadata.(MdTestCount)
                                             +:+ " for problem_id=" +:+ Itoa problemID)))
        else if metadata.(MdVersion) <=? 0
        then fail (MarkNonRetryable (EText ("problem-service returned invalid version=" +:+ Itoa metadata.(MdVersion)
                                             +:+ " for problem_id=" +:+ Itoa problemID)))
        else ret metadata
    end.

(** ** Publishing a result *)

(** [intPtr] of the publisher: zero is left out. *)
Definition nonzero (v : Z) : option Z := if v =? 0 then None else Some v.

Definition result_item (tc : TestCaseResult) : TestCaseResultItem :=
  mkItem tc.(RsIndex) tc.(RsStatus) None None None (nonzero tc.(RsExecutionTime)) (nonzero tc.(RsMemoryUsed)).

Definition result_message (submissionID : Z) (attemptID : string) (result : ExecutionResult) : ResultMessage :=
  mkResultMessage submissionID attemptID result.(EStatus) result.(ECompileOutput) result.(EErrorMessage)
    (nonzero result.(EExecutionTime)) (nonzero result.(EMemoryUsed)) result.(EError) result.(ETestcaseVersion)
    result.(ETestCount) result.(EDatasetChecksum) (map result_item result.(ETestCases)).

Definition marshal_item (i : TestCaseResultItem) : bytes :=
  json_object
    [("index", Some (json_int i.(ItemIndex))); ("status", Some (json_string i.(ItemStatus)));
     ("actual_output", json_string <$> i.(ItemActualOutput)); ("input", json_string <$> i.(ItemInput));
     ("expected_output", json_string <$> i.(ItemExpectedOutput));
     ("execution_time", json_int <$> i.(ItemExecutionTime)); ("memory_used", json_int <$> i.(ItemMemoryUsed))]%string.

(** [json.Marshal] of a [ResultMessage], which cannot fail. *)
Definition marshal_result (m : ResultMessage) : string :=
  str (json_object
    [("submission_id", Some (json_int m.(MsgSubmissionID))); ("attempt_id", Some (json_string m.(MsgAttemptID)));
     ("status", Some (json_string m.(MsgStatus))); ("compile_output", json_string <$> m.(MsgCompileOutput));
     ("error_message", json_string <$> m.(MsgErrorMessage)); ("execution_time", json_int <$> m.(MsgExecutionTime));
     ("memory_used", json_int <$> m.(MsgMemoryUsed)); ("error", json_string <$> m.(MsgError));
     ("testcase_version", json_int <$> m.(MsgTestcaseVersion)); ("test_count", json_int <$> m.(MsgTestCount));
     ("dataset_checksum", json_string <$> m.(MsgDatasetChecksum));
     ("test_cases", Some (json_array (map marshal_item m.(MsgTestCases))))]%string).

(** [NewKafkaResultPublisher]: the topic. *)
Definition result_topic (configured : string) : string :=
  if blank configured then "judge.submission.results" else TrimSpace configured.

Definition PublishResult {W} (SendMessage : ProducerMessage -> M W (Z * Z)) (topic : string) (submissionID : Z)
    (attemptID : string) (result : ExecutionResult) : M W unit :=
  let payload := result_message submissionID attemptID result in
  on_error (EWrap "publish judge result message")
    (let* _ := SendMessage (mkProducer topic (Itoa submissionID) (marshal_result payload)) in ret tt).

(** ** Processing a judge job *)

Definition nonEmptyStringPtr (value : string) : option string :=
  if bool_decide (value = ""%string) then None else Some value.

Definition sanitizeOfficialResult (result : ExecutionResult) : ExecutionResult :=
  mkExecResult result.(EStatus) result.(ECompileOutput) result.(EErrorMessage) result.(EDiagnostics)
    (map (fun tc => mkTCResult tc.(RsIndex) tc.(RsID) tc.(RsKind) tc.(RsStatus) tc.(RsActualOutput) tc.(RsStderr)
                      None None tc.(RsExecutionTime) tc.(RsMemoryUsed) tc.(RsDiagnostics)) result.(ETestCases))
    result.(EExecutionTime) result.(EMemoryUsed) result.(EError) result.(ETestcaseVersion) result.(ETestCount)
    result.(EDatasetChecksum).

(** The fields set after the execution. *)
Definition with_dataset (result : ExecutionResult) (bundle : OfficialTestCaseBundle) : ExecutionResult :=
  mkExecResult result.(EStatus) result.(ECompileOutput) result.(EErrorMessage) result.(EDiagnostics) result.(ETestCases)
    result.(EExecutionTime) result.(EMemoryUsed) result.(EError) (Some bundle.(BdVersion)) (Some bundle.(BdTestCount))
    (nonEmptyStringPtr bundle.(BdDatasetChecksum)).

Definition official_request (jobMsg : JobMessage) (metadata : WorkerDomain.ProblemTestCaseMetadata)
    (bundle : OfficialTestCaseBundle) : ExecutionRequest :=
  mkExecReq jobMsg.(JobLanguage) jobMsg.(JobSourceCode) bundle.(BdTestCases) no_limits true
    (Some (mkIdentity metadata.(MdProblemID) bundle.(BdVersion) bundle.(BdDatasetChecksum))).

Definition public_system_error : string := "The judge could not complete this submission.".
Definition system_error_result (stage : string) (err : error) : ExecutionResult :=
  mkExecResult "SYSTEM_ERROR" None (Some public_system_error) [] [] 0 0
    (Some (stage +:+ " error: " +:+ error_text err)) None None None.

Section ProcessJob.
Context {W : Type} (Execute : ExecutionRequest -> M W ExecutionResult)
  (Publish : Z -> string -> ExecutionResult -> M W unit)
  (Metadata : Z -> M W WorkerDomain.ProblemTestCaseMetadata)
  (Load : WorkerDomain.ProblemTestCaseMetadata -> M W OfficialTestCaseBundle).

Definition handleProcessingError (jobMsg : JobMessage) (stage : string) (err : error) : M W unit :=
  if negb (IsNonRetryable err) then fail err
  else Publish jobMsg.(JobSubmissionID) jobMsg.(JobAttemptID) (system_error_result stage err).

Definition processJob (jobMsg : JobMessage) : M W unit :=
  let* metadata := try (Metadata jobMsg.(JobProblemID)) in
  match metadata with
  | inl err => handleProcessingError jobMsg "fetch testcase metadata" err
  | inr metadata =>
      let* bundle := try (Load metadata) in
      match bundle with
      | inl err => handleProcessingError jobMsg "load official testcases" err
      | inr bundle =>
          let* result := try (Execute (official_request jobMsg metadata bundle)) in
          match result with
          | inl err => handleProcessingError jobMsg "execute submission" err
          | inr result =>
              Publish jobMsg.(JobSubmissionID) jobMsg.(JobAttemptID) (with_dataset (sanitizeOfficialResult result) bundle)
          end
      end
  end.
End ProcessJob.

(** ** Running code interactively *)

Record RunTestCase := mkRunTC { RtID : string; RtKind : string; RtStdin : string; RtExpectedOutput : option string }.
Record RunRequest := mkRunReq { RqLanguage : string; RqSourceCode : string; RqTestCases : list RunTestCase; RqLimits : ExecutionLimits }.
Record RunTestCaseResult := mkRunRes {
  RrID : string;
  RrKind : string;
  RrStatus : string;
  RrStdout : string;
  RrStderr : string;
  RrExpectedOutput : option string;
  RrExecutionTimeMS : Z;
  RrMemoryUsedKB : Z;
  RrDiagnostics : list CodeDiagnostic;
}.
Record RunResult := mkRunResult {
  RunStatus : string;
  RunCompileOutput : string;
  RunDiagnostics : list CodeDiagnostic;
  RunTestCases : list RunTestCaseResult;
}.

Definition run_testcases (tests : list RunTestCase) : list ExecutionTestCase :=
  imap (fun index tc => mkTestCase (Z.of_nat index + 1) tc.(RtID) tc.(RtKind) tc.(RtStdin) "" tc.(RtExpectedOutput)) tests.

Definition mapExecutionStatusToRunStatus (status : string) (expected : option string) : string :=
  if bool_decide (status = "ACCEPTED")%string then match expected with None => "executed" | Some _ => "accepted" end
  else if bool_decide (status = "WRONG_ANSWER")%string then "wrong_answer"
  else if bool_decide (status = "TIME_LIMIT_EXCEEDED")%string then "time_limit_exceeded"
  else if bool_decide (status = "MEMORY_LIMIT_EXCEEDED")%string then "memory_limit_exceeded"
  else if bool_decide (status = "OUTPUT_LIMIT_EXCEEDED")%string then "output_limit_exceeded"
  else if bool_decide (status = "RUNTIME_ERROR")%string then "runtime_error"
  else "system_error".

Definition run_testcase_result (tc : TestCaseResult) : RunTestCaseResult :=
  mkRunRes tc.(RsID) tc.(RsKind) (mapExecutionStatusToRunStatus tc.(RsStatus) tc.(RsExpectedOutput))
    (default ""%string tc.(RsActualOutput)) (default ""%string tc.(RsStderr)) tc.(RsExpectedOutput)
    tc.(RsExecutionTime) tc.(RsMemoryUsed) tc.(RsDiagnostics).

Definition mapExecutionResultToRunResult (result : ExecutionResult) : RunResult :=
  mkRunResult (if bool_decide (result.(EStatus) = "COMPILATION_ERROR")%string then "compile_error" else "completed")
    (default ""%string result.(ECompileOutput))
    (result.(EDiagnostics) ++ concat (map RsDiagnostics result.(ETestCases)))
    (map run_testcase_result result.(ETestCases)).

Definition runCode {W} (Execute : ExecutionRequest -> M W ExecutionResult) (req : RunRequest) : M W RunResult :=
  let* result := Execute (mkExecReq req.(RqLanguage) req.(RqSourceCode) (run_testcases req.(RqTestCases)) req.(RqLimits) false None) in
  ret (mapExecutionResultToRunResult result).

(** [int32(n)] *)
Definition int32 (n : Z) : Z := (n + 2 ^ 31) mod 2 ^ 32 - 2 ^ 31.

(** [mapDiagnostics] of the handler and the response it builds. *)
Definition mapDiagnostics (items : list CodeDiagnostic) : list CodeDiagnostic :=
  map (fun d => mkDiag d.(DgTestCaseID) d.(DgKind) d.(DgSeverity) d.(DgMessage) (int32 d.(DgLine)) (int32 d.(DgColumn))) items.
Definition run_response (result : RunResult) : RunResult :=
  mkRunResult result.(RunStatus) result.(RunCompileOutput) (mapDiagnostics result.(RunDiagnostics))
    (map (fun tc => mkRunRes tc.(RrID) tc.(RrKind) tc.(RrStatus) tc.(RrStdout) tc.(RrStderr) tc.(RrExpectedOutput)
                      tc.(RrExecutionTimeMS) tc.(RrMemoryUsedKB) (mapDiagnostics tc.(RrDiagnostics))) result.(RunTestCases)).

(** [RunCodeHandler.Handle]: the errors of the gRPC method; [ctxErr] is
    [ctx.Err() != nil] after the call. *)
Definition handleRunCode {W} (Execute : ExecutionRequest -> M W ExecutionResult) (ctxErr : W -> bool)
    (req : option RunRequest) : M W RunResult :=
  match req with
  | None => fail (GoError.EStatus code_InvalidArgument "request is required")
  | Some req =>
      fun w => match runCode Execute req w with
               | (inr result, w') => (inr (run_response result), w')
               | (inl _, w') => (inl (if ctxErr w' then GoError.EStatus code_DeadlineExceeded "run code deadline exceeded"
                                     else GoError.EStatus code_Internal "run code failed"), w')
               end
  end.

(** ** What the worker promises to the submission service *)

(** The results of an execution: known statuses, the tests of the request. *)
Record result_ok (result : ExecutionResult) : Prop := {
  ro_status : result.(EStatus) ∈ terminal_statuses;
  ro_tests : Forall (fun tc => tc.(RsStatus) ∈ result_statuses /\ 0 < tc.(RsIndex)) result.(ETestCases);
}.

Class ExecutorLaws {W} (Execute : ExecutionRequest -> M W ExecutionResult) := {
  executor_ok : forall req w result w', Forall (fun tc => 0 < tc.(TcIndex)) req.(ExTestCases) ->
    Execute req w = (inr result, w') -> result_ok result;
}.

(** The dataset a loader returns for a problem. *)
Record bundle_ok (bundle : OfficialTestCaseBundle) : Prop := {
  bo_tests : Forall (fun tc => 0 < tc.(TcIndex)) bundle.(BdTestCases);
  bo_checksum : is_sha256_hex bundle.(BdDatasetChecksum) = true;
}.

Class LoaderLaws {W} (Load : WorkerDomain.ProblemTestCaseMetadata -> M W OfficialTestCaseBundle) := {
  loader_ok : forall md w bundle w', Load md w = (inr bundle, w') -> bundle_ok bundle;
}.

Lemma system_error_ok stage err : result_ok (system_error_result stage err).
Proof. constructor; [|constructor]. vm_compute. set_solver. Qed.

Lemma result_statuses_map sid aid items : Forall (fun i => i.(ItemStatus) ∈ result_statuses /\ 0 < i.(ItemIndex)) items ->
  exists rs, mapTestCaseResults sid aid items = inr rs.
Proof.
  induction 1 as [|i items [H1 H2] _ [rs IH]]; cbn; [eauto|]. destruct (Z.leb_spec (ItemIndex i) 0); [lia|].
  unfold mapTestCaseStatus. rewrite bool_decide_eq_true_2 by done. rewrite IH. eauto.
Qed.

(** Every well-formed result passes the validation of the submission service. *)
Lemma result_accepted sid aid result : 0 < sid -> TrimSpace aid <> ""%string -> result_ok result ->
  match result.(EDatasetChecksum) with Some c => is_sha256_hex c = true | None => True end ->
  exists rs, validateResult (result_message sid aid result) = inr (result.(EStatus), rs).
Proof.
  intros Hs Ha [H1 H2] Hc. unfold validateResult. cbn. destruct (Z.leb_spec sid 0); [lia|].
  rewrite bool_decide_eq_false_2 by done. cbn. unfold mapTerminalSubmissionStatus, ParseStatus.
  rewrite bool_decide_eq_true_2 by (by do 2 right). rewrite bool_decide_eq_true_2 by done.
  unfold validateDatasetChecksum. destruct (result_statuses_map sid aid (map result_item (ETestCases result))) as [rs E].
  { apply Forall_map. eapply Forall_impl; [exact H2|]. done. }
  rewrite E. destruct (EDatasetChecksum result) as [c|]; [rewrite Hc|]; eauto.
Qed.

Lemma sanitized_ok result bundle : result_ok result -> result_ok (with_dataset (sanitizeOfficialResult result) bundle).
Proof. intros [H1 H2]. constructor; cbn; [done|]. apply Forall_map. eapply Forall_impl; [exact H2|]. done. Qed.

(** What the use case relies on of its ports: none of them publishes. *)
Section Publication.
Context {W : Type} (Execute : ExecutionRequest -> M W ExecutionResult)
  (Metadata : Z -> M W WorkerDomain.ProblemTestCaseMetadata)
  (Load : WorkerDomain.ProblemTestCaseMetadata -> M W OfficialTestCaseBundle)
  (Send : ProducerMessage -> M W (Z * Z)) (topic : string) (delivered : W -> list ProducerMessage).
Context {EL : ExecutorLaws Execute} {LL : LoaderLaws Load}.

Class QuietWorkerPorts := {
  qw_execute : forall req, keeps delivered (Execute req);
  qw_metadata : forall id, keeps delivered (Metadata id);
  qw_load : forall md, keeps delivered (Load md);
  qw_send : forall m w p w', Send m w = (inr p, w') -> delivered w' = delivered w ++ [m];
  qw_send_failed : forall m w e w', Send m w = (inl e, w') -> delivered w' = delivered w \/ delivered w' = delivered w ++ [m];
}.

Definition kafka_publish := PublishResult Send topic.

(** The message of a result, or nothing when the send failed early. *)
Definition one_message (job : JobMessage) (w w' : W) (result : ExecutionResult) : Prop :=
  delivered w' = delivered w ++ [mkProducer topic (Itoa job.(JobSubmissionID))
    (marshal_result (result_message job.(JobSubmissionID) job.(JobAttemptID) result))].

Lemma publish_run {QL : QuietWorkerPorts} job result w r w' :
  kafka_publish job.(JobSubmissionID) job.(JobAttemptID) result w = (r, w') ->
  one_message job w w' result \/ (exists e, r = inl e) /\ delivered w' = delivered w.
Proof.
  unfold kafka_publish, PublishResult, on_error, bind. destruct (Send _ w) as [[e|p] w1] eqn:E; intros [= <- <-].
  - destruct (qw_send_failed _ _ _ _ E); [right|left]; eauto.
  - left. by apply qw_send in E.
Qed.

Definition reported (job : JobMessage) (w w' : W) (r : error + unit) : Prop :=
  (exists result rs, one_message job w w' result
     /\ validateResult (result_message job.(JobSubmissionID) job.(JobAttemptID) result) = inr (result.(EStatus), rs))
  \/ (exists e, r = inl e) /\ delivered w' = delivered w.

Definition good_job (job : JobMessage) : Prop := 0 < job.(JobSubmissionID) /\ TrimSpace job.(JobAttemptID) <> ""%string.

Lemma publish_reported {QL : QuietWorkerPorts} job result w w1 r w' : good_job job -> delivered w1 = delivered w ->
  result_ok result -> match result.(EDatasetChecksum) with Some c => is_sha256_hex c = true | None => True end ->
  kafka_publish job.(JobSubmissionID) job.(JobAttemptID) result w1 = (r, w') -> reported job w w' r.
Proof.
  intros [G1 G2] HD HO HC [HP|[HE HP]]%publish_run; [left|right; by rewrite <- HD].
  destruct (result_accepted _ _ _ G1 G2 HO HC) as [rs HV]. exists result, rs. split; [|done].
  unfold one_message in *. by rewrite <- HD.
Qed.

Lemma error_reported {QL : QuietWorkerPorts} job stage err w w1 r w' : good_job job -> delivered w1 = delivered w ->
  handleProcessingError kafka_publish job stage err w1 = (r, w') -> reported job w w' r.
Proof.
  intros G HD. unfold handleProcessingError. destruct (negb _).
  - intros [= <- <-]. right. eauto.
  - eapply publish_reported; [done|done|apply system_error_ok|done].
Qed.

(** A job ends with one result message that the submission service accepts,
    or with an error and a retry. *)
Lemma processJob_reported {QL : QuietWorkerPorts} job w r w' : good_job job ->
  processJob Execute kafka_publish Metadata Load job w = (r, w') -> reported job w w' r.
Proof using EL LL.
  intros G. unfold processJob, bind at 1, try at 1. destruct (Metadata _ w) as [[e|md] w1] eqn:E1;
    apply qw_metadata in E1; [by apply error_reported|].
  unfold bind at 1, try at 1. destruct (Load md w1) as [[e|bundle] w2] eqn:E2; pose proof (qw_load _ _ _ _ E2) as D2;
    rewrite E1 in D2; [by apply error_reported|].
  apply loader_ok in E2 as [B1 B2].
  unfold bind at 1, try at 1. destruct (Execute _ w2) as [[e|result] w3] eqn:E3; pose proof (qw_execute _ _ _ _ E3) as D3;
    rewrite D2 in D3; [by apply error_reported|].
  apply executor_ok in E3; [|done]. apply publish_reported; [done|done|by apply sanitized_ok|].
  cbn. unfold nonEmptyStringPtr. by case_bool_decide.
Qed.
End Publication.

(** ** Interactive runs *)

Lemma run_status_known status expected : mapExecutionStatusToRunStatus status expected ∈
  ["executed"; "accepted"; "wrong_answer"; "time_limit_exceeded"; "memory_limit_exceeded"; "output_limit_exceeded";
   "runtime_error"; "system_error"]%string.
Proof. unfold mapExecutionStatusToRunStatus. repeat case_bool_decide; destruct expected; set_solver. Qed.
