(* ===== verification/OfficialLoader.v ===== *)
(** The loader of official testcases:
    workers/judge/internal/adapter/outbound/testcase/official_loader.go.

    The file system, the HTTP client, the zip reader and the random names are
    parameters; what the loader does with them is translated. *)

From S2P Require Import Prelude GoString GoError GoMonad GoCrypto SubmissionDomain SubmissionPorts ApplyResult WorkerDomain GoPath JudgeWorker.

Notation Metadata := WorkerDomain.ProblemTestCaseMetadata (only parsing).

(** An entry of a zip file; [ZOpen] is the error of opening it, or its content
    with the error that ended the reading early. *)
Record zip_entry := mkZip {
  ZName : string;
  ZIsDir : bool;
  ZIsSymlink : bool;
  UncompressedSize64 : Z;
  ZOpen : error + (string * option error);
}.

(** The response to a download: the status, the body read so far and the error
    that ended it early. *)
Record http_response := mkHttp { StatusCode : Z; Body : string; BodyError : option error }.

Record platform (W : Type) := mkPlatform {
  ReadFile : string -> M W string;
  WriteFile : string -> string -> M W unit;
  Create : string -> M W unit;
  Write : string -> string -> M W unit;
  ReadDir : string -> M W (list (string * bool));
  MkdirAll : string -> M W unit;
  Remove : string -> M W unit;
  RemoveAll : string -> M W unit;
  Rename : string -> string -> M W unit;
  OpenZip : string -> M W (list zip_entry);
  Get : string -> M W http_response;
  BadURL : string -> option error;
  randHex : Z -> M W string;
  TempDir : string;
}.
Arguments ReadFile {W}.
Arguments WriteFile {W}.
Arguments Create {W}.
Arguments Write {W}.
Arguments ReadDir {W}.
Arguments MkdirAll {W}.
Arguments Remove {W}.
Arguments RemoveAll {W}.
Arguments Rename {W}.
Arguments OpenZip {W}.
Arguments Get {W}.
Arguments BadURL {W}.
Arguments randHex {W}.
Arguments TempDir {W}.

Record loader := mkLoader { cacheBaseDir : string; maxZipBytes : Z; maxExtractedBytes : Z }.
(** [NewOfficialLoader] *)
Definition default_loader : loader := mkLoader "/cache/testcases" (64 * 1024 * 1024) (128 * 1024 * 1024).

Definition cacheVersionFile : string := ".version".
Definition cacheSHA256File : string := ".sha256".
Definition cacheZipFile : string := "bundle.zip".

Definition join (a b : string) : string := str (Join (chars a) (chars b)).

(** [testcaseFilePattern]: the digits of the index and whether the file is an
    input. *)
Fixpoint span (p : ascii -> bool) (l : bytes) : bytes * bytes :=
  match l with
  | c :: r => if p c then let '(a, b) := span p r in (c :: a, b) else ([], l)
  | [] => ([], [])
  end.
Definition testcase_file (name : string) : option (string * bool) :=
  let '(digits, suffix) := span is_digit (drop_while (is_byte 48) (chars name)) in
  if bool_decide (digits = []) then None
  else if bool_decide (suffix = chars ".in") then Some (str digits, true)
  else if bool_decide (suffix = chars ".out") then Some (str digits, false)
  else None.

Definition validateMetadata (md : Metadata) : option error :=
  if md.(MdProblemID) <=? 0 then Some (MarkNonRetryable (EText "problem_id must be greater than zero"))
  else if blank md.(ZipDownloadURL) then Some (MarkNonRetryable (EText "zip_download_url is required"))
  else if md.(MdTestCount) <=? 0 then Some (MarkNonRetryable (EText "test_count must be greater than zero"))
  else if md.(MdVersion) <=? 0 then Some (MarkNonRetryable (EText "version must be greater than zero"))
  else None.

(** ** Reading a directory *)

Definition paths : Type := gmap Z string.

(** The loop over the entries of the directory. *)
Fixpoint classify (dir : string) (entries : list (string * bool)) (inputs outputs : paths) : error + (paths * paths) :=
  match entries with
  | [] => inr (inputs, outputs)
  | (name, is_dir) :: rest =>
      if is_dir then classify dir rest inputs outputs
      else match testcase_file name with
           | None => classify dir rest inputs outputs
           | Some (digits, is_input) =>
               match ParseInt digits with
               | None => inl (MarkNonRetryable (EText ("parse testcase index " +:+ name)))
               | Some index =>
                   let path := join dir name in
                   if is_input then classify dir rest (<[index := path]> inputs) outputs
                   else classify dir rest inputs (<[index := path]> outputs)
               end
           end
  end.

(** An index of [a] that [b] lacks; Go's map order picks which one is named. *)
Definition lacking (a b : paths) : option Z :=
  find_first (fun i => negb (bool_decide (is_Some (b !! i)))) (map fst (map_to_list a)).

Definition indexes (inputs : paths) : list Z := merge_sort Z.le (map fst (map_to_list inputs)).

Definition pair_files (testCount : Z) (inputs outputs : paths) : error + list Z :=
  match lacking inputs outputs with
  | Some i => inl (MarkNonRetryable (EText ("missing output file for testcase " +:+ Itoa i)))
  | None =>
      match lacking outputs inputs with
      | Some i => inl (MarkNonRetryable (EText ("missing input file for testcase " +:+ Itoa i)))
      | None =>
          let l := indexes inputs in
          if negb (Z.of_nat (length l) =? testCount)
          then inl (MarkNonRetryable (EText ("testcase count mismatch: metadata=" +:+ Itoa testCount +:+ " files="
                                              +:+ Itoa (Z.of_nat (length l)))))
          else inr l
      end
  end.

Section Loader.
Context {W : Type} (os : platform W) (l : loader).

Fixpoint read_cases (inputs outputs : paths) (sequence : Z) (indexes : list Z) : M W (list ExecutionTestCase) :=
  match indexes with
  | [] => ret []
  | index :: rest =>
      let input := default ""%string (inputs !! index) in
      let output := default ""%string (outputs !! index) in
      let* stdin := on_error (EWrap ("read input file for testcase " +:+ Itoa index)) (os.(ReadFile) input) in
      let* expected := on_error (EWrap ("read output file for testcase " +:+ Itoa index)) (os.(ReadFile) output) in
      let* others := read_cases inputs outputs (sequence + 1) rest in
      ret (mkTestCase sequence (Itoa index) "official" stdin input (Some expected) :: others)
  end.

Definition loadFromDir (dir : string) (testCount : Z) : M W (list ExecutionTestCase) :=
  let* entries := on_error (EWrap "read testcase dir") (os.(ReadDir) dir) in
  match classify dir entries ∅ ∅ with
  | inl e => fail e
  | inr (inputs, outputs) =>
      match pair_files testCount inputs outputs with
      | inl e => fail e
      | inr indexes => read_cases inputs outputs 1 indexes
      end
  end.

Definition bundleFromDir (dir : string) (md : Metadata) (checksum : string) : M W OfficialTestCaseBundle :=
  let* testCases := loadFromDir dir md.(MdTestCount) in
  ret (mkBundle testCases md.(MdTestCount) md.(MdVersion) checksum).

(** ** Files *)

Definition sha256_hex (content : string) : string := str (HexEncode (Sum256 (chars content))).

Definition sha256File (path : string) : M W string :=
  let* content := os.(ReadFile) path in ret (sha256_hex content).

(** [verifiedCachedChecksum]: the checksum, if the cached archive has it. *)
Definition verifiedCachedChecksum (cacheDir : string) : M W (option string) :=
  let* checksum := try (os.(ReadFile) (join cacheDir cacheSHA256File)) in
  match checksum with
  | inl _ => ret None
  | inr text =>
      let checksum := TrimSpace text in
      if negb (is_sha256_hex checksum) then ret None
      else
        let* actual := try (sha256File (join cacheDir cacheZipFile)) in
        match actual with
        | inl _ => ret None
        | inr actual => ret (if bool_decide (actual = checksum) then Some checksum else None)
        end
  end.

(** [downloadToFile]: at most one byte more than the limit is read and stored
    before the size is looked at. *)
Definition downloadToFile (url destPath : string) : M W string :=
  match os.(BadURL) url with
  | Some e => fail (MarkNonRetryable (EText ("build testcase download request: " +:+ error_text e)))
  | None =>
      let* resp := os.(Get) url in
      if (resp.(StatusCode) <? 200) || (300 <=? resp.(StatusCode))
      then fail (EText ("testcase download returned status " +:+ Itoa resp.(StatusCode)))
      else
        let content := str (take (Z.to_nat (l.(maxZipBytes) + 1)) (chars resp.(Body))) in
        os.(Create) destPath ;;
        os.(Write) destPath content ;;
        match resp.(BodyError) with
        | Some e => fail e
        | None =>
            if l.(maxZipBytes) <? len content
            then fail (MarkNonRetryable (EText ("testcase zip exceeds " +:+ Itoa l.(maxZipBytes) +:+ " bytes")))
            else ret (sha256_hex content)
        end
  end.

(** [defer f()]: run in every case, the errors of [f] are logged. *)
Definition finally {A} (m : M W A) (f : M W unit) : M W A :=
  fun w => let '(r, w1) := m w in (r, (f w1).2).
(** [if failed { f() }] on the way out. *)
Definition on_failure {A} (m : M W A) (f : M W unit) : M W A :=
  fun w => match m w with (inl e, w1) => (inl e, (f w1).2) | (inr a, w1) => (inr a, w1) end.

Definition writeFileAtomic (path data : string) : M W unit :=
  let* r := os.(randHex) 6 in
  let tmpPath := path +:+ ".tmp." +:+ r in
  os.(WriteFile) tmpPath data ;;
  on_failure (os.(Rename) tmpPath path) (os.(Remove) tmpPath).

Definition copyFileAtomic (srcPath destPath : string) : M W unit :=
  let* r := os.(randHex) 6 in
  let tmpPath := destPath +:+ ".tmp." +:+ r in
  let* content := os.(ReadFile) srcPath in
  os.(Create) tmpPath ;;
  on_failure (os.(Write) tmpPath content ;; os.(Rename) tmpPath destPath) (os.(Remove) tmpPath).

(** ** Extracting *)

Definition escapes (name : bytes) : bool :=
  IsAbs name || has_prefix (dot2 ++ [slash]) name || bool_decide (name = dot2).

Fixpoint extract_entries (destDir : string) (extracted : Z) (entries : list zip_entry) : M W unit :=
  match entries with
  | [] => ret tt
  | f :: rest =>
      if f.(ZIsDir) then extract_entries destDir extracted rest
      else if f.(ZIsSymlink) then fail (EText ("zip entry " +:+ f.(ZName) +:+ " is a symlink"))
      else
        let name := Clean (chars f.(ZName)) in
        if escapes name then fail (EText ("zip entry " +:+ f.(ZName) +:+ " escapes destination"))
        else
          let base := str (Base name) in
          match testcase_file base with
          | None => extract_entries destDir extracted rest
          | Some _ =>
              let extracted := wrap64 (extracted + wrap64 f.(UncompressedSize64)) in
              if l.(maxExtractedBytes) <? extracted
              then fail (EText ("testcase bundle exceeds " +:+ Itoa l.(maxExtractedBytes) +:+ " extracted bytes"))
              else
                match f.(ZOpen) with
                | inl e => fail (EWrap ("open zip entry " +:+ f.(ZName)) e)
                | inr (content, readError) =>
                    let destPath := join destDir base in
                    on_error (EWrap ("create file " +:+ destPath)) (os.(Create) destPath) ;;
                    on_error (EWrap ("extract " +:+ f.(ZName)))
                      (os.(Write) destPath content ;;
                       match readError with Some e => fail e | None => ret tt end) ;;
                    extract_entries destDir extracted rest
                end
          end
  end.

Definition extractZip (zipPath destDir : string) : M W unit :=
  let* entries := on_error (EWrap "open zip") (os.(OpenZip) zipPath) in
  extract_entries destDir 0 entries.

(** ** Load *)

Definition cache_dir (md : Metadata) : string := join l.(cacheBaseDir) ("problem_" +:+ Itoa md.(MdProblemID)).

(** Fill the temporary directory and put it in the place of the cache. *)
Definition promote (md : Metadata) (zipPath tmpDir checksum : string) : M W unit :=
  let cacheDir := cache_dir md in
  on_error (fun e => MarkNonRetryable (EWrap "extract testcase bundle" e)) (extractZip zipPath tmpDir) ;;
  let* _ := loadFromDir tmpDir md.(MdTestCount) in
  on_error (EWrap "write testcase cache zip") (copyFileAtomic zipPath (join tmpDir cacheZipFile)) ;;
  on_error (EWrap "write testcase cache version") (writeFileAtomic (join tmpDir cacheVersionFile) (Itoa md.(MdVersion))) ;;
  on_error (EWrap "write testcase cache checksum") (writeFileAtomic (join tmpDir cacheSHA256File) checksum) ;;
  on_error (EWrap "create testcase cache base dir") (os.(MkdirAll) l.(cacheBaseDir)) ;;
  on_error (EWrap "remove stale testcase cache") (os.(RemoveAll) cacheDir) ;;
  on_error (EWrap "promote testcase cache") (os.(Rename) tmpDir cacheDir).

Definition refresh (md : Metadata) : M W OfficialTestCaseBundle :=
  let cacheDir := cache_dir md in
  let* r6 := os.(randHex) 6 in
  let zipPath := join os.(TempDir) ("tc_" +:+ Itoa md.(MdProblemID) +:+ "_" +:+ Itoa md.(MdVersion) +:+ "_" +:+ r6 +:+ ".zip") in
  let* checksum := on_error (EWrap "download testcase bundle") (downloadToFile md.(ZipDownloadURL) zipPath) in
  finally
    (let* r8 := os.(randHex) 8 in
     let tmpDir := cacheDir +:+ "_tmp_" +:+ r8 in
     on_error (EWrap "create testcase cache temp dir") (os.(MkdirAll) tmpDir) ;;
     on_failure (promote md zipPath tmpDir checksum) (os.(RemoveAll) tmpDir) ;;
     bundleFromDir cacheDir md checksum)
    (os.(Remove) zipPath).

Definition Load (md : Metadata) : M W OfficialTestCaseBundle :=
  match validateMetadata md with
  | Some e => fail e
  | None =>
      let cacheDir := cache_dir md in
      let* cachedVersion := try (os.(ReadFile) (join cacheDir cacheVersionFile)) in
      let* hit := match cachedVersion with
                  | inr v => if bool_decide (TrimSpace v = Itoa md.(MdVersion)) then verifiedCachedChecksum cacheDir
                             else ret None
                  | inl _ => ret None
                  end in
      match hit with
      | Some checksum => bundleFromDir cacheDir md checksum
      | None => refresh md
      end
  end.
End Loader.

Example testcase_file_examples : map testcase_file ["1.in"; "007.out"; "10.in"; "0.in"; "1.in.bak"; "a1.in"; "1.txt"]%string
  = [Some ("1"%string, true); Some ("7"%string, false); Some ("10"%string, true); None; None; None; None].
Proof. vm_compute. reflexivity. Qed.

(** ** The test cases of a directory *)

Lemma classify_paths dir entries inputs outputs inputs' outputs' (P : string -> Prop) :
  (forall name d b, testcase_file name = Some (d, b) -> P (join dir name)) ->
  (forall i p, inputs !! i = Some p -> P p) ->
  classify dir entries inputs outputs = inr (inputs', outputs') -> forall i p, inputs' !! i = Some p -> P p.
Proof.
  intros HP. revert inputs outputs. induction entries as [|[name is_dir] rest IH]; intros inputs outputs HI; cbn.
  - by intros [= <- _].
  - destruct is_dir; [by apply IH|]. destruct (testcase_file name) as [[d b]|] eqn:E; [|by apply IH].
    destruct (ParseInt d); [|done]. destruct b; [|by apply IH]. apply IH.
    intros i p [[<- <-]|[_ H]]%lookup_insert_Some; [by eapply HP|by eapply HI].
Qed.

Lemma indexes_spec inputs : StronglySorted Z.lt (indexes inputs) /\ forall i, i ∈ indexes inputs <-> is_Some (inputs !! i).
Proof.
  assert (forall i, i ∈ indexes inputs <-> is_Some (inputs !! i)) as HI.
  { intros i. unfold indexes. rewrite merge_sort_Permutation, list_elem_of_fmap. split.
    - intros ([j p] & -> & H). apply elem_of_map_to_list in H. eauto.
    - intros [p H]. exists (i, p). split; [done|]. by apply elem_of_map_to_list. }
  split; [|done]. assert (NoDup (indexes inputs)) as ND.
  { unfold indexes. rewrite merge_sort_Permutation. apply NoDup_fst_map_to_list. }
  assert (StronglySorted Z.le (indexes inputs)) as SS.
  { apply Sorted_StronglySorted; [intros x y z; lia|]. apply Sorted_merge_sort. intros x y. lia. }
  clear HI. induction SS as [|i l SS IH HF]; [constructor|]. apply NoDup_cons in ND as [N1 N2]. constructor; [auto|].
  rewrite Forall_forall in *. intros j Hj. specialize (HF j Hj). assert (i <> j) by (by intros ->). lia.
Qed.

Lemma pair_files_ok testCount inputs outputs l : pair_files testCount inputs outputs = inr l ->
  l = indexes inputs /\ Z.of_nat (length l) = testCount /\ forall i, is_Some (inputs !! i) <-> is_Some (outputs !! i).
Proof.
  assert (forall a b : paths, lacking a b = None -> forall i, is_Some (a !! i) -> is_Some (b !! i)) as HL.
  { intros a b H%find_first_none i [p Hp]. rewrite Forall_forall in H.
    specialize (H i). rewrite negb_false_iff, bool_decide_eq_true in H. apply H. apply list_elem_of_fmap.
    exists (i, p). split; [done|]. by apply elem_of_map_to_list. }
  unfold pair_files. destruct (lacking inputs outputs) eqn:E1; [done|]. destruct (lacking outputs inputs) eqn:E2; [done|].
  destruct (Z.eqb_spec (Z.of_nat (length (indexes inputs))) testCount); [|done]. intros [= <-]. split_and!; [done|done|].
  intros i. split; by apply HL.
Qed.

(** What a directory of testcases gives: numbered from one, in the order of
    their indexes, each with its expected output. *)
Record cases_ok (indexes : list Z) (inputs : paths) (first : Z) (tests : list ExecutionTestCase) : Prop := {
  co_ids : map TcID tests = map Itoa indexes;
  co_index : map TcIndex tests = map (fun n => first + Z.of_nat n) (seq 0 (length tests));
  co_official : Forall (fun tc => tc.(TcKind) = "official"%string /\ is_Some tc.(TcExpectedOutput)) tests;
  co_paths : map SandboxInputPath tests = map (fun i => default ""%string (inputs !! i)) indexes;
}.

Lemma read_cases_ok {W} (os : platform W) inputs outputs first indexes w tests w' :
  read_cases os inputs outputs first indexes w = (inr tests, w') -> cases_ok indexes inputs first tests.
Proof.
  revert first w tests w'. induction indexes as [|i indexes IH]; intros first w tests w'; cbn [read_cases].
  - intros [= <- _]. by constructor.
  - intros H. apply bind_inr_inv in H as (stdin & w1 & _ & H). apply bind_inr_inv in H as (expected & w2 & _ & H).
    apply bind_inr_inv in H as (others & w3 & E & H). injection H as <- _. apply IH in E as [C1 C2 C3 C4].
    constructor; cbn [map TcID TcIndex TcKind SandboxInputPath]; [by rewrite C1| | |by rewrite C4].
    + cbn [length seq map]. rewrite Z.add_0_r, C2. f_equal. rewrite <- seq_shift, map_map. apply map_ext. intros n. lia.
    + constructor; [cbn; eauto|done].
Qed.

Lemma cases_positive indexes inputs tests : cases_ok indexes inputs 1 tests -> Forall (fun tc => 0 < tc.(TcIndex)) tests.
Proof.
  intros [_ C2 _ _]. apply Forall_forall. intros tc H.
  assert (TcIndex tc ∈ map TcIndex tests) as HI by (apply list_elem_of_fmap; eauto).
  rewrite C2 in HI. apply list_elem_of_fmap in HI as (n & -> & _). lia.
Qed.

Lemma loadFromDir_ok {W} (os : platform W) dir testCount w tests w' :
  loadFromDir os dir testCount w = (inr tests, w') ->
  exists inputs, cases_ok (indexes inputs) inputs 1 tests /\ Z.of_nat (length tests) = testCount
    /\ forall i p, inputs !! i = Some p -> exists name d b, testcase_file name = Some (d, b) /\ p = join dir name.
Proof.
  unfold loadFromDir. intros H. apply bind_inr_inv in H as (entries & w1 & _ & H).
  destruct (classify dir entries ∅ ∅) as [e|[inputs outputs]] eqn:EC; [discriminate|].
  destruct (pair_files testCount inputs outputs) as [e|l] eqn:EP; [discriminate|].
  apply pair_files_ok in EP as (-> & <- & _). apply read_cases_ok in H. exists inputs. split; [done|]. split.
  - pose proof (f_equal length (co_ids _ _ _ _ H)) as HL. rewrite !length_map in HL. by rewrite HL.
  - eapply (classify_paths dir entries ∅ ∅ inputs outputs); [|by intros i p H0%lookup_empty_Some|exact EC]. eauto 10.
Qed.

(** ** Where the files are *)

Lemma span_app p l : let '(a, b) := span p l in l = a ++ b /\ forallb p a = true.
Proof.
  induction l as [|c l IH]; [done|]. cbn. destruct (p c) eqn:E; [|done]. destruct (span p l) as [a b].
  destruct IH as [-> IH]. cbn. by rewrite E, IH.
Qed.

Lemma no_slash_by (p : ascii -> bool) l : p slash = false -> forallb p l = true -> Forall (fun x => x <> slash) l.
Proof.
  intros Hp H. apply Forall_forall. intros x Hx ->. rewrite forallb_forall in H.
  rewrite list_elem_of_In in Hx. apply H in Hx. congruence.
Qed.

(** The name of a testcase file is a plain file name. *)
Lemma testcase_file_down name d b : testcase_file name = Some (d, b) -> down (chars name).
Proof.
  unfold testcase_file. destruct (drop_while_spec (is_byte 48) (chars name)) as (q & E & HQ & _).
  pose proof (span_app is_digit (drop_while (is_byte 48) (chars name))) as HS.
  destruct (span is_digit _) as [digits suffix]. destruct HS as [HS HD]. rewrite HS in E. clear HS.
  case_bool_decide as B1; [done|]. intros H.
  assert (suffix = chars ".in" \/ suffix = chars ".out") as HX by (repeat case_bool_decide; try done; auto).
  clear H. rewrite E. destruct digits as [|c digits]; [done|].
  assert (Forall (fun x => x <> slash) (q ++ (c :: digits) ++ suffix)) as HN.
  { apply Forall_app. split.
    - eapply Forall_impl; [exact HQ|]. intros x Hx ->. done.
    - apply Forall_app. split; [by apply (no_slash_by is_digit)|]. destruct HX as [-> | ->]; by repeat constructor. }
  assert (length (q ++ (c :: digits) ++ suffix) > 2)%nat as HL.
  { rewrite !length_app. destruct HX as [-> | ->]; cbn; lia. }
  assert (forall e : bytes, (length e <= 2)%nat -> q ++ (c :: digits) ++ suffix <> e) as K by (intros e He H; rewrite H in HL; lia).
  split; [split; [|split]|]; [apply K, Nat.leb_le; reflexivity|apply K, Nat.leb_le; reflexivity|exact HN|apply K, Nat.leb_le; reflexivity].
Qed.

Lemma problem_dir_down n : down (chars ("problem_" +:+ Itoa n)).
Proof.
  assert (forallb (fun c => is_digit c || is_byte 45 c) (chars (Itoa n)) = true) as HI.
  { unfold Itoa.
    assert (forall k z acc, forallb (fun c => is_digit c || is_byte 45 c) acc = true ->
      forallb (fun c => is_digit c || is_byte 45 c) (format_digits k z acc) = true) as F.
    { induction k as [|k IH]; intros z acc HA; [done|]. cbn [format_digits].
      assert (forallb (fun c => is_digit c || is_byte 45 c) (digit (z mod 10) :: acc) = true) as HA'.
      { cbn [forallb]. rewrite HA, (proj1 (digit_spec (z mod 10) (Z.mod_pos_bound z 10 ltac:(lia)))). done. }
      destruct (z <? 10); [done|by apply IH]. }
    unfold format_nat. destruct (n <? 0); rewrite chars_str; [cbn [forallb]; by rewrite F|by apply F]. }
  assert (forall s t, chars (s +:+ t) = chars s ++ chars t) as HC.
  { induction s as [|a s IH]; intros t; [done|].
    change (chars (String a s +:+ t)) with (a :: chars (s +:+ t)). by rewrite IH. }
  rewrite HC. split; [split_and!|]; [done|done| |done]. apply Forall_app. split; [by repeat constructor|].
  by apply (no_slash_by (fun c => is_digit c || is_byte 45 c)).
Qed.

(** Every testcase input of a dataset lies below the cache directory, where
    the go-judge adapter accepts it. *)
Lemma bundle_paths {W} (os : platform W) l md checksum w bundle w' : IsAbs (chars l.(cacheBaseDir)) = true ->
  bundleFromDir os (cache_dir l md) md checksum w = (inr bundle, w') ->
  Forall (fun tc => isContainedPath (chars l.(cacheBaseDir)) (chars tc.(SandboxInputPath)) = true) bundle.(BdTestCases).
Proof.
  intros HA. unfold bundleFromDir. intros H. apply bind_inr_inv in H as (tests & w1 & HL & H). injection H as <- _. cbn.
  apply loadFromDir_ok in HL as (inputs & [_ _ _ C4] & _ & HP). apply Forall_forall. intros tc Htc.
  assert (SandboxInputPath tc ∈ map SandboxInputPath tests) as HI by (apply list_elem_of_fmap; eauto).
  rewrite C4 in HI. apply list_elem_of_fmap in HI as (i & -> & Hi). apply indexes_spec in Hi as [p Hp].
  rewrite Hp. cbn. destruct (HP _ _ Hp) as (name & d & b & Hn & ->). apply testcase_file_down in Hn.
  destruct (Join_elements _ _ HA (problem_dir_down (MdProblemID md))) as [J1 J2].
  assert (chars (cache_dir l md) = Join (chars (cacheBaseDir l)) (chars ("problem_" +:+ Itoa (MdProblemID md)))) as EC
    by (unfold cache_dir, join; by rewrite chars_str).
  rewrite <- EC in J1, J2. destruct (Join_elements _ _ J1 Hn) as [K1 K2].
  unfold join. rewrite chars_str. apply isContainedPath_spec; [done|]. split; [done|]. rewrite K2, J2, <- app_assoc.
  eexists. split; [|done]. done.
Qed.

(** ** What a dataset promises *)

Lemma sha256_hex_valid content : is_sha256_hex (sha256_hex content) = true.
Proof.
  unfold is_sha256_hex, sha256_hex. rewrite len_str, chars_str, HexEncode_length, Sum256_length.
  apply (HexEncode_lower (Sum256 (chars content))).
Qed.

Lemma bundleFromDir_ok {W} (os : platform W) dir md checksum w bundle w' : is_sha256_hex checksum = true ->
  bundleFromDir os dir md checksum w = (inr bundle, w') ->
  bundle_ok bundle /\ bundle.(BdVersion) = md.(MdVersion) /\ bundle.(BdTestCount) = md.(MdTestCount)
  /\ Z.of_nat (length bundle.(BdTestCases)) = md.(MdTestCount).
Proof.
  intros HC H. apply bind_inr_inv in H as (tests & w1 & HL & H). injection H as <- _. cbn.
  apply loadFromDir_ok in HL as (inputs & C & HL & _). split; [|done]. constructor; [by eapply cases_positive|done].
Qed.

Lemma verified_valid {W} (os : platform W) dir w c w' : verifiedCachedChecksum os dir w = (inr (Some c), w') ->
  is_sha256_hex c = true.
Proof.
  unfold verifiedCachedChecksum. intros H. apply bind_inr_inv in H as ([e|text] & w1 & _ & H); [discriminate|].
  destruct (is_sha256_hex (TrimSpace text)) eqn:E; [|discriminate]. cbn [negb] in H.
  apply bind_inr_inv in H as ([e|actual] & w2 & _ & H); [discriminate|]. unfold ret in H. case_bool_decide; by simplify_eq.
Qed.

Lemma download_valid {W} (os : platform W) l url dest w c w' : downloadToFile os l url dest w = (inr c, w') ->
  is_sha256_hex c = true.
Proof.
  unfold downloadToFile. destruct (BadURL os url); [discriminate|]. intros H.
  apply bind_inr_inv in H as (resp & w1 & _ & H). destruct (_ || _); [discriminate|]. run_inv H.
  destruct (BodyError resp); [discriminate|]. destruct (_ <? _); [discriminate|]. injection H as <- _. apply sha256_hex_valid.
Qed.

Lemma Load_ok {W} (os : platform W) l md w bundle w' : Load os l md w = (inr bundle, w') ->
  bundle_ok bundle /\ bundle.(BdVersion) = md.(MdVersion) /\ bundle.(BdTestCount) = md.(MdTestCount)
  /\ Z.of_nat (length bundle.(BdTestCases)) = md.(MdTestCount) /\ 0 < md.(MdProblemID) /\ 0 < md.(MdVersion)
  /\ exists checksum w0 w1, bundleFromDir os (cache_dir l md) md checksum w0 = (inr bundle, w1).
Proof.
  unfold Load. destruct (validateMetadata md) eqn:EV; [discriminate|].
  assert (0 < MdProblemID md /\ 0 < MdVersion md) as [HP HV].
  { unfold validateMetadata in EV. destruct (Z.leb_spec (MdProblemID md) 0); [done|]. destruct (blank _); [done|].
    destruct (Z.leb_spec (MdTestCount md) 0); [done|]. destruct (Z.leb_spec (MdVersion md) 0); done. }
  assert (forall c w0 w1, is_sha256_hex c = true -> bundleFromDir os (cache_dir l md) md c w0 = (inr bundle, w1) ->
    bundle_ok bundle /\ bundle.(BdVersion) = md.(MdVersion) /\ bundle.(BdTestCount) = md.(MdTestCount)
    /\ Z.of_nat (length bundle.(BdTestCases)) = md.(MdTestCount) /\ 0 < md.(MdProblemID) /\ 0 < md.(MdVersion)
    /\ exists checksum w0 w1, bundleFromDir os (cache_dir l md) md checksum w0 = (inr bundle, w1)) as K.
  { intros c w0 w1 HC HB. destruct (bundleFromDir_ok _ _ _ _ _ _ _ HC HB) as (B1 & B2 & B3 & B4).
    split_and!; try done. by exists c, w0, w1. }
  intros H. apply bind_inr_inv in H as (v & w1 & _ & H). apply bind_inr_inv in H as (hit & w2 & E & H).
  destruct hit as [c|].
  - eapply K; [|exact H]. destruct v as [e|v]; [discriminate|]. case_bool_decide; [|discriminate]. by apply verified_valid in E.
  - unfold refresh in H. apply bind_inr_inv in H as (r6 & w3 & _ & H). apply bind_inr_inv in H as (c & w4 & HD & H).
    apply on_error_inr, download_valid in HD. unfold finally in H. destruct (bind _ _ w4) as [r w5] eqn:EB.
    injection H as -> _. run_inv EB. by eapply K.
Qed.

#[export] Instance Load_LoaderLaws {W} (os : platform W) l : LoaderLaws (Load os l).
Proof. constructor. intros md w bundle w' H. by apply Load_ok in H as [H _]. Qed.

(** ** Extraction *)

Section Extraction.
Context {W : Type} (os : platform W) (l : loader) (created : W -> list string).

(** The files created so far; creating one may fail. *)
Class CreateLaws := {
  cl_create : forall p w r w', os.(Create) p w = (r, w') -> created w' = created w ++ [p] \/ created w' = created w;
  cl_write : forall p c, keeps created (os.(Write) p c);
  cl_zip : forall p, keeps created (os.(OpenZip) p);
}.

(** Whatever the archive says, only files inside the destination are created,
    each with the name of a testcase file. *)
Definition inside (destDir : string) (p : string) : Prop :=
  exists name d b, testcase_file name = Some (d, b) /\ p = join destDir name
    /\ isContainedPath (chars destDir) (chars p) = true.

Lemma extract_inside {L : CreateLaws} destDir extracted entries w r w' : IsAbs (chars destDir) = true ->
  extract_entries os l destDir extracted entries w = (r, w') ->
  exists ps, created w' = created w ++ ps /\ Forall (inside destDir) ps.
Proof.
  intros HA. assert (forall w, exists ps, created w = created w ++ ps /\ Forall (inside destDir) ps) as Same.
  { intros w0. exists []. by rewrite app_nil_r. }
  revert extracted w r w'. induction entries as [|f rest IH]; intros extracted w r w'; cbn [extract_entries].
  { intros [= <- <-]. apply Same. }
  destruct (ZIsDir f); [by apply IH|]. destruct (ZIsSymlink f); [intros [= <- <-]; apply Same|].
  destruct (escapes _); [intros [= <- <-]; apply Same|]. set (base := str (Base _)).
  destruct (testcase_file base) as [[d b]|] eqn:ET; [|by apply IH]. destruct (_ <? _); [intros [= <- <-]; apply Same|].
  destruct (ZOpen f) as [e|[content readError]]; [intros [= <- <-]; apply Same|].
  assert (inside destDir (join destDir base)) as HI.
  { exists base, d, b. split_and!; [done|done|]. unfold join. rewrite chars_str. apply Join_contained; [done|].
    by eapply testcase_file_down. }
  assert (forall w1, created w1 = created w ++ [join destDir base] \/ created w1 = created w ->
    exists ps, created w1 = created w ++ ps /\ Forall (inside destDir) ps) as One.
  { intros w1 [-> | ->]; [exists [join destDir base]; by repeat constructor|exists []; by rewrite app_nil_r]. }
  unfold bind at 1, on_error at 1. destruct (Create os _ w) as [[e|u] w1] eqn:EC; apply cl_create in EC;
    [intros [= <- <-]; by apply One|].
  unfold bind at 1. destruct (on_error _ _ w1) as [[e|u'] w2] eqn:EW.
  - intros [= <- <-]. apply One. apply on_error_inl_inv in EW as (e0 & _ & EW).
    assert (created w2 = created w1) as ->; [|done].
    apply bind_inl_inv in EW as [EW|([] & w3 & EW & EW2)]; apply cl_write in EW; [done|].
    rewrite <- EW. destruct readError; by injection EW2 as _ <-.
  - apply on_error_inr in EW. apply bind_inr_inv in EW as ([] & w3 & EW & EW2). apply cl_write in EW.
    destruct readError; [discriminate|]. injection EW2 as _ <-. intros H. apply IH in H as (ps & -> & HF).
    rewrite EW. destruct (One w1 EC) as (qs & -> & HQ). exists (qs ++ ps). rewrite app_assoc. split; [done|]. by apply Forall_app.
Qed.
End Extraction.

(** The announced sizes of the entries that are extracted. *)
Definition is_case (f : zip_entry) : bool :=
  negb f.(ZIsDir) && bool_decide (is_Some (testcase_file (str (Base (Clean (chars f.(ZName))))))).
Definition announced (entries : list zip_entry) : Z := sum_by UncompressedSize64 (filter (fun f => is_case f = true) entries).

Lemma announced_cons f rest : announced (f :: rest) = (if is_case f then f.(UncompressedSize64) else 0) + announced rest.
Proof. unfold announced. rewrite filter_cons. case_decide as D; [by rewrite D|]. by apply not_true_is_false in D as ->. Qed.

(** The limit holds for archives whose entries announce less than 2^62 bytes
    each ... *)
Lemma extract_bound {W} (os : platform W) l destDir extracted entries w w' :
  0 <= extracted <= l.(maxExtractedBytes) -> l.(maxExtractedBytes) < 2 ^ 62 ->
  Forall (fun f => 0 <= f.(UncompressedSize64) < 2 ^ 62) entries ->
  extract_entries os l destDir extracted entries w = (inr tt, w') -> extracted + announced entries <= l.(maxExtractedBytes).
Proof.
  intros HE HM HF. revert extracted w HE. induction HF as [|f rest Hf HF IH]; intros extracted w HE; cbn [extract_entries].
  - intros _. unfold announced. cbn. lia.
  - rewrite announced_cons. unfold is_case. destruct (ZIsDir f); cbn [negb andb].
    { apply (IH extracted w HE). }
    destruct (ZIsSymlink f); [discriminate|]. destruct (escapes _); [discriminate|].
    destruct (testcase_file _) as [[d b]|] eqn:ET.
    + rewrite bool_decide_eq_true_2 by eauto.
      assert (wrap64 (extracted + wrap64 (UncompressedSize64 f)) = extracted + UncompressedSize64 f) as ->.
      { rewrite (wrap64_id (UncompressedSize64 f)) by (unfold in_int64, int64_min, int64_max; lia).
        apply wrap64_id. unfold in_int64, int64_min, int64_max. lia. }
      destruct (Z.ltb_spec (maxExtractedBytes l) (extracted + UncompressedSize64 f)); [discriminate|].
      destruct (ZOpen f) as [e|[content readError]]; [discriminate|]. intros Hr. run_inv Hr. apply IH in Hr; lia.
    + rewrite bool_decide_eq_false_2 by (by intros [? ?]). apply (IH extracted w HE).
Qed.

(** ... but an entry that announces 2^63 bytes or more counts as negative and
    passes the limit. *)
Lemma extract_overflow_run {W} (os : platform W) l destDir w content : 0 <= l.(maxExtractedBytes) ->
  let f := mkZip "1.in" false false (2 ^ 63) (inr (content, None)) in
  extract_entries os l destDir 0 [f] w = extract_entries os l destDir 0 [mkZip "1.in" false false 0 (inr (content, None))] w.
Proof.
  intros HM. cbn [extract_entries ZIsDir ZIsSymlink ZName UncompressedSize64 ZOpen].
  assert (wrap64 (0 + wrap64 (2 ^ 63)) = - 2 ^ 63) as -> by reflexivity.
  assert (wrap64 (0 + wrap64 0) = 0) as -> by reflexivity.
  destruct (Z.ltb_spec (maxExtractedBytes l) (- 2 ^ 63)); [lia|]. destruct (Z.ltb_spec (maxExtractedBytes l) 0); [lia|]. done.
Qed.

(** ** What loading leaves alone *)

Section Quiet.
Context {W X : Type} (os : platform W) (l : loader) (view : W -> X).

Class QuietPlatform := {
  qp_read : forall p, keeps view (os.(ReadFile) p);
  qp_writefile : forall p c, keeps view (os.(WriteFile) p c);
  qp_create : forall p, keeps view (os.(Create) p);
  qp_write : forall p c, keeps view (os.(Write) p c);
  qp_readdir : forall p, keeps view (os.(ReadDir) p);
  qp_mkdir : forall p, keeps view (os.(MkdirAll) p);
  qp_remove : forall p, keeps view (os.(Remove) p);
  qp_removeall : forall p, keeps view (os.(RemoveAll) p);
  qp_rename : forall a b, keeps view (os.(Rename) a b);
  qp_zip : forall p, keeps view (os.(OpenZip) p);
  qp_get : forall u, keeps view (os.(Get) u);
  qp_rand : forall n, keeps view (os.(randHex) n);
}.
Context {QP : QuietPlatform}.

Lemma keeps_finally {A} (m : M W A) f : keeps view m -> keeps view f -> keeps view (finally m f).
Proof.
  intros Hm Hf w r w'. unfold finally. destruct (m w) as [x w1] eqn:E. intros [= _ <-].
  destruct (f w1) as [y w2] eqn:E2. cbn. rewrite (Hf _ _ _ E2). eauto.
Qed.
Lemma keeps_on_failure {A} (m : M W A) f : keeps view m -> keeps view f -> keeps view (on_failure m f).
Proof.
  intros Hm Hf w r w'. unfold on_failure. destruct (m w) as [[e|a] w1] eqn:E; intros [= _ <-]; [|eauto].
  destruct (f w1) as [y w2] eqn:E2. cbn. rewrite (Hf _ _ _ E2). eauto.
Qed.

#[local] Hint Resolve qp_read qp_writefile qp_create qp_write qp_readdir qp_mkdir qp_remove qp_removeall qp_rename qp_zip
  qp_get qp_rand keeps_on_error keeps_try keeps_finally keeps_on_failure : judge.
Ltac quiet := repeat (apply keeps_bind; [auto 6 with judge|intros ?]); auto 6 with judge.

Lemma quiet_read_cases inputs outputs n idx : keeps view (read_cases os inputs outputs n idx).
Proof using QP. revert n. induction idx as [|i idx IH]; intros n; cbn [read_cases]; [apply keeps_ret|]. quiet. Qed.

Lemma quiet_loadFromDir dir n : keeps view (loadFromDir os dir n).
Proof using QP.
  unfold loadFromDir. apply keeps_bind; [auto with judge|]. intros entries. destruct (classify _ _ _ _) as [e|[a b]]; [apply keeps_fail|].
  destruct (pair_files _ _ _); [apply keeps_fail|apply quiet_read_cases].
Qed.

Lemma quiet_bundle dir md c : keeps view (bundleFromDir os dir md c).
Proof using QP. apply keeps_bind; [apply quiet_loadFromDir|]. intros t. apply keeps_ret. Qed.

Lemma quiet_verified dir : keeps view (verifiedCachedChecksum os dir).
Proof using QP.
  apply keeps_bind; [auto with judge|]. intros [e|t]; [apply keeps_ret|]. cbv zeta. destruct (negb _); [apply keeps_ret|].
  apply keeps_bind; [apply keeps_try; unfold sha256File; quiet|]. intros [e|a]; apply keeps_ret.
Qed.

Lemma quiet_download url dest : keeps view (downloadToFile os l url dest).
Proof using QP.
  unfold downloadToFile. destruct (BadURL os url); [apply keeps_fail|]. apply keeps_bind; [auto with judge|]. intros resp.
  destruct (_ || _); [apply keeps_fail|]. quiet. destruct (BodyError resp); [apply keeps_fail|].
  destruct (_ <? _); [apply keeps_fail|apply keeps_ret].
Qed.

Lemma quiet_extract dest n entries : keeps view (extract_entries os l dest n entries).
Proof using QP.
  revert n. induction entries as [|f rest IH]; intros n; cbn [extract_entries]; [apply keeps_ret|].
  destruct (ZIsDir f); [done|]. destruct (ZIsSymlink f); [apply keeps_fail|]. destruct (escapes _); [apply keeps_fail|].
  destruct (testcase_file _); [|done]. destruct (_ <? _); [apply keeps_fail|]. destruct (ZOpen f) as [e|[c re]]; [apply keeps_fail|].
  quiet. apply keeps_on_error. quiet. destruct re; [apply keeps_fail|apply keeps_ret].
Qed.

Lemma quiet_promote md zip tmp c : keeps view (promote os l md zip tmp c).
Proof using QP.
  unfold promote. apply keeps_bind; [apply keeps_on_error; unfold extractZip; quiet; apply quiet_extract|]. intros _.
  apply keeps_bind; [apply quiet_loadFromDir|]. intros _.
  do 3 (apply keeps_bind; [apply keeps_on_error; unfold copyFileAtomic, writeFileAtomic; quiet; apply keeps_on_failure; quiet|intros _]).
  quiet.
Qed.

(** Loading a dataset works on its files and the network only. *)
Lemma Load_quiet md : keeps view (Load os l md).
Proof using QP.
  unfold Load. destruct (validateMetadata md); [apply keeps_fail|]. apply keeps_bind; [auto with judge|]. intros v.
  apply keeps_bind.
  - destruct v; [apply keeps_ret|]. case_bool_decide; [apply quiet_verified|apply keeps_ret].
  - intros [c|]; [apply quiet_bundle|]. unfold refresh. apply keeps_bind; [auto with judge|]. intros r6.
    apply keeps_bind; [apply keeps_on_error, quiet_download|]. intros c. apply keeps_finally; [|auto with judge].
    apply keeps_bind; [auto with judge|]. intros r8. apply keeps_bind; [auto with judge|]. intros _.
    apply keeps_bind; [apply keeps_on_failure; [apply quiet_promote|auto with judge]|]. intros _. apply quiet_bundle.
Qed.
End Quiet.
