(* ===== verification/KafkaConsumers.v ===== *)
(** The Kafka consumers of the worker and of the submission service with their
    dead letter publishers:
    workers/judge/internal/adapter/inbound/kafka (judge_job_consumer.go,
    dlt_publisher.go) and services/submission/internal/adapter/inbound/kafka
    (judge_result_consumer.go, dlt_publisher.go).

    Parameters: the consumer session (Kafka), the use case, the JSON decoder of
    the payload and [json.Marshal] of a raw message. *)

From S2P Require Import Prelude GoString GoError GoMonad GoTime SubmissionDomain.

(** ** Messages *)

Record ConsumerMessage := mkConsumer {
  CmTopic : string;
  CmPartition : Z;
  CmOffset : Z;
  CmKey : string;
  CmValue : string;
}.

Definition dlt_topic (configured : string) : string :=
  if blank configured then "judge.submission.dlt" else TrimSpace configured.

(** [json.Marshal] of a [DLTMessage]; [compact] is the encoding of the raw
    value, which fails when the value is no JSON. *)
Definition marshal_dlt (compact : string -> error + bytes) (m : ConsumerMessage) (errMsg : string) (retryCount : Z)
  : error + string :=
  match compact m.(CmValue) with
  | inl e => inl e
  | inr value =>
      inr (str (json_object
        [("original_topic", Some (json_string m.(CmTopic))); ("original_partition", Some (json_int m.(CmPartition)));
         ("original_offset", Some (json_int m.(CmOffset))); ("original_key", Some (json_string m.(CmKey)));
         ("original_value", Some value); ("error_message", Some (json_string errMsg));
         ("retry_count", Some (json_int retryCount))]%string))
  end.

(** [DLTPublisher.Publish] *)
Definition dlt_Publish {W} (compact : string -> error + bytes) (SendMessage : ProducerMessage -> M W (Z * Z)) (topic : string)
    (m : ConsumerMessage) (errMsg : string) (retryCount : Z) : M W unit :=
  match marshal_dlt compact m errMsg retryCount with
  | inl e => fail (EWrap "marshal DLT payload" e)
  | inr value =>
      let* _ := on_error (EWrap "publish to DLT") (SendMessage (mkProducer topic m.(CmKey) value)) in ret tt
  end.

(** ** Handling one message *)

(** The session of a consumer group.  [Done] is [session.Context().Err() !=
    nil]; [Wait] is the select between the timer and the context, [true] when
    the timer fired; [AcquireSlot] the select between a free job slot and the
    context. *)
Record Session (W : Type) := mkSession {
  Done : W -> bool;
  MarkMessage : ConsumerMessage -> string -> W -> W;
  Wait : Z -> W -> bool * W;
  AcquireSlot : W -> bool * W;
  ReleaseSlot : W -> W;
}.
Arguments Done {W}.
Arguments MarkMessage {W}.
Arguments Wait {W}.
Arguments AcquireSlot {W}.
Arguments ReleaseSlot {W}.

Definition defaultMaxRetries : Z := 3.
Definition defaultRetryBaseWait : Z := 500 * 1000000.
Definition backoff (attempt : Z) : Z := defaultRetryBaseWait * Z.shiftl 1 (attempt - 1).

Section Handlers.
Context {W P : Type} (session : Session W) (Unmarshal : string -> error + P) (Execute : P -> M W unit).
(** The dead letter publisher, if one is configured. *)
Context (dlt : option (ConsumerMessage -> string -> Z -> M W unit)).

Definition sendToDLT (m : ConsumerMessage) (errMsg : string) (retryCount : Z) (w : W) : W :=
  match dlt with None => w | Some publish => (publish m errMsg retryCount w).2 end.

(** What both handlers do with a message that is given up. *)
Definition dead_letter (m : ConsumerMessage) (errMsg : string) (retryCount : Z) (metadata : string) (w : W) : W :=
  session.(MarkMessage) m metadata (sendToDLT m errMsg retryCount w).

(** The retry loop: [n] attempts are left after [attempt]; [permanent] tells
    the errors that are not retried ([no error] for the worker). *)
Fixpoint retry_loop (maxRetries : Z) (permanent : error -> bool) (m : ConsumerMessage) (payload : P) (n : nat)
    (attempt : Z) (w : W) : W :=
  match Execute payload w with
  | (inr _, w) => session.(MarkMessage) m "processed" w
  | (inl err, w) =>
      if permanent err then dead_letter m (error_text err) (attempt - 1) "non_retryable_dlt" w
      else if session.(Done) w then w
      else
        match n with
        | O => dead_letter m (error_text err) maxRetries "dlt_forwarded" w
        | S n =>
            let '(fired, w) := session.(Wait) (backoff attempt) w in
            if fired then retry_loop maxRetries permanent m payload n (attempt + 1) w else w
        end
  end.

Definition handlePayload (permanent : error -> bool) (m : ConsumerMessage) (w : W) : W :=
  match Unmarshal m.(CmValue) with
  | inl err => dead_letter m (error_text err) 0 "invalid_payload_dlt" w
  | inr payload => retry_loop defaultMaxRetries permanent m payload (Z.to_nat (defaultMaxRetries - 1)) 1 w
  end.

(** [judgeJobHandler.handleMessage] *)
Definition job_handleMessage (m : ConsumerMessage) (w : W) : W :=
  let '(ok, w) := session.(AcquireSlot) w in
  if ok then session.(ReleaseSlot) (handlePayload (fun _ => false) m w) else w.

(** [judgeResultHandler.handleMessage] *)
Definition isNonRetryableJudgeResultError (err : error) : bool :=
  errors_Is err ErrInvalidJudgeResult || errors_Is err ErrInvalidSubmissionStatus || errors_Is err ErrSubmissionNotFound.
Definition result_handleMessage (m : ConsumerMessage) (w : W) : W :=
  handlePayload isNonRetryableJudgeResultError m w.

(** [judgeResultHandler.ConsumeClaim]: one message after the other. *)
Fixpoint result_ConsumeClaim (messages : list ConsumerMessage) (w : W) : W :=
  match messages with
  | [] => w
  | m :: rest => if session.(Done) w then w else result_ConsumeClaim rest (result_handleMessage m w)
  end.
End Handlers.

(** ** Starting a consumer *)

Definition job_topic (configured : string) : string :=
  if blank configured then "judge.submission.jobs" else TrimSpace configured.
Definition result_consumer_topic (configured : string) : string :=
  if blank configured then "judge.submission.results" else TrimSpace configured.

(** [NewJudgeJobConsumer]: [WORKER_POOL_SIZE], and what [ConsumeClaim] makes of it. *)
Definition configured_pool_size (WORKER_POOL_SIZE : string) : Z :=
  if bool_decide (WORKER_POOL_SIZE = ""%string) then 4
  else match ParseInt WORKER_POOL_SIZE with Some ps => if 0 <? ps then ps else 4 | None => 4 end.
Definition claim_pool_size (poolSize : Z) : Z := if poolSize <=? 0 then 4 else poolSize.

(** [Run] and [Start]: one session of the group after the other until the
    context ends.  [Consume] is the consumer group of sarama, [ctx_done] tells
    [ctx.Err() != nil]; the result is that of at most [fuel] sessions. *)
Fixpoint Run {W} (Consume : M W unit) (ctx_done : W -> bool) (fuel : nat) (w : W) : option (option error * W) :=
  match fuel with
  | O => None
  | S fuel =>
      match Consume w with
      | (inl err, w) => if errors_Is err context_Canceled then Some (None, w) else Some (Some err, w)
      | (inr _, w) => if ctx_done w then Some (None, w) else Run Consume ctx_done fuel w
      end
  end.

(** The world after [n] sessions that ended without an error. *)
Fixpoint sessions {W} (Consume : M W unit) (n : nat) (w : W) : option W :=
  match n with
  | O => Some w
  | S n => match Consume w with (inr _, w) => sessions Consume n w | (inl _, _) => None end
  end.

(** A consumer that is told to stop does: once the context is done after some
    session, [Run] has returned, at that session or an earlier one. *)
Lemma Run_stops {W} (Consume : M W unit) ctx_done n w w' : sessions Consume (S n) w = Some w' -> ctx_done w' = true ->
  exists m w1, (m <= n)%nat /\ sessions Consume (S m) w = Some w1 /\ ctx_done w1 = true
  /\ Run Consume ctx_done (S n) w = Some (None, w1).
Proof.
  revert w. induction n as [|n IH]; intros w; cbn [sessions Run]; destruct (Consume w) as [[e|u] w0] eqn:E; try done.
  - intros [= <-] Hd. exists 0%nat, w0. rewrite Hd. done.
  - intros H Hd. destruct (ctx_done w0) eqn:D.
    + exists 0%nat, w0. split_and!; [lia|done..].
    + destruct (IH w0 H Hd) as (m & w1 & H1 & H2 & H3 & H4). exists (S m), w1. split_and!; [lia|exact H2|done|exact H4].
Qed.

(** It gives up only on an error of the group that is no cancellation. *)
Lemma Run_error {W} (Consume : M W unit) ctx_done fuel w err w' : Run Consume ctx_done fuel w = Some (Some err, w') ->
  errors_Is err context_Canceled = false /\ exists n w1, sessions Consume n w = Some w1 /\ Consume w1 = (inl err, w').
Proof.
  revert w. induction fuel as [|fuel IH]; intros w; cbn [Run]; [done|]. destruct (Consume w) as [[e|u] w0] eqn:E.
  - destruct (errors_Is e context_Canceled) eqn:EC; [done|]. intros [= -> ->]. split; [done|]. by exists 0%nat, w.
  - destruct (ctx_done w0); [done|]. intros (H1 & n & w1 & H2 & H3)%IH. split; [done|]. exists (S n), w1. cbn. by rewrite E.
Qed.

Lemma pool_size_positive env : 0 < claim_pool_size (configured_pool_size env).
Proof.
  unfold configured_pool_size. case_bool_decide; [done|]. destruct (ParseInt env) as [ps|]; [|done].
  destruct (Z.ltb_spec 0 ps); [|done]. unfold claim_pool_size. by destruct (Z.leb_spec ps 0); lia.
Qed.

(** ** What a handler does to a message *)

(** The session as its client sees it: [marks] are the messages marked so far,
    [runs] how often the use case ran.  A session that is done stays done. *)
Class SessionLaws {W P} (session : Session W) (Execute : P -> M W unit)
    (dlt : option (ConsumerMessage -> string -> Z -> M W unit))
    (marks : W -> list (ConsumerMessage * string)) (runs : W -> nat) := {
  sl_mark : forall m t w, marks (session.(MarkMessage) m t w) = marks w ++ [(m, t)]
    /\ runs (session.(MarkMessage) m t w) = runs w
    /\ session.(Done) (session.(MarkMessage) m t w) = session.(Done) w;
  sl_wait : forall d w, let '(fired, w') := session.(Wait) d w in
    marks w' = marks w /\ runs w' = runs w /\ (session.(Done) w = true -> session.(Done) w' = true)
    /\ (fired = false -> session.(Done) w' = true);
  sl_slot : forall w, let '(ok, w') := session.(AcquireSlot) w in
    marks w' = marks w /\ runs w' = runs w /\ (session.(Done) w = true -> session.(Done) w' = true)
    /\ (ok = false -> session.(Done) w' = true);
  sl_release : forall w, marks (session.(ReleaseSlot) w) = marks w /\ runs (session.(ReleaseSlot) w) = runs w
    /\ (session.(Done) w = true -> session.(Done) (session.(ReleaseSlot) w) = true);
  sl_execute : forall p w r w', Execute p w = (r, w') ->
    marks w' = marks w /\ runs w' = S (runs w) /\ (session.(Done) w = true -> session.(Done) w' = true);
  sl_dlt : forall publish m e n w, dlt = Some publish -> let w' := (publish m e n w).2 in
    marks w' = marks w /\ runs w' = runs w /\ (session.(Done) w = true -> session.(Done) w' = true);
}.

Section Facts.
Context {W P : Type} (session : Session W) (Unmarshal : string -> error + P) (Execute : P -> M W unit).
Context (dlt : option (ConsumerMessage -> string -> Z -> M W unit)).
Context (marks : W -> list (ConsumerMessage * string)) (runs : W -> nat).
Context {L : SessionLaws session Execute dlt marks runs}.

(** Either the message is marked, once, or it is left unmarked and the session
    is over; the use case ran at most [n] times. *)
Definition handled (m : ConsumerMessage) (n : nat) (w w' : W) : Prop :=
  ((exists t, marks w' = marks w ++ [(m, t)]) \/ (marks w' = marks w /\ session.(Done) w' = true))
  /\ (runs w <= runs w' <= runs w + n)%nat /\ (session.(Done) w = true -> session.(Done) w' = true).

Lemma handled_later m n k n' w w1 w' : handled m n w1 w' -> marks w1 = marks w -> (runs w <= runs w1 <= runs w + k)%nat ->
  (session.(Done) w = true -> session.(Done) w1 = true) -> (k + n <= n')%nat -> handled m n' w w'.
Proof.
  intros (H1 & H2 & H3) EM ER ED Hn. rewrite EM in H1. split_and!; [done|lia|lia|auto].
Qed.

Lemma handled_mark m t w : handled m 0 w (session.(MarkMessage) m t w).
Proof using L. destruct (sl_mark m t w) as (M1 & M2 & M3). split_and!; [left; eauto|lia|lia|by rewrite M3]. Qed.

Lemma sendToDLT_quiet m e n w : let w' := sendToDLT dlt m e n w in
  marks w' = marks w /\ runs w' = runs w /\ (session.(Done) w = true -> session.(Done) w' = true).
Proof using L.
  unfold sendToDLT. pose proof (fun publish => sl_dlt publish m e n w) as H. clear L. destruct dlt as [p|]; [by apply H|done].
Qed.

Lemma handled_dead_letter m e n t w : handled m 0 w (dead_letter session dlt m e n t w).
Proof using L.
  unfold dead_letter. destruct (sendToDLT_quiet m e n w) as (D1 & D2 & D3).
  apply (handled_later m 0 0 0 w _ _ (handled_mark m t _)); [done|lia|done|lia].
Qed.

Lemma handled_stop m w : session.(Done) w = true -> handled m 0 w w.
Proof. intros H. split_and!; [by right|lia|lia|done]. Qed.

Lemma retry_loop_handled maxRetries permanent m payload n attempt w :
  handled m (S n) w (retry_loop session Execute dlt maxRetries permanent m payload n attempt w).
Proof using L.
  assert (forall n' w1, marks w1 = marks w -> runs w1 = S (runs w) -> (session.(Done) w = true -> session.(Done) w1 = true) ->
    forall w', handled m n' w1 w' -> handled m (S n') w w') as Next.
  { intros n' w1 E1 E2 E3 w' H. apply (handled_later m n' 1 (S n') w w1); [done|done|lia|done|lia]. }
  assert (forall n' w1 w', handled m 0 w1 w' -> handled m n' w1 w') as Weaken.
  { intros n' w1 w' H. apply (handled_later m 0 0 n' w1 w1); [done|done|lia|done|lia]. }
  revert attempt w Next. induction n as [|n IH]; intros attempt w Next; cbn [retry_loop];
    destruct (Execute payload w) as [[err|u] w1] eqn:E; destruct (sl_execute _ _ _ _ E) as (E1 & E2 & E3);
    apply (Next _ w1 E1 E2 E3); try apply Weaken, handled_mark;
    (destruct (permanent err); [apply Weaken, handled_dead_letter|]);
    (destruct (Done session w1) eqn:ED in |- *; [apply Weaken; by apply handled_stop|]).
  - apply handled_dead_letter.
  - pose proof (sl_wait (session := session) (backoff attempt) w1) as HW.
    destruct (Wait session (backoff attempt) w1) as [fired w2]. destruct HW as (H1 & H2 & H3 & H4). destruct fired.
    + apply (handled_later m (S n) 0 (S n) w1 w2); [|done|lia|auto|lia]. apply IH.
      intros n' w3 F1 F2 F3 w' H. apply (handled_later m n' 1 (S n') w2 w3); [done|done|lia|done|lia].
    + apply (handled_later m 0 0 (S n) w1 w2); [apply handled_stop; by apply H4|done|lia|done|lia].
Qed.

Lemma handlePayload_handled permanent m w : handled m 3 w (handlePayload session Unmarshal Execute dlt permanent m w).
Proof using L.
  unfold handlePayload. destruct (Unmarshal (CmValue m)) as [err|p].
  - apply (handled_later m 0 0 3 w w); [apply handled_dead_letter|done|lia|done|lia].
  - apply (retry_loop_handled defaultMaxRetries permanent m p 2 1 w).
Qed.

Lemma job_handled m w : handled m 3 w (job_handleMessage session Unmarshal Execute dlt m w).
Proof using L.
  unfold job_handleMessage. pose proof (sl_slot (session := session) w) as HS. destruct (AcquireSlot session w) as [ok w1].
  destruct HS as (S1 & S2 & S3 & S4). destruct ok.
  - pose proof (handlePayload_handled (fun _ => false) m w1) as (H1 & H2 & H3). set (w2 := handlePayload _ _ _ _ _ _ _) in *.
    destruct (sl_release w2) as (R1 & R2 & R3). unfold handled. rewrite R1, R2, <- S1, <- S2. split_and!; [|lia|lia|auto].
    destruct H1 as [H1|[H1 H1']]; [by left|right; auto].
  - split_and!; [right; auto|lia|lia|auto].
Qed.

(** One claim: the marked messages are a prefix of it, in order, and the whole
    of it unless the session ends. *)
Lemma result_claim_prefix messages w : exists k tags, let w' := result_ConsumeClaim session Unmarshal Execute dlt messages w in
  marks w' = marks w ++ zip (take k messages) tags /\ length tags = length (take k messages)
  /\ ((length messages <= k)%nat \/ session.(Done) w' = true)
  /\ (runs w' <= runs w + 3 * S k)%nat.
Proof using L.
  revert w. induction messages as [|m rest IH]; intros w; cbn [result_ConsumeClaim].
  { exists 0%nat, []. cbn. rewrite app_nil_r. split_and!; [done|done|left; lia|lia]. }
  destruct (Done session w) eqn:ED.
  { exists 0%nat, []. cbn. rewrite app_nil_r. split_and!; [done|done|by right|lia]. }
  destruct (handlePayload_handled isNonRetryableJudgeResultError m w) as ([[t H1]|[H1 H2]] & H3 & _).
  - fold (result_handleMessage session Unmarshal Execute dlt m w) in *. destruct (IH (result_handleMessage session Unmarshal Execute dlt m w)) as (k & tags & I1 & I2 & I3 & I4).
    exists (S k), (t :: tags). cbn in *. rewrite I1, H1, <- app_assoc. split_and!; [done|by rewrite I2| |lia].
    destruct I3; [left; lia|by right].
  - fold (result_handleMessage session Unmarshal Execute dlt m w) in *. set (w1 := result_handleMessage _ _ _ _ m w) in *.
    exists 0%nat, []. cbn. rewrite app_nil_r.
    assert (result_ConsumeClaim session Unmarshal Execute dlt rest w1 = w1) as -> by (destruct rest; cbn; [done|by rewrite H2]).
    split_and!; [done|done|by right|lia].
Qed.
End Facts.

(** A message that is no JSON cannot be encoded for the dead letter topic
    either: it is marked and nothing is sent. *)
Lemma invalid_payload_run {W P} (session : Session W) (Unmarshal : string -> error + P) Execute compact Send topic permanent
    (m : ConsumerMessage) (w : W) e e' : Unmarshal m.(CmValue) = inl e -> compact m.(CmValue) = inl e' ->
  handlePayload session Unmarshal Execute (Some (dlt_Publish compact Send topic)) permanent m w
  = session.(MarkMessage) m "invalid_payload_dlt" w.
Proof.
  intros H1 H2. unfold handlePayload. rewrite H1. unfold dead_letter, sendToDLT, dlt_Publish, marshal_dlt. by rewrite H2.
Qed.

(** ** The worker pool *)

(** One claim of the worker: the messages still to be read, those the pool
    holds, those that were left unmarked, and the offset the session commits.
    [MarkMessage] keeps the largest marked offset plus one. *)
Record claim := mkClaim {
  unread : list ConsumerMessage;
  inflight : list ConsumerMessage;
  unmarked : list ConsumerMessage;
  done_msgs : list ConsumerMessage;
  over : bool;
  committed : Z;
}.

(** [judgeJobHandler.ConsumeClaim]: the dispatcher hands messages over an
    unbuffered channel to [poolSize] workers, each of which runs
    [handleMessage]; by [job_handled] a message ends marked, or unmarked when
    the session is over.  The end of the session does not stop the rest: the
    selects of the dispatcher and of [acquireJobSlot] take either branch when
    both are ready, and a message that is dispatched then may still be marked
    (its payload is invalid, or the use case returns without an error). *)
Inductive pool_step (poolSize : nat) : claim -> claim -> Prop :=
| pool_dispatch m u i k d o c : (length i < poolSize)%nat ->
    pool_step poolSize (mkClaim (m :: u) i k d o c) (mkClaim u (m :: i) k d o c)
| pool_mark m u i i' k d o c : i ≡ₚ m :: i' ->
    pool_step poolSize (mkClaim u i k d o c) (mkClaim u i' k (m :: d) o (Z.max c (m.(CmOffset) + 1)))
| pool_leave m u i i' k d c : i ≡ₚ m :: i' ->
    pool_step poolSize (mkClaim u i k d true c) (mkClaim u i' (m :: k) d true c)
| pool_over u i k d o c : pool_step poolSize (mkClaim u i k d o c) (mkClaim u i k d true c).

Definition fresh_claim (messages : list ConsumerMessage) (start : Z) : claim := mkClaim messages [] [] [] false start.

(** A message is lost when the committed offset has passed it although it was
    not handled to the end. *)
Definition lost (s : claim) (m : ConsumerMessage) : Prop :=
  (m ∈ s.(inflight) \/ m ∈ s.(unmarked)) /\ m.(CmOffset) < s.(committed).

Definition ascending : list ConsumerMessage -> Prop := StronglySorted (fun a b => a.(CmOffset) < b.(CmOffset)).

(** One worker: the messages it holds or has still to read are not passed. *)
Record single (s : claim) : Prop := {
  sg_one : (length s.(inflight) <= 1)%nat;
  sg_left : s.(over) = false -> s.(unmarked) = [];
  sg_order : ascending (s.(inflight) ++ s.(unread));
  sg_bound : Forall (fun m => s.(committed) <= m.(CmOffset)) (s.(inflight) ++ s.(unread));
}.

Lemma single_step s s' : single s -> pool_step 1 s s' -> single s'.
Proof.
  intros [S1 S2 S3 S4] H. destruct H; cbn in *.
  - destruct i; [|cbn in *; lia]. by constructor.
  - destruct i as [|m0 [|? ?]]; cbn in *; try lia; [by apply Permutation_nil_cons in H|].
    apply Permutation_singleton_l in H. injection H as <- <-. cbn in *.
    apply StronglySorted_inv in S3 as [S3 S3']. apply Forall_cons in S4 as [S4 S4'].
    constructor; cbn; try done; [lia|]. rewrite Forall_forall in *. intros x Hx. specialize (S3' x Hx). specialize (S4' x Hx). lia.
  - destruct i as [|m0 [|? ?]]; cbn in *; try lia; [by apply Permutation_nil_cons in H|].
    apply Permutation_singleton_l in H. injection H as <- <-. cbn in *.
    apply StronglySorted_inv in S3 as [S3 S3']. apply Forall_cons in S4 as [S4 S4'].
    constructor; cbn; try done; lia.
  - by constructor.
Qed.

Definition pool_reach (poolSize : nat) (start : claim) : claim -> Prop := rtc (pool_step poolSize) start.

Lemma single_reach messages start s : ascending messages -> Forall (fun m => start <= m.(CmOffset)) messages ->
  pool_reach 1 (fresh_claim messages start) s -> single s.
Proof.
  intros H1 H2 H. unfold pool_reach in H. assert (single (fresh_claim messages start)) as S by (constructor; cbn; try done; lia).
  induction H as [|x y z Hs _ IH]; [done|]. apply IH. by eapply single_step.
Qed.

Lemma single_lost s m : single s -> lost s m -> s.(over) = true /\ m ∈ s.(unmarked).
Proof.
  intros [S1 S2 S3 S4] [[H|H] Hc].
  - rewrite Forall_forall in S4. specialize (S4 m ltac:(set_solver)). lia.
  - split; [|done]. destruct (over s); [done|]. rewrite S2 in H by done. by apply elem_of_nil in H.
Qed.

(** Two messages of which the first is left when the session ends and the
    second, which is dispatched afterwards, is marked. *)
Definition two (t k v : string) : list ConsumerMessage := [mkConsumer t 0 0 k v; mkConsumer t 0 1 k v].

Lemma single_loses_run t k v : exists s m, pool_reach 1 (fresh_claim (two t k v) 0) s /\ lost s m.
Proof.
  set (m0 := mkConsumer t 0 0 k v). set (m1 := mkConsumer t 0 1 k v).
  exists (mkClaim [] [] [m0] [m1] true 2), m0. split; [|split; [right; by left|cbn; lia]].
  eapply (rtc_l _ _ (mkClaim [m1] [m0] [] [] false 0)); [apply pool_dispatch; cbn; lia|].
  eapply (rtc_l _ _ (mkClaim [m1] [m0] [] [] true 0)); [apply pool_over|].
  eapply (rtc_l _ _ (mkClaim [m1] [] [m0] [] true 0)); [by apply pool_leave|].
  eapply (rtc_l _ _ (mkClaim [] [m1] [m0] [] true 0)); [apply pool_dispatch; cbn; lia|].
  apply rtc_once. change 2 with (Z.max 0 (m1.(CmOffset) + 1)). by apply pool_mark.
Qed.

(** With the default pool of four workers it happens while the session runs:
    the second message is done first. *)
Lemma pool_loses_run t k v : exists s m, pool_reach 4 (fresh_claim (two t k v) 0) s
  /\ s.(over) = false /\ m ∈ s.(inflight) /\ lost s m.
Proof.
  set (m0 := mkConsumer t 0 0 k v). set (m1 := mkConsumer t 0 1 k v).
  exists (mkClaim [] [m0] [] [m1] false 2), m0. split_and!; [|done|by left|split; [left; by left|cbn; lia]].
  eapply (rtc_l _ _ (mkClaim [m1] [m0] [] [] false 0)); [apply pool_dispatch; cbn; lia|].
  eapply (rtc_l _ _ (mkClaim [] [m1; m0] [] [] false 0)); [apply pool_dispatch; cbn; lia|].
  apply rtc_once. change 2 with (Z.max 0 (m1.(CmOffset) + 1)). by apply pool_mark.
Qed.
