(* ===== verification/JudgeMessages.v ===== *)
(** The messages between the submission service and the judge workers
    (pkg/judge/job_message.go, result_message.go) as the receiving side decodes
    them: [json.Unmarshal] of a job in the worker's job consumer and of a
    result in the submission service's result consumer, and that each decodes
    what the other service wrote. *)

From S2P Require Import Prelude GoString GoError GoTime JsonDecode SubmissionDomain OutboxRelay WorkerDomain JudgeWorker.

(** ** Decoding *)

Definition zero_job : JobMessage := mkJob 0 0 "" "" "" "" "" 0.

Definition job_of_members (l : list (bytes * json)) : option JobMessage :=
    sid ← field dec_int 0 (values_of "submission_id" l);
    pid ← field dec_int 0 (values_of "problem_id" l);
    slug ← field dec_string ""%string (values_of "problem_slug" l);
    uid ← field dec_string ""%string (values_of "user_id" l);
    lang ← field dec_string ""%string (values_of "language" l);
    src ← field dec_string ""%string (values_of "source_code" l);
    aid ← field dec_string ""%string (values_of "attempt_id" l);
    t ← field dec_time 0 (values_of "enqueued_at" l);
    Some (mkJob sid pid slug uid lang src aid t).
Definition decode_job : string -> option JobMessage := unmarshal zero_job job_of_members.

Definition zero_item : TestCaseResultItem := mkItem 0 "" None None None None None.

(** A struct that is an element of a slice: decoded into what is there. *)
Definition pointer_from {A} (dec : json -> option A) (init : option A) (vs : list json) : option (option A) :=
  foldl (pointer_step dec) (Some init) vs.

Definition decode_item (i : TestCaseResultItem) (v : json) : option TestCaseResultItem :=
  match v with
  | JNull => Some i
  | JObject l =>
      ix ← field dec_int i.(ItemIndex) (values_of "index" l);
      st ← field dec_string i.(ItemStatus) (values_of "status" l);
      ao ← pointer_from dec_string i.(ItemActualOutput) (values_of "actual_output" l);
      inp ← pointer_from dec_string i.(ItemInput) (values_of "input" l);
      eo ← pointer_from dec_string i.(ItemExpectedOutput) (values_of "expected_output" l);
      et ← pointer_from dec_int i.(ItemExecutionTime) (values_of "execution_time" l);
      mu ← pointer_from dec_int i.(ItemMemoryUsed) (values_of "memory_used" l);
      Some (mkItem ix st ao inp eo et mu)
  | _ => None
  end.

Definition zero_result : ResultMessage :=
  mkResultMessage 0 "" "" None None None None None None None None [].

Definition result_of_members (l : list (bytes * json)) : option ResultMessage :=
    sid ← field dec_int 0 (values_of "submission_id" l);
    aid ← field dec_string ""%string (values_of "attempt_id" l);
    st ← field dec_string ""%string (values_of "status" l);
    co ← pointer dec_string (values_of "compile_output" l);
    em ← pointer dec_string (values_of "error_message" l);
    et ← pointer dec_int (values_of "execution_time" l);
    mu ← pointer dec_int (values_of "memory_used" l);
    er ← pointer dec_string (values_of "error" l);
    tv ← pointer dec_int (values_of "testcase_version" l);
    tc ← pointer dec_int (values_of "test_count" l);
    dc ← pointer dec_string (values_of "dataset_checksum" l);
    tcs ← slice zero_item decode_item (values_of "test_cases" l);
    Some (mkResultMessage sid aid st co em et mu er tv tc dc tcs).
Definition decode_result : string -> option ResultMessage := unmarshal zero_result result_of_members.

(** ** What survives the trip *)

Definition utf8 (s : string) : Prop := ValidString s = true.
Definition utf8_opt (o : option string) : Prop := match o with Some s => utf8 s | None => True end.
Definition int_opt (o : option Z) : Prop := match o with Some z => in_int64 z | None => True end.

Lemma dec_string_written s : utf8 s -> dec_string (JString (escaped s)) = Some s.
Proof. intros H. cbn. rewrite unquote_escaped, coerce_valid by (by apply valid_utf8_spec). by rewrite str_chars. Qed.

Lemma dec_int_written z : in_int64 z -> dec_int (JNumber (chars (Itoa z))) = Some z.
Proof. intros H. cbn [dec_int]. rewrite str_chars. by apply ParseInt_Itoa. Qed.

Definition jint (z : Z) : json * bytes := (JNumber (chars (Itoa z)), json_int z).
Definition jstr (s : string) : json * bytes := (JString (escaped s), json_string s).

(** A time as it is written: digits and punctuation only. *)
Definition jtime (t : Z) : json * bytes := (JString (rfc3339_nano t), quote :: rfc3339_nano t ++ [quote]).

(** A character that is written as it is, in JSON and by the database. *)
Definition unescaped (c : ascii) : bool := plain c && rune1 c.

Lemma unescaped_digits l : forallb is_digit l = true -> forallb unescaped l = true.
Proof.
  assert (P : forall c, implb (is_digit c) (unescaped c) = true) by (apply all_bytes; vm_compute; reflexivity).
  induction l as [|c l IH]; [done|]. cbn. intros [D H]%andb_true_iff. specialize (P c). rewrite D in P. cbn in P.
  by rewrite P, IH.
Qed.

Lemma pad_unescaped w z : forallb unescaped (pad w z) = true.
Proof.
  unfold pad. rewrite forallb_app, (unescaped_digits (format_nat z)) by apply format_nat_digits.
  rewrite andb_true_r. apply unescaped_digits, forallb_zeros.
Qed.

Lemma rfc3339_unescaped t : forallb unescaped (rfc3339_nano t) = true.
Proof.
  unfold rfc3339_nano. destruct (civil _) as [[y m] d].
  assert (F : forallb unescaped (trim_right_set (is_byte 48) (pad 9 (t mod second_ns))) = true).
  { destruct (trim_right_set_split (is_byte 48) (pad 9 (t mod second_ns))) as (tl & E & _).
    pose proof (pad_unescaped 9 (t mod second_ns)) as P. rewrite E, forallb_app in P. by apply andb_true_iff in P as [P _]. }
  set (f := trim_right_set _ _) in *. assert (G : forallb unescaped (match f with [] => [] | _ => chars "." ++ f end) = true).
  { destruct f; [done|]. by rewrite forallb_app, F. }
  by rewrite !forallb_app, !pad_unescaped, G.
Qed.

Lemma unescaped_plain l : forallb unescaped l = true -> forallb plain l = true.
Proof.
  induction l as [|c l IH]; [done|]. cbn. rewrite !andb_true_iff. unfold unescaped at 1. rewrite andb_true_iff.
  intros [[-> _] H]. auto.
Qed.

Lemma rfc3339_plain t : forallb plain (rfc3339_nano t) = true.
Proof. apply unescaped_plain, rfc3339_unescaped. Qed.

Lemma reads_plain raw : forallb plain raw = true -> reads (JString raw) (quote :: raw ++ [quote]) 0.
Proof.
  intros P [|f] d rest Hf _ S; [cbn in Hf; lia|].
  change ((quote :: raw ++ [quote]) ++ rest) with (quote :: (raw ++ [quote]) ++ rest). rewrite <- (assoc_L app).
  change (json_value (Datatypes.S f) d (quote :: raw ++ [quote] ++ rest))
    with ((fun p => (JString p.1, p.2)) <$> scan_string (raw ++ quote :: rest)).
  rewrite scan_plain by done. change (scan_string (quote :: rest)) with (Some ([] : bytes, rest)). cbn. by rewrite (app_nil_r raw).
Qed.

(** ** Jobs *)

Definition job_ok (j : JobMessage) : Prop :=
  in_int64 j.(JobSubmissionID) /\ in_int64 j.(JobProblemID) /\ utf8 j.(JobProblemSlug) /\ utf8 j.(JobUserID)
  /\ utf8 j.(JobLanguage) /\ utf8 j.(JobSourceCode) /\ utf8 j.(JobAttemptID).

Definition job_fields (j : JobMessage) : list jfield :=
  [("submission_id", Some (jint j.(JobSubmissionID))); ("problem_id", Some (jint j.(JobProblemID)));
   ("problem_slug", if bool_decide (j.(JobProblemSlug) = "") then None else Some (jstr j.(JobProblemSlug)));
   ("user_id", Some (jstr j.(JobUserID))); ("language", Some (jstr j.(JobLanguage)));
   ("source_code", Some (jstr j.(JobSourceCode))); ("attempt_id", Some (jstr j.(JobAttemptID)));
   ("enqueued_at", Some (jtime j.(EnqueuedAt)))]%string.

Definition job_names : list string :=
  ["submission_id"; "problem_id"; "problem_slug"; "user_id"; "language"; "source_code"; "attempt_id"; "enqueued_at"]%string.

Lemma job_fields_names j : map fst (job_fields j) = job_names.
Proof. reflexivity. Qed.

Lemma job_names_ok : distinct_names job_names = true /\ forallb (fun n => valid_utf8 (chars n)) job_names = true.
Proof. split; vm_compute; reflexivity. Qed.

Lemma json_time_some t b : json_time t = Some b ->
  b = quote :: rfc3339_nano t ++ [quote] /\ exists y m d, civil (t / second_ns / 86400) = (y, m, d) /\ 0 <= y <= 9999.
Proof.
  unfold json_time. destruct (civil _) as [[y m] d] eqn:C. destruct (_ && _) eqn:B; [|done].
  intros [= <-]. split; [done|]. exists y, m, d. split; [done|]. bools. lia.
Qed.

Lemma marshal_job_fields j payload : marshal_job j = Some payload ->
  payload = str (json_object (map (fun f => (f.1, snd <$> f.2)) (job_fields j))) /\ parse_rfc3339 (rfc3339_nano j.(EnqueuedAt)) = Some j.(EnqueuedAt).
Proof.
  unfold marshal_job. destruct (json_time _) as [b|] eqn:T; [|done]. apply json_time_some in T as (-> & Y).
  intros [= <-]. split; [|by apply parse_rfc3339_nano]. unfold job_fields. cbn [map fst snd fmap option_fmap option_map].
  by case_bool_decide.
Qed.

Lemma jint_reads k z : in_int64 z -> field_reads 0 (k, Some (jint z)).
Proof. exact (reads_int z). Qed.
Lemma jstr_reads k s : field_reads 0 (k, Some (jstr s)).
Proof. exact (reads_string s). Qed.
Lemma jtime_reads k t : field_reads 0 (k, Some (jtime t)).
Proof. exact (reads_plain _ (rfc3339_plain t)). Qed.
Lemma absent_reads k : field_reads 0 (k, None).
Proof. exact I. Qed.

Lemma job_fields_read j : job_ok j -> Forall (field_reads 0) (job_fields j).
Proof.
  intros (? & ? & _). unfold job_fields.
  repeat (apply Forall_cons_2; [first [by apply jint_reads | apply jstr_reads | apply jtime_reads | case_bool_decide; [apply absent_reads|apply jstr_reads]]|]).
  apply Forall_nil_2.
Qed.

Lemma names_valid (fs : list jfield) : forallb (fun n => valid_utf8 (chars n)) (map fst fs) = true ->
  Forall (fun f : jfield => valid_utf8 (chars f.1) = true) fs.
Proof. induction fs as [|f fs IH]; cbn; [constructor|]. intros [V H]%andb_true_iff. constructor; auto. Qed.

(** The values a document of other text may give: the same ones, except that
    a string that needs escapes may be escaped differently. *)
Inductive same_value : json -> json -> Prop :=
  | same_as v : same_value v v
  | same_content raw raw' : unquote raw = unquote raw' -> forallb plain raw = false -> same_value (JString raw) (JString raw').

Lemma same_string v v' s : same_value v v' -> dec_string v = Some s -> dec_string v' = Some s.
Proof. intros [w|raw raw' E _]; cbn; [done|by rewrite E]. Qed.
Lemma same_int_value v v' z : same_value v v' -> dec_int v = Some z -> dec_int v' = Some z.
Proof. by intros [w|raw raw' E _]. Qed.
Lemma same_time raw v' : same_value (JString raw) v' -> forallb plain raw = true -> v' = JString raw.
Proof. intros H. inversion H; congruence. Qed.

Lemma same_not_null v v' : same_value v v' -> v <> JNull -> v' <> JNull.
Proof. by intros []. Qed.

Lemma field_same {A} (dec : json -> option A) init v a vs : Forall2 same_value [v] vs -> v <> JNull ->
  (forall v', same_value v v' -> dec v' = Some a) -> field dec init vs = Some a.
Proof.
  intros F N D. inversion F as [|? v' ? vs' Sv F']; subst. inversion F'; subst.
  apply field_one; [by apply D|by eapply same_not_null].
Qed.

(** A document with the same members decodes to the job. *)
Lemma decode_job_members j l : job_ok j -> parse_rfc3339 (rfc3339_nano j.(EnqueuedAt)) = Some j.(EnqueuedAt) ->
  (forall i name o, job_fields j !! i = Some (name, o) -> Forall2 same_value (given_value o) (values_of name l)) ->
  job_of_members l = Some j.
Proof.
  intros (H1 & H2 & H3 & H4 & H5 & H6 & H7) T G.
  assert (GI : forall i name z init, job_fields j !! i = Some (name, Some (jint z)) -> in_int64 z ->
    field dec_int init (values_of name l) = Some z).
  { intros i name z init Hi Hz. eapply field_same; [exact (G _ _ _ Hi)|done|]. intros v' Sv. eapply same_int_value; [exact Sv|].
    by apply dec_int_written. }
  assert (GS : forall i name s init, job_fields j !! i = Some (name, Some (jstr s)) -> utf8 s ->
    field dec_string init (values_of name l) = Some s).
  { intros i name s init Hi Hs. eapply field_same; [exact (G _ _ _ Hi)|done|]. intros v' Sv. eapply same_string; [exact Sv|].
    by apply dec_string_written. }
  unfold job_of_members.
  rewrite (decoded _ _ _ (GI 0%nat _ _ 0 eq_refl H1)). cbv beta.
  rewrite (decoded _ _ _ (GI 1%nat _ _ 0 eq_refl H2)). cbv beta.
  assert (S2 : field dec_string ""%string (values_of "problem_slug" l) = Some j.(JobProblemSlug)).
  { pose proof (G 2%nat "problem_slug"%string _ eq_refl) as F. case_bool_decide as E.
    - inversion F as [Hv|]. by rewrite E.
    - apply (GS 2%nat); [|done]. unfold job_fields. by rewrite bool_decide_false. }
  rewrite (decoded _ _ _ S2). cbv beta.
  rewrite (decoded _ _ _ (GS 3%nat _ _ ""%string eq_refl H4)). cbv beta.
  rewrite (decoded _ _ _ (GS 4%nat _ _ ""%string eq_refl H5)). cbv beta.
  rewrite (decoded _ _ _ (GS 5%nat _ _ ""%string eq_refl H6)). cbv beta.
  rewrite (decoded _ _ _ (GS 6%nat _ _ ""%string eq_refl H7)). cbv beta.
  assert (S7 : field dec_time 0 (values_of "enqueued_at" l) = Some j.(EnqueuedAt)).
  { eapply field_same; [exact (G 7%nat "enqueued_at"%string _ eq_refl)|done|].
    intros v' ->%same_time; [|apply rfc3339_plain]. exact T. }
  rewrite (decoded _ _ _ S7). cbv beta. by destruct j.
Qed.

(** *** The [jsonb] column of PostgreSQL

    [jsonb] keeps neither the white space nor the order of the keys of an object,
    only the last of equal keys, numbers as [numeric] and strings without
    regard to how they were escaped, and refuses the character U+0000.  So what
    the column promises is stated for objects whose keys are distinct and
    whose values are integers and strings without that character: what it gives
    back is an object with the same members in some order, with strings of the
    same content, where a string without escapes reads as it was written. *)
Definition storable_text (s : string) : Prop := utf8 s /\ ascii_of_N 0 ∉ chars s.

Inductive storable : json -> Prop :=
  | storable_int z : in_int64 z -> storable (JNumber (chars (Itoa z)))
  | storable_string s : storable_text s -> storable (JString (escaped s))
  | storable_unescaped raw : forallb unescaped raw = true -> storable (JString raw).

Definition storable_member (m : bytes * json) : Prop := (exists k, storable_text k /\ m.1 = escaped k) /\ storable m.2.

Definition same_member (m m' : bytes * json) : Prop := unquote m.1 = unquote m'.1 /\ same_value m.2 m'.2.

Definition jsonb_normalises (jsonb : string -> string) : Prop :=
  forall s l, json_parse s = Some (JObject l) -> NoDup (map (fun m => unquote m.1) l) -> Forall storable_member l ->
    exists l1 l2, l ≡ₚ l1 /\ json_parse (jsonb s) = Some (JObject l2) /\ Forall2 same_member l1 l2.

Lemma same_members_values name l1 l2 : Forall2 same_member l1 l2 -> Forall2 same_value (values_of name l1) (values_of name l2).
Proof.
  induction 1 as [|m m' l1 l2 [E V] F IH]; [constructor|]. unfold values_of in *. cbn. rewrite E.
  destruct (same_name _ _); [by constructor|done].
Qed.

(** The members a job is written with. *)
Definition job_members (j : JobMessage) : list (bytes * json) := map member_of (present (job_fields j)).

Definition job_storable (j : JobMessage) : Prop :=
  Forall storable_text [j.(JobProblemSlug); j.(JobUserID); j.(JobLanguage); j.(JobSourceCode); j.(JobAttemptID)].

Notation key_of m := (unquote (fst m)).

Lemma written_key_in fs q : Forall (fun f : jfield => valid_utf8 (chars f.1) = true) fs ->
  q ∈ map (fun m => key_of m) (map member_of (present fs)) -> str q ∈ map fst fs.
Proof.
  induction 1 as [|[k [[v b]|]] fs V F IH]; cbn; [by intros ?%elem_of_nil| |right; by apply IH].
  intros [->|Hq]%elem_of_cons; [|right; by apply IH]. cbn.
  rewrite unquote_escaped, coerce_valid, str_chars by (by apply valid_utf8_spec). by left.
Qed.

Lemma written_keys fs : Forall (fun f : jfield => valid_utf8 (chars f.1) = true) fs -> NoDup (map fst fs) ->
  NoDup (map (fun m => key_of m) (map member_of (present fs))).
Proof.
  induction 1 as [|[k [[v b]|]] fs V F IH]; cbn [map fst]; [constructor| |]; intros [N0 N]%NoDup_cons; [|by apply IH].
  change (present ((k, Some (v, b)) :: fs)) with ((k, v, b) :: present fs). cbn [map]. apply NoDup_cons. split; [|by apply IH].
  cbn. rewrite unquote_escaped, coerce_valid by (by apply valid_utf8_spec).
  intros Hk%written_key_in; [|done]. by rewrite str_chars in Hk.
Qed.

Lemma distinct_NoDup ns : distinct_names ns = true -> NoDup ns.
Proof. unfold distinct_names. by intros [_ ?%bool_decide_eq_true]%andb_true_iff. Qed.

Lemma job_names_storable : Forall storable_text job_names.
Proof.
  unfold job_names. repeat (apply Forall_cons_2; [split; [unfold utf8; vm_compute; reflexivity|apply (bool_decide_unpack _); vm_compute; exact I]|]).
  apply Forall_nil_2.
Qed.

Definition field_storable (f : jfield) : Prop := match f.2 with Some (v, _) => storable v | None => True end.

Lemma jint_storable k z : in_int64 z -> field_storable (k, Some (jint z)).
Proof. exact (storable_int z). Qed.
Lemma jstr_storable k s : storable_text s -> field_storable (k, Some (jstr s)).
Proof. exact (storable_string s). Qed.
Lemma jtime_storable k t : field_storable (k, Some (jtime t)).
Proof. exact (storable_unescaped _ (rfc3339_unescaped t)). Qed.
Lemma absent_storable k : field_storable (k, None).
Proof. exact I. Qed.

Lemma job_fields_storable j : job_ok j -> job_storable j -> Forall field_storable (job_fields j).
Proof.
  intros (H1 & H2 & _) S. unfold job_storable in S.
  apply Forall_cons in S as [S1 S]. apply Forall_cons in S as [S2 S]. apply Forall_cons in S as [S3 S].
  apply Forall_cons in S as [S4 S]. apply Forall_cons in S as [S5 _]. unfold job_fields.
  repeat (apply Forall_cons_2; [first [by apply jint_storable | by apply jstr_storable | apply jtime_storable
    | case_bool_decide; [apply absent_storable|by apply jstr_storable]]|]).
  apply Forall_nil_2.
Qed.

Lemma storable_fields fs : Forall storable_text (map fst fs) -> Forall field_storable fs ->
  Forall storable_member (map member_of (present fs)).
Proof.
  intros N K. induction K as [|[k [[v b]|]] fs Hv K IH]; cbn [map fst] in N; [constructor| |];
    apply Forall_cons in N as [Hk N]; [|by apply IH].
  change (present ((k, Some (v, b)) :: fs)) with ((k, v, b) :: present fs). cbn [map].
  constructor; [|by apply IH]. split; [by exists k|done].
Qed.

Lemma job_members_storable j : job_ok j -> job_storable j -> Forall storable_member (job_members j).
Proof.
  intros O S. apply storable_fields; [|by apply job_fields_storable]. rewrite job_fields_names. exact job_names_storable.
Qed.

(** The worker decodes the job the submission service stored. *)
Lemma job_decoded jsonb j payload : jsonb_normalises jsonb -> job_ok j -> job_storable j -> marshal_job j = Some payload ->
  decode_job (jsonb payload) = Some j.
Proof.
  intros J O S (E & T)%marshal_job_fields. destruct job_names_ok as [D N].
  assert (V : Forall (fun f : jfield => valid_utf8 (chars f.1) = true) (job_fields j)).
  { apply names_valid. by rewrite job_fields_names. }
  assert (P : json_parse payload = Some (JObject (job_members j))).
  { rewrite E, json_object_present. apply (reads_parse _ _ 1%nat); [|unfold max_depth; lia].
    apply reads_object; [by apply present_reads, job_fields_read|apply present_some]. }
  destruct (J _ _ P) as (l1 & l2 & Pm & P' & F).
  { apply written_keys; [done|]. rewrite job_fields_names. by apply distinct_NoDup. }
  { by apply job_members_storable. }
  unfold decode_job, unmarshal. rewrite P'. apply decode_job_members; [done|done|]. intros i name o Hi.
  assert (G : values_of name (job_members j) = given_value o).
  { unfold job_members. rewrite values_of_written by done. eapply given_nth; [|exact Hi]. by rewrite job_fields_names. }
  assert (L : Permutation (values_of name (job_members j)) (values_of name l1)) by (unfold values_of; by rewrite Pm).
  apply (same_members_values name) in F. rewrite G in L. replace (given_value o) with (values_of name l1); [done|].
  clear -L. destruct o as [p|]; cbn in L; [by apply Permutation_singleton_l in L|by apply Permutation_nil_l in L].
Qed.

(** A column that rewrites an object of such members with its keys in the order
    of their length, then of their bytes, as PostgreSQL does. *)
Definition jsonb_key_le (f g : jfield) : Prop :=
  (String.length f.1 < String.length g.1)%nat \/ String.length f.1 = String.length g.1 /\ String.leb f.1 g.1 = true.
#[export] Instance jsonb_key_le_dec : RelDecision jsonb_key_le.
Proof. intros f g. unfold jsonb_key_le. apply _. Defined.

Definition jsonb_field (m : bytes * json) : option jfield :=
  match m.2 with
  | JNumber lit => z ← ParseInt (str lit); Some (str (key_of m), Some (jint z))
  | JString raw => Some (str (key_of m), Some (if forallb unescaped raw then (JString raw, quote :: raw ++ [quote])
                                               else jstr (str (unquote raw))))
  | _ => None
  end.
Definition jsonb_text (s : string) : string :=
  match json_parse s with
  | Some (JObject l) =>
      match mapM jsonb_field l with
      | Some (f :: fs) => str (json_object (map (fun f => (f.1, snd <$> f.2)) (merge_sort jsonb_key_le (f :: fs))))
      | _ => s
      end
  | _ => s
  end.

(** What is known of the field that stands for a member. *)
Definition stands_for (m : bytes * json) (f : jfield) : Prop :=
  jsonb_field m = Some f /\ field_reads 0 f /\ exists p, f.2 = Some p /\ same_member m (escaped f.1, p.1).

Lemma storable_stands m : storable_member m -> exists f, stands_for m f.
Proof.
  intros [(k & [Uk _] & Ek) S]. destruct m as [raw v]. cbn in Ek, S. subst raw.
  assert (K : str (unquote (escaped k)) = k) by (rewrite unquote_escaped, coerce_valid, str_chars by (by apply valid_utf8_spec); done).
  unfold stands_for, jsonb_field, same_member. cbn [fst snd]. rewrite K. destruct S as [z Hz|s [Us _]|raw Hr].
  - rewrite str_chars, ParseInt_Itoa by done. eexists. split; [reflexivity|]. split; [by apply reads_int|].
    eexists. split; [reflexivity|]. split; [done|]. apply same_as.
  - eexists. split; [reflexivity|]. destruct (forallb unescaped (escaped s)) eqn:P.
    + split; [apply reads_plain; by apply unescaped_plain|]. eexists. split; [reflexivity|]. split; [done|apply same_as].
    + split; [apply reads_string|]. eexists. split; [reflexivity|]. split; [done|]. cbn.
      rewrite unquote_escaped, coerce_valid, str_chars by (by apply valid_utf8_spec). apply same_as.
  - eexists. split; [reflexivity|]. rewrite Hr. split; [apply reads_plain; by apply unescaped_plain|].
    eexists. split; [reflexivity|]. split; [done|apply same_as].
Qed.

Lemma jsonb_text_normalises : jsonb_normalises jsonb_text.
Proof.
  intros s l P _ S.
  assert (exists fs, Forall2 stands_for l fs) as (fs & F).
  { clear P. induction S as [|m l H _ (fs & F)]; [by exists []|].
    apply storable_stands in H as (f & Hf). exists (f :: fs). by constructor. }
  assert (M : mapM jsonb_field l = Some fs) by (apply mapM_Some; eapply Forall2_impl; [exact F|]; by intros ?? [? _]).
  unfold jsonb_text. rewrite P, M. destruct fs as [|f0 fs0] eqn:Ef.
  { apply Forall2_nil_inv_r in F as ->. exists [], []. by split_and!. }
  rewrite <- Ef in *. clear M.
  destruct (Permutation_Forall2 (symmetry (merge_sort_Permutation jsonb_key_le fs)) (proj2 (Forall2_flip _ _ _) F)) as (l1 & Pm & F1).
  set (fs' := merge_sort jsonb_key_le fs) in *. exists l1, (map member_of (present fs')). split; [done|]. split.
  - rewrite json_object_present. apply (reads_parse _ _ 1%nat); [|unfold max_depth; lia]. apply reads_object.
    + apply present_reads. clear -F1. induction F1 as [|f m fl ml (_ & R & _) _ IH]; by constructor.
    + intros N. assert (length fs' = 0%nat) as L.
      { clear -F1 N. destruct F1 as [|f m fl ml (_ & _ & p & E & _) _]; [done|]. destruct f as [k o]. cbn in E. by rewrite E in N. }
      unfold fs' in L. by rewrite merge_sort_Permutation, Ef in L.
  - clear -F1. induction F1 as [|[k o] m fl ml (_ & _ & p & E & K) _ IH]; [constructor|]. cbn in E. subst o.
    unfold present. cbn. constructor; [|done]. by destruct p.
Qed.

(** ** Results *)

Definition opt {A} (f : A -> json * bytes) (o : option A) : option (json * bytes) := f <$> o.

Definition item_fields (i : TestCaseResultItem) : list jfield :=
  [("index", Some (jint i.(ItemIndex))); ("status", Some (jstr i.(ItemStatus)));
   ("actual_output", opt jstr i.(ItemActualOutput)); ("input", opt jstr i.(ItemInput));
   ("expected_output", opt jstr i.(ItemExpectedOutput)); ("execution_time", opt jint i.(ItemExecutionTime));
   ("memory_used", opt jint i.(ItemMemoryUsed))]%string.

Definition item_ok (i : TestCaseResultItem) : Prop :=
  in_int64 i.(ItemIndex) /\ utf8 i.(ItemStatus) /\ utf8_opt i.(ItemActualOutput) /\ utf8_opt i.(ItemInput)
  /\ utf8_opt i.(ItemExpectedOutput) /\ int_opt i.(ItemExecutionTime) /\ int_opt i.(ItemMemoryUsed).

Definition item_json (i : TestCaseResultItem) : json := JObject (map member_of (present (item_fields i))).

Definition result_fields (m : ResultMessage) : list jfield :=
  [("submission_id", Some (jint m.(MsgSubmissionID))); ("attempt_id", Some (jstr m.(MsgAttemptID)));
   ("status", Some (jstr m.(MsgStatus))); ("compile_output", opt jstr m.(MsgCompileOutput));
   ("error_message", opt jstr m.(MsgErrorMessage)); ("execution_time", opt jint m.(MsgExecutionTime));
   ("memory_used", opt jint m.(MsgMemoryUsed)); ("error", opt jstr m.(MsgError));
   ("testcase_version", opt jint m.(MsgTestcaseVersion)); ("test_count", opt jint m.(MsgTestCount));
   ("dataset_checksum", opt jstr m.(MsgDatasetChecksum));
   ("test_cases", Some (JArray (map item_json m.(MsgTestCases)), json_array (map marshal_item m.(MsgTestCases))))]%string.

Definition result_ok (m : ResultMessage) : Prop :=
  in_int64 m.(MsgSubmissionID) /\ utf8 m.(MsgAttemptID) /\ utf8 m.(MsgStatus) /\ utf8_opt m.(MsgCompileOutput)
  /\ utf8_opt m.(MsgErrorMessage) /\ int_opt m.(MsgExecutionTime) /\ int_opt m.(MsgMemoryUsed) /\ utf8_opt m.(MsgError)
  /\ int_opt m.(MsgTestcaseVersion) /\ int_opt m.(MsgTestCount) /\ utf8_opt m.(MsgDatasetChecksum)
  /\ Forall item_ok m.(MsgTestCases).

Lemma snd_opt {A} (f : A -> json * bytes) o : snd <$> opt f o = (fun a => (f a).2) <$> o.
Proof. by destruct o. Qed.

Lemma marshal_item_fields i : marshal_item i = json_object (map (fun f => (f.1, snd <$> f.2)) (item_fields i)).
Proof. unfold marshal_item, item_fields. cbn [map fst snd]. rewrite !snd_opt. reflexivity. Qed.

Lemma marshal_result_fields m : marshal_result m = str (json_object (map (fun f => (f.1, snd <$> f.2)) (result_fields m))).
Proof. unfold marshal_result, result_fields. cbn [map fst snd]. rewrite !snd_opt. reflexivity. Qed.

Definition item_names : list string :=
  ["index"; "status"; "actual_output"; "input"; "expected_output"; "execution_time"; "memory_used"]%string.
Definition result_names : list string :=
  ["submission_id"; "attempt_id"; "status"; "compile_output"; "error_message"; "execution_time"; "memory_used"; "error";
   "testcase_version"; "test_count"; "dataset_checksum"; "test_cases"]%string.

Lemma item_names_ok : distinct_names item_names = true /\ forallb (fun n => valid_utf8 (chars n)) item_names = true.
Proof. split; vm_compute; reflexivity. Qed.
Lemma result_names_ok : distinct_names result_names = true /\ forallb (fun n => valid_utf8 (chars n)) result_names = true.
Proof. split; vm_compute; reflexivity. Qed.

Lemma opt_int_reads k o : int_opt o -> field_reads 0 (k, opt jint o).
Proof. destruct o; [apply jint_reads|intros _; apply absent_reads]. Qed.
Lemma opt_str_reads k o : field_reads 0 (k, opt jstr o).
Proof. destruct o; [apply jstr_reads|apply absent_reads]. Qed.

Ltac reads_fields := repeat (apply Forall_cons_2;
  [first [by apply jint_reads | apply jstr_reads | by apply opt_int_reads | apply opt_str_reads]|]); try apply Forall_nil_2.

Lemma reads_weaken v b n m : reads v b n -> (n <= m)%nat -> reads v b m.
Proof. intros R L f d rest H1 H2. apply R; lia. Qed.

Lemma item_reads i : item_ok i -> reads (item_json i) (marshal_item i) 1.
Proof.
  intros (? & ? & ? & ? & ? & ? & ?). rewrite marshal_item_fields, json_object_present.
  apply reads_object; [|apply present_some]. apply present_reads. unfold item_fields. reads_fields.
Qed.

Lemma items_read l : Forall item_ok l -> reads (JArray (map item_json l)) (json_array (map marshal_item l)) 2.
Proof.
  intros F. set (vs := map (fun i => (item_json i, marshal_item i)) l).
  assert (map item_json l = map fst vs /\ map marshal_item l = map snd vs) as [-> ->].
  { unfold vs. rewrite !map_map. done. }
  apply reads_array.
  - unfold vs. apply Forall_forall. intros p (i & <- & Hi%list_elem_of_In)%list_elem_of_In%in_map_iff. apply item_reads.
    rewrite Forall_forall in F. by apply F.
  - intros p (i & <- & _)%list_elem_of_In%in_map_iff. cbn [snd]. rewrite marshal_item_fields, json_object_present.
    by eexists _, _.
Qed.

Lemma result_reads m : result_ok m -> Forall (field_reads 2) (result_fields m).
Proof.
  intros (? & ? & ? & ? & ? & ? & ? & ? & ? & ? & ? & F).
  assert (W : forall f, field_reads 0 f -> field_reads 2 f).
  { intros [k [[v b]|]]; [|done]. intros R. eapply reads_weaken; [exact R|lia]. }
  unfold result_fields. repeat (apply Forall_cons_2; [first [apply W; first [by apply jint_reads | apply jstr_reads
    | by apply opt_int_reads | apply opt_str_reads] | exact (items_read _ F)]|]). apply Forall_nil_2.
Qed.

(** Decoding the members an object was written with. *)
Section decode_written.
Context (fs : list jfield) (l : list (bytes * json)).
Context (D : distinct_names (map fst fs) = true) (V : forall name, values_of name l = given name fs).

Lemma written_value i name o : fs !! i = Some (name, o) -> values_of name l = given_value o.
Proof using D V. intros H. rewrite V. by eapply given_nth. Qed.

Lemma written_int i name z init : fs !! i = Some (name, Some (jint z)) -> in_int64 z ->
  field dec_int init (values_of name l) = Some z.
Proof using D V. intros H Z. rewrite (written_value _ _ _ H). apply field_one; [by apply dec_int_written|done]. Qed.

Lemma written_string i name s init : fs !! i = Some (name, Some (jstr s)) -> utf8 s ->
  field dec_string init (values_of name l) = Some s.
Proof using D V. intros H S. rewrite (written_value _ _ _ H). apply field_one; [by apply dec_string_written|done]. Qed.

Lemma written_opt_int i name o : fs !! i = Some (name, opt jint o) -> int_opt o ->
  pointer dec_int (values_of name l) = Some o.
Proof using D V.
  intros H Z. rewrite (written_value _ _ _ H). destruct o as [z|]; [|done].
  apply pointer_one; [by apply dec_int_written|done].
Qed.

Lemma written_opt_string i name o : fs !! i = Some (name, opt jstr o) -> utf8_opt o ->
  pointer dec_string (values_of name l) = Some o.
Proof using D V.
  intros H S. rewrite (written_value _ _ _ H). destruct o as [s|]; [|done].
  apply pointer_one; [by apply dec_string_written|done].
Qed.
End decode_written.

Lemma item_decoded i : item_ok i -> decode_item zero_item (item_json i) = Some i.
Proof.
  intros (H1 & H2 & H3 & H4 & H5 & H6 & H7). unfold item_json, decode_item.
  set (l := map member_of _).
  assert (V : forall name, values_of name l = given name (item_fields i)).
  { intros name. apply values_of_written, names_valid. apply item_names_ok. }
  pose proof (proj1 item_names_ok : distinct_names (map fst (item_fields i)) = true) as D.
  rewrite (decoded _ _ _ (written_int _ _ D V 0%nat _ _ _ eq_refl H1)). cbv beta.
  rewrite (decoded _ _ _ (written_string _ _ D V 1%nat _ _ _ eq_refl H2)). cbv beta.
  unfold zero_item. cbn [ItemActualOutput ItemInput ItemExpectedOutput ItemExecutionTime ItemMemoryUsed].
  change (pointer_from dec_string None) with (pointer dec_string). change (pointer_from dec_int None) with (pointer dec_int).
  rewrite (decoded _ _ _ (written_opt_string _ _ D V 2%nat _ _ eq_refl H3)). cbv beta.
  rewrite (decoded _ _ _ (written_opt_string _ _ D V 3%nat _ _ eq_refl H4)). cbv beta.
  rewrite (decoded _ _ _ (written_opt_string _ _ D V 4%nat _ _ eq_refl H5)). cbv beta.
  rewrite (decoded _ _ _ (written_opt_int _ _ D V 5%nat _ _ eq_refl H6)). cbv beta.
  rewrite (decoded _ _ _ (written_opt_int _ _ D V 6%nat _ _ eq_refl H7)). cbv beta. by destruct i.
Qed.

Lemma fill_decoded l : Forall item_ok l -> fill zero_item decode_item [] (map item_json l) = Some l.
Proof.
  induction 1 as [|i l O F IH]; [done|]. cbn [map fill tail]. by rewrite item_decoded, IH.
Qed.

Lemma slice_decoded l : Forall item_ok l -> slice zero_item decode_item [JArray (map item_json l)] = Some l.
Proof.
  intros F. unfold slice. cbn [foldl slice_step]. destruct l as [|i l]; [done|]. cbn [map].
  change (item_json i :: map item_json l) with (map item_json (i :: l)).
  rewrite fill_decoded by done. cbn [fmap option_fmap option_map fst snd]. rewrite length_map. by rewrite firstn_all.
Qed.

(** The submission service decodes the result the worker published. *)
Lemma result_decoded m : result_ok m -> decode_result (marshal_result m) = Some m.
Proof.
  intros O. unfold decode_result. rewrite marshal_result_fields, (unmarshal_written _ _ _ 2);
    [|by apply result_reads|apply present_some|unfold max_depth; lia].
  destruct O as (H1 & H2 & H3 & H4 & H5 & H6 & H7 & H8 & H9 & H10 & H11 & H12). set (l := map member_of _).
  assert (V : forall name, values_of name l = given name (result_fields m)).
  { intros name. apply values_of_written, names_valid. apply result_names_ok. }
  pose proof (proj1 result_names_ok : distinct_names (map fst (result_fields m)) = true) as D. unfold result_of_members.
  rewrite (decoded _ _ _ (written_int _ _ D V 0%nat "submission_id" m.(MsgSubmissionID) 0 eq_refl H1)). cbv beta.
  rewrite (decoded _ _ _ (written_string _ _ D V 1%nat "attempt_id" m.(MsgAttemptID) ""%string eq_refl H2)). cbv beta.
  rewrite (decoded _ _ _ (written_string _ _ D V 2%nat "status" m.(MsgStatus) ""%string eq_refl H3)). cbv beta.
  rewrite (decoded _ _ _ (written_opt_string _ _ D V 3%nat "compile_output" m.(MsgCompileOutput) eq_refl H4)). cbv beta.
  rewrite (decoded _ _ _ (written_opt_string _ _ D V 4%nat "error_message" m.(MsgErrorMessage) eq_refl H5)). cbv beta.
  rewrite (decoded _ _ _ (written_opt_int _ _ D V 5%nat "execution_time" m.(MsgExecutionTime) eq_refl H6)). cbv beta.
  rewrite (decoded _ _ _ (written_opt_int _ _ D V 6%nat "memory_used" m.(MsgMemoryUsed) eq_refl H7)). cbv beta.
  rewrite (decoded _ _ _ (written_opt_string _ _ D V 7%nat "error" m.(MsgError) eq_refl H8)). cbv beta.
  rewrite (decoded _ _ _ (written_opt_int _ _ D V 8%nat "testcase_version" m.(MsgTestcaseVersion) eq_refl H9)). cbv beta.
  rewrite (decoded _ _ _ (written_opt_int _ _ D V 9%nat "test_count" m.(MsgTestCount) eq_refl H10)). cbv beta.
  rewrite (decoded _ _ _ (written_opt_string _ _ D V 10%nat "dataset_checksum" m.(MsgDatasetChecksum) eq_refl H11)). cbv beta.
  pose proof (written_value _ _ D V 11%nat "test_cases" _ eq_refl) as E. cbn [given_value fst] in E. rewrite E, (decoded _ _ _ (slice_decoded _ H12)). cbv beta. by destruct m.
Qed.
