(* ===== verification/StreamTicket.v ===== *)
(** Stream tickets of the submission service: the signed token that lets a
    browser open the event stream of one of its user's submissions
    (services/submission/internal/adapter/outbound/stream/hmac_ticket.go,
    domain/entity/submission_stream.go) and the use case that issues it
    (application/usecase/user/issue_stream_ticket.go). *)

From S2P Require Import Prelude GoString GoError GoMonad GoTime JsonDecode GoCrypto SubmissionDomain SubmissionPorts WorkerDomain JudgeMessages.

Definition SubmissionStreamTicketPurpose : string := "submission_sse".

(** [SubmissionStreamTicketClaims] *)
Record TicketClaims := mkTicket {
  Purpose : string;
  TkUserID : string;
  TkSubmissionID : Z;
  IssuedAt : Time;
  ExpiresAt : Time;
}.

(** ** The JSON payload *)

Definition ticket_fields (c : TicketClaims) : list jfield :=
  [("purpose", Some (jstr c.(Purpose))); ("user_id", Some (jstr c.(TkUserID)));
   ("submission_id", Some (jint c.(TkSubmissionID))); ("issued_at", Some (jtime c.(IssuedAt)));
   ("expires_at", Some (jtime c.(ExpiresAt)))]%string.

(** [json.Marshal(claims)] *)
Definition marshal_ticket (c : TicketClaims) : option bytes :=
  match json_time c.(IssuedAt), json_time c.(ExpiresAt) with
  | Some i, Some e =>
      Some (json_object
        [("purpose", Some (json_string c.(Purpose))); ("user_id", Some (json_string c.(TkUserID)));
         ("submission_id", Some (json_int c.(TkSubmissionID))); ("issued_at", Some i); ("expires_at", Some e)]%string)
  | _, _ => None
  end.

Definition year_error : error :=
  EText "json: error calling MarshalJSON for type time.Time: Time.MarshalJSON: year outside of range [0,9999]".

Definition zero_ticket : TicketClaims := mkTicket "" "" 0 0 0.

Definition ticket_of_members (l : list (bytes * json)) : option TicketClaims :=
    p ← field dec_string ""%string (values_of "purpose" l);
    u ← field dec_string ""%string (values_of "user_id" l);
    s ← field dec_int 0 (values_of "submission_id" l);
    i ← field dec_time 0 (values_of "issued_at" l);
    e ← field dec_time 0 (values_of "expires_at" l);
    Some (mkTicket p u s i e).
(** [json.Unmarshal(payload, &claims)] *)
Definition decode_ticket : string -> option TicketClaims := unmarshal zero_ticket ticket_of_members.

(** ** The service *)

(** [sign] *)
Definition sign (secret payload : bytes) : bytes := HmacSha256 secret payload.

Definition dot : ascii := ascii_of_N 46.

Section service.
Context {W : Type} (now : M W Time) (secret : bytes) (ttl : Z).

Definition Issue (userID : string) (submissionID : Z) : M W (string * Time) :=
  let userID := TrimSpace userID in
  if (length secret =? 0)%nat || (ttl <=? 0) || bool_decide (userID = ""%string) || (submissionID <=? 0)
  then fail ErrInvalidStreamTicket
  else
    let* issuedAt := now in
    let expiresAt := issuedAt + ttl in
    match marshal_ticket (mkTicket SubmissionStreamTicketPurpose userID submissionID issuedAt expiresAt) with
    | None => fail (Wrap ErrInternalServer year_error)
    | Some payload => ret (str (B64Encode payload ++ dot :: B64Encode (sign secret payload)), expiresAt)
    end.

(** What a decoded ticket has to satisfy besides not being over. *)
Definition well_formed (c : TicketClaims) : bool :=
  bool_decide (c.(Purpose) = SubmissionStreamTicketPurpose) && negb (blank c.(TkUserID))
  && (0 <? c.(TkSubmissionID)) && negb (c.(IssuedAt) =? 0) && negb (c.(ExpiresAt) =? 0)
  && (c.(IssuedAt) <? c.(ExpiresAt)).

Definition Verify (ticket : string) : M W TicketClaims :=
  if (length secret =? 0)%nat then fail ErrInvalidStreamTicket else
  match split_on dot (chars ticket) with
  | [s0; s1] =>
      if bool_decide (s0 = []) || bool_decide (s1 = []) then fail ErrInvalidStreamTicket else
      match B64Decode s0, B64Decode s1 with
      | Some payload, Some signature =>
          if negb (bool_decide (signature = sign secret payload)) then fail ErrInvalidStreamTicket else
          match decode_ticket (str payload) with
          | Some claims =>
              if negb (well_formed claims) then fail ErrInvalidStreamTicket else
              let* t := now in
              if negb (t <? claims.(ExpiresAt)) then fail ErrExpiredStreamTicket else ret claims
          | None => fail ErrInvalidStreamTicket
          end
      | _, _ => fail ErrInvalidStreamTicket
      end
  | _ => fail ErrInvalidStreamTicket
  end.
End service.

(** [NewHMACSubmissionStreamTicketService] keeps the trimmed secret. *)
Definition ticket_secret (configured : string) : bytes := chars (TrimSpace configured).

(** ** Issuing a ticket *)

(** [IssueSubmissionStreamTicketUseCase.Execute] over the snapshot repository
    and the ticket service. *)
Definition issueTicket {W} (GetStreamSnapshot : Z -> M W (option SubmissionStreamSnapshot))
    (issue : string -> Z -> M W (string * Time)) (claims : Claims) (submissionID : Z) : M W (string * Time) :=
  if submissionID <=? 0 then fail ErrInvalidSubmissionID
  else if blank claims.(UserID) || bool_decide (claims.(ClaimRole) = ""%string) then fail ErrSubmissionUnauthenticated
  else if negb (known_role claims.(ClaimRole)) then fail ErrSubmissionForbidden
  else
    let* snapshot := on_error (fun e =>
      if errors_Is e ErrSubmissionNotFound then ErrSubmissionNotFound
      else if is_context_error e then e else Wrap ErrInternalServer e) (GetStreamSnapshot submissionID) in
    match snapshot with
    | None => fail ErrInternalServer
    | Some s =>
        if negb (bool_decide (s.(SnapUserID) = claims.(UserID))) then fail ErrSubmissionNotFound
        else on_error (fun e => if is_context_error e then e else Wrap ErrInternalServer e)
               (issue claims.(UserID) s.(SnapSubmissionID))
    end.

(** ** Round trip *)

Lemma ticket_names_ok c : distinct_names (map fst (ticket_fields c)) = true
  /\ forallb (fun n => valid_utf8 (chars n)) (map fst (ticket_fields c)) = true.
Proof.
  change (map fst (ticket_fields c)) with ["purpose"; "user_id"; "submission_id"; "issued_at"; "expires_at"]%string.
  split; vm_compute; reflexivity.
Qed.

Definition representable (c : TicketClaims) : Prop := utf8 c.(Purpose) /\ utf8 c.(TkUserID) /\ in_int64 c.(TkSubmissionID).

Lemma written_time fs l i name t init : distinct_names (map fst fs) = true -> (forall name, values_of name l = given name fs) ->
  fs !! i = Some (name, Some (jtime t)) -> parse_rfc3339 (rfc3339_nano t) = Some t ->
  field dec_time init (values_of name l) = Some t.
Proof. intros D V H T. rewrite (written_value _ _ D V _ _ _ H). by apply field_one. Qed.

Lemma marshal_ticket_fields c payload : marshal_ticket c = Some payload ->
  payload = json_object (map (fun f => (f.1, snd <$> f.2)) (ticket_fields c))
  /\ parse_rfc3339 (rfc3339_nano c.(IssuedAt)) = Some c.(IssuedAt)
  /\ parse_rfc3339 (rfc3339_nano c.(ExpiresAt)) = Some c.(ExpiresAt).
Proof.
  unfold marshal_ticket. destruct (json_time c.(IssuedAt)) as [bi|] eqn:Ti; [|discriminate].
  destruct (json_time c.(ExpiresAt)) as [be|] eqn:Te; [|discriminate]. intros H. injection H as <-.
  apply json_time_some in Ti as (-> & Yi), Te as (-> & Ye). split_and!; [|by apply parse_rfc3339_nano..].
  unfold ticket_fields. cbn [map fst snd fmap option_fmap option_map]. reflexivity.
Qed.

Lemma ticket_fields_read c : representable c -> Forall (field_reads 0) (ticket_fields c).
Proof.
  intros (H1 & H2 & H3). unfold ticket_fields. repeat (apply Forall_cons_2;
    [first [by apply jint_reads | apply jstr_reads | apply jtime_reads]|]). apply Forall_nil_2.
Qed.

Lemma ticket_members c : representable c -> parse_rfc3339 (rfc3339_nano c.(IssuedAt)) = Some c.(IssuedAt) ->
  parse_rfc3339 (rfc3339_nano c.(ExpiresAt)) = Some c.(ExpiresAt) ->
  ticket_of_members (map member_of (present (ticket_fields c))) = Some c.
Proof.
  intros (H1 & H2 & H3) Yi Ye. destruct (ticket_names_ok c) as [D N]. set (l := map member_of _).
  assert (V : forall name, values_of name l = given name (ticket_fields c)).
  { intros name. apply values_of_written, names_valid, N. }
  unfold ticket_of_members.
  rewrite (decoded _ _ _ (written_string _ _ D V 0%nat "purpose" c.(Purpose) ""%string eq_refl H1)). cbv beta.
  rewrite (decoded _ _ _ (written_string _ _ D V 1%nat "user_id" c.(TkUserID) ""%string eq_refl H2)). cbv beta.
  rewrite (decoded _ _ _ (written_int _ _ D V 2%nat "submission_id" c.(TkSubmissionID) 0 eq_refl H3)). cbv beta.
  rewrite (decoded _ _ _ (written_time _ _ 3%nat "issued_at" c.(IssuedAt) 0 D V eq_refl Yi)). cbv beta.
  rewrite (decoded _ _ _ (written_time _ _ 4%nat "expires_at" c.(ExpiresAt) 0 D V eq_refl Ye)). cbv beta.
  by destruct c.
Qed.

Lemma ticket_decoded c payload : representable c -> marshal_ticket c = Some payload -> decode_ticket (str payload) = Some c.
Proof.
  intros R (-> & Yi & Ye)%marshal_ticket_fields. unfold decode_ticket.
  rewrite (unmarshal_written _ _ _ 0); [by apply ticket_members|by apply ticket_fields_read|apply present_some|unfold max_depth; lia].
Qed.

Lemma split_dot l1 l2 : Forall (fun c => is_byte 46 c = false) l1 -> Forall (fun c => is_byte 46 c = false) l2 ->
  split_on dot (l1 ++ dot :: l2) = [l1; l2].
Proof.
  assert (E : forall c, is_byte 46 c = false -> Stdlib.Strings.Ascii.eqb c dot = false).
  { intros c H. apply Stdlib.Strings.Ascii.eqb_neq. intros ->. discriminate. }
  assert (S : forall l, Forall (fun c => is_byte 46 c = false) l -> split_on dot l = [l]).
  { induction 1 as [|c l H F IH]; [done|]. cbn [split_on]. by rewrite (E c H), IH. }
  intros F1 F2. induction F1 as [|c l H F IH]; cbn [app split_on].
  - change (Stdlib.Strings.Ascii.eqb dot dot) with true. cbv iota. by rewrite S.
  - cbn [app] in IH. by rewrite (E c H), IH.
Qed.

Lemma split_on_some c l : exists h t, split_on c l = h :: t.
Proof. induction l as [|x l (h & t & E)]; cbn; [eauto|]. rewrite E. case_match; eauto. Qed.

Lemma split_one c l s : split_on c l = [s] -> l = s.
Proof.
  revert s. induction l as [|x l IH]; intros s; cbn [split_on]; [by intros [= <-]|].
  destruct (split_on_some c l) as (h & t & E). rewrite E in *. case_match; [done|].
  intros [= <- ->]. f_equal. by apply IH.
Qed.

Lemma split_dot_inv l s0 s1 : split_on dot l = [s0; s1] -> l = s0 ++ dot :: s1.
Proof.
  revert s0. induction l as [|x l IH]; intros s0; cbn [split_on]; [done|].
  destruct (Stdlib.Strings.Ascii.eqb_spec x dot) as [->|N].
  - intros [= <- E]. cbn. f_equal. by eapply split_one.
  - destruct (split_on dot l) as [|h t] eqn:E; [done|]. intros [= <- ->]. cbn. f_equal. by apply IH.
Qed.

(** A ticket that was issued verifies as long as it is not over, and gives
    back what it was issued for. *)
Lemma issued_verifies {W} (now : M W Time) secret ttl userID sid w ticket expires w1 :
  utf8 userID -> in_int64 sid -> Issue now secret ttl userID sid w = (inr (ticket, expires), w1) ->
  (forall t w2, now w = (inr t, w2) -> 0 < t) ->
  exists issued, now w = (inr issued, w1) /\ expires = issued + ttl /\
    forall w2 t w3, now w2 = (inr t, w3) ->
      Verify now secret ticket w2 =
        (if t <? expires then inr (mkTicket SubmissionStreamTicketPurpose (TrimSpace userID) sid issued expires)
         else inl ErrExpiredStreamTicket, w3).
Proof.
  intros U I H P. unfold Issue in H. destruct (_ || _) eqn:G; [done|].
  rewrite !orb_false_iff, bool_decide_eq_false, !Z.leb_gt, Nat.eqb_neq in G. destruct G as (((G1 & G2) & G3) & G4).
  apply bind_inr_inv in H as (t0 & w0 & N & H). specialize (P _ _ N).
  destruct (marshal_ticket _) as [payload|] eqn:M; [|done]. injection H as <- <- <-. exists t0. split_and!; [done|done|].
  intros w2 t w3 N2. unfold Verify. apply Nat.eqb_neq in G1. rewrite G1, chars_str, split_dot by apply B64Encode_no_dot.
  assert (NE : payload <> []) by (unfold marshal_ticket in M; repeat case_match; simplify_eq; by intros [=]).
  assert (SE : sign secret payload <> []) by (intros E; pose proof (Sum256_length (xor_with 0x5c (hmac_block secret) ++ Sum256 (xor_with 0x36 (hmac_block secret) ++ payload))) as L; unfold sign, HmacSha256 in E; cbv zeta in E; rewrite E in L; done).
  rewrite !bool_decide_false by (by apply B64Encode_nonempty). cbn [orb].
  rewrite !B64Decode_Encode, bool_decide_true by done. cbn [negb].
  rewrite (ticket_decoded (mkTicket SubmissionStreamTicketPurpose (TrimSpace userID) sid t0 (t0 + ttl))); [|split_and!|exact M].
  - assert (F : well_formed (mkTicket SubmissionStreamTicketPurpose (TrimSpace userID) sid t0 (t0 + ttl)) = true).
    { unfold well_formed. cbn. rewrite !andb_true_iff, !negb_true_iff, !Z.eqb_neq, !Z.ltb_lt, blank_trim.
      split_and!; try lia; [by apply bool_decide_eq_true|]. unfold blank. by apply bool_decide_eq_false. }
    rewrite F. cbn [negb]. rewrite (bind_inr _ _ _ _ _ N2). cbn [ExpiresAt]. by destruct (t <? t0 + ttl).
  - done.
  - unfold utf8, ValidString, TrimSpace in *. cbn. rewrite chars_str. apply valid_utf8_spec. apply trim_valid. by apply valid_utf8_spec.
  - done.
Qed.

(** A ticket that verifies carries a signature by the secret over exactly the
    claims it gives, and is not over. *)
Lemma verified_is_signed {W} (now : M W Time) secret ticket w c w' : Verify now secret ticket w = (inr c, w') ->
  exists payload, secret <> [] /\ decode_ticket (str payload) = Some c /\ well_formed c = true
    /\ (exists s0 s1, chars ticket = s0 ++ dot :: s1 /\ B64Decode s0 = Some payload /\ B64Decode s1 = Some (sign secret payload))
    /\ exists t, now w = (inr t, w') /\ t < c.(ExpiresAt).
Proof.
  unfold Verify. destruct (Nat.eqb_spec (length secret) 0) as [|L]; [done|].
  destruct (split_on dot (chars ticket)) as [|s0 [|s1 [|]]] eqn:S; try done. destruct (_ || _); [done|].
  destruct (B64Decode s0) as [payload|] eqn:D0; [|done]. destruct (B64Decode s1) as [signature|] eqn:D1; [|done].
  case_bool_decide as Sg; [|done]. cbn [negb]. destruct (decode_ticket _) as [c'|] eqn:D; [|done].
  destruct (well_formed c') eqn:F; [|done]. cbn [negb]. intros (t & w1 & N & H)%bind_inr_inv.
  destruct (Z.ltb_spec t c'.(ExpiresAt)); [|done]. injection H as <- <-. exists payload. split_and!; try done.
  - by intros ->.
  - exists s0, s1. split_and!; [by apply split_dot_inv|done|congruence].
  - by exists t.
Qed.
