(* ===== verification/EventStream.v ===== *)
(** The event stream endpoint of the submission service
    (services/submission/internal/adapter/inbound/http/handler/user/submission_events.go):
    the checks before a stream is opened, the snapshot it starts with, and the
    loop that forwards the events of the followed attempt. *)

From S2P Require Import Prelude GoString GoError GoMonad GoTime SubmissionDomain StreamTicket.

(** ** Frames *)

Definition nl : bytes := [ascii_of_N 10].

(** [json.Marshal(event)] *)
Definition marshal_event (e : SubmissionEvent) : option bytes :=
  match json_time e.(EvUpdatedAt) with
  | Some t => Some (json_object
      [("submission_id", Some (json_int e.(EvSubmissionID))); ("attempt_id", Some (json_string e.(EvAttemptID)));
       ("status", Some (json_string e.(EvStatus))); ("updated_at", Some t)]%string)
  | None => None
  end.

Definition event_id (e : SubmissionEvent) : bytes :=
  chars (Itoa e.(EvSubmissionID)) ++ chars ":" ++ chars e.(EvAttemptID) ++ chars ":" ++ rfc3339_nano e.(EvUpdatedAt).

Definition retry_frame : bytes := chars "retry: 3000" ++ nl ++ nl.
Definition heartbeat_frame : bytes := chars ": heartbeat" ++ nl ++ nl.

Definition snapshot_name : bytes := chars "submission.snapshot".
Definition updated_name : bytes := chars "submission.updated".
Definition completed_name : bytes := chars "submission.completed".

(** The lines of an event; each is one write. *)
Definition event_lines (name : bytes) (e : SubmissionEvent) (payload : bytes) : list bytes :=
  [chars "event: " ++ name ++ nl; chars "id: " ++ event_id e ++ nl; chars "data: " ++ payload ++ nl ++ nl].

(** ** CORS *)

(** [applyCORS]: the headers to set, or a refusal. *)
Definition applyCORS (allowedOrigin origin : string) : option (list (string * string)) :=
  if bool_decide (allowedOrigin = ""%string) then Some []
  else if bool_decide (origin = ""%string) then Some []
  else if negb (bool_decide (origin = allowedOrigin)) then None
  else Some [("Access-Control-Allow-Origin", allowedOrigin); ("Vary", "Origin")]%string.

(** [parsePositiveInt64] *)
Definition parsePositiveInt64 (raw : string) : option Z :=
  match ParseInt raw with Some v => if 0 <? v then Some v else None | None => None end.

Definition stream_headers : list (string * string) :=
  [("Content-Type", "text/event-stream"); ("Cache-Control", "no-cache, no-transform");
   ("Connection", "keep-alive"); ("X-Accel-Buffering", "no")]%string.

(** ** The handler *)

(** What the select of the loop receives next. *)
Inductive Input :=
  | ContextDone
  | Heartbeat
  | HubEvent (e : SubmissionEvent)
  | HubClosed.

(** How the handler ends: with an error response or after streaming; a stream
    that is still waiting for its next input is [Open]. *)
Inductive Served := Rejected (e : error) | Ended_stream | Open_stream.

Section handler.
Context {W : Type} (Verify : string -> M W TicketClaims) (Subscribe : Z -> M W nat) (unsubscribe : nat -> M W unit)
  (GetStreamSnapshot : Z -> M W (option SubmissionStreamSnapshot))
  (SetHeader : string * string -> M W unit) (write : bytes -> M W unit).

Fixpoint set_headers (hs : list (string * string)) : M W unit :=
  match hs with [] => ret tt | h :: r => let* _ := SetHeader h in set_headers r end.

Fixpoint write_all (ls : list bytes) : M W unit :=
  match ls with [] => ret tt | l :: r => let* _ := write l in write_all r end.

Definition writeSSEEvent (name : bytes) (e : SubmissionEvent) : M W unit :=
  match marshal_event e with
  | None => fail (EWrap "marshal submission SSE event" year_error)
  | Some payload => write_all (event_lines name e payload)
  end.

Definition event_name (e : SubmissionEvent) : bytes :=
  match ParseStatus e.(EvStatus) with
  | Some st => if IsTerminalStatus st then completed_name else updated_name
  | None => updated_name
  end.

(** One turn of the loop; [false] is a return.  A failed write is logged and
    ends the stream. *)
Definition stream_turn (submissionID : Z) (attemptID : string) (i : Input) : M W bool :=
  let written (m : M W unit) (go : bool) : M W bool :=
    let* r := try m in ret (match r with inl _ => false | inr _ => go end) in
  match i with
  | ContextDone => ret false
  | Heartbeat => written (write heartbeat_frame) true
  | HubClosed => ret false
  | HubEvent e =>
      if negb (e.(EvSubmissionID) =? submissionID) || negb (bool_decide (e.(EvAttemptID) = attemptID)) then ret true
      else written (writeSSEEvent (event_name e) e) (negb (bool_decide (event_name e = completed_name)))
  end.

(** The loop over the inputs that arrive; [true] when it waits for more. *)
Fixpoint stream_loop (submissionID : Z) (attemptID : string) (inputs : list Input) : M W bool :=
  match inputs with
  | [] => ret true
  | i :: r => let* go := stream_turn submissionID attemptID i in
              if go : bool then stream_loop submissionID attemptID r else ret false
  end.

(** The stream after all checks. *)
Definition stream_body (submissionID : Z) (s : SubmissionStreamSnapshot) (inputs : list Input) : M W Served :=
  let* _ := set_headers stream_headers in
  let* r := try (write retry_frame) in
  match r with
  | inl _ => ret Ended_stream
  | inr _ =>
      let terminal := IsTerminalStatus s.(SnapStatus) in
      let* r := try (writeSSEEvent (if terminal then completed_name else snapshot_name) (SnapshotEvent s)) in
      match r with
      | inl _ => ret Ended_stream
      | inr _ =>
          if terminal then ret Ended_stream
          else let* go := stream_loop submissionID s.(SnapAttemptID) inputs in
               ret (if go : bool then Open_stream else Ended_stream)
      end
  end.

(** The subscribed part: the snapshot is read after the subscription. *)
Definition subscribed_part (submissionID : Z) (claims : TicketClaims) (flusher : bool) (inputs : list Input) : M W Served :=
  let* r := try (GetStreamSnapshot submissionID) in
  match r with
  | inl e => ret (Rejected (if errors_Is e ErrSubmissionNotFound || is_context_error e then e else Wrap ErrInternalServer e))
  | inr None => ret (Rejected ErrInternalServer)
  | inr (Some s) =>
      if negb (bool_decide (s.(SnapUserID) = claims.(TkUserID))) then ret (Rejected ErrSubmissionNotFound)
      else if negb flusher then ret (Rejected ErrSubmissionStreamUnsupported)
      else stream_body submissionID s inputs
  end.

(** [SubmissionEventsHandler.Handle]; [param], [query] and [origin] are what
    gin gives for the path, the ticket and the header.  A stream that is still
    open has not run its deferred [unsubscribe]. *)
Definition Handle (allowedOrigin param query origin : string) (flusher : bool) (inputs : list Input) : M W Served :=
  match parsePositiveInt64 param with
  | None => ret (Rejected ErrInvalidSubmissionID)
  | Some submissionID =>
      match applyCORS (TrimSpace allowedOrigin) origin with
      | None => ret (Rejected ErrSubmissionForbidden)
      | Some cors =>
          let* _ := set_headers cors in
          let* v := try (Verify query) in
          match v with
          | inl e => ret (Rejected e)
          | inr claims =>
              if negb (claims.(TkSubmissionID) =? submissionID) then ret (Rejected ErrInvalidStreamTicket)
              else
                let* s := Subscribe submissionID in
                let* r := subscribed_part submissionID claims flusher inputs in
                match r with
                | Open_stream => ret Open_stream
                | r => let* _ := unsubscribe s in ret r
                end
          end
      end
  end.
End handler.

(** ** What a stream shows *)

(** The event is one of the followed attempt. *)
Definition follows (sid : Z) (aid : string) (e : SubmissionEvent) : bool :=
  (e.(EvSubmissionID) =? sid) && bool_decide (e.(EvAttemptID) = aid).

Definition completes (e : SubmissionEvent) : bool := IsTerminalStatus e.(EvStatus).

(** The inputs that end the stream. *)
Definition ends (sid : Z) (aid : string) (i : Input) : bool :=
  match i with
  | ContextDone | HubClosed => true
  | Heartbeat => false
  | HubEvent e => follows sid aid e && completes e
  end.

(** The writes for one input. *)
Definition shown (sid : Z) (aid : string) (i : Input) : list bytes :=
  match i with
  | ContextDone | HubClosed => []
  | Heartbeat => [heartbeat_frame]
  | HubEvent e =>
      if follows sid aid e
      then match marshal_event e with
           | Some payload => event_lines (if completes e then completed_name else updated_name) e payload
           | None => []
           end
      else []
  end.

(** The inputs up to the first that ends the stream. *)
Fixpoint until (p : Input -> bool) (l : list Input) : list Input :=
  match l with [] => [] | i :: r => if p i then [i] else i :: until p r end.

Lemma event_name_spec e : event_name e = if completes e then completed_name else updated_name.
Proof.
  unfold event_name, completes, ParseStatus, IsTerminalStatus. case_bool_decide as V; [done|].
  case_bool_decide as T; [|done]. destruct V. by do 2 right.
Qed.

Lemma completed_not_updated : bool_decide (updated_name = completed_name) = false.
Proof. vm_compute. reflexivity. Qed.

Section shows.
Context {W : Type} (write : bytes -> M W unit) (out : W -> list bytes).
(** The connection takes every write. *)
Context (write_ok : forall b w, exists w', write b w = (inr tt, w') /\ out w' = out w ++ [b]).

Lemma write_all_ok ls w : exists w', write_all write ls w = (inr tt, w') /\ out w' = out w ++ ls.
Proof using write_ok.
  revert w. induction ls as [|l ls IH]; intros w; cbn; [exists w; by rewrite app_nil_r|].
  destruct (write_ok l w) as (w1 & E & O). rewrite (bind_inr _ _ _ _ _ E). destruct (IH w1) as (w2 & E2 & O2).
  exists w2. by rewrite E2, O2, O, <- (assoc_L app).
Qed.

Definition timely (i : Input) : Prop := match i with HubEvent e => is_Some (marshal_event e) | _ => True end.

Lemma stream_turn_ok sid aid i w : timely i ->
  exists w', stream_turn write sid aid i w = (inr (negb (ends sid aid i)), w') /\ out w' = out w ++ shown sid aid i.
Proof using write_ok.
  intros T. destruct i as [| |e|]; cbn [stream_turn ends shown].
  - exists w. by rewrite app_nil_r.
  - destruct (write_ok heartbeat_frame w) as (w1 & E & O). exists w1. unfold bind, try. by rewrite E.
  - unfold follows. destruct (e.(EvSubmissionID) =? sid), (bool_decide _) eqn:A; cbn [negb orb andb];
      try (exists w; by rewrite app_nil_r). unfold writeSSEEvent. rewrite event_name_spec.
    destruct T as [payload M]. rewrite M.
    destruct (write_all_ok (event_lines (if completes e then completed_name else updated_name) e payload) w) as (w1 & E & O).
    exists w1. split; [|done]. unfold bind, try. rewrite E. unfold ret. do 3 f_equal.
    destruct (completes e); [by rewrite bool_decide_true|by rewrite completed_not_updated].
  - exists w. by rewrite app_nil_r.
Qed.

(** The loop forwards exactly the events of its attempt and the heartbeats, and
    stops at the first completion of the attempt (or when the connection or the
    subscription is gone). *)
Lemma stream_loop_ok sid aid inputs w : Forall timely inputs ->
  exists w', stream_loop write sid aid inputs w = (inr (negb (existsb (ends sid aid) inputs)), w')
    /\ out w' = out w ++ concat (map (shown sid aid) (until (ends sid aid) inputs)).
Proof using write_ok.
  intros F. revert w. induction F as [|i r T F IH]; intros w; cbn [stream_loop existsb until].
  - exists w. by rewrite app_nil_r.
  - destruct (stream_turn_ok sid aid i w T) as (w1 & E & O). rewrite (bind_inr _ _ _ _ _ E).
    destruct (ends sid aid i) eqn:B; cbn [negb orb].
    + exists w1. split; [done|]. rewrite O. cbn. by rewrite app_nil_r.
    + destruct (IH w1) as (w2 & E2 & O2). exists w2. split; [done|]. rewrite O2, O. cbn. by rewrite (assoc_L app).
Qed.

(** Setting a header writes nothing. *)
Context (SetHeader : string * string -> M W unit).
Context (header_ok : forall h w, exists w', SetHeader h w = (inr tt, w') /\ out w' = out w).

Lemma set_headers_ok hs w : exists w', set_headers SetHeader hs w = (inr tt, w') /\ out w' = out w.
Proof using header_ok.
  revert w. induction hs as [|h hs IH]; intros w; cbn; [by exists w|].
  destruct (header_ok h w) as (w1 & E & O). rewrite (bind_inr _ _ _ _ _ E). destruct (IH w1) as (w2 & E2 & O2).
  exists w2. by rewrite E2, O2, O.
Qed.

(** The frames of a stream: the retry hint, the snapshot, and what the loop shows. *)
Definition stream_frames (sid : Z) (s : SubmissionStreamSnapshot) (payload : bytes) (inputs : list Input) : list bytes :=
  retry_frame :: event_lines (if IsTerminalStatus s.(SnapStatus) then completed_name else snapshot_name) (SnapshotEvent s) payload
  ++ if IsTerminalStatus s.(SnapStatus) then []
     else concat (map (shown sid s.(SnapAttemptID)) (until (ends sid s.(SnapAttemptID)) inputs)).

Lemma stream_body_ok sid s payload inputs w : marshal_event (SnapshotEvent s) = Some payload -> Forall timely inputs ->
  exists w', stream_body SetHeader write sid s inputs w
    = (inr (if IsTerminalStatus s.(SnapStatus) || existsb (ends sid s.(SnapAttemptID)) inputs then Ended_stream else Open_stream), w')
    /\ out w' = out w ++ stream_frames sid s payload inputs.
Proof using write_ok header_ok.
  intros Mp F. unfold stream_body, stream_frames. destruct (set_headers_ok stream_headers w) as (w0 & E0 & O0).
  rewrite (bind_inr _ _ _ _ _ E0). destruct (write_ok retry_frame w0) as (w1 & E1 & O1).
  assert (T1 : try (write retry_frame) w0 = (inr (inr tt), w1)) by (unfold try; by rewrite E1).
  rewrite (bind_inr _ _ _ _ _ T1). set (name := if IsTerminalStatus _ then _ else _).
  destruct (write_all_ok (event_lines name (SnapshotEvent s) payload) w1) as (w2 & E2 & O2).
  assert (T2 : try (writeSSEEvent write name (SnapshotEvent s)) w1 = (inr (inr tt), w2)) by (unfold try, writeSSEEvent; by rewrite Mp, E2).
  rewrite (bind_inr _ _ _ _ _ T2). destruct (IsTerminalStatus s.(SnapStatus)); cbn [orb].
  - exists w2. split; [done|]. by rewrite O2, O1, O0, app_nil_r, <- (assoc_L app).
  - destruct (stream_loop_ok sid s.(SnapAttemptID) inputs w2 F) as (w3 & E3 & O3). rewrite (bind_inr _ _ _ _ _ E3).
    exists w3. split; [by destruct (existsb _ _)|]. rewrite O3, O2, O1, O0. cbn [app]. by rewrite <- !(assoc_L app).
Qed.
End shows.

(** A stream is opened only after the ticket verified for this submission, for
    the user the submission belongs to, and its snapshot was read after the
    subscription. *)
Lemma opened_checked {W} Verify Subscribe unsubscribe GetStreamSnapshot SetHeader write allowedOrigin param query origin flusher inputs
    (w w' : W) r : Handle Verify Subscribe unsubscribe GetStreamSnapshot SetHeader write allowedOrigin param query origin flusher inputs w
    = (inr r, w') -> (forall e, r <> Rejected e) ->
  exists sid claims s w0 w1 w2 w3 w4 sub, parsePositiveInt64 param = Some sid
    /\ Verify query w0 = (inr claims, w1) /\ claims.(TkSubmissionID) = sid
    /\ Subscribe sid w1 = (inr sub, w2) /\ GetStreamSnapshot sid w2 = (inr (Some s), w3) /\ s.(SnapUserID) = claims.(TkUserID)
    /\ stream_body SetHeader write sid s inputs w3 = (inr r, w4)
    /\ (r = Ended_stream -> unsubscribe sub w4 = (inr tt, w')).
Proof.
  intros H NR. unfold Handle in H. destruct (parsePositiveInt64 param) as [sid|]; [|injection H as <- _; by destruct (NR ErrInvalidSubmissionID)].
  destruct (applyCORS _ _) as [cors|]; [|injection H as <- _; by destruct (NR ErrSubmissionForbidden)].
  apply bind_inr_inv in H as ([] & w0 & _ & H). apply bind_inr_inv in H as (v & w1 & V & H).
  destruct v as [e|claims]; [injection H as <- _; by destruct (NR e)|].
  destruct (Z.eqb_spec claims.(TkSubmissionID) sid) as [I|]; [|injection H as <- _; by destruct (NR ErrInvalidStreamTicket)].
  cbn [negb] in H. apply bind_inr_inv in H as (sub & w2 & S & H). apply bind_inr_inv in H as (r0 & w4 & B & H).
  assert (r0 = r) as ->.
  { destruct r0; [apply bind_inr_inv in H as ([] & ? & _ & H)|apply bind_inr_inv in H as ([] & ? & _ & H)|]; by injection H. }
  unfold subscribed_part in B. apply bind_inr_inv in B as (g & w3 & G & B).
  destruct g as [e|[s|]]; [injection B as <- _; by edestruct NR| |injection B as <- _; by edestruct NR].
  case_bool_decide as U; [|injection B as <- _; by edestruct NR]. destruct flusher; [|injection B as <- _; by edestruct NR].
  cbn [negb] in B. exists sid, claims, s, w0, w1, w2, w3, w4, sub. split_and!; try done.
  - unfold try in V. by destruct (Verify query w0) as [[]]; simplify_eq.
  - unfold try in G. by destruct (GetStreamSnapshot sid w2) as [[]]; simplify_eq.
  - intros ->. by apply bind_inr_inv in H as ([] & ? & ? & [= <-]).
Qed.
