(* ===== verification/StreamGuarantees.v ===== *)
(** Guarantees of the event stream of the submission service: its hub, its
    tickets and what a stream shows. *)

From S2P Require Import Prelude GoString GoError GoMonad GoTime JsonDecode GoCrypto SubmissionDomain SubmissionPorts JudgeMessages StreamTicket EventHub HubHistory StreamSystem EventStream.

(** ** A run with one stream *)

Definition accepted1 : SubmissionEvent := mkEvent 7 "attempt-1" "ACCEPTED" 1000000000.
Definition accepted2 : SubmissionEvent := mkEvent 7 "attempt-2" "ACCEPTED" 2000000000.

(** The result of a rejudge is published before the reader of a stream has
    taken the result of the attempt it follows. *)
Definition rejudged : list Move :=
  [Join 7 0; Commit 1 accepted1; Announce 1 [0%nat]; Other (LStep 1); Other (LStep 1); Other (LStep 1);
   Commit 2 accepted2; Announce 2 [0%nat]; Other (LStep 2); Other (LStep 2); Other (LStep 2); Other (LStep 2); Other (LStep 2);
   Other (LReceive 0)].

Definition outcome_of (ms : list Move) : option (list Obs * bool) :=
  match exec calm ms new_system with
  | Some (y, o) => Some (o, bool_decide (y.(announcing) = ∅ /\ y.(sys_hub).(tasks) = ∅))
  | None => None
  end.

(** The completion of the followed attempt is thrown away for the one of the
    next attempt, which the stream ignores: at rest it waits for ever. *)
Lemma completion_replaced : outcome_of rejudged =
  Some ([Sent 0 accepted1; Discarded 0 accepted1; Sent 0 accepted2; Received 0 accepted2], true)
  /\ follows 7 "attempt-1" accepted1 && completes accepted1 = true /\ shown 7 "attempt-1" (HubEvent accepted2) = []
  /\ ends 7 "attempt-1" (HubEvent accepted2) = false.
Proof. vm_compute. done. Qed.

(** ** The hub *)

(** C9: in every run of the hub no goroutine panics (no send on and no second
    close of a closed channel) and no event is lost at the last default; the
    channel of a stream is a queue of at most one event, from which exactly the
    accepted events come out, in order, and unless a publisher is just refilling
    it the last event accepted is the one unread or, if there is none, the one
    received last. *)
Theorem hub_is_latest_value_queue ls h o : run NewSubmissionEventHub ls h o ->
  (forall l, perform l h <> Panic) /\ (forall s e, Lost s e ∉ o)
  /\ forall s x, h.(heap) !! s = Some x ->
       (length x.(ch) <= 1)%nat /\ taken_from s o ++ x.(ch) = sent_to s o
       /\ (~ refilling h s -> last (received_by s o ++ x.(ch)) = last (sent_to s o)).
Proof.
  intros R. destruct (run_traced _ _ _ R) as [OK [_ H L]]. split_and!; [|done|].
  - intros l. pose proof (perform_ok l h OK). by destruct (perform l h).
  - intros s x Hx. destruct (H s x Hx) as [F La]. split_and!; [by apply (ok_subs _ OK _ _ Hx)|done|done].
Qed.

Lemma hub_is_latest_value_queue_witness :
  (forall l, perform l (Subscribe 7 0 NewSubmissionEventHub) <> Panic) /\ (forall s e, Lost s e ∉ @nil Obs)
  /\ forall s x, (Subscribe 7 0 NewSubmissionEventHub).(heap) !! s = Some x ->
       (length x.(ch) <= 1)%nat /\ taken_from s [] ++ x.(ch) = sent_to s []
       /\ (~ refilling (Subscribe 7 0 NewSubmissionEventHub) s -> last (received_by s [] ++ x.(ch)) = last (sent_to s [])).
Proof.
  apply (hub_is_latest_value_queue [LSubscribe 7 0]).
  apply (run_snoc _ [] NewSubmissionEventHub [] (LSubscribe 7 0) _ []); [constructor|reflexivity].
Defined.

(** C10: nobody inside the hub waits for a reader.  From every reachable state
    the goroutines inside it take at most [total_work] further steps whatever
    the scheduler does, as long as one is inside one of them can go on, and so
    all of them return without any receive; a [Publish] that has returned has
    handed its event to every subscription it found, unless that was closed
    meanwhile. *)
Theorem publish_terminates ls h o : run NewSubmissionEventHub ls h o ->
  (forall ls' h' o', run h ls' h' o' -> Forall step_of ls' -> Z.of_nat (length ls') <= total_work h)
  /\ (h.(tasks) <> ∅ -> exists t h' o', perform (LStep t) h = Next h' o')
  /\ (exists ls' h' o', Forall step_of ls' /\ run h ls' h' o' /\ h'.(tasks) = ∅)
  /\ (forall t e order ls' h' o', h.(tasks) !! t = Some (TPublish e order) -> run h ls' h' o' -> h'.(tasks) !! t = None ->
        Forall (fun s => Sent s e ∈ o' \/ exists x, h'.(heap) !! s = Some x /\ x.(EventHub.closed) = true) order).
Proof.
  intros R. destruct (run_traced _ _ _ R) as [OK _]. split_and!.
  - intros ls' h' o' R' F. pose proof (steps_bounded _ _ _ _ R' F). pose proof (total_work_pos h'). lia.
  - by apply some_step.
  - by apply hub_quiesces.
  - intros t e order ls' h' o' E R' N. exact (publish_serves h t e order ls' h' o' OK E R' N).
Qed.

(** The run of a list of labels. *)
Fixpoint play (ls : list Label) (h : Hub) : option (Hub * list Obs) :=
  match ls with
  | [] => Some (h, [])
  | l :: r => match perform l h with
              | Next h1 o1 => '(h2, o2) ← play r h1; Some (h2, o1 ++ o2)
              | _ => None
              end
  end.

Lemma play_from h0 ls0 h o0 ls h' o : run h0 ls0 h o0 -> play ls h = Some (h', o) -> run h0 (ls0 ++ ls) h' (o0 ++ o).
Proof.
  revert ls0 h o0 o. induction ls as [|l ls IH]; intros ls0 h o0 o R; cbn [play].
  - intros [= <- <-]. by rewrite !app_nil_r.
  - destruct (perform l h) as [| |h1 o1] eqn:E; [done..|].
    destruct (play ls h1) as [[h2 o2]|] eqn:P; [|done]. cbn. intros [= <- <-].
    rewrite (cons_middle l), !app_assoc. apply (IH _ h1); [|done]. by eapply run_snoc.
Qed.

Lemma play_run h ls h' o : play ls h = Some (h', o) -> run h ls h' o.
Proof. apply (play_from h [] h []). constructor. Qed.

(** Two streams of the submission 7: the goroutine 1 publishes to both while the
    goroutine 2 gives back the subscription of the second. *)
Definition busy : list Label := [LSubscribe 7 0; LSubscribe 7 1; LPublish 1 accepted1 [1; 0]%nat; LUnsubscribe 2 1].
Definition finishing : list Label :=
  [LStep 2; LStep 2; LStep 2; LStep 2; LStep 1; LStep 1; LStep 1; LStep 1].

#[export] Instance SubmissionEvent_eq_dec : EqDecision SubmissionEvent.
Proof. solve_decision. Defined.
#[export] Instance Task_eq_dec : EqDecision Task.
Proof. solve_decision. Defined.
#[export] Instance Obs_eq_dec : EqDecision Obs.
Proof. solve_decision. Defined.

Lemma busy_ok : exists h o h' o', play busy NewSubmissionEventHub = Some (h, o) /\ play finishing h = Some (h', o')
  /\ h.(tasks) !! 1%nat = Some (TPublish accepted1 [1; 0]%nat) /\ h.(tasks) !! 2%nat = Some (TRemove 1) /\ total_work h = 13
  /\ h'.(tasks) = ∅ /\ o' = [Sent 0 accepted1].
Proof.
  set (test := fun h h' (o' : list Obs) => bool_decide (h.(tasks) !! 1%nat = Some (TPublish accepted1 [1; 0]%nat)
    /\ h.(tasks) !! 2%nat = Some (TRemove 1) /\ total_work h = 13 /\ h'.(tasks) = ∅ /\ o' = [Sent 0 accepted1])).
  assert (B : match play busy NewSubmissionEventHub with
              | Some (h, _) => match play finishing h with Some (h', o') => test h h' o' | None => false end
              | None => false
              end = true) by (vm_compute; reflexivity).
  destruct (play busy _) as [[h o]|]; [|done]. destruct (play finishing h) as [[h' o']|] eqn:F; [|done].
  apply bool_decide_eq_true in B. by exists h, o, h', o'.
Qed.

(** In that state one of the two can move, thirteen steps are the most there
    can be, and at the end of the run [finishing] the open stream has the event
    and the other is closed. *)
Lemma publish_terminates_witness : exists h o h' o',
  run NewSubmissionEventHub busy h o /\ h.(tasks) !! 1%nat = Some (TPublish accepted1 [1; 0]%nat)
  /\ h.(tasks) !! 2%nat = Some (TRemove 1) /\ run h finishing h' o' /\ h'.(tasks) !! 1%nat = None
  /\ (forall ls' h1 o1, run h ls' h1 o1 -> Forall step_of ls' -> Z.of_nat (length ls') <= 13)
  /\ (exists t h1 o1, perform (LStep t) h = Next h1 o1)
  /\ (exists ls' h1 o1, Forall step_of ls' /\ run h ls' h1 o1 /\ h1.(tasks) = ∅)
  /\ Forall (fun s => Sent s accepted1 ∈ o' \/ exists x, h'.(heap) !! s = Some x /\ x.(EventHub.closed) = true) [1; 0]%nat.
Proof.
  destruct busy_ok as (h & o & h' & o' & P & P' & T1 & T2 & Wk & T' & Eo). exists h, o, h', o'.
  pose proof (play_run _ _ _ _ P) as R. pose proof (play_run _ _ _ _ P') as R'.
  assert (N : h'.(tasks) !! 1%nat = None) by (rewrite T'; apply lookup_empty).
  destruct (publish_terminates _ _ _ R) as (H1 & H2 & H3 & H4). rewrite Wk in H1. split_and!; try done.
  - apply H2. intros E. by rewrite E, lookup_empty in T1.
  - exact (H4 1%nat accepted1 [1; 0]%nat finishing h' o' T1 R' N).
Defined.

(** ** Hub and database *)

(** C8: a stream misses no result.  When every result has been published and no
    goroutine is inside the hub, an open stream has been sent every result of its
    submission committed since it subscribed, and the one sent last is unread or
    was received last. *)
Theorem stream_misses_no_commit y o s x n : sys_run any y o -> at_rest y ->
  y.(sys_hub).(heap) !! s = Some x -> x.(once_done) = false -> y.(since) !! s = Some n ->
  (forall e, e ∈ commits_of x.(sub_id) n y.(committed) -> e ∈ sent_to s o)
  /\ last (received_by s o ++ x.(ch)) = last (sent_to s o).
Proof.
  intros R Q Hx O Hs. split; [|by eapply rest_latest]. intros e He. by eapply rest_sent.
Qed.

(** A stream that is told one commit. *)
Definition told : list Move :=
  [Join 7 0; Commit 1 accepted1; Announce 1 [0%nat]; Other (LStep 1); Other (LStep 1); Other (LStep 1)].

(** The system is at rest and the stream 0 open since the [n]th commit. *)
Definition rests (n : nat) (y : System) : bool :=
  bool_decide (y.(announcing) = ∅) && bool_decide (y.(sys_hub).(tasks) = ∅) && bool_decide (y.(since) !! 0%nat = Some n)
  && match y.(sys_hub).(heap) !! 0%nat with
     | Some x => negb x.(once_done) && match last (commits_of x.(sub_id) n y.(committed)) with Some _ => true | None => false end
     | None => false
     end.

Lemma rests_spec n y : rests n y = true -> exists x, at_rest y /\ y.(since) !! 0%nat = Some n
  /\ y.(sys_hub).(heap) !! 0%nat = Some x /\ x.(once_done) = false /\ is_Some (last (commits_of x.(sub_id) n y.(committed))).
Proof.
  unfold rests. rewrite !andb_true_iff, !bool_decide_eq_true. destruct (_.(heap) !! _) as [x|]; [|by intros [_ ?]].
  rewrite andb_true_iff, negb_true_iff. destruct (last _) as [e|] eqn:L; [|by intros [_ [_ ?]]].
  intros (((? & ?) & ?) & ? & _). exists x. split_and!; by eauto.
Qed.

Definition rests_after (ok : Move -> System -> bool) (ms : list Move) (n : nat) : bool :=
  match exec ok ms new_system with Some (y, _) => rests n y | None => false end.

Lemma rests_after_spec ok ms n : rests_after ok ms n = true ->
  exists y o x, exec ok ms new_system = Some (y, o) /\ at_rest y /\ y.(since) !! 0%nat = Some n
    /\ y.(sys_hub).(heap) !! 0%nat = Some x /\ x.(once_done) = false
    /\ is_Some (last (commits_of x.(sub_id) n y.(committed))).
Proof.
  unfold rests_after. destruct (exec ok ms new_system) as [[y o]|]; [|done]. intros (x & H)%rests_spec. by exists y, o, x.
Qed.

Lemma told_rests : rests_after freely told 0 && rests_after calm told 0 = true.
Proof. vm_compute. reflexivity. Qed.

Lemma stream_misses_no_commit_witness :
  exists y o x, exec freely told new_system = Some (y, o) /\ y.(sys_hub).(heap) !! 0%nat = Some x /\
    (forall e, e ∈ commits_of x.(sub_id) 0 y.(committed) -> e ∈ sent_to 0 o)
    /\ last (received_by 0 o ++ x.(ch)) = last (sent_to 0 o).
Proof.
  destruct (rests_after_spec _ _ _ (proj1 (andb_prop _ _ told_rests))) as (y & o & x & E & Q & Hs & Hx & O & _). exists y, o, x.
  split; [exact E|]. split; [exact Hx|]. exact (stream_misses_no_commit y o 0 x 0 (exec_any _ _ _ E) Q Hx O Hs).
Defined.

(** C7: a stream catches up.  If no result of a submission is committed while an
    earlier one is still being published, then at rest the result committed last
    (since the stream subscribed) is unread or was received last; and when it is
    the completion of the attempt the stream follows and nothing is left
    unread, the loop that received these events has ended. *)
Theorem stream_catches_up y o s x n e : sys_run one_at_a_time y o -> at_rest y ->
  y.(sys_hub).(heap) !! s = Some x -> x.(once_done) = false -> y.(since) !! s = Some n ->
  last (commits_of x.(sub_id) n y.(committed)) = Some e ->
  last (received_by s o ++ x.(ch)) = Some e
  /\ forall W (write : bytes -> M W unit) out aid inputs w,
      (forall b w, exists w', write b w = (inr tt, w') /\ out w' = out w ++ [b]) ->
      received_by s o = omap (fun i => match i with HubEvent e => Some e | _ => None end) inputs -> Forall timely inputs ->
      x.(ch) = [] -> follows x.(sub_id) aid e = true -> completes e = true ->
      exists w', stream_loop write x.(sub_id) aid inputs w = (inr false, w').
Proof.
  intros R Q Hx O Hs L. pose proof (rest_caught_up _ _ _ _ _ _ R Q Hx O Hs L) as E. split; [exact E|].
  intros W write out aid inputs w Wok Hin T C Fo Co. rewrite C, app_nil_r, Hin in E.
  destruct (stream_loop_ok write out Wok x.(sub_id) aid inputs w T) as (w' & Lo & _). exists w'. rewrite Lo.
  enough (existsb (ends x.(sub_id) aid) inputs = true) as -> by done.
  apply last_Some_elem_of, list_elem_of_omap in E as (i & I & Ei). apply existsb_exists. exists i.
  split; [by apply list_elem_of_In|]. destruct i as [| |e'|]; try done. injection Ei as ->. cbn. by rewrite Fo, Co.
Qed.

(** Writing to a list. *)
Definition collect (b : bytes) : M (list bytes) unit := fun w => (inr tt, w ++ [b]).

Lemma stream_catches_up_witness :
  exists y o x e, exec calm told new_system = Some (y, o) /\ y.(sys_hub).(heap) !! 0%nat = Some x /\
    last (received_by 0 o ++ x.(ch)) = Some e
    /\ forall inputs w, received_by 0 o = omap (fun i => match i with HubEvent e => Some e | _ => None end) inputs -> Forall timely inputs ->
         x.(ch) = [] -> follows x.(sub_id) "attempt-1" e = true -> completes e = true ->
         exists w', stream_loop collect x.(sub_id) "attempt-1" inputs w = (inr false, w').
Proof.
  destruct (rests_after_spec _ _ _ (proj2 (andb_prop _ _ told_rests))) as (y & o & x & E & Q & Hs & Hx & O & e & L). exists y, o, x, e.
  split; [exact E|]. split; [exact Hx|].
  destruct (stream_catches_up y o 0 x 0 e (exec_calm _ _ _ E) Q Hx O Hs L) as [H1 H2]. split; [exact H1|].
  intros inputs w. apply (H2 (list bytes) collect (fun w => w)). intros b w0. by exists (w0 ++ [b]).
Defined.

(** ** Tickets and streams *)

(** C11: a stream is opened only for the owner of the submission: the handler
    streams only if the ticket is signed with the secret, is well formed, is for
    this submission and ends after the time the clock shows when it is verified,
    which is just before the subscription, the user of the ticket owns the
    submission as it is in the snapshot, and the snapshot was read after the
    subscription; a stream that has ended has given its subscription back. *)
Theorem stream_needs_ticket {W} (now : M W Time) secret Subscribe unsubscribe GetStreamSnapshot SetHeader write allowedOrigin param query
    origin flusher inputs (w w' : W) r :
  Handle (Verify now secret) Subscribe unsubscribe GetStreamSnapshot SetHeader write allowedOrigin param query origin flusher inputs w
    = (inr r, w') -> (forall e, r <> Rejected e) ->
  exists payload claims s w0 t w1 w2 w3 w4 sub,
    (exists s0 s1, chars query = s0 ++ dot :: s1 /\ B64Decode s0 = Some payload /\ B64Decode s1 = Some (sign secret payload))
    /\ secret <> [] /\ decode_ticket (str payload) = Some claims /\ well_formed claims = true
    /\ now w0 = (inr t, w1) /\ t < claims.(ExpiresAt)
    /\ parsePositiveInt64 param = Some claims.(TkSubmissionID)
    /\ Subscribe claims.(TkSubmissionID) w1 = (inr sub, w2)
    /\ GetStreamSnapshot claims.(TkSubmissionID) w2 = (inr (Some s), w3) /\ s.(SnapUserID) = claims.(TkUserID)
    /\ stream_body SetHeader write claims.(TkSubmissionID) s inputs w3 = (inr r, w4)
    /\ (r = Ended_stream -> unsubscribe sub w4 = (inr tt, w')).
Proof.
  intros H N. destruct (opened_checked _ _ _ _ _ _ _ _ _ _ _ _ _ _ _ H N)
    as (sid & claims & s & w0 & w1 & w2 & w3 & w4 & sub & P & V & <- & S & G & U & B & E).
  apply verified_is_signed in V as (payload & K & D & F & Sg & t & T & L).
  exists payload, claims, s, w0, t, w1, w2, w3, w4, sub. by split_and!.
Qed.

(** A world that is the list of writes; a stream of a finished submission. *)
Definition demo_secret : bytes := chars "secret".
Definition demo_clock : M (list bytes) Time := ret 1700000000000000000.
Definition demo_minute : Z := 60000000000.
Definition demo_snapshot (_ : Z) : M (list bytes) (option SubmissionStreamSnapshot) :=
  ret (Some (mkSnapshot 7 "user-1" "attempt-1" "ACCEPTED" 1000000000)).
Definition demo_subscribe (_ : Z) : M (list bytes) nat := ret 0%nat.
Definition demo_unsubscribe (_ : nat) : M (list bytes) unit := ret tt.
Definition demo_header (_ : string * string) : M (list bytes) unit := ret tt.

Lemma demo_issue : exists ticket expires, Issue demo_clock demo_secret demo_minute "user-1" 7 [] = (inr (ticket, expires), []).
Proof.
  unfold Issue. change (_ || _) with false. cbv iota zeta. unfold bind at 1. cbn [demo_clock ret]. cbv beta iota.
  destruct (marshal_ticket _) as [payload|] eqn:M; [by eexists _, _|vm_compute in M; discriminate].
Qed.

Definition demo_stream (ticket : string) : M (list bytes) Served :=
  Handle (Verify demo_clock demo_secret) demo_subscribe demo_unsubscribe demo_snapshot demo_header collect "" "7" ticket "" true [].

Lemma demo_opened : exists ticket w', demo_stream ticket [] = (inr Ended_stream, w').
Proof.
  assert (U : utf8 "user-1") by (vm_compute; reflexivity). assert (B : in_int64 7) by (by apply (bool_decide_unpack _)).
  assert (P : forall t w2, demo_clock [] = (inr t, w2) -> 0 < t) by (intros t w2 H; injection H as <- _; lia).
  destruct demo_issue as (ticket & expires & I).
  destruct (issued_verifies _ _ _ _ _ _ _ _ _ U B I P) as (issued & E & -> & V).
  injection E as <-. clear P. specialize (V [] 1700000000000000000 [] eq_refl). exists ticket.
  unfold demo_stream, Handle. destruct (parsePositiveInt64 "7") as [n|] eqn:P; [|vm_compute in P; discriminate].
  assert (n = 7) as -> by (vm_compute in P; congruence).
  change (applyCORS (TrimSpace "") "") with (Some (@nil (string * string))).  cbv iota.
  rewrite (bind_inr _ _ _ tt []) by done.
  rewrite (bind_inr (try (Verify demo_clock demo_secret ticket)) _ _ (inr (mkTicket SubmissionStreamTicketPurpose (TrimSpace "user-1") 7 1700000000000000000 (1700000000000000000 + demo_minute))) []) by (unfold try; by rewrite V).
  cbn [TkSubmissionID]. change (negb (7 =? 7)) with false. cbv iota.
  eexists. vm_compute. reflexivity.
Qed.

Lemma stream_needs_ticket_witness :
  exists ticket payload claims s w0 t w1 w2 w3 w4 w' sub,
    (exists s0 s1, chars ticket = s0 ++ dot :: s1 /\ B64Decode s0 = Some payload /\ B64Decode s1 = Some (sign demo_secret payload))
    /\ demo_secret <> [] /\ decode_ticket (str payload) = Some claims /\ well_formed claims = true
    /\ demo_clock w0 = (inr t, w1) /\ t < claims.(ExpiresAt)
    /\ parsePositiveInt64 "7" = Some claims.(TkSubmissionID)
    /\ demo_subscribe claims.(TkSubmissionID) w1 = (inr sub, w2)
    /\ demo_snapshot claims.(TkSubmissionID) w2 = (inr (Some s), w3) /\ s.(SnapUserID) = claims.(TkUserID)
    /\ stream_body demo_header collect claims.(TkSubmissionID) s [] w3 = (inr Ended_stream, w4)
    /\ (Ended_stream = Ended_stream -> demo_unsubscribe sub w4 = (inr tt, w')).
Proof.
  destruct demo_opened as (ticket & w' & H).
  destruct (stream_needs_ticket demo_clock demo_secret demo_subscribe demo_unsubscribe demo_snapshot demo_header collect "" "7" ticket
    "" true [] [] w' Ended_stream H ltac:(by intros e)) as (payload & claims & s & w0 & t & w1 & w2 & w3 & w4 & sub & G).
  exists ticket, payload, claims, s, w0, t, w1, w2, w3, w4, w', sub. exact G.
Defined.

(** A ticket that the use case issues is for the owner of the submission
    and opens its stream until it is over: verified at any later time it gives
    back the user, the submission and the two times it was issued with, or says
    that it has expired. *)
Theorem issued_ticket_verifies {W} (now : M W Time) secret ttl GetStreamSnapshot claims submissionID (w w' : W) ticket expires :
  utf8 claims.(UserID) -> (forall i v s v', GetStreamSnapshot i v = (inr (Some s), v') -> in_int64 s.(SnapSubmissionID)) ->
  (forall t v v', now v = (inr t, v') -> 0 < t) ->
  issueTicket GetStreamSnapshot (Issue now secret ttl) claims submissionID w = (inr (ticket, expires), w') ->
  exists s v issued, GetStreamSnapshot submissionID w = (inr (Some s), v) /\ s.(SnapUserID) = claims.(UserID)
    /\ now v = (inr issued, w') /\ expires = issued + ttl
    /\ forall v2 t v3, now v2 = (inr t, v3) ->
         Verify now secret ticket v2
         = (if t <? expires
            then inr (mkTicket SubmissionStreamTicketPurpose (TrimSpace claims.(UserID)) s.(SnapSubmissionID) issued expires)
            else inl ErrExpiredStreamTicket, v3).
Proof.
  intros U I P H. unfold issueTicket in H. destruct (submissionID <=? 0); [done|]. destruct (_ || _); [done|].
  destruct (known_role _); [|done]. cbn [negb] in H. apply bind_inr_inv in H as (o & v & G & H).
  apply on_error_inr in G. destruct o as [s|]; [|done]. case_bool_decide as O; [|done]. cbn [negb] in H.
  apply on_error_inr in H.
  destruct (issued_verifies _ _ _ _ _ _ _ _ _ U (I _ _ _ _ G) H (fun t => P t _)) as (issued & N & E & V).
  exists s, v, issued. by split_and!.
Qed.

Lemma demo_issue_use_case : exists ticket expires,
  issueTicket demo_snapshot (Issue demo_clock demo_secret demo_minute) (mkClaims "user-1" "alice" "user" 0) 7 [] = (inr (ticket, expires), []).
Proof.
  destruct demo_issue as (ticket & expires & I). exists ticket, expires. unfold issueTicket.
  change (7 <=? 0) with false. cbv iota. change (_ || _) with false. cbv iota.
  change (negb (known_role _)) with false. cbv iota. rewrite (bind_inr _ _ _ (Some (mkSnapshot 7 "user-1" "attempt-1" "ACCEPTED" 1000000000)) []) by done.
  cbn [SnapUserID SnapSubmissionID UserID]. rewrite bool_decide_true by done. cbn [negb]. unfold on_error. by rewrite I.
Qed.

Lemma issued_ticket_verifies_witness : exists ticket expires,
  exists s v issued, demo_snapshot 7 [] = (inr (Some s), v) /\ s.(SnapUserID) = "user-1"%string
    /\ demo_clock v = (inr issued, []) /\ expires = issued + demo_minute
    /\ forall v2 t v3, demo_clock v2 = (inr t, v3) ->
         Verify demo_clock demo_secret ticket v2
         = (if t <? expires
            then inr (mkTicket SubmissionStreamTicketPurpose (TrimSpace "user-1") s.(SnapSubmissionID) issued expires)
            else inl ErrExpiredStreamTicket, v3).
Proof.
  destruct demo_issue_use_case as (ticket & expires & H). exists ticket, expires.
  apply (issued_ticket_verifies demo_clock demo_secret demo_minute demo_snapshot (mkClaims "user-1" "alice" "user" 0) 7 [] [] ticket expires).
  - vm_compute. reflexivity.
  - intros i v s v' E. injection E as <- _. cbn [SnapSubmissionID]. by apply (bool_decide_unpack _).
  - intros t v v' E. injection E as <- _. lia.
  - exact H.
Defined.

(** What a stream writes.  On a connection that takes every write the
    stream consists of the retry hint, the snapshot and, unless that is already
    final, one frame for each event of the followed attempt and each heartbeat,
    in the order of their arrival, up to the first completion of the attempt;
    events of other attempts or submissions are never written. *)
Theorem stream_shows_attempt {W} (SetHeader : string * string -> M W unit) (write : bytes -> M W unit) (out : W -> list bytes)
    submissionID snapshot payload inputs w :
  (forall b w, exists w', write b w = (inr tt, w') /\ out w' = out w ++ [b]) ->
  (forall h w, exists w', SetHeader h w = (inr tt, w') /\ out w' = out w) ->
  marshal_event (SnapshotEvent snapshot) = Some payload -> Forall timely inputs ->
  let final := IsTerminalStatus snapshot.(SnapStatus) in
  let over := ends submissionID snapshot.(SnapAttemptID) in
  exists w', stream_body SetHeader write submissionID snapshot inputs w
      = (inr (if final || existsb over inputs then Ended_stream else Open_stream), w')
    /\ out w' = out w ++ retry_frame
         :: event_lines (if final then completed_name else snapshot_name) (SnapshotEvent snapshot) payload
         ++ (if final then [] else concat (map (shown submissionID snapshot.(SnapAttemptID)) (until over inputs)))
    /\ (forall e, follows submissionID snapshot.(SnapAttemptID) e = false -> shown submissionID snapshot.(SnapAttemptID) (HubEvent e) = []).
Proof.
  intros Wok Hok Mp F final over. destruct (stream_body_ok write out Wok SetHeader Hok submissionID snapshot payload inputs w Mp F) as (w' & E & O).
  exists w'. split_and!; [exact E|exact O|]. intros e N. cbn. by rewrite N.
Qed.

Definition running_snapshot : SubmissionStreamSnapshot := mkSnapshot 7 "user-1" "attempt-1" "PENDING" 1000000000.

Definition demo_inputs : list Input := [Heartbeat; HubEvent accepted2; HubEvent accepted1; Heartbeat].

Lemma demo_timely : Forall timely demo_inputs.
Proof.
  apply Forall_cons_2; [exact I|]. apply Forall_cons_2; [by apply (bool_decide_unpack _)|].
  apply Forall_cons_2; [by apply (bool_decide_unpack _)|]. apply Forall_cons_2; [exact I|apply Forall_nil_2].
Qed.

Lemma stream_shows_attempt_witness : exists payload w',
  stream_body demo_header collect 7 running_snapshot demo_inputs [] = (inr Ended_stream, w')
  /\ w' = retry_frame :: event_lines snapshot_name (SnapshotEvent running_snapshot) payload
       ++ concat (map (shown 7 "attempt-1") [Heartbeat; HubEvent accepted2; HubEvent accepted1])
  /\ (forall e, follows 7 "attempt-1" e = false -> shown 7 "attempt-1" (HubEvent e) = []).
Proof.
  destruct (marshal_event (SnapshotEvent running_snapshot)) as [payload|] eqn:E; [|vm_compute in E; discriminate].
  exists payload. apply (stream_shows_attempt demo_header collect (fun w => w) 7 running_snapshot payload
    demo_inputs []).
  - intros b w. by exists (w ++ [b]).
  - intros h w. by exists w.
  - exact E.
  - exact demo_timely.
Defined.
