(* ===== verification/WorkerGuarantees.v ===== *)
(** The judge worker as a whole: the go-judge adapter and the testcase loader
    discharge what the use case relies on, a demonstration platform shows that
    the laws of the parameters can hold, and the guarantees of the worker are
    stated. *)

From S2P Require Import Prelude GoString GoError GoMonad GoCrypto GoPath SubmissionDomain SubmissionPorts ApplyResult WorkerDomain Sanitize Diagnostics TestcaseCache SandboxCache GoJudgeClient JudgeWorker OfficialLoader KafkaConsumers JsonDecode OutboxRelay JudgeMessages.

(** ** The executor discharges the laws of the use case *)

Lemma mapped_status language tc raw stop : (mapTestCaseResult language tc raw stop).(RsStatus) ∈ result_statuses.
Proof.
  unfold mapTestCaseResult. cbn [RsStatus].
  assert (mapJudgeStatus (RStatus raw) (RExitStatus raw) ∈ result_statuses) as H.
  { unfold mapJudgeStatus. destruct (RStatus raw); try (destruct (negb _)); unfold result_statuses; set_solver. }
  destruct stop; unfold mapOfficialSubmissionStatus; destruct (TcExpectedOutput tc); try done;
    destruct (_ && _); try done; unfold result_statuses; set_solver.
Qed.

Lemma judged_ok language stop tests raws : Forall (fun tc => 0 < tc.(TcIndex)) tests ->
  Forall (fun tc => tc.(RsStatus) ∈ result_statuses /\ 0 < tc.(RsIndex)) (judged language stop tests raws).
Proof.
  intros H. revert raws. induction H as [|tc tests Htc _ IH]; intros [|raw raws]; try constructor; [|apply IH].
  split; [apply mapped_status|done].
Qed.

Lemma result_status_terminal s : s ∈ result_statuses -> s ∈ terminal_statuses.
Proof. unfold result_statuses, terminal_statuses. set_solver. Qed.

Lemma verdict_known l : Forall (fun tc => tc.(RsStatus) ∈ result_statuses /\ 0 < tc.(RsIndex)) l -> verdict l ∈ terminal_statuses.
Proof.
  intros HF. unfold verdict. destruct (first_failure l) as [r|] eqn:E; [|unfold terminal_statuses; set_solver].
  apply find_first_some in E as [E _]. rewrite Forall_forall in HF. apply result_status_terminal, HF, E.
Qed.

#[export] Instance Execute_laws {W} cfg (client : executorRPC W) links : ExecutorLaws (GoJudgeClient.Execute cfg client links).
Proof.
  constructor. intros req w result w' HI H. destruct (decide (EStatus result = "COMPILATION_ERROR"%string)) as [EC|EC].
  - constructor; [rewrite EC; unfold terminal_statuses; set_solver|].
    destruct w as [c w0]. apply Execute_inr_inv in H as [(lc & cmd & c1 & w1 & _ & H & _)|(lc & lim & exe & w1 & w2 & H)].
    + unfold compile in H. apply bind_inr_inv in H as (resp & w2 & _ & H).
      destruct (PResults resp) as [|[r|] l]; try discriminate. destruct (negb _); [injection H as <- _; constructor|].
      cbv zeta in H. destruct (bool_decide _); discriminate.
    + unfold run_all in H. eapply (run_batches_spec _ _ _ _ _ _ _ _ []) in H;
        [|unfold officialBatchSize, defaultBatchSize; destruct (StopOnFirstFailure req); lia|done|apply accepted_summarises].
      destruct H as (rs & early & _ & _ & [S1 _ _ _ _] & _). rewrite S1. by apply judged_ok.
  - apply Execute_summary in H as (rs & early & _ & _ & [S1 S2 _ _ _] & _); [|done].
    pose proof (judged_ok (ExLanguage req) (StopOnFirstFailure req) _ rs HI) as HJ.
    constructor; [rewrite S2; by apply verdict_known|by rewrite S1].
Qed.

(** ** A demonstration platform *)

(** The state: issued file identifiers, the clock, the messages the broker
    accepted, the files created and the messages marked. *)
Record demo := mkDemo {
  d_issued : gset string;
  d_clock : Z;
  d_sent : list ProducerMessage;
  d_created : list string;
  d_marks : list (ConsumerMessage * string);
  d_runs : nat;
}.
Definition demo0 : demo := mkDemo ∅ 0 [] [] [] 0.

(** A name that is longer than all names issued so far. *)
Definition new_id (X : gset string) : string := str (chars "f" ++ concat (map chars (base.elements X))).

Lemma new_id_fresh X : new_id X ∉ X.
Proof.
  intros H%elem_of_elements. unfold new_id in H.
  assert (forall l : list string, forall s, s ∈ l -> (length (chars s) <= length (concat (map chars l)))%nat) as K.
  { induction l as [|t l IH]; intros s Hs; [by apply elem_of_nil in Hs|]. cbn. rewrite length_app.
    apply elem_of_cons in Hs as [->|Hs]; [lia|]. specialize (IH s Hs). lia. }
  apply K in H. rewrite chars_str, length_app in H. change (length (chars "f")) with 1%nat in H. lia.
Qed.

Definition d_tick (w : demo) : Z * demo :=
  (w.(d_clock), mkDemo w.(d_issued) (w.(d_clock) + 1) w.(d_sent) w.(d_created) w.(d_marks) w.(d_runs)).
Definition d_issue (w : demo) : string * demo :=
  let n := new_id w.(d_issued) in
  (n, mkDemo ({[n]} ∪ w.(d_issued)) w.(d_clock) w.(d_sent) w.(d_created) w.(d_marks) w.(d_runs)).

Definition demo_files : sandboxFileRPC demo :=
  mkFileRPC demo
    (fun _ _ w => let '(n, w) := d_issue w in (inr (Some n), w))
    (fun w => (inr (Some (map (fun n => (n, ""%string)) (base.elements w.(d_issued)))), w))
    (fun _ w => (inr tt, w)) (fun _ => true) d_tick.

(** The sandbox: every program echoes its standard input. *)
Definition demo_result (c : CmdType) : option Response_Result :=
  Some (mkResult SAccepted 0 "" 5000000 2048
    (match c.(Files) with MemoryFile s :: _ => {["stdout" := s]} | _ => ∅ end)
    (list_to_map (map (fun n => (n, "executable"%string)) c.(CopyOutCached))) 0).
Definition demo_executor : executorRPC demo :=
  mkExecutor demo (fun req w => (inr (Some (mkResponse "" (map demo_result req))), w)) demo_files (fun _ => None) None.

Definition demo_cache : TestcaseCacheConfig := mkCacheConfig true 1000 10 0 60.

#[export] Instance demo_sandbox : SandboxLaws demo_files d_issued.
Proof.
  constructor; cbn.
  - intros _ _ w r w' [= <- <-]. cbn. split; [set_solver|]. intros fid [= <-]. split; [apply new_id_fresh|set_solver].
  - intros w r w' [= <- <-]. split; [done|]. intros files [= <-]. apply Forall_forall.
    intros f (n & -> & Hn)%list_elem_of_fmap. by apply elem_of_elements.
  - by intros _ w r w' [= <- <-].
  - by intros w t w' [= <- <-].
Qed.

Lemma demo_exec_issued req w r w' : demo_executor.(Exec) req w = (r, w') -> d_issued w ⊆ d_issued w'.
Proof. cbn. by intros [= <- <-]. Qed.

Definition demo_checksum : string := "0123456789abcdef0123456789abcdef0123456789abcdef0123456789abcdef".
Definition demo_dataset : TestcaseDatasetIdentity := mkIdentity 7 1 demo_checksum.
Definition demo_test (n : Z) (stdin expected : string) : ExecutionTestCase :=
  mkTestCase n (Itoa n) "official" stdin "" (Some expected).
Definition demo_request (language : string) (tests : list ExecutionTestCase) : ExecutionRequest :=
  mkExecReq language "print(input())" tests no_limits true (Some demo_dataset).

(** The files of the worker: a dataset of one testcase, nothing cached. *)
Definition demo_os : platform demo :=
  mkPlatform demo
    (fun p w => (if bool_decide (Base (chars p) = chars cacheVersionFile) then inl (ESentinel "no such file")
                 else inr "7"%string, w))
    (fun _ _ w => (inr tt, w))
    (fun p w => (inr tt, mkDemo w.(d_issued) w.(d_clock) w.(d_sent) (w.(d_created) ++ [p]) w.(d_marks) w.(d_runs)))
    (fun _ _ w => (inr tt, w))
    (fun _ w => (inr [("1.in", false); ("1.out", false)]%string, w))
    (fun _ w => (inr tt, w)) (fun _ w => (inr tt, w)) (fun _ w => (inr tt, w)) (fun _ _ w => (inr tt, w))
    (fun _ w => (inr [mkZip "1.in" false false 1 (inr ("7"%string, None)); mkZip "1.out" false false 1 (inr ("7"%string, None))], w))
    (fun _ w => (inr (mkHttp 200 "zip" None), w)) (fun _ => None)
    (fun _ w => (inr "c0ffee"%string, w)) "/tmp".

Definition demo_metadata : WorkerDomain.ProblemTestCaseMetadata := WorkerDomain.mkMetadata 7 "http://files/7.zip" 1 1.

#[export] Instance demo_creates : CreateLaws demo_os d_created.
Proof.
  constructor; cbn.
  - intros p w r w' [= <- <-]. by left.
  - by intros p c w r w' [= <- <-].
  - by intros p w r w' [= <- <-].
Qed.

Definition demo_send (m : ProducerMessage) : M demo (Z * Z) :=
  fun w => (inr (0, 0), mkDemo w.(d_issued) w.(d_clock) (w.(d_sent) ++ [m]) w.(d_created) w.(d_marks) w.(d_runs)).

(** ** Guarantees of the testcase cache *)


Definition demo_key : testcaseCacheKey := mkKey 7 1 demo_checksum "1"
  "73475cb40a568e8da8a045ced110137e159f890ac4da883b6b17dc651b3a8049".
Definition old_name : string := nameWithSize demo_key 2.

Lemma old_name_read : parseTestcaseCacheName old_name = Some (demo_key, 2, true).
Proof. vm_compute. reflexivity. Qed.

(** A new worker takes a file over and then uploads another one. *)
Definition other_key : testcaseCacheKey := mkKey 7 1 demo_checksum "2"
  "73475cb40a568e8da8a045ced110137e159f890ac4da883b6b17dc651b3a8049".
Definition taken_over (key : testcaseCacheKey) (fid : string) (size now : Z) : cache :=
  with_reconcile (store key fid size true now (with_reconcile empty_cache false true)) true true.
Definition taken : worker :=
  mkWorker (mkSystem (store other_key "f" 3 true 6 (reserve demo_cache 3 (taken_over demo_key "old" 2 5)).2) [] [3] [] []) None
    ({["old"%string]} ∪ ∅).

Lemma takes_over cfg fid n key size now junk other upload fid2 now2 : parseTestcaseCacheName n = Some (key, size, true) ->
  fid <> ""%string -> parseTestcaseCacheName junk = None -> fid2 <> fid ->
  (reserve cfg upload (taken_over key fid size now)).1 = true ->
  reachable cfg (mkWorker (mkSystem (store other fid2 upload true now2 (reserve cfg upload (taken_over key fid size now)).2)
    [] [upload] [] []) None ({[fid]} ∪ ∅)).
Proof.
  intros P N J D Ok. set (c := (reserve _ _ _).2).
  assert (R : reserve cfg upload (taken_over key fid size now) = (true, c)) by (rewrite <- Ok; apply surjective_pairing).
  assert (Ec : c.(entries) = (taken_over key fid size now).(entries)) by (apply reserve_spec in R as (_ & -> & _); done).
  clearbody c. eapply rtc_l; [by apply (reconcile_begins cfg empty_cache)|].
  eapply rtc_l; [by eapply (list_arrives _ _ _ _ _ _ _ [(fid, n); (fid, junk)])|].
  eapply rtc_l; [by eapply import_file|]. eapply rtc_l; [apply import_skips; by left|]. eapply rtc_l; [apply reconcile_ends|].
  eapply rtc_l; [apply go; by eapply (step_reserve _ _ _ _ _ _ _ other upload)|].
  apply rtc_once, go. eapply step_store; [done|]. intros [(k & e & He & Hf)|(b & Hb & _)]; [|by apply elem_of_nil in Hb].
  cbn [ca] in He. rewrite Ec in He. apply store_files in He as [E|(k0 & e0 & He & _)]; [congruence|].
  change (entries (with_reconcile empty_cache false true)) with (∅ : gmap testcaseCacheKey testcaseCacheEntry) in He.
  by rewrite lookup_empty in He.
Qed.

Lemma taken_reachable : reachable demo_cache taken.
Proof.
  apply (takes_over demo_cache "old" old_name demo_key 2 5 "notes.txt"); [apply old_name_read|done|vm_compute; reflexivity|done|].
  vm_compute. reflexivity.
Qed.


(** A file that some batch has pinned is not in the hands of the cleanup, as
    long as no response of [FileList] is taken over: no deletion of it is under
    way, and its entry is not marked for deletion and counts as in use. *)
Theorem pinned_file_is_kept cfg c s b : accounted c -> rtc (step cfg) (idle_system c) s -> b ∈ s.(live) ->
  b ∉ s.(dels) /\ forall e, s.(ca).(entries) !! b.(BKey) = Some e -> e.(fileID) = b.(BFileID) ->
    e.(deleting) = false /\ pins b s.(live) <= e.(inUse).
Proof.
  intros A H Hb. destruct (steps_safe cfg c s A H) as [S1 S2 S3 S4]. split.
  - intros Hd. by apply (S3 b Hd).
  - intros e He Hf. destruct (S1 b e Hb He Hf) as [? [? ?]]. done.
Qed.

Definition full_cache : cache := store demo_key "f" 2 true 5 empty_cache.
Lemma full_accounted : accounted full_cache.
Proof. apply store_accounted; [apply empty_accounted|done]. Qed.

Definition demo_pinned : system := mkSystem (pin demo_key 2 6 full_cache).2 [] [] [mkBinding demo_key "f"] [].

Lemma demo_pinned_reachable : rtc (step demo_cache) (idle_system full_cache) demo_pinned.
Proof.
  apply rtc_once. apply (step_pin demo_cache full_cache _ [] [] [] [mkBinding demo_key "f"] [] demo_key 2 6 (mkBinding demo_key "f"));
    [done| |done]. rewrite (surjective_pairing (pin demo_key 2 6 full_cache)) at 1. f_equal.
Qed.

Lemma pinned_file_is_kept_witness :
  mkBinding demo_key "f" ∉ demo_pinned.(dels)
  /\ forall e, demo_pinned.(ca).(entries) !! demo_key = Some e -> e.(fileID) = "f"%string ->
    e.(deleting) = false /\ pins (mkBinding demo_key "f") demo_pinned.(live) <= e.(inUse).
Proof.
  apply (pinned_file_is_kept demo_cache full_cache demo_pinned (mkBinding demo_key "f"));
    [apply full_accounted|apply demo_pinned_reachable|by left].
Defined.

(** While a response is taken over this fails.  One goroutine waits for the
    response; another one, which does not wait, uploads the input of a key and
    pins it.  When the response holds two files of that name, the new one and
    one of an earlier worker, [store] replaces the entry twice, the second time
    by one of the same file that nobody has pinned: the cleanup deletes it while
    the other goroutine uses it. *)
Definition idle_cache : TestcaseCacheConfig := mkCacheConfig true 1000 10 10 60.

Lemma replaced_twice cfg n key size now reserved pinned b bs marked : parseTestcaseCacheName n = Some (key, size, true) ->
  0 <= size -> b = mkBinding key "new" ->
  reserve cfg size (with_reconcile empty_cache false true) = (true, reserved) ->
  pin key size now (releaseReservation size (store key "new" size true now reserved)) = (Some b, pinned) ->
  selectEvictionCandidates cfg (now + cfg.(IdleTTL))
    (with_reconcile (store key "new" size true now (store key "old" size true now pinned)) true pinned.(reconcileAttempted)) = (bs, marked) ->
  pinned.(reconciled) = false -> pinned.(reconcileAttempted) = true ->
  exists i, reachable cfg (mkWorker (mkSystem marked [] [] [b] (bs ++ [])) None i).
Proof.
  intros P Sz -> R Pin Sel F1 F2. eexists.
  assert (E : reserved.(entries) = ∅) by (apply reserve_spec in R as (_ & -> & _); done).
  eapply rtc_l; [by apply (reconcile_begins cfg empty_cache)|].
  eapply rtc_l; [apply go; by eapply (step_reserve _ _ _ _ _ _ _ key size)|].
  eapply rtc_l; [apply go, (step_store _ reserved [(key, size)] [] [] [] [] key size "new" now); [done|]|].
  { intros [(k & e & He & _)|(x & Hb & _)]; [|by apply elem_of_nil in Hb]. cbn [ca] in He. by rewrite E, lookup_empty in He. }
  eapply rtc_l; [apply go; by eapply (step_unreserve _ _ [] [size] [] [] [] size)|].
  eapply rtc_l; [apply go; by eapply (step_pin _ _ pinned [] [] [] [mkBinding key "new"] [] key size now)|].
  eapply rtc_l; [by eapply (list_arrives _ pinned _ _ _ _ _ [("old"%string, n); ("new"%string, n)])|].
  do 2 (eapply rtc_l; [by eapply (import_file _ _ _ _ _ _ _ _ _ _ key size true now)|]).
  eapply rtc_l; [apply reconcile_ends|]. apply rtc_once, go. eapply step_select. rewrite <- Sel.
  by rewrite !(proj2 (store_flags _ _ _ _ _ _)).
Qed.

Lemma reconcile_loses_a_pin : exists w b, reachable idle_cache w /\ b ∈ w.(sys).(live) /\ b ∈ w.(sys).(dels).
Proof.
  set (reserved := (reserve idle_cache 2 (with_reconcile empty_cache false true)).2).
  set (pinned := (pin demo_key 2 5 (releaseReservation 2 (store demo_key "new" 2 true 5 reserved))).2).
  set (last := with_reconcile (store demo_key "new" 2 true 5 (store demo_key "old" 2 true 5 pinned)) true pinned.(reconcileAttempted)).
  assert (C : (reserve idle_cache 2 (with_reconcile empty_cache false true)).1 = true
    /\ (pin demo_key 2 5 (releaseReservation 2 (store demo_key "new" 2 true 5 reserved))).1 = Some (mkBinding demo_key "new")
    /\ (selectEvictionCandidates idle_cache (5 + idle_cache.(IdleTTL)) last).1 = [mkBinding demo_key "new"]
    /\ pinned.(reconciled) = false /\ pinned.(reconcileAttempted) = true).
  { split_and!; vm_compute; reflexivity. }
  destruct C as (R & P & S & F1 & F2).
  destruct (replaced_twice idle_cache old_name demo_key 2 5 reserved pinned _ [mkBinding demo_key "new"] (selectEvictionCandidates idle_cache (5 + idle_cache.(IdleTTL)) last).2
    old_name_read ltac:(lia) eq_refl) as [i H].
  - rewrite <- R. apply surjective_pairing.
  - rewrite <- P. apply surjective_pairing.
  - rewrite <- S. apply surjective_pairing.
  - exact F1.
  - exact F2.
  - eexists _, (mkBinding demo_key "new"). split; [exact H|]. split; by left.
Qed.

(** The name of a stored file determines its key and size: reading back
    the name that the cache gives to a testcase input yields exactly the key
    it was made from and its size. *)
Theorem cache_name_roundtrip i tc k size : i.(IdProblemID) <= int64_max -> i.(IdVersion) <= int64_max ->
  newTestcaseCacheKey (Some i) tc = Some k -> 0 <= size <= int64_max ->
  parseTestcaseCacheName (nameWithSize k size) = Some (k, size, true).
Proof. intros H1 H2 HK HS. apply parse_name; [by eapply newTestcaseCacheKey_ok|done]. Qed.

Lemma cache_name_roundtrip_witness :
  parseTestcaseCacheName (nameWithSize demo_key 2) = Some (demo_key, 2, true).
Proof.
  apply (cache_name_roundtrip demo_dataset (demo_test 1 "42" "42") demo_key 2); [done|done|vm_compute; reflexivity|done].
Defined.

(** A cached input handed out by [getOrAdd] is the live entry of the key
    of that testcase, is pinned, and its size is accounted for. *)
Theorem getOrAdd_hands_out_pins {W} cfg (client : sandboxFileRPC W) ctxErr identity tc c c' w w' b :
  accounted c -> getOrAdd cfg client ctxErr identity tc (c, w) = (inr (Some b), (c', w')) ->
  newTestcaseCacheKey identity tc = Some b.(BKey) /\ accounted c' /\
  exists e, c'.(entries) !! b.(BKey) = Some e /\ e.(fileID) = b.(BFileID) /\ e.(deleting) = false
    /\ e.(sizeKnown) = true /\ 0 < e.(inUse).
Proof. apply getOrAdd_entry. Qed.

Lemma getOrAdd_hands_out_pins_witness :
  newTestcaseCacheKey (Some demo_dataset) (demo_test 1 "42" "42") = Some demo_key /\
  exists e, (getOrAdd demo_cache demo_files None (Some demo_dataset) (demo_test 1 "42" "42") (empty_cache, demo0)).2.1.(entries) !! demo_key = Some e
    /\ 0 < e.(inUse).
Proof.
  destruct (getOrAdd demo_cache demo_files None (Some demo_dataset) (demo_test 1 "42" "42") (empty_cache, demo0))
    as [r [c' w']] eqn:E.
  assert (r = inr (Some (mkBinding demo_key "f"))) as -> by (apply (f_equal fst) in E; vm_compute in E; by rewrite <- E).
  destruct (getOrAdd_hands_out_pins demo_cache demo_files None (Some demo_dataset) (demo_test 1 "42" "42")
    empty_cache c' demo0 w' (mkBinding demo_key "f") empty_accounted E) as (H1 & _ & e & H2 & _ & _ & _ & H3).
  split; [exact H1|]. exists e. split; [exact H2|exact H3].
Defined.

(** A cleanup whose deletions succeed leaves the entries in use alone and
    brings the cache back within its limits, unless everything that is left is
    in use or already being deleted. *)
Theorem cleanup_restores_limits {W} cfg (client : sandboxFileRPC W) c c' w r w' :
  (forall fid w e w', client.(FileDelete) fid w = (inl e, w') -> client.(is_NotFound) e = true) ->
  cfg.(Enabled) = true -> accounted c -> cleanup cfg client (c, w) = (r, (c', w')) ->
  (forall k e, c.(entries) !! k = Some e -> e.(inUse) <> 0 \/ e.(deleting) = true -> c'.(entries) !! k = Some e)
  /\ (Z.of_nat (size c'.(entries)) <= cfg.(MaxEntries) /\ c'.(totalBytes) <= cfg.(MaxBytes)
      \/ forall k e, c'.(entries) !! k = Some e -> e.(inUse) <> 0 \/ e.(deleting) = true).
Proof. apply cleanup_result. Qed.

Definition small_cache : TestcaseCacheConfig := mkCacheConfig true 1 10 0 60.

Lemma cleanup_restores_limits_witness :
  let c' := (cleanup small_cache demo_files (full_cache, demo0)).2.1 in
  Z.of_nat (size c'.(entries)) <= small_cache.(MaxEntries) /\ c'.(totalBytes) <= small_cache.(MaxBytes)
  \/ forall k e, c'.(entries) !! k = Some e -> e.(inUse) <> 0 \/ e.(deleting) = true.
Proof.
  destruct (cleanup small_cache demo_files (full_cache, demo0)) as [r [c' w']] eqn:E.
  apply (cleanup_restores_limits small_cache demo_files full_cache c' demo0 r w'); [by intros ? ? ? ? [=]|done| |exact E].
  apply store_accounted; [apply empty_accounted|done].
Defined.

(** ** Guarantees of the execution of a submission *)

(** C34: whatever the sandbox answers, an execution is a sequence of locked
    steps of the worker (those of [reconcile] in the first one included) that
    ends with the pins it started with: every path, errors and retries included,
    gives back all the pins it took.  All it needs is that the files the cache
    knows were issued by the sandbox; that holds of a new worker and after
    every execution. *)
Theorem execution_returns_its_pins {W} cfg (client : executorRPC W) links (issued : W -> gset string)
    {L : SandboxLaws client.(file_rpc) issued} :
  (forall req w r w', client.(Exec) req w = (r, w') -> issued w ⊆ issued w') ->
  (forall w, ready issued [] None empty_cache [] w)
  /\ forall d q l i req c w r c' w', ready issued d q c l w -> GoJudgeClient.Execute cfg client links req (c, w) = (r, (c', w')) ->
       ready issued d q c' l w'
       /\ exists i', rtc (worker_step cfg) (mkWorker (mkSystem c [] [] l d) q i) (mkWorker (mkSystem c' [] [] l d) q i').
Proof.
  intros HX. split; [apply new_ready|]. intros d q l i req c w r c' w' HR H.
  apply (conducts_Execute cfg client links issued HX d q req l _ _ i) in H as (i' & S & R); [|done]. split; [done|]. by exists i'.
Qed.

Definition demo_tests : list ExecutionTestCase := [demo_test 1 "42" "42"; demo_test 2 "5" "6"; demo_test 3 "8" "8"].

(** Two executions of a new worker, of which the first one takes over what the
    sandbox has from an earlier worker. *)
Definition used_files : sandboxFileRPC demo :=
  mkFileRPC demo demo_files.(FileAdd) (fun w => (inr (Some [("old", old_name)]%string), w)) demo_files.(FileDelete) (fun _ => true) d_tick.
Definition used_executor : executorRPC demo := mkExecutor demo demo_executor.(Exec) used_files (fun _ => None) None.
Definition used_issued (w : demo) : gset string := {["old"%string]} ∪ w.(d_issued).

(** New identifiers are not "old". *)
Lemma new_id_old X : new_id X <> "old"%string.
Proof. unfold new_id. intros H%(f_equal chars). rewrite chars_str in H. cbn in H. discriminate. Qed.

#[export] Instance used_sandbox : SandboxLaws used_files used_issued.
Proof.
  constructor; cbn.
  - intros _ _ w r w' [= <- <-]. unfold used_issued. cbn. split; [set_solver|]. intros fid [= <-].
    pose proof (new_id_fresh w.(d_issued)). pose proof (new_id_old w.(d_issued)). set_solver.
  - intros w r w' [= <- <-]. split; [done|]. intros files [= <-]. apply Forall_cons_2; [|apply Forall_nil_2].
    unfold used_issued. cbn. set_solver.
  - by intros _ w r w' [= <- <-].
  - by intros w t w' [= <- <-].
Qed.

Definition first_run := GoJudgeClient.Execute demo_cache used_executor Some (demo_request "PYTHON" demo_tests) (empty_cache, demo0).
Definition second_run := GoJudgeClient.Execute demo_cache used_executor Some (demo_request "PYTHON" demo_tests) first_run.2.

Lemma execution_returns_its_pins_witness :
  (lookup_file demo_key first_run.2.1 = Some "old"%string /\ size first_run.2.1.(entries) = 3%nat)
  /\ (exists i, rtc (worker_step demo_cache) new_worker (mkWorker (mkSystem first_run.2.1 [] [] [] []) None i))
  /\ (exists i i', rtc (worker_step demo_cache) (mkWorker (mkSystem first_run.2.1 [] [] [] []) None i)
                     (mkWorker (mkSystem second_run.2.1 [] [] [] []) None i')).
Proof.
  split; [split; vm_compute; reflexivity|]. unfold second_run.
  assert (HX : forall req w r w', used_executor.(Exec) req w = (r, w') -> used_issued w ⊆ used_issued w').
  { intros req w r w' H. unfold used_issued. by apply union_mono_l, (demo_exec_issued req w r). }
  destruct (execution_returns_its_pins demo_cache used_executor Some used_issued HX) as [N K].
  destruct first_run as [r [c w]] eqn:E1. cbn [fst snd].
  destruct (K [] None [] ∅ _ _ _ _ _ _ (N demo0) E1) as [R (i & S)].
  destruct (GoJudgeClient.Execute demo_cache used_executor Some (demo_request "PYTHON" demo_tests) (c, w)) as [r' [c' w']] eqn:E2.
  destruct (K [] None [] i _ _ _ _ _ _ R E2) as [_ (i' & S')].
  split; [by exists i|by exists i, i'].
Defined.

(** C33: the verdict of a submission that could be compiled is the status of
    its first testcase that was not accepted, and ACCEPTED when there is none;
    time and memory are the largest of the testcases that were run, in the
    order of the request.  An official run stops right after the first
    failure, every other run covers all testcases. *)
Theorem verdict_is_first_failure {W} cfg (client : executorRPC W) links req w res w' :
  GoJudgeClient.Execute cfg client links req w = (inr res, w') -> res.(EStatus) <> "COMPILATION_ERROR"%string ->
  exists rs early, let stop := req.(StopOnFirstFailure) in
    (length rs <= length req.(ExTestCases))%nat /\ (early = false -> length rs = length req.(ExTestCases))
    /\ summarises (judged req.(ExLanguage) stop req.(ExTestCases) rs) res
    /\ ends stop early (judged req.(ExLanguage) stop req.(ExTestCases) rs).
Proof. apply Execute_summary. Qed.

Definition demo_config : TestcaseCacheConfig := mkCacheConfig false 0 0 0 0.

Lemma verdict_is_first_failure_witness : exists res w',
  GoJudgeClient.Execute demo_config demo_executor Some (demo_request "PYTHON" demo_tests) (empty_cache, demo0) = (inr res, w')
  /\ res.(EStatus) = "WRONG_ANSWER"%string
  /\ exists rs, summarises (judged "PYTHON" true demo_tests rs) res.
Proof.
  destruct (GoJudgeClient.Execute demo_config demo_executor Some (demo_request "PYTHON" demo_tests) (empty_cache, demo0))
    as [r w'] eqn:E.
  assert (exists res, r = inr res /\ EStatus res = "WRONG_ANSWER"%string) as (res & -> & HS).
  { apply (f_equal fst) in E. vm_compute in E. rewrite <- E. eexists. split; reflexivity. }
  exists res, w'. split; [done|]. split; [done|].
  assert (EStatus res <> "COMPILATION_ERROR"%string) as HC by (rewrite HS; discriminate).
  destruct (verdict_is_first_failure demo_config demo_executor Some (demo_request "PYTHON" demo_tests) (empty_cache, demo0) res w' E HC)
    as (rs & early & _ & _ & HR & _). exists rs. exact HR.
Defined.

(** A request to the sandbox has one command per testcase of the batch,
    in order; its standard inputs travel inline only up to three MiB in total,
    and every other input is a pinned file of the cache or a file below the
    testcase directory. *)
Theorem batch_request_is_bounded {W} cfg (client : executorRPC W) links language src langCfg limits exe dataset tests w req bs w' :
  newRunBatchRequest cfg client links language src langCfg limits exe dataset tests w = (inr (req, bs), w') ->
  sum_by stdin_bytes req <= sandboxGRPCSafeRequestBytes
  /\ exists fs, req = map (run_command language src langCfg limits exe) fs /\ Forall2 (serves client links) tests fs.
Proof. apply newRunBatchRequest_bounds. Qed.

Definition python : LanguageConfig := mkLangCfg None (mkRunCmd ["/usr/bin/python3"; "main.py"] ["PATH=/usr/bin:/bin"])%string.

Lemma batch_request_is_bounded_witness : exists req bs w',
  newRunBatchRequest demo_config demo_executor Some "PYTHON" "print(input())" python (normalizeLimits no_limits) None None demo_tests
    (empty_cache, demo0) = (inr (req, bs), w')
  /\ sum_by stdin_bytes req <= sandboxGRPCSafeRequestBytes.
Proof.
  destruct (newRunBatchRequest demo_config demo_executor Some "PYTHON" "print(input())" python (normalizeLimits no_limits) None None
    demo_tests (empty_cache, demo0)) as [r w'] eqn:E.
  assert (exists p, r = inr p) as [[req bs] ->].
  { apply (f_equal fst) in E. vm_compute in E. rewrite <- E. eexists. reflexivity. }
  exists req, bs, w'. split; [done|].
  exact (proj1 (batch_request_is_bounded _ _ _ _ _ _ _ _ _ _ _ req bs w' E)).
Defined.

(** The output limit of an execution leaves room for the whole expected
    output of every testcase and 64 KiB more, and never lowers the limit that
    was asked for. *)
Theorem output_limit_covers_expected limits tests tc e : tc ∈ tests -> tc.(TcExpectedOutput) = Some e ->
  len e + expectedOutputHeadroomBytes <= (ensureOutputLimitForExpected (normalizeLimits limits) tests).(OutputLimitBytes)
  /\ (normalizeLimits limits).(OutputLimitBytes) <= (ensureOutputLimitForExpected (normalizeLimits limits) tests).(OutputLimitBytes).
Proof. intros H1 H2. split; [by eapply required_output_covers|apply required_output_ge]. Qed.

Lemma output_limit_covers_expected_witness :
  len "42" + expectedOutputHeadroomBytes <= (ensureOutputLimitForExpected (normalizeLimits no_limits) demo_tests).(OutputLimitBytes)
  /\ (normalizeLimits no_limits).(OutputLimitBytes) <= (ensureOutputLimitForExpected (normalizeLimits no_limits) demo_tests).(OutputLimitBytes).
Proof. apply (output_limit_covers_expected no_limits demo_tests (demo_test 1 "42" "42") "42"); [by left|reflexivity]. Defined.

(** The comparison of outputs looks at normal forms: a text in normal
    form has no carriage return, no blanks at the end of a line and no empty
    lines at its end; normalizing twice changes nothing more, and texts that
    differ in DOS line ends or in a final newline have the same normal form. *)
Theorem output_comparison_is_canonical l : normal_output (normalize_bytes l)
  /\ normalize_bytes (normalize_bytes l) = normalize_bytes l
  /\ (no_cr l -> normalize_bytes (dos_lines l) = normalize_bytes l /\ normalize_bytes (l ++ [nl]) = normalize_bytes l).
Proof.
  split_and!; [apply normalize_normal|apply normalize_id, normalize_normal|].
  intros H. split; [by apply normalize_dos|by apply replace_crlf_snoc].
Qed.

Lemma output_comparison_is_canonical_witness :
  normalize_bytes (dos_lines (chars "42")) = normalize_bytes (chars "42")
  /\ normalize_bytes (chars "42" ++ [nl]) = normalize_bytes (chars "42").
Proof. apply (proj2 (proj2 (output_comparison_is_canonical (chars "42")))). by repeat constructor. Defined.

(** ** Guarantees of the testcase loader *)

(** C37: a dataset that the loader returns is the one of the metadata: as many
    testcases as announced, numbered from one in the order of their indexes,
    each with its expected output and a checksum that the submission service
    accepts; and every input lies below the cache directory, where the go-judge
    adapter takes files from. *)
Theorem dataset_is_complete {W} (os : platform W) l md w bundle w' : IsAbs (chars l.(cacheBaseDir)) = true ->
  Load os l md w = (inr bundle, w') ->
  bundle_ok bundle /\ bundle.(BdVersion) = md.(MdVersion) /\ Z.of_nat (length bundle.(BdTestCases)) = md.(MdTestCount)
  /\ (exists inputs, cases_ok (indexes inputs) inputs 1 bundle.(BdTestCases) /\ StronglySorted Z.lt (indexes inputs))
  /\ Forall (fun tc => isContainedPath (chars l.(cacheBaseDir)) (chars tc.(SandboxInputPath)) = true) bundle.(BdTestCases).
Proof.
  intros HA H. apply Load_ok in H as (B1 & B2 & B3 & B4 & _ & _ & c & w0 & w1 & HB).
  pose proof (bundle_paths _ _ _ _ _ _ _ HA HB) as HP. split_and!; try done.
  apply bind_inr_inv in HB as (tests & w2 & HL & HB). injection HB as <- _. apply loadFromDir_ok in HL as (inputs & C & _ & _).
  exists inputs. split; [done|]. apply indexes_spec.
Qed.

Lemma dataset_is_complete_witness : exists bundle w',
  Load demo_os default_loader demo_metadata demo0 = (inr bundle, w')
  /\ bundle_ok bundle /\ map TcID bundle.(BdTestCases) = ["1"%string].
Proof.
  destruct (Load demo_os default_loader demo_metadata demo0) as [r w'] eqn:E.
  assert (exists b, r = inr b /\ map TcID (BdTestCases b) = ["1"%string]) as (b & -> & HT).
  { apply (f_equal fst) in E. vm_compute in E. rewrite <- E. eexists. split; reflexivity. }
  exists b, w'. split; [done|]. split; [|exact HT].
  exact (proj1 (dataset_is_complete demo_os default_loader demo_metadata demo0 b w' eq_refl E)).
Defined.

(** C38: whatever entries an archive has, extracting it creates files directly
    inside the destination directory only, all with names of testcase files. *)
Theorem extraction_stays_inside {W} (os : platform W) l (created : W -> list string) {L : CreateLaws os created}
    destDir entries w r w' : IsAbs (chars destDir) = true ->
  extract_entries os l destDir 0 entries w = (r, w') ->
  exists ps, created w' = created w ++ ps /\ Forall (inside destDir) ps.
Proof. intros HA H. by eapply extract_inside. Qed.

Definition hostile_zip : list zip_entry :=
  [mkZip "a/b/01.in" false false 1 (inr ("1"%string, None)); mkZip "../../etc/1.out" false false 1 (inr ("2"%string, None))].

Lemma extraction_stays_inside_witness : exists ps,
  (extract_entries demo_os default_loader "/cache/testcases/problem_7_tmp_1" 0 hostile_zip demo0).2.(d_created) = ps
  /\ ps = ["/cache/testcases/problem_7_tmp_1/01.in"]%string /\ Forall (inside "/cache/testcases/problem_7_tmp_1") ps.
Proof.
  destruct (extract_entries demo_os default_loader "/cache/testcases/problem_7_tmp_1" 0 hostile_zip demo0) as [r w'] eqn:E.
  destruct (extraction_stays_inside demo_os default_loader d_created "/cache/testcases/problem_7_tmp_1" hostile_zip demo0 r w' eq_refl E)
    as (ps & HP & HF). exists ps. split; [exact HP|]. split; [|exact HF].
  cbn [snd d_created demo0 app] in HP. rewrite <- HP. apply (f_equal (fun x => d_created x.2)) in E.
  change (d_created (extract_entries demo_os default_loader "/cache/testcases/problem_7_tmp_1" 0 hostile_zip demo0).2 = d_created w') in E.
  rewrite <- E. vm_compute. reflexivity.
Defined.

(** The limit on the extracted size holds for archives whose entries
    announce less than 2^62 bytes each, but an entry that announces 2^63 bytes
    is counted as if it announced none. *)
Theorem extraction_bound {W} (os : platform W) l destDir w :
  (forall entries w', 0 <= l.(maxExtractedBytes) < 2 ^ 62 -> Forall (fun f => 0 <= f.(UncompressedSize64) < 2 ^ 62) entries ->
     extract_entries os l destDir 0 entries w = (inr tt, w') -> announced entries <= l.(maxExtractedBytes))
  /\ (forall content, 0 <= l.(maxExtractedBytes) ->
     extract_entries os l destDir 0 [mkZip "1.in" false false (2 ^ 63) (inr (content, None))] w
     = extract_entries os l destDir 0 [mkZip "1.in" false false 0 (inr (content, None))] w).
Proof.
  split; [|intros content HM; by apply extract_overflow_run].
  intros entries w' HM HF H. apply extract_bound in H; [lia|lia|lia|done].
Qed.

Lemma extraction_bound_witness :
  announced [mkZip "1.in" false false 3 (inr ("7"%string, None))] <= default_loader.(maxExtractedBytes)
  /\ (extract_entries demo_os default_loader "/tmp/x" 0 [mkZip "1.in" false false (2 ^ 63) (inr ("7"%string, None))] demo0).1 = inr tt.
Proof.
  destruct (extraction_bound demo_os default_loader "/tmp/x" demo0) as [H1 H2]. split.
  - eapply H1; [done|by repeat constructor|]. cbn [extract_entries]. vm_compute. reflexivity.
  - rewrite (H2 "7"%string) by done. vm_compute. reflexivity.
Defined.

(** ** Guarantees of the worker *)

(** C32: a judge job ends in exactly one of two ways: one result message goes
    to the result topic, and the submission service accepts it as it is (known
    terminal status, valid checksum, valid testcase rows), or nothing is
    published and the job reports an error, so that it is tried again. *)
Theorem job_reports_once {W} Execute Metadata Load (Send : ProducerMessage -> M W (Z * Z)) topic
    (delivered : W -> list ProducerMessage) {EL : ExecutorLaws Execute} {LL : LoaderLaws Load}
    {QL : QuietWorkerPorts Execute Metadata Load Send delivered} job w r w' :
  0 < job.(JobSubmissionID) -> TrimSpace job.(JobAttemptID) <> ""%string ->
  processJob Execute (PublishResult Send topic) Metadata Load job w = (r, w') ->
  (exists result rs,
     delivered w' = delivered w ++ [mkProducer topic (Itoa job.(JobSubmissionID))
       (marshal_result (result_message job.(JobSubmissionID) job.(JobAttemptID) result))]
     /\ validateResult (result_message job.(JobSubmissionID) job.(JobAttemptID) result) = inr (result.(EStatus), rs))
  \/ (exists e, r = inl e) /\ delivered w' = delivered w.
Proof. intros H1 H2. by apply processJob_reported. Qed.

(** The ports of the demonstration: the state of the cache travels along. *)
Definition demo_world : Type := cache * demo.
Definition world_execute := GoJudgeClient.Execute demo_config demo_executor Some.
Definition world_metadata : Z -> M demo_world WorkerDomain.ProblemTestCaseMetadata :=
  fun id => GetTestCaseMetadata (fun _ => ret (Some (mkGetTC " http://files/7.zip" 1 1))) id.
Definition world_load : WorkerDomain.ProblemTestCaseMetadata -> M demo_world OfficialTestCaseBundle :=
  fun md => rpc (Load demo_os default_loader md).
Definition world_send : ProducerMessage -> M demo_world (Z * Z) := fun m => rpc (demo_send m).
Definition world_sent : demo_world -> list ProducerMessage := outside d_sent.

#[export] Instance demo_os_quiet : QuietPlatform demo_os d_sent.
Proof.
  constructor; intros; try (by intros w r w' [= <- <-]).
Qed.

#[export] Instance world_load_laws : LoaderLaws world_load.
Proof. constructor. intros md [c w] bundle [c' w'] H. apply rpc_inv in H as [_ H]. by apply loader_ok in H. Qed.

#[export] Instance world_execute_laws : ExecutorLaws world_execute := Execute_laws demo_config demo_executor Some.

#[export] Instance world_quiet : QuietWorkerPorts world_execute world_metadata world_load world_send world_sent.
Proof.
  constructor.
  - intros req. apply Execute_quiet; cbn.
    + by intros rq w r w' [= <- <-].
    + by intros n c w r w' [= <- <-].
    + by intros w r w' [= <- <-].
    + by intros f w r w' [= <- <-].
    + by intros w t w' [= <- <-].
  - intros id w r w'. unfold world_metadata, GetTestCaseMetadata. cbn. destruct (id <=? 0); by intros [= <- <-].
  - intros md. apply quiet_rpc. exact (Load_quiet demo_os default_loader d_sent md).
  - intros m [c w] p [c' w'] [_ H]%rpc_inv. cbn in H. by injection H as <- <-.
  - intros m [c w] e [c' w'] [_ H]%rpc_inv. discriminate.
Qed.

Definition demo_job : JobMessage := mkJob 1 7 "sum" "alice" "PYTHON" "print(input())" "attempt-1" 0.

Lemma job_reports_once_witness : exists r w' result rs,
  processJob world_execute (PublishResult world_send "results") world_metadata world_load demo_job (empty_cache, demo0) = (r, w')
  /\ world_sent w' = [mkProducer "results" "1" (marshal_result (result_message 1 "attempt-1" result))]
  /\ validateResult (result_message 1 "attempt-1" result) = inr (result.(EStatus), rs).
Proof.
  destruct (processJob world_execute (PublishResult world_send "results") world_metadata world_load demo_job (empty_cache, demo0))
    as [r w'] eqn:E. exists r, w'.
  assert (r = inr tt) as Hr by (apply (f_equal fst) in E; vm_compute in E; by rewrite <- E).
  assert (TrimSpace (JobAttemptID demo_job) <> ""%string) as HA by (vm_compute; discriminate).
  destruct (job_reports_once world_execute world_metadata world_load world_send "results" world_sent demo_job
    (empty_cache, demo0) r w' eq_refl HA E) as [(result & rs & H1 & H2)|[[e He] _]]; [|rewrite Hr in He; discriminate].
  exists result, rs. split; [done|]. split; [exact H1|exact H2].
Defined.

(** A request to compile: 30 s of processor time and 512 MiB. *)
Definition compiles_within (req : Request) : Prop :=
  Forall (fun c => c.(CpuTimeLimit) = 30000 * millisecond /\ c.(ClockTimeLimit) = 60000 * millisecond /\ c.(MemoryLimit) = 512 * 2 ^ 20) req.

(** A request to run: 2 s and 256 MiB for every command. *)
Definition runs_officially (req : Request) : Prop :=
  sum_by stdin_bytes req <= sandboxGRPCSafeRequestBytes
  /\ Forall (fun c => c.(CpuTimeLimit) = 2000 * millisecond /\ c.(ClockTimeLimit) = 4000 * millisecond /\ c.(MemoryLimit) = 256 * 2 ^ 20) req.

Lemma official_within jobMsg metadata bundle req :
  let r := official_request jobMsg metadata bundle in
  run_within (ensureOutputLimitForExpected (normalizeLimits r.(ExLimits)) r.(ExTestCases)) req -> runs_officially req.
Proof. intros r [H F]. split; [done|]. eapply Forall_impl; [exact F|]. intros c (-> & -> & ->). by split_and!. Qed.

Lemma official_compiles jobMsg metadata bundle cmd :
  let r := official_request jobMsg metadata bundle in
  compiles_within (compile_request r.(ExLanguage) r.(ExSourceCode) cmd
    (ensureOutputLimitForExpected (normalizeLimits r.(ExLimits)) r.(ExTestCases))).
Proof. intros r. apply Forall_cons_2; [by split_and!|apply Forall_nil_2]. Qed.

(** C31: the limits of an official judgement are the same for every problem:
    whatever the problem service and the loader answer, all that [processJob]
    sends to the sandbox is at most one request to compile, first, and
    requests to run in which every command has 2 s of processor time, 4 s in
    all and 256 MiB, with at most three MiB of standard input inline. *)
Theorem official_limits_are_fixed {W} cfg (client : executorRPC W) links (ran : W -> list Request) {EL : ExecLog client ran}
    Publish Metadata Load jobMsg s r s' :
  (forall sid aid res, keeps (outside ran) (Publish sid aid res)) -> (forall id, keeps (outside ran) (Metadata id)) ->
  (forall md, keeps (outside ran) (Load md)) ->
  processJob (GoJudgeClient.Execute cfg client links) Publish Metadata Load jobMsg s = (r, s') ->
  exists pre runs, ran s'.2 = ran s.2 ++ pre ++ runs /\ (length pre <= 1)%nat
    /\ Forall compiles_within pre /\ Forall runs_officially runs.
Proof.
  intros KP KM KL H.
  assert (N : forall s1 : cache * W, ran s1.2 = ran s.2 -> exists pre runs, ran s1.2 = ran s.2 ++ pre ++ runs /\ (length pre <= 1)%nat
    /\ Forall compiles_within pre /\ Forall runs_officially runs).
  { intros s1 E. exists [], []. rewrite E, app_nil_r. split_and!; [done|cbn; lia|constructor|constructor]. }
  assert (KE : forall stage err, keeps (outside ran) (handleProcessingError Publish jobMsg stage err)).
  { intros stage err. unfold handleProcessingError. destruct (negb _); [apply keeps_fail|apply KP]. }
  unfold processJob in H. unfold bind at 1, try at 1 in H. destruct (Metadata _ s) as [m s1] eqn:EM. apply KM in EM.
  unfold outside in EM. destruct m as [e|metadata]; [apply N; rewrite <- EM; by apply KE in H|].
  unfold bind at 1, try at 1 in H. destruct (Load _ s1) as [b s2] eqn:EB. apply KL in EB. unfold outside in EB.
  destruct b as [e|bundle]; [apply N; rewrite <- EM, <- EB; by apply KE in H|].
  unfold bind at 1, try at 1 in H. destruct (GoJudgeClient.Execute _ _ _ _ s2) as [x s3] eqn:EX.
  apply (Execute_sends cfg client links ran) in EX as (pre & runs & R & C & F).
  assert (E3 : ran s'.2 = ran s3.2) by (destruct x; [by apply KE in H|by apply KP in H]).
  exists pre, runs. rewrite E3, R, EB, EM. split; [done|]. split_and!.
  - destruct C as [->|[cmd ->]]; cbn; lia.
  - destruct C as [->|[cmd ->]]; [constructor|]. apply Forall_cons_2; [|apply Forall_nil_2].
    apply (official_compiles jobMsg metadata bundle).
  - eapply Forall_impl; [exact F|]. intros req. apply (official_within jobMsg metadata bundle).
Qed.

(** The demonstration with a record of the requests. *)
Definition recorded {A} (m : M demo A) : M (demo * list Request) A := fun '(w, l) => let '(r, w') := m w in (r, (w', l)).
Definition recorded_files : sandboxFileRPC (demo * list Request) :=
  mkFileRPC (demo * list Request) (fun n content => recorded (demo_files.(FileAdd) n content)) (recorded demo_files.(FileList))
    (fun fid => recorded (demo_files.(FileDelete) fid)) (fun _ => true)
    (fun '(w, l) => let '(t, w') := d_tick w in (t, (w', l))).
Definition recorded_executor : executorRPC (demo * list Request) :=
  mkExecutor (demo * list Request)
    (fun req '(w, l) => let '(r, w') := demo_executor.(Exec) req w in (r, (w', l ++ [req]))) recorded_files (fun _ => None) None.

Lemma recorded_keeps {A} (m : M demo A) : keeps snd (recorded m).
Proof. intros [w l] r s'. unfold recorded. destruct (m w). by intros [= _ <-]. Qed.

#[export] Instance recorded_log : ExecLog recorded_executor snd.
Proof.
  constructor.
  - intros req [w l] r s'. cbn. by intros [= _ <-].
  - intros n content. apply recorded_keeps.
  - apply recorded_keeps.
  - intros fid. apply recorded_keeps.
  - intros [w l] t s'. cbn. by intros [= _ <-].
Qed.

(** A C++ program: one request to compile and one to run three tests. *)
Definition cpp_job : JobMessage := mkJob 1 7 "sum" "alice" "CPP" "int main() {}" "attempt-1" 0.
Definition judge_cpp : (error + unit) * (cache * (demo * list Request)) :=
  processJob (GoJudgeClient.Execute demo_config recorded_executor Some) (fun _ _ _ => ret tt) (fun _ => ret demo_metadata)
    (fun _ => ret (mkBundle demo_tests 3 1 demo_checksum)) cpp_job (empty_cache, (demo0, [])).

Lemma official_limits_are_fixed_witness : exists pre runs, judge_cpp.2.2.2 = pre ++ runs /\ map length (pre ++ runs) = [1; 3]%nat
  /\ (length pre <= 1)%nat /\ Forall compiles_within pre /\ Forall runs_officially runs.
Proof.
  assert (L : map length judge_cpp.2.2.2 = [1; 3]%nat) by (vm_compute; reflexivity).
  destruct judge_cpp as [r s'] eqn:E. cbn [snd] in L |- *.
  destruct (official_limits_are_fixed demo_config recorded_executor Some snd _ _ _ cpp_job (empty_cache, (demo0, [])) r s'
    (fun _ _ _ => keeps_ret _ _) (fun _ => keeps_ret _ _) (fun _ => keeps_ret _ _) E) as (pre & runs & R & H).
  exists pre, runs. change (s'.2.2 = pre ++ runs) in R. rewrite R in L |- *. by split_and!; try apply H.
Defined.

(** ** Guarantees of the consumers *)

(** A message of the job topic runs the use case at most three times and
    is marked exactly once, unless the session is over. *)
Theorem job_message_is_handled {W P} (session : Session W) (Unmarshal : string -> error + P) Execute dlt marks runs
    {L : SessionLaws session Execute dlt marks runs} m w :
  let w' := job_handleMessage session Unmarshal Execute dlt m w in
  ((exists t, marks w' = marks w ++ [(m, t)]) \/ (marks w' = marks w /\ session.(Done) w' = true))
  /\ (runs w <= runs w' <= runs w + 3)%nat.
Proof. destruct (job_handled session Unmarshal Execute dlt marks runs m w) as (H1 & H2 & _). done. Qed.

(** A session that ends at time one hundred; every wait takes one unit. *)
Definition with_mark (m : ConsumerMessage) (t : string) (w : demo) : demo :=
  mkDemo w.(d_issued) w.(d_clock) w.(d_sent) w.(d_created) (w.(d_marks) ++ [(m, t)]) w.(d_runs).
Definition demo_session : Session demo :=
  mkSession demo (fun w => 100 <=? w.(d_clock)) with_mark
    (fun _ w => let w' := (d_tick w).2 in (negb (100 <=? w'.(d_clock)), w'))
    (fun w => (negb (100 <=? w.(d_clock)), w)) (fun w => w).
(** A use case that fails for the payload [bad]. *)
Definition demo_use_case (payload : string) : M demo unit :=
  fun w => (if bool_decide (payload = "bad"%string) then inl (ESentinel "failed") else inr tt,
            mkDemo w.(d_issued) w.(d_clock) w.(d_sent) w.(d_created) w.(d_marks) (S w.(d_runs))).
Definition demo_dlt : option (ConsumerMessage -> string -> Z -> M demo unit) :=
  Some (dlt_Publish (fun v => inr (chars v)) demo_send "judge.submission.dlt").

#[export] Instance demo_session_laws : SessionLaws demo_session demo_use_case demo_dlt d_marks d_runs.
Proof.
  constructor.
  - intros m t w. done.
  - intros n w. cbn. split_and!; [done|done|intros H%Z.leb_le; apply Z.leb_le; lia|intros H; by apply negb_false_iff in H].
  - intros w. cbn. split_and!; [done|done|done|intros H; by apply negb_false_iff in H].
  - done.
  - by intros p w r w' [= <- <-].
  - by intros publish m e n w [= <-].
Qed.

Definition demo_consumer (offset : Z) (value : string) : ConsumerMessage := mkConsumer "jobs" 0 offset "1" value.

Lemma job_message_is_handled_witness :
  let w' := job_handleMessage demo_session inr demo_use_case demo_dlt (demo_consumer 0 "bad") demo0 in
  ((exists t, d_marks w' = [(demo_consumer 0 "bad", t)]) \/ (d_marks w' = [] /\ demo_session.(Done) w' = true))
  /\ (0 <= d_runs w' <= 3)%nat.
Proof.
  exact (job_message_is_handled demo_session inr demo_use_case demo_dlt d_marks d_runs (demo_consumer 0 "bad") demo0).
Defined.

(** The consumer of judge results handles its messages one after the
    other: the messages it marks are a prefix of the claim, in order, and all
    of it unless the session ends; no message is marked before the ones in
    front of it. *)
Theorem results_are_marked_in_order {W P} (session : Session W) (Unmarshal : string -> error + P) Execute dlt marks runs
    {L : SessionLaws session Execute dlt marks runs} messages w :
  exists k tags, let w' := result_ConsumeClaim session Unmarshal Execute dlt messages w in
    marks w' = marks w ++ zip (take k messages) tags /\ length tags = length (take k messages)
    /\ ((length messages <= k)%nat \/ session.(Done) w' = true).
Proof.
  destruct (result_claim_prefix session Unmarshal Execute dlt marks runs messages w) as (k & tags & H1 & H2 & H3 & _).
  exists k, tags. done.
Qed.

Lemma results_are_marked_in_order_witness :
  exists k tags, let messages := [demo_consumer 0 "good"; demo_consumer 1 "bad"] in
    let w' := result_ConsumeClaim demo_session inr demo_use_case demo_dlt messages demo0 in
    d_marks w' = zip (take k messages) tags /\ length tags = length (take k messages)
    /\ ((2 <= k)%nat \/ demo_session.(Done) w' = true).
Proof.
  exact (results_are_marked_in_order demo_session inr demo_use_case demo_dlt d_marks d_runs
    [demo_consumer 0 "good"; demo_consumer 1 "bad"] demo0).
Defined.

(** C36: when the committed offset passes a message that is not handled to the
    end.  With a single worker never while the session runs, and never a message
    that the worker holds; only a message it left because the session was over
    can be passed, and that can happen, since messages are still dispatched
    and marked then.  With the default pool of four it can happen while the
    session runs, to a message that a worker is busy with. *)
Theorem pool_commits messages start : ascending messages -> Forall (fun m => start <= m.(CmOffset)) messages ->
  (forall s m, pool_reach 1 (fresh_claim messages start) s -> lost s m -> s.(over) = true /\ m ∈ s.(unmarked))
  /\ (exists s' m', pool_reach 1 (fresh_claim (two "jobs" "" "") 0) s' /\ lost s' m')
  /\ exists s' m', pool_reach 4 (fresh_claim (two "jobs" "" "") 0) s' /\ s'.(over) = false /\ m' ∈ s'.(inflight) /\ lost s' m'.
Proof.
  intros H1 H2. split; [|split; [apply single_loses_run|apply pool_loses_run]].
  intros s m H3. by apply single_lost, (single_reach messages start).
Qed.

Lemma pool_commits_witness :
  (forall s m, pool_reach 1 (fresh_claim (two "jobs" "" "") 0) s -> lost s m -> s.(over) = true /\ m ∈ s.(unmarked))
  /\ exists s m, pool_reach 1 (fresh_claim (two "jobs" "" "") 0) s /\ lost s m /\ s.(over) = true /\ m ∈ s.(unmarked).
Proof.
  destruct (pool_commits (two "jobs" "" "") 0) as (H & (s & m & R & L) & _).
  - constructor; [repeat constructor|]. apply Forall_cons_2; [cbn; lia|apply Forall_nil_2].
  - apply Forall_cons_2; [cbn; lia|]. apply Forall_cons_2; [cbn; lia|apply Forall_nil_2].
  - split; [exact H|]. exists s, m. split; [exact R|]. split; [exact L|]. by apply H.
Defined.

(** A message whose value is no JSON is marked without ever reaching the
    dead letter topic: the dead letter carries the value as raw JSON and cannot
    be encoded. *)
Theorem invalid_message_is_dropped {W P} (session : Session W) (Unmarshal : string -> error + P) Execute compact Send topic permanent
    (m : ConsumerMessage) (w : W) e e' : Unmarshal m.(CmValue) = inl e -> compact m.(CmValue) = inl e' ->
  handlePayload session Unmarshal Execute (Some (dlt_Publish compact Send topic)) permanent m w
  = session.(MarkMessage) m "invalid_payload_dlt" w.
Proof. apply invalid_payload_run. Qed.

Lemma invalid_message_is_dropped_witness :
  handlePayload demo_session (fun _ => inl (EText "invalid character") : error + string) demo_use_case
    (Some (dlt_Publish (fun _ => inl (EText "invalid character")) demo_send "judge.submission.dlt"))
    (fun _ => false) (demo_consumer 0 "{") demo0
  = with_mark (demo_consumer 0 "{") "invalid_payload_dlt" demo0.
Proof. by eapply (invalid_message_is_dropped demo_session). Defined.

(** The diagnostics shown for a compiler or run-time output point at
    positive positions within 64 bits, are errors of their kind, and there is
    at most one for the run of a testcase; the message shown for a run-time
    error is empty or valid UTF-8 of at most 4099 bytes without control
    characters. *)
Theorem diagnostics_are_well_formed language testcase output stderr :
  Forall (fun d => diagnostic_ok d /\ d.(DgKind) = diagnosticKindCompile) (parseCompileDiagnostics language output)
  /\ Forall (fun d => diagnostic_ok d /\ d.(DgKind) = diagnosticKindRuntime /\ d.(DgTestCaseID) = Some testcase)
       (parseRuntimeDiagnostics language testcase output)
  /\ (length (parseRuntimeDiagnostics language testcase output) <= 1)%nat
  /\ let m := runtimeErrorMessage stderr (parseRuntimeDiagnostics language testcase output) in
     m = ""%string \/ (len m <= 4099 /\ ValidString m = true /\ Forall (fun c => public_byte c = true) (chars m)).
Proof.
  destruct (runtime_diagnostics_ok language testcase output) as [R1 R2].
  split_and!; [apply compile_diagnostics_ok|exact R1|exact R2|]. cbv zeta.
  destruct (runtimeErrorMessage_public stderr (parseRuntimeDiagnostics language testcase output)) as [m ->].
  destruct (decide (Worker.publicErrorMessage m = ""%string)) as [|H]; [by left|right]. by apply worker_public_spec.
Qed.

(** ** Messages between the services *)

(** C19: what one service writes the other one reads.  A job that the submission
    service can encode and whose texts have no character U+0000 is decoded by
    the worker to the same job after the database has stored it as [jsonb],
    whatever order the keys come back in and however the strings are escaped
    then; and a result message that the worker publishes is decoded by the
    submission service to the same message. *)
Theorem judge_messages_roundtrip jsonb job payload msg :
  jsonb_normalises jsonb -> job_ok job -> job_storable job -> marshal_job job = Some payload -> JudgeMessages.result_ok msg ->
  decode_job (jsonb payload) = Some job /\ decode_result (marshal_result msg) = Some msg.
Proof. intros J O S E R. split; [by apply job_decoded|by apply result_decoded]. Qed.

Definition sent_job : JobMessage := mkJob 7 3 "sum" "user-1" "CPP" "int main() { return 1 < 2; }" "attempt-1" 1000000000.
Definition sent_result : ResultMessage :=
  mkResultMessage 7 "attempt-1" "WRONG_ANSWER" None None (Some 12) (Some 2048) None (Some 1) (Some 1) None
    [mkItem 1 "WRONG_ANSWER" (Some "3") None None (Some 12) (Some 2048)]%string.

Lemma in_range z : (int64_min <=? z) && (z <=? int64_max) = true -> in_int64 z.
Proof. rewrite andb_true_iff, !Z.leb_le. done. Qed.

Ltac within := first [exact I | apply in_range; reflexivity | unfold utf8; reflexivity].

(** The database gives the keys back in another order. *)
Lemma judge_messages_roundtrip_witness : exists payload,
  marshal_job sent_job = Some payload /\ jsonb_text payload <> payload /\ decode_job (jsonb_text payload) = Some sent_job
  /\ decode_result (marshal_result sent_result) = Some sent_result.
Proof.
  destruct (marshal_job sent_job) as [payload|] eqn:E; [|vm_compute in E; discriminate].
  exists payload. split; [reflexivity|]. split.
  { assert (C : match marshal_job sent_job with Some p => bool_decide (jsonb_text p <> p) | None => false end = true)
      by (vm_compute; reflexivity).
    rewrite E in C. by apply bool_decide_eq_true in C. }
  apply (judge_messages_roundtrip jsonb_text sent_job payload sent_result jsonb_text_normalises); [| |exact E|].
  - unfold job_ok. split_and!; within.
  - unfold job_storable. repeat (apply Forall_cons_2; [split; [within|apply (bool_decide_unpack _); vm_compute; exact I]|]). apply Forall_nil_2.
  - unfold JudgeMessages.result_ok. split_and!; first [within | apply Forall_cons_2; [unfold item_ok; split_and!; within | apply Forall_nil_2]].
Defined.
