(* ===== verification/ProblemDomain.v ===== *)
(** The problem service: its entities (services/problem/internal/domain), the
    responses of its API (application/dto, application/usecase/mappers.go) and
    its outbound ports (application/port/outbound).  The ports are records of
    operations over an abstract world; what is relied on of them is in
    ProblemStore.v. *)

From Stdlib Require Import SpecFloat.
From S2P Require Import Prelude GoString GoError GoMonad GoTime SubmissionDomain.

(** ** Numbers

    A Go [float64] is an IEEE 754 double, of which the service compares and
    copies only. *)
Definition float64 : Type := spec_float.
Definition float_of_Z (z : Z) : float64 := binary_normalize 53 1024 z 0 false.
Definition float_le0 (x : float64) : bool := SFleb x (S754_zero false).

(** ** Errors (domain/errors.go) *)

Definition ErrActorUnauthenticated := NewAppError CodeUnauthorized "Actor authentication required" None.
Definition ErrPermissionDenied := NewAppError CodeForbidden "Permission denied" None.
Definition ErrProblemNotFound := NewAppError CodeNotFound "Problem not found" None.
Definition ErrProblemAlreadyExists := NewAppError CodeConflict "Problem already exists" None.
Definition ErrTagNotFound := NewAppError CodeNotFound "Tag not found" None.
Definition ErrTagAlreadyExists := NewAppError CodeConflict "Tag already exists" None.
Definition ErrTagUsedByPublishedProblem := NewAppError CodeConflict "Tag is used by published problems" None.
Definition ErrInvalidDifficulty := NewAppError CodeBadRequest "Invalid difficulty" None.
Definition ErrProblemContainsInactiveTags := NewAppError CodeBadRequest "problem contains inactive tags" None.
Definition ErrForbidden := NewAppError CodeForbidden "You are not allowed to perform this action" None.
Definition ErrInvalidTestCase := NewAppError CodeBadRequest "Invalid test case" None.
Definition ErrTestCaseNotFound := NewAppError CodeNotFound "Test case not found" None.
Definition ErrInvalidProblemSlug := NewAppError CodeBadRequest "Invalid problem slug" None.
Definition ErrInvalidInput := NewAppError CodeBadRequest "Invalid input" None.
Definition ErrInternalServer := NewAppError CodeInternalServer "Internal Server Error" None.

(** ** Entities *)

Definition Difficulty : Type := string.
Definition Easy : Difficulty := "easy".
Definition Medium : Difficulty := "medium".
Definition Hard : Difficulty := "hard".

Record ProblemExample := mkExample { ExInput : string; ExOutput : string; ExExplanation : string }.

Record Tag := mkTag {
  TagID : Z; TagName : string; TagSlug : string; TagDescription : string; TagIsActive : bool;
  TagCreatedAt : Time; TagUpdatedAt : Time }.

Record Problem := mkProblem {
  PbID : Z; PbTitle : string; PbSlug : string; PbDescription : string; PbInputFormat : string;
  PbOutputFormat : string; PbDifficulty : Difficulty; PbTags : list Tag; PbExamples : list ProblemExample;
  PbConstraints : list string; PbHints : list string; PbTimeLimit : float64; PbMemoryLimit : Z;
  PbAuthorID : string; PbIsHidden : bool; PbCreatedAt : Time; PbUpdatedAt : Time; PbDeletedAt : option Time }.

Record TestCase := mkTestCase {
  TsID : Z; TsProblemID : Z; TsZipObjectKey : string; TsTestCount : Z; TsVersion : Z;
  TsCreatedAt : Time; TsUpdatedAt : Time }.

Definition NewTag (name slug description : string) (isActive : bool) (now now' : Time) : Tag :=
  mkTag 0 name slug description isActive now now'.

(** [NewProblem] and [NewTag] read the clock twice. *)
Definition NewProblem (title slug desc inputFormat outputFormat : string) (diff : Difficulty) (tags : list Tag)
    (examples : list ProblemExample) (constraints hints : list string) (timeLimit : float64) (memLimit : Z)
    (authorID : string) (now now' : Time) : Problem :=
  mkProblem 0 title slug desc inputFormat outputFormat diff tags examples constraints hints timeLimit memLimit
    authorID true now now' None.

Definition with_hidden (p : Problem) (hidden : bool) (now : Time) : Problem :=
  mkProblem p.(PbID) p.(PbTitle) p.(PbSlug) p.(PbDescription) p.(PbInputFormat) p.(PbOutputFormat) p.(PbDifficulty)
    p.(PbTags) p.(PbExamples) p.(PbConstraints) p.(PbHints) p.(PbTimeLimit) p.(PbMemoryLimit) p.(PbAuthorID) hidden
    p.(PbCreatedAt) now p.(PbDeletedAt).
Definition Publish (now : Time) (p : Problem) : Problem := with_hidden p false now.
Definition Hidden (now : Time) (p : Problem) : Problem := with_hidden p true now.
Definition IsDeleted (p : Problem) : bool := match p.(PbDeletedAt) with Some _ => true | None => false end.

Definition with_ID (p : Problem) (id : Z) : Problem :=
  mkProblem id p.(PbTitle) p.(PbSlug) p.(PbDescription) p.(PbInputFormat) p.(PbOutputFormat) p.(PbDifficulty)
    p.(PbTags) p.(PbExamples) p.(PbConstraints) p.(PbHints) p.(PbTimeLimit) p.(PbMemoryLimit) p.(PbAuthorID)
    p.(PbIsHidden) p.(PbCreatedAt) p.(PbUpdatedAt) p.(PbDeletedAt).

Definition NewTestCase (problemID : Z) (zipObjectKey : string) (testCount version : Z) (now : Time) : TestCase :=
  mkTestCase 0 problemID zipObjectKey testCount version now now.

(** ** Responses *)

(** [t.Format("2006-01-02T15:04:05Z")]: the wall clock in the location of [t],
    [offset t] nanoseconds ahead of UTC, with a literal Z. *)
Definition format_Z (offset : Time -> Z) (t : Time) : string := rfc3339 (t + offset t).

Record TagResponse := mkTagResponse { TgRID : Z; TgRName : string; TgRSlug : string; TgRDescription : string }.
Record AdminTagResponse := mkAdminTag {
  AtTag : TagResponse; AtIsActive : bool; AtCreatedAt : string; AtUpdatedAt : string }.

(** [ProblemExampleDTO] has the fields of the entity. *)
Record ProblemExampleDTO := mkExampleDTO { DtInput : string; DtExpectedOutput : string; DtExplanation : string }.

Record ProblemResponse := mkProblemResponse {
  PrID : Z; PrSlug : string; PrTitle : string; PrDescription : string; PrInputFormat : string; PrOutputFormat : string;
  PrDifficulty : string; PrTags : list TagResponse; PrExamples : list ProblemExampleDTO; PrConstraints : list string;
  PrHints : list string; PrTimeLimit : float64; PrMemoryLimit : Z; PrAuthorID : string; PrIsHidden : bool;
  PrCreatedAt : string }.

Record AdminTestCaseMetadataResponse := mkAdminTestCase {
  AmHasTestCase : bool; AmID : option Z; AmProblemID : option Z; AmTestCount : option Z; AmVersion : option Z;
  AmCreatedAt : option string; AmUpdatedAt : option string }.

Record AdminProblemDetailResponse := mkAdminProblem {
  ApProblem : ProblemResponse; ApUpdatedAt : string; ApDeletedAt : option string;
  ApTestCase : AdminTestCaseMetadataResponse }.

Record TestCaseMetadataResponse := mkTestCaseMetadata {
  TmID : Z; TmProblemID : Z; TmTestCount : Z; TmVersion : Z; TmCreatedAt : string; TmUpdatedAt : string }.

Record ListProblemsResponse := mkListProblems {
  LpItems : list ProblemResponse; LpTotal : Z; LpPage : Z; LpLimit : Z }.

Section mappers.
Context (offset : Time -> Z).

Definition MapTagToResponse (t : Tag) : TagResponse :=
  mkTagResponse t.(TagID) t.(TagName) t.(TagSlug) t.(TagDescription).

Definition MapTagToAdminResponse (t : Tag) : AdminTagResponse :=
  mkAdminTag (MapTagToResponse t) t.(TagIsActive) (format_Z offset t.(TagCreatedAt)) (format_Z offset t.(TagUpdatedAt)).

Definition example_dto (ex : ProblemExample) : ProblemExampleDTO :=
  mkExampleDTO ex.(ExInput) ex.(ExOutput) ex.(ExExplanation).

Definition MapExampleDTOsToEntity (l : list ProblemExampleDTO) : list ProblemExample :=
  map (fun d => mkExample d.(DtInput) d.(DtExpectedOutput) d.(DtExplanation)) l.

Definition MapProblemToResponse (p : Problem) (includePrivate : bool) : ProblemResponse :=
  mkProblemResponse p.(PbID) p.(PbSlug) p.(PbTitle) p.(PbDescription) p.(PbInputFormat) p.(PbOutputFormat)
    p.(PbDifficulty) (map MapTagToResponse p.(PbTags)) (map example_dto p.(PbExamples)) p.(PbConstraints) p.(PbHints)
    p.(PbTimeLimit) p.(PbMemoryLimit)
    (if includePrivate then p.(PbAuthorID) else ""%string) (if includePrivate then p.(PbIsHidden) else false)
    (format_Z offset p.(PbCreatedAt)).

Definition MapProblemToAdminDetailResponse (p : Problem) (tc : option TestCase) : AdminProblemDetailResponse :=
  mkAdminProblem (MapProblemToResponse p true) (format_Z offset p.(PbUpdatedAt)) (format_Z offset <$> p.(PbDeletedAt))
    (match tc with
     | None => mkAdminTestCase false None None None None None None
     | Some c => mkAdminTestCase true (Some c.(TsID)) (Some c.(TsProblemID)) (Some c.(TsTestCount)) (Some c.(TsVersion))
         (Some (format_Z offset c.(TsCreatedAt))) (Some (format_Z offset c.(TsUpdatedAt)))
     end).

Definition MapTestCaseToMetadataResponse (c : TestCase) : TestCaseMetadataResponse :=
  mkTestCaseMetadata c.(TsID) c.(TsProblemID) c.(TsTestCount) c.(TsVersion)
    (format_Z offset c.(TsCreatedAt)) (format_Z offset c.(TsUpdatedAt)).
End mappers.

(** ** Ports *)

(** [SubmissionProblemMetadata] *)
Record SubmissionProblem := mkSubmissionProblem {
  SpID : Z; SpTitle : string; SpSlug : string; SpTimeLimit : float64; SpMemoryLimit : Z; SpAuthorID : string;
  SpIsHidden : bool }.

Record ProblemFilter := mkProblemFilter { PfDifficulty : string; PfSearch : string; PfTagSlug : string }.

Section ports.
Context (W : Type).

(** [Create] and [Upsert] write keys and times back into the entity: they
    return it. *)
Record ProblemRepository := {
  PR_Create : Problem -> M W Problem;
  PR_GetByID : Z -> M W Problem;
  PR_GetBySlug : string -> M W Problem;
  PR_Update : Problem -> M W unit;
  PR_Delete : Z -> M W unit;
  PR_List : Z -> Z -> ProblemFilter -> bool -> M W (list Problem);
  PR_Count : ProblemFilter -> bool -> M W Z;
  PR_ListByAuthor : string -> Z -> Z -> ProblemFilter -> M W (list Problem);
  PR_CountByAuthor : string -> ProblemFilter -> M W Z;
  PR_ListForFormatBackfill : M W (list Problem);
  PR_UpdateFormatsForBackfill : Z -> string -> string -> string -> M W bool;
}.

Record TagRepository := {
  TR_Create : Tag -> M W Tag;
  TR_GetByID : Z -> M W Tag;
  TR_GetBySlug : string -> M W Tag;
  TR_Update : Tag -> M W unit;
  TR_Deactivate : Z -> M W unit;
  TR_ListActive : M W (list Tag);
  TR_ListAll : M W (list Tag);
  TR_ListByIDs : list Z -> bool -> M W (list Tag);
  TR_CountPublished : Z -> M W Z;
}.

Record TestCaseRepository := {
  TC_Upsert : TestCase -> M W TestCase;
  TC_GetByProblemID : Z -> M W TestCase;
  TC_DeleteByProblemID : Z -> M W unit;
}.

Record TestCaseStorage := {
  TS_Upload : string -> string -> M W unit;
  TS_Delete : string -> M W unit;
  TS_PresignedURL : string -> Z -> M W string;
}.

Record SubmissionProblemCache := {
  CC_Get : Z -> M W (option SubmissionProblem);  (* [None]: not found *)
  CC_Set : SubmissionProblem -> Z -> M W unit;
  CC_Delete : Z -> M W unit;
}.
End ports.

Arguments PR_Create {W}. Arguments PR_GetByID {W}. Arguments PR_GetBySlug {W}. Arguments PR_Update {W}.
Arguments PR_Delete {W}. Arguments PR_List {W}. Arguments PR_Count {W}. Arguments PR_ListByAuthor {W}.
Arguments PR_CountByAuthor {W}. Arguments PR_ListForFormatBackfill {W}. Arguments PR_UpdateFormatsForBackfill {W}.
Arguments TR_Create {W}. Arguments TR_GetByID {W}. Arguments TR_GetBySlug {W}. Arguments TR_Update {W}.
Arguments TR_Deactivate {W}. Arguments TR_ListActive {W}. Arguments TR_ListAll {W}. Arguments TR_ListByIDs {W}.
Arguments TR_CountPublished {W}. Arguments TC_Upsert {W}. Arguments TC_GetByProblemID {W}.
Arguments TC_DeleteByProblemID {W}. Arguments TS_Upload {W}. Arguments TS_Delete {W}. Arguments TS_PresignedURL {W}.
Arguments CC_Get {W}. Arguments CC_Set {W}. Arguments CC_Delete {W}.

(** [defer]: run on every path out, its error is dropped. *)
Definition deferring {W A} (m : M W A) (d : M W unit) : M W A := fun w => let '(r, w1) := m w in (r, (d w1).2).

(** The lookups of the use cases: a missing row is reported as such, any other
    error is wrapped. *)
Definition found_or_internal (notFound : error) (e : error) : error :=
  if errors_Is e notFound then notFound else Wrap ErrInternalServer e.

Example float_1000 : float_of_Z 1000 = S754_finite false (1000 * 2 ^ 43)%positive (-43).
Proof. vm_compute. reflexivity. Qed.
