(* ===== verification/ProblemAdmin.v ===== *)
(** The use cases that create, change, publish, hide and delete problems
    (services/problem/internal/application/usecase/admin/problem), and those of
    the catalogue of tags (usecase/admin/tag and usecase/user/tag, and its
    seeding, services/problem/internal/seed/tags/seed.go). *)

From S2P Require Import Prelude GoString GoError GoMonad Patterns GoTime SubmissionDomain ProblemDomain.

Definition bad_request (text : string) : error := NewAppError CodeBadRequest text None.

(** ** Slugs *)

(** [nonSlugCharsPattern] *)
Definition slug_char (c : ascii) : bool := within 97 122 c || within 48 57 c.
Definition nonSlugCharsPattern : regex := RPlus (RSet (fun c => negb (slug_char c))).

Definition dash : ascii := ascii_of_N 45.
Definition is_dash : ascii -> bool := is_byte 45.

(** [strings.Trim(s, cutset)] for a cutset of ASCII characters *)
Definition trim_set (p : ascii -> bool) (l : bytes) : bytes := trim_right_set p (drop_while p l).

(** The part of [slugify] and [normalizeTagSlug] before the default. *)
Definition slug_text (lower_rune : bytes -> bytes) (title : string) : bytes :=
  trim_set is_dash (ReplaceAll nonSlugCharsPattern (fun _ => [dash]) (chars (ToLower lower_rune (TrimSpace title)))).

Definition slug_or (fallback : string) (lower_rune : bytes -> bytes) (title : string) : string :=
  let slug := str (slug_text lower_rune title) in if bool_decide (slug = ""%string) then fallback else slug.

Definition slugify : (bytes -> bytes) -> string -> string := slug_or "problem".

Definition normalizeDifficulty (lower_rune : bytes -> bytes) (raw : string) : error + Difficulty :=
  let d := ToLower lower_rune (TrimSpace raw) in
  if bool_decide (d = Easy) then inr Easy
  else if bool_decide (d = Medium) then inr Medium
  else if bool_decide (d = Hard) then inr Hard
  else inl (bad_request "difficulty must be one of easy, medium, hard").

(** ** Tags of a problem (problem_tags.go) *)

Definition maxProblemTags : Z := 20.

(** The loop of [normalizeTagIDs]; [tagIDs] so far, in order. *)
Fixpoint normalize_loop (raw tagIDs : list Z) : error + list Z :=
  match raw with
  | [] => inr tagIDs
  | tagID :: rest =>
      if tagID =? 0 then inl (bad_request "tag_ids must contain positive integers")
      else if bool_decide (tagID ∈ tagIDs) then normalize_loop rest tagIDs
      else
        let tagIDs := tagIDs ++ [tagID] in
        if maxProblemTags <? Z.of_nat (length tagIDs)
        then inl (bad_request ("problem supports at most " +:+ Itoa maxProblemTags +:+ " tags"))
        else normalize_loop rest tagIDs
  end.
Definition normalizeTagIDs (raw : list Z) : error + list Z := normalize_loop raw [].

(** [byID[tagID]]: of several tags with one key the last wins. *)
Definition tag_by_id (tags : list Tag) (tagID : Z) : option Tag := last (filter (fun t => t.(TagID) = tagID) tags).

(** [fmt.Sprintf("%v", ids)] *)
Definition show_ids (ids : list Z) : string :=
  str (ascii_of_N 91 :: join_with (ascii_of_N 32) (map (fun i => chars (Itoa i)) ids) ++ [ascii_of_N 93]).

Section admin.
Context {W : Type} (now : M W Time) (offset : Time -> Z) (lower_rune : bytes -> bytes)
  (problems : ProblemRepository W) (tags : TagRepository W) (testcases : TestCaseRepository W)
  (cache : option (SubmissionProblemCache W)).

Definition lift {A} (r : error + A) : M W A := match r with inl e => fail e | inr a => ret a end.

Definition resolveProblemTags (rawTagIDs : list Z) : M W (list Tag) :=
  let* tagIDs := lift (normalizeTagIDs rawTagIDs) in
  match tagIDs with
  | [] => ret []
  | _ =>
      let* found := on_error (Wrap ErrInternalServer) (tags.(TR_ListByIDs) tagIDs true) in
      let missing := filter (fun i => tag_by_id found i = None) tagIDs in
      match missing with
      | [] => ret (omap (tag_by_id found) tagIDs)
      | _ => fail (bad_request ("tag_ids contain invalid or inactive ids: " +:+ show_ids (merge_sort Z.le missing)))
      end
  end.

Definition hasInactiveTags (l : list Tag) : bool := existsb (fun t => negb t.(TagIsActive)) l.

(** [generateUniqueSlug] from the given attempt on; [None] when [fuel] attempts
    have not found a free slug. *)
Fixpoint slug_loop (fuel : nat) (attempt : Z) (base : string) : M W (option string) :=
  match fuel with
  | O => ret None
  | Datatypes.S fuel =>
      let candidate := if 1 <? attempt then base +:+ "-" +:+ Itoa attempt else base in
      let* r := try (problems.(PR_GetBySlug) candidate) in
      match r with
      | inr _ => slug_loop fuel (attempt + 1) base
      | inl err => if errors_Is err ErrProblemNotFound then ret (Some candidate) else fail (Wrap ErrInternalServer err)
      end
  end.
Definition generateUniqueSlug (fuel : nat) (title : string) : M W (option string) := slug_loop fuel 1 (slugify lower_rune title).

(** ** Creating *)

Record CreateProblemRequest := mkCreateProblem {
  CpTitle : string; CpDescription : string; CpInputFormat : string; CpOutputFormat : string; CpDifficulty : string;
  CpTagIDs : list Z; CpExamples : list ProblemExampleDTO; CpConstraints : list string; CpHints : list string;
  CpTimeLimit : float64; CpMemoryLimit : Z }.

Definition defaultTimeLimit : float64 := float_of_Z 1000.
Definition defaultMemoryLimit : Z := 256.

(** [strings.TrimSpace] of a text that must not be blank. *)
Definition required (field text : string) : M W string :=
  let t := TrimSpace text in if bool_decide (t = ""%string) then fail (bad_request (field +:+ " is required")) else ret t.

(** [None]: the loop of [generateUniqueSlug] is still running. *)
Definition createProblem (fuel : nat) (claims : Claims) (req : CreateProblemRequest) : M W (option ProblemResponse) :=
  if negb (AtLeast claims.(ClaimRole) RoleContributor) then fail ErrForbidden else
  let* title := required "title" req.(CpTitle) in
  let* description := required "description" req.(CpDescription) in
  let* inputFormat := required "input_format" req.(CpInputFormat) in
  let* outputFormat := required "output_format" req.(CpOutputFormat) in
  let* difficulty := lift (normalizeDifficulty lower_rune req.(CpDifficulty)) in
  let* resolved := resolveProblemTags req.(CpTagIDs) in
  let* slug := generateUniqueSlug fuel title in
  match slug with
  | None => ret None
  | Some slug =>
      let timeLimit := if float_le0 req.(CpTimeLimit) then defaultTimeLimit else req.(CpTimeLimit) in
      let memoryLimit := if req.(CpMemoryLimit) <=? 0 then defaultMemoryLimit else req.(CpMemoryLimit) in
      let* t := now in
      let* t' := now in
      let problem := NewProblem title slug description inputFormat outputFormat difficulty resolved
        (MapExampleDTOsToEntity req.(CpExamples)) req.(CpConstraints) req.(CpHints) timeLimit memoryLimit
        claims.(UserID) t t' in
      let* stored := on_error (found_or_internal ErrProblemAlreadyExists) (problems.(PR_Create) problem) in
      ret (Some (MapProblemToResponse offset stored true))
  end.

(** ** Reading and deleting *)

Definition get_problem (id : Z) : M W Problem :=
  on_error (found_or_internal ErrProblemNotFound) (problems.(PR_GetByID) id).

Definition invalidateSubmissionProblemCache (problemID : Z) : M W unit :=
  match cache with
  | Some c => let* _ := try (c.(CC_Delete) problemID) in ret tt
  | None => ret tt
  end.

Definition getAdminProblem (claims : Claims) (id : Z) : M W AdminProblemDetailResponse :=
  if negb (AtLeast claims.(ClaimRole) RoleContributor) then fail ErrForbidden else
  let* problem := get_problem id in
  if negb (AtLeast claims.(ClaimRole) RoleModerator) && negb (bool_decide (problem.(PbAuthorID) = claims.(UserID)))
  then fail ErrForbidden
  else
    let* tc := try (testcases.(TC_GetByProblemID) problem.(PbID)) in
    match tc with
    | inr tc => ret (MapProblemToAdminDetailResponse offset problem (Some tc))
    | inl err => if errors_Is err ErrTestCaseNotFound then ret (MapProblemToAdminDetailResponse offset problem None)
                 else fail (Wrap ErrInternalServer err)
    end.

(** The check of the use cases that change a problem or its testcases. *)
Definition may_edit (claims : Claims) (p : Problem) : bool :=
  AtLeast claims.(ClaimRole) RoleModerator
  || (bool_decide (p.(PbAuthorID) = claims.(UserID)) && p.(PbIsHidden)).

Definition deleteProblem (claims : Claims) (id : Z) : M W unit :=
  if negb (AtLeast claims.(ClaimRole) RoleContributor) then fail ErrForbidden else
  let* problem := get_problem id in
  if negb (may_edit claims problem) then fail ErrForbidden
  else
    on_error (Wrap ErrInternalServer) (problems.(PR_Delete) id) ;;
    invalidateSubmissionProblemCache id.

(** ** Publishing and hiding *)

Definition store_problem (problem : Problem) : M W ProblemResponse :=
  on_error (Wrap ErrInternalServer) (problems.(PR_Update) problem) ;;
  invalidateSubmissionProblemCache problem.(PbID) ;;
  ret (MapProblemToResponse offset problem true).

Definition publishProblem (claims : Claims) (id : Z) : M W ProblemResponse :=
  if negb (AtLeast claims.(ClaimRole) RoleModerator) then fail ErrForbidden else
  let* problem := get_problem id in
  if hasInactiveTags problem.(PbTags) then fail ErrProblemContainsInactiveTags
  else let* t := now in store_problem (Publish t problem).

Definition hideProblem (claims : Claims) (id : Z) : M W ProblemResponse :=
  if negb (AtLeast claims.(ClaimRole) RoleModerator) then fail ErrForbidden else
  let* problem := get_problem id in
  let* t := now in store_problem (Hidden t problem).

(** ** Updating *)

Record UpdateProblemRequest := mkUpdateProblem {
  UpTitle : option string; UpNewSlug : option string; UpDescription : option string; UpInputFormat : option string;
  UpOutputFormat : option string; UpDifficulty : option string; UpTagIDs : option (list Z);
  UpExamples : option (list ProblemExampleDTO); UpConstraints : option (list string); UpHints : option (list string);
  UpTimeLimit : option float64; UpMemoryLimit : option Z }.

(** A field of the request: kept when it is not given. *)
Definition given_or {A B} (o : option A) (old : B) (f : A -> M W B) : M W B :=
  match o with Some a => f a | None => ret old end.

Definition new_slug (problem : Problem) (newSlug : string) : M W string :=
  let slug := slugify lower_rune newSlug in
  let* r := try (problems.(PR_GetBySlug) slug) in
  match r with
  | inr existing => if negb (existing.(PbID) =? problem.(PbID)) then fail ErrProblemAlreadyExists else ret slug
  | inl err => if negb (errors_Is err ErrProblemNotFound) then fail (Wrap ErrInternalServer err) else ret slug
  end.

(** The problem with the fields of the request. *)
Definition edited (problem : Problem) (req : UpdateProblemRequest) : M W Problem :=
  let* title := given_or req.(UpTitle) problem.(PbTitle) (required "title") in
  let* slug := given_or req.(UpNewSlug) problem.(PbSlug) (new_slug problem) in
  let* description := given_or req.(UpDescription) problem.(PbDescription) (required "description") in
  let* inputFormat := given_or req.(UpInputFormat) problem.(PbInputFormat) (required "input_format") in
  let* outputFormat := given_or req.(UpOutputFormat) problem.(PbOutputFormat) (required "output_format") in
  let* difficulty := given_or req.(UpDifficulty) problem.(PbDifficulty) (fun d => lift (normalizeDifficulty lower_rune d)) in
  let* tags := given_or req.(UpTagIDs) problem.(PbTags) resolveProblemTags in
  ret (mkProblem problem.(PbID) title slug description inputFormat outputFormat difficulty tags
    (match req.(UpExamples) with Some l => MapExampleDTOsToEntity l | None => problem.(PbExamples) end)
    (default problem.(PbConstraints) req.(UpConstraints)) (default problem.(PbHints) req.(UpHints))
    (default problem.(PbTimeLimit) req.(UpTimeLimit)) (default problem.(PbMemoryLimit) req.(UpMemoryLimit))
    problem.(PbAuthorID) problem.(PbIsHidden) problem.(PbCreatedAt) problem.(PbUpdatedAt) problem.(PbDeletedAt)).

Definition updateProblem (claims : Claims) (id : Z) (req : UpdateProblemRequest) : M W ProblemResponse :=
  if negb (AtLeast claims.(ClaimRole) RoleContributor) then fail ErrForbidden else
  let* problem := get_problem id in
  if negb (may_edit claims problem) then fail ErrForbidden
  else
    let* problem := edited problem req in
    on_error (found_or_internal ErrProblemAlreadyExists) (problems.(PR_Update) problem) ;;
    invalidateSubmissionProblemCache problem.(PbID) ;;
    ret (MapProblemToResponse offset problem true).

(** ** Listings *)

Record ListProblemsRequest := mkListRequest {
  LrPage : Z; LrLimit : Z; LrDifficulty : string; LrSearch : string; LrTagSlug : string }.

Definition list_page (req : ListProblemsRequest) : Z := if req.(LrPage) <=? 0 then 1 else req.(LrPage).
Definition list_limit (req : ListProblemsRequest) : Z :=
  let limit := if req.(LrLimit) <=? 0 then 20 else req.(LrLimit) in if 100 <? limit then 100 else limit.
Definition list_offset (req : ListProblemsRequest) : Z := wrap64 (wrap64 (list_page req - 1) * list_limit req).

Definition isValidDifficulty (d : string) : bool :=
  bool_decide (d = Easy) || bool_decide (d = Medium) || bool_decide (d = Hard).

Definition list_filter (req : ListProblemsRequest) : ProblemFilter :=
  mkProblemFilter (ToLower lower_rune (TrimSpace req.(LrDifficulty))) (TrimSpace req.(LrSearch))
    (ToLower lower_rune (TrimSpace req.(LrTagSlug))).

(** The common part of the listings; [invalid] is the error for a difficulty. *)
Definition list_with (req : ListProblemsRequest) (invalid : error) (includePrivate : bool)
    (List : Z -> Z -> ProblemFilter -> M W (list Problem)) (Count : ProblemFilter -> M W Z) : M W ListProblemsResponse :=
  let f := list_filter req in
  if negb (bool_decide (f.(PfDifficulty) = ""%string)) && negb (isValidDifficulty f.(PfDifficulty)) then fail invalid
  else
    let* found := on_error (Wrap ErrInternalServer) (List (list_offset req) (list_limit req) f) in
    let* total := on_error (Wrap ErrInternalServer) (Count f) in
    ret (mkListProblems (map (fun p => MapProblemToResponse offset p includePrivate) found) total (list_page req) (list_limit req)).

Definition adminListProblems (claims : Claims) (req : ListProblemsRequest) : M W ListProblemsResponse :=
  if negb (AtLeast claims.(ClaimRole) RoleModerator) then fail ErrForbidden else
  list_with req (bad_request "difficulty must be one of easy, medium, hard") true
    (fun o n f => problems.(PR_List) o n f true) (fun f => problems.(PR_Count) f true).

(** usecase/user/problem *)
Definition listProblems (req : ListProblemsRequest) : M W ListProblemsResponse :=
  list_with req ErrInvalidDifficulty false
    (fun o n f => problems.(PR_List) o n f false) (fun f => problems.(PR_Count) f false).

Definition listMyProblems (claims : Claims) (req : ListProblemsRequest) : M W ListProblemsResponse :=
  if negb (AtLeast claims.(ClaimRole) RoleContributor) then fail ErrForbidden else
  list_with req ErrInvalidDifficulty true
    (fun o n f => problems.(PR_ListByAuthor) claims.(UserID) o n f) (fun f => problems.(PR_CountByAuthor) claims.(UserID) f).

Definition getUserProblem (slug : string) : M W ProblemResponse :=
  let slug := TrimSpace slug in
  if bool_decide (slug = ""%string) then fail ErrInvalidProblemSlug
  else
    let* problem := on_error (found_or_internal ErrProblemNotFound) (problems.(PR_GetBySlug) slug) in
    if problem.(PbIsHidden) then fail ErrProblemNotFound else ret (MapProblemToResponse offset problem false).
End admin.

(** The tags of the problem service: the use cases of their administrators and
    the public catalogue (services/problem/internal/application/usecase/admin/tag
    and usecase/user/tag), and the seeding of the catalogue
    (services/problem/internal/seed/tags/seed.go). *)

Section tags.
Context {W : Type} (now : M W Time) (offset : Time -> Z) (lower_rune : bytes -> bytes) (tags : TagRepository W).

Definition normalizeTagName (value : string) : string := TrimSpace value.
Definition normalizeTagDescription (value : string) : string := TrimSpace value.
Definition normalizeTagSlug : string -> string := slug_or "tag" lower_rune.

Definition ensureTagCanBeDeactivated (tag : Tag) : M W unit :=
  if negb tag.(TagIsActive) then ret tt
  else
    let* count := on_error (Wrap ErrInternalServer) (tags.(TR_CountPublished) tag.(TagID)) in
    if 0 <? count then fail ErrTagUsedByPublishedProblem else ret tt.

Record CreateTagRequest := mkCreateTag {
  CtName : string; CtSlug : string; CtDescription : string; CtIsActive : option bool }.

Definition createTag (claims : Claims) (req : CreateTagRequest) : M W AdminTagResponse :=
  if negb (AtLeast claims.(ClaimRole) RoleModerator) then fail ErrForbidden else
  let name := normalizeTagName req.(CtName) in
  if bool_decide (name = ""%string) then fail (bad_request "name is required")
  else
    let slugSource := if bool_decide (req.(CtSlug) = ""%string) then name else req.(CtSlug) in
    let* t := now in
    let* t' := now in
    let tag := NewTag name (normalizeTagSlug slugSource) (normalizeTagDescription req.(CtDescription))
      (default true req.(CtIsActive)) t t' in
    let* stored := on_error (found_or_internal ErrTagAlreadyExists) (tags.(TR_Create) tag) in
    ret (MapTagToAdminResponse offset stored).

Definition get_tag (id : Z) : M W Tag := on_error (found_or_internal ErrTagNotFound) (tags.(TR_GetByID) id).

Record UpdateTagRequest := mkUpdateTag {
  UtName : option string; UtSlug : option string; UtDescription : option string; UtIsActive : option bool }.

Definition new_tag_name (raw : string) : M W string :=
  let name := normalizeTagName raw in
  if bool_decide (name = ""%string) then fail (bad_request "name is required") else ret name.

Definition new_activity (tag : Tag) (isActive : bool) : M W bool :=
  let* _ := (if tag.(TagIsActive) && negb isActive then ensureTagCanBeDeactivated tag else ret tt) in
  ret isActive.

(** [ensureTagCanBeDeactivated] is called with the tag as changed so far: only
    its key and its old activity are read. *)
Definition edited_tag (tag : Tag) (req : UpdateTagRequest) : M W Tag :=
  let* name := given_or req.(UtName) tag.(TagName) new_tag_name in
  let slug := match req.(UtSlug) with Some s => normalizeTagSlug s | None => tag.(TagSlug) end in
  let description := match req.(UtDescription) with Some s => normalizeTagDescription s | None => tag.(TagDescription) end in
  let* isActive := given_or req.(UtIsActive) tag.(TagIsActive) (new_activity tag) in
  ret (mkTag tag.(TagID) name slug description isActive tag.(TagCreatedAt) tag.(TagUpdatedAt)).

Definition updateTag (claims : Claims) (id : Z) (req : UpdateTagRequest) : M W AdminTagResponse :=
  if negb (AtLeast claims.(ClaimRole) RoleModerator) then fail ErrForbidden else
  let* tag := get_tag id in
  let* tag := edited_tag tag req in
  on_error (found_or_internal ErrTagAlreadyExists) (tags.(TR_Update) tag) ;;
  let* updated := on_error (Wrap ErrInternalServer) (tags.(TR_GetByID) tag.(TagID)) in
  ret (MapTagToAdminResponse offset updated).

Definition deleteTag (claims : Claims) (id : Z) : M W unit :=
  if negb (AtLeast claims.(ClaimRole) RoleModerator) then fail ErrForbidden else
  let* tag := get_tag id in
  ensureTagCanBeDeactivated tag ;;
  on_error (Wrap ErrInternalServer) (tags.(TR_Deactivate) tag.(TagID)).

Definition listAllTags (claims : Claims) : M W (list AdminTagResponse) :=
  if negb (AtLeast claims.(ClaimRole) RoleModerator) then fail ErrForbidden else
  let* l := on_error (Wrap ErrInternalServer) tags.(TR_ListAll) in
  ret (map (MapTagToAdminResponse offset) l).

Definition listActiveTags : M W (list TagResponse) :=
  let* l := on_error (Wrap ErrInternalServer) tags.(TR_ListActive) in
  ret (map MapTagToResponse l).

(** ** Seeding *)

Record TagDefinition := mkDefinition { DfName : string; DfSlug : string; DfDescription : string; DfActive : bool }.

Record SeedResult := mkSeed { Created : Z; AlreadyExisted : Z; Failed : Z }.
Definition SeedTotal (r : SeedResult) : Z := r.(Created) + r.(AlreadyExisted) + r.(Failed).
Definition created1 (r : SeedResult) := mkSeed (r.(Created) + 1) r.(AlreadyExisted) r.(Failed).
Definition existed1 (r : SeedResult) := mkSeed r.(Created) (r.(AlreadyExisted) + 1) r.(Failed).
Definition failed1 (r : SeedResult) := mkSeed r.(Created) r.(AlreadyExisted) (r.(Failed) + 1).

(** One definition; the lines written to the output are left out. *)
Definition seed_one (d : TagDefinition) (result : SeedResult) : M W SeedResult :=
  let* existing := try (tags.(TR_GetBySlug) d.(DfSlug)) in
  match existing with
  | inr _ => ret (existed1 result)
  | inl err =>
      if negb (errors_Is err ErrTagNotFound) then ret (failed1 result)
      else
        let* t := now in
        let* t' := now in
        let* r := try (tags.(TR_Create) (NewTag d.(DfName) d.(DfSlug) d.(DfDescription) d.(DfActive) t t')) in
        match r with
        | inr _ => ret (created1 result)
        | inl err => ret (if errors_Is err ErrTagAlreadyExists then existed1 result else failed1 result)
        end
  end.

Fixpoint seed_loop (definitions : list TagDefinition) (result : SeedResult) : M W SeedResult :=
  match definitions with
  | [] => ret result
  | d :: rest => let* result := seed_one d result in seed_loop rest result
  end.

(** The result is returned together with the error. *)
Definition Seed (definitions : list TagDefinition) : M W (SeedResult * option error) :=
  let* result := seed_loop definitions (mkSeed 0 0 0) in
  ret (result, if 0 <? result.(Failed)
               then Some (EText ("failed to seed " +:+ Itoa result.(Failed) +:+ " tag(s)")) else None).
End tags.
