(* ===== verification/ProblemTestcases.v ===== *)
(** The testcases of problems: uploading an archive, its validation, reading
    and deleting (services/problem/internal/application/usecase/admin/testcase),
    and the metadata handed to the judge (usecase/worker/testcase and
    adapter/inbound/grpc/handler/worker/testcase). *)

From S2P Require Import Prelude GoString GoError GoMonad Patterns GoTime SubmissionDomain ProblemDomain ProblemAdmin.

Definition maxFileZipSize : Z := 50 * 2 ^ 20.
Definition maxExtractedSize : Z := 100 * 2 ^ 20.
Definition maxFileCount : Z := 2000.

(** ** The archive *)

(** What is read of an entry of the archive. *)
Record zip_file := mkZipFile { ZfName : string; ZfIsDir : bool; ZfUncompressedSize64 : Z }.

(** [testcaseFilePattern]: [^(\d+)\.(in|out)$] *)
Definition testcaseFilePattern : regex :=
  RSeqs [RBeg; RGroup 1 (RPlus RDigit); RLit "."; RGroup 2 (RAlt (RLit "in") (RLit "out")); REnd].

(** [strconv.Atoi] of the digits. *)
Definition test_number (digits : bytes) : option Z :=
  match ParseInt (str digits) with Some n => if n <=? 0 then None else Some n | None => None end.

Definition uint64 (z : Z) : Z := z mod 2 ^ 64.

(** The loop over the entries with the total size and the numbers seen.  The
    names are quoted in the texts of the errors, here they stand as they are. *)
Fixpoint scan_files (files : list zip_file) (total : Z) (inSet outSet : gset Z) : error + (gset Z * gset Z) :=
  match files with
  | [] => inr (inSet, outSet)
  | f :: rest =>
      if f.(ZfIsDir) then inl (EText ("unexpected directory in zip: " +:+ f.(ZfName)))
      else if existsb (is_byte 47) (chars f.(ZfName)) || existsb (is_byte 92) (chars f.(ZfName))
      then inl (EText ("files must be at root of zip, found: " +:+ f.(ZfName)))
      else
        let total := uint64 (total + f.(ZfUncompressedSize64)) in
        if maxExtractedSize <? total
        then inl (EText ("total uncompressed size exceeds limit: " +:+ Itoa maxExtractedSize +:+ " bytes"))
        else
          match FindSubmatch testcaseFilePattern (chars f.(ZfName)) with
          | None => inl (EText ("invalid file name " +:+ f.(ZfName) +:+ ": expected {N}.in or {N}.out"))
          | Some m =>
              match test_number (capture m 1) with
              | None => inl (EText ("invalid test number in " +:+ f.(ZfName) +:+ ": must be a positive integer"))
              | Some num =>
                  if bool_decide (capture m 2 = chars "in") then
                    if bool_decide (num ∈ inSet) then inl (EText ("duplicate input file: " +:+ f.(ZfName)))
                    else scan_files rest total ({[num]} ∪ inSet) outSet
                  else
                    if bool_decide (num ∈ outSet) then inl (EText ("duplicate output file: " +:+ f.(ZfName)))
                    else scan_files rest total inSet ({[num]} ∪ outSet)
              end
          end
  end.

(** The numbers in order have to be 1, 2, ... *)
Fixpoint consecutive (expected : Z) (nums : list Z) : option error :=
  match nums with
  | [] => None
  | n :: rest =>
      if n =? expected then consecutive (expected + 1) rest
      else Some (EText ("testcase numbers must be consecutive from 1: expected " +:+ Itoa expected +:+ ", got " +:+ Itoa n))
  end.

Definition sorted_numbers (s : gset Z) : list Z := merge_sort Z.le (elements s).

(** [validateTestCaseZip] on the entries of the archive. *)
Definition validate_files (files : list zip_file) : error + Z :=
  if (length files =? 0)%nat then inl (EText "zip file is empty")
  else if maxFileCount <? Z.of_nat (length files)
  then inl (EText ("too many files in zip: " +:+ Itoa (Z.of_nat (length files)) +:+ ", max " +:+ Itoa maxFileCount))
  else
    match scan_files files 0 ∅ ∅ with
    | inl e => inl e
    | inr (inSet, outSet) =>
        let testCount := Z.of_nat (size inSet) in
        if testCount =? 0 then inl (EText "no testcase pairs found")
        else if negb (testCount =? Z.of_nat (size outSet))
        then inl (EText ("mismatched in/out count: " +:+ Itoa testCount +:+ " .in files vs "
                         +:+ Itoa (Z.of_nat (size outSet)) +:+ " .out files"))
        else
          match elements (inSet ∖ outSet) with
          | num :: _ => inl (EText ("missing output file for test #" +:+ Itoa num))
          | [] => match consecutive 1 (sorted_numbers inSet) with Some e => inl e | None => inr testCount end
          end
    end.

(** ** The use cases *)

(** The file of the request and the temporary file it is copied to: [UfOpen],
    [UfCreateTemp] and [UfCopy] (the copy with the closing of the file) report
    the errors of these calls; the path of the temporary file is a value. *)
Record UploadFile (W : Type) := mkUpload {
  UfSize : Z; UfOpen : M W unit; UfClose : M W unit; UfCreateTemp : M W string; UfCopy : string -> M W unit }.
Arguments UfSize {W}. Arguments UfOpen {W}. Arguments UfClose {W}. Arguments UfCreateTemp {W}. Arguments UfCopy {W}.

Definition object_key (problemID version : Z) : string :=
  "problems/" +:+ Itoa problemID +:+ "/testcases/v" +:+ Itoa version +:+ ".zip".

Section testcases.
Context {W : Type} (now : M W Time) (offset : Time -> Z) (problems : ProblemRepository W)
  (testcases : TestCaseRepository W) (storage : TestCaseStorage W)
  (OpenReader : string -> M W (list zip_file)) (Remove : string -> M W unit).

Definition validateTestCaseZip (path : string) : M W Z :=
  let* files := on_error (EWrap "invalid zip file") (OpenReader path) in
  lift (validate_files files).

(** From the validated archive at [tmpPath] on. *)
Definition store_archive (problem : Problem) (tmpPath : string) (testCount : Z) : M W TestCaseMetadataResponse :=
  let* old := try (testcases.(TC_GetByProblemID) problem.(PbID)) in
  let* previous := match old with
                   | inr tc => ret (wrap64 (tc.(TsVersion) + 1), tc.(TsZipObjectKey))
                   | inl err => if errors_Is err ErrTestCaseNotFound then ret (1, ""%string)
                                else fail (Wrap ErrInternalServer err)
                   end in
  let '(version, oldObjectKey) := previous in
  let objectKey := object_key problem.(PbID) version in
  on_error (Wrap ErrInternalServer) (storage.(TS_Upload) objectKey tmpPath) ;;
  let* t := now in
  let* stored := try (testcases.(TC_Upsert) (NewTestCase problem.(PbID) objectKey testCount version t)) in
  match stored with
  | inl err => let* _ := try (storage.(TS_Delete) objectKey) in fail (Wrap ErrInternalServer err)
  | inr tc =>
      let* _ := (if bool_decide (oldObjectKey = ""%string) then ret tt
                 else let* _ := try (storage.(TS_Delete) oldObjectKey) in ret tt) in
      ret (MapTestCaseToMetadataResponse offset tc)
  end.

Definition uploadTestCase (claims : Claims) (id : Z) (file : option (UploadFile W)) : M W TestCaseMetadataResponse :=
  if negb (AtLeast claims.(ClaimRole) RoleContributor) then fail ErrForbidden else
  let* problem := get_problem problems id in
  if negb (may_edit claims problem) then fail ErrForbidden
  else
    match file with
    | None => fail (Wrap ErrInvalidTestCase (EText "testcase file is required"))
    | Some file =>
        if maxFileZipSize <? file.(UfSize)
        then fail (Wrap ErrInvalidTestCase (EText ("testcase file size exceeds the limit of " +:+ Itoa maxFileZipSize +:+ " bytes")))
        else
          on_error (Wrap ErrInternalServer) file.(UfOpen) ;;
          deferring
            (let* tmpPath := on_error (Wrap ErrInternalServer) file.(UfCreateTemp) in
             deferring
               (on_error (Wrap ErrInternalServer) (file.(UfCopy) tmpPath) ;;
                let* testCount := on_error (Wrap ErrInvalidTestCase) (validateTestCaseZip tmpPath) in
                store_archive problem tmpPath testCount)
               (Remove tmpPath))
            file.(UfClose)
    end.

Definition getTestCase (claims : Claims) (id : Z) : M W TestCaseMetadataResponse :=
  if negb (AtLeast claims.(ClaimRole) RoleContributor) then fail ErrForbidden else
  let* problem := get_problem problems id in
  if negb (AtLeast claims.(ClaimRole) RoleModerator) && negb (bool_decide (problem.(PbAuthorID) = claims.(UserID)))
  then fail ErrForbidden
  else
    let* tc := on_error (found_or_internal ErrTestCaseNotFound) (testcases.(TC_GetByProblemID) problem.(PbID)) in
    ret (MapTestCaseToMetadataResponse offset tc).

(** The check of [deleteTestCase] is written for contributors only. *)
Definition deleteTestCase (claims : Claims) (id : Z) : M W unit :=
  if negb (AtLeast claims.(ClaimRole) RoleContributor) then fail ErrForbidden else
  let* problem := get_problem problems id in
  if bool_decide (claims.(ClaimRole) = RoleContributor)
     && negb (bool_decide (problem.(PbAuthorID) = claims.(UserID)) && problem.(PbIsHidden))
  then fail ErrForbidden
  else
    let* tc := on_error (found_or_internal ErrTestCaseNotFound) (testcases.(TC_GetByProblemID) problem.(PbID)) in
    on_error (Wrap ErrInternalServer) (storage.(TS_Delete) tc.(TsZipObjectKey)) ;;
    on_error (Wrap ErrInternalServer) (testcases.(TC_DeleteByProblemID) problem.(PbID)).

(** ** For the judge *)

Definition presignedURLexpiry : Z := 15 * 60 * second_ns.

Definition workerGetTestCase (problemID : Z) : M W (Z * Z * string) :=
  let* tc := testcases.(TC_GetByProblemID) problemID in
  let* downloadURL := storage.(TS_PresignedURL) tc.(TsZipObjectKey) presignedURLexpiry in
  ret (tc.(TsTestCount), tc.(TsVersion), downloadURL).

(** [int32(x)] *)
Definition int32 (z : Z) : Z := (z + 2 ^ 31) mod 2 ^ 32 - 2 ^ 31.

(** [GetTestCaseHandler.Handle]; the request is not nil. *)
Definition handleGetTestCase (problemID : Z) : M W (Z * Z * string) :=
  if problemID <=? 0 then fail (EStatus code_InvalidArgument "problem_id must be greater than zero")
  else
    let* r := on_error (fun err => if errors_Is err ErrTestCaseNotFound then EStatus code_NotFound "test case not found"
                                   else EStatus code_Internal "failed to get test case") (workerGetTestCase problemID) in
    ret (let '(count, version, url) := r in (int32 count, int32 version, url)).
End testcases.

Definition file (name : string) (size : Z) : zip_file := mkZipFile name false size.
Example validate_ok : validate_files [file "2.out" 4; file "1.in" 3; file "02.in" 3; file "1.out" 9] = inr 2.
Proof. vm_compute. reflexivity. Qed.
Example validate_gap : validate_files [file "1.in" 4; file "1.out" 3; file "3.in" 3; file "3.out" 9]
  = inl (EText "testcase numbers must be consecutive from 1: expected 2, got 3").
Proof. vm_compute. reflexivity. Qed.
(** An entry that announces 2^64 - 1 bytes makes the total smaller. *)
Example validate_wraps : validate_files [file "1.in" 1; file "1.out" (2 ^ 64 - 1)] = inr 1.
Proof. vm_compute. reflexivity. Qed.
