(* ===== verification/Redis.v ===== *)
(** Redis as the services use it through go-redis: a key space with expiry
    times, the commands and the optimistic transactions.  The server and the
    client library are a parameter; [RedisLaws] and [ClientLaws] are their
    documented behaviour.  Expired entries stay in [raw] and are invisible to
    every command, so time alone changes the clock only. *)

From S2P Require Import Prelude GoString GoError GoMonad.

(** [redis.Nil] and [redis.TxFailedErr] *)
Definition redis_Nil : error := ESentinel "redis: nil".
Definition redis_TxFailedErr : error := ESentinel "redis: transaction failed".

(** ** The server *)

(** The value and the time in milliseconds from which on it is gone. *)
Definition entry : Type := string * option Z.

Class Redis (S : Type) := {
  clock : S -> Z;
  raw : S -> gmap string entry;
  GET : string -> S -> option string;
  PTTL : string -> S -> Z;
  SET : string -> string -> option Z -> S -> S;   (* the option is PX *)
  DEL : string -> S -> S;
  INCR : string -> S -> option Z * S;             (* [None] is the error on a value that is no integer *)
  PEXPIRE : string -> Z -> S -> S;
}.

Definition alive (now : Z) (e : entry) : bool :=
  match e.2 with None => true | Some t => now <? t end.

Definition find_entry {S : Type} `{Redis S} (k : string) (s : S) : option entry :=
  match raw s !! k with
  | Some e => if alive (clock s) e then Some e else None
  | None => None
  end.

Class RedisLaws (S : Type) `{Redis S} := {
  get_law : forall k s, GET k s = fst <$> find_entry k s;
  pttl_law : forall k s, PTTL k s = match find_entry k s with
    | None => -2 | Some (_, None) => -1 | Some (_, Some t) => t - clock s end;
  set_law : forall k v px s, clock (SET k v px s) = clock s
    /\ raw (SET k v px s) = <[k := (v, (fun d => clock s + d) <$> px)]> (raw s);
  del_law : forall k s, clock (DEL k s) = clock s /\ raw (DEL k s) = delete k (raw s);
  incr_law : forall k s, clock (INCR k s).2 = clock s
    /\ match find_entry k s with
       | None => (INCR k s).1 = Some 1 /\ raw (INCR k s).2 = <[k := ("1"%string, None)]> (raw s)
       | Some (v, t) =>
           match ParseInt v with
           | Some n => n < int64_max -> (INCR k s).1 = Some (n + 1)
               /\ raw (INCR k s).2 = <[k := (Itoa (n + 1), t)]> (raw s)
           | None => (INCR k s).1 = None /\ raw (INCR k s).2 = raw s
           end
       end;
  incr_frame : forall k k' s, k <> k' -> raw (INCR k s).2 !! k' = raw s !! k';
  pexpire_law : forall k d s, clock (PEXPIRE k d s) = clock s
    /\ raw (PEXPIRE k d s) = match find_entry k s with
       | None => raw s | Some (v, _) => <[k := (v, Some (clock s + d))]> (raw s) end;
}.

Definition EXISTS {S : Type} `{Redis S} (k : string) (s : S) : bool := bool_decide (is_Some (GET k s)).

(** ** The client *)

(** [Do f]: one command, one script or one MULTI/EXEC block, all of which run
    without interruption.  [Watch f]: the reads of [f] after WATCH and the
    block it queues, [inr (a, block)], or the error it returns. *)
Record client (S W : Type) := {
  Do : forall A, (S -> A * S) -> M W A;
  Watch : forall A, (S -> error + (A * (S -> S))) -> M W A;
}.
Arguments Do {S W} _ {A}. Arguments Watch {S W} _ {A}.

(** The server at the moment when a command arrives: some time may have passed. *)
Definition later {S : Type} `{Redis S} (s s' : S) : Prop := raw s' = raw s /\ clock s <= clock s'.

#[export] Instance later_preorder {S : Type} `{Redis S} : PreOrder later.
Proof.
  split.
  - intros s. split; [done|lia].
  - intros s1 s2 s3 [H1 H2] [H3 H4]. split; [congruence|lia].
Qed.

(** [server w] is the key space, nobody else uses the keys at the same time.
    [f] has run on [s] between the worlds [w] and [w']; time may have passed
    before and afterwards. *)
Definition ran {S : Type} `{Redis S} (before s after s' : S) : Prop :=
  later before s /\ raw after = raw s' /\ clock s <= clock after.

(** A call that reports an error may still have reached the server. *)
Class ClientLaws {S W : Type} `{Redis S} (c : client S W) (server : W -> S) := {
  do_law : forall A (f : S -> A * S) w r w', Do c f w = (r, w') ->
    match r with
    | inr a => exists s, ran (server w) s (server w') (f s).2 /\ a = (f s).1
    | inl _ => later (server w) (server w') \/ exists s, ran (server w) s (server w') (f s).2
    end;
  do_error : forall A (f : S -> A * S) w e w', Do c f w = (inl e, w') -> error_matches e redis_Nil = false;
  watch_law : forall A (f : S -> error + (A * (S -> S))) w r w', Watch c f w = (r, w') ->
    match r with
    | inr a => exists s block, f s = inr (a, block) /\ ran (server w) s (server w') (block s)
    | inl _ => later (server w) (server w')
        \/ exists s a block, f s = inr (a, block) /\ ran (server w) s (server w') (block s)
    end;
}.

(** The calls of go-redis. *)
Section calls.
Context {S W : Type} `{Redis S} (c : client S W).

Definition Get (k : string) : M W string :=
  let* v := Do c (fun s => (GET k s, s)) in
  match v with None => fail redis_Nil | Some v => ret v end.

(** The PX argument of a duration in nanoseconds; zero means no expiry. *)
Definition px (ttl : Z) : option Z := if 0 <? ttl then Some (Z.max 1 (ttl / 1000000)) else None.

Definition Set_ (k v : string) (ttl : Z) : M W unit := Do c (fun s => (tt, SET k v (px ttl) s)).

Definition SetNX (k v : string) (ttl : Z) : M W bool :=
  Do c (fun s => if EXISTS k s then (false, s) else (true, SET k v (px ttl) s)).

Definition Del (k : string) : M W unit := Do c (fun s => (tt, DEL k s)).
End calls.

