(* ===== verification/ProblemEligibility.v ===== *)
(** Which problem a user may submit to: the use case behind the gRPC method
    GetProblem, with and without its cache
    (services/problem/internal/application/usecase/problem/get_problem.go), the
    gRPC handler (adapter/inbound/grpc/handler/problem), and the cache entries in
    Redis (adapter/outbound/cache/submission_problem.go). *)

From S2P Require Import Prelude GoString GoError GoMonad GoTime JsonDecode SubmissionDomain ProblemDomain ProblemAdmin ProblemTestcases Redis.

Record GetProblemRequest := mkGetProblem { GpProblemID : Z; GpActorUserID : string; GpActorRole : Role }.
Record EligibleProblem := mkEligible {
  ElID : Z; ElTitle : string; ElSlug : string; ElTimeLimit : float64; ElMemoryLimit : Z }.

(** ** Access *)

Definition canAccessProblemState (isHidden : bool) (authorID actorUserID : string) (actorRole : Role) : bool :=
  if negb isHidden then true
  else if bool_decide (actorRole = RoleContributor) then bool_decide (authorID = actorUserID)
  else if bool_decide (actorRole = RoleModerator) || bool_decide (actorRole = RoleAdmin) then true
  else false.

Definition validateProblemActorRequest (req : GetProblemRequest) : option error :=
  if req.(GpProblemID) <=? 0 then Some ErrInvalidInput
  else if blank req.(GpActorUserID) || bool_decide (req.(GpActorRole) = ""%string) then Some ErrActorUnauthenticated
  else if Level req.(GpActorRole) =? 0 then Some ErrPermissionDenied
  else None.

Definition mapSubmissionProblemReadError (err : error) : error :=
  if is_context_error err then err
  else if errors_Is err ErrProblemNotFound then ErrProblemNotFound
  else Wrap ErrInternalServer err.

Definition eligible (m : SubmissionProblem) : EligibleProblem :=
  mkEligible m.(SpID) m.(SpTitle) m.(SpSlug) m.(SpTimeLimit) m.(SpMemoryLimit).

(** What the narrow read model keeps of a problem. *)
Definition projection (p : Problem) : SubmissionProblem :=
  mkSubmissionProblem p.(PbID) p.(PbTitle) p.(PbSlug) p.(PbTimeLimit) p.(PbMemoryLimit) p.(PbAuthorID) p.(PbIsHidden).

Section use_cases.
Context {W : Type}.

(** [getProblemUseCase.Execute]; [None] is the nil pointer. *)
Definition getProblem (GetByID : Z -> M W (option Problem)) (req : GetProblemRequest) : M W EligibleProblem :=
  match validateProblemActorRequest req with
  | Some e => fail e
  | None =>
      let* problem := on_error mapSubmissionProblemReadError (GetByID req.(GpProblemID)) in
      match problem with
      | None => fail ErrInternalServer
      | Some p =>
          if IsDeleted p || negb (canAccessProblemState p.(PbIsHidden) p.(PbAuthorID) (TrimSpace req.(GpActorUserID)) req.(GpActorRole))
          then fail ErrProblemNotFound
          else ret (eligible (projection p))
      end
  end.

Definition submissionProblemCacheTTL : Z := 5 * second_ns.

(** [ctx_Err] is [ctx.Err()]; [DoChan] is the load of [singleflight] with the
    wait for its result or the end of the context. *)
Context (GetSubmissionProblem : Z -> M W SubmissionProblem) (cache : SubmissionProblemCache W) (ctx_Err : M W (option error))
  (DoChan : string -> M W SubmissionProblem -> M W SubmissionProblem).

Definition submissionProblemSingleflightKey (problemID : Z) : string := Itoa problemID.

(** The function given to [DoChan]. *)
Definition load_problem (problemID : Z) : M W SubmissionProblem :=
  let* r := try (cache.(CC_Get) problemID) in
  match r with
  | inr (Some metadata) => ret metadata
  | _ =>
      let* metadata := GetSubmissionProblem problemID in
      let* _ := try (cache.(CC_Set) metadata submissionProblemCacheTTL) in
      ret metadata
  end.

Definition getSubmissionProblem (problemID : Z) : M W SubmissionProblem :=
  let load := DoChan (submissionProblemSingleflightKey problemID) (load_problem problemID) in
  let* r := try (cache.(CC_Get) problemID) in
  match r with
  | inr (Some metadata) => ret metadata
  | inr None => load
  | inl _ =>
      let* over := ctx_Err in
      match over with Some e => fail e | None => load end
  end.

Definition cachedGetProblem (req : GetProblemRequest) : M W EligibleProblem :=
  match validateProblemActorRequest req with
  | Some e => fail e
  | None =>
      let* m := on_error mapSubmissionProblemReadError (getSubmissionProblem req.(GpProblemID)) in
      if negb (canAccessProblemState m.(SpIsHidden) m.(SpAuthorID) (TrimSpace req.(GpActorUserID)) req.(GpActorRole))
      then fail ErrProblemNotFound
      else ret (eligible m)
  end.

(** ** The gRPC handler *)

Definition code_Canceled : Z := 1.

Definition getProblemStatus (err : error) : error :=
  if errors_Is err context_Canceled then EStatus code_Canceled "request canceled"
  else if errors_Is err context_DeadlineExceeded then EStatus code_DeadlineExceeded "request deadline exceeded"
  else if errors_Is err ErrInvalidInput then EStatus code_InvalidArgument "problem_id must be greater than zero"
  else if errors_Is err ErrActorUnauthenticated then EStatus code_Unauthenticated "actor identity and role are required"
  else if errors_Is err ErrPermissionDenied then EStatus code_PermissionDenied "unsupported actor role"
  else if errors_Is err ErrProblemNotFound then EStatus code_NotFound "problem not found"
  else EStatus code_Internal "failed to get problem".

(** [GetProblemHandler.Handle] over a use case. *)
Definition handleGetProblem (Execute : GetProblemRequest -> M W EligibleProblem) (req : GetProblemRequest) : M W EligibleProblem :=
  let* r := on_error getProblemStatus (Execute req) in
  ret (mkEligible r.(ElID) r.(ElTitle) r.(ElSlug) r.(ElTimeLimit) (int32 r.(ElMemoryLimit))).
End use_cases.

(** ** The cache entries

    [format_float] and [parse_float] are the text of a JSON number for a double
    ([None] for NaN and the infinities) and its reading. *)
Record FloatText := mkFloatText { format_float : float64 -> option bytes; parse_float : bytes -> option float64 }.

Definition submissionProblemKeyPrefix : string := "problem:submission:v1:".
Definition submissionProblemKey (problemID : Z) : string := submissionProblemKeyPrefix +:+ Itoa problemID.

Definition json_bool (b : bool) : bytes := chars (if b then "true" else "false").
Definition dec_bool (v : json) : option bool := match v with JBool b => Some b | _ => None end.

Section cache.
Context (ft : FloatText).

Definition dec_float (v : json) : option float64 := match v with JNumber lit => ft.(parse_float) lit | _ => None end.

(** [json.Marshal(submissionProblemCachePayload{...})] *)
Definition marshal_metadata (m : SubmissionProblem) : option string :=
  match ft.(format_float) m.(SpTimeLimit) with
  | Some limit =>
      Some (str (json_object
        [("id", Some (json_int m.(SpID))); ("title", Some (json_string m.(SpTitle))); ("slug", Some (json_string m.(SpSlug)));
         ("time_limit", Some limit); ("memory_limit", Some (json_int m.(SpMemoryLimit)));
         ("author_id", Some (json_string m.(SpAuthorID))); ("is_hidden", Some (json_bool m.(SpIsHidden)))]%string))
  | None => None
  end.

(** [submissionProblemCachePayload] *)
Record Payload := mkPayload {
  PyID : option Z; PyTitle : option string; PySlug : option string; PyTimeLimit : option float64;
  PyMemoryLimit : option Z; PyAuthorID : option string; PyIsHidden : option bool }.

Definition payload_of_members (l : list (bytes * json)) : option Payload :=
  i ← pointer dec_int (values_of "id" l);
  t ← pointer dec_string (values_of "title" l);
  s ← pointer dec_string (values_of "slug" l);
  f ← pointer dec_float (values_of "time_limit" l);
  m ← pointer dec_int (values_of "memory_limit" l);
  a ← pointer dec_string (values_of "author_id" l);
  h ← pointer dec_bool (values_of "is_hidden" l);
  Some (mkPayload i t s f m a h).

Definition decode_payload : string -> option Payload := unmarshal (mkPayload None None None None None None None) payload_of_members.

Definition decodeSubmissionProblemMetadata (problemID : Z) (encoded : string) : error + SubmissionProblem :=
  match decode_payload encoded with
  | None => inl (EWrap "decode submission problem cache entry" (EText "json"))
  | Some p =>
      match p.(PyID), p.(PyTitle), p.(PySlug), p.(PyTimeLimit), p.(PyMemoryLimit), p.(PyAuthorID), p.(PyIsHidden) with
      | Some i, Some t, Some s, Some f, Some m, Some a, Some h =>
          if negb (i =? problemID) || blank t || blank s || float_le0 f || (m <=? 0) || blank a
          then inl (EText "invalid submission problem cache entry")
          else inr (mkSubmissionProblem i t s f m a h)
      | _, _, _, _, _, _, _ => inl (EText "invalid submission problem cache entry")
      end
  end.

Context {S W : Type} `{Redis S} (client : option (client S W)).

Definition unavailable : error := EText "submission problem cache client is unavailable".

Definition cache_Get (problemID : Z) : M W (option SubmissionProblem) :=
  match client with
  | None => fail unavailable
  | Some c =>
      let* r := try (Redis.Get c (submissionProblemKey problemID)) in
      match r with
      | inl err => if errors_Is err redis_Nil then ret None else fail err
      | inr encoded =>
          match decodeSubmissionProblemMetadata problemID encoded with
          | inl err => fail err
          | inr m => ret (Some m)
          end
      end
  end.

Definition cache_Set (m : SubmissionProblem) (ttl : Z) : M W unit :=
  match client with
  | None => fail unavailable
  | Some c =>
      match marshal_metadata m with
      | None => fail (EWrap "encode submission problem cache entry" (EText "json: unsupported value"))
      | Some encoded => Set_ c (submissionProblemKey m.(SpID)) encoded ttl
      end
  end.

Definition cache_Delete (problemID : Z) : M W unit :=
  match client with
  | None => fail unavailable
  | Some c => Del c (submissionProblemKey problemID)
  end.

Definition redis_cache : SubmissionProblemCache W :=
  {| CC_Get := cache_Get; CC_Set := cache_Set; CC_Delete := cache_Delete |}.
End cache.
