(* ===== verification/AuthDomain.v ===== *)
(** Domain of the auth service (services/auth/internal/domain) and its outbound
    ports (services/auth/internal/application/port/outbound): users, value
    objects, errors, and the records of operations that the use cases call.

    At the end: the limits against abuse (usecase/auth/auth_abuse.go). *)

From S2P Require Import Prelude GoString GoError GoMonad SubmissionDomain.

(** ** Errors (domain/error.go) *)

Definition ErrAssignRoleAlreadyAssigned := NewAppError CodeConflict "user already has the specified role" None.
Definition ErrNewPasswordSameAsCurrent := NewAppError CodeBadRequest "new password is the same as the current password" None.
Definition ErrPasswordMismatch := NewAppError CodeBadRequest "password and confirm password do not match" None.
Definition ErrDuplicateEntry := NewAppError CodeConflict "duplicate entry" None.
Definition ErrUserInactive := NewAppError CodeForbidden "user is not active" None.
Definition ErrUserSuspended := NewAppError CodeForbidden "user is suspended" None.
Definition ErrUserAlreadyActive := NewAppError CodeConflict "user is already active" None.
Definition ErrEmailAlreadyExists := NewAppError CodeConflict "email already exists" None.
Definition ErrUsernameAlreadyExists := NewAppError CodeConflict "username already exists" None.
Definition ErrUserNotFound := NewAppError CodeAccountNotFound "user not found" None.
Definition ErrInvalidEmail := NewAppError CodeBadRequest "invalid email format" None.
Definition ErrPasswordTooWeak := NewAppError CodeBadRequest "password is too weak" None.
Definition ErrInvalidOrExpiredToken := NewAppError CodeInvalidToken "invalid or expired token" None.
Definition ErrInvalidCredentials := NewAppError CodeUnauthorized "invalid username or password" None.
Definition ErrIncorrectCurrentPassword := NewAppError CodeInvalidPassword "incorrect current password" None.
Definition ErrForbidden := NewAppError CodeForbidden "you are not allowed to perform this action" None.

(** [domain.ErrInternalServer.Wrap(err)]; the variable is the same in both services. *)
Definition internal (err : error) : error := Wrap ErrInternalServer err.

(** ** Time *)

(** Seconds between the zero time of Go and the Unix epoch. *)
Definition unix_epoch : Z := 62135596800.
Definition Second : Z := 1000000000.
Definition Unix (t : Time) : Z := t / Second - unix_epoch.
Definition UnixMilli (t : Time) : Z := t / 1000000 - unix_epoch * 1000.
(** [time.Unix(sec, 0)] *)
Definition time_Unix (sec : Z) : Time := (sec + unix_epoch) * Second.
(** [time.Duration] saturates: [t.Sub(u)]. *)
Definition Sub (t u : Time) : Z := Z.max int64_min (Z.min int64_max (t - u)).

(** ** Value objects (domain/valueobject) *)

Definition minPasswordLength : Z := 8.

Definition ValidatePlainPassword (plain : string) : option error :=
  if len plain <? minPasswordLength then Some ErrPasswordTooWeak else None.

(** [NewEmail]; [ParseAddress] is [net/mail.ParseAddress], of which only the
    address is used. *)
Definition NewEmail (lower_rune : bytes -> bytes) (ParseAddress : string -> option string) (address : string) : option string :=
  match ParseAddress (TrimSpace address) with
  | None => None
  | Some a => Some (ToLower lower_rune a)
  end.

(** ** User (domain/entity/user.go) *)

Record User := mkUser {
  UID : string;
  FullName : string;
  UUsername : string;
  Email : string;
  Password : string;
  URole : Role;
  Rating : Z;
  IsActive : bool;
  IsSuspended : bool;
  AvatarURL : option string;
  AvatarObjectKey : option string;
  Bio : option string;
  Country : option string;
  School : option string;
  Company : option string;
  GithubURL : option string;
  WebsiteURL : option string;
  LinkedinURL : option string;
  UCreatedAt : Time;
  UUpdatedAt : Time;
}.

(** [NewUser]: [id] is [uuid.New], [t1] and [t2] the two calls of [time.Now]. *)
Definition NewUser (id : string) (t1 t2 : Time) (fullName username email password : string) : User :=
  mkUser id fullName username email password RoleUser 0 false false None None None None None None None None None t1 t2.

Definition Activate (now : Time) (u : User) : User :=
  mkUser u.(UID) u.(FullName) u.(UUsername) u.(Email) u.(Password) u.(URole) u.(Rating) true u.(IsSuspended)
    u.(AvatarURL) u.(AvatarObjectKey) u.(Bio) u.(Country) u.(School) u.(Company) u.(GithubURL) u.(WebsiteURL)
    u.(LinkedinURL) u.(UCreatedAt) now.

Definition with_suspended (u : User) (b : bool) (now : Time) : User :=
  mkUser u.(UID) u.(FullName) u.(UUsername) u.(Email) u.(Password) u.(URole) u.(Rating) u.(IsActive) b
    u.(AvatarURL) u.(AvatarObjectKey) u.(Bio) u.(Country) u.(School) u.(Company) u.(GithubURL) u.(WebsiteURL)
    u.(LinkedinURL) u.(UCreatedAt) now.
Definition Suspend (now : Time) (u : User) : User := if u.(IsSuspended) then u else with_suspended u true now.
Definition Unsuspend (now : Time) (u : User) : User := if negb u.(IsSuspended) then u else with_suspended u false now.

(** [UpdatePassword]: the entity method and the columns of the repository. *)
Definition set_Password (hash : string) (now : Time) (u : User) : User :=
  mkUser u.(UID) u.(FullName) u.(UUsername) u.(Email) hash u.(URole) u.(Rating) u.(IsActive) u.(IsSuspended)
    u.(AvatarURL) u.(AvatarObjectKey) u.(Bio) u.(Country) u.(School) u.(Company) u.(GithubURL) u.(WebsiteURL)
    u.(LinkedinURL) u.(UCreatedAt) now.

Definition UploadAvatar (url key : string) (now : Time) (u : User) : User :=
  mkUser u.(UID) u.(FullName) u.(UUsername) u.(Email) u.(Password) u.(URole) u.(Rating) u.(IsActive) u.(IsSuspended)
    (Some url) (Some key) u.(Bio) u.(Country) u.(School) u.(Company) u.(GithubURL) u.(WebsiteURL)
    u.(LinkedinURL) u.(UCreatedAt) now.

Definition AssignRole (role : Role) (now : Time) (u : User) : User :=
  mkUser u.(UID) u.(FullName) u.(UUsername) u.(Email) u.(Password) role u.(Rating) u.(IsActive) u.(IsSuspended)
    u.(AvatarURL) u.(AvatarObjectKey) u.(Bio) u.(Country) u.(School) u.(Company) u.(GithubURL) u.(WebsiteURL)
    u.(LinkedinURL) u.(UCreatedAt) now.

(** ** Ports *)

Definition TokenPurpose : Type := string.
Definition TokenPurposeVerifyEmail : TokenPurpose := "verify_email".
Definition TokenPurposeResetPassword : TokenPurpose := "reset_password".

Record ListUsersFilter := mkUsersFilter {
  UfSearch : string; UfRole : option Role; UfIsActive : option bool; UfIsSuspended : option bool; UfLimit : Z; UfOffset : Z }.
Record ListUsersResult := mkUsersResult { UrItems : list User; UrTotal : Z }.
Record SearchPublicUsersFilter := mkPublicFilter { PfQuery : string; PfLimit : Z; PfOffset : Z }.

Record ProfileUpdates := mkProfile {
  PuFullName : option string; PuBio : option string; PuCountry : option string; PuSchool : option string;
  PuCompany : option string; PuGithubURL : option string; PuWebsiteURL : option string; PuLinkedinURL : option string;
  PuUpdatedAt : Time }.

Record AdmissionScope := mkScope { AsPurpose : string; AsScope : string; AsLimit : Z; AsWindow : Z }.
Record CooldownScope := mkCooldownScope { CsPurpose : string; CsScope : string; CsDuration : Z }.
Record AdmissionRequest := mkAdmission { ArScopes : list AdmissionScope; ArCooldown : option CooldownScope }.
Record AdmissionResult := mkAdmitted { AdAllowed : bool; AdRetryAfter : Z }.

Section ports.
Context (W : Type).

(** A reference to a user that is returned without an error is not nil. *)
Record UserRepository := {
  CreateUser : User -> M W unit;
  GetUserByEmail : string -> M W User;
  GetUserByUsername : string -> M W User;
  GetUserById : string -> M W User;
  ListUsers : ListUsersFilter -> M W ListUsersResult;
  SearchPublicUsers : SearchPublicUsersFilter -> M W ListUsersResult;
  UpdateUser : User -> M W unit;
  UpdatePassword : string -> string -> Time -> M W unit;
  UpdateProfile : string -> ProfileUpdates -> M W unit;
  UpdateAvatar : string -> string -> string -> Time -> M W unit;
  DeleteUser : string -> M W unit;
}.

Record TokenRepository := {
  Tok_Save : TokenPurpose -> string -> string -> Z -> M W unit;
  Tok_FindByToken : TokenPurpose -> string -> M W string;
  Tok_Consume : TokenPurpose -> string -> M W string;
  Tok_Delete : TokenPurpose -> string -> M W unit;
  Tok_TryAcquireResendCooldown : TokenPurpose -> string -> Z -> M W bool;
}.

Record TokenGenerator := { Tok_Generate : string -> M W string; Tok_Hash : string -> string }.

Record PasswordEncoder := { HashAndSalt : string -> M W string; ComparePasswords : string -> string -> bool }.

Record JWTProvider := {
  GenerateAccessToken : string -> string -> Role -> M W (string * Z);
  GenerateRefreshToken : string -> string -> Role -> M W (string * Z);
  VerifyRefreshToken : string -> M W (string * string * Role * Z);
}.

Record LogoutAllIATStore := {
  SetLogoutAllIAT : string -> Z -> M W unit;
  GetLogoutAllIAT : string -> M W Z;
}.

Record MailProvider := {
  SendVerificationEmail : string -> string -> M W unit;
  SendForgotPasswordEmail : string -> string -> M W unit;
}.

Record AuthAbuseLimiter := {
  Lim_Allow : string -> string -> Z -> Z -> M W (bool * Z);
  Lim_Count : string -> string -> M W (Z * Z);
  Lim_Reset : string -> string -> M W unit;
}.

Definition AbuseAdmission : Type := AdmissionRequest -> M W AdmissionResult.

(** The clock, [uuid.New], and a timer raced against the request context, with
    the error of the context when that is done first. *)
Record AuthServices := {
  AuthNow : M W Time;
  NewUUID : M W string;
  Sleep : Z -> M W (option error);
}.
End ports.

Arguments CreateUser {W}. Arguments GetUserByEmail {W}. Arguments GetUserByUsername {W}. Arguments GetUserById {W}.
Arguments ListUsers {W}. Arguments SearchPublicUsers {W}. Arguments UpdateUser {W}. Arguments UpdatePassword {W}.
Arguments UpdateProfile {W}. Arguments UpdateAvatar {W}. Arguments DeleteUser {W}.
Arguments Tok_Save {W}. Arguments Tok_FindByToken {W}. Arguments Tok_Consume {W}. Arguments Tok_Delete {W}.
Arguments Tok_TryAcquireResendCooldown {W}. Arguments Tok_Generate {W}. Arguments Tok_Hash {W}.
Arguments HashAndSalt {W}. Arguments ComparePasswords {W}. Arguments GenerateAccessToken {W}.
Arguments GenerateRefreshToken {W}. Arguments VerifyRefreshToken {W}. Arguments SetLogoutAllIAT {W}.
Arguments GetLogoutAllIAT {W}. Arguments SendVerificationEmail {W}. Arguments SendForgotPasswordEmail {W}.
Arguments Lim_Allow {W}. Arguments Lim_Count {W}. Arguments Lim_Reset {W}.
Arguments AuthNow {W}. Arguments NewUUID {W}. Arguments Sleep {W}.

(** Protection of the auth endpoints against abuse
    (services/auth/internal/application/usecase/auth/auth_abuse.go) and the
    request metadata it relies on (pkg/requestctx). *)

(** [config.AuthAbuseConfig] *)
Record AuthAbuseConfig := {
  LoginIPIdentifierLimit : Z; LoginIdentifierRiskLimit : Z; LoginIdentifierRiskDelay : Z;
  LoginBroadIPLimit : Z; LoginWindow : Z;
  RegisterIPEmailLimit : Z; RegisterBroadIPHourlyLimit : Z; RegisterBroadIPDailyLimit : Z;
  MailHourlyWindow : Z; MailDailyWindow : Z;
  ResendAccountHourlyLimit : Z; ResendAccountDailyLimit : Z; ResendIPAccountLimit : Z;
  ResendBroadIPHourlyLimit : Z; ResendBroadIPDailyLimit : Z;
  ForgotAccountHourlyLimit : Z; ForgotAccountDailyLimit : Z; ForgotIPAccountLimit : Z;
  ForgotBroadIPHourlyLimit : Z; ForgotBroadIPDailyLimit : Z;
  EmailCooldown : Z; TokenIPLimit : Z; TokenWindow : Z; RefreshIPLimit : Z; RefreshWindow : Z;
}.

(** [requestctx.ClientIP]: the value that the middleware put into the context. *)
Definition ClientIP (ctx : option string) : option string :=
  match ctx with
  | Some ip => if bool_decide (ip = ""%string) then None else Some ip
  | None => None
  end.

Definition protection_unavailable (err : option error) : error :=
  NewAppError CodeServiceUnavailable "authentication protection temporarily unavailable" err.
Definition too_many (retry : Z) : error := NewRateLimitError "too many requests, please try again later" retry.

(** The separator of scopes, a byte zero. *)
Definition nul : string := String (ascii_of_N 0) EmptyString.
Definition loginIPIdentifierScope (clientIP identifier : string) : string := clientIP +:+ nul +:+ identifier.
Definition ipTargetScope (clientIP target : string) : string := clientIP +:+ nul +:+ target.

Definition normalizedIdentifier (lower_rune : bytes -> bytes) (value : string) : string := ToLower lower_rune (TrimSpace value).

Definition emailRequestScopes (prefix clientIP target : string)
    (pairLimit broadHourlyLimit broadDailyLimit hourlyWindow dailyWindow : Z) : list AdmissionScope :=
  [ mkScope (prefix +:+ ":ip-account") (ipTargetScope clientIP target) pairLimit hourlyWindow;
    mkScope (prefix +:+ ":ip-hour") clientIP broadHourlyLimit hourlyWindow;
    mkScope (prefix +:+ ":ip-day") clientIP broadDailyLimit dailyWindow ].

Section abuse.
Context {W : Type} (sv : AuthServices W) (limiter : AuthAbuseLimiter W) (admission : AbuseAdmission W)
  (policy : AuthAbuseConfig) (ctx : option string).

Definition abuse_acquire (request : AdmissionRequest) : M W AdmissionResult :=
  on_error (fun err => protection_unavailable (Some err)) (admission request).

Definition clientIP : M W string :=
  match ClientIP ctx with
  | None => fail (protection_unavailable None)
  | Some ip => ret ip
  end.

Definition abuse_allow (purpose scope : string) (limit window : Z) : M W Z :=
  let* (ok, retry) := on_error (fun err => protection_unavailable (Some err))
      (limiter.(Lim_Allow) purpose scope limit window) in
  if negb ok then fail (too_many retry) else ret 0.

Definition checkFailureLimit (purpose scope : string) (limit : Z) : M W unit :=
  let* (count, retry) := on_error (fun err => protection_unavailable (Some err)) (limiter.(Lim_Count) purpose scope) in
  if limit <=? count then fail (too_many retry) else ret tt.

Definition recordFailure (purpose scope : string) (limit window : Z) : M W (bool * Z) :=
  let* (allowed, retry) := on_error (fun err => protection_unavailable (Some err))
      (limiter.(Lim_Allow) purpose scope limit window) in
  ret (negb allowed, retry).

Definition delayForIdentifierRisk (identifier : string) : M W unit :=
  let* (count, _) := on_error (fun err => protection_unavailable (Some err)) (limiter.(Lim_Count) "login:identifier" identifier) in
  if (count <? policy.(LoginIdentifierRiskLimit)) || (policy.(LoginIdentifierRiskDelay) <=? 0) then ret tt
  else
    let* done := sv.(Sleep) policy.(LoginIdentifierRiskDelay) in
    match done with Some err => fail err | None => ret tt end.
End abuse.
