(* ===== verification/AuthRedis.v ===== *)
(** The Redis adapters of the auth service: one-time tokens
    (adapter/outbound/cache/redis/token.go), the abuse limiter and the
    admission script (adapter/outbound/cache/redis/auth_abuse.go) and the
    session cutoffs (pkg/auth/logout_all_iat_store.go). *)

From S2P Require Import Prelude GoString GoError GoMonad GoCrypto Redis AuthDomain.

Section adapters.
Context {S W : Type} `{Redis S} (rdb : client S W).

(** ** Session cutoffs *)

Definition LogoutAllIATKey (userID : string) : string := "auth:logout_all_iat:" +:+ userID.

Definition redis_SetLogoutAllIAT (refreshTTL : Z) (userID : string) (issuedAt : Z) : M W unit :=
  Set_ rdb (LogoutAllIATKey userID) (Itoa issuedAt) refreshTTL.

(** The error of [strconv.ParseInt]. *)
Definition parse_int_error (raw : string) : error := EText ("strconv.ParseInt: parsing " +:+ raw +:+ ": invalid syntax").

Definition redis_GetLogoutAllIAT (userID : string) : M W Z :=
  let* rawValue := try (Get rdb (LogoutAllIATKey userID)) in
  match rawValue with
  | inl err => if error_matches err redis_Nil then ret 0 else fail err
  | inr rawValue =>
      match ParseInt rawValue with
      | None => fail (parse_int_error rawValue)
      | Some issuedAt => ret issuedAt
      end
  end.

Definition redis_logout_store (refreshTTL : Z) : LogoutAllIATStore W :=
  {| SetLogoutAllIAT := redis_SetLogoutAllIAT refreshTTL; GetLogoutAllIAT := redis_GetLogoutAllIAT |}.

(** ** One-time tokens *)

Definition tokenKey (purpose : TokenPurpose) (hashedToken : string) : string :=
  "token:" +:+ purpose +:+ ":" +:+ hashedToken.
Definition latestTokenKey (purpose : TokenPurpose) (identifier : string) : string :=
  "token:latest:" +:+ purpose +:+ ":" +:+ identifier.
Definition resendCooldownKey (purpose : TokenPurpose) (identifier : string) : string :=
  "token:cooldown:" +:+ purpose +:+ ":" +:+ identifier.

Definition token_Save (purpose : TokenPurpose) (hashedToken identifier : string) (ttl : Z) : M W unit :=
  let tokenKey := tokenKey purpose hashedToken in
  let latestKey := latestTokenKey purpose identifier in
  Do rdb (fun s => (tt, SET latestKey hashedToken (px ttl) (SET tokenKey identifier (px ttl) s))).

(** [if err == redis.Nil { return domain.ErrInvalidOrExpiredToken }]. *)
Definition nil_invalid (err : error) : error := if error_matches err redis_Nil then ErrInvalidOrExpiredToken else err.

Definition token_FindByToken (purpose : TokenPurpose) (hashedToken : string) : M W string :=
  let* identifier := on_error nil_invalid (Get rdb (tokenKey purpose hashedToken)) in
  let* latestHashedToken := on_error nil_invalid (Get rdb (latestTokenKey purpose identifier)) in
  if negb (bool_decide (latestHashedToken = hashedToken)) then fail ErrInvalidOrExpiredToken
  else ret identifier.

(** The closure of the WATCH transaction of [Consume]. *)
Definition consume_tx (tokenKey latestKey identifier hashedToken : string) (s : S) : error + (unit * (S -> S)) :=
  match GET tokenKey s with
  | None => inl ErrInvalidOrExpiredToken
  | Some currentIdentifier =>
      if negb (bool_decide (currentIdentifier = identifier)) then inl ErrInvalidOrExpiredToken
      else
        match GET latestKey s with
        | None => inl ErrInvalidOrExpiredToken
        | Some latestHashedToken =>
            if negb (bool_decide (latestHashedToken = hashedToken)) then inl ErrInvalidOrExpiredToken
            else inr (tt, fun s => DEL latestKey (DEL tokenKey s))
        end
  end.

Definition token_Consume (purpose : TokenPurpose) (hashedToken : string) : M W string :=
  let tokenKey := tokenKey purpose hashedToken in
  let* identifier := on_error nil_invalid (Get rdb tokenKey) in
  let latestKey := latestTokenKey purpose identifier in
  on_error (fun err => if errors_Is err redis_TxFailedErr then ErrInvalidOrExpiredToken else err)
    (Watch rdb (consume_tx tokenKey latestKey identifier hashedToken)) ;;
  ret identifier.

Definition token_Delete (purpose : TokenPurpose) (hashedToken : string) : M W unit :=
  let tokenKey := tokenKey purpose hashedToken in
  let* identifier := try (Get rdb tokenKey) in
  match identifier with
  | inl err => if error_matches err redis_Nil then ret tt else fail err
  | inr identifier =>
      let latestKey := latestTokenKey purpose identifier in
      let* latest := try (Get rdb latestKey) in
      let delete latestHashedToken :=
        Do rdb (fun s => let s := DEL tokenKey s in
                         (tt, if bool_decide (latestHashedToken = hashedToken) then DEL latestKey s else s)) in
      match latest with
      | inl err => if error_matches err redis_Nil then delete ""%string else fail err
      | inr latestHashedToken => delete latestHashedToken
      end
  end.

Definition token_TryAcquireResendCooldown (purpose : TokenPurpose) (identifier : string) (ttl : Z) : M W bool :=
  SetNX rdb (resendCooldownKey purpose identifier) "1" ttl.

Definition redis_token_repository : TokenRepository W :=
  {| Tok_Save := token_Save; Tok_FindByToken := token_FindByToken; Tok_Consume := token_Consume;
     Tok_Delete := token_Delete; Tok_TryAcquireResendCooldown := token_TryAcquireResendCooldown |}.

(** ** The abuse limiter *)

Definition authAbuseKey (purpose scope : string) : string :=
  "auth:abuse:" +:+ purpose +:+ ":" +:+ str (HexEncode (Sum256 (chars scope))).

(** [allowScript]; [None] is the error reply of INCR on a value that is no number. *)
Definition allowScript (key : string) (window limit : Z) (s : S) : option (Z * Z) * S :=
  match INCR key s with
  | (None, s) => (None, s)
  | (Some n, s) =>
      let s := if n =? 1 then PEXPIRE key window s else s in
      let ttl := PTTL key s in
      (Some (if limit <? n then 0 else 1, ttl), s)
  end.

(** [window.Milliseconds()] and back. *)
Definition Milliseconds (d : Z) : Z := Z.quot d 1000000.
Definition milliseconds (ms : Z) : Z := wrap64 (ms * 1000000).

(** An error reply of the server. *)
Definition script_error : error := EText "ERR value is not an integer or out of range".

Definition limiter_Allow (purpose scope : string) (limit window : Z) : M W (bool * Z) :=
  if (limit <=? 0) || (window <=? 0) then ret (true, 0)
  else
    let* values := Do rdb (allowScript (authAbuseKey purpose scope) (Milliseconds window) limit) in
    match values with
    | None => fail script_error
    | Some (ok, ttl) => ret (ok =? 1, milliseconds ttl)
    end.

Definition limiter_Count (purpose scope : string) : M W (Z * Z) :=
  let key := authAbuseKey purpose scope in
  let* count := try (Get rdb key) in
  match count with
  | inl err => if error_matches err redis_Nil then ret (0, 0) else fail err
  | inr value =>
      match ParseInt value with
      | None => fail (parse_int_error value)
      | Some count =>
          let* ttl := Do rdb (fun s => (PTTL key s, s)) in
          (* go-redis passes the replies -1 and -2 on as they are *)
          ret (count, if ttl <? 0 then ttl else milliseconds ttl)
      end
  end.

Definition limiter_Reset (purpose scope : string) : M W unit := Del rdb (authAbuseKey purpose scope).

Definition redis_limiter : AuthAbuseLimiter W :=
  {| Lim_Allow := limiter_Allow; Lim_Count := limiter_Count; Lim_Reset := limiter_Reset |}.

(** ** Admissions *)

(** [admissionScript]: Lua counts KEYS and ARGV from one. *)
Section script.
Context (KEYS : list string) (ARGV : list Z).
Definition key_at (i : Z) : string := nth (Z.to_nat (i - 1)) KEYS ""%string.
Definition arg_at (i : Z) : Z := nth (Z.to_nat (i - 1)) ARGV 0.

Definition larger (ttl retry_after : Z) : Z := if retry_after <? ttl then ttl else retry_after.

(** The first loop, from constraint [i] on; [None] is a counter that is no number. *)
Fixpoint check_scopes (n : nat) (i retry_after : Z) (s : S) : option Z :=
  match n with
  | O => Some retry_after
  | Datatypes.S n =>
      let limit := arg_at (2 + (i - 1) * 2) in
      let window := arg_at (3 + (i - 1) * 2) in
      match (match GET (key_at i) s with None => Some 0 | Some v => ParseInt v end) with
      | None => None
      | Some current =>
          check_scopes n (i + 1)
            (if limit <=? current then
               let ttl := PTTL (key_at i) s in
               larger (if ttl <=? 0 then window else ttl) retry_after
             else retry_after) s
      end
  end.

(** The second loop. *)
Fixpoint count_scopes (n : nat) (i : Z) (s : S) : option unit * S :=
  match n with
  | O => (Some tt, s)
  | Datatypes.S n =>
      let window := arg_at (3 + (i - 1) * 2) in
      match INCR (key_at i) s with
      | (None, s) => (None, s)
      | (Some value, s) => count_scopes n (i + 1) (if value =? 1 then PEXPIRE (key_at i) window s else s)
      end
  end.

Definition admissionScript (s : S) : option (Z * Z) * S :=
  let count := arg_at 1 in
  let cooldown_index := count + 1 in
  let cooldown_ttl_arg := 2 + count * 2 in
  let cooldown := Z.of_nat (length KEYS) =? cooldown_index in
  match check_scopes (Z.to_nat count) 1 0 s with
  | None => (None, s)
  | Some retry_after =>
      let retry_after :=
        if cooldown && EXISTS (key_at cooldown_index) s then
          let ttl := PTTL (key_at cooldown_index) s in
          larger (if ttl <=? 0 then arg_at cooldown_ttl_arg else ttl) retry_after
        else retry_after in
      if 0 <? retry_after then (Some (0, retry_after), s)
      else
        match count_scopes (Z.to_nat count) 1 s with
        | (None, s) => (None, s)
        | (Some _, s) =>
            (Some (1, 0),
             if cooldown then SET (key_at cooldown_index) "1" (Some (arg_at cooldown_ttl_arg)) s else s)
        end
  end.
End script.

(** [appendKey] *)
Definition appendKey (purpose scope : string) (keys : list string) : error + list string :=
  if bool_decide (purpose = ""%string) then inl (EText "abuse admission purpose is required")
  else if bool_decide (scope = ""%string) then inl (EText "abuse admission scope is required")
  else
    let key := authAbuseKey purpose scope in
    if bool_decide (key ∈ keys) then inl (EText ("duplicate abuse admission key for purpose " +:+ purpose))
    else inr (keys ++ [key]).

Fixpoint scope_arguments (scopes : list AdmissionScope) (keys : list string) (args : list Z)
  : error + (list string * list Z) :=
  match scopes with
  | [] => inr (keys, args)
  | sc :: scopes =>
      if sc.(AsLimit) <=? 0 then inl (EText "abuse admission limit must be positive")
      else if (sc.(AsWindow) <=? 0) || (Milliseconds sc.(AsWindow) <=? 0)
      then inl (EText "abuse admission window must be positive")
      else
        match appendKey sc.(AsPurpose) sc.(AsScope) keys with
        | inl err => inl err
        | inr keys => scope_arguments scopes keys (args ++ [sc.(AsLimit); Milliseconds sc.(AsWindow)])
        end
  end.

Definition admissionArguments (request : AdmissionRequest) : error + (list string * list Z) :=
  if (length request.(ArScopes) =? 0)%nat && (if request.(ArCooldown) then false else true)
  then inl (EText "abuse admission requires at least one constraint")
  else
    match scope_arguments request.(ArScopes) [] [Z.of_nat (length request.(ArScopes))] with
    | inl err => inl err
    | inr (keys, args) =>
        match request.(ArCooldown) with
        | None => inr (keys, args)
        | Some cd =>
            if (cd.(CsDuration) <=? 0) || (Milliseconds cd.(CsDuration) <=? 0)
            then inl (EText "abuse admission cooldown duration must be positive")
            else
              match appendKey cd.(CsPurpose) cd.(CsScope) keys with
              | inl err => inl err
              | inr keys => inr (keys, args ++ [Milliseconds cd.(CsDuration)])
              end
        end
    end.

Definition limiter_Acquire : AbuseAdmission W := fun request =>
  match admissionArguments request with
  | inl err => fail err
  | inr (keys, args) =>
      let* values := Do rdb (admissionScript keys args) in
      match values with
      | None => fail script_error
      | Some (ok, retry) => ret (mkAdmitted (ok =? 1) (milliseconds retry))
      end
  end.
End adapters.
