(* ===== verification/AuthSessions.v ===== *)
(** Sessions of the auth service: the JWT provider
    (adapter/outbound/jwt/jwt_provider.go), the session use cases of
    application/usecase/auth (login, refresh, logout, change of password), the
    administration of users that ends sessions (application/usecase/admin) and
    the middleware that checks sessions in every service (pkg/middleware). *)

From S2P Require Import Prelude GoString GoError GoMonad SubmissionDomain AuthDomain.

(** ** JSON web tokens *)

(** [customClaims]: numeric dates are whole seconds. *)
Record customClaims := mkJWT {
  JwtRole : Role; JwtUsername : string; Issuer : string; Subject : string; ExpiresAt : Z; IssuedAt : option Z }.

(** The library golang-jwt: [jwt_Sign claims secret], and [jwt_Parse token secret now]
    with the HMAC methods only. *)
Record jwt_library := {
  jwt_Sign : customClaims -> string -> error + string;
  jwt_Parse : string -> string -> Time -> option customClaims;
}.

Record JWTConfig := { AccessSecret : string; RefreshSecret : string; AccessTTL : Z; RefreshTTL : Z }.

Section jwt.
Context {W : Type} (sv : AuthServices W) (lib : jwt_library) (cfg : JWTConfig).

(** [GenerateAccessToken] and [GenerateRefreshToken]: two calls of [time.Now]. *)
Definition generate (secret : string) (ttl : Z) (userID username : string) (role : Role) : M W (string * Z) :=
  let* t1 := sv.(AuthNow) in
  let* t2 := sv.(AuthNow) in
  match lib.(jwt_Sign) (mkJWT role username "auth-service" userID (Unix (t1 + ttl)) (Some (Unix t2))) secret with
  | inl err => fail err
  | inr token => ret (token, Z.quot ttl Second)
  end.

Definition verifyToken (tokenStr secret : string) : M W (string * string * Role * Z) :=
  let* now := sv.(AuthNow) in
  match lib.(jwt_Parse) tokenStr secret now with
  | None => fail (EText "token invalid or expired")
  | Some claims =>
      match claims.(IssuedAt) with
      | None => fail (EText "token missing issued-at")
      | Some iat => ret (claims.(Subject), claims.(JwtUsername), claims.(JwtRole), iat)
      end
  end.

Definition jwt_provider : JWTProvider W :=
  {| GenerateAccessToken := generate cfg.(AccessSecret) cfg.(AccessTTL);
     GenerateRefreshToken := generate cfg.(RefreshSecret) cfg.(RefreshTTL);
     VerifyRefreshToken := fun token => verifyToken token cfg.(RefreshSecret) |}.
End jwt.

(** ** The use cases *)

Record LoginResponse := mkLogin { AccessToken : string; AccessExpire : Z; RefreshToken : string; RefreshExpire : Z }.
Record ChangePasswordRequest := mkChange { CurrentPassword : string; NewPassword : string; ConfirmPassword : string }.

Section sessions.
Context {W : Type} (sv : AuthServices W) (lower_rune : bytes -> bytes) (users : UserRepository W)
  (enc : PasswordEncoder W) (jwt : JWTProvider W) (cutoffs : LogoutAllIATStore W)
  (limiter : option (AuthAbuseLimiter W)) (policy : AuthAbuseConfig).

(** [waitForTokenIssuedAfterInvalidation] *)
Definition waitForTokenIssuedAfterInvalidation (userID : string) : M W bool :=
  let* cutoff := cutoffs.(GetLogoutAllIAT) userID in
  if cutoff =? 0 then ret false
  else
    let* now := sv.(AuthNow) in
    if cutoff <? Unix now then ret false
    else
      let* now := sv.(AuthNow) in
      let* done := sv.(Sleep) (Sub (time_Unix (cutoff + 1)) now) in
      match done with Some err => fail err | None => ret true end.

Definition resolveUser (identifier : string) : M W User :=
  if existsb (is_byte 64) (chars identifier) then users.(GetUserByEmail) identifier
  else users.(GetUserByUsername) identifier.

(** [math.MaxInt] *)
Definition MaxInt : Z := int64_max.

Definition recordLoginFailure (clientIP identifier : string) : M W unit :=
  match limiter with
  | None => ret tt
  | Some limiter =>
      let* (pairExceeded, pairRetry) := recordFailure limiter "login:ip-identifier"
          (loginIPIdentifierScope clientIP identifier) policy.(LoginIPIdentifierLimit) policy.(LoginWindow) in
      let* _ := recordFailure limiter "login:identifier" identifier MaxInt policy.(LoginWindow) in
      let* (broadExceeded, broadRetry) := recordFailure limiter "login:ip" clientIP
          policy.(LoginBroadIPLimit) policy.(LoginWindow) in
      if pairExceeded then fail (too_many pairRetry)
      else if broadExceeded then fail (too_many broadRetry)
      else ret tt
  end.

(** The checks before the user is looked up; the client address is kept. *)
Definition login_protection (ctx : option string) (identifier : string) : M W string :=
  match limiter with
  | None => ret ""%string
  | Some limiter =>
      let* ip := clientIP ctx in
      checkFailureLimit limiter "login:ip-identifier" (loginIPIdentifierScope ip identifier) policy.(LoginIPIdentifierLimit) ;;
      checkFailureLimit limiter "login:ip" ip policy.(LoginBroadIPLimit) ;;
      delayForIdentifierRisk sv limiter policy identifier ;;
      ret ip
  end.

Definition check_account (user : User) : M W unit :=
  guard (negb user.(IsActive)) ErrUserInactive ;; guard user.(IsSuspended) ErrUserSuspended.

(** An access and a refresh token for the response. *)
Definition issue_tokens (id username : string) (role : Role) : M W LoginResponse :=
  let* (accessToken, accessExpire) := on_error internal (jwt.(GenerateAccessToken) id username role) in
  let* (refreshToken, refreshExpire) := on_error internal (jwt.(GenerateRefreshToken) id username role) in
  ret (mkLogin accessToken accessExpire refreshToken refreshExpire).

(** [loginUseCase.Execute] *)
Definition login (ctx : option string) (reqIdentifier reqPassword : string) : M W LoginResponse :=
  let identifier := normalizedIdentifier lower_rune reqIdentifier in
  let* ip := login_protection ctx identifier in
  let* user := try (resolveUser identifier) in
  match user with
  | inl err =>
      if errors_Is err ErrUserNotFound then recordLoginFailure ip identifier ;; fail ErrInvalidCredentials
      else fail (internal err)
  | inr user =>
      check_account user ;;
      if negb (enc.(ComparePasswords) user.(Password) reqPassword)
      then recordLoginFailure ip identifier ;; fail ErrInvalidCredentials
      else
        match limiter with
        | None => ret tt
        | Some limiter =>
            let* _ := try (limiter.(Lim_Reset) "login:ip-identifier" (loginIPIdentifierScope ip identifier)) in
            let* _ := try (limiter.(Lim_Reset) "login:identifier" identifier) in
            ret tt
        end ;;
        let* waited := on_error internal (waitForTokenIssuedAfterInvalidation user.(UID)) in
        let* user :=
          (if (waited : bool) then
             let* user := on_error internal (users.(GetUserById) user.(UID)) in
             check_account user ;; ret user
           else ret user) in
        issue_tokens user.(UID) user.(UUsername) user.(URole)
  end.

(** [refreshTokenUseCase.Execute] *)
Definition refresh (refreshToken : string) : M W LoginResponse :=
  match limiter with
  | None => ret 0
  | Some limiter => abuse_allow limiter "refresh-token" refreshToken policy.(RefreshIPLimit) policy.(RefreshWindow)
  end ;;
  let* (id, username, role, refreshTokenIAT) := on_error (fun _ => ErrInvalidOrExpiredToken) (jwt.(VerifyRefreshToken) refreshToken) in
  let* logoutAllIAT := on_error internal (cutoffs.(GetLogoutAllIAT) id) in
  if (0 <? logoutAllIAT) && (refreshTokenIAT <=? logoutAllIAT) then fail ErrInvalidOrExpiredToken
  else
    let* user := on_error (fun err => if errors_Is err ErrUserNotFound then ErrInvalidOrExpiredToken else internal err)
        (users.(GetUserById) id) in
    check_account user ;;
    issue_tokens id username role.

(** [logoutAllUseCase.Execute] *)
Definition logoutAll (userID : string) : M W unit :=
  if bool_decide (userID = ""%string) then fail ErrForbidden
  else
    let* now := sv.(AuthNow) in
    on_error internal (cutoffs.(SetLogoutAllIAT) userID (Unix now)).

(** [errors.Is(err, domain.ErrUserNotFound)] mapped to the error itself. *)
Definition not_found_or_internal (err : error) : error :=
  if errors_Is err ErrUserNotFound then ErrUserNotFound else internal err.

(** The end of every change of a password: sessions are cut off first. *)
Definition replace_password (user : User) (hashedPassword : string) : M W unit :=
  let* now := sv.(AuthNow) in
  on_error internal (cutoffs.(SetLogoutAllIAT) user.(UID) (Unix now)) ;;
  let* now := sv.(AuthNow) in
  let user := set_Password hashedPassword now user in
  on_error internal (users.(UpdatePassword) user.(UID) user.(Password) user.(UUpdatedAt)).

(** [changePasswordUseCase.Execute] *)
Definition changePassword (claims : Claims) (req : ChangePasswordRequest) : M W unit :=
  match ValidatePlainPassword req.(NewPassword) with
  | Some _ => fail ErrPasswordTooWeak
  | None =>
      let* user := on_error not_found_or_internal (users.(GetUserById) claims.(UserID)) in
      if negb (enc.(ComparePasswords) user.(Password) req.(CurrentPassword)) then fail ErrIncorrectCurrentPassword
      else if bool_decide (req.(CurrentPassword) = req.(NewPassword)) then fail ErrNewPasswordSameAsCurrent
      else if negb (bool_decide (req.(NewPassword) = req.(ConfirmPassword))) then fail ErrPasswordMismatch
      else
        let* hashedPassword := on_error internal (enc.(HashAndSalt) req.(NewPassword)) in
        replace_password user hashedPassword
  end.

(** ** Administration *)

(** [assignRoleUseCase.Execute] *)
Definition assign_to (user : User) (role : Role) : M W unit :=
  if bool_decide (user.(URole) = role) then fail ErrAssignRoleAlreadyAssigned
  else
    let* now := sv.(AuthNow) in
    on_error internal (users.(UpdateUser) (AssignRole role now user)).

Definition assignRole (claims : Claims) (userID : string) (role : Role) : M W unit :=
  if negb (AtLeast claims.(ClaimRole) RoleAdmin) then fail ErrForbidden
  else
    let* user := on_error not_found_or_internal (users.(GetUserById) userID) in
    assign_to user role.

(** [validateAdminUserID]; [uuid_Parse] tells whether github.com/google/uuid can parse the text. *)
Definition validateAdminUserID (uuid_Parse : string -> bool) (userID : string) : option error :=
  if uuid_Parse (TrimSpace userID) then None else Some (NewAppError CodeParamInvalid "invalid user id" None).

(** [adminUsersUseCase.SetSuspension]; the response shows the user. *)
Definition SetSuspension (uuid_Parse : string -> bool) (claims : Claims) (userID : string) (suspended : option bool) : M W User :=
  if negb (AtLeast claims.(ClaimRole) RoleAdmin) then fail ErrForbidden
  else
    match validateAdminUserID uuid_Parse userID with
    | Some err => fail err
    | None =>
        match suspended with
        | None => fail (NewAppError CodeBadRequest "suspended is required" None)
        | Some suspended =>
            let* user := on_error not_found_or_internal (users.(GetUserById) userID) in
            let* user :=
              (if (suspended : bool) then
                 let* now := sv.(AuthNow) in
                 on_error internal (cutoffs.(SetLogoutAllIAT) user.(UID) (Unix now)) ;;
                 let* now := sv.(AuthNow) in
                 ret (Suspend now user)
               else
                 let* now := sv.(AuthNow) in
                 ret (Unsuspend now user)) in
            on_error internal (users.(UpdateUser) user) ;;
            ret user
        end
    end.

(** ** The middleware of every service (pkg/middleware/auth.go, role.go) *)

(** [parseTokenIAT]; [ParseFloat] is [strconv.ParseFloat] followed by the
    conversion to [int64]. *)
Definition parseTokenIAT (ParseFloat : string -> option Z) (raw : string) : option Z :=
  if bool_decide (raw = ""%string) then None
  else
    match ParseInt raw with
    | Some iat => Some iat
    | None => ParseFloat raw
    end.

(** The headers X-User-ID, X-Token-Iat, X-Username and X-Role, which the
    gateway takes from a token it has verified; the result is the claims that
    the handlers see. *)
Record Headers := mkHeaders { XUserID : string; XTokenIat : string; XUsername : string; XRole : string }.

Definition AuthMiddleware (ParseFloat : string -> option Z) (h : Headers) : M W Claims :=
  if bool_decide (h.(XUserID) = ""%string)
  then fail (NewAppError CodeUnauthorized "unauthorized: missing identity headers from gateway" None)
  else
    match parseTokenIAT ParseFloat h.(XTokenIat) with
    | None => fail (NewAppError CodeUnauthorized "unauthorized: missing or invalid token iat" None)
    | Some tokenIAT =>
        let* logoutAllIAT := on_error (fun err => NewAppError CodeRedisError "failed to validate session" (Some err))
            (cutoffs.(GetLogoutAllIAT) h.(XUserID)) in
        if (0 <? logoutAllIAT) && (tokenIAT <=? logoutAllIAT)
        then fail (NewAppError CodeUnauthorized "unauthorized: token has been invalidated" None)
        else ret (mkClaims h.(XUserID) h.(XUsername) h.(XRole) tokenIAT)
    end.

Definition RequireRole (min : Role) (claims : option Claims) : M W unit :=
  match claims with
  | None => fail (NewAppError CodeUnauthorized "unauthorized" None)
  | Some claims =>
      if negb (AtLeast claims.(ClaimRole) min) then fail (NewAppError CodeForbidden "forbidden: insufficient role" None)
      else ret tt
  end.
End sessions.
