(* ===== verification/AuthAccounts.v ===== *)
(** Accounts of the auth service: registration, e-mail verification and the
    reset of forgotten passwords
    (services/auth/internal/application/usecase/auth: register, verify_email,
    resend_verification, forgot_password, reset_password) and the token
    generator (adapter/outbound/crypto/token_generator.go). *)

From S2P Require Import Prelude GoString GoError GoMonad GoCrypto SubmissionDomain AuthDomain AuthSessions.

(** ** Token generator *)

(** [rand 32] stands for [crypto/rand.Read], which does not fail. *)
Definition token_Generate {W} (rand : Z -> M W bytes) (identifier : string) : M W string :=
  let* randomBytes := rand 32 in
  ret (str (HexEncode (chars identifier ++ randomBytes))).

Definition token_Hash (token : string) : string := str (HexEncode (Sum256 (chars token))).

Definition token_generator {W} (rand : Z -> M W bytes) : TokenGenerator W :=
  {| Tok_Generate := token_Generate rand; Tok_Hash := token_Hash |}.

(** ** The use cases *)

Definition forgotPasswordTokenTTL : Z := 5 * 60 * Second.
Definition forgotPasswordCooldownTTL : Z := 60 * Second.
Definition resendVerificationCooldownTTL : Z := 60 * Second.
Definition verificationTokenTTL : Z := 24 * 7 * 3600 * Second.

Record RegisterRequest := mkRegister { RgFullName : string; RgUsername : string; RgEmail : string; RgPassword : string }.
Record ResetPasswordRequest := mkReset { RsToken : string; RsNewPassword : string; RsConfirmPassword : string }.

Section accounts.
Context {W : Type} (sv : AuthServices W) (lower_rune : bytes -> bytes) (ParseAddress : string -> option string)
  (users : UserRepository W) (tokens : TokenRepository W) (gen : TokenGenerator W) (enc : PasswordEncoder W)
  (mail : MailProvider W) (cutoffs : LogoutAllIATStore W)
  (limiter : option (AuthAbuseLimiter W)) (admission : option (AbuseAdmission W)) (policy : AuthAbuseConfig).

Local Notation NewEmail := (NewEmail lower_rune ParseAddress).

(** A lookup that must find nobody. *)
Definition must_be_free (lookup : M W User) (taken : error) : M W unit :=
  let* user := try lookup in
  match user with
  | inl err => if errors_Is err ErrUserNotFound then ret tt else fail (internal err)
  | inr _ => fail taken
  end.

(** [register.Execute] *)
Definition register (ctx : option string) (req : RegisterRequest) : M W unit :=
  match NewEmail req.(RgEmail) with
  | None => fail ErrInvalidEmail
  | Some email =>
      match admission with
      | None => ret tt
      | Some admission =>
          let* ip := clientIP ctx in
          let* result := abuse_acquire admission (mkAdmission
            [ mkScope "register:ip-email" (ipTargetScope ip email) policy.(RegisterIPEmailLimit) policy.(MailHourlyWindow);
              mkScope "register:ip-hour" ip policy.(RegisterBroadIPHourlyLimit) policy.(MailHourlyWindow);
              mkScope "register:ip-day" ip policy.(RegisterBroadIPDailyLimit) policy.(MailDailyWindow) ] None) in
          if negb result.(AdAllowed) then fail (too_many result.(AdRetryAfter)) else ret tt
      end ;;
      match ValidatePlainPassword req.(RgPassword) with
      | Some _ => fail ErrPasswordTooWeak
      | None =>
          must_be_free (users.(GetUserByEmail) email) ErrEmailAlreadyExists ;;
          must_be_free (users.(GetUserByUsername) req.(RgUsername)) ErrUsernameAlreadyExists ;;
          let* hashedPwd := on_error internal (enc.(HashAndSalt) req.(RgPassword)) in
          let* id := sv.(NewUUID) in
          let* t1 := sv.(AuthNow) in
          let* t2 := sv.(AuthNow) in
          let user := NewUser id t1 t2 req.(RgFullName) req.(RgUsername) email hashedPwd in
          on_error (fun err => if errors_Is err ErrDuplicateEntry then ErrUserAlreadyActive else internal err)
            (users.(CreateUser) user) ;;
          let* rawToken := gen.(Tok_Generate) user.(UID) in
          let hashedToken := gen.(Tok_Hash) rawToken in
          let* saved := try (tokens.(Tok_Save) TokenPurposeVerifyEmail hashedToken user.(UID) verificationTokenTTL) in
          match saved with
          | inl err =>
              let* _ := try (users.(DeleteUser) user.(UID)) in
              fail (internal err)
          | inr _ =>
              let* _ := try (mail.(SendVerificationEmail) user.(Email) rawToken) in
              ret tt
          end
      end
  end.

(** The admission of a mail request, counted but without consequence. *)
Definition acquireGenericRequest (scopes : list AdmissionScope) : M W unit :=
  match admission with
  | None => ret tt
  | Some admission => let* _ := try (abuse_acquire admission (mkAdmission scopes None)) in ret tt
  end.

Definition resend_scopes (ip email : string) : list AdmissionScope :=
  emailRequestScopes "resend" ip email policy.(ResendIPAccountLimit) policy.(ResendBroadIPHourlyLimit)
    policy.(ResendBroadIPDailyLimit) policy.(MailHourlyWindow) policy.(MailDailyWindow).
Definition forgot_scopes (ip email : string) : list AdmissionScope :=
  emailRequestScopes "forgot" ip email policy.(ForgotIPAccountLimit) policy.(ForgotBroadIPHourlyLimit)
    policy.(ForgotBroadIPDailyLimit) policy.(MailHourlyWindow) policy.(MailDailyWindow).

(** The limits of one account beside those of the address; [false] ends the
    request silently. *)
Definition admit_mail (prefix ip : string) (scopes : list AdmissionScope) (hourly daily : Z)
    (purpose : TokenPurpose) (cooldownTTL : Z) (user : User) : M W bool :=
  match admission with
  | Some admission =>
      let* result := try (abuse_acquire admission (mkAdmission
        (scopes ++ [ mkScope (prefix +:+ ":account-hour") user.(UID) hourly policy.(MailHourlyWindow);
                     mkScope (prefix +:+ ":account-day") user.(UID) daily policy.(MailDailyWindow) ])
        (Some (mkCooldownScope (prefix +:+ ":cooldown") user.(UID) policy.(EmailCooldown))))) in
      match result with
      | inl _ => ret false
      | inr result => ret result.(AdAllowed)
      end
  | None => on_error internal (tokens.(Tok_TryAcquireResendCooldown) purpose user.(UID) cooldownTTL)
  end.

(** The address of the client, needed only under admission control; [None]
    ends the request silently. *)
Definition mail_clientIP (ctx : option string) : option string :=
  match admission with None => Some ""%string | Some _ => ClientIP ctx end.

(** [resendVerificationUseCase.Execute] *)
Definition resendVerification (ctx : option string) (reqEmail : string) : M W unit :=
  match NewEmail reqEmail with
  | None => fail ErrInvalidEmail
  | Some email =>
      match mail_clientIP ctx with
      | None => ret tt
      | Some ip =>
          let* user := try (users.(GetUserByEmail) email) in
          match user with
          | inl err =>
              if errors_Is err ErrUserNotFound then acquireGenericRequest (resend_scopes ip email)
              else fail (internal err)
          | inr user =>
              if user.(IsActive) then acquireGenericRequest (resend_scopes ip email)
              else
                let* allowed := admit_mail "resend" ip (resend_scopes ip email) policy.(ResendAccountHourlyLimit)
                    policy.(ResendAccountDailyLimit) TokenPurposeVerifyEmail resendVerificationCooldownTTL user in
                if negb allowed then ret tt
                else
                  let* rawToken := gen.(Tok_Generate) user.(UID) in
                  let hashedToken := gen.(Tok_Hash) rawToken in
                  on_error internal (tokens.(Tok_Save) TokenPurposeVerifyEmail hashedToken user.(UID) verificationTokenTTL) ;;
                  let* _ := try (mail.(SendVerificationEmail) user.(Email) rawToken) in
                  ret tt
          end
      end
  end.

(** [forgotPasswordUseCase.Execute] *)
Definition forgotPassword (ctx : option string) (reqEmail : string) : M W unit :=
  match NewEmail reqEmail with
  | None => fail ErrInvalidEmail
  | Some email =>
      match mail_clientIP ctx with
      | None => ret tt
      | Some ip =>
          let* user := try (users.(GetUserByEmail) email) in
          match user with
          | inl err =>
              if errors_Is err ErrUserNotFound then acquireGenericRequest (forgot_scopes ip email)
              else fail (internal err)
          | inr user =>
              let* allowed := admit_mail "forgot" ip (forgot_scopes ip email) policy.(ForgotAccountHourlyLimit)
                  policy.(ForgotAccountDailyLimit) TokenPurposeResetPassword forgotPasswordCooldownTTL user in
              if negb allowed then ret tt
              else
                let* rawToken := gen.(Tok_Generate) user.(UID) in
                let hashedToken := gen.(Tok_Hash) rawToken in
                on_error internal (tokens.(Tok_Save) TokenPurposeResetPassword hashedToken user.(UID) forgotPasswordTokenTTL) ;;
                on_error internal (mail.(SendForgotPasswordEmail) user.(Email) rawToken)
          end
      end
  end.

(** The limit on requests that present a token. *)
Definition token_protection (ctx : option string) (purpose : string) : M W unit :=
  match limiter with
  | None => ret tt
  | Some limiter =>
      let* ip := clientIP ctx in
      let* _ := abuse_allow limiter purpose ip policy.(TokenIPLimit) policy.(TokenWindow) in
      ret tt
  end.

Definition token_error (err : error) : error :=
  if errors_Is err ErrInvalidOrExpiredToken then ErrInvalidOrExpiredToken else internal err.

(** [resetPasswordUseCase.Execute] *)
Definition resetPassword (ctx : option string) (req : ResetPasswordRequest) : M W unit :=
  token_protection ctx "reset-password:ip" ;;
  match ValidatePlainPassword req.(RsNewPassword) with
  | Some _ => fail ErrPasswordTooWeak
  | None =>
      if negb (bool_decide (req.(RsNewPassword) = req.(RsConfirmPassword))) then fail ErrPasswordMismatch
      else
        let hashedToken := gen.(Tok_Hash) req.(RsToken) in
        let* userID := on_error token_error (tokens.(Tok_Consume) TokenPurposeResetPassword hashedToken) in
        let* user := on_error not_found_or_internal (users.(GetUserById) userID) in
        let* hashedPassword := on_error internal (enc.(HashAndSalt) req.(RsNewPassword)) in
        replace_password sv users cutoffs user hashedPassword
  end.

(** [verifyEmail.Execute] *)
Definition verifyEmail (ctx : option string) (reqToken : string) : M W unit :=
  token_protection ctx "verify-email:ip" ;;
  let hashedToken := gen.(Tok_Hash) reqToken in
  let* userID := on_error token_error (tokens.(Tok_FindByToken) TokenPurposeVerifyEmail hashedToken) in
  let* user := on_error not_found_or_internal (users.(GetUserById) userID) in
  if user.(IsActive) then fail ErrUserAlreadyActive
  else
    let* _ := on_error token_error (tokens.(Tok_Consume) TokenPurposeVerifyEmail hashedToken) in
    let* now := sv.(AuthNow) in
    on_error internal (users.(UpdateUser) (Activate now user)).
End accounts.
