(* ===== verification/AuthUsers.v ===== *)
(** Profiles and the listing of users in the auth service
    (services/auth/internal/application/usecase/user and usecase/admin/users.go),
    avatars (adapter/outbound/storage/minio/avatar_storage.go) and the gRPC
    lookup of public users (adapter/inbound/grpc/handler). *)

From S2P Require Import Prelude GoString GoError GoMonad GoTime SubmissionDomain AuthDomain AuthSessions.

(** ** Pagination *)

Record Pagination := mkPagination { Page : Z; Limit : Z; Total : Z; TotalPages : Z }.

(** [parseAdminUsersPagination] and [parsePublicUserSearchPagination]. *)
Definition parsePagination (defaultPage defaultLimit maxLimit : Z) (limitText : string)
    (pageValue limitValue : option Z) : error + (Z * Z) :=
  match (match pageValue with
         | None => inr defaultPage
         | Some p => if p <=? 0 then inl (NewAppError CodeBadRequest "page must be greater than zero" None) else inr p
         end) with
  | inl err => inl err
  | inr page =>
      match limitValue with
      | None => inr (page, defaultLimit)
      | Some l =>
          if (l <=? 0) || (maxLimit <? l) then inl (NewAppError CodeBadRequest limitText None) else inr (page, l)
      end
  end.

Definition parseAdminUsersPagination := parsePagination 1 20 100 "limit must be between 1 and 100".
Definition parsePublicUserSearchPagination := parsePagination 1 10 20 "limit must be between 1 and 20".

(** [(page - 1) * limit] and [int((total + limit - 1) / limit)] in 64 bits. *)
Definition page_offset (page limit : Z) : Z := wrap64 (wrap64 (page - 1) * limit).
Definition total_pages (total limit : Z) : Z :=
  if 0 <? total then Z.quot (wrap64 (wrap64 (total + limit) - 1)) limit else 0.

(** ** Responses *)

Record AdminUserResponse := mkAdminUser {
  AuID : string; AuFullName : string; AuUsername : string; AuEmail : string; AuRole : Role; AuRating : Z;
  AuIsActive : bool; AuIsSuspended : bool; AuAvatarURL : option string; AuBio : option string; AuCountry : option string;
  AuSchool : option string; AuCompany : option string; AuGithubURL : option string; AuWebsiteURL : option string;
  AuLinkedinURL : option string; AuCreatedAt : string; AuUpdatedAt : string }.

Definition toAdminUserResponse (u : User) : AdminUserResponse :=
  mkAdminUser u.(UID) u.(FullName) u.(UUsername) u.(Email) u.(URole) u.(Rating) u.(IsActive) u.(IsSuspended)
    u.(AvatarURL) u.(Bio) u.(Country) u.(School) u.(Company) u.(GithubURL) u.(WebsiteURL) u.(LinkedinURL)
    (rfc3339 u.(UCreatedAt)) (rfc3339 u.(UUpdatedAt)).

Record GetMeResponse := mkMe {
  MeID : string; MeFullName : string; MeUsername : string; MeEmail : string; MeRole : Role; MeRating : Z;
  MeIsActive : bool; MeAvatarURL : option string; MeBio : option string; MeCountry : option string;
  MeSchool : option string; MeCompany : option string; MeGithubURL : option string; MeWebsiteURL : option string;
  MeLinkedinURL : option string; MeCreatedAt : string; MeUpdatedAt : string }.

Definition toGetMeResponse (u : User) : GetMeResponse :=
  mkMe u.(UID) u.(FullName) u.(UUsername) u.(Email) u.(URole) u.(Rating) u.(IsActive) u.(AvatarURL) u.(Bio)
    u.(Country) u.(School) u.(Company) u.(GithubURL) u.(WebsiteURL) u.(LinkedinURL)
    (rfc3339 u.(UCreatedAt)) (rfc3339 u.(UUpdatedAt)).

Record GetProfileResponse := mkProfileResponse {
  PrFullName : string; PrUsername : string; PrRating : Z; PrAvatarURL : option string; PrBio : option string;
  PrCountry : option string; PrSchool : option string; PrCompany : option string; PrGithubURL : option string;
  PrWebsiteURL : option string; PrLinkedinURL : option string; PrCreatedAt : string }.

Definition toGetProfileResponse (u : User) : GetProfileResponse :=
  mkProfileResponse u.(FullName) u.(UUsername) u.(Rating) u.(AvatarURL) u.(Bio) u.(Country) u.(School) u.(Company)
    u.(GithubURL) u.(WebsiteURL) u.(LinkedinURL) (rfc3339 u.(UCreatedAt)).

Record PublicUserSearchItem := mkFound { SiUsername : string; SiFullName : string; SiAvatarURL : option string; SiRating : Z }.

Record UpdateProfileRequest := mkProfileRequest {
  UpFullName : option string; UpBio : option string; UpCountry : option string; UpSchool : option string;
  UpCompany : option string; UpGithubURL : option string; UpWebsiteURL : option string; UpLinkedinURL : option string }.

(** ** Validation of a profile *)

Definition RuneCount (s : string) : Z := Z.of_nat (length (runes (chars s))).

Definition validateOptionalText (raw : option string) (field : string) (maxLen : Z) : error + option string :=
  match raw with
  | None => inr None
  | Some raw =>
      let trimmed := TrimSpace raw in
      if maxLen <? RuneCount trimmed then inl (NewAppError CodeBadRequest (field +:+ " exceeds maximum length") None)
      else inr (Some trimmed)
  end.

(** [ParseRequestURI] is [net/url.ParseRequestURI], of which scheme and host are read. *)
Definition validateOptionalURL (ParseRequestURI : string -> option (string * string))
    (raw : option string) (field : string) (maxLen : Z) : error + option string :=
  match validateOptionalText raw field maxLen with
  | inl err => inl err
  | inr None => inr None
  | inr (Some value) =>
      if bool_decide (value = ""%string) then inr (Some value)
      else
        let bad := NewAppError CodeBadRequest (field +:+ " must be a valid URL") None in
        match ParseRequestURI value with
        | None => inl bad
        | Some (scheme, host) =>
            if (negb (bool_decide (scheme = "http"%string)) && negb (bool_decide (scheme = "https"%string)))
               || bool_decide (host = ""%string) then inl bad
            else inr (Some value)
        end
  end.

Definition validateProfileFields (ParseRequestURI : string -> option (string * string)) (req : UpdateProfileRequest)
  : error + (Time -> ProfileUpdates) :=
  let text := validateOptionalText in
  let url := validateOptionalURL ParseRequestURI in
  match text req.(UpFullName) "full_name" 100, text req.(UpBio) "bio" 500, text req.(UpCountry) "country" 100,
        text req.(UpSchool) "school" 255, text req.(UpCompany) "company" 255,
        url req.(UpGithubURL) "github_url" 500, url req.(UpWebsiteURL) "website_url" 500,
        url req.(UpLinkedinURL) "linkedin_url" 500 with
  | inl err, _, _, _, _, _, _, _ | inr _, inl err, _, _, _, _, _, _ | inr _, inr _, inl err, _, _, _, _, _
  | inr _, inr _, inr _, inl err, _, _, _, _ | inr _, inr _, inr _, inr _, inl err, _, _, _
  | inr _, inr _, inr _, inr _, inr _, inl err, _, _ | inr _, inr _, inr _, inr _, inr _, inr _, inl err, _
  | inr _, inr _, inr _, inr _, inr _, inr _, inr _, inl err => inl err
  | inr fullName, inr bio, inr country, inr school, inr company, inr github, inr website, inr linkedin =>
      inr (mkProfile fullName bio country school company github website linkedin)
  end.

(** [User.UpdateProfile], and the columns that [userRepository.UpdateProfile] writes. *)
Definition apply_profile (p : ProfileUpdates) (u : User) : User :=
  let or (new old : option string) := match new with Some _ => new | None => old end in
  mkUser u.(UID) (default u.(FullName) p.(PuFullName)) u.(UUsername) u.(Email) u.(Password) u.(URole) u.(Rating)
    u.(IsActive) u.(IsSuspended) u.(AvatarURL) u.(AvatarObjectKey) (or p.(PuBio) u.(Bio)) (or p.(PuCountry) u.(Country))
    (or p.(PuSchool) u.(School)) (or p.(PuCompany) u.(Company)) (or p.(PuGithubURL) u.(GithubURL))
    (or p.(PuWebsiteURL) u.(WebsiteURL)) (or p.(PuLinkedinURL) u.(LinkedinURL)) u.(UCreatedAt) p.(PuUpdatedAt).

(** ** Avatars *)

(** The multipart file of a request: its size, opening, the first 512 bytes
    ([io.EOF] is no error here) and rewinding; [upload] is the content. *)
Record FileHeader (W : Type) := mkFileHeader {
  FhSize : Z; FhOpen : M W unit; FhRead512 : M W bytes; FhSeek : M W unit; FhContent : bytes }.
Arguments FhSize {W}. Arguments FhOpen {W}. Arguments FhRead512 {W}. Arguments FhSeek {W}. Arguments FhContent {W}.

Record AvatarStorage (W : Type) := mkAvatarStorage {
  As_UploadAvatar : string -> string -> bytes -> Z -> M W (string * string);
  As_DeleteAvatar : string -> M W unit }.
Arguments As_UploadAvatar {W}. Arguments As_DeleteAvatar {W}.

Definition maxAvatarSize : Z := 2 * 1024 * 1024.

Definition isAllowedAvatarContentType (t : string) : bool :=
  bool_decide (t ∈ ["image/jpeg"; "image/png"; "image/webp"]%string).

Definition extensionForContentType (t : string) : string :=
  if bool_decide (t = "image/jpeg"%string) then ".jpg"
  else if bool_decide (t = "image/png"%string) then ".png"
  else if bool_decide (t = "image/webp"%string) then ".webp"
  else ".bin".

(** The MinIO client on one bucket. *)
Record minio (W : Type) := mkMinio { PutObject : string -> bytes -> Z -> string -> M W unit; RemoveObject : string -> M W unit }.
Arguments PutObject {W}. Arguments RemoveObject {W}.

Section avatar_storage.
Context {W : Type} (sv : AuthServices W) (client : minio W) (JoinPath : string -> string -> string -> option string)
  (publicURL bucket : string).

Definition avatar_UploadAvatar (userID contentType : string) (content : bytes) (size : Z) : M W (string * string) :=
  let* now := sv.(AuthNow) in
  let* id := sv.(NewUUID) in
  let objectKey := "users/" +:+ userID +:+ "/" +:+ Itoa (UnixMilli now) +:+ "-" +:+ id +:+ extensionForContentType contentType in
  on_error (EWrap "failed to upload avatar") (client.(PutObject) objectKey content size contentType) ;;
  let avatarURL := match JoinPath publicURL bucket objectKey with
                   | Some u => u
                   | None => publicURL +:+ "/" +:+ bucket +:+ "/" +:+ objectKey
                   end in
  ret (avatarURL, objectKey).

Definition avatar_DeleteAvatar (objectKey : string) : M W unit :=
  if bool_decide (objectKey = ""%string) then ret tt
  else on_error (EWrap "failed to delete avatar") (client.(RemoveObject) objectKey).

Definition avatar_storage : AvatarStorage W := mkAvatarStorage W avatar_UploadAvatar avatar_DeleteAvatar.
End avatar_storage.

(** ** The use cases *)

Section users.
Context {W : Type} (sv : AuthServices W) (users : UserRepository W).

(** [getMeUseCase.Execute] *)
Definition getMe (claims : Claims) : M W GetMeResponse :=
  let* user := on_error not_found_or_internal (users.(GetUserById) claims.(UserID)) in
  ret (toGetMeResponse user).

(** Only active users that are not suspended are visible to others. *)
Definition visible (u : User) : bool := u.(IsActive) && negb u.(IsSuspended).

(** [getProfileUseCase.Execute] *)
Definition getProfile (username : string) : M W GetProfileResponse :=
  let* user := on_error not_found_or_internal (users.(GetUserByUsername) username) in
  if negb user.(IsActive) || user.(IsSuspended) then fail ErrUserNotFound else ret (toGetProfileResponse user).

(** [resolvePublicUserUseCase.Execute] *)
Definition resolvePublicUser (reqUsername : string) : M W (string * string) :=
  let username := TrimSpace reqUsername in
  if bool_decide (username = ""%string) then fail ErrUserNotFound
  else
    let* user := on_error not_found_or_internal (users.(GetUserByUsername) username) in
    if negb user.(IsActive) || user.(IsSuspended) then fail ErrUserNotFound else ret (user.(UID), user.(UUsername)).

(** [ResolvePublicUserHandler.Handle]; [None] is the nil request. *)
Definition handleResolvePublicUser (reqUsername : option string) : M W (string * string) :=
  match reqUsername with
  | None => fail (EStatus code_InvalidArgument "username is required")
  | Some u =>
      if blank u then fail (EStatus code_InvalidArgument "username is required")
      else
        on_error (fun err =>
            if errors_Is err context_Canceled then EStatus 1 "request canceled"
            else if errors_Is err context_DeadlineExceeded then EStatus code_DeadlineExceeded "request deadline exceeded"
            else if errors_Is err ErrUserNotFound then EStatus code_NotFound "public user not found"
            else EStatus code_Internal "failed to resolve public user")
          (resolvePublicUser u)
  end.

(** [searchPublicUsersUseCase.Execute] *)
Definition searchPublicUsers (reqQuery : string) (pageValue limitValue : option Z)
  : M W (list PublicUserSearchItem * Pagination) :=
  match parsePublicUserSearchPagination pageValue limitValue with
  | inl err => fail err
  | inr (page, limit) =>
      let query := TrimSpace reqQuery in
      if bool_decide (query = ""%string) then ret ([], mkPagination page limit 0 0)
      else if 100 <? RuneCount query
      then fail (NewAppError CodeBadRequest "search query must be at most 100 characters" None)
      else
        let* result := on_error internal (users.(SearchPublicUsers) (mkPublicFilter query limit (page_offset page limit))) in
        ret (map (fun u => mkFound u.(UUsername) u.(FullName) u.(AvatarURL) u.(Rating))
               (filter (fun u => visible u = true) result.(UrItems)),
             mkPagination page limit result.(UrTotal) (total_pages result.(UrTotal) limit))
  end.

(** [updateProfileUseCase.Execute] *)
Definition updateProfile (ParseRequestURI : string -> option (string * string)) (claims : Claims)
    (req : UpdateProfileRequest) : M W GetMeResponse :=
  let* user := on_error not_found_or_internal (users.(GetUserById) claims.(UserID)) in
  match validateProfileFields ParseRequestURI req with
  | inl err => fail err
  | inr updates =>
      let* now := sv.(AuthNow) in
      on_error internal (users.(UpdateProfile) user.(UID) (updates now)) ;;
      ret (toGetMeResponse (apply_profile (updates now) user))
  end.

(** [uploadAvatarUseCase.Execute]; [DetectContentType] is the function of net/http. *)
Definition uploadAvatar (DetectContentType : bytes -> string) (storage : AvatarStorage W) (claims : Claims)
    (avatar : option (FileHeader W)) : M W string :=
  match avatar with
  | None => fail (NewAppError CodeBadRequest "avatar file is required" None)
  | Some avatar =>
      if avatar.(FhSize) <=? 0 then fail (NewAppError CodeBadRequest "avatar file must not be empty" None)
      else if maxAvatarSize <? avatar.(FhSize)
      then fail (NewAppError CodeBadRequest "avatar file size must not exceed 2MB" None)
      else
        on_error internal avatar.(FhOpen) ;;
        let* header := on_error internal avatar.(FhRead512) in
        let contentType := DetectContentType header in
        if negb (isAllowedAvatarContentType contentType)
        then fail (NewAppError CodeBadRequest "avatar must be a jpeg, png, or webp image" None)
        else
          on_error internal avatar.(FhSeek) ;;
          let* user := on_error not_found_or_internal (users.(GetUserById) claims.(UserID)) in
          let oldAvatarObjectKey :=
            match user.(AvatarObjectKey) with
            | Some k => if bool_decide (k = ""%string) then None else Some k
            | None => None
            end in
          let* (avatarURL, objectKey) := on_error internal
              (storage.(As_UploadAvatar) user.(UID) contentType avatar.(FhContent) avatar.(FhSize)) in
          let* now := sv.(AuthNow) in
          let* updated := try (users.(UpdateAvatar) user.(UID) avatarURL objectKey now) in
          match updated with
          | inl err =>
              let* _ := try (storage.(As_DeleteAvatar) objectKey) in
              fail (internal err)
          | inr _ =>
              match oldAvatarObjectKey with
              | None => ret tt
              | Some old => let* _ := try (storage.(As_DeleteAvatar) old) in ret tt
              end ;;
              ret avatarURL
          end
  end.

(** ** Administration *)

(** [parseAdminUserRole] *)
Definition parseAdminUserRole (value : string) : error + option Role :=
  let value := TrimSpace value in
  if bool_decide (value = ""%string) then inr None
  else match ParseRole value with
       | None => inl (NewAppError CodeBadRequest "invalid role filter" None)
       | Some role => inr (Some role)
       end.

(** [parseAdminUserStatus]: the filters on activity and suspension. *)
Definition parseAdminUserStatus (value : string) : error + (option bool * option bool) :=
  let value := TrimSpace value in
  if bool_decide (value = ""%string) then inr (None, None)
  else if bool_decide (value = "active"%string) then inr (Some true, Some false)
  else if bool_decide (value = "unverified"%string) then inr (Some false, Some false)
  else if bool_decide (value = "suspended"%string) then inr (None, Some true)
  else inl (NewAppError CodeBadRequest "invalid status filter" None).

(** [adminUsersUseCase.List] *)
Definition adminListUsers (claims : Claims) (pageValue limitValue : option Z) (role status search : string)
  : M W (list AdminUserResponse * Pagination) :=
  if negb (AtLeast claims.(ClaimRole) RoleAdmin) then fail ErrForbidden
  else
    match parseAdminUsersPagination pageValue limitValue with
    | inl err => fail err
    | inr (page, limit) =>
        match parseAdminUserRole role, parseAdminUserStatus status with
        | inl err, _ | inr _, inl err => fail err
        | inr role, inr (isActive, isSuspended) =>
            let* result := on_error internal (users.(ListUsers)
                (mkUsersFilter (TrimSpace search) role isActive isSuspended limit (page_offset page limit))) in
            ret (map toAdminUserResponse result.(UrItems),
                 mkPagination page limit result.(UrTotal) (total_pages result.(UrTotal) limit))
        end
    end.

(** [adminUsersUseCase.Get] *)
Definition adminGetUser (uuid_Parse : string -> bool) (claims : Claims) (userID : string) : M W AdminUserResponse :=
  if negb (AtLeast claims.(ClaimRole) RoleAdmin) then fail ErrForbidden
  else
    match validateAdminUserID uuid_Parse userID with
    | Some err => fail err
    | None =>
        let* user := on_error not_found_or_internal (users.(GetUserById) userID) in
        ret (toAdminUserResponse user)
    end.
End users.
