(* ===== verification/PgUsers.v ===== *)
(** The user repository of the auth service
    (services/auth/internal/adapter/outbound/persistence/postgres/user.go) over
    the table [users].  GORM and PostgreSQL are a parameter, [TableOps] of
    PgStore.v and the paged queries [PageOps]; [UsersLaws] is their documented
    behaviour.

    At the end: the pages of the administrative listing of users. *)

From S2P Require Import Prelude GoString GoError GoMonad SubmissionDomain PgStore Patterns AuthDomain AuthUsers AuthSessions.

(** [gorm.ErrDuplicatedKey] *)
Definition gorm_ErrDuplicatedKey : error := ESentinel "duplicated key not allowed".

(** [query.Count] and [query.Order(..).Offset(o).Limit(n).Find]; GORM leaves an
    offset that is not positive out of the statement. *)
Record PageOps (W R : Type) := {
  p_count : (R -> bool) -> M W Z;
  p_find : (R -> bool) -> (R -> R -> bool) -> Z -> Z -> M W (list R);
}.
Arguments p_count {W R}. Arguments p_find {W R}.

Module UserDAO.
Record t := mk {
  ID : string; FullName : string; Username : string; Email : string; Password : string; Role : string;
  Rating : Z; IsActive : bool; IsSuspended : bool; AvatarURL : option string; AvatarObjectKey : option string;
  Bio : option string; Country : option string; School : option string; Company : option string;
  GithubURL : option string; WebsiteURL : option string; LinkedinURL : option string;
  CreatedAt : Time; UpdatedAt : Time;
}.
End UserDAO.

Definition toUserDAO (u : User) : UserDAO.t :=
  UserDAO.mk u.(UID) u.(FullName) u.(UUsername) u.(Email) u.(Password) u.(URole) u.(Rating) u.(IsActive) u.(IsSuspended)
    u.(AvatarURL) u.(AvatarObjectKey) u.(Bio) u.(Country) u.(School) u.(Company) u.(GithubURL) u.(WebsiteURL)
    u.(LinkedinURL) u.(UCreatedAt) u.(UUpdatedAt).

Definition toUserEntity (d : UserDAO.t) : User :=
  mkUser d.(UserDAO.ID) d.(UserDAO.FullName) d.(UserDAO.Username) d.(UserDAO.Email) d.(UserDAO.Password)
    d.(UserDAO.Role) d.(UserDAO.Rating) d.(UserDAO.IsActive) d.(UserDAO.IsSuspended) d.(UserDAO.AvatarURL)
    d.(UserDAO.AvatarObjectKey) d.(UserDAO.Bio) d.(UserDAO.Country) d.(UserDAO.School) d.(UserDAO.Company)
    d.(UserDAO.GithubURL) d.(UserDAO.WebsiteURL) d.(UserDAO.LinkedinURL) d.(UserDAO.CreatedAt) d.(UserDAO.UpdatedAt).

Lemma toUserEntity_DAO u : toUserEntity (toUserDAO u) = u.
Proof. by destruct u. Qed.
Lemma toUserDAO_entity d : toUserDAO (toUserEntity d) = d.
Proof. by destruct d. Qed.

(** ** The repository *)

Section repository.
Context {W : Type} (tu : TableOps W UserDAO.t) (pu : PageOps W UserDAO.t)
  (ILIKE : string -> string -> bool) (before : Time -> Time -> bool) (text_before : string -> string -> bool).

Definition by_id (id : string) (d : UserDAO.t) : bool := bool_decide (d.(UserDAO.ID) = id).

Definition pg_CreateUser (user : User) : M W unit :=
  let* _ := on_error (fun err => if errors_Is err gorm_ErrDuplicatedKey then ErrDuplicateEntry else err)
      (t_create tu (toUserDAO user)) in
  ret tt.

Definition pg_DeleteUser (id : string) : M W unit := t_delete tu (by_id id).

Definition pg_first (p : UserDAO.t -> bool) : M W User :=
  let* dao := on_error (fun err => if errors_Is err gorm_ErrRecordNotFound then ErrUserNotFound else err) (t_first tu p) in
  ret (toUserEntity dao).

Definition pg_GetUserByEmail (email : string) : M W User := pg_first (fun d => bool_decide (d.(UserDAO.Email) = email)).
Definition pg_GetUserByUsername (username : string) : M W User :=
  pg_first (fun d => bool_decide (d.(UserDAO.Username) = username)).
Definition pg_GetUserById (id : string) : M W User := pg_first (by_id id).

Definition filter_is {A} `{EqDecision A} (f : option A) (x : A) : bool :=
  match f with None => true | Some v => bool_decide (x = v) end.

Definition list_query (f : ListUsersFilter) (d : UserDAO.t) : bool :=
  let search := TrimSpace f.(UfSearch) in
  (bool_decide (search = ""%string)
   || (let pattern := search_pattern search in
       ILIKE pattern d.(UserDAO.Username) || ILIKE pattern d.(UserDAO.Email) || ILIKE pattern d.(UserDAO.FullName)))
  && filter_is f.(UfRole) d.(UserDAO.Role)
  && filter_is f.(UfIsActive) d.(UserDAO.IsActive)
  && filter_is f.(UfIsSuspended) d.(UserDAO.IsSuspended).

Definition pg_ListUsers (f : ListUsersFilter) : M W ListUsersResult :=
  let* total := p_count pu (list_query f) in
  let* daos := p_find pu (list_query f)
      (fun a b => before b.(UserDAO.CreatedAt) a.(UserDAO.CreatedAt)
                  || ((a.(UserDAO.CreatedAt) =? b.(UserDAO.CreatedAt)) && text_before b.(UserDAO.ID) a.(UserDAO.ID)))
      f.(UfOffset) f.(UfLimit) in
  ret (mkUsersResult (map toUserEntity daos) total).

Definition public_query (f : SearchPublicUsersFilter) (d : UserDAO.t) : bool :=
  let pattern := search_pattern (TrimSpace f.(PfQuery)) in
  d.(UserDAO.IsActive) && negb d.(UserDAO.IsSuspended)
  && (ILIKE pattern d.(UserDAO.Username) || ILIKE pattern d.(UserDAO.FullName)).

Definition pg_SearchPublicUsers (f : SearchPublicUsersFilter) : M W ListUsersResult :=
  let* total := p_count pu (public_query f) in
  let* daos := p_find pu (public_query f)
      (fun a b => text_before a.(UserDAO.Username) b.(UserDAO.Username)
                  || (bool_decide (a.(UserDAO.Username) = b.(UserDAO.Username)) && text_before a.(UserDAO.ID) b.(UserDAO.ID)))
      f.(PfOffset) f.(PfLimit) in
  ret (mkUsersResult (map toUserEntity daos) total).

(** The columns that [UpdateUser] writes: all but the key and the creation time. *)
Definition updated_user (new old : UserDAO.t) : UserDAO.t :=
  UserDAO.mk old.(UserDAO.ID) new.(UserDAO.FullName) new.(UserDAO.Username) new.(UserDAO.Email) new.(UserDAO.Password)
    new.(UserDAO.Role) new.(UserDAO.Rating) new.(UserDAO.IsActive) new.(UserDAO.IsSuspended) new.(UserDAO.AvatarURL)
    new.(UserDAO.AvatarObjectKey) new.(UserDAO.Bio) new.(UserDAO.Country) new.(UserDAO.School) new.(UserDAO.Company)
    new.(UserDAO.GithubURL) new.(UserDAO.WebsiteURL) new.(UserDAO.LinkedinURL) old.(UserDAO.CreatedAt) new.(UserDAO.UpdatedAt).

Definition updates (p : UserDAO.t -> bool) (f : UserDAO.t -> UserDAO.t) : M W unit :=
  let* _ := t_updates tu p f in ret tt.

Definition pg_UpdateUser (user : User) : M W unit := updates (by_id user.(UID)) (updated_user (toUserDAO user)).

Definition pg_UpdatePassword (userID passwordHash : string) (updatedAt : Time) : M W unit :=
  updates (by_id userID) (fun d => toUserDAO (set_Password passwordHash updatedAt (toUserEntity d))).

Definition pg_UpdateProfile (userID : string) (p : ProfileUpdates) : M W unit :=
  updates (by_id userID) (fun d => toUserDAO (apply_profile p (toUserEntity d))).

Definition pg_UpdateAvatar (userID avatarURL avatarObjectKey : string) (updatedAt : Time) : M W unit :=
  updates (by_id userID) (fun d => toUserDAO (UploadAvatar avatarURL avatarObjectKey updatedAt (toUserEntity d))).

Definition pg_users : UserRepository W :=
  {| CreateUser := pg_CreateUser; GetUserByEmail := pg_GetUserByEmail; GetUserByUsername := pg_GetUserByUsername;
     GetUserById := pg_GetUserById; ListUsers := pg_ListUsers; SearchPublicUsers := pg_SearchPublicUsers;
     UpdateUser := pg_UpdateUser; UpdatePassword := pg_UpdatePassword; UpdateProfile := pg_UpdateProfile;
     UpdateAvatar := pg_UpdateAvatar; DeleteUser := pg_DeleteUser |}.
End repository.

(** ** Contract of the repository

    [accounts w] is the table by primary key.  An update that reports an error
    has changed nothing. *)
Definition overwrite (new old : User) : User :=
  toUserEntity (updated_user (toUserDAO new) (toUserDAO old)).

Class UserLaws {W : Type} (users : UserRepository W) (accounts : W -> gmap string User) := {
  ul_key : forall w id u, accounts w !! id = Some u -> u.(UID) = id;
  ul_create : forall u w r w', users.(CreateUser) u w = (r, w') ->
    match r with
    | inr _ => accounts w !! u.(UID) = None
        /\ (forall id v, accounts w !! id = Some v -> v.(UUsername) <> u.(UUsername) /\ v.(Email) <> u.(Email))
        /\ accounts w' = <[u.(UID) := u]> (accounts w)
    | inl _ => accounts w' = accounts w
    end;
  ul_delete : forall id w r w', users.(DeleteUser) id w = (r, w') ->
    match r with inr _ => accounts w' = delete id (accounts w) | inl _ => accounts w' = accounts w end;
  ul_by_id : forall id w u w', users.(GetUserById) id w = (inr u, w') -> accounts w !! id = Some u;
  ul_by_email : forall e w u w', users.(GetUserByEmail) e w = (inr u, w') -> exists id, accounts w !! id = Some u /\ u.(Email) = e;
  ul_by_username : forall n w u w', users.(GetUserByUsername) n w = (inr u, w') ->
    exists id, accounts w !! id = Some u /\ u.(UUsername) = n;
  ul_reads : (forall id, keeps accounts (users.(GetUserById) id)) /\ (forall e, keeps accounts (users.(GetUserByEmail) e))
    /\ (forall n, keeps accounts (users.(GetUserByUsername) n))
    /\ (forall f, keeps accounts (users.(ListUsers) f)) /\ (forall f, keeps accounts (users.(SearchPublicUsers) f));
  ul_update : forall u w r w', users.(UpdateUser) u w = (r, w') ->
    match r with inr _ => accounts w' = alter (overwrite u) u.(UID) (accounts w) | inl _ => accounts w' = accounts w end;
  ul_password : forall id h t w r w', users.(UpdatePassword) id h t w = (r, w') ->
    match r with inr _ => accounts w' = alter (set_Password h t) id (accounts w) | inl _ => accounts w' = accounts w end;
  ul_profile : forall id p w r w', users.(UpdateProfile) id p w = (r, w') ->
    match r with inr _ => accounts w' = alter (apply_profile p) id (accounts w) | inl _ => accounts w' = accounts w end;
  ul_avatar : forall id url k t w r w', users.(UpdateAvatar) id url k t w = (r, w') ->
    match r with inr _ => accounts w' = alter (UploadAvatar url k t) id (accounts w) | inl _ => accounts w' = accounts w end;
}.

(** ** GORM on the table of users *)

Class UserTableLaws {W} (tu : TableOps W UserDAO.t) (pu : PageOps W UserDAO.t) (rows : W -> gmap string UserDAO.t) := {
  ut_key : forall w id d, rows w !! id = Some d -> d.(UserDAO.ID) = id;
  ut_create : forall d w r w', t_create tu d w = (r, w') ->
    match r with
    | inr _ => rows w !! d.(UserDAO.ID) = None
        /\ (forall id d', rows w !! id = Some d' -> d'.(UserDAO.Username) <> d.(UserDAO.Username) /\ d'.(UserDAO.Email) <> d.(UserDAO.Email))
        /\ rows w' = <[d.(UserDAO.ID) := d]> (rows w)
    | inl _ => rows w' = rows w
    end;
  ut_first : forall p w r w', t_first tu p w = (r, w') -> rows w' = rows w
    /\ match r with inr d => p d = true /\ exists id, rows w !! id = Some d | inl _ => True end;
  ut_updates : forall p f w r w', t_updates tu p f w = (r, w') -> (forall d, (f d).(UserDAO.ID) = d.(UserDAO.ID)) ->
    match r with inr _ => rows w' = (fun d => if p d then f d else d) <$> rows w | inl _ => rows w' = rows w end;
  ut_delete : forall p w r w', t_delete tu p w = (r, w') ->
    match r with inr _ => rows w' = filter (fun q => p q.2 = false) (rows w) | inl _ => rows w' = rows w end;
  ut_pages : (forall p, keeps rows (p_count pu p)) /\ (forall p o i n, keeps rows (p_find pu p o i n));
}.

Section contract.
Context {W : Type} (tu : TableOps W UserDAO.t) (pu : PageOps W UserDAO.t) (ILIKE : string -> string -> bool)
  (before : Time -> Time -> bool) (text_before : string -> string -> bool)
  (rows : W -> gmap string UserDAO.t) {TL : UserTableLaws tu pu rows}.

Definition accounts_of (w : W) : gmap string User := toUserEntity <$> rows w.

Lemma accounts_lookup w id u : accounts_of w !! id = Some u <-> rows w !! id = Some (toUserDAO u).
Proof.
  unfold accounts_of. rewrite lookup_fmap, fmap_Some. split.
  - intros (d & H & ->). by rewrite toUserDAO_entity.
  - intros H. exists (toUserDAO u). by rewrite toUserEntity_DAO.
Qed.

Lemma first_run p w r w' : pg_first tu p w = (r, w') ->
  rows w' = rows w /\ match r with inr u => p (toUserDAO u) = true /\ exists id, accounts_of w !! id = Some u | inl _ => True end.
Proof.
  unfold pg_first, bind, on_error. destruct (t_first tu p w) as [[e|d] w1] eqn:E; intros [= <- <-];
    apply ut_first in E as (H & E); split; try done.
  destruct E as (E & id & Hd). rewrite toUserDAO_entity. split; [done|].
  exists id. apply accounts_lookup. by rewrite toUserDAO_entity.
Qed.

(** Updating one row through an entity function. *)
Lemma updates_run id (f : User -> User) (g : UserDAO.t -> UserDAO.t) w r w' :
  (forall d, g d = toUserDAO (f (toUserEntity d))) -> (forall u, (f u).(UID) = u.(UID)) ->
  updates tu (by_id id) g w = (r, w') ->
  match r with inr _ => accounts_of w' = alter f id (accounts_of w) | inl _ => accounts_of w' = accounts_of w end.
Proof.
  intros Hg Hf. unfold updates, bind. destruct (t_updates tu (by_id id) g w) as [[e|n] w1] eqn:E; intros [= <- <-];
    apply ut_updates in E.
  2, 4: intros d; rewrite Hg; apply (Hf (toUserEntity d)).
  - unfold accounts_of. by rewrite E.
  - apply map_eq. intros i. unfold accounts_of. rewrite E, !lookup_fmap.
    destruct (decide (i = id)) as [->|Hne].
    + rewrite lookup_alter_eq, lookup_fmap. destruct (rows w !! id) as [d|] eqn:Hd; [|done]. cbn.
      unfold by_id. rewrite (ut_key _ _ _ Hd), bool_decide_true by done. by rewrite Hg, toUserEntity_DAO.
    + rewrite lookup_alter_ne, lookup_fmap by done. destruct (rows w !! i) as [d|] eqn:Hd; [|done]. cbn.
      unfold by_id. by rewrite (ut_key _ _ _ Hd), bool_decide_false by done.
Qed.

#[local] Notation repo := (pg_users tu pu ILIKE before text_before).

(** The repository meets its contract. *)
#[export] Instance pg_UserLaws : UserLaws repo accounts_of.
Proof.
  constructor; cbn.
  - intros w id u H%accounts_lookup. by apply (ut_key _ _ _ H).
  - intros u w r w'. unfold pg_CreateUser, bind, on_error.
    destruct (t_create tu (toUserDAO u) w) as [[e|d] w1] eqn:E; intros [= <- <-]; apply ut_create in E.
    + unfold accounts_of. by rewrite E.
    + destruct E as (E1 & E2 & E3). cbn in E1, E3. split; [|split].
      * unfold accounts_of. by rewrite lookup_fmap, E1.
      * intros id v Hv%accounts_lookup. by apply (E2 id (toUserDAO v)).
      * unfold accounts_of. rewrite E3, fmap_insert. by rewrite toUserEntity_DAO.
  - intros id w r w' E. unfold pg_DeleteUser in E. apply ut_delete in E. destruct r; unfold accounts_of; rewrite E; [done|].
    apply map_eq. intros i. rewrite lookup_fmap. destruct (decide (i = id)) as [->|Hne].
    + rewrite lookup_delete_eq. apply fmap_None, map_lookup_filter_None. right. intros d Hd. cbn. unfold by_id.
      by rewrite (ut_key _ _ _ Hd), bool_decide_true.
    + rewrite lookup_delete_ne, lookup_fmap by done. f_equal. rewrite map_lookup_filter.
      destruct (rows w !! i) as [d|] eqn:Hd; [|done]. cbn. unfold by_id.
      rewrite (ut_key _ _ _ Hd), bool_decide_false by done. done.
  - intros id w u w' E. apply first_run in E as (_ & E & id' & Hu). unfold by_id in E. bools. cbn in E.
    assert (id' = id) as ->; [|done]. apply accounts_lookup in Hu as Hk. apply ut_key in Hk. cbn in Hk. congruence.
  - intros e w u w' E. apply first_run in E as (_ & E & id & Hu). bools. eauto.
  - intros n w u w' E. apply first_run in E as (_ & E & id & Hu). bools. eauto.
  - assert (forall p, keeps accounts_of (pg_first tu p)) as K.
    { intros p w r w' E. apply first_run in E as [E _]. unfold accounts_of. by rewrite E. }
    destruct ut_pages as [C F].
    assert (forall A (m : M W A), keeps rows m -> keeps accounts_of m) as KK.
    { intros A m Hm w r w' E. unfold accounts_of. by rewrite (Hm _ _ _ E). }
    split_ands; try (intros; apply K); intros f; apply KK; unfold pg_ListUsers, pg_SearchPublicUsers;
      repeat (apply keeps_bind; [by auto|intros ?]); apply keeps_ret.
  - intros u w r w' E. eapply updates_run in E; [exact E| |]; [intros d; unfold overwrite; by rewrite toUserDAO_entity|done].
  - intros id h t w r w' E. by eapply updates_run in E.
  - intros id p w r w' E. by eapply updates_run in E.
  - intros id url k t w r w' E. by eapply updates_run in E.
Qed.
End contract.

(** The pages of the administrative listing of users fit together: they are the
    whole ordered result, cut into pieces. *)

(** ** Paged queries *)

(** [ordered p before m] is the arrangement of the rows of [m] that satisfy [p]
    in which ORDER BY lists them, the same for every query of the same table;
    GORM leaves an offset that is not positive out of the statement. *)
Class PageLaws {W R : Type} (pu : PageOps W R) (rows : W -> gmap string R)
    (ordered : (R -> bool) -> (R -> R -> bool) -> gmap string R -> list R) := {
  pl_rows : forall p before m, ordered p before m ≡ₚ filter (fun r => p r = true) (map snd (map_to_list m));
  pl_count : forall p w n w', p_count pu p w = (inr n, w') -> n = Z.of_nat (length (filter (fun r => p r = true) (map snd (map_to_list (rows w))))) /\ rows w' = rows w;
  pl_find : forall p before offset limit w l w', p_find pu p before offset limit w = (inr l, w') ->
    l = take (Z.to_nat limit) (drop (Z.to_nat offset) (ordered p before (rows w))) /\ rows w' = rows w;
}.

(** ** Cutting a list *)

Section cutting.
Context {A : Type} (limit : Z) (L : list A).

Definition piece (k : Z) : list A := take (Z.to_nat limit) (drop (Z.to_nat ((k - 1) * limit)) L).

Lemma pieces_prefix n : 0 < limit -> concat (map piece (map Z.of_nat (seq 1 n))) = take (n * Z.to_nat limit) L.
Proof.
  intros HL. induction n as [|n IH]; [done|].
  rewrite seq_S, !map_app, concat_app, IH. cbn [map concat]. rewrite app_nil_r. unfold piece.
  replace (Z.to_nat ((Z.of_nat (1 + n) - 1) * limit)) with (n * Z.to_nat limit)%nat by nia.
  replace (S n * Z.to_nat limit)%nat with (n * Z.to_nat limit + Z.to_nat limit)%nat by lia.
  by rewrite take_take_drop.
Qed.

(** The number of pages suffices, and is the least that does. *)
Lemma total_pages_spec total : 0 < limit <= 2 ^ 62 -> 0 <= total < 2 ^ 62 ->
  let n := total_pages total limit in 0 <= n /\ total <= n * limit /\ (0 < n -> (n - 1) * limit < total).
Proof.
  intros HL HT. unfold total_pages. cbv zeta. destruct (Z.ltb_spec 0 total); [|assert (total = 0) as -> by lia; lia].
  rewrite !wrap64_id; [| |rewrite wrap64_id]; try (unfold in_int64, int64_min, int64_max; lia).
  rewrite Z.quot_div_nonneg by lia. pose proof (Z.div_mod (total + limit - 1) limit). pose proof (Z.mod_pos_bound (total + limit - 1) limit).
  set (q := (total + limit - 1) / limit) in *. nia.
Qed.

Lemma page_offset_exact k : 1 <= k <= 2 ^ 62 -> 0 <= (k - 1) * limit < 2 ^ 62 -> page_offset k limit = (k - 1) * limit.
Proof.
  intros HK HO. unfold page_offset. rewrite (wrap64_id (k - 1)) by (unfold in_int64, int64_min, int64_max; lia).
  apply wrap64_id. unfold in_int64, int64_min, int64_max; lia.
Qed.
End cutting.

(** ** The listing *)

Section listing.
Context {W : Type} (tu : TableOps W UserDAO.t) (pu : PageOps W UserDAO.t) (ILIKE : string -> string -> bool)
  (before : Time -> Time -> bool) (text_before : string -> string -> bool)
  (rows : W -> gmap string UserDAO.t) (ordered : (UserDAO.t -> bool) -> (UserDAO.t -> UserDAO.t -> bool) -> gmap string UserDAO.t -> list UserDAO.t)
  {PL : PageLaws pu rows ordered}.

(** The order of the listing: newest first, equal times by key. *)
Definition newest (a b : UserDAO.t) : bool :=
  before b.(UserDAO.CreatedAt) a.(UserDAO.CreatedAt)
  || ((a.(UserDAO.CreatedAt) =? b.(UserDAO.CreatedAt)) && text_before b.(UserDAO.ID) a.(UserDAO.ID)).

(** Everything that a listing with these filters shows. *)
Definition whole_listing (f : ListUsersFilter) (m : gmap string UserDAO.t) : list AdminUserResponse :=
  map (fun d => toAdminUserResponse (toUserEntity d)) (ordered (list_query ILIKE f) newest m).

(** The filters of a request; limit and offset do not matter for them. *)
Definition request_filter (search role status : string) (limit offset : Z) : error + ListUsersFilter :=
  match parseAdminUserRole role, parseAdminUserStatus status with
  | inl err, _ | inr _, inl err => inl err
  | inr role, inr (isActive, isSuspended) => inr (mkUsersFilter (TrimSpace search) role isActive isSuspended limit offset)
  end.

Lemma list_query_page search role active suspended l o l' o' d :
  list_query ILIKE (mkUsersFilter search role active suspended l o) d = list_query ILIKE (mkUsersFilter search role active suspended l' o') d.
Proof. reflexivity. Qed.

(** One page of the listing. *)
Lemma one_page claims k limit role status search w items pg w' : 1 <= k ->
  (k - 1) * limit < 2 ^ 62 -> k <= 2 ^ 62 ->
  adminListUsers (pg_users tu pu ILIKE before text_before) claims (Some k) (Some limit) role status search w = (inr (items, pg), w') ->
  exists f, request_filter search role status 0 0 = inr f /\ 1 <= limit <= 100 /\ rows w' = rows w
    /\ items = piece limit (whole_listing f (rows w)) k
    /\ pg = mkPagination k limit (Z.of_nat (length (whole_listing f (rows w)))) (total_pages (Z.of_nat (length (whole_listing f (rows w)))) limit).
Proof.
  intros HK HO HK2. unfold adminListUsers, request_filter. destruct (negb _); [discriminate|].
  unfold parseAdminUsersPagination, parsePagination. rewrite (proj2 (Z.leb_gt k 0)) by lia.
  destruct (Z.leb_spec limit 0); [discriminate|]. destruct (Z.ltb_spec 100 limit); cbn [orb]; [discriminate|].
  destruct (parseAdminUserRole role) as [e|r]; [discriminate|]. destruct (parseAdminUserStatus status) as [e|[act sus]]; [discriminate|].
  intros E. apply bind_inr_inv in E as (res & w1 & E1 & [= <- <- <-]). apply on_error_inr in E1. cbn in E1. unfold pg_ListUsers in E1.
  apply bind_inr_inv in E1 as (n & w2 & E2 & E1). apply bind_inr_inv in E1 as (daos & w3 & E3 & [= <- <-]).
  apply pl_count in E2 as [-> R2]. apply pl_find in E3 as [-> R3]. cbn [UrItems UrTotal].
  eexists. split; [done|]. split; [lia|]. split; [congruence|]. rewrite R2.
  set (f := mkUsersFilter (TrimSpace search) r act sus 0 0).
  assert (forall m, length (filter (fun d => list_query ILIKE f d = true) (map snd (map_to_list m))) = length (whole_listing f m)) as HN.
  { intros m. unfold whole_listing. by rewrite length_map, (Permutation_length (pl_rows _ _ _)). }
  assert (0 <= (k - 1) * limit) as HO1 by nia. rewrite page_offset_exact by lia. split.
  - unfold piece, whole_listing. change (list_query ILIKE _) with (list_query ILIKE f). by rewrite skipn_map, firstn_map, map_map.
  - change (list_query ILIKE _) with (list_query ILIKE f). by rewrite HN.
Qed.
End listing.
