(* ===== verification/AuthWorld.v ===== *)
(** The auth service at work: the documented behaviour of its clock, random
    source, mail server, JWT library, database and Redis ([AuthLaws]), and what
    its calls can do to the session cutoff of a user. *)

From S2P Require Import Prelude GoString GoError GoMonad GoCrypto SubmissionDomain Redis AuthDomain AuthRedis AuthSessions AuthAccounts AuthUsers PgUsers.

(** Everything the service talks to. *)
Record auth_platform (S W : Type) := {
  ap_sv : AuthServices W;
  ap_rdb : client S W;
  ap_users : UserRepository W;
  ap_enc : PasswordEncoder W;
  ap_mail : MailProvider W;
  ap_rand : Z -> M W bytes;
  ap_minio : minio W;
  ap_lib : jwt_library;
  ap_cfg : JWTConfig;
  ap_policy : AuthAbuseConfig;
  ap_lower : bytes -> bytes;
  ap_ParseAddress : string -> option string;
  ap_uuid_Parse : string -> bool;
  ap_ParseFloat : string -> option Z;
  ap_ParseRequestURI : string -> option (string * string);
  ap_DetectContentType : bytes -> string;
  ap_JoinPath : string -> string -> string -> option string;
  ap_publicURL : string;
  ap_bucket : string;
}.
Arguments ap_sv {S W}. Arguments ap_rdb {S W}. Arguments ap_users {S W}. Arguments ap_enc {S W}. Arguments ap_mail {S W}.
Arguments ap_rand {S W}. Arguments ap_minio {S W}. Arguments ap_lib {S W}. Arguments ap_cfg {S W}. Arguments ap_policy {S W}.
Arguments ap_lower {S W}. Arguments ap_ParseAddress {S W}. Arguments ap_uuid_Parse {S W}. Arguments ap_ParseFloat {S W}.
Arguments ap_ParseRequestURI {S W}. Arguments ap_DetectContentType {S W}. Arguments ap_JoinPath {S W}.
Arguments ap_publicURL {S W}. Arguments ap_bucket {S W}.

Section world.
Context {S W : Type} `{Redis S} (p : auth_platform S W) (server : W -> S) (accounts : W -> gmap string User) (time : W -> Time).

(** Time passes on one clock, in nanoseconds; the database and the key space of
    Redis do not change. *)
Definition idle (w w' : W) : Prop :=
  raw (server w') = raw (server w) /\ accounts w' = accounts w /\ time w <= time w'.

(** Only the database may change. *)
Definition off_redis (w w' : W) : Prop := raw (server w') = raw (server w) /\ time w <= time w'.
(** Only Redis may change. *)
Definition off_db (w w' : W) : Prop := accounts w' = accounts w /\ time w <= time w'.

#[export] Instance idle_preorder : PreOrder idle.
Proof. split; [intros w; unfold idle; split_ands; done || lia|]. intros w1 w2 w3 (?&?&?) (?&?&?). unfold idle. split_ands; congruence || lia. Qed.
#[export] Instance off_redis_preorder : PreOrder off_redis.
Proof. split; [intros w; unfold off_redis; split_ands; done || lia|]. intros w1 w2 w3 (?&?) (?&?). unfold off_redis. split_ands; congruence || lia. Qed.
#[export] Instance off_db_preorder : PreOrder off_db.
Proof. split; [intros w; unfold off_db; split_ands; done || lia|]. intros w1 w2 w3 (?&?) (?&?). unfold off_db. split_ands; congruence || lia. Qed.

(** The documented behaviour of the platform.  Redis and the services share one
    clock; a timer that has fired took its time; a token parses only before it
    expires; the lifetime of refresh tokens is a positive number of milliseconds
    and at least the one of access tokens. *)
Class AuthLaws := {
  al_redis : RedisLaws S;
  al_client : ClientLaws p.(ap_rdb) server;
  al_users : UserLaws p.(ap_users) accounts;
  al_clock : forall w, clock (server w) = UnixMilli (time w);
  al_epoch : forall w, (unix_epoch + 1) * Second <= time w;
  al_now : forall w r w', p.(ap_sv).(AuthNow) w = (r, w') ->
    idle w w' /\ exists t, r = inr t /\ time w <= t <= time w';
  al_sleep : forall d w r w', p.(ap_sv).(Sleep) d w = (r, w') -> idle w w' /\ (r = inr None -> time w + d <= time w');
  al_uuid : moves idle p.(ap_sv).(NewUUID);
  al_rand : forall n, moves idle (p.(ap_rand) n);
  al_hash : forall pwd, moves idle (p.(ap_enc).(HashAndSalt) pwd);
  al_mail : (forall e t, moves idle (p.(ap_mail).(SendVerificationEmail) e t))
    /\ (forall e t, moves idle (p.(ap_mail).(SendForgotPasswordEmail) e t));
  al_minio : (forall k c n t, moves idle (p.(ap_minio).(PutObject) k c n t)) /\ (forall k, moves idle (p.(ap_minio).(RemoveObject) k));
  al_db : (forall u, moves off_redis (p.(ap_users).(CreateUser) u)) /\ (forall e, moves idle (p.(ap_users).(GetUserByEmail) e))
    /\ (forall n, moves idle (p.(ap_users).(GetUserByUsername) n)) /\ (forall i, moves idle (p.(ap_users).(GetUserById) i))
    /\ (forall f, moves idle (p.(ap_users).(ListUsers) f)) /\ (forall f, moves idle (p.(ap_users).(SearchPublicUsers) f))
    /\ (forall u, moves off_redis (p.(ap_users).(UpdateUser) u))
    /\ (forall i h t, moves off_redis (p.(ap_users).(UpdatePassword) i h t))
    /\ (forall i u, moves off_redis (p.(ap_users).(UpdateProfile) i u))
    /\ (forall i a k t, moves off_redis (p.(ap_users).(UpdateAvatar) i a k t))
    /\ (forall i, moves off_redis (p.(ap_users).(DeleteUser) i));
  al_rdb : (forall A (f : S -> A * S), moves off_db (Do p.(ap_rdb) f))
    /\ (forall A (f : S -> error + (A * (S -> S))), moves off_db (Watch p.(ap_rdb) f));
  al_parse : forall token secret t c, p.(ap_lib).(jwt_Parse) token secret t = Some c -> t < time_Unix c.(ExpiresAt);
  al_ttl : 0 < p.(ap_cfg).(AccessTTL) <= p.(ap_cfg).(RefreshTTL) /\ p.(ap_cfg).(RefreshTTL) mod 1000000 = 0;
}.

(** ** The service assembled *)

Definition cutoffs : LogoutAllIATStore W := redis_logout_store p.(ap_rdb) p.(ap_cfg).(RefreshTTL).
Definition tokens : TokenRepository W := redis_token_repository p.(ap_rdb).
Definition generator : TokenGenerator W := token_generator p.(ap_rand).
Definition provider : JWTProvider W := jwt_provider p.(ap_sv) p.(ap_lib) p.(ap_cfg).
Definition limiter : AuthAbuseLimiter W := redis_limiter p.(ap_rdb).
Definition avatars : AvatarStorage W := avatar_storage p.(ap_sv) p.(ap_minio) p.(ap_JoinPath) p.(ap_publicURL) p.(ap_bucket).

Definition auth_login := login p.(ap_sv) p.(ap_lower) p.(ap_users) p.(ap_enc) provider cutoffs (Some limiter) p.(ap_policy).
Definition auth_refresh := refresh p.(ap_users) provider cutoffs (Some limiter) p.(ap_policy).
Definition auth_logoutAll := logoutAll p.(ap_sv) cutoffs.
Definition auth_changePassword := changePassword p.(ap_sv) p.(ap_users) p.(ap_enc) cutoffs.
Definition auth_assignRole := assignRole p.(ap_sv) p.(ap_users).
Definition auth_SetSuspension := SetSuspension p.(ap_sv) p.(ap_users) cutoffs p.(ap_uuid_Parse).
Definition auth_middleware := AuthMiddleware cutoffs p.(ap_ParseFloat).
Definition auth_register := register p.(ap_sv) p.(ap_lower) p.(ap_ParseAddress) p.(ap_users) tokens generator p.(ap_enc)
  p.(ap_mail) (Some (limiter_Acquire p.(ap_rdb))) p.(ap_policy).
Definition auth_resend := resendVerification p.(ap_lower) p.(ap_ParseAddress) p.(ap_users) tokens generator p.(ap_mail)
  (Some (limiter_Acquire p.(ap_rdb))) p.(ap_policy).
Definition auth_forgot := forgotPassword p.(ap_lower) p.(ap_ParseAddress) p.(ap_users) tokens generator p.(ap_mail)
  (Some (limiter_Acquire p.(ap_rdb))) p.(ap_policy).
Definition auth_reset := resetPassword p.(ap_sv) p.(ap_users) tokens generator p.(ap_enc) cutoffs (Some limiter) p.(ap_policy).
Definition auth_verify := verifyEmail p.(ap_sv) p.(ap_users) tokens generator (Some limiter) p.(ap_policy).
Definition auth_updateProfile := updateProfile p.(ap_sv) p.(ap_users) p.(ap_ParseRequestURI).
Definition auth_uploadAvatar := uploadAvatar p.(ap_sv) p.(ap_users) p.(ap_DetectContentType) avatars.

(** One request of any kind handled to its end, or time passing. *)
Inductive auth_step (w w' : W) : Prop :=
| step_login ctx i pw r : auth_login ctx i pw w = (r, w') -> auth_step w w'
| step_refresh t r : auth_refresh t w = (r, w') -> auth_step w w'
| step_logout u r : auth_logoutAll u w = (r, w') -> auth_step w w'
| step_change c req r : auth_changePassword c req w = (r, w') -> auth_step w w'
| step_assign c u role r : auth_assignRole c u role w = (r, w') -> auth_step w w'
| step_suspend c u b r : auth_SetSuspension c u b w = (r, w') -> auth_step w w'
| step_middleware h r : auth_middleware h w = (r, w') -> auth_step w w'
| step_register ctx req r : auth_register ctx req w = (r, w') -> auth_step w w'
| step_resend ctx e r : auth_resend ctx e w = (r, w') -> auth_step w w'
| step_forgot ctx e r : auth_forgot ctx e w = (r, w') -> auth_step w w'
| step_reset ctx req r : auth_reset ctx req w = (r, w') -> auth_step w w'
| step_verify ctx t r : auth_verify ctx t w = (r, w') -> auth_step w w'
| step_profile c req r : auth_updateProfile c req w = (r, w') -> auth_step w w'
| step_avatar c f r : (forall f', f = Some f' -> moves idle f'.(FhOpen) /\ moves idle f'.(FhRead512) /\ moves idle f'.(FhSeek)) ->
    auth_uploadAvatar c f w = (r, w') -> auth_step w w'
| step_idle : idle w w' -> auth_step w w'.
End world.
