(* ===== verification/AuthRevocation.v ===== *)
(** Ending sessions: the cutoff of a user only moves forward, whatever the auth
    service does, and outlives every token issued before it. *)

From S2P Require Import Prelude GoString GoError GoMonad GoCrypto SubmissionDomain Redis AuthDomain AuthRedis AuthSessions AuthAccounts AuthUsers PgUsers AuthWorld.

Section revocation.
Context {S W : Type} `{Redis S} (p : auth_platform S W) (server : W -> S) (accounts : W -> gmap string User) (time : W -> Time)
  {AL : AuthLaws p server accounts time}.

#[local] Existing Instances al_redis al_client al_users.
#[local] Notation idle := (idle server accounts time).
#[local] Notation off_redis := (off_redis server time).
#[local] Notation rdb := p.(ap_rdb).
#[local] Notation law f := (f _ _ _ _ _ _ _ AL) (only parsing).

Lemma Unix_mono t t' : t <= t' -> Unix t <= Unix t'.
Proof. unfold Unix, Second. intros HT. pose proof (Z.div_le_mono t t' 1000000000). lia. Qed.
Lemma UnixMilli_mono t t' : t <= t' -> UnixMilli t <= UnixMilli t'.
Proof. unfold UnixMilli. intros HT. pose proof (Z.div_le_mono t t' 1000000). lia. Qed.

(** The PX argument of the cutoffs. *)
Definition cutoff_ms : Z := Z.max 1 (p.(ap_cfg).(RefreshTTL) / 1000000).

(** A cutoff [c] that stays until [e]. *)
Definition cut (u : string) (w : W) (c e : Z) : Prop :=
  raw (server w) !! LogoutAllIATKey u = Some ((Itoa c, Some e) : entry)
  /\ 1 <= c <= Unix (time w) /\ e <= UnixMilli (time w) + cutoff_ms.

Definition cut_le (u : string) (w w' : W) : Prop :=
  time w <= time w' /\ forall c e, cut u w c e -> exists c' e', cut u w' c' e' /\ c <= c' /\ e <= e'.

#[export] Instance cut_le_preorder u : PreOrder (cut_le u).
Proof.
  split.
  - intros w. split; [lia|]. intros c e HC. exists c, e. split_ands; [done|lia|lia].
  - intros w1 w2 w3 [T1 H1] [T2 H2]. split; [lia|]. intros c e (c' & e' & HC & L1 & L2)%H1.
    apply H2 in HC as (c2 & e2 & HC & L3 & L4). exists c2, e2. split_ands; [done|lia|lia].
Qed.

(** A step that leaves the entry of the cutoff alone. *)
Lemma cut_frame u w w' : raw (server w') !! LogoutAllIATKey u = raw (server w) !! LogoutAllIATKey u ->
  time w <= time w' -> cut_le u w w'.
Proof.
  intros HR HT. split; [done|]. intros c e (HC & [C1 C2] & HE). exists c, e. unfold cut. rewrite HR.
  pose proof (Unix_mono _ _ HT). pose proof (UnixMilli_mono _ _ HT). split_ands; first done; lia.
Qed.

(** A step that leaves the database alone as well. *)
Definition quiet (u : string) (w w' : W) : Prop := cut_le u w w' /\ accounts w' = accounts w.

#[export] Instance quiet_preorder u : PreOrder (quiet u).
Proof.
  split; [intros w; by split|]. intros w1 w2 w3 [H1 E1] [H2 E2]. split; [by etrans|congruence].
Qed.

Lemma quiet_cut u w w' : quiet u w w' -> cut_le u w w'.
Proof. by intros []. Qed.
Lemma idle_quiet u w w' : idle w w' -> quiet u w w'.
Proof. intros (HR & HA & HT). split; [|done]. apply cut_frame; [by rewrite HR|done]. Qed.
Lemma off_redis_cut u w w' : off_redis w w' -> cut_le u w w'.
Proof. intros (HR & HT). apply cut_frame; [by rewrite HR|done]. Qed.

Definition leaves (u : string) {A} (f : S -> A * S) : Prop :=
  forall s, raw (f s).2 !! LogoutAllIATKey u = raw s !! LogoutAllIATKey u.

Lemma do_quiet {A} u (f : S -> A * S) : leaves u f -> moves (quiet u) (Do rdb f).
Proof.
  intros HF w r w' E. destruct (law (@al_rdb)) as [HD _]. pose proof (HD _ _ _ _ _ E) as [HA HT]. split; [|done].
  apply cut_frame; [|done]. apply do_law in E. destruct r as [e|a].
  - destruct E as [[E _]|(s & [E _] & E2 & _)]; [by rewrite E|]. by rewrite E2, HF, E.
  - destruct E as (s & ([E _] & E2 & _) & _). by rewrite E2, HF, E.
Qed.

Lemma watch_quiet {A} u (f : S -> error + (A * (S -> S))) :
  (forall s a block, f s = inr (a, block) -> raw (block s) !! LogoutAllIATKey u = raw s !! LogoutAllIATKey u) ->
  moves (quiet u) (Watch rdb f).
Proof.
  intros HF w r w' E. destruct (law (@al_rdb)) as [_ HD]. pose proof (HD _ _ _ _ _ E) as [HA HT]. split; [|done].
  apply cut_frame; [|done]. apply watch_law in E. destruct r as [e|a].
  - destruct E as [[E _]|(s & a & block & E2 & [E _] & E3 & _)]; [by rewrite E|]. by rewrite E3, (HF s a block), E.
  - destruct E as (s & block & E2 & [E _] & E3 & _). by rewrite E3, (HF s a block), E.
Qed.

(** ** The commands and the keys *)

Lemma raw_SET k v d s : raw (SET k v d s) = <[k := (v, (fun x => clock s + x) <$> d)]> (raw s).
Proof. apply set_law. Qed.
Lemma raw_DEL k s : raw (DEL k s) = delete k (raw s).
Proof. apply del_law. Qed.
Lemma raw_PEXPIRE k k' d s : k <> k' -> raw (PEXPIRE k d s) !! k' = raw s !! k'.
Proof.
  intros HK. destruct (pexpire_law k d s) as [_ E]. rewrite E. destruct (find_entry k s) as [[v t]|]; [|done].
  by rewrite lookup_insert_ne.
Qed.

Lemma cutoff_key_inj u u' : LogoutAllIATKey u = LogoutAllIATKey u' -> u = u'.
Proof. unfold LogoutAllIATKey. intros E. cbn in E. by injection E. Qed.
Lemma abuse_key_ne a b u : authAbuseKey a b <> LogoutAllIATKey u.
Proof. unfold authAbuseKey, LogoutAllIATKey. intros E. cbn in E. discriminate E. Qed.
Lemma token_key_ne a b u : tokenKey a b <> LogoutAllIATKey u.
Proof. unfold tokenKey, LogoutAllIATKey. intros E. cbn in E. discriminate E. Qed.
Lemma latest_key_ne a b u : latestTokenKey a b <> LogoutAllIATKey u.
Proof. unfold latestTokenKey, LogoutAllIATKey. intros E. cbn in E. discriminate E. Qed.
Lemma cooldown_key_ne a b u : resendCooldownKey a b <> LogoutAllIATKey u.
Proof. unfold resendCooldownKey, LogoutAllIATKey. intros E. cbn in E. discriminate E. Qed.

Lemma get_quiet u k : moves (quiet u) (Get rdb k).
Proof. unfold Get. repeat moves_step. by apply do_quiet. Qed.

Lemma leaves_allow u a b n l : leaves u (allowScript (authAbuseKey a b) n l).
Proof.
  intros s. unfold allowScript. destruct (INCR (authAbuseKey a b) s) as [[v|] s1] eqn:E;
    pose proof (incr_frame (authAbuseKey a b) (LogoutAllIATKey u) s (abuse_key_ne a b u)) as HF; rewrite E in HF; cbn in *; [|done].
  destruct (v =? 1); [|done]. rewrite raw_PEXPIRE by apply abuse_key_ne. done.
Qed.

Lemma limiter_quiet u : (forall a b n l, moves (quiet u) (limiter_Allow rdb a b n l))
  /\ (forall a b, moves (quiet u) (limiter_Count rdb a b)) /\ (forall a b, moves (quiet u) (limiter_Reset rdb a b)).
Proof.
  split_ands; intros.
  - unfold limiter_Allow. repeat moves_step. apply do_quiet, leaves_allow.
  - unfold limiter_Count. repeat moves_step; [apply get_quiet|by apply do_quiet].
  - unfold limiter_Reset, Del. apply do_quiet. intros s. cbn. rewrite raw_DEL, lookup_delete_ne; [done|apply abuse_key_ne].
Qed.

Lemma admissionArguments_keys request keys args : admissionArguments request = inr (keys, args) ->
  Forall (fun k => exists a b, k = authAbuseKey a b) keys.
Proof.
  assert (forall a b ks ks', appendKey a b ks = inr ks' -> Forall (fun k => exists a b, k = authAbuseKey a b) ks ->
    Forall (fun k => exists a b, k = authAbuseKey a b) ks') as HA.
  { intros a b ks ks'. unfold appendKey. repeat (case_match; [discriminate|]). intros [= <-] HF. apply Forall_app. split; [done|]. eauto. }
  assert (forall scs ks ars ks' ars', scope_arguments scs ks ars = inr (ks', ars') ->
    Forall (fun k => exists a b, k = authAbuseKey a b) ks -> Forall (fun k => exists a b, k = authAbuseKey a b) ks') as HS.
  { induction scs as [|sc scs IH]; intros ks ars ks' ars'; cbn [scope_arguments]; [by intros [= <- <-]|].
    repeat (case_match; [discriminate|]). intros HI HF.
    eapply IH; [exact HI|]. by eapply HA. }
  unfold admissionArguments. case_match; [discriminate|].
  destruct (scope_arguments _ _ _) as [e|[ks ars]] eqn:E; [discriminate|].
  apply HS in E; [|constructor]. destruct (ArCooldown request) as [cd|]; [|by intros [= <- <-]].
  case_match; [discriminate|]. destruct (appendKey _ _ ks) as [e|ks2] eqn:E2; [discriminate|]. intros [= <- <-]. by eapply HA.
Qed.

(** A key of the script, or the empty name where there is none. *)
Lemma key_at_ne u keys i : Forall (fun k => exists a b, k = authAbuseKey a b) keys -> key_at keys i <> LogoutAllIATKey u.
Proof.
  intros HK. unfold key_at. destruct (nth_in_or_default (Z.to_nat (i - 1)) keys ""%string) as [HI| ->].
  - rewrite Forall_forall in HK. apply list_elem_of_In, HK in HI as (a & b & ->). apply abuse_key_ne.
  - unfold LogoutAllIATKey. intros E. discriminate E.
Qed.

Lemma count_scopes_leaves u keys args n : Forall (fun k => exists a b, k = authAbuseKey a b) keys ->
  forall i s, raw (count_scopes keys args n i s).2 !! LogoutAllIATKey u = raw s !! LogoutAllIATKey u.
Proof.
  intros HK. induction n as [|n IH]; intros i s; cbn [count_scopes]; [done|].
  destruct (INCR (key_at keys i) s) as [[v|] s1] eqn:E;
    pose proof (incr_frame (key_at keys i) (LogoutAllIATKey u) s (key_at_ne u keys i HK)) as HF; rewrite E in HF; cbn in *; [|done].
  rewrite IH. destruct (v =? 1); [|done]. by rewrite raw_PEXPIRE by by apply key_at_ne.
Qed.

Lemma acquire_quiet u request : moves (quiet u) (limiter_Acquire rdb request).
Proof.
  unfold limiter_Acquire. destruct (admissionArguments request) as [e|[keys args]] eqn:E; [moves_step|].
  apply admissionArguments_keys in E. repeat moves_step. apply do_quiet. intros s. unfold admissionScript.
  destruct (check_scopes _ _ _ _ _ _); [|done]. destruct (0 <? _); [done|].
  pose proof (count_scopes_leaves u keys args (Z.to_nat (arg_at args 1)) E 1 s) as HC.
  destruct (count_scopes _ _ _ _ _) as [[[]|] s1]; cbn in *; [|done].
  case_match; [|done]. by rewrite raw_SET, lookup_insert_ne by by apply key_at_ne.
Qed.

Lemma tokens_quiet u : (forall a b c d, moves (quiet u) (token_Save rdb a b c d))
  /\ (forall a b, moves (quiet u) (token_FindByToken rdb a b)) /\ (forall a b, moves (quiet u) (token_Consume rdb a b))
  /\ (forall a b c, moves (quiet u) (token_TryAcquireResendCooldown rdb a b c)).
Proof.
  split_ands; intros.
  - apply do_quiet. intros s. cbn. by rewrite !raw_SET, !lookup_insert_ne by (apply latest_key_ne || apply token_key_ne).
  - unfold token_FindByToken. repeat moves_step; apply get_quiet.
  - unfold token_Consume. repeat moves_step; [apply get_quiet|]. apply watch_quiet. intros s [] block. unfold consume_tx.
    repeat (case_match; try discriminate). intros [= <-].
    by rewrite !raw_DEL, !lookup_delete_ne by (apply latest_key_ne || apply token_key_ne).
  - unfold token_TryAcquireResendCooldown, SetNX. apply do_quiet. intros s. case_match; [done|]. cbn.
    rewrite raw_SET, lookup_insert_ne; [done|apply cooldown_key_ne].
Qed.

(** Writing the current time as a cutoff: afterwards a cutoff not before that
    time stays for the lifetime of a refresh token. *)
Lemma set_cutoff v t (f : error -> error) w r w' : unix_epoch * Second < t -> 1 <= Unix t -> t <= time w ->
  on_error f (redis_SetLogoutAllIAT rdb p.(ap_cfg).(RefreshTTL) v (Unix t)) w = (r, w') ->
  time w <= time w' /\ (raw (server w') = raw (server w)
    \/ exists e, raw (server w') = <[LogoutAllIATKey v := (Itoa (Unix t), Some e)]> (raw (server w))
       /\ UnixMilli (time w) + cutoff_ms <= e <= UnixMilli (time w') + cutoff_ms)
  /\ (r = inr tt -> exists e, cut v w' (Unix t) e /\ UnixMilli (time w) + cutoff_ms <= e).
Proof.
  intros HE H1 HT Hrun. unfold redis_SetLogoutAllIAT, Set_ in Hrun.
  assert (exists r0, Do rdb (fun s => (tt, SET (LogoutAllIATKey v) (Itoa (Unix t)) (px (RefreshTTL (ap_cfg p))) s)) w = (r0, w')
    /\ (r = inr tt -> r0 = inr tt)) as (r0 & E & Hr).
  { unfold on_error in Hrun. destruct (Do _ _ w) as [[e|[]] w1]; injection Hrun as <- <-; eauto. by eexists. }
  destruct (law (@al_rdb)) as [HD _]. pose proof (HD _ _ _ _ _ E) as [_ HT2]. split; [done|].
  assert (forall s, later (server w) s -> clock s <= clock (server w') ->
    exists e, raw (SET (LogoutAllIATKey v) (Itoa (Unix t)) (px (RefreshTTL (ap_cfg p))) s)
      = <[LogoutAllIATKey v := (Itoa (Unix t), Some e)]> (raw (server w))
      /\ UnixMilli (time w) + cutoff_ms <= e <= UnixMilli (time w') + cutoff_ms) as HS.
  { intros s [E1 E2] E3. exists (clock s + cutoff_ms). rewrite !(law (@al_clock)) in *. split; [|lia].
    rewrite raw_SET, E1. unfold px. destruct (law (@al_ttl)) as [Ht _]. destruct (Z.ltb_spec 0 (RefreshTTL (ap_cfg p))); [done|lia]. }
  apply do_law in E. destruct r0 as [e|[]].
  - split; [|intros HI; by specialize (Hr HI)]. destruct E as [[E _]|(s & E & Es & HC)]; [by left|right]. cbn in Es.
    rewrite Es. by apply HS.
  - destruct E as (s & (E & Es & HC) & _). cbn in Es. destruct (HS s E HC) as (e & R & B). rewrite <- Es in R.
    split; [right; eauto|]. intros _. exists e. split; [|lia].
    split; [by rewrite R, lookup_insert_eq|]. pose proof (Unix_mono _ _ HT). pose proof (Unix_mono _ _ HT2). lia.
Qed.

Lemma now_cutoff u v (f : error -> error) w r w' :
  (let* now := p.(ap_sv).(AuthNow) in
     on_error f (redis_SetLogoutAllIAT rdb p.(ap_cfg).(RefreshTTL) v (Unix now)) ;; ret now) w = (r, w') ->
  quiet u w w' /\ (forall t, r = inr t -> exists c e, cut v w' c e /\ Unix (time w) <= c /\ UnixMilli (time w) + cutoff_ms <= e).
Proof.
  unfold bind at 1. destruct (AuthNow (ap_sv p) w) as [r0 w1] eqn:E1.
  pose proof (law (@al_now) _ _ _ E1) as [(R & AI & TI) (t & -> & HT)]. unfold bind.
  assert (1 <= Unix t) as H1.
  { pose proof (law (@al_epoch) w) as HE. assert ((unix_epoch + 1) * Second <= t) as HT1 by lia. by apply Unix_mono in HT1. }
  assert (unix_epoch * Second < t) as H2 by (pose proof (law (@al_epoch) w) as HE; unfold Second, unix_epoch in *; lia).
  destruct (on_error _ _ w1) as [r1 w2] eqn:E2.
  assert (accounts w2 = accounts w1) as HA2.
  { unfold on_error in E2. destruct (redis_SetLogoutAllIAT _ _ _ _ _) as [[e|[]] w3] eqn:E3; injection E2 as <- <-;
      destruct (law (@al_rdb)) as [HD _]; by apply HD in E3 as [E3 _]. }
  apply set_cutoff in E2 as (T2 & E2 & HS); [|done|done|lia].
  pose proof (Unix_mono _ _ (proj1 HT)). pose proof (Unix_mono _ _ (proj2 HT)). pose proof (Unix_mono _ _ T2).
  pose proof (UnixMilli_mono _ _ TI). pose proof (UnixMilli_mono _ _ T2).
  assert (quiet u w w2) as HQ.
  { split; [|congruence]. split; [lia|]. intros c e HC. pose proof HC as (HC1 & HC2 & HC3).
    assert (raw (server w2) !! LogoutAllIATKey u = raw (server w) !! LogoutAllIATKey u -> cut u w2 c e) as HK0.
    { intros M1. split; [by rewrite M1|]. lia. }
    destruct E2 as [E2|(e2 & E2 & B)]; [exists c, e; split; [apply HK0; by rewrite E2, R|lia]|].
    destruct (decide (u = v)) as [->|Hne].
    - exists (Unix t), e2. split; [|lia]. split; [by rewrite E2, lookup_insert_eq|]. lia.
    - exists c, e. split; [|lia]. apply HK0. rewrite E2, lookup_insert_ne, R; [done|]. by intros ->%cutoff_key_inj. }
  destruct r1 as [e|[]]; intros [= <- <-]; (split; [done|]); [done|].
  intros t0 _. destruct (HS eq_refl) as (e & HC & HE). exists (Unix t), e. split; [done|lia].
Qed.

(** ** The calls of the ports *)

Lemma now_quiet u : moves (quiet u) p.(ap_sv).(AuthNow).
Proof. intros w r w' E. apply (law (@al_now)) in E as [E _]. by apply idle_quiet. Qed.
Lemma sleep_quiet u d : moves (quiet u) (p.(ap_sv).(Sleep) d).
Proof. intros w r w' E. apply (law (@al_sleep)) in E as [E _]. by apply idle_quiet. Qed.

Lemma moves_idle {A} u (m : M W A) : moves idle m -> moves (quiet u) m.
Proof. apply moves_weaken, idle_quiet. Qed.

Lemma platform_quiet u :
  moves (quiet u) p.(ap_sv).(NewUUID) /\ (forall i, moves (quiet u) ((generator p).(Tok_Generate) i))
  /\ (forall x, moves (quiet u) (p.(ap_enc).(HashAndSalt) x))
  /\ (forall e t, moves (quiet u) (p.(ap_mail).(SendVerificationEmail) e t))
  /\ (forall e t, moves (quiet u) (p.(ap_mail).(SendForgotPasswordEmail) e t))
  /\ (forall a b c d, moves (quiet u) ((avatars p).(As_UploadAvatar) a b c d)) /\ (forall k, moves (quiet u) ((avatars p).(As_DeleteAvatar) k)).
Proof.
  destruct (law (@al_mail)) as [M1 M2], (law (@al_minio)) as [O1 O2].
  assert (moves (quiet u) (NewUUID (ap_sv p))) as HU by apply moves_idle, (law (@al_uuid)).
  split_ands; [done| | | | | |]; intros.
  - cbn. unfold token_Generate. repeat moves_step. apply moves_idle, (law (@al_rand)).
  - apply moves_idle, (law (@al_hash)).
  - by apply moves_idle.
  - by apply moves_idle.
  - cbn. unfold avatar_UploadAvatar. repeat moves_step; [apply now_quiet|done|by apply moves_idle].
  - cbn. unfold avatar_DeleteAvatar. repeat moves_step. by apply moves_idle.
Qed.

Lemma provider_quiet u : (forall a b c, moves (quiet u) ((provider p).(GenerateAccessToken) a b c))
  /\ (forall a b c, moves (quiet u) ((provider p).(GenerateRefreshToken) a b c))
  /\ (forall t, moves (quiet u) ((provider p).(VerifyRefreshToken) t)).
Proof.
  split_ands; intros; cbn; unfold generate, verifyToken; repeat moves_step; apply now_quiet.
Qed.

Lemma get_quietoff_cut u v : moves (quiet u) ((cutoffs p).(GetLogoutAllIAT) v).
Proof. cbn. unfold redis_GetLogoutAllIAT. repeat moves_step. apply get_quiet. Qed.

Lemma store_quiet u :
  (forall a b c d, moves (quiet u) ((tokens p).(Tok_Save) a b c d)) /\ (forall a b, moves (quiet u) ((tokens p).(Tok_FindByToken) a b))
  /\ (forall a b, moves (quiet u) ((tokens p).(Tok_Consume) a b))
  /\ (forall a b c, moves (quiet u) ((tokens p).(Tok_TryAcquireResendCooldown) a b c))
  /\ (forall a b n l, moves (quiet u) ((limiter p).(Lim_Allow) a b n l)) /\ (forall a b, moves (quiet u) ((limiter p).(Lim_Count) a b))
  /\ (forall a b, moves (quiet u) ((limiter p).(Lim_Reset) a b)).
Proof. destruct (tokens_quiet u) as (?&?&?&?), (limiter_quiet u) as (?&?&?). by split_ands. Qed.

(** One call of a port. *)
Ltac port_call u :=
  lazymatch goal with
  | |- moves _ (AuthNow _) => apply now_quiet
  | |- moves _ (Sleep _ _) => apply sleep_quiet
  | |- moves _ (GetLogoutAllIAT _ _) => apply get_quietoff_cut
  | |- moves _ (limiter_Acquire _ _) => apply acquire_quiet
  | _ => first [ assumption
               | solve [destruct (store_quiet u) as (?&?&?&?&?&?&?); auto]
               | solve [destruct (provider_quiet u) as (?&?&?); auto]
               | solve [destruct (platform_quiet u) as (?&?&?&?&?&?&?); auto]
               | solve [apply moves_idle; destruct (law (@al_db)) as (?&?&?&?&?&?&?&?&?&?&?); auto] ]
  end.


(** Sequences of calls under a relation [R] that quiet steps satisfy. *)
Section sequences.
Context (u : string) (R : relation W) {PR : PreOrder R} (HR : forall w w', quiet u w w' -> R w w').

Lemma weaken {A} (m : M W A) : moves (quiet u) m -> moves R m.
Proof. by apply moves_weaken. Qed.

Lemma now_cutoff_then {A} v (f : error -> error) (k : Time -> M W A) : (forall t, moves R (k t)) ->
  moves R (let* now := p.(ap_sv).(AuthNow) in on_error f ((cutoffs p).(SetLogoutAllIAT) v (Unix now)) ;; k now).
Proof.
  intros HK w r w' E. pose proof (now_cutoff u v f w) as HN. cbn in E. unfold bind in *.
  destruct (AuthNow (ap_sv p) w) as [[e|t] w1]; [injection E as <- <-; by eapply HR, HN|].
  destruct (on_error f _ w1) as [[e|[]] w2]; [injection E as <- <-; by eapply HR, HN|].
  etrans; [eapply HR, HN; reflexivity|]. by eapply HK.
Qed.

Lemma now_cutoff_last v (f : error -> error) :
  moves R (let* now := p.(ap_sv).(AuthNow) in on_error f ((cutoffs p).(SetLogoutAllIAT) v (Unix now))).
Proof.
  intros w r w' E. pose proof (now_cutoff u v f w) as HN. cbn in E. unfold bind in *.
  destruct (AuthNow (ap_sv p) w) as [[e|t] w1]; [injection E as <- <-; by eapply HR, HN|]. rewrite E in HN.
  destruct r as [e|[]]; by eapply HR, HN.
Qed.
End sequences.

Lemma quiet_self u w w' : quiet u w w' -> quiet u w w'.
Proof. done. Qed.

(** Decompose a use case under the relation [R], [H] being the inclusion of
    quiet steps; writes of the database remain. *)
Ltac calls u H :=
  repeat (first [ apply (now_cutoff_last u _ H) | apply (now_cutoff_then u _ H); intros ? | moves_step ]);
  try solve [apply (weaken u _ H); port_call u].

Lemma login_parts_quiet u :
  (forall ip i, moves (quiet u) (recordLoginFailure (Some (limiter p)) p.(ap_policy) ip i))
  /\ (forall ctx i, moves (quiet u) (login_protection p.(ap_sv) (Some (limiter p)) p.(ap_policy) ctx i))
  /\ (forall i, moves (quiet u) (resolveUser p.(ap_users) i)) /\ (forall x, moves (quiet u) (check_account (W := W) x))
  /\ (forall i n r, moves (quiet u) (issue_tokens (provider p) i n r))
  /\ (forall i, moves (quiet u) (waitForTokenIssuedAfterInvalidation p.(ap_sv) (cutoffs p) i)).
Proof.
  split_ands; intros.
  - unfold recordLoginFailure, recordFailure. calls u (quiet_self u).
  - unfold login_protection, clientIP, checkFailureLimit, delayForIdentifierRisk. calls u (quiet_self u).
  - unfold resolveUser. calls u (quiet_self u).
  - unfold check_account. calls u (quiet_self u).
  - unfold issue_tokens. calls u (quiet_self u).
  - unfold waitForTokenIssuedAfterInvalidation. calls u (quiet_self u).
Qed.

Lemma token_protection_quiet u ctx a : moves (quiet u) (token_protection (Some (limiter p)) p.(ap_policy) ctx a).
Proof. unfold token_protection, clientIP, abuse_allow. calls u (quiet_self u). Qed.

(** ** Passwords and suspensions *)

(** The account of [u], where there is one, keeps its password and is not suspended. *)
Definition acc_le (u : string) (w w' : W) : Prop :=
  forall a, accounts w !! u = Some a -> exists a', accounts w' !! u = Some a' /\ a'.(Password) = a.(Password)
    /\ (a.(IsSuspended) = false -> a'.(IsSuspended) = false).

(** All sessions of [u] that started before [w] are cut off, for the lifetime of a refresh token. *)
Definition ended (u : string) (w w' : W) : Prop :=
  exists c e, cut u w' c e /\ Unix (time w) <= c /\ UnixMilli (time w) + cutoff_ms <= e.

(** Sessions are never forgotten, and are ended with every change of the password
    and every suspension. *)
Definition guarded (u : string) (w w' : W) : Prop := cut_le u w w' /\ (acc_le u w w' \/ ended u w w').

Lemma ended_after u w w1 w2 : ended u w w1 -> cut_le u w1 w2 -> ended u w w2.
Proof. intros (c & e & HC & L1 & L2) [_ HL]. apply HL in HC as (c' & e' & HC & L3 & L4). exists c', e'. split; [done|lia]. Qed.

Lemma ended_before u w0 w w1 : time w0 <= time w -> ended u w w1 -> ended u w0 w1.
Proof.
  intros HT (c & e & HC & L1 & L2). pose proof (Unix_mono _ _ HT). pose proof (UnixMilli_mono _ _ HT). exists c, e. split; [done|lia].
Qed.

#[export] Instance guarded_preorder u : PreOrder (guarded u).
Proof.
  split.
  - intros w. split; [done|]. left. intros a. eauto.
  - intros w1 w2 w3 [C1 H1] [C2 H2]. split; [by etrans|]. destruct H1 as [H1|H1]; [|right; by eapply ended_after].
    destruct H2 as [H2|H2]; [left|right; eapply ended_before; [apply C1|done]].
    intros a (a2 & E2 & P2 & S2)%H1. apply H2 in E2 as (a3 & E3 & P3 & S3). exists a3. split_ands; [done|congruence|auto].
Qed.

Lemma quiet_guarded u w w' : quiet u w w' -> guarded u w w'.
Proof. intros [HC HA]. split; [done|]. left. intros a. rewrite HA. eauto. Qed.

(** A row written through a function that keeps password and suspension. *)
Lemma alter_guarded u (g : User -> User) id w w' : off_redis w w' ->
  accounts w' = alter g id (accounts w) \/ accounts w' = accounts w ->
  (forall a, accounts w !! id = Some a -> (g a).(Password) = a.(Password) /\ (a.(IsSuspended) = false -> (g a).(IsSuspended) = false)) ->
  guarded u w w'.
Proof.
  intros HO HA HG. split; [by apply off_redis_cut|]. left. intros a Ha. destruct HA as [->| ->]; [|eauto].
  destruct (decide (u = id)) as [->|Hne].
  - exists (g a). rewrite lookup_alter_eq, Ha. split; [done|]. by apply HG.
  - exists a. by rewrite lookup_alter_ne.
Qed.

Lemma profile_guarded u id x : moves (guarded u) (p.(ap_users).(UpdateProfile) id x).
Proof.
  intros w r w' E. destruct (law (@al_db)) as (_&_&_&_&_&_&_&_&HO&_&_). pose proof (HO _ _ _ _ _ E). apply ul_profile in E.
  eapply alter_guarded; [done|destruct r; eauto|done].
Qed.
Lemma avatar_guarded u id a b t : moves (guarded u) (p.(ap_users).(UpdateAvatar) id a b t).
Proof.
  intros w r w' E. destruct (law (@al_db)) as (_&_&_&_&_&_&_&_&_&HO&_). pose proof (HO _ _ _ _ _ _ _ E). apply ul_avatar in E.
  eapply alter_guarded; [done|destruct r; eauto|done].
Qed.

(** The row that was read is written back with its password. *)
Lemma write_back u user w r w' (f : error -> error) : (forall a, accounts w !! user.(UID) = Some a ->
    user.(Password) = a.(Password) /\ (a.(IsSuspended) = false -> user.(IsSuspended) = false)) ->
  on_error f (p.(ap_users).(UpdateUser) user) w = (r, w') -> guarded u w w'.
Proof.
  intros HU E. assert (exists r0, p.(ap_users).(UpdateUser) user w = (r0, w')) as (r0 & E0).
  { unfold on_error in E. destruct (UpdateUser _ _ _) as [[e|x] w1]; injection E as <- <-; eauto. }
  destruct (law (@al_db)) as (_&_&_&_&_&_&HO&_). pose proof (HO _ _ _ _ E0). apply ul_update in E0.
  eapply alter_guarded; [done|destruct r0; eauto|]. intros a Ha. cbn. by apply HU.
Qed.

Lemma read_row f id w user w' : on_error f (p.(ap_users).(GetUserById) id) w = (inr user, w') ->
  accounts w' !! id = Some user /\ user.(UID) = id /\ idle w w'.
Proof.
  intros E%on_error_inr. destruct (law (@al_db)) as (_&_&_&HI&_). pose proof (HI _ _ _ _ E) as HI2.
  pose proof (ul_by_id _ _ _ _ E) as HL. destruct HI2 as (HR & HA & HT). rewrite HA. split; [done|].
  split; [by eapply ul_key|done].
Qed.

(** ** The use cases *)

Lemma guarded_cut u w w' : guarded u w w' -> cut_le u w w'.
Proof. by intros []. Qed.

Lemma replace_password_guarded u user h : moves (guarded u) (replace_password p.(ap_sv) p.(ap_users) (cutoffs p) user h).
Proof.
  intros w r w' E. unfold replace_password in E. pose proof (now_cutoff u user.(UID) internal w) as HN.
  pose proof (now_cutoff user.(UID) user.(UID) internal w) as HN'. cbn in E. unfold bind in *.
  destruct (AuthNow (ap_sv p) w) as [[e|t] w1]; [injection E as <- <-; by eapply quiet_guarded, HN|].
  destruct (on_error internal _ w1) as [[e|[]] w2]; [injection E as <- <-; by eapply quiet_guarded, HN|].
  destruct (HN _ _ eq_refl) as [HQ _]. destruct (HN' _ _ eq_refl) as [_ HE]. specialize (HE t eq_refl).
  destruct (AuthNow (ap_sv p) w2) as [r3 w3] eqn:E3. pose proof (law (@al_now) _ _ _ E3) as [I3 (t3 & -> & _)].
  assert (exists r4, p.(ap_users).(UpdatePassword) user.(UID) h t3 w3 = (r4, w')) as (r4 & E4).
  { unfold on_error in E. cbn in E. destruct (UpdatePassword _ _ _ _ _) as [[e|x] w4]; injection E as <- <-; eauto. }
  destruct (law (@al_db)) as (_&_&_&_&_&_&_&HO&_). pose proof (HO _ _ _ _ _ _ E4) as HO4. apply ul_password in E4.
  assert (guarded u w w3) as HG by (etrans; [by apply quiet_guarded|by apply quiet_guarded, idle_quiet]).
  destruct (decide (u = user.(UID))) as [->|Hne].
  - split; [etrans; [apply HG|by apply off_redis_cut]|]. right.
    eapply ended_after; [exact HE|]. etrans; [by apply quiet_cut, idle_quiet|by apply off_redis_cut].
  - etrans; [exact HG|]. split; [by apply off_redis_cut|]. left. intros a Ha. exists a.
    destruct r4; rewrite E4; [done|]. by rewrite lookup_alter_ne.
Qed.

(** Suspending cuts the sessions off before the row is written. *)
Lemma SetSuspension_guarded u c i b : moves (guarded u) (auth_SetSuspension p c i b).
Proof.
  unfold auth_SetSuspension, SetSuspension. destruct (negb _); [moves_step|]. destruct (validateAdminUserID _ _); [moves_step|].
  destruct b as [b|]; [|moves_step]. intros w r w' E. unfold bind at 1 in E.
  destruct (on_error not_found_or_internal _ w) as [[e|user] w1] eqn:E1.
  { injection E as <- <-. eapply (weaken u _ (quiet_guarded u)); [|exact E1]. moves_step. port_call u. }
  apply read_row in E1 as (HL & HU & I1). etrans; [by apply quiet_guarded, idle_quiet|]. clear w I1. destruct b.
  - pose proof (now_cutoff u user.(UID) internal w1) as HN. pose proof (now_cutoff user.(UID) user.(UID) internal w1) as HN'.
    cbn in E. unfold bind in *.
    destruct (AuthNow (ap_sv p) w1) as [[e|t] w2]; [injection E as <- <-; by eapply quiet_guarded, HN|].
    destruct (on_error internal _ w2) as [[e|[]] w3]; [injection E as <- <-; by eapply quiet_guarded, HN|].
    destruct (HN _ _ eq_refl) as [HQ _]. destruct (HN' _ _ eq_refl) as [[_ HA] HE]. specialize (HE t eq_refl).
    destruct (AuthNow (ap_sv p) w3) as [r4 w4] eqn:E4. pose proof (law (@al_now) _ _ _ E4) as [I4 (t4 & -> & _)]. cbn in E.
    assert (exists r5, p.(ap_users).(UpdateUser) (Suspend t4 user) w4 = (r5, w')) as (r5 & E5).
    { unfold on_error in E. destruct (UpdateUser _ _ _) as [[e|x] w5]; injection E as <- <-; eauto. }
    destruct (law (@al_db)) as (_&_&_&_&_&_&HO&_). pose proof (HO _ _ _ _ E5) as HO5. apply ul_update in E5.
    assert (guarded u w1 w4) as HG by (etrans; [by apply quiet_guarded|by apply quiet_guarded, idle_quiet]).
    assert ((Suspend t4 user).(UID) = user.(UID)) as EU by (unfold Suspend; by destruct (IsSuspended user)).
    destruct (decide (u = user.(UID))) as [->|Hne].
    + split; [etrans; [apply HG|by apply off_redis_cut]|]. right.
      eapply ended_after; [exact HE|]. etrans; [by apply quiet_cut, idle_quiet|by apply off_redis_cut].
    + etrans; [exact HG|]. split; [by apply off_redis_cut|]. left. intros a Ha. exists a.
      destruct r5; rewrite E5; [done|]. by rewrite EU, lookup_alter_ne.
  - unfold bind in E. destruct (AuthNow (ap_sv p) w1) as [r2 w2] eqn:E2. pose proof (law (@al_now) _ _ _ E2) as [I2 (t2 & -> & _)].
    etrans; [by apply quiet_guarded, idle_quiet|]. destruct I2 as (_ & A2 & _). cbn in E.
    assert (exists r0, on_error internal (p.(ap_users).(UpdateUser) (Unsuspend t2 user)) w2 = (r0, w')) as (r0 & E0)
      by (destruct (on_error _ _ w2) as [[e|x] w5]; injection E as <- <-; eauto).
    eapply write_back; [|exact E0]. intros a. rewrite A2. unfold Unsuspend.
    destruct (IsSuspended user) eqn:ES; cbn; rewrite HU, HL; intros [= <-]; [done|by rewrite ES].
Qed.

Lemma assignRole_guarded u c i role : moves (guarded u) (auth_assignRole p c i role).
Proof.
  unfold auth_assignRole, assignRole. destruct (negb _); [moves_step|]. intros w r w' E. unfold bind at 1 in E.
  destruct (on_error not_found_or_internal _ w) as [[e|user] w1] eqn:E1.
  { injection E as <- <-. eapply (weaken u _ (quiet_guarded u)); [|exact E1]. moves_step. port_call u. }
  apply read_row in E1 as (HL & HU & I1). etrans; [by apply quiet_guarded, idle_quiet|]. unfold assign_to in E.
  destruct (bool_decide _); [by injection E as <- <-|]. unfold bind in E.
  destruct (AuthNow (ap_sv p) w1) as [r2 w2] eqn:E2. pose proof (law (@al_now) _ _ _ E2) as [I2 (t2 & -> & _)].
  etrans; [by apply quiet_guarded, idle_quiet|]. destruct I2 as (_ & A2 & _).
  eapply write_back; [|exact E]. intros a. rewrite A2. cbn. rewrite HU, HL. by intros [= <-].
Qed.

Lemma verify_guarded u ctx t : moves (guarded u) (auth_verify p ctx t).
Proof.
  unfold auth_verify, verifyEmail. moves_step; [apply (weaken u _ (quiet_guarded u)), token_protection_quiet|]. moves_step.
  { apply (weaken u _ (quiet_guarded u)). moves_step. port_call u. }
  intros w r w' E. unfold bind at 1 in E.
  destruct (on_error not_found_or_internal _ w) as [[e|user] w1] eqn:E1.
  { injection E as <- <-. eapply (weaken u _ (quiet_guarded u)); [|exact E1]. moves_step. port_call u. }
  apply read_row in E1 as (HL & HU & I1). etrans; [by apply quiet_guarded, idle_quiet|]. destruct (IsActive user); [by injection E as <- <-|].
  unfold bind at 1 in E. destruct (on_error token_error _ w1) as [r2 w2] eqn:E2.
  assert (quiet u w1 w2) as Q2.
  { eapply (moves_on_error (quiet u)); [|exact E2]. port_call u. }
  etrans; [by apply quiet_guarded|]. destruct r2 as [e|x]; [by injection E as <- <-|]. unfold bind in E.
  destruct (AuthNow (ap_sv p) w2) as [r3 w3] eqn:E3. pose proof (law (@al_now) _ _ _ E3) as [I3 (t3 & -> & _)].
  etrans; [by apply quiet_guarded, idle_quiet|]. destruct I3 as (_ & A3 & _), Q2 as [_ A2].
  eapply write_back; [|exact E]. intros b. rewrite A3, A2. cbn. rewrite HU, HL. by intros [= <-].
Qed.

(** A new account gets an identifier that no row has; the rollback removes that
    row only. *)
Lemma create_then_guarded {A} u user (f : error -> error) (k : unit -> M W A) :
  (forall x, moves (cut_le u) (k x)) -> (u <> user.(UID) -> forall x, moves (guarded u) (k x)) ->
  moves (guarded u) (bind (on_error f (p.(ap_users).(CreateUser) user)) k).
Proof.
  intros K1 K2 w r w' E. unfold bind in E. destruct (on_error f _ w) as [r1 w1] eqn:E1.
  assert (exists r0, p.(ap_users).(CreateUser) user w = (r0, w1) /\ (forall x, r1 = inr x -> r0 = inr x)) as (r0 & E0 & HR).
  { unfold on_error in E1. destruct (CreateUser _ _ _) as [[e|x] w2]; injection E1 as <- <-; eexists; split; done || intros ? [=]; congruence. }
  destruct (law (@al_db)) as (HO&_). pose proof (HO _ _ _ _ E0) as HO0. apply ul_create in E0.
  destruct r1 as [e|x].
  - injection E as <- <-. split; [by apply off_redis_cut|]. left. intros a Ha. exists a. split; [|done].
    destruct r0; [by rewrite E0|]. destruct E0 as (N & _ & ->). rewrite lookup_insert_ne; [done|congruence].
  - rewrite (HR x eq_refl) in E0. destruct E0 as (N & _ & EA).
    assert (cut_le u w w') as HC by (etrans; [by apply off_redis_cut|by eapply K1]).
    destruct (decide (u = user.(UID))) as [->|Hne].
    + split; [done|]. left. intros a. by rewrite N.
    + apply (K2 Hne) in E as [_ E]. split; [done|]. destruct E as [E|E].
      * left. intros a Ha. apply E. by rewrite EA, lookup_insert_ne by done.
      * right. eapply ended_before; [apply HO0|done].
Qed.

Lemma delete_guarded u id : u <> id -> moves (guarded u) (p.(ap_users).(DeleteUser) id).
Proof.
  intros Hne w r w' E. destruct (law (@al_db)) as (_&_&_&_&_&_&_&_&_&_&HO). pose proof (HO _ _ _ _ E) as HO0. apply ul_delete in E.
  split; [by apply off_redis_cut|]. left. intros a Ha. exists a. destruct r; rewrite E; [done|]. by rewrite lookup_delete_ne.
Qed.
Lemma delete_cut u id : moves (cut_le u) (p.(ap_users).(DeleteUser) id).
Proof. eapply moves_weaken; [apply off_redis_cut|]. by destruct (law (@al_db)) as (_&_&_&_&_&_&_&_&_&_&HO). Qed.

Lemma register_guarded u ctx req : moves (guarded u) (auth_register p ctx req).
Proof.
  unfold auth_register, register, must_be_free, clientIP, abuse_acquire.
  cbv zeta. repeat first [ apply create_then_guarded; [|intros Hne]; intros ? | moves_step ]; try solve [apply (weaken u _ (quiet_guarded u)); port_call u];
    try solve [apply (weaken u _ (quiet_cut u)); port_call u].
  - apply delete_cut.
  - by apply delete_guarded.
Qed.

(** Every request: the cutoff of [u] moves forward only, and a change of the
    password or a suspension cuts all earlier sessions off. *)
Lemma step_guarded u w w' : auth_step p server accounts time w w' -> guarded u w w'.
Proof.
  destruct (login_parts_quiet u) as (L1 & L2 & L3 & L4 & L5 & L6).
  assert (forall A (m : M W A) r, moves (guarded u) m -> m w = (r, w') -> guarded u w w') as K by (intros A m r HM E; by eapply HM).
  destruct 1; [..|by apply quiet_guarded, idle_quiet]; (eapply K; [|eassumption]).
  - unfold auth_login, login. calls u (quiet_guarded u).
  - unfold auth_refresh, refresh, abuse_allow. calls u (quiet_guarded u).
  - unfold auth_logoutAll, logoutAll. calls u (quiet_guarded u).
  - unfold auth_changePassword, changePassword. repeat (apply replace_password_guarded || moves_step);
      apply (weaken u _ (quiet_guarded u)); port_call u.
  - apply assignRole_guarded.
  - apply SetSuspension_guarded.
  - unfold auth_middleware, AuthMiddleware. calls u (quiet_guarded u).
  - apply register_guarded.
  - unfold auth_resend, resendVerification, acquireGenericRequest, admit_mail, abuse_acquire. calls u (quiet_guarded u).
  - unfold auth_forgot, forgotPassword, acquireGenericRequest, admit_mail, abuse_acquire. calls u (quiet_guarded u).
  - unfold auth_reset, resetPassword.
    repeat (apply (weaken u _ (quiet_guarded u)), token_protection_quiet || apply replace_password_guarded || moves_step);
      apply (weaken u _ (quiet_guarded u)); port_call u.
  - apply verify_guarded.
  - unfold auth_updateProfile, updateProfile. calls u (quiet_guarded u). apply profile_guarded.
  - unfold auth_uploadAvatar, uploadAvatar. destruct f as [f|]; [|moves_step]. destruct (H0 f eq_refl) as (F1 & F2 & F3).
    repeat moves_step; try solve [apply (weaken u _ (quiet_guarded u)); first [by apply moves_idle | port_call u]].
    apply avatar_guarded.
Qed.

(** ** What a cutoff does *)

(** Reading the cutoff gives it, unless its time is over. *)
Lemma read_cutoff u c e w v w' : cut u w c e -> Unix (time w) < 2 ^ 62 ->
  (cutoffs p).(GetLogoutAllIAT) u w = (inr v, w') -> v = c \/ e <= UnixMilli (time w').
Proof.
  intros (HC & HU & _) HB E. cbn in E. unfold redis_GetLogoutAllIAT, bind, try, Get, bind in E.
  destruct (Do rdb (fun s => (GET (LogoutAllIATKey u) s, s)) w) as [[err|o] w1] eqn:E1.
  { rewrite (do_error _ _ _ _ _ E1) in E. discriminate. }
  apply do_law in E1 as (s & ([R L] & _ & L2) & EG). cbn in EG, L2.
  rewrite get_law in EG. unfold find_entry in EG. rewrite R, HC in EG. unfold alive in EG. cbn [snd] in EG.
  destruct (Z.ltb_spec (clock s) e).
  - subst o. cbn in E. rewrite ParseInt_Itoa in E by (unfold in_int64, int64_min, int64_max; lia). injection E as <- <-. by left.
  - subst o. cbn in E. injection E as <- <-. right. rewrite <- (law (@al_clock)). lia.
Qed.

(** A token whose claims were filled in at times up to that of [w]. *)
Definition issued_before (w : W) (c : customClaims) : Prop :=
  exists t1 t2 ttl, t1 <= time w /\ t2 <= time w /\ ttl <= p.(ap_cfg).(RefreshTTL)
    /\ c.(ExpiresAt) = Unix (t1 + ttl) /\ c.(IssuedAt) = Some (Unix t2).

Lemma outlives u w0 w c iat w' e : cut u w c e -> Unix (time w0) <= c -> UnixMilli (time w0) + cutoff_ms <= e ->
  forall claims, issued_before w0 claims -> claims.(IssuedAt) = Some iat ->
  1 <= c /\ iat <= c /\ (e <= UnixMilli (time w') -> time_Unix claims.(ExpiresAt) <= time w').
Proof.
  intros (_ & [HC _] & _) L1 L2 claims (t1 & t2 & ttl & T1 & T2 & T3 & EX & EI) HI. split; [done|].
  split; [rewrite EI in HI; injection HI as <-; pose proof (Unix_mono _ _ T2); lia|]. intros HE. rewrite EX.
  destruct (law (@al_ttl)) as [_ HM]. unfold cutoff_ms in *. unfold time_Unix, Unix, UnixMilli, Second in *.
  pose proof (Z.div_mod (p.(ap_cfg).(RefreshTTL)) 1000000). pose proof (Z.div_mod (time w0) 1000000). pose proof (Z.div_mod (time w') 1000000).
  pose proof (Z.mod_pos_bound (time w0) 1000000). pose proof (Z.mod_pos_bound (time w') 1000000).
  pose proof (Z.div_mod (t1 + ttl) 1000000000). pose proof (Z.mod_pos_bound (t1 + ttl) 1000000000).
  pose proof (Z.max_spec 1 (p.(ap_cfg).(RefreshTTL) / 1000000)).
  set (a := (t1 + ttl) / 1000000000) in *. set (x := time w0 / 1000000) in *. set (y := time w' / 1000000) in *.
  set (r := p.(ap_cfg).(RefreshTTL) / 1000000) in *. nia.
Qed.

(** A header or a token from before the cutoff is accepted only if the token
    has expired in the meantime. *)
Lemma middleware_ended u w0 w h claims iat r w' : ended u w0 w -> Unix (time w) < 2 ^ 62 -> issued_before w0 claims ->
  claims.(IssuedAt) = Some iat -> h.(XUserID) = u -> parseTokenIAT p.(ap_ParseFloat) h.(XTokenIat) = Some iat ->
  auth_middleware p h w = (inr r, w') -> time_Unix claims.(ExpiresAt) <= time w'.
Proof.
  intros (c & e & HC & L1 & L2) HB HI EI HU HT E. unfold auth_middleware, AuthMiddleware in E.
  destruct (bool_decide _); [discriminate|]. rewrite HT, HU in E. apply bind_inr_inv in E as (v & w1 & E1 & E).
  apply on_error_inr in E1. destruct (outlives u w0 w c iat w1 e HC L1 L2 claims HI EI) as (H1 & H2 & H3).
  apply (read_cutoff u c e) in E1 as [->|E1]; [| |done|done].
  - rewrite (proj2 (Z.ltb_lt 0 c)), (proj2 (Z.leb_le iat c)) in E by lia. discriminate.
  - destruct ((0 <? v) && (iat <=? v)); [discriminate|]. injection E as _ <-. by apply H3.
Qed.

Lemma refresh_ended u w0 w token claims r w' : ended u w0 w -> Unix (time w') < 2 ^ 62 -> issued_before w0 claims ->
  claims.(Subject) = u -> (forall t c, p.(ap_lib).(jwt_Parse) token p.(ap_cfg).(RefreshSecret) t = Some c -> c = claims) ->
  auth_refresh p token w = (inr r, w') -> time_Unix claims.(ExpiresAt) <= time w'.
Proof.
  intros HE HB HI HU HP E.
  assert (forall A (m : M W A) w1 x w2, m w1 = (x, w2) -> moves (quiet u) m -> cut_le u w1 w2) as K
    by (intros A m w1 x w2 Em Hm; apply quiet_cut; by eapply Hm).
  destruct (login_parts_quiet u) as (_ & _ & _ & L4 & L5 & _).
  unfold auth_refresh, refresh in E. apply bind_inr_inv in E as (z & w1 & E1 & E).
  assert (cut_le u w w1) as C1 by (eapply K; [exact E1|]; unfold abuse_allow; calls u (quiet_self u)).
  apply bind_inr_inv in E as ([[[id name] role] iat] & w2 & E2 & E). apply on_error_inr in E2.
  assert (cut_le u w1 w2) as C2 by (eapply K; [exact E2|]; port_call u).
  cbn in E2. unfold verifyToken in E2. apply bind_inr_inv in E2 as (t & w2' & _ & E2).
  destruct (jwt_Parse _ _ _ _) as [c0|] eqn:EP; [|discriminate]. apply HP in EP as ->.
  destruct (IssuedAt claims) as [iat'|] eqn:EI; [|discriminate]. injection E2 as <- _ _ <- ->.
  apply bind_inr_inv in E as (v & w3 & E3 & E). apply on_error_inr in E3. rewrite HU in E3.
  assert (cut_le u w2 w3) as C3 by (eapply K; [exact E3|]; port_call u).
  assert (time w2 <= time w' /\ time w3 <= time w') as [T1 T2].
  { destruct ((0 <? v) && (iat' <=? v)); [discriminate|].
    assert (cut_le u w3 w') as [T _] by (eapply K; [exact E|]; calls u (quiet_self u); auto). destruct C3 as [T3 _]. lia. }
  pose proof (ended_after _ _ _ _ HE (transitivity C1 C2)) as (c & e & HC & M1 & M2).
  destruct (outlives u w0 w2 c iat' w3 e HC M1 M2 claims HI EI) as (H1 & H2 & H3).
  apply (read_cutoff u c e) in E3 as [->|E3]; [| |done|pose proof (Unix_mono _ _ T1); lia].
  - rewrite (proj2 (Z.ltb_lt 0 c)), (proj2 (Z.leb_le iat' c)) in E by lia. discriminate.
  - specialize (H3 E3). lia.
Qed.

Lemma logout_ended u w w' : auth_logoutAll p u w = (inr tt, w') -> ended u w w'.
Proof.
  intros E. unfold auth_logoutAll, logoutAll in E. destruct (bool_decide _); [discriminate|].
  pose proof (now_cutoff u u internal w) as HN. cbn in E. unfold bind in *.
  destruct (AuthNow (ap_sv p) w) as [[e|t] w1]; [discriminate|]. rewrite E in HN. destruct (HN _ _ eq_refl) as [_ HE].
  by apply (HE t).
Qed.

Lemma steps_ended u w0 w1 w2 : ended u w0 w1 -> rtc (auth_step p server accounts time) w1 w2 -> ended u w0 w2.
Proof.
  intros HE HS. induction HS as [w|w w1' w2 H1 HS IH]; [done|]. apply IH. eapply ended_after; [exact HE|].
  by apply guarded_cut, step_guarded.
Qed.
End revocation.
