(* ===== verification/AuthLimits.v ===== *)
(** What the admission script promises: every constraint of a request is
    counted, or none is; then what one-time tokens promise. *)

From S2P Require Import Prelude GoString GoError GoMonad GoCrypto Redis AuthDomain AuthRedis.

Section limits.
Context {S : Type} `{RL : RedisLaws S}.

(** The value of a counter; one that does not exist counts zero. *)
Definition counter (k : string) (s : S) : Z :=
  match find_entry k s with None => 0 | Some (v, _) => default 0 (ParseInt v) end.

(** Counters hold numbers that can still be counted up. *)
Definition counting (k : string) (s : S) : Prop :=
  forall v t, find_entry k s = Some (v, t) -> exists n, ParseInt v = Some n /\ 0 <= n < int64_max.

Lemma counter_get k s : counting k s ->
  (match GET k s with None => Some 0 | Some v => ParseInt v end) = Some (counter k s) /\ 0 <= counter k s < int64_max.
Proof.
  intros HC. rewrite get_law. unfold counter. destruct (find_entry k s) as [[v t]|] eqn:E; [|cbn; split; [done|unfold int64_max; lia]].
  destruct (HC v t E) as (n & P & B). cbn. rewrite P. done.
Qed.

Lemma find_entry_ext k s s' : raw s' !! k = raw s !! k -> clock s' = clock s -> find_entry k s' = find_entry k s.
Proof. intros E1 E2. unfold find_entry. by rewrite E1, E2. Qed.

(** Counting a key up: its value grows by one, its window starts with the first
    event, and no other key changes. *)
Lemma count_up k window s v s1 : counting k s -> 0 < window -> INCR k s = (v, s1) ->
  let s' := match v with Some 1 => PEXPIRE k window s1 | _ => s1 end in
  v = Some (counter k s + 1) /\ counter k s' = counter k s + 1 /\ clock s' = clock s
  /\ forall k', k' <> k -> raw s' !! k' = raw s !! k'.
Proof.
  intros HC HW E. destruct (counter_get k s HC) as [_ HB]. pose proof (incr_law k s) as [EC EL]. rewrite E in EC, EL. cbn [fst snd] in *.
  assert (exists t, v = Some (counter k s + 1) /\ raw s1 = <[k := (Itoa (counter k s + 1), t)]> (raw s)
    /\ alive (clock s) (Itoa (counter k s + 1), t) = true) as (t & -> & ER & EA).
  { unfold counter in *. destruct (find_entry k s) as [[x t]|] eqn:EF.
    - destruct (HC x t EF) as (n & P & B). rewrite P in EL |- *. cbn in *. destruct (EL ltac:(lia)) as [-> ->]. exists t.
      split_ands; [done|done|]. unfold find_entry in EF. destruct (raw s !! k) as [e|]; [|done].
      destruct (alive (clock s) e) eqn:EA; [|done]. injection EF as ->. exact EA.
    - destruct EL as [-> ->]. exists None. done. }
  assert (find_entry k s1 = Some (Itoa (counter k s + 1), t)) as EF.
  { unfold find_entry. rewrite ER, lookup_insert_eq, EC, EA. done. }
  assert (ParseInt (Itoa (counter k s + 1)) = Some (counter k s + 1)) as EP.
  { apply ParseInt_Itoa. unfold in_int64, int64_min, int64_max in *. lia. }
  split; [done|]. destruct (decide (counter k s + 1 = 1)) as [H1|H1].
  - rewrite H1 in *. cbv zeta. destruct (pexpire_law k window s1) as [PC PR]. rewrite EF in PR. split_ands.
    + unfold counter. unfold find_entry. rewrite PR, lookup_insert_eq, PC. unfold alive. cbn [snd].
      rewrite (proj2 (Z.ltb_lt _ _)) by lia. by rewrite EP.
    + congruence.
    + intros k' Hk. rewrite PR, lookup_insert_ne, ER, lookup_insert_ne; done.
  - assert ((match Some (counter k s + 1) with Some 1 => PEXPIRE k window s1 | _ => s1 end) = s1) as ->.
    { destruct (counter k s + 1) as [|[ | |]|]; done. }
    cbv zeta. split_ands; [unfold counter at 1; by rewrite EF, EP|done|].
    intros k' Hk. by rewrite ER, lookup_insert_ne.
Qed.

(** ** The arguments of the script *)

Definition scope_key (sc : AdmissionScope) : string := authAbuseKey sc.(AsPurpose) sc.(AsScope).
Definition scope_args (scs : list AdmissionScope) : list Z :=
  concat (map (fun sc => [sc.(AsLimit); Milliseconds sc.(AsWindow)]) scs).
Definition scope_ok (sc : AdmissionScope) : Prop := 0 < sc.(AsLimit) /\ 0 < Milliseconds sc.(AsWindow).

Lemma appendKey_ok a b ks ks' : appendKey a b ks = inr ks' -> ks' = ks ++ [authAbuseKey a b] /\ authAbuseKey a b ∉ ks.
Proof. unfold appendKey. repeat (case_match; [discriminate|]). intros [= <-]. bools. done. Qed.

Lemma scope_arguments_ok scs ks ars ks' ars' : scope_arguments scs ks ars = inr (ks', ars') -> NoDup ks ->
  ks' = ks ++ map scope_key scs /\ ars' = ars ++ scope_args scs /\ Forall scope_ok scs /\ NoDup ks'.
Proof.
  revert ks ars. induction scs as [|sc scs IH]; intros ks ars; cbn [scope_arguments].
  - intros [= <- <-] HN. by rewrite !app_nil_r.
  - destruct (Z.leb_spec sc.(AsLimit) 0); [discriminate|].
    destruct ((AsWindow sc <=? 0) || (Milliseconds (AsWindow sc) <=? 0)) eqn:EW; [discriminate|]. bools.
    destruct (appendKey _ _ ks) as [e|ks2] eqn:EK; [discriminate|]. apply appendKey_ok in EK as [-> HK]. intros E HN.
    apply IH in E as (-> & -> & HF & HN2).
    + cbn. rewrite <- !app_assoc. split_ands; [done|done| |by rewrite <- app_assoc in HN2]. constructor; [split; lia|done].
    + apply NoDup_app. split_ands; [done| |apply NoDup_singleton]. intros x Hx ->%list_elem_of_singleton. done.
Qed.

(** The script is at constraint number [i], the first one of [scs]. *)
Record at_scope (KEYS : list string) (ARGV : list Z) (i : Z) (scs : list AdmissionScope) (ra : list Z) : Prop := {
  as_pos : 1 <= i;
  as_keys : exists pk rk, KEYS = pk ++ map scope_key scs ++ rk /\ Z.of_nat (length pk) = i - 1;
  as_args : exists c pa, ARGV = c :: pa ++ scope_args scs ++ ra /\ Z.of_nat (length pa) = 2 * (i - 1);
}.

Lemma nth_middle_Z {A} (l r : list A) x d n : n = Z.of_nat (length l) -> nth (Z.to_nat n) (l ++ x :: r) d = x.
Proof. intros ->. rewrite Nat2Z.id. apply nth_middle. Qed.

Lemma at_scope_here KEYS ARGV i sc scs ra : at_scope KEYS ARGV i (sc :: scs) ra ->
  key_at KEYS i = scope_key sc /\ arg_at ARGV (2 + (i - 1) * 2) = sc.(AsLimit)
  /\ arg_at ARGV (3 + (i - 1) * 2) = Milliseconds sc.(AsWindow).
Proof.
  intros [HP (pk & rk & -> & HK) (c & pa & -> & HA)]. cbn [map app]. unfold key_at, arg_at. split_ands.
  - by rewrite nth_middle_Z.
  - change (c :: pa ++ scope_args (sc :: scs) ++ ra)
      with ((c :: pa) ++ sc.(AsLimit) :: (Milliseconds sc.(AsWindow) :: scope_args scs ++ ra)).
    apply nth_middle_Z. cbn [length]. lia.
  - replace (c :: pa ++ scope_args (sc :: scs) ++ ra)
      with ((c :: pa ++ [sc.(AsLimit)]) ++ Milliseconds sc.(AsWindow) :: (scope_args scs ++ ra))
      by (cbn; by rewrite <- app_assoc).
    apply nth_middle_Z. cbn [length]. rewrite length_app. cbn. lia.
Qed.

Lemma at_scope_next KEYS ARGV i sc scs ra : at_scope KEYS ARGV i (sc :: scs) ra -> at_scope KEYS ARGV (i + 1) scs ra.
Proof.
  intros [HP (pk & rk & -> & HK) (c & pa & -> & HA)]. split; [lia| |].
  - exists (pk ++ [scope_key sc]), rk. split; [by rewrite <- app_assoc|]. rewrite length_app. cbn. lia.
  - exists c, (pa ++ [sc.(AsLimit); Milliseconds sc.(AsWindow)]). split; [by rewrite <- !app_assoc|].
    rewrite length_app. cbn. lia.
Qed.

Definition open_scope (s : S) (sc : AdmissionScope) : Prop := counter (scope_key sc) s < sc.(AsLimit).

(** The first loop: nothing to wait for exactly when every counter is below its limit. *)
Lemma check_spec KEYS ARGV ra s scs : Forall scope_ok scs -> Forall (fun sc => counting (scope_key sc) s) scs ->
  forall i r, at_scope KEYS ARGV i scs ra -> 0 <= r ->
  exists r', check_scopes KEYS ARGV (length scs) i r s = Some r' /\ r <= r'
    /\ (Forall (open_scope s) scs -> r' = r) /\ (~ Forall (open_scope s) scs -> 0 < r').
Proof.
  intros HO HC. induction scs as [|sc scs IH]; intros i r HS HR; cbn [length check_scopes].
  { exists r. split_ands; [done|lia|done|]. intros HF. by destruct HF. }
  apply Forall_cons in HO as [[HL HW] HO], HC as [HC1 HC]. destruct (at_scope_here _ _ _ _ _ _ HS) as (-> & -> & ->).
  destruct (counter_get (scope_key sc) s HC1) as [-> HB].
  destruct (Z.leb_spec (AsLimit sc) (counter (scope_key sc) s)) as [HG|HG].
  - set (ttl := if PTTL (scope_key sc) s <=? 0 then Milliseconds (AsWindow sc) else PTTL (scope_key sc) s).
    assert (0 < ttl) as HT by (unfold ttl; destruct (Z.leb_spec (PTTL (scope_key sc) s) 0); lia).
    assert (r <= larger ttl r /\ 0 < larger ttl r) as [HL1 HL2] by (unfold larger; destruct (Z.ltb_spec r ttl); lia).
    destruct (IH HO HC (i + 1) (larger ttl r)) as (r' & E & L & _ & _); [by eapply at_scope_next|lia|].
    exists r'. split_ands; [done|lia| |lia]. intros [HF _]%Forall_cons. unfold open_scope in *. lia.
  - destruct (IH HO HC (i + 1) r) as (r' & E & L & P1 & P2); [by eapply at_scope_next|done|].
    exists r'. split_ands; [done|lia| |]; [by intros [_ HF]%Forall_cons; apply P1|].
    intros HF. apply P2. intros HF2. apply HF. by constructor.
Qed.

(** The second loop: every counter goes up by one. *)
Lemma count_spec KEYS ARGV ra scs : Forall scope_ok scs -> NoDup (map scope_key scs) ->
  forall i s, at_scope KEYS ARGV i scs ra -> Forall (fun sc => counting (scope_key sc) s) scs ->
  exists s', count_scopes KEYS ARGV (length scs) i s = (Some tt, s') /\ clock s' = clock s
    /\ Forall (fun sc => counter (scope_key sc) s' = counter (scope_key sc) s + 1) scs
    /\ forall k, k ∉ map scope_key scs -> raw s' !! k = raw s !! k.
Proof.
  intros HO HN. induction scs as [|sc scs IH]; intros i s HS HC; cbn [length count_scopes].
  { exists s. split_ands; [done|done|constructor|done]. }
  apply Forall_cons in HO as [[HL HW] HO], HC as [HC1 HC]. cbn in HN. apply NoDup_cons in HN as [HN1 HN2].
  destruct (at_scope_here _ _ _ _ _ _ HS) as (-> & _ & ->).
  destruct (INCR (scope_key sc) s) as [v s1] eqn:EI.
  pose proof (count_up _ (Milliseconds sc.(AsWindow)) s v s1 HC1 HW EI) as (-> & E1 & E2 & E3). cbv zeta in *.
  set (s2 := match Some (counter (scope_key sc) s + 1) with Some 1 => PEXPIRE (scope_key sc) (Milliseconds (AsWindow sc)) s1 | _ => s1 end) in *.
  replace (if counter (scope_key sc) s + 1 =? 1 then PEXPIRE (scope_key sc) (Milliseconds (AsWindow sc)) s1 else s1) with s2
    by (unfold s2; destruct (Z.eqb_spec (counter (scope_key sc) s + 1) 1) as [->|]; [done|];
        destruct (counter (scope_key sc) s + 1) as [|[ | |]|]; done).
  assert (forall sc', sc' ∈ scs -> find_entry (scope_key sc') s2 = find_entry (scope_key sc') s) as HE.
  { intros sc' Hsc. apply find_entry_ext; [|done]. apply E3. intros EK. apply HN1. rewrite <- EK. by apply list_elem_of_fmap_2. }
  destruct (IH HO HN2 (i + 1) s2) as (s' & -> & EC & EF & ER); [by eapply at_scope_next| |].
  { rewrite Forall_forall in HC |- *. intros sc' Hsc v t. rewrite (HE sc' Hsc). by apply HC. }
  exists s'. split_ands; [done|by rewrite EC| |].
  - constructor.
    + rewrite <- E1. unfold counter. by rewrite (find_entry_ext _ s2 s') by (done || by apply ER).
    + rewrite Forall_forall in EF |- *. intros sc' Hsc. rewrite (EF sc' Hsc). unfold counter. by rewrite HE.
  - intros k Hk. cbn in Hk. apply not_elem_of_cons in Hk as [Hk1 Hk2]. rewrite (ER k Hk2). by apply E3.
Qed.

(** ** Requests *)

Definition cooldown_key (cd : CooldownScope) : string := authAbuseKey cd.(CsPurpose) cd.(CsScope).
Definition request_keys (request : AdmissionRequest) : list string :=
  map scope_key request.(ArScopes)
  ++ match request.(ArCooldown) with Some cd => [cooldown_key cd] | None => [] end.
Definition request_args (request : AdmissionRequest) : list Z :=
  match request.(ArCooldown) with Some cd => [Milliseconds cd.(CsDuration)] | None => [] end.

Lemma admissionArguments_ok request keys args : admissionArguments request = inr (keys, args) ->
  keys = request_keys request /\ NoDup keys /\ Forall scope_ok request.(ArScopes)
  /\ args = Z.of_nat (length request.(ArScopes)) :: scope_args request.(ArScopes) ++ request_args request
  /\ match request.(ArCooldown) with Some cd => 0 < Milliseconds cd.(CsDuration) | None => True end.
Proof.
  unfold admissionArguments, request_keys, request_args. case_match; [discriminate|].
  destruct (scope_arguments _ _ _) as [e|[ks ars]] eqn:E; [discriminate|].
  apply scope_arguments_ok in E as (-> & -> & HF & HN); [|constructor]. cbn [app] in *. destruct (ArCooldown request) as [cd|].
  - destruct ((CsDuration cd <=? 0) || (Milliseconds (CsDuration cd) <=? 0)) eqn:EW; [discriminate|]. bools.
    destruct (appendKey _ _ _) as [e|ks2] eqn:EK; [discriminate|]. apply appendKey_ok in EK as [-> HK]. intros [= <- <-].
    split_ands; try done. apply NoDup_app. split_ands; [done| |apply NoDup_singleton]. by intros x Hx ->%list_elem_of_singleton.
  - intros [= <- <-]. rewrite !app_nil_r. done.
Qed.

(** All limits and the cooldown leave room for one more event. *)
Definition admissible (request : AdmissionRequest) (s : S) : Prop :=
  Forall (open_scope s) request.(ArScopes)
  /\ match request.(ArCooldown) with Some cd => find_entry (cooldown_key cd) s = None | None => True end.

Lemma admissible_dec request s : admissible request s \/ ~ admissible request s.
Proof.
  unfold admissible. assert (Forall (open_scope s) (ArScopes request) \/ ~ Forall (open_scope s) (ArScopes request)) as [HF|HF].
  { destruct (decide (Forall (fun sc => counter (scope_key sc) s < AsLimit sc) (ArScopes request))); auto. }
  - destruct (ArCooldown request) as [cd|]; [|by left]. destruct (find_entry (cooldown_key cd) s); [right|by left]. by intros [_ [=]].
  - right. by intros [? _].
Qed.

Definition cooldown_starts (request : AdmissionRequest) (s s' : S) : Prop :=
  match request.(ArCooldown) with
  | Some cd => find_entry (cooldown_key cd) s' = Some ("1"%string, Some (clock s + Milliseconds cd.(CsDuration)))
  | None => True
  end.

Lemma at_scope_start request :
  at_scope (request_keys request) (Z.of_nat (length request.(ArScopes)) :: scope_args request.(ArScopes) ++ request_args request)
    1 request.(ArScopes) (request_args request).
Proof. split; [lia|by exists [], (match request.(ArCooldown) with Some cd => [cooldown_key cd] | None => [] end)|by eexists _, []]. Qed.

(** The key and the duration of the cooldown, in the arithmetic of the script. *)
Lemma cooldown_index request : let n := Z.of_nat (length request.(ArScopes)) in
  let ARGV := n :: scope_args request.(ArScopes) ++ request_args request in
  match request.(ArCooldown) with
  | Some cd => (Z.of_nat (length (request_keys request)) =? n + 1) = true
      /\ key_at (request_keys request) (n + 1) = cooldown_key cd /\ arg_at ARGV (2 + n * 2) = Milliseconds cd.(CsDuration)
  | None => (Z.of_nat (length (request_keys request)) =? n + 1) = false
  end.
Proof.
  cbv zeta. unfold request_keys, request_args. destruct (ArCooldown request) as [cd|]; rewrite !length_app, length_map; cbn [length].
  - split_ands; [apply Z.eqb_eq; lia| |].
    + unfold key_at. apply nth_middle_Z. rewrite length_map. lia.
    + unfold arg_at. change (?c :: ?l ++ ?r) with ((c :: l) ++ r). apply nth_middle_Z. cbn [length].
      assert (length (scope_args (ArScopes request)) = 2 * length (ArScopes request))%nat as ->; [|lia].
      unfold scope_args. induction (ArScopes request); cbn; [done|]. lia.
  - apply Z.eqb_neq. lia.
Qed.

(** The script counts every constraint of an admissible request and nothing of
    any other. *)
Lemma admission_run request keys args s : admissionArguments request = inr (keys, args) ->
  Forall (fun sc => counting (scope_key sc) s) request.(ArScopes) ->
  exists ok retry s', admissionScript keys args s = (Some (ok, retry), s')
    /\ (admissible request s -> ok = 1 /\ cooldown_starts request s s'
         /\ Forall (fun sc => counter (scope_key sc) s' = counter (scope_key sc) s + 1) request.(ArScopes)
         /\ forall k, k ∉ request_keys request -> raw s' !! k = raw s !! k)
    /\ (~ admissible request s -> ok = 0 /\ 0 < retry /\ s' = s).
Proof.
  intros (-> & HN & HO & -> & HD)%admissionArguments_ok HC. unfold admissionScript.
  pose proof (cooldown_index request) as HI. cbv zeta in HI.
  change (arg_at (Z.of_nat (length (ArScopes request)) :: scope_args (ArScopes request) ++ request_args request) 1)
    with (Z.of_nat (length (ArScopes request))). rewrite Nat2Z.id. cbv zeta.
  destruct (check_spec _ _ _ s _ HO HC 1 0 (at_scope_start request)) as (r & -> & L & R1 & R2); [lia|].
  assert (NoDup (map scope_key (ArScopes request))) as HN1 by (unfold request_keys in HN; by apply NoDup_app in HN as [HN _]).
  destruct (count_spec _ _ _ _ HO HN1 1 s (at_scope_start request) HC) as (s' & HR & EC & EF & ER). rewrite HR.
  assert (Forall (open_scope s) (ArScopes request) \/ ~ Forall (open_scope s) (ArScopes request)) as HF.
  { destruct (decide (Forall (fun sc => counter (scope_key sc) s < AsLimit sc) (ArScopes request))); auto. }
  unfold admissible, cooldown_starts. destruct (ArCooldown request) as [cd|] eqn:ECD.
  - destruct HI as (-> & -> & ->). cbn [andb]. unfold EXISTS. rewrite get_law.
    destruct (find_entry (cooldown_key cd) s) as [e|] eqn:EE; cbn [fmap option_fmap option_map].
    + rewrite bool_decide_true by eauto. set (ttl := if PTTL _ s <=? 0 then _ else _).
      assert (0 < ttl) as HT by (unfold ttl; destruct (Z.leb_spec (PTTL (cooldown_key cd) s) 0); lia).
      assert (0 < larger ttl r) as HL by (unfold larger; destruct (Z.ltb_spec r ttl); lia).
      rewrite (proj2 (Z.ltb_lt _ _)) by done. eexists _, _, s. split; [done|]. split; [by intros [_ [=]]|done].
    + rewrite bool_decide_false by (intros [? [=]]). destruct HF as [HF|HF].
      * rewrite (R1 HF), Z.ltb_irrefl. eexists _, _, _. split; [done|]. split; [|intros HA; by destruct HA].
        intros _. split; [done|]. destruct (set_law (cooldown_key cd) "1" (Some (Milliseconds (CsDuration cd))) s') as [SC SR].
        unfold request_keys in *. rewrite ECD in *. apply NoDup_app in HN as (_ & HN & _).
        split_ands.
        -- unfold find_entry. rewrite SR, lookup_insert_eq, SC, EC. unfold alive. cbn.
           by rewrite (proj2 (Z.ltb_lt _ _)) by lia.
        -- rewrite Forall_forall in EF |- *. intros sc Hsc. rewrite <- (EF sc Hsc). unfold counter.
           rewrite (find_entry_ext _ s' (SET _ _ _ _)); [done| |done]. rewrite SR, lookup_insert_ne; [done|].
           intros EK. apply (HN (scope_key sc)); [by apply list_elem_of_fmap_2|]. rewrite <- EK. by left.
        -- intros k Hk. apply not_elem_of_app in Hk as [Hk1 Hk2]. rewrite SR, lookup_insert_ne; [by apply ER|].
           intros <-. apply Hk2. by left.
      * rewrite (proj2 (Z.ltb_lt _ _)) by auto. eexists _, _, s. split; [done|]. split; [by intros [? _]|auto].
  - rewrite HI. cbn [andb]. destruct HF as [HF|HF].
    + rewrite (R1 HF), Z.ltb_irrefl. eexists _, _, _. split; [done|]. split; [|intros HA; by destruct HA].
      intros _. unfold request_keys. rewrite ECD, app_nil_r. done.
    + rewrite (proj2 (Z.ltb_lt _ _)) by auto. eexists _, _, s. split; [done|]. split; [by intros [? _]|auto].
Qed.
End limits.

(** The life of a one-time token in Redis: it is found until it is used, used at
    most once, and superseded by the next token of the same user. *)

Section tokens.
Context {S W : Type} `{RL : RedisLaws S} (rdb : client S W) (server : W -> S) {CL : ClientLaws rdb server}.

(** Two worlds in which one key has the same entry. *)
Definition same_key (k : string) (w w' : W) : Prop :=
  raw (server w') !! k = raw (server w) !! k /\ clock (server w) <= clock (server w').
(** ... or lost it. *)
Definition gone_key (k : string) (w w' : W) : Prop :=
  (raw (server w) !! k = None -> raw (server w') !! k = None) /\ clock (server w) <= clock (server w').

#[export] Instance gone_key_preorder k : PreOrder (gone_key k).
Proof. split; [intros w; split; [done|lia]|]. intros w1 w2 w3 [H1 L1] [H2 L2]. split; [auto|lia]. Qed.

Lemma do_gone {A} k (f : S -> A * S) : (forall s, raw s !! k = None -> raw (f s).2 !! k = None) -> moves (gone_key k) (Do rdb f).
Proof.
  intros HF w r w' E. apply do_law in E. destruct r as [e|a].
  - destruct E as [[E L]|(s & [E L] & E2 & L2)]; [split; [by rewrite E|done]|]. split; [|lia]. rewrite E2, <- E. apply HF.
  - destruct E as (s & ([E L] & E2 & L2) & _). split; [|lia]. rewrite E2, <- E. apply HF.
Qed.

Lemma watch_gone {A} k (f : S -> error + (A * (S -> S))) :
  (forall s a block, f s = inr (a, block) -> raw s !! k = None -> raw (block s) !! k = None) -> moves (gone_key k) (Watch rdb f).
Proof.
  intros HF w r w' E. apply watch_law in E. destruct r as [e|a].
  - destruct E as [[E L]|(s & a & block & EB & [E L] & E2 & L2)]; [split; [by rewrite E|done]|].
    split; [|lia]. rewrite E2, <- E. by eapply HF.
  - destruct E as (s & block & EB & [E L] & E2 & L2). split; [|lia]. rewrite E2, <- E. by eapply HF.
Qed.

Lemma get_gone k k' : moves (gone_key k) (Get rdb k').
Proof. unfold Get. repeat moves_step. by apply do_gone. Qed.

Lemma set_gone k k' v d s : k' <> k -> raw s !! k = None -> raw (SET k' v d s) !! k = None.
Proof. intros HK HN. destruct (set_law k' v d s) as [_ ->]. by rewrite lookup_insert_ne. Qed.
Lemma del_gone k k' s : raw s !! k = None -> raw (DEL k' s) !! k = None.
Proof. intros HN. destruct (del_law k' s) as [_ ->]. destruct (decide (k' = k)) as [->|HK]; [by rewrite lookup_delete_eq|by rewrite lookup_delete_ne]. Qed.

(** ** Keys *)

Definition known_purpose (p : TokenPurpose) : Prop := p = TokenPurposeVerifyEmail \/ p = TokenPurposeResetPassword.

Lemma tokenKey_inj p h p' h' : known_purpose p -> known_purpose p' -> tokenKey p h = tokenKey p' h' -> p = p' /\ h = h'.
Proof.
  intros [-> | ->] [-> | ->] E; cbv [tokenKey TokenPurposeVerifyEmail TokenPurposeResetPassword String.append] in E;
    [|discriminate E|discriminate E|]; injection E as ->; done.
Qed.
Lemma token_latest p h p' i : known_purpose p -> latestTokenKey p' i <> tokenKey p h.
Proof. intros [-> | ->] E; cbv [tokenKey latestTokenKey TokenPurposeVerifyEmail TokenPurposeResetPassword String.append] in E; discriminate E. Qed.
Lemma token_cooldown p h p' i : known_purpose p -> resendCooldownKey p' i <> tokenKey p h.
Proof. intros [-> | ->] E; cbv [tokenKey resendCooldownKey TokenPurposeVerifyEmail TokenPurposeResetPassword String.append] in E; discriminate E. Qed.
(** ** The calls of the repository *)

(** Any call but saving the token of purpose [p] and hash [h] again. *)
Inductive token_call (p : TokenPurpose) (h : string) (w w' : W) : Prop :=
| call_save p' h' i ttl r : known_purpose p' -> (p', h') <> (p, h) -> token_Save rdb p' h' i ttl w = (r, w') -> token_call p h w w'
| call_find p' h' r : token_FindByToken rdb p' h' w = (r, w') -> token_call p h w w'
| call_consume p' h' r : token_Consume rdb p' h' w = (r, w') -> token_call p h w w'
| call_delete p' h' r : token_Delete rdb p' h' w = (r, w') -> token_call p h w w'
| call_cooldown p' i ttl r : token_TryAcquireResendCooldown rdb p' i ttl w = (r, w') -> token_call p h w w'.

Lemma consume_gone k p h : moves (gone_key k) (token_Consume rdb p h).
Proof.
  unfold token_Consume. repeat moves_step; [apply get_gone|]. apply watch_gone. intros s [] block. unfold consume_tx.
  repeat (case_match; try discriminate). intros [= <-] HN. by apply del_gone, del_gone.
Qed.

Lemma call_gone p h w w' : known_purpose p -> token_call p h w w' -> gone_key (tokenKey p h) w w'.
Proof.
  intros HP. assert (forall A (m : M W A) r, moves (gone_key (tokenKey p h)) m -> m w = (r, w') -> gone_key (tokenKey p h) w w') as K
    by (intros A m r Hm E; by eapply Hm).
  destruct 1 as [p' h' i ttl r HP' Hne E|p' h' r E|p' h' r E|p' h' r E|p' i ttl r E]; (eapply K; [|exact E]).
  - apply do_gone. intros s HN. cbn. apply set_gone; [by apply token_latest|]. apply set_gone; [|done].
    intros EK. apply tokenKey_inj in EK as [-> ->]; [done|done|done].
  - unfold token_FindByToken. repeat moves_step; apply get_gone.
  - apply consume_gone.
  - unfold token_Delete. cbv zeta. repeat moves_step; try apply get_gone; apply do_gone; intros ? HN; cbn;
      (case_match; [apply del_gone|]; by apply del_gone).
  - apply do_gone. intros s HN. case_match; [done|]. apply set_gone; [by apply token_cooldown|done].
Qed.

(** A successful [Get] saw the entry. *)
Lemma get_found k w v w' : Get rdb k w = (inr v, w') ->
  raw (server w') = raw (server w) /\ clock (server w) <= clock (server w') /\ exists t, raw (server w) !! k = Some ((v, t) : entry).
Proof.
  unfold Get. intros E. apply bind_inr_inv in E as (o & w1 & E1 & E). destruct o as [v'|]; [|discriminate]. injection E as -> ->.
  apply do_law in E1 as (s & ([R L] & E2 & L2) & EG). cbn in *. split; [congruence|]. split; [lia|].
  rewrite get_law in EG. unfold find_entry in EG. rewrite R in EG. destruct (raw (server w) !! k) as [[x t]|]; [|done].
  destruct (alive _ _); [|done]. injection EG as ->. eauto.
Qed.

(** Using a token removes it. *)
Lemma consume_removes p h w i w' : known_purpose p -> token_Consume rdb p h w = (inr i, w') -> raw (server w') !! tokenKey p h = None.
Proof.
  intros HP E. unfold token_Consume in E. apply bind_inr_inv in E as (i' & w1 & E1 & E). apply bind_inr_inv in E as ([] & w2 & E2 & E).
  injection E as <- <-. apply on_error_inr, watch_law in E2 as (s & block & EB & _ & E2 & _).
  unfold consume_tx in EB. repeat (case_match; try discriminate). injection EB as <-. rewrite E2.
  destruct (del_law (latestTokenKey p i') (DEL (tokenKey p h) s)) as [_ ->]. rewrite lookup_delete_ne by by apply token_latest.
  destruct (del_law (tokenKey p h) s) as [_ ->]. by rewrite lookup_delete_eq.
Qed.

(** A token that is gone is neither found nor used. *)
Lemma gone_invalid p h w : raw (server w) !! tokenKey p h = None ->
  (forall i w', token_FindByToken rdb p h w <> (inr i, w')) /\ (forall i w', token_Consume rdb p h w <> (inr i, w')).
Proof.
  intros HN. split; intros i w' E; unfold token_FindByToken, token_Consume in E;
    apply bind_inr_inv in E as (i' & w1 & E1 & _); apply on_error_inr, get_found in E1 as (_ & _ & t & E1); congruence.
Qed.

Lemma calls_gone p h w w' : known_purpose p -> rtc (token_call p h) w w' ->
  raw (server w) !! tokenKey p h = None -> raw (server w') !! tokenKey p h = None.
Proof.
  intros HP HS. induction HS as [w|w w1 w2 H1 HS IH]; [done|]. intros HN. apply IH. by apply (call_gone p h w w1 HP H1).
Qed.

(** ** Saving and finding *)

(** What a saved token looks like: its own entry and the one of its user. *)
Definition stored (p : TokenPurpose) (h i : string) (until : Z) (w : W) : Prop :=
  (exists t, raw (server w) !! tokenKey p h = Some ((i, Some t) : entry) /\ until <= t)
  /\ exists t, raw (server w) !! latestTokenKey p i = Some ((h, Some t) : entry) /\ until <= t.

Lemma save_stored p h i ttl w w' : known_purpose p -> 0 < ttl -> token_Save rdb p h i ttl w = (inr tt, w') ->
  stored p h i (clock (server w) + Z.max 1 (ttl / 1000000)) w'.
Proof.
  intros HP HT E. apply do_law in E as (s & ([R L] & E & L2) & _). cbn in E.
  assert (px ttl = Some (Z.max 1 (ttl / 1000000))) as EP by (unfold px; by rewrite (proj2 (Z.ltb_lt 0 ttl))).
  destruct (set_law (latestTokenKey p i) h (px ttl) (SET (tokenKey p h) i (px ttl) s)) as [_ E1].
  destruct (set_law (tokenKey p h) i (px ttl) s) as [EC E2]. rewrite EP in *. split.
  - exists (clock s + Z.max 1 (ttl / 1000000)). split; [|lia]. rewrite E, E1, lookup_insert_ne by by apply token_latest.
    by rewrite E2, lookup_insert_eq.
  - exists (clock s + Z.max 1 (ttl / 1000000)). split; [|lia]. rewrite E, E1, lookup_insert_eq. cbn. by rewrite EC.
Qed.

(** Reading an entry that is not over yet. *)
Lemma get_stored k v t w r w' : raw (server w) !! k = Some ((v, Some t) : entry) -> Get rdb k w = (r, w') ->
  clock (server w') < t -> (r = inr v /\ raw (server w') = raw (server w)) \/ exists e, r = inl e /\ error_matches e redis_Nil = false.
Proof.
  intros HK E HT. unfold Get, bind in E. destruct (Do rdb _ w) as [[e|o] w1] eqn:E1.
  - injection E as <- <-. right. exists e. split; [done|by eapply do_error].
  - apply do_law in E1 as (s & ([R L] & E2 & L2) & EG). cbn in *. rewrite get_law in EG. unfold find_entry in EG.
    rewrite R, HK in EG. unfold alive in EG. cbn [snd] in EG.
    assert (w1 = w') as -> by (destruct o; by injection E as _ ?).
    rewrite (proj2 (Z.ltb_lt (clock s) t)) in EG by lia. cbn in EG. subst o. injection E as <-. left. split; [done|congruence].
Qed.

(** A call of Redis that failed. *)
Definition connection_error (e : error) : Prop :=
  exists k w0 w1, Get rdb k w0 = (inl e, w1) /\ error_matches e redis_Nil = false.

(** Before its time is over a stored token is found, or the connection fails. *)
Lemma find_stored p h i until w r w' : stored p h i until w -> token_FindByToken rdb p h w = (r, w') ->
  clock (server w') < until -> r = inr i \/ exists e, r = inl e /\ connection_error e.
Proof.
  intros [(t1 & S1 & T1) (t2 & S2 & T2)] E HT. unfold token_FindByToken in E.
  assert (forall w0 w1 (x : error + string) , Get rdb (latestTokenKey p i) w0 = (x, w1) -> clock (server w0) <= clock (server w1)) as HM.
  { intros w0 w1 x Ex. by apply (get_gone ""%string) in Ex as [_ ?]. }
  unfold bind, on_error in E. destruct (Get rdb (tokenKey p h) w) as [[e|i1] w1] eqn:E1.
  - injection E as <- <-. eapply get_stored in E1 as EG; [|exact S1|lia]. destruct EG as [[[=] _]|(e' & [= ->] & N)].
    right. eexists. split; [unfold nil_invalid; by rewrite N|]. by exists (tokenKey p h), w, w1.
  - destruct (Get rdb (latestTokenKey p i1) w1) as [[e|h1] w2] eqn:E2.
    + injection E as <- <-. assert (clock (server w1) <= clock (server w2)) as L by (by apply (get_gone ""%string) in E2 as [_ ?]).
      eapply get_stored in E1 as EG; [|exact S1|lia]. destruct EG as [[[= ->] R]|(e' & [=] & _)].
      eapply get_stored in E2 as EG; [|rewrite R; exact S2|lia]. destruct EG as [[[=] _]|(e' & [= ->] & N)].
      right. eexists. split; [unfold nil_invalid; by rewrite N|]. by exists (latestTokenKey p i), w1, w2.
    + assert (w2 = w') as -> by (destruct (bool_decide _); by injection E as _ ?).
      assert (clock (server w1) <= clock (server w')) as L by (by apply (get_gone ""%string) in E2 as [_ ?]).
      eapply get_stored in E1 as EG; [|exact S1|lia]. destruct EG as [[[= ->] R]|(e' & [=] & _)].
      eapply get_stored in E2 as EG; [|rewrite R; exact S2|lia]. destruct EG as [[[= ->] _]|(e' & [=] & _)].
      rewrite bool_decide_true in E by done. injection E as <-. by left.
Qed.

(** The token saved last is the only one that names its user. *)
Lemma older_token_invalid p h h' i until w i' w' : stored p h i until w -> h' <> h -> clock (server w') < until ->
  token_FindByToken rdb p h' w = (inr i', w') -> i' <> i.
Proof.
  intros [_ (t2 & S2 & T2)] HN HT E ->. unfold token_FindByToken in E. apply bind_inr_inv in E as (i1 & w1 & E1 & E).
  apply bind_inr_inv in E as (h1 & w2 & E2 & E). destruct (bool_decide _) eqn:EB; [|discriminate]. injection E as -> ->. bools. subst h1.
  apply on_error_inr in E1, E2. apply get_found in E1 as (R & _ & _).
  eapply get_stored in E2; [|rewrite R; exact S2|lia]. destruct E2 as [[[= ->] _]|(e & [=] & _)]. done.
Qed.

(** ** A saved token lasts *)

(** Any call that neither uses, withdraws nor replaces the token [h] of [i]. *)
Inductive other_call (p : TokenPurpose) (h i : string) (w w' : W) : Prop :=
| other_save p' h' i' ttl r : known_purpose p' -> (p', h') <> (p, h) -> (p', i') <> (p, i) ->
    token_Save rdb p' h' i' ttl w = (r, w') -> other_call p h i w w'
| other_find p' h' r : token_FindByToken rdb p' h' w = (r, w') -> other_call p h i w w'
| other_consume p' h' r : known_purpose p' -> (p', h') <> (p, h) -> token_Consume rdb p' h' w = (r, w') -> other_call p h i w w'
| other_delete p' h' r : known_purpose p' -> (p', h') <> (p, h) -> token_Delete rdb p' h' w = (r, w') -> other_call p h i w w'
| other_cooldown p' i' ttl r : known_purpose p' -> token_TryAcquireResendCooldown rdb p' i' ttl w = (r, w') -> other_call p h i w w'.

Section lasting.
Context (p : TokenPurpose) (h i : string) (until : Z) (HP : known_purpose p).

Definition stored_in (m : gmap string entry) : Prop :=
  (exists t, m !! tokenKey p h = Some ((i, Some t) : entry) /\ until <= t)
  /\ exists t, m !! latestTokenKey p i = Some ((h, Some t) : entry) /\ until <= t.

(** As long as the clock has not reached [until] the token stays. *)
Definition lasts (w w' : W) : Prop :=
  clock (server w) <= clock (server w') /\ (clock (server w') < until -> stored_in (raw (server w)) -> stored_in (raw (server w'))).

#[export] Instance lasts_preorder : PreOrder lasts.
Proof. split; [intros w; split; [lia|done]|]. intros w1 w2 w3 [L1 H1] [L2 H2]. split; [lia|]. intros HC HS. apply H2, H1; done || lia. Qed.

Lemma do_lasts {A} (f : S -> A * S) : (forall s, clock s < until -> stored_in (raw s) -> stored_in (raw (f s).2)) -> moves lasts (Do rdb f).
Proof.
  intros HF w r w' E. apply do_law in E. destruct r as [e|a].
  - destruct E as [[E L]|(s & [E L] & E2 & L2)]; [split; [done|by rewrite E]|]. split; [lia|]. rewrite E2, <- E. intros ?. apply HF. lia.
  - destruct E as (s & ([E L] & E2 & L2) & _). split; [lia|]. rewrite E2, <- E. intros ?. apply HF. lia.
Qed.

Lemma get_lasts k : moves lasts (Get rdb k).
Proof. unfold Get. repeat moves_step. by apply do_lasts. Qed.

(** Entries under other keys do not matter. *)
Lemma stored_frame m m' : m' !! tokenKey p h = m !! tokenKey p h -> m' !! latestTokenKey p i = m !! latestTokenKey p i ->
  stored_in m -> stored_in m'.
Proof. intros E1 E2. unfold stored_in. by rewrite E1, E2. Qed.

Lemma latestKey_inj p' i' : known_purpose p' -> latestTokenKey p' i' = latestTokenKey p i -> p' = p /\ i' = i.
Proof.
  destruct HP as [-> | ->]; intros [-> | ->] E; cbv [latestTokenKey TokenPurposeVerifyEmail TokenPurposeResetPassword String.append] in E;
    [|discriminate E|discriminate E|]; injection E as ->; done.
Qed.
Lemma latest_cooldown p' i' : known_purpose p' -> resendCooldownKey p' i' <> latestTokenKey p i.
Proof.
  destruct HP as [-> | ->]; intros [-> | ->] E;
    cbv [resendCooldownKey latestTokenKey TokenPurposeVerifyEmail TokenPurposeResetPassword String.append] in E; discriminate E.
Qed.

Lemma stored_get s : clock s < until -> stored_in (raw s) -> GET (tokenKey p h) s = Some i /\ GET (latestTokenKey p i) s = Some h.
Proof.
  intros HC [(t1 & E1 & L1) (t2 & E2 & L2)]. rewrite !get_law. unfold find_entry. rewrite E1, E2. unfold alive. cbn.
  rewrite !(proj2 (Z.ltb_lt _ _)) by lia. done.
Qed.

Lemma save_lasts p' h' i' ttl : known_purpose p' -> (p', h') <> (p, h) -> (p', i') <> (p, i) -> moves lasts (token_Save rdb p' h' i' ttl).
Proof.
  intros HP' N1 N2. apply do_lasts. intros s _. cbn.
  destruct (set_law (latestTokenKey p' i') h' (px ttl) (SET (tokenKey p' h') i' (px ttl) s)) as [_ ->].
  destruct (set_law (tokenKey p' h') i' (px ttl) s) as [_ ->]. apply stored_frame.
  - rewrite lookup_insert_ne by by apply token_latest. rewrite lookup_insert_ne; [done|].
    intros [-> ->]%tokenKey_inj; done.
  - rewrite lookup_insert_ne by (intros [-> ->]%latestKey_inj; done). rewrite lookup_insert_ne; [done|].
    intros E. symmetry in E. by apply token_latest in E.
Qed.

Lemma delete_frame p' h' i1 (m : gmap string entry) : known_purpose p' -> (p', h') <> (p, h) -> (p', i1) <> (p, i) ->
  stored_in m -> stored_in (delete (latestTokenKey p' i1) (delete (tokenKey p' h') m)).
Proof.
  intros HP' N1 N2. apply stored_frame.
  - rewrite lookup_delete_ne by by apply token_latest. rewrite lookup_delete_ne; [done|]. intros [-> ->]%tokenKey_inj; done.
  - rewrite lookup_delete_ne by (intros [-> ->]%latestKey_inj; done). rewrite lookup_delete_ne; [done|].
    intros E. symmetry in E. by apply token_latest in E.
Qed.

Lemma token_delete_frame p' h' (m : gmap string entry) : known_purpose p' -> (p', h') <> (p, h) ->
  stored_in m -> stored_in (delete (tokenKey p' h') m).
Proof.
  intros HP' N1. apply stored_frame; rewrite lookup_delete_ne; try done; [by intros [-> ->]%tokenKey_inj|].
  intros E. symmetry in E. by apply token_latest in E.
Qed.

(** An older token of the same user removes its own entries only. *)
Lemma consume_lasts p' h' : known_purpose p' -> (p', h') <> (p, h) -> moves lasts (token_Consume rdb p' h').
Proof.
  intros HP' N1. unfold token_Consume. repeat moves_step; [apply get_lasts|].
  assert (forall s x block, consume_tx (tokenKey p' h') (latestTokenKey p' a) a h' s = inr (x, block) ->
    clock s < until -> stored_in (raw s) -> stored_in (raw (block s))) as HB.
  { intros s [] block EB HC HS. unfold consume_tx in EB. repeat (case_match; try discriminate). injection EB as <-. bools. subst.
    rewrite !(proj2 (del_law _ _)). apply delete_frame; [done|done| |done].
    intros [= -> ->]. destruct (stored_get s HC HS) as [_ EG]. congruence. }
  intros w r w' E. apply watch_law in E. destruct r as [e|a1].
  - destruct E as [[E L]|(s & a1 & block & EB & [E L] & E2 & L2)]; [split; [done|by rewrite E]|].
    split; [lia|]. rewrite E2, <- E. intros HC. eapply HB; [done|lia].
  - destruct E as (s & block & EB & [E L] & E2 & L2). split; [lia|]. rewrite E2, <- E. intros HC. eapply HB; [done|lia].
Qed.

Lemma delete_lasts p' h' : known_purpose p' -> (p', h') <> (p, h) -> moves lasts (token_Delete rdb p' h').
Proof.
  intros HP' N1 w r w' E. unfold token_Delete in E. cbv zeta in E.
  assert (forall latest i1 w1, (clock (server w') < until -> stored_in (raw (server w1)) -> (p', i1) = (p, i) -> latest <> h') ->
    Do rdb (fun s => let s := DEL (tokenKey p' h') s in (tt, if bool_decide (latest = h') then DEL (latestTokenKey p' i1) s else s)) w1 = (r, w') ->
    lasts w1 w') as KD.
  { intros latest i1 w1 HL ED. pose proof ED as ED0.
    apply do_law in ED as ED'.
    assert (clock (server w1) <= clock (server w')) as LC by (destruct r as [e|a]; [destruct ED' as [[_ L]|(s & [_ L] & _ & L2)]|destruct ED' as (s & ([_ L] & _ & L2) & _)]; lia).
    split; [done|]. intros HC HS. specialize (HL HC HS).
    assert (forall s, raw s = raw (server w1) -> stored_in (raw (if bool_decide (latest = h') then DEL (latestTokenKey p' i1) (DEL (tokenKey p' h') s)
      else DEL (tokenKey p' h') s))) as HF.
    { intros s ES. destruct (bool_decide_reflect (latest = h')) as [HB|HB]; rewrite !(proj2 (del_law _ _)), ES;
        [apply delete_frame|apply token_delete_frame]; try done. intros EI. by apply HL in EI. }
    destruct r as [e|a].
    - destruct ED' as [[ES _]|(s & [ES _] & E2 & _)]; [by rewrite ES|]. rewrite E2. by apply HF.
    - destruct ED' as (s & ([ES _] & E2 & _) & _). rewrite E2. by apply HF. }
  unfold bind at 1, try at 1 in E. destruct (Get rdb (tokenKey p' h') w) as [[e|i1] w1] eqn:E1; apply get_lasts in E1 as L1.
  { etrans; [exact L1|]. destruct (error_matches e redis_Nil); by injection E as _ <-. }
  etrans; [exact L1|]. unfold bind, try in E. destruct (Get rdb (latestTokenKey p' i1) w1) as [x w2] eqn:E2; apply get_lasts in E2 as L2.
  etrans; [exact L2|].
  assert (forall t, stored_in (raw (server w2)) -> clock (server w2) <= clock (server w') -> clock (server w') < until -> (p', i1) = (p, i) ->
     x = t -> t = inr h \/ exists e, t = inl e /\ error_matches e redis_Nil = false) as HX.
  { intros t HS HC1 HC2 [= -> ->] <-.
    assert (raw (server w2) = raw (server w1)) as R.
    { unfold Get, bind in E2. destruct (Do rdb _ w1) as [[e|o] w3] eqn:E3; apply do_law in E3.
      - injection E2 as _ <-. destruct E3 as [[R _]|(s & [R _] & R2 & _)]; [done|]. cbn in R2. congruence.
      - destruct E3 as (s & ([R _] & R2 & _) & _). cbn in R2. destruct o; injection E2 as _ <-; congruence. }
    rewrite R in HS. destruct HS as [_ (t2 & EL & L)]. eapply get_stored in EL; [|exact E2|lia].
    destruct EL as [[-> _]|?]; [by left|by right]. }
  destruct x as [e|latest].
  - destruct (error_matches e redis_Nil) eqn:EN; [|by injection E as _ <-]. eapply KD; [|exact E].
    intros HC HS EI. pose proof (KD ""%string i1 w2) as KD2.
    assert (clock (server w2) <= clock (server w')) as L.
    { apply do_law in E. destruct r as [?|?]; [destruct E as [[_ L]|(s & [_ L] & _ & L')]|destruct E as (s & ([_ L] & _ & L') & _)]; lia. }
    destruct (HX _ HS L HC EI eq_refl) as [[=]|(e' & [= <-] & N)]. congruence.
  - eapply KD; [|exact E]. intros HC HS EI.
    assert (clock (server w2) <= clock (server w')) as L.
    { apply do_law in E. destruct r as [?|?]; [destruct E as [[_ L]|(s & [_ L] & _ & L')]|destruct E as (s & ([_ L] & _ & L') & _)]; lia. }
    destruct (HX _ HS L HC EI eq_refl) as [[= ->]|(e' & [=] & _)]. injection EI as -> ->. congruence.
Qed.

Lemma call_lasts w w' : other_call p h i w w' -> lasts w w'.
Proof.
  assert (forall A (m : M W A) r, moves lasts m -> m w = (r, w') -> lasts w w') as K by (intros A m r Hm E; by eapply Hm).
  destruct 1 as [p' h' i' ttl r K1 N1 N2 E|p' h' r E|p' h' r K1 N1 E|p' h' r K1 N1 E|p' i' ttl r K1 E]; (eapply K; [|exact E]).
  - by apply save_lasts.
  - unfold token_FindByToken. repeat moves_step; apply get_lasts.
  - by apply consume_lasts.
  - by apply delete_lasts.
  - apply do_lasts. intros s _. case_match; [done|]. cbn. rewrite (proj2 (set_law _ _ _ _)).
    apply stored_frame; (rewrite lookup_insert_ne; [done|]); [by apply token_cooldown|by apply latest_cooldown].
Qed.

Lemma calls_last w w' : rtc (other_call p h i) w w' -> lasts w w'.
Proof. induction 1 as [w|w w1 w' H1 _ IH]; [done|]. etrans; [by apply call_lasts|done]. Qed.
End lasting.
End tokens.
