(* ===== verification/AuthLogin.v ===== *)
(** What a successful login or refresh has checked, and what it signs. *)

From S2P Require Import Prelude GoString GoError GoMonad SubmissionDomain Redis AuthDomain AuthRedis AuthSessions AuthAccounts AuthUsers PgUsers AuthWorld AuthRevocation.

Section login.
Context {S W : Type} `{Redis S} (p : auth_platform S W) (server : W -> S) (accounts : W -> gmap string User) (time : W -> Time)
  {AL : AuthLaws p server accounts time}.

#[local] Existing Instances al_redis al_client al_users.
#[local] Notation law f := (f _ _ _ _ _ _ _ AL) (only parsing).
#[local] Notation quiet := (quiet p server accounts time).
#[local] Notation cut := (cut p server time).

(** A token that was signed for [id], [username] and [role] between [w] and [w']:
    it expires [ttl] after some moment and was issued at another. *)
Definition signed (secret : string) (ttl : Z) (id username : string) (role : Role) (w w' : W) (token : string) : Prop :=
  exists t1 t2, time w <= t1 /\ time w <= t2 <= time w'
    /\ p.(ap_lib).(jwt_Sign) (mkJWT role username "auth-service" id (Unix (t1 + ttl)) (Some (Unix t2))) secret = inr token.

Definition signed_pair (id username : string) (role : Role) (w w' : W) (resp : LoginResponse) : Prop :=
  signed p.(ap_cfg).(AccessSecret) p.(ap_cfg).(AccessTTL) id username role w w' resp.(AccessToken)
  /\ signed p.(ap_cfg).(RefreshSecret) p.(ap_cfg).(RefreshTTL) id username role w w' resp.(RefreshToken).

Lemma quiet_clock u w w' : quiet u w w' -> time w <= time w'.
Proof. by intros [[T _] _]. Qed.

Lemma quiet_run {A} u (m : M W A) w r w' : moves (quiet u) m -> m w = (r, w') -> quiet u w w'.
Proof. intros Hm E. by eapply Hm. Qed.

Lemma generate_signed secret ttl id username role w token exp w' :
  generate p.(ap_sv) p.(ap_lib) secret ttl id username role w = (inr (token, exp), w') ->
  signed secret ttl id username role w w' token.
Proof.
  unfold generate. intros E. apply bind_inr_inv in E as (t1 & w1 & E1 & E). apply bind_inr_inv in E as (t2 & w2 & E2 & E).
  apply (law (@al_now)) in E1 as [(_&_&T1) (? & [= <-] & B1)], E2 as [(_&_&T2) (? & [= <-] & B2)].
  destruct (jwt_Sign _ _ _) as [e|tk] eqn:ES; [discriminate|]. injection E as <- _ <-.
  exists t1, t2. split; [lia|]. split; [lia|done].
Qed.

Lemma signed_widen secret ttl id username role w0 w w' w1 token : time w0 <= time w -> time w' <= time w1 ->
  signed secret ttl id username role w w' token -> signed secret ttl id username role w0 w1 token.
Proof. intros L1 L2 (t1 & t2 & B1 & B2 & E). exists t1, t2. split; [lia|]. split; [lia|done]. Qed.

Lemma issue_signed id username role w resp w' : issue_tokens (provider p) id username role w = (inr resp, w') ->
  signed_pair id username role w w' resp.
Proof.
  unfold issue_tokens. intros E. apply bind_inr_inv in E as ([access ae] & w1 & E1 & E). apply bind_inr_inv in E as ([refresh re] & w2 & E2 & E).
  injection E as <- <-. apply on_error_inr in E1, E2. cbn in E1, E2.
  destruct (provider_quiet p server accounts time id) as (Q1 & Q2 & _). pose proof (quiet_clock _ _ _ (quiet_run _ _ _ _ _ (Q1 _ _ _) E1)).
  pose proof (quiet_clock _ _ _ (quiet_run _ _ _ _ _ (Q2 _ _ _) E2)).
  apply generate_signed in E1, E2. split; [eapply signed_widen; [..|exact E1]|eapply signed_widen; [..|exact E2]]; lia.
Qed.

Lemma check_account_ok (user : User) w r w' : check_account (W := W) user w = (inr r, w') ->
  user.(IsActive) = true /\ user.(IsSuspended) = false /\ w' = w.
Proof. unfold check_account, bind, guard. destruct (IsActive user), (IsSuspended user); cbn; intros [= <- <-]; done. Qed.

(** After the wait the clock is in a later second than the cutoff. *)
Lemma waited_past u c e w b w' : cut u w c e -> Unix (time w) < 2 ^ 62 ->
  waitForTokenIssuedAfterInvalidation p.(ap_sv) (cutoffs p) u w = (inr b, w') ->
  c < Unix (time w') \/ e <= UnixMilli (time w').
Proof.
  intros HC HB E. unfold waitForTokenIssuedAfterInvalidation in E. apply bind_inr_inv in E as (v & w1 & E1 & E).
  pose proof (quiet_run u _ _ _ _ (get_quietoff_cut p server accounts time u u) E1) as Q1. apply quiet_clock in Q1 as T1.
  pose proof HC as (_ & [C1 C2] & _). pose proof (Unix_mono _ _ T1).
  apply (read_cutoff p server accounts time u c e) in E1; [|done|done]. destruct E1 as [->|E1].
  - left. rewrite (proj2 (Z.eqb_neq c 0)) in E by lia. apply bind_inr_inv in E as (t & w2 & E2 & E).
    apply (law (@al_now)) in E2 as [(_&_&T2) (? & [= <-] & B2)]. destruct (Z.ltb_spec c (Unix t)).
    + injection E as _ <-. pose proof (Unix_mono _ _ (proj2 B2)). lia.
    + apply bind_inr_inv in E as (t3 & w3 & E3 & E). apply (law (@al_now)) in E3 as [(_&_&T3) (? & [= <-] & B3)].
      apply bind_inr_inv in E as (d & w4 & E4 & E). apply (law (@al_sleep)) in E4 as [_ ES]. destruct d; [discriminate|].
      injection E as _ <-. specialize (ES eq_refl). unfold Sub in ES.
      assert (time_Unix (c + 1) - t3 <= int64_max) as HM.
      { assert (time_Unix (c + 1) <= time w + Second) as HT.
        { unfold time_Unix, Unix, Second in *. pose proof (Z.div_mod (time w) 1000000000). pose proof (Z.mod_pos_bound (time w) 1000000000). lia. }
        unfold Second, int64_max in *. lia. }
      assert (time_Unix (c + 1) <= time w4) as HT by lia. apply Unix_mono in HT. unfold time_Unix, Unix, Second in HT |- *.
      rewrite Z.div_mul in HT by lia. lia.
  - right. assert (time w1 <= time w') as T2; [|pose proof (UnixMilli_mono _ _ T2); lia].
    destruct (v =? 0); [by injection E as _ <-|]. eapply (quiet_clock u), quiet_run; [|exact E].
    repeat moves_step; first [by apply (now_quiet p server accounts time)|by apply (sleep_quiet p server accounts time)].
Qed.

(** Looking an account up finds a row, and changes nothing. *)
Lemma found_by_id id w u w' : p.(ap_users).(GetUserById) id w = (inr u, w') ->
  accounts w !! id = Some u /\ u.(UID) = id /\ accounts w' = accounts w.
Proof.
  intros E. pose proof (ul_by_id _ _ _ _ E) as HL. split; [done|]. split; [by eapply ul_key|].
  destruct (ul_reads (users := p.(ap_users)) (accounts := accounts)) as (K & _). by eapply K.
Qed.

Lemma resolved i w u w' : resolveUser p.(ap_users) i w = (inr u, w') ->
  accounts w !! u.(UID) = Some u /\ (u.(Email) = i \/ u.(UUsername) = i) /\ accounts w' = accounts w.
Proof.
  destruct (ul_reads (users := p.(ap_users)) (accounts := accounts)) as (_ & K1 & K2 & _).
  unfold resolveUser. destruct (existsb _ _); intros E.
  - split; [|split; [|by eapply K1]]; apply ul_by_email in E as (id & HL & HE); [|by left]. by rewrite (ul_key _ _ _ HL).
  - split; [|split; [|by eapply K2]]; apply ul_by_username in E as (id & HL & HE); [|by right]. by rewrite (ul_key _ _ _ HL).
Qed.

(** The account may have a session. *)
Definition usable (user : User) : Prop := user.(IsActive) = true /\ user.(IsSuspended) = false.

Lemma login_checks ctx i pw w resp w' : auth_login p ctx i pw w = (inr resp, w') -> Unix (time w') < 2 ^ 62 ->
  exists user w1, accounts w !! user.(UID) = Some user /\ accounts w' = accounts w /\ usable user
    /\ (user.(Email) = normalizedIdentifier p.(ap_lower) i \/ user.(UUsername) = normalizedIdentifier p.(ap_lower) i)
    /\ p.(ap_enc).(ComparePasswords) user.(Password) pw = true
    /\ (forall c e, cut user.(UID) w c e -> c < Unix (time w1) \/ e <= UnixMilli (time w1))
    /\ time w <= time w1 <= time w' /\ signed_pair user.(UID) user.(UUsername) user.(URole) w1 w' resp.
Proof.
  intros E HB. unfold auth_login, login in E. set (id := normalizedIdentifier _ _) in *.
  apply bind_inr_inv in E as (ip & w1 & E1 & E). apply bind_inr_inv in E as (r & w2 & E2 & E).
  unfold try in E2. destruct (resolveUser _ _ w1) as [r' w2'] eqn:ER. injection E2 as <- <-.
  destruct r' as [err|user]; [destruct (errors_Is _ _); [|discriminate]; by apply bind_inr_inv in E as (?&?&_&[=])|].
  apply bind_inr_inv in E as ([] & w3 & E3 & E). apply check_account_ok in E3 as (HA & HS & ->).
  destruct (ComparePasswords _ _ _) eqn:EC; cbn [negb] in E; [|by apply bind_inr_inv in E as (?&?&_&[=])].
  destruct (login_parts_quiet p server accounts time user.(UID)) as (_ & L2 & L3 & _ & L5 & L6).
  apply bind_inr_inv in E as ([] & w3 & E3 & E). apply bind_inr_inv in E as (waited & w4 & E4 & E). apply on_error_inr in E4.
  apply bind_inr_inv in E as (user' & w5 & E5 & E).
  pose proof (quiet_run _ _ _ _ _ (L2 _ _) E1) as Q1. pose proof (quiet_run _ _ _ _ _ (L3 _) ER) as Q2.
  assert (quiet user.(UID) w2' w3) as Q3.
  { eapply quiet_run; [|exact E3]. destruct (store_quiet p server accounts time user.(UID)) as (_&_&_&_&_&_&HR). repeat moves_step; apply HR. }
  pose proof (quiet_run _ _ _ _ _ (L6 _) E4) as Q4.
  apply resolved in ER as (HL & HI & HA2).
  assert (quiet user.(UID) w w3) as Q03 by (etrans; [exact Q1|]; by etrans).
  assert (user' = user /\ quiet user.(UID) w4 w5) as [-> Q5].
  { destruct waited; [|by injection E5 as <- <-]. apply bind_inr_inv in E5 as (u2 & w5' & E5 & E6). apply on_error_inr in E5.
    apply bind_inr_inv in E6 as ([] & w6 & E6 & [= <- <-]). apply check_account_ok in E6 as (_ & _ & ->).
    split; [|eapply quiet_run; [|exact E5]; eapply moves_weaken; [apply idle_quiet|by destruct (law (@al_db)) as (_&_&_&HX&_)]].
    apply found_by_id in E5 as (HL2 & _). rewrite (proj2 Q4), (proj2 Q03), <- (proj2 Q1) in HL2. congruence. }
  pose proof (quiet_run _ _ _ _ _ (L5 _ _ _) E) as Q6.
  pose proof (quiet_clock _ _ _ Q03). pose proof (quiet_clock _ _ _ Q4). pose proof (quiet_clock _ _ _ Q5). pose proof (quiet_clock _ _ _ Q6).
  exists user, w5. rewrite <- (proj2 Q1). split_ands; try done.
  - rewrite (proj2 Q6), (proj2 Q5), (proj2 Q4), (proj2 Q03). symmetry. apply Q1.
  - intros c e HC. apply (proj2 (proj1 Q03)) in HC as (c' & e' & HC & L & L').
    assert (Unix (time w3) < 2 ^ 62) as HB3 by (assert (time w3 <= time w') as HT by lia; apply Unix_mono in HT; lia).
    assert (time w4 <= time w5) as HT by done. apply Unix_mono in HT as HT1. apply UnixMilli_mono in HT as HT2.
    destruct (waited_past _ _ _ _ _ _ HC HB3 E4); lia.
  - lia.
  - by apply issue_signed.
Qed.

(** A refreshed session keeps the name and the role of the old token. *)
Lemma refresh_checks token w resp w' : auth_refresh p token w = (inr resp, w') ->
  exists t claims iat user, time w <= t <= time w' /\ p.(ap_lib).(jwt_Parse) token p.(ap_cfg).(RefreshSecret) t = Some claims
    /\ claims.(IssuedAt) = Some iat /\ accounts w !! claims.(Subject) = Some user /\ accounts w' = accounts w /\ usable user
    /\ signed_pair claims.(Subject) claims.(JwtUsername) claims.(JwtRole) w w' resp.
Proof.
  intros E. unfold auth_refresh, refresh in E. apply bind_inr_inv in E as (z & w1 & E1 & E).
  assert (forall u, quiet u w w1) as Q1.
  { intros u. eapply quiet_run; [|exact E1]. destruct (store_quiet p server accounts time u) as (_&_&_&_&HR&_).
    unfold abuse_allow. repeat moves_step. apply HR. }
  apply bind_inr_inv in E as ([[[id name] role] iat] & w2 & E2 & E). apply on_error_inr in E2.
  pose proof (quiet_run id _ _ _ _ (proj2 (proj2 (provider_quiet p server accounts time id)) token) E2) as Q2.
  cbn in E2. unfold verifyToken in E2. apply bind_inr_inv in E2 as (t & w2' & E0 & E2).
  apply (law (@al_now)) in E0 as [_ (? & [= <-] & B)].
  destruct (jwt_Parse _ _ _ _) as [claims|] eqn:EP; [|discriminate].
  destruct (IssuedAt claims) as [iat'|] eqn:EI; [|discriminate]. injection E2 as <- <- <- <- ->.
  apply bind_inr_inv in E as (v & w3 & E3 & E). apply on_error_inr in E3.
  pose proof (quiet_run (Subject claims) _ _ _ _ (get_quietoff_cut p server accounts time _ _) E3) as Q3.
  destruct (_ && _); [discriminate|]. apply bind_inr_inv in E as (user & w4 & E4 & E). apply on_error_inr in E4.
  assert (quiet (Subject claims) w3 w4) as Q4.
  { eapply quiet_run; [|exact E4]. eapply moves_weaken; [apply idle_quiet|]. by destruct (law (@al_db)) as (_&_&_&HX&_). }
  apply found_by_id in E4 as (HL & _ & _). apply bind_inr_inv in E as ([] & w5 & E5 & E). apply check_account_ok in E5 as (HA & HS & ->).
  destruct (login_parts_quiet p server accounts time (Subject claims)) as (_ & _ & _ & _ & L5 & _).
  pose proof (quiet_run _ _ _ _ _ (L5 _ _ _) E) as Q5. specialize (Q1 (Subject claims)).
  assert (quiet (Subject claims) w w4) as Q by (etrans; [exact Q1|]; etrans; [exact Q2|]; by etrans).
  pose proof (quiet_clock _ _ _ Q1). pose proof (quiet_clock _ _ _ Q). pose proof (quiet_clock _ _ _ Q5). pose proof (quiet_clock _ _ _ Q3).
  pose proof (quiet_clock _ _ _ Q4).
  exists t, claims, iat', user. split_ands; try done; try lia.
  - rewrite (proj2 Q3), (proj2 Q2), (proj2 Q1) in HL. done.
  - rewrite (proj2 Q5), (proj2 Q). done.
  - apply issue_signed in E as [HS1 HS2]. split; [eapply signed_widen; [..|exact HS1]|eapply signed_widen; [..|exact HS2]]; lia.
Qed.
End login.
