(* ===== verification/AuthSpec.v ===== *)
(** The accounts of the auth service as an abstract machine: what each request
    may do to the table of users, and that the use cases do nothing else. *)

From S2P Require Import Prelude GoString GoError GoMonad SubmissionDomain Redis AuthDomain AuthRedis AuthSessions AuthAccounts AuthUsers PgUsers AuthWorld AuthRevocation AuthLogin.

(** ** Requests *)

Inductive auth_request (W : Type) :=
| RqLogin (ctx : option string) (identifier password : string)
| RqRefresh (token : string)
| RqLogoutAll (userID : string)
| RqChangePassword (claims : Claims) (req : ChangePasswordRequest)
| RqAssignRole (claims : Claims) (userID : string) (role : Role)
| RqSetSuspension (claims : Claims) (userID : string) (suspended : option bool)
| RqMiddleware (headers : Headers)
| RqRegister (ctx : option string) (req : RegisterRequest)
| RqResend (ctx : option string) (email : string)
| RqForgot (ctx : option string) (email : string)
| RqReset (ctx : option string) (req : ResetPasswordRequest)
| RqVerify (ctx : option string) (token : string)
| RqUpdateProfile (claims : Claims) (req : UpdateProfileRequest)
| RqUploadAvatar (claims : Claims) (avatar : option (FileHeader W)).
Arguments RqLogin {W}. Arguments RqRefresh {W}. Arguments RqLogoutAll {W}. Arguments RqChangePassword {W}.
Arguments RqAssignRole {W}. Arguments RqSetSuspension {W}. Arguments RqMiddleware {W}. Arguments RqRegister {W}.
Arguments RqResend {W}. Arguments RqForgot {W}. Arguments RqReset {W}. Arguments RqVerify {W}.
Arguments RqUpdateProfile {W}. Arguments RqUploadAvatar {W}.

(** ** The abstract machine *)

Notation account_table := (gmap string User).

(** Nobody has the key, the name or the address. *)
Definition free_for (u : User) (m : account_table) : Prop :=
  m !! u.(UID) = None /\ forall id v, m !! id = Some v -> v.(UUsername) <> u.(UUsername) /\ v.(Email) <> u.(Email).

(** Besides doing nothing, a request may change the table like this.
    [Compare hash password] checks a password, [normal] is the normal form of
    an e-mail address. *)
Definition account_change {W : Type} (Compare : string -> string -> bool) (normal : string -> option string)
    (req : auth_request W) (m m' : account_table) : Prop :=
  match req with
  | RqRegister _ r =>
      exists id t1 t2 email hash, let u := NewUser id t1 t2 r.(RgFullName) r.(RgUsername) email hash in
        normal r.(RgEmail) = Some email /\ free_for u m /\ minPasswordLength <= len r.(RgPassword) /\ m' = <[id := u]> m
  | RqChangePassword c r =>
      exists u hash t, m !! c.(UserID) = Some u /\ Compare u.(Password) r.(CurrentPassword) = true
        /\ minPasswordLength <= len r.(NewPassword) /\ r.(NewPassword) <> r.(CurrentPassword)
        /\ m' = <[c.(UserID) := set_Password hash t u]> m
  | RqReset _ r =>
      exists id u hash t, m !! id = Some u /\ minPasswordLength <= len r.(RsNewPassword) /\ m' = <[id := set_Password hash t u]> m
  | RqVerify _ _ => exists id u t, m !! id = Some u /\ u.(IsActive) = false /\ m' = <[id := Activate t u]> m
  | RqAssignRole c id role =>
      exists u t, AtLeast c.(ClaimRole) RoleAdmin = true /\ m !! id = Some u /\ u.(URole) <> role
        /\ m' = <[id := AssignRole role t u]> m
  | RqSetSuspension c id b =>
      exists u t on, AtLeast c.(ClaimRole) RoleAdmin = true /\ b = Some on /\ m !! id = Some u
        /\ m' = <[id := if (on : bool) then Suspend t u else Unsuspend t u]> m
  | RqUpdateProfile c _ => exists u up, m !! c.(UserID) = Some u /\ m' = <[c.(UserID) := apply_profile up u]> m
  | RqUploadAvatar c _ => exists u url key t, m !! c.(UserID) = Some u /\ m' = <[c.(UserID) := UploadAvatar url key t u]> m
  | RqLogin _ _ _ | RqRefresh _ | RqLogoutAll _ | RqMiddleware _ | RqResend _ _ | RqForgot _ _ => False
  end.

Definition account_spec {W : Type} Compare normal (req : auth_request W) (m m' : account_table) : Prop :=
  m' = m \/ account_change Compare normal req m m'.

(** ** What the machine keeps *)

(** No two accounts share a name or an address; an account sits under its key. *)
Definition unique_accounts (m : account_table) : Prop :=
  (forall id u, m !! id = Some u -> u.(UID) = id)
  /\ forall i j u v, m !! i = Some u -> m !! j = Some v -> u.(UUsername) = v.(UUsername) \/ u.(Email) = v.(Email) -> i = j.

(** What never changes of an account. *)
Definition who (u : User) : string * string * string * Time := (u.(UID), u.(UUsername), u.(Email), u.(UCreatedAt)).

Lemma insert_same_unique m id u u' : unique_accounts m -> m !! id = Some u -> who u' = who u ->
  unique_accounts (<[id := u']> m) /\ forall i a, m !! i = Some a -> exists a', <[id := u']> m !! i = Some a' /\ who a' = who a.
Proof.
  intros [HK HU] HL HW. pose proof HW as HW'. unfold who in HW'. injection HW' as E1 E2 E3 _.
  assert (forall i a, <[id := u']> m !! i = Some a -> exists b, m !! i = Some b /\ who a = who b) as HB.
  { intros i a. destruct (decide (id = i)) as [->|Hne]; [rewrite lookup_insert_eq|rewrite lookup_insert_ne by done]; [|eauto].
    intros [= <-]. eauto. }
  split.
  - split.
    + intros i a (b & Hb & W)%HB. unfold who in W. injection W as -> _ _ _. by apply HK in Hb.
    + intros i j a b (a0 & Ha & Wa)%HB (b0 & Hb & Wb)%HB. unfold who in *. injection Wa as _ -> -> _. injection Wb as _ -> -> _. by eapply HU.
  - intros i a Ha. destruct (decide (id = i)) as [->|Hne]; [rewrite lookup_insert_eq|rewrite lookup_insert_ne by done]; [|eauto].
    exists u'. split; [done|]. congruence.
Qed.

Lemma spec_keeps {W : Type} Compare normal (req : auth_request W) m m' : account_spec Compare normal req m m' -> unique_accounts m ->
  unique_accounts m' /\ forall i a, m !! i = Some a -> exists a', m' !! i = Some a' /\ who a' = who a.
Proof.
  intros [->|HC] HU; [by eauto|].
  assert (forall id u u', m !! id = Some u -> m' = <[id := u']> m -> who u' = who u ->
    unique_accounts m' /\ forall i a, m !! i = Some a -> exists a', m' !! i = Some a' /\ who a' = who a) as K.
  { intros id u u' HL -> HW. by eapply insert_same_unique. }
  destruct req; cbn in HC; try done.
  - destruct HC as (u & hash & t & HL & _ & _ & _ & E). by eapply K.
  - destruct HC as (u & t & _ & HL & _ & E). by eapply K.
  - destruct HC as (u & t & on & _ & _ & HL & E). eapply K; [done|exact E|].
    destruct on; unfold Suspend, Unsuspend; by destruct (IsSuspended u).
  - destruct HC as (id & t1 & t2 & email & hash & _ & [HN HF] & _ & ->). cbn in HN, HF. destruct HU as [HK HU]. split; [split|].
    + intros i a. destruct (decide (id = i)) as [->|Hne]; [rewrite lookup_insert_eq|rewrite lookup_insert_ne by done]; [by intros [= <-]|apply HK].
    + intros i j a b. destruct (decide (id = i)) as [->|Hi], (decide (i = j)) as [->|Hij]; try done.
      * rewrite lookup_insert_eq, lookup_insert_ne by done. intros [= <-] Hb. apply HF in Hb. cbn. intros [E|E]; symmetry in E; by apply Hb in E.
      * destruct (decide (id = j)) as [->|Hj]; rewrite ?lookup_insert_eq, ?lookup_insert_ne by done; [|by apply HU].
        intros Ha [= <-]. apply HF in Ha. cbn. intros [E|E]; by apply Ha in E.
    + intros i a Ha. exists a. rewrite lookup_insert_ne; [done|]. by intros ->; rewrite HN in Ha.
  - destruct HC as (id & u & hash & t & HL & _ & E). by eapply K.
  - destruct HC as (id & u & t & HL & _ & E). by eapply K.
  - destruct HC as (u & up & HL & E). by eapply K.
  - destruct HC as (u & url & key & t & HL & E). by eapply K.
Qed.

(** ** The use cases implement the machine *)

Section refinement.
Context {S W : Type} `{Redis S} (p : auth_platform S W) (server : W -> S) (accounts : W -> gmap string User) (time : W -> Time)
  {AL : AuthLaws p server accounts time}.

#[local] Existing Instances al_redis al_client al_users.
#[local] Notation law f := (f _ _ _ _ _ _ _ AL) (only parsing).

Definition normal_email : string -> option string := NewEmail p.(ap_lower) p.(ap_ParseAddress).

(** The request runs from [w] to [w']. *)
Definition runs (req : auth_request W) (w w' : W) : Prop :=
  match req with
  | RqLogin ctx i pw => exists r, auth_login p ctx i pw w = (r, w')
  | RqRefresh t => exists r, auth_refresh p t w = (r, w')
  | RqLogoutAll u => exists r, auth_logoutAll p u w = (r, w')
  | RqChangePassword c rq => exists r, auth_changePassword p c rq w = (r, w')
  | RqAssignRole c u role => exists r, auth_assignRole p c u role w = (r, w')
  | RqSetSuspension c u b => exists r, auth_SetSuspension p c u b w = (r, w')
  | RqMiddleware h => exists r, auth_middleware p h w = (r, w')
  | RqRegister ctx rq => exists r, auth_register p ctx rq w = (r, w')
  | RqResend ctx e => exists r, auth_resend p ctx e w = (r, w')
  | RqForgot ctx e => exists r, auth_forgot p ctx e w = (r, w')
  | RqReset ctx rq => exists r, auth_reset p ctx rq w = (r, w')
  | RqVerify ctx t => exists r, auth_verify p ctx t w = (r, w')
  | RqUpdateProfile c rq => exists r, auth_updateProfile p c rq w = (r, w')
  | RqUploadAvatar c f =>
      (forall f', f = Some f' -> moves (idle server accounts time) f'.(FhOpen)
         /\ moves (idle server accounts time) f'.(FhRead512) /\ moves (idle server accounts time) f'.(FhSeek))
      /\ exists r, auth_uploadAvatar p c f w = (r, w')
  end.

(** *** Calls that leave the table alone *)

Definition same (w w' : W) : Prop := accounts w' = accounts w.

#[export] Instance same_preorder : PreOrder same.
Proof. split; [done|]. intros w1 w2 w3 E1 E2. unfold same in *. congruence. Qed.

Lemma quiet_same {A} (m : M W A) : moves (quiet p server accounts time ""%string) m -> moves same m.
Proof. apply moves_weaken. by intros w w' [_ E]. Qed.
Lemma idle_same {A} (m : M W A) : moves (idle server accounts time) m -> moves same m.
Proof. apply moves_weaken. by intros w w' (_ & E & _). Qed.

Lemma cutoff_same u t : moves same ((cutoffs p).(SetLogoutAllIAT) u t).
Proof. destruct (law (@al_rdb)) as [HD _]. eapply moves_weaken; [|apply HD]. by intros w w' [E _]. Qed.

Lemma reads_same : (forall e, moves same (p.(ap_users).(GetUserByEmail) e)) /\ (forall n, moves same (p.(ap_users).(GetUserByUsername) n))
  /\ (forall i, moves same (p.(ap_users).(GetUserById) i)).
Proof. destruct (law (@al_db)) as (_&H1&H2&H3&_). split_ands; intros; by apply idle_same. Qed.

Lemma limits_same : (forall ctx a, moves same (token_protection (Some (limiter p)) p.(ap_policy) ctx a))
  /\ (forall request, moves same (limiter_Acquire p.(ap_rdb) request)).
Proof.
  split; intros; apply quiet_same; [by apply (token_protection_quiet p server accounts time)|by apply (acquire_quiet p server accounts time)].
Qed.

Ltac port_same :=
  lazymatch goal with
  | |- moves _ (SetLogoutAllIAT _ _ _) => apply cutoff_same
  | |- moves _ (GetUserByEmail _ _) => apply reads_same
  | |- moves _ (GetUserByUsername _ _) => apply reads_same
  | |- moves _ (GetUserById _ _) => apply reads_same
  | |- moves _ (limiter_Acquire _ _) => apply limits_same
  | |- moves _ (token_protection _ _ _ _) => apply limits_same
  | |- moves _ (AuthNow _) => apply quiet_same, (now_quiet p server accounts time)
  | |- moves _ (Sleep _ _) => apply quiet_same, (sleep_quiet p server accounts time)
  | |- moves _ (GetLogoutAllIAT _ _) => apply quiet_same, (get_quietoff_cut p server accounts time)
  | _ => first [ assumption
               | apply quiet_same; destruct (store_quiet p server accounts time ""%string) as (?&?&?&?&?&?&?); solve [auto]
               | apply quiet_same; destruct (provider_quiet p server accounts time ""%string) as (?&?&?); solve [auto]
               | apply quiet_same; destruct (platform_quiet p server accounts time ""%string) as (?&?&?&?&?&?&?); solve [auto] ]
  end.

Ltac same_calls := repeat (port_same || moves_step).

(** *** Runs that obey the machine, from tables with the property [P] *)

Definition obeys (req : auth_request W) (P : account_table -> Prop) {A} (m : M W A) : Prop :=
  forall w r w', P (accounts w) -> m w = (r, w') ->
    account_spec p.(ap_enc).(ComparePasswords) normal_email req (accounts w) (accounts w').

Lemma obeys_same req P {A} (m : M W A) : moves same m -> obeys req P m.
Proof. intros Hm w r w' _ E. left. by eapply Hm. Qed.

Lemma obeys_bind req P {A B} (m : M W A) (k : A -> M W B) :
  moves same m -> (forall a, obeys req P (k a)) -> obeys req P (bind m k).
Proof.
  intros Hm Hk w r w' HP. unfold bind. destruct (m w) as [[e|a] w1] eqn:E; apply Hm in E; unfold same in E.
  - intros [= <- <-]. by left.
  - rewrite <- E. apply Hk. by rewrite E.
Qed.

(** ... and nothing after the write fails it. *)
Lemma obeys_then req P {A B} (m : M W A) (k : A -> M W B) :
  obeys req P m -> (forall a, moves same (k a)) -> obeys req P (bind m k).
Proof.
  intros Hm Hk w r w' HP. unfold bind. destruct (m w) as [[e|a] w1] eqn:E; apply Hm in E; [|done| |done].
  - by intros [= <- <-].
  - intros E2. apply Hk in E2. unfold same in E2. by rewrite E2.
Qed.

(** Blocks are read from the front. *)
Lemma obeys_assoc req P {A B C} (m : M W A) (k : A -> M W B) (f : B -> M W C) :
  obeys req P (bind m (fun a => bind (k a) f)) -> obeys req P (bind (bind m k) f).
Proof.
  intros HO w r w' HP E. apply (HO w r w' HP). rewrite <- E. unfold bind. by destruct (m w) as [[e|a] w1].
Qed.

Lemma obeys_ret req P {A B} (a : A) (k : A -> M W B) : obeys req P (k a) -> obeys req P (bind (ret a) k).
Proof. done. Qed.

Lemma obeys_on_error req P {A} f (m : M W A) : obeys req P m -> obeys req P (on_error f m).
Proof.
  intros Hm w r w' HP. unfold on_error. destruct (m w) as [[e|a] w1] eqn:E; intros [= <- <-]; by eapply Hm.
Qed.

Lemma obeys_try req P {A} (m : M W A) : obeys req P m -> obeys req P (try m).
Proof. intros Hm w r w' HP. unfold try. destruct (m w) as [x w1] eqn:E. intros [= <- <-]. by eapply Hm. Qed.

(** The row that a lookup found. *)
Lemma obeys_lookup req P {A} f id (k : User -> M W A) :
  (forall u, u.(UID) = id -> obeys req (fun m => P m /\ m !! id = Some u) (k u)) ->
  obeys req P (bind (on_error f (p.(ap_users).(GetUserById) id)) k).
Proof.
  intros Hk w r w' HP. unfold bind. destruct (on_error f _ w) as [[e|u] w1] eqn:E.
  - intros [= <- <-]. left. assert (moves same (on_error f (p.(ap_users).(GetUserById) id))) as K by (apply moves_on_error, reads_same). by apply K in E.
  - apply on_error_inr, (found_by_id p server accounts time) in E as (HL & HU & HA). intros E2.
    rewrite <- HA. apply (Hk u HU) with (r := r); [|done]. by rewrite HA.
Qed.

(** A write of one row that was read before. *)
Lemma alter_row (g : User -> User) id (m : account_table) u : m !! id = Some u -> alter g id m = <[id := g u]> m.
Proof.
  intros HL. apply map_eq. intros i. destruct (decide (id = i)) as [->|Hne];
    [by rewrite lookup_alter_eq, lookup_insert_eq, HL|by rewrite lookup_alter_ne, lookup_insert_ne].
Qed.

Lemma obeys_write req P (m : M W unit) id u (g : User -> User) :
  (forall w r w', m w = (r, w') -> match r with inr _ => accounts w' = alter g id (accounts w) | inl _ => accounts w' = accounts w end) ->
  (forall t, P t -> t !! id = Some u /\ account_change p.(ap_enc).(ComparePasswords) normal_email req t (<[id := g u]> t)) -> obeys req P m.
Proof.
  intros Hm HP w r w' Hw E. apply Hm in E. destruct (HP _ Hw) as [HL HC]. destruct r; rewrite E; [by left|right].
  by rewrite (alter_row g id _ u).
Qed.

Lemma obeys_update req P (u u' : User) : u'.(UID) = u.(UID) -> u'.(UCreatedAt) = u.(UCreatedAt) ->
  (forall t, P t -> t !! u.(UID) = Some u /\ account_change p.(ap_enc).(ComparePasswords) normal_email req t (<[u.(UID) := u']> t)) ->
  obeys req P (p.(ap_users).(UpdateUser) u').
Proof.
  intros EU EC HP. apply (obeys_write req P _ u.(UID) u (overwrite u')).
  - intros w r w' E. apply ul_update in E. by rewrite EU in E.
  - intros t Ht. destruct (HP t Ht) as [HL HC]. split; [done|].
    replace (overwrite u' u) with u'; [done|]. destruct u, u'; cbn in *; by subst.
Qed.

(** *** Every request *)

Ltac obey :=
  repeat first
    [ lazymatch goal with
      | |- obeys _ _ (bind (on_error _ (GetUserById _ _)) _) => apply obeys_lookup; intros ?u ?HU
      | |- obeys _ _ (bind (bind _ _) _) => apply obeys_assoc
      | |- obeys _ _ (bind (ret _) _) => apply obeys_ret
      | |- obeys _ _ (bind (match ?x with _ => _ end) _) => destruct x eqn:?
      | |- obeys _ _ (bind _ _) => apply obeys_bind; [solve [same_calls]|intros ?]
      | |- obeys _ _ (match ?x with _ => _ end) => destruct x eqn:?
      | |- obeys _ _ (let _ := _ in _) => cbv zeta
      end
    | apply obeys_same; solve [same_calls] ].

Lemma replace_password_obeys req (P : account_table -> Prop) u hash :
  (forall t m, P m -> m !! u.(UID) = Some u
     /\ account_change p.(ap_enc).(ComparePasswords) normal_email req m (<[u.(UID) := set_Password hash t u]> m)) ->
  obeys req P (replace_password p.(ap_sv) p.(ap_users) (cutoffs p) u hash).
Proof.
  intros HP. unfold replace_password. obey. apply obeys_on_error. eapply obeys_write; [intros w r w' E; by eapply ul_password|].
  intros t Ht. apply (HP _ _ Ht).
Qed.

Lemma valid_password pw : ValidatePlainPassword pw = None -> minPasswordLength <= len pw.
Proof. unfold ValidatePlainPassword. destruct (Z.ltb_spec (len pw) minPasswordLength); [done|lia]. Qed.

Lemma change_obeys c rq : obeys (RqChangePassword c rq) (fun _ => True) (auth_changePassword p c rq).
Proof.
  unfold auth_changePassword, changePassword. obey. apply replace_password_obeys. intros t m [_ HL]. rewrite HU.
  split; [done|]. bools. exists u, a, t. split_ands; [done|done|by apply valid_password|congruence|done].
Qed.

Lemma reset_obeys ctx rq : obeys (RqReset ctx rq) (fun _ => True) (auth_reset p ctx rq).
Proof.
  unfold auth_reset, resetPassword. obey. apply replace_password_obeys. intros t m [_ HL]. rewrite HU.
  split; [done|]. exists a0, u, a1, t. split_ands; [done|by apply valid_password|done].
Qed.

Lemma verify_obeys ctx t : obeys (RqVerify ctx t) (fun _ => True) (auth_verify p ctx t).
Proof.
  unfold auth_verify, verifyEmail. obey. apply obeys_on_error. apply (obeys_update _ _ u); [done|done|].
  intros m [_ HL]. rewrite HU. split; [done|]. by exists a0, u, a2.
Qed.

Lemma assign_obeys c id role : obeys (RqAssignRole c id role) (fun _ => True) (auth_assignRole p c id role).
Proof.
  unfold auth_assignRole, assignRole, assign_to. obey. apply obeys_on_error. apply (obeys_update _ _ u); [done|done|].
  intros m [_ HL]. rewrite HU. split; [done|]. bools. by exists u, a.
Qed.

Lemma profile_obeys c rq : obeys (RqUpdateProfile c rq) (fun _ => True) (auth_updateProfile p c rq).
Proof.
  unfold auth_updateProfile, updateProfile. obey. apply obeys_then; [|intros; by same_calls]. apply obeys_on_error.
  eapply obeys_write; [intros w r w' E; by eapply ul_profile|]. intros m [_ HL]. rewrite HU. split; [done|]. by eexists u, _.
Qed.

Lemma suspension_obeys c id b : obeys (RqSetSuspension c id b) (fun _ => True) (auth_SetSuspension p c id b).
Proof.
  unfold auth_SetSuspension, SetSuspension. obey; (apply obeys_then; [|intros; by same_calls]); apply obeys_on_error.
  - apply (obeys_update _ _ u); [unfold Suspend; by destruct (IsSuspended u)..|].
    intros m [_ HL]. rewrite HU. split; [done|]. bools. by exists u, a1, true.
  - apply (obeys_update _ _ u); [unfold Unsuspend; by destruct (IsSuspended u)..|].
    intros m [_ HL]. rewrite HU. split; [done|]. bools. by exists u, a, false.
Qed.

Lemma avatar_obeys c f : (forall f', f = Some f' -> moves (idle server accounts time) f'.(FhOpen)
    /\ moves (idle server accounts time) f'.(FhRead512) /\ moves (idle server accounts time) f'.(FhSeek)) ->
  obeys (RqUploadAvatar c f) (fun _ => True) (auth_uploadAvatar p c f).
Proof.
  intros HF. unfold auth_uploadAvatar, uploadAvatar. destruct f as [f|]; [|apply obeys_same; same_calls].
  destruct (HF f eq_refl) as (F1%idle_same & F2%idle_same & F3%idle_same). obey.
  all: apply obeys_then; [|intros; by same_calls].
  all: apply obeys_try; (eapply obeys_write; [intros w r w' E; by eapply ul_avatar|]).
  all: intros m [_ HL]; rewrite HU; split; [done|]; by eexists u, _, _, _.
Qed.

(** Taking a row back. *)
Definition withdrawn (id : string) (w w' : W) : Prop := accounts w' = accounts w \/ accounts w' = delete id (accounts w).

#[export] Instance withdrawn_preorder id : PreOrder (withdrawn id).
Proof.
  split; [intros w; by left|]. unfold withdrawn. intros w1 w2 w3 [E1|E1] [E2|E2]; rewrite E2, ?E1; [by left|by right|by right|right].
  apply map_eq. intros i. destruct (decide (i = id)) as [->|Hne]; [by rewrite !lookup_delete_eq|by rewrite !lookup_delete_ne].
Qed.

Lemma delete_withdrawn id : moves (withdrawn id) (p.(ap_users).(DeleteUser) id).
Proof. intros w r w' E. apply ul_delete in E. destruct r; [by left|by right]. Qed.
Lemma same_withdrawn {A} id (m : M W A) : moves same m -> moves (withdrawn id) m.
Proof. apply moves_weaken. by left. Qed.

Lemma obeys_create req P {A} f u (k : unit -> M W A) :
  (forall t, P t -> free_for u t -> account_change p.(ap_enc).(ComparePasswords) normal_email req t (<[u.(UID) := u]> t)) ->
  (forall x, moves (withdrawn u.(UID)) (k x)) -> obeys req P (bind (on_error f (p.(ap_users).(CreateUser) u)) k).
Proof.
  intros HP Hk w r w' Hw. unfold bind, on_error. destruct (CreateUser _ u w) as [[e|x] w1] eqn:E; apply ul_create in E.
  - intros [= <- <-]. by left.
  - destruct E as (E1 & E2 & EA). intros E%Hk. unfold withdrawn in E. rewrite EA in E. destruct E as [E|E]; rewrite E.
    + right. by apply HP.
    + left. rewrite delete_insert_eq. by apply delete_id.
Qed.

(** A new row is kept, or taken back when its token cannot be saved. *)
Lemma register_obeys ctx rq : obeys (RqRegister ctx rq) (fun _ => True) (auth_register p ctx rq).
Proof.
  unfold auth_register, register, must_be_free, clientIP, abuse_acquire.
  repeat first
    [ lazymatch goal with
      | |- obeys _ _ (bind (on_error _ (CreateUser _ _)) _) => fail
      | |- obeys _ _ (bind _ _) => apply obeys_bind; [solve [same_calls]|intros ?]
      | |- obeys _ _ (match ?x with _ => _ end) => destruct x eqn:?
      | |- obeys _ _ (let _ := _ in _) => cbv zeta
      end
    | apply obeys_same; solve [same_calls] ].
  apply obeys_create.
  - intros t _ HF. exists a3, a4, a5, s, a2. cbv zeta. split_ands; [done|done|by apply valid_password|done].
  - intros x. repeat moves_step.
    all: try apply delete_withdrawn.
    all: apply same_withdrawn; port_same.
Qed.

(** Whatever a request does to the accounts, the machine allows. *)
Lemma runs_spec req w w' : runs req w w' -> account_spec p.(ap_enc).(ComparePasswords) normal_email req (accounts w) (accounts w').
Proof.
  assert (forall A (m : M W A) r, moves same m -> m w = (r, w') -> accounts w' = accounts w) as K by (intros A m r Hm E; by eapply Hm).
  destruct (login_parts_quiet p server accounts time ""%string) as (L1 & L2 & L3 & L4 & L5 & L6).
  assert (forall A (m : M W A), moves (quiet p server accounts time ""%string) m -> moves same m) as KQ by (intros A m; apply quiet_same).
  destruct req; cbn [runs]; intros HR.
  - left. destruct HR as [r E]. eapply K; [|exact E]. unfold auth_login, login. repeat (port_same || (apply KQ; auto; fail) || moves_step).
  - left. destruct HR as [r E]. eapply K; [|exact E]. unfold auth_refresh, refresh, abuse_allow.
    repeat (port_same || (apply KQ; auto; fail) || moves_step).
  - left. destruct HR as [r E]. eapply K; [|exact E]. unfold auth_logoutAll, logoutAll. same_calls.
  - destruct HR as [r E]. by eapply change_obeys.
  - destruct HR as [r E]. by eapply assign_obeys.
  - destruct HR as [r E]. by eapply suspension_obeys.
  - left. destruct HR as [r E]. eapply K; [|exact E]. unfold auth_middleware, AuthMiddleware. same_calls.
  - destruct HR as [r E]. by eapply register_obeys.
  - left. destruct HR as [r E]. eapply K; [|exact E]. unfold auth_resend, resendVerification, acquireGenericRequest, admit_mail, abuse_acquire. same_calls.
  - left. destruct HR as [r E]. eapply K; [|exact E]. unfold auth_forgot, forgotPassword, acquireGenericRequest, admit_mail, abuse_acquire. same_calls.
  - destruct HR as [r E]. by eapply reset_obeys.
  - destruct HR as [r E]. by eapply verify_obeys.
  - destruct HR as [r E]. by eapply profile_obeys.
  - destruct HR as [HF [r E]]. by eapply avatar_obeys.
Qed.

(** A sequence of requests keeps the accounts apart. *)
Definition some_run (w w' : W) : Prop := exists req, runs req w w'.

Lemma runs_keep w w' : rtc some_run w w' -> unique_accounts (accounts w) ->
  unique_accounts (accounts w') /\ forall i a, accounts w !! i = Some a -> exists a', accounts w' !! i = Some a' /\ who a' = who a.
Proof.
  intros HS. induction HS as [w|w w1 w' [req HR] HS IH]; [by eauto|]. intros HU.
  apply runs_spec, spec_keeps in HR as [HU1 HR]; [|done]. destruct (IH HU1) as [HU2 HI]. split; [done|].
  intros i a (a1 & Ha1 & E1)%HR. apply HI in Ha1 as (a2 & Ha2 & E2). exists a2. split; [done|congruence].
Qed.
End refinement.
