(* ===== verification/AuthDemo.v ===== *)
(** A concrete platform for the witnesses about the auth service: a key space
    that follows the Redis documentation, a table of users in memory, a clock
    and a token format.  It meets [AuthLaws], so those assumptions can hold
    together. *)

From S2P Require Import Prelude GoString GoError GoMonad GoCrypto SubmissionDomain Redis AuthDomain AuthRedis AuthSessions AuthAccounts AuthUsers PgStore Patterns PgUsers AuthWorld.

(** ** Redis *)

Record keyspace := mkKeys { ks_clock : Z; ks_raw : gmap string entry }.

Definition ks_find (k : string) (s : keyspace) : option entry :=
  match ks_raw s !! k with
  | Some e => if alive (ks_clock s) e then Some e else None
  | None => None
  end.

Definition ks_put (k : string) (e : entry) (s : keyspace) : keyspace := mkKeys (ks_clock s) (<[k := e]> (ks_raw s)).

Definition ks_incr (k : string) (s : keyspace) : option Z * keyspace :=
  match ks_find k s with
  | None => (Some 1, ks_put k ("1"%string, None) s)
  | Some (v, t) =>
      match ParseInt v with
      | None => (None, s)
      | Some n => if n <? int64_max then (Some (n + 1), ks_put k (Itoa (n + 1), t) s) else (None, s)
      end
  end.

#[export] Instance keyspace_redis : Redis keyspace := {|
  clock := ks_clock;
  raw := ks_raw;
  GET k s := fst <$> ks_find k s;
  PTTL k s := match ks_find k s with None => -2 | Some (_, None) => -1 | Some (_, Some t) => t - ks_clock s end;
  SET k v px s := ks_put k (v, (fun d => ks_clock s + d) <$> px) s;
  DEL k s := mkKeys (ks_clock s) (delete k (ks_raw s));
  INCR := ks_incr;
  PEXPIRE k d s := match ks_find k s with None => s | Some (v, _) => ks_put k (v, Some (ks_clock s + d)) s end;
|}.

#[export] Instance keyspace_laws : RedisLaws keyspace.
Proof.
  constructor; try done; cbn.
  - intros k s. change (find_entry k s) with (ks_find k s). unfold ks_incr.
    destruct (ks_find k s) as [[v t]|]; [|done]. destruct (ParseInt v) as [n|]; [|done].
    destruct (Z.ltb_spec n int64_max); [done|]. split; [done|lia].
  - intros k k' s Hk. unfold ks_incr. destruct (ks_find k s) as [[v t]|]; cbn; [|by rewrite lookup_insert_ne].
    destruct (ParseInt v) as [n|]; [|done]. destruct (n <? int64_max); [|done]. cbn. by rewrite lookup_insert_ne.
  - intros k d s. change (find_entry k s) with (ks_find k s). by destruct (ks_find k s) as [[v t]|].
Qed.

(** ** The world *)

Record auth_world := mkAuthWorld { aw_raw : gmap string entry; aw_rows : gmap string UserDAO.t; aw_ticks : N }.

(** Rows that sit under their own key. *)
Definition aw_users (w : auth_world) : gmap string UserDAO.t := filter (fun q => q.2.(UserDAO.ID) = q.1) (aw_rows w).
Definition aw_time (w : auth_world) : Time := (unix_epoch + 1) * Second + Z.of_N (aw_ticks w).
Definition aw_server (w : auth_world) : keyspace := mkKeys (UnixMilli (aw_time w)) (aw_raw w).
Definition aw_put (m : gmap string UserDAO.t) (w : auth_world) : auth_world := mkAuthWorld (aw_raw w) m (aw_ticks w).
Definition aw_tick (n : N) (w : auth_world) : auth_world := mkAuthWorld (aw_raw w) (aw_rows w) (aw_ticks w + n).

Definition aw_client : client keyspace auth_world := {|
  Do A f w := let '(a, s) := f (aw_server w) in (inr a, mkAuthWorld (ks_raw s) (aw_rows w) (aw_ticks w));
  Watch A f w := match f (aw_server w) with
                 | inl e => (inl e, w)
                 | inr (a, block) => (inr a, mkAuthWorld (ks_raw (block (aw_server w))) (aw_rows w) (aw_ticks w))
                 end;
|}.

#[export] Instance aw_client_laws : ClientLaws aw_client aw_server.
Proof.
  constructor; cbn.
  - intros A f w r w'. destruct (f (aw_server w)) as [a s] eqn:E. intros [= <- <-].
    exists (aw_server w). rewrite E. split; [|done]. split; [done|]. split; [done|]. apply Z.le_refl.
  - intros A f w e w'. by destruct (f (aw_server w)).
  - intros A f w r w'. destruct (f (aw_server w)) as [e|[a block]] eqn:E; intros [= <- <-]; [by left|].
    exists (aw_server w), block. split; [done|]. split; [done|]. split; [done|]. apply Z.le_refl.
Qed.

(** ** The table of users *)

Definition taken (d : UserDAO.t) (m : gmap string UserDAO.t) : bool :=
  existsb (fun q => bool_decide (q.2.(UserDAO.Username) = d.(UserDAO.Username)) || bool_decide (q.2.(UserDAO.Email) = d.(UserDAO.Email))
                    || bool_decide (q.1 = d.(UserDAO.ID))) (map_to_list m).

Definition aw_matching (p : UserDAO.t -> bool) (w : auth_world) : list UserDAO.t :=
  filter (fun d => p d = true) (map snd (map_to_list (aw_users w))).

Definition aw_table : TableOps auth_world UserDAO.t := {|
  t_create d w := if taken d (aw_users w) then (inl gorm_ErrDuplicatedKey, w)
                  else (inr d, aw_put (<[d.(UserDAO.ID) := d]> (aw_users w)) w);
  t_create_many ds w := (inl (EText "unused"), w);
  t_first p w := match aw_matching p w with
                 | d :: _ => (inr d, w)
                 | [] => (inl gorm_ErrRecordNotFound, w)
                 end;
  t_find p n w := (inr (aw_matching p w), w);
  t_updates p f w := (inr (Z.of_nat (length (aw_matching p w))), aw_put ((fun d => if p d then f d else d) <$> aw_users w) w);
  t_delete p w := (inr tt, aw_put (filter (fun q => p q.2 = false) (aw_users w)) w);
|}.

(** Offset and limit on the matching rows in a given order. *)
Definition aw_pages (sort : (UserDAO.t -> UserDAO.t -> bool) -> list UserDAO.t -> list UserDAO.t) : PageOps auth_world UserDAO.t := {|
  p_count p w := (inr (Z.of_nat (length (aw_matching p w))), w);
  p_find p before offset limit w := (inr (take (Z.to_nat limit) (drop (Z.to_nat offset) (sort before (aw_matching p w)))), w);
|}.

Lemma aw_users_key w id d : aw_users w !! id = Some d -> d.(UserDAO.ID) = id.
Proof. unfold aw_users. rewrite map_lookup_filter_Some. by intros [_ E]. Qed.

(** A table whose rows sit under their keys is seen as it is. *)
Lemma aw_users_put m w : (forall id d, m !! id = Some d -> d.(UserDAO.ID) = id) -> aw_users (aw_put m w) = m.
Proof. intros HM. unfold aw_users. cbn. apply map_filter_id. intros i d. cbn. apply HM. Qed.

Lemma taken_false d m : taken d m = false -> m !! d.(UserDAO.ID) = None
  /\ forall id d', m !! id = Some d' -> d'.(UserDAO.Username) <> d.(UserDAO.Username) /\ d'.(UserDAO.Email) <> d.(UserDAO.Email).
Proof.
  unfold taken. intros HT.
  assert (forall id d', m !! id = Some d' -> d'.(UserDAO.Username) <> d.(UserDAO.Username) /\ d'.(UserDAO.Email) <> d.(UserDAO.Email)
    /\ id <> d.(UserDAO.ID)) as HA.
  { intros id d' Hd. apply elem_of_map_to_list in Hd.
    destruct (existsb _ _) eqn:E; [done|]. clear HT. apply not_true_iff_false in E. rewrite existsb_exists in E.
    split_ands; intros K; apply E; exists (id, d'); (split; [by apply list_elem_of_In|]); cbn;
      rewrite !orb_true_iff, !bool_decide_eq_true; auto. }
  split; [|intros id d' Hd; by destruct (HA id d' Hd) as (?&?&?)].
  destruct (m !! _) as [d'|] eqn:E; [|done]. by destruct (HA _ _ E) as (_&_&?).
Qed.

Lemma aw_matching_in p w d : d ∈ aw_matching p w -> p d = true /\ exists id, aw_users w !! id = Some d.
Proof.
  unfold aw_matching. rewrite list_elem_of_filter. intros [HP HI]. split; [done|].
  apply list_elem_of_fmap in HI as ([id d'] & -> & HI). exists id. by apply elem_of_map_to_list.
Qed.

#[export] Instance aw_table_laws sort : UserTableLaws aw_table (aw_pages sort) aw_users.
Proof.
  constructor; cbn.
  - exact aw_users_key.
  - intros d w r w'. destruct (taken d (aw_users w)) eqn:E; intros [= <- <-]; [done|].
    apply taken_false in E as [E1 E2]. split_ands; [done|done|]. apply aw_users_put.
    intros id d'. destruct (decide (id = d.(UserDAO.ID))) as [->|Hne].
    + rewrite lookup_insert_eq. by intros [= <-].
    + rewrite lookup_insert_ne by done. apply aw_users_key.
  - intros p w r w'. destruct (aw_matching p w) as [|d l] eqn:E; intros [= <- <-]; [done|].
    split; [done|]. apply aw_matching_in. rewrite E. by left.
  - intros p f w r w' [= <- <-] Hf. apply aw_users_put. intros id d. rewrite lookup_fmap, fmap_Some.
    intros (d' & Hd & ->). destruct (p d'); [rewrite Hf|]; by apply aw_users_key in Hd.
  - intros p w r w' [= <- <-]. apply aw_users_put. intros id d. rewrite map_lookup_filter_Some. intros [Hd _].
    by apply aw_users_key in Hd.
  - split; intros; intros w r w' [= <- <-]; done.
Qed.

(** Matching rows in the order of the table. *)
Definition demo_ordered (p : UserDAO.t -> bool) (before : UserDAO.t -> UserDAO.t -> bool) (m : gmap string UserDAO.t) : list UserDAO.t :=
  filter (fun d => p d = true) (map snd (map_to_list m)).

(** ** The services *)

Definition bar : string := "|".
Definition demo_Sign (c : customClaims) (secret : string) : error + string :=
  inr (Itoa c.(ExpiresAt) +:+ bar +:+ (match c.(IssuedAt) with Some n => Itoa n | None => "" end)%string +:+ bar +:+ c.(JwtRole)
       +:+ bar +:+ c.(JwtUsername) +:+ bar +:+ c.(Subject) +:+ bar +:+ secret).

Definition demo_Parse (token secret : string) (now : Time) : option customClaims :=
  match map str (split_on (ascii_of_N 124) (chars token)) with
  | [exp; iat; role; name; subject; key] =>
      match ParseInt exp with
      | Some e => if bool_decide (key = secret) && (now <? time_Unix e)
                  then Some (mkJWT role name "auth-service" subject e (ParseInt iat)) else None
      | None => None
      end
  | _ => None
  end.

Definition demo_sv : AuthServices auth_world := {|
  AuthNow w := (inr (aw_time w), aw_tick 1 w);
  NewUUID w := (inr ("user-" +:+ Itoa (Z.of_N (aw_ticks w))), aw_tick 1 w);
  Sleep d w := (inr None, aw_tick (Z.to_N d) w);
|}.

Definition demo_enc : PasswordEncoder auth_world := {|
  HashAndSalt pwd w := (inr ("hash:" +:+ pwd), w);
  ComparePasswords hash pwd := bool_decide (hash = "hash:" +:+ pwd);
|}.

Definition demo_lower_rune (r : bytes) : bytes := r.
Definition demo_fold (r : bytes) : bytes := match r with [c] => [lower_ascii c] | _ => r end.
Definition demo_ILIKE (pattern text : string) : bool := like demo_fold (characters (chars pattern)) (characters (chars text)).
Definition demo_order {A : Type} (before : A -> A -> bool) (l : list A) : list A := l.

#[export] Instance demo_page_laws : PageLaws (aw_pages demo_order) aw_users demo_ordered.
Proof. constructor; try done; cbn; [by intros p w n w' [= <- <-]|by intros p before o l w ds w' [= <- <-]]. Qed.

Definition demo_users : UserRepository auth_world :=
  pg_users aw_table (aw_pages demo_order) demo_ILIKE Z.ltb (fun _ _ => false).
Definition demo_accounts : auth_world -> gmap string User := accounts_of aw_users.

Definition demo_cfg : JWTConfig :=
  {| AccessSecret := "access"; RefreshSecret := "refresh"; AccessTTL := 900 * Second; RefreshTTL := 604800 * Second |}.

(** Limits as a deployment might choose them. *)
Definition demo_policy : AuthAbuseConfig := {|
  LoginIPIdentifierLimit := 5; LoginIdentifierRiskLimit := 20; LoginIdentifierRiskDelay := 2 * Second;
  LoginBroadIPLimit := 100; LoginWindow := 900 * Second;
  RegisterIPEmailLimit := 5; RegisterBroadIPHourlyLimit := 20; RegisterBroadIPDailyLimit := 50;
  MailHourlyWindow := 3600 * Second; MailDailyWindow := 86400 * Second;
  ResendAccountHourlyLimit := 5; ResendAccountDailyLimit := 10; ResendIPAccountLimit := 5;
  ResendBroadIPHourlyLimit := 30; ResendBroadIPDailyLimit := 100;
  ForgotAccountHourlyLimit := 5; ForgotAccountDailyLimit := 10; ForgotIPAccountLimit := 5;
  ForgotBroadIPHourlyLimit := 30; ForgotBroadIPDailyLimit := 100;
  EmailCooldown := 60 * Second; TokenIPLimit := 30; TokenWindow := 900 * Second;
  RefreshIPLimit := 30; RefreshWindow := 900 * Second;
|}.

Definition demo_platform : auth_platform keyspace auth_world := {|
  ap_sv := demo_sv; ap_rdb := aw_client; ap_users := demo_users; ap_enc := demo_enc;
  ap_mail := {| SendVerificationEmail _ _ := ret tt; SendForgotPasswordEmail _ _ := ret tt |};
  ap_rand n w := (inr (replicate (Z.to_nat n) (ascii_of_N (aw_ticks w))), aw_tick 1 w);
  ap_minio := mkMinio _ (fun _ _ _ _ => ret tt) (fun _ => ret tt);
  ap_lib := {| jwt_Sign := demo_Sign; jwt_Parse := demo_Parse |};
  ap_cfg := demo_cfg; ap_policy := demo_policy; ap_lower := demo_lower_rune;
  ap_ParseAddress a := if existsb (is_byte 64) (chars a) then Some a else None;
  ap_uuid_Parse _ := true; ap_ParseFloat _ := None; ap_ParseRequestURI _ := None;
  ap_DetectContentType _ := "image/png"%string; ap_JoinPath _ _ _ := None;
  ap_publicURL := "https://cdn"; ap_bucket := "avatars";
|}.

Lemma demo_tick n w : idle aw_server demo_accounts aw_time w (aw_tick n w).
Proof. split; [done|]. split; [done|]. unfold aw_time, aw_tick. cbn. lia. Qed.
Lemma demo_still w : idle aw_server demo_accounts aw_time w w.
Proof. reflexivity. Qed.

Lemma demo_reads {A} (m : M auth_world A) : (forall w, (m w).2 = w) -> moves (idle aw_server demo_accounts aw_time) m.
Proof. intros HM w r w' E. pose proof (HM w) as H. rewrite E in H. cbn in H. by subst. Qed.

Lemma demo_writes {A} (m : M auth_world A) : (forall w, aw_raw (m w).2 = aw_raw w /\ aw_ticks (m w).2 = aw_ticks w) ->
  moves (off_redis aw_server aw_time) m.
Proof.
  intros HM w r w' E. pose proof (HM w) as [H1 H2]. rewrite E in H1, H2. cbn in *. split; [done|]. unfold aw_time. rewrite H2. lia.
Qed.

Lemma demo_first_reads p w : (pg_first aw_table p w).2 = w.
Proof. unfold pg_first, bind, on_error. cbn. by destruct (aw_matching p w). Qed.

#[export] Instance demo_laws : AuthLaws demo_platform aw_server demo_accounts aw_time.
Proof.
  constructor; try exact _.
  - done.
  - intros w. unfold aw_time. lia.
  - intros w r w' [= <- <-]. split; [apply demo_tick|]. exists (aw_time w). split; [done|]. unfold aw_time, aw_tick. cbn. lia.
  - intros d w r w' [= <- <-]. split; [apply demo_tick|]. intros _. unfold aw_time, aw_tick. cbn. lia.
  - intros w r w' [= <- <-]. apply demo_tick.
  - intros n w r w' [= <- <-]. apply demo_tick.
  - intros pwd. by apply demo_reads.
  - split; intros; by apply demo_reads.
  - split; intros; by apply demo_reads.
  - split_ands; intros; first [ apply demo_reads; intros w; first [apply demo_first_reads|done] | apply demo_writes; intros w ].
    + unfold demo_platform, demo_users, ap_users, pg_users, CreateUser, pg_CreateUser, bind, on_error. cbn.
      by destruct (taken _ _).
    + done.
    + done.
    + done.
    + done.
    + done.
  - split; intros A f w r w'; cbn.
    + destruct (f (aw_server w)) as [a s]. intros [= <- <-]. split; [done|]. unfold aw_time. cbn. lia.
    + destruct (f (aw_server w)) as [e|[a block]]; intros [= <- <-]; (split; [done|]); unfold aw_time; cbn; lia.
  - intros token secret t c. cbn. unfold demo_Parse. repeat (case_match; try discriminate). intros [= <-]. cbn.
    bools. bools. lia.
  - cbn. unfold Second. split; [lia|done].
Qed.
