(* ===== verification/AuthGuarantees.v ===== *)
(** What the auth service guarantees: sessions, accounts, one-time tokens,
    limits and listings, each with a run on the platform of AuthDemo.v. *)

From S2P Require Import Prelude GoString GoError GoMonad GoCrypto SubmissionDomain Redis AuthDomain AuthRedis AuthSessions AuthAccounts AuthUsers PgStore Patterns PgUsers AuthWorld AuthRevocation AuthLimits AuthLogin AuthSpec AuthDemo.

(** ** A running example *)

Definition demo_row : UserDAO.t := toUserDAO (Activate 1 (NewUser "u1" 1 1 "Alice" "alice" "a@x.io" "hash:oldpassword")).
Definition demo_ip : option string := Some "10.0.0.1"%string.
Definition demo_claims : Claims := mkClaims "u1" "alice" RoleUser 1.
Definition demo_admin : Claims := mkClaims "a1" "root" RoleAdmin 1.
Definition demo_headers : Headers := mkHeaders "u1" "1" "alice" "user".

(** Alice has an account; she logs in, and then changes her password. *)
Definition demo0 : auth_world := mkAuthWorld ∅ {[ "u1"%string := demo_row ]} 0.
Definition demo1 : auth_world := (auth_login demo_platform demo_ip " Alice" "oldpassword" demo0).2.
Definition demo_change : ChangePasswordRequest := mkChange "oldpassword" "newpassword" "newpassword".
Definition demo2 : auth_world := (auth_changePassword demo_platform demo_claims demo_change demo1).2.
Definition demo_response : LoginResponse :=
  mkLogin "901|1|user|alice|u1|access" 900 "604801|1|user|alice|u1|refresh" 604800.

Example demo_login : auth_login demo_platform demo_ip " Alice" "oldpassword" demo0 = (inr demo_response, demo1).
Proof. vm_compute. reflexivity. Qed.
Example demo_changed : auth_changePassword demo_platform demo_claims demo_change demo1 = (inr tt, demo2).
Proof. vm_compute. reflexivity. Qed.

(** The claims of the first refresh token. *)
Definition demo_old : customClaims := mkJWT RoleUser "alice" "auth-service" "u1" 604801 (Some 1).

Lemma demo_issued : issued_before demo_platform aw_time demo1 demo_old.
Proof. exists (aw_time demo0), (aw_time demo0), (RefreshTTL demo_cfg). vm_compute. split_ands; congruence. Qed.

(** A run is known by its answer. *)
Lemma run_answer {W A : Type} (m : M W A) w r : (m w).1 = r -> m w = (r, (m w).2).
Proof. intros <-. apply surjective_pairing. Qed.

(** The demonstration format reads a token the same way at all times. *)
Lemma demo_parse_once token secret t t' c c' : demo_Parse token secret t = Some c -> demo_Parse token secret t' = Some c' -> c = c'.
Proof.
  unfold demo_Parse. repeat (case_match; try discriminate). all: repeat (case_match; try discriminate); congruence.
Qed.

(** ** Sessions *)

Section sessions.
Context {S W : Type} `{Redis S} (p : auth_platform S W) (server : W -> S) (accounts : W -> gmap string User) (time : W -> Time)
  {AL : AuthLaws p server accounts time}.

(** C20: a session ends with the password it was opened under, with the
    suspension of its user and with a logout.  After any request that replaced
    the stored password of a user or suspended the user, or a successful logout,
    and whatever requests follow, no token issued before is accepted by the
    middleware of any service or by the refresh endpoint; the only request that
    can slip through is one during which the token expires. *)
Theorem revoked_session_is_dead u w0 w1 w2 claims iat :
  (auth_logoutAll p u w0 = (inr tt, w1)
   \/ auth_step p server accounts time w0 w1
      /\ exists a a', accounts w0 !! u = Some a /\ accounts w1 !! u = Some a'
         /\ (a'.(Password) <> a.(Password) \/ a.(IsSuspended) = false /\ a'.(IsSuspended) = true)) ->
  rtc (auth_step p server accounts time) w1 w2 ->
  issued_before p time w0 claims -> claims.(IssuedAt) = Some iat ->
  (forall h c w3, Unix (time w2) < 2 ^ 62 -> h.(XUserID) = u -> parseTokenIAT p.(ap_ParseFloat) h.(XTokenIat) = Some iat ->
     auth_middleware p h w2 = (inr c, w3) -> time_Unix claims.(ExpiresAt) <= time w3)
  /\ (forall token resp w3, Unix (time w3) < 2 ^ 62 -> claims.(Subject) = u ->
     (forall t c, p.(ap_lib).(jwt_Parse) token p.(ap_cfg).(RefreshSecret) t = Some c -> c = claims) ->
     auth_refresh p token w2 = (inr resp, w3) -> time_Unix claims.(ExpiresAt) <= time w3).
Proof.
  intros HR HS HI EI.
  assert (ended p server time u w0 w2) as HE.
  { eapply (steps_ended p server accounts time); [|exact HS]. destruct HR as [HR|[HR (a & a' & E & E' & HC)]].
    - by apply (logout_ended p server accounts time).
    - apply (step_guarded p server accounts time u) in HR as [_ [HA|HE]]; [|done].
      apply HA in E as (a2 & E2 & P2 & S2). rewrite E2 in E'. injection E' as ->. destruct HC as [HC|[H1 H2]]; [done|].
      rewrite S2 in H2; done. }
  split.
  - intros h c w3 HB HU HT E. by eapply (middleware_ended p server accounts time).
  - intros token resp w3 HB HU HP E. by eapply (refresh_ended p server accounts time).
Qed.

(** C22: a login succeeds only for an account that is active and not suspended,
    whose address or name is the normal form of the given identifier and whose
    stored hash matches the password; it changes no account, and the two tokens
    carry the identity and role of that account and an issue time in a later
    second than every cutoff of its sessions so far, so they are not refused
    for it. *)
Theorem login_is_sound ctx i pw w resp w' : auth_login p ctx i pw w = (inr resp, w') -> Unix (time w') < 2 ^ 62 ->
  exists user w1, accounts w !! user.(UID) = Some user /\ accounts w' = accounts w /\ usable user
    /\ (user.(Email) = normalizedIdentifier p.(ap_lower) i \/ user.(UUsername) = normalizedIdentifier p.(ap_lower) i)
    /\ p.(ap_enc).(ComparePasswords) user.(Password) pw = true
    /\ (forall c e, cut p server time user.(UID) w c e -> c < Unix (time w1) \/ e <= UnixMilli (time w1))
    /\ time w <= time w1 <= time w' /\ signed_pair p time user.(UID) user.(UUsername) user.(URole) w1 w' resp.
Proof. apply (login_checks p server accounts time). Qed.

(** A refresh succeeds only for a valid refresh token of an account that
    still exists, is active and not suspended; but the new tokens take user
    name and role from the old token: a role that was taken away in the
    meantime lives on for as long as the session is refreshed. *)
Theorem refresh_keeps_old_role token w resp w' : auth_refresh p token w = (inr resp, w') ->
  exists t claims iat user, time w <= t <= time w' /\ p.(ap_lib).(jwt_Parse) token p.(ap_cfg).(RefreshSecret) t = Some claims
    /\ claims.(IssuedAt) = Some iat /\ accounts w !! claims.(Subject) = Some user /\ accounts w' = accounts w /\ usable user
    /\ signed_pair p time claims.(Subject) claims.(JwtUsername) claims.(JwtRole) w w' resp.
Proof. apply (refresh_checks p server accounts time). Qed.

(** ** Accounts *)

(** C21: whatever a request does to the table of accounts is a transition of the
    abstract account machine for that request: registrations add one inactive
    account with the role of a user under a free name and address, passwords
    change only by the two password requests, roles and suspensions only by an
    administrator's request, and all other requests leave the table alone. *)
Theorem requests_follow_account_spec req w w' : runs p server accounts time req w w' ->
  account_spec p.(ap_enc).(ComparePasswords) (normal_email p) req (accounts w) (accounts w').
Proof. apply (runs_spec p server accounts time). Qed.

(** Whatever requests are handled one after the other, no two accounts share
    a user name or an address, no account disappears, and its identifier, name,
    address and creation time never change. *)
Theorem accounts_stay_distinct w w' : rtc (some_run p server accounts time) w w' -> unique_accounts (accounts w) ->
  unique_accounts (accounts w')
  /\ forall i a, accounts w !! i = Some a -> exists a', accounts w' !! i = Some a' /\ who a' = who a.
Proof. apply (runs_keep p server accounts time). Qed.

(** An update of the whole row undoes a change of the password that came
    between reading and writing it: when an administrator's role change has
    read the row, the user then changes the password, and the role change is
    written last, the old password is valid again. *)
Theorem role_change_restores_password user role w1 w2 w3 w4 w5 h t :
  p.(ap_users).(GetUserById) user.(UID) w1 = (inr user, w2) ->
  p.(ap_users).(UpdatePassword) user.(UID) h t w2 = (inr tt, w3) -> idle server accounts time w3 w4 ->
  assign_to p.(ap_sv) p.(ap_users) user role w4 = (inr tt, w5) ->
  (exists u, accounts w4 !! user.(UID) = Some u /\ u.(Password) = h)
  /\ exists u, accounts w5 !! user.(UID) = Some u /\ u.(Password) = user.(Password).
Proof.
  intros E1 E2 (_ & E3 & _) E4. pose proof (@al_users _ _ _ _ _ _ _ AL) as UL.
  pose proof (ul_by_id _ _ _ _ E1) as HL. destruct (ul_reads (users := p.(ap_users)) (accounts := accounts)) as (K & _).
  apply K in E1 as HA. apply ul_password in E2 as HP.
  assert (accounts w4 !! user.(UID) = Some (set_Password h t user)) as H4 by (by rewrite E3, HP, lookup_alter_eq, HA, HL).
  split; [by eexists|]. unfold assign_to in E4. destruct (bool_decide _); [discriminate|].
  apply bind_inr_inv in E4 as (now & w6 & E5 & E6). apply (@al_now _ _ _ _ _ _ _ AL) in E5 as [(_ & E5 & _) _].
  apply on_error_inr, ul_update in E6. rewrite E6. cbn [UID AssignRole]. rewrite lookup_alter_eq, E5, H4. by eexists.
Qed.
End sessions.

(** ** One-time tokens and limits *)

Section redis.
Context {S W : Type} `{RL : RedisLaws S} (rdb : client S W) (server : W -> S) {CL : ClientLaws rdb server}.

(** C23: a token that was used once is dead: whatever the repository is asked
    afterwards, short of saving the same token again, it is neither found nor
    used a second time. *)
Theorem used_token_is_dead p h w0 i w1 w2 : known_purpose p ->
  token_Consume rdb p h w0 = (inr i, w1) -> rtc (token_call rdb p h) w1 w2 ->
  (forall i' w', token_FindByToken rdb p h w2 <> (inr i', w')) /\ (forall i' w', token_Consume rdb p h w2 <> (inr i', w')).
Proof.
  intros HP E HS. apply (gone_invalid rdb server). eapply (calls_gone rdb server); [done|exact HS|]. by eapply consume_removes.
Qed.

(** A token that was saved is found as long as its time is not over,
    whatever the repository is asked in between about other tokens, an older
    token of the same user included, unless the connection fails. *)
Theorem saved_token_lasts p h i ttl w0 w1 w2 r w3 : known_purpose p -> 0 < ttl ->
  token_Save rdb p h i ttl w0 = (inr tt, w1) -> rtc (other_call rdb p h i) w1 w2 ->
  token_FindByToken rdb p h w2 = (r, w3) -> clock (server w3) < clock (server w0) + Z.max 1 (ttl / 1000000) ->
  r = inr i \/ exists e, r = inl e /\ connection_error rdb e.
Proof.
  intros HP HT E HS EF HC. remember (clock (server w0) + Z.max 1 (ttl / 1000000)) as until eqn:EU.
  assert (clock (server w2) <= clock (server w3)) as L.
  { assert (moves (lasts server p h i until) (token_FindByToken rdb p h)) as K
      by (unfold token_FindByToken; repeat moves_step; apply (get_lasts rdb server)). destruct (K _ _ _ EF) as [L _]. exact L. }
  apply (find_stored rdb server p h i until w2 r w3); [|done|done].
  apply (calls_last rdb server p h i until HP) in HS as [_ HS]. apply HS; [lia|]. subst until. by apply (save_stored rdb server).
Qed.

(** C24: a request for admission is counted against all of its limits or
    against none: it is admitted exactly when every counter is below its limit
    and no cooldown runs, and then every counter goes up by one, the cooldown
    starts and no other key changes; otherwise nothing changes and the answer
    names a positive time to wait. *)
Theorem admission_all_or_nothing request w r w' :
  (forall s, later (server w) s -> Forall (fun sc => counting (scope_key sc) s) request.(ArScopes)) ->
  limiter_Acquire rdb request w = (inr r, w') ->
  exists s s' ms, later (server w) s /\ raw (server w') = raw s' /\ r.(AdRetryAfter) = milliseconds ms
    /\ (r.(AdAllowed) = true <-> admissible request s)
    /\ (admissible request s -> cooldown_starts request s s'
          /\ Forall (fun sc => counter (scope_key sc) s' = counter (scope_key sc) s + 1) request.(ArScopes)
          /\ forall k, k ∉ request_keys request -> raw s' !! k = raw s !! k)
    /\ (~ admissible request s -> s' = s /\ 0 < ms).
Proof.
  intros HC E. unfold limiter_Acquire in E. destruct (admissionArguments request) as [e|[keys args]] eqn:EA; [discriminate|].
  apply bind_inr_inv in E as (v & w1 & E1 & E). apply do_law in E1 as (s & (HL & HR & _) & ->).
  destruct (admission_run request keys args s EA (HC s HL)) as (ok & retry & s' & ER & H1 & H2). rewrite ER in *. cbn [fst snd] in *.
  injection E as <- <-. exists s, s', retry. split; [done|]. split; [done|]. split; [done|]. split; [|split].
  - destruct (admissible_dec request s) as [HA|HA].
    + destruct (H1 HA) as (-> & _). by split.
    + destruct (H2 HA) as (-> & _). by split.
  - intros HA. by destruct (H1 HA) as (_ & ? & ? & ?).
  - intros HA. by destruct (H2 HA) as (_ & ? & ?).
Qed.
End redis.

(** ** Listings *)

Section listings.
Context {W : Type} (tu : TableOps W UserDAO.t) (pu : PageOps W UserDAO.t) (ILIKE : string -> string -> bool)
  (before : Time -> Time -> bool) (text_before : string -> string -> bool)
  (rows : W -> gmap string UserDAO.t) (ordered : (UserDAO.t -> bool) -> (UserDAO.t -> UserDAO.t -> bool) -> gmap string UserDAO.t -> list UserDAO.t)
  {PL : PageLaws pu rows ordered}.

(** The pages of the administrative listing, one after the other and as
    many as the first answer announces, are exactly the whole filtered result:
    no user is missing or shown twice. *)
Theorem pages_cover_listing claims limit role status search m total (items : Z -> list AdminUserResponse) :
  Z.of_nat (size m) < 2 ^ 54 ->
  (forall k, 1 <= k <= Z.max 1 total -> exists w w' pg, rows w = m /\ pg.(TotalPages) = total
    /\ adminListUsers (pg_users tu pu ILIKE before text_before) claims (Some k) (Some limit) role status search w = (inr (items k, pg), w')) ->
  exists f, request_filter search role status 0 0 = inr f
    /\ concat (map items (map Z.of_nat (seq 1 (Z.to_nat total)))) = whole_listing ILIKE before text_before ordered f m
    /\ whole_listing ILIKE before text_before ordered f m
        ≡ₚ map (fun d => toAdminUserResponse (toUserEntity d)) (filter (fun d => list_query ILIKE f d = true) (map snd (map_to_list m))).
Proof.
  intros HS HP.
  destruct (HP 1 ltac:(lia)) as (w & w' & pg & <- & HT & E).
  apply (one_page tu pu ILIKE before text_before rows ordered) in E as (f & HF & HL & _ & _ & ->); [|lia..].
  cbn [TotalPages] in HT. set (L := whole_listing ILIKE before text_before ordered f (rows w)) in *.
  assert (L ≡ₚ map (fun d => toAdminUserResponse (toUserEntity d)) (filter (fun d => list_query ILIKE f d = true) (map snd (map_to_list (rows w))))) as HPerm
    by (apply Permutation_map, pl_rows).
  assert (Z.of_nat (length L) < 2 ^ 54) as HN.
  { rewrite HPerm, length_map. pose proof (length_filter (fun d => list_query ILIKE f d = true) (map snd (map_to_list (rows w)))) as LF.
    rewrite length_map in LF. rewrite length_map_to_list in LF. lia. }
  exists f. split; [done|]. split; [|done].
  pose proof (total_pages_spec limit (Z.of_nat (length L))) as TP. cbv zeta in TP. rewrite HT in TP.
  destruct TP as (T1 & T2 & T3); [lia..|].
  assert (forall k, 1 <= k <= total -> items k = piece limit L k) as HI.
  { intros k Hk. assert ((k - 1) * limit <= (total - 1) * limit /\ total - 1 <= (total - 1) * limit) as [B1 B2] by nia.
    specialize (T3 ltac:(lia)). destruct (HP k ltac:(lia)) as (wk & wk' & pgk & ER & _ & Ek).
    apply (one_page tu pu ILIKE before text_before rows ordered) in Ek as (fk & HFk & _ & _ & -> & _); [|lia..].
    rewrite HFk in HF. injection HF as ->. by rewrite ER. }
  rewrite (map_ext_in items (piece limit L)).
  - rewrite (pieces_prefix limit L) by lia. apply take_ge. apply Nat2Z.inj_le. rewrite Nat2Z.inj_mul, !Z2Nat.id by lia. exact T2.
  - intros k Hk. apply in_map_iff in Hk as (j & <- & Hj). apply in_seq in Hj. apply HI. lia.
Qed.

(** Searching is literal: a user is listed exactly when the filters fit and
    user name, address or full name contain the search text as it is, percent
    signs, underscores and backslashes included, up to the case folding of the
    database. *)
Theorem search_is_literal fold f d : ilike_law fold ILIKE -> ValidString f.(UfSearch) = true ->
  list_query ILIKE f d = true <->
  (TrimSpace f.(UfSearch) = ""%string
   \/ exists text, text ∈ [d.(UserDAO.Username); d.(UserDAO.Email); d.(UserDAO.FullName)]
        /\ text_contains fold (TrimSpace f.(UfSearch)) text)
  /\ (forall r, f.(UfRole) = Some r -> d.(UserDAO.Role) = r) /\ (forall b, f.(UfIsActive) = Some b -> d.(UserDAO.IsActive) = b)
  /\ (forall b, f.(UfIsSuspended) = Some b -> d.(UserDAO.IsSuspended) = b).
Proof.
  intros HL HV. assert (ValidString (TrimSpace f.(UfSearch)) = true) as HT.
  { unfold ValidString, TrimSpace. rewrite chars_str. apply valid_utf8_spec, trim_valid. by apply valid_utf8_spec. }
  assert (forall A (E : EqDecision A) (o : option A) x, filter_is o x = true <-> forall v, o = Some v -> x = v) as HFI.
  { intros A E [v|] x; cbn; [rewrite bool_decide_eq_true|]; naive_solver. }
  unfold list_query. rewrite !andb_true_iff, !orb_true_iff, !HFI, bool_decide_eq_true.
  rewrite !(search_finds fold ILIKE _ _ HL HT).
  assert ((exists text, text ∈ [d.(UserDAO.Username); d.(UserDAO.Email); d.(UserDAO.FullName)] /\ text_contains fold (TrimSpace f.(UfSearch)) text)
    <-> (text_contains fold (TrimSpace f.(UfSearch)) d.(UserDAO.Username) \/ text_contains fold (TrimSpace f.(UfSearch)) d.(UserDAO.Email))
        \/ text_contains fold (TrimSpace f.(UfSearch)) d.(UserDAO.FullName)) as ->; [|tauto].
  split; [intros (t & [->|[->|[->|[]%elem_of_nil]%elem_of_cons]%elem_of_cons]%elem_of_cons & HC); auto|].
  intros [[HC|HC]|HC]; eexists; (split; [|exact HC]); [by left|by right; left|by right; right; left].
Qed.
End listings.

(** ** Witnesses *)

#[local] Notation on_demo f := (f demo_platform aw_server demo_accounts aw_time) (only parsing).

(** Alice logs in again, with the new password. *)
Definition demo3 : auth_world := (auth_login demo_platform demo_ip "alice" "newpassword" demo2).2.
Definition demo_response2 : LoginResponse :=
  mkLogin "902|2|user|alice|u1|access" 900 "604802|2|user|alice|u1|refresh" 604800.
Example demo_login2 : auth_login demo_platform demo_ip "alice" "newpassword" demo2 = (inr demo_response2, demo3).
Proof. vm_compute. reflexivity. Qed.

Lemma revoked_session_is_dead_witness :
  (auth_middleware demo_platform demo_headers demo3).1 = inl (NewAppError CodeUnauthorized "unauthorized: token has been invalidated" None)
  /\ forall resp w3, Unix (aw_time w3) < 2 ^ 62 -> auth_refresh demo_platform demo_response.(RefreshToken) demo3 = (inr resp, w3) ->
       time_Unix 604801 <= aw_time w3.
Proof.
  split; [vm_compute; reflexivity|]. intros resp w3 HB E.
  destruct (fmap_Some_1 Password (demo_accounts demo1 !! "u1"%string) "hash:oldpassword"%string) as (a & Ha & Pa); [vm_compute; reflexivity|].
  destruct (fmap_Some_1 Password (demo_accounts demo2 !! "u1"%string) "hash:newpassword"%string) as (a' & Ha' & Pa'); [vm_compute; reflexivity|].
  destruct (on_demo revoked_session_is_dead "u1"%string demo1 demo2 demo3 demo_old 1) as [_ HD].
  - right. split; [exact (step_change _ _ _ _ _ _ _ _ _ demo_changed)|]. exists a, a'. split; [done|]. split; [done|]. left. by rewrite <- Pa, <- Pa'.
  - apply rtc_once. exact (step_login _ _ _ _ _ _ _ _ _ _ demo_login2).
  - exact demo_issued.
  - done.
  - apply (HD demo_response.(RefreshToken) resp w3); [done|done| |done]. intros t c Hc.
    eapply (demo_parse_once _ _ _ 0); [exact Hc|vm_compute; reflexivity].
Defined.

Lemma login_is_sound_witness : exists user w1, demo_accounts demo2 !! user.(UID) = Some user /\ usable user
  /\ (user.(Email) = "alice"%string \/ user.(UUsername) = "alice"%string)
  /\ demo_enc.(ComparePasswords) user.(Password) "newpassword" = true
  /\ (forall c e, cut demo_platform aw_server aw_time user.(UID) demo2 c e -> c < Unix (aw_time w1) \/ e <= UnixMilli (aw_time w1))
  /\ signed_pair demo_platform aw_time user.(UID) user.(UUsername) user.(URole) w1 demo3 demo_response2.
Proof.
  destruct (on_demo login_is_sound _ _ _ _ _ _ demo_login2) as (user & w1 & HL & _ & HU & HI & HP & HC & _ & HS); [vm_compute; reflexivity|].
  exists user, w1. exact (conj HL (conj HU (conj HI (conj HP (conj HC HS))))).
Defined.

(** An administrator makes Alice a contributor; her session is refreshed. *)
Definition demo_promoted : auth_world := (auth_assignRole demo_platform demo_admin "u1" RoleContributor demo1).2.
Definition demo_refresh := auth_refresh demo_platform demo_response.(RefreshToken) demo_promoted.
Example demo_refresh_answer : demo_refresh.1 = inr demo_response.
Proof. vm_compute. reflexivity. Qed.

Lemma refresh_keeps_old_role_witness : exists t claims iat user,
  demo_Parse demo_response.(RefreshToken) "refresh" t = Some claims /\ claims.(IssuedAt) = Some iat
  /\ demo_accounts demo_promoted !! claims.(Subject) = Some user
  /\ signed_pair demo_platform aw_time claims.(Subject) claims.(JwtUsername) claims.(JwtRole) demo_promoted demo_refresh.2 demo_response.
Proof.
  destruct (on_demo refresh_keeps_old_role demo_response.(RefreshToken) demo_promoted demo_response demo_refresh.2
    (run_answer (auth_refresh demo_platform demo_response.(RefreshToken)) demo_promoted _ demo_refresh_answer))
    as (t & c & iat & u & _ & HP & HI & HL & _ & _ & HS). exists t, c, iat, u. exact (conj HP (conj HI (conj HL HS))).
Defined.

Lemma requests_follow_account_spec_witness :
  runs demo_platform aw_server demo_accounts aw_time (RqChangePassword demo_claims demo_change) demo1 demo2
  /\ account_spec demo_enc.(ComparePasswords) (normal_email demo_platform) (RqChangePassword (W := auth_world) demo_claims demo_change)
       (demo_accounts demo1) (demo_accounts demo2).
Proof.
  assert (runs demo_platform aw_server demo_accounts aw_time (RqChangePassword demo_claims demo_change) demo1 demo2) as HR
    by (eexists; exact demo_changed).
  split; [exact HR|exact (on_demo requests_follow_account_spec _ _ _ HR)].
Defined.

Lemma demo0_unique : unique_accounts (demo_accounts demo0).
Proof.
  replace (demo_accounts demo0) with ({[ "u1"%string := toUserEntity demo_row ]} : gmap string User) by (vm_compute; reflexivity).
  split.
  - intros id u [<- <-]%lookup_singleton_Some. reflexivity.
  - intros i j u v [<- _]%lookup_singleton_Some [<- _]%lookup_singleton_Some _. reflexivity.
Qed.

Lemma accounts_stay_distinct_witness : unique_accounts (demo_accounts demo2)
  /\ exists a', demo_accounts demo2 !! "u1"%string = Some a' /\ who a' = ("u1", "alice", "a@x.io", 1)%string.
Proof.
  destruct (on_demo accounts_stay_distinct demo0 demo2) as [HU HK].
  - eapply rtc_l; [exists (RqLogin demo_ip " Alice" "oldpassword"); eexists; exact demo_login|].
    apply rtc_once. exists (RqChangePassword demo_claims demo_change). eexists. exact demo_changed.
  - exact demo0_unique.
  - split; [exact HU|]. destruct (HK "u1"%string (toUserEntity demo_row)) as (a' & HL & HW); [vm_compute; reflexivity|].
    exists a'. split; [exact HL|]. rewrite HW. reflexivity.
Defined.

(** The administrator's request reads Alice's row, her password changes, the
    request writes the row. *)
Definition demo_alice : User := toUserEntity demo_row.
Definition demo_raced : auth_world := (demo_users.(UpdatePassword) "u1" "hash:newpassword" 7 demo0).2.
Lemma role_change_restores_password_witness :
  exists u, demo_accounts ((assign_to demo_sv demo_users demo_alice RoleContributor demo_raced).2) !! "u1"%string = Some u
    /\ u.(Password) = "hash:oldpassword"%string.
Proof.
  destruct (on_demo role_change_restores_password demo_alice RoleContributor demo0 demo0 demo_raced demo_raced
    ((assign_to demo_sv demo_users demo_alice RoleContributor demo_raced).2) "hash:newpassword"%string 7) as [_ HU];
    [vm_compute; reflexivity|vm_compute; reflexivity|reflexivity|vm_compute; reflexivity|]. exact HU.
Defined.

(** A token is saved, another user's is asked for, and it is used. *)
Definition demo_saved : auth_world := (token_Save aw_client TokenPurposeResetPassword "h1" "u1" forgotPasswordTokenTTL demo0).2.
Definition demo_asked : auth_world := (token_Consume aw_client TokenPurposeResetPassword "h0" demo_saved).2.
Definition demo_used : auth_world := (token_Consume aw_client TokenPurposeResetPassword "h1" demo_asked).2.
Definition demo_saved2 : auth_world := (token_Save aw_client TokenPurposeResetPassword "h2" "u1" forgotPasswordTokenTTL demo_used).2.

Lemma used_token_is_dead_witness :
  token_Consume aw_client TokenPurposeResetPassword "h1" demo_asked = (inr "u1"%string, demo_used)
  /\ forall i w', token_FindByToken aw_client TokenPurposeResetPassword "h1" demo_saved2 <> (inr i, w').
Proof.
  assert (token_Consume aw_client TokenPurposeResetPassword "h1" demo_asked = (inr "u1"%string, demo_used)) as E by (vm_compute; reflexivity).
  split; [exact E|].
  destruct (used_token_is_dead aw_client aw_server TokenPurposeResetPassword "h1" demo_asked "u1" demo_used demo_saved2) as [HF _].
  - by right.
  - exact E.
  - apply rtc_once. apply (call_save _ _ _ _ _ TokenPurposeResetPassword "h2" "u1" forgotPasswordTokenTTL (inr tt)); [by right|done|].
    vm_compute. reflexivity.
  - exact HF.
Defined.

Definition demo_found := token_FindByToken aw_client TokenPurposeResetPassword "h1" demo_asked.

Lemma saved_token_lasts_witness : demo_found.1 = inr "u1"%string \/ exists e, demo_found.1 = inl e /\ connection_error aw_client e.
Proof.
  apply (saved_token_lasts aw_client aw_server TokenPurposeResetPassword "h1" "u1" forgotPasswordTokenTTL demo0 demo_saved demo_asked demo_found.1 demo_found.2).
  - by right.
  - done.
  - vm_compute. reflexivity.
  - apply rtc_once. eapply (other_consume _ _ _ _ _ _ TokenPurposeResetPassword "h0"); [by right|done|]. by apply surjective_pairing.
  - apply surjective_pairing.
  - vm_compute. reflexivity.
Defined.

(** The first request for a new password from an address. *)
Definition demo_admission : AdmissionRequest := mkAdmission
  (forgot_scopes demo_policy "10.0.0.1" "a@x.io") (Some (mkCooldownScope "forgot:cooldown" "u1" demo_policy.(EmailCooldown))).
Definition demo_admitted := limiter_Acquire aw_client demo_admission demo0.

Lemma demo_counting s : later (aw_server demo0) s -> Forall (fun sc => counting (scope_key sc) s) demo_admission.(ArScopes).
Proof.
  intros [HR _]. apply Forall_forall. intros sc _ v t. unfold find_entry. rewrite HR.
  change (raw (aw_server demo0)) with (∅ : gmap string entry). by rewrite lookup_empty.
Qed.
Example demo_answer : demo_admitted.1 = inr (mkAdmitted true 0).
Proof. vm_compute. reflexivity. Qed.
Lemma demo_admits : limiter_Acquire aw_client demo_admission demo0 = (inr (mkAdmitted true 0), demo_admitted.2).
Proof. exact (run_answer (limiter_Acquire aw_client demo_admission) demo0 _ demo_answer). Qed.

Lemma admission_all_or_nothing_witness : exists s s', later (aw_server demo0) s /\ raw (aw_server demo_admitted.2) = raw s'
  /\ (admissible demo_admission s -> Forall (fun sc => counter (scope_key sc) s' = counter (scope_key sc) s + 1) demo_admission.(ArScopes)).
Proof.
  destruct (admission_all_or_nothing aw_client aw_server demo_admission demo0 (mkAdmitted true 0) demo_admitted.2 demo_counting demo_admits)
    as (s & s' & ms & HL & HR & _ & _ & HA & _).
  exists s, s'. split; [exact HL|]. split; [exact HR|]. intros H. exact (proj1 (proj2 (HA H))).
Defined.

Definition demo_listing : list AdminUserResponse := [toAdminUserResponse demo_alice].

Lemma pages_cover_listing_witness : exists f, request_filter "" "" "" 0 0 = inr f
  /\ demo_listing = whole_listing demo_ILIKE Z.ltb (fun _ _ => false) demo_ordered f (aw_users demo0).
Proof.
  destruct (pages_cover_listing aw_table (aw_pages demo_order) demo_ILIKE Z.ltb (fun _ _ => false) aw_users demo_ordered
    demo_admin 20 "" "" "" (aw_users demo0) 1 (fun _ => demo_listing)) as (f & HF & HL & _).
  - vm_compute. reflexivity.
  - intros k Hk. assert (k = 1) as -> by lia. exists demo0, demo0, (mkPagination 1 20 1 1). split; [reflexivity|]. split; [reflexivity|].
    vm_compute. reflexivity.
  - exists f. split; [exact HF|]. rewrite <- HL. reflexivity.
Defined.

Definition demo_filter : ListUsersFilter := mkUsersFilter " LIC " None (Some true) None 20 0.

Lemma search_is_literal_witness : list_query demo_ILIKE demo_filter demo_row = true
  /\ exists text, text ∈ ["alice"; "a@x.io"; "Alice"]%string /\ text_contains demo_fold "LIC" text.
Proof.
  assert (list_query demo_ILIKE demo_filter demo_row = true) as HQ by (vm_compute; reflexivity). split; [exact HQ|].
  apply (search_is_literal demo_ILIKE demo_fold) in HQ as [[HE|HT] _]; [discriminate HE|exact HT|done|reflexivity].
Defined.
