(* ===== verification/PgProblems.v ===== *)
(** The PostgreSQL repositories of the problem service
    (services/problem/internal/adapter/outbound/persistence/postgres): problems,
    tags and testcase metadata.

    GORM and PostgreSQL are a parameter.  A [Handle] is what the code calls on a
    *gorm.DB, either the connection or a transaction; a statement is given by
    what it computes on the [tables].  A primary key is the key of the row in
    its table and no column of the records. *)

From S2P Require Import Prelude GoString GoError GoMonad GoTime JsonDecode SubmissionDomain PgStore Patterns ProblemDomain.

(** ** JSONB columns *)

(** [exampleJSON] *)
Record exampleJSON := mkExampleJSON { JxInput : string; JxExpectedOutput : string; JxLegacyOutput : string; JxExplanation : string }.

Definition omitempty (s : string) : option bytes := if bool_decide (s = ""%string) then None else Some (json_string s).

Definition marshal_example (x : exampleJSON) : bytes :=
  json_object [("input", Some (json_string x.(JxInput))); ("expected_output", omitempty x.(JxExpectedOutput));
    ("output", omitempty x.(JxLegacyOutput)); ("explanation", omitempty x.(JxExplanation))]%string.

(** [ExamplesJSON.Value] *)
Definition ExamplesValue (e : list ProblemExample) : string :=
  str (json_array (map (fun ex => marshal_example (mkExampleJSON ex.(ExInput) ex.(ExOutput) "" ex.(ExExplanation))) e)).

Definition zero_example : exampleJSON := mkExampleJSON "" "" "" "".

Definition example_of_members (x : exampleJSON) (l : list (bytes * json)) : option exampleJSON :=
  i ← field dec_string x.(JxInput) (values_of "input" l);
  o ← field dec_string x.(JxExpectedOutput) (values_of "expected_output" l);
  g ← field dec_string x.(JxLegacyOutput) (values_of "output" l);
  e ← field dec_string x.(JxExplanation) (values_of "explanation" l);
  Some (mkExampleJSON i o g e).

Definition decode_example (x : exampleJSON) (v : json) : option exampleJSON :=
  match v with
  | JNull => Some x
  | JObject l => example_of_members x l
  | _ => None
  end.

(** [ExamplesJSON.Scan]; [None] as a column is NULL. *)
Definition example_of (x : exampleJSON) : ProblemExample :=
  mkExample x.(JxInput) (if bool_decide (x.(JxExpectedOutput) = ""%string) then x.(JxLegacyOutput) else x.(JxExpectedOutput))
    x.(JxExplanation).

Definition ExamplesScan (src : option string) : option (list ProblemExample) :=
  match src with
  | None => Some []
  | Some data =>
      v ← json_parse data;
      items ← slice zero_example decode_example [v];
      Some (map example_of items)
  end.

(** [HintsJSON.Value], [ConstraintsJSON.Value]: the texts of a nil and of an
    empty list are the same. *)
Definition HintsValue (h : list string) : string := str (json_array (map json_string h)).
Definition ConstraintsValue : list string -> string := HintsValue.

Definition decode_text (old : string) (v : json) : option string :=
  match v with JNull => Some old | _ => dec_string v end.
Definition HintsScan (src : option string) : option (list string) :=
  match src with
  | None => Some []
  | Some data => v ← json_parse data; slice ""%string decode_text [v]
  end.
Definition ConstraintsScan : option string -> option (list string) := HintsScan.

(** What a reader gets of a list that was written. *)
Definition kept_examples (e : list ProblemExample) : list ProblemExample := default [] (ExamplesScan (Some (ExamplesValue e))).
Definition kept_texts (h : list string) : list string := default [] (HintsScan (Some (HintsValue h))).

(** ** Rows *)

Module ProblemDAO.
Record t := mk {
  TitleSlug : string; Title : string; Description : string; InputFormat : string; OutputFormat : string;
  Difficulty : string; Examples : list ProblemExample; Constraints : list string; Hints : list string;
  TimeLimit : float64; MemoryLimit : Z; AuthorID : string; IsHidden : bool; CreatedAt : Time; UpdatedAt : Time;
  DeletedAt : option Time }.
End ProblemDAO.

Module TagDAO.
Record t := mk {
  Name : string; Slug : string; Description : option string; IsActive : bool; CreatedAt : Time; UpdatedAt : Time;
  DeletedAt : option Time }.
End TagDAO.

Module TestCaseDAO.
Record t := mk {
  ProblemID : Z; ZipObjectKey : string; TestCount : Z; Version : Z; CreatedAt : Time; UpdatedAt : Time }.
End TestCaseDAO.

(** The four tables; [t_links] is problem_tags. *)
Record tables := mkTables {
  t_problems : gmap Z ProblemDAO.t; t_tags : gmap Z TagDAO.t; t_links : gset (Z * Z); t_tests : gmap Z TestCaseDAO.t }.

Definition put_problems (t : tables) m := mkTables m t.(t_tags) t.(t_links) t.(t_tests).
Definition put_tags (t : tables) m := mkTables t.(t_problems) m t.(t_links) t.(t_tests).
Definition put_links (t : tables) s := mkTables t.(t_problems) t.(t_tags) s t.(t_tests).
Definition put_tests (t : tables) m := mkTables t.(t_problems) t.(t_tags) t.(t_links) m.

(** ** GORM *)

Record Handle (W : Type) := {
  (* a query: its rows, an order, OFFSET (0: none) and LIMIT *)
  h_select : forall A : Type, (tables -> list A) -> (A -> A -> bool) -> Z -> option Z -> M W (list A);
  (* SELECT count( * ) *)
  h_count : forall A : Type, (tables -> list A) -> M W Z;
  (* INSERT: the keys in use, and the statement with the generated key and the time of the automatic columns *)
  h_create : forall A : Type, (tables -> gset Z) -> (Z -> Time -> tables -> A * tables) -> M W A;
  (* UPDATE, DELETE and INSERT without a generated key: the number of rows affected *)
  h_exec : (tables -> Z * tables) -> M W Z;
}.
Arguments h_select {W} _ {A}. Arguments h_count {W} _ {A}. Arguments h_create {W} _ {A}. Arguments h_exec {W}.

(** The connection, and a transaction on it. *)
Record DB (W : Type) := {
  conn : Handle W; tx : Handle W; Begin : M W unit; Commit : M W unit; Rollback : M W unit }.
Arguments conn {W}. Arguments tx {W}. Arguments Begin {W}. Arguments Commit {W}. Arguments Rollback {W}.

(** [First]: the first row in the order of the primary key. *)
Definition by_key {A} (a b : Z * A) : bool := a.1 <? b.1.
Definition first {W A} (h : Handle W) (q : tables -> list (Z * A)) : M W (Z * A) :=
  let* l := h_select h q by_key 0 (Some 1) in
  match l with r :: _ => ret r | [] => fail gorm_ErrRecordNotFound end.

(** The rows of a map that satisfy a condition, with their keys. *)
Definition where_ {A} (p : Z -> A -> bool) (m : gmap Z A) : list (Z * A) :=
  filter (fun r => p r.1 r.2 = true) (map_to_list m).

Definition is_null {A} (o : option A) : bool := match o with None => true | Some _ => false end.

(** The scope of models with a column [DeletedAt]. *)
Definition problems_where (p : Z -> ProblemDAO.t -> bool) (t : tables) : list (Z * ProblemDAO.t) :=
  where_ (fun id d => is_null d.(ProblemDAO.DeletedAt) && p id d) t.(t_problems).
Definition tags_where (p : Z -> TagDAO.t -> bool) (t : tables) : list (Z * TagDAO.t) :=
  where_ (fun id d => is_null d.(TagDAO.DeletedAt) && p id d) t.(t_tags).

(** UPDATE of the rows of a map that satisfy a condition. *)
Definition update_where {A} (p : Z -> A -> bool) (f : A -> A) (m : gmap Z A) : gmap Z A :=
  map_imap (fun id r => Some (if p id r then f r else r)) m.

Definition update_problems (p : Z -> ProblemDAO.t -> bool) (f : ProblemDAO.t -> ProblemDAO.t) (t : tables) : Z * tables :=
  let p id d := is_null d.(ProblemDAO.DeletedAt) && p id d in
  (Z.of_nat (length (where_ p t.(t_problems))), put_problems t (update_where p f t.(t_problems))).
Definition update_tags (p : Z -> TagDAO.t -> bool) (f : TagDAO.t -> TagDAO.t) (t : tables) : Z * tables :=
  let p id d := is_null d.(TagDAO.DeletedAt) && p id d in
  (Z.of_nat (length (where_ p t.(t_tags))), put_tags t (update_where p f t.(t_tags))).

Definition unordered {A} (a b : A) : bool := false.
(** A new row takes the default of a column for the zero value of its field. *)
Definition or_default (dflt v : bool) : bool := if v then v else dflt.

(** ** Conversions *)

Definition normalizeDifficultyValue (lower_rune : bytes -> bytes) (difficulty : string) : string := ToLower lower_rune (TrimSpace difficulty).

Definition nullableString (value : string) : option string :=
  let value := TrimSpace value in if bool_decide (value = ""%string) then None else Some value.
Definition derefString (value : option string) : string := default ""%string value.

Definition toProblemDAO (lower_rune : bytes -> bytes) (p : Problem) : ProblemDAO.t :=
  ProblemDAO.mk p.(PbSlug) p.(PbTitle) p.(PbDescription) p.(PbInputFormat) p.(PbOutputFormat)
    (normalizeDifficultyValue lower_rune p.(PbDifficulty)) p.(PbExamples) p.(PbConstraints) p.(PbHints) p.(PbTimeLimit)
    p.(PbMemoryLimit) p.(PbAuthorID) p.(PbIsHidden) p.(PbCreatedAt) p.(PbUpdatedAt) None.

Definition toProblemEntity (id : Z) (d : ProblemDAO.t) (tags : list Tag) : Problem :=
  mkProblem id d.(ProblemDAO.Title) d.(ProblemDAO.TitleSlug) d.(ProblemDAO.Description) d.(ProblemDAO.InputFormat)
    d.(ProblemDAO.OutputFormat) d.(ProblemDAO.Difficulty) tags d.(ProblemDAO.Examples) d.(ProblemDAO.Constraints)
    d.(ProblemDAO.Hints) d.(ProblemDAO.TimeLimit) d.(ProblemDAO.MemoryLimit) d.(ProblemDAO.AuthorID)
    d.(ProblemDAO.IsHidden) d.(ProblemDAO.CreatedAt) d.(ProblemDAO.UpdatedAt) d.(ProblemDAO.DeletedAt).

Definition toTagDAO (t : Tag) : TagDAO.t :=
  TagDAO.mk t.(TagName) t.(TagSlug) (nullableString t.(TagDescription)) t.(TagIsActive) t.(TagCreatedAt) t.(TagUpdatedAt) None.
Definition toTagEntity (id : Z) (d : TagDAO.t) : Tag :=
  mkTag id d.(TagDAO.Name) d.(TagDAO.Slug) (derefString d.(TagDAO.Description)) d.(TagDAO.IsActive)
    d.(TagDAO.CreatedAt) d.(TagDAO.UpdatedAt).
Definition toTagEntities (l : list (Z * TagDAO.t)) : list Tag := map (fun r => toTagEntity r.1 r.2) l.

Definition toTestCaseDAO (c : TestCase) : TestCaseDAO.t :=
  TestCaseDAO.mk c.(TsProblemID) c.(TsZipObjectKey) c.(TsTestCount) c.(TsVersion) c.(TsCreatedAt) c.(TsUpdatedAt).
Definition toTestCaseEntity (id : Z) (d : TestCaseDAO.t) : TestCase :=
  mkTestCase id d.(TestCaseDAO.ProblemID) d.(TestCaseDAO.ZipObjectKey) d.(TestCaseDAO.TestCount) d.(TestCaseDAO.Version)
    d.(TestCaseDAO.CreatedAt) d.(TestCaseDAO.UpdatedAt).

(** ** Statements *)

(** The row that an INSERT of the entity leaves. *)
Definition inserted_problem (d : ProblemDAO.t) (now : Time) : ProblemDAO.t :=
  ProblemDAO.mk d.(ProblemDAO.TitleSlug) d.(ProblemDAO.Title) d.(ProblemDAO.Description) d.(ProblemDAO.InputFormat)
    d.(ProblemDAO.OutputFormat) d.(ProblemDAO.Difficulty) (kept_examples d.(ProblemDAO.Examples))
    (kept_texts d.(ProblemDAO.Constraints)) (kept_texts d.(ProblemDAO.Hints)) d.(ProblemDAO.TimeLimit)
    d.(ProblemDAO.MemoryLimit) d.(ProblemDAO.AuthorID) (or_default true d.(ProblemDAO.IsHidden))
    (auto_time d.(ProblemDAO.CreatedAt) now) (auto_time d.(ProblemDAO.UpdatedAt) now) d.(ProblemDAO.DeletedAt).

Definition inserted_tag (d : TagDAO.t) (now : Time) : TagDAO.t :=
  TagDAO.mk d.(TagDAO.Name) d.(TagDAO.Slug) d.(TagDAO.Description) (or_default true d.(TagDAO.IsActive))
    (auto_time d.(TagDAO.CreatedAt) now) (auto_time d.(TagDAO.UpdatedAt) now) d.(TagDAO.DeletedAt).

Definition inserted_test (d : TestCaseDAO.t) (now : Time) : TestCaseDAO.t :=
  TestCaseDAO.mk d.(TestCaseDAO.ProblemID) d.(TestCaseDAO.ZipObjectKey) d.(TestCaseDAO.TestCount) d.(TestCaseDAO.Version)
    (auto_time d.(TestCaseDAO.CreatedAt) now) (auto_time d.(TestCaseDAO.UpdatedAt) now).

(** The keys of tags that [syncProblemTags] collects. *)
Fixpoint link_ids (tags : list Tag) (seen : gset Z) : list Z :=
  match tags with
  | [] => []
  | tag :: rest =>
      if (tag.(TagID) =? 0) || bool_decide (tag.(TagID) ∈ seen) then link_ids rest seen
      else tag.(TagID) :: link_ids rest ({[tag.(TagID)]} ∪ seen)
  end.

Definition drop_links (problemID : Z) (t : tables) : Z * tables :=
  (Z.of_nat (size (filter (fun l : Z * Z => l.1 = problemID) t.(t_links))),
   put_links t (filter (fun l : Z * Z => l.1 <> problemID) t.(t_links))).
Definition add_links (problemID : Z) (ids : list Z) (t : tables) : Z * tables :=
  (Z.of_nat (length ids), put_links t (list_to_set (map (pair problemID) ids) ∪ t.(t_links))).

(** problem_tags JOIN tags, of tags that are not deleted: the tags of some problems. *)
Definition tags_of_problems (problemIDs : list Z) (t : tables) : list (Z * Tag) :=
  omap (fun l : Z * Z =>
    if bool_decide (l.1 ∈ problemIDs) then
      match t.(t_tags) !! l.2 with
      | Some d => if is_null d.(TagDAO.DeletedAt) then Some (l.1, toTagEntity l.2 d) else None
      | None => None
      end
    else None) (elements t.(t_links)).

(** problem_tags JOIN problems: the published problems with a tag. *)
Definition published_with_tag (tagID : Z) (t : tables) : list (Z * ProblemDAO.t) :=
  omap (fun l : Z * Z =>
    if l.2 =? tagID then
      match t.(t_problems) !! l.1 with
      | Some d => if negb d.(ProblemDAO.IsHidden) && is_null d.(ProblemDAO.DeletedAt) then Some (l.1, d) else None
      | None => None
      end
    else None) (elements t.(t_links)).

(** [filterProblemIDsByTagSlug]: the subquery, as the test of a problem. *)
Definition filterProblemIDsByTagSlug (tagSlug : string) (requireActiveTag : bool) (t : tables) (problemID : Z) : bool :=
  existsb (fun l : Z * Z => (l.1 =? problemID) &&
    match t.(t_tags) !! l.2 with
    | Some d => bool_decide (d.(TagDAO.Slug) = tagSlug) && is_null d.(TagDAO.DeletedAt) && (negb requireActiveTag || d.(TagDAO.IsActive))
    | None => false
    end) (elements t.(t_links)).

(** INSERT ... ON CONFLICT (problem_id) DO UPDATE. *)
Definition upsert_test (d : TestCaseDAO.t) (id : Z) (now : Time) (t : tables) : unit * tables :=
  let new := inserted_test d now in
  (tt, put_tests t
    match where_ (fun _ r => r.(TestCaseDAO.ProblemID) =? d.(TestCaseDAO.ProblemID)) t.(t_tests) with
    | [] => <[id := new]> t.(t_tests)
    | _ => update_where (fun _ r => r.(TestCaseDAO.ProblemID) =? d.(TestCaseDAO.ProblemID))
        (fun r => TestCaseDAO.mk r.(TestCaseDAO.ProblemID) new.(TestCaseDAO.ZipObjectKey) new.(TestCaseDAO.TestCount)
           new.(TestCaseDAO.Version) r.(TestCaseDAO.CreatedAt) new.(TestCaseDAO.UpdatedAt)) t.(t_tests)
    end).

(** ** Repositories *)

Section repositories.
Context {W : Type} (db : DB W) (now : M W Time) (lower_rune : bytes -> bytes)
  (* errors.As to *pgconn.PgError with its Code; the text of an error *)
  (SQLSTATE : error -> option string) (Error : error -> string)
  (ILIKE : string -> string -> bool) (before : Time -> Time -> bool) (text_before : string -> string -> bool).

Definition isUniqueViolation (err : error) : bool := bool_decide (SQLSTATE err = Some "23505"%string).

Definition missing_as (notFound err : error) : error := if errors_Is err gorm_ErrRecordNotFound then notFound else err.

(** The map of the result, as the rows. *)
Definition loadTagsByProblemIDs (problemIDs : list Z) : M W (list (Z * Tag)) :=
  match problemIDs with
  | [] => ret []
  | _ => h_select db.(conn) (tags_of_problems problemIDs) (fun a b => text_before a.2.(TagName) b.2.(TagName)) 0 None
  end.
Definition tags_for (id : Z) (rows : list (Z * Tag)) : list Tag := map snd (filter (fun r => r.1 = id) rows).

Definition toProblemEntities (daos : list (Z * ProblemDAO.t)) (rows : list (Z * Tag)) : list Problem :=
  map (fun d => toProblemEntity d.1 d.2 (tags_for d.1 rows)) daos.

Definition syncProblemTags (h : Handle W) (problemID : Z) (tags : list Tag) : M W unit :=
  let* _ := h_exec h (drop_links problemID) in
  match tags with
  | [] => ret tt
  | _ =>
      match link_ids tags ∅ with
      | [] => ret tt
      | ids => let* _ := h_exec h (add_links problemID ids) in ret tt
      end
  end.

(** [if err := m(); err != nil { tx.Rollback(); return h(err) }] *)
Definition or_rollback {A} (h : error -> error) (m : M W A) : M W A :=
  let* r := try m in
  match r with
  | inr a => ret a
  | inl err => let* _ := try db.(Rollback) in fail (h err)
  end.

Definition exists_as (alreadyExists err : error) : error := if isUniqueViolation err then alreadyExists else err.

(** The entity is new: its key is zero. *)
Definition pg_CreateProblem (problem : Problem) : M W Problem :=
  db.(Begin) ;;
  let* id := or_rollback (exists_as ErrProblemAlreadyExists)
      (h_create db.(tx) (fun t => dom t.(t_problems)) (fun id now t =>
         (id, put_problems t (<[id := inserted_problem (toProblemDAO lower_rune problem) now]> t.(t_problems))))) in
  or_rollback (fun err => err) (syncProblemTags db.(tx) id problem.(PbTags)) ;;
  db.(Commit) ;;
  ret (with_ID problem id).

Definition pg_first_problem (p : Z -> ProblemDAO.t -> bool) : M W Problem :=
  let* dao := on_error (missing_as ErrProblemNotFound) (first db.(conn) (problems_where p)) in
  let* rows := loadTagsByProblemIDs [dao.1] in
  ret (toProblemEntity dao.1 dao.2 (tags_for dao.1 rows)).

Definition pg_GetProblemByID (id : Z) : M W Problem := pg_first_problem (fun i _ => i =? id).
Definition pg_GetProblemBySlug (slug : string) : M W Problem :=
  pg_first_problem (fun _ d => bool_decide (d.(ProblemDAO.TitleSlug) = slug)).

Definition GetSubmissionProblem (id : Z) : M W SubmissionProblem :=
  let* row := on_error (missing_as ErrProblemNotFound) (first db.(conn) (problems_where (fun i _ => i =? id))) in
  let d := row.2 in
  ret (mkSubmissionProblem row.1 d.(ProblemDAO.Title) d.(ProblemDAO.TitleSlug) d.(ProblemDAO.TimeLimit)
    d.(ProblemDAO.MemoryLimit) d.(ProblemDAO.AuthorID) d.(ProblemDAO.IsHidden)).

(** The columns that [Update] writes. *)
Definition updated_problem (p : Problem) (now : Time) (d : ProblemDAO.t) : ProblemDAO.t :=
  ProblemDAO.mk p.(PbSlug) p.(PbTitle) p.(PbDescription) p.(PbInputFormat) p.(PbOutputFormat)
    (normalizeDifficultyValue lower_rune p.(PbDifficulty)) (kept_examples p.(PbExamples)) (kept_texts p.(PbConstraints))
    (kept_texts p.(PbHints)) p.(PbTimeLimit) p.(PbMemoryLimit) d.(ProblemDAO.AuthorID) p.(PbIsHidden)
    d.(ProblemDAO.CreatedAt) now d.(ProblemDAO.DeletedAt).

Definition pg_UpdateProblem (problem : Problem) : M W unit :=
  db.(Begin) ;;
  let* t := now in
  let* _ := or_rollback (exists_as ErrProblemAlreadyExists)
      (h_exec db.(tx) (update_problems (fun i _ => i =? problem.(PbID)) (updated_problem problem t))) in
  or_rollback (fun err => err) (syncProblemTags db.(tx) problem.(PbID) problem.(PbTags)) ;;
  db.(Commit).

(** A soft delete: GORM sets [deleted_at], with its own clock. *)
Definition deleted_problem (now : Time) (d : ProblemDAO.t) : ProblemDAO.t :=
  ProblemDAO.mk d.(ProblemDAO.TitleSlug) d.(ProblemDAO.Title) d.(ProblemDAO.Description) d.(ProblemDAO.InputFormat)
    d.(ProblemDAO.OutputFormat) d.(ProblemDAO.Difficulty) d.(ProblemDAO.Examples) d.(ProblemDAO.Constraints)
    d.(ProblemDAO.Hints) d.(ProblemDAO.TimeLimit) d.(ProblemDAO.MemoryLimit) d.(ProblemDAO.AuthorID)
    d.(ProblemDAO.IsHidden) d.(ProblemDAO.CreatedAt) d.(ProblemDAO.UpdatedAt) (Some now).

Definition pg_DeleteProblem (id : Z) : M W unit :=
  let* t := now in
  let* affected := h_exec db.(conn) (update_problems (fun i _ => i =? id) (deleted_problem t)) in
  if affected =? 0 then fail ErrProblemNotFound else ret tt.

(** [applyFilters] *)
Definition applyFilters (f : ProblemFilter) (requireActiveTag : bool) (t : tables) (id : Z) (d : ProblemDAO.t) : bool :=
  let difficulty := ToLower lower_rune (TrimSpace f.(PfDifficulty)) in
  let search := TrimSpace f.(PfSearch) in
  let tagSlug := ToLower lower_rune (TrimSpace f.(PfTagSlug)) in
  (bool_decide (difficulty = ""%string) || bool_decide (d.(ProblemDAO.Difficulty) = difficulty))
  && (bool_decide (search = ""%string)
      || (let like := search_pattern search in ILIKE like d.(ProblemDAO.Title) || ILIKE like d.(ProblemDAO.TitleSlug)))
  && (bool_decide (tagSlug = ""%string) || filterProblemIDsByTagSlug tagSlug requireActiveTag t id).

Definition listed (f : ProblemFilter) (includeHidden : bool) (t : tables) : list (Z * ProblemDAO.t) :=
  problems_where (fun id d => (includeHidden || negb d.(ProblemDAO.IsHidden)) && applyFilters f (negb includeHidden) t id d) t.
Definition listed_by (authorID : string) (f : ProblemFilter) (t : tables) : list (Z * ProblemDAO.t) :=
  problems_where (fun id d => bool_decide (d.(ProblemDAO.AuthorID) = authorID) && applyFilters f false t id d) t.

Definition newest_first (a b : Z * ProblemDAO.t) : bool := before b.2.(ProblemDAO.CreatedAt) a.2.(ProblemDAO.CreatedAt).

(** The entities of the rows of a query. *)
Definition pg_problems (rows : M W (list (Z * ProblemDAO.t))) : M W (list Problem) :=
  let* daos := rows in
  let* tags := loadTagsByProblemIDs (map fst daos) in
  ret (toProblemEntities daos tags).

Definition pg_ListProblems (offset limit : Z) (f : ProblemFilter) (includeHidden : bool) : M W (list Problem) :=
  pg_problems (h_select db.(conn) (listed f includeHidden) newest_first offset (Some limit)).
Definition pg_CountProblems (f : ProblemFilter) (includeHidden : bool) : M W Z := h_count db.(conn) (listed f includeHidden).
Definition pg_ListByAuthor (authorID : string) (offset limit : Z) (f : ProblemFilter) : M W (list Problem) :=
  pg_problems (h_select db.(conn) (listed_by authorID f) newest_first offset (Some limit)).
Definition pg_CountByAuthor (authorID : string) (f : ProblemFilter) : M W Z := h_count db.(conn) (listed_by authorID f).
Definition pg_ListForFormatBackfill : M W (list Problem) :=
  pg_problems (h_select db.(conn) (problems_where (fun _ _ => true)) by_key 0 None).

Definition with_formats (description inputFormat outputFormat : string) (now : Time) (d : ProblemDAO.t) : ProblemDAO.t :=
  ProblemDAO.mk d.(ProblemDAO.TitleSlug) d.(ProblemDAO.Title) description inputFormat outputFormat
    d.(ProblemDAO.Difficulty) d.(ProblemDAO.Examples) d.(ProblemDAO.Constraints) d.(ProblemDAO.Hints)
    d.(ProblemDAO.TimeLimit) d.(ProblemDAO.MemoryLimit) d.(ProblemDAO.AuthorID) d.(ProblemDAO.IsHidden)
    d.(ProblemDAO.CreatedAt) now d.(ProblemDAO.DeletedAt).

Definition no_formats (d : ProblemDAO.t) : bool :=
  bool_decide (d.(ProblemDAO.InputFormat) = ""%string) && bool_decide (d.(ProblemDAO.OutputFormat) = ""%string).

Definition pg_UpdateFormats (id : Z) (description inputFormat outputFormat : string) : M W bool :=
  db.(Begin) ;;
  let* t := now in
  let* affected := or_rollback (fun err => err) (h_exec db.(tx)
      (update_problems (fun i d => (i =? id) && no_formats d) (with_formats description inputFormat outputFormat t))) in
  if affected =? 0 then let* _ := try db.(Rollback) in ret false
  else db.(Commit) ;; ret true.

Definition pg_problemRepository : ProblemRepository W :=
  {| PR_Create := pg_CreateProblem; PR_GetByID := pg_GetProblemByID; PR_GetBySlug := pg_GetProblemBySlug;
     PR_Update := pg_UpdateProblem; PR_Delete := pg_DeleteProblem; PR_List := pg_ListProblems; PR_Count := pg_CountProblems;
     PR_ListByAuthor := pg_ListByAuthor; PR_CountByAuthor := pg_CountByAuthor;
     PR_ListForFormatBackfill := pg_ListForFormatBackfill; PR_UpdateFormatsForBackfill := pg_UpdateFormats |}.

(** *** Tags *)

Definition contains_text (s sub : string) : bool := existsb (fun i => has_prefix (chars sub) (drop i (chars s))) (seq 0 (S (length (chars s)))).

Definition duplicate_tag (err : error) : error :=
  if contains_text (Error err) "duplicate key" || contains_text (Error err) "unique constraint" then ErrTagAlreadyExists else err.

(** The time stamps of the row are copied into the entity, its activity is not. *)
Definition pg_CreateTag (tag : Tag) : M W Tag :=
  let* row := on_error duplicate_tag
      (h_create db.(conn) (fun t => dom t.(t_tags)) (fun id now t =>
         let d := inserted_tag (toTagDAO tag) now in ((id, d), put_tags t (<[id := d]> t.(t_tags))))) in
  ret (mkTag row.1 tag.(TagName) tag.(TagSlug) tag.(TagDescription) tag.(TagIsActive)
         row.2.(TagDAO.CreatedAt) row.2.(TagDAO.UpdatedAt)).

Definition pg_first_tag (p : Z -> TagDAO.t -> bool) : M W Tag :=
  let* dao := on_error (missing_as ErrTagNotFound) (first db.(conn) (tags_where p)) in
  ret (toTagEntity dao.1 dao.2).
Definition pg_GetTagByID (id : Z) : M W Tag := pg_first_tag (fun i _ => i =? id).
Definition pg_GetTagBySlug (slug : string) : M W Tag := pg_first_tag (fun _ d => bool_decide (d.(TagDAO.Slug) = slug)).

Definition pg_UpdateTag (tag : Tag) : M W unit :=
  let* t := now in
  let* _ := on_error duplicate_tag (h_exec db.(conn) (update_tags (fun i _ => i =? tag.(TagID)) (fun d =>
      TagDAO.mk tag.(TagName) tag.(TagSlug) (nullableString tag.(TagDescription)) tag.(TagIsActive)
        d.(TagDAO.CreatedAt) t d.(TagDAO.DeletedAt)))) in
  ret tt.

Definition pg_DeactivateTag (id : Z) : M W unit :=
  let* t := now in
  let* _ := h_exec db.(conn) (update_tags (fun i _ => i =? id) (fun d =>
      TagDAO.mk d.(TagDAO.Name) d.(TagDAO.Slug) d.(TagDAO.Description) false d.(TagDAO.CreatedAt) t d.(TagDAO.DeletedAt))) in
  ret tt.

Definition by_name (a b : Z * TagDAO.t) : bool := text_before a.2.(TagDAO.Name) b.2.(TagDAO.Name).
Definition pg_tags (q : tables -> list (Z * TagDAO.t)) (order : Z * TagDAO.t -> Z * TagDAO.t -> bool) : M W (list Tag) :=
  let* daos := h_select db.(conn) q order 0 None in ret (toTagEntities daos).
Definition pg_ListActive : M W (list Tag) := pg_tags (tags_where (fun _ d => d.(TagDAO.IsActive))) by_name.
Definition pg_ListAll : M W (list Tag) := pg_tags (tags_where (fun _ _ => true)) by_name.
Definition pg_ListByIDs (ids : list Z) (activeOnly : bool) : M W (list Tag) :=
  match ids with
  | [] => ret []
  | _ => pg_tags (tags_where (fun i d => bool_decide (i ∈ ids) && (negb activeOnly || d.(TagDAO.IsActive)))) by_key
  end.
Definition pg_CountPublished (tagID : Z) : M W Z := h_count db.(conn) (published_with_tag tagID).

Definition pg_tagRepository : TagRepository W :=
  {| TR_Create := pg_CreateTag; TR_GetByID := pg_GetTagByID; TR_GetBySlug := pg_GetTagBySlug; TR_Update := pg_UpdateTag;
     TR_Deactivate := pg_DeactivateTag; TR_ListActive := pg_ListActive; TR_ListAll := pg_ListAll;
     TR_ListByIDs := pg_ListByIDs; TR_CountPublished := pg_CountPublished |}.

(** *** Testcases *)

Definition of_problem (problemID : Z) (_ : Z) (d : TestCaseDAO.t) : bool := d.(TestCaseDAO.ProblemID) =? problemID.

Definition pg_GetByProblemID (problemID : Z) : M W TestCase :=
  let* dao := on_error (missing_as ErrTestCaseNotFound)
      (first db.(conn) (fun t => where_ (of_problem problemID) t.(t_tests))) in
  ret (toTestCaseEntity dao.1 dao.2).

Definition pg_Upsert (tc : TestCase) : M W TestCase :=
  let* _ := h_create db.(conn) (fun t => dom t.(t_tests)) (upsert_test (toTestCaseDAO tc)) in
  let* updated := pg_GetByProblemID tc.(TsProblemID) in
  ret (mkTestCase updated.(TsID) tc.(TsProblemID) tc.(TsZipObjectKey) tc.(TsTestCount) tc.(TsVersion)
         updated.(TsCreatedAt) updated.(TsUpdatedAt)).

Definition pg_DeleteByProblemID (problemID : Z) : M W unit :=
  let* _ := h_exec db.(conn) (fun t =>
      (Z.of_nat (length (where_ (of_problem problemID) t.(t_tests))),
       put_tests t (filter (fun r : Z * TestCaseDAO.t => of_problem problemID r.1 r.2 = false) t.(t_tests)))) in
  ret tt.

Definition pg_ListAllZipObjectKeys : M W (list string) :=
  h_select db.(conn) (fun t => map (fun r => r.2.(TestCaseDAO.ZipObjectKey)) (map_to_list t.(t_tests))) unordered 0 None.

Definition pg_testCaseRepository : TestCaseRepository W :=
  {| TC_Upsert := pg_Upsert; TC_GetByProblemID := pg_GetByProblemID; TC_DeleteByProblemID := pg_DeleteByProblemID |}.
End repositories.
