(* ===== verification/ProblemTools.v ===== *)
(** The smaller tools of the problem service: moving the input and output formats
    out of old problem descriptions
    (services/problem/internal/application/backfill/problem_formats.go), the tags
    it is seeded with, and the archive storage in MinIO. *)

From S2P Require Import Prelude GoString GoError GoMonad Patterns SubmissionDomain ProblemDomain ProblemAdmin.

(** ** Headings *)

(** A literal with the flag (?i), for lower-case ASCII; s also stands for the
    long s. *)
Definition RFold (c : ascii) : regex :=
  if is_byte 115 c then RAlt (RSet (fun x => Stdlib.Strings.Ascii.eqb (lower_ascii x) c)) (RSeq (RChr (ascii_of_N 197)) (RChr (ascii_of_N 191)))
  else RSet (fun x => Stdlib.Strings.Ascii.eqb (lower_ascii x) c).
Definition RFolds (s : string) : regex := foldr (fun c r => RSeq (RFold c) r) REps (chars s).

(** [#{1,6}] *)
Fixpoint up_to (n : nat) (r : regex) : regex := match n with O => REps | S n => ROpt (RSeq r (up_to n r)) end.
Definition hashes : regex := RSeq (RLit "#") (up_to 5 (RLit "#")).

Definition formatHeaderPattern : regex :=
  RSeqs [RBeg; ROpt (RSeq hashes (RPlus RSpace));
    RGroup 1 (RAlt (RSeq (RFolds "input") (ROpt (RSeq (RPlus RSpace) (RFolds "format"))))
                   (RSeq (RFolds "output") (ROpt (RSeq (RPlus RSpace) (RFolds "format")))));
    RStar RSpace; ROpt (RLit ":"); RStar RSpace; REnd].
Definition sourceAttributionPattern : regex := RSeqs [RBeg; RFolds "source"; RStar RSpace; RLit ":"].

(** ** Sections *)

Definition lf : ascii := ascii_of_N 10.
Definition cr : ascii := ascii_of_N 13.

(** [strings.ReplaceAll(s, "\r\n", "\n")] *)
Fixpoint unix_lines (l : bytes) : bytes :=
  match l with
  | c :: (d :: r') as r =>
      if Stdlib.Strings.Ascii.eqb c cr && Stdlib.Strings.Ascii.eqb d lf then lf :: unix_lines r' else c :: unix_lines r
  | l => l
  end.

Definition trimSection (lines : list bytes) : string := TrimSpace (str (join_with lf lines)).

Definition joinSections (parts : list string) : string :=
  let nonEmpty := filter (fun t => t <> ""%string) (map TrimSpace parts) in
  match nonEmpty with
  | [] => ""
  | p :: rest => foldl (fun acc t => acc +:+ str [lf; lf] +:+ t) p rest
  end.

Definition is_attribution (line : bytes) : bool :=
  match FindSubmatch sourceAttributionPattern (trim line) with Some _ => true | None => false end.

(** The lines before the first attribution, and those from it on. *)
Fixpoint attribution_at (lines : list bytes) : list bytes * list bytes :=
  match lines with
  | [] => ([], [])
  | l :: rest => if is_attribution l then ([], lines) else let '(a, b) := attribution_at rest in (l :: a, b)
  end.
Definition splitTrailingAttribution (lines : list bytes) : string * string :=
  let '(body, attribution) := attribution_at lines in (trimSection body, trimSection attribution).

Inductive heading := HInput | HOutput.

Section split.
Context (lower_rune : bytes -> bytes).

Definition heading_of (line : bytes) : option heading :=
  match FindSubmatch formatHeaderPattern (trim line) with
  | None => None
  | Some m =>
      let h := ToLower lower_rune (TrimSpace (str (capture m 1))) in
      if bool_decide (h = "input"%string) || bool_decide (h = "input format"%string) then Some HInput
      else if bool_decide (h = "output"%string) || bool_decide (h = "output format"%string) then Some HOutput
      else None
  end.

(** The loop over the lines: the places of the two headings, or the reason. *)
Fixpoint find_headings (lines : list bytes) (index : nat) (inputIndex outputIndex : option nat)
  : string + (option nat * option nat) :=
  match lines with
  | [] => inr (inputIndex, outputIndex)
  | line :: rest =>
      match heading_of line, inputIndex, outputIndex with
      | None, _, _ => find_headings rest (index + 1) inputIndex outputIndex
      | Some HInput, Some _, _ => inl "ambiguous: multiple Input headings"%string
      | Some HInput, None, _ => find_headings rest (index + 1) (Some index) outputIndex
      | Some HOutput, _, Some _ => inl "ambiguous: multiple Output headings"%string
      | Some HOutput, _, None => find_headings rest (index + 1) inputIndex (Some index)
      end
  end.

Definition description_lines (description : string) : list bytes := split_on lf (unix_lines (chars description)).

(** Description, input format and output format, or the reason why not. *)
Definition SplitLegacyDescription (description : string) : string + (string * string * string) :=
  let lines := description_lines description in
  match find_headings lines 0 None None with
  | inl reason => inl reason
  | inr (Some inputIndex, Some outputIndex) =>
      if (outputIndex <=? inputIndex)%nat then inl "ambiguous: Input must precede Output"%string
      else
        let leading := trimSection (take inputIndex lines) in
        let input := trimSection (drop (inputIndex + 1) (take outputIndex lines)) in
        let '(output, attribution) := splitTrailingAttribution (drop (outputIndex + 1) lines) in
        let leading := if bool_decide (attribution = ""%string) then leading else joinSections [leading; attribution] in
        if bool_decide (leading = ""%string) || bool_decide (input = ""%string) || bool_decide (output = ""%string)
        then inl "empty description, input format, or output format"%string
        else inr (leading, input, output)
  | inr _ => inl "no standalone Input and Output headings"%string
  end.

(** ** The run *)

Record BackfillResult := mkBackfill {
  Scanned : Z; Migrated : Z; SkippedPopulated : Z; SkippedNoHeaders : Z; SkippedAmbiguous : Z; SkippedEmptyPart : Z;
  ConcurrentSkipped : Z }.

Definition Skipped (r : BackfillResult) : Z :=
  r.(SkippedPopulated) + r.(SkippedNoHeaders) + r.(SkippedAmbiguous) + r.(SkippedEmptyPart) + r.(ConcurrentSkipped).

Inductive outcome := OMigrated | OPopulated | ONoHeaders | OAmbiguous | OEmptyPart | OConcurrent | OReady.

Definition counted (o : outcome) (r : BackfillResult) : BackfillResult :=
  let b (x : outcome) (n : Z) := match o, x with
    | OMigrated, OMigrated | OPopulated, OPopulated | ONoHeaders, ONoHeaders | OAmbiguous, OAmbiguous
    | OEmptyPart, OEmptyPart | OConcurrent, OConcurrent => n + 1
    | _, _ => n end in
  mkBackfill r.(Scanned) (b OMigrated r.(Migrated)) (b OPopulated r.(SkippedPopulated)) (b ONoHeaders r.(SkippedNoHeaders))
    (b OAmbiguous r.(SkippedAmbiguous)) (b OEmptyPart r.(SkippedEmptyPart)) (b OConcurrent r.(ConcurrentSkipped)).

Definition reason_outcome (reason : string) : outcome :=
  if has_prefix (chars "no standalone") (chars reason) then ONoHeaders
  else if has_prefix (chars "empty") (chars reason) then OEmptyPart
  else OAmbiguous.

Section run.
Context {W : Type} (repository : ProblemRepository W).

(** One problem; the lines of the report are left out. *)
Definition backfill_one (apply : bool) (problem : Problem) : M W outcome :=
  if negb (blank problem.(PbInputFormat)) || negb (blank problem.(PbOutputFormat)) then ret OPopulated
  else
    match SplitLegacyDescription problem.(PbDescription) with
    | inl reason => ret (reason_outcome reason)
    | inr (description, inputFormat, outputFormat) =>
        if negb apply then ret OReady
        else
          let* updated := on_error (EWrap ("update id=" +:+ Itoa problem.(PbID) +:+ " slug=" +:+ problem.(PbSlug)))
              (repository.(PR_UpdateFormatsForBackfill) problem.(PbID) description inputFormat outputFormat) in
          ret (if updated : bool then OMigrated else OConcurrent)
    end.

(** The result so far is returned with the error. *)
Fixpoint backfill_loop (apply : bool) (problems : list Problem) (result : BackfillResult) : M W (BackfillResult * option error) :=
  match problems with
  | [] => ret (result, None)
  | problem :: rest =>
      let* r := try (backfill_one apply problem) in
      match r with
      | inl err => ret (result, Some err)
      | inr o => backfill_loop apply rest (counted o result)
      end
  end.

Definition Run (apply : bool) : M W (BackfillResult * option error) :=
  let* r := try repository.(PR_ListForFormatBackfill) in
  match r with
  | inl err => ret (mkBackfill 0 0 0 0 0 0 0, Some err)
  | inr problems => backfill_loop apply problems (mkBackfill (Z.of_nat (length problems)) 0 0 0 0 0 0)
  end.
End run.
End split.

Definition lines_of (l : list string) : string := str (join_with lf (map chars l)).
Example split_headings : SplitLegacyDescription (fun r => r)
    (lines_of ["Story."; ""; "Input"; ""; "Read n."; ""; "## Output Format:"; "Print n."; "Source: example"]%string)
  = inr (lines_of ["Story."; ""; "Source: example"], "Read n.", "Print n.")%string.
Proof. vm_compute. reflexivity. Qed.
Example split_inverted : SplitLegacyDescription (fun r => r) (lines_of ["Story"; "Output"; "a"; "Input"; "b"]%string)
  = inl "ambiguous: Input must precede Output"%string.
Proof. vm_compute. reflexivity. Qed.

(** The tags that the catalogue is seeded with
    (services/problem/internal/seed/tags/tags.go). *)

(** [tag] *)
Definition seed_tag (name slug description : string) : TagDefinition := mkDefinition name slug description true.

Definition Desired : list TagDefinition := ([
  (* Fundamentals. *)
  seed_tag "Implementation" "implementation" "Problems solved by carefully translating a specification into code.";
  seed_tag "Simulation" "simulation" "Problems that model a process step by step according to stated rules.";
  seed_tag "Brute Force" "brute-force" "Problems where trying every feasible candidate is sufficient within the limits.";
  seed_tag "Complete Search" "complete-search" "Exhaustive exploration of a bounded search space with pruning when useful.";
  seed_tag "Constructive Algorithms" "constructive-algorithms" "Problems that require building any object satisfying the requested constraints.";
  seed_tag "Greedy" "greedy" "Problems solved by repeatedly making a locally optimal choice with a proof of correctness.";
  seed_tag "Divide and Conquer" "divide-and-conquer" "Problems split into independent subproblems whose answers are combined.";
  seed_tag "Recursion" "recursion" "Problems naturally expressed through self-referential subproblems or traversals.";
  seed_tag "Backtracking" "backtracking" "Search problems that build candidates incrementally and undo invalid choices.";
  seed_tag "Meet in the Middle" "meet-in-the-middle" "Problems accelerated by splitting an exponential search into two smaller halves.";
  seed_tag "Two Pointers" "two-pointers" "Problems maintained with two moving positions over ordered data.";
  seed_tag "Sliding Window" "sliding-window" "Problems solved by maintaining an aggregate over a moving contiguous range.";
  seed_tag "Prefix Sum" "prefix-sum" "Problems using cumulative sums to answer range aggregate queries quickly.";
  seed_tag "Difference Array" "difference-array" "Problems applying range updates through endpoint differences and reconstruction.";
  seed_tag "Coordinate Compression" "coordinate-compression" "Problems replacing sparse values with compact order-preserving indices.";
  seed_tag "Offline Queries" "offline-queries" "Queries reordered or processed together before individual answers are returned.";
  seed_tag "Online Queries" "online-queries" "Queries that must be answered in arrival order using maintained state.";
  (* Searching and sorting. *)
  seed_tag "Sorting" "sorting" "Problems whose structure becomes simpler after ordering values or events.";
  seed_tag "Binary Search" "binary-search" "Problems finding a boundary in a monotonic predicate or sorted sequence.";
  seed_tag "Ternary Search" "ternary-search" "Problems locating an optimum of a unimodal discrete or continuous function.";
  seed_tag "Quickselect" "quickselect" "Problems selecting an order statistic without fully sorting all values.";
  seed_tag "Inversion Count" "inversion-count" "Problems counting out-of-order pairs, often with merge sort or a Fenwick tree.";
  (* Data structures. *)
  seed_tag "Array" "array" "Problems centered on indexed contiguous storage and range operations.";
  seed_tag "Matrix" "matrix" "Problems operating on two-dimensional grids or tabular numeric data.";
  seed_tag "String" "string" "Problems centered on sequences of characters and their transformations.";
  seed_tag "Linked List" "linked-list" "Problems involving pointer-linked sequence operations.";
  seed_tag "Stack" "stack" "Problems using last-in first-out state management.";
  seed_tag "Queue" "queue" "Problems using first-in first-out processing.";
  seed_tag "Deque" "deque" "Problems requiring efficient insertion and removal at both ends.";
  seed_tag "Priority Queue" "priority-queue" "Problems repeatedly selecting the smallest or largest pending item.";
  seed_tag "Heap" "heap" "Problems using heap-ordered data structures beyond simple priority queue operations.";
  seed_tag "Hash Table" "hash-table" "Problems requiring expected constant-time key lookup or frequency counting.";
  seed_tag "Set" "set" "Problems maintaining unique values and membership information.";
  seed_tag "Map" "map" "Problems associating keys with values for lookup or aggregation.";
  seed_tag "Bitset" "bitset" "Problems using packed boolean state and word-level bit operations.";
  seed_tag "Sparse Table" "sparse-table" "Static range query problems solved by overlapping power-of-two intervals.";
  seed_tag "Disjoint Set Union" "disjoint-set-union" "Problems maintaining connected components under merge operations.";
  seed_tag "Fenwick Tree" "fenwick-tree" "Prefix aggregate and point or range update problems using a binary indexed tree.";
  seed_tag "Segment Tree" "segment-tree" "Range query and update problems using a balanced interval tree.";
  seed_tag "Lazy Segment Tree" "lazy-segment-tree" "Range update problems where segment tree updates are deferred with lazy propagation.";
  seed_tag "Merge Sort Tree" "merge-sort-tree" "Range query problems using sorted values stored at segment tree nodes.";
  seed_tag "Persistent Data Structure" "persistent-data-structure" "Problems retaining access to previous versions of a mutable data structure.";
  seed_tag "Trie" "trie" "Problems indexing strings or sequences by shared prefixes.";
  seed_tag "Binary Trie" "binary-trie" "Problems indexing integer bit representations for XOR or prefix operations.";
  seed_tag "Sqrt Decomposition" "sqrt-decomposition" "Problems batching updates and queries into square-root sized blocks.";
  seed_tag "Monotonic Stack" "monotonic-stack" "Problems maintaining a stack with monotonic values to find nearest boundaries.";
  seed_tag "Monotonic Queue" "monotonic-queue" "Problems maintaining sliding extrema with a deque in monotonic order.";
  seed_tag "Ordered Set" "ordered-set" "Problems requiring ordered membership, ranks, or predecessor and successor queries.";
  (* Dynamic programming. *)
  seed_tag "Dynamic Programming" "dynamic-programming" "Problems decomposed into overlapping subproblems with stored optimal results.";
  seed_tag "Knapsack" "knapsack" "Selection problems constrained by capacity, cost, or total weight.";
  seed_tag "Longest Increasing Subsequence" "longest-increasing-subsequence" "Problems finding or optimizing increasing subsequences.";
  seed_tag "Longest Common Subsequence" "longest-common-subsequence" "Problems comparing sequences through their longest shared subsequence.";
  seed_tag "Interval DP" "interval-dp" "Dynamic programming over contiguous intervals and split positions.";
  seed_tag "Digit DP" "digit-dp" "Dynamic programming over the digits of a number, typically under numeric bounds.";
  seed_tag "Bitmask DP" "bitmask-dp" "Dynamic programming whose state includes a subset represented by bits.";
  seed_tag "Tree DP" "tree-dp" "Dynamic programming over rooted trees and subtree states.";
  seed_tag "DAG DP" "dag-dp" "Dynamic programming over a directed acyclic graph in topological order.";
  seed_tag "Probability DP" "probability-dp" "Dynamic programming that computes probabilities of events or states.";
  seed_tag "DP Optimization" "dp-optimization" "Problems requiring a standard technique to reduce dynamic programming complexity.";
  seed_tag "Divide and Conquer Optimization" "divide-and-conquer-optimization" "Dynamic programs optimized by monotonic optimal split positions.";
  seed_tag "Knuth Optimization" "knuth-optimization" "Interval dynamic programs optimized by Knuth's quadrangle inequality conditions.";
  seed_tag "Convex Hull Trick" "convex-hull-trick" "Dynamic programs optimized by queries against a set of affine functions.";
  seed_tag "Sum Over Subsets DP" "sum-over-subsets-dp" "Subset dynamic programming accelerated by iterating over submasks or supermasks.";
  (* Graph theory and trees. *)
  seed_tag "Graph" "graph" "Problems modeled with vertices and edges.";
  seed_tag "Graph Traversal" "graph-traversal" "Problems exploring graph reachability or visit order.";
  seed_tag "Breadth First Search" "breadth-first-search" "Unweighted shortest-path and layer-by-layer graph exploration problems.";
  seed_tag "Depth First Search" "depth-first-search" "Graph or tree exploration problems using depth-first ordering.";
  seed_tag "Connected Components" "connected-components" "Problems identifying groups of mutually reachable vertices.";
  seed_tag "Flood Fill" "flood-fill" "Grid or graph component problems expanding from a starting cell or vertex.";
  seed_tag "Topological Sort" "topological-sort" "Dependency ordering problems on directed acyclic graphs.";
  seed_tag "Directed Acyclic Graph" "directed-acyclic-graph" "Problems exploiting the properties of a graph without directed cycles.";
  seed_tag "Shortest Path" "shortest-path" "Problems finding minimum-cost routes through weighted or unweighted graphs.";
  seed_tag "Dijkstra" "dijkstra" "Shortest-path problems on graphs with non-negative edge weights.";
  seed_tag "Bellman Ford" "bellman-ford" "Shortest-path problems with negative edges or negative-cycle detection.";
  seed_tag "Floyd Warshall" "floyd-warshall" "All-pairs shortest-path problems on small dense graphs.";
  seed_tag "0-1 BFS" "zero-one-bfs" "Shortest-path problems whose edge weights are only zero or one.";
  seed_tag "Minimum Spanning Tree" "minimum-spanning-tree" "Problems connecting all vertices with minimum total edge cost.";
  seed_tag "Kruskal" "kruskal" "Minimum spanning tree problems solved by sorting edges and using disjoint sets.";
  seed_tag "Prim" "prim" "Minimum spanning tree problems grown from a frontier using a priority queue.";
  seed_tag "Strongly Connected Components" "strongly-connected-components" "Problems partitioning directed graphs into mutually reachable components.";
  seed_tag "Tarjan" "tarjan" "Graph decomposition problems using low-link values and depth-first search.";
  seed_tag "Kosaraju" "kosaraju" "Strongly connected component problems using two depth-first search passes.";
  seed_tag "Bridges" "bridges" "Problems identifying edges whose removal disconnects an undirected graph.";
  seed_tag "Articulation Points" "articulation-points" "Problems identifying vertices whose removal disconnects an undirected graph.";
  seed_tag "Biconnected Components" "biconnected-components" "Problems decomposing undirected graphs by articulation structure.";
  seed_tag "Euler Tour" "euler-tour" "Problems using an entry and exit traversal ordering to represent tree substructures.";
  seed_tag "Eulerian Path" "eulerian-path" "Problems finding a path that uses every edge exactly once.";
  seed_tag "Hamiltonian Path" "hamiltonian-path" "Problems finding a path that visits every vertex exactly once.";
  seed_tag "Bipartite Graph" "bipartite-graph" "Problems involving two-colorable graphs or two disjoint vertex sets.";
  seed_tag "Bipartite Matching" "bipartite-matching" "Problems pairing vertices across two sets under compatibility constraints.";
  seed_tag "Maximum Flow" "maximum-flow" "Network problems maximizing transferable capacity from source to sink.";
  seed_tag "Minimum Cut" "minimum-cut" "Network problems minimizing the capacity needed to separate source and sink.";
  seed_tag "Min Cost Max Flow" "min-cost-max-flow" "Flow problems optimizing cost while sending as much flow as required.";
  seed_tag "Network Flow" "network-flow" "Problems modeled with capacities, conservation, and flows through a network.";
  seed_tag "Functional Graph" "functional-graph" "Problems on directed graphs where every vertex has exactly one outgoing edge.";
  seed_tag "Graph Coloring" "graph-coloring" "Problems assigning colors to vertices subject to adjacency constraints.";
  seed_tag "Heavy Light Decomposition" "heavy-light-decomposition" "Tree path query problems decomposed into logarithmically many chains.";
  seed_tag "Centroid Decomposition" "centroid-decomposition" "Tree problems recursively decomposed around balanced centroid vertices.";
  seed_tag "Small to Large Merging" "small-to-large-merging" "Problems merging smaller collections into larger ones to bound total work.";
  seed_tag "Tree" "tree" "Problems modeled by connected acyclic graphs.";
  seed_tag "Binary Tree" "binary-tree" "Problems involving trees where each node has at most two children.";
  seed_tag "Binary Search Tree" "binary-search-tree" "Problems using ordered binary tree structure and search invariants.";
  seed_tag "Tree Traversal" "tree-traversal" "Problems requiring preorder, inorder, postorder, or level traversal of trees.";
  seed_tag "Lowest Common Ancestor" "lowest-common-ancestor" "Tree query problems finding the deepest shared ancestor of two nodes.";
  seed_tag "Binary Lifting" "binary-lifting" "Ancestor or jump query problems using powers-of-two transition tables.";
  seed_tag "Subtree Queries" "subtree-queries" "Tree problems answering or updating values over a node's subtree.";
  seed_tag "Tree Diameter" "tree-diameter" "Problems finding the longest path between two vertices in a tree.";
  seed_tag "Tree Flattening" "tree-flattening" "Tree problems mapped to an array interval through traversal order.";
  seed_tag "Rerooting" "rerooting" "Tree dynamic programming that efficiently computes answers for every possible root.";
  seed_tag "DSU on Tree" "dsu-on-tree" "Subtree query problems using small-to-large frequency merging during DFS.";
  (* Mathematics. *)
  seed_tag "Mathematics" "mathematics" "Problems whose key ideas are mathematical identities, proofs, or transformations.";
  seed_tag "Number Theory" "number-theory" "Problems involving integer divisibility, primes, and arithmetic structure.";
  seed_tag "Arithmetic" "arithmetic" "Problems using direct integer or real-number calculations.";
  seed_tag "Modular Arithmetic" "modular-arithmetic" "Problems performing calculations modulo a fixed integer.";
  seed_tag "Modular Inverse" "modular-inverse" "Problems requiring multiplicative inverses under modular arithmetic.";
  seed_tag "Greatest Common Divisor" "greatest-common-divisor" "Problems using common divisors and Euclid's algorithm.";
  seed_tag "Least Common Multiple" "least-common-multiple" "Problems using common multiples or factor exponent aggregation.";
  seed_tag "Prime Numbers" "prime-numbers" "Problems testing, generating, or reasoning about prime numbers.";
  seed_tag "Sieve of Eratosthenes" "sieve-of-eratosthenes" "Problems generating primes or divisor information over a bounded range.";
  seed_tag "Prime Factorization" "prime-factorization" "Problems decomposing integers into prime factors and their exponents.";
  seed_tag "Divisors" "divisors" "Problems enumerating, counting, or optimizing over divisors.";
  seed_tag "Euler Totient" "euler-totient" "Problems using the count of integers coprime to a given number.";
  seed_tag "Chinese Remainder Theorem" "chinese-remainder-theorem" "Problems combining compatible modular congruences.";
  seed_tag "Diophantine Equations" "diophantine-equations" "Problems solving integer equations under arithmetic constraints.";
  seed_tag "Extended Euclidean Algorithm" "extended-euclidean-algorithm" "Problems computing Bezout coefficients, gcds, or modular inverses.";
  seed_tag "Fast Exponentiation" "fast-exponentiation" "Problems computing powers quickly by repeated squaring.";
  seed_tag "Combinatorics" "combinatorics" "Problems counting arrangements, selections, and discrete structures.";
  seed_tag "Permutations" "permutations" "Problems involving orderings of distinct or repeated elements.";
  seed_tag "Combinations" "combinations" "Problems selecting subsets without regard to order.";
  seed_tag "Binomial Coefficients" "binomial-coefficients" "Problems computing or applying choose values.";
  seed_tag "Inclusion Exclusion" "inclusion-exclusion" "Counting problems corrected by alternating overlaps of sets.";
  seed_tag "Pigeonhole Principle" "pigeonhole-principle" "Existence problems proved by placing more objects than available categories.";
  seed_tag "Catalan Numbers" "catalan-numbers" "Counting problems involving balanced structures such as parentheses or tree shapes.";
  seed_tag "Fibonacci" "fibonacci" "Problems using Fibonacci recurrence properties or identities.";
  seed_tag "Matrix Exponentiation" "matrix-exponentiation" "Linear recurrence problems accelerated by exponentiating transition matrices.";
  seed_tag "Linear Algebra" "linear-algebra" "Problems modeled with vectors, matrices, and linear transformations.";
  seed_tag "Gaussian Elimination" "gaussian-elimination" "Problems solving systems of linear equations by row reduction.";
  seed_tag "Probability" "probability" "Problems computing likelihoods of random events.";
  seed_tag "Expected Value" "expected-value" "Problems computing the average outcome of a random process.";
  seed_tag "Game Theory" "game-theory" "Problems analyzing optimal play between competing participants.";
  seed_tag "Nim" "nim" "Impartial game problems reducible to Nim heaps and XOR.";
  seed_tag "Sprague Grundy" "sprague-grundy" "Impartial game problems combined through Grundy values and XOR.";
  seed_tag "Grundy Numbers" "grundy-numbers" "Game problems computing the mex-based value of impartial positions.";
  (* Strings. *)
  seed_tag "String Algorithms" "string-algorithms" "Problems requiring specialized algorithms over character sequences.";
  seed_tag "String Matching" "string-matching" "Problems finding occurrences or alignments of patterns in text.";
  seed_tag "Prefix Function" "prefix-function" "String problems using longest proper prefix and suffix information.";
  seed_tag "Knuth Morris Pratt" "knuth-morris-pratt" "Pattern matching problems solved with the prefix function.";
  seed_tag "Z Function" "z-function" "String problems using prefix match lengths at every position.";
  seed_tag "Rolling Hash" "rolling-hash" "Substring comparison problems using efficiently updated hash values.";
  seed_tag "String Hashing" "string-hashing" "Problems representing strings with hashes for comparison or lookup.";
  seed_tag "Rabin Karp" "rabin-karp" "Pattern matching problems using rolling hashes.";
  seed_tag "Aho Corasick" "aho-corasick" "Multi-pattern matching problems using a trie automaton with failure links.";
  seed_tag "Suffix Array" "suffix-array" "String ordering and substring query problems using sorted suffixes.";
  seed_tag "Suffix Automaton" "suffix-automaton" "Substring counting and occurrence problems using a suffix state machine.";
  seed_tag "Suffix Tree" "suffix-tree" "Substring query problems using a compressed suffix trie.";
  seed_tag "Longest Common Prefix" "longest-common-prefix" "Problems comparing adjacent suffixes or strings by their shared prefixes.";
  seed_tag "Manacher" "manacher" "Palindrome radius problems solved in linear time.";
  seed_tag "Palindrome" "palindrome" "Problems involving strings or sequences equal to their reverse.";
  (* Geometry. *)
  seed_tag "Geometry" "geometry" "Problems modeled with geometric objects and spatial relationships.";
  seed_tag "Computational Geometry" "computational-geometry" "Problems requiring algorithmic operations on geometric primitives.";
  seed_tag "Point" "point" "Problems centered on coordinates and point relationships.";
  seed_tag "Vector" "vector" "Problems using direction, displacement, dot products, or cross products.";
  seed_tag "Line" "line" "Problems involving infinite lines and their equations.";
  seed_tag "Segment" "segment" "Problems involving finite line segments and their relationships.";
  seed_tag "Circle" "circle" "Problems involving circular geometry and distances from centers.";
  seed_tag "Polygon" "polygon" "Problems operating on closed planar shapes defined by vertices.";
  seed_tag "Convex Hull" "convex-hull" "Problems finding or using the smallest convex polygon containing points.";
  seed_tag "Point in Polygon" "point-in-polygon" "Problems deciding whether points lie inside, outside, or on a polygon.";
  seed_tag "Line Intersection" "line-intersection" "Problems computing or testing intersections of infinite lines.";
  seed_tag "Segment Intersection" "segment-intersection" "Problems computing or testing intersections of finite line segments.";
  seed_tag "Sweep Line" "sweep-line" "Problems processed by moving an ordered event line across geometric data.";
  seed_tag "Closest Pair" "closest-pair" "Problems finding the pair of points with minimum distance.";
  seed_tag "Rotating Calipers" "rotating-calipers" "Convex polygon problems optimized by advancing antipodal pointers.";
  seed_tag "Pick's Theorem" "picks-theorem" "Lattice polygon problems relating area, boundary points, and interior points.";
  (* Bit manipulation. *)
  seed_tag "Bit Manipulation" "bit-manipulation" "Problems using binary representation and bitwise operations.";
  seed_tag "Bitmask" "bitmask" "Problems representing subsets or compact state with integer bits.";
  seed_tag "Bitmask Enumeration" "bitmask-enumeration" "Problems iterating through masks representing subsets or configurations.";
  seed_tag "Submask Enumeration" "submask-enumeration" "Problems efficiently iterating through all submasks of a mask.";
  seed_tag "XOR" "xor" "Problems using exclusive-or algebra and binary parity properties.";
  seed_tag "XOR Basis" "xor-basis" "Problems maintaining a linear basis over binary vectors for XOR optimization.";
  seed_tag "Gray Code" "gray-code" "Problems using sequences where adjacent bit patterns differ in one bit.";
  (* Advanced algorithms. *)
  seed_tag "Randomized Algorithms" "randomized-algorithms" "Problems using randomness to simplify construction, search, or expected complexity.";
  seed_tag "Mo's Algorithm" "mos-algorithm" "Offline range query problems reordered to minimize pointer movement.";
  seed_tag "Parallel Binary Search" "parallel-binary-search" "Batch decision problems solved by sharing binary-search iterations.";
  seed_tag "Fractional Cascading" "fractional-cascading" "Related search queries accelerated by linking sorted catalogs.";
  seed_tag "Persistent Segment Tree" "persistent-segment-tree" "Versioned range query problems using persistent segment tree nodes.";
  seed_tag "Li Chao Tree" "li-chao-tree" "Line query problems maintaining affine functions over a coordinate domain.";
  seed_tag "Treap" "treap" "Problems using randomized balanced binary search trees.";
  seed_tag "Splay Tree" "splay-tree" "Problems using self-adjusting binary search trees with amortized guarantees.";
  seed_tag "Cartesian Tree" "cartesian-tree" "Problems building a tree that combines sequence order with heap order.";
  seed_tag "Link Cut Tree" "link-cut-tree" "Dynamic tree problems supporting path operations and link or cut updates.";
  seed_tag "Euler Tour Tree" "euler-tour-tree" "Dynamic forest problems represented through Euler traversal sequences.";
  seed_tag "Fast Fourier Transform" "fast-fourier-transform" "Polynomial or convolution problems accelerated in the frequency domain.";
  seed_tag "Number Theoretic Transform" "number-theoretic-transform" "Modular convolution problems using roots of unity in finite fields.";
  seed_tag "Polynomial" "polynomial" "Problems manipulating polynomial representations and operations.";
  seed_tag "Convolution" "convolution" "Problems combining sequences through pairwise index sums.";
  seed_tag "Fast Multipoint Evaluation" "fast-multipoint-evaluation" "Problems evaluating a polynomial at many points faster than one-by-one evaluation.";
  (* Problem styles and common techniques. *)
  seed_tag "Ad Hoc" "ad-hoc" "Problems solved primarily through problem-specific observations.";
  seed_tag "Interactive" "interactive" "Problems where the program exchanges queries and responses with a judge.";
  seed_tag "Output Only" "output-only" "Problems evaluated from a produced construction without standard input interaction.";
  seed_tag "Queries" "queries" "Problems centered on answering multiple requests over changing or static data.";
  seed_tag "Range Queries" "range-queries" "Problems answering aggregate questions over intervals or subarrays.";
  seed_tag "Range Updates" "range-updates" "Problems applying modifications across contiguous ranges.";
  seed_tag "Offline" "offline" "Problems whose operations can be reordered or processed after all input is known.";
  seed_tag "Online" "online" "Problems whose operations must be handled as they arrive.";
  seed_tag "Optimization" "optimization" "Problems asking for the best value under stated constraints.";
  seed_tag "Counting" "counting" "Problems asking for the number of valid objects or configurations.";
  seed_tag "Enumeration" "enumeration" "Problems requiring generation or traversal of all relevant candidates.";
  seed_tag "Parsing" "parsing" "Problems requiring structured interpretation of input text or expressions."
])%string.

(** ** The catalogue is in the form that the API gives to tags *)

Definition canonical (lower_rune : bytes -> bytes) (d : TagDefinition) : bool :=
  d.(DfActive) && negb (bool_decide (d.(DfDescription) = ""%string))
  && bool_decide (normalizeTagName d.(DfName) = d.(DfName)) && negb (bool_decide (d.(DfName) = ""%string))
  && bool_decide (normalizeTagSlug lower_rune d.(DfSlug) = d.(DfSlug))
  && (len d.(DfName) <=? 100) && (len d.(DfSlug) <=? 120).

Lemma desired_canonical lower_rune : forallb (canonical lower_rune) Desired = true.
Proof. vm_compute. reflexivity. Qed.

Lemma desired_slugs_distinct : NoDup (map DfSlug Desired).
Proof. apply (bool_decide_unpack _). vm_compute. exact I. Qed.

(** The objects that hold the testcase archives
    (services/problem/internal/adapter/outbound/storage/minio/testcase_storage.go).
    The MinIO client and the file system are a parameter. *)

Record ObjectInfo := mkObject { ObKey : string; ObLastModified : Time }.

Record Minio (W : Type) := {
  mc_BucketExists : string -> M W bool;
  mc_MakeBucket : string -> M W unit;
  mc_PutObject : string -> string -> string -> Z -> M W unit;  (* bucket, key, open file, size *)
  mc_RemoveObject : string -> string -> M W unit;
  mc_PresignedGetObject : string -> string -> Z -> M W string;
  mc_ListObjects : string -> string -> M W (list (error + ObjectInfo));
}.
Arguments mc_BucketExists {W}. Arguments mc_MakeBucket {W}. Arguments mc_PutObject {W}. Arguments mc_RemoveObject {W}.
Arguments mc_PresignedGetObject {W}. Arguments mc_ListObjects {W}.

(** What is listed until the first error. *)
Fixpoint listed_objects {A} (f : ObjectInfo -> A) (prefix : string) (l : list (error + ObjectInfo)) : error + list A :=
  match l with
  | [] => inr []
  | inl err :: _ => inl (EWrap ("error listing objects with prefix " +:+ prefix) err)
  | inr o :: rest => match listed_objects f prefix rest with inl e => inl e | inr l => inr (f o :: l) end
  end.

Section storage.
(** [Open] reports the failure of [os.Open], [Stat] gives the size. *)
Context {W : Type} (client : Minio W) (bucket : string) (Open : string -> M W unit) (Stat : string -> M W Z)
  (Close : string -> M W unit).

Definition UploadObject (objectKey filePath : string) : M W unit :=
  if blank objectKey then fail (EText "object key is required")
  else if blank filePath then fail (EText "file path is required")
  else
    on_error (EWrap ("failed to open file " +:+ filePath)) (Open filePath) ;;
    deferring
      (let* size := on_error (EWrap ("failed to stat file " +:+ filePath)) (Stat filePath) in
       if size <=? 0 then fail (EText "testcase file must not be empty")
       else on_error (EWrap ("failed to upload object " +:+ objectKey +:+ " to bucket " +:+ bucket))
              (client.(mc_PutObject) bucket objectKey filePath size))
      (Close filePath).

Definition DeleteObject (objectKey : string) : M W unit :=
  if blank objectKey then ret tt
  else on_error (EWrap ("failed to delete object " +:+ objectKey +:+ " from bucket " +:+ bucket))
         (client.(mc_RemoveObject) bucket objectKey).

Definition GetPresignedURL (objectKey : string) (expiry : Z) : M W string :=
  if blank objectKey then fail (EText "object key is required")
  else on_error (EWrap ("failed to get presigned URL for object " +:+ objectKey +:+ " from bucket " +:+ bucket))
         (client.(mc_PresignedGetObject) bucket objectKey expiry).

Definition list_objects {A} (f : ObjectInfo -> A) (prefix : string) : M W (list A) :=
  let* l := client.(mc_ListObjects) bucket prefix in
  match listed_objects f prefix l with inl e => fail e | inr l => ret l end.
Definition ListTestCasesByPrefix : string -> M W (list string) := list_objects ObKey.
Definition ListTestCaseWithInfo : string -> M W (list ObjectInfo) := list_objects (fun o => o).

Definition EnsureBucket : M W unit :=
  let* exists_ := on_error (EWrap "failed to check bucket existence") (client.(mc_BucketExists) bucket) in
  if exists_ : bool then ret tt
  else on_error (EWrap ("failed to create bucket " +:+ bucket)) (client.(mc_MakeBucket) bucket).

Definition minio_storage : TestCaseStorage W :=
  {| TS_Upload := UploadObject; TS_Delete := DeleteObject; TS_PresignedURL := GetPresignedURL |}.
End storage.
