(* ===== verification/ProblemStore.v ===== *)
(** What the use cases of the problem service rely on of their ports: the
    catalogue of problems, tags and testcases, and the effect of every call on
    it.  PgCatalogue.v shows it of the PostgreSQL repositories. *)

From S2P Require Import Prelude GoString GoError GoMonad SubmissionDomain ProblemDomain ProblemAdmin ProblemTestcases.

(** ** The catalogue

    Rows by primary key; the tags of a problem are the pairs of [c_links], so
    the rows of problems have none of their own. *)
Record catalogue := mkCatalogue {
  c_problems : gmap Z Problem; c_tags : gmap Z Tag; c_links : gset (Z * Z); c_tests : gmap Z TestCase }.

Definition set_problems (m : catalogue) x := mkCatalogue x m.(c_tags) m.(c_links) m.(c_tests).
Definition set_tags (m : catalogue) x := mkCatalogue m.(c_problems) x m.(c_links) m.(c_tests).
Definition set_tests (m : catalogue) x := mkCatalogue m.(c_problems) m.(c_tags) m.(c_links) x.

Definition bare (p : Problem) : Problem :=
  mkProblem p.(PbID) p.(PbTitle) p.(PbSlug) p.(PbDescription) p.(PbInputFormat) p.(PbOutputFormat) p.(PbDifficulty)
    [] p.(PbExamples) p.(PbConstraints) p.(PbHints) p.(PbTimeLimit) p.(PbMemoryLimit) p.(PbAuthorID) p.(PbIsHidden)
    p.(PbCreatedAt) p.(PbUpdatedAt) p.(PbDeletedAt).

(** The links of a problem replaced by those to the given tags, as far as they exist. *)
Definition relink (m : catalogue) (id : Z) (tags : list Tag) : gset (Z * Z) :=
  set_map (pair id) (filter (fun i => is_Some (m.(c_tags) !! i)) (list_to_set (map TagID tags) ∖ {[0]} : gset Z))
  ∪ filter (fun l : Z * Z => l.1 <> id) m.(c_links).

(** A problem as a reader sees it. *)
Definition found (m : catalogue) (p : Problem) : Prop :=
  exists q, m.(c_problems) !! p.(PbID) = Some q /\ q.(PbDeletedAt) = None /\ q = bare p
    /\ forall t, t ∈ p.(PbTags) <-> m.(c_tags) !! t.(TagID) = Some t /\ (p.(PbID), t.(TagID)) ∈ m.(c_links).

Definition tagged (m : catalogue) (id tag : Z) : Prop := (id, tag) ∈ m.(c_links).
Definition has_test (m : catalogue) (c : TestCase) : Prop := m.(c_tests) !! c.(TsID) = Some c.

(** What the unique indexes and foreign keys of the database guarantee. *)
Record intact (m : catalogue) : Prop := {
  in_slugs : forall i j p q, m.(c_problems) !! i = Some p -> m.(c_problems) !! j = Some q -> p.(PbSlug) = q.(PbSlug) -> i = j;
  in_tag_slugs : forall i j s t, m.(c_tags) !! i = Some s -> m.(c_tags) !! j = Some t -> s.(TagSlug) = t.(TagSlug) -> i = j;
  in_links : forall i t, tagged m i t -> is_Some (m.(c_problems) !! i) /\ is_Some (m.(c_tags) !! t);
  in_tests : forall i j c d, m.(c_tests) !! i = Some c -> m.(c_tests) !! j = Some d -> c.(TsProblemID) = d.(TsProblemID) -> i = j;
}.

(** ** Rows that are written

    [keep] is what a row keeps of the lists of an entity and of its difficulty. *)
Definition put_row (keep : Problem -> Problem) (p : Problem) (id : Z) (author : string) (hidden : bool) (created updated : Time)
    (deleted : option Time) : Problem :=
  let k := keep p in
  mkProblem id k.(PbTitle) k.(PbSlug) k.(PbDescription) k.(PbInputFormat) k.(PbOutputFormat) k.(PbDifficulty) []
    k.(PbExamples) k.(PbConstraints) k.(PbHints) k.(PbTimeLimit) k.(PbMemoryLimit) author hidden created updated deleted.

Definition auto_stamp (t now : Time) : Time := if t =? 0 then now else t.

(** [is_hidden] has the default true, which a new row takes for false. *)
Definition created_row (keep : Problem -> Problem) (p : Problem) (id : Z) (now : Time) : Problem :=
  put_row keep p id p.(PbAuthorID) true (auto_stamp p.(PbCreatedAt) now) (auto_stamp p.(PbUpdatedAt) now) None.

Definition updated_problem_row (keep : Problem -> Problem) (p : Problem) (now : Time) (q : Problem) : Problem :=
  put_row keep p q.(PbID) q.(PbAuthorID) p.(PbIsHidden) q.(PbCreatedAt) now q.(PbDeletedAt).

Definition deleted_row (now : Time) (q : Problem) : Problem :=
  mkProblem q.(PbID) q.(PbTitle) q.(PbSlug) q.(PbDescription) q.(PbInputFormat) q.(PbOutputFormat) q.(PbDifficulty)
    q.(PbTags) q.(PbExamples) q.(PbConstraints) q.(PbHints) q.(PbTimeLimit) q.(PbMemoryLimit) q.(PbAuthorID) q.(PbIsHidden)
    q.(PbCreatedAt) q.(PbUpdatedAt) (Some now).

Definition live (p : Problem) : bool := negb (IsDeleted p).

(** A row of a map, if it is there and satisfies a condition, replaced. *)
Definition amend {A} (p : A -> bool) (f : A -> A) (id : Z) (m : gmap Z A) : gmap Z A :=
  alter (fun r => if p r then f r else r) id m.

(** The description of a tag is trimmed when it is stored; a new tag is active. *)
Definition created_tag (t : Tag) (id : Z) (now : Time) : Tag :=
  mkTag id t.(TagName) t.(TagSlug) (TrimSpace t.(TagDescription)) true (auto_stamp t.(TagCreatedAt) now) (auto_stamp t.(TagUpdatedAt) now).
Definition updated_tag (t : Tag) (now : Time) (q : Tag) : Tag :=
  mkTag q.(TagID) t.(TagName) t.(TagSlug) (TrimSpace t.(TagDescription)) t.(TagIsActive) q.(TagCreatedAt) now.
Definition off_tag (now : Time) (q : Tag) : Tag :=
  mkTag q.(TagID) q.(TagName) q.(TagSlug) q.(TagDescription) false q.(TagCreatedAt) now.

(** ** Effects *)

Definition problem_created keep (p : Problem) (id : Z) (m m' : catalogue) : Prop :=
  exists now, 0 < id /\ m.(c_problems) !! id = None /\
    m' = mkCatalogue (<[id := created_row keep p id now]> m.(c_problems)) m.(c_tags) (relink m id p.(PbTags)) m.(c_tests).
Definition problem_updated keep (p : Problem) (m m' : catalogue) : Prop :=
  exists now, m' = mkCatalogue (amend live (updated_problem_row keep p now) p.(PbID) m.(c_problems)) m.(c_tags)
    (relink m p.(PbID) p.(PbTags)) m.(c_tests).
Definition problem_deleted (id : Z) (m m' : catalogue) : Prop :=
  exists now, m' = set_problems m (amend live (deleted_row now) id m.(c_problems)).

Definition tag_created (t : Tag) (id : Z) (m m' : catalogue) : Prop :=
  exists now, 0 < id /\ m.(c_tags) !! id = None
    /\ m' = set_tags m (<[id := created_tag t id now]> m.(c_tags)).
Definition tag_updated (t : Tag) (m m' : catalogue) : Prop :=
  exists now, m' = set_tags m (alter (updated_tag t now) t.(TagID) m.(c_tags)).
Definition tag_off (id : Z) (m m' : catalogue) : Prop := exists now, m' = set_tags m (alter (off_tag now) id m.(c_tags)).

(** The row of the problem is updated, or there was none. *)
Definition test_put (c : TestCase) (m m' : catalogue) : Prop :=
  exists d, m' = set_tests m (<[d.(TsID) := d]> m.(c_tests))
    /\ (d.(TsProblemID), d.(TsZipObjectKey), d.(TsTestCount), d.(TsVersion))
       = (c.(TsProblemID), c.(TsZipObjectKey), c.(TsTestCount), c.(TsVersion))
    /\ ((exists old, has_test m old /\ old.(TsProblemID) = c.(TsProblemID) /\ old.(TsID) = d.(TsID))
        \/ m.(c_tests) !! d.(TsID) = None).
Definition test_dropped (problemID : Z) (m m' : catalogue) : Prop :=
  m' = set_tests m (filter (fun r : Z * TestCase => r.2.(TsProblemID) <> problemID) m.(c_tests)).

(** A call that writes: with a result it has had its effect; an error may also
    come after it (a commit whose answer is lost). *)
Definition writes {W A} (db : W -> catalogue) (E : A -> catalogue -> catalogue -> Prop) (m : M W A) : Prop :=
  forall w r w', m w = (r, w') ->
    match r with inr a => E a (db w) (db w') | inl _ => db w' = db w \/ exists a, E a (db w) (db w') end.

Class CatalogueLaws {W : Type} (problems : ProblemRepository W) (tags : TagRepository W) (tests : TestCaseRepository W)
    (db : W -> catalogue) (keep : Problem -> Problem) := {
  cl_keep : forall p, let k := keep p in
    (k.(PbTitle), k.(PbSlug), k.(PbDescription), k.(PbInputFormat), k.(PbOutputFormat))
    = (p.(PbTitle), p.(PbSlug), p.(PbDescription), p.(PbInputFormat), p.(PbOutputFormat))
    /\ (isValidDifficulty p.(PbDifficulty) = true -> k.(PbDifficulty) = p.(PbDifficulty));
  cl_intact : forall w, intact (db w);
  cl_key : forall w i p, (db w).(c_problems) !! i = Some p -> p.(PbID) = i;
  cl_tag_key : forall w i t, (db w).(c_tags) !! i = Some t -> t.(TagID) = i;
  cl_test_key : forall w i c, (db w).(c_tests) !! i = Some c -> c.(TsID) = i;

  cl_get : forall id w p w', problems.(PR_GetByID) id w = (inr p, w') -> found (db w) p /\ p.(PbID) = id;
  cl_get_slug : forall s w p w', problems.(PR_GetBySlug) s w = (inr p, w') -> found (db w) p /\ p.(PbSlug) = s;
  cl_no_slug : forall s w e w', problems.(PR_GetBySlug) s w = (inl e, w') -> errors_Is e ErrProblemNotFound = true ->
    forall i q, (db w).(c_problems) !! i = Some q -> live q = true -> q.(PbSlug) <> s;
  cl_create : forall p, writes db (fun p' m m' => p' = with_ID p p'.(PbID) /\ problem_created keep p p'.(PbID) m m') (problems.(PR_Create) p);
  cl_update : forall p, writes db (fun _ => problem_updated keep p) (problems.(PR_Update) p);
  cl_delete : forall id, writes db (fun _ => problem_deleted id) (problems.(PR_Delete) id);

  cl_get_tag : forall id w t w', tags.(TR_GetByID) id w = (inr t, w') -> (db w).(c_tags) !! id = Some t;
  cl_tags_by_id : forall ids w l w', tags.(TR_ListByIDs) ids true w = (inr l, w') ->
    forall t, t ∈ l <-> (db w).(c_tags) !! t.(TagID) = Some t /\ t.(TagIsActive) = true /\ t.(TagID) ∈ ids;
  cl_published : forall id w n w', tags.(TR_CountPublished) id w = (inr n, w') -> n <= 0 ->
    forall i p, tagged (db w) i id -> (db w).(c_problems) !! i = Some p -> live p = true -> p.(PbIsHidden) = true;
  cl_create_tag : forall t, writes db (fun t' m m' =>
      t'.(TagIsActive) = t.(TagIsActive) /\ tag_created t t'.(TagID) m m') (tags.(TR_Create) t);
  cl_update_tag : forall t, writes db (fun _ => tag_updated t) (tags.(TR_Update) t);
  cl_deactivate : forall id, writes db (fun _ => tag_off id) (tags.(TR_Deactivate) id);

  cl_get_test : forall id w c w', tests.(TC_GetByProblemID) id w = (inr c, w') -> has_test (db w) c /\ c.(TsProblemID) = id;
  cl_no_test : forall id w e w', tests.(TC_GetByProblemID) id w = (inl e, w') -> errors_Is e ErrTestCaseNotFound = true ->
    forall c, has_test (db w) c -> c.(TsProblemID) <> id;
  cl_upsert : forall c, writes db (fun _ => test_put c) (tests.(TC_Upsert) c);
  cl_drop : forall id, writes db (fun _ => test_dropped id) (tests.(TC_DeleteByProblemID) id);

  cl_reads : (forall id, keeps db (problems.(PR_GetByID) id)) /\ (forall s, keeps db (problems.(PR_GetBySlug) s))
    /\ (forall id, keeps db (tags.(TR_GetByID) id)) /\ (forall ids b, keeps db (tags.(TR_ListByIDs) ids b))
    /\ (forall id, keeps db (tags.(TR_CountPublished) id)) /\ (forall id, keeps db (tests.(TC_GetByProblemID) id))
    /\ keeps db tags.(TR_ListAll) /\ keeps db tags.(TR_ListActive)
    /\ (forall o n f h, keeps db (problems.(PR_List) o n f h)) /\ (forall f h, keeps db (problems.(PR_Count) f h))
    /\ (forall a o n f, keeps db (problems.(PR_ListByAuthor) a o n f)) /\ (forall a f, keeps db (problems.(PR_CountByAuthor) a f));
}.

(** ** A service *)

Record platform (W : Type) := mkPlatform {
  pf_now : M W Time; pf_offset : Time -> Z; pf_lower_rune : bytes -> bytes;
  pf_problems : ProblemRepository W; pf_tags : TagRepository W; pf_tests : TestCaseRepository W;
  pf_storage : TestCaseStorage W; pf_cache : option (SubmissionProblemCache W);
  pf_OpenReader : string -> M W (list zip_file); pf_Remove : string -> M W unit }.
Arguments pf_now {W}. Arguments pf_offset {W}. Arguments pf_lower_rune {W}. Arguments pf_problems {W}.
Arguments pf_tags {W}. Arguments pf_tests {W}. Arguments pf_storage {W}. Arguments pf_cache {W}.
Arguments pf_OpenReader {W}. Arguments pf_Remove {W}.

(** The clock, the object store, the cache and the file system are not the
    database. *)
Record quiet_file {W} (db : W -> catalogue) (f : UploadFile W) : Prop := {
  qf_open : keeps db f.(UfOpen _); qf_close : keeps db f.(UfClose _); qf_temp : keeps db f.(UfCreateTemp _);
  qf_copy : forall path, keeps db (f.(UfCopy _) path) }.

Class PlatformLaws {W : Type} (pf : platform W) (db : W -> catalogue) (keep : Problem -> Problem) := {
  pl_catalogue :: CatalogueLaws pf.(pf_problems) pf.(pf_tags) pf.(pf_tests) db keep;
  pl_now : keeps db pf.(pf_now);
  pl_storage : (forall k p, keeps db (pf.(pf_storage).(TS_Upload) k p)) /\ (forall k, keeps db (pf.(pf_storage).(TS_Delete) k))
    /\ (forall k e, keeps db (pf.(pf_storage).(TS_PresignedURL) k e));
  pl_cache : forall c, pf.(pf_cache) = Some c -> forall id, keeps db (c.(CC_Delete) id);
  pl_files : (forall path, keeps db (pf.(pf_OpenReader) path)) /\ (forall path, keeps db (pf.(pf_Remove) path));
}.
