(* ===== verification/ProblemSlugs.v ===== *)
(** Slugs, difficulties and tag lists of the problem service: what the
    normalisation functions of ProblemAdmin.v give, and that the search for a
    free slug ends. *)

From S2P Require Import Prelude GoString GoError GoMonad Patterns GoTime SubmissionDomain ProblemDomain ProblemAdmin ProblemStore.

(** ** The alphabet of slugs *)

Lemma chars_app s t : chars (s +:+ t) = chars s ++ chars t.
Proof. induction s as [|c s IH]; [done|]. exact (f_equal (cons c) IH). Qed.


Definition slug_byte (c : ascii) : bool := slug_char c || is_dash c.
Definition slug_ok (s : string) : bool := negb (bool_decide (s = ""%string)) && forallb slug_byte (chars s).

(** At a byte that is no letter or digit the pattern matches, and takes every
    such byte that follows. *)
Lemma nonslug_run l prev cs :
  exists a b p, l = a ++ b /\ head b = find_first slug_char l
    /\ star_loop (rmatch (X := pos * caps) (RSet (fun c => negb (slug_char c)))) true (length l) (prev, l) cs
         (fun i' cs => Some (i', cs)) = Some ((p, b), cs).
Proof.
  revert prev. induction l as [|c l IH]; intros prev.
  - exists [], [], prev. done.
  - cbn. destruct (slug_char c) eqn:E; cbn.
    + exists [], (c :: l), prev. done.
    + unfold Nat.ltb. cbn. rewrite Nat.leb_refl.
      destruct (IH (Some c)) as (a & b & p & -> & H1 & H2). exists (c :: a), b, p.
      split; [done|]. split; [exact H1|]. cbn in H2. by rewrite H2.
Qed.

Lemma nonslug_at l prev :
  match match_at nonSlugCharsPattern (prev, l) with
  | None => l = [] \/ exists c r, l = c :: r /\ slug_char c = true
  | Some ((p, b), _) => exists c r, l = c :: r /\ slug_char c = false /\ (exists a, r = a ++ b)
  end.
Proof.
  unfold match_at, nonSlugCharsPattern, RPlus. cbn. destruct l as [|c l]; [by left|].
  destruct (slug_char c) eqn:E; cbn; [by right; exists c, l|].
  destruct (nonslug_run l (Some c) []) as (a & b & p & H1 & _ & H2). cbn in H2. rewrite H2.
  exists c, l. split_and!; [done|done|by exists a].
Qed.

Lemma find_nonslug l prev skipped :
  Forall (fun c => slug_byte c = true) skipped ->
  match find_from nonSlugCharsPattern prev l skipped with
  | None => Forall (fun c => slug_byte c = true) l
  | Some (before, (_, b), _) => Forall (fun c => slug_byte c = true) before /\ (length b < length l)%nat
  end.
Proof.
  revert prev skipped. induction l as [|c l IH]; intros prev skipped HS.
  - pose proof (nonslug_at [] prev) as H. cbn [find_from]. destruct (match_at _ _) as [[[p b] cs]|]; [|constructor].
    destruct H as (c & r & [=] & _).
  - pose proof (nonslug_at (c :: l) prev) as H. cbn [find_from]. destruct (match_at _ _) as [[[p b] cs]|].
    + destruct H as (c' & r & [= <- <-] & _ & a & ->). split; [by apply Forall_rev|]. rewrite length_cons, length_app. lia.
    + assert (slug_byte c = true) as HC.
      { destruct H as [[=]|(c' & r & [= <- <-] & E)]. unfold slug_byte. by rewrite E. }
      specialize (IH (Some c) (c :: skipped)). destruct (find_from _ (Some c) l (c :: skipped)) as [[[before [p b]] cs]|].
      * destruct IH as [H1 H2]; [by constructor|]. split; [done|]. cbn. lia.
      * constructor; [done|]. apply IH. by constructor.
Qed.

Lemma replaced_slug n l prev : (length l <= n)%nat ->
  Forall (fun c => slug_byte c = true) (replace_loop nonSlugCharsPattern (fun _ => [dash]) n (prev, l)).
Proof.
  revert l prev. induction n as [|n IH]; intros l prev HL.
  - destruct l; [constructor|cbn in HL; lia].
  - cbn [replace_loop fst snd]. pose proof (find_nonslug l prev []) as H.
    destruct (find_from _ _ _ _) as [[[before [p b]] cs]|]; [|by apply H].
    destruct H as [H1 H2]; [constructor|]. cbn [fst snd]. rewrite (proj2 (Nat.ltb_lt _ _) H2).
    apply Forall_app. split; [done|]. constructor; [done|]. apply IH. lia.
Qed.

Lemma drop_while_Forall (P : ascii -> Prop) p l : Forall P l -> Forall P (drop_while p l).
Proof. induction 1 as [|c l H F IH]; [constructor|]. cbn. destruct (p c); [done|by constructor]. Qed.

Lemma trim_set_Forall (P : ascii -> Prop) p l : Forall P l -> Forall P (trim_set p l).
Proof. intros F. unfold trim_set, trim_right_set. by apply Forall_rev, drop_while_Forall, Forall_rev, drop_while_Forall. Qed.

Lemma slug_text_bytes lower title : Forall (fun c => slug_byte c = true) (slug_text lower title).
Proof. apply trim_set_Forall. unfold ReplaceAll. by apply replaced_slug. Qed.

Lemma slug_or_ok lower fallback title : slug_ok fallback = true -> slug_ok (slug_or fallback lower title) = true.
Proof.
  intros H. unfold slug_or. case_bool_decide as E; [done|]. unfold slug_ok. rewrite bool_decide_eq_false_2 by done.
  cbn. rewrite chars_str. apply forallb_forall. intros c Hc.
  pose proof (slug_text_bytes lower title) as F. rewrite Forall_forall in F. apply F. by apply list_elem_of_In.
Qed.

Lemma slugify_ok lower title : slug_ok (slugify lower title) = true.
Proof. by apply slug_or_ok. Qed.
Lemma slug_ok_app s t : slug_ok s = true -> forallb slug_byte (chars t) = true -> slug_ok (s +:+ t) = true.
Proof.
  unfold slug_ok. intros [H1 H2]%andb_true_iff H3. apply andb_true_iff. split.
  - apply negb_true_iff in H1. apply negb_true_iff. apply bool_decide_eq_false in H1. apply bool_decide_eq_false. by destruct s.
  - rewrite chars_app, forallb_app, H2, H3. done.
Qed.

(** ** The search for a free slug *)

Definition candidate (base : string) (attempt : Z) : string :=
  if 1 <? attempt then base +:+ "-" +:+ Itoa attempt else base.

Lemma app_string_inj (s t u : string) : s +:+ t = s +:+ u -> t = u.
Proof. intros H. apply chars_inj. apply (f_equal chars) in H. rewrite !chars_app in H. by apply app_inv_head in H. Qed.

Lemma candidate_inj base m n : 1 <= m <= int64_max -> 1 <= n <= int64_max -> candidate base m = candidate base n -> m = n.
Proof.
  intros Hm Hn. unfold candidate.
  assert (forall k, base <> base +:+ "-" +:+ Itoa k) as HB.
  { intros k H. apply (f_equal (fun s => length (chars s))) in H. rewrite !chars_app, !length_app in H. cbn in H. lia. }
  destruct (Z.ltb_spec 1 m), (Z.ltb_spec 1 n); intros E; [|by destruct (HB m)|by destruct (HB n)|lia].
  apply app_string_inj, app_string_inj, (f_equal ParseInt) in E.
  rewrite !ParseInt_Itoa in E by (unfold in_int64, int64_min, int64_max in *; lia). by injection E.
Qed.

Lemma candidate_ok base n : slug_ok base = true -> slug_ok (candidate base n) = true.
Proof.
  intros H. unfold candidate. destruct (1 <? n); [|done]. apply slug_ok_app; [done|]. rewrite chars_app, forallb_app.
  apply andb_true_iff. split; [done|]. apply forallb_forall. intros c Hc. unfold Itoa in Hc.
  assert (forall z c, In c (format_nat z) -> slug_byte c = true) as HD.
  { intros z d Hd. pose proof (proj1 (forallb_forall _ _) (format_nat_digits z) d Hd) as D. unfold is_digit in D.
    unfold slug_byte, slug_char. by rewrite D, orb_true_r. }
  destruct (n <? 0); rewrite chars_str in Hc; [|by apply HD in Hc]. destruct Hc as [<-|Hc]; [done|by apply HD in Hc].
Qed.

Section search.
Context {W : Type} (problems : ProblemRepository W) (tags : TagRepository W) (tests : TestCaseRepository W)
  (db : W -> catalogue) (keep : Problem -> Problem) {CL : CatalogueLaws problems tags tests db keep}.

(** A search that is still running has found a row for every candidate. *)
Lemma search_running base fuel attempt w w' : 1 <= attempt -> slug_loop problems fuel attempt base w = (inr None, w') ->
  forall k, (k < fuel)%nat -> exists i q, (db w).(c_problems) !! i = Some q /\ q.(PbSlug) = candidate base (attempt + Z.of_nat k).
Proof.
  revert attempt w. induction fuel as [|fuel IH]; intros attempt w HA H k Hk; [lia|].
  cbn [slug_loop] in H. apply bind_inr_inv in H as (r & w1 & E & H). unfold try in E.
  destruct (PR_GetBySlug _ _ w) as [r' w1'] eqn:EG. injection E as <- <-.
  destruct r' as [e|p]; [by destruct (errors_Is _ _)|].
  pose proof (proj1 (proj2 (cl_reads (tags := tags) (tests := tests) (keep := keep) (db := db))) _ _ _ _ EG) as K.
  pose proof (cl_get_slug (tags := tags) (tests := tests) (keep := keep) (db := db) _ _ _ _ EG) as [(q & Q1 & _ & -> & _) QS].
  destruct k as [|k].
  - exists p.(PbID), (bare p). rewrite Z.add_0_r. by destruct p.
  - destruct (IH (attempt + 1) w1' ltac:(lia) H k ltac:(lia)) as (i & q' & H1 & H2). rewrite K in H1. exists i, q'.
    split; [done|]. rewrite H2. f_equal. lia.
Qed.

Lemma search_result base fuel attempt w s w' : slug_loop problems fuel attempt base w = (inr (Some s), w') ->
  db w' = db w /\ (exists n, s = candidate base n)
  /\ forall i q, (db w).(c_problems) !! i = Some q -> live q = true -> q.(PbSlug) <> s.
Proof.
  revert attempt w. induction fuel as [|fuel IH]; intros attempt w H; [done|].
  cbn [slug_loop] in H. apply bind_inr_inv in H as (r & w1 & E & H). unfold try in E.
  destruct (PR_GetBySlug _ _ w) as [r' w1'] eqn:EG. injection E as <- <-.
  pose proof (proj1 (proj2 (cl_reads (tags := tags) (tests := tests) (keep := keep) (db := db))) _ _ _ _ EG) as K.
  destruct r' as [e|p].
  - destruct (errors_Is e ErrProblemNotFound) eqn:EN; [|done]. injection H as <- <-. split; [done|]. split; [by exists attempt|].
    by eapply (cl_no_slug (tags := tags) (tests := tests) (keep := keep) (db := db)).
  - apply IH in H. by rewrite K in H.
Qed.

(** There are not more candidates than rows to reject them. *)
Lemma search_ends base fuel w r w' :
  (size (db w).(c_problems) < fuel)%nat -> Z.of_nat fuel <= int64_max ->
  slug_loop problems fuel 1 base w = (r, w') -> r <> inr None.
Proof.
  intros HF HM H ->. pose proof (search_running base fuel 1 w w' ltac:(lia) H) as R.
  set (cands := map (fun k => candidate base (1 + Z.of_nat k)) (seq 0 fuel)).
  set (slugs := map (fun r : Z * Problem => r.2.(PbSlug)) (map_to_list (db w).(c_problems))).
  assert (cands ⊆+ slugs) as HS%submseteq_length.
  { apply NoDup_submseteq.
    - apply NoDup_fmap_2_strong; [|apply NoDup_seq]. intros x y Hx%elem_of_seq Hy%elem_of_seq E.
      apply candidate_inj in E; lia.
    - intros s (k & -> & Hk%elem_of_seq)%list_elem_of_fmap. destruct (R k ltac:(lia)) as (i & q & H1 & H2).
      apply list_elem_of_fmap. exists (i, q). cbn. split; [done|]. by apply elem_of_map_to_list. }
  unfold cands, slugs in HS. rewrite !length_map, length_seq in HS. rewrite length_map_to_list in HS. lia.
Qed.
End search.
