(* ===== verification/ProblemSpec.v ===== *)
(** The problem service as an abstract machine over its catalogue: what each
    request may change, for whom, and that the use cases do nothing else. *)

From S2P Require Import Prelude GoString GoError GoMonad SubmissionDomain ProblemDomain ProblemAdmin ProblemTestcases ProblemStore ProblemSlugs.

(** ** Requests *)

Inductive problem_request (W : Type) :=
| PqCreate (fuel : nat) (req : CreateProblemRequest)
| PqUpdate (id : Z) (req : UpdateProblemRequest)
| PqPublish (id : Z)
| PqHide (id : Z)
| PqDelete (id : Z)
| PqCreateTag (req : CreateTagRequest)
| PqUpdateTag (id : Z) (req : UpdateTagRequest)
| PqDeleteTag (id : Z)
| PqUpload (id : Z) (file : option (UploadFile W))
| PqDeleteTests (id : Z)
| PqGet (id : Z)
| PqGetTests (id : Z)
| PqList (req : ListProblemsRequest)
| PqMine (req : ListProblemsRequest)
| PqBrowse (req : ListProblemsRequest)
| PqShow (slug : string)
| PqTags
| PqActiveTags.
Arguments PqCreate {W}. Arguments PqUpdate {W}. Arguments PqPublish {W}. Arguments PqHide {W}. Arguments PqDelete {W}.
Arguments PqCreateTag {W}. Arguments PqUpdateTag {W}. Arguments PqDeleteTag {W}. Arguments PqUpload {W}.
Arguments PqDeleteTests {W}. Arguments PqGet {W}. Arguments PqGetTests {W}. Arguments PqList {W}. Arguments PqMine {W}.
Arguments PqBrowse {W}. Arguments PqShow {W}. Arguments PqTags {W}. Arguments PqActiveTags {W}.

(** ** Well-formed rows *)

Definition problem_ok (p : Problem) : bool :=
  negb (blank p.(PbTitle)) && negb (blank p.(PbDescription)) && negb (blank p.(PbInputFormat))
  && negb (blank p.(PbOutputFormat)) && isValidDifficulty p.(PbDifficulty) && slug_ok p.(PbSlug).
Definition tag_ok (t : Tag) : bool := negb (blank t.(TagName)) && slug_ok t.(TagSlug).

(** ** The abstract machine *)

(** An active tag of the catalogue. *)
Definition selectable (m : catalogue) (t : Tag) : Prop := m.(c_tags) !! t.(TagID) = Some t /\ t.(TagIsActive) = true.

(** No published problem carries the tag. *)
Definition unpublished (m : catalogue) (tag : Z) : Prop :=
  forall i p, tagged m i tag -> m.(c_problems) !! i = Some p -> live p = true -> p.(PbIsHidden) = true.

(** What an update of the fields of a problem leaves as it was. *)
Definition who_and_where (p : Problem) := (p.(PbID), p.(PbAuthorID), p.(PbIsHidden), p.(PbCreatedAt), p.(PbDeletedAt)).

Definition edit_of (m : catalogue) (q p : Problem) : Prop :=
  who_and_where p = who_and_where q /\ (problem_ok q = true -> problem_ok p = true)
  /\ forall t, t ∈ p.(PbTags) -> t ∈ q.(PbTags) \/ selectable m t.

(** Who may change a problem and its testcases. *)
Definition entitled (c : Claims) (q : Problem) : Prop :=
  AtLeast c.(ClaimRole) RoleModerator = true
  \/ (AtLeast c.(ClaimRole) RoleContributor = true /\ q.(PbAuthorID) = c.(UserID) /\ q.(PbIsHidden) = true).

Definition all_active (l : list Tag) : Prop := forall t, t ∈ l -> t.(TagIsActive) = true.

Definition next_version (m : catalogue) (problemID version : Z) : Prop :=
  (exists old, has_test m old /\ old.(TsProblemID) = problemID /\ version = wrap64 (old.(TsVersion) + 1))
  \/ (version = 1 /\ forall old, has_test m old -> old.(TsProblemID) <> problemID).

Definition catalogue_change {W} (keep : Problem -> Problem) (c : Claims) (rq : problem_request W) (m m' : catalogue) : Prop :=
  match rq with
  | PqCreate _ _ =>
      AtLeast c.(ClaimRole) RoleContributor = true /\
      exists p id, p.(PbAuthorID) = c.(UserID) /\ problem_ok p = true /\ (forall t, t ∈ p.(PbTags) -> selectable m t)
        /\ (forall i q, m.(c_problems) !! i = Some q -> live q = true -> q.(PbSlug) <> p.(PbSlug))
        /\ problem_created keep p id m m'
  | PqUpdate id _ =>
      exists q p, found m q /\ q.(PbID) = id /\ entitled c q /\ edit_of m q p /\ problem_updated keep p m m'
  | PqPublish id =>
      AtLeast c.(ClaimRole) RoleModerator = true /\
      exists q now, found m q /\ q.(PbID) = id /\ all_active q.(PbTags) /\ problem_updated keep (Publish now q) m m'
  | PqHide id =>
      AtLeast c.(ClaimRole) RoleModerator = true /\
      exists q now, found m q /\ q.(PbID) = id /\ problem_updated keep (Hidden now q) m m'
  | PqDelete id => exists q, found m q /\ q.(PbID) = id /\ entitled c q /\ problem_deleted id m m'
  | PqCreateTag _ => AtLeast c.(ClaimRole) RoleModerator = true /\ exists t id, tag_ok t = true /\ tag_created t id m m'
  | PqUpdateTag id _ =>
      AtLeast c.(ClaimRole) RoleModerator = true /\
      exists q t, m.(c_tags) !! id = Some q /\ t.(TagID) = id /\ (tag_ok q = true -> tag_ok t = true)
        /\ (q.(TagIsActive) = true -> t.(TagIsActive) = false -> unpublished m id) /\ tag_updated t m m'
  | PqDeleteTag id =>
      AtLeast c.(ClaimRole) RoleModerator = true /\
      exists q, m.(c_tags) !! id = Some q /\ (q.(TagIsActive) = true -> unpublished m id) /\ tag_off id m m'
  | PqUpload id _ =>
      exists q d, found m q /\ q.(PbID) = id /\ entitled c q /\ 0 < d.(TsTestCount) /\ next_version m id d.(TsVersion)
        /\ d.(TsProblemID) = id /\ d.(TsZipObjectKey) = object_key id d.(TsVersion) /\ test_put d m m'
  | PqDeleteTests id => exists q, found m q /\ q.(PbID) = id /\ entitled c q /\ test_dropped id m m'
  | PqGet _ | PqGetTests _ | PqList _ | PqMine _ | PqBrowse _ | PqShow _ | PqTags | PqActiveTags => False
  end.

Definition catalogue_spec {W} keep c (rq : problem_request W) (m m' : catalogue) : Prop :=
  m' = m \/ catalogue_change keep c rq m m'.

(** ** The use cases *)

Definition perform_request {W} (pf : platform W) (c : Claims) (rq : problem_request W) : M W unit :=
  let run {A} (m : M W A) : M W unit := let* _ := m in ret tt in
  match rq with
  | PqCreate fuel req => run (createProblem pf.(pf_now) pf.(pf_offset) pf.(pf_lower_rune) pf.(pf_problems) pf.(pf_tags) fuel c req)
  | PqUpdate id req => run (updateProblem pf.(pf_offset) pf.(pf_lower_rune) pf.(pf_problems) pf.(pf_tags) pf.(pf_cache) c id req)
  | PqPublish id => run (publishProblem pf.(pf_now) pf.(pf_offset) pf.(pf_problems) pf.(pf_cache) c id)
  | PqHide id => run (hideProblem pf.(pf_now) pf.(pf_offset) pf.(pf_problems) pf.(pf_cache) c id)
  | PqDelete id => run (deleteProblem pf.(pf_problems) pf.(pf_cache) c id)
  | PqCreateTag req => run (createTag pf.(pf_now) pf.(pf_offset) pf.(pf_lower_rune) pf.(pf_tags) c req)
  | PqUpdateTag id req => run (updateTag pf.(pf_offset) pf.(pf_lower_rune) pf.(pf_tags) c id req)
  | PqDeleteTag id => run (deleteTag pf.(pf_tags) c id)
  | PqUpload id file =>
      run (uploadTestCase pf.(pf_now) pf.(pf_offset) pf.(pf_problems) pf.(pf_tests) pf.(pf_storage) pf.(pf_OpenReader)
             pf.(pf_Remove) c id file)
  | PqDeleteTests id => run (deleteTestCase pf.(pf_problems) pf.(pf_tests) pf.(pf_storage) c id)
  | PqGet id => run (getAdminProblem pf.(pf_offset) pf.(pf_problems) pf.(pf_tests) c id)
  | PqGetTests id => run (getTestCase pf.(pf_offset) pf.(pf_problems) pf.(pf_tests) c id)
  | PqList req => run (adminListProblems pf.(pf_offset) pf.(pf_lower_rune) pf.(pf_problems) c req)
  | PqMine req => run (listMyProblems pf.(pf_offset) pf.(pf_lower_rune) pf.(pf_problems) c req)
  | PqBrowse req => run (listProblems pf.(pf_offset) pf.(pf_lower_rune) pf.(pf_problems) req)
  | PqShow slug => run (getUserProblem pf.(pf_offset) pf.(pf_problems) slug)
  | PqTags => run (listAllTags pf.(pf_offset) pf.(pf_tags) c)
  | PqActiveTags => run (listActiveTags pf.(pf_tags))
  end.

(** The file of an upload is not the database. *)
Definition request_quiet {W} (db : W -> catalogue) (rq : problem_request W) : Prop :=
  match rq with PqUpload _ (Some f) => quiet_file db f | _ => True end.

(** ** Runs that end with a change or with none *)

Section ends.
Context {W : Type} (db : W -> catalogue).

Definition ends {A} (Q : catalogue -> Prop) (w : W) (m : M W A) : Prop :=
  forall r w', m w = (r, w') -> db w' = db w \/ Q (db w').

Lemma ends_keeps {A} Q w (m : M W A) : keeps db m -> ends Q w m.
Proof. intros K r w' E. left. eauto. Qed.

Lemma ends_read {A B} Q w (m : M W A) (f : A -> M W B) : keeps db m ->
  (forall a w1, m w = (inr a, w1) -> db w1 = db w -> ends Q w1 (f a)) -> ends Q w (bind m f).
Proof.
  intros K H r w' E. unfold bind in E. destruct (m w) as [[e|a] w1] eqn:Em; pose proof (K _ _ _ Em) as K1.
  - injection E as <- <-. by left.
  - destruct (H a w1 eq_refl K1 r w' E) as [->|]; [by left|by right].
Qed.

Lemma ends_write {A B} Q w E (m : M W A) (f : A -> M W B) : writes db E m -> (forall a m', E a (db w) m' -> Q m') ->
  (forall a, keeps db (f a)) -> ends Q w (bind m f).
Proof.
  intros HW HQ HK r w' H. unfold bind in H. destruct (m w) as [[e|a] w1] eqn:Em; specialize (HW _ _ _ Em); cbn in HW.
  - injection H as <- <-. destruct HW as [HW|(a & HW)]; [by left|right; by eapply HQ].
  - rewrite (HK _ _ _ _ H). right. by eapply HQ.
Qed.

Lemma ends_try_write {A B} Q w E (m : M W A) (f : error + A -> M W B) : writes db E m -> (forall a m', E a (db w) m' -> Q m') ->
  (forall r, keeps db (f r)) -> ends Q w (bind (try m) f).
Proof.
  intros HW HQ HK r w' H. unfold bind, try in H. destruct (m w) as [r1 w1] eqn:Em; specialize (HW _ _ _ Em); cbn in HW.
  rewrite (HK _ _ _ _ H). destruct r1 as [e|a]; [destruct HW as [HW|(a & HW)]; [by left|]|]; right; by eapply HQ.
Qed.

Lemma writes_on_error {A} h E (m : M W A) : writes db E m -> writes db E (on_error h m).
Proof.
  intros H w r w' E0. unfold on_error in E0. destruct (m w) as [[e|a] w1] eqn:Em; injection E0 as <- <-; by apply (H _ _ _ Em).
Qed.

Lemma ends_last {A} Q w E (m : M W A) : writes db E m -> (forall a m', E a (db w) m' -> Q m') -> ends Q w m.
Proof.
  intros HW HQ r w' H. specialize (HW _ _ _ H). destruct r as [e|a]; [destruct HW as [HW|(a & HW)]; [by left|]|]; right; by eapply HQ.
Qed.

Lemma ends_on_error {A} Q w h (m : M W A) : ends Q w m -> ends Q w (on_error h m).
Proof. intros H r w' E. unfold on_error in E. destruct (m w) as [[e|a] w1] eqn:Em; injection E as <- <-; eauto. Qed.

Lemma ends_deferring {A} Q w (m : M W A) (d : M W unit) : ends Q w m -> keeps db d -> ends Q w (deferring m d).
Proof.
  intros H K r w' E. unfold deferring in E. destruct (m w) as [r1 w1] eqn:Em. injection E as <- <-.
  destruct (d w1) as [r2 w2] eqn:Ed. cbn. rewrite (K _ _ _ Ed). eauto.
Qed.

Lemma ends_then {A B} Q w (m : M W A) (f : A -> M W B) : ends Q w m -> (forall a, keeps db (f a)) -> ends Q w (bind m f).
Proof.
  intros H K r w' E. unfold bind in E. destruct (m w) as [[e|a] w1] eqn:Em.
  - injection E as <- <-. eauto.
  - rewrite (K _ _ _ _ E). eauto.
Qed.

Lemma ends_fail {A} Q w e : ends Q w (fail (A := A) e).
Proof. apply ends_keeps, keeps_fail. Qed.

Lemma keeps_lift {A} (r : error + A) : keeps db (lift r).
Proof. destruct r; [apply keeps_fail|apply keeps_ret]. Qed.
End ends.

Ltac keeps_step :=
  lazymatch goal with
  | |- keeps _ (ret _) => apply keeps_ret
  | |- keeps _ (fail _) => apply keeps_fail
  | |- keeps _ (lift _) => apply keeps_lift
  | |- keeps _ (guard _ _) => apply keeps_guard
  | |- keeps _ (bind _ _) => apply keeps_bind; [|intros ?]
  | |- keeps _ (on_error _ _) => apply keeps_on_error
  | |- keeps _ (try _) => apply keeps_try
  | |- keeps _ (match ?x with _ => _ end) => destruct x
  | |- keeps _ (let _ := _ in _) => cbv zeta
  | |- keeps _ (PR_GetByID _ _) => apply cl_reads
  | |- keeps _ (PR_GetBySlug _ _) => apply cl_reads
  | |- keeps _ (PR_List _ _ _ _ _) => apply cl_reads
  | |- keeps _ (PR_Count _ _ _) => apply cl_reads
  | |- keeps _ (PR_ListByAuthor _ _ _ _ _) => apply cl_reads
  | |- keeps _ (PR_CountByAuthor _ _ _) => apply cl_reads
  | |- keeps _ (TR_GetByID _ _) => apply cl_reads
  | |- keeps _ (TR_ListByIDs _ _ _) => apply cl_reads
  | |- keeps _ (TR_CountPublished _ _) => apply cl_reads
  | |- keeps _ (TR_ListAll _) => apply cl_reads
  | |- keeps _ (TR_ListActive _) => apply cl_reads
  | |- keeps _ (TC_GetByProblemID _ _) => apply cl_reads
  | _ => solve [auto with judge]
  end.

(** ** Parts of the use cases *)

Section parts.
Context {W : Type} {problems : ProblemRepository W} {tags : TagRepository W} {tests : TestCaseRepository W}
  {db : W -> catalogue} {keep : Problem -> Problem} {CL : CatalogueLaws problems tags tests db keep}
  (lower : bytes -> bytes) (offset : Time -> Z).

Lemma normalizeDifficulty_valid d d' : normalizeDifficulty lower d = inr d' -> isValidDifficulty d' = true.
Proof. unfold normalizeDifficulty. repeat case_bool_decide; by intros [= <-]. Qed.

Lemma required_inr field text w t w' : required (W := W) field text w = (inr t, w') -> blank t = false /\ w' = w.
Proof.
  unfold required. cbv zeta. case_bool_decide as E; [done|]. intros [= <- <-]. split; [|done].
  unfold blank. apply bool_decide_eq_false. by rewrite TrimSpace_idem.
Qed.

Lemma get_problem_keeps id : keeps db (get_problem problems id).
Proof. unfold get_problem. repeat keeps_step. Qed.

Lemma get_problem_found id w p w' : get_problem problems id w = (inr p, w') -> found (db w) p /\ p.(PbID) = id.
Proof. intros H. apply on_error_inr in H. by apply cl_get in H. Qed.

Lemma resolve_keeps ids : keeps db (resolveProblemTags tags ids).
Proof. unfold resolveProblemTags. repeat keeps_step. Qed.

Lemma resolve_selectable ids w l w' : resolveProblemTags tags ids w = (inr l, w') -> forall t, t ∈ l -> selectable (db w) t.
Proof.
  unfold resolveProblemTags. intros H. apply bind_inr_inv in H as (tagIDs & w1 & E1 & H).
  assert (w1 = w) as -> by (unfold lift in E1; destruct (normalizeTagIDs ids); by injection E1).
  destruct tagIDs as [|i tagIDs]; [injection H as <- <-; by intros t Ht%elem_of_nil|].
  apply bind_inr_inv in H as (found_ & w2 & E2 & H). apply on_error_inr in E2. cbv zeta in H.
  remember (i :: tagIDs) as ids' eqn:Ei. clear Ei. destruct (filter _ ids'); [|done]. injection H as <- <-.
  intros t (j & _ & Ht)%list_elem_of_omap. unfold tag_by_id in Ht.
  apply last_Some_elem_of, list_elem_of_filter in Ht as [_ Ht]. by apply (cl_tags_by_id _ _ _ _ E2) in Ht as (H1 & H2 & _).
Qed.

Lemma given_or_inr {A B} (o : option A) (old : B) (f : A -> M W B) w b w' : given_or o old f w = (inr b, w') ->
  (o = None /\ b = old /\ w' = w) \/ exists a, o = Some a /\ f a w = (inr b, w').
Proof. destruct o as [a|]; cbn; [eauto|]. intros [= <- <-]. by left. Qed.

Lemma keeps_given_or {A B} (o : option A) (old : B) (f : A -> M W B) : (forall a, keeps db (f a)) -> keeps db (given_or o old f).
Proof. destruct o; cbn; [auto|intros; apply keeps_ret]. Qed.

Lemma new_slug_keeps q s : keeps db (new_slug lower problems q s).
Proof. unfold new_slug. repeat keeps_step. Qed.

Lemma new_slug_inr q s w s' w' : new_slug lower problems q s w = (inr s', w') -> s' = slugify lower s.
Proof.
  unfold new_slug. cbv zeta. intros H. apply bind_inr_inv in H as ([e|p] & w1 & _ & H).
  - destruct (negb _); [done|]. by injection H.
  - destruct (negb _); [done|]. by injection H.
Qed.

Lemma required_keeps field text : keeps db (required (W := W) field text).
Proof. unfold required. repeat keeps_step. Qed.

Lemma edited_keeps q req : keeps db (edited lower problems tags q req).
Proof.
  unfold edited. repeat (apply keeps_bind; [apply keeps_given_or; intros ?|intros ?]); try apply keeps_ret;
    first [apply required_keeps|apply new_slug_keeps|apply resolve_keeps|apply keeps_lift].
Qed.

(** A field that has to satisfy a condition and is kept or checked. *)
Lemma kept_or_checked {A B} (P : B -> Prop) (o : option A) old (f : A -> M W B) w b w' :
  given_or o old f w = (inr b, w') -> (forall a, keeps db (f a)) -> (forall a w b w', f a w = (inr b, w') -> P b) ->
  db w' = db w /\ (P old -> P b).
Proof.
  intros [(_ & -> & ->)|(a & _ & H)]%given_or_inr HK HP; [done|]. split; [by eapply HK|]. intros _. by eapply HP.
Qed.

Lemma edited_edit q req w p w' : edited lower problems tags q req w = (inr p, w') -> edit_of (db w) q p.
Proof.
  unfold edited. intros H. run_inv H. injection H as <- <-.
  assert (forall f t, keeps db (required (W := W) f t)) as KR by apply required_keeps.
  assert (forall f t w b w', required (W := W) f t w = (inr b, w') -> blank b = false) as RB by (intros; by eapply required_inr).
  apply (kept_or_checked (fun t => blank t = false)) in E as [D1 P1]; [|done|by eauto].
  apply (kept_or_checked (fun s => slug_ok s = true)) in E0 as [D2 P2];
    [|apply new_slug_keeps|intros ? ? ? ? ->%new_slug_inr; apply slugify_ok].
  apply (kept_or_checked (fun t => blank t = false)) in E1 as [D3 P3]; [|done|by eauto].
  apply (kept_or_checked (fun t => blank t = false)) in E2 as [D4 P4]; [|done|by eauto].
  apply (kept_or_checked (fun t => blank t = false)) in E3 as [D5 P5]; [|done|by eauto].
  apply (kept_or_checked (fun d => isValidDifficulty d = true)) in E4 as [D6 P6].
  2: { intros; apply keeps_lift. }
  2: { intros d x b x' L. unfold lift in L. destruct (normalizeDifficulty lower d) eqn:N; [done|]. injection L as <- _.
       by apply normalizeDifficulty_valid in N. }
  split_and!; [done| |].
  - unfold problem_ok. cbn. intros OK. bools. rewrite P1, P2, P3, P4, P5, P6 by done. done.
  - cbn. intros t Ht. apply given_or_inr in E5 as [(_ & -> & _)|(ids & _ & R)]; [by left|]. right.
    assert (db w = db w5) as -> by congruence. by eapply resolve_selectable.
Qed.

Lemma may_edit_entitled c q : AtLeast c.(ClaimRole) RoleContributor = true -> may_edit c q = true -> entitled c q.
Proof.
  intros HC. unfold may_edit. intros [H|[H1 H2]%andb_true_iff]%orb_true_iff; [by left|]. right. by apply bool_decide_eq_true in H1.
Qed.

Lemma no_inactive_tags l : hasInactiveTags l = false -> all_active l.
Proof.
  intros H t Ht. destruct (TagIsActive t) eqn:E; [done|]. rewrite <- H. apply (proj2 (existsb_exists _ _)). exists t.
  split; [by apply list_elem_of_In|by rewrite E].
Qed.

Lemma found_not_hidden_or q m : found m q -> live q = true.
Proof. intros (r & _ & HD & -> & _). unfold live, IsDeleted. cbn in HD. by rewrite HD. Qed.
End parts.

(** ** The use cases implement the machine *)

Section refinement.
Context {W : Type} (pf : platform W) (db : W -> catalogue) (keep : Problem -> Problem) {PL : PlatformLaws pf db keep}.

#[local] Notation problems := pf.(pf_problems).
#[local] Notation tags := pf.(pf_tags).
#[local] Notation tests := pf.(pf_tests).
#[local] Notation law f := (f _ problems tags tests db keep _) (only parsing).

Lemma now_keeps : keeps db pf.(pf_now).
Proof. exact pl_now. Qed.
Lemma invalidate_keeps id : keeps db (invalidateSubmissionProblemCache pf.(pf_cache) id).
Proof.
  unfold invalidateSubmissionProblemCache. destruct (pf_cache pf) as [c|] eqn:E; [|apply keeps_ret].
  apply keeps_bind; [apply keeps_try; by eapply (pl_cache (keep := keep))|intros; apply keeps_ret].
Qed.
Lemma reads_keeps : (forall id, keeps db (problems.(PR_GetByID) id)) /\ (forall s, keeps db (problems.(PR_GetBySlug) s))
    /\ (forall id, keeps db (tags.(TR_GetByID) id)) /\ (forall ids b, keeps db (tags.(TR_ListByIDs) ids b))
    /\ (forall id, keeps db (tags.(TR_CountPublished) id)) /\ (forall id, keeps db (tests.(TC_GetByProblemID) id))
    /\ keeps db tags.(TR_ListAll) /\ keeps db tags.(TR_ListActive)
    /\ (forall o n f h, keeps db (problems.(PR_List) o n f h)) /\ (forall f h, keeps db (problems.(PR_Count) f h))
    /\ (forall a o n f, keeps db (problems.(PR_ListByAuthor) a o n f)) /\ (forall a f, keeps db (problems.(PR_CountByAuthor) a f)).
Proof. exact (law (@cl_reads)). Qed.

Ltac quiet_step :=
  first [ assumption | apply now_keeps | apply invalidate_keeps
        | apply (get_problem_keeps (tags := tags) (tests := tests) (keep := keep))
        | apply (resolve_keeps (problems := problems) (tests := tests) (keep := keep))
        | apply (edited_keeps (tests := tests) (keep := keep))
        | destruct reads_keeps as (?&?&?&?&?&?&?&?&?&?&?&?); solve [eauto]
        | destruct (pl_storage (pf := pf) (db := db) (keep := keep)) as (?&?&?); solve [eauto]
        | destruct (pl_files (pf := pf) (db := db) (keep := keep)) as (?&?); solve [eauto]
        | lazymatch goal with
          | |- keeps _ (ret _) => apply keeps_ret
          | |- keeps _ (fail _) => apply keeps_fail
          | |- keeps _ (lift _) => apply keeps_lift
          | |- keeps _ (bind _ _) => apply keeps_bind; [|intros ?]
          | |- keeps _ (on_error _ _) => apply keeps_on_error
          | |- keeps _ (try _) => apply keeps_try
          | |- keeps _ (match ?x with _ => _ end) => destruct x
          | |- keeps _ (let _ := _ in _) => cbv zeta
          end ].
Ltac quiet := repeat quiet_step.

(** The first steps of the use cases on a problem. *)
Lemma with_problem {A} id w (f : Problem -> M W A) Q :
  (forall p w1, found (db w) p -> p.(PbID) = id -> db w1 = db w -> ends db Q w1 (f p)) ->
  ends db Q w (let* p := get_problem problems id in f p).
Proof.
  intros H. apply ends_read; [quiet|]. intros p w1 E K.
  apply (get_problem_found (tags := tags) (tests := tests) (keep := keep)) in E as [F1 F2]. by apply H.
Qed.

Lemma run_spec {A} (m : M W A) Q w : ends db Q w m -> ends db Q w (let* _ := m in ret tt).
Proof. intros H. apply ends_then; [done|]. intros; apply keeps_ret. Qed.

Lemma slug_loop_keeps fuel attempt base : keeps db (slug_loop problems fuel attempt base).
Proof. revert attempt. induction fuel as [|fuel IH]; intros attempt; cbn [slug_loop]; quiet. Qed.

Lemma create_ends fuel c req w :
  ends db (catalogue_change (W := W) keep c (PqCreate fuel req) (db w)) w
    (createProblem pf.(pf_now) pf.(pf_offset) pf.(pf_lower_rune) problems tags fuel c req).
Proof.
  unfold createProblem. destruct (AtLeast _ _) eqn:EA; cbn [negb]; [|apply ends_fail].
  assert (forall f t, keeps db (required (W := W) f t)) as KR by (intros; unfold required; quiet).
  apply ends_read; [done|]. intros title w1 [B1 ->]%required_inr _.
  apply ends_read; [done|]. intros description w2 [B2 ->]%required_inr _.
  apply ends_read; [done|]. intros inf w3 [B3 ->]%required_inr _.
  apply ends_read; [done|]. intros outf w4 [B4 ->]%required_inr _.
  apply ends_read; [quiet|]. intros d w5 E5 D5.
  assert (isValidDifficulty d = true) as BD.
  { unfold lift in E5. destruct (normalizeDifficulty _ _) eqn:N; [done|]. injection E5 as <- _.
    by apply normalizeDifficulty_valid in N. }
  apply ends_read; [quiet|]. intros ts w6 E6 D6.
  pose proof (resolve_selectable (problems := problems) (tests := tests) (db := db) (keep := keep) _ _ _ _ E6) as S6. rewrite D5 in S6.
  apply ends_read; [apply slug_loop_keeps|]. intros slug w7 E7 D7. destruct slug as [slug|]; [|apply ends_keeps, keeps_ret].
  apply (search_result problems tags tests db keep) in E7 as (_ & (n & ->) & FREE). rewrite D6, D5 in FREE.
  apply ends_read; [quiet|]. intros t w8 _ D8. apply ends_read; [quiet|]. intros t' w9 _ D9.
  eapply ends_write; [apply writes_on_error, (law (@cl_create))| |intros; quiet].
  cbn beta. intros p' m' [EP HC]. rewrite D9, D8, D7, D6, D5 in HC.
  split; [done|]. eexists _, _. split_and!; [..|exact HC]; [done| |done|done].
  unfold problem_ok. cbn. rewrite B1, B2, B3, B4, BD. cbn. apply candidate_ok, slugify_ok.
Qed.

Lemma update_ends c id req w :
  ends db (catalogue_change (W := W) keep c (PqUpdate id req) (db w)) w
    (updateProblem pf.(pf_offset) pf.(pf_lower_rune) problems tags pf.(pf_cache) c id req).
Proof.
  unfold updateProblem. destruct (AtLeast _ _) eqn:EA; cbn [negb]; [|apply ends_fail].
  apply with_problem. intros q w1 F1 F2 D1. destruct (may_edit c q) eqn:ME; cbn [negb]; [|apply ends_fail].
  apply (may_edit_entitled _ _ EA) in ME.
  apply ends_read; [quiet|]. intros p w2 E2 D2. apply (edited_edit (tests := tests) (db := db) (keep := keep)) in E2. rewrite D1 in E2.
  eapply ends_write; [apply writes_on_error, (law (@cl_update))| |intros; quiet].
  cbn beta. intros _ m' HC. rewrite D2, D1 in HC. cbn. by exists q, p.
Qed.

Lemma store_ends p Q w :
  (forall m', problem_updated keep p (db w) m' -> Q m') -> ends db Q w (store_problem pf.(pf_offset) problems pf.(pf_cache) p).
Proof.
  intros H. unfold store_problem. eapply ends_write; [apply writes_on_error, (law (@cl_update))|intros ? m' HC; by apply H|intros; quiet].
Qed.

Lemma publish_ends c id w :
  ends db (catalogue_change (W := W) keep c (PqPublish id) (db w)) w (publishProblem pf.(pf_now) pf.(pf_offset) problems pf.(pf_cache) c id).
Proof.
  unfold publishProblem. destruct (AtLeast _ _) eqn:EA; cbn [negb]; [|apply ends_fail].
  apply with_problem. intros q w1 F1 F2 D1. destruct (hasInactiveTags _) eqn:EI; [apply ends_fail|].
  apply no_inactive_tags in EI.
  apply ends_read; [quiet|]. intros t w2 _ D2. apply store_ends. intros m' HC. rewrite D2, D1 in HC. cbn. eauto 10.
Qed.

Lemma hide_ends c id w :
  ends db (catalogue_change (W := W) keep c (PqHide id) (db w)) w (hideProblem pf.(pf_now) pf.(pf_offset) problems pf.(pf_cache) c id).
Proof.
  unfold hideProblem. destruct (AtLeast _ _) eqn:EA; cbn [negb]; [|apply ends_fail].
  apply with_problem. intros q w1 F1 F2 D1.
  apply ends_read; [quiet|]. intros t w2 _ D2. apply store_ends. intros m' HC. rewrite D2, D1 in HC. cbn. eauto 10.
Qed.

Lemma delete_ends c id w :
  ends db (catalogue_change (W := W) keep c (PqDelete id) (db w)) w (deleteProblem problems pf.(pf_cache) c id).
Proof.
  unfold deleteProblem. destruct (AtLeast _ _) eqn:EA; cbn [negb]; [|apply ends_fail].
  apply with_problem. intros q w1 F1 F2 D1. destruct (may_edit c q) eqn:ME; cbn [negb]; [|apply ends_fail].
  apply (may_edit_entitled _ _ EA) in ME.
  eapply ends_write; [apply writes_on_error, (law (@cl_delete))| |intros; quiet].
  cbn beta. intros _ m' HC. rewrite D1 in HC. cbn. eauto.
Qed.

Lemma count_keeps t : keeps db (ensureTagCanBeDeactivated tags t).
Proof. unfold ensureTagCanBeDeactivated. quiet. Qed.

Lemma deactivation_checked t w u w' : ensureTagCanBeDeactivated tags t w = (inr u, w') ->
  t.(TagIsActive) = true -> unpublished (db w) t.(TagID).
Proof.
  unfold ensureTagCanBeDeactivated. intros H HA. rewrite HA in H. cbn in H. run_inv H.
  apply on_error_inr in E. destruct (Z.ltb_spec 0 a); [done|]. exact (law (@cl_published) _ _ _ _ E H0).
Qed.

Lemma get_tag_keeps id : keeps db (get_tag tags id).
Proof. unfold get_tag. quiet. Qed.

Lemma get_tag_row id w t w' : get_tag tags id w = (inr t, w') -> (db w).(c_tags) !! id = Some t /\ t.(TagID) = id.
Proof.
  intros H. apply on_error_inr in H. apply (law (@cl_get_tag)) in H. split; [done|]. by apply (law (@cl_tag_key)) in H.
Qed.

Lemma edited_tag_keeps t req : keeps db (edited_tag pf.(pf_lower_rune) tags t req).
Proof.
  unfold edited_tag. apply keeps_bind; [apply keeps_given_or; intros; unfold new_tag_name; quiet|intros ?].
  apply keeps_bind; [|intros; apply keeps_ret]. apply keeps_given_or. intros b. unfold new_activity.
  apply keeps_bind; [|intros; apply keeps_ret]. destruct (_ && _); [apply count_keeps|apply keeps_ret].
Qed.

Lemma edited_tag_spec q req w t w' : edited_tag pf.(pf_lower_rune) tags q req w = (inr t, w') ->
  t.(TagID) = q.(TagID) /\ (tag_ok q = true -> tag_ok t = true)
  /\ (q.(TagIsActive) = true -> t.(TagIsActive) = false -> unpublished (db w) q.(TagID)).
Proof.
  unfold edited_tag. cbv zeta. intros H. run_inv H. injection H as <- <-. cbn.
  apply (kept_or_checked (db := db) (fun n => blank n = false)) in E as [D1 P1].
  2: { intros; unfold new_tag_name; quiet. }
  2: { intros n x b x' N. unfold new_tag_name, normalizeTagName in N. case_bool_decide as B; [done|]. injection N as <- _.
       unfold blank. apply bool_decide_eq_false. by rewrite TrimSpace_idem. }
  split_and!; [done| |].
  - unfold tag_ok. cbn. intros [H1 H2]%andb_true_iff. rewrite P1 by (by apply negb_true_iff). cbn.
    destruct (UtSlug req) as [s|]; [by apply slug_or_ok|done].
  - intros HA HN. apply given_or_inr in E0 as [(_ & -> & _)|(b & _ & E0)]; [congruence|].
    unfold new_activity in E0. run_inv E0. injection E0 as <- <-. rewrite HA, HN in E. cbn in E. rewrite <- D1.
    by eapply deactivation_checked.
Qed.

Lemma create_tag_ends c req w :
  ends db (catalogue_change (W := W) keep c (PqCreateTag req) (db w)) w (createTag pf.(pf_now) pf.(pf_offset) pf.(pf_lower_rune) tags c req).
Proof.
  unfold createTag. destruct (AtLeast _ _) eqn:EA; cbn [negb]; [|apply ends_fail]. cbv zeta.
  case_bool_decide as B; [apply ends_fail|].
  apply ends_read; [quiet|]. intros t w1 _ D1. apply ends_read; [quiet|]. intros t' w2 _ D2.
  eapply ends_write; [apply writes_on_error, (law (@cl_create_tag))| |intros; quiet].
  cbn beta. intros s m' [_ HC]. rewrite D2, D1 in HC. split; [done|]. eexists _, _. split; [|exact HC].
  unfold tag_ok. cbn. apply andb_true_iff. split; [|by apply slug_or_ok].
  apply negb_true_iff. unfold blank. apply bool_decide_eq_false. unfold normalizeTagName in *. by rewrite TrimSpace_idem.
Qed.

Lemma update_tag_ends c id req w :
  ends db (catalogue_change (W := W) keep c (PqUpdateTag id req) (db w)) w (updateTag pf.(pf_offset) pf.(pf_lower_rune) tags c id req).
Proof.
  unfold updateTag. destruct (AtLeast _ _) eqn:EA; cbn [negb]; [|apply ends_fail].
  apply ends_read; [apply get_tag_keeps|]. intros q w1 [E1 E1']%get_tag_row D1.
  apply ends_read; [apply edited_tag_keeps|]. intros t w2 (E2 & E3 & E4)%edited_tag_spec D2. rewrite D1, E1' in E4. rewrite E1' in E2.
  eapply ends_write; [apply writes_on_error, (law (@cl_update_tag))| |intros; quiet].
  cbn beta. intros _ m' HC. rewrite D2, D1 in HC. split; [done|]. by exists q, t.
Qed.

Lemma delete_tag_ends c id w :
  ends db (catalogue_change (W := W) keep c (PqDeleteTag id) (db w)) w (deleteTag tags c id).
Proof.
  unfold deleteTag. destruct (AtLeast _ _) eqn:EA; cbn [negb]; [|apply ends_fail].
  apply ends_read; [apply get_tag_keeps|]. intros q w1 [E1 E1']%get_tag_row D1.
  apply ends_read; [apply count_keeps|]. intros u w2 E2 D2.
  pose proof (deactivation_checked _ _ _ _ E2) as HU. rewrite E1', D1 in HU.
  eapply ends_last; [apply writes_on_error, (law (@cl_deactivate))|]. cbn beta. intros _ m' HC.
  rewrite E1', D2, D1 in HC. split; [done|]. by exists q.
Qed.

(** *** Testcases *)

Lemma validated_positive files n : validate_files files = inr n -> 0 < n.
Proof.
  unfold validate_files. destruct (_ =? 0)%nat; [done|]. destruct (_ <? _); [done|].
  destruct (scan_files _ _ _ _) as [e|[a b]]; [done|]. cbv zeta. destruct (Z.eqb_spec (Z.of_nat (size a)) 0); [done|].
  destruct (negb _); [done|]. destruct (elements _); [|done]. destruct (consecutive _ _); [done|]. intros [= <-]. lia.
Qed.

Lemma store_archive_ends q id path n Q w : found (db w) q -> q.(PbID) = id -> 0 < n ->
  (forall d m', 0 < d.(TsTestCount) -> next_version (db w) id d.(TsVersion) -> d.(TsProblemID) = id ->
     d.(TsZipObjectKey) = object_key id d.(TsVersion) -> test_put d (db w) m' -> Q m') ->
  ends db Q w (store_archive pf.(pf_now) pf.(pf_offset) tests pf.(pf_storage) q path n).
Proof.
  intros F <- HN H. unfold store_archive. apply ends_read; [quiet|]. intros old w1 E1 D1.
  apply ends_read; [quiet|]. intros [version oldKey] w2 E2 D2.
  assert (next_version (db w) q.(PbID) version) as HV.
  { unfold try in E1. destruct (TC_GetByProblemID _ _ w) as [r w1'] eqn:EG. injection E1 as <- <-. destruct r as [e|tc].
    - destruct (errors_Is _ _) eqn:EN; [|done]. injection E2 as <- <- <-. right. split; [done|].
      intros o. by eapply (law (@cl_no_test)).
    - injection E2 as <- <- <-. left. exists tc. apply (law (@cl_get_test)) in EG as [G1 G2]. done. }
  cbv beta iota. apply ends_read; [quiet|]. intros u w3 _ D3. apply ends_read; [quiet|]. intros t w4 _ D4.
  eapply ends_try_write; [apply (law (@cl_upsert))| |].
  - cbn beta. intros _ m' HC. rewrite D4, D3, D2, D1 in HC. eapply H; [..|exact HC]; done.
  - intros [e|tc]; quiet.
Qed.

Lemma upload_ends c id file w : request_quiet db (PqUpload id file) ->
  ends db (catalogue_change (W := W) keep c (PqUpload id file) (db w)) w
    (uploadTestCase pf.(pf_now) pf.(pf_offset) problems tests pf.(pf_storage) pf.(pf_OpenReader) pf.(pf_Remove) c id file).
Proof.
  intros HF. unfold uploadTestCase. destruct (AtLeast _ _) eqn:EA; cbn [negb]; [|apply ends_fail].
  apply with_problem. intros q w1 F1 F2 D1. destruct (may_edit c q) eqn:ME; cbn [negb]; [|apply ends_fail].
  apply (may_edit_entitled _ _ EA) in ME.
  destruct file as [f|]; [|apply ends_fail]. destruct (_ <? _); [apply ends_fail|]. destruct HF as [Q1 Q2 Q3 Q4].
  apply ends_read; [quiet|]. intros u w2 _ D2. apply ends_deferring; [|done].
  apply ends_read; [quiet|]. intros path w3 _ D3. apply ends_deferring; [|quiet].
  apply ends_read; [apply keeps_on_error, Q4|]. intros u' w4 _ D4.
  apply ends_read; [apply keeps_on_error; unfold validateTestCaseZip; quiet|]. intros n w5 E5 D5.
  apply on_error_inr in E5. unfold validateTestCaseZip in E5. run_inv E5.
  assert (0 < n) as HN by (unfold lift in E5; destruct (validate_files a) eqn:V; [done|]; injection E5 as <- _; by eapply validated_positive).
  assert (db w5 = db w) as D by congruence.
  apply (store_archive_ends q id); [by rewrite D|done|done|]. rewrite D. intros d m' G1 G2 G3 G4 G5. cbn. by exists q, d.
Qed.

Lemma contributor_or_above r : AtLeast r RoleContributor = true ->
  AtLeast r RoleModerator = negb (bool_decide (r = RoleContributor)).
Proof.
  intros H. destruct (decide (r = RoleContributor)) as [->|Hn]; [done|]. rewrite bool_decide_eq_false_2 by done.
  unfold AtLeast in *. change (Level RoleContributor) with 2 in H. change (Level RoleModerator) with 3.
  apply Z.leb_le. apply Z.leb_le in H. unfold Level in *. rewrite (bool_decide_eq_false_2 _ Hn) in *.
  repeat case_bool_decide; lia.
Qed.

Lemma delete_tests_ends c id w :
  ends db (catalogue_change (W := W) keep c (PqDeleteTests id) (db w)) w (deleteTestCase problems tests pf.(pf_storage) c id).
Proof.
  unfold deleteTestCase. destruct (AtLeast _ _) eqn:EA; cbn [negb]; [|apply ends_fail].
  apply with_problem. intros q w1 F1 F2 D1.
  destruct (bool_decide (ClaimRole c = RoleContributor) && _) eqn:EB; [apply ends_fail|].
  assert (entitled c q) as ME.
  { unfold entitled. rewrite (contributor_or_above _ EA), EA. apply andb_false_iff in EB as [->|[? ?]%negb_false_iff%andb_true_iff]; [by left|].
    right. split_and!; [done|by eapply bool_decide_eq_true_1|done]. }
  apply ends_read; [quiet|]. intros tc w2 _ D2. apply ends_read; [quiet|]. intros u w3 _ D3.
  eapply ends_last; [apply writes_on_error, (law (@cl_drop))|]. cbn beta. intros _ m' HC.
  rewrite F2, D3, D2, D1 in HC. cbn. eauto.
Qed.

(** *** Every request *)

Lemma requests_follow_spec c rq w r w' : request_quiet db rq -> perform_request pf c rq w = (r, w') ->
  catalogue_spec keep c rq (db w) (db w').
Proof.
  intros HQ. enough (ends db (catalogue_change keep c rq (db w)) w (perform_request pf c rq)) as HE by (intros H; exact (HE r w' H)).
  destruct rq; cbn [perform_request]; apply run_spec.
  - apply create_ends.
  - apply update_ends.
  - apply publish_ends.
  - apply hide_ends.
  - apply delete_ends.
  - apply create_tag_ends.
  - apply update_tag_ends.
  - apply delete_tag_ends.
  - by apply upload_ends.
  - apply delete_tests_ends.
  - apply ends_keeps. unfold getAdminProblem. quiet.
  - apply ends_keeps. unfold getTestCase. quiet.
  - apply ends_keeps. unfold adminListProblems, list_with. quiet.
  - apply ends_keeps. unfold listMyProblems, list_with. quiet.
  - apply ends_keeps. unfold listProblems, list_with. quiet.
  - apply ends_keeps. unfold getUserProblem. quiet.
  - apply ends_keeps. unfold listAllTags. quiet.
  - apply ends_keeps. unfold listActiveTags. quiet.
Qed.
End refinement.
