(* ===== verification/ProblemInvariant.v ===== *)
(** What the abstract machine of ProblemSpec.v keeps of its catalogue, for any
    sequence of requests. *)

From S2P Require Import Prelude GoString GoError GoMonad SubmissionDomain ProblemDomain ProblemAdmin ProblemTestcases ProblemStore ProblemSlugs ProblemSpec.

Definition test_ok (c : TestCase) : bool :=
  (0 <? c.(TsTestCount)) && bool_decide (c.(TsZipObjectKey) = object_key c.(TsProblemID) c.(TsVersion)).

(** A published problem carries active tags only. *)
Definition published_active (m : catalogue) : Prop :=
  forall i t p, tagged m i t -> m.(c_problems) !! i = Some p -> live p = true -> p.(PbIsHidden) = false ->
    exists s, m.(c_tags) !! t = Some s /\ s.(TagIsActive) = true.

Record well_formed (m : catalogue) : Prop := {
  wf_problems : forall i p, m.(c_problems) !! i = Some p -> problem_ok p = true;
  wf_tags : forall i t, m.(c_tags) !! i = Some t -> tag_ok t = true;
  wf_tests : forall i c, m.(c_tests) !! i = Some c -> test_ok c = true;
  wf_published : published_active m }.

(** ** Steps keep the invariant *)

Section steps.
Context (keep : Problem -> Problem).
Hypothesis keep_texts : forall p, let k := keep p in
  (k.(PbTitle), k.(PbSlug), k.(PbDescription), k.(PbInputFormat), k.(PbOutputFormat))
  = (p.(PbTitle), p.(PbSlug), p.(PbDescription), p.(PbInputFormat), p.(PbOutputFormat))
  /\ (isValidDifficulty p.(PbDifficulty) = true -> k.(PbDifficulty) = p.(PbDifficulty)).

Lemma row_ok p id a h c u d : problem_ok p = true -> problem_ok (put_row keep p id a h c u d) = true.
Proof.
  intros H. destruct (keep_texts p) as [E1 E2]. injection E1 as T1 T2 T3 T4 T5. unfold problem_ok in *. cbn.
  rewrite T1, T2, T3, T4, T5, E2; [done|]. by bools.
Qed.

Lemma bare_ok p : problem_ok (bare p) = problem_ok p.
Proof. done. Qed.

Lemma relink_other m id ts i t : i <> id -> (i, t) ∈ relink m id ts <-> (i, t) ∈ m.(c_links).
Proof.
  intros Hn. unfold relink. rewrite elem_of_union, elem_of_filter, elem_of_map. cbn. split; [|by right].
  intros [(x & [= E _] & _)|[_ H]]; [by destruct Hn|done].
Qed.

Lemma relink_self m id ts t : (id, t) ∈ relink m id ts -> exists s, s ∈ ts /\ s.(TagID) = t.
Proof.
  unfold relink. rewrite elem_of_union, elem_of_filter, elem_of_map. intros [(x & [= ->] & H)|[[] _]]; [|done].
  apply elem_of_filter in H as [_ H]. apply elem_of_difference in H as [H _].
  apply elem_of_list_to_set, list_elem_of_fmap in H as (s & -> & Hs). by exists s.
Qed.

Lemma amend_row {A} (p : A -> bool) f id (m : gmap Z A) i r : amend p f id m !! i = Some r ->
  (i <> id /\ m !! i = Some r) \/ (i = id /\ exists q, m !! id = Some q /\ r = if p q then f q else q).
Proof.
  unfold amend. destruct (decide (i = id)) as [->|Hn]; [rewrite lookup_alter_eq|rewrite lookup_alter_ne by done; by left].
  destruct (m !! id) as [q|]; [|done]. cbn. intros [= <-]. right. eauto.
Qed.

Section step.
Context (m m' : catalogue) (IN : intact m)
  (WF : well_formed m).

Lemma created_wf p id : problem_ok p = true -> problem_created keep p id m m' -> well_formed m'.
Proof.
  intros OK (now & _ & HN & ->). destruct WF as [W1 W2 W3 W4]. split; cbn; try done.
  - intros i q. destruct (decide (i = id)) as [->|Hn]; [rewrite lookup_insert_eq; intros [= <-]; by apply row_ok|].
    rewrite lookup_insert_ne by done. apply W1.
  - intros i t q HT HP HL HH. cbn in *. destruct (decide (i = id)) as [->|Hn].
    + rewrite lookup_insert_eq in HP. by injection HP as <-.
    + rewrite lookup_insert_ne in HP by done. apply relink_other in HT; [|done]. by eapply W4.
Qed.

(** The row that is updated is the one that was read. *)
Lemma updated_wf p q : found m q -> p.(PbID) = q.(PbID) -> p.(PbDeletedAt) = q.(PbDeletedAt) ->
  (problem_ok q = true -> problem_ok p = true) ->
  (p.(PbIsHidden) = false -> forall t, t ∈ p.(PbTags) -> exists s, m.(c_tags) !! t.(TagID) = Some s /\ s.(TagIsActive) = true) ->
  problem_updated keep p m m' -> well_formed m'.
Proof.
  intros (r & HR & HD & -> & HT) EI ED OK ACT (now & ->). destruct WF as [W1 W2 W3 W4]. split; cbn; try done.
  - intros i x [[_ HX]|[-> (x0 & HX & ->)]]%amend_row; [by eapply W1|]. rewrite EI, HR in HX. injection HX as <-.
    destruct (live (bare q)); [apply row_ok, OK|]; exact (W1 _ _ HR).
  - intros i t x HTG HP HL HH. cbn in *. apply amend_row in HP as [[Hn HP]|[-> (x0 & HX & ->)]].
    + apply relink_other in HTG; [|done]. by eapply W4.
    + rewrite EI, HR in HX. injection HX as <-.
      assert (live (bare q) = true) as LV by (unfold live, IsDeleted; cbn in *; by rewrite HD). rewrite LV in HH.
      apply relink_self in HTG as (s & Hs & <-). by apply ACT.
Qed.

Lemma deleted_wf id : problem_deleted id m m' -> well_formed m'.
Proof.
  intros (now & ->). destruct WF as [W1 W2 W3 W4]. split; cbn; try done.
  - intros i x [[_ HX]|[-> (x0 & HX & ->)]]%amend_row; [by eapply W1|]. apply W1 in HX. by destruct (live x0).
  - intros i t x HTG HP HL HH. cbn in *. apply amend_row in HP as [[Hn HP]|[-> (x0 & HX & ->)]]; [by eapply W4|].
    destruct (live x0) eqn:E; [done|]. by rewrite HL in E.
Qed.

Lemma tag_created_wf t id : tag_ok t = true -> tag_created t id m m' -> well_formed m'.
Proof.
  intros OK (now & _ & HN & ->). destruct WF as [W1 W2 W3 W4]. split; cbn; try done.
  - intros i x. destruct (decide (i = id)) as [->|Hn]; [rewrite lookup_insert_eq; by intros [= <-]|].
    rewrite lookup_insert_ne by done. apply W2.
  - intros i s x HTG HP HL HH. cbn in *. destruct (decide (s = id)) as [->|Hn].
    + destruct (in_links _ IN _ _ HTG) as [_ [y Hy]]. congruence.
    + rewrite lookup_insert_ne by done. by eapply W4.
Qed.

(** A tag may lose its activity when no published problem carries it. *)
Lemma tag_altered_wf id f : (forall q, m.(c_tags) !! id = Some q -> tag_ok (f q) = true
    /\ (q.(TagIsActive) = true -> (f q).(TagIsActive) = true \/ unpublished m id)) ->
  m' = set_tags m (alter f id m.(c_tags)) -> well_formed m'.
Proof.
  intros H ->. destruct WF as [W1 W2 W3 W4]. split; cbn; try done.
  - intros i x. destruct (decide (i = id)) as [->|Hn]; [rewrite lookup_alter_eq|rewrite lookup_alter_ne by done; apply W2].
    destruct (m.(c_tags) !! id) as [q|] eqn:E; [|done]. cbn. intros [= <-]. by apply H.
  - intros i s x HTG HP HL HH. cbn in *. destruct (W4 _ _ _ HTG HP HL HH) as (q & Q1 & Q2). destruct (decide (s = id)) as [->|Hn].
    + rewrite lookup_alter_eq, Q1. cbn. exists (f q). split; [done|]. destruct (H _ Q1) as [_ [|HU]]; [done|done|].
      by rewrite (HU _ _ HTG HP HL) in HH.
    + rewrite lookup_alter_ne by done. by exists q.
Qed.

Lemma test_put_wf d : 0 < d.(TsTestCount) -> d.(TsZipObjectKey) = object_key d.(TsProblemID) d.(TsVersion) ->
  test_put d m m' -> well_formed m'.
Proof.
  intros H1 H2 (e & -> & E & _). injection E as E1 E2 E3 E4. destruct WF as [W1 W2 W3 W4]. split; cbn; try done.
  intros i x. destruct (decide (i = e.(TsID))) as [->|Hn]; [rewrite lookup_insert_eq; intros [= <-]|by rewrite lookup_insert_ne; [apply W3|]].
  unfold test_ok. rewrite E1, E2, E3, E4. apply andb_true_iff. split; [by apply Z.ltb_lt|by apply bool_decide_eq_true].
Qed.

Lemma test_dropped_wf id : test_dropped id m m' -> well_formed m'.
Proof.
  intros ->. destruct WF as [W1 W2 W3 W4]. split; cbn; try done. intros i x [HX _]%map_lookup_filter_Some. by eapply W3.
Qed.

Lemma found_active q : found m q -> q.(PbIsHidden) = false ->
  forall t, t ∈ q.(PbTags) -> exists s, m.(c_tags) !! t.(TagID) = Some s /\ s.(TagIsActive) = true.
Proof.
  intros (r & HR & HD & -> & HT) HH t Ht. apply HT in Ht as [_ HL].
  apply (wf_published _ WF _ _ _ HL HR); [|done]. unfold live, IsDeleted. by rewrite HD.
Qed.

Lemma active_tags_active q : found m q -> all_active q.(PbTags) ->
  forall t, t ∈ q.(PbTags) -> exists s, m.(c_tags) !! t.(TagID) = Some s /\ s.(TagIsActive) = true.
Proof. intros (r & _ & _ & _ & HT) HI t Ht. exists t. split; [by apply HT|by apply HI]. Qed.

Lemma step_keeps_well_formed {W} c (rq : problem_request W) : catalogue_spec keep c rq m m' -> well_formed m'.
Proof.
  intros [->|H]; [done|]. destruct rq; cbn in H; try done.
  - destruct H as (_ & p & id & _ & OK & _ & _ & H). by eapply created_wf.
  - destruct H as (q & p & F & _ & _ & (WW & OK & TG) & H). injection WW as E1 E2 E3 E4 E5.
    apply (updated_wf p q); [exact F|done|done|done| |exact H]. intros HH t Ht. rewrite E3 in HH.
    destruct (TG t Ht) as [Hq|[S1 S2]]; [by eapply found_active|by exists t].
  - destruct H as (_ & q & now & F & _ & HI & H). apply (updated_wf (Publish now q) q); [exact F|done|done|done| |exact H].
    intros _. exact (active_tags_active q F HI).
  - destruct H as (_ & q & now & F & _ & H). by apply (updated_wf (Hidden now q) q).
  - destruct H as (q & _ & _ & _ & H). by eapply deleted_wf.
  - destruct H as (_ & t & id & OK & H). by eapply tag_created_wf.
  - destruct H as (_ & q & t & HQ & E & OK & HU & now & H). subst id. eapply tag_altered_wf; [|exact H].
    intros q' HQ'. assert (q' = q) as -> by congruence. split; [apply OK; exact (wf_tags _ WF _ _ HQ)|]. intros HA. cbn.
    destruct (TagIsActive t) eqn:ET; [by left|]. right. by apply HU.
  - destruct H as (_ & q & HQ & HU & now & H). eapply tag_altered_wf; [|exact H].
    intros q' HQ'. assert (q' = q) as -> by congruence. split; [exact (wf_tags _ WF _ _ HQ)|]. intros HA. right. by apply HU.
  - destruct H as (q & d & _ & _ & _ & HC & _ & <- & HK & H). by eapply test_put_wf.
  - destruct H as (q & _ & _ & _ & H). by eapply test_dropped_wf.
Qed.
End step.
End steps.

(** ** Histories *)

(** Requests served one after the other. *)
Definition serve {W} (pf : platform W) (l : list (Claims * problem_request W)) (w : W) : W :=
  foldl (fun w r => (perform_request pf r.1 r.2 w).2) w l.

Lemma serve_well_formed {W} (pf : platform W) (db : W -> catalogue) (keep : Problem -> Problem) {PL : PlatformLaws pf db keep} l w :
  Forall (fun r => request_quiet db r.2) l -> well_formed (db w) -> well_formed (db (serve pf l w)).
Proof.
  revert w. induction l as [|[c rq] l IH]; intros w HQ HW; [done|]. apply Forall_cons in HQ as [Q1 Q2].
  cbn. apply IH; [done|]. destruct (perform_request pf c rq w) as [r w'] eqn:E. cbn.
  pose proof (pl_catalogue (pf := pf) (db := db) (keep := keep)) as CL.
  eapply (step_keeps_well_formed keep (cl_keep (CatalogueLaws := CL)) (db w)); [apply (cl_intact (CatalogueLaws := CL))|done|].
  by eapply (requests_follow_spec pf db keep).
Qed.
