(* ===== verification/PgCatalogue.v ===== *)
(** The PostgreSQL repositories of PgProblems.v implement the catalogue of
    ProblemStore.v.  [SqlLaws] is the documented behaviour of GORM and
    PostgreSQL that they rely on. *)

From S2P Require Import Prelude GoString GoError GoMonad SubmissionDomain PgStore ProblemDomain ProblemAdmin ProblemTestcases PgProblems ProblemStore.

(** ** GORM and PostgreSQL *)

(** An error of the driver is none of the service's. *)
Definition foreign (e : error) : Prop :=
  errors_Is e gorm_ErrRecordNotFound = false /\ forall c m, errors_Is e (NewAppError c m None) = false.

(** A page of the rows of a query in an order. *)
Definition page_of {A} (q : list A) (order : A -> A -> bool) (offset : Z) (limit : option Z) (l : list A) : Prop :=
  exists L, L ≡ₚ q /\ (forall i j a b, (i < j)%nat -> L !! i = Some a -> L !! j = Some b -> order b a = false)
    /\ l = match limit with
           | Some n => take (Z.to_nat n) (drop (Z.to_nat offset) L)
           | None => drop (Z.to_nat offset) L
           end.

(** The constraints of the tables. *)
Record valid (t : tables) : Prop := {
  va_slugs : forall i j a b, t.(t_problems) !! i = Some a -> t.(t_problems) !! j = Some b ->
    a.(ProblemDAO.TitleSlug) = b.(ProblemDAO.TitleSlug) -> i = j;
  va_tag_slugs : forall i j a b, t.(t_tags) !! i = Some a -> t.(t_tags) !! j = Some b -> a.(TagDAO.Slug) = b.(TagDAO.Slug) -> i = j;
  va_tests : forall i j a b, t.(t_tests) !! i = Some a -> t.(t_tests) !! j = Some b ->
    a.(TestCaseDAO.ProblemID) = b.(TestCaseDAO.ProblemID) -> i = j;
  va_links : forall i j, (i, j) ∈ t.(t_links) -> is_Some (t.(t_problems) !! i) /\ is_Some (t.(t_tags) !! j) }.

Class SqlLaws {W X : Type} (h : Handle W) (view : W -> tables) (rest : W -> X) := {
  sl_valid : forall w, valid (view w);
  sl_select : forall A (q : tables -> list A) o k n w r w', h_select h q o k n w = (r, w') ->
    view w' = view w /\ match r with inr l => page_of (q (view w)) o k n l | inl e => foreign e end;
  sl_count : forall A (q : tables -> list A) w r w', h_count h q w = (r, w') ->
    view w' = view w /\ match r with inr n => n = Z.of_nat (length (q (view w))) | inl e => foreign e end;
  sl_create : forall A (taken : tables -> gset Z) (f : Z -> Time -> tables -> A * tables) w r w', h_create h taken f w = (r, w') ->
    match r with
    | inr a => exists id now, 0 < id /\ id ∉ taken (view w) /\ f id now (view w) = (a, view w')
    | inl e => view w' = view w
    end;
  sl_exec : forall f w r w', h_exec h f w = (r, w') ->
    match r with inr n => f (view w) = (n, view w') | inl e => view w' = view w end;
  sl_rest : (forall A (q : tables -> list A) o k n, keeps rest (h_select h q o k n)) /\ (forall A (q : tables -> list A), keeps rest (h_count h q))
    /\ (forall A t (f : Z -> Time -> tables -> A * tables), keeps rest (h_create h t f)) /\ (forall f, keeps rest (h_exec h f));
}.

(** Statements on the connection are committed at once; those of a transaction
    show when it is. *)
Class DbLaws {W : Type} (db : DB W) (committed working : W -> tables) (now : M W Time) := {
  dl_conn :: SqlLaws db.(conn) committed (fun _ => tt);
  dl_tx :: SqlLaws db.(tx) working committed;
  dl_begin : forall w r w', db.(Begin) w = (r, w') ->
    committed w' = committed w /\ match r with inr _ => working w' = committed w | inl _ => True end;
  dl_commit : forall w r w', db.(Commit) w = (r, w') ->
    match r with inr _ => committed w' = working w | inl _ => committed w' = committed w \/ committed w' = working w end;
  dl_rollback : keeps committed db.(Rollback);
  dl_now : keeps committed now /\ keeps working now;
}.

(** ** The catalogue of the tables *)

Definition live_tag (id : Z) (d : TagDAO.t) : option Tag := if is_null d.(TagDAO.DeletedAt) then Some (toTagEntity id d) else None.

Definition cat (t : tables) : catalogue :=
  mkCatalogue (map_imap (fun id d => Some (toProblemEntity id d [])) t.(t_problems)) (map_imap live_tag t.(t_tags))
    (filter (fun l : Z * Z => is_Some (t.(t_tags) !! l.2 ≫= live_tag l.2)) t.(t_links))
    (map_imap (fun id d => Some (toTestCaseEntity id d)) t.(t_tests)).

Definition keep_columns (lower : bytes -> bytes) (p : Problem) : Problem :=
  mkProblem p.(PbID) p.(PbTitle) p.(PbSlug) p.(PbDescription) p.(PbInputFormat) p.(PbOutputFormat)
    (normalizeDifficultyValue lower p.(PbDifficulty)) p.(PbTags) (kept_examples p.(PbExamples)) (kept_texts p.(PbConstraints))
    (kept_texts p.(PbHints)) p.(PbTimeLimit) p.(PbMemoryLimit) p.(PbAuthorID) p.(PbIsHidden) p.(PbCreatedAt) p.(PbUpdatedAt)
    p.(PbDeletedAt).

Section cat.
Context (t : tables).

Lemma cat_problem id : (cat t).(c_problems) !! id = (fun d => toProblemEntity id d []) <$> t.(t_problems) !! id.
Proof. cbn. rewrite map_lookup_imap. by destruct (t_problems t !! id). Qed.
Lemma cat_tag id : (cat t).(c_tags) !! id = t.(t_tags) !! id ≫= live_tag id.
Proof. cbn. by rewrite map_lookup_imap. Qed.
Lemma cat_test id : (cat t).(c_tests) !! id = toTestCaseEntity id <$> t.(t_tests) !! id.
Proof. cbn. rewrite map_lookup_imap. by destruct (t_tests t !! id). Qed.
Lemma cat_link i j : (i, j) ∈ (cat t).(c_links) <-> (i, j) ∈ t.(t_links) /\ is_Some ((cat t).(c_tags) !! j).
Proof. rewrite cat_tag. cbn. rewrite elem_of_filter. cbn. tauto. Qed.

Lemma cat_problem_inv id p : (cat t).(c_problems) !! id = Some p -> exists d, t.(t_problems) !! id = Some d /\ p = toProblemEntity id d [].
Proof. rewrite cat_problem. destruct (t_problems t !! id) as [d|]; [|done]. intros [= <-]. by exists d. Qed.
Lemma cat_tag_inv id g : (cat t).(c_tags) !! id = Some g ->
  exists d, t.(t_tags) !! id = Some d /\ d.(TagDAO.DeletedAt) = None /\ g = toTagEntity id d.
Proof.
  rewrite cat_tag. destruct (t_tags t !! id) as [d|]; [|done]. cbn. unfold live_tag, is_null.
  destruct (TagDAO.DeletedAt d) eqn:E; [done|]. intros [= <-]. by exists d.
Qed.
Lemma cat_test_inv id c : (cat t).(c_tests) !! id = Some c -> exists d, t.(t_tests) !! id = Some d /\ c = toTestCaseEntity id d.
Proof. rewrite cat_test. destruct (t_tests t !! id) as [d|]; [|done]. intros [= <-]. by exists d. Qed.

Lemma cat_intact : valid t -> intact (cat t).
Proof.
  intros [V1 V2 V3 V4]. split.
  - intros i j p q (a & Ha & ->)%cat_problem_inv (b & Hb & ->)%cat_problem_inv E. by eapply V1.
  - intros i j p q (a & Ha & _ & ->)%cat_tag_inv (b & Hb & _ & ->)%cat_tag_inv E. by eapply V2.
  - intros i j [H1 H2]%cat_link. split; [|done]. rewrite cat_problem. destruct (V4 _ _ H1) as [[d ->] _]. by eexists.
  - intros i j p q (a & Ha & ->)%cat_test_inv (b & Hb & ->)%cat_test_inv E. by eapply V3.
Qed.
End cat.

Lemma where_spec {A} (p : Z -> A -> bool) m r : r ∈ where_ p m <-> m !! r.1 = Some r.2 /\ p r.1 r.2 = true.
Proof. unfold where_. rewrite list_elem_of_filter. destruct r. rewrite elem_of_map_to_list. cbn. tauto. Qed.

Lemma update_where_lookup {A} (p : Z -> A -> bool) f m i : update_where p f m !! i = (fun r => if p i r then f r else r) <$> m !! i.
Proof. unfold update_where. rewrite map_lookup_imap. by destruct (m !! i). Qed.

Lemma problems_where_spec p t r : r ∈ problems_where p t <->
  t.(t_problems) !! r.1 = Some r.2 /\ r.2.(ProblemDAO.DeletedAt) = None /\ p r.1 r.2 = true.
Proof.
  unfold problems_where. rewrite where_spec, andb_true_iff. unfold is_null. destruct (ProblemDAO.DeletedAt r.2); naive_solver.
Qed.
Lemma tags_where_spec p t r : r ∈ tags_where p t <->
  t.(t_tags) !! r.1 = Some r.2 /\ r.2.(TagDAO.DeletedAt) = None /\ p r.1 r.2 = true.
Proof. unfold tags_where. rewrite where_spec, andb_true_iff. unfold is_null. destruct (TagDAO.DeletedAt r.2); naive_solver. Qed.

(** ** Single statements *)

Section statements.
Context {W X : Type} {h : Handle W} {view : W -> tables} {rest : W -> X} {SL : SqlLaws h view rest}.

Lemma first_spec {A} (q : tables -> list (Z * A)) w r w' : first h q w = (r, w') ->
  view w' = view w
  /\ match r with inr x => x ∈ q (view w) | inl e => foreign e \/ (e = gorm_ErrRecordNotFound /\ q (view w) = []) end.
Proof.
  unfold first, bind. destruct (h_select h q _ _ _ w) as [[e|l] w1] eqn:E; apply sl_select in E as [K E].
  - intros [= <- <-]. split; [done|by left].
  - destruct E as (L & P & _ & ->). destruct L as [|x L]; cbn.
    + intros [= <- <-]. split; [done|]. right. split; [done|]. by apply Permutation_nil in P.
    + intros [= <- <-]. split; [done|]. rewrite <- P. by left.
Qed.

Lemma missing_spec (nf : error) {A} (q : tables -> list (Z * A)) w e w' :
  on_error (missing_as nf) (first h q) w = (inl e, w') -> view w' = view w /\ (foreign e \/ (e = nf /\ q (view w) = [])).
Proof.
  intros (e0 & -> & E)%on_error_inl_inv. apply first_spec in E as [K [F|[-> N]]]; split; try done.
  - left. unfold missing_as. by rewrite (proj1 F).
  - by right.
Qed.

(** A statement that writes, seen through its handle. *)
Lemma exec_spec f w r w' : h_exec h f w = (r, w') ->
  match r with inr n => n = (f (view w)).1 /\ view w' = (f (view w)).2 | inl _ => view w' = view w end.
Proof. intros E. apply sl_exec in E. destruct r as [e|n]; [done|]. by rewrite E. Qed.
End statements.

Lemma problems_updated p f t id : (cat (update_problems p f t).2).(c_problems) !! id
  = (fun d => toProblemEntity id (if is_null d.(ProblemDAO.DeletedAt) && p id d then f d else d) []) <$> t.(t_problems) !! id.
Proof. rewrite cat_problem. cbn. rewrite update_where_lookup. by destruct (t_problems t !! id). Qed.

Lemma catalogue_eq m m' : (forall i, m.(c_problems) !! i = m'.(c_problems) !! i) -> (forall i, m.(c_tags) !! i = m'.(c_tags) !! i) ->
  (forall l, l ∈ m.(c_links) <-> l ∈ m'.(c_links)) -> (forall i, m.(c_tests) !! i = m'.(c_tests) !! i) -> m = m'.
Proof.
  destruct m, m'. cbn. intros H1 H2 H3 H4. f_equal; [by apply map_eq|by apply map_eq|by apply set_eq|by apply map_eq].
Qed.

(** ** Tags of problems *)

Section tags_of.
Context (t : tables).

Lemma tags_of_problems_spec ids i g : (i, g) ∈ tags_of_problems ids t <->
  i ∈ ids /\ (i, g.(TagID)) ∈ (cat t).(c_links) /\ (cat t).(c_tags) !! g.(TagID) = Some g.
Proof.
  unfold tags_of_problems. rewrite list_elem_of_omap. split.
  - intros ([i' j] & HL%elem_of_elements & E). cbn in E. case_bool_decide as HI; [|done].
    destruct (t_tags t !! j) as [d|] eqn:ED; [|done]. destruct (is_null _) eqn:EN; [|done]. injection E as <- <-.
    assert ((cat t).(c_tags) !! j = Some (toTagEntity j d)) as HC by (rewrite cat_tag, ED; cbn; unfold live_tag; by rewrite EN).
    cbn. split_and!; [done| |done]. apply cat_link. split; [done|]. by rewrite HC.
  - intros (HI & [HL _]%cat_link & (d & ED & EN & E)%cat_tag_inv). exists (i, g.(TagID)). split; [by apply elem_of_elements|].
    cbn. rewrite bool_decide_eq_true_2, ED by done. unfold is_null. rewrite EN. by f_equal; f_equal.
Qed.
End tags_of.

(** ** The repositories *)

Section repositories.
Context {W : Type} (db : DB W) (now : M W Time) (lower : bytes -> bytes) (SQLSTATE : error -> option string)
  (Error : error -> string) (ILIKE : string -> string -> bool) (before : Time -> Time -> bool)
  (text_before : string -> string -> bool) (committed working : W -> tables) {DL : DbLaws db committed working now}.

Definition shown (w : W) : catalogue := cat (committed w).

Lemma load_spec ids w r w' : loadTagsByProblemIDs db text_before ids w = (r, w') ->
  committed w' = committed w
  /\ match r with
     | inr rows => forall i g, (i, g) ∈ rows <->
         i ∈ ids /\ (i, g.(TagID)) ∈ (shown w).(c_links) /\ (shown w).(c_tags) !! g.(TagID) = Some g
     | inl e => foreign e
     end.
Proof.
  destruct ids as [|j ids].
  - intros [= <- <-]. split; [done|]. intros i g. split; [by intros ?%elem_of_nil|by intros [?%elem_of_nil _]].
  - unfold loadTagsByProblemIDs. intros E. apply sl_select in E as [K E]. split; [done|]. destruct r as [e|rows]; [done|].
    destruct E as (L & P & _ & ->). cbn. intros i g. rewrite drop_0, P. apply tags_of_problems_spec.
Qed.

Lemma tags_for_spec i rows g : g ∈ tags_for i rows <-> (i, g) ∈ rows.
Proof.
  unfold tags_for. rewrite list_elem_of_fmap. split.
  - intros ([j x] & -> & [E H]%list_elem_of_filter). cbn in *. by subst.
  - intros H. exists (i, g). split; [done|]. by apply list_elem_of_filter.
Qed.

Lemma pg_first_spec p w r w' : pg_first_problem db text_before p w = (r, w') ->
  committed w' = committed w
  /\ match r with
     | inr x => found (shown w) x /\ exists d, (committed w).(t_problems) !! x.(PbID) = Some d /\ p x.(PbID) d = true
                  /\ x = toProblemEntity x.(PbID) d x.(PbTags)
     | inl e => foreign e \/ (e = ErrProblemNotFound /\ problems_where p (committed w) = [])
     end.
Proof.
  unfold pg_first_problem, bind. destruct (on_error _ _ w) as [[e|[id d]] w1] eqn:E.
  - intros [= <- <-]. by apply missing_spec in E.
  - apply on_error_inr in E. apply first_spec in E as [K HD]. apply problems_where_spec in HD as (H1 & H2 & H3). cbn in H1, H2, H3.
    cbn [fst snd]. destruct (loadTagsByProblemIDs _ _ _ w1) as [[e|rows] w2] eqn:EL; apply load_spec in EL as [KL EL].
    + intros [= <- <-]. split; [congruence|by left].
    + intros [= <- <-]. split; [congruence|]. split; [|by exists d].
      exists (toProblemEntity id d []). cbn [PbID toProblemEntity]. split_and!; [|done|done|].
      * unfold shown. by rewrite cat_problem, H1.
      * intros g. cbn [PbTags toProblemEntity]. rewrite tags_for_spec, EL. unfold shown. rewrite K.
        split; [intros (_ & ? & ?); done|intros [? ?]; split_and!; [by left|done|done]].
Qed.

(** *** Transactions *)

Lemma or_rollback_spec {A} h (m : M W A) w r w' : or_rollback db h m w = (r, w') ->
  match r with
  | inr a => m w = (inr a, w')
  | inl _ => exists e w1, m w = (inl e, w1) /\ committed w' = committed w1
  end.
Proof.
  unfold or_rollback, bind, try. destruct (m w) as [[e|a] w1]; [|by intros [= <- <-]].
  destruct (db.(Rollback) w1) as [r2 w2] eqn:E. intros [= <- <-]. exists e, w1. split; [done|]. by apply dl_rollback in E.
Qed.

Lemma tx_keeps_committed w r w' f : h_exec db.(tx) f w = (r, w') -> committed w' = committed w.
Proof. apply (sl_rest (h := db.(tx)) (rest := committed)). Qed.

Lemma link_ids_spec tags seen i : i ∈ link_ids tags seen <-> i ∈ map TagID tags /\ i <> 0 /\ i ∉ seen.
Proof.
  revert seen. induction tags as [|g tags IH]; intros seen; cbn [link_ids map].
  - split; [by intros ?%elem_of_nil|by intros [?%elem_of_nil _]].
  - rewrite elem_of_cons. destruct (Z.eqb_spec (TagID g) 0) as [Ez|Ez]; cbn [orb].
    + rewrite IH. intuition congruence.
    + case_bool_decide as ES.
      * rewrite IH. intuition congruence.
      * rewrite elem_of_cons, IH, not_elem_of_union, not_elem_of_singleton. destruct (decide (i = TagID g)); intuition congruence.
Qed.

Definition linked (id : Z) (tags : list Tag) (t : tables) : tables :=
  put_links t (list_to_set (map (pair id) (link_ids tags ∅)) ∪ filter (fun l : Z * Z => l.1 <> id) t.(t_links)).

Lemma sync_spec id tags w r w' : syncProblemTags db.(tx) id tags w = (r, w') ->
  committed w' = committed w /\ match r with inr _ => working w' = linked id tags (working w) | inl _ => True end.
Proof.
  unfold syncProblemTags, bind. destruct (h_exec (tx db) (drop_links id) w) as [r1 w1] eqn:E1.
  pose proof (tx_keeps_committed _ _ _ _ E1) as K1. apply exec_spec in E1. destruct r1 as [e|n]; [by intros [= <- <-]|].
  destruct E1 as [_ E1]. cbn in E1.
  assert (link_ids tags ∅ = [] -> working w1 = linked id tags (working w)) as N.
  { intros N. rewrite E1. unfold linked. rewrite N. cbn. f_equal. by rewrite (left_id_L ∅ (∪)). }
  destruct tags as [|g tags]; [intros [= <- <-]; split; [done|by apply N]|].
  destruct (link_ids (g :: tags) ∅) as [|i ids] eqn:EL; [intros [= <- <-]; split; [done|by apply N]|].
  destruct (h_exec (tx db) (add_links id (i :: ids)) w1) as [r2 w2] eqn:E2.
  pose proof (tx_keeps_committed _ _ _ _ E2) as K2. apply exec_spec in E2.
  destruct r2 as [e|n2]; intros [= <- <-]; (split; [congruence|]); [done|].
  destruct E2 as [_ ->]. unfold linked. rewrite E1, EL. done.
Qed.

Lemma linked_links id tags t : filter (fun l : Z * Z => is_Some (t.(t_tags) !! l.2 ≫= live_tag l.2)) (linked id tags t).(t_links)
  = relink (cat t) id tags.
Proof.
  apply set_eq. intros [i j]. unfold linked, relink. cbn. rewrite elem_of_filter, !elem_of_union, !elem_of_filter, elem_of_map. cbn.
  rewrite ?elem_of_filter, elem_of_list_to_set, list_elem_of_fmap. split.
  - intros [HS [(x & [= -> ->] & Hx%link_ids_spec)|[Hn HL]]].
    + left. exists x. split; [done|]. apply elem_of_filter. rewrite map_lookup_imap. split; [done|].
      destruct Hx as (H1 & H2 & _). apply elem_of_difference. split; [by apply elem_of_list_to_set|set_solver].
    + by right.
  - intros [(x & [= -> ->] & [HS Hx]%elem_of_filter)|[Hn [HS HL]]]; [|by eauto].
    rewrite map_lookup_imap in HS. split; [done|]. left. exists x. split; [done|]. apply link_ids_spec.
    apply elem_of_difference in Hx as [Hx%elem_of_list_to_set H0]. split_and!; [done|set_solver|set_solver].
Qed.

Lemma commit_spec w r w' : db.(Commit) w = (r, w') -> match r with
  | inr _ => committed w' = working w | inl _ => committed w' = committed w \/ committed w' = working w end.
Proof. apply dl_commit. Qed.

Lemma inserted_cat p id t t0 : t.(t_problems) !! id = None ->
  cat (linked id p.(PbTags) (put_problems t (<[id := inserted_problem (toProblemDAO lower p) t0]> t.(t_problems))))
  = mkCatalogue (<[id := created_row (keep_columns lower) p id t0]> (cat t).(c_problems)) (cat t).(c_tags)
      (relink (cat t) id p.(PbTags)) (cat t).(c_tests).
Proof.
  intros HN. apply catalogue_eq; [|done| |done].
  - intros i. rewrite cat_problem. cbn. destruct (decide (i = id)) as [->|Hn].
    + rewrite !lookup_insert_eq. cbn. f_equal. unfold created_row, put_row, toProblemEntity, inserted_problem, auto_time, auto_stamp. cbn.
      unfold or_default. by destruct (PbIsHidden p).
    + rewrite !lookup_insert_ne by done. by rewrite <- cat_problem.
  - intros l. cbn [c_links]. rewrite <- linked_links. done.
Qed.

Lemma pg_create_writes p : writes shown (fun p' m m' => p' = with_ID p p'.(PbID) /\ problem_created (keep_columns lower) p p'.(PbID) m m')
  (pg_CreateProblem db lower SQLSTATE p).
Proof.
  intros w r w' E. unfold pg_CreateProblem in E. unfold bind in E at 1.
  destruct (db.(Begin) w) as [r1 w1] eqn:E1. apply dl_begin in E1 as [K1 B1].
  destruct r1 as [e|u]; [injection E as <- <-; left; unfold shown; by rewrite K1|].
  unfold bind in E at 1. destruct (or_rollback db _ (h_create _ _ _) w1) as [r2 w2] eqn:E2. apply or_rollback_spec in E2.
  destruct r2 as [e|id].
  { injection E as <- <-. destruct E2 as (e' & w2' & E2 & K2). left. unfold shown. rewrite K2.
    rewrite (proj1 (proj2 (proj2 (sl_rest (h := db.(tx)) (rest := committed)))) _ _ _ _ _ _ E2). by rewrite K1. }
  pose proof (proj1 (proj2 (proj2 (sl_rest (h := db.(tx)) (rest := committed)))) _ _ _ _ _ _ E2) as K2.
  apply sl_create in E2 as (id' & t0 & Hpos & Hfresh & [= -> HW]). apply not_elem_of_dom in Hfresh. symmetry in HW. rewrite B1 in Hfresh, HW.
  unfold bind in E at 1. destruct (or_rollback db _ (syncProblemTags _ _ _) w2) as [r3 w3] eqn:E3. apply or_rollback_spec in E3.
  destruct r3 as [e|u3].
  { injection E as <- <-. destruct E3 as (e' & w3' & [K3 _]%sync_spec & K3'). left. unfold shown. by rewrite K3', K3, K2, K1. }
  apply sync_spec in E3 as [K3 HS]. rewrite HW in HS.
  assert (problem_created (keep_columns lower) p id (shown w) (cat (working w3))) as HC.
  { exists t0. split_and!; [done|unfold shown; rewrite cat_problem, Hfresh; done|]. rewrite HS. by apply inserted_cat. }
  unfold bind in E. destruct (db.(Commit) w3) as [r4 w4] eqn:E4. apply commit_spec in E4. destruct r4 as [e|u4].
  - injection E as <- <-. destruct E4 as [E4|E4]; [left; unfold shown; by rewrite E4, K3, K2, K1|].
    right. exists (with_ID p id). unfold shown. rewrite E4. done.
  - injection E as <- <-. unfold shown at 2. rewrite E4. done.
Qed.

Lemma now_committed w r w' : now w = (r, w') -> committed w' = committed w /\ working w' = working w.
Proof. intros E. destruct (dl_now (DbLaws := DL)) as [K1 K2]. split; [by apply K1 in E|by apply K2 in E]. Qed.

Lemma live_row id d : live (toProblemEntity id d []) = is_null d.(ProblemDAO.DeletedAt).
Proof. unfold live, IsDeleted. cbn. by destruct (ProblemDAO.DeletedAt d). Qed.

(** An UPDATE of one problem by its key. *)
Lemma update_one id f g t : (forall d, toProblemEntity id (f d) [] = g (toProblemEntity id d [])) ->
  forall i, (cat (update_problems (fun j _ => j =? id) f t).2).(c_problems) !! i = amend live g id (cat t).(c_problems) !! i.
Proof.
  intros H i. rewrite problems_updated. unfold amend. destruct (decide (i = id)) as [->|Hn].
  - rewrite lookup_alter_eq, cat_problem. destruct (t_problems t !! id) as [d|]; [|done]. cbn.
    rewrite live_row, Z.eqb_refl, andb_true_r. destruct (is_null _); [|done]. by rewrite H.
  - rewrite lookup_alter_ne, cat_problem by done. destruct (t_problems t !! i) as [d|]; [|done]. cbn.
    apply Z.eqb_neq in Hn. by rewrite Hn, andb_false_r.
Qed.

Lemma updated_cat p t0 t : cat (linked p.(PbID) p.(PbTags) (update_problems (fun i _ => i =? p.(PbID)) (updated_problem lower p t0) t).2)
  = mkCatalogue (amend live (updated_problem_row (keep_columns lower) p t0) p.(PbID) (cat t).(c_problems)) (cat t).(c_tags)
      (relink (cat t) p.(PbID) p.(PbTags)) (cat t).(c_tests).
Proof.
  apply catalogue_eq; [|done| |done].
  - intros i. cbn [c_problems]. rewrite <- (update_one p.(PbID) (updated_problem lower p t0)); [done|]. done.
  - intros l. cbn [c_links]. rewrite <- linked_links. done.
Qed.

Lemma pg_update_writes p : writes shown (fun _ => problem_updated (keep_columns lower) p) (pg_UpdateProblem db now lower SQLSTATE p).
Proof.
  intros w r w' E. unfold pg_UpdateProblem in E. unfold bind in E at 1.
  destruct (db.(Begin) w) as [r1 w1] eqn:E1. apply dl_begin in E1 as [K1 B1].
  destruct r1 as [e|u]; [injection E as <- <-; left; unfold shown; by rewrite K1|].
  unfold bind in E at 1. destruct (now w1) as [rn wn] eqn:En. apply now_committed in En as [Kn Bn].
  destruct rn as [e|t0]; [injection E as <- <-; left; unfold shown; by rewrite Kn, K1|].
  unfold bind in E at 1. destruct (or_rollback db _ (h_exec _ _) wn) as [r2 w2] eqn:E2. apply or_rollback_spec in E2.
  destruct r2 as [e|n].
  { injection E as <- <-. destruct E2 as (e' & w2' & E2 & K2). left. unfold shown. rewrite K2.
    apply tx_keeps_committed in E2. by rewrite E2, Kn, K1. }
  pose proof (tx_keeps_committed _ _ _ _ E2) as K2. apply exec_spec in E2 as [_ HW]. rewrite Bn, B1 in HW.
  unfold bind in E at 1. destruct (or_rollback db _ (syncProblemTags _ _ _) w2) as [r3 w3] eqn:E3. apply or_rollback_spec in E3.
  destruct r3 as [e|u3].
  { injection E as <- <-. destruct E3 as (e' & w3' & [K3 _]%sync_spec & K3'). left. unfold shown. by rewrite K3', K3, K2, Kn, K1. }
  apply sync_spec in E3 as [K3 HS]. rewrite HW in HS.
  assert (problem_updated (keep_columns lower) p (shown w) (cat (working w3))) as HC by (exists t0; rewrite HS; apply updated_cat).
  apply commit_spec in E. destruct r as [e|u4].
  - destruct E as [E|E]; [left; unfold shown; by rewrite E, K3, K2, Kn, K1|]. right. exists tt. unfold shown. by rewrite E.
  - unfold shown at 2. by rewrite E.
Qed.

(** A single statement on the connection. *)
Lemma exec_done f w n w1 : h_exec db.(conn) f w = (inr n, w1) -> shown w1 = cat (f (committed w)).2.
Proof. intros [_ E]%exec_spec. unfold shown. by rewrite E. Qed.
Lemma exec_failed f w e w1 : h_exec db.(conn) f w = (inl e, w1) -> shown w1 = shown w.
Proof. intros E%exec_spec. unfold shown. by rewrite E. Qed.

Lemma pg_delete_writes id : writes shown (fun _ => problem_deleted id) (pg_DeleteProblem db now id).
Proof.
  intros w r w' E. unfold pg_DeleteProblem, bind in E. destruct (now w) as [[e|t0] w1] eqn:E1; apply now_committed in E1 as [K1 _].
  { injection E as <- <-. left. unfold shown. by rewrite K1. }
  destruct (h_exec _ _ w1) as [[e|n] w2] eqn:E2.
  { injection E as <- <-. apply exec_failed in E2. left. rewrite E2. unfold shown. by rewrite K1. }
  apply exec_done in E2. rewrite K1 in E2.
  assert (problem_deleted id (shown w) (shown w2)) as HC.
  { exists t0. rewrite E2. apply catalogue_eq; [|done|done|done].
    intros i. cbn [c_problems set_problems]. by apply (update_one id (deleted_problem t0) (deleted_row t0)). }
  destruct (n =? 0); injection E as <- <-; [right; by exists tt|done].
Qed.

(** *** Tags *)

Lemma update_tag_one id f g t : (forall d, live_tag id (f d) = g <$> live_tag id d) ->
  forall i, (cat (update_tags (fun j _ => j =? id) f t).2).(c_tags) !! i = alter g id (cat t).(c_tags) !! i.
Proof.
  intros H i. rewrite cat_tag. cbn. rewrite update_where_lookup. destruct (decide (i = id)) as [->|Hn].
  - rewrite lookup_alter_eq, map_lookup_imap. destruct (t_tags t !! id) as [d|]; [|done]. cbn. rewrite Z.eqb_refl, andb_true_r.
    destruct (is_null (TagDAO.DeletedAt d)) eqn:E; [done|]. unfold live_tag. by rewrite E.
  - rewrite lookup_alter_ne, map_lookup_imap by done. destruct (t_tags t !! i) as [d|]; [|done]. cbn.
    apply Z.eqb_neq in Hn. by rewrite Hn, andb_false_r.
Qed.

(** Tags do not come and go by an update. *)
Lemma update_tag_links id f g t : (forall d, live_tag id (f d) = g <$> live_tag id d) ->
  forall l, l ∈ (cat (update_tags (fun j _ => j =? id) f t).2).(c_links) <-> l ∈ (cat t).(c_links).
Proof.
  intros H [i j]. rewrite !cat_link. rewrite (update_tag_one id f g t H). cbn [t_links update_tags put_tags snd].
  destruct (decide (j = id)) as [->|Hn]; [rewrite lookup_alter_eq, fmap_is_Some|rewrite lookup_alter_ne by done]; done.
Qed.

Lemma tags_changed id f g t : (forall d, live_tag id (f d) = g <$> live_tag id d) ->
  cat (update_tags (fun j _ => j =? id) f t).2 = set_tags (cat t) (alter g id (cat t).(c_tags)).
Proof.
  intros H. apply catalogue_eq; [done| | |done].
  - intros i. cbn [c_tags set_tags]. by apply update_tag_one.
  - intros l. cbn [c_links set_tags]. by apply update_tag_links with g.
Qed.

Lemma nullable_text d : derefString (nullableString d) = TrimSpace d.
Proof. unfold nullableString. cbv zeta. case_bool_decide as E; [by rewrite E|done]. Qed.

Lemma pg_update_tag_writes g : writes shown (fun _ => tag_updated g) (pg_UpdateTag db now Error g).
Proof.
  intros w r w' E. unfold pg_UpdateTag, bind in E. destruct (now w) as [[e|t0] w1] eqn:E1; apply now_committed in E1 as [K1 _].
  { injection E as <- <-. left. unfold shown. by rewrite K1. }
  destruct (on_error _ _ w1) as [[e|n] w2] eqn:E2.
  { injection E as <- <-. apply on_error_inl_inv in E2 as (e0 & _ & E2). apply exec_failed in E2. left. rewrite E2. unfold shown. by rewrite K1. }
  apply on_error_inr, exec_done in E2. rewrite K1 in E2. injection E as <- <-. exists t0. rewrite E2. apply tags_changed.
  intros d. unfold live_tag. cbn. destruct (is_null _); [|done]. cbn. f_equal. unfold toTagEntity, updated_tag. cbn. by rewrite nullable_text.
Qed.

Lemma pg_deactivate_writes id : writes shown (fun _ => tag_off id) (pg_DeactivateTag db now id).
Proof.
  intros w r w' E. unfold pg_DeactivateTag, bind in E. destruct (now w) as [[e|t0] w1] eqn:E1; apply now_committed in E1 as [K1 _].
  { injection E as <- <-. left. unfold shown. by rewrite K1. }
  destruct (h_exec _ _ w1) as [[e|n] w2] eqn:E2.
  { injection E as <- <-. apply exec_failed in E2. left. rewrite E2. unfold shown. by rewrite K1. }
  apply exec_done in E2. rewrite K1 in E2. injection E as <- <-. exists t0. rewrite E2. apply tags_changed.
  intros d. unfold live_tag. cbn. by destruct (is_null _).
Qed.

Lemma pg_create_tag_writes g : writes shown (fun g' m m' => g'.(TagIsActive) = g.(TagIsActive) /\ tag_created g g'.(TagID) m m')
  (pg_CreateTag db Error g).
Proof.
  intros w r w' E. unfold pg_CreateTag, bind in E. destruct (on_error _ _ w) as [[e|[id d]] w1] eqn:E1.
  { injection E as <- <-. apply on_error_inl_inv in E1 as (e0 & _ & E1). apply sl_create in E1. left. unfold shown. by rewrite E1. }
  apply on_error_inr, sl_create in E1 as (id' & t0 & HP & HF & [= -> <- HW]). injection E as <- <-. cbn [TagID TagIsActive fst snd]. split; [done|].
  apply not_elem_of_dom in HF. exists t0. unfold shown. rewrite <- HW. split_and!; [done|by rewrite cat_tag, HF|].
  assert (live_tag id (inserted_tag (toTagDAO g) t0) = Some (created_tag g id t0)) as HL.
  { unfold live_tag. cbn. f_equal. unfold toTagEntity, created_tag. cbn. rewrite nullable_text. unfold or_default. by destruct (TagIsActive g). }
  assert (forall i, (cat (put_tags (committed w) (<[id := inserted_tag (toTagDAO g) t0]> (committed w).(t_tags)))).(c_tags) !! i
    = <[id := created_tag g id t0]> (cat (committed w)).(c_tags) !! i) as HT.
  { intros i. rewrite cat_tag. cbn [t_tags put_tags]. destruct (decide (i = id)) as [->|Hn]; [by rewrite !lookup_insert_eq|].
    rewrite !lookup_insert_ne by done. by rewrite cat_tag. }
  apply catalogue_eq; [done|exact HT| |done].
  intros [i j]. cbn [c_links set_tags]. rewrite !cat_link, HT. cbn [t_links put_tags].
  destruct (decide (j = id)) as [->|Hn]; [|by rewrite lookup_insert_ne by congruence].
  split; [|intros [_ [x Hx]]; by rewrite cat_tag, HF in Hx].
  intros [HL' _]. destruct (va_links _ (sl_valid (h := db.(conn)) w) _ _ HL') as [_ [x Hx]]. congruence.
Qed.

Lemma pg_first_tag_spec p w r w' : pg_first_tag db p w = (r, w') ->
  committed w' = committed w
  /\ match r with inr g => (shown w).(c_tags) !! g.(TagID) = Some g /\ exists d, p g.(TagID) d = true | inl _ => True end.
Proof.
  unfold pg_first_tag, bind. destruct (on_error _ _ w) as [[e|[id d]] w1] eqn:E.
  - intros [= <- <-]. by apply missing_spec in E as [K _].
  - apply on_error_inr in E. apply first_spec in E as [K HD]. apply tags_where_spec in HD as (H1 & H2 & H3). cbn in H1, H2, H3.
    intros [= <- <-]. split; [done|]. cbn [TagID toTagEntity]. split; [|by exists d]. unfold shown. rewrite cat_tag, H1. cbn. unfold live_tag, is_null. by rewrite H2.
Qed.

Lemma keeps_shown {A} (m : M W A) : (forall w r w', m w = (r, w') -> committed w' = committed w) -> keeps shown m.
Proof. intros H w r w' E. unfold shown. by rewrite (H _ _ _ E). Qed.

Lemma select_keeps {A} (q : tables -> list A) o k n : keeps shown (h_select db.(conn) q o k n).
Proof. apply keeps_shown. intros w r w' E. by apply sl_select in E as [K _]. Qed.
Lemma sql_count_keeps {A} (q : tables -> list A) : keeps shown (h_count db.(conn) q).
Proof. apply keeps_shown. intros w r w' E. by apply sl_count in E as [K _]. Qed.
Lemma load_keeps ids : keeps shown (loadTagsByProblemIDs db text_before ids).
Proof. apply keeps_shown. intros w r w' E. by apply load_spec in E as [K _]. Qed.

Lemma list_by_ids_spec ids w l w' : pg_ListByIDs db ids true w = (inr l, w') ->
  forall g, g ∈ l <-> (shown w).(c_tags) !! g.(TagID) = Some g /\ g.(TagIsActive) = true /\ g.(TagID) ∈ ids.
Proof.
  unfold pg_ListByIDs. destruct ids as [|i ids].
  - intros [= <- <-] g. split; [by intros ?%elem_of_nil|by intros (_ & _ & ?%elem_of_nil)].
  - unfold pg_tags. intros H. run_inv H. injection H as <- <-. apply sl_select in E as [_ (L & P & _ & ->)].
    intros g. unfold toTagEntities. cbn [Z.to_nat]. rewrite drop_0, list_elem_of_fmap. split.
    + intros ([j d] & -> & Hd). rewrite P in Hd. apply tags_where_spec in Hd as (H1 & H2 & [H3 H4]%andb_true_iff). cbn [fst snd] in H1, H2, H3, H4.
      apply bool_decide_eq_true in H3. cbn [fst snd] in *. split_and!; [|done|done]. unfold shown. cbn [TagID toTagEntity]. rewrite cat_tag, H1. cbn. unfold live_tag, is_null. by rewrite H2.
    + intros ((d & H1 & H2 & E)%cat_tag_inv & HA & HI). exists (g.(TagID), d). split; [done|]. rewrite P. apply tags_where_spec. cbn.
      split_and!; [done|done|]. rewrite bool_decide_eq_true_2 by done. by rewrite E in HA.
Qed.

Lemma published_spec id w n w' : pg_CountPublished db id w = (inr n, w') -> n <= 0 ->
  forall i p, tagged (shown w) i id -> (shown w).(c_problems) !! i = Some p -> live p = true -> p.(PbIsHidden) = true.
Proof.
  unfold pg_CountPublished. intros [_ E]%sl_count HN i p HT HP HL. destruct (PbIsHidden p) eqn:EH; [done|exfalso].
  apply cat_link in HT as [HT _]. apply cat_problem_inv in HP as (d & Hd & ->). rewrite live_row in HL. cbn in EH.
  assert ((i, d) ∈ published_with_tag id (committed w)) as HI.
  { apply list_elem_of_omap. exists (i, id). split; [by apply elem_of_elements|]. cbn. by rewrite Z.eqb_refl, Hd, EH, HL. }
  destruct (published_with_tag id (committed w)); [by apply elem_of_nil in HI|]. cbn in E. lia.
Qed.

(** *** Testcases *)

Lemma pg_get_test_spec id w r w' : pg_GetByProblemID db id w = (r, w') ->
  committed w' = committed w
  /\ match r with
     | inr c => has_test (shown w) c /\ c.(TsProblemID) = id
     | inl e => errors_Is e ErrTestCaseNotFound = true -> forall c, has_test (shown w) c -> c.(TsProblemID) <> id
     end.
Proof.
  unfold pg_GetByProblemID, bind. destruct (on_error _ _ w) as [[e|[i d]] w1] eqn:E.
  - intros [= <- <-]. apply missing_spec in E as [K E]. split; [done|]. destruct E as [F|[-> N]].
    + intros H. unfold ErrTestCaseNotFound in H. by rewrite (proj2 F) in H.
    + intros _ c (d & Hd & Ec)%cat_test_inv <-. assert ((c.(TsID), d) ∈ @nil (Z * TestCaseDAO.t)) as HI; [|by apply elem_of_nil in HI].
      rewrite <- N. apply where_spec. cbn. split; [done|]. unfold of_problem. rewrite Ec. apply Z.eqb_refl.
  - apply on_error_inr in E. apply first_spec in E as [K HD]. apply where_spec in HD as [H1 H2]. cbn in H1, H2.
    intros [= <- <-]. split; [done|]. unfold has_test, shown. rewrite cat_test. cbn. rewrite H1. split; [done|]. by apply Z.eqb_eq.
Qed.

Lemma upsert_put c id t0 t : valid t -> t.(t_tests) !! id = None -> test_put c (cat t) (cat (upsert_test (toTestCaseDAO c) id t0 t).2).
Proof.
  intros V HN. unfold upsert_test. cbn [snd]. set (new := inserted_test (toTestCaseDAO c) t0).
  destruct (where_ _ _) as [|[j r] rows] eqn:EW.
  - exists (toTestCaseEntity id new). split_and!; [|done|].
    + apply catalogue_eq; [done|done|done|]. intros i. cbn [c_tests set_tests]. rewrite cat_test. cbn [t_tests put_tests TsID toTestCaseEntity].
      destruct (decide (i = id)) as [->|Hn]; [by rewrite !lookup_insert_eq|]. rewrite !lookup_insert_ne by congruence. by rewrite cat_test.
    + right. cbn [TsID toTestCaseEntity]. by rewrite cat_test, HN.
  - assert ((j, r) ∈ where_ (fun (_ : Z) r => r.(TestCaseDAO.ProblemID) =? c.(TsProblemID)) t.(t_tests)) as HI by (cbn in EW; rewrite EW; by left).
    apply where_spec in HI as [H1 H2]. cbn in H1, H2. apply Z.eqb_eq in H2.
    exists (mkTestCase j r.(TestCaseDAO.ProblemID) new.(TestCaseDAO.ZipObjectKey) new.(TestCaseDAO.TestCount) new.(TestCaseDAO.Version)
              r.(TestCaseDAO.CreatedAt) new.(TestCaseDAO.UpdatedAt)). split_and!.
    + apply catalogue_eq; [done|done|done|]. intros i. cbn [c_tests set_tests]. rewrite cat_test. cbn [t_tests put_tests TsID].
      rewrite update_where_lookup. destruct (decide (i = j)) as [->|Hn].
      * rewrite lookup_insert_eq, H1. cbn. by rewrite H2, Z.eqb_refl.
      * rewrite lookup_insert_ne by congruence. rewrite cat_test. destruct (t_tests t !! i) as [x|] eqn:Ex; [|done]. cbn.
        destruct (Z.eqb_spec (TestCaseDAO.ProblemID x) c.(TsProblemID)) as [E|]; [|done].
        destruct Hn. eapply (va_tests _ V); [exact Ex|exact H1|congruence].
    + cbn. by rewrite H2.
    + left. exists (toTestCaseEntity j r). unfold has_test. cbn [TsID TsProblemID toTestCaseEntity]. by rewrite cat_test, H1.
Qed.

Lemma pg_upsert_writes c : writes shown (fun _ => test_put c) (pg_Upsert db c).
Proof.
  intros w r w' E. unfold pg_Upsert, bind in E. destruct (h_create _ _ _ w) as [[e|u] w1] eqn:E1; apply sl_create in E1.
  { injection E as <- <-. left. unfold shown. by rewrite E1. }
  destruct E1 as (id & t0 & _ & HF & HW). apply not_elem_of_dom in HF.
  assert (test_put c (shown w) (shown w1)) as HC.
  { pose proof (upsert_put c id t0 _ (sl_valid (h := db.(conn)) w) HF) as HP. rewrite HW in HP. exact HP. }
  destruct (pg_GetByProblemID db _ w1) as [r2 w2] eqn:E2. apply pg_get_test_spec in E2 as [K2 _].
  assert (shown w2 = shown w1) as K by (unfold shown; by rewrite K2).
  destruct r2 as [e|x]; injection E as <- <-; rewrite K; [right; by exists c|done].
Qed.

Lemma pg_drop_writes id : writes shown (fun _ => test_dropped id) (pg_DeleteByProblemID db id).
Proof.
  intros w r w' E. unfold pg_DeleteByProblemID, bind in E. destruct (h_exec _ _ w) as [[e|n] w1] eqn:E1.
  - injection E as <- <-. apply exec_failed in E1. by left.
  - apply exec_done in E1. injection E as <- <-. unfold test_dropped. rewrite E1. unfold shown.
    apply catalogue_eq; [done|done|done|]. intros i. cbn [c_tests set_tests snd]. rewrite cat_test. cbn [t_tests put_tests].
    apply option_eq. intros x. rewrite map_lookup_filter_Some, cat_test. split.
    + intros H. apply fmap_Some in H as (d & [H1 H2]%map_lookup_filter_Some & ->). rewrite H1. split; [done|].
      cbn in H2. unfold of_problem in H2. by apply Z.eqb_neq in H2.
    + intros [H1 H2]. apply fmap_Some in H1 as (d & H1 & ->). apply fmap_Some. exists d. split; [|done].
      apply map_lookup_filter_Some. split; [done|]. by apply Z.eqb_neq.
Qed.

#[export] Instance pg_CatalogueLaws :
  CatalogueLaws (pg_problemRepository db now lower SQLSTATE ILIKE before text_before) (pg_tagRepository db now Error text_before)
    (pg_testCaseRepository db) shown (keep_columns lower).
Proof.
  assert (forall p, keeps shown (pg_first_problem db text_before p)) as KP
    by (intros p; apply keeps_shown; intros w r w' E; by apply pg_first_spec in E as [K _]).
  assert (forall p, keeps shown (pg_first_tag db p)) as KT
    by (intros p; apply keeps_shown; intros w r w' E; by apply pg_first_tag_spec in E as [K _]).
  assert (forall id, keeps shown (pg_GetByProblemID db id)) as KC
    by (intros id; apply keeps_shown; intros w r w' E; by apply pg_get_test_spec in E as [K _]).
  assert (forall q o, keeps shown (pg_tags db q o)) as KL
    by (intros; unfold pg_tags; apply keeps_bind; [apply select_keeps|intros; apply keeps_ret]).
  assert (forall rows, keeps shown rows -> keeps shown (pg_problems db text_before rows)) as KR.
  { intros rows K. unfold pg_problems. apply keeps_bind; [done|intros]. apply keeps_bind; [apply load_keeps|intros; apply keeps_ret]. }
  split; cbn -[shown].
  - intros p. split; [done|]. cbn. unfold normalizeDifficultyValue. unfold isValidDifficulty. intros H.
    repeat (apply orb_true_iff in H as [H|H]); apply bool_decide_eq_true in H; rewrite H; reflexivity.
  - intros w. apply cat_intact, (sl_valid (h := db.(conn))).
  - intros w i p (d & _ & ->)%cat_problem_inv. done.
  - intros w i g (d & _ & _ & ->)%cat_tag_inv. done.
  - intros w i c (d & _ & ->)%cat_test_inv. done.
  - intros id w p w' [_ (F & d & _ & H & _)]%pg_first_spec. split; [done|]. by apply Z.eqb_eq.
  - intros s w p w' [_ (F & d & _ & H & E)]%pg_first_spec. split; [done|]. apply bool_decide_eq_true in H. by rewrite E.
  - intros s w e w' [_ E]%pg_first_spec HE i q (d & Hd & ->)%cat_problem_inv HL HS. unfold ErrProblemNotFound in HE. destruct E as [F|[_ N]]; [by rewrite (proj2 F) in HE|].
    assert ((i, d) ∈ @nil (Z * ProblemDAO.t)) as HI; [|by apply elem_of_nil in HI]. rewrite <- N. apply problems_where_spec. cbn.
    rewrite live_row in HL. unfold is_null in HL. split_and!; [done|by destruct (ProblemDAO.DeletedAt d)|by apply bool_decide_eq_true].
  - apply pg_create_writes.
  - apply pg_update_writes.
  - apply pg_delete_writes.
  - intros id w g w' [_ [H (d & Hd)]]%pg_first_tag_spec. apply Z.eqb_eq in Hd. by rewrite Hd in H.
  - apply list_by_ids_spec.
  - apply published_spec.
  - apply pg_create_tag_writes.
  - apply pg_update_tag_writes.
  - apply pg_deactivate_writes.
  - intros id w c w' [_ H]%pg_get_test_spec. done.
  - intros id w e w' [_ H]%pg_get_test_spec HE. by apply H.
  - apply pg_upsert_writes.
  - apply pg_drop_writes.
  - split_and!; intros; try (apply KP || apply KT || apply KC || apply KL || apply sql_count_keeps).
    + destruct ids; [apply keeps_ret|apply KL].
    + apply KR, select_keeps.
    + apply KR, select_keeps.
Qed.
End repositories.

(** ** The service on PostgreSQL *)

(** The object store, the cache, and the file system are not the database. *)
Record quiet_surroundings {W} (view : W -> catalogue) (storage : TestCaseStorage W) (cache : option (SubmissionProblemCache W))
    (OpenReader : string -> M W (list zip_file)) (Remove : string -> M W unit) : Prop := {
  qs_storage : (forall k p, keeps view (storage.(TS_Upload) k p)) /\ (forall k, keeps view (storage.(TS_Delete) k))
    /\ (forall k e, keeps view (storage.(TS_PresignedURL) k e));
  qs_cache : forall c, cache = Some c -> forall id, keeps view (c.(CC_Delete) id);
  qs_files : (forall path, keeps view (OpenReader path)) /\ (forall path, keeps view (Remove path)) }.

Definition postgres_platform {W} (db : DB W) now offset lower SQLSTATE ILIKE before text_before Error
    (storage : TestCaseStorage W) cache OpenReader Remove : platform W :=
  mkPlatform W now offset lower (pg_problemRepository db now lower SQLSTATE ILIKE before text_before)
    (pg_tagRepository db now Error text_before) (pg_testCaseRepository db) storage cache OpenReader Remove.

Lemma postgres_PlatformLaws {W} (db : DB W) now offset lower SQLSTATE ILIKE before text_before Error committed working
    {DL : DbLaws db committed working now} storage cache OpenReader Remove :
  quiet_surroundings (shown committed) storage cache OpenReader Remove ->
  PlatformLaws (postgres_platform db now offset lower SQLSTATE ILIKE before text_before Error storage cache OpenReader Remove)
    (shown committed) (keep_columns lower).
Proof.
  intros [Q1 Q2 Q3]. split; [by eapply pg_CatalogueLaws| |done|done|done].
  intros w r w' E. unfold shown. by rewrite (proj1 (dl_now (db := db) (working := working)) _ _ _ E).
Qed.
