(* ===== verification/ProblemDemo.v ===== *)
(** A concrete world for the witnesses of the problem service: tables in
    memory with transactions, a clock and an archive on disk.  It meets the
    assumptions of PgCatalogue.v and ProblemStore.v, so they can hold together. *)

From S2P Require Import Prelude GoString GoError GoMonad SubmissionDomain PgStore ProblemDomain ProblemAdmin ProblemTestcases PgProblems ProblemStore PgCatalogue.

(** ** Tables that satisfy their constraints *)

Definition distinct {A B} `{EqDecision B} (f : A -> B) (m : gmap Z A) : bool :=
  bool_decide (NoDup (map (fun r : Z * A => f r.2) (map_to_list m))).

Definition valid_b (t : tables) : bool :=
  distinct ProblemDAO.TitleSlug t.(t_problems) && distinct TagDAO.Slug t.(t_tags) && distinct TestCaseDAO.ProblemID t.(t_tests)
  && forallb (fun l : Z * Z => bool_decide (is_Some (t.(t_problems) !! l.1)) && bool_decide (is_Some (t.(t_tags) !! l.2)))
       (elements t.(t_links)).

Lemma distinct_spec {A B} `{EqDecision B} (f : A -> B) m : distinct f m = true ->
  forall i j a b, m !! i = Some a -> m !! j = Some b -> f a = f b -> i = j.
Proof.
  unfold distinct. intros H%bool_decide_eq_true i j a b Ha Hb E. apply elem_of_map_to_list in Ha, Hb.
  apply list_elem_of_lookup in Ha as [x Hx], Hb as [y Hy].
  assert (x = y) as ->; [|congruence].
  eapply (NoDup_lookup _ x y (f a) H); rewrite list_lookup_fmap; [by rewrite Hx|rewrite Hy; cbn; by rewrite E].
Qed.

Lemma valid_b_spec t : valid_b t = true -> valid t.
Proof.
  unfold valid_b. intros [[[H1 H2]%andb_true_iff H3]%andb_true_iff H4]%andb_true_iff. split.
  - by apply distinct_spec.
  - by apply distinct_spec.
  - by apply distinct_spec.
  - intros i j HL. rewrite forallb_forall in H4. specialize (H4 (i, j)). cbn in H4.
    apply andb_true_iff in H4 as [K1 K2]; [|by apply list_elem_of_In, elem_of_elements].
    by apply bool_decide_eq_true in K1, K2.
Qed.

Definition no_rows : tables := mkTables ∅ ∅ ∅ ∅.
Definition checked (t : tables) : tables := if valid_b t then t else no_rows.

Lemma no_rows_valid : valid no_rows.
Proof. by split. Qed.
Lemma checked_valid t : valid (checked t).
Proof. unfold checked. destruct (valid_b t) eqn:E; [by apply valid_b_spec|apply no_rows_valid]. Qed.
Lemma checked_idem t : valid_b t = true -> checked t = t.
Proof. unfold checked. by intros ->. Qed.

(** ** A handle *)

Record pworld := mkPWorld { pw_committed : tables; pw_working : tables; pw_clock : Z }.

Fixpoint insert_in {A} (o : A -> A -> bool) (x : A) (l : list A) : list A :=
  match l with [] => [x] | y :: r => if o y x then y :: insert_in o x r else x :: l end.
Definition sort_by {A} (o : A -> A -> bool) (l : list A) : list A := foldr (insert_in o) [] l.

Lemma insert_in_perm {A} (o : A -> A -> bool) x l : insert_in o x l ≡ₚ x :: l.
Proof. induction l as [|y l IH]; [done|]. cbn. destruct (o y x); [|done]. rewrite IH. apply Permutation_swap. Qed.
Lemma sort_by_perm {A} (o : A -> A -> bool) l : sort_by o l ≡ₚ l.
Proof. induction l as [|x l IH]; [done|]. cbn. by rewrite insert_in_perm, IH. Qed.

(** An order that is none cannot be followed. *)
Fixpoint in_order {A} (o : A -> A -> bool) (l : list A) : bool :=
  match l with [] => true | x :: r => forallb (fun y => negb (o y x)) r && in_order o r end.

Lemma in_order_spec {A} (o : A -> A -> bool) l : in_order o l = true ->
  forall i j a b, (i < j)%nat -> l !! i = Some a -> l !! j = Some b -> o b a = false.
Proof.
  induction l as [|x l IH]; [done|]. cbn. intros [H1 H2]%andb_true_iff i j a b HL Ha Hb. destruct j as [|j]; [lia|]. destruct i as [|i].
  - injection Ha as <-. rewrite forallb_forall in H1. apply negb_true_iff, H1, list_elem_of_In. by eapply list_elem_of_lookup_2.
  - by apply (IH H2 i j a b); [lia| |].
Qed.

Section handle.
Context (get : pworld -> tables) (put : tables -> pworld -> pworld).
Hypothesis get_put : forall t w, get (put t w) = t.

Definition mem_fail {A} : M pworld A := fail (EText "duplicate key value violates unique constraint").

Definition mem_select {A} (q : tables -> list A) (o : A -> A -> bool) (k : Z) (n : option Z) : M pworld (list A) := fun w =>
  let L := sort_by o (q (checked (get w))) in
  if in_order o L then
    (inr (match n with Some n => take (Z.to_nat n) (drop (Z.to_nat k) L) | None => drop (Z.to_nat k) L end), w)
  else mem_fail w.
Definition mem_count {A} (q : tables -> list A) : M pworld Z := fun w => (inr (Z.of_nat (length (q (checked (get w))))), w).
Definition key_above (s : gset Z) : Z := 1 + foldr Z.max 0 (elements s).
Definition mem_create {A} (taken : tables -> gset Z) (f : Z -> Time -> tables -> A * tables) : M pworld A := fun w =>
  let t := checked (get w) in
  let '(a, t') := f (key_above (taken t)) w.(pw_clock) t in
  if valid_b t' then (inr a, put t' w) else mem_fail w.
Definition mem_exec (f : tables -> Z * tables) : M pworld Z := fun w =>
  let '(n, t') := f (checked (get w)) in if valid_b t' then (inr n, put t' w) else mem_fail w.

Definition mem_handle : Handle pworld :=
  {| h_select A := mem_select (A := A); h_count A := mem_count (A := A); h_create A := mem_create (A := A); h_exec := mem_exec |}.

Lemma key_above_fresh s : 0 < key_above s /\ key_above s ∉ s.
Proof.
  unfold key_above. assert (0 <= foldr Z.max 0 (elements s)) as H0 by (induction (elements s); cbn; lia).
  split; [lia|]. intros H%elem_of_elements.
  assert (forall x l, x ∈ l -> x <= foldr Z.max 0 l) as HM.
  { intros x l. induction l as [|y l IH]; [by intros ?%elem_of_nil|]. intros [->|Hx]%elem_of_cons; cbn; [lia|]. specialize (IH Hx). lia. }
  apply HM in H. lia.
Qed.

Lemma mem_foreign : foreign (EText "duplicate key value violates unique constraint").
Proof. by split. Qed.

Lemma mem_SqlLaws {X} (rest : pworld -> X) : (forall t w, rest (put t w) = rest w) ->
  SqlLaws mem_handle (fun w => checked (get w)) rest.
Proof.
  intros HR. split.
  - intros w. apply checked_valid.
  - intros A q o k n w r w'. cbn. unfold mem_select. cbv zeta. destruct (in_order _ _) eqn:E; intros [= <- <-]; (split; [done|]); [|apply mem_foreign].
    exists (sort_by o (q (checked (get w)))). split; [apply sort_by_perm|]. split; [by apply in_order_spec|done].
  - intros A q w r w' [= <- <-]. done.
  - intros A taken f w r w'. cbn. unfold mem_create. destruct (f _ _ _) as [a t'] eqn:E. destruct (valid_b t') eqn:V; intros E'; injection E' as <- <-; [|reflexivity].
    destruct (key_above_fresh (taken (checked (get w)))) as [H1 H2]. eexists _, _. split_and!; [done|done|]. rewrite get_put, (checked_idem t') by done. exact E.
  - intros f w r w'. cbn. unfold mem_exec. destruct (f _) as [n t'] eqn:E. destruct (valid_b t') eqn:V; intros E'; injection E' as <- <-; [|reflexivity].
    by rewrite get_put, (checked_idem t').
  - split_and!.
    + intros A q o k n w r w'. cbn. unfold mem_select. cbv zeta. by destruct (in_order _ _); intros [= <- <-].
    + by intros A q w r w' [= <- <-].
    + intros A taken f w r w'. cbn. unfold mem_create. destruct (f _ _ _) as [a t']. by destruct (valid_b t'); intros [= <- <-].
    + intros f w r w'. cbn. unfold mem_exec. destruct (f _) as [n t']. by destruct (valid_b t'); intros [= <- <-].
Qed.
End handle.

(** ** The database and the service *)

Definition set_committed (t : tables) (w : pworld) : pworld := mkPWorld t w.(pw_working) w.(pw_clock).
Definition set_working (t : tables) (w : pworld) : pworld := mkPWorld w.(pw_committed) t w.(pw_clock).
Definition tick : M pworld Time := fun w => (inr w.(pw_clock), mkPWorld w.(pw_committed) w.(pw_working) (w.(pw_clock) + 1)).

Definition demo_db : DB pworld := {|
  conn := mem_handle pw_committed set_committed;
  tx := mem_handle pw_working set_working;
  Begin := fun w => (inr tt, set_working (checked w.(pw_committed)) w);
  Commit := fun w => (inr tt, set_committed (checked w.(pw_working)) w);
  Rollback := ret tt |}.

Definition committed_tables (w : pworld) : tables := checked w.(pw_committed).
Definition working_tables (w : pworld) : tables := checked w.(pw_working).

Lemma checked_checked t : checked (checked t) = checked t.
Proof. unfold checked at 2. destruct (valid_b t) eqn:E; [done|]. unfold checked. by rewrite E. Qed.

#[export] Instance demo_DbLaws : DbLaws demo_db committed_tables working_tables tick.
Proof.
  split.
  - by apply (mem_SqlLaws pw_committed set_committed).
  - by apply (mem_SqlLaws pw_working set_working).
  - intros w r w' [= <- <-]. split; [done|]. apply checked_checked.
  - intros w r w' [= <- <-]. apply checked_checked.
  - by intros w r w' [= <- <-].
  - split; by intros w r w' [= <- <-].
Qed.

Definition demo_storage : TestCaseStorage pworld :=
  {| TS_Upload _ _ := ret tt; TS_Delete _ := ret tt; TS_PresignedURL k _ := ret k |}.
Definition demo_archive : list zip_file := [file "1.in" 2; file "1.out" 2].

Definition demo_platform : platform pworld :=
  postgres_platform demo_db tick (fun _ => 0) (fun r => r) (fun _ => None) (fun _ _ => false) (fun _ _ => false) (fun _ _ => false)
    (fun _ => ""%string) demo_storage None (fun _ => ret demo_archive) (fun _ => ret tt).

Definition demo_catalogue (w : pworld) : catalogue := shown committed_tables w.

Lemma demo_quiet : quiet_surroundings demo_catalogue demo_storage None (fun _ => ret demo_archive) (fun _ => ret tt).
Proof.
  split.
  - split_and!; intros; apply keeps_ret.
  - done.
  - split; intros; apply keeps_ret.
Qed.

#[export] Instance demo_PlatformLaws : PlatformLaws demo_platform demo_catalogue (keep_columns (fun r => r)).
Proof. exact (postgres_PlatformLaws _ _ _ _ _ _ _ _ _ _ _ _ _ _ _ demo_quiet). Qed.

Definition empty_pworld : pworld := mkPWorld no_rows no_rows 1.
Definition demo_file : UploadFile pworld := mkUpload pworld 10 (ret tt) (ret tt) (ret "/tmp/x"%string) (fun _ => ret tt).
