(* ===== verification/ProblemArchive.v ===== *)
(** An archive that the problem service accepts is one that the judge worker can
    load: the validation of uploads (ProblemTestcases.v) against the pairing of
    files in the loader (OfficialLoader.v). *)

From S2P Require Import Prelude GoString GoError GoMonad Patterns ProblemDomain ProblemTestcases OfficialLoader.

(** ** File names *)

Lemma star_set {X} p fuel (i : pos) cs (k : pos -> caps -> option X) x :
  star_loop (rmatch (RSet p)) true fuel i cs k = Some x ->
  exists a b prev, i.2 = a ++ b /\ forallb p a = true /\ k (prev, b) cs = Some x.
Proof.
  revert i. induction fuel as [|fuel IH]; intros [prev l]; cbn [star_loop].
  - intros H. by exists [], l, prev.
  - cbn [rmatch snd]. destruct l as [|c l]; [intros H; by exists [], [], prev|].
    destruct (p c) eqn:E; [|intros H; by exists [], (c :: l), prev].
    destruct (_ <? _)%nat; [|intros H; by exists [], (c :: l), prev].
    destruct (star_loop _ _ _ (Some c, l) cs k) eqn:ES; [|intros H; by exists [], (c :: l), prev].
    intros [= <-]. apply IH in ES as (a & b & q & E1 & E2 & E3). cbn in E1. subst l. exists (c :: a), b, q. cbn. by rewrite E.
Qed.

Definition infix (input : bool) : bytes := chars (if input then "in" else "out").

Lemma consumed_app a b : consumed (a ++ b) b = a.
Proof. unfold consumed. rewrite length_app. replace (length a + length b - length b)%nat with (length a) by lia. apply take_app_length. Qed.

Lemma lit_match {X} s prev l cs (k : pos -> caps -> option X) x : rmatch (RLit s) (prev, l) cs k = Some x ->
  exists p r, l = chars s ++ r /\ k (p, r) cs = Some x.
Proof.
  unfold RLit. revert prev l. induction (chars s) as [|c t IH]; intros prev l; [intros H; by exists prev, l|].
  cbn [foldr rmatch RChr snd]. destruct l as [|d l]; [done|]. destruct (Stdlib.Strings.Ascii.eqb_spec c d) as [<-|]; [|done].
  intros (p & r & -> & H)%IH. by exists p, r.
Qed.

(** What is left of a name after the digits. *)
Lemma suffix_match (prev : option ascii) rest cs x :
  rmatch (X := pos * caps) (RSeqs [RLit "."; RGroup 2 (RAlt (RLit "in") (RLit "out")); REnd]) (prev, rest) cs
    (fun i' cs' => Some (i', cs')) = Some x ->
  exists input, rest = chars "." ++ infix input /\ x.2 = (2%nat, infix input) :: cs.
Proof.
  cbn [RSeqs foldr rmatch]. intros (p & r & -> & H)%lit_match. destruct (rmatch (RLit "in") _ _ _) as [y|] eqn:E.
  - injection H as <-. apply lit_match in E as (p' & r' & -> & E). cbn [snd] in E. destruct r'; [|done]. injection E as <-. exists true. split; reflexivity.
  - apply lit_match in H as (p' & r' & -> & H). cbn [snd] in H. destruct r'; [|done]. injection H as <-. exists false. split; reflexivity.
Qed.

Lemma find_from_eq r before l skipped : find_from r before l skipped =
  match match_at r (before, l) with
  | Some (i', cs) => Some (rev skipped, i', cs)
  | None => match l with [] => None | c :: l' => find_from r (Some c) l' (c :: skipped) end
  end.
Proof. by destruct l. Qed.

Lemma anchored_only r before l skipped : before <> None -> find_from (RSeq RBeg r) before l skipped = None.
Proof.
  revert before skipped. induction l as [|c l IH]; intros before skipped H; cbn [find_from]; unfold match_at; cbn [rmatch fst];
    destruct before; try done. by apply IH.
Qed.

(** The pattern of uploads: digits, a dot and the kind. *)
Lemma upload_name name m : FindSubmatch testcaseFilePattern name = Some m ->
  exists digits input, name = digits ++ chars "." ++ infix input /\ digits <> [] /\ forallb is_digit digits = true
    /\ capture m 1 = digits /\ capture m 2 = infix input.
Proof.
  unfold FindSubmatch, testcaseFilePattern. intros H.
  destruct (find_from _ None name []) as [[[sk i] cs]|] eqn:E; [|done]. injection H as <-.
  set (rest := [RGroup 1 (RPlus RDigit); RLit "."; RGroup 2 (RAlt (RLit "in") (RLit "out")); REnd]) in E.
  change (RSeqs (RBeg :: rest)) with (RSeq RBeg (RSeqs rest)) in E.
  assert (exists y, match_at (RSeq RBeg (RSeqs rest)) (None, name) = Some y /\ y.2 = cs) as (y & EM & EY).
  { rewrite find_from_eq in E. destruct (match_at _ (None, name)) as [[i' cs']|]; [exists (i', cs'); split; [done|cbn; congruence]|].
    destruct name; [done|]. by rewrite anchored_only in E. }
  clear E i sk. unfold match_at, rest in EM. cbn [RSeqs foldr rmatch fst RPlus RDigit snd] in EM.
  destruct name as [|c l]; [done|]. destruct (is_digit c) eqn:ED; [|done].
  apply star_set in EM as (a & b & prev & EL & EA & EM). cbn [snd] in EL, EM. subst l.
  apply suffix_match in EM as (input & -> & EM). rewrite EM in EY. subst cs.
  exists (c :: a), input. split_and!; [done|done|by cbn; rewrite ED| |done].
  unfold capture. cbn [find_first fst snd]. rewrite bool_decide_eq_false_2, bool_decide_eq_true_2 by done.
  cbn [snd]. change (c :: a ++ chars "." ++ infix input) with ((c :: a) ++ chars "." ++ infix input). apply consumed_app.
Qed.

Definition parse_all (l : bytes) : option Z :=
  match parse_digits l 0 with Some v => if (int64_min <=? v) && (v <=? int64_max) then Some v else None | None => None end.

Lemma digit_not_sign c : is_digit c = true -> is_byte 45 c = false /\ is_byte 43 c = false.
Proof.
  unfold is_digit, within, is_byte. intros [H1 H2]%andb_true_iff. apply N.leb_le in H1. split; apply N.eqb_neq; lia.
Qed.

Lemma ParseInt_digits l : l <> [] -> forallb is_digit l = true -> ParseInt (str l) = parse_all l.
Proof.
  intros HN HD. unfold ParseInt, parse_all. rewrite chars_str. destruct l as [|c l]; [done|]. cbn in HD.
  apply andb_true_iff in HD as [HC _]. destruct (digit_not_sign c HC) as [-> ->]. reflexivity.
Qed.

Lemma leading_zeros l : parse_digits (drop_while (is_byte 48) l) 0 = parse_digits l 0.
Proof.
  induction l as [|c l IH]; [done|]. cbn [drop_while]. destruct (is_byte 48 c) eqn:E; [|done]. rewrite IH. cbn [parse_digits].
  unfold is_byte in E. apply N.eqb_eq in E. unfold is_digit, digit_val, within. rewrite E. reflexivity.
Qed.

Lemma drop_while_app p a b : drop_while p b = b -> drop_while p (a ++ b) = drop_while p a ++ b.
Proof. intros H. induction a as [|c a IH]; [done|]. cbn. by destruct (p c). Qed.

Lemma drop_while_forallb p q l : forallb q l = true -> forallb q (drop_while p l) = true.
Proof. induction l as [|c l IH]; [done|]. cbn. intros [H1 H2]%andb_true_iff. destruct (p c); [by apply IH|]. cbn. by rewrite H1. Qed.

Lemma span_all p a b : forallb p a = true -> match b with [] => True | c :: _ => p c = false end -> span p (a ++ b) = (a, b).
Proof.
  intros HA HB. induction a as [|c a IH].
  - destruct b as [|c b]; [done|]. cbn. by rewrite HB.
  - cbn in *. apply andb_true_iff in HA as [-> HA]. by rewrite IH.
Qed.

(** Both services read the same number off a name. *)
Lemma same_number name m n : FindSubmatch testcaseFilePattern (chars name) = Some m -> test_number (capture m 1) = Some n ->
  exists d input, testcase_file name = Some (d, input) /\ ParseInt d = Some n /\ capture m 2 = infix input.
Proof.
  intros (digits & input & E & HN & HD & E1 & E2)%upload_name HT. rewrite E1 in HT. unfold test_number in HT.
  destruct (ParseInt (str digits)) as [v|] eqn:EP; [|done]. destruct (Z.leb_spec v 0); [done|]. injection HT as ->.
  set (s := drop_while (is_byte 48) digits).
  assert (forallb is_digit s = true) as HS by (by apply drop_while_forallb).
  rewrite ParseInt_digits in EP by done. unfold parse_all in EP.
  assert (s <> []) as HNE.
  { intros H0. rewrite <- leading_zeros in EP. fold s in EP. rewrite H0 in EP. cbn in EP. by injection EP as <-. }
  exists (str s), input. split_and!; [|rewrite ParseInt_digits by done; unfold parse_all, s; by rewrite leading_zeros|done].
  unfold testcase_file. rewrite E, drop_while_app by (by destruct input). fold s.
  rewrite span_all; [|done|by destruct input]. rewrite bool_decide_eq_false_2 by done. destruct input; reflexivity.
Qed.

(** ** The sets of numbers *)

(** The numbers of the inputs, or of the outputs, among some names. *)
Definition numbers (input : bool) (names : list string) : list Z :=
  omap (fun name => match testcase_file name with
                    | Some (d, b) => if Bool.eqb b input then ParseInt d else None
                    | None => None end) names.

Lemma numbers_cons input name rest d b n : testcase_file name = Some (d, b) -> ParseInt d = Some n ->
  numbers input (name :: rest) = if Bool.eqb b input then n :: numbers input rest else numbers input rest.
Proof. intros E1 E2. unfold numbers. cbn. rewrite E1, E2. by destruct (Bool.eqb b input). Qed.

Definition readable (name : string) : Prop := forall d b, testcase_file name = Some (d, b) -> is_Some (ParseInt d).

Lemma scan_numbers files total inSet outSet inSet' outSet' : scan_files files total inSet outSet = inr (inSet', outSet') ->
  let names := map ZfName files in
  inSet' = list_to_set (numbers true names) ∪ inSet /\ outSet' = list_to_set (numbers false names) ∪ outSet
  /\ Forall readable names.
Proof.
  revert total inSet outSet. induction files as [|f files IH]; intros total inSet outSet H.
  - injection H as <- <-. cbn. split_and!; [set_solver|set_solver|constructor].
  - cbn [scan_files] in H. destruct (ZfIsDir f); [done|]. destruct (_ || _); [done|]. destruct (_ <? _); [done|].
    destruct (FindSubmatch _ _) as [m|] eqn:EM; [|done]. destruct (test_number _) as [n|] eqn:EN; [|done].
    destruct (same_number _ _ _ EM EN) as (d & b & E1 & E2 & E3). cbn [map].
    assert (readable (ZfName f)) as HR by (intros d' b' E; rewrite E1 in E; injection E as <- <-; by rewrite E2).
    rewrite !(numbers_cons _ _ _ d b n) by done. rewrite E3 in H. destruct b.
    + rewrite bool_decide_eq_true_2 in H by done. case_bool_decide; [done|]. apply IH in H as (-> & -> & H3). cbn.
      split_and!; [set_solver|done|by constructor].
    + rewrite bool_decide_eq_false_2 in H by done. case_bool_decide; [done|]. apply IH in H as (-> & -> & H3). cbn.
      split_and!; [done|set_solver|by constructor].
Qed.

Lemma consecutive_spec k l : consecutive k l = None -> l = seqZ k (Z.of_nat (length l)).
Proof.
  revert k. induction l as [|n l IH]; intros k; [done|]. cbn [consecutive]. destruct (Z.eqb_spec n k) as [->|]; [|done].
  intros H. cbn [length]. rewrite seqZ_cons by lia. f_equal. rewrite (IH _ H) at 1. f_equal; lia.
Qed.

(** The accepted names are {1, ..., n}.in and {1, ..., n}.out. *)
Lemma validated_numbers files n : validate_files files = inr n ->
  let names := map ZfName files in
  0 < n /\ Forall readable names
  /\ (forall i, i ∈ numbers true names <-> 1 <= i <= n) /\ (forall i, i ∈ numbers false names <-> 1 <= i <= n).
Proof.
  unfold validate_files. destruct (_ =? 0)%nat; [done|]. destruct (_ <? _); [done|].
  destruct (scan_files _ _ _ _) as [e|[a b]] eqn:ES; [done|]. apply scan_numbers in ES as (Ha & Hb & HR). cbv zeta.
  rewrite !(right_id_L ∅ (∪)) in Ha, Hb.
  destruct (Z.eqb_spec (Z.of_nat (size a)) 0) as [|H0]; [done|]. destruct (Z.eqb_spec (Z.of_nat (size a)) (Z.of_nat (size b))) as [HZ|]; cbn [negb]; [|done].
  destruct (elements (a ∖ b)) as [|] eqn:EE; [|done]. destruct (consecutive 1 _) eqn:EC; [done|]. intros [= <-].
  apply elements_empty_inv in EE. assert (a ⊆ b) as HS by set_solver.
  assert (a = b) as HAB by (apply set_subseteq_size_eq; [done|lia]).
  apply consecutive_spec in EC. unfold sorted_numbers in EC.
  assert (forall i, i ∈ a <-> 1 <= i <= Z.of_nat (size a)) as HA.
  { intros i. rewrite <- elem_of_elements, <- (merge_sort_Permutation Z.le (elements a)), EC, elem_of_seqZ.
    rewrite (Permutation_length (merge_sort_Permutation Z.le (elements a))). change (length (elements a)) with (size a). lia. }
  split_and!; [lia|done| |].
  - intros i. rewrite <- HA, Ha. symmetry. apply elem_of_list_to_set.
  - intros i. rewrite <- HA, HAB, Hb. symmetry. apply elem_of_list_to_set.
Qed.

(** ** The loader on the extracted files *)

(** The names of the entries of a directory that are files. *)
Definition file_names (entries : list (string * bool)) : list string :=
  omap (fun e => if e.2 : bool then None else Some e.1) entries.

Lemma classify_numbers dir entries inputs outputs : Forall readable (file_names entries) ->
  exists inputs' outputs', classify dir entries inputs outputs = inr (inputs', outputs')
    /\ dom inputs' = list_to_set (numbers true (file_names entries)) ∪ dom inputs
    /\ dom outputs' = list_to_set (numbers false (file_names entries)) ∪ dom outputs.
Proof.
  revert inputs outputs. induction entries as [|[name b] rest IH]; intros inputs outputs H.
  - exists inputs, outputs. cbn. split_and!; [done|set_solver|set_solver].
  - cbn [classify]. destruct b; [by apply IH|]. cbn in H. apply Forall_cons in H as [HR H].
    change (file_names ((name, false) :: rest)) with (name :: file_names rest).
    destruct (testcase_file name) as [[d input]|] eqn:E.
    + destruct (HR _ _ E) as [i Hi]. rewrite Hi. rewrite !(numbers_cons _ _ _ d input i) by done. cbv zeta.
      destruct input; cbn [Bool.eqb].
      * destruct (IH (<[i:=join dir name]> inputs) outputs H) as (I & O & E1 & E2 & E3). exists I, O.
        rewrite E1, E2, E3. unfold paths in *. split_and!; [done|rewrite dom_insert_L; cbn; set_solver|done].
      * destruct (IH inputs (<[i:=join dir name]> outputs) H) as (I & O & E1 & E2 & E3). exists I, O.
        rewrite E1, E2, E3. unfold paths in *. split_and!; [done|done|rewrite dom_insert_L; cbn; set_solver].
    + destruct (IH inputs outputs H) as (I & O & E1 & E2 & E3). exists I, O. rewrite E1, E2, E3. unfold numbers. cbn. rewrite E. done.
Qed.

Lemma lacking_none (a b : paths) : dom a ⊆ dom b -> lacking a b = None.
Proof.
  intros HS. unfold lacking. destruct (find_first _ _) as [i|] eqn:E; [|done]. exfalso.
  assert (forall (p : Z -> bool) l x, find_first p l = Some x -> x ∈ l /\ p x = true) as FF.
  { intros p l x. induction l as [|y l IH]; [done|]. cbn. destruct (p y) eqn:Ep; [intros [= ->]; split; [by left|done]|].
    intros H. apply IH in H as [H1 H2]. split; [by right|done]. }
  apply FF in E as [HI HN]. apply negb_true_iff, bool_decide_eq_false in HN. apply HN. apply elem_of_dom, HS, elem_of_dom.
  apply list_elem_of_fmap in HI as ([j p] & -> & Hj%elem_of_map_to_list). by exists p.
Qed.

Lemma sorted_unique (l k : list Z) : StronglySorted Z.lt l -> StronglySorted Z.lt k -> (forall i, i ∈ l <-> i ∈ k) -> l = k.
Proof.
  revert k. induction l as [|x l IH]; intros k Hl Hk HE.
  - destruct k as [|y k]; [done|]. assert (y ∈ @nil Z) as H by (apply HE; by left). by apply elem_of_nil in H.
  - destruct k as [|y k]; [assert (x ∈ @nil Z) as H by (apply HE; by left); by apply elem_of_nil in H|].
    apply StronglySorted_inv in Hl as [Hl Fl], Hk as [Hk Fk]. rewrite Forall_forall in Fl, Fk.
    assert (x = y) as ->.
    { assert (x ∈ y :: k) as [->|H1]%elem_of_cons by (apply HE; by left); [done|].
      assert (y ∈ x :: l) as [->|H2]%elem_of_cons by (apply HE; by left); [done|]. apply Fk in H1. apply Fl in H2. lia. }
    f_equal. apply IH; [done|done|]. intros i. split; intros Hi.
    + assert (i ∈ y :: k) as [->|H]%elem_of_cons by (apply HE; by right); [apply Fl in Hi; lia|done].
    + assert (i ∈ y :: l) as [->|H]%elem_of_cons by (apply HE; by right); [apply Fk in Hi; lia|done].
Qed.

Lemma seqZ_sorted n k : StronglySorted Z.lt (seqZ k n).
Proof.
  assert (forall m k, StronglySorted Z.lt (seqZ k (Z.of_nat m))) as H.
  { intros m. induction m as [|m IH]; intros j; [constructor|]. rewrite seqZ_cons by lia. replace (Z.pred (Z.of_nat (S m))) with (Z.of_nat m) by lia.
    constructor; [apply IH|]. apply Forall_forall. intros i Hi%elem_of_seqZ. lia. }
  destruct (Z.le_ge_cases 0 n); [replace n with (Z.of_nat (Z.to_nat n)) by lia; apply H|]. rewrite seqZ_nil by lia. constructor.
Qed.

Lemma pairs_of (inputs outputs : paths) n : 0 <= n -> (forall i, i ∈ dom inputs <-> 1 <= i <= n) -> (forall i, i ∈ dom outputs <-> 1 <= i <= n) ->
  pair_files n inputs outputs = inr (seqZ 1 n).
Proof.
  intros H0 HI HO. unfold pair_files. rewrite !lacking_none by (intros i; rewrite HI, HO; done).
  destruct (indexes_spec inputs) as [S1 S2].
  assert (indexes inputs = seqZ 1 n) as ->.
  { apply sorted_unique; [done|apply seqZ_sorted|]. intros i. rewrite S2, elem_of_seqZ. unfold paths in *. rewrite <- elem_of_dom, HI. lia. }
  cbv zeta. rewrite length_seqZ. replace (Z.of_nat (Z.to_nat n)) with n by lia. by rewrite Z.eqb_refl.
Qed.

Lemma numbers_app input a b : numbers input (a ++ b) = numbers input a ++ numbers input b.
Proof. apply omap_app. Qed.

Lemma other_files others : Forall (fun e : string * bool => e.2 = true \/ testcase_file e.1 = None) others ->
  Forall readable (file_names others) /\ forall input, numbers input (file_names others) = [].
Proof.
  induction 1 as [|[name b] others [Hb|HN] _ [IH1 IH2]]; cbn in *; [done|subst b; by split|].
  destruct b; [by split|]. split; [constructor; [intros d i E; by rewrite HN in E|done]|].
  intros input. unfold numbers in *. cbn. rewrite HN. apply IH2.
Qed.

Lemma loadable files n dir entries others : validate_files files = inr n ->
  entries ≡ₚ map (fun f => (f.(ZfName), false)) files ++ others ->
  Forall (fun e : string * bool => e.2 = true \/ testcase_file e.1 = None) others ->
  exists inputs outputs, classify dir entries ∅ ∅ = inr (inputs, outputs) /\ pair_files n inputs outputs = inr (seqZ 1 n).
Proof.
  intros HV HP (OR & ON)%other_files. apply validated_numbers in HV as (Hn & HR & HI & HO).
  assert (file_names entries ≡ₚ map ZfName files ++ file_names others) as HN.
  { unfold file_names. rewrite HP, omap_app. f_equiv. clear. induction files as [|f files IH]; [done|]. cbn. by constructor. }
  assert (Forall readable (file_names entries)) as HRE by (rewrite HN; by apply Forall_app).
  assert (forall input i, i ∈ numbers input (file_names entries) <-> i ∈ numbers input (map ZfName files)) as HE.
  { intros input i. unfold numbers. rewrite HN. fold (numbers input (map ZfName files ++ file_names others)).
    by rewrite numbers_app, ON, app_nil_r. }
  destruct (classify_numbers dir entries ∅ ∅ HRE) as (I & O & E & DI & DO). exists I, O. split; [done|].
  apply pairs_of; [lia| |]; unfold paths in *.
  - intros i. rewrite DI, dom_empty_L, (right_id_L ∅ (∪)), elem_of_list_to_set, HE. apply HI.
  - intros i. rewrite DO, dom_empty_L, (right_id_L ∅ (∪)), elem_of_list_to_set, HE. apply HO.
Qed.
