(* ===== verification/ProblemAccess.v ===== *)
(** Who may submit to which problem: the reference decision on the catalogue;
    histories of the catalogue and of an entry of the cache, in which commits,
    invalidations and other loads come between any two calls ([step]); that both
    use cases of ProblemEligibility.v take the decision on a catalogue of the
    history, and how old it is; that an entry in Redis reads back what was
    stored. *)

From S2P Require Import Prelude GoString GoError GoMonad GoTime JsonDecode JudgeMessages SubmissionDomain ProblemDomain ProblemAdmin ProblemTestcases Redis ProblemEligibility PgProblems ProblemStore PgCatalogue.

(** ** The decision *)

(** Everybody may see what is public, contributors what they have written,
    moderators everything. *)
Definition access_rule (p : SubmissionProblem) (user : string) (role : Role) : bool :=
  negb p.(SpIsHidden) || AtLeast role RoleModerator || (bool_decide (role = RoleContributor) && bool_decide (p.(SpAuthorID) = user)).

Lemma access_ruled md user role : canAccessProblemState md.(SpIsHidden) md.(SpAuthorID) user role = access_rule md user role.
Proof.
  unfold canAccessProblemState, access_rule, AtLeast, Level. destruct (SpIsHidden md); cbn [negb orb]; [|done].
  destruct (decide (role = RoleContributor)) as [->|N1]; [by destruct (bool_decide (SpAuthorID md = user))|].
  rewrite (bool_decide_eq_false_2 _ N1). destruct (decide (role = RoleModerator)) as [->|N2]; [done|].
  destruct (decide (role = RoleAdmin)) as [->|N3]; [done|]. rewrite (bool_decide_eq_false_2 _ N2), (bool_decide_eq_false_2 _ N3).
  by destruct (bool_decide (role = RoleUser)).
Qed.

Definition decide_access (m : catalogue) (req : GetProblemRequest) : error + EligibleProblem :=
  match validateProblemActorRequest req with
  | Some e => inl e
  | None =>
      match m.(c_problems) !! req.(GpProblemID) with
      | Some p => if live p && access_rule (projection p) (TrimSpace req.(GpActorUserID)) req.(GpActorRole)
                  then inr (eligible (projection p)) else inl ErrProblemNotFound
      | None => inl ErrProblemNotFound
      end
  end.

(** An outage of a store, or the end of the request. *)
Definition outage (e : error) : error := if is_context_error e then e else Wrap ErrInternalServer e.

Definition answers (m : catalogue) (req : GetProblemRequest) (r : error + EligibleProblem) : Prop :=
  r = decide_access m req \/ exists e, foreign e /\ r = inl (outage e).

(** What a read of one problem finds. *)
Definition current_row (m : catalogue) (id : Z) (md : SubmissionProblem) : Prop :=
  exists p, m.(c_problems) !! id = Some p /\ live p = true /\ p.(PbID) = id /\ md = projection p.
Definition no_current_row (m : catalogue) (id : Z) : Prop := forall p, m.(c_problems) !! id = Some p -> live p = false.

Definition read_result {A} (view : A -> SubmissionProblem -> Prop) (m : catalogue) (id : Z) (r : error + A) : Prop :=
  match r with
  | inr a => exists md, current_row m id md /\ view a md
  | inl e => foreign e \/ (e = ErrProblemNotFound /\ no_current_row m id)
  end.

Lemma mapped_foreign e : foreign e -> mapSubmissionProblemReadError e = outage e.
Proof.
  intros [_ F]. unfold mapSubmissionProblemReadError, outage, ErrProblemNotFound. destruct (is_context_error e); [done|]. by rewrite F.
Qed.

Lemma decided_row m req md : validateProblemActorRequest req = None -> current_row m req.(GpProblemID) md ->
  decide_access m req
  = if canAccessProblemState md.(SpIsHidden) md.(SpAuthorID) (TrimSpace req.(GpActorUserID)) req.(GpActorRole)
    then inr (eligible md) else inl ErrProblemNotFound.
Proof. intros V (p & HP & HL & _ & ->). unfold decide_access. by rewrite V, HP, HL, access_ruled. Qed.

Lemma decided_none m req : validateProblemActorRequest req = None -> no_current_row m req.(GpProblemID) ->
  decide_access m req = inl ErrProblemNotFound.
Proof.
  intros V N. unfold decide_access. rewrite V. destruct (_ !! _) as [p|] eqn:E; [|done]. by rewrite (N _ E).
Qed.

(** A read that failed, seen by the user. *)
Lemma answers_failed m req e : validateProblemActorRequest req = None -> foreign e \/ (e = ErrProblemNotFound /\ no_current_row m req.(GpProblemID)) ->
  answers m req (inl (mapSubmissionProblemReadError e)).
Proof.
  intros V [F|[-> N]].
  - right. exists e. split; [done|]. by rewrite mapped_foreign.
  - left. by rewrite decided_none.
Qed.

(** What a read of the full problem gives the use case without a cache; [None]
    is the nil pointer. *)
Definition full_view (o : option Problem) (md : SubmissionProblem) : Prop :=
  exists p, o = Some p /\ IsDeleted p = false /\ projection p = md.

Lemma uncached_answers {W} m (GetByID : Z -> M W (option Problem)) req w r w' :
  (forall q w1, GetByID req.(GpProblemID) w = (q, w1) -> read_result full_view m req.(GpProblemID) q) ->
  getProblem GetByID req w = (r, w') -> answers m req r.
Proof.
  intros HG. unfold getProblem. destruct (validateProblemActorRequest req) as [e|] eqn:V.
  - intros [= <- _]. left. unfold decide_access. by rewrite V.
  - unfold bind, on_error. destruct (GetByID _ w) as [[e|o] w1]; specialize (HG _ _ eq_refl); cbn in HG.
    + intros [= <- _]. by apply answers_failed.
    + destruct HG as (md & HR & p & -> & HD & HP). rewrite HD. cbn [orb]. left. rewrite (decided_row _ _ _ V HR). subst md.
      unfold projection at 1 2. cbn [SpIsHidden SpAuthorID]. destruct (canAccessProblemState _ _ _ _); injection H as <- _; done.
Qed.

(** ** The reads of the repository *)

Section postgres.
Context {W : Type} (db : DB W) (now : M W Time) (text_before : string -> string -> bool)
  (committed working : W -> tables) {DL : DbLaws db committed working now}.
#[local] Notation shown := (PgCatalogue.shown committed).

Lemma shown_current_row w id d : (committed w).(t_problems) !! id = Some d -> d.(ProblemDAO.DeletedAt) = None ->
  current_row (shown w) id (projection (toProblemEntity id d [])).
Proof.
  intros H1 H2. exists (toProblemEntity id d []). unfold PgCatalogue.shown. rewrite cat_problem, H1.
  split_and!; [done| |done|done]. unfold live, IsDeleted. cbn. by rewrite H2.
Qed.

Lemma shown_no_current_row w id : problems_where (fun i _ => i =? id) (committed w) = [] -> no_current_row (shown w) id.
Proof.
  intros N p (d & H & ->)%cat_problem_inv. unfold live, IsDeleted. cbn. destruct (ProblemDAO.DeletedAt d) eqn:E; [done|].
  assert ((id, d) ∈ problems_where (fun i _ => i =? id) (committed w)) as C; [|rewrite N in C; by apply elem_of_nil in C].
  apply problems_where_spec. split_and!; [done|done|]. apply Z.eqb_refl.
Qed.

Lemma pg_full_read id w r w' : (let* p := pg_GetProblemByID db text_before id in ret (Some p)) w = (r, w') ->
  read_result full_view (shown w) id r.
Proof.
  unfold bind. destruct (pg_GetProblemByID db text_before id w) as [[e|p] w1] eqn:E; eapply pg_first_spec in E as [K E]; try exact DL; intros [= <- _].
  - destruct E as [F|[-> N]]; [by left|]. right. split; [done|]. by apply shown_no_current_row.
  - destruct E as ((q & _ & HD & -> & _) & d & H1 & H2%Z.eqb_eq & HP). cbn in HD. rewrite HP in HD. cbn in HD.
    exists (projection (toProblemEntity p.(PbID) d [])). split.
    + rewrite <- H2. by apply shown_current_row.
    + exists p. split; [done|]. rewrite HP. split; [|done]. unfold IsDeleted. cbn. by rewrite HD.
Qed.

Lemma pg_narrow_read id w r w' : GetSubmissionProblem db id w = (r, w') ->
  shown w' = shown w /\ read_result eq (shown w) id r.
Proof.
  unfold GetSubmissionProblem, bind. destruct (on_error _ _ w) as [[e|[i d]] w1] eqn:E; intros [= <- <-].
  - apply missing_spec in E as [K E]. split; [unfold PgCatalogue.shown; by rewrite K|]. destruct E as [F|[-> N]]; [by left|]. right. split; [done|].
    by apply shown_no_current_row.
  - apply on_error_inr in E. apply first_spec in E as [K HD]. apply problems_where_spec in HD as (H1 & H2 & H3%Z.eqb_eq). cbn in H1, H2, H3. subst i.
    split; [unfold PgCatalogue.shown; by rewrite K|]. eexists. split; [by apply shown_current_row|done].
Qed.
End postgres.

(** ** The cache in Redis *)

Definition jfloat (ft : FloatText) (f : float64) (lit : bytes) : json * bytes := (JNumber lit, lit).
Definition jbool (b : bool) : json * bytes := (JBool b, json_bool b).

(** What is relied on of [encoding/json] for doubles. *)
Record FloatLaws (ft : FloatText) : Prop := {
  fl_text : forall f lit, ft.(format_float) f = Some lit -> reads (JNumber lit) lit 0;
  fl_value : forall f lit, ft.(format_float) f = Some lit -> ft.(parse_float) lit = Some f;
}.

(** A row as it may stand in the database. *)
Definition metadata_ok (m : SubmissionProblem) : Prop :=
  in_int64 m.(SpID) /\ in_int64 m.(SpMemoryLimit) /\ utf8 m.(SpTitle) /\ utf8 m.(SpSlug) /\ utf8 m.(SpAuthorID).

(** An entry that [decodeSubmissionProblemMetadata] takes. *)
Definition cacheable (m : SubmissionProblem) : bool :=
  negb (blank m.(SpTitle) || blank m.(SpSlug) || float_le0 m.(SpTimeLimit) || (m.(SpMemoryLimit) <=? 0) || blank m.(SpAuthorID)).

Definition metadata_fields (m : SubmissionProblem) (limit : bytes) : list jfield :=
  [("id", Some (jint m.(SpID))); ("title", Some (jstr m.(SpTitle))); ("slug", Some (jstr m.(SpSlug)));
   ("time_limit", Some (JNumber limit, limit)); ("memory_limit", Some (jint m.(SpMemoryLimit)));
   ("author_id", Some (jstr m.(SpAuthorID))); ("is_hidden", Some (jbool m.(SpIsHidden)))]%string.
Definition metadata_names : list string := ["id"; "title"; "slug"; "time_limit"; "memory_limit"; "author_id"; "is_hidden"]%string.

Lemma metadata_names_ok : distinct_names metadata_names = true /\ forallb (fun n => valid_utf8 (chars n)) metadata_names = true.
Proof. split; vm_compute; reflexivity. Qed.

Lemma jbool_reads k b : field_reads 0 (k, Some (jbool b)).
Proof. intros [|f] d rest Hf _ S; [by destruct b; cbn in Hf; lia|]. by destruct b. Qed.

Section entries.
Context (ft : FloatText) (FL : FloatLaws ft).

Lemma decode_marshalled m encoded : metadata_ok m -> marshal_metadata ft m = Some encoded ->
  decode_payload ft encoded = Some (mkPayload (Some m.(SpID)) (Some m.(SpTitle)) (Some m.(SpSlug)) (Some m.(SpTimeLimit))
    (Some m.(SpMemoryLimit)) (Some m.(SpAuthorID)) (Some m.(SpIsHidden))).
Proof.
  intros (I1 & I2 & U1 & U2 & U3). unfold marshal_metadata. destruct (format_float ft _) as [limit|] eqn:EF; [|done]. intros <-%(inj Some).
  destruct metadata_names_ok as [D V].
  change (json_object _) with (json_object (map (fun f : jfield => (f.1, snd <$> f.2)) (metadata_fields m limit))).
  unfold decode_payload. rewrite (unmarshal_written _ _ _ 0%nat); [| |done|unfold max_depth; lia].
  2: { repeat (apply Forall_cons_2; [first [by apply jint_reads|apply jstr_reads|apply jbool_reads|exact (fl_text _ FL _ _ EF)]|]). apply Forall_nil_2. }
  unfold payload_of_members.
  assert (forall i name o, metadata_fields m limit !! i = Some (name, o) -> values_of name (map member_of (present (metadata_fields m limit))) = given_value o) as G.
  { intros i name o Hi. rewrite values_of_written by (by apply names_valid). by apply (given_nth _ i). }
  rewrite (G 0%nat _ _ eq_refl), (G 1%nat _ _ eq_refl), (G 2%nat _ _ eq_refl), (G 3%nat _ _ eq_refl), (G 4%nat _ _ eq_refl),
    (G 5%nat _ _ eq_refl), (G 6%nat _ _ eq_refl).
  rewrite (decoded _ _ _ (pointer_one dec_int None _ _ (dec_int_written _ I1) ltac:(done))).
  rewrite (decoded _ _ _ (pointer_one dec_string None _ _ (dec_string_written _ U1) ltac:(done))).
  rewrite (decoded _ _ _ (pointer_one dec_string None _ _ (dec_string_written _ U2) ltac:(done))).
  rewrite (decoded _ _ _ (pointer_one (dec_float ft) None (JNumber limit) _ (fl_value _ FL _ _ EF) ltac:(done))).
  rewrite (decoded _ _ _ (pointer_one dec_int None _ _ (dec_int_written _ I2) ltac:(done))).
  rewrite (decoded _ _ _ (pointer_one dec_string None _ _ (dec_string_written _ U3) ltac:(done))).
  rewrite (decoded _ _ _ (pointer_one dec_bool None (JBool m.(SpIsHidden)) _ eq_refl ltac:(done))). done.
Qed.

Lemma entry_decoded id m encoded : metadata_ok m -> marshal_metadata ft m = Some encoded ->
  decodeSubmissionProblemMetadata ft id encoded
  = if (m.(SpID) =? id) && cacheable m then inr m else inl (EText "invalid submission problem cache entry").
Proof.
  intros OK H. unfold decodeSubmissionProblemMetadata. rewrite (decode_marshalled m) by done. cbn [PyID PyTitle PySlug PyTimeLimit PyMemoryLimit PyAuthorID PyIsHidden].
  unfold cacheable. destruct (SpID m =? id); cbn [negb orb andb]; [|done].
  destruct (_ || _) eqn:E; [done|]. by destruct m.
Qed.
End entries.

(** ** Histories

    The catalogues since some moment, the newest first, each with the time of
    the commit that made it. *)
Definition log : Type := list (Z * catalogue).

(** [m] was the catalogue at the moment [u], no later than [until]. *)
Fixpoint stood (past : log) (until : Z) (m : catalogue) (u : Z) : Prop :=
  match past with
  | [] => False
  | (t, m') :: rest => (m' = m /\ t <= u <= until) \/ stood rest t m u
  end.

Lemma stood_later past c c' m u : stood past c m u -> c <= c' -> stood past c' m u.
Proof. destruct past as [|[t m'] rest]; [done|]. intros [[-> H]|H] L; [left; split; [done|lia]|by right]. Qed.

(** The life of an entry, in the milliseconds of the server's clock. *)
Definition cache_ttl : Z := 5000.

Section histories.
Context {S : Type} `{RedisLaws S} (ft : FloatText) (FL : FloatLaws ft) (id lag since : Z).
Hypothesis HID : in_int64 id.
#[local] Notation key := (submissionProblemKey id).
#[local] Notation state := (S * log)%type.

(** What all processes together do to the database and to the entry of the
    problem [id]: time passes, a transaction commits, some other key changes,
    an invalidation reaches the server, and a load that read the row at most
    [lag] ago, after [since], stores it.  A transaction whose invalidation fails
    or is still under way has no step for it. *)
Inductive step : state -> state -> Prop :=
| step_later s s' past : later s s' -> step (s, past) (s', past)
| step_commit s past m : step (s, past) (s, (clock s, m) :: past)
| step_keys s s' past : clock s' = clock s -> raw s' !! key = raw s !! key -> step (s, past) (s', past)
| step_delete s past : step (s, past) (DEL key s, past)
| step_set s past m u md encoded : metadata_ok md -> current_row m id md -> stood past (clock s) m u ->
    since <= u -> clock s - lag <= u -> marshal_metadata ft md = Some encoded ->
    step (s, past) (SET key encoded (px submissionProblemCacheTTL) s, past).
#[local] Notation steps := (rtc step).

(** At some moment from [lo] on the catalogue was as [P] says. *)
Definition seen (lo : Z) (st : state) (P : catalogue -> Prop) : Prop :=
  exists m u, lo <= u /\ stood st.2 (clock st.1) m u /\ P m.

(** The catalogue has a current state. *)
Definition begun (st : state) : Prop := exists t m rest, st.2 = (t, m) :: rest /\ t <= clock st.1.

(** The entry, if it is alive, is a row that stood when it was loaded. *)
Definition recent (st : state) : Prop := forall v e md, find_entry key st.1 = Some (v, e) ->
  decodeSubmissionProblemMetadata ft id v = inr md ->
  exists t, e = Some t /\ seen (Z.max since (t - lag - cache_ttl)) st (fun m => current_row m id md).

Lemma step_clock st st' : step st st' -> clock st.1 <= clock st'.1.
Proof.
  destruct 1; cbn; [by destruct H1|lia|lia| |]; [destruct (del_law key s) as [-> _]|destruct (set_law key encoded (px submissionProblemCacheTTL) s) as [-> _]]; lia.
Qed.
Lemma step_seen lo P st st' : step st st' -> seen lo st P -> seen lo st' P.
Proof.
  intros ST (m & u & L & U & HP). exists m, u. split_and!; [done| |done]. pose proof (step_clock _ _ ST) as C.
  destruct ST; cbn in *; try (by eapply stood_later). by right.
Qed.
Lemma seen_weaken lo lo' (P Q : catalogue -> Prop) st : lo' <= lo -> (forall m, P m -> Q m) -> seen lo st P -> seen lo' st Q.
Proof. intros L PQ (m & u & LU & U & HP). exists m, u. split_and!; [lia|done|by apply PQ]. Qed.

Lemma steps_clock st st' : steps st st' -> clock st.1 <= clock st'.1.
Proof. induction 1 as [|? ? ? H1%step_clock]; lia. Qed.
Lemma steps_seen lo P st st' : steps st st' -> seen lo st P -> seen lo st' P.
Proof. induction 1 as [|? ? ? H1 _ IH]; [done|]. intros HS. by eapply IH, step_seen. Qed.
Lemma seen_now lo st (P : catalogue -> Prop) : begun st -> lo <= clock st.1 -> (forall m, P m) -> seen lo st P.
Proof. intros (t & m & rest & E & T) L HP. exists m, (clock st.1). split_and!; [done| |done]. rewrite E. by left. Qed.

Lemma later_entry s s' k e : later s s' -> find_entry k s' = Some e -> find_entry k s = Some e.
Proof.
  intros [HR HC]. unfold find_entry. rewrite HR. destruct (raw s !! k) as [[v [t|]]|]; [|done|done]. unfold alive. cbn [snd].
  destruct (Z.ltb_spec (clock s') t); [|done]. intros [= <-]. by rewrite (proj2 (Z.ltb_lt _ _)) by lia.
Qed.

Lemma step_recent st st' : step st st' -> recent st -> recent st'.
Proof.
  intros ST R v e md HF HE.
  assert (find_entry key st.1 = Some (v, e) -> exists t, e = Some t /\ seen (Z.max since (t - lag - cache_ttl)) st' (fun m => current_row m id md)) as OLD.
  { intros HO. destruct (R _ _ _ HO HE) as (t & -> & HS). exists t. split; [done|]. by eapply step_seen. }
  destruct ST as [s s' past L|s past m|s s' past C K|s past|s past m u md' encoded OK CR U LO LG EM]; cbn [fst] in *; auto.
  - apply OLD. by eapply later_entry.
  - apply OLD. unfold find_entry in *. by rewrite K, C in HF.
  - destruct (del_law key s) as [_ E]. unfold find_entry in HF. by rewrite E, lookup_delete_eq in HF.
  - destruct (set_law key encoded (px submissionProblemCacheTTL) s) as [C E]. unfold find_entry in HF. rewrite E, lookup_insert_eq in HF.
    destruct (alive _ _); [|done]. injection HF as <- <-. rewrite (entry_decoded ft FL _ md') in HE by done.
    destruct (_ && _); [|done]. injection HE as <-. exists (clock s + cache_ttl). split; [done|].
    exists m, u. split_and!; [lia| |done]. cbn [fst snd]. by rewrite C.
Qed.

Lemma steps_recent st st' : steps st st' -> recent st -> recent st'.
Proof. induction 1; eauto using step_recent. Qed.

Lemma start_recent st : find_entry key st.1 = None -> recent st.
Proof. intros N v e md HF. by rewrite N in HF. Qed.

(** ** The use cases among the other processes *)

Section calls.
Context {W : Type} (c : client S W) (server : W -> S) (past : W -> log).
Definition obs (w : W) : state := (server w, past w).

(** A command runs at once, with anything before and after; one that reports an
    error may have run. *)
Class SharedClient := {
  sc_do : forall A (f : S -> A * S) w r w', (forall s, clock (f s).2 = clock s) -> Do c f w = (r, w') ->
    match r with
    | inr a => exists s p, steps (obs w) (s, p) /\ steps ((f s).2, p) (obs w') /\ a = (f s).1
    | inl _ => steps (obs w) (obs w') \/ exists s p, steps (obs w) (s, p) /\ steps ((f s).2, p) (obs w')
    end;
}.

Lemma exclusive_shared `{!ClientLaws c server} : (forall A (f : S -> A * S), keeps past (Do c f)) -> SharedClient.
Proof.
  intros HK. split. intros A f w r w' HC E. pose proof (HK _ _ _ _ _ E) as K. apply (do_law (server := server)) in E.
  assert (forall s, ran (server w) s (server w') (f s).2 -> steps (obs w) (s, past w) /\ steps ((f s).2, past w) (obs w')) as ST.
  { intros s (L & R & C). unfold obs. rewrite K. split; apply rtc_once, step_later; [done|]. split; [done|]. by rewrite HC. }
  destruct r as [e|a].
  - destruct E as [L|(s & E%ST)]; [left|right; by exists s, (past w)]. unfold obs. rewrite K. by apply rtc_once, step_later.
  - destruct E as (s & [E1 E2]%ST & ->). by exists s, (past w).
Qed.

Context {SC : SharedClient}.
#[local] Notation cache := (redis_cache ft (Some c)).
#[local] Notation now w := (clock (server w)).

Lemma get_recent w r w' : recent (obs w) -> cache.(CC_Get) id w = (r, w') ->
  steps (obs w) (obs w')
  /\ match r with inr (Some md) => seen (Z.max since (now w - lag - cache_ttl)) (obs w') (fun m => current_row m id md) | _ => True end.
Proof.
  intros R E. cbn in E. unfold cache_Get, Redis.Get, bind, try in E.
  destruct (Do c _ w) as [[e|o] w1] eqn:ED; apply sc_do in ED; try (by intros ?); cbn [fst snd] in ED.
  - assert (steps (obs w) (obs w1)) as ST by (destruct ED as [?|(s & p & ? & ?)]; [done|by etransitivity]).
    assert (w' = w1 /\ forall md, r <> inr (Some md)) as [-> N] by (by destruct (errors_Is e redis_Nil); injection E as <- <-).
    split; [done|]. destruct r as [|[md|]]; [done| |done]. by destruct (N md).
  - destruct ED as (s & p & S1 & S2 & ->). assert (steps (obs w) (obs w1)) as ST by (by etransitivity). rewrite get_law in E.
    destruct (find_entry key s) as [[v t]|] eqn:EF; cbn in E; [|by injection E as <- <-].
    destruct (decodeSubmissionProblemMetadata ft id v) as [e|md] eqn:EC; injection E as <- <-; [done|]. split; [done|].
    destruct (steps_recent _ _ S1 R _ _ _ EF EC) as (t' & -> & HS). eapply steps_seen; [exact S2|]. eapply seen_weaken; [|intros m Hm; exact Hm|exact HS].
    apply steps_clock in S1. cbn in S1. unfold find_entry in EF. destruct (raw s !! key) as [[v' [t''|]]|]; [|by destruct (alive _ _); simplify_eq|done].
    unfold alive in EF. cbn [snd] in EF. destruct (Z.ltb_spec (clock s) t''); [|done]. injection EF as -> ->. lia.
Qed.

Lemma set_steps md w r w' : metadata_ok md -> md.(SpID) = id ->
  seen (Z.max since (now w' - lag)) (obs w) (fun m => current_row m id md) -> cache.(CC_Set) md submissionProblemCacheTTL w = (r, w') ->
  steps (obs w) (obs w').
Proof.
  intros OK EI HS E. cbn in E. unfold cache_Set in E. destruct (marshal_metadata ft md) as [encoded|] eqn:EM; [|by injection E as _ <-].
  unfold Set_ in E. rewrite EI in E. apply sc_do in E; [|by intros s; cbn; destruct (set_law key encoded (px submissionProblemCacheTTL) s)].
  cbn [fst snd] in E.
  assert (forall s p, steps (obs w) (s, p) -> steps (SET key encoded (px submissionProblemCacheTTL) s, p) (obs w') -> steps (obs w) (obs w')) as ST.
  { intros s p S1 S2. transitivity (s, p); [exact S1|]. eapply rtc_l; [|exact S2]. apply (steps_seen _ _ _ _ S1) in HS as (m & u & L & U & CR).
    apply steps_clock in S2. destruct (set_law key encoded (px submissionProblemCacheTTL) s) as [C _]. cbn in S2. rewrite C in S2.
    cbn [fst snd obs] in *. apply (step_set s p m u md encoded); [done|done|done|lia|lia|done]. }
  destruct r as [e|u]; [destruct E as [E|(s & p & S1 & S2)]; [done|]|destruct E as (s & p & S1 & S2 & _)]; by eapply ST.
Qed.

(** An invalidation that succeeds has passed a moment without an entry. *)
Lemma delete_clears w w' : cache.(CC_Delete) id w = (inr tt, w') ->
  exists st, steps (obs w) st /\ find_entry key st.1 = None /\ steps st (obs w').
Proof.
  intros E. cbn in E. unfold cache_Delete, Del in E. apply sc_do in E; [|by intros s; cbn; destruct (del_law key s)].
  destruct E as (s & p & S1 & S2 & _). cbn in S2. exists (DEL key s, p). split_and!; [|
    |done].
  - eapply rtc_r; [done|]. apply step_delete.
  - destruct (del_law key s) as [_ E]. cbn. unfold find_entry. by rewrite E, lookup_delete_eq.
Qed.

(** ** The decision among the other processes

    [start] is where the history begins.  A read of the database sees a
    catalogue that stood during the call; a load is over after [lag]; the load
    that a caller waits for is its own, or another caller's which began earlier
    in the same history and was not over yet. *)
Context (start : state) (GetByID : Z -> M W (option Problem)) (GetSubmissionProblem : Z -> M W SubmissionProblem)
  (ctx_Err : M W (option error)) (DoChan : string -> M W SubmissionProblem -> M W SubmissionProblem).
#[local] Notation load := (load_problem GetSubmissionProblem cache).

Record ReadLaws : Prop := {
  rl_lag : 0 <= lag;
  rl_begun : forall w, begun (obs w);
  rl_full : forall w r w', GetByID id w = (r, w') ->
    steps (obs w) (obs w') /\ seen (now w) (obs w') (fun m => read_result full_view m id r);
  rl_read : forall w r w', GetSubmissionProblem id w = (r, w') ->
    steps (obs w) (obs w') /\ seen (now w) (obs w') (fun m => read_result eq m id r)
    /\ match r with inr md => metadata_ok md | inl _ => True end;
  rl_ctx : forall w r w', ctx_Err w = (r, w') ->
    steps (obs w) (obs w') /\ match r with inr (Some e) | inl e => foreign e | inr None => True end;
  rl_timely : forall w r w', load id w = (r, w') -> now w' <= now w + lag;
  rl_chan : forall w r w', DoChan (submissionProblemSingleflightKey id) (load id) w = (r, w') ->
    (exists w1 w2, steps (obs w) (obs w1) /\ load id w1 = (r, w2) /\ steps (obs w2) (obs w'))
    \/ (exists w1 w2, steps start (obs w1) /\ now w <= now w1 + lag /\ load id w1 = (r, w2) /\ steps (obs w2) (obs w') /\ steps (obs w) (obs w'))
    \/ (exists e, r = inl e /\ foreign e /\ steps (obs w) (obs w'));
}.
Hypothesis RL : ReadLaws.
Hypothesis empty : find_entry key start.1 = None.
Hypothesis since_start : since = clock start.1.

Lemma reached_recent w : steps start (obs w) -> recent (obs w).
Proof. intros S0. eapply steps_recent; [exact S0|]. by apply start_recent. Qed.
Lemma reached_since w : steps start (obs w) -> since <= now w.
Proof. intros S0%steps_clock. rewrite since_start. exact S0. Qed.
Lemma ttl_positive : 0 <= cache_ttl.
Proof. by apply Z.leb_le. Qed.

(** What a load gives, and how old it is. *)
Definition loaded (lo : Z) (w : W) (r : error + SubmissionProblem) (w' : W) : Prop :=
  steps (obs w) (obs w') /\ seen (Z.max since lo) (obs w') (fun m => read_result eq m id r).

Lemma foreign_loaded lo w e w' : steps start (obs w) -> steps (obs w) (obs w') -> foreign e -> lo <= now w -> loaded lo w (inl e) w'.
Proof.
  intros S0 S1 F L. split; [done|]. apply seen_now; [apply (rl_begun RL)| |by left].
  apply reached_since in S0. apply steps_clock in S1. cbn in *. lia.
Qed.

Lemma hit_loaded w w' md : seen (Z.max since (now w - lag - cache_ttl)) (obs w') (fun m => current_row m id md) ->
  steps (obs w) (obs w') -> loaded (now w - lag - cache_ttl) w (inr md) w'.
Proof. intros HS S1. split; [done|]. eapply seen_weaken; [done| |exact HS]. intros m HM. by exists md. Qed.

Lemma load_reads w r w' : steps start (obs w) -> load id w = (r, w') -> loaded (now w - lag - cache_ttl) w r w'.
Proof.
  intros S0 H1. pose proof (rl_timely RL _ _ _ H1) as TM. unfold load_problem, bind, try in H1.
  destruct (CC_Get cache id w) as [r1 w1] eqn:E1. apply get_recent in E1 as [S1 HS]; [|by apply reached_recent].
  assert ((let '(q, w2) := GetSubmissionProblem id w1 in
      match q with
      | inl e => (inl e, w2)
      | inr md => let '(_, w3) := CC_Set cache md submissionProblemCacheTTL w2 in (inr md, w3)
      end) = (r, w') -> loaded (now w - lag - cache_ttl) w r w') as LOAD.
  { destruct (GetSubmissionProblem id w1) as [q w2] eqn:E2. apply (rl_read RL) in E2 as (S2 & R2 & OK).
    pose proof ttl_positive. pose proof (rl_lag RL). pose proof (steps_clock _ _ S1) as C1. pose proof (reached_since _ S0) as C0. cbn in C1.
    destruct q as [e|md].
    - intros [= <- <-]. split; [by etransitivity|]. eapply seen_weaken; [|intros m Hm; exact Hm|exact R2]. lia.
    - destruct (CC_Set _ _ _ w2) as [r2 w3] eqn:E3. intros [= <- <-].
      assert (md.(SpID) = id) as EI by (destruct R2 as (m & u & _ & _ & md' & (p & _ & _ & <- & ->) & ->); done).
      apply set_steps in E3; [|done|done|].
      + split; [by do 2 (etransitivity; [eassumption|])|]. eapply steps_seen; [exact E3|].
        eapply seen_weaken; [|intros m Hm; exact Hm|exact R2]. lia.
      + eapply seen_weaken; [| |exact R2]; [lia|]. by intros m (md' & HR & ->). }
  destruct r1 as [e|[md|]].
  - apply LOAD. by destruct (GetSubmissionProblem id w1) as [[?|?] ?]; [|destruct (CC_Set _ _ _ _)].
  - injection H1 as <- <-. by apply hit_loaded.
  - apply LOAD. by destruct (GetSubmissionProblem id w1) as [[?|?] ?]; [|destruct (CC_Set _ _ _ _)].
Qed.

Lemma get_reads w r w' : steps start (obs w) -> getSubmissionProblem GetSubmissionProblem cache ctx_Err DoChan id w = (r, w') ->
  loaded (now w - 2 * lag - cache_ttl) w r w'.
Proof.
  intros S0 H1. unfold getSubmissionProblem, bind, try in H1. cbv zeta in H1. pose proof (rl_lag RL). pose proof ttl_positive.
  destruct (CC_Get cache id w) as [r1 w1] eqn:E1. apply get_recent in E1 as [S1 HS]; [|by apply reached_recent].
  assert (forall w2, steps (obs w) (obs w2) -> DoChan (submissionProblemSingleflightKey id) (load id) w2 = (r, w') ->
      loaded (now w - 2 * lag - cache_ttl) w r w') as LOAD.
  { intros w2 S2 E. assert (steps start (obs w2)) as S02 by (by etransitivity). pose proof (steps_clock _ _ S2) as C2. cbn in C2.
    apply (rl_chan RL) in E as [(w3 & w4 & S3 & E & S4)|[(w3 & w4 & S3 & L & E & S4 & S5)|(e & -> & F & S3)]].
    - apply load_reads in E as [S5 R5]; [|by etransitivity]. split; [by do 3 (etransitivity; [eassumption|])|].
      eapply steps_seen; [exact S4|]. eapply seen_weaken; [|intros m Hm; exact Hm|exact R5]. apply steps_clock in S3. cbn in S3. lia.
    - apply load_reads in E as [_ R5]; [|done]. split; [by etransitivity|].
      eapply steps_seen; [exact S4|]. eapply seen_weaken; [|intros m Hm; exact Hm|exact R5]. lia.
    - apply foreign_loaded; [done|by etransitivity|done|]. lia. }
  destruct r1 as [e|[md|]].
  - destruct (ctx_Err w1) as [r2 w2] eqn:E2. apply (rl_ctx RL) in E2 as [S2 F].
    destruct r2 as [e'|[e'|]]; [..|apply (LOAD w2); [by etransitivity|done]];
      injection H1 as <- <-; (apply foreign_loaded; [done|by etransitivity|done|lia]).
  - injection H1 as <- <-. apply hit_loaded in HS as [S2 R2]; [|done]. split; [done|].
    eapply seen_weaken; [|intros m Hm; exact Hm|exact R2]. lia.
  - by apply (LOAD w1).
Qed.

Lemma cached_answers req w r w' : req.(GpProblemID) = id -> steps start (obs w) ->
  cachedGetProblem GetSubmissionProblem cache ctx_Err DoChan req w = (r, w') ->
  steps (obs w) (obs w') /\ seen (Z.max since (now w - 2 * lag - cache_ttl)) (obs w') (fun m => answers m req r).
Proof.
  intros HI S0. unfold cachedGetProblem. destruct (validateProblemActorRequest req) as [e|] eqn:V.
  - intros [= <- <-]. split; [done|]. apply seen_now; [apply (rl_begun RL)| |].
    + pose proof (rl_lag RL). pose proof ttl_positive. apply reached_since in S0. cbn. lia.
    + intros m. left. unfold decide_access. by rewrite V.
  - unfold bind, on_error. rewrite HI. destruct (getSubmissionProblem _ _ _ _ _ w) as [[e|md] w1] eqn:E; apply get_reads in E as [S1 R]; try done.
    + intros [= <- <-]. split; [done|]. eapply seen_weaken; [done| |exact R]. intros m HM. apply answers_failed; [done|by rewrite HI].
    + intros HE. assert (w' = w1) as -> by (destruct (negb _) in HE; by injection HE). split; [done|].
      eapply seen_weaken; [done| |exact R]. intros m (md' & HR & <-). left. rewrite (decided_row m req md) by (by rewrite ?HI).
      destruct (canAccessProblemState _ _ _ _); by injection HE as <-.
Qed.

Lemma plain_answers req w r w' : req.(GpProblemID) = id -> getProblem GetByID req w = (r, w') ->
  steps (obs w) (obs w') /\ seen (now w) (obs w') (fun m => answers m req r).
Proof using RL.
  intros HI HE. pose proof HE as HE0. unfold getProblem in HE. destruct (validateProblemActorRequest req) as [e|] eqn:V.
  - injection HE as <- <-. split; [done|]. apply seen_now; [apply (rl_begun RL)|done|]. intros m. left. unfold decide_access. by rewrite V.
  - assert (steps (obs w) (obs w') /\ exists q, GetByID id w = (q, w')) as [S1 [q E]].
    { unfold bind, on_error in HE. rewrite HI in HE. destruct (GetByID id w) as [q w1] eqn:E. pose proof (rl_full RL _ _ _ E) as [S1 _].
      assert (w' = w1) as ->; [|by eauto]. destruct q as [e|[p|]]; [|destruct (_ || _) in HE|]; by injection HE. }
    split; [done|]. pose proof (rl_full RL _ _ _ E) as [_ R]. eapply seen_weaken; [done| |exact R]. intros m HM.
    eapply uncached_answers; [|exact HE0]. rewrite HI, E. by intros q' w1 [= <- _].
Qed.
End calls.
End histories.
