(* ===== verification/ProblemGuarantees.v ===== *)
(** The guarantees of the problem service, and their instances on the world of
    ProblemDemo.v. *)

From S2P Require Import Prelude GoString GoError GoMonad WorkerDomain OfficialLoader AuthDemo GoTime JsonDecode JudgeMessages SubmissionDomain ProblemDomain ProblemAdmin ProblemTestcases Redis ProblemEligibility PgProblems ProblemStore ProblemSlugs ProblemSpec ProblemInvariant PgCatalogue ProblemDemo ProblemArchive ProblemAccess.

(** ** Requests and the catalogue *)

(** C26: whatever a request to the service does, the catalogue in the database
    afterwards is the one before or the one the abstract machine allows for this
    request and these claims: only a contributor creates, only a moderator or the
    author of a hidden problem changes it, only a moderator publishes, and only
    what carries active tags, a tag is switched off only when no published
    problem carries it, a new archive has the next version; and every other row
    stays as it was. *)
Theorem catalogue_refines {W} (db : DB W) now offset lower SQLSTATE ILIKE before text_before Error committed working
    {DL : DbLaws db committed working now} storage cache OpenReader Remove c rq w r w' :
  let shown := shown committed in
  quiet_surroundings shown storage cache OpenReader Remove -> request_quiet shown rq ->
  perform_request (postgres_platform db now offset lower SQLSTATE ILIKE before text_before Error storage cache OpenReader Remove) c rq w
    = (r, w') ->
  catalogue_spec (keep_columns lower) c rq (shown w) (shown w').
Proof.
  cbv zeta. intros Q. pose proof (postgres_PlatformLaws db now offset lower SQLSTATE ILIKE before text_before Error committed working _ _ _ _ Q) as PL.
  by apply (requests_follow_spec _ _ _ (PL := PL)).
Qed.

Definition demo_author : Claims := mkClaims "u1" "ann" RoleContributor 0.
Definition demo_moderator : Claims := mkClaims "u2" "bob" RoleModerator 0.

Definition demo_create : CreateProblemRequest :=
  mkCreateProblem "A + B" "Add." "two numbers" "their sum" "easy" [1] [] [] [] (float_of_Z 0) 0.
Definition demo_new_tag (active : option bool) : CreateTagRequest := mkCreateTag "Math" "" "" active.
Definition demo_history : list (Claims * problem_request pworld) :=
  [(demo_moderator, PqCreateTag (demo_new_tag None)); (demo_author, PqCreate 2 demo_create); (demo_moderator, PqPublish 1)].
Definition demo_created : pworld := serve demo_platform (take 2 demo_history) empty_pworld.
Definition demo_published : pworld * (error + unit) :=
  let '(r, w) := perform_request demo_platform demo_moderator (PqPublish 1) demo_created in (w, r).

Definition demo_row (w : pworld) : option (string * bool * list Z) :=
  match pg_GetProblemByID demo_db (fun _ _ => false) 1 w with
  | (inr p, _) => Some (p.(PbSlug), p.(PbIsHidden), map TagID p.(PbTags))
  | (inl _, _) => None
  end.
Example demo_before : demo_row demo_created = Some ("a-b"%string, true, [1]).
Proof. vm_compute. reflexivity. Qed.
Example demo_after : demo_row demo_published.1 = Some ("a-b"%string, false, [1]).
Proof. vm_compute. reflexivity. Qed.

Lemma catalogue_refines_witness :
  catalogue_spec (keep_columns (fun r => r)) demo_moderator (PqPublish (W := pworld) 1) (demo_catalogue demo_created)
    (demo_catalogue (perform_request demo_platform demo_moderator (PqPublish 1) demo_created).2).
Proof.
  apply (catalogue_refines demo_db tick (fun _ => 0) (fun r => r) (fun _ => None) (fun _ _ => false) (fun _ _ => false) (fun _ _ => false)
    (fun _ => ""%string) committed_tables working_tables demo_storage None (fun _ => ret demo_archive) (fun _ => ret tt)
    demo_moderator (PqPublish 1) demo_created (perform_request demo_platform demo_moderator (PqPublish 1) demo_created).1).
  - exact demo_quiet.
  - exact I.
  - apply surjective_pairing.
Defined.

(** C27: whatever requests are served, in whatever order and by whatever users,
    every row of the database stays well-formed: a problem has a title, a
    description and both formats, one of the three difficulties and a slug of
    lower-case letters, digits and dashes; a tag has a name and such a slug; the
    metadata of testcases announce at least one and name the archive that
    belongs to their version. *)
Theorem rows_stay_typed {W} (pf : platform W) (db : W -> catalogue) keep {PL : PlatformLaws pf db keep} l w :
  Forall (fun r => request_quiet db r.2) l -> well_formed (db w) ->
  let m := db (serve pf l w) in
  (forall i p, m.(c_problems) !! i = Some p -> problem_ok p = true)
  /\ (forall i t, m.(c_tags) !! i = Some t -> tag_ok t = true)
  /\ (forall i c, m.(c_tests) !! i = Some c -> test_ok c = true).
Proof. intros HQ HW. by destruct (serve_well_formed pf db keep l w HQ HW) as [W1 W2 W3 _]. Qed.

Lemma empty_well_formed : well_formed (demo_catalogue empty_pworld).
Proof.
  assert (demo_catalogue empty_pworld = cat no_rows) as -> by reflexivity. split; cbn; try done.
Qed.
Lemma demo_history_quiet : Forall (fun r : Claims * problem_request pworld => request_quiet demo_catalogue r.2) demo_history.
Proof. by repeat constructor. Qed.

Lemma rows_stay_typed_witness : exists p, (demo_catalogue (serve demo_platform demo_history empty_pworld)).(c_problems) !! 1 = Some p
  /\ problem_ok p = true.
Proof.
  destruct (rows_stay_typed demo_platform demo_catalogue _ demo_history empty_pworld demo_history_quiet empty_well_formed) as [HP _].
  destruct (c_problems (demo_catalogue (serve demo_platform demo_history empty_pworld)) !! 1) as [p|] eqn:E; [exists p; split; [done|exact (HP 1 p E)]|].
  apply (f_equal (fun o : option Problem => bool_decide (is_Some o))) in E. vm_compute in E. discriminate E.
Defined.

(** C28: a published problem carries active tags only, after any requests:
    publishing looks at the tags, a tag that a published problem carries is not
    switched off, and an update selects active tags. *)
Theorem published_tags_active {W} (pf : platform W) (db : W -> catalogue) keep {PL : PlatformLaws pf db keep} l w :
  Forall (fun r => request_quiet db r.2) l -> well_formed (db w) ->
  let m := db (serve pf l w) in
  forall i t p, tagged m i t -> m.(c_problems) !! i = Some p -> IsDeleted p = false -> p.(PbIsHidden) = false ->
    exists s, m.(c_tags) !! t = Some s /\ s.(TagIsActive) = true.
Proof.
  intros HQ HW m i t p HT HP HD HH. apply (wf_published _ (serve_well_formed pf db keep l w HQ HW) i t p HT HP); [|done].
  unfold live. by rewrite HD.
Qed.

(** The tag of the published problem cannot be switched off. *)
Definition demo_switch : list (Claims * problem_request pworld) := demo_history ++ [(demo_moderator, PqDeleteTag 1)].
Lemma demo_switch_quiet : Forall (fun r : Claims * problem_request pworld => request_quiet demo_catalogue r.2) demo_switch.
Proof. by repeat constructor. Qed.

Lemma published_tags_active_witness : exists s,
  (demo_catalogue (serve demo_platform demo_switch empty_pworld)).(c_tags) !! 1 = Some s /\ s.(TagIsActive) = true.
Proof.
  destruct (c_problems (demo_catalogue (serve demo_platform demo_switch empty_pworld)) !! 1) as [p|] eqn:E.
  - apply (published_tags_active demo_platform demo_catalogue _ demo_switch empty_pworld demo_switch_quiet empty_well_formed 1 1 p).
    + assert (bool_decide ((1, 1) ∈ (demo_catalogue (serve demo_platform demo_switch empty_pworld)).(c_links)) = true) as HT
        by (vm_compute; reflexivity). by apply bool_decide_eq_true in HT.
    + exact E.
    + assert (IsDeleted <$> (demo_catalogue (serve demo_platform demo_switch empty_pworld)).(c_problems) !! 1 = Some false) as F
        by (vm_compute; reflexivity). rewrite E in F. by injection F.
    + assert (PbIsHidden <$> (demo_catalogue (serve demo_platform demo_switch empty_pworld)).(c_problems) !! 1 = Some false) as F
        by (vm_compute; reflexivity). rewrite E in F. by injection F.
  - apply (f_equal (fun o : option Problem => bool_decide (is_Some o))) in E. vm_compute in E. discriminate E.
Defined.

(** ** Creating problems and tags *)

Lemma create_searching {W} (pf : platform W) (db : W -> catalogue) keep {PL : PlatformLaws pf db keep} fuel c req w w' :
  createProblem pf.(pf_now) pf.(pf_offset) pf.(pf_lower_rune) pf.(pf_problems) pf.(pf_tags) fuel c req w = (inr None, w') ->
  exists base w1 w2, db w1 = db w /\ slug_loop pf.(pf_problems) fuel 1 base w1 = (inr None, w2).
Proof.
  unfold createProblem. destruct (negb _); [done|]. intros H.
  apply bind_inr_inv in H as (title & w1 & [_ ->]%required_inr & H).
  apply bind_inr_inv in H as (description & w2 & [_ ->]%required_inr & H).
  apply bind_inr_inv in H as (inf & w3 & [_ ->]%required_inr & H).
  apply bind_inr_inv in H as (outf & w4 & [_ ->]%required_inr & H).
  apply bind_inr_inv in H as (d & w5 & E5 & H). apply (keeps_lift db) in E5.
  apply bind_inr_inv in H as (ts & w6 & E6 & H).
  apply (resolve_keeps (problems := pf_problems pf) (tests := pf_tests pf) (keep := keep)) in E6.
  apply bind_inr_inv in H as (slug & w7 & E7 & H). destruct slug as [slug|]; [|by exists (slugify pf.(pf_lower_rune) title), w6, w7; split; [congruence|]].
  cbv zeta in H. apply bind_inr_inv in H as (t & w8 & _ & H). apply bind_inr_inv in H as (t' & w9 & _ & H).
  apply bind_inr_inv in H as (p & w10 & _ & H). discriminate H.
Qed.

(** The search for a free slug ends: with more attempts than there are
    problems in the database, deleted ones included, creating a problem has
    come to a result, be it the problem or an error. *)
Theorem slug_search_terminates {W} (pf : platform W) (db : W -> catalogue) keep {PL : PlatformLaws pf db keep} fuel c req w :
  (size (db w).(c_problems) < fuel)%nat -> Z.of_nat fuel <= int64_max ->
  (createProblem pf.(pf_now) pf.(pf_offset) pf.(pf_lower_rune) pf.(pf_problems) pf.(pf_tags) fuel c req w).1 <> inr None.
Proof.
  intros HF HM. destruct (createProblem _ _ _ _ _ _ _ _ w) as [r w'] eqn:E. cbn. intros ->.
  apply (create_searching pf db keep) in E as (base & w1 & w2 & D & E).
  apply (search_ends pf.(pf_problems) pf.(pf_tags) pf.(pf_tests) db keep) in E; [done|by rewrite D|done].
Qed.

(** The second problem of a title gets the second slug. *)
Lemma slug_search_terminates_witness : exists r,
  (createProblem (pf_now demo_platform) (pf_offset demo_platform) (pf_lower_rune demo_platform) (pf_problems demo_platform)
     (pf_tags demo_platform) 2 demo_author demo_create demo_created).1 = inr (Some r) /\ PrSlug r = "a-b-2"%string.
Proof.
  assert ((size (demo_catalogue demo_created).(c_problems) < 2)%nat) as H1 by (apply Nat.ltb_lt; vm_compute; reflexivity).
  assert (Z.of_nat 2 <= int64_max) as H2 by (apply Z.leb_le; vm_compute; reflexivity).
  pose proof (slug_search_terminates demo_platform demo_catalogue _ 2 demo_author demo_create demo_created H1 H2) as H.
  destruct (createProblem _ _ _ _ _ 2 demo_author demo_create demo_created) as [[e|[r|]] w'] eqn:E; cbn in *.
  - apply (f_equal (fun x : (error + option ProblemResponse) * pworld => match x.1 with inl _ => true | inr _ => false end)) in E.
    vm_compute in E. discriminate E.
  - exists r. split; [done|]. apply (f_equal (fun x : (error + option ProblemResponse) * pworld =>
      match x.1 with inr (Some r) => PrSlug r | _ => ""%string end)) in E. vm_compute in E. symmetry. exact E.
  - by destruct H.
Defined.

(** A tag that a moderator creates is stored as an active one even when the
    request says that it is inactive, and the response says what the request
    said. *)
Theorem inactive_tag_is_created_active {W} (pf : platform W) (db : W -> catalogue) keep {PL : PlatformLaws pf db keep} c req w resp w' :
  createTag pf.(pf_now) pf.(pf_offset) pf.(pf_lower_rune) pf.(pf_tags) c req w = (inr resp, w') ->
  resp.(AtIsActive) = default true req.(CtIsActive)
  /\ exists t, (db w').(c_tags) !! resp.(AtTag).(TgRID) = Some t /\ t.(TagIsActive) = true.
Proof.
  unfold createTag. destruct (negb _); [done|]. cbv zeta. case_bool_decide as HB; [done|]. intros H. run_inv H.
  injection H as <- <-. apply on_error_inr in E1.
  pose proof (cl_create_tag (CatalogueLaws := pl_catalogue (pf := pf) (db := db) (keep := keep)) _ _ _ _ E1) as [HA (now & _ & _ & HM)].
  cbn [MapTagToAdminResponse AtIsActive AtTag MapTagToResponse TgRID]. split; [exact HA|]. rewrite HM. cbn. rewrite lookup_insert_eq.
  by eexists.
Qed.

Lemma inactive_tag_is_created_active_witness : exists resp w',
  createTag (pf_now demo_platform) (pf_offset demo_platform) (pf_lower_rune demo_platform) (pf_tags demo_platform) demo_moderator
    (demo_new_tag (Some false)) empty_pworld = (inr resp, w')
  /\ resp.(AtIsActive) = false /\ exists t, (demo_catalogue w').(c_tags) !! resp.(AtTag).(TgRID) = Some t /\ t.(TagIsActive) = true.
Proof.
  destruct (createTag (pf_now demo_platform) (pf_offset demo_platform) (pf_lower_rune demo_platform) (pf_tags demo_platform) demo_moderator
    (demo_new_tag (Some false)) empty_pworld) as [[e|resp] w'] eqn:E.
  - apply (f_equal (fun x : (error + AdminTagResponse) * pworld => match x.1 with inl _ => true | inr _ => false end)) in E.
    vm_compute in E. discriminate E.
  - exists resp, w'. split; [done|].
    exact (inactive_tag_is_created_active demo_platform demo_catalogue _ demo_moderator (demo_new_tag (Some false)) empty_pworld resp w' E).
Defined.

(** ** Testcases *)

(** C30: an archive that the service accepts is one that the judge can load: once
    its files lie in a directory, among others that are not named like
    testcases, the loader of the worker pairs exactly the announced number of
    testcases, 1, 2, and so on, and the archive is within the limits of the
    upload. *)
Theorem accepted_archive_is_loadable files n dir entries others : validate_files files = inr n ->
  entries ≡ₚ map (fun f => (f.(ZfName), false)) files ++ others ->
  Forall (fun e : string * bool => e.2 = true \/ testcase_file e.1 = None) others ->
  0 < n /\ Z.of_nat (length files) <= maxFileCount
  /\ exists inputs outputs, classify dir entries ∅ ∅ = inr (inputs, outputs) /\ pair_files n inputs outputs = inr (seqZ 1 n).
Proof.
  intros HV HP HO. split_and!; [|unfold validate_files in HV|by apply (loadable files n dir entries others)].
  - by apply validated_numbers in HV as [? _].
  - destruct (_ =? 0)%nat; [done|]. destruct (Z.ltb_spec maxFileCount (Z.of_nat (length files))); [done|lia].
Qed.

Definition demo_extracted : list (string * bool) :=
  [("02.in", false); (".version", false); ("1.in", false); ("1.out", false); ("2.out", false); ("bundle.zip", false)]%string.

Lemma accepted_archive_is_loadable_witness : exists inputs outputs,
  classify "/cache/testcases/problem_7" demo_extracted ∅ ∅ = inr (inputs, outputs) /\ pair_files 2 inputs outputs = inr [1; 2].
Proof.
  apply (accepted_archive_is_loadable [file "2.out" 4; file "1.in" 3; file "02.in" 3; file "1.out" 9] 2 "/cache/testcases/problem_7"
    demo_extracted [(".version", false); ("bundle.zip", false)]%string).
  - vm_compute. reflexivity.
  - apply Permutation_count_occ with (eq_dec := fun x y => decide (x = y)). intros e. unfold demo_extracted. cbn [count_occ app map ZfName file].
    repeat case_decide; congruence.
  - repeat constructor; right; vm_compute; reflexivity.
Defined.

(** Versions start again when the testcases of a problem have been deleted:
    after the next upload they have version 1 and the name of the first archive;
    and the loader of the judge, which compares versions, then serves the
    directory it has extracted for the old version 1, whatever address the new
    archive has. *)
Theorem deleted_tests_restart_version {W} (pf : platform W) (db : W -> catalogue) keep {PL : PlatformLaws pf db keep} c id file w :
  request_quiet db (PqUpload id file) -> (forall t, has_test (db w) t -> t.(TsProblemID) <> id) ->
  let m := db (perform_request pf c (PqUpload id file) w).2 in
  (forall t, has_test m t -> t.(TsProblemID) = id -> t.(TsVersion) = 1 /\ t.(TsZipObjectKey) = object_key id 1)
  /\ forall (U : Type) (os : OfficialLoader.platform U) l md text checksum u u1 u2, validateMetadata md = None ->
       os.(ReadFile) (join (cache_dir l md) cacheVersionFile) u = (inr text, u1) -> TrimSpace text = Itoa md.(MdVersion) ->
       verifiedCachedChecksum os (cache_dir l md) u1 = (inr (Some checksum), u2) ->
       Load os l md u = bundleFromDir os (cache_dir l md) md checksum u2.
Proof.
  intros HQ HN m. split.
  - intros t HT HI. unfold m in HT. destruct (perform_request pf c (PqUpload id file) w) as [r w'] eqn:E. cbn [snd] in HT.
    apply (requests_follow_spec pf db keep) in E as [E|(q & d & _ & _ & _ & _ & HV & HD & HK & e & HM & HE & _)]; [| |done].
    { rewrite E in HT. by apply HN in HT. }
    injection HE as E1 E2 E3 E4. unfold has_test in HT. rewrite HM in HT. cbn in HT.
    assert (TsVersion d = 1) as V1. { destruct HV as [(old & H1 & H2 & _)|[H _]]; [by apply HN in H1|done]. }
    destruct (decide (TsID e = TsID t)) as [EI|NI].
    + rewrite EI, lookup_insert_eq in HT. injection HT as <-. by rewrite E2, E4, HK, V1.
    + rewrite lookup_insert_ne in HT by done. by apply HN in HT.
  - intros U os l md text checksum u u1 u2 HV HR HT HC. unfold Load. rewrite HV. cbv zeta. unfold bind at 1, try. rewrite HR.
    rewrite bool_decide_eq_true_2 by done. unfold bind at 1. by rewrite HC.
Qed.

Definition demo_upload := perform_request demo_platform demo_author (PqUpload 1 (Some demo_file)) demo_created.
Example demo_uploaded : (fun t => (t.(TsVersion), t.(TsTestCount))) <$> (demo_catalogue demo_upload.2).(c_tests) !! 1 = Some (1, 1).
Proof. vm_compute. reflexivity. Qed.

Lemma deleted_tests_restart_version_witness : exists t,
  (demo_catalogue demo_upload.2).(c_tests) !! 1 = Some t /\ t.(TsZipObjectKey) = "problems/1/testcases/v1.zip"%string.
Proof.
  destruct (deleted_tests_restart_version demo_platform demo_catalogue _ demo_author 1 (Some demo_file) demo_created) as [H _].
  - split; intros; apply keeps_ret.
  - assert ((demo_catalogue demo_created).(c_tests) = ∅) as HE.
    { apply map_empty. intros i. apply eq_None_not_Some.
      assert (dom (demo_catalogue demo_created).(c_tests) = (∅ : gset Z)) as HD by (apply (bool_decide_eq_true_1 _); vm_compute; reflexivity).
      rewrite <- elem_of_dom, HD. apply not_elem_of_empty. }
    intros t HT. unfold has_test in HT. rewrite HE in HT. by rewrite lookup_empty in HT.
  - pose proof demo_uploaded as E. destruct (c_tests (demo_catalogue demo_upload.2) !! 1) as [t|] eqn:ET; [|discriminate E].
    exists t. split; [done|].
    assert (TsID t = 1 /\ TsProblemID t = 1) as [HI HP].
    { assert ((fun t => (t.(TsID), t.(TsProblemID))) <$> (demo_catalogue demo_upload.2).(c_tests) !! 1 = Some (1, 1)) as F by (vm_compute; reflexivity).
      rewrite ET in F. injection F as F1 F2. split; assumption. }
    assert (has_test (demo_catalogue demo_upload.2) t) as HT
      by exact (eq_trans (f_equal (fun i => (demo_catalogue demo_upload.2).(c_tests) !! i) HI) ET).
    rewrite (proj2 (H t HT HP)). vm_compute. reflexivity.
Defined.

(** ** Eligibility *)


(** The demonstration database beside a key space and a clock in milliseconds:
    the database as it stands since the last commit, the time spent since, and
    the databases before. *)
Record pk_world := mkPk { pk_base : pworld; pk_raw : gmap string entry; pk_since : Z; pk_spent : N; pk_older : list (Z * pworld) }.
Definition pk_server (w : pk_world) : keyspace := mkKeys (w.(pk_since) + Z.of_N w.(pk_spent)) w.(pk_raw).
Definition pk_log (w : pk_world) : log :=
  (w.(pk_since), demo_catalogue w.(pk_base)) :: map (fun x => (x.1, demo_catalogue x.2)) w.(pk_older).
Definition pk_keys (raw : gmap string entry) (w : pk_world) : pk_world := mkPk w.(pk_base) raw w.(pk_since) w.(pk_spent) w.(pk_older).
Definition pk_client : client keyspace pk_world := {|
  Do A f w := let '(a, s) := f (pk_server w) in (inr a, pk_keys (ks_raw s) w);
  Watch A f w := match f (pk_server w) with
                 | inl e => (inl e, w)
                 | inr (a, block) => (inr a, pk_keys (ks_raw (block (pk_server w))) w)
                 end |}.

#[export] Instance pk_client_laws : ClientLaws pk_client pk_server.
Proof.
  constructor; cbn.
  - intros A f w r w'. destruct (f (pk_server w)) as [a s] eqn:E. intros [= <- <-].
    exists (pk_server w). rewrite E. split; [|done]. split; [done|]. split; [done|]. apply Z.le_refl.
  - intros A f w e w'. by destruct (f (pk_server w)).
  - intros A f w r w'. destruct (f (pk_server w)) as [e|[a block]] eqn:E; intros [= <- <-]; [by left|].
    exists (pk_server w), block. split; [done|]. split; [done|]. split; [done|]. apply Z.le_refl.
Qed.
Lemma pk_apart A (f : keyspace -> A * keyspace) : keeps pk_log (Do pk_client f).
Proof. intros w r w'. cbn. destruct (f (pk_server w)). by intros [= _ <-]. Qed.

(** A read that takes ten milliseconds; another transaction after [t] more. *)
Definition on_db {A} (m : M pworld A) : M pk_world A :=
  fun w => let '(r, x) := m w.(pk_base) in (r, mkPk x w.(pk_raw) w.(pk_since) (w.(pk_spent) + 10) w.(pk_older)).
Definition pk_pass (t : N) (w : pk_world) : pk_world := mkPk w.(pk_base) w.(pk_raw) w.(pk_since) (w.(pk_spent) + t) w.(pk_older).
Definition pk_commit (x : pworld) (w : pk_world) : pk_world :=
  mkPk x w.(pk_raw) (clock (pk_server w)) 0 ((w.(pk_since), w.(pk_base)) :: w.(pk_older)).

#[local] Instance float64_eq : EqDecision float64.
Proof. unfold float64. solve_decision. Defined.

(** The one time limit of the demonstration. *)
Definition demo_floats : FloatText := mkFloatText
  (fun f => if bool_decide (f = float_of_Z 1000) then Some (chars "1000") else None)
  (fun lit => if bool_decide (lit = chars "1000") then Some (float_of_Z 1000) else None).
Lemma demo_FloatLaws : FloatLaws demo_floats.
Proof.
  split; intros f lit; cbn [format_float parse_float demo_floats]; case_bool_decide as E; try done; intros [= <-].
  - change (chars "1000") with (json_int 1000). apply (reads_int 1000). by split.
  - by rewrite E.
Qed.

Definition demo_cache : SubmissionProblemCache pk_world := redis_cache demo_floats (Some pk_client).

(** The columns hold 64-bit numbers and text in UTF-8. *)
Definition metadata_ok_b (m : SubmissionProblem) : bool :=
  (int64_min <=? m.(SpID)) && (m.(SpID) <=? int64_max) && (int64_min <=? m.(SpMemoryLimit)) && (m.(SpMemoryLimit) <=? int64_max)
  && ValidString m.(SpTitle) && ValidString m.(SpSlug) && ValidString m.(SpAuthorID).
Lemma metadata_okb m : metadata_ok_b m = true -> metadata_ok m.
Proof. unfold metadata_ok_b, metadata_ok, utf8, in_int64. intros H. bools. split_and!; done || lia. Qed.

Definition demo_read (id : Z) : M pk_world SubmissionProblem :=
  let* md := on_db (PgProblems.GetSubmissionProblem demo_db id) in
  if metadata_ok_b md then ret md else fail (EText "sql: value out of range").
Definition demo_full_read (id : Z) : M pk_world (option Problem) :=
  on_db (let* p := pg_GetProblemByID demo_db (fun _ _ => false) id in ret (Some p)).

Section demo_laws.
Context (id since : Z) (HI : in_int64 id) (start : keyspace * log).
#[local] Notation obs := (obs pk_server pk_log).
#[local] Notation steps := (rtc (step demo_floats id 700 since)).

Lemma pk_shared : SharedClient demo_floats id 700 since pk_client pk_server pk_log.
Proof. eapply exclusive_shared; [exact _|exact pk_apart]. Qed.

Lemma pk_time_passes w w' : pk_log w' = pk_log w -> pk_raw w' = pk_raw w -> clock (pk_server w) <= clock (pk_server w') -> steps (obs w) (obs w').
Proof. intros L R C. unfold ProblemAccess.obs. rewrite L. by apply rtc_once, step_later. Qed.

Lemma pk_passes t w : steps (obs w) (obs (pk_pass t w)).
Proof. apply pk_time_passes; [done|done|]. cbn. lia. Qed.

Lemma pk_commits x w : steps (obs w) (obs (pk_commit x w)).
Proof.
  eapply rtc_l; [apply (step_commit _ _ _ _ (pk_server w) (pk_log w) (demo_catalogue x))|]. apply rtc_once.
  apply (step_later _ _ _ _ (pk_server w) (pk_server (pk_commit x w)) (pk_log (pk_commit x w))). split; [done|]. cbn. lia.
Qed.

Lemma pk_reads {A} (m : M pworld A) (P : catalogue -> error + A -> Prop) w r w' :
  (forall b r b', m b = (r, b') -> demo_catalogue b' = demo_catalogue b /\ P (demo_catalogue b) r) ->
  on_db m w = (r, w') -> steps (obs w) (obs w') /\ seen (clock (pk_server w)) (obs w') (fun m => P m r).
Proof.
  intros HM. unfold on_db. destruct (m (pk_base w)) as [r1 x] eqn:E. intros [= <- <-]. apply HM in E as [D HP]. split.
  - apply pk_time_passes; [unfold pk_log; cbn [pk_base pk_since pk_older]; by rewrite D|done|cbn; lia].
  - exists (demo_catalogue (pk_base w)), (clock (pk_server w)). split_and!; [done| |done]. left. split; [exact D|]. cbn. lia.
Qed.

Definition pk_now (w : pk_world) : Z := clock (pk_server w).
Lemma pk_do_time A (f : keyspace -> A * keyspace) : keeps pk_now (Do pk_client f).
Proof. intros w r w'. cbn. destruct (f (pk_server w)). by intros [= _ <-]. Qed.
Lemma pk_get_time i : keeps pk_now (CC_Get demo_cache i).
Proof.
  unfold demo_cache, redis_cache. cbn [CC_Get]. unfold cache_Get, Redis.Get. apply keeps_bind; [apply keeps_try, keeps_bind; [apply pk_do_time|]|].
  - intros [v|]; [apply keeps_ret|apply keeps_fail].
  - intros [e|v]; [destruct (errors_Is _ _)|destruct (decodeSubmissionProblemMetadata _ _ _)]; first [apply keeps_ret|apply keeps_fail].
Qed.
Lemma pk_set_time md ttl : keeps pk_now (CC_Set demo_cache md ttl).
Proof.
  unfold demo_cache, redis_cache. cbn [CC_Set]. unfold cache_Set, Set_. destruct (marshal_metadata _ _); [apply pk_do_time|apply keeps_fail].
Qed.
Lemma pk_read_time i w q w' : demo_read i w = (q, w') -> pk_now w' = pk_now w + 10.
Proof.
  unfold demo_read, bind, on_db. destruct (PgProblems.GetSubmissionProblem _ _ _) as [[e|md] x]; [|destruct (metadata_ok_b md)]; intros [= _ <-]; cbn; lia.
Qed.

Lemma demo_ReadLaws : ReadLaws demo_floats id 700 since pk_client pk_server pk_log start demo_full_read demo_read (ret None) (fun _ load => load).
Proof.
  split.
  - done.
  - intros w. exists (pk_since w), (demo_catalogue (pk_base w)), (map (fun x => (x.1, demo_catalogue x.2)) (pk_older w)). split; [done|]. cbn. lia.
  - intros w r w'. apply (pk_reads _ (fun m => read_result full_view m id)). intros b r1 b' E.
    split; [|by apply (pg_full_read demo_db tick (fun _ _ => false) committed_tables working_tables id b r1 b')].
    unfold bind in E. destruct (pg_GetProblemByID demo_db _ id b) as [q b1] eqn:E1.
    eapply (pg_first_spec demo_db tick) in E1 as [K _]; try exact demo_DbLaws. assert (b' = b1) as -> by (by destruct q; injection E). unfold demo_catalogue, shown. by rewrite K.
  - intros w r w'. unfold demo_read, bind. destruct (on_db _ w) as [q w1] eqn:E.
    apply (pk_reads _ (fun m => read_result eq m id)) in E as [S1 R].
    2: { intros b r1 b' E1. apply (pg_narrow_read demo_db tick committed_tables working_tables) in E1 as [D R]. split; [exact D|exact R]. }
    destruct q as [e|md]; [by intros [= <- <-]|]. destruct (metadata_ok_b md) eqn:OK; intros [= <- <-].
    + split_and!; [done|done|by apply metadata_okb].
    + split_and!; [done| |done]. eapply seen_weaken; [done| |exact R]. intros m _. left. by split.
  - by intros w r w' [= <- <-].
  - intros w r w' E. assert (pk_now w' <= pk_now w + 10) as L; [|unfold pk_now in L; cbn in *; lia].
    unfold load_problem, bind, try in E. destruct (CC_Get _ id w) as [r1 w1] eqn:E1. apply pk_get_time in E1. rewrite <- E1.
    assert (forall q w2, demo_read id w1 = (q, w2) -> pk_now w2 = pk_now w1 + 10) as T by (intros q w2; apply pk_read_time).
    destruct r1 as [e|[md|]]; [|by injection E as _ <-; lia|]; destruct (demo_read id w1) as [[e'|md] w2]; specialize (T _ _ eq_refl);
      try (injection E as _ <-; lia); destruct (CC_Set _ md _ w2) as [r3 w3] eqn:E3; apply pk_set_time in E3; injection E as _ <-; lia.
  - intros w r w' E. left. by exists w, w'.
Qed.
End demo_laws.

(** A user asks for a public problem; a moderator hides it three seconds later,
    and the invalidation fails. *)
Definition demo_ask (user : string) (role : Role) : GetProblemRequest := mkGetProblem 1 user role.
Definition pk_ask (w : pk_world) := cachedGetProblem demo_read demo_cache (ret None) (fun _ load => load) (demo_ask "u3" RoleUser) w.
Definition pk_plain (w : pk_world) := getProblem demo_full_read (demo_ask "u3" RoleUser) w.
Definition pk_start : pk_world := mkPk demo_published.1 ∅ 0 0 [].
Definition pk_hidden : pk_world :=
  let w := pk_pass 3000 (pk_ask pk_start).2 in pk_commit (perform_request demo_platform demo_moderator (PqHide 1) w.(pk_base)).2 w.
Definition pk_dropped := demo_cache.(CC_Delete) 1 pk_hidden.

Definition slug_of (r : error + EligibleProblem) : option string := match r with inr p => Some p.(ElSlug) | inl _ => None end.
Example demo_stale : slug_of (pk_ask pk_hidden).1 = Some "a-b"%string /\ slug_of (pk_plain pk_hidden).1 = None
  /\ slug_of (pk_ask (pk_pass 2000 pk_hidden)).1 = None /\ slug_of (pk_ask pk_dropped.2).1 = None.
Proof. split_and!; vm_compute; reflexivity. Qed.

#[local] Notation pk_obs := (obs pk_server pk_log).
#[local] Notation pk_steps := (rtc (step demo_floats 1 700 0)).

Lemma one_in_int64 : in_int64 1.
Proof. split; apply Z.leb_le; vm_compute; reflexivity. Qed.

Lemma pk_asks w : pk_steps (pk_obs pk_start) (pk_obs w) -> pk_steps (pk_obs w) (pk_obs (pk_ask w).2).
Proof.
  intros S0. destruct (pk_ask w) as [r w'] eqn:E. pose proof (pk_shared 1 0) as SC.
  by eapply (cached_answers demo_floats demo_FloatLaws 1 700 0 one_in_int64 pk_client pk_server pk_log (pk_obs pk_start)
    _ _ _ _ (demo_ReadLaws 1 0 (pk_obs pk_start))) in E as [S1 _].
Qed.

Lemma pk_hidden_reached : pk_steps (pk_obs pk_start) (pk_obs pk_hidden).
Proof.
  unfold pk_hidden. cbv zeta. etransitivity; [exact (pk_asks pk_start (rtc_refl _ _))|]. etransitivity; [apply pk_passes|apply pk_commits].
Qed.

