(* ===== verification/SubmissionClients.v ===== *)
(** The adapters through which the submission service reaches the others: the
    gRPC clients of the problem and auth services
    (services/submission/internal/adapter/outbound/problem/grpc_client.go and
    auth/grpc_client.go) and the cooldown in Redis (cooldown/redis.go).

    The generated clients, which carry a call to the other service, are
    parameters; [ctx_Err] is the error of the caller's context. *)

From Stdlib Require Import SpecFloat.
From S2P Require Import Prelude GoString GoError GoMonad GoCrypto SubmissionDomain SubmissionPorts Redis.

(** ** The problem service *)

(** [problemv1.GetProblemResponse] *)
Record GetProblemResponse := mkGetProblemResp {
  GprProblemId : Z; GprTitle : string; GprSlug : string; GprTimeLimit : spec_float; GprMemoryLimit : Z }.

(** [dto.ProblemMetadata] with the limits that only the run of code reads. *)
Record ProblemInfo := mkInfo { InfoMetadata : ProblemMetadata; InfoTimeLimit : spec_float; InfoMemoryLimit : Z }.

(** [problemv1.GetTestCaseResponse], the fields that are read. *)
Record TestCaseReply := mkTestCaseReply { TrTestCount : Z; TrVersion : Z }.

Definition code_Canceled : Z := 1.

Section problem_client.
Context {W : Type} (ctx_Err : M W (option error))
  (client_GetProblem : Z -> string -> Role -> M W (option GetProblemResponse))
  (client_GetTestCase : Z -> M W (option TestCaseReply)).

(** The answer to a call that was cancelled. *)
Definition canceled {A} : M W A :=
  let* over := ctx_Err in
  match over with Some e => fail e | None => fail context_Canceled end.

Definition GetProblem (problemID : Z) (actor : ProblemActor) : M W ProblemInfo :=
  let* r := try (client_GetProblem problemID actor.(ActorUserID) actor.(ActorRole)) in
  match r with
  | inl err =>
      let code := status_Code err in
      if code =? code_InvalidArgument then fail ErrInvalidProblemID
      else if code =? code_Unauthenticated then fail ErrProblemActorUnauthenticated
      else if code =? code_PermissionDenied then fail ErrProblemActorForbidden
      else if code =? code_NotFound then fail ErrProblemNotFound
      else if code =? code_Canceled then canceled
      else fail (Wrap ErrProblemServiceUnavailable err)
  | inr None => fail ErrProblemServiceUnavailable
  | inr (Some response) =>
      if (response.(GprProblemId) <=? 0) || blank response.(GprTitle) || blank response.(GprSlug)
      then fail ErrProblemServiceUnavailable
      else ret (mkInfo (mkProblem response.(GprProblemId) response.(GprTitle) response.(GprSlug))
                  response.(GprTimeLimit) response.(GprMemoryLimit))
  end.

Definition GetTestCaseMetadata (problemID : Z) : M W ProblemTestCaseMetadata :=
  let* r := try (client_GetTestCase problemID) in
  match r with
  | inl err =>
      let code := status_Code err in
      if code =? code_InvalidArgument then fail ErrInvalidProblemID
      else if code =? code_NotFound then fail ErrSubmissionTestCaseRequired
      else if code =? code_Canceled then canceled
      else fail (Wrap ErrProblemServiceUnavailable err)
  | inr None => fail ErrSubmissionTestCaseRequired
  | inr (Some response) =>
      if (response.(TrTestCount) <=? 0) || (response.(TrVersion) <=? 0) then fail ErrSubmissionTestCaseRequired
      else ret (mkTCMeta problemID response.(TrTestCount) response.(TrVersion))
  end.

(** [grpcProblemReader] as the port of the use cases. *)
Definition grpcProblemReader : ProblemReader W :=
  {| PR_GetProblem id actor := let* p := GetProblem id actor in ret p.(InfoMetadata);
     PR_GetTestCaseMetadata := GetTestCaseMetadata |}.
End problem_client.

(** ** The auth service *)

Record PublicUser := mkPublicUser { PuID : string; PuUsername : string }.

Definition ResolvePublicUser {W} (ctx_Err : M W (option error)) (client_ResolvePublicUser : string -> M W (option PublicUser))
    (username : string) : M W PublicUser :=
  let* r := try (client_ResolvePublicUser username) in
  match r with
  | inl err =>
      let code := status_Code err in
      if (code =? code_InvalidArgument) || (code =? code_NotFound) then fail ErrPublicProfileNotFound
      else if code =? code_Canceled then canceled ctx_Err
      else if code =? code_DeadlineExceeded then
        let* over := ctx_Err in
        match over with Some e => fail e | None => fail (Wrap ErrAuthServiceUnavailable err) end
      else fail (Wrap ErrAuthServiceUnavailable err)
  | inr None => fail ErrAuthServiceUnavailable
  | inr (Some response) =>
      if blank response.(PuID) || blank response.(PuUsername) then fail ErrAuthServiceUnavailable
      else ret (mkPublicUser response.(PuID) response.(PuUsername))
  end.

(** ** The cooldown *)

Definition submissionCooldownKeyPrefix : string := "submission:cooldown:".

Definition submissionCooldownKey (userID : string) (problemID : Z) : string :=
  submissionCooldownKeyPrefix +:+ str (HexEncode (Sum256 (chars userID ++ ascii_of_N 0 :: chars (Itoa problemID)))).

Section cooldown.
Context {S W : Type} `{Redis S}.

(** [rdb.PTTL(..).Result()] in nanoseconds: the replies -1 and -2 are kept. *)
Definition PTTL_ (c : client S W) (k : string) : M W Z :=
  let* ms := Do c (fun s => (PTTL k s, s)) in ret (if ms <? 0 then ms else ms * 1000000).

Definition Acquire (c : client S W) (duration : Z) (userID : string) (problemID : Z) : M W CooldownResult :=
  if blank userID then fail (EText "user ID is required")
  else if problemID <=? 0 then fail (EText "problem ID must be greater than zero")
  else
    let key := submissionCooldownKey userID problemID in
    let* allowed := on_error (EWrap "acquire submission cooldown") (SetNX c key "1" duration) in
    if allowed : bool then ret (mkCooldown true 0)
    else
      let* retryAfter := on_error (EWrap "read submission cooldown ttl") (PTTL_ c key) in
      if retryAfter <? 0 then fail (EText "submission cooldown key has no expiry")
      else ret (mkCooldown false (if retryAfter =? 0 then 1000000 else retryAfter)).

Definition NewRedisSubmissionCooldown (rdb : option (client S W)) (submitCooldown : Z) : error + SubmissionCooldown W :=
  match rdb with
  | None => inl (EText "redis client is required")
  | Some c =>
      if submitCooldown <=? 0 then inl (EText "submission submit_cooldown must be greater than zero")
      else inr (Acquire c submitCooldown)
  end.
End cooldown.

(** ** What the cooldown promises *)

Section admission.
Context {S W : Type} `{RedisLaws S} (c : client S W) (server : W -> S) `{!ClientLaws c server}.

(** Nobody else uses the key: its entry stays, time goes on. *)
Definition untouched (k : string) (s s' : S) : Prop := raw s' !! k = raw s !! k /\ clock s <= clock s'.

Lemma later_untouched k s s' : later s s' -> untouched k s s'.
Proof. intros [HR HC]. split; [by rewrite HR|done]. Qed.

(** The command ran on a state in which the key was free, and left it taken. *)
Lemma setnx_taken k v d w w' : SetNX c k v d w = (inr true, w') -> 0 < d ->
  exists s, later (server w) s /\ find_entry k s = None
    /\ raw (server w') !! k = Some (v, Some (clock s + Z.max 1 (d / 1000000))) /\ clock s <= clock (server w').
Proof.
  intros E Hd. apply (do_law (server := server)) in E as (s & (HL & HR & HC) & HA).
  unfold EXISTS in *. rewrite get_law in *. destruct (find_entry k s) as [e|] eqn:EF.
  - rewrite bool_decide_eq_true_2 in HA by (by eexists). done.
  - rewrite bool_decide_eq_false_2 in HR by (by intros [? ?]). exists s. cbn [snd] in HR.
    destruct (set_law k v (px d) s) as [SC SR]. rewrite HR, SR. unfold px. rewrite (proj2 (Z.ltb_lt 0 d)) by done.
    split_and!; [done|done|by rewrite lookup_insert_eq|done].
Qed.

Lemma acquire_allowed d u p w r w' : Acquire c d u p w = (inr r, w') -> r.(Allowed) = true ->
  SetNX c (submissionCooldownKey u p) "1" d w = (inr true, w').
Proof.
  unfold Acquire. destruct (blank u); [done|]. destruct (p <=? 0); [done|]. cbv zeta. intros E HA.
  apply bind_inr_inv in E as (b & w1 & E1%on_error_inr & E). destruct b.
  - by injection E as _ <-.
  - apply bind_inr_inv in E as (t & w2 & _ & E). destruct (t <? 0); [done|]. injection E as <- _. done.
Qed.

(** A denial says after how long to come back. *)
Lemma denied_positive d u p w r w' : Acquire c d u p w = (inr r, w') -> r.(Allowed) = false -> 0 < r.(RetryAfter).
Proof.
  unfold Acquire. destruct (blank u); [done|]. destruct (p <=? 0); [done|]. cbv zeta. intros E HA.
  apply bind_inr_inv in E as (b & w1 & _ & E). destruct b; [by injection E as <- _|].
  apply bind_inr_inv in E as (t & w2 & _ & E). destruct (Z.ltb_spec t 0); [done|]. injection E as <- _. cbn.
  destruct (Z.eqb_spec t 0); lia.
Qed.
End admission.
