(* ===== verification/RunCode.v ===== *)
(** Running code without submitting it, on the side of the submission service:
    application/usecase/user/run_code.go and
    adapter/outbound/judge/grpc_runner.go under services/submission/internal.
    The side of the worker is in JudgeWorker.v; [worker_client] connects them. *)

From Stdlib Require Import SpecFloat.
From S2P Require Import Prelude GoString GoError GoMonad SubmissionDomain SubmissionPorts SubmissionClients.
From S2P Require WorkerDomain JudgeWorker.

(** ** Data *)

(** [dto.RunCodeLimits]; durations in nanoseconds. *)
Record RunCodeLimits := mkRunLimits {
  MaxTestCases : Z; LimSourceCodeBytes : Z; MaxStdinBytes : Z; MaxExpectedOutputBytes : Z;
  MaxCapturedOutputBytes : Z; RequestTimeout : Z; DefaultTimeLimit : Z; DefaultMemoryLimitKB : Z;
  DefaultOutputLimit : Z }.

(** [dto.RunTestCaseInput], which is also the form of [outbound.JudgeRunTestCase]. *)
Record RunTestCaseInput := mkRunInput {
  RtiID : string; RtiKind : string; RtiStdin : string; RtiExpectedOutput : option string }.

Record RunCodeRequest := mkRunCodeReq {
  RcProblemID : Z; RcLanguage : string; RcSourceCode : string; RcTestCases : list RunTestCaseInput }.

(** [outbound.JudgeRunRequest], the same fields as [judgev1.RunCodeRequest]. *)
Record JudgeRunRequest := mkJudgeRun {
  JrLanguage : string; JrSourceCode : string; JrTestCases : list RunTestCaseInput;
  JrTimeLimitMS : Z; JrMemoryLimitKB : Z; JrOutputLimitBytes : Z }.

(** A diagnostic with the columns of [dto.CodeDiagnostic] and of the message
    [judgev1.CodeDiagnostic]. *)
Record RunDiagnostic := mkRunDiag {
  RdTestCaseID : option string; RdKind : string; RdSeverity : string; RdMessage : string;
  RdLine : Z; RdColumn : Z; RdEndLine : option Z; RdEndColumn : option Z }.

(** [dto.RunTestCaseResult] and [dto.RunCodeResponse] over the type of a
    diagnostic, which a message may leave nil. *)
Record RunCaseResult (D : Type) := mkRunCase {
  RcrID : string; RcrKind : string; RcrStatus : string; RcrStdout : string; RcrStderr : string;
  RcrExpectedOutput : option string; RcrExecutionTimeMS : Z; RcrMemoryUsedKB : Z; RcrDiagnostics : list D }.
Record RunCodeResponse (D : Type) := mkRunResp {
  RrsStatus : string; RrsCompileOutput : string; RrsDiagnostics : list D; RrsTests : list (RunCaseResult D) }.
Arguments mkRunCase {D}. Arguments RcrID {D}. Arguments RcrKind {D}. Arguments RcrStatus {D}. Arguments RcrStdout {D}.
Arguments RcrStderr {D}. Arguments RcrExpectedOutput {D}. Arguments RcrExecutionTimeMS {D}. Arguments RcrMemoryUsedKB {D}.
Arguments RcrDiagnostics {D}. Arguments mkRunResp {D}. Arguments RrsStatus {D}. Arguments RrsCompileOutput {D}.
Arguments RrsDiagnostics {D}. Arguments RrsTests {D}.

Definition RunCodeStatusCompleted : string := "completed".
Definition RunCodeStatusCompilationError : string := "compile_error".
Definition RunCodeStatusSystemError : string := "system_error".

Definition runKindSample : string := "sample".
Definition runKindCustom : string := "custom".

(** ** Limits *)

Definition or_limit (value dflt : Z) : Z := if value <=? 0 then dflt else value.

Definition normalizeRunCodeLimits (l : RunCodeLimits) : RunCodeLimits :=
  let captured := or_limit l.(MaxCapturedOutputBytes) (1024 * 1024) in
  mkRunLimits (or_limit l.(MaxTestCases) 10) (or_limit l.(LimSourceCodeBytes) MaxSourceCodeBytes)
    (or_limit l.(MaxStdinBytes) (64 * 1024)) (or_limit l.(MaxExpectedOutputBytes) (64 * 1024)) captured
    (or_limit l.(RequestTimeout) (30 * 10 ^ 9)) (or_limit l.(DefaultTimeLimit) (2 * 10 ^ 9))
    (or_limit l.(DefaultMemoryLimitKB) (256 * 1024)) (or_limit l.(DefaultOutputLimit) captured).

Definition float64_of_Z (z : Z) : spec_float := binary_normalize 53 1024 z 0 false.

(** [int64(x)]: the integer part.  What a value that is not in range becomes
    depends on the implementation: [elsewhere]. *)
Definition int64_of_float (elsewhere : Z) (x : spec_float) : Z :=
  match x with
  | S754_zero _ => 0
  | S754_finite s m e =>
      let q := if 0 <=? e then Z.pos m * 2 ^ e else Z.pos m / 2 ^ (- e) in
      let z := if s then - q else q in
      if (- 2 ^ 63 <=? z) && (z <? 2 ^ 63) then z else elsewhere
  | S754_infinity _ | S754_nan => elsewhere
  end.

Definition problemTimeLimitMS (elsewhere : Z) (value : spec_float) (fallback : Z) : Z :=
  if SFleb value (float64_of_Z 0) then Z.quot fallback 1000000
  else if SFleb (float64_of_Z 50) value then int64_of_float elsewhere value
  else int64_of_float elsewhere (SFmul 53 1024 value (float64_of_Z 1000)).

Definition problemMemoryLimitKB (value fallback : Z) : Z :=
  if value <=? 0 then fallback else wrap64 (value * 1024).

(** ** The use case *)

Definition duplicate_id : error := Wrap ErrInvalidRunTestCase (NewAppError CodeBadRequest "duplicate testcase id" None).
Definition sample_without_output : error :=
  Wrap ErrInvalidRunTestCase (NewAppError CodeBadRequest "sample testcase requires expected_output" None).

Definition too_long (max : Z) (s : option string) : bool := match s with Some s => max <? len s | None => false end.

(** The loop; [seen] are the identifiers so far. *)
Fixpoint validateTestCases (l : RunCodeLimits) (seen : list string) (inputs : list RunTestCaseInput)
    : error + list RunTestCaseInput :=
  match inputs with
  | [] => inr []
  | input :: inputs =>
      let id := TrimSpace input.(RtiID) in
      let kind := TrimSpace input.(RtiKind) in
      if bool_decide (id = ""%string) then inl ErrInvalidRunTestCase
      else if bool_decide (id ∈ seen) then inl duplicate_id
      else if bool_decide (kind = runKindSample) && bool_decide (input.(RtiExpectedOutput) = None) then inl sample_without_output
      else if negb (bool_decide (kind ∈ [runKindSample; runKindCustom])) then inl ErrInvalidRunTestCase
      else if l.(MaxStdinBytes) <? len input.(RtiStdin) then inl ErrRunPayloadTooLarge
      else if too_long l.(MaxExpectedOutputBytes) input.(RtiExpectedOutput) then inl ErrRunPayloadTooLarge
      else match validateTestCases l (id :: seen) inputs with
           | inl e => inl e
           | inr cases => inr (mkRunInput id kind input.(RtiStdin) input.(RtiExpectedOutput) :: cases)
           end
  end.

(** The checks before the first call. *)
Definition validateRun (l : RunCodeLimits) (claims : Claims) (req : RunCodeRequest) : error + list RunTestCaseInput :=
  if bool_decide (claims.(UserID) = ""%string) then inl (NewAppError CodeUnauthorized "unauthorized" None)
  else if req.(RcProblemID) <=? 0 then inl ErrInvalidProblemID
  else match ParseLanguage req.(RcLanguage) with
       | None => inl ErrUnsupportedRunLanguage
       | Some language =>
           if negb (IsExecutable language) then inl ErrUnsupportedRunLanguage
           else if blank req.(RcSourceCode) then inl ErrInvalidSourceCode
           else if l.(LimSourceCodeBytes) <? len req.(RcSourceCode) then inl ErrRunPayloadTooLarge
           else if (Z.of_nat (length req.(RcTestCases)) =? 0) || (l.(MaxTestCases) <? Z.of_nat (length req.(RcTestCases)))
                then inl ErrInvalidRunTestCase
           else validateTestCases l [] req.(RcTestCases)
       end.

Section run_code.
Context {W : Type} (elsewhere : Z) (GetProblem : Z -> ProblemActor -> M W ProblemInfo)
  (RunCode : JudgeRunRequest -> M W (RunCodeResponse RunDiagnostic)) (limits : RunCodeLimits).

Definition judge_request (l : RunCodeLimits) (req : RunCodeRequest) (problem : ProblemInfo) (cases : list RunTestCaseInput)
    : JudgeRunRequest :=
  mkJudgeRun req.(RcLanguage) req.(RcSourceCode) cases
    (problemTimeLimitMS elsewhere problem.(InfoTimeLimit) l.(DefaultTimeLimit))
    (problemMemoryLimitKB problem.(InfoMemoryLimit) l.(DefaultMemoryLimitKB)) l.(DefaultOutputLimit).

(** [runCodeUseCase.Execute] of the use case [NewRunCodeUseCase] makes. *)
Definition runExecute (claims : Claims) (req : RunCodeRequest) : M W (RunCodeResponse RunDiagnostic) :=
  let l := normalizeRunCodeLimits limits in
  match validateRun l claims req with
  | inl e => fail e
  | inr cases =>
      let* problem := GetProblem req.(RcProblemID) (mkActor claims.(UserID) claims.(ClaimRole)) in
      RunCode (judge_request l req problem cases)
  end.
End run_code.

(** ** The runner *)

(** [int(d.GetLine())] and its like keep the value. *)
Definition mapCodeDiagnostics (items : list (option RunDiagnostic)) : list RunDiagnostic := omap id items.

Definition mapRunCodeStatus (status : string) : string :=
  if bool_decide (status ∈ [RunCodeStatusCompleted; RunCodeStatusCompilationError; RunCodeStatusSystemError])
  then status else RunCodeStatusSystemError.

Definition run_response (res : RunCodeResponse (option RunDiagnostic)) : RunCodeResponse RunDiagnostic :=
  mkRunResp (mapRunCodeStatus res.(RrsStatus)) res.(RrsCompileOutput) (mapCodeDiagnostics res.(RrsDiagnostics))
    (map (fun tc => mkRunCase tc.(RcrID) tc.(RcrKind) tc.(RcrStatus) tc.(RcrStdout) tc.(RcrStderr) tc.(RcrExpectedOutput)
                      tc.(RcrExecutionTimeMS) tc.(RcrMemoryUsedKB) (mapCodeDiagnostics tc.(RcrDiagnostics))) res.(RrsTests)).

(** [grpcRunner.RunCode]; the generated client is a parameter. *)
Definition grpc_RunCode {W} (client : JudgeRunRequest -> M W (RunCodeResponse (option RunDiagnostic))) (req : JudgeRunRequest)
    : M W (RunCodeResponse RunDiagnostic) :=
  let* r := try (client req) in
  match r with
  | inl err =>
      if status_Code err =? code_DeadlineExceeded then fail (Wrap ErrJudgeWorkerTimeout err)
      else fail (Wrap ErrJudgeWorkerUnavailable err)
  | inr res => ret (run_response res)
  end.

(** ** The worker behind the client *)

(** The worker reads the request field by field. *)
Definition to_worker (req : JudgeRunRequest) : JudgeWorker.RunRequest :=
  JudgeWorker.mkRunReq req.(JrLanguage) req.(JrSourceCode)
    (map (fun tc => JudgeWorker.mkRunTC tc.(RtiID) tc.(RtiKind) tc.(RtiStdin) tc.(RtiExpectedOutput)) req.(JrTestCases))
    (WorkerDomain.mkLimits req.(JrTimeLimitMS) req.(JrMemoryLimitKB) req.(JrOutputLimitBytes)).

(** A diagnostic of the worker has no end. *)
Definition of_diagnostic (d : WorkerDomain.CodeDiagnostic) : option RunDiagnostic :=
  Some (mkRunDiag d.(WorkerDomain.DgTestCaseID) d.(WorkerDomain.DgKind) d.(WorkerDomain.DgSeverity) d.(WorkerDomain.DgMessage)
          d.(WorkerDomain.DgLine) d.(WorkerDomain.DgColumn) None None).

Definition of_worker (r : JudgeWorker.RunResult) : RunCodeResponse (option RunDiagnostic) :=
  mkRunResp r.(JudgeWorker.RunStatus) r.(JudgeWorker.RunCompileOutput) (map of_diagnostic r.(JudgeWorker.RunDiagnostics))
    (map (fun tc => mkRunCase tc.(JudgeWorker.RrID) tc.(JudgeWorker.RrKind) tc.(JudgeWorker.RrStatus) tc.(JudgeWorker.RrStdout)
                      tc.(JudgeWorker.RrStderr) tc.(JudgeWorker.RrExpectedOutput) tc.(JudgeWorker.RrExecutionTimeMS)
                      tc.(JudgeWorker.RrMemoryUsedKB) (map of_diagnostic tc.(JudgeWorker.RrDiagnostics)))
       r.(JudgeWorker.RunTestCases)).

Definition worker_client {W} (Execute : WorkerDomain.ExecutionRequest -> M W WorkerDomain.ExecutionResult) (ctxErr : W -> bool)
    (req : JudgeRunRequest) : M W (RunCodeResponse (option RunDiagnostic)) :=
  let* r := JudgeWorker.handleRunCode Execute ctxErr (Some (to_worker req)) in ret (of_worker r).

(** ** What a run may ask for *)

Record runnable_case (l : RunCodeLimits) (tc : RunTestCaseInput) : Prop := {
  rc_id : blank tc.(RtiID) = false;
  rc_kind : TrimSpace tc.(RtiKind) = runKindCustom
    \/ TrimSpace tc.(RtiKind) = runKindSample /\ is_Some tc.(RtiExpectedOutput);
  rc_stdin : len tc.(RtiStdin) <= l.(MaxStdinBytes);
  rc_output : forall s, tc.(RtiExpectedOutput) = Some s -> len s <= l.(MaxExpectedOutputBytes) }.

Record runnable (l : RunCodeLimits) (claims : Claims) (req : RunCodeRequest) : Prop := {
  ru_user : claims.(UserID) <> ""%string;
  ru_problem : 0 < req.(RcProblemID);
  ru_language : IsExecutable req.(RcLanguage) = true;
  ru_source : blank req.(RcSourceCode) = false /\ len req.(RcSourceCode) <= l.(LimSourceCodeBytes);
  ru_count : 1 <= Z.of_nat (length req.(RcTestCases)) <= l.(MaxTestCases);
  ru_cases : Forall (runnable_case l) req.(RcTestCases);
  ru_distinct : NoDup (map (fun tc => TrimSpace tc.(RtiID)) req.(RcTestCases)) }.

(** The case that is sent to the judge. *)
Definition trimmed (tc : RunTestCaseInput) : RunTestCaseInput :=
  mkRunInput (TrimSpace tc.(RtiID)) (TrimSpace tc.(RtiKind)) tc.(RtiStdin) tc.(RtiExpectedOutput).

(** A refusal that the caller has to answer for. *)
Definition refusal (e : error) : bool :=
  match e with EApp c _ _ _ => bool_decide (GetHTTPStatus c ∈ [400; 401; 413; 422]) | _ => false end.

Lemma validate_cases_spec l inputs : forall seen,
  match validateTestCases l seen inputs with
  | inr cases => cases = map trimmed inputs /\ Forall (runnable_case l) inputs
      /\ NoDup (map (fun tc => TrimSpace tc.(RtiID)) inputs)
      /\ forall tc, tc ∈ inputs -> TrimSpace tc.(RtiID) ∉ seen
  | inl e => refusal e = true
      /\ ~ (Forall (runnable_case l) inputs /\ NoDup (map (fun tc => TrimSpace tc.(RtiID)) inputs)
            /\ forall tc, tc ∈ inputs -> TrimSpace tc.(RtiID) ∉ seen)
  end.
Proof.
  induction inputs as [|i inputs IH]; intros seen; cbn [validateTestCases map].
  { split_and!; [done|constructor|constructor|]. intros tc H. by apply elem_of_nil in H. }
  case_bool_decide as B1; [split; [done|]; intros (F & _); apply Forall_cons in F as [[HB _ _ _] _];
    unfold blank in HB; by rewrite bool_decide_eq_true_2 in HB|].
  case_bool_decide as B2; [split; [done|]; intros (_ & _ & N); by eapply (N i); [left|]|].
  destruct (_ && _) eqn:B3.
  { split; [done|]. intros (F & _). apply andb_true_iff in B3 as [K1%bool_decide_eq_true K2%bool_decide_eq_true].
    apply Forall_cons in F as [[_ [K|[_ [x K]]] _ _] _]; [by rewrite K1 in K|congruence]. }
  destruct (negb _) eqn:B4.
  { split; [done|]. intros (F & _). apply negb_true_iff, bool_decide_eq_false in B4.
    apply Forall_cons in F as [[_ K _ _] _]. set_solver. }
  destruct (Z.ltb_spec (MaxStdinBytes l) (len (RtiStdin i))).
  { split; [done|]. intros (F & _). apply Forall_cons in F as [[_ _ K _] _]. lia. }
  destruct (too_long _ _) eqn:B6.
  { split; [done|]. intros (F & _). apply Forall_cons in F as [[_ _ _ K] _]. unfold too_long in B6.
    destruct (RtiExpectedOutput i) as [s|]; [|done]. specialize (K s eq_refl). lia. }
  assert (runnable_case l i) as RI.
  { constructor; [unfold blank; by rewrite bool_decide_eq_false_2| |done|].
    - apply negb_false_iff, bool_decide_eq_true in B4. apply andb_false_iff in B3.
      apply elem_of_cons in B4 as [K|K]; [right|left; set_solver]. split; [done|].
      destruct B3 as [K1|K1]; apply bool_decide_eq_false in K1; [done|]. by apply not_eq_None_Some.
    - intros s E. rewrite E in B6. cbn in B6. lia. }
  specialize (IH (TrimSpace (RtiID i) :: seen)). destruct (validateTestCases l _ inputs) as [e|cases].
  - destruct IH as [IH1 IH2]. split; [done|]. intros (F & N & S). apply IH2. apply Forall_cons in F as [_ F].
    apply NoDup_cons in N as [N1 N2]. split_and!; [done|done|]. intros tc HT. apply not_elem_of_cons. split.
    + intros E. apply N1, list_elem_of_fmap. by exists tc.
    + apply S. by right.
  - destruct IH as (-> & F & N & S). split_and!; [done|by constructor| |].
    + apply NoDup_cons. split; [|done]. intros (tc & E & HT)%list_elem_of_fmap. apply S in HT. set_solver.
    + intros tc [->|HT]%elem_of_cons; [done|]. apply S in HT. set_solver.
Qed.

Lemma executable_parses s : IsExecutable s = true -> ParseLanguage s = Some s.
Proof. unfold IsExecutable, ParseLanguage. rewrite bool_decide_eq_true. intros H. rewrite bool_decide_eq_true_2; [done|]. set_solver. Qed.

(** The checks accept what is runnable, and a refusal blames the caller. *)
Lemma validateRun_spec l claims req :
  match validateRun l claims req with
  | inr cases => runnable l claims req /\ cases = map trimmed req.(RcTestCases)
  | inl e => ~ runnable l claims req
      /\ refusal e = true
  end.
Proof.
  unfold validateRun. case_bool_decide; [split; [by intros []|done]|].
  destruct (Z.leb_spec (RcProblemID req) 0); [split; [intros []; lia|done]|].
  destruct (ParseLanguage _) as [lang|] eqn:EL.
  2:{ split; [|done]. intros []. by rewrite executable_parses in EL. }
  assert (lang = RcLanguage req) as -> by (unfold ParseLanguage in EL; case_bool_decide; congruence).
  destruct (IsExecutable _) eqn:EX; cbn [negb]; [|split; [intros []; congruence|done]].
  destruct (blank _) eqn:EB; [split; [intros [? ? ? [? ?]]; congruence|done]|].
  destruct (Z.ltb_spec (LimSourceCodeBytes l) (len (RcSourceCode req))); [split; [intros [? ? ? [? ?]]; lia|done]|].
  destruct (Z.eqb_spec (Z.of_nat (length (RcTestCases req))) 0); cbn [orb]; [split; [intros []; lia|done]|].
  destruct (Z.ltb_spec (MaxTestCases l) (Z.of_nat (length (RcTestCases req)))); [split; [intros []; lia|done]|].
  pose proof (validate_cases_spec l (RcTestCases req) []) as V. destruct (validateTestCases l [] _) as [e|cases].
  - destruct V as [V1 V2]. split; [|done]. intros []. apply V2. split_and!; [done|done|]. set_solver.
  - destruct V as (-> & F & N & _). split; [|done]. constructor; try done. lia.
Qed.
