(* ===== verification/SubmissionQueries.v ===== *)
(** The use cases of the submission service that read
    (services/submission/internal/application/usecase): one submission
    (user/get_submission.go), the listings (user/list_my_submissions.go,
    admin/list_submissions.go), the detail for moderators
    (admin/get_submission_detail.go) and the profile statistics
    (user/get_my_profile_stats.go, get_public_profile_stats.go); then what they
    answer over the content of the database.  The queries behind them are in
    PgQueries.v. *)

From Stdlib Require Import SpecFloat.
From S2P Require Import Prelude GoString GoError GoMonad SubmissionDomain SubmissionPorts SubmissionClients RunCode.

(** ** What the use cases share *)

(** [if errors.Is(err, context.Canceled) || ... { return err }; return ErrInternalServer.Wrap(err)]. *)
Definition query_error (err : error) : error := if is_context_error err then err else Wrap ErrInternalServer err.

(** A pointer that must not be nil. *)
Definition some_or {W A} (e : error) (o : option A) : M W A := match o with Some a => ret a | None => fail e end.

Definition defaultSubmissionsPage : Z := 1.
Definition defaultSubmissionsLimit : Z := 20.
Definition maxSubmissionsLimit : Z := 100.

Definition request_page (page : option Z) : error + Z :=
  match page with
  | Some p => if p <=? 0 then inl ErrInvalidPage else inr p
  | None => inr defaultSubmissionsPage
  end.
Definition request_limit (limit : option Z) : error + Z :=
  match limit with
  | Some l => if (l <=? 0) || (maxSubmissionsLimit <? l) then inl ErrInvalidLimit else inr l
  | None => inr defaultSubmissionsLimit
  end.

(** [(page - 1) * limit] and the number of pages, in 64 bits. *)
Definition page_start (page limit : Z) : Z := wrap64 (wrap64 (page - 1) * limit).
Definition page_total (total limit : Z) : Z :=
  if 0 <? total then Z.quot (wrap64 (wrap64 (total + limit) - 1)) limit else 0.

Record PaginationResponse := mkPages { PgPage : Z; PgLimit : Z; PgTotal : Z; PgTotalPages : Z }.

(** [submission_response.go]: nothing is known of the tests of a submission
    that is being judged and has no results. *)
Definition testcaseSummaryForStatus (status : Status) (summary : option SubmissionResultSummary) : option Z * option Z :=
  match summary with
  | Some s => (Some s.(Passed), Some s.(Total))
  | None => if IsTerminalStatus status then (Some 0, Some 0) else (None, None)
  end.

(** ** Data *)

Record GetSubmissionResponse := mkGetResp {
  GrID : Z; GrProblemID : Z; GrProblemTitle : string; GrUserID : string; GrUsername : string; GrLanguage : string;
  GrSourceCode : string; GrStatus : string; GrExecutionTimeMS : option Z; GrMemoryUsedKB : option Z;
  GrPassedTestCases : option Z; GrTotalTestCases : option Z; GrCompileOutput : option string;
  GrErrorMessage : option string; GrCreatedAt : Time; GrUpdatedAt : Time }.

Record ListMySubmissionsRequest := mkListMine {
  LmPage : option Z; LmLimit : option Z; LmStatus : string; LmLanguage : string; LmProblemID : option Z }.
Record ListAdminSubmissionsRequest := mkListAdmin {
  LaPage : option Z; LaLimit : option Z; LaStatus : option string; LaLanguage : option string;
  LaProblemID : option Z; LaUserID : option string }.

Record SubmissionListItem := mkListItem {
  LiID : Z; LiProblemID : Z; LiProblemTitle : string; LiLanguage : string; LiStatus : string;
  LiExecutionTimeMS : option Z; LiMemoryUsedKB : option Z; LiPassedTestCases : option Z; LiTotalTestCases : option Z;
  LiCreatedAt : Time }.
Record AdminSubmissionListItem := mkAdminItem {
  AiID : Z; AiProblemID : Z; AiProblemTitle : string; AiUserID : string; AiUsername : string; AiLanguage : string;
  AiStatus : string; AiCreatedAt : Time }.

Record AdminSubmissionTestResult := mkTestRow {
  TrIndex : Z; TrStatus : string; TrRuntimeMS : option Z; TrMemoryKB : option Z }.
Record GetAdminSubmissionDetailResponse := mkDetail {
  GdID : Z; GdProblemID : Z; GdProblemTitle : string; GdUserID : string; GdUsername : string; GdLanguage : string;
  GdSourceCode : string; GdStatus : string; GdCurrentAttemptID : string; GdAttemptTrigger : option string;
  GdAttemptTriggeredByUserID : option string; GdAttemptCreatedAt : option Time; GdTestcaseVersion : option Z;
  GdDatasetChecksum : option string; GdPassedTestCount : Z; GdExecutedTestCount : Z; GdTotalTestCount : option Z;
  GdRuntimeMS : option Z; GdMemoryKB : option Z; GdCompileMessage : option string; GdJudgeMessage : option string;
  GdCreatedAt : Time; GdUpdatedAt : Time; GdTestResults : list AdminSubmissionTestResult }.

(** [outbound.UserProfileStats]; a distribution is a list of texts with their counts. *)
Record UserProfileStats := mkStats {
  UsTotalSubmissions : Z; UsAttemptedProblems : Z; UsAcceptedSubmissions : Z; UsSolvedProblems : Z;
  UsVerdicts : list (string * Z); UsLanguages : list (string * Z); UsActivity : list (string * Z) }.
Record GetMyProfileStatsResponse := mkProfile {
  GsTotalSubmissions : Z; GsAttemptedProblems : Z; GsAcceptedSubmissions : Z; GsSolvedProblems : Z;
  GsAcceptanceRate : spec_float; GsVerdictDistribution : list (string * Z);
  GsLanguageDistribution : list (string * Z); GsActivity : list (string * Z) }.

(** ** One submission *)

Section reading.
Context {W : Type} (sr : SubmissionRepository W) (sl : SubmissionListing W).

(** [getSubmissionUseCase.Execute] *)
Definition getSubmission (claims : Claims) (submissionID : Z) : M W GetSubmissionResponse :=
  if submissionID <=? 0 then fail ErrInvalidSubmissionID
  else if bool_decide (claims.(UserID) = ""%string) || bool_decide (claims.(ClaimRole) = ""%string)
  then fail ErrSubmissionUnauthenticated
  else if negb (known_role claims.(ClaimRole)) then fail ErrSubmissionForbidden
  else
    let* found := on_error (fun err => if errors_Is err ErrSubmissionNotFound then ErrSubmissionNotFound
                                       else query_error err) (SR_GetByID sr submissionID) in
    let* submission := some_or ErrInternalServer found in
    if negb (bool_decide (submission.(SubUserID) = claims.(UserID)))
       && negb (bool_decide (claims.(ClaimRole) = RoleModerator)) && negb (bool_decide (claims.(ClaimRole) = RoleAdmin))
    then fail ErrSubmissionNotFound
    else
      let* summaries := on_error query_error (SR_ResultSummaries sl [submission.(ID)]) in
      let '(passed, total) := testcaseSummaryForStatus submission.(SubStatus) (summaries !! submission.(ID)) in
      ret (mkGetResp submission.(ID) submission.(ProblemID) submission.(ProblemName) submission.(SubUserID)
             submission.(SubUsername) submission.(SubLanguage) submission.(SourceCode) submission.(SubStatus)
             submission.(ExecutionTime) submission.(MemoryUsed) passed total submission.(CompileOutput)
             submission.(ErrorMessage) submission.(CreatedAt) submission.(UpdatedAt)).

(** ** The listing of one's own submissions *)

Definition status_filter (value : string) : error + option string :=
  let status := TrimSpace value in
  if bool_decide (status = ""%string) then inr None
  else match ParseStatus status with Some _ => inr (Some status) | None => inl ErrInvalidSubmissionStatus end.

Definition language_filter (value : string) : error + option string :=
  let language := TrimSpace value in
  if bool_decide (language = ""%string) then inr None
  else match ParseLanguage language with
       | Some l => if IsExecutable l then inr (Some language) else inl ErrInvalidLanguage
       | None => inl ErrInvalidLanguage
       end.

Definition bad_problem (id : option Z) : bool := match id with Some p => p <=? 0 | None => false end.

(** The checks before the query: the filter, the page and its size. *)
Definition mine_filter (claims : Claims) (req : ListMySubmissionsRequest) : error + (ListSubmissionsFilter * Z * Z) :=
  if blank claims.(UserID) || bool_decide (claims.(ClaimRole) = ""%string) then inl ErrSubmissionUnauthenticated
  else if negb (known_role claims.(ClaimRole)) then inl ErrSubmissionForbidden
  else match request_page req.(LmPage) with inl e => inl e | inr page =>
  match request_limit req.(LmLimit) with inl e => inl e | inr limit =>
  match status_filter req.(LmStatus) with inl e => inl e | inr status =>
  match language_filter req.(LmLanguage) with inl e => inl e | inr language =>
    if bad_problem req.(LmProblemID) then inl ErrInvalidProblemID
    else inr (mkFilter (Some claims.(UserID)) status language req.(LmProblemID) limit (page_start page limit), page, limit)
  end end end end.

Definition list_item (summaries : gmap Z SubmissionResultSummary) (s : Submission) : SubmissionListItem :=
  let '(passed, total) := testcaseSummaryForStatus s.(SubStatus) (summaries !! s.(ID)) in
  mkListItem s.(ID) s.(ProblemID) s.(ProblemName) s.(SubLanguage) s.(SubStatus) s.(ExecutionTime) s.(MemoryUsed)
    passed total s.(CreatedAt).

(** [listMySubmissionsUseCase.Execute] *)
Definition listMySubmissions (claims : Claims) (req : ListMySubmissionsRequest)
    : M W (list SubmissionListItem * PaginationResponse) :=
  match mine_filter claims req with
  | inl e => fail e
  | inr (filter, page, limit) =>
      let* result := on_error query_error (SR_List sl filter) in
      let* items := some_or ErrInternalServer (mapM id result.(LItems)) in
      let* summaries := on_error query_error (SR_ResultSummaries sl (map ID items)) in
      ret (map (list_item summaries) items, mkPages page limit result.(LTotal) (page_total result.(LTotal) limit))
  end.

(** ** The listing for moderators *)

Definition parseOptionalStatus (value : option string) : error + option string :=
  match value with
  | None => inr None
  | Some v => let status := TrimSpace v in
      if bool_decide (status = ""%string) then inl ErrInvalidSubmissionStatus
      else match ParseStatus status with Some _ => inr (Some status) | None => inl ErrInvalidSubmissionStatus end
  end.

Definition parseOptionalLanguage (value : option string) : error + option string :=
  match value with
  | None => inr None
  | Some v => let language := TrimSpace v in
      if bool_decide (language = ""%string) then inl ErrInvalidLanguage
      else match ParseLanguage language with Some _ => inr (Some language) | None => inl ErrInvalidLanguage end
  end.

Definition parseOptionalUserID (value : option string) : error + option string :=
  match value with
  | None => inr None
  | Some v => let userID := TrimSpace v in
      if bool_decide (userID = ""%string) then inl ErrInvalidUserID else inr (Some userID)
  end.

Definition moderator (claims : Claims) : error + unit :=
  if blank claims.(UserID) || bool_decide (claims.(ClaimRole) = ""%string) then inl ErrSubmissionUnauthenticated
  else if negb (AtLeast claims.(ClaimRole) RoleModerator) then inl ErrSubmissionForbidden
  else inr tt.

Definition admin_filter (claims : Claims) (req : ListAdminSubmissionsRequest) : error + (ListSubmissionsFilter * Z * Z) :=
  match moderator claims with inl e => inl e | inr _ =>
  match request_page req.(LaPage) with inl e => inl e | inr page =>
  match request_limit req.(LaLimit) with inl e => inl e | inr limit =>
  match parseOptionalStatus req.(LaStatus) with inl e => inl e | inr status =>
  match parseOptionalLanguage req.(LaLanguage) with inl e => inl e | inr language =>
    if bad_problem req.(LaProblemID) then inl ErrInvalidProblemID
    else match parseOptionalUserID req.(LaUserID) with inl e => inl e | inr userID =>
      inr (mkFilter userID status language req.(LaProblemID) limit (page_start page limit), page, limit)
    end
  end end end end end.

Definition admin_item (s : Submission) : AdminSubmissionListItem :=
  mkAdminItem s.(ID) s.(ProblemID) s.(ProblemName) s.(SubUserID) s.(SubUsername) s.(SubLanguage) s.(SubStatus) s.(CreatedAt).

(** [listAdminSubmissionsUseCase.Execute] *)
Definition listAdminSubmissions (claims : Claims) (req : ListAdminSubmissionsRequest)
    : M W (list AdminSubmissionListItem * PaginationResponse) :=
  match admin_filter claims req with
  | inl e => fail e
  | inr (filter, page, limit) =>
      let* result := on_error query_error (SR_List sl filter) in
      let* items := some_or ErrInternalServer (mapM id result.(LItems)) in
      ret (map admin_item items, mkPages page limit result.(LTotal) (page_total result.(LTotal) limit))
  end.

(** ** The detail for moderators *)

(** [sort.SliceStable]: an element goes behind those that are not greater. *)
Fixpoint insert_stable {A} (less : A -> A -> bool) (x : A) (l : list A) : list A :=
  match l with
  | [] => [x]
  | y :: l' => if less x y then x :: l else y :: insert_stable less x l'
  end.
Definition sort_stable {A} (less : A -> A -> bool) (l : list A) : list A :=
  fold_left (fun acc x => insert_stable less x acc) l [].

Definition result_less (a b : option SubmissionResult) : bool :=
  match a, b with
  | None, _ => false
  | Some _, None => true
  | Some a, Some b => a.(TestIndex) <? b.(TestIndex)
  end.

Definition test_row (r : SubmissionResult) : AdminSubmissionTestResult :=
  mkTestRow r.(TestIndex) r.(ResStatus) r.(ResExecutionTime) r.(ResMemoryUsed).

Definition knownTotalFromAttempt (a : option SubmissionAttempt) : option Z := a ≫= AttTestCount.
Definition testcaseVersionFromAttempt (a : option SubmissionAttempt) : option Z := a ≫= AttTestcaseVersion.
Definition datasetChecksumFromAttempt (a : option SubmissionAttempt) : option string := a ≫= AttDatasetChecksum.

Definition passed_tests (rs : list SubmissionResult) : Z :=
  Z.of_nat (length (filter (fun r => r.(ResStatus) = ResultAccepted) rs)).

Definition detail (s : Submission) (attempt : option SubmissionAttempt) (results : list SubmissionResult)
    : GetAdminSubmissionDetailResponse :=
  mkDetail s.(ID) s.(ProblemID) s.(ProblemName) s.(SubUserID) s.(SubUsername) s.(SubLanguage) s.(SourceCode) s.(SubStatus)
    s.(CurrentAttemptID) (TriggerType <$> attempt) (attempt ≫= TriggeredByUserID) (AttCreatedAt <$> attempt)
    (testcaseVersionFromAttempt attempt) (datasetChecksumFromAttempt attempt) (passed_tests results)
    (Z.of_nat (length results)) (knownTotalFromAttempt attempt) s.(ExecutionTime) s.(MemoryUsed) s.(CompileOutput)
    s.(ErrorMessage) s.(CreatedAt) s.(UpdatedAt) (map test_row results).

(** [getAdminSubmissionDetailUseCase.Execute] *)
Definition getAdminSubmissionDetail (ar : option (AttemptRepository W)) (rr : ResultRepository W) (claims : Claims)
    (submissionID : Z) : M W GetAdminSubmissionDetailResponse :=
  match moderator claims with
  | inl e => fail e
  | inr _ =>
      if submissionID <=? 0 then fail ErrInvalidSubmissionID
      else
        let* found := on_error (fun err => if is_context_error err || errors_Is err ErrSubmissionNotFound then err
                                           else Wrap ErrInternalServer err) (SR_GetByID sr submissionID) in
        let* submission := some_or ErrSubmissionNotFound found in
        let* attempt :=
          match ar with
          | Some ar =>
              if blank submission.(CurrentAttemptID) then ret None
              else
                let* r := try (AR_GetByAttemptID ar submission.(CurrentAttemptID)) in
                match r with
                | inr attempt => ret (Some attempt)
                | inl err => if errors_Is err ErrSubmissionNotFound then ret None else fail (query_error err)
                end
          | None => ret None
          end in
        let* results := on_error query_error
            (RR_GetBySubmissionIDAndAttemptID rr submission.(ID) submission.(CurrentAttemptID)) in
        let* results := some_or ErrInternalServer (mapM id (sort_stable result_less results)) in
        ret (detail submission attempt results)
  end.
End reading.

(** ** Profile statistics *)

Definition profileStatsActivityDays : Z := 365.
Definition day_ns : Z := 86400 * 10 ^ 9.

(** [math.Round]: half away from zero. *)
Definition math_Round (x : spec_float) : spec_float :=
  match x with
  | S754_finite s m e =>
      if 0 <=? e then x
      else let q := (Z.pos m + 2 ^ (- e - 1)) / 2 ^ (- e) in
           if q =? 0 then S754_zero s else binary_normalize 53 1024 (if s then - q else q) 0 s
  | _ => x
  end.

Definition acceptanceRate (accepted total : Z) : spec_float :=
  if total =? 0 then float64_of_Z 0
  else SFdiv 53 1024
         (math_Round (SFmul 53 1024 (SFdiv 53 1024 (float64_of_Z accepted) (float64_of_Z total)) (float64_of_Z 10000)))
         (float64_of_Z 100).

(** Midnight, [profileStatsActivityDays - 1] days ago. *)
Definition activity_since (now : Time) : Time := (now / day_ns - (profileStatsActivityDays - 1)) * day_ns.

Section statistics.
Context {W : Type} (now : M W Time) (GetUserProfileStats : string -> Time -> M W UserProfileStats).

Definition getProfileStats (userID : string) : M W GetMyProfileStatsResponse :=
  let* t := now in
  let* stats := on_error query_error (GetUserProfileStats userID (activity_since t)) in
  ret (mkProfile stats.(UsTotalSubmissions) stats.(UsAttemptedProblems) stats.(UsAcceptedSubmissions)
         stats.(UsSolvedProblems) (acceptanceRate stats.(UsAcceptedSubmissions) stats.(UsTotalSubmissions))
         stats.(UsVerdicts) stats.(UsLanguages) stats.(UsActivity)).

(** [getMyProfileStatsUseCase.Execute] *)
Definition getMyProfileStats (claims : Claims) : M W GetMyProfileStatsResponse :=
  if blank claims.(UserID) || bool_decide (claims.(ClaimRole) = ""%string) then fail ErrSubmissionUnauthenticated
  else if negb (known_role claims.(ClaimRole)) then fail ErrSubmissionForbidden
  else getProfileStats claims.(UserID).

(** [getPublicProfileStatsUseCase.Execute] *)
Definition getPublicProfileStats (ResolvePublicUser : string -> M W PublicUser) (username : string)
    : M W GetMyProfileStatsResponse :=
  let* user := ResolvePublicUser username in
  if bool_decide (user.(PuID) = ""%string) then fail ErrAuthServiceUnavailable
  else getProfileStats user.(PuID).
End statistics.

(** A page number that wraps shows the first page. *)
Example wrapped_page : page_start 4611686018427387905 4 = 0.
Proof. reflexivity. Qed.
Example rate_third : acceptanceRate 1 3 = SFdiv 53 1024 (float64_of_Z 3333) (float64_of_Z 100).
Proof. vm_compute. reflexivity. Qed.
Example rate_all : acceptanceRate 7 7 = float64_of_Z 100.
Proof. vm_compute. reflexivity. Qed.

(** What the reading use cases of SubmissionQueries.v answer, over the content of
    the database: the contract [ReadingLaws] of the repositories they read
    from (discharged in PgQueries.v), the listing as a sorted list, and lemmas
    on the use cases. *)

(** ** The reference *)

(** [ORDER BY created_at DESC, id DESC] *)
Definition newest (a b : Submission) : Prop :=
  b.(CreatedAt) < a.(CreatedAt) \/ (b.(CreatedAt) = a.(CreatedAt) /\ b.(ID) <= a.(ID)).
#[export] Instance newest_dec a b : Decision (newest a b).
Proof. unfold newest. apply _. Defined.
#[export] Instance newest_trans : Transitive newest.
Proof. intros a b c. unfold newest. lia. Qed.
#[export] Instance newest_total : base.Total newest.
Proof. intros a b. unfold newest. lia. Qed.

Definition wants {A} `{EqDecision A} (o : option A) (x : A) : bool :=
  match o with Some v => bool_decide (x = v) | None => true end.

Definition matching (f : ListSubmissionsFilter) (s : Submission) : bool :=
  wants f.(FUserID) s.(SubUserID) && wants f.(FStatus) s.(SubStatus) && wants f.(FLanguage) s.(SubLanguage)
  && wants f.(FProblemID) s.(ProblemID).

Definition rows_of {A} (m : gmap Z A) : list A := map snd (map_to_list m).

(** Everything a listing with a filter shows, in its order. *)
Definition listing (f : ListSubmissionsFilter) (st : store) : list Submission :=
  merge_sort newest (filter (fun s => matching f s = true) (rows_of st.(subs))).

(** The columns a listing reads. *)
Definition listed (s : Submission) : Submission :=
  mkSubmission s.(ID) s.(ProblemID) s.(ProblemName) s.(SubUserID) s.(SubUsername) s.(SubLanguage) "" "" s.(SubStatus)
    s.(ExecutionTime) s.(MemoryUsed) None None s.(CreatedAt) 0.

Definition page_rows (f : ListSubmissionsFilter) (st : store) : list Submission :=
  take (Z.to_nat f.(FLimit)) (drop (Z.to_nat f.(FOffset)) (listing f st)).

(** The results of the current attempt of a submission. *)
Definition current_results (st : store) (s : Submission) : list SubmissionResult :=
  filter (of_attempt s.(ID) s.(CurrentAttemptID)) (rows_of st.(results)).

Definition summary_of (st : store) (s : Submission) : option SubmissionResultSummary :=
  match current_results st s with
  | [] => None
  | rs => Some (mkSummary s.(ID) (passed_tests rs) (Z.of_nat (length rs)))
  end.

Record keyed (st : store) : Prop := {
  ky_subs : forall id s, st.(subs) !! id = Some s -> s.(ID) = id;
  ky_results : forall id r, st.(results) !! id = Some r -> r.(ResID) = id }.

Class ReadingLaws {W} (sr : SubmissionRepository W) (sl : SubmissionListing W) (content : W -> store) := {
  rl_keyed : forall w, keyed (content w);
  rl_get : forall id w r w', SR_GetByID sr id w = (r, w') -> content w' = content w
    /\ match r with
       | inr o => exists s, o = Some s /\ (content w).(subs) !! id = Some s
       | inl e => errors_Is e ErrSubmissionNotFound = true -> (content w).(subs) !! id = None
       end;
  rl_list : forall f w r w', SR_List sl f w = (r, w') -> content w' = content w
    /\ match r with
       | inr res => res.(LItems) = map (fun s => Some (listed s)) (page_rows f (content w))
           /\ res.(LTotal) = Z.of_nat (length (listing f (content w)))
       | inl _ => True
       end;
  rl_summaries : forall ids w r w', SR_ResultSummaries sl ids w = (r, w') -> content w' = content w
    /\ match r with
       | inr m => forall id s, id ∈ ids -> (content w).(subs) !! id = Some s -> m !! id = summary_of (content w) s
       | inl _ => True
       end;
}.

(** ** What a reader sees *)

(** A finished submission has a score, even without results; one that is being
    judged only once results are there. *)
Definition score (st : store) (s : Submission) : option Z * option Z :=
  let rs := current_results st s in
  if bool_decide (rs = []) && negb (IsTerminalStatus s.(SubStatus)) then (None, None)
  else (Some (passed_tests rs), Some (Z.of_nat (length rs))).

Lemma score_summary st s : testcaseSummaryForStatus s.(SubStatus) (summary_of st s) = score st s.
Proof.
  unfold testcaseSummaryForStatus, summary_of, score. destruct (current_results st s) as [|r rs] eqn:E; cbn [Passed Total].
  - destruct (IsTerminalStatus _); [done|]. by rewrite bool_decide_eq_true_2.
  - by rewrite bool_decide_eq_false_2.
Qed.

Lemma passed_le rs : 0 <= passed_tests rs <= Z.of_nat (length rs).
Proof. unfold passed_tests. pose proof (length_filter (fun r => ResStatus r = ResultAccepted) rs). lia. Qed.

Definition shown_item (st : store) (s : Submission) : SubmissionListItem :=
  mkListItem s.(ID) s.(ProblemID) s.(ProblemName) s.(SubLanguage) s.(SubStatus) s.(ExecutionTime) s.(MemoryUsed)
    (score st s).1 (score st s).2 s.(CreatedAt).

Definition shown (st : store) (s : Submission) : GetSubmissionResponse :=
  mkGetResp s.(ID) s.(ProblemID) s.(ProblemName) s.(SubUserID) s.(SubUsername) s.(SubLanguage) s.(SourceCode) s.(SubStatus)
    s.(ExecutionTime) s.(MemoryUsed) (score st s).1 (score st s).2 s.(CompileOutput) s.(ErrorMessage) s.(CreatedAt) s.(UpdatedAt).

(** ** The listing *)

Lemma listing_rows f st : listing f st ≡ₚ filter (fun s => matching f s = true) (rows_of st.(subs)).
Proof. apply merge_sort_Permutation. Qed.

Lemma elem_rows {A} (m : gmap Z A) a : a ∈ rows_of m <-> exists i, m !! i = Some a.
Proof.
  unfold rows_of. rewrite list_elem_of_fmap. split.
  - intros ([i x] & -> & H%elem_of_map_to_list). eauto.
  - intros [i H%elem_of_map_to_list]. by exists (i, a).
Qed.

Lemma elem_listing f st s : s ∈ listing f st <-> matching f s = true /\ exists i, st.(subs) !! i = Some s.
Proof. by rewrite listing_rows, list_elem_of_filter, elem_rows. Qed.

Lemma listing_sorted f st : StronglySorted newest (listing f st).
Proof. apply (StronglySorted_merge_sort newest). Qed.

Lemma listing_distinct f st : keyed st -> NoDup (map ID (listing f st)).
Proof.
  intros [K _]. rewrite listing_rows. apply (NoDup_fmap_2_strong ID).
  - intros a b [_ HA]%list_elem_of_filter [_ HB]%list_elem_of_filter E. apply elem_rows in HA as [i HA], HB as [j HB].
    pose proof (K _ _ HA). pose proof (K _ _ HB). assert (i = j) as -> by lia. rewrite HA in HB. by injection HB.
  - apply NoDup_filter. unfold rows_of. apply (NoDup_fmap_2_strong snd); [|apply NoDup_map_to_list].
    intros [i a] [j b] HA%elem_of_map_to_list HB%elem_of_map_to_list E. cbn in E. subst b.
    by rewrite <- (K _ _ HA), <- (K _ _ HB).
Qed.

(** What the checks of a request leave. *)
Lemma mine_filter_bounds claims req f page limit : mine_filter claims req = inr (f, page, limit) ->
  1 <= page /\ 1 <= limit <= 100 /\ f.(FUserID) = Some claims.(UserID) /\ f.(FLimit) = limit /\ f.(FOffset) = page_start page limit.
Proof.
  unfold mine_filter, request_page, request_limit, defaultSubmissionsPage, defaultSubmissionsLimit, maxSubmissionsLimit. intros E.
  repeat (case_match; try done). all: injection E as <- <- <-; simplify_eq; split_and!; try done; lia.
Qed.

Lemma page_rows_listing f st s : s ∈ page_rows f st -> s ∈ listing f st.
Proof.
  unfold page_rows. intros H. rewrite <- (take_drop (Z.to_nat (FOffset f)) (listing f st)). apply elem_of_app. right.
  rewrite <- (take_drop (Z.to_nat (FLimit f)) (drop _ _)). apply elem_of_app. by left.
Qed.

Lemma mapM_some {A} (l : list A) : mapM id (map Some l) = Some l.
Proof. induction l as [|a l IH]; [done|]. cbn. by rewrite IH. Qed.

(** ** The use cases *)

Section use_cases.
Context {W : Type} (sr : SubmissionRepository W) (sl : SubmissionListing W) (content : W -> store)
  {RL : ReadingLaws sr sl content}.

Lemma list_rows f w r w' : (let* result := on_error query_error (SR_List sl f) in
    let* items := some_or ErrInternalServer (mapM id result.(LItems)) in ret (items, result.(LTotal))) w = (r, w') ->
  content w' = content w
  /\ match r with
     | inr (items, total) => items = map listed (page_rows f (content w)) /\ total = Z.of_nat (length (listing f (content w)))
     | inl e => exists e0, e = query_error e0
     end.
Proof.
  unfold bind, on_error. destruct (SR_List sl f w) as [[e|res] w1] eqn:E; apply (rl_list (sr := sr)) in E as [E1 E2].
  - intros [= <- <-]. eauto.
  - destruct E2 as [EI ET]. rewrite EI, <- map_map, mapM_some. intros [= <- <-]. by rewrite ET.
Qed.

(** A page of one's own submissions. *)
Lemma my_page claims req w items pages w' : listMySubmissions sl claims req w = (inr (items, pages), w') ->
  exists f page limit, mine_filter claims req = inr (f, page, limit) /\ content w' = content w
    /\ items = map (shown_item (content w)) (page_rows f (content w))
    /\ let n := Z.of_nat (length (listing f (content w))) in pages = mkPages page limit n (page_total n limit).
Proof.
  unfold listMySubmissions. destruct (mine_filter claims req) as [e|[[f page] limit]]; [done|]. intros E.
  apply bind_inr_inv in E as (res & w1 & E1 & E). apply on_error_inr, (rl_list (sr := sr)) in E1 as (C1 & EI & ET).
  rewrite EI, <- map_map, mapM_some in E. cbn [some_or] in E. apply bind_inr_inv in E as (l & w2 & [= <- <-] & E).
  apply bind_inr_inv in E as (m & w3 & E3 & [= <- <- <-]). apply on_error_inr, (rl_summaries (sr := sr)) in E3 as [C3 HM].
  exists f, page, limit. split; [done|]. split; [congruence|]. split; [|by rewrite ET]. rewrite C1 in *.
  rewrite map_map. apply map_ext_in. intros s HS%list_elem_of_In.
  assert ((content w).(subs) !! s.(ID) = Some s) as HK.
  { apply page_rows_listing, elem_listing in HS as [_ [i Hi]]. by rewrite (ky_subs _ (rl_keyed w) _ _ Hi). }
  unfold list_item, shown_item. cbn [listed ID SubStatus]. rewrite (HM s.(ID) s).
  - rewrite score_summary. by destruct (score (content w) s).
  - rewrite map_map. apply list_elem_of_fmap. by exists s.
  - done.
Qed.

(** Reading one submission: who may see it sees it, for anybody else it is as
    if it did not exist. *)
Definition may_read (claims : Claims) (s : Submission) : Prop :=
  s.(SubUserID) = claims.(UserID) \/ AtLeast claims.(ClaimRole) RoleModerator = true.

Lemma may_read_checks claims s : known_role claims.(ClaimRole) = true ->
  negb (bool_decide (s.(SubUserID) = claims.(UserID)))
  && negb (bool_decide (claims.(ClaimRole) = RoleModerator)) && negb (bool_decide (claims.(ClaimRole) = RoleAdmin)) = false
  <-> may_read claims s.
Proof.
  unfold known_role, may_read, AtLeast, Level. rewrite bool_decide_eq_true. intros HR.
  rewrite !andb_false_iff, !negb_false_iff, !bool_decide_eq_true.
  assert (ClaimRole claims = RoleUser \/ ClaimRole claims = RoleContributor \/ ClaimRole claims = RoleModerator
    \/ ClaimRole claims = RoleAdmin) as [->|[->|[->| ->]]] by set_solver; vm_compute; naive_solver.
Qed.

Lemma get_submission_cases claims id w r w' : getSubmission sr sl claims id w = (r, w') ->
  content w' = content w
  /\ (0 < id -> claims.(UserID) <> ""%string -> known_role claims.(ClaimRole) = true ->
      (exists s, (content w).(subs) !! id = Some s /\ may_read claims s /\ r = inr (shown (content w) s))
      \/ (r = inl ErrSubmissionNotFound /\ forall s, (content w).(subs) !! id = Some s -> ~ may_read claims s)
      \/ exists e, r = inl (query_error e)).
Proof.
  unfold getSubmission. destruct (Z.leb_spec id 0); [intros [= <- <-]; split; [done|lia]|].
  case_bool_decide as HU; cbn [orb]; [intros [= <- <-]; split; [done|by intros]|].
  destruct (bool_decide (ClaimRole claims = "")) eqn:HE.
  { intros [= <- <-]. split; [done|]. intros _ _ HR. exfalso. apply bool_decide_eq_true in HE. rewrite HE in HR. by vm_compute in HR. }
  destruct (known_role (ClaimRole claims)) eqn:HR; cbn [negb]; [|intros [= <- <-]; split; [done|by intros]].
  unfold bind at 1, on_error at 1. destruct (SR_GetByID sr id w) as [[e|o] w1] eqn:E1; apply (rl_get (sl := sl)) in E1 as [C1 H1].
  - intros [= <- <-]. split; [done|]. intros _ _ _. right. destruct (errors_Is e ErrSubmissionNotFound) eqn:EN; [|right; eauto].
    left. split; [done|]. intros s HS. by rewrite H1 in HS.
  - destruct H1 as (s & -> & HS). cbn [some_or]. unfold bind at 1. cbn [ret].
    destruct (negb _ && _ && _) eqn:HM.
    + intros [= <- <-]. split; [done|]. intros _ _ _. right. left. split; [done|]. intros s' HS'. rewrite HS in HS'.
      injection HS' as <-. rewrite <- may_read_checks by done. by rewrite HM.
    + apply may_read_checks in HM; [|done]. unfold bind, on_error.
      destruct (SR_ResultSummaries sl [ID s] w1) as [[e|m] w2] eqn:E2; apply (rl_summaries (sr := sr)) in E2 as [C2 H2].
      * intros [= <- <-]. split; [congruence|]. intros _ _ _. right. right. eauto.
      * assert (ID s = id) as EI by (by eapply ky_subs; [apply (rl_keyed w)|]).
        rewrite (H2 (ID s) s); [|left|by rewrite EI, C1]. rewrite score_summary, C1.
        destruct (score (content w) s) as [p t] eqn:ES. intros [= <- <-]. split; [congruence|]. intros _ _ _. left.
        exists s. split; [done|]. split; [done|]. unfold shown. by rewrite ES.
Qed.
End use_cases.
