(* ===== verification/PgQueries.v ===== *)
(** The queries of the submission repositories on PostgreSQL
    (services/submission/internal/adapter/outbound/persistence/postgres/
    submission.go and submission_result.go), and that they meet the contract of
    SubmissionQueries.v.  GORM and PostgreSQL are a parameter: a query is a
    function of the two tables, which the database evaluates ([Reads]).  At the
    end, that the counts of a profile fit together. *)

From S2P Require Import Prelude GoString GoError GoMonad GoTime SubmissionDomain SubmissionPorts PgStore SubmissionQueries.
From S2P Require PgCatalogue.

(** ** Queries *)

(** The tables [submissions] and [submission_results]. *)
Record sub_tables := mkSubTables { q_subs : gmap Z SubmissionDAO.t; q_results : gmap Z SubmissionResultDAO.t }.

Record Reads (W : Type) := {
  (* the rows of a query, an order, OFFSET (not positive: none) and LIMIT *)
  q_select : forall A : Type, (sub_tables -> list A) -> (A -> A -> bool) -> Z -> option Z -> M W (list A);
  (* SELECT count( * ) *)
  q_count : forall A : Type, (sub_tables -> list A) -> M W Z;
}.
Arguments q_select {W} _ {A}. Arguments q_count {W} _ {A}.

Definition any_order {A} (a b : A) : bool := false.

(** GROUP BY: the values of a column with their rows. *)
Definition group_by {A K} `{EqDecision K} (key : A -> K) (l : list A) : list (K * list A) :=
  map (fun k => (k, filter (fun a => key a = k) l)) (remove_dups (map key l)).

(** COUNT over the rows that satisfy a condition, and COUNT(DISTINCT ..). *)
Definition count_where {A} (p : A -> bool) (l : list A) : Z := Z.of_nat (length (filter (fun a => p a = true) l)).
Definition count_distinct {A K} `{EqDecision K} (key : A -> K) (l : list A) : Z := Z.of_nat (length (remove_dups (map key l))).

(** [applyListFilters] *)
Definition filter_eq {A} `{EqDecision A} (o : option A) (x : A) : bool :=
  match o with Some v => bool_decide (x = v) | None => true end.
Definition applyListFilters (f : ListSubmissionsFilter) (d : SubmissionDAO.t) : bool :=
  filter_eq f.(FUserID) d.(SubmissionDAO.UserID) && filter_eq f.(FStatus) d.(SubmissionDAO.Status)
  && filter_eq f.(FLanguage) d.(SubmissionDAO.Language) && filter_eq f.(FProblemID) d.(SubmissionDAO.ProblemID).

(** The columns of the listing; the fields of the others keep their zero value. *)
Definition list_columns (d : SubmissionDAO.t) : SubmissionDAO.t :=
  SubmissionDAO.mk d.(SubmissionDAO.ID) d.(SubmissionDAO.ProblemID) d.(SubmissionDAO.ProblemName) d.(SubmissionDAO.UserID)
    d.(SubmissionDAO.Username) d.(SubmissionDAO.Language) "" "" d.(SubmissionDAO.Status) d.(SubmissionDAO.ExecutionTime)
    d.(SubmissionDAO.MemoryUsed) None None d.(SubmissionDAO.CreatedAt) 0.

(** [Order("created_at DESC, id DESC")] *)
Definition newest_first (a b : SubmissionDAO.t) : bool :=
  (b.(SubmissionDAO.CreatedAt) <? a.(SubmissionDAO.CreatedAt))
  || ((a.(SubmissionDAO.CreatedAt) =? b.(SubmissionDAO.CreatedAt)) && (b.(SubmissionDAO.ID) <? a.(SubmissionDAO.ID))).

Definition sub_rows (p : SubmissionDAO.t -> bool) (t : sub_tables) : list SubmissionDAO.t :=
  filter (fun d => p d = true) (rows_of t.(q_subs)).
Definition result_rows (p : SubmissionResultDAO.t -> bool) (t : sub_tables) : list SubmissionResultDAO.t :=
  filter (fun d => p d = true) (rows_of t.(q_results)).

(** The rows of the join with the submissions, of their current attempts. *)
Definition of_current (t : sub_tables) (ids : list Z) (r : SubmissionResultDAO.t) : bool :=
  bool_decide (r.(SubmissionResultDAO.SubmissionID) ∈ ids)
  && match t.(q_subs) !! r.(SubmissionResultDAO.SubmissionID) with
     | Some d => bool_decide (r.(SubmissionResultDAO.AttemptID) = d.(SubmissionDAO.CurrentAttemptID))
     | None => false
     end.

Definition accepted_row (r : SubmissionResultDAO.t) : bool := bool_decide (r.(SubmissionResultDAO.Status) = ResultAccepted).

Definition summary_rows (ids : list Z) (t : sub_tables) : list SubmissionResultSummary :=
  map (fun g => mkSummary g.1 (count_where accepted_row g.2) (Z.of_nat (length g.2)))
    (group_by SubmissionResultDAO.SubmissionID (result_rows (of_current t ids) t)).

(** ** Profile statistics *)

Definition own_rows (userID : string) : sub_tables -> list SubmissionDAO.t :=
  sub_rows (fun d => bool_decide (d.(SubmissionDAO.UserID) = userID)).

Definition accepted_sub (d : SubmissionDAO.t) : bool := bool_decide (d.(SubmissionDAO.Status) = StatusAccepted).

(** total, attempted, accepted, solved *)
Definition summary_row (userID : string) (t : sub_tables) : list (Z * Z * Z * Z) :=
  let own := own_rows userID t in
  [(Z.of_nat (length own), count_distinct SubmissionDAO.ProblemID own, count_where accepted_sub own,
    count_distinct SubmissionDAO.ProblemID (filter (fun d => accepted_sub d = true) own))].

Definition counted {K} (groups : list (K * list SubmissionDAO.t)) : list (K * Z) :=
  map (fun g => (g.1, Z.of_nat (length g.2))) groups.

Definition terminalStatuses : list Status := terminal_statuses.
Definition verdict_rows (userID : string) (t : sub_tables) : list (string * Z) :=
  counted (group_by SubmissionDAO.Status (filter (fun d => d.(SubmissionDAO.Status) ∈ terminalStatuses) (own_rows userID t))).
Definition language_rows (userID : string) (t : sub_tables) : list (string * Z) :=
  counted (group_by SubmissionDAO.Language (own_rows userID t)).

(** [(created_at AT TIME ZONE 'UTC')::date], as a day number, and its text. *)
Definition utc_day (d : SubmissionDAO.t) : Z := d.(SubmissionDAO.CreatedAt) / day_ns.
Definition to_char (day : Z) : string :=
  let '(y, m, d) := civil day in str (pad 4 y ++ chars "-" ++ pad 2 m ++ chars "-" ++ pad 2 d).
Definition activity_rows (userID : string) (since : Time) (t : sub_tables) : list (Z * Z) :=
  counted (group_by utc_day (filter (fun d => since <= d.(SubmissionDAO.CreatedAt)) (own_rows userID t))).

Section queries.
Context {W : Type} (ts : TableOps W SubmissionDAO.t) (db : Reads W) (text_before : string -> string -> bool).

(** [Order("count DESC, <text> ASC")] *)
Definition by_count (a b : string * Z) : bool :=
  (b.2 <? a.2) || ((a.2 =? b.2) && text_before a.1 b.1).
Definition by_day (a b : Z * Z) : bool := a.1 <? b.1.

(** [submissionRepository.List] *)
Definition pg_List (f : ListSubmissionsFilter) : M W ListSubmissionsResult :=
  let* total := on_error (wrapf "count submissions") (q_count db (sub_rows (applyListFilters f))) in
  let* daos := on_error (wrapf "list submissions")
      (q_select db (fun t => map list_columns (sub_rows (applyListFilters f) t)) newest_first f.(FOffset) (Some f.(FLimit))) in
  ret (mkList (map (fun d => Some (toSubmissionEntity d)) daos) total).

(** [submissionRepository.ResultSummaries] *)
Definition pg_ResultSummaries (submissionIDs : list Z) : M W (gmap Z SubmissionResultSummary) :=
  if bool_decide (submissionIDs = []) then ret ∅
  else
    let* rows := on_error (wrapf "summarize submission results") (q_select db (summary_rows submissionIDs) any_order 0 None) in
    ret (fold_left (fun m s => <[s.(SumSubmissionID) := s]> m) rows ∅).

(** [submissionRepository.GetStreamSnapshot] *)
Definition pg_GetStreamSnapshot (submissionID : Z) : M W (option SubmissionStreamSnapshot) :=
  let* daos := on_error (wrapf ("get submission stream snapshot " +:+ Itoa submissionID))
      (q_select db (sub_rows (fun d => d.(SubmissionDAO.ID) =? submissionID))
         (fun a b => a.(SubmissionDAO.ID) <? b.(SubmissionDAO.ID)) 0 (Some 1)) in
  match daos with
  | [] => fail ErrSubmissionNotFound
  | d :: _ => ret (Some (mkSnapshot d.(SubmissionDAO.ID) d.(SubmissionDAO.UserID) d.(SubmissionDAO.CurrentAttemptID)
                           d.(SubmissionDAO.Status) d.(SubmissionDAO.UpdatedAt)))
  end.

(** [submissionResultRepository.GetBySubmissionID] and its variant for one attempt *)
Definition by_index (a b : SubmissionResultDAO.t) : bool := a.(SubmissionResultDAO.TestIndex) <? b.(SubmissionResultDAO.TestIndex).
Definition pg_GetBySubmissionID (submissionID : Z) : M W (list (option SubmissionResult)) :=
  let* daos := q_select db (result_rows (fun d => d.(SubmissionResultDAO.SubmissionID) =? submissionID)) by_index 0 None in
  ret (map (fun d => Some (toSubmissionResultEntity d)) daos).
Definition pg_GetBySubmissionIDAndAttemptID (submissionID : Z) (attemptID : string) : M W (list (option SubmissionResult)) :=
  let attemptID := TrimSpace attemptID in
  if bool_decide (attemptID = ""%string) then ret []
  else
    let* daos := q_select db (result_rows (result_of submissionID attemptID)) by_index 0 None in
    ret (map (fun d => Some (toSubmissionResultEntity d)) daos).

(** [submissionResultRepository.DeleteBySubmissionID] *)
Definition pg_DeleteBySubmissionID (tr : TableOps W SubmissionResultDAO.t) (submissionID : Z) : M W unit :=
  t_delete tr (fun d => d.(SubmissionResultDAO.SubmissionID) =? submissionID).

(** [submissionRepository.GetUserProfileStats] *)
Definition pg_GetUserProfileStats (userID : string) (activitySince : Time) : M W UserProfileStats :=
  let* summary := on_error (wrapf "get user profile stats summary") (q_select db (summary_row userID) any_order 0 None) in
  let* verdicts := on_error (wrapf "get user profile stats verdict distribution") (q_select db (verdict_rows userID) by_count 0 None) in
  let* languages := on_error (wrapf "get user profile stats language distribution") (q_select db (language_rows userID) by_count 0 None) in
  let* activity := on_error (wrapf "get user profile stats activity") (q_select db (activity_rows userID activitySince) by_day 0 None) in
  let '(total, attempted, accepted, solved) := match summary with row :: _ => row | [] => (0, 0, 0, 0) end in
  ret (mkStats total attempted accepted solved verdicts languages (map (fun r => (to_char r.1, r.2)) activity)).

Definition pg_listing : SubmissionListing W := {| SR_List := pg_List; SR_ResultSummaries := pg_ResultSummaries |}.

(** ** What is documented of the queries *)

Class ReadLaws (view : W -> sub_tables) := {
  rd_keys : forall w, (forall id d, (view w).(q_subs) !! id = Some d -> d.(SubmissionDAO.ID) = id)
    /\ forall id d, (view w).(q_results) !! id = Some d -> d.(SubmissionResultDAO.ID) = id;
  rd_first : forall p w r w', t_first ts p w = (r, w') -> view w' = view w
    /\ match r with
       | inr d => p d = true /\ exists id, (view w).(q_subs) !! id = Some d
       | inl e => (e = gorm_ErrRecordNotFound /\ forall id d, (view w).(q_subs) !! id = Some d -> p d = false)
                  \/ PgCatalogue.foreign e
       end;
  rd_select : forall A (q : sub_tables -> list A) o k n w r w', q_select db q o k n w = (r, w') -> view w' = view w
    /\ match r with inr l => PgCatalogue.page_of (q (view w)) o k n l | inl e => PgCatalogue.foreign e end;
  rd_count : forall A (q : sub_tables -> list A) w r w', q_count db q w = (r, w') -> view w' = view w
    /\ match r with inr n => n = Z.of_nat (length (q (view w))) | inl e => PgCatalogue.foreign e end;
}.
End queries.
Arguments rd_keys {W ts db view _}. Arguments rd_first {W ts db view _}. Arguments rd_select {W ts db view _}.
Arguments rd_count {W ts db view _}.

(** The content of the tables as entities. *)
Definition entities (t : sub_tables) : store :=
  mkStore (toSubmissionEntity <$> t.(q_subs)) ∅ (toSubmissionResultEntity <$> t.(q_results)) ∅.

(** ** Lists *)

Lemma rows_of_fmap {A B} (f : A -> B) (m : gmap Z A) : rows_of (f <$> m) ≡ₚ map f (rows_of m).
Proof. unfold rows_of. by rewrite map_to_list_fmap, !map_map. Qed.

Lemma filter_map_comm {A B} (f : A -> B) (P : B -> Prop) `{forall b, Decision (P b)} (Q : A -> Prop) `{forall a, Decision (Q a)} l :
  (forall a, P (f a) <-> Q a) -> filter P (map f l) = map f (filter Q l).
Proof.
  intros HPQ. induction l as [|a l IH]; [done|]. cbn [map]. rewrite !filter_cons, IH. specialize (HPQ a).
  by destruct (decide (P (f a))), (decide (Q a)); try tauto.
Qed.

Lemma elem_group {A K} `{EqDecision K} (key : A -> K) l k g :
  (k, g) ∈ group_by key l <-> k ∈ map key l /\ g = filter (fun a => key a = k) l.
Proof.
  unfold group_by. rewrite list_elem_of_fmap. split.
  - intros (x & E & H). injection E as -> ->. rewrite elem_of_remove_dups in H. by split.
  - intros [H ->]. exists k. split; [done|]. by apply elem_of_remove_dups.
Qed.

Lemma group_keys {A K} `{EqDecision K} (key : A -> K) l : map fst (group_by key l) = remove_dups (map key l).
Proof. unfold group_by. rewrite map_map. apply map_id. Qed.

Lemma fold_insert_notin {A} (key : A -> Z) l : forall (m : gmap Z A) k, k ∉ map key l ->
  fold_left (fun m a => <[key a := a]> m) l m !! k = m !! k.
Proof.
  induction l as [|a l IH]; intros m k H; [done|]. cbn [map fold_left] in *. apply not_elem_of_cons in H as [H1 H2].
  rewrite IH by done. by apply lookup_insert_ne.
Qed.

Lemma fold_insert_in {A} (key : A -> Z) l : forall (m : gmap Z A) x, NoDup (map key l) -> x ∈ l ->
  fold_left (fun m a => <[key a := a]> m) l m !! key x = Some x.
Proof.
  induction l as [|a l IH]; intros m x HN HX; [by apply elem_of_nil in HX|]. cbn [map fold_left] in *.
  apply NoDup_cons in HN as [N1 N2]. apply elem_of_cons in HX as [->|HX]; [|by apply IH].
  rewrite fold_insert_notin by done. apply lookup_insert_eq.
Qed.

(** ** The contract *)

Section contract.
Context {W : Type} (ts : TableOps W SubmissionDAO.t) (db : Reads W) (view : W -> sub_tables) {RL : ReadLaws ts db view}.

#[local] Abbreviation content := (fun w => entities (view w)).

Lemma matching_dao f d : matching f (toSubmissionEntity d) = applyListFilters f d.
Proof. reflexivity. Qed.

Lemma listed_dao d : toSubmissionEntity (list_columns d) = listed (toSubmissionEntity d).
Proof. reflexivity. Qed.

(** The rows of the query are those of the listing. *)
Lemma sub_rows_listing f t : map toSubmissionEntity (map list_columns (sub_rows (applyListFilters f) t))
  ≡ₚ map listed (listing f (entities t)).
Proof.
  rewrite listing_rows. cbn [entities subs]. rewrite rows_of_fmap. unfold sub_rows.
  rewrite (filter_map_comm toSubmissionEntity (fun s => matching f s = true) (fun d => applyListFilters f d = true))
    by (intros d; by rewrite matching_dao).
  by rewrite !map_map.
Qed.

Lemma sorted_entities l : (forall i j a b, (i < j)%nat -> l !! i = Some a -> l !! j = Some b -> newest_first b a = false) ->
  StronglySorted newest (map toSubmissionEntity l).
Proof.
  induction l as [|d l IH]; intros H; [constructor|]. cbn [map]. constructor.
  - apply IH. intros i j a b L A B. by apply (H (S i) (S j)); [lia|..].
  - apply Forall_map, Forall_lookup. intros j b HB. specialize (H 0%nat (S j) d b ltac:(lia) eq_refl HB).
    unfold newest_first in H. unfold newest. cbn. lia.
Qed.

Lemma sorted_listed l : StronglySorted newest l -> StronglySorted newest (map listed l).
Proof. induction 1; cbn [map]; constructor; [done|]. by apply Forall_map. Qed.

Lemma entities_keyed w : keyed (content w).
Proof.
  destruct (rd_keys (ts := ts) (db := db) w) as [K1 K2]. constructor; cbn; intros id x (d & <- & H)%lookup_fmap_Some; [by apply K1|by apply K2].
Qed.

(** The order is total on the rows, so the page is determined. *)
Lemma page_determined f w l :
  PgCatalogue.page_of (map list_columns (sub_rows (applyListFilters f) (view w))) newest_first f.(FOffset) (Some f.(FLimit)) l ->
  map (fun d => Some (toSubmissionEntity d)) l = map (fun s => Some (listed s)) (page_rows f (content w)).
Proof.
  intros (L & HL & HS & ->).
  assert (map toSubmissionEntity L = map listed (listing f (content w))) as E.
  { apply (StronglySorted_unique_strong newest).
    - assert (forall x, x ∈ map toSubmissionEntity L -> x ∈ map listed (listing f (content w))) as HIn.
      { intros x. rewrite HL. by rewrite sub_rows_listing. }
      intros x y HX%HIn HY. apply list_elem_of_fmap in HX as (a & -> & [_ [i HA]]%elem_listing).
      apply list_elem_of_fmap in HY as (b & -> & [_ [j HB]]%elem_listing). unfold newest. cbn [listed ID CreatedAt]. intros H1 H2.
      pose proof (ky_subs _ (entities_keyed w) _ _ HA). pose proof (ky_subs _ (entities_keyed w) _ _ HB).
      assert (i = j) as -> by lia. rewrite HA in HB. by injection HB as ->.
    - by apply sorted_entities.
    - apply sorted_listed, listing_sorted.
    - rewrite HL. apply sub_rows_listing. }
  unfold page_rows. rewrite <- (map_map toSubmissionEntity Some), <- (map_map listed Some). f_equal.
  by rewrite <- !firstn_map, <- !skipn_map, E.
Qed.

(** The summary of a submission, whatever the order of the groups. *)
Lemma passed_daos l : passed_tests (map toSubmissionResultEntity l) = count_where accepted_row l.
Proof.
  unfold passed_tests, count_where. rewrite (filter_map_comm toSubmissionResultEntity _ (fun a => accepted_row a = true)).
  - by rewrite length_map.
  - intros d. unfold accepted_row. by rewrite bool_decide_eq_true.
Qed.

Lemma passed_perm l l' : l ≡ₚ l' -> passed_tests l = passed_tests l'.
Proof. intros H. unfold passed_tests. by rewrite H. Qed.

Lemma current_rows t ids s : s.(ID) ∈ ids -> (entities t).(subs) !! s.(ID) = Some s ->
  current_results (entities t) s
  ≡ₚ map toSubmissionResultEntity
      (filter (fun r => SubmissionResultDAO.SubmissionID r = s.(ID)) (result_rows (of_current t ids) t)).
Proof.
  cbn [entities subs]. intros HI (d & <- & HD)%lookup_fmap_Some. unfold current_results. cbn [entities results]. rewrite rows_of_fmap.
  set (s := toSubmissionEntity d) in *.
  rewrite (filter_map_comm toSubmissionResultEntity _
    (fun r => SubmissionResultDAO.SubmissionID r = ID s /\ SubmissionResultDAO.AttemptID r = CurrentAttemptID s)) by done.
  unfold result_rows. rewrite list_filter_filter. apply Permutation_map.
  match goal with |- ?a ≡ₚ ?b => enough (a = b) as -> by done end. apply list_filter_iff. intros r.
  unfold of_current. rewrite andb_true_iff, bool_decide_eq_true. split.
  - intros [E1 E2]. rewrite E1, HD. split; [done|]. split; [done|]. by apply bool_decide_eq_true.
  - intros (E1 & _ & E2). rewrite E1, HD in E2. by apply bool_decide_eq_true in E2.
Qed.

Lemma summary_keys t ids : map SumSubmissionID (summary_rows ids t)
  = remove_dups (map SubmissionResultDAO.SubmissionID (result_rows (of_current t ids) t)).
Proof. unfold summary_rows. rewrite map_map, <- group_keys. done. Qed.

Lemma summaries_found t ids l s : l ≡ₚ summary_rows ids t -> s.(ID) ∈ ids -> (entities t).(subs) !! s.(ID) = Some s ->
  fold_left (fun m s => <[s.(SumSubmissionID) := s]> m) l (∅ : gmap Z SubmissionResultSummary) !! s.(ID) = summary_of (entities t) s.
Proof.
  intros HL HI HS. pose proof (current_rows t ids s HI HS) as HC. set (R := result_rows (of_current t ids) t) in *.
  set (g := filter (fun r => SubmissionResultDAO.SubmissionID r = ID s) R) in *. unfold summary_of.
  assert (map SumSubmissionID l ≡ₚ remove_dups (map SubmissionResultDAO.SubmissionID R)) as HK by (by rewrite HL, summary_keys).
  destruct (current_results (entities t) s) as [|r rs] eqn:EC.
  - apply Permutation_nil in HC. assert (g = []) as HG by (by destruct g).
    rewrite (fold_insert_notin SumSubmissionID); [apply lookup_empty|]. rewrite HK, elem_of_remove_dups, list_elem_of_fmap.
    intros (x & EX & HX). assert (x ∈ g) as HXG by (by apply list_elem_of_filter). rewrite HG in HXG. by apply elem_of_nil in HXG.
  - rewrite (passed_perm _ _ HC), passed_daos, HC, length_map.
    assert (mkSummary (ID s) (count_where accepted_row g) (Z.of_nat (length g)) ∈ l) as HX.
    { rewrite HL. unfold summary_rows. apply list_elem_of_fmap. exists (ID s, g). split; [done|]. apply elem_group. split; [|done].
      assert (exists x, x ∈ g) as [x HX].
      { destruct g as [|x g']; [|exists x; left]. by apply Permutation_sym, Permutation_nil in HC. }
      apply list_elem_of_filter in HX as [E HX]. rewrite <- E. apply list_elem_of_fmap. by exists x. }
    apply (fold_insert_in SumSubmissionID) with (m := ∅) in HX; [exact HX|]. rewrite HK. apply NoDup_remove_dups.
Qed.

(** The repositories meet the contract of the reading use cases. *)
Lemma page_whole {A} (q : list A) o l : PgCatalogue.page_of q o 0 None l -> l ≡ₚ q.
Proof. intros (L & HL & _ & ->). done. Qed.

#[export] Instance pg_ReadingLaws `{SR : SubmissionRepository W} (HG : SR_GetByID SR = pg_GetByID ts) :
  ReadingLaws SR (pg_listing db) content.
Proof.
  constructor.
  - apply entities_keyed.
  - intros id w r w'. rewrite HG. unfold pg_GetByID, pg_getByID, bind, on_error. destruct (t_first ts _ w) as [[e|d] w1] eqn:E;
      apply (rd_first (db := db)) in E as [E1 E2]; intros [= <- <-]; rewrite E1; (split; [done|]).
    + intros HN. destruct E2 as [[-> E2]|[F1 F2]].
      * cbn [entities subs]. rewrite lookup_fmap. destruct (q_subs (view w) !! id) as [d|] eqn:ED; [|done].
        apply (proj1 (rd_keys (ts := ts) (db := db) w)) in ED as EK. specialize (E2 _ _ ED). cbn in E2. lia.
      * rewrite F1 in HN. change (errors_Is e ErrSubmissionNotFound = true) in HN. unfold ErrSubmissionNotFound in HN. by rewrite F2 in HN.
    + destruct E2 as [E2 [i Hi]]. exists (toSubmissionEntity d). split; [done|].
      apply (proj1 (rd_keys (ts := ts) (db := db) w)) in Hi as EK. cbn in E2. cbn [entities subs].
      assert (i = id) as -> by lia. by rewrite lookup_fmap, Hi.
  - intros f w r w'. cbn [SR_List pg_listing]. unfold pg_List, bind, on_error.
    destruct (q_count db _ w) as [[e|n] w1] eqn:E1; apply (rd_count (ts := ts)) in E1 as [V1 ->] || apply (rd_count (ts := ts)) in E1 as [V1 _].
    { intros [= <- <-]. by rewrite V1. }
    destruct (q_select db _ _ _ _ w1) as [[e|l] w2] eqn:E2; apply (rd_select (ts := ts)) in E2 as [V2 HP]; intros [= <- <-];
      rewrite V2, V1; (split; [done|]); [done|]. cbn [LItems LTotal]. rewrite V1 in HP. split.
    + by apply page_determined.
    + pose proof (Permutation_length (sub_rows_listing f (view w))) as HN. rewrite !length_map in HN. by rewrite HN.
  - intros ids w r w'. cbn [SR_ResultSummaries pg_listing]. unfold pg_ResultSummaries. case_bool_decide as HE.
    + intros [= <- <-]. split; [done|]. intros id s HI. rewrite HE in HI. by apply elem_of_nil in HI.
    + unfold bind, on_error. destruct (q_select db _ _ _ _ w) as [[e|l] w1] eqn:E; apply (rd_select (ts := ts)) in E as [V HP];
        intros [= <- <-]; rewrite V; (split; [done|]); [done|]. intros id s HI HS. apply page_whole in HP.
      assert (ID s = id) as <- by (by eapply ky_subs; [apply (entities_keyed w)|]). by eapply summaries_found.
Qed.
End contract.

(** The counts behind the profile statistics (PgQueries.v) fit together: facts on
    grouping and counting, and what [pg_GetUserProfileStats] returns. *)

(** ** Counting *)

Definition counts {K} (l : list (K * Z)) : Z := foldr (fun p acc => p.2 + acc) 0 l.

Lemma counts_perm {K} (l l' : list (K * Z)) : l ≡ₚ l' -> counts l = counts l'.
Proof. unfold counts. induction 1; cbn in *; lia. Qed.

Lemma counts_relabel {K L} (f : K -> L) l : counts (map (fun r => (f r.1, r.2)) l) = counts l.
Proof. unfold counts. induction l as [|r l IH]; [done|]. cbn [map foldr fst snd]. by rewrite IH. Qed.

Lemma count_where_bounds {A} (p : A -> bool) l : 0 <= count_where p l <= Z.of_nat (length l).
Proof. unfold count_where. pose proof (length_filter (fun a => p a = true) l). lia. Qed.

Lemma count_distinct_mono {A K} `{EqDecision K} (key : A -> K) (l l' : list A) : l ⊆ l' -> count_distinct key l <= count_distinct key l'.
Proof.
  intros HS. unfold count_distinct. apply inj_le, submseteq_length, NoDup_submseteq; [apply NoDup_remove_dups|].
  intros k. rewrite !elem_of_remove_dups, !list_elem_of_fmap. intros (a & -> & HA). exists a. split; [done|]. by apply HS.
Qed.

Lemma count_distinct_le {A K} `{EqDecision K} (key : A -> K) l : 0 <= count_distinct key l <= Z.of_nat (length l).
Proof.
  unfold count_distinct. split; [lia|]. rewrite <- (length_map key l). apply inj_le, submseteq_length, NoDup_submseteq; [apply NoDup_remove_dups|].
  intros k. by rewrite elem_of_remove_dups.
Qed.

Lemma filter_sub {A} (P : A -> Prop) `{forall a, Decision (P a)} (l : list A) : filter P l ⊆ l.
Proof. intros a H1. by apply list_elem_of_filter in H1 as [_ ?]. Qed.

(** The rows with one of several different values are counted value by value. *)
Lemma counts_keys {K} `{EqDecision K} (key : SubmissionDAO.t -> K) l ks : NoDup ks ->
  counts (counted (map (fun k => (k, filter (fun a => key a = k) l)) ks)) = Z.of_nat (length (filter (fun a => key a ∈ ks) l)).
Proof.
  induction 1 as [|k ks HK _ IH].
  - cbn. induction l as [|a l IHl]; [done|]. rewrite filter_cons. destruct (decide (key a ∈ [])) as [E|_]; [by apply elem_of_nil in E|done].
  - unfold counted in *. cbn [map counts foldr fst snd]. unfold counts in IH. rewrite IH. clear IH.
    induction l as [|a l IHl]; [done|]. rewrite !filter_cons.
    destruct (decide (key a = k)) as [E|E], (decide (key a ∈ ks)) as [F|F], (decide (key a ∈ k :: ks)) as [G|G]; cbn [length]; try lia; exfalso.
    + by rewrite E in F.
    + by rewrite E in F.
    + apply G. rewrite E. left.
    + apply G. by right.
    + apply elem_of_cons in G as [G|G]; done.
Qed.

Lemma filter_everything {A} (P : A -> Prop) `{forall a, Decision (P a)} (l : list A) : (forall a, a ∈ l -> P a) -> filter P l = l.
Proof.
  induction l as [|a l IH]; intros HP; [done|]. rewrite filter_cons, decide_True by (apply HP; left). rewrite IH; [done|].
  intros b HB. apply HP. by right.
Qed.

Lemma counts_grouped {K} `{EqDecision K} (key : SubmissionDAO.t -> K) l : counts (counted (group_by key l)) = Z.of_nat (length l).
Proof.
  unfold group_by. rewrite counts_keys by apply NoDup_remove_dups. f_equal.
  rewrite filter_everything; [done|]. intros a HA. apply elem_of_remove_dups, list_elem_of_fmap. by exists a.
Qed.

Lemma grouped_entry {K} `{EqDecision K} (key : SubmissionDAO.t -> K) l k n :
  (k, n) ∈ counted (group_by key l) <-> n = Z.of_nat (length (filter (fun a => key a = k) l)) /\ 0 < n.
Proof.
  unfold counted. rewrite list_elem_of_fmap. split.
  - intros ([k' g] & [= -> ->] & [HK ->]%elem_group). split; [done|]. apply list_elem_of_fmap in HK as (a & -> & HA).
    destruct (filter (fun a0 => key a0 = key a) l) as [|x g] eqn:E; [|cbn; lia].
    assert (a ∈ filter (fun a0 => key a0 = key a) l) as HF by (by apply list_elem_of_filter). rewrite E in HF. by apply elem_of_nil in HF.
  - intros [-> HN]. exists (k, filter (fun a => key a = k) l). split; [done|]. apply elem_group. split; [|done].
    destruct (filter (fun a => key a = k) l) as [|x g] eqn:E; [cbn in HN; lia|].
    assert (x ∈ filter (fun a => key a = k) l) as HF by (rewrite E; left). apply list_elem_of_filter in HF as [<- HX].
    apply list_elem_of_fmap. by exists x.
Qed.

(** ** The statistics of a user *)

(** The numbers describe the submissions [own] of one user. *)
Record profile_of (own : list SubmissionDAO.t) (since : Time) (s : UserProfileStats) : Prop := {
  po_total : s.(UsTotalSubmissions) = Z.of_nat (length own);
  po_solved : 0 <= s.(UsSolvedProblems) <= s.(UsAcceptedSubmissions) /\ s.(UsSolvedProblems) <= s.(UsAttemptedProblems);
  po_bounds : s.(UsAcceptedSubmissions) <= s.(UsTotalSubmissions) /\ s.(UsAttemptedProblems) <= s.(UsTotalSubmissions);
  po_languages : counts s.(UsLanguages) = s.(UsTotalSubmissions);
  po_verdicts : counts s.(UsVerdicts) = Z.of_nat (length (filter (fun d => d.(SubmissionDAO.Status) ∈ terminal_statuses) own));
  po_accepted : forall n, (StatusAccepted, n) ∈ s.(UsVerdicts) <-> n = s.(UsAcceptedSubmissions) /\ 0 < n;
  po_finished : forall v n, (v, n) ∈ s.(UsVerdicts) -> IsTerminalStatus v = true /\ 0 < n;
  po_activity : counts s.(UsActivity) = Z.of_nat (length (filter (fun d => since <= d.(SubmissionDAO.CreatedAt)) own)) }.

Section stats.
Context {W : Type} (ts : TableOps W SubmissionDAO.t) (db : Reads W) (text_before : string -> string -> bool)
  (view : W -> sub_tables) {RL : ReadLaws ts db view}.

Lemma select_whole {A} (q : sub_tables -> list A) o w l w' prefix : on_error (wrapf prefix) (q_select db q o 0 None) w = (inr l, w') ->
  view w' = view w /\ l ≡ₚ q (view w).
Proof. intros E. apply on_error_inr, (rd_select (ts := ts)) in E as [V HP]. split; [done|]. by eapply page_whole. Qed.

Lemma profile_stats user since w s w' : pg_GetUserProfileStats db text_before user since w = (inr s, w') ->
  view w' = view w /\ profile_of (own_rows user (view w)) since s.
Proof.
  unfold pg_GetUserProfileStats. intros E.
  apply bind_inr_inv in E as (sm & w1 & [V1 P1]%select_whole & E). apply bind_inr_inv in E as (vs & w2 & [V2 P2]%select_whole & E).
  apply bind_inr_inv in E as (ls & w3 & [V3 P3]%select_whole & E). apply bind_inr_inv in E as (ac & w4 & [V4 P4]%select_whole & E).
  rewrite V3, V2, V1 in P4. rewrite V2, V1 in P3. rewrite V1 in P2. unfold summary_row in P1. apply Permutation_sym, Permutation_singleton_l in P1 as <-.
  injection E as <- <-. split; [by rewrite V4, V3, V2|]. set (own := own_rows user (view w)) in *.
  set (acc := filter (fun d => accepted_sub d = true) own).
  pose proof (count_where_bounds accepted_sub own). pose proof (count_distinct_le SubmissionDAO.ProblemID own).
  pose proof (count_distinct_le SubmissionDAO.ProblemID acc).
  pose proof (count_distinct_mono SubmissionDAO.ProblemID acc own (filter_sub _ own)).
  assert (count_where accepted_sub own = Z.of_nat (length acc)) as HA by done.
  constructor; cbn [UsTotalSubmissions UsSolvedProblems UsAcceptedSubmissions UsAttemptedProblems UsLanguages UsVerdicts UsActivity].
  - done.
  - fold acc. lia.
  - lia.
  - rewrite (counts_perm _ _ P3). apply counts_grouped.
  - rewrite (counts_perm _ _ P2). apply counts_grouped.
  - intros n. rewrite P2. unfold verdict_rows. rewrite grouped_entry, list_filter_filter. fold own.
    match goal with |- n = Z.of_nat (length ?F) /\ _ <-> _ => assert (F = acc) as ->; [|done] end.
    apply list_filter_iff. intros d. unfold accepted_sub. rewrite bool_decide_eq_true. split; [by intros []|]. intros ->. split; [done|]. left.
  - intros v n. rewrite P2. intros HV. split.
    + unfold verdict_rows, counted in HV. apply list_elem_of_fmap in HV as ([k g] & [= -> _] & [HK _]%elem_group).
      apply list_elem_of_fmap in HK as (d & -> & [HD _]%list_elem_of_filter). by apply bool_decide_eq_true.
    + by apply grouped_entry in HV as [_ HV].
  - transitivity (counts ac); [apply counts_relabel|]. rewrite (counts_perm _ _ P4). apply counts_grouped.
Qed.
End stats.
