(* ===== verification/QueryGuarantees.v ===== *)
(** What the reading side of the submission service, its cooldown and the run of
    code guarantee, with a concrete database for the witnesses. *)

From Stdlib Require Import SpecFloat.
From S2P Require Import Prelude GoString GoError GoMonad SubmissionDomain SubmissionPorts PgStore Redis SubmissionClients RunCode SubmissionQueries PgQueries AuthDemo.
From S2P Require PgCatalogue ProblemDemo.

(** ** Reading *)

Section reads.
Context {W : Type} (ts : TableOps W SubmissionDAO.t) (db : Reads W) (text_before : string -> string -> bool)
  (view : W -> sub_tables) {RL : ReadLaws ts db view}.

#[local] Abbreviation content := (fun w => entities (view w)).

#[local] Instance repositories_read : ReadingLaws (pg_submissionRepository ts) (pg_listing db) content.
Proof. by apply (pg_ReadingLaws ts db view). Qed.

(** C15: A submission is shown, with the score of its current attempt, to its author
    and to moderators; to anybody else it is as if it did not exist.  The only
    other answer is that of an outage. *)
Theorem submission_read_rule claims id w : 0 < id -> claims.(UserID) <> ""%string -> known_role claims.(ClaimRole) = true ->
  let r := (getSubmission (pg_submissionRepository ts) (pg_listing db) claims id w).1 in
  (exists s, (content w).(subs) !! id = Some s /\ may_read claims s /\ r = inr (shown (content w) s))
  \/ (r = inl ErrSubmissionNotFound /\ forall s, (content w).(subs) !! id = Some s -> ~ may_read claims s)
  \/ exists e, r = inl (query_error e).
Proof.
  intros HI HU HR. cbv zeta. destruct (getSubmission _ _ claims id w) as [r w'] eqn:E.
  apply (get_submission_cases _ _ content) in E as [_ E]. by apply E.
Qed.

(** C16: A page of one's own submissions is a piece of the list of exactly those
    submissions of the user that fit the filters, newest first, each once and
    with the score of its current attempt; the pagination tells its length. *)
Theorem own_listing_is_exact claims req w items pages w' :
  listMySubmissions (pg_listing db) claims req w = (inr (items, pages), w') ->
  exists f page limit L, mine_filter claims req = inr (f, page, limit) /\ 1 <= page /\ 1 <= limit <= 100
    /\ items = map (shown_item (content w)) (take (Z.to_nat limit) (drop (Z.to_nat (page_start page limit)) L))
    /\ pages = mkPages page limit (Z.of_nat (length L)) (page_total (Z.of_nat (length L)) limit)
    /\ StronglySorted newest L /\ NoDup (map ID L)
    /\ forall s, s ∈ L <-> (content w).(subs) !! s.(ID) = Some s /\ s.(SubUserID) = claims.(UserID)
         /\ wants f.(FStatus) s.(SubStatus) = true /\ wants f.(FLanguage) s.(SubLanguage) = true /\ wants f.(FProblemID) s.(ProblemID) = true.
Proof.
  intros E. apply (my_page (pg_submissionRepository ts) (pg_listing db) content) in E as (f & page & limit & HF & _ & -> & ->).
  exists f, page, limit, (listing f (content w)). split; [done|].
  destruct (mine_filter_bounds _ _ _ _ _ HF) as (H1 & H2 & FU & FL & FO). split; [done|]. split; [done|].
  split; [by rewrite <- FO, <- FL|]. split; [done|]. split; [apply listing_sorted|]. split; [apply listing_distinct, (entities_keyed ts db view)|].
  intros s. rewrite elem_listing. unfold matching. rewrite !andb_true_iff, FU. cbn [wants]. rewrite bool_decide_eq_true. split.
  - intros ((((K1 & K2) & K3) & K4) & [i Hi]). rewrite (ky_subs _ (entities_keyed ts db view w) _ _ Hi). done.
  - intros (K0 & K1 & K2 & K3 & K4). split; [done|]. by exists s.(ID).
Qed.

(** The numbers of a profile fit together: every language and every day counts
    submissions of the user, the verdicts are final ones and that of accepted
    submissions has their number, nobody solves more than was accepted or tried. *)
Theorem profile_adds_up now claims w resp w' : keeps view now ->
  getMyProfileStats now (pg_GetUserProfileStats db text_before) claims w = (inr resp, w') ->
  let own := own_rows claims.(UserID) (view w) in
  resp.(GsTotalSubmissions) = Z.of_nat (length own)
  /\ (forall d, d ∈ own <-> d.(SubmissionDAO.UserID) = claims.(UserID) /\ exists i, (view w).(q_subs) !! i = Some d)
  /\ 0 <= resp.(GsSolvedProblems) <= resp.(GsAcceptedSubmissions) /\ resp.(GsAcceptedSubmissions) <= resp.(GsTotalSubmissions)
  /\ resp.(GsSolvedProblems) <= resp.(GsAttemptedProblems) <= resp.(GsTotalSubmissions)
  /\ counts resp.(GsLanguageDistribution) = resp.(GsTotalSubmissions)
  /\ counts resp.(GsVerdictDistribution) = Z.of_nat (length (filter (fun d => d.(SubmissionDAO.Status) ∈ terminal_statuses) own))
  /\ (forall n, (StatusAccepted, n) ∈ resp.(GsVerdictDistribution) <-> n = resp.(GsAcceptedSubmissions) /\ 0 < n)
  /\ (exists t w1, now w = (inr t, w1) /\ counts resp.(GsActivity)
        = Z.of_nat (length (filter (fun d => activity_since t <= d.(SubmissionDAO.CreatedAt)) own)))
  /\ resp.(GsAcceptanceRate) = acceptanceRate resp.(GsAcceptedSubmissions) resp.(GsTotalSubmissions).
Proof.
  intros HN. unfold getMyProfileStats. destruct (_ || _); [done|]. destruct (negb _); [done|]. unfold getProfileStats. intros E.
  apply bind_inr_inv in E as (t & w1 & ET & E). apply bind_inr_inv in E as (s & w2 & ES & [= <- <-]).
  apply on_error_inr, (profile_stats ts db text_before view) in ES as (_ & []). apply HN in ET as EV. rewrite EV in *. cbv zeta. cbn.
  split; [done|]. split.
  { intros d. unfold own_rows, sub_rows. by rewrite list_elem_of_filter, elem_rows, bool_decide_eq_true. }
  split_and!; try tauto; try done. by exists t, w1.
Qed.
End reads.

(** ** Running code *)

(** C17: What is not fit to run never leaves the service and the refusal blames the
    caller; what is fit is sent to the judge exactly when the problem service
    allows it, with the limits of the problem. *)
Theorem run_reaches_judge_when_fit {W} elsewhere GetProblem RunCode limits claims req (w w' : W) r :
  runExecute elsewhere GetProblem RunCode limits claims req w = (r, w') ->
  let l := normalizeRunCodeLimits limits in
  (~ runnable l claims req -> w' = w /\ exists c m o t, r = inl (EApp c m o t) /\ GetHTTPStatus c ∈ [400; 401; 413; 422])
  /\ (runnable l claims req ->
      let actor := mkActor claims.(UserID) claims.(ClaimRole) in
      (exists e, GetProblem req.(RcProblemID) actor w = (inl e, w') /\ r = inl e)
      \/ exists p w1, GetProblem req.(RcProblemID) actor w = (inr p, w1)
           /\ RunCode (mkJudgeRun req.(RcLanguage) req.(RcSourceCode) (map trimmed req.(RcTestCases))
                         (problemTimeLimitMS elsewhere p.(InfoTimeLimit) l.(DefaultTimeLimit))
                         (problemMemoryLimitKB p.(InfoMemoryLimit) l.(DefaultMemoryLimitKB)) l.(DefaultOutputLimit)) w1 = (r, w')).
Proof.
  unfold runExecute. cbv zeta. pose proof (validateRun_spec (normalizeRunCodeLimits limits) claims req) as V.
  destruct (validateRun _ claims req) as [e|cases].
  - destruct V as [V1 V2]. intros [= <- <-]. split; [|by intros HR]. intros _. split; [done|].
    destruct e as [c m o t| | | | |]; try done. exists c, m, o, t. split; [done|]. exact (proj1 (bool_decide_eq_true _) V2).
  - destruct V as [V ->]. intros E. split; [by intros []|]. intros _. unfold bind in E.
    destruct (GetProblem _ _ w) as [[e|p] w1]; [left|right; eauto]. injection E as <- <-. eauto.
Qed.

(** ** The cooldown *)

Section cooldown.
Context {S W : Type} `{RedisLaws S} (c : client S W) (server : W -> S) `{!ClientLaws c server}.

(** C18: Two admissions of one user to one problem are a whole cooldown apart,
    whoever asks in between, as long as nothing else writes the key. *)
Theorem admissions_are_apart d u p w r w1 w2 r' w3 : 0 < d ->
  Acquire c d u p w = (inr r, w1) -> r.(Allowed) = true ->
  untouched (submissionCooldownKey u p) (server w1) (server w2) ->
  Acquire c d u p w2 = (inr r', w3) -> r'.(Allowed) = true ->
  clock (server w) + Z.max 1 (d / 1000000) <= clock (server w3).
Proof.
  intros Hd E1 A1 [UR UC] E2 A2. apply acquire_allowed in E1, E2; [|done|done].
  apply (setnx_taken c server) in E1 as (s1 & [_ C1] & _ & R1 & C1'); [|done].
  apply (setnx_taken c server) in E2 as (s2 & [R2 C2] & F2 & _ & C2'); [|done].
  unfold find_entry in F2. rewrite R2, UR in F2. unfold entry in *. rewrite R1 in F2. unfold alive in F2. cbn [snd] in F2.
  destruct (Z.ltb_spec (clock s2) (clock s1 + Z.max 1 (d / 1000000))); [done|]. lia.
Qed.
End cooldown.

(** ** A database for the witnesses *)

Definition keyed_tables (t : sub_tables) : bool :=
  forallb (fun r : Z * SubmissionDAO.t => r.2.(SubmissionDAO.ID) =? r.1) (map_to_list t.(q_subs))
  && forallb (fun r : Z * SubmissionResultDAO.t => r.2.(SubmissionResultDAO.ID) =? r.1) (map_to_list t.(q_results)).

(** Tables whose rows do not have their own keys count as empty. *)
Definition demo_view (t : sub_tables) : sub_tables := if keyed_tables t then t else mkSubTables ∅ ∅.

Definition demo_select {A} (q : sub_tables -> list A) (o : A -> A -> bool) (k : Z) (n : option Z) : M sub_tables (list A) := fun w =>
  let L := ProblemDemo.sort_by o (q (demo_view w)) in
  if ProblemDemo.in_order o L
  then (inr (match n with Some n => take (Z.to_nat n) (drop (Z.to_nat k) L) | None => drop (Z.to_nat k) L end), w)
  else (inl (EText "no order"), w).

Definition demo_reads : Reads sub_tables :=
  {| q_select A := demo_select (A := A); q_count A q := fun w => (inr (Z.of_nat (length (q (demo_view w)))), w) |}.

Definition demo_table : TableOps sub_tables SubmissionDAO.t :=
  {| t_create _ := fail (EText "read only"); t_create_many _ := fail (EText "read only");
     t_first p := fun w => (match filter (fun d => p d = true) (rows_of (demo_view w).(q_subs)) with
                            | d :: _ => inr d | [] => inl gorm_ErrRecordNotFound end, w);
     t_find _ _ := ret []; t_updates _ _ := fail (EText "read only"); t_delete _ := fail (EText "read only") |}.

#[export] Instance demo_read_laws : ReadLaws demo_table demo_reads demo_view.
Proof.
  constructor.
  - intros w. unfold demo_view. destruct (keyed_tables w) eqn:E; [|split; intros id d HD; cbn in HD; by rewrite lookup_empty in HD].
    apply andb_true_iff in E as [E1 E2]. rewrite forallb_forall in E1, E2. split; intros id d HD%elem_of_map_to_list%list_elem_of_In.
    + specialize (E1 _ HD). cbn in E1. lia.
    + specialize (E2 _ HD). cbn in E2. lia.
  - intros p w r w'. cbn. destruct (filter _ _) as [|d l] eqn:E; intros [= <- <-]; (split; [done|]).
    + left. split; [done|]. intros id d HD. destruct (p d) eqn:EP; [|done]. exfalso.
      assert (d ∈ filter (fun d => p d = true) (rows_of (q_subs (demo_view w)))) as HF.
      { apply list_elem_of_filter. split; [done|]. apply elem_rows. eauto. }
      rewrite E in HF. by apply elem_of_nil in HF.
    + assert (d ∈ filter (fun d => p d = true) (rows_of (q_subs (demo_view w)))) as HF by (rewrite E; left).
      apply list_elem_of_filter in HF as [H1 H2%elem_rows]. done.
  - intros A q o k n w r w'. cbn. unfold demo_select. cbv zeta. destruct (ProblemDemo.in_order _ _) eqn:E; intros [= <- <-]; (split; [done|]).
    + exists (ProblemDemo.sort_by o (q (demo_view w))). split; [apply ProblemDemo.sort_by_perm|]. split; [|done].
      by apply ProblemDemo.in_order_spec.
    + split; [done|]. by intros.
  - intros A q w r w'. cbn. by intros [= <- <-].
Qed.

(** Alice has two submissions, the second still being judged; Bob has one. *)
Definition demo_row (id : Z) (user status : string) (t : Time) : SubmissionDAO.t :=
  SubmissionDAO.mk id 7 "Two Sum" user user "GO" "package main" ("a" +:+ Itoa id) status None None None None t t.
Definition demo_result (id sid : Z) (attempt status : string) : SubmissionResultDAO.t :=
  SubmissionResultDAO.mk id sid attempt id status None None None None None 5.
Definition demo_tables : sub_tables := mkSubTables
  (list_to_map [(1, demo_row 1 "u1" "WRONG_ANSWER" 100); (2, demo_row 2 "u2" "ACCEPTED" 200); (3, demo_row 3 "u1" "JUDGING" 300)])
  (list_to_map [(1, demo_result 1 1 "a1" "ACCEPTED"); (2, demo_result 2 1 "a1" "WRONG_ANSWER"); (3, demo_result 3 1 "old" "ACCEPTED")]).

Definition alice : Claims := mkClaims "u1" "alice" RoleUser 0.
Definition bob : Claims := mkClaims "u2" "bob" RoleUser 0.

(** Bob does not see the submission of Alice. *)
Lemma submission_read_rule_witness :
  (getSubmission (pg_submissionRepository demo_table) (pg_listing demo_reads) bob 1 demo_tables).1 = inl ErrSubmissionNotFound
  /\ let r := (getSubmission (pg_submissionRepository demo_table) (pg_listing demo_reads) alice 1 demo_tables).1 in
     (exists s, (entities (demo_view demo_tables)).(subs) !! 1 = Some s /\ may_read alice s
        /\ r = inr (shown (entities (demo_view demo_tables)) s))
     \/ (r = inl ErrSubmissionNotFound
         /\ forall s, (entities (demo_view demo_tables)).(subs) !! 1 = Some s -> ~ may_read alice s)
     \/ exists e, r = inl (query_error e).
Proof.
  split; [vm_compute; reflexivity|]. apply (submission_read_rule demo_table demo_reads demo_view alice 1 demo_tables); [lia|done|].
  vm_compute. reflexivity.
Defined.

(** The first page of Alice, of size one: the newer submission, without score. *)
Definition demo_request : ListMySubmissionsRequest := mkListMine None (Some 1) "" "" None.
Definition demo_page : list SubmissionListItem * PaginationResponse :=
  ([mkListItem 3 7 "Two Sum" "GO" "JUDGING" None None None None 300], mkPages 1 1 2 2).

Lemma own_listing_is_exact_witness :
  listMySubmissions (pg_listing demo_reads) alice demo_request demo_tables = (inr demo_page, demo_tables)
  /\ exists f page limit L, mine_filter alice demo_request = inr (f, page, limit) /\ length L = 2%nat /\ NoDup (map ID L).
Proof.
  assert (listMySubmissions (pg_listing demo_reads) alice demo_request demo_tables = (inr demo_page, demo_tables)) as E
    by (vm_compute; reflexivity).
  split; [exact E|].
  destruct (own_listing_is_exact demo_table demo_reads demo_view alice demo_request demo_tables _ _ demo_tables E)
    as (f & page & limit & L & H1 & _ & _ & _ & HP & _ & HN & _).
  exists f, page, limit, L. split; [exact H1|]. split; [|exact HN]. injection HP as _ _ HL _. lia.
Defined.

Definition demo_profile := getMyProfileStats (ret (day_ns * 1000)) (pg_GetUserProfileStats demo_reads (fun _ _ => true)) alice demo_tables.

Lemma profile_adds_up_witness : exists resp, demo_profile = (inr resp, demo_tables)
  /\ resp.(GsTotalSubmissions) = 2 /\ counts resp.(GsLanguageDistribution) = resp.(GsTotalSubmissions)
  /\ counts resp.(GsVerdictDistribution) = 1.
Proof.
  assert (demo_profile.2 = demo_tables) as E2 by (vm_compute; reflexivity).
  assert (match demo_profile.1 with inr _ => true | inl _ => false end = true) as E1 by (vm_compute; reflexivity).
  destruct demo_profile as [[e|resp] w'] eqn:E; cbn [fst snd] in E1, E2; [discriminate|]. subst w'. exists resp. split; [reflexivity|].
  destruct (profile_adds_up demo_table demo_reads (fun _ _ => true) demo_view (ret (day_ns * 1000)) alice demo_tables resp demo_tables
    (keeps_ret demo_view _) E) as (H1 & _ & _ & _ & _ & H2 & H3 & _).
  split; [rewrite H1; vm_compute; reflexivity|]. split; [exact H2|]. rewrite H3. vm_compute. reflexivity.
Defined.

(** A run with one case of its own. *)
Definition demo_limits : RunCodeLimits := mkRunLimits 0 0 0 0 0 0 0 0 0.
Definition demo_run : RunCodeRequest := mkRunCodeReq 7 "GO" "package main" [mkRunInput " 1 " "custom" "3 4" None].
Definition demo_answer : RunCodeResponse RunDiagnostic := mkRunResp "completed" "" [] [].
Definition demo_execute := runExecute 0 (fun id _ => ret (mkInfo (mkProblem id "Two Sum" "two-sum") (float64_of_Z 1000) 256))
  (fun req w => (inr demo_answer, req :: w)) demo_limits alice demo_run ([] : list JudgeRunRequest).

Lemma run_reaches_judge_when_fit_witness :
  demo_execute = (inr demo_answer, [mkJudgeRun "GO" "package main" [mkRunInput "1" "custom" "3 4" None] 1000 262144 1048576])
  /\ ~ ~ runnable (normalizeRunCodeLimits demo_limits) alice demo_run.
Proof.
  assert (demo_execute = (inr demo_answer, [mkJudgeRun "GO" "package main" [mkRunInput "1" "custom" "3 4" None] 1000 262144 1048576])) as E
    by (vm_compute; reflexivity).
  split; [exact E|]. intros HN. destruct (proj1 (run_reaches_judge_when_fit _ _ _ _ _ _ _ _ _ E) HN) as [HW _]. discriminate HW.
Defined.

(** Alice is admitted, waits for the five seconds of the cooldown, and is
    admitted again. *)
Definition wait_start : AuthDemo.auth_world := AuthDemo.mkAuthWorld ∅ ∅ 0.
Definition first_admission := Acquire AuthDemo.aw_client (5 * 10 ^ 9) "u1" 7 wait_start.
Definition waited : AuthDemo.auth_world := AuthDemo.aw_tick (5 * 10 ^ 9) first_admission.2.
Definition second_admission := Acquire AuthDemo.aw_client (5 * 10 ^ 9) "u1" 7 waited.

Lemma admissions_are_apart_witness :
  first_admission.1 = inr (mkCooldown true 0) /\ second_admission.1 = inr (mkCooldown true 0)
  /\ clock (AuthDemo.aw_server wait_start) + 5000 <= clock (AuthDemo.aw_server second_admission.2).
Proof.
  assert (first_admission.1 = inr (mkCooldown true 0)) as E1 by (vm_compute; reflexivity).
  assert (second_admission.1 = inr (mkCooldown true 0)) as E2 by (vm_compute; reflexivity).
  split; [exact E1|]. split; [exact E2|].
  refine (admissions_are_apart AuthDemo.aw_client AuthDemo.aw_server (5 * 10 ^ 9) "u1" 7 wait_start (mkCooldown true 0)
    first_admission.2 waited (mkCooldown true 0) second_admission.2 _ _ _ _ _ _).
  - lia.
  - rewrite <- E1. apply surjective_pairing.
  - reflexivity.
  - split; [reflexivity|vm_compute; discriminate].
  - rewrite <- E2. apply surjective_pairing.
  - reflexivity.
Defined.
