(* ===== verification/Responses.v ===== *)
(** HTTP replies: pkg/response/response.go and handle.go, and the request half of
    pkg/auth/claims.go.

    A Gin handler is a function from a world to the reply that it writes and
    the world afterwards.  What Gin reads from the request (the claims that the
    middleware has set, and the results of binding a body, URI parameters, a
    query or a form, with its validation) is an argument. *)

From S2P Require Import Prelude GoString GoError GoMonad.

(** ** Replies *)

(** [APIResponse]; [Data] is left out of the body when it is nil. *)
Record APIResponse (D : Type) := mkApi { ApiStatus : string; ApiCode : Z; ApiMsg : string; ApiData : option D }.
Arguments mkApi {D}. Arguments ApiStatus {D}. Arguments ApiCode {D}. Arguments ApiMsg {D}. Arguments ApiData {D}.

(** The status line, the header Retry-After and the body. *)
Record Reply (D : Type) := mkReply { RpStatus : Z; RpRetryAfter : option Z; RpBody : APIResponse D }.
Arguments mkReply {D}. Arguments RpStatus {D}. Arguments RpRetryAfter {D}. Arguments RpBody {D}.

Definition Success {D} (code : Z) (data : option D) : Reply D :=
  mkReply (GetHTTPStatus code) None (mkApi "success" code "" data).
Definition SuccessWithMessage {D} (code : Z) (msg : string) (data : option D) : Reply D :=
  mkReply (GetHTTPStatus code) None (mkApi "success" code msg data).
Definition Error {D} (code : Z) (msg : string) : Reply D :=
  mkReply (GetHTTPStatus code) None (mkApi "error" code msg None).

(** ** Errors *)

(** [errors.As] with a [*AppError]: code, message and [RetryAfter] of the first
    one in the chain. *)
Fixpoint as_AppError (e : error) : option (Z * string * Z) :=
  match e with
  | EApp code message _ retryAfter => Some (code, message, retryAfter)
  | EWrap _ c | ENonRetryable c => as_AppError c
  | ESentinel _ | EText _ | EStatus _ _ => None
  end.

(** [d.Round(time.Second)] of a positive duration. *)
Definition second : Z := 10 ^ 9.
Definition RoundSecond (d : Z) : Z :=
  let r := Z.rem d second in
  if r + r <? second then d - r
  else if d + second - r <=? int64_max then d + second - r else int64_max.

(** The seconds of the header. *)
Definition retry_seconds (retryAfter : Z) : option Z :=
  if 0 <? retryAfter then
    let seconds := Z.quot (RoundSecond retryAfter) second in
    Some (if seconds <? 1 then 1 else seconds)
  else None.

Definition HandleError {D} (err : error) : Reply D :=
  match as_AppError err with
  | Some (code, message, retryAfter) =>
      let reply := Error code message in mkReply reply.(RpStatus) (retry_seconds retryAfter) reply.(RpBody)
  | None => Error CodeInternalServer "internal server error"
  end.

(** ** Handlers *)

(** [if err != nil { HandleError(c, err); return }] and the reply otherwise. *)
Definition respond {W A D} (ok : A -> Reply D) (m : M W A) : W -> Reply D * W := fun w =>
  match m w with
  | (inl err, w') => (HandleError err, w')
  | (inr a, w') => (ok a, w')
  end.

(** [auth.GetClaims] *)
Definition GetClaims {W} (claims : option Claims) : M W Claims :=
  match claims with Some c => ret c | None => fail (NewAppError CodeUnauthorized "unauthorized" None) end.

(** The result of a binding, with the error that is reported. *)
Definition bound {W A} (code : Z) (text : string) (b : error + A) : M W A :=
  match b with inl err => fail (NewAppError code text (Some err)) | inr a => ret a end.
Definition ShouldBindJSON {W A} (b : error + A) : M W A := bound CodeBadRequest "invalid request payload" b.
Definition ShouldBindUri {W A} (b : error + A) : M W A := bound CodeParamInvalid "invalid uri params" b.
Definition ShouldBindQuery {W A} (b : error + A) : M W A := bound CodeBadRequest "invalid query parameters" b.
Definition ShouldBindForm {W A} (b : error + A) : M W A := bound CodeBadRequest "invalid form data" b.

Section handlers.
Context {W Req P B Res D : Type} (data : Res -> D) (claims : option Claims).

Definition done_ (code : Z) (res : Res) : Reply D := Success code (Some (data res)).
Definition done_with (code : Z) (msg : string) (res : Res) : Reply D := SuccessWithMessage code msg (Some (data res)).
Definition void (code : Z) (msg : string) (_ : unit) : Reply D := SuccessWithMessage code msg None.

Definition HandleVoid (json : error + Req) (fn : Req -> M W unit) (successCode : Z) (successMsg : string) :=
  respond (void successCode successMsg) (let* req := ShouldBindJSON json in fn req).

Definition HandleVoidWithClaims (json : error + Req) (fn : Claims -> Req -> M W unit) (successCode : Z) (successMsg : string) :=
  respond (void successCode successMsg) (let* c := GetClaims claims in let* req := ShouldBindJSON json in fn c req).

Definition HandleVoidWithParams (uri : error + Req) (fn : Req -> M W unit) (successCode : Z) (successMsg : string) :=
  respond (void successCode successMsg) (let* req := ShouldBindUri uri in fn req).

Definition Handle (json : error + Req) (fn : Req -> M W Res) (successCode : Z) :=
  respond (done_ successCode) (let* req := ShouldBindJSON json in fn req).

Definition HandleNoBody (fn : M W Res) (successCode : Z) := respond (done_ successCode) fn.

Definition HandleWithClaims (json : error + Req) (fn : Claims -> Req -> M W Res) (successCode : Z) :=
  respond (done_ successCode) (let* c := GetClaims claims in let* req := ShouldBindJSON json in fn c req).

Definition HandleWithClaimsNoBody (fn : Claims -> M W Res) (successCode : Z) :=
  respond (done_ successCode) (let* c := GetClaims claims in fn c).

Definition HandleWithParams (uri : error + Req) (fn : Req -> M W Res) (successCode : Z) :=
  respond (done_ successCode) (let* req := ShouldBindUri uri in fn req).

Definition HandleWithMessage (json : error + Req) (fn : Req -> M W Res) (successCode : Z) (successMsg : string) :=
  respond (done_with successCode successMsg) (let* req := ShouldBindJSON json in fn req).

Definition HandleVoidWithParamsAndClaims (uri : error + Req) (fn : Claims -> Req -> M W unit) (successCode : Z) (successMsg : string) :=
  respond (void successCode successMsg) (let* c := GetClaims claims in let* req := ShouldBindUri uri in fn c req).

Definition HandleVoidWithClaimsParamsAndBody (uri : error + P) (json : error + B) (fn : Claims -> P -> B -> M W unit)
    (successCode : Z) (successMsg : string) :=
  respond (void successCode successMsg)
    (let* c := GetClaims claims in let* params := ShouldBindUri uri in let* body := ShouldBindJSON json in fn c params body).

Definition HandleWithParamsAndClaims (uri : error + Req) (fn : Claims -> Req -> M W Res) (successCode : Z) :=
  respond (done_ successCode) (let* c := GetClaims claims in let* req := ShouldBindUri uri in fn c req).

Definition HandleWithClaimsParamsAndBody (uri : error + P) (json : error + B) (fn : Claims -> P -> B -> M W Res) (successCode : Z) :=
  respond (done_ successCode)
    (let* c := GetClaims claims in let* params := ShouldBindUri uri in let* body := ShouldBindJSON json in fn c params body).

Definition HandleWithQuery (query : error + Req) (fn : Req -> M W Res) (successCode : Z) :=
  respond (done_ successCode) (let* req := ShouldBindQuery query in fn req).

Definition HandleWithParamsAndQuery (uri : error + P) (query : error + B) (fn : P -> B -> M W Res) (successCode : Z) :=
  respond (done_ successCode) (let* params := ShouldBindUri uri in let* q := ShouldBindQuery query in fn params q).

Definition HandleWithQueryAndClaims (query : error + Req) (fn : Claims -> Req -> M W Res) (successCode : Z) :=
  respond (done_ successCode) (let* c := GetClaims claims in let* req := ShouldBindQuery query in fn c req).

Definition HandleVoidWithParamsAndBody (uri : error + P) (json : error + B) (fn : P -> B -> M W unit)
    (successCode : Z) (successMsg : string) :=
  respond (void successCode successMsg) (let* params := ShouldBindUri uri in let* body := ShouldBindJSON json in fn params body).

Definition HandleWithParamsAndBody (uri : error + P) (json : error + B) (fn : P -> B -> M W Res) (successCode : Z) :=
  respond (done_ successCode) (let* params := ShouldBindUri uri in let* body := ShouldBindJSON json in fn params body).

Definition HandleWithFormAndClaims (form : error + B) (fn : Claims -> B -> M W Res) (successCode : Z) :=
  respond (done_ successCode) (let* c := GetClaims claims in let* form := ShouldBindForm form in fn c form).

Definition HandleWithClaimsParamsAndForm (uri : error + P) (form : error + B) (fn : Claims -> P -> B -> M W Res) (successCode : Z) :=
  respond (done_ successCode)
    (let* c := GetClaims claims in let* params := ShouldBindUri uri in let* form := ShouldBindForm form in fn c params form).
End handlers.

(** ** Middleware before a handler *)

(** A middleware that fails writes the reply and ends the request. *)
Definition after {W A D} (middleware : M W A) (handler : A -> W -> Reply D * W) : W -> Reply D * W := fun w =>
  match middleware w with
  | (inl err, w') => (HandleError err, w')
  | (inr a, w') => handler a w'
  end.

(** ** Facts *)

(** The reply to an error shows code and message of its first [AppError] only. *)
Lemma reply_of_app {D} (e : error) code message retryAfter : as_AppError e = Some (code, message, retryAfter) ->
  HandleError (D := D) e = mkReply (GetHTTPStatus code) (retry_seconds retryAfter) (mkApi "error" code message None).
Proof. unfold HandleError. by intros ->. Qed.

Lemma error_body {D} (e : error) : (HandleError (D := D) e).(RpBody).(ApiStatus) = "error"%string
  /\ (HandleError (D := D) e).(RpBody).(ApiData) = None.
Proof. unfold HandleError. by destruct (as_AppError e) as [[[c m] t]|]. Qed.

Lemma as_App_Wrap e c : match e with EApp code m _ _ => as_AppError (Wrap e c) = Some (code, m, 0) | _ => True end.
Proof. by destruct e. Qed.

(** The header is at least one second, and at most half a second off. *)
Lemma retry_seconds_close d : 0 < d <= int64_max - second ->
  exists s, retry_seconds d = Some s /\ 1 <= s /\ s * second <= d + second /\ 2 * d <= 2 * (s * second) + second.
Proof.
  unfold retry_seconds, RoundSecond, second, int64_max. intros [H1 H2]. destruct (Z.ltb_spec 0 d); [|lia].
  rewrite Z.rem_mod_nonneg by lia. pose proof (Z.div_mod d (10 ^ 9)) as DM. pose proof (Z.mod_pos_bound d (10 ^ 9)) as MB.
  set (q := d / 10 ^ 9) in *. set (r := d mod 10 ^ 9) in *.
  destruct (Z.ltb_spec (r + r) (10 ^ 9)).
  - replace (d - r) with (q * 10 ^ 9) by lia. rewrite Z.quot_mul by lia. eexists. split; [done|]. destruct (Z.ltb_spec q 1); lia.
  - destruct (Z.leb_spec (d + 10 ^ 9 - r) (2 ^ 63 - 1)); [|lia]. replace (d + 10 ^ 9 - r) with ((q + 1) * 10 ^ 9) by lia.
    rewrite Z.quot_mul by lia. eexists. split; [done|]. destruct (Z.ltb_spec (q + 1) 1); lia.
Qed.

Lemma respond_run {W A D} (ok : A -> Reply D) (m : M W A) w reply w' : respond ok m w = (reply, w') ->
  exists r, m w = (r, w') /\ reply = match r with inl e => HandleError e | inr a => ok a end.
Proof. unfold respond. destruct (m w) as [[e|a] w1]; intros [= <- <-]; eauto. Qed.

Lemma respond_keeps {W A D X} (view : W -> X) (ok : A -> Reply D) (m : M W A) w reply w' :
  keeps view m -> respond ok m w = (reply, w') -> view w' = view w.
Proof. intros K (r & E & _)%respond_run. eauto. Qed.

Lemma keeps_GetClaims {W X} (view : W -> X) c : keeps view (GetClaims (W := W) c).
Proof. destruct c; [apply keeps_ret|apply keeps_fail]. Qed.

Lemma keeps_bound {W A X} (view : W -> X) code text (b : error + A) : keeps view (bound (W := W) code text b).
Proof. destruct b; [apply keeps_fail|apply keeps_ret]. Qed.
