(* ===== verification/SubmissionApi.v ===== *)
(** The HTTP interface of the submission service: the routes of
    services/submission/internal/adapter/inbound/http/router.go with the
    handlers of http/handler, from the headers of a request to the reply.  The
    stream of events, which is not a single reply, is in EventStream.v.  At the
    end, what the interface guarantees. *)

From S2P Require Import Prelude GoString GoError GoMonad SubmissionDomain SubmissionPorts OutboxRelay CreateSubmission RejudgeSubmission StreamTicket AuthDomain AuthSessions Responses SubmissionClients RunCode SubmissionQueries PgStore MemStore.

(** ** Requests and data of the replies *)

(** A route with what Gin binds for its handler. *)
Inductive ApiRequest :=
| PostSubmission (json : error + CreateSubmissionRequest)
| PostRun (json : error + RunCodeRequest)
| PostTicket (uri : error + Z)
| GetSubmissionByID (uri : error + Z)
| GetMySubmissions (query : error + ListMySubmissionsRequest)
| GetMyStats
| GetUserStats (uri : error + string)
| GetAdminSubmissions (query : error + ListAdminSubmissionsRequest)
| GetAdminSubmission (uri : error + Z)
| PostRejudge (uri : error + Z).

Inductive ApiResult :=
| DCreated (r : CreateSubmissionResponse)
| DRun (r : RunCodeResponse RunDiagnostic)
| DTicket (r : string * Time)
| DSubmission (r : GetSubmissionResponse)
| DMine (r : list SubmissionListItem * PaginationResponse)
| DStats (r : GetMyProfileStatsResponse)
| DAdminList (r : list AdminSubmissionListItem * PaginationResponse)
| DDetail (r : GetAdminSubmissionDetailResponse)
| DRejudged (r : RejudgeResponse).

Section api.
Context {W : Type} (cutoffs : LogoutAllIATStore W) (ParseFloat : string -> option Z)
  (sr : SubmissionRepository W) (sl : SubmissionListing W) (ar : AttemptRepository W) (rr : ResultRepository W)
  (tx : TransactionManager W) (Publish : JobMessage -> M W unit) (pr : ProblemReader W)
  (cooldown : option (SubmissionCooldown W)) (sv : SubmissionServices W)
  (elsewhere : Z) (GetProblemInfo : Z -> ProblemActor -> M W ProblemInfo)
  (RunCode : JudgeRunRequest -> M W (RunCodeResponse RunDiagnostic)) (limits : RunCodeLimits)
  (GetStreamSnapshot : Z -> M W (option SubmissionStreamSnapshot)) (Issue : string -> Z -> M W (string * Time))
  (GetUserProfileStats : string -> Time -> M W UserProfileStats) (ResolveUser : string -> M W PublicUser).

(** ** The handlers, over the claims that the middleware has set *)

Definition CreateSubmission_Handle (claims : option Claims) json :=
  HandleWithClaims DCreated claims json (createExecute sr (Some ar) tx Publish pr cooldown sv) CodeCreated.
Definition RunCode_Handle (claims : option Claims) json :=
  HandleWithClaims DRun claims json (runExecute elsewhere GetProblemInfo RunCode limits) CodeSuccess.
Definition IssueStreamTicket_Handle (claims : option Claims) uri :=
  HandleWithParamsAndClaims DTicket claims uri (issueTicket GetStreamSnapshot Issue) CodeSuccess.
Definition GetSubmission_Handle (claims : option Claims) uri :=
  HandleWithParamsAndClaims DSubmission claims uri (getSubmission sr sl) CodeSuccess.
Definition ListMySubmissions_Handle (claims : option Claims) query :=
  HandleWithQueryAndClaims DMine claims query (listMySubmissions sl) CodeSuccess.
Definition GetMyProfileStats_Handle (claims : option Claims) :=
  HandleWithClaimsNoBody DStats claims (getMyProfileStats (Now sv) GetUserProfileStats) CodeSuccess.
Definition GetPublicProfileStats_Handle uri :=
  HandleWithParams DStats uri (getPublicProfileStats (Now sv) GetUserProfileStats ResolveUser) CodeSuccess.
Definition ListSubmissions_Handle (claims : option Claims) query :=
  HandleWithQueryAndClaims DAdminList claims query (listAdminSubmissions sl) CodeSuccess.
Definition GetSubmissionDetail_Handle (claims : option Claims) uri :=
  HandleWithParamsAndClaims DDetail claims uri (getAdminSubmissionDetail sr (Some ar) rr) CodeSuccess.
(** It also sets the header Cache-Control. *)
Definition RejudgeSubmission_Handle (claims : option Claims) uri :=
  HandleWithParamsAndClaims DRejudged claims uri (rejudgeExecute sr ar tx Publish pr sv) CodeSuccess.

(** [Router.SetupRoutes]: middleware and handler of a request. *)
Definition serve (h : Headers) (rq : ApiRequest) : W -> Reply ApiResult * W :=
  let authMiddleware := AuthMiddleware cutoffs ParseFloat h in
  match rq with
  | PostSubmission json => after authMiddleware (fun c => CreateSubmission_Handle (Some c) json)
  | PostRun json => after authMiddleware (fun c => RunCode_Handle (Some c) json)
  | PostTicket uri => after authMiddleware (fun c => IssueStreamTicket_Handle (Some c) uri)
  | GetSubmissionByID uri => after authMiddleware (fun c => GetSubmission_Handle (Some c) uri)
  | GetMySubmissions query => after authMiddleware (fun c => ListMySubmissions_Handle (Some c) query)
  | GetMyStats => after authMiddleware (fun c => GetMyProfileStats_Handle (Some c))
  | GetUserStats uri => GetPublicProfileStats_Handle uri
  | GetAdminSubmissions query => after authMiddleware (fun c => ListSubmissions_Handle (Some c) query)
  | GetAdminSubmission uri => after authMiddleware (fun c => GetSubmissionDetail_Handle (Some c) uri)
  | PostRejudge uri => after authMiddleware (fun c => RejudgeSubmission_Handle (Some c) uri)
  end.

(** ** What the reading ports leave alone *)

Class ReadingPorts {X : Type} (view : W -> X) := {
  rp_session : forall user, keeps view (GetLogoutAllIAT cutoffs user);
  rp_get : forall id, keeps view (SR_GetByID sr id);
  rp_list : forall f, keeps view (SR_List sl f);
  rp_summaries : forall ids, keeps view (SR_ResultSummaries sl ids);
  rp_attempt : forall aid, keeps view (AR_GetByAttemptID ar aid);
  rp_results : forall id aid, keeps view (RR_GetBySubmissionIDAndAttemptID rr id aid);
  rp_now : keeps view (Now sv);
  rp_problem : forall id actor, keeps view (GetProblemInfo id actor);
  rp_run : forall req, keeps view (RunCode req);
  rp_snapshot : forall id, keeps view (GetStreamSnapshot id);
  rp_ticket : forall user id, keeps view (Issue user id);
  rp_stats : forall user since, keeps view (GetUserProfileStats user since);
  rp_user : forall name, keeps view (ResolveUser name) }.

(** ** Reading requests *)

Section reading.
Context {X : Type} (view : W -> X) {RP : ReadingPorts view}.

(** Steps of a use case that only reads. *)
Ltac quiet :=
  repeat first
    [ apply keeps_ret | apply keeps_fail | apply keeps_GetClaims | apply keeps_bound
    | apply rp_session | apply rp_get | apply rp_list | apply rp_summaries | apply rp_attempt | apply rp_results
    | apply rp_now | apply rp_problem | apply rp_run | apply rp_snapshot | apply rp_ticket | apply rp_stats | apply rp_user
    | apply keeps_on_error | apply keeps_try | (apply keeps_bind; [|intros ?]) | progress case_match | progress unfold some_or ].

Lemma session_quiet h : keeps view (AuthMiddleware cutoffs ParseFloat h).
Proof. unfold AuthMiddleware. quiet. Qed.

Lemma reads_quiet claims :
  (forall req, keeps view (runExecute elsewhere GetProblemInfo RunCode limits claims req))
  /\ (forall id, keeps view (issueTicket GetStreamSnapshot Issue claims id))
  /\ (forall id, keeps view (getSubmission sr sl claims id))
  /\ (forall req, keeps view (listMySubmissions sl claims req))
  /\ keeps view (getMyProfileStats (Now sv) GetUserProfileStats claims)
  /\ (forall name, keeps view (getPublicProfileStats (Now sv) GetUserProfileStats ResolveUser name))
  /\ (forall req, keeps view (listAdminSubmissions sl claims req))
  /\ forall id, keeps view (getAdminSubmissionDetail sr (Some ar) rr claims id).
Proof.
  unfold runExecute, issueTicket, getSubmission, listMySubmissions, getMyProfileStats, getPublicProfileStats, getProfileStats,
    listAdminSubmissions, getAdminSubmissionDetail. split_and!; intros; quiet.
Qed.
End reading.
End api.

(** What the HTTP interface of the submission service guarantees. *)

Lemma after_run {W A D} (middleware : M W A) (handler : A -> W -> Reply D * W) w reply w' : after middleware handler w = (reply, w') ->
  (exists e, middleware w = (inl e, w') /\ reply = HandleError e)
  \/ exists a w1, middleware w = (inr a, w1) /\ handler a w1 = (reply, w').
Proof. unfold after. destruct (middleware w) as [[e|a] w1]; [intros [= <- <-]|]; eauto. Qed.

(** A request with its session and its bound input. *)
Lemma bound_run {W A B} code text (b : error + A) (f : A -> M W B) w r w' : bind (bound code text b) f w = (r, w') ->
  (exists e, b = inl e /\ r = inl (NewAppError code text (Some e)) /\ w' = w) \/ exists a, b = inr a /\ f a w = (r, w').
Proof. destruct b as [e|a]; cbn; [intros [= <- <-]|]; eauto. Qed.

Section api.
Context {W : Type} (cutoffs : LogoutAllIATStore W) (ParseFloat : string -> option Z)
  (sr : SubmissionRepository W) (sl : SubmissionListing W) (ar : AttemptRepository W) (rr : ResultRepository W)
  (or : OutboxRepository W) (tx : TransactionManager W) (topic : string) (pr : ProblemReader W)
  (cooldown : option (SubmissionCooldown W)) (sv : SubmissionServices W)
  (elsewhere : Z) (GetProblemInfo : Z -> ProblemActor -> M W ProblemInfo)
  (RunCode : JudgeRunRequest -> M W (RunCodeResponse RunDiagnostic)) (limits : RunCodeLimits)
  (GetStreamSnapshot : Z -> M W (option SubmissionStreamSnapshot)) (Issue : string -> Z -> M W (string * Time))
  (GetUserProfileStats : string -> Time -> M W UserProfileStats) (ResolveUser : string -> M W PublicUser)
  (jsonb : string -> string) (db : W -> store) (sent : W -> list SubmissionEvent)
  {SL : StoreLaws sr ar rr tx db sent} {VL : ServiceLaws sv db sent} {OL : OutboxLaws or jsonb db sent}
  {QL : QuietPorts pr cooldown db sent}
  {RP : ReadingPorts cutoffs sr sl ar rr sv GetProblemInfo RunCode GetStreamSnapshot Issue GetUserProfileStats ResolveUser
          (fun w => (db w, sent w))}.

#[local] Abbreviation service := (serve cutoffs ParseFloat sr sl ar rr tx (outbox_Publish or topic) pr cooldown sv elsewhere
  GetProblemInfo RunCode limits GetStreamSnapshot Issue GetUserProfileStats ResolveUser).
#[local] Abbreviation session h := (AuthMiddleware cutoffs ParseFloat h).

(** What a request may do to the database: nothing; or, with a valid session
    and the reply 201, add one submission of that user with its attempt and its
    job; or, with the session of a moderator and the reply 200, start a new
    attempt. *)
Definition allowed_change (h : Headers) (rq : ApiRequest) (reply : Reply ApiResult) (w w' : W) : Prop :=
  db w' = db w
  \/ exists claims w1, session h w = (inr claims, w1)
     /\ ((exists req sub att job, rq = PostSubmission (inr req) /\ reply.(RpStatus) = 201
           /\ submitted topic jsonb sub att job (db w) (db w') /\ sub.(SubUserID) = claims.(UserID)
           /\ sub.(SourceCode) = req.(ReqSourceCode))
         \/ exists sid old now att job, rq = PostRejudge (inr sid) /\ reply.(RpStatus) = 200
           /\ AtLeast claims.(ClaimRole) RoleModerator = true /\ rejudged topic jsonb sid old now att job (db w) (db w')).

(** C12: A request changes the database only as [allowed_change] says and publishes
    no event; in particular every error reply leaves the database as it was. *)
Theorem api_changes_are_authorised h rq w reply w' : service h rq w = (reply, w') ->
  sent w' = sent w /\ allowed_change h rq reply w w' /\ (400 <= reply.(RpStatus) -> db w' = db w).
Proof.
  intros E.
  assert (forall v r v', session h v = (r, v') -> (db v', sent v') = (db v, sent v)) as SQ.
  { intros v r v' ES. by apply (session_quiet cutoffs ParseFloat sr sl ar rr sv GetProblemInfo RunCode GetStreamSnapshot Issue
      GetUserProfileStats ResolveUser (fun w => (db w, sent w))) in ES. }
  assert (forall A (ok : A -> Reply ApiResult) (m : Claims -> M W A), (forall c, keeps (fun w => (db w, sent w)) (m c)) ->
    after (session h) (fun c => respond ok (m c)) w = (reply, w') ->
    sent w' = sent w /\ allowed_change h rq reply w w' /\ (400 <= reply.(RpStatus) -> db w' = db w)) as quiet.
  { intros A ok m K [(e & ES & _)|(c & w1 & ES & EH)]%after_run; apply SQ in ES as [= E1 E2].
    - split; [done|]. by split; [left|].
    - apply (respond_keeps (fun w => (db w, sent w))) in EH as [= E3 E4]; [|apply K].
      split; [congruence|]. split; [left; congruence|]. intros _. congruence. }
  pose proof (fun c => reads_quiet cutoffs sr sl ar rr sv elsewhere GetProblemInfo RunCode limits GetStreamSnapshot Issue
    GetUserProfileStats ResolveUser (fun w => (db w, sent w)) c) as RQ.
  destruct rq; cbn [serve] in E.
  2-6, 8-9: eapply quiet; [|exact E]; intros c; (apply keeps_bind; [apply keeps_GetClaims|intros c']);
    try (apply keeps_bind; [apply keeps_bound|intros a]); apply (RQ c').
  - apply after_run in E as [(e & ES & _)|(c & w1 & ES & EH)]; apply SQ in ES as EQ; injection EQ as E1 E2.
    { split; [done|]. by split; [left|]. }
    apply respond_run in EH as (r & EM & ->). apply bound_run in EM as [(e & -> & -> & ->)|(req & -> & EM)].
    { split; [done|]. by split; [left|]. }
    destruct r as [e|resp].
    + apply (createExecute_error sr ar rr tx _ pr cooldown sv topic jsonb db sent) in EM as [E3 E4].
      split; [congruence|]. split; [left; congruence|]. intros _. congruence.
    + apply (createExecute_spec sr ar rr tx _ pr cooldown sv topic jsonb db sent) in EM
        as (_ & sub & att & job & HS & _ & H1 & _ & H2 & H3).
      split; [congruence|]. split; [|intros HX; by vm_compute in HX]. right. exists c, w1. split; [done|]. left.
      rewrite E1 in HS. by exists req, sub, att, job.
  - apply (respond_keeps (fun w => (db w, sent w))) in E as EQ.
    + injection EQ as E1 E2. split; [done|]. by split; [left|].
    + apply keeps_bind; [apply keeps_bound|]. intros name. apply (RQ (mkClaims "" "" "" 0)).
  - apply after_run in E as [(e & ES & _)|(c & w1 & ES & EH)]; apply SQ in ES as EQ; injection EQ as E1 E2.
    { split; [done|]. by split; [left|]. }
    apply respond_run in EH as (r & EM & ->). apply bound_run in EM as [(e & -> & -> & ->)|(sid & -> & EM)].
    { split; [done|]. by split; [left|]. }
    destruct r as [e|resp].
    + apply (rejudgeExecute_error sr ar rr tx _ pr cooldown sv topic jsonb db sent) in EM as [E3 E4].
      split; [congruence|]. split; [left; congruence|]. intros _. congruence.
    + apply (rejudgeExecute_spec sr ar rr tx _ pr cooldown sv topic jsonb db sent) in EM
        as (V & old & now & att & job & HS & _ & _ & H3).
      apply validateRejudge_none in V as (_ & V & _). split; [congruence|]. split; [|intros HX; by vm_compute in HX].
      right. exists c, w1. split; [done|]. right. rewrite E1 in HS. by exists sid, old, now, att, job.
Qed.
End api.

(** ** A platform for the witnesses *)

Definition demo_cutoffs : LogoutAllIATStore world := {| SetLogoutAllIAT _ _ := ret tt; GetLogoutAllIAT _ := ret 0 |}.
Definition demo_listing : SubmissionListing world := {| SR_List _ := ret (mkList [] 0); SR_ResultSummaries _ := ret ∅ |}.
Definition no_runner (req : JudgeRunRequest) : M world (RunCodeResponse RunDiagnostic) := fail (EStatus code_Unavailable "down").
Definition no_problem (id : Z) (actor : ProblemActor) : M world ProblemInfo := fail ErrProblemNotFound.
Definition no_snapshot (id : Z) : M world (option SubmissionStreamSnapshot) := fail ErrSubmissionNotFound.
Definition no_ticket (user : string) (id : Z) : M world (string * Time) := fail (EText "no secret").
Definition no_stats (user : string) (since : Time) : M world UserProfileStats := ret (mkStats 0 0 0 0 [] [] []).
Definition no_user (name : string) : M world PublicUser := fail ErrPublicProfileNotFound.

#[export] Instance demo_ports : ReadingPorts demo_cutoffs mem_sr demo_listing mem_ar mem_rr mem_sv no_problem no_runner no_snapshot
  no_ticket no_stats no_user (fun w => (mem_db w, w_sent w)).
Proof.
  constructor; intros; try apply keeps_ret; try apply keeps_fail.
  - apply keeps_pair.
    + intros w [e|o] w' E; [by apply (get_by_id_error mem_sr mem_ar mem_rr mem_tx) in E|].
      by apply (get_by_id mem_sr mem_ar mem_rr mem_tx) in E as [E _].
    + by destruct (repos_quiet mem_sr mem_ar mem_rr mem_tx) as (_ & Q & _).
  - intros w r w'. cbn. unfold pg_GetByAttemptID. cbv zeta. case_bool_decide; [by intros [= _ <-]|].
    unfold bind, on_error. cbn. unfold mem_first. by destruct (mem_rows _ _ _ _); intros [= _ <-].
  - apply keeps_pair; [apply now_db|apply now_sent].
Qed.

Definition demo_run_limits : RunCodeLimits := mkRunLimits 0 0 0 0 0 0 0 0 0.
Definition demo_serve := serve demo_cutoffs (fun _ => None) mem_sr demo_listing mem_ar mem_rr mem_tx (outbox_Publish mem_or mem_topic) mem_pr
  (Some mem_cooldown) mem_sv 0 no_problem no_runner demo_run_limits no_snapshot no_ticket no_stats no_user.
Definition signed_in : Headers := mkHeaders "u-1" "100" "alice" "user".
Definition demo_post : ApiRequest := PostSubmission (inr (mkCreateReq 7 "CPP" "int main() {}")).
Definition demo_posted := demo_serve signed_in demo_post empty_world.

(** A submission is stored and answered with 201; without identity the reply is
    401 and nothing is stored. *)
Lemma api_changes_are_authorised_witness :
  demo_posted.1.(RpStatus) = 201
  /\ (demo_serve (mkHeaders "" "" "" "") demo_post empty_world).1.(RpStatus) = 401
  /\ mem_db (demo_serve (mkHeaders "" "" "" "") demo_post empty_world).2 = mem_db empty_world.
Proof.
  split; [vm_compute; reflexivity|].
  assert ((demo_serve (mkHeaders "" "" "" "") demo_post empty_world).1.(RpStatus) = 401) as E by (vm_compute; reflexivity).
  split; [exact E|].
  refine (proj2 (proj2 (api_changes_are_authorised demo_cutoffs (fun _ => None) mem_sr demo_listing mem_ar mem_rr mem_or mem_tx mem_topic
    mem_pr (Some mem_cooldown) mem_sv 0 no_problem no_runner demo_run_limits no_snapshot no_ticket no_stats no_user id mem_db w_sent
    (mkHeaders "" "" "" "") demo_post empty_world _ _ (surjective_pairing _))) _).
  change (400 <= (demo_serve (mkHeaders "" "" "" "") demo_post empty_world).1.(RpStatus)). rewrite E. lia.
Defined.
