(* ===== verification/ProblemApi.v ===== *)
(** The HTTP interface of the problem service: the routes of
    services/problem/internal/adapter/inbound/http/router.go with the handlers of
    http/handler, over the use cases of the service and the middleware of
    pkg/middleware; and that the catalogue changes through it only for the users
    that may change it. *)

From S2P Require Import Prelude GoString GoError GoMonad AuthDomain AuthSessions Responses SubmissionDomain ProblemDomain ProblemAdmin ProblemTestcases ProblemStore ProblemSpec PgCatalogue ProblemDemo ProblemGuarantees.

(** ** Requests and data of the replies *)

Inductive ProblemRoute (W : Type) :=
| GetProblems (query : error + ListProblemsRequest)
| GetProblemBySlug (uri : error + string)
| GetTags
| GetMyProblems (query : error + ListProblemsRequest)
| AdminGetProblems (query : error + ListProblemsRequest)
| AdminGetProblem (uri : error + Z)
| AdminPostProblem (json : error + CreateProblemRequest)
| AdminPutProblem (uri : error + Z) (json : error + UpdateProblemRequest)
| AdminDeleteProblem (uri : error + Z)
| AdminPublishProblem (uri : error + Z)
| AdminHideProblem (uri : error + Z)
| AdminGetTags
| AdminPostTag (json : error + CreateTagRequest)
| AdminPutTag (uri : error + Z) (json : error + UpdateTagRequest)
| AdminDeleteTag (uri : error + Z)
| AdminGetTestCase (uri : error + Z)
| AdminPostTestCase (uri : error + Z) (form : error + option (UploadFile W))
| AdminDeleteTestCase (uri : error + Z).
Arguments GetProblems {W}. Arguments GetProblemBySlug {W}. Arguments GetTags {W}. Arguments GetMyProblems {W}.
Arguments AdminGetProblems {W}. Arguments AdminGetProblem {W}. Arguments AdminPostProblem {W}. Arguments AdminPutProblem {W}.
Arguments AdminDeleteProblem {W}. Arguments AdminPublishProblem {W}. Arguments AdminHideProblem {W}. Arguments AdminGetTags {W}.
Arguments AdminPostTag {W}. Arguments AdminPutTag {W}. Arguments AdminDeleteTag {W}. Arguments AdminGetTestCase {W}.
Arguments AdminPostTestCase {W}. Arguments AdminDeleteTestCase {W}.

(** A created problem is optional because the search for its slug has fuel. *)
Inductive ProblemData :=
| DProblems (r : ListProblemsResponse)
| DProblem (r : ProblemResponse)
| DNewProblem (r : option ProblemResponse)
| DProblemDetail (r : AdminProblemDetailResponse)
| DTags (r : list TagResponse)
| DAdminTags (r : list AdminTagResponse)
| DTag (r : AdminTagResponse)
| DTestCase (r : TestCaseMetadataResponse).

Section api.
Context {W : Type} (cutoffs : LogoutAllIATStore W) (ParseFloat : string -> option Z) (pf : platform W) (fuel : nat).

(** ** The handlers *)

Definition ListProblems_Handle query :=
  HandleWithQuery DProblems query (listProblems pf.(pf_offset) pf.(pf_lower_rune) pf.(pf_problems)) CodeSuccess.
Definition GetProblem_Handle uri := HandleWithParams DProblem uri (getUserProblem pf.(pf_offset) pf.(pf_problems)) CodeSuccess.
Definition ListTags_Handle := HandleNoBody DTags (listActiveTags pf.(pf_tags)) CodeSuccess.
Definition ListMyProblems_Handle (claims : option Claims) query :=
  HandleWithQueryAndClaims DProblems claims query (listMyProblems pf.(pf_offset) pf.(pf_lower_rune) pf.(pf_problems)) CodeSuccess.

Definition AdminListProblems_Handle (claims : option Claims) query :=
  HandleWithQueryAndClaims DProblems claims query (adminListProblems pf.(pf_offset) pf.(pf_lower_rune) pf.(pf_problems)) CodeSuccess.
Definition AdminGetProblem_Handle (claims : option Claims) uri :=
  HandleWithParamsAndClaims DProblemDetail claims uri (getAdminProblem pf.(pf_offset) pf.(pf_problems) pf.(pf_tests)) CodeSuccess.
Definition CreateProblem_Handle (claims : option Claims) json :=
  HandleWithClaims DNewProblem claims json
    (createProblem pf.(pf_now) pf.(pf_offset) pf.(pf_lower_rune) pf.(pf_problems) pf.(pf_tags) fuel) CodeCreated.
Definition UpdateProblem_Handle (claims : option Claims) uri json :=
  HandleWithClaimsParamsAndBody DProblem claims uri json
    (updateProblem pf.(pf_offset) pf.(pf_lower_rune) pf.(pf_problems) pf.(pf_tags) pf.(pf_cache)) CodeSuccess.
Definition DeleteProblem_Handle (claims : option Claims) uri : W -> Reply ProblemData * W :=
  HandleVoidWithParamsAndClaims claims uri (deleteProblem pf.(pf_problems) pf.(pf_cache)) CodeSuccess "problem deleted successfully".
Definition PublishProblem_Handle (claims : option Claims) uri :=
  HandleWithParamsAndClaims DProblem claims uri (publishProblem pf.(pf_now) pf.(pf_offset) pf.(pf_problems) pf.(pf_cache)) CodeSuccess.
Definition HiddenProblem_Handle (claims : option Claims) uri :=
  HandleWithParamsAndClaims DProblem claims uri (hideProblem pf.(pf_now) pf.(pf_offset) pf.(pf_problems) pf.(pf_cache)) CodeSuccess.

Definition AdminListTags_Handle (claims : option Claims) :=
  HandleWithClaimsNoBody DAdminTags claims (listAllTags pf.(pf_offset) pf.(pf_tags)) CodeSuccess.
Definition CreateTag_Handle (claims : option Claims) json :=
  HandleWithClaims DTag claims json (createTag pf.(pf_now) pf.(pf_offset) pf.(pf_lower_rune) pf.(pf_tags)) CodeCreated.
Definition UpdateTag_Handle (claims : option Claims) uri json :=
  HandleWithClaimsParamsAndBody DTag claims uri json (updateTag pf.(pf_offset) pf.(pf_lower_rune) pf.(pf_tags)) CodeSuccess.
Definition DeleteTag_Handle (claims : option Claims) uri : W -> Reply ProblemData * W :=
  HandleVoidWithParamsAndClaims claims uri (deleteTag pf.(pf_tags)) CodeSuccess "tag deactivated successfully".

Definition GetTestCase_Handle (claims : option Claims) uri :=
  HandleWithParamsAndClaims DTestCase claims uri (getTestCase pf.(pf_offset) pf.(pf_problems) pf.(pf_tests)) CodeSuccess.
Definition UploadTestCase_Handle (claims : option Claims) uri form :=
  HandleWithClaimsParamsAndForm DTestCase claims uri form
    (uploadTestCase pf.(pf_now) pf.(pf_offset) pf.(pf_problems) pf.(pf_tests) pf.(pf_storage) pf.(pf_OpenReader) pf.(pf_Remove)) CodeCreated.
Definition DeleteTestCase_Handle (claims : option Claims) uri : W -> Reply ProblemData * W :=
  HandleVoidWithParamsAndClaims claims uri (deleteTestCase pf.(pf_problems) pf.(pf_tests) pf.(pf_storage)) CodeSuccess
    "testcase deleted successfully".

(** ** The routes *)

(** A group with the session check, and the role check of a route. *)
Definition with_role {D} (h : Headers) (min : Role) (handler : option Claims -> W -> Reply D * W) : W -> Reply D * W :=
  after (AuthMiddleware cutoffs ParseFloat h) (fun c => after (RequireRole min (Some c)) (fun _ => handler (Some c))).

(** [Router.SetupRoutes] *)
Definition problem_routes (h : Headers) (rt : ProblemRoute W) : W -> Reply ProblemData * W :=
  let isContributor := with_role h RoleContributor in
  let isModerator := with_role h RoleModerator in
  match rt with
  | GetProblems query => ListProblems_Handle query
  | GetProblemBySlug uri => GetProblem_Handle uri
  | GetTags => ListTags_Handle
  | GetMyProblems query => isContributor (fun c => ListMyProblems_Handle c query)
  | AdminGetProblems query => isModerator (fun c => AdminListProblems_Handle c query)
  | AdminGetProblem uri => isContributor (fun c => AdminGetProblem_Handle c uri)
  | AdminPostProblem json => isContributor (fun c => CreateProblem_Handle c json)
  | AdminPutProblem uri json => isContributor (fun c => UpdateProblem_Handle c uri json)
  | AdminDeleteProblem uri => isContributor (fun c => DeleteProblem_Handle c uri)
  | AdminPublishProblem uri => isModerator (fun c => PublishProblem_Handle c uri)
  | AdminHideProblem uri => isModerator (fun c => HiddenProblem_Handle c uri)
  | AdminGetTags => isModerator (fun c => AdminListTags_Handle c)
  | AdminPostTag json => isModerator (fun c => CreateTag_Handle c json)
  | AdminPutTag uri json => isModerator (fun c => UpdateTag_Handle c uri json)
  | AdminDeleteTag uri => isModerator (fun c => DeleteTag_Handle c uri)
  | AdminGetTestCase uri => isContributor (fun c => GetTestCase_Handle c uri)
  | AdminPostTestCase uri form => isContributor (fun c => UploadTestCase_Handle c uri form)
  | AdminDeleteTestCase uri => isContributor (fun c => DeleteTestCase_Handle c uri)
  end.

(** ** What a route asks of the catalogue *)

Definition both {A B C} (f : A -> B -> C) (a : error + A) (b : error + B) : option C :=
  match a, b with inr a, inr b => Some (f a b) | _, _ => None end.
Definition one {A C} (f : A -> C) (a : error + A) : option C := match a with inr a => Some (f a) | inl _ => None end.

(** The request, if its input could be bound. *)
Definition request_of (rt : ProblemRoute W) : option (problem_request W) :=
  match rt with
  | GetProblems query => one PqBrowse query
  | GetProblemBySlug uri => one PqShow uri
  | GetTags => Some PqActiveTags
  | GetMyProblems query => one PqMine query
  | AdminGetProblems query => one PqList query
  | AdminGetProblem uri => one PqGet uri
  | AdminPostProblem json => one (PqCreate fuel) json
  | AdminPutProblem uri json => both PqUpdate uri json
  | AdminDeleteProblem uri => one PqDelete uri
  | AdminPublishProblem uri => one PqPublish uri
  | AdminHideProblem uri => one PqHide uri
  | AdminGetTags => Some PqTags
  | AdminPostTag json => one PqCreateTag json
  | AdminPutTag uri json => both PqUpdateTag uri json
  | AdminDeleteTag uri => one PqDeleteTag uri
  | AdminGetTestCase uri => one PqGetTests uri
  | AdminPostTestCase uri form => both PqUpload uri form
  | AdminDeleteTestCase uri => one PqDeleteTests uri
  end.

(** The role a route asks for. *)
Definition route_role (rt : ProblemRoute W) : option Role :=
  match rt with
  | GetProblems _ | GetProblemBySlug _ | GetTags => None
  | AdminGetProblems _ | AdminPublishProblem _ | AdminHideProblem _ | AdminGetTags | AdminPostTag _ | AdminPutTag _ _
  | AdminDeleteTag _ => Some RoleModerator
  | _ => Some RoleContributor
  end.

(** ** The catalogue behind the routes *)

Section catalogue.
Context (db : W -> catalogue) (keep : Problem -> Problem) {PL : PlatformLaws pf db keep}.
Hypothesis session_quiet : forall user, keeps db (GetLogoutAllIAT cutoffs user).

Lemma auth_quiet h : keeps db (AuthMiddleware cutoffs ParseFloat h).
Proof.
  unfold AuthMiddleware. case_bool_decide; [apply keeps_fail|]. destruct (parseTokenIAT _ _); [|apply keeps_fail].
  apply keeps_bind; [apply keeps_on_error, session_quiet|]. intros iat. destruct (_ && _); [apply keeps_fail|apply keeps_ret].
Qed.

(** A use case as the request it performs. *)
Definition performs {A} (c : Claims) (rq : problem_request W) (m : M W A) : Prop :=
  perform_request pf c rq = (let* _ := m in ret tt).

Lemma performed {A} c rq (m : M W A) w r w' : request_quiet db rq -> performs c rq m -> m w = (r, w') -> catalogue_spec keep c rq (db w) (db w').
Proof.
  intros Q P E. assert (exists r', perform_request pf c rq w = (r', w')) as [r' E'].
  { rewrite P. unfold bind. rewrite E. destruct r; eauto. }
  by apply (requests_follow_spec pf db keep) in E'.
Qed.

(** Bound input goes to the use case, or nothing happens. *)
Lemma one_bound {A B D} (ok : B -> Reply D) code text (a : error + A) (f : A -> M W B) (g : A -> problem_request W) c w reply w' :
  (forall x, performs c (g x) (f x)) -> (forall x, a = inr x -> request_quiet db (g x)) ->
  respond ok (let* x := bound code text a in f x) w = (reply, w') ->
  db w' = db w \/ exists rq, one g a = Some rq /\ catalogue_spec keep c rq (db w) (db w').
Proof.
  intros P Q (r & E & _)%respond_run. destruct a as [e|x]; cbn in E; [injection E as _ <-; by left|].
  right. exists (g x). split; [done|]. eapply performed; [by apply Q|apply P|done].
Qed.

Lemma both_bound {A B R D} (ok : R -> Reply D) c1 t1 c2 t2 (a : error + A) (b : error + B) (f : A -> B -> M W R)
    (g : A -> B -> problem_request W) c w reply w' :
  (forall x y, performs c (g x y) (f x y)) -> (forall x y, a = inr x -> b = inr y -> request_quiet db (g x y)) ->
  respond ok (let* x := bound c1 t1 a in let* y := bound c2 t2 b in f x y) w = (reply, w') ->
  db w' = db w \/ exists rq, both g a b = Some rq /\ catalogue_spec keep c rq (db w) (db w').
Proof.
  intros P Q (r & E & _)%respond_run. destruct a as [e|x]; cbn in E; [injection E as _ <-; by left|].
  destruct b as [e|y]; cbn in E; [injection E as _ <-; by left|].
  right. exists (g x y). split; [done|]. eapply performed; [by apply Q|apply P|done].
Qed.

(** The guards of a route. *)
Lemma guarded {D} h min (handler : option Claims -> W -> Reply D * W) w reply w' : with_role h min handler w = (reply, w') ->
  db w' = db w
  \/ exists c w1, AuthMiddleware cutoffs ParseFloat h w = (inr c, w1) /\ db w1 = db w /\ AtLeast c.(ClaimRole) min = true
       /\ handler (Some c) w1 = (reply, w').
Proof.
  unfold with_role, after. destruct (AuthMiddleware _ _ h w) as [[e|c] w1] eqn:E; apply auth_quiet in E as EQ.
  - intros [= _ <-]. by left.
  - unfold RequireRole. destruct (AtLeast (ClaimRole c) min) eqn:EL; cbn; [|intros [= _ <-]; by left].
    intros H. right. by exists c, w1.
Qed.

(** What a request may do to the catalogue: nothing; or, with a valid session
    of a user with the role of the route, what the abstract machine allows for
    these claims and the bound input. *)
Definition allowed (h : Headers) (rt : ProblemRoute W) (w w' : W) : Prop :=
  db w' = db w
  \/ exists min c w1 rq, route_role rt = Some min /\ AuthMiddleware cutoffs ParseFloat h w = (inr c, w1)
       /\ AtLeast c.(ClaimRole) min = true /\ request_of rt = Some rq /\ catalogue_change keep c rq (db w) (db w').

Lemma public_route (h : Headers) (rt : ProblemRoute W) c w w' :
  match request_of rt with Some rq => forall m m', catalogue_change keep c rq m m' -> False | None => True end ->
  (db w' = db w \/ exists rq, request_of rt = Some rq /\ catalogue_spec keep c rq (db w) (db w')) -> allowed h rt w w'.
Proof. intros P [E|(rq & E & [S|S])]; [by left|by left|]. rewrite E in P. by apply P in S. Qed.

Lemma role_route {D} h rt min (handler : option Claims -> W -> Reply D * W) w reply w' :
  route_role rt = Some min -> with_role h min handler w = (reply, w') ->
  (forall c w1, handler (Some c) w1 = (reply, w') ->
     db w' = db w1 \/ exists rq, request_of rt = Some rq /\ catalogue_spec keep c rq (db w1) (db w')) ->
  allowed h rt w w'.
Proof.
  intros HR [E|(c & w1 & EA & E1 & EL & E)]%guarded HH; [by left|].
  apply HH in E as [E|(rq & ER & [S|S])]; [left; congruence|left; congruence|].
  right. exists min, c, w1, rq. by rewrite <- E1.
Qed.

Lemma claims_given {A D} (ok : A -> Reply D) c (f : Claims -> M W A) w :
  respond ok (let* c := GetClaims (Some c) in f c) w = respond ok (f c) w.
Proof. reflexivity. Qed.

(** The handlers end in one of the two shapes. *)
Ltac head_of t := lazymatch t with ?f _ => head_of f | _ => t end.
Ltac destruct_one := cbn; match goal with a : (error + _)%type |- _ => destruct a end; cbn; [exact I|intros ? ? []].
Ltac performs_done := intros; subst; first [reflexivity | exact I | match goal with Q : context [request_quiet] |- _ => apply Q; reflexivity end].

(** C14: whatever request reaches the interface, the catalogue afterwards is the
    one before or the one the abstract machine allows for this user and this
    input: only a user with a valid session and the role of the route changes
    it, the public routes never do, and neither does a request without
    identity, with an insufficient role or with input that cannot be bound. *)
Theorem problem_api_is_guarded h rt w reply w' :
  (forall rq, request_of rt = Some rq -> request_quiet db rq) ->
  problem_routes h rt w = (reply, w') -> allowed h rt w w'.
Proof.
  intros Q E. destruct rt; cbn [problem_routes] in E.
  1-2: apply (public_route h _ (mkClaims "" "" "" 0)); [by destruct_one|];
    (eapply one_bound; [| |exact E]; performs_done).
  1: { apply (public_route h _ (mkClaims "" "" "" 0)); [by intros ? ? []|]. right. exists PqActiveTags. split; [done|].
       apply respond_run in E as (r & E & _). eapply performed; [exact I| |exact E]. reflexivity. }
  all: eapply role_route; [reflexivity|exact E|]; intros c w1 EH; cbv beta in EH;
    lazymatch type of EH with ?hd _ = _ => let f := head_of hd in unfold f in EH end;
    unfold HandleWithQueryAndClaims, HandleWithParamsAndClaims, HandleVoidWithParamsAndClaims, HandleWithClaims, HandleWithClaimsNoBody,
      HandleWithClaimsParamsAndBody, HandleWithClaimsParamsAndForm in EH; rewrite claims_given in EH.
  all: try ((eapply one_bound; [| |exact EH]; performs_done) || (eapply both_bound; [| |exact EH]; performs_done)).
  right. exists PqTags. split; [done|]. apply respond_run in EH as (r & EH & _). eapply performed; [exact I| |exact EH]. reflexivity.
Qed.
End catalogue.
End api.


(** ** The service of the demonstration *)

Definition no_cutoffs : LogoutAllIATStore pworld := {| SetLogoutAllIAT _ _ := ret tt; GetLogoutAllIAT _ := ret 0 |}.
Definition signed (c : Claims) : Headers := mkHeaders c.(UserID) "100" c.(Username) c.(ClaimRole).
Definition demo_http (c : Claims) : Reply ProblemData * pworld :=
  problem_routes no_cutoffs (fun _ => Some 100) demo_platform 2 (signed c) (AdminPublishProblem (inr 1)) demo_created.

(** The moderator publishes the problem; its author, a contributor, may not. *)
Example demo_http_published : ((demo_http demo_moderator).1.(RpStatus), demo_row (demo_http demo_moderator).2)
  = (200, Some ("a-b"%string, false, [1])).
Proof. vm_compute. reflexivity. Qed.

Lemma demo_session w : AuthMiddleware no_cutoffs (fun _ => Some 100) (signed demo_author) w = (inr (mkClaims "u1" "ann" RoleContributor 100), w).
Proof. reflexivity. Qed.

Lemma problem_api_is_guarded_witness :
  (demo_http demo_author).1.(RpStatus) = 403 /\ demo_catalogue (demo_http demo_author).2 = demo_catalogue demo_created
  /\ allowed no_cutoffs (fun _ => Some 100) 2 demo_catalogue (keep_columns (fun r => r)) (signed demo_moderator)
       (AdminPublishProblem (inr 1)) demo_created (demo_http demo_moderator).2.
Proof.
  pose proof (fun c => problem_api_is_guarded no_cutoffs (fun _ => Some 100) demo_platform 2 demo_catalogue (keep_columns (fun r => r))
    (fun _ => keeps_ret _ _) (signed c) (AdminPublishProblem (inr 1)) demo_created (demo_http c).1 (demo_http c).2
    ltac:(by intros rq [= <-]) (surjective_pairing _)) as H.
  split; [vm_compute; reflexivity|]. split; [|exact (H demo_moderator)].
  destruct (H demo_author) as [E|(min & c & w1 & rq & [= <-] & EA & EL & _)]; [exact E|].
  rewrite demo_session in EA. pose proof (f_equal fst EA) as EC. cbn [fst] in EC. injection EC as <-. discriminate EL.
Defined.
