(* ===== verification/AuthApi.v ===== *)
(** The HTTP interface of the auth service: the routes of
    services/auth/internal/adapter/inbound/http/router.go with the handlers of
    http/handler and the request metadata of pkg/middleware; and that over HTTP
    accounts change only for those who may change them, and tokens leave the
    service only by a login or a refresh. *)

From S2P Require Import Prelude GoString GoError GoMonad SubmissionDomain Redis AuthDomain AuthRedis AuthSessions AuthAccounts AuthUsers PgUsers AuthWorld AuthRevocation AuthLogin AuthSpec AuthDemo AuthGuarantees Responses.

(** ** Requests, replies and cookies *)

Record LoginRequest := mkLoginRequest { LqIdentifier : string; LqPassword : string }.
Record PublicUsersQuery := mkPublicQuery { PqQuery : string; PqPage : option Z; PqLimit : option Z }.
Record AdminUsersQuery := mkAdminQuery {
  AqPage : option Z; AqLimit : option Z; AqSearch : string; AqRole : string; AqStatus : string }.

Inductive AuthRoute (W : Type) :=
| PostRegister (json : error + RegisterRequest)
| PostLogin (json : error + LoginRequest)
| PostLogout
| PostLogoutAll
| PostRefreshToken (cookie : error + string)
| PostEmailVerify (json : error + string)
| PostEmailResend (json : error + string)
| PostPasswordForgot (json : error + string)
| PostPasswordReset (json : error + ResetPasswordRequest)
| PutPasswordChange (json : error + ChangePasswordRequest)
| GetMine
| PatchProfile (json : error + UpdateProfileRequest)
| PostAvatar (form : error + option (FileHeader W))
| GetUserSearch (query : error + PublicUsersQuery)
| GetUserProfile (uri : error + string)
| AdminGetUsers (query : error + AdminUsersQuery)
| AdminGetOneUser (uri : error + string)
| AdminPatchSuspension (uri : error + string) (json : error + option bool)
| AdminPutRole (uri : error + string) (json : error + Role).
Arguments PostRegister {W}. Arguments PostLogin {W}. Arguments PostLogout {W}. Arguments PostLogoutAll {W}.
Arguments PostRefreshToken {W}. Arguments PostEmailVerify {W}. Arguments PostEmailResend {W}. Arguments PostPasswordForgot {W}.
Arguments PostPasswordReset {W}. Arguments PutPasswordChange {W}. Arguments GetMine {W}. Arguments PatchProfile {W}.
Arguments PostAvatar {W}. Arguments GetUserSearch {W}. Arguments GetUserProfile {W}. Arguments AdminGetUsers {W}.
Arguments AdminGetOneUser {W}. Arguments AdminPatchSuspension {W}. Arguments AdminPutRole {W}.

Inductive AuthData :=
| DTokens (r : LoginResponse)
| DMe (r : GetMeResponse)
| DAvatar (url : string)
| DProfile (r : GetProfileResponse)
| DFound (r : list PublicUserSearchItem * Pagination)
| DUsers (r : list AdminUserResponse * Pagination)
| DUser (r : AdminUserResponse).

(** [SetCookie] with path "/", the host's domain, not secure, HTTP only. *)
Record Cookie := mkCookie { CkName : string; CkValue : string; CkMaxAge : Z }.
Definition WebReply : Type := Reply AuthData * list Cookie.

Definition token_cookies (res : LoginResponse) : list Cookie :=
  [mkCookie "access_token" res.(AccessToken) res.(AccessExpire); mkCookie "refresh_token" res.(RefreshToken) res.(RefreshExpire)].
Definition no_cookies : list Cookie := [mkCookie "access_token" "" (-1); mkCookie "refresh_token" "" (-1)].

(** A handler that writes cookies with the reply of success, and one that writes none. *)
Definition respond_cookies {W A} (cookies : A -> list Cookie) (ok : A -> Reply AuthData) (m : M W A) : W -> WebReply * W := fun w =>
  match m w with
  | (inl err, w') => ((HandleError err, []), w')
  | (inr a, w') => ((ok a, cookies a), w')
  end.
Definition plain {W} (handler : W -> Reply AuthData * W) : W -> WebReply * W := fun w =>
  let '(reply, w') := handler w in ((reply, []), w').
(** A middleware before it. *)
Definition behind {W A} (middleware : M W A) (handler : A -> W -> WebReply * W) : W -> WebReply * W := fun w =>
  match middleware w with
  | (inl err, w') => ((HandleError err, []), w')
  | (inr a, w') => handler a w'
  end.

Section api.
Context {S W : Type} `{Redis S} (p : auth_platform S W).

(** [NewRequestMetadataMiddleware]: the address that the other calls see;
    [ParseIP] is [net.ParseIP] followed by [String]. *)
Definition NewRequestMetadataMiddleware (ParseIP : string -> option string) (XClientIP : string) : option string :=
  ParseIP (TrimSpace XClientIP).

(** ** The handlers *)

Section handlers.
Context (ctx : option string) (claims : option Claims).

Definition Register_Handle json :=
  plain (HandleVoid json (auth_register p ctx) CodeCreated "registration successful, please check your email to verify your account").
Definition Login_Handle (json : error + LoginRequest) :=
  respond_cookies token_cookies (fun res => SuccessWithMessage CodeSuccess "login successful" (Some (DTokens res)))
    (let* req := bound CodeBadRequest "invalid request payload" json in auth_login p ctx req.(LqIdentifier) req.(LqPassword)).
Definition Logout_Handle : W -> WebReply * W := fun w =>
  ((SuccessWithMessage CodeSuccess "logged out successfully" None, no_cookies), w).
Definition LogoutAll_Handle :=
  respond_cookies (fun _ => no_cookies) (fun _ => SuccessWithMessage CodeSuccess "logged out from all devices successfully" None)
    (let* c := GetClaims claims in auth_logoutAll p c.(UserID)).
Definition RefreshToken_Handle (cookie : error + string) :=
  respond_cookies token_cookies (fun res => SuccessWithMessage CodeSuccess "token refreshed successfully" (Some (DTokens res)))
    (let* refresh_token := bound CodeUnauthorized "missing refresh token" cookie in auth_refresh p refresh_token).
Definition VerifyEmail_Handle json :=
  plain (HandleVoid json (auth_verify p ctx) CodeSuccess "email verified successfully, your account is now active").
Definition ResendVerification_Handle json :=
  plain (HandleVoid json (auth_resend p ctx) CodeSuccess "If the email is valid, a link has been sent. Please check your email.").
Definition ForgotPassword_Handle json :=
  plain (HandleVoid json (auth_forgot p ctx) CodeSuccess "If the email is valid, a link has been sent. Please check your email.").
Definition ResetPassword_Handle json :=
  plain (HandleVoid json (auth_reset p ctx) CodeSuccess "password reset successfully, you can now log in with your new password").
Definition ChangePassword_Handle json :=
  plain (HandleVoidWithClaims claims json (auth_changePassword p) CodeSuccess
    "password changed successfully, you can now log in with your new password").

Definition GetMe_Handle := plain (HandleWithClaimsNoBody DMe claims (getMe p.(ap_users)) CodeSuccess).
Definition UpdateProfile_Handle json := plain (HandleWithClaims DMe claims json (auth_updateProfile p) CodeSuccess).
Definition UploadAvatar_Handle form := plain (HandleWithFormAndClaims DAvatar claims form (auth_uploadAvatar p) CodeSuccess).
Definition SearchPublicUsers_Handle query :=
  plain (HandleWithQuery DFound query (fun q => searchPublicUsers p.(ap_users) q.(PqQuery) q.(PqPage) q.(PqLimit)) CodeSuccess).
Definition GetProfile_Handle uri := plain (HandleWithParams DProfile uri (getProfile p.(ap_users)) CodeSuccess).

Definition AdminUsers_List query :=
  plain (HandleWithQueryAndClaims DUsers claims query
    (fun c q => adminListUsers p.(ap_users) c q.(AqPage) q.(AqLimit) q.(AqRole) q.(AqStatus) q.(AqSearch)) CodeSuccess).
Definition AdminUsers_Get uri :=
  plain (HandleWithParamsAndClaims DUser claims uri (adminGetUser p.(ap_users) p.(ap_uuid_Parse)) CodeSuccess).
Definition AdminUsers_SetSuspension uri json :=
  plain (HandleWithClaimsParamsAndBody (fun u => DUser (toAdminUserResponse u)) claims uri json (auth_SetSuspension p) CodeSuccess).
Definition AssignRole_Handle uri json :=
  plain (HandleVoidWithClaimsParamsAndBody claims uri json (auth_assignRole p) CodeSuccess "Assign role for user successfully").
End handlers.

(** ** The routes *)

(** [Router.SetupRoutes] behind the middleware of [NewRouter]. *)
Definition auth_routes (ParseIP : string -> option string) (XClientIP : string) (h : Headers) (rt : AuthRoute W) : W -> WebReply * W :=
  let ctx := NewRequestMetadataMiddleware ParseIP XClientIP in
  let signed_in handler := behind (auth_middleware p h) (fun c => handler (Some c)) in
  let isAdmin handler := signed_in (fun c => behind (RequireRole RoleAdmin c) (fun _ => handler c)) in
  match rt with
  | PostRegister json => Register_Handle ctx json
  | PostLogin json => Login_Handle ctx json
  | PostLogout => signed_in (fun _ => Logout_Handle)
  | PostLogoutAll => signed_in (fun c => LogoutAll_Handle c)
  | PostRefreshToken cookie => RefreshToken_Handle cookie
  | PostEmailVerify json => VerifyEmail_Handle ctx json
  | PostEmailResend json => ResendVerification_Handle ctx json
  | PostPasswordForgot json => ForgotPassword_Handle ctx json
  | PostPasswordReset json => ResetPassword_Handle ctx json
  | PutPasswordChange json => signed_in (fun c => ChangePassword_Handle c json)
  | GetMine => signed_in (fun c => GetMe_Handle c)
  | PatchProfile json => signed_in (fun c => UpdateProfile_Handle c json)
  | PostAvatar form => signed_in (fun c => UploadAvatar_Handle c form)
  | GetUserSearch query => SearchPublicUsers_Handle query
  | GetUserProfile uri => GetProfile_Handle uri
  | AdminGetUsers query => isAdmin (fun c => AdminUsers_List c query)
  | AdminGetOneUser uri => isAdmin (fun c => AdminUsers_Get c uri)
  | AdminPatchSuspension uri json => isAdmin (fun c => AdminUsers_SetSuspension c uri json)
  | AdminPutRole uri json => isAdmin (fun c => AssignRole_Handle c uri json)
  end.

(** ** What a route asks of the accounts *)

Definition one {A C} (f : A -> C) (a : error + A) : option C := match a with inr a => Some (f a) | inl _ => None end.
Definition both {A B C} (f : A -> B -> C) (a : error + A) (b : error + B) : option C :=
  match a, b with inr a, inr b => Some (f a b) | _, _ => None end.

(** The request, if its input could be bound; [c] are the claims of the session. *)
Definition request_of (ctx : option string) (c : Claims) (rt : AuthRoute W) : option (auth_request W) :=
  match rt with
  | PostRegister json => one (RqRegister ctx) json
  | PostLogin json => one (fun r => RqLogin ctx r.(LqIdentifier) r.(LqPassword)) json
  | PostLogoutAll => Some (RqLogoutAll c.(UserID))
  | PostRefreshToken cookie => one RqRefresh cookie
  | PostEmailVerify json => one (RqVerify ctx) json
  | PostEmailResend json => one (RqResend ctx) json
  | PostPasswordForgot json => one (RqForgot ctx) json
  | PostPasswordReset json => one (RqReset ctx) json
  | PutPasswordChange json => one (RqChangePassword c) json
  | PatchProfile json => one (RqUpdateProfile c) json
  | PostAvatar form => one (RqUploadAvatar c) form
  | AdminPatchSuspension uri json => both (RqSetSuspension c) uri json
  | AdminPutRole uri json => both (RqAssignRole c) uri json
  | _ => None
  end.

(** Who may call a route. *)
Inductive access := Public | Session | Admin.
Definition route_access (rt : AuthRoute W) : access :=
  match rt with
  | AdminGetUsers _ | AdminGetOneUser _ | AdminPatchSuspension _ _ | AdminPutRole _ _ => Admin
  | PostLogout | PostLogoutAll | PutPasswordChange _ | GetMine | PatchProfile _ | PostAvatar _ => Session
  | _ => Public
  end.

(** The guards let the request pass, with these claims, in the world [w1]. *)
Definition admitted (h : Headers) (rt : AuthRoute W) (c : Claims) (w w1 : W) : Prop :=
  match route_access rt with
  | Public => w1 = w
  | Session => auth_middleware p h w = (inr c, w1)
  | Admin => auth_middleware p h w = (inr c, w1) /\ AtLeast c.(ClaimRole) RoleAdmin = true
  end.

(** ** Accounts and tokens behind the routes *)

Section accounts.
Context (server : W -> S) (accounts : W -> gmap string User) (time : W -> Time) {AL : AuthLaws p server accounts time}.

#[local] Existing Instances al_redis al_client al_users.

(** An uploaded file is read without touching the stores. *)
Definition idle_file (rt : AuthRoute W) : Prop :=
  forall f, rt = PostAvatar (inr (Some f)) ->
    moves (idle server accounts time) f.(FhOpen) /\ moves (idle server accounts time) f.(FhRead512)
    /\ moves (idle server accounts time) f.(FhSeek).

(** What the handler of a route does once it is reached. *)
Definition handled (ctx : option string) (rt : AuthRoute W) (c : Claims) (w w' : W) : Prop :=
  accounts w' = accounts w \/ exists rq, request_of ctx c rt = Some rq /\ runs p server accounts time rq w w'.

Lemma middleware_same h : moves (same accounts) (auth_middleware p h).
Proof.
  intros w r w' E. assert (runs p server accounts time (RqMiddleware h) w w') as R by by exists r.
  apply (runs_spec p server accounts time) in R as [R|[]]. exact R.
Qed.

Lemma plain_run {A} (ok : A -> Reply AuthData) (m : M W A) w reply w' : plain (respond ok m) w = (reply, w') ->
  reply.2 = [] /\ exists r, m w = (r, w').
Proof. unfold plain, respond. destruct (m w) as [[e|a] w1]; intros [= <- <-]; eauto. Qed.

Lemma cookies_run {A} cookies (ok : A -> Reply AuthData) (m : M W A) w reply w' : respond_cookies cookies ok m w = (reply, w') ->
  exists r, m w = (r, w') /\ reply = match r with inl e => (HandleError e, []) | inr a => (ok a, cookies a) end.
Proof. unfold respond_cookies. destruct (m w) as [[e|a] w1]; intros [= <- <-]; eauto. Qed.

Lemma behind_run {A} (m : M W A) handler w reply w' : behind m handler w = (reply, w') ->
  (exists e, m w = (inl e, w') /\ reply = (HandleError e, [])) \/ exists a w1, m w = (inr a, w1) /\ handler a w1 = (reply, w').
Proof. unfold behind. destruct (m w) as [[e|a] w1] eqn:E; [intros [= <- <-]|]; eauto 8. Qed.

Lemma bound_inv {A B} code text (a : error + A) (f : A -> M W B) w r w' : (let* x := bound code text a in f x) w = (r, w') ->
  w' = w \/ exists x, a = inr x /\ f x w = (r, w').
Proof. destruct a; [intros [= _ <-]; by left|]. right. eauto. Qed.

Ltac head_of t := lazymatch t with ?f _ => head_of f | _ => t end.

Lemma given_claims {A} c (f : Claims -> M W A) w : (let* c := GetClaims (Some c) in f c) w = f c w.
Proof. reflexivity. Qed.

(** A route behind the session check. *)
Lemma session_run h handler w reply w' : behind (auth_middleware p h) handler w = (reply, w') ->
  accounts w' = accounts w
  \/ exists c w1, auth_middleware p h w = (inr c, w1) /\ accounts w1 = accounts w /\ handler c w1 = (reply, w').
Proof.
  intros [(e & E & _)|(c & w1 & E & EH)]%behind_run; apply middleware_same in E as K; [by left|]. right. by exists c, w1.
Qed.

(** ... and behind the role check. *)
Lemma admin_run h (handler : Claims -> W -> WebReply * W) w reply w' :
  behind (auth_middleware p h) (fun c => behind (RequireRole RoleAdmin (Some c)) (fun _ => handler c)) w = (reply, w') ->
  accounts w' = accounts w
  \/ exists c w1, (auth_middleware p h w = (inr c, w1) /\ AtLeast c.(ClaimRole) RoleAdmin = true) /\ accounts w1 = accounts w
       /\ handler c w1 = (reply, w').
Proof.
  intros [K|(c & w1 & E & K & EH)]%session_run; [by left|].
  unfold behind, RequireRole in EH. destruct (AtLeast (ClaimRole c) RoleAdmin) eqn:EL; cbn in EH; [right; by exists c, w1|].
  injection EH as _ <-. by left.
Qed.

(** The use cases that only read. *)
Lemma user_reads_same : (forall c, moves (same accounts) (getMe p.(ap_users) c))
  /\ (forall n, moves (same accounts) (getProfile p.(ap_users) n))
  /\ (forall q a b, moves (same accounts) (searchPublicUsers p.(ap_users) q a b))
  /\ (forall c a b r s q, moves (same accounts) (adminListUsers p.(ap_users) c a b r s q))
  /\ (forall c u, moves (same accounts) (adminGetUser p.(ap_users) p.(ap_uuid_Parse) c u)).
Proof.
  destruct (reads_same p server accounts time) as (_ & H2 & H3).
  destruct (@al_db _ _ _ _ _ _ _ AL) as (_ & _ & _ & _ & H4 & H5 & _).
  assert (forall f, moves (same accounts) (ListUsers (ap_users p) f)) as H4' by (intros; by eapply (idle_same server accounts time)).
  assert (forall f, moves (same accounts) (SearchPublicUsers (ap_users p) f)) as H5' by (intros; by eapply (idle_same server accounts time)).
  split_ands; intros; [unfold getMe|unfold getProfile|unfold searchPublicUsers|unfold adminListUsers|unfold adminGetUser];
    repeat (solve [auto] || moves_step).
Qed.

Ltac use_case E :=
  first [apply plain_run in E as (_ & ? & E) | apply cookies_run in E as (? & E & _)];
  rewrite ?given_claims in E;
  repeat (apply bound_inv in E as [->|(? & -> & E)]; [by left|]);
  try (by right; eexists; split; [reflexivity|by eexists]);
  try (by left; destruct user_reads_same as (?&?&?&?&?); match type of E with ?m _ = _ =>
         let K := fresh in assert (moves (same accounts) m) as K by auto; by apply K in E end).

Lemma handled_route ParseIP ip h rt w reply w' : idle_file rt -> auth_routes ParseIP ip h rt w = (reply, w') ->
  accounts w' = accounts w
  \/ exists c w1, admitted h rt c w w1 /\ accounts w1 = accounts w
       /\ handled (NewRequestMetadataMiddleware ParseIP ip) rt c w1 w'.
Proof.
  intros HF E. destruct rt; cbn [auth_routes] in E.
  all: try (apply admin_run in E as [E|(c & w1 & EA & K & E)]; [by left|right; exists c, w1; split; [exact EA|split; [exact K|]]]).
  all: try (apply session_run in E as [E|(c & w1 & EA & K & E)]; [by left|right; exists c, w1; split; [exact EA|split; [exact K|]]]).
  all: try (right; exists (mkClaims "" "" "" 0), w; split; [reflexivity|split; [reflexivity|]]).
  all: unfold handled; cbn [request_of]; cbv beta in E.
  all: lazymatch type of E with ?hd _ = _ => let f := head_of hd in unfold f in E end.
  3: { injection E as _ <-. by left. }
  all: use_case E.
  right. eexists. split; [reflexivity|]. split; [|by eexists]. intros f ->. by apply HF.
Qed.

(** *** Cookies *)

Definition cookieless (handler : W -> WebReply * W) : Prop :=
  forall w reply w' ck, handler w = (reply, w') -> ck ∈ reply.2 -> ck.(CkValue) = ""%string.

Lemma plain_cookieless handler : cookieless (plain handler).
Proof. intros w reply w' ck. unfold plain. destruct (handler w). intros [= <- _] H0. by apply elem_of_nil in H0. Qed.
Lemma behind_cookieless {A} (m : M W A) handler : (forall a, cookieless (handler a)) -> cookieless (behind m handler).
Proof.
  intros HC w reply w' ck [(e & _ & ->)|(a & w1 & _ & E)]%behind_run; [by intros H0%elem_of_nil|]. by eapply HC.
Qed.
Lemma cleared ck : ck ∈ no_cookies -> ck.(CkValue) = ""%string.
Proof. unfold no_cookies. by intros [->|[->|H0%elem_of_nil]%elem_of_cons]%elem_of_cons. Qed.
Lemma clearing_cookieless {A} ok (m : M W A) : cookieless (respond_cookies (fun _ => no_cookies) ok m).
Proof. intros w reply w' ck (r & _ & ->)%cookies_run. destruct r; [by intros H0%elem_of_nil|apply cleared]. Qed.
Lemma logout_cookieless : cookieless Logout_Handle.
Proof. intros w reply w' ck [= <- _]. apply cleared. Qed.

(** The tokens of a login or of a refresh that took place. *)
Definition issues (ctx : option string) (rt : AuthRoute W) (resp : LoginResponse) (w w' : W) : Prop :=
  match rt with
  | PostLogin (inr req) => auth_login p ctx req.(LqIdentifier) req.(LqPassword) w = (inr resp, w')
  | PostRefreshToken (inr token) => auth_refresh p token w = (inr resp, w')
  | _ => False
  end.

Lemma issuing {A} code text (a : error + A) ok (f : A -> M W LoginResponse) w reply w' ck :
  respond_cookies token_cookies ok (let* x := bound code text a in f x) w = (reply, w') -> ck ∈ reply.2 ->
  exists x resp, a = inr x /\ f x w = (inr resp, w') /\ reply = (ok resp, token_cookies resp).
Proof.
  intros (r & E & ->)%cookies_run H0. destruct r as [e|resp]; [by apply elem_of_nil in H0|].
  destruct a as [e|x]; [discriminate|]. by exists x, resp.
Qed.

(** C13: over HTTP an account changes only through a request that the account
    machine allows for the bound input and the claims of the session: register,
    verify and reset are open to everybody (two of them ask for a token and one
    makes an inactive account), a password, a profile and an avatar change with
    a valid session and for its own user only, a role and a suspension with the
    session of an administrator only; every other request leaves the accounts
    alone.  And a reply sets a cookie with a value only when it is the success of
    a login or of a refresh, and the cookies are the tokens that it issued. *)
Theorem auth_api_is_guarded ParseIP ip h rt w reply w' : idle_file rt -> auth_routes ParseIP ip h rt w = (reply, w') ->
  let ctx := NewRequestMetadataMiddleware ParseIP ip in
  (accounts w' = accounts w
   \/ exists c w1 rq, admitted h rt c w w1 /\ request_of ctx c rt = Some rq
        /\ account_change p.(ap_enc).(ComparePasswords) (normal_email p) rq (accounts w) (accounts w'))
  /\ forall ck, ck ∈ reply.2 -> ck.(CkValue) <> ""%string ->
       exists resp, issues ctx rt resp w w' /\ reply.1.(RpStatus) = 200 /\ reply.2 = token_cookies resp.
Proof.
  intros HF E ctx. split.
  - apply handled_route in E as [E|(c & w1 & HA & E1 & [E|(rq & HR & E)])]; [by left|left; congruence| |done].
    apply (runs_spec p server accounts time) in E as [E|E]; [left; congruence|]. right. exists c, w1, rq. by rewrite <- E1.
  - intros ck HC HN.
    assert (forall handler, cookieless handler -> handler w = (reply, w') -> False) as K by (intros handler HL EH; eapply HN, HL; done).
    destruct rt; cbn [auth_routes] in E.
    2: { eapply issuing in E as (req & resp & -> & E & ->); [|done]. by exists resp. }
    4: { eapply issuing in E as (token & resp & -> & E & ->); [|done]. by exists resp. }
    all: exfalso; eapply K; [|exact E];
      repeat (lazymatch goal with |- cookieless (behind _ _) => apply behind_cookieless; intros ? end; cbv beta);
      first [apply logout_cookieless|apply clearing_cookieless|apply plain_cookieless].
Qed.
End accounts.
End api.

(** ** The service of the demonstration *)

Definition demo_api := auth_routes demo_platform Some "10.0.0.1 ".
Definition demo_post_login : AuthRoute auth_world := PostLogin (inr (mkLoginRequest " Alice" "oldpassword")).
Definition demo_put_role : AuthRoute auth_world := AdminPutRole (inr "u1"%string) (inr RoleAdmin).

Example demo_api_login : map CkName (demo_api demo_headers demo_post_login demo0).1.2 = ["access_token"; "refresh_token"]%string.
Proof. vm_compute. reflexivity. Qed.

Lemma demo_no_file rt : (forall f, rt <> PostAvatar f) -> idle_file (W := auth_world) aw_server demo_accounts aw_time rt.
Proof. intros HN f ->. by destruct (HN (inr (Some f))). Qed.

(** Alice, who is a user, may not make herself an administrator; her login sets
    the cookies. *)
Lemma auth_api_is_guarded_witness :
  (demo_api demo_headers demo_put_role demo1).1.1.(RpStatus) = 403
  /\ demo_accounts (demo_api demo_headers demo_put_role demo1).2 = demo_accounts demo1
  /\ exists resp, (demo_api demo_headers demo_post_login demo0).1.2 = token_cookies resp
       /\ auth_login demo_platform demo_ip " Alice" "oldpassword" demo0 = (inr resp, (demo_api demo_headers demo_post_login demo0).2).
Proof.
  split; [vm_compute; reflexivity|]. split.
  - destruct (auth_api_is_guarded demo_platform aw_server demo_accounts aw_time Some "10.0.0.1 " demo_headers demo_put_role demo1
      (demo_api demo_headers demo_put_role demo1).1 (demo_api demo_headers demo_put_role demo1).2 (demo_no_file demo_put_role ltac:(intros ? E0; discriminate E0))
      (surjective_pairing _)) as [[E|(c & w1 & rq & [EA EL] & _)] _]; [exact E|].
    assert ((auth_middleware demo_platform demo_headers demo1).1 = inr demo_claims) as EC by (vm_compute; reflexivity).
    rewrite EA in EC. cbn [fst] in EC. injection EC as ->. discriminate EL.
  - destruct (auth_api_is_guarded demo_platform aw_server demo_accounts aw_time Some "10.0.0.1 " demo_headers demo_post_login demo0
      (demo_api demo_headers demo_post_login demo0).1 (demo_api demo_headers demo_post_login demo0).2 (demo_no_file demo_post_login ltac:(intros ? E0; discriminate E0))
      (surjective_pairing _)) as [_ HC].
    destruct (demo_api demo_headers demo_post_login demo0).1.2 as [|ck l] eqn:EL.
    + pose proof demo_api_login as E. rewrite EL in E. discriminate E.
    + destruct (HC ck (list_elem_of_here _ _)) as (resp & HI & _ & HR); [|exists resp; split; [exact HR|exact HI]].
      assert (map (fun k => bool_decide (k.(CkValue) = ""%string)) (demo_api demo_headers demo_post_login demo0).1.2 = [false; false]) as E
        by (vm_compute; reflexivity).
      rewrite EL in E. injection E as E _. by apply bool_decide_eq_false in E.
Defined.
