(* ===== verification/MailProvider.v ===== *)
(** The mails of the auth service
    (services/auth/internal/adapter/outbound/mail/smtp_provider.go): the checks
    of the configuration, the links with their tokens, and one session with the
    SMTP server; and that passwords and tokens cross the network only as the
    configuration allows. *)

From S2P Require Import Prelude GoString GoError GoMonad GoTime SubmissionDomain AuthDomain ProblemDomain.

(** ** Configuration *)

Record SMTPConfig := mkSMTP {
  SmHost : string; SmPort : Z; SmUsername : string; SmPassword : string; SmSecurity : string; SmTimeout : Z;
  SmFromName : string; SmFrom : string }.
Definition with_security (security : string) (cfg : SMTPConfig) : SMTPConfig :=
  mkSMTP cfg.(SmHost) cfg.(SmPort) cfg.(SmUsername) cfg.(SmPassword) security cfg.(SmTimeout) cfg.(SmFromName) cfg.(SmFrom).

(** The parts of a parsed [url.URL] that are looked at; [UrlString] is its text. *)
Record URL := mkURL {
  UrlScheme : string; UrlHost : string; UrlUser : bool; UrlPath : string; UrlRawPath : string; UrlRawQuery : string;
  UrlFragment : string; UrlString : string }.

(** ** Texts *)

(** [strings.ContainsAny(s, "\r\n")] *)
Definition has_newline (s : string) : bool := existsb (fun c => is_byte 13 c || is_byte 10 c) (chars s).

(** [net.JoinHostPort] *)
Definition JoinHostPort (host port : string) : string :=
  if existsb (is_byte 58) (chars host) then "[" +:+ host +:+ "]:" +:+ port else host +:+ ":" +:+ port.

(** [url.QueryEscape] *)
Definition unreserved (c : ascii) : bool :=
  within 97 122 c || within 65 90 c || within 48 57 c || is_byte 45 c || is_byte 95 c || is_byte 46 c || is_byte 126 c.
Definition upper_hex (n : N) : ascii := ascii_of_N (if (n <? 10)%N then 48 + n else 55 + n).
Definition escape_byte (c : ascii) : bytes :=
  if unreserved c then [c]
  else if is_byte 32 c then [ascii_of_N 43]
  else [ascii_of_N 37; upper_hex (code c / 16); upper_hex (code c mod 16)].
Definition QueryEscape (s : string) : string := str (flat_map escape_byte (chars s)).

(** [strings.TrimRight(s, "/")] and [strings.TrimLeft(s, "/")] *)
Definition TrimRightSlash (s : string) : string := str (trim_right_set (is_byte 47) (chars s)).
Definition TrimLeftSlash (s : string) : string := str (drop_while (is_byte 47) (chars s)).

(** ** The network *)

Inductive MailTemplate := VerificationTemplate | ResetTemplate.

(** The connection and the client of [net/smtp], one at a time.  [Extension]
    has no error; [TlsClient] wraps the connection, which shakes hands with the
    first byte.  [MapRange] is the order in which the headers are met. *)
Record SmtpNet (W : Type) := {
  MapRange : list (string * string) -> M W (list (string * string));
  DialContext : string -> Z -> M W unit;
  SetDeadline : Time -> M W unit;
  ConnClose : M W unit;
  TlsClient : string -> W -> W;
  NewClient : string -> M W unit;
  ClientClose : M W unit;
  Extension : string -> W -> bool * W;
  StartTLS : string -> M W unit;
  Auth : string -> string -> M W unit;
  Mail : string -> M W unit;
  Rcpt : string -> M W unit;
  Data : M W unit;
  DataWrite : string -> M W unit;
  DataClose : M W unit;
  SmtpQuit : M W unit }.
Arguments MapRange {W}. Arguments DialContext {W}. Arguments SetDeadline {W}. Arguments ConnClose {W}. Arguments TlsClient {W}.
Arguments NewClient {W}. Arguments ClientClose {W}. Arguments Extension {W}. Arguments StartTLS {W}. Arguments Auth {W}.
Arguments Mail {W}. Arguments Rcpt {W}. Arguments Data {W}. Arguments DataWrite {W}. Arguments DataClose {W}. Arguments SmtpQuit {W}.

Section provider.
Context {W : Type} (sv : AuthServices W) (net : SmtpNet W) (lower_rune : bytes -> bytes)
  (ParseAddress : string -> option string) (url_Parse : string -> error + URL) (Year : Time -> Z)
  (Execute : MailTemplate -> string -> Z -> error + string).

(** ** Links *)

Definition parseFrontendURL (raw : string) : error + URL :=
  let base := TrimRightSlash (TrimSpace raw) in
  if bool_decide (base = ""%string) then inl (EText "frontend_url is required")
  else match url_Parse base with
       | inl err => inl (EWrap "invalid frontend_url" err)
       | inr u =>
           if negb (bool_decide (u.(UrlScheme) = "http"%string)) && negb (bool_decide (u.(UrlScheme) = "https"%string))
              || bool_decide (u.(UrlHost) = ""%string) || u.(UrlUser) || negb (bool_decide (u.(UrlPath) = ""%string))
              || negb (bool_decide (u.(UrlRawPath) = ""%string)) || negb (bool_decide (u.(UrlRawQuery) = ""%string))
              || negb (bool_decide (u.(UrlFragment) = ""%string))
           then inl (EText "frontend_url must be an absolute http or https origin without credentials, query, or fragment")
           else inr u
       end.

Definition frontendTokenURL (FrontendURL path token : string) (fragment : bool) : error + string :=
  match parseFrontendURL FrontendURL with
  | inl err => inl err
  | inr parsed =>
      let canonicalPath := "/" +:+ TrimLeftSlash path in
      if fragment then inr (parsed.(UrlString) +:+ canonicalPath +:+ "#token=" +:+ QueryEscape token)
      else inr (parsed.(UrlString) +:+ canonicalPath +:+ "?token=" +:+ QueryEscape token)
  end.

(** ** The checks before the service starts *)

Definition ValidateConfig (smtpCfg : SMTPConfig) (FrontendURL Mode : string) : option error :=
  let security := ToLower lower_rune (TrimSpace smtpCfg.(SmSecurity)) in
  if negb (bool_decide (security = "none"%string)) && negb (bool_decide (security = "starttls"%string))
     && negb (bool_decide (security = "tls"%string))
  then Some (EText "smtp.security must be one of none, starttls, tls")
  else if blank smtpCfg.(SmHost) then Some (EText "smtp.host is required")
  else if (smtpCfg.(SmPort) <? 1) || (65535 <? smtpCfg.(SmPort)) then Some (EText "smtp.port must be between 1 and 65535")
  else if smtpCfg.(SmTimeout) <=? 0 then Some (EText "smtp.timeout must be positive")
  else if has_newline smtpCfg.(SmFromName) then Some (EText "smtp.from_name must not contain a newline")
  else if blank smtpCfg.(SmFromName) then Some (EText "smtp.from_name is required")
  else if negb (bool_decide (ParseAddress smtpCfg.(SmFrom) = Some smtpCfg.(SmFrom)))
  then Some (EText "smtp.from must be a valid bare email address")
  else if negb (Bool.eqb (bool_decide (smtpCfg.(SmUsername) = ""%string)) (bool_decide (smtpCfg.(SmPassword) = ""%string)))
  then Some (EText "smtp.username and smtp.password must be configured together")
  else if bool_decide (security = "none"%string) && negb (bool_decide (smtpCfg.(SmUsername) = ""%string))
  then Some (EText "smtp authentication requires starttls or tls")
  else match parseFrontendURL FrontendURL with
       | inl err => Some err
       | inr parsed =>
           if bool_decide (Mode = "release"%string) then
             if bool_decide (security = "none"%string) then Some (EText "smtp.security must be starttls or tls in release mode")
             else if bool_decide (smtpCfg.(SmUsername) = ""%string)
             then Some (EText "smtp authentication is required in release mode")
             else if negb (bool_decide (parsed.(UrlScheme) = "https"%string))
             then Some (EText "app.frontend_url must use https in release mode")
             else None
           else None
       end.

(** ** A mail *)

Section session.
Context (cfg : SMTPConfig).

Definition mail_headers (toEmail subject : string) : list (string * string) :=
  [("From", cfg.(SmFromName) +:+ " <" +:+ cfg.(SmFrom) +:+ ">"); ("To", toEmail); ("Subject", subject);
   ("MIME-Version", "1.0"); ("Content-Type", "text/html; charset=" +:+ str [quote] +:+ "utf-8" +:+ str [quote])]%string.
Definition crlf : string := str [ascii_of_N 13; ascii_of_N 10].
Definition mail_message (headers : list (string * string)) (htmlBody : string) : string :=
  String.concat "" (map (fun '(k, v) => k +:+ ": " +:+ v +:+ crlf) headers) +:+ crlf +:+ htmlBody.

(** The part of [sendMail] with a client. *)
Definition smtp_session (toEmail msg : string) : M W unit :=
  (if bool_decide (cfg.(SmSecurity) = "starttls"%string) then
     let* ok := (fun w => let '(ok, w') := net.(Extension) "STARTTLS" w in (inr ok, w')) in
     if negb (ok : bool) then fail (EText "SMTP server does not support STARTTLS")
     else on_error (EWrap "STARTTLS failed") (net.(StartTLS) cfg.(SmHost))
   else ret tt) ;;
  (if negb (bool_decide (cfg.(SmUsername) = ""%string)) && negb (bool_decide (cfg.(SmPassword) = ""%string))
   then on_error (EWrap "SMTP auth failed") (net.(Auth) cfg.(SmUsername) cfg.(SmPassword)) else ret tt) ;;
  on_error (EWrap "MAIL FROM failed") (net.(Mail) cfg.(SmFrom)) ;;
  on_error (EWrap "RCPT TO failed") (net.(Rcpt) toEmail) ;;
  on_error (EWrap "DATA command failed") net.(Data) ;;
  on_error (EWrap "failed to write email body") (net.(DataWrite) msg) ;;
  on_error (EWrap "failed to close email body") net.(DataClose) ;;
  net.(SmtpQuit).

(** ... from the connection on. *)
Definition smtp_deliver (toEmail msg : string) : M W unit :=
  let addr := JoinHostPort cfg.(SmHost) (Itoa cfg.(SmPort)) in
  on_error (EWrap "failed to connect to SMTP server") (net.(DialContext) addr cfg.(SmTimeout)) ;;
  let* now := sv.(AuthNow) in
  let* deadline := try (net.(SetDeadline) (now + cfg.(SmTimeout))) in
  match deadline with
  | inl err => let* _ := try net.(ConnClose) in fail (EWrap "set SMTP connection deadline" err)
  | inr _ =>
      (fun w => (inr tt, if bool_decide (cfg.(SmSecurity) = "tls"%string) then net.(TlsClient) cfg.(SmHost) w else w)) ;;
      let* client := try (net.(NewClient) cfg.(SmHost)) in
      match client with
      | inl err => let* _ := try net.(ConnClose) in fail (EWrap "failed to create SMTP client" err)
      | inr _ => deferring (smtp_session toEmail msg) net.(ClientClose)
      end
  end.

Definition sendMail (toEmail subject htmlBody : string) : M W unit :=
  if has_newline cfg.(SmFromName) then fail (EText "smtp from_name contains a newline")
  else if negb (bool_decide (ParseAddress cfg.(SmFrom) = Some cfg.(SmFrom)))
  then fail (EText "smtp from must be a valid bare email address")
  else
    let* headers := net.(MapRange) (mail_headers toEmail subject) in
    smtp_deliver toEmail (mail_message headers htmlBody).
End session.

(** ** The provider *)

(** [NewSMTPProvider] *)
Definition smtp_config (cfg : SMTPConfig) : SMTPConfig := with_security (ToLower lower_rune (TrimSpace cfg.(SmSecurity))) cfg.

Definition send_token (cfg : SMTPConfig) (FrontendURL : string) (template : MailTemplate) (path : string) (fragment : bool)
    (subject toEmail token : string) : M W unit :=
  match frontendTokenURL FrontendURL path token fragment with
  | inl err => fail err
  | inr link =>
      let* now := sv.(AuthNow) in
      match Execute template link (Year now) with
      | inl err => fail err
      | inr body => sendMail (smtp_config cfg) toEmail subject body
      end
  end.

Definition smtp_provider (cfg : SMTPConfig) (FrontendURL : string) : MailProvider W := {|
  SendVerificationEmail := send_token cfg FrontendURL VerificationTemplate "/verify-email" true "Xác thực tài khoản AstraCode";
  SendForgotPasswordEmail := send_token cfg FrontendURL ResetTemplate "/reset-password" false "Đặt lại mật khẩu AstraCode" |}.
End provider.

(** ** What crosses the network *)

Inductive smtp_event :=
| SConnect (addr : string)
| STls (host : string)
| SAuth (username password : string)
| SMail (from : string)
| SRcpt (to : string)
| SData
| SBody (msg : string)
| SEnd
| SQuit.

Section wire.
Context {W : Type} (wire : W -> list smtp_event).

(** Whatever happens, a beginning of [evs] is sent; on success all of it. *)
Definition scripted {A} (evs : list smtp_event) (m : M W A) : Prop :=
  forall w r w', m w = (r, w') ->
    exists l, wire w' = wire w ++ l /\ l `prefix_of` evs /\ (forall a, r = inr a -> l = evs).

(** Every call sends its own command, or a part of nothing; the headers are met
    in some order.  The events are what carries the mail, the account or the
    encryption: the greeting (EHLO), which net/smtp sends with the first command
    or the question for an extension and which carries none of these, is not an
    event. *)
Class SmtpLaws (sv : AuthServices W) (net : SmtpNet W) : Prop := {
  sl_now : keeps wire sv.(AuthNow);
  sl_range : forall hs w r w', net.(MapRange) hs w = (r, w') -> wire w' = wire w /\ exists hs', r = inr hs' /\ hs' ≡ₚ hs;
  sl_dial : forall addr t, scripted [SConnect addr] (net.(DialContext) addr t);
  sl_deadline : forall t, keeps wire (net.(SetDeadline) t);
  sl_close : keeps wire net.(ConnClose);
  sl_tls : forall host w, wire (net.(TlsClient) host w) = wire w ++ [STls host];
  sl_client : forall host, keeps wire (net.(NewClient) host);
  sl_client_close : keeps wire net.(ClientClose);
  sl_extension : forall name w, wire (net.(Extension) name w).2 = wire w;
  sl_starttls : forall host, scripted [STls host] (net.(StartTLS) host);
  sl_auth : forall u p, scripted [SAuth u p] (net.(Auth) u p);
  sl_mail : forall from, scripted [SMail from] (net.(Mail) from);
  sl_rcpt : forall to, scripted [SRcpt to] (net.(Rcpt) to);
  sl_data : scripted [SData] net.(Data);
  sl_write : forall msg, scripted [SBody msg] (net.(DataWrite) msg);
  sl_data_close : scripted [SEnd] net.(DataClose);
  sl_quit : scripted [SQuit] net.(SmtpQuit);
}.

Lemma scripted_quiet {A} (m : M W A) : keeps wire m -> scripted [] m.
Proof. intros K w r w' E. exists []. rewrite (K _ _ _ E), app_nil_r. by split. Qed.
Lemma scripted_fail {A} evs e : scripted (A := A) evs (fail e).
Proof. intros w r w' [= <- <-]. exists []. rewrite app_nil_r. split; [done|]. by split; [apply prefix_nil|]. Qed.
Lemma scripted_ret {A} (a : A) : scripted [] (ret a).
Proof. apply scripted_quiet, keeps_ret. Qed.
Lemma scripted_on_error {A} f evs (m : M W A) : scripted evs m -> scripted evs (on_error f m).
Proof.
  intros K w r w'. unfold on_error. destruct (m w) as [[e|a] w1] eqn:E; intros [= <- <-]; apply K in E as (l & E1 & E2 & E3);
    exists l; split_and!; naive_solver.
Qed.
Lemma scripted_bind {A B} e1 e2 (m : M W A) (f : A -> M W B) : scripted e1 m -> (forall a, scripted e2 (f a)) ->
  scripted (e1 ++ e2) (bind m f).
Proof.
  intros K1 K2 w r w'. unfold bind. destruct (m w) as [[e|a] w1] eqn:E; apply K1 in E as (l1 & E1 & P1 & F1).
  - intros [= <- <-]. exists l1. split; [done|]. split; [by apply prefix_app_r|done].
  - intros (l2 & E2 & P2 & F2)%K2. rewrite (F1 a eq_refl) in *. exists (e1 ++ l2). rewrite E2, E1, app_assoc. split; [done|].
    split; [by apply prefix_app|]. intros b ->. by rewrite (F2 b eq_refl).
Qed.
Lemma scripted_then {A B} evs (m : M W A) (f : A -> M W B) : keeps wire m -> (forall a, scripted evs (f a)) -> scripted evs (bind m f).
Proof. intros K. apply (scripted_bind []), scripted_quiet, K. Qed.
Lemma scripted_deferring {A} evs (m : M W A) d : scripted evs m -> keeps wire d -> scripted evs (deferring m d).
Proof.
  intros K KD w r w'. unfold deferring. destruct (m w) as [r1 w1] eqn:E. intros [= <- <-]. apply K in E as (l & E1 & E2 & E3).
  exists l. destruct (d w1) as [rd w2] eqn:ED. apply KD in ED. cbn. by rewrite ED.
Qed.

Section mails.
Context (sv : AuthServices W) (net : SmtpNet W) (lower_rune : bytes -> bytes)
  (ParseAddress : string -> option string) (url_Parse : string -> error + URL) (Year : Time -> Z)
  (Execute : MailTemplate -> string -> Z -> error + string) {SL : SmtpLaws sv net}.

(** The session of a mail from its connection to its end. *)
Definition secures (cfg : SMTPConfig) : list smtp_event :=
  if bool_decide (cfg.(SmSecurity) = "tls"%string) || bool_decide (cfg.(SmSecurity) = "starttls"%string) then [STls cfg.(SmHost)] else [].
Definition signs_in (cfg : SMTPConfig) : list smtp_event :=
  if negb (bool_decide (cfg.(SmUsername) = ""%string)) && negb (bool_decide (cfg.(SmPassword) = ""%string))
  then [SAuth cfg.(SmUsername) cfg.(SmPassword)] else [].
Definition transcript (cfg : SMTPConfig) (toEmail msg : string) : list smtp_event :=
  [SConnect (JoinHostPort cfg.(SmHost) (Itoa cfg.(SmPort)))] ++ secures cfg ++ signs_in cfg
  ++ [SMail cfg.(SmFrom); SRcpt toEmail; SData; SBody msg; SEnd; SQuit].

Lemma session_scripted cfg toEmail msg :
  scripted ((if bool_decide (cfg.(SmSecurity) = "starttls"%string) then [STls cfg.(SmHost)] else []) ++ signs_in cfg
    ++ [SMail cfg.(SmFrom); SRcpt toEmail; SData; SBody msg; SEnd; SQuit]) (smtp_session net cfg toEmail msg).
Proof.
  unfold smtp_session. apply scripted_bind; [|intros _; apply scripted_bind; [|intros _]].
  - case_bool_decide; [|apply scripted_ret]. apply scripted_then.
    + intros w r w'. destruct (Extension net "STARTTLS" w) as [ok w1] eqn:E. pose proof (sl_extension "STARTTLS" w) as K.
      rewrite E in K. by intros [= <- <-].
    + intros ok. destruct ok; [apply scripted_on_error, sl_starttls|apply scripted_fail].
  - unfold signs_in. destruct (_ && _); [apply scripted_on_error, sl_auth|apply scripted_ret].
  - apply (scripted_bind [_]); [apply scripted_on_error, sl_mail|intros _].
    apply (scripted_bind [_]); [apply scripted_on_error, sl_rcpt|intros _].
    apply (scripted_bind [_]); [apply scripted_on_error, sl_data|intros _].
    apply (scripted_bind [_]); [apply scripted_on_error, sl_write|intros _].
    apply (scripted_bind [_]); [apply scripted_on_error, sl_data_close|intros _]. apply sl_quit.
Qed.

Lemma secures_split cfg : (if bool_decide (cfg.(SmSecurity) = "tls"%string) then [STls cfg.(SmHost)] else [])
  ++ (if bool_decide (cfg.(SmSecurity) = "starttls"%string) then [STls cfg.(SmHost)] else []) = secures cfg.
Proof. unfold secures. repeat case_bool_decide; try done. congruence. Qed.

Lemma deliver_scripted cfg toEmail msg : scripted (transcript cfg toEmail msg) (smtp_deliver sv net cfg toEmail msg).
Proof.
  unfold transcript. rewrite <- secures_split, <- (app_assoc _ _ (signs_in cfg ++ _)).
  apply scripted_bind; [apply scripted_on_error, sl_dial|intros _].
  apply scripted_then; [apply sl_now|intros now]. apply scripted_then; [apply keeps_try, sl_deadline|intros [err|_]].
  { apply scripted_then; [apply keeps_try, sl_close|intros _; apply scripted_fail]. }
  apply scripted_bind.
  { intros v x v' [= <- <-]. case_bool_decide; [exists [STls (SmHost cfg)]; split; [apply sl_tls|done]|].
    exists []. rewrite app_nil_r. done. }
  intros _. apply scripted_then; [apply keeps_try, sl_client|intros [err|_]].
  { apply scripted_then; [apply keeps_try, sl_close|intros _; apply scripted_fail]. }
  apply scripted_deferring; [apply session_scripted|apply sl_client_close].
Qed.

(** A mail sends a beginning of its transcript. *)
Definition sends (cfg : SMTPConfig) (toEmail subject body : string) (r : error + unit) (w w' : W) : Prop :=
  exists headers l, headers ≡ₚ mail_headers cfg toEmail subject /\ wire w' = wire w ++ l
    /\ l `prefix_of` transcript cfg toEmail (mail_message headers body)
    /\ (r = inr tt -> l = transcript cfg toEmail (mail_message headers body)).

Lemma sends_nothing cfg toEmail subject body e w w' : wire w' = wire w -> sends cfg toEmail subject body (inl e) w w'.
Proof. intros K. eexists _, []. rewrite app_nil_r. split; [done|]. split; [done|]. by split; [apply prefix_nil|]. Qed.

Lemma sendMail_sends cfg toEmail subject body w r w' : sendMail sv net ParseAddress cfg toEmail subject body w = (r, w') ->
  sends cfg toEmail subject body r w w'.
Proof.
  unfold sendMail. destruct (has_newline _); [intros [= <- <-]; by apply sends_nothing|].
  destruct (negb _); [intros [= <- <-]; by apply sends_nothing|].
  unfold bind at 1. destruct (MapRange net _ w) as [rh w1] eqn:EH. apply sl_range in EH as (K & headers & -> & HP).
  intros (l & E1 & E2 & E3)%deliver_scripted. exists headers, l. rewrite <- K. split_and!; [done..|]. intros ->. by apply (E3 tt).
Qed.

(** In a transcript that encrypts, nothing but the address precedes the encryption. *)
Definition after_tls (e : smtp_event) (l : list smtp_event) : Prop :=
  forall l1 l2, l = l1 ++ e :: l2 -> exists host, STls host ∈ l1.

Lemma encrypted cfg toEmail msg l e : l `prefix_of` transcript cfg toEmail msg -> secures cfg <> [] ->
  (forall a, e <> SConnect a) -> (forall h, e <> STls h) -> after_tls e l.
Proof.
  intros [rest HP] HS H1 H2 l1 l2 ->. unfold transcript in HP. unfold secures in *. destruct (_ || _); [|done].
  cbn in HP. destruct l1 as [|a l1]; injection HP as ? HP; [by edestruct H1|].
  destruct l1 as [|b l1]; injection HP as ? HP; [by edestruct H2|]. exists (SmHost cfg). subst. right. left.
Qed.

(** What the checks leave. *)
Lemma checked_config cfg FrontendURL Mode : ValidateConfig lower_rune ParseAddress url_Parse cfg FrontendURL Mode = None ->
  (secures (smtp_config lower_rune cfg) <> [] \/ signs_in (smtp_config lower_rune cfg) = [])
  /\ exists u, parseFrontendURL url_Parse FrontendURL = inr u
     /\ (Mode = "release"%string -> secures (smtp_config lower_rune cfg) <> [] /\ u.(UrlScheme) = "https"%string).
Proof.
  unfold ValidateConfig, secures, signs_in. cbn [SmSecurity SmHost SmUsername SmPassword smtp_config with_security].
  set (security := ToLower lower_rune (TrimSpace (SmSecurity cfg))).
  destruct (bool_decide (security = "none"%string)) eqn:KN, (bool_decide (security = "starttls"%string)) eqn:KS,
    (bool_decide (security = "tls"%string)) eqn:KT; cbn [negb andb orb]; try discriminate;
    repeat (case_match; try discriminate); intros _.
  all: split; [first [by left|by right]|]; eexists; split; [reflexivity|]; intros HM; bools;
    repeat match goal with
           | K : bool_decide (_ = "release"%string) = _ |- _ => first [apply bool_decide_eq_true in K|apply bool_decide_eq_false in K]
           | K : bool_decide (UrlScheme _ = _) = _ |- _ => apply bool_decide_eq_true in K
           end; by try split.
Qed.

(** The link of a mail. *)
Definition token_link (u : URL) (template : MailTemplate) (token : string) : string :=
  match template with
  | VerificationTemplate => u.(UrlString) +:+ "/verify-email" +:+ "#token=" +:+ QueryEscape token
  | ResetTemplate => u.(UrlString) +:+ "/reset-password" +:+ "?token=" +:+ QueryEscape token
  end.
Definition mail_call (p : MailProvider W) (template : MailTemplate) : string -> string -> M W unit :=
  match template with VerificationTemplate => p.(SendVerificationEmail) | ResetTemplate => p.(SendForgotPasswordEmail) end.

Lemma mail_call_run cfg FrontendURL template toEmail token w r w' u : parseFrontendURL url_Parse FrontendURL = inr u ->
  mail_call (smtp_provider sv net lower_rune ParseAddress url_Parse Year Execute cfg FrontendURL) template toEmail token w = (r, w') ->
  (exists e, r = inl e /\ wire w' = wire w)
  \/ exists now subject body w1, Execute template (token_link u template token) (Year now) = inr body /\ wire w1 = wire w
       /\ sends (smtp_config lower_rune cfg) toEmail subject body r w1 w'.
Proof.
  intros HU. unfold mail_call, smtp_provider. assert (exists path fragment subject,
    frontendTokenURL url_Parse FrontendURL path token fragment = inr (token_link u template token)
    /\ (match template with VerificationTemplate => send_token sv net lower_rune ParseAddress url_Parse Year Execute cfg FrontendURL
          VerificationTemplate "/verify-email" true "Xác thực tài khoản AstraCode" toEmail token
        | ResetTemplate => send_token sv net lower_rune ParseAddress url_Parse Year Execute cfg FrontendURL
          ResetTemplate "/reset-password" false "Đặt lại mật khẩu AstraCode" toEmail token end)
       = send_token sv net lower_rune ParseAddress url_Parse Year Execute cfg FrontendURL template path fragment subject toEmail token)
    as (path & fragment & subject & HL & HE).
  { destruct template; do 3 eexists; (split; [|reflexivity]); unfold frontendTokenURL; by rewrite HU. }
  intros E. assert (send_token sv net lower_rune ParseAddress url_Parse Year Execute cfg FrontendURL template path fragment subject
    toEmail token w = (r, w')) as E' by (rewrite <- HE; by destruct template). clear E HE. unfold send_token in E'. rewrite HL in E'.
  unfold bind at 1 in E'. destruct (AuthNow sv w) as [[e|now] w1] eqn:EN; apply sl_now in EN.
  { injection E' as <- <-. left. eauto. }
  destruct (Execute _ _ _) as [e|body] eqn:EX; [injection E' as <- <-; left; eauto|].
  right. exists now, subject, body, w1. split_and!; [done..|]. by eapply sendMail_sends.
Qed.

Lemma unsigned cfg toEmail msg l n p : l `prefix_of` transcript cfg toEmail msg -> signs_in cfg = [] -> after_tls (SAuth n p) l.
Proof.
  intros [rest HP] HS l1 l2 ->. exfalso. assert (SAuth n p ∈ transcript cfg toEmail msg) as H.
  { rewrite HP. apply elem_of_app. left. apply elem_of_app. right. left. }
  unfold transcript in H. rewrite HS in H. unfold secures in H. destruct (_ || _); cbn in H; set_solver.
Qed.

(** C25: with a configuration that passes the checks, sending a verification or
    reset mail transmits a beginning of one session, and the whole session when
    it succeeds: one message to the given address with the link that carries the
    token.  The password of the SMTP account is sent only after the connection
    has been encrypted, whatever fails; and in release mode nothing at all
    precedes the encryption, so no token is ever sent in the clear, and the link
    is an https link. *)
Theorem mail_is_protected cfg FrontendURL Mode template toEmail token w r w' :
  ValidateConfig lower_rune ParseAddress url_Parse cfg FrontendURL Mode = None ->
  mail_call (smtp_provider sv net lower_rune ParseAddress url_Parse Year Execute cfg FrontendURL) template toEmail token w = (r, w') ->
  exists u l, parseFrontendURL url_Parse FrontendURL = inr u /\ wire w' = wire w ++ l
    /\ (forall n p, after_tls (SAuth n p) l)
    /\ (Mode = "release"%string -> u.(UrlScheme) = "https"%string
         /\ forall e, (forall a, e <> SConnect a) -> (forall h, e <> STls h) -> after_tls e l)
    /\ (r = inr tt -> exists now subject body headers, Execute template (token_link u template token) (Year now) = inr body
         /\ headers ≡ₚ mail_headers (smtp_config lower_rune cfg) toEmail subject
         /\ l = transcript (smtp_config lower_rune cfg) toEmail (mail_message headers body)).
Proof.
  intros (HA & u & HU & HR)%checked_config E.
  apply (mail_call_run _ _ _ _ _ _ _ _ u HU) in E as [(e & -> & E)|(now & subject & body & w1 & HE & E & headers & l & HP & E1 & E2 & E3)].
  - exists u, []. rewrite app_nil_r. assert (forall e', after_tls e' []) as nothing by (by intros e' [|? ?] l2).
    split_and!; [done..| |done]. intros [_ HM]%HR. by split.
  - exists u, l. rewrite <- E. split_and!; [done..| | |].
    + intros n p. destruct HA as [HA|HA]; [by eapply encrypted|by eapply unsigned].
    + intros [HS HM]%HR. split; [done|]. intros e H1 H2. by eapply encrypted.
    + intros ->. exists now, subject, body, headers. split_and!; [done..|]. by apply E3.
Qed.

(** *** What the other parts of the service rely on *)

(** A mail does nothing that its network does not do. *)
Lemma mails_move (R : relation W) {PR : PreOrder R} cfg FrontendURL template toEmail token :
  moves R sv.(AuthNow) -> (forall hs, moves R (net.(MapRange) hs)) -> (forall a t, moves R (net.(DialContext) a t)) ->
  (forall t, moves R (net.(SetDeadline) t)) -> moves R net.(ConnClose) -> (forall h w, R w (net.(TlsClient) h w)) ->
  (forall h, moves R (net.(NewClient) h)) -> moves R net.(ClientClose) -> (forall n w, R w (net.(Extension) n w).2) ->
  (forall h, moves R (net.(StartTLS) h)) -> (forall u p, moves R (net.(Auth) u p)) -> (forall f, moves R (net.(Mail) f)) ->
  (forall t, moves R (net.(Rcpt) t)) -> moves R net.(Data) -> (forall m, moves R (net.(DataWrite) m)) -> moves R net.(DataClose) ->
  moves R net.(SmtpQuit) ->
  moves R (mail_call (smtp_provider sv net lower_rune ParseAddress url_Parse Year Execute cfg FrontendURL) template toEmail token).
Proof.
  intros ? ? ? ? ? ? ? ? HX. intros. assert (forall A (m : M W A) d, moves R m -> moves R d -> moves R (deferring m d)) as KD.
  { intros A m d Km Kd w r w'. unfold deferring. destruct (m w) as [r1 w1] eqn:E1. destruct (d w1) as [r2 w2] eqn:E2. cbn.
    intros [= <- <-]. etrans; [by eapply Km|by eapply Kd]. }
  assert (moves R (fun w => let '(ok, w') := Extension net "STARTTLS" w in (inr ok, w'))) as KE.
  { intros w r w' E. specialize (HX "STARTTLS"%string w). destruct (Extension net _ w). by injection E as _ <-. }
  assert (forall b h, moves R (fun w => (inr tt, if b : bool then TlsClient net h w else w))) as KT.
  { intros b h w r w' [= _ <-]. by destruct b. }
  unfold mail_call, smtp_provider, send_token, sendMail, smtp_deliver, smtp_session. destruct template; cbn [SendVerificationEmail SendForgotPasswordEmail].
  all: repeat (solve [auto] || (apply KD; [|done]) || moves_step).
Qed.
End mails.
End wire.

(** ** A network for the witness *)

Definition say (e : smtp_event) : M (list smtp_event) unit := fun w => (inr tt, w ++ [e]).
Definition demo_net : SmtpNet (list smtp_event) := {|
  MapRange hs := ret (rev hs); DialContext addr _ := say (SConnect addr); SetDeadline _ := ret tt; ConnClose := ret tt;
  TlsClient host w := w ++ [STls host]; NewClient _ := ret tt; ClientClose := ret tt; Extension _ w := (true, w);
  StartTLS host := say (STls host); Auth u p := say (SAuth u p); Mail from := say (SMail from); Rcpt to := say (SRcpt to);
  Data := say SData; DataWrite msg := say (SBody msg); DataClose := say SEnd; SmtpQuit := say SQuit |}.
Definition demo_mail_sv : AuthServices (list smtp_event) := {| AuthNow := ret 0; NewUUID := ret ""%string; Sleep _ := ret None |}.

Lemma say_scripted e : scripted (fun w => w) [e] (say e).
Proof. intros w r w' [= <- <-]. by exists [e]. Qed.
#[export] Instance demo_net_laws : SmtpLaws (fun w => w) demo_mail_sv demo_net.
Proof.
  constructor; intros; try apply say_scripted; try apply keeps_ret; try done.
  cbn in H. injection H as <- <-. split; [done|]. exists (rev hs). split; [done|]. symmetry. apply Permutation_rev.
Qed.

Definition demo_smtp : SMTPConfig :=
  mkSMTP "smtp.example.com" 587 "judge" "secret" " StartTLS" (10 * Second) "AstraCode" "noreply@example.com".
Definition demo_parse (s : string) : error + URL := inr (mkURL "https" "judge.example.com" false "" "" "" "" s).
Definition demo_execute (t : MailTemplate) (link : string) (year : Z) : error + string := inr ("<a href=" +:+ link +:+ ">").
Definition demo_mail := mail_call (smtp_provider demo_mail_sv demo_net (fun r => match r with [c] => [lower_ascii c] | _ => r end) Some
  demo_parse (fun _ => 2024) demo_execute demo_smtp "https://judge.example.com/ ") ResetTemplate "ann@x.io" "raw token+/=" [].

Example demo_body : List.filter (fun e => match e with SBody _ => true | _ => false end) demo_mail.2
  = [SBody (mail_message (rev (mail_headers demo_smtp "ann@x.io" "Đặt lại mật khẩu AstraCode"))
      "<a href=https://judge.example.com/reset-password?token=raw+token%2B%2F%3D>")].
Proof. vm_compute. reflexivity. Qed.

(** The mail is sent; the password follows the encryption. *)
Lemma mail_is_protected_witness :
  demo_mail.1 = inr tt /\ (exists n p, SAuth n p ∈ demo_mail.2) /\ forall n p, after_tls (SAuth n p) demo_mail.2.
Proof.
  assert (demo_mail.1 = inr tt) as H1 by (vm_compute; reflexivity). split; [exact H1|].
  split; [exists "judge"%string, "secret"%string; vm_compute; do 2 right; left|].
  destruct (mail_is_protected (fun w => w) demo_mail_sv demo_net (fun r => match r with [c] => [lower_ascii c] | _ => r end) Some
    demo_parse (fun _ => 2024) demo_execute demo_smtp "https://judge.example.com/ " "release" ResetTemplate "ann@x.io" "raw token+/=" []
    demo_mail.1 demo_mail.2) as (u & l & _ & E & HA & _); [vm_compute; reflexivity|apply surjective_pairing|].
  rewrite app_nil_l in E. rewrite E. exact HA.
Defined.
