(* ===== verification/Provisioning.v ===== *)
(** The provisioning of benchmark accounts
    (services/auth/internal/application/usecase/benchmark/provision_users.go):
    plans, creation and password rotation over a range of fixed identities; and
    that provisioning overwrites no account and a rotation changes passwords of
    its accounts only, all of them or none. *)

From S2P Require Import Prelude GoString GoError GoMonad GoTime SubmissionDomain PgStore AuthDomain AuthUsers PgUsers AuthWorld AuthDemo.

(** ** Identities *)

Definition MinSequence : Z := 1.
Definition MaxSequence : Z := 100000.

Definition ErrInvalidRange : error := ESentinel "invalid benchmark user range".
Definition ErrConflicts : error := ESentinel "benchmark user plan contains conflicts".
Definition ErrApplyStopped : error := ESentinel "benchmark user provisioning stopped safely".
Definition ErrRotateStopped : error := ESentinel "benchmark password rotation stopped safely".
(** The panic of a nil pointer. *)
Definition nil_dereference : error := ESentinel "runtime error: invalid memory address or nil pointer dereference".

Record Identity := mkIdentity { IdSequence : Z; IdUsername : string; IdEmail : string; IdFullName : string }.

(** [fmt.Sprintf("%03d", sequence)] *)
Definition three_digits (sequence : Z) : string := str (pad 3 sequence).
Definition identity_of (sequence : Z) : Identity :=
  mkIdentity sequence ("benchmark_judge_" +:+ three_digits sequence)
    ("benchmark-judge-" +:+ three_digits sequence +:+ "@benchmark.invalid") ("Benchmark Judge " +:+ three_digits sequence).

Definition Identities (start count : Z) : error + list Identity :=
  if (start <? MinSequence) || (count <? 1) || (MaxSequence <? start) || (MaxSequence - start <? count - 1) then inl ErrInvalidRange
  else inr (map identity_of (seqZ start count)).

(** ** Results *)

Inductive Status :=
| StatusWouldCreate | StatusExisting | StatusCreated | StatusSkipped | StatusConflict | StatusWouldRotate | StatusRotated.
#[export] Instance Status_eq : EqDecision Status.
Proof. solve_decision. Defined.

Record Entry := mkEntry { EnIdentity : Identity; EnStatus : Status; EnReason : string }.
Definition with_status (s : Status) (e : Entry) : Entry := mkEntry e.(EnIdentity) s e.(EnReason).
Definition conflict (reason : string) (e : Entry) : Entry := mkEntry e.(EnIdentity) StatusConflict reason.

Record Request := mkRequest { PvStart : Z; PvCount : Z; PvApply : bool; PvPassword : string }.

Record Result := mkResult {
  Entries : list Entry; Created : Z; Skipped : Z; Existing : Z; Conflicts : Z; StoppedAt : option Identity; Rotated : Z }.
Definition no_result : Result := mkResult [] 0 0 0 0 None 0.
Definition with_entries (l : list Entry) (r : Result) : Result :=
  mkResult l r.(Created) r.(Skipped) r.(Existing) r.(Conflicts) r.(StoppedAt) r.(Rotated).
Definition stopped_at (i : Identity) (r : Result) : Result :=
  mkResult r.(Entries) r.(Created) r.(Skipped) r.(Existing) r.(Conflicts) (Some i) r.(Rotated).

Definition count_status (s : Status) (l : list Entry) : Z := Z.of_nat (length (List.filter (fun e => bool_decide (e.(EnStatus) = s)) l)).
Definition recount (r : Result) : Result :=
  let n s := count_status s r.(Entries) in
  mkResult r.(Entries) (n StatusCreated) (n StatusSkipped) (n StatusExisting) (n StatusConflict) r.(StoppedAt) (n StatusRotated).

(** [BenchmarkPasswordUpdate] *)
Record BenchmarkPasswordUpdate := mkUpdate {
  BuUserID : string; BuUsername : string; BuEmail : string; BuFullName : string; BuPasswordHash : string }.

Section provisioner.
Context {W : Type} (sv : AuthServices W) (users : UserRepository W) (passwords : PasswordEncoder W)
  (lower_rune : bytes -> bytes) (ParseAddress : string -> option string) (ctx_Err : M W (option error))
  (Progress : option (Z -> Z -> W -> W)) (rotator : option (list BenchmarkPasswordUpdate -> M W unit)).

(** ** Looking at an identity *)

Definition isCanonical (user : User) (identity : Identity) : bool :=
  bool_decide (user.(UUsername) = identity.(IdUsername)) && bool_decide (user.(Email) = identity.(IdEmail))
  && bool_decide (user.(FullName) = identity.(IdFullName)) && bool_decide (user.(URole) = RoleUser)
  && user.(IsActive) && negb user.(IsSuspended).

(** The error of a lookup that is not "not found". *)
Definition lookup_failed (r : error + User) : bool :=
  match r with inl err => negb (errors_Is err ErrUserNotFound) | inr _ => false end.

Definition inspect (identity : Identity) : M W (Entry * option User) :=
  let* byUsername := try (users.(GetUserByUsername) identity.(IdUsername)) in
  let* byEmail := try (users.(GetUserByEmail) identity.(IdEmail)) in
  if lookup_failed byUsername then fail (EText "inspect benchmark username")
  else if lookup_failed byEmail then fail (EText "inspect benchmark email")
  else
    match byUsername, byEmail with
    | inl _, inl _ => ret (mkEntry identity StatusWouldCreate "", None)
    | inl _, inr _ | inr _, inl _ => ret (mkEntry identity StatusConflict "username/email identity is incomplete", None)
    | inr byUsername, inr byEmail =>
        if negb (bool_decide (byUsername.(UID) = byEmail.(UID)))
        then ret (mkEntry identity StatusConflict "username and email resolve to different users", None)
        else if negb (isCanonical byUsername identity)
        then ret (mkEntry identity StatusConflict "existing user is not the canonical benchmark identity", None)
        else ret (mkEntry identity StatusExisting "", Some byUsername)
    end.

(** ** Runs with a result

    The functions below return a result with an error or without; the result
    is a variable beside the world. *)

Definition P (A : Type) : Type := M (Result * W) A.
Definition port {A} (m : M W A) : P A := fun s => let '(r, w) := m s.2 in (r, (s.1, w)).
Definition update (f : Result -> Result) : P unit := fun s => (inr tt, (f s.1, s.2)).
Definition get : P Result := fun s => (inr s.1, s).
Definition set_entry (i : nat) (f : Entry -> Entry) : P unit := update (fun r => with_entries (alter f i r.(Entries)) r).

(** [ctx.Err()] that is returned. *)
Definition check_ctx : P unit :=
  let* err := port ctx_Err in match err with Some err => fail err | None => ret tt end.

Definition reportProgress (req : Request) (completed : Z) : P unit := fun s =>
  (inr tt, (s.1, match Progress with Some f => f completed req.(PvCount) s.2 | None => s.2 end)).

Fixpoint plan_entries (adjust : Entry -> Entry) (identities : list Identity) : P unit :=
  match identities with
  | [] => ret tt
  | identity :: rest =>
      check_ctx ;;
      let* inspected := port (inspect identity) in
      update (fun r => with_entries (r.(Entries) ++ [adjust inspected.1]) r) ;;
      plan_entries adjust rest
  end.

Definition plan (adjust : Entry -> Entry) (start count : Z) : P unit :=
  match Identities start count with
  | inl err => fail err
  | inr identities => plan_entries adjust identities ;; update recount
  end.

(** [Plan] and [PlanRotation]; they start with an empty result. *)
Definition Plan (start count : Z) : P unit := plan (fun e => e) start count.
Definition rotation_status (e : Entry) : Entry :=
  match e.(EnStatus) with
  | StatusWouldCreate => conflict "benchmark identity is missing" e
  | StatusExisting => with_status StatusWouldRotate e
  | _ => e
  end.
Definition PlanRotation (start count : Z) : P unit := plan rotation_status start count.

(** [for index := range result.Entries], with the entry at the index. *)
Fixpoint each_entry (body : nat -> Entry -> P unit) (indexes : list nat) : P unit :=
  match indexes with
  | [] => ret tt
  | i :: rest =>
      let* r := get in
      match r.(Entries) !! i with
      | None => ret tt
      | Some entry => body i entry ;; each_entry body rest
      end
  end.
Definition range_entries (body : nat -> Entry -> P unit) : P unit :=
  let* r := get in each_entry body (seq 0 (length r.(Entries))).

(** ** Creating *)

Definition compare (user : User) (password : string) : bool := passwords.(ComparePasswords) user.(Password) password.

(** [StoppedAt], [recount] and [ErrApplyStopped]. *)
Definition stop_apply (entry : Entry) : P unit :=
  update (fun r => recount (stopped_at entry.(EnIdentity) r)) ;; fail ErrApplyStopped.

(** The password of an account that the plan found. *)
Definition verify_entry (req : Request) (i : nat) (entry : Entry) : P unit :=
  if negb (bool_decide (entry.(EnStatus) = StatusExisting)) then ret tt
  else
    let* inspected := port (inspect entry.(EnIdentity)) in
    match inspected.2 with
    | None => fail nil_dereference
    | Some user =>
        if negb (compare user req.(PvPassword))
        then set_entry i (conflict "existing canonical account password does not match") else ret tt
    end.

Definition create_user (entry : Entry) (hash email : string) : M W unit :=
  let* id := sv.(NewUUID) in
  let* t1 := sv.(AuthNow) in
  let* t2 := sv.(AuthNow) in
  let* t3 := sv.(AuthNow) in
  users.(CreateUser) (Activate t3 (NewUser id t1 t2 entry.(EnIdentity).(IdFullName) entry.(EnIdentity).(IdUsername) email hash)).

(** [err != nil || ctx.Err() != nil] after hashing. *)
Definition hash_or_stop (req : Request) : M W (option string) :=
  let* hash := try (passwords.(HashAndSalt) req.(PvPassword)) in
  match hash with
  | inl _ => ret None
  | inr hash => let* err := ctx_Err in match err with Some _ => ret None | None => ret (Some hash) end
  end.

Definition create_entry (req : Request) (i : nat) (entry : Entry) : P unit :=
  let* err := port ctx_Err in
  match err with
  | Some err => update (stopped_at entry.(EnIdentity)) ;; fail err
  | None =>
      let done_ := reportProgress req (Z.of_nat i + 1) in
      if bool_decide (entry.(EnStatus) = StatusExisting) then set_entry i (with_status StatusSkipped) ;; done_
      else
        let* fresh := try (port (inspect entry.(EnIdentity))) in
        match fresh with
        | inl _ => stop_apply entry
        | inr (fresh, existing) =>
            match fresh.(EnStatus), existing with
            | StatusExisting, Some existing =>
                if compare existing req.(PvPassword) then set_entry i (with_status StatusSkipped)
                else set_entry i (conflict "concurrent canonical account password does not match") ;; stop_apply entry
            | StatusExisting, None => fail nil_dereference
            | StatusConflict, _ => set_entry i (conflict fresh.(EnReason)) ;; stop_apply entry
            | _, _ =>
                let* hash := port (hash_or_stop req) in
                match hash, NewEmail lower_rune ParseAddress entry.(EnIdentity).(IdEmail) with
                | None, _ | Some _, None => stop_apply entry
                | Some hash, Some email =>
                    let* created := try (port (create_user entry hash email)) in
                    match created with
                    | inr _ => set_entry i (with_status StatusCreated) ;; done_
                    | inl _ =>
                        let* reread := try (port (inspect entry.(EnIdentity))) in
                        match reread with
                        | inr (reread, Some racedUser) =>
                            if bool_decide (reread.(EnStatus) = StatusExisting) && compare racedUser req.(PvPassword)
                            then set_entry i (with_status StatusSkipped) ;; done_
                            else set_entry i (conflict "create failed and identity could not be verified safely") ;; stop_apply entry
                        | _ => set_entry i (conflict "create failed and identity could not be verified safely") ;; stop_apply entry
                        end
                    end
                end
            end
        end
  end.

(** [Provisioner.Execute] *)
Definition Execute (req : Request) : P unit :=
  if negb req.(PvApply) then Plan req.(PvStart) req.(PvCount)
  else if bool_decide (req.(PvPassword) = ""%string) then fail (EText "benchmark password is required for apply")
  else
    match ValidatePlainPassword req.(PvPassword) with
    | Some err => fail err
    | None =>
        Plan req.(PvStart) req.(PvCount) ;;
        range_entries (verify_entry req) ;;
        update recount ;;
        let* result := get in
        if negb (result.(Conflicts) =? 0) then fail ErrConflicts
        else range_entries (create_entry req) ;; update recount
    end.

(** ** Rotating the password *)

(** One entry; the updates are collected beside the result. *)
Definition rotate_entry (req : Request) (updates : list BenchmarkPasswordUpdate) (i : nat) (entry : Entry)
  : P (list BenchmarkPasswordUpdate) :=
  let* err := port ctx_Err in
  match err with
  | Some err => update (stopped_at entry.(EnIdentity)) ;; fail err
  | None =>
      let* fresh := try (port (inspect entry.(EnIdentity))) in
      match fresh with
      | inr (fresh, Some user) =>
          if bool_decide (fresh.(EnStatus) = StatusExisting) then
            let* hash := port (hash_or_stop req) in
            match hash with
            | None => update (stopped_at entry.(EnIdentity)) ;; fail ErrRotateStopped
            | Some hash =>
                reportProgress req (Z.of_nat i + 1) ;;
                ret (updates ++ [mkUpdate user.(UID) entry.(EnIdentity).(IdUsername) entry.(EnIdentity).(IdEmail)
                                   entry.(EnIdentity).(IdFullName) hash])
            end
          else
            set_entry i (conflict "benchmark identity changed before rotation") ;;
            update (fun r => recount (stopped_at entry.(EnIdentity) r)) ;; fail ErrRotateStopped
      | _ =>
          set_entry i (conflict "benchmark identity changed before rotation") ;;
          update (fun r => recount (stopped_at entry.(EnIdentity) r)) ;; fail ErrRotateStopped
      end
  end.

Fixpoint rotate_entries (req : Request) (updates : list BenchmarkPasswordUpdate) (indexes : list nat)
  : P (list BenchmarkPasswordUpdate) :=
  match indexes with
  | [] => ret updates
  | i :: rest =>
      let* r := get in
      match r.(Entries) !! i with
      | None => ret updates
      | Some entry => let* updates := rotate_entry req updates i entry in rotate_entries req updates rest
      end
  end.

(** [Provisioner.RotatePassword] *)
Definition RotatePassword (req : Request) : P unit :=
  if negb req.(PvApply) then PlanRotation req.(PvStart) req.(PvCount)
  else if bool_decide (req.(PvPassword) = ""%string) then fail (EText "benchmark password is required for rotation")
  else
    match ValidatePlainPassword req.(PvPassword) with
    | Some err => fail err
    | None =>
        PlanRotation req.(PvStart) req.(PvCount) ;;
        let* result := get in
        if negb (result.(Conflicts) =? 0) then fail ErrConflicts
        else
          match rotator with
          | None => fail ErrRotateStopped
          | Some RotateBenchmarkPasswords =>
              let* updates := rotate_entries req [] (seq 0 (length result.(Entries))) in
              on_error (fun _ => ErrRotateStopped) (port (RotateBenchmarkPasswords updates)) ;;
              update (fun r => recount (with_entries (map (with_status StatusRotated) r.(Entries)) r))
          end
    end.
End provisioner.

(** ** Provisioning adds accounts and changes none *)

Section additive.
Context {W : Type} (sv : AuthServices W) (users : UserRepository W) (passwords : PasswordEncoder W)
  (lower_rune : bytes -> bytes) (ParseAddress : string -> option string) (ctx_Err : M W (option error))
  (Progress : option (Z -> Z -> W -> W)) (accounts : W -> gmap string User) {UL : UserLaws users accounts}.

(** The other ports leave the table of users alone. *)
Class ProvisionPorts : Prop := {
  pp_now : keeps accounts sv.(AuthNow);
  pp_uuid : keeps accounts sv.(NewUUID);
  pp_hash : forall p, keeps accounts (passwords.(HashAndSalt) p);
  pp_ctx : keeps accounts ctx_Err;
  pp_progress : forall f a b w, Progress = Some f -> accounts (f a b w) = accounts w;
}.
Context {PP : ProvisionPorts}.

#[local] Abbreviation rows s := (accounts (snd s)).
#[local] Abbreviation entries s := (Entries (fst s)).

(** The account of an identity, as provisioning creates it. *)
Definition fixture (i : Identity) (u : User) : Prop :=
  u.(UUsername) = i.(IdUsername) /\ u.(FullName) = i.(IdFullName) /\ NewEmail lower_rune ParseAddress i.(IdEmail) = Some u.(Email)
  /\ u.(URole) = RoleUser /\ u.(IsActive) = true /\ u.(IsSuspended) = false.

Definition not_created (e : Entry) : Prop := e.(EnStatus) <> StatusCreated.

(** Entry [i] stands for identity [I] and is not marked as created. *)
Definition fine (i : nat) (I : Identity) (s : Result * W) : Prop :=
  exists e, entries s !! i = Some e /\ e.(EnIdentity) = I /\ not_created e.

(** Steps that leave the accounts and the other entries alone ... *)
Definition calm (i : nat) (s s' : Result * W) : Prop :=
  rows s' = rows s /\ (forall j, j <> i -> entries s' !! j = entries s !! j) /\ forall I, fine i I s -> fine i I s'.
(** ... and runs that may end with one new account, and then with its mark. *)
Definition outcome (i : nat) (I : Identity) (s s' : Result * W) : Prop :=
  (forall j, j <> i -> entries s' !! j = entries s !! j)
  /\ (rows s' = rows s /\ fine i I s'
      \/ exists u e, fixture I u /\ rows s !! u.(UID) = None /\ rows s' = <[u.(UID) := u]> (rows s)
           /\ entries s' !! i = Some e /\ e.(EnIdentity) = I /\ e.(EnStatus) = StatusCreated).

#[export] Instance calm_preorder i : PreOrder (calm i).
Proof.
  split; [done|]. intros s1 s2 s3 (A1 & B1 & C1) (A2 & B2 & C2). split; [congruence|]. split; [|auto].
  intros j HJ. by rewrite B2, B1.
Qed.

Definition turns (i : nat) (I : Identity) {A} (m : P (W := W) A) : Prop :=
  forall s r s', fine i I s -> m s = (r, s') -> outcome i I s s'.

Lemma turns_calm i I {A} (m : P (W := W) A) : moves (calm i) m -> turns i I m.
Proof. intros K s r s' HF (E1 & E2 & E3)%K. split; [done|]. left. auto. Qed.

Lemma turns_bind i I {A B} (m : P (W := W) A) (k : A -> P B) : moves (calm i) m -> (forall a, turns i I (k a)) -> turns i I (bind m k).
Proof.
  intros K Kk s r s' HF. unfold bind. destruct (m s) as [[e|a] s1] eqn:E; apply K in E as (E1 & E2 & E3).
  - intros [= <- <-]. split; [done|]. left. auto.
  - intros (F1 & F2)%Kk; [|auto]. split; [intros j HJ; by rewrite F1, E2|]. by rewrite <- E1.
Qed.

Lemma port_calm i {A} (m : M W A) : keeps accounts m -> moves (calm i) (port m).
Proof. intros K s r s'. unfold port. destruct (m s.2) as [r1 w1] eqn:E. intros [= _ <-]. split; [by apply K in E|done]. Qed.

Lemma update_calm i f : (forall r, (f r).(Entries) = r.(Entries)) -> moves (calm i) (update (W := W) f).
Proof.
  intros K s r s' [= _ <-]. split; [done|]. cbn. rewrite K. split; [done|]. intros I (e & HE). unfold fine. cbn. rewrite K. eauto.
Qed.

Lemma set_calm i f : (forall e, (f e).(EnIdentity) = e.(EnIdentity)) -> (forall e, not_created e -> not_created (f e)) ->
  moves (calm i) (set_entry (W := W) i f).
Proof.
  intros K1 K2 s r s' [= _ <-]. split; [done|]. cbn. split; [intros j HJ; by rewrite list_lookup_alter_ne|].
  intros I (e & HE & HI & HN). exists (f e). cbn. rewrite list_lookup_alter_eq, HE. split; [done|]. split; [by rewrite K1|auto].
Qed.

Lemma with_status_calm i st : st <> StatusCreated -> moves (calm i) (set_entry (W := W) i (with_status st)).
Proof. intros HS. by apply set_calm. Qed.
Lemma conflict_calm i text : moves (calm i) (set_entry (W := W) i (conflict text)).
Proof. by apply set_calm. Qed.

Lemma progress_calm i req n : moves (calm i) (reportProgress Progress req n).
Proof.
  intros s r s' [= _ <-]. split; [|done]. cbn. destruct Progress as [f|] eqn:E; [|done]. by apply pp_progress.
Qed.

Lemma inspect_keeps I : keeps accounts (inspect users I).
Proof.
  destruct (ul_reads (users := users) (accounts := accounts)) as (_ & K2 & K3 & _).
  unfold inspect. apply keeps_bind; [apply keeps_try, K3|intros x]. apply keeps_bind; [apply keeps_try, K2|intros y].
  repeat case_match; first [apply keeps_fail|apply keeps_ret].
Qed.

Lemma hash_keeps req : keeps accounts (hash_or_stop passwords ctx_Err req).
Proof.
  unfold hash_or_stop. apply keeps_bind; [apply keeps_try, pp_hash|intros [e|h]]; [apply keeps_ret|].
  apply keeps_bind; [apply pp_ctx|intros [e|]]; apply keeps_ret.
Qed.

Lemma stop_calm i entry : moves (calm i) (stop_apply (W := W) entry).
Proof.
  unfold stop_apply. apply moves_bind; [exact _|by apply update_calm|intros _]. apply moves_fail. exact _.
Qed.

(** Storing a new account. *)
Lemma create_user_run entry hash email w r w' : NewEmail lower_rune ParseAddress entry.(EnIdentity).(IdEmail) = Some email ->
  create_user sv users entry hash email w = (r, w') ->
  match r with
  | inl _ => accounts w' = accounts w
  | inr _ => exists u, fixture entry.(EnIdentity) u /\ accounts w !! u.(UID) = None /\ accounts w' = <[u.(UID) := u]> (accounts w)
  end.
Proof.
  intros HE. unfold create_user, bind. destruct (NewUUID sv w) as [[e|id] w1] eqn:E1; apply pp_uuid in E1; [by intros [= <- <-]|].
  destruct (AuthNow sv w1) as [[e|t1] w2] eqn:E2; apply pp_now in E2; [intros [= <- <-]; congruence|].
  destruct (AuthNow sv w2) as [[e|t2] w3] eqn:E3; apply pp_now in E3; [intros [= <- <-]; congruence|].
  destruct (AuthNow sv w3) as [[e|t3] w4] eqn:E4; apply pp_now in E4; [intros [= <- <-]; congruence|].
  assert (accounts w4 = accounts w) as K by congruence. intros E%ul_create. rewrite K in E. destruct r; [done|].
  destruct E as (E5 & _ & E6). eexists. split; [|split; [exact E5|exact E6]]. by split_and!.
Qed.

Lemma turns_create i req entry hash email k : NewEmail lower_rune ParseAddress entry.(EnIdentity).(IdEmail) = Some email ->
  moves (calm i) k ->
  turns i entry.(EnIdentity) (let* created := try (port (create_user sv users entry hash email)) in
    match created with
    | inr _ => set_entry i (with_status StatusCreated) ;; reportProgress Progress req (Z.of_nat i + 1)
    | inl _ => k
    end).
Proof.
  intros HE Kk s r s' HF. unfold bind at 1, try, port. destruct (create_user _ _ _ _ _ s.2) as [r1 w1] eqn:E.
  apply create_user_run in E; [|done]. destruct r1 as [e1|u1].
  - intros (E1 & E2 & E3)%Kk. cbn in E1, E2, E3. split; [done|]. left. split; [congruence|]. by apply E3.
  - destruct E as (u & HU & HN & HR). destruct HF as (e & He & HI & _). intros [= _ <-]. cbn.
    split; [intros j HJ; by apply list_lookup_alter_ne|]. right. exists u, (with_status StatusCreated e).
    assert (alter (with_status StatusCreated) i (entries s) !! i = Some (with_status StatusCreated e)) as HL
      by (by rewrite list_lookup_alter_eq, He).
    split_and!; [done..| |exact HL|done|done]. destruct Progress as [f|] eqn:EP; [cbn; rewrite (pp_progress f) by done; exact HR|exact HR].
Qed.

Ltac calm_step i :=
  lazymatch goal with
  | |- moves _ (port (inspect _ _)) => apply port_calm, inspect_keeps
  | |- moves _ (port (hash_or_stop _ _ _)) => apply port_calm, hash_keeps
  | |- moves _ (port _) => apply port_calm, pp_ctx
  | |- moves _ (set_entry _ (with_status _)) => by apply with_status_calm
  | |- moves _ (set_entry _ (conflict _)) => apply conflict_calm
  | |- moves _ (update (stopped_at _)) => by apply update_calm
  | |- moves _ (reportProgress _ _ _) => apply progress_calm
  | |- moves _ (stop_apply _) => apply stop_calm
  | |- moves _ (match ?x with _ => _ end) => destruct x eqn:?
  | _ => moves_step
  end.
Ltac calms i := repeat calm_step i.

Lemma create_entry_turns req i entry :
  turns i entry.(EnIdentity) (create_entry sv users passwords lower_rune ParseAddress ctx_Err Progress req i entry).
Proof.
  unfold create_entry.
  repeat first
    [ apply turns_create; [by eassumption|]
    | apply turns_calm; solve [calms i]
    | lazymatch goal with |- turns _ _ (bind _ _) => apply turns_bind; [solve [calms i]|intros ?] end
    | lazymatch goal with |- turns _ _ (let _ := _ in _) => cbv zeta end
    | lazymatch goal with |- turns _ _ (match ?x with _ => _ end) => destruct x eqn:? end ].
  all: calms i.
Qed.

(** *** Counting *)

Lemma count_insert st i e e' l : l !! i = Some e ->
  count_status st (<[i := e']> l) + (if bool_decide (e.(EnStatus) = st) then 1 else 0)
  = count_status st l + (if bool_decide (e'.(EnStatus) = st) then 1 else 0).
Proof.
  unfold count_status. revert i. induction l as [|x l IH]; [done|]. intros [|i].
  - intros [= ->]. cbn [insert list_insert List.filter]. do 2 case_bool_decide; cbn [length]; lia.
  - intros HL%IH. change (<[S i:=e']> (x :: l)) with (x :: <[i:=e']> l). cbn [List.filter]. destruct (bool_decide (x.(EnStatus) = st)); cbn [length]; lia.
Qed.

(** Accounts are only added, and those that are belong to the identities. *)
Definition grows (ids : list Identity) (m m' : gmap string User) : Prop :=
  (forall id u, m !! id = Some u -> m' !! id = Some u)
  /\ forall id u, m' !! id = Some u -> m !! id = None -> u.(UID) = id /\ exists I, I ∈ ids /\ fixture I u.

#[export] Instance grows_preorder ids : PreOrder (grows ids).
Proof.
  split; [split; [done|intros id u -> [=]]|]. intros m1 m2 m3 [A1 B1] [A2 B2]. split; [auto|].
  intros id u H3 H1. destruct (m2 !! id) as [v|] eqn:H2; [|by apply B2]. apply A2 in H2 as H2'. rewrite H2' in H3. injection H3 as ->. by apply B1.
Qed.

Definition counted (s s' : Result * W) : Prop :=
  Z.of_nat (size (rows s')) + count_status StatusCreated (entries s) = Z.of_nat (size (rows s)) + count_status StatusCreated (entries s').

Lemma outcome_counts ids i I s s' : fine i I s -> I ∈ ids -> outcome i I s s' -> grows ids (rows s) (rows s') /\ counted s s'.
Proof.
  intros (e & HE & _ & HN) HI [HO HC]. unfold counted.
  assert (forall e', entries s' !! i = Some e' -> entries s' = <[i := e']> (entries s)) as HL.
  { intros e' He'. apply list_eq. intros j. destruct (decide (j = i)) as [->|HJ].
    - rewrite list_lookup_insert_eq by (by eapply lookup_lt_Some). done.
    - rewrite list_lookup_insert_ne by done. by apply HO. }
  destruct HC as [[HR (e' & He' & _ & HN')]|(u & e' & HU & HF & HR & He' & _ & HS)]; rewrite HR, (HL _ He');
    pose proof (count_insert StatusCreated i e e' (entries s) HE) as HC.
  - split; [done|]. rewrite !bool_decide_eq_false_2 in HC by done. lia.
  - split.
    + split; [intros id v Hv; rewrite lookup_insert_ne; [done|congruence]|]. intros id v Hv Hm.
      destruct (decide (u.(UID) = id)) as [<-|HD]; [rewrite lookup_insert_eq in Hv; injection Hv as <-; eauto|].
      rewrite lookup_insert_ne in Hv by done. congruence.
    + rewrite bool_decide_eq_false_2, bool_decide_eq_true_2 in HC by done. rewrite map_size_insert_None by done. lia.
Qed.

Lemma each_entry_counts ids body idxs : (forall i e, turns i e.(EnIdentity) (body i e)) -> NoDup idxs ->
  forall s r s', (forall j e, j ∈ idxs -> entries s !! j = Some e -> not_created e /\ e.(EnIdentity) ∈ ids) ->
  each_entry body idxs s = (r, s') -> grows ids (rows s) (rows s') /\ counted s s'.
Proof.
  intros HB. induction 1 as [|i idxs HI _ IH]; intros s r s' HF; cbn [each_entry].
  - intros [= _ <-]. split; [done|]. unfold counted. lia.
  - unfold bind at 1, get at 1. destruct (entries s !! i) as [e|] eqn:HE; [|intros [= _ <-]; split; [done|]; unfold counted; lia].
    destruct (HF i e (list_elem_of_here _ _) HE) as [HN HID].
    assert (fine i e.(EnIdentity) s) as Hfine by by exists e.
    unfold bind. destruct (body i e s) as [r1 s1] eqn:E1. apply HB in E1; [|done].
    pose proof E1 as [HO _]. apply (outcome_counts ids) in E1 as [G1 C1]; [|done..].
    destruct r1 as [err|[]]; [by intros [= _ <-]|]. intros [G2 C2]%IH.
    + split; [by etrans|]. unfold counted in *. lia.
    + intros j e' HJ He'. rewrite HO in He' by congruence. by apply (HF j); [right|].
Qed.

(** *** The plan and the checks before the first account *)

Section planning.
Context (ids : list Identity).

Definition planned (e : Entry) : Prop := not_created e /\ e.(EnIdentity) ∈ ids.

(** Nothing is stored, and nothing marked as created. *)
Definition prepares (s s' : Result * W) : Prop :=
  rows s' = rows s /\ (Forall planned (entries s) -> Forall planned (entries s')).
#[export] Instance prepares_preorder : PreOrder prepares.
Proof. split; [done|]. intros s1 s2 s3 [A1 B1] [A2 B2]. split; [congruence|auto]. Qed.

Lemma port_prepares {A} (m : M W A) : keeps accounts m -> moves prepares (port m).
Proof. intros K s r s'. unfold port. destruct (m s.2) as [r1 w1] eqn:E. intros [= _ <-]. split; [by apply K in E|done]. Qed.
Lemma update_prepares f : (forall r, Forall planned r.(Entries) -> Forall planned (f r).(Entries)) -> moves prepares (update (W := W) f).
Proof. intros K s r s' [= _ <-]. split; [done|]. apply K. Qed.
Lemma get_prepares : moves prepares (get (W := W)).
Proof. by intros s r s' [= _ <-]. Qed.
Lemma conflict_prepares i text : moves prepares (set_entry (W := W) i (conflict text)).
Proof.
  unfold set_entry. apply update_prepares. intros r HF. cbn [Entries with_entries]. apply Forall_alter; [done|]. intros e _ [HN HI].
  by split.
Qed.

(** The answer of a look at an identity. *)
Lemma inspect_entry I w e u w' : inspect users I w = (inr (e, u), w') -> e.(EnIdentity) = I /\ not_created e.
Proof.
  unfold inspect. intros H. apply bind_inr_inv in H as (x & w1 & _ & H). apply bind_inr_inv in H as (y & w2 & _ & H).
  repeat (case_match; try discriminate); unfold ret in H; injection H; intros; subst; by split.
Qed.

Lemma plan_entries_prepares adjust l : (forall e, planned e -> planned (adjust e)) -> (forall I, I ∈ l -> I ∈ ids) ->
  moves prepares (plan_entries users ctx_Err adjust l).
Proof.
  intros HA. induction l as [|I l IH]; intros HL; cbn [plan_entries]; [apply moves_ret; exact _|].
  apply moves_bind; [exact _| |intros _].
  { unfold check_ctx. apply moves_bind; [exact _|apply port_prepares, pp_ctx|intros [err|]]; [apply moves_fail|apply moves_ret]; exact _. }
  intros s r s' E. unfold bind at 1, port at 1 in E. destruct (inspect users I s.2) as [[err|[e u]] w1] eqn:EI.
  - injection E as _ <-. split; [by apply inspect_keeps in EI|done].
  - pose proof (inspect_keeps _ _ _ _ EI) as K. apply inspect_entry in EI as [HI HN].
    assert (prepares (s.1, w1) s') as [K1 K2].
    { refine (moves_bind _ _ _ _ _ _ _ _ E); [|intros []].
      - apply update_prepares. intros q HF. apply Forall_app. split; [done|]. apply Forall_singleton, HA. split; [done|].
        cbn. rewrite HI. apply HL. left.
      - apply IH. intros J HJ. apply HL. by right. }
    split; [cbn in K1; congruence|exact K2].
Qed.

Lemma verify_prepares req : moves prepares (range_entries (verify_entry users passwords req)).
Proof.
  unfold range_entries. apply moves_bind; [exact _|apply get_prepares|intros r0].
  generalize (seq 0 (length (Entries r0))). intros idxs. induction idxs as [|i idxs IH]; cbn [each_entry]; [apply moves_ret; exact _|].
  apply moves_bind; [exact _|apply get_prepares|intros r1]. destruct (Entries r1 !! i) as [e|]; [|apply moves_ret; exact _].
  apply moves_bind; [exact _| |intros _; exact IH]. unfold verify_entry. case_match; [apply moves_ret; exact _|].
  apply moves_bind; [exact _|apply port_prepares, inspect_keeps|intros x]. repeat case_match.
  - apply conflict_prepares.
  - apply moves_ret. exact _.
  - apply moves_fail. exact _.
Qed.
End planning.

Definition range_of (req : Request) : list Identity :=
  match Identities req.(PvStart) req.(PvCount) with inr l => l | inl _ => [] end.

Lemma plan_prepares adjust req : (forall ids e, planned ids e -> planned ids (adjust e)) ->
  moves (prepares (range_of req)) (plan users ctx_Err adjust req.(PvStart) req.(PvCount)).
Proof.
  intros HA. unfold plan, range_of. destruct (Identities _ _) as [err|l]; [apply moves_fail; exact _|].
  apply moves_bind; [exact _|by apply plan_entries_prepares; [apply HA|]|intros _]. by apply update_prepares.
Qed.

(** Whatever it meets, a run changes and removes no account, adds only accounts
    of the identities of its range, each an active user under the name and
    address of the identity, and adds exactly as many as its result marks as
    created; a dry run adds none; and the number that a successful run reports
    is theirs. *)
Lemma provisioning_is_additive req w r res w' :
  Execute sv users passwords lower_rune ParseAddress ctx_Err Progress req (no_result, w) = (r, (res, w')) ->
  grows (range_of req) (accounts w) (accounts w')
  /\ Z.of_nat (size (accounts w')) = Z.of_nat (size (accounts w)) + count_status StatusCreated res.(Entries)
  /\ (req.(PvApply) = false -> accounts w' = accounts w)
  /\ (r = inr tt -> req.(PvApply) = true -> res.(Created) = count_status StatusCreated res.(Entries)).
Proof.
  assert (forall s', prepares (range_of req) (no_result, w) s' -> grows (range_of req) (accounts w) (accounts s'.2)
    /\ Z.of_nat (size (accounts s'.2)) = Z.of_nat (size (accounts w)) + count_status StatusCreated s'.1.(Entries)) as calmly.
  { intros s' [E HF]. cbn in E. rewrite E. split; [done|]. specialize (HF (Forall_nil_2 _)).
    assert (count_status StatusCreated (Entries s'.1) = 0) as ->; [|lia]. unfold count_status.
    induction HF as [|e l [HN _] _ IH]; [done|]. cbn [List.filter]. by rewrite bool_decide_eq_false_2. }
  unfold Execute. destruct (PvApply req); cbn [negb].
  2: { intros E. apply (plan_prepares (fun e => e) req) in E; [|done]. pose proof E as [E2 _]. cbn in E2. apply calmly in E as [H1 H2].
       split_and!; done. }
  case_bool_decide; [intros E; injection E as <- <- <-; by destruct (calmly (no_result, w) ltac:(by split)) as [H1 H2]; split_and!|].
  destruct (ValidatePlainPassword _); [intros E; injection E as <- <- <-; by destruct (calmly (no_result, w) ltac:(by split)) as [H1 H2]; split_and!|].
  pose proof (plan_prepares (fun e => e) req ltac:(done)) as KP. fold (Plan users ctx_Err (PvStart req) (PvCount req)) in KP.
  unfold bind at 1. destruct (Plan _ _ _ _ (no_result, w)) as [[e|[]] s1] eqn:E1; apply KP in E1.
  { intros [= <- ->]. destruct (calmly _ E1) as [H1 H2]. by split_and!. }
  unfold bind at 1. destruct (range_entries (verify_entry users passwords req) s1) as [[e|[]] s2] eqn:E2;
    apply (verify_prepares (range_of req)) in E2; pose proof (transitivity E1 E2) as E12.
  { intros [= <- ->]. destruct (calmly _ E12) as [H1 H2]. by split_and!. }
  assert (prepares (range_of req) (no_result, w) (recount s2.1, s2.2)) as E3 by exact E12.
  unfold bind at 1, update at 1, bind at 1, get at 1. cbn [fst snd]. destruct (calmly _ E3) as [H1 H2].
  destruct (negb _); [intros [= <- <- <-]; by split_and!|].
  unfold bind at 1. destruct (range_entries _ (recount s2.1, s2.2)) as [r4 s4] eqn:E4. unfold range_entries, bind at 1, get at 1 in E4.
  apply (each_entry_counts (range_of req)) in E4 as [G C]; [|intros; apply create_entry_turns|apply NoDup_seq|].
  - unfold counted in C. cbn [fst snd] in *.
    assert (grows (range_of req) (accounts w) (accounts s4.2)) as G' by (by etrans).
    destruct r4 as [e|[]]; [intros [= <- ->]; cbn [fst snd] in *; split_and!; [done|lia|done|done]|].
    intros [= <- <- <-]. split_and!; [done|cbn; lia|done|done].
  - intros j e _ HE. destruct E3 as [_ HF]. specialize (HF (Forall_nil_2 _)). by apply (Forall_lookup_1 _ _ _ _ HF) in HE.
Qed.
End additive.

(** ** The rotation in the database *)

(** [RotateBenchmarkPasswords] of the user repository; [Transaction] is the
    method of GORM, which runs its function on a transaction and commits when
    it returns no error. *)
Section rotation.
Context {W : Type} (Transaction : (TableOps W UserDAO.t -> M W unit) -> M W unit).

Definition fixture_row (u : BenchmarkPasswordUpdate) (d : UserDAO.t) : bool :=
  bool_decide (d.(UserDAO.ID) = u.(BuUserID)) && bool_decide (d.(UserDAO.Username) = u.(BuUsername))
  && bool_decide (d.(UserDAO.Email) = u.(BuEmail)) && bool_decide (d.(UserDAO.FullName) = u.(BuFullName))
  && bool_decide (d.(UserDAO.Role) = RoleUser) && d.(UserDAO.IsActive) && negb d.(UserDAO.IsSuspended).
(** [UpdateColumn]: the password, and no time of update. *)
Definition set_password_column (hash : string) (d : UserDAO.t) : UserDAO.t :=
  toUserDAO (set_Password hash d.(UserDAO.UpdatedAt) (toUserEntity d)).

Fixpoint rotate_rows (tx : TableOps W UserDAO.t) (updates : list BenchmarkPasswordUpdate) : M W unit :=
  match updates with
  | [] => ret tt
  | u :: rest =>
      let* n := t_updates tx (fixture_row u) (set_password_column u.(BuPasswordHash)) in
      if negb (n =? 1) then fail (EText "canonical benchmark identity changed during password rotation")
      else rotate_rows tx rest
  end.

Definition pg_RotateBenchmarkPasswords (updates : list BenchmarkPasswordUpdate) : M W unit :=
  match updates with [] => ret tt | _ => Transaction (fun tx => rotate_rows tx updates) end.

(** A transaction works on its own view of the table, which becomes the table
    when it is committed; an error leaves the table as it was. *)
Context (tx : TableOps W UserDAO.t) (pu : PageOps W UserDAO.t) (rows view : W -> gmap string UserDAO.t)
  {TL : UserTableLaws tx pu view}.
Hypothesis committed : forall f w r w', Transaction f w = (r, w') ->
  match r with
  | inl _ => rows w' = rows w
  | inr _ => exists w1 w2, view w1 = rows w /\ f tx w1 = (inr tt, w2) /\ rows w' = view w2
  end.

(** Only passwords of accounts that the updates name differ. *)
Definition repassworded (updates : list BenchmarkPasswordUpdate) (m m' : gmap string UserDAO.t) : Prop :=
  forall id, match m !! id, m' !! id with
    | None, None => True
    | Some d, Some d' => d' = d \/ exists u h, u ∈ updates /\ fixture_row u d = true /\ d' = set_password_column h d
    | _, _ => False
    end.

Lemma set_password_fixture u h d : fixture_row u (set_password_column h d) = fixture_row u d.
Proof. by destruct d. Qed.
Lemma set_password_twice h h' d : set_password_column h (set_password_column h' d) = set_password_column h d.
Proof. by destruct d. Qed.

Lemma rotate_rows_run updates : forall w w', rotate_rows tx updates w = (inr tt, w') -> repassworded updates (view w) (view w').
Proof.
  induction updates as [|u updates IH]; intros w w'; cbn [rotate_rows].
  - intros [= <-] id. destruct (view w !! id); [by left|done].
  - unfold bind. destruct (t_updates tx _ _ w) as [[e|n] w1] eqn:E; [done|]. apply ut_updates in E; [|by intros []].
    destruct (negb _); [done|]. intros HI%IH id. specialize (HI id). rewrite E, lookup_fmap in HI.
    destruct (view w !! id) as [d|]; cbn in HI; [|by destruct (view w' !! id)].
    destruct (view w' !! id) as [d'|]; [|done]. destruct (fixture_row u d) eqn:EF.
    + right. exists u. destruct HI as [->|(v & h & _ & _ & ->)]; [exists u.(BuPasswordHash)|exists h];
        (split; [left|split; [exact EF|]]); by rewrite ?set_password_twice.
    + destruct HI as [->|(v & h & HV & HF & ->)]; [by left|]. right. exists v, h. split; [by right|done].
Qed.

(** The rotation changes passwords only, and none when it fails. *)
Lemma rotation_is_narrow updates w r w' : pg_RotateBenchmarkPasswords updates w = (r, w') ->
  match r with inl _ => rows w' = rows w | inr _ => repassworded updates (rows w) (rows w') end.
Proof.
  unfold pg_RotateBenchmarkPasswords. destruct updates as [|u updates].
  - intros [= <- <-] id. destruct (rows w !! id); [by left|done].
  - intros E%committed. destruct r; [done|]. destruct E as (w1 & w2 & E1 & E2%rotate_rows_run & ->). by rewrite <- E1.
Qed.
End rotation.

(** ** Runs on the world of AuthDemo.v *)

Definition no_users : auth_world := mkAuthWorld ∅ ∅ 0.
Definition demo_pool (ctx_Err : M auth_world (option error)) := Execute demo_sv demo_users demo_enc demo_lower_rune
  demo_platform.(ap_ParseAddress) ctx_Err None (mkRequest 99 2 true "benchmark-secret") (no_result, no_users).

Example demo_provisioned : let '(r, (res, w')) := demo_pool (ret None) in
  r = inr tt /\ map (fun e => (e.(EnIdentity).(IdUsername), e.(EnStatus))) res.(Entries)
    = [("benchmark_judge_099", StatusCreated); ("benchmark_judge_100", StatusCreated)]%string
  /\ res.(Created) = 2 /\ size (demo_accounts w') = 2%nat.
Proof. vm_compute. by split_and!. Qed.

(** A run that is cancelled after its first account reports that it has created
    none: the result is not counted again on that path. *)
Lemma cancelled_run_reports_none :
  let '(r, (res, w')) := demo_pool (fun w => (inr (if bool_decide (size (aw_rows w) = 0%nat) then None else Some context_Canceled), w)) in
  r = inl context_Canceled /\ map EnStatus res.(Entries) = [StatusCreated; StatusWouldCreate]
  /\ res.(Created) = 0 /\ size (demo_accounts w') = 1%nat.
Proof. vm_compute. by split_and!. Qed.
