(* ===== verification/BenchScheduler.v ===== *)
(** The scheduler of the judge benchmark:
    tools/benchmark/judge/internal/scheduler/scheduler.go: when the arrivals of
    an open-loop load are due, which benchmark user posts next, how many users a
    load needs, and the plan of a burst.

    Instants are nanoseconds since the zero time of Go, durations nanoseconds in
    an int64; a [*big.Rat] is a [Q], [None] the nil pointer.  [big.Rat] keeps its
    values in lowest terms; quotients and whether a remainder is zero do not
    depend on that. *)

From Stdlib Require Import QArith_base SpecFloat.
From S2P Require Import Prelude GoString GoError.
From S2P Require AuthDomain RunCode.

#[local] Open Scope Z_scope.

(** ** Arrivals *)

Definition second : Z := 1000000000.
Definition max_offsets : Z := 1000000.

Definition IsInt64 (z : Z) : bool := (int64_min <=? z) && (z <=? int64_max).

(** [rate == nil || rate.Sign() <= 0], negated. *)
Definition positive_rate (rate : option Q) : option Q :=
  match rate with Some r => if 0 <? Qnum r then Some r else None | None => None end.

Definition ceilBigRat (value : Q) : Z :=
  let quotient := Z.quot (Qnum value) (QDen value) in
  let remainder := Z.rem (Qnum value) (QDen value) in
  if negb (remainder =? 0) && (0 <? Qnum value) then quotient + 1 else quotient.

Definition ArrivalCount (rate : option Q) (duration : Z) : error + Z :=
  match positive_rate rate with
  | None => inl (EText "positive rate and duration are required")
  | Some r =>
      if duration <=? 0 then inl (EText "positive rate and duration are required")
      else
        let value := ceilBigRat (Qmult r (duration # 1000000000)) in
        if negb (IsInt64 value) then inl (EText "arrival count exceeds local integer capacity") else inr value
  end.

Definition OffsetFor (rate : Q) (index : Z) : Z :=
  let seconds := Qdiv (index # 1) rate in
  let ns := Qmult seconds (second # 1) in
  let value := Z.quot (Qnum ns) (QDen ns) in
  if negb (IsInt64 value) then int64_max else value.

Definition FixedOffsets (rate : option Q) (duration : Z) : error + list Z :=
  match positive_rate rate with
  | None => inl (EText "positive rate and duration are required")
  | Some r =>
      match ArrivalCount rate duration with
      | inl err => inl err
      | inr count =>
          if max_offsets <? count then inl (EText "too many offsets to materialize; stream arrivals instead")
          else inr (map (OffsetFor r) (seqZ 0 count))
      end
  end.

Definition ExactOffsets (rate : option Q) (total : Z) : error + list Z :=
  match positive_rate rate with
  | None => inl (EText "positive rate and total submissions are required")
  | Some r =>
      if total <=? 0 then inl (EText "positive rate and total submissions are required")
      else if max_offsets <? total then inl (EText "too many offsets to materialize; stream arrivals instead")
      else inr (map (OffsetFor r) (seqZ 0 total))
  end.

Definition ExactArrivalCount (total : Z) : error + Z :=
  if total <=? 0 then inl (EText "total submissions must be positive") else inr total.

(** ** The number of users *)

(** [int(quotient.Int64())]: the low 64 bits. *)
Definition ceilRat (value : Q) : Z := wrap64 (ceilBigRat value).

(** [int(math.Ceil(x))]; [elsewhere] is what the machine makes of a value that
    is no int64. *)
Definition int_of_ceil (elsewhere : Z) (x : spec_float) : Z :=
  match x with
  | S754_zero _ => 0
  | S754_finite s m e =>
      let n := if s then Zneg m else Zpos m in
      let c := if 0 <=? e then n * 2 ^ e else - (- n / 2 ^ (- e)) in
      if IsInt64 c then c else elsewhere
  | _ => elsewhere
  end.

Definition spare_users (elsewhere base : Z) (headroomPercent : spec_float) : Z :=
  let spare := int_of_ceil elsewhere
    (SFdiv 53 1024 (SFmul 53 1024 (RunCode.float64_of_Z base) headroomPercent) (RunCode.float64_of_Z 100)) in
  if spare <? 1 then 1 else spare.

Definition RequiredUsers (elsewhere : Z) (rate : option Q) (cooldown guard submitLatencyBudget : Z)
    (headroomPercent : spec_float) : error + Z :=
  match positive_rate rate with
  | None => inl (EText "invalid user-pool parameters")
  | Some r =>
      if (cooldown <=? 0) || (guard <? 0) || (submitLatencyBudget <? 0) || SFltb headroomPercent (RunCode.float64_of_Z 0)
      then inl (EText "invalid user-pool parameters")
      else
        let cycle := wrap64 (wrap64 (cooldown + guard) + submitLatencyBudget) in
        let base := ceilRat (Qmult r (cycle # 1000000000)) in
        inr (wrap64 (base + spare_users elsewhere base headroomPercent))
  end.

(** ** Random numbers: math/rand/v2 over a PCG source *)

Record PCG := mkPCG { pcg_hi : Z; pcg_lo : Z }.

Definition u64 (z : Z) : Z := z mod 2 ^ 64.

(** [PCG.next]: one step of the generator, [state * mul + inc] on 128 bits. *)
Definition pcg_next (p : PCG) : PCG :=
  let mul := 2549297995355413924 * 2 ^ 64 + 4865540595714422341 in
  let inc := 6364136223846793005 * 2 ^ 64 + 1442695040888963407 in
  let s := ((p.(pcg_hi) * 2 ^ 64 + p.(pcg_lo)) * mul + inc) mod 2 ^ 128 in
  mkPCG (s / 2 ^ 64) (u64 s).

(** [PCG.Uint64]: the DXSM output. *)
Definition Uint64 (p : PCG) : Z * PCG :=
  let p := pcg_next p in
  let h := Z.lxor p.(pcg_hi) (Z.shiftr p.(pcg_hi) 32) in
  let h := u64 (h * 15750249268501108917) in
  let h := Z.lxor h (Z.shiftr h 48) in
  (u64 (h * Z.lor p.(pcg_lo) 1), p).

(** Redrawing of [uint64n], needed with probability below [n / 2^64] each time. *)
Fixpoint redraw (fuel : nat) (n thresh hi lo : Z) (p : PCG) : Z * PCG :=
  match fuel with
  | O => (hi, p)
  | S fuel =>
      if lo <? thresh then let '(x, p) := Uint64 p in redraw fuel n thresh (x * n / 2 ^ 64) (u64 (x * n)) p
      else (hi, p)
  end.

(** [Rand.uint64n] for [0 < n] *)
Definition uint64n (n : Z) (p : PCG) : Z * PCG :=
  let '(x, p) := Uint64 p in
  if Z.land n (n - 1) =? 0 then (Z.land x (n - 1), p)
  else
    let hi := x * n / 2 ^ 64 in
    let lo := u64 (x * n) in
    if lo <? n then redraw 64 n ((2 ^ 64 - n) mod n) hi lo p else (hi, p).

(** [Rand.Shuffle]: [i] is the index that is swapped next. *)
Fixpoint shuffle {A} (i : nat) (values : list A) (p : PCG) : list A * PCG :=
  match i with
  | O => (values, p)
  | S k =>
      let '(j, p) := uint64n (Z.of_nat i + 1) p in
      let j := Z.to_nat j in
      let values :=
        match values !! i, values !! j with
        | Some x, Some y => <[i := y]> (<[j := x]> values)
        | _, _ => values
        end in
      shuffle k values p
  end.

(** ** The pool of users *)

Inductive UserState := Eligible | Leased | Cooldown | Quarantined | Disabled.
#[export] Instance UserState_eq_dec : EqDecision UserState.
Proof. solve_decision. Defined.

Record User := mkUser {
  Alias : string;
  State : UserState;
  NextEligible : Z;
  Tie : Z;
}.

Notation Pool := (gmap string User).

Definition with_state (u : User) (state : UserState) : User := mkUser u.(Alias) state u.(NextEligible) u.(Tie).

Fixpoint add_users (aliases : list string) (rng : PCG) (pool : Pool) : error + Pool :=
  match aliases with
  | [] => inr pool
  | alias :: rest =>
      if bool_decide (alias = ""%string) then inl (EText "empty benchmark user alias")
      else
        match pool !! alias with
        | Some _ => inl (EText "duplicate benchmark user alias")
        | None =>
            let '(tie, rng) := Uint64 rng in
            add_users rest rng (<[alias := mkUser alias Eligible 0 tie]> pool)
        end
  end.

Definition NewPool (aliases : list string) (seed : Z) : error + Pool :=
  match aliases with
  | [] => inl (EText "at least one user is required")
  | _ => add_users aliases (mkPCG seed (Z.lxor seed 0x9e3779b97f4a7c15)) ∅
  end.

(** What [sort.Slice] sorts by: the negation of "b comes first". *)
Definition not_after (a b : User) : Prop :=
  a.(NextEligible) < b.(NextEligible)
  \/ a.(NextEligible) = b.(NextEligible)
     /\ (a.(Tie) < b.(Tie) \/ a.(Tie) = b.(Tie) /\ String.le a.(Alias) b.(Alias)).
#[export] Instance not_after_dec a b : Decision (not_after a b).
Proof. unfold not_after. apply _. Defined.

Definition leasable (now : Z) (u : User) : bool :=
  match u.(State) with Eligible | Cooldown | Quarantined => u.(NextEligible) <=? now | _ => false end.

(** The users in the order in which the map yields them. *)
Definition users (pool : Pool) : list User := map snd (map_to_list pool).

Definition candidates (now : Z) (pool : Pool) : list User := filter (fun u => leasable now u = true) (users pool).

Definition Lease (pool : Pool) (now : Z) : option User * Pool :=
  match merge_sort not_after (candidates now pool) with
  | [] => (None, pool)
  | user :: _ => (Some (with_state user Leased), <[user.(Alias) := with_state user Leased]> pool)
  end.

Definition LeaseAlias (pool : Pool) (alias : string) (now : Z) : option User * Pool :=
  match pool !! alias with
  | None => (None, pool)
  | Some user =>
      if bool_decide (user.(State) = Disabled) || bool_decide (user.(State) = Leased) || (now <? user.(NextEligible))
      then (None, pool)
      else (Some (with_state user Leased), <[alias := with_state user Leased]> pool)
  end.

Definition release (pool : Pool) (alias : string) (state : UserState) (next : Z) : error + Pool :=
  match pool !! alias with
  | None => inl (EText "unknown benchmark user")
  | Some user =>
      if bool_decide (user.(State) <> Leased) then inl (EText "benchmark user is not leased")
      else inr (<[alias := mkUser user.(Alias) state next user.(Tie)]> pool)
  end.

Definition Accepted (pool : Pool) (alias : string) (observed cooldown guard : Z) : error + Pool :=
  release pool alias Cooldown (observed + wrap64 (cooldown + guard)).

Definition Quarantine (pool : Pool) (alias : string) (observed cooldown guard : Z) : error + Pool :=
  release pool alias Quarantined (observed + wrap64 (cooldown + guard)).

Definition RateLimited (pool : Pool) (alias : string) (observed cooldown guard retryAfter : Z) : error + Pool :=
  let delay := if cooldown <? retryAfter then retryAfter else cooldown in
  release pool alias Quarantined (observed + wrap64 (delay + guard)).

Definition Disable (pool : Pool) (alias : string) : error + Pool :=
  match pool !! alias with
  | None => inl (EText "unknown benchmark user")
  | Some user => inr (<[alias := with_state user Disabled]> pool)
  end.

Definition CountEligible (pool : Pool) (at_ : Z) : Z :=
  Z.of_nat (length (filter (fun u => u.(State) <> Disabled /\ u.(State) <> Leased /\ u.(NextEligible) <= at_) (users pool))).

(** ** Bursts *)

Record BurstArrival := mkBurst { BurstAlias : string; BurstOffset : Z }.

(** [Int64N] panics on a jitter of the largest int64, which the facts exclude. *)
Fixpoint burst_offsets (aliases : list string) (jitter : Z) (p : PCG) : list BurstArrival :=
  match aliases with
  | [] => []
  | alias :: rest =>
      let '(offset, p) := if 0 <? jitter then uint64n (jitter + 1) p else (0, p) in
      mkBurst alias offset :: burst_offsets rest jitter p
  end.

Definition BurstPlan (aliases : list string) (size seed jitter : Z) : error + list BurstArrival :=
  if (size <=? 0) || (Z.of_nat (length aliases) <? size) || (jitter <? 0) then inl (EText "invalid burst plan")
  else
    let values := merge_sort String.le aliases in
    let '(values, p) := shuffle (length values - 1) values (mkPCG seed (Z.lxor seed 0xd1b54a32d192ed03)) in
    inr (burst_offsets (take (Z.to_nat size) values) jitter p).

Definition BurstSpread (starts : list Z) : Z :=
  match starts with
  | [] | [_] => 0
  | x :: rest => AuthDomain.Sub (foldl Z.max x rest) (foldl Z.min x rest)
  end.

(** ** Facts: arrivals *)

Lemma OffsetFor_eq p q i : 0 <= i ->
  OffsetFor (Zpos p # q) i = Z.min int64_max (i * (Zpos q * second) / Zpos p).
Proof.
  intros Hi. unfold OffsetFor, Qdiv, Qmult, Qinv. cbn [Qnum Qden].
  rewrite Pos.mul_1_r, Pos.mul_1_l, Z.quot_div_nonneg by (unfold second; lia). rewrite <- Z.mul_assoc.
  set (v := _ / _). assert (0 <= v) by (apply Z.div_pos; unfold second; lia).
  unfold IsInt64, int64_min, int64_max in *. case_match; bools; [|lia].
  destruct (Z.leb_spec (- 2 ^ 63) v); [|lia]. cbn in *. bools. lia.
Qed.

Lemma ceil_spec n d i : 0 <= n -> i < ceilBigRat (n # d) <-> i * Zpos d < n.
Proof.
  intros Hn. unfold ceilBigRat. cbn [Qnum Qden]. rewrite Z.quot_div_nonneg, Z.rem_mod_nonneg by lia.
  pose proof (Z.div_mod n (Zpos d) ltac:(lia)) as E. pose proof (Z.mod_pos_bound n (Zpos d) ltac:(lia)) as B.
  pose proof (Z.div_pos n (Zpos d) Hn ltac:(lia)). set (k := n / Zpos d) in *. set (r := n mod Zpos d) in *. clearbody k r.
  destruct (Z.eqb_spec r 0); cbn; [split; intros; nia|]. destruct (Z.ltb_spec 0 n); cbn; split; intros; nia.
Qed.

Lemma arrival_count_spec p q d n i : in_int64 d -> ArrivalCount (Some (Zpos p # q)) d = inr n -> 0 <= i ->
  i < n <-> OffsetFor (Zpos p # q) i < d.
Proof.
  intros [_ Hd] HC Hi. unfold ArrivalCount in HC. cbn in HC. destruct (Z.leb_spec d 0); [done|].
  destruct (negb _); [done|]. injection HC as <-. unfold Qmult. cbn [Qnum Qden]. rewrite ceil_spec by lia. rewrite OffsetFor_eq by done.
  change (Zpos (q * 1000000000)) with (Zpos q * second). unfold second.
  rewrite Z.min_lt_iff. rewrite (Z.mul_comm (Zpos p) d). split.
  - intros H1. right. apply Z.div_lt_upper_bound; lia.
  - intros [?|H1]; [unfold int64_max in *; lia|].
    pose proof (Z.mul_succ_div_gt (i * (Zpos q * 1000000000)) (Zpos p) ltac:(lia)). nia.
Qed.

(** An arrival is due at the exact instant, rounded down to a nanosecond: no
    error adds up over the load. *)
Lemma OffsetFor_exact p q i : 0 <= i -> OffsetFor (Zpos p # q) i < int64_max ->
  OffsetFor (Zpos p # q) i * Zpos p <= i * (Zpos q * second) < (OffsetFor (Zpos p # q) i + 1) * Zpos p.
Proof.
  intros Hi. rewrite OffsetFor_eq by done. set (v := i * _). intros Hc. rewrite Z.min_r by lia.
  pose proof (Z.mul_div_le v (Zpos p) ltac:(lia)). pose proof (Z.mul_succ_div_gt v (Zpos p) ltac:(lia)). lia.
Qed.

Lemma OffsetFor_mono p q i j : 0 <= i <= j -> OffsetFor (Zpos p # q) i <= OffsetFor (Zpos p # q) j.
Proof.
  intros Hi. rewrite !OffsetFor_eq by lia. apply Z.min_le_compat_l, Z.div_le_mono; [lia|]. unfold second. nia.
Qed.

Lemma OffsetFor_nonneg p q i : 0 <= i -> 0 <= OffsetFor (Zpos p # q) i.
Proof.
  intros Hi. rewrite OffsetFor_eq by done. apply Z.min_glb; [unfold int64_max; lia|]. apply Z.div_pos; unfold second; lia.
Qed.

Lemma positive_rate_inv rate r : positive_rate rate = Some r -> rate = Some r /\ exists p q, r = (Zpos p # q).
Proof.
  unfold positive_rate. destruct rate as [[[|p|p] q]|]; cbn; try done. intros [= <-]. eauto.
Qed.

(** Arrivals that are due less than [C] apart are fewer than [rate * C] apart. *)
Lemma arrivals_apart p q i j C : 0 <= j <= i -> OffsetFor (Zpos p # q) i < int64_max ->
  OffsetFor (Zpos p # q) i < OffsetFor (Zpos p # q) j + C -> (i - j) * (Zpos q * second) < C * Zpos p.
Proof.
  intros H1 H2 H3. pose proof (OffsetFor_mono p q j i H1). pose proof (OffsetFor_exact p q i ltac:(lia) H2).
  pose proof (OffsetFor_exact p q j ltac:(lia) ltac:(lia)). nia.
Qed.

(** ** Facts: the pool *)

(** A user is stored under its alias. *)
Definition pool_ok (pool : Pool) : Prop := map_Forall (fun k u => u.(Alias) = k) pool.

Lemma elem_of_users pool u : pool_ok pool -> u ∈ users pool <-> pool !! u.(Alias) = Some u.
Proof.
  intros Hp. unfold users. rewrite list_elem_of_fmap. split.
  - intros ([k v] & -> & Hk%elem_of_map_to_list). cbn. by rewrite (Hp _ _ Hk).
  - intros Hu. exists (u.(Alias), u). split; [done|]. by apply elem_of_map_to_list.
Qed.

Lemma not_after_total a b : not_after a b \/ not_after b a.
Proof.
  unfold not_after. destruct (Z.lt_trichotomy (NextEligible a) (NextEligible b)) as [|[|]],
    (Z.lt_trichotomy (Tie a) (Tie b)) as [|[|]], (String.le_total (Alias a) (Alias b)); intuition lia.
Qed.
#[export] Instance not_after_Total : Total not_after := not_after_total.
#[export] Instance not_after_trans : Transitive not_after.
Proof.
  unfold not_after. intros a b c H1 H2.
  assert (String.le (Alias a) (Alias b) -> String.le (Alias b) (Alias c) -> String.le (Alias a) (Alias c)) by (intros; by etrans).
  intuition lia.
Qed.

(** Aliases are distinct, so that the order has no ties within a pool. *)
Lemma not_after_alias a b : not_after a b -> not_after b a -> a.(Alias) = b.(Alias).
Proof.
  unfold not_after. intros H1 H2. pose proof (anti_symm String.le (Alias a) (Alias b)). intuition lia.
Qed.

Lemma Lease_spec pool now : pool_ok pool ->
  match Lease pool now with
  | (Some u, pool') => exists v, pool !! v.(Alias) = Some v /\ leasable now v = true /\ u = with_state v Leased
      /\ pool' = <[v.(Alias) := u]> pool
      /\ (forall w, pool !! w.(Alias) = Some w -> leasable now w = true -> not_after v w)
  | (None, pool') => pool' = pool /\ forall k v, pool !! k = Some v -> leasable now v = false
  end.
Proof.
  intros Hp. assert (forall w, w ∈ merge_sort not_after (candidates now pool) <-> pool !! w.(Alias) = Some w /\ leasable now w = true) as HE.
  { intros w. rewrite merge_sort_Permutation. unfold candidates. rewrite list_elem_of_filter, elem_of_users by done. tauto. }
  unfold Lease. pose proof (StronglySorted_merge_sort not_after (candidates now pool)) as HS.
  destruct (merge_sort not_after (candidates now pool)) as [|v l].
  - split; [done|]. intros k v Hk. destruct (leasable now v) eqn:E; [|done]. pose proof (Hp _ _ Hk) as Ha. cbn in Ha.
    exfalso. apply (not_elem_of_nil v), HE. by rewrite Ha.
  - destruct (proj1 (HE v) ltac:(left)) as [V1 V2]. exists v. split_and!; try done. intros w W1 W2.
    destruct (proj1 (elem_of_cons _ _ _) (proj2 (HE w) (conj W1 W2))) as [->|Hw]; [destruct (not_after_total v v); done|].
    apply StronglySorted_inv in HS as [_ HS]. rewrite Forall_forall in HS. by apply HS.
Qed.

(** The user that is leased does not depend on the order in which Go walks
    through the map. *)
Lemma Lease_ignores_order pool now walk : pool_ok pool -> walk ≡ₚ users pool ->
  merge_sort not_after (filter (fun u => leasable now u = true) walk) = merge_sort not_after (candidates now pool).
Proof.
  intros Hp Hw. apply (StronglySorted_unique_strong not_after); [|apply (StronglySorted_merge_sort not_after)..|].
  - intros a b Ha Hb H1 H2. rewrite merge_sort_Permutation in Ha, Hb. unfold candidates in Hb.
    apply list_elem_of_filter in Ha as [_ Ha], Hb as [_ Hb]. rewrite Hw in Ha.
    apply (elem_of_users _ _ Hp) in Ha, Hb. rewrite (not_after_alias a b H1 H2) in Ha. congruence.
  - unfold candidates. by rewrite !merge_sort_Permutation, Hw.
Qed.

Lemma release_spec pool alias state next pool' : release pool alias state next = inr pool' ->
  exists v, pool !! alias = Some v /\ v.(State) = Leased /\ pool' = <[alias := mkUser v.(Alias) state next v.(Tie)]> pool.
Proof.
  unfold release. destruct (pool !! alias) as [v|]; [|done]. case_bool_decide as E; [done|]. intros [= <-].
  exists v. split_and!; [done|by destruct (decide (State v = Leased))|done].
Qed.

Lemma pool_ok_insert pool k u : pool_ok pool -> u.(Alias) = k -> pool_ok (<[k := u]> pool).
Proof. intros Hp Hu. by apply map_Forall_insert_2. Qed.

Lemma release_ok pool alias state next pool' : pool_ok pool -> release pool alias state next = inr pool' -> pool_ok pool'.
Proof.
  intros Hp (v & H1 & _ & ->)%release_spec. apply pool_ok_insert; [done|]. cbn. by apply (Hp _ _ H1).
Qed.

Lemma Lease_ok pool now o pool' : pool_ok pool -> Lease pool now = (o, pool') -> pool_ok pool'.
Proof.
  intros Hp E. pose proof (Lease_spec pool now Hp) as H. rewrite E in H. destruct o as [u|].
  - destruct H as (v & _ & _ & -> & -> & _). by apply pool_ok_insert.
  - by destruct H as [-> _].
Qed.

(** ** An open-loop load

    What the runner does with the pool while a sustained load runs: at most
    [slack] after an arrival is due it leases a user for it, or skips the
    arrival; when the post has ended, at most [budget] after the lease, the user
    is released, for longer than a cooldown if the server says so, or disabled
    when the server refuses its session; the observer of an earlier submission
    may disable a user at any time. *)

Section Load.
Context (rate : Q) (cooldown guard budget origin slack : Z).

Record load := mkLoad {
  pool : Pool;
  arrivals : Z;
  posting : gmap string Z;
  lost : gset string;
}.

Definition due (index : Z) : Z := origin + OffsetFor rate index.

(** No post is overdue. *)
Definition prompt (l : load) (now : Z) : Prop := forall alias since, l.(posting) !! alias = Some since -> now <= since + budget.

(** How a post ends: accepted; ambiguous, or refused with some other status;
    limited (429) with a Retry-After; unauthorised (401, 403). *)
Inductive post_end := PostAccepted | PostFailed | PostLimited (retryAfter : Z) | PostUnauthorised.

(** The runner ignores the error of the pool ([_ = r.pool.Accepted(...)]). *)
Definition ignoring (p : Pool) (r : error + Pool) : Pool := match r with inr p' => p' | inl _ => p end.

Definition end_post (p : Pool) (alias : string) (observed : Z) (e : post_end) : Pool :=
  ignoring p
    match e with
    | PostAccepted => Accepted p alias observed cooldown guard
    | PostFailed => Quarantine p alias observed cooldown guard
    | PostLimited retryAfter => RateLimited p alias observed cooldown guard retryAfter
    | PostUnauthorised => Disable p alias
    end.

(** The user is away for longer than a cooldown, or for good. *)
Definition held_back (e : post_end) : bool :=
  match e with PostLimited retryAfter => cooldown <? retryAfter | PostUnauthorised => true | _ => false end.

(** [lost] collects the users who were ever held back. *)
Inductive load_step (l : load) : load -> Prop :=
| load_arrive now u p' : due l.(arrivals) <= now <= due l.(arrivals) + slack -> prompt l now ->
    Lease l.(pool) now = (Some u, p') ->
    load_step l (mkLoad p' (l.(arrivals) + 1) (<[u.(Alias) := now]> l.(posting)) l.(lost))
| load_skip : load_step l (mkLoad l.(pool) (l.(arrivals) + 1) l.(posting) l.(lost))
| load_settle alias since observed e : l.(posting) !! alias = Some since -> since <= observed <= since + budget ->
    load_step l (mkLoad (end_post l.(pool) alias observed e) l.(arrivals) (delete alias l.(posting))
      (if held_back e then {[alias]} ∪ l.(lost) else l.(lost)))
| load_disable alias :
    load_step l (mkLoad (ignoring l.(pool) (Disable l.(pool) alias)) l.(arrivals) l.(posting) ({[alias]} ∪ l.(lost))).

Inductive load_reach (p0 : Pool) : load -> Prop :=
| load_start : load_reach p0 (mkLoad p0 0 ∅ ∅)
| load_next l l' : load_reach p0 l -> load_step l l' -> load_reach p0 l'.

Hypothesis guard_nonneg : 0 <= guard.
Hypothesis cooldown_pos : 0 < cooldown.
Hypothesis budget_nonneg : 0 <= budget.
Hypothesis cycle_fits : in_int64 (cooldown + guard).

(** Where a user stands who was eligible at the origin: not leased since, or
    leased last for the arrival [j]. *)
Inductive standing (l : load) (alias : string) (v : User) : option Z -> Prop :=
| never_leased : leasable origin v = true -> l.(posting) !! alias = None -> standing l alias v None
| posting_for j since : v.(State) = Leased -> l.(posting) !! alias = Some since -> since <= due j + slack ->
    standing l alias v (Some j)
| resting_from j : v.(State) = Cooldown \/ v.(State) = Quarantined -> l.(posting) !! alias = None ->
    v.(NextEligible) <= due j + slack + (cooldown + guard + budget) -> standing l alias v (Some j).

Record load_inv (A : gset string) (l : load) (last : gmap string Z) : Prop := {
  li_pool : pool_ok l.(pool);
  li_count : 0 <= l.(arrivals);
  li_inj : forall a b j, last !! a = Some j -> last !! b = Some j -> a = b;
  li_range : forall a j, last !! a = Some j -> 0 <= j < l.(arrivals);
  li_user : forall a, a ∈ A -> a ∉ l.(lost) -> exists v, l.(pool) !! a = Some v /\ standing l a v (last !! a);
}.

Lemma end_post_cases p alias observed e : exists u,
  (end_post p alias observed e = p \/ exists v, p !! alias = Some v /\ u.(Alias) = v.(Alias) /\ end_post p alias observed e = <[alias := u]> p)
  /\ (forall v, p !! alias = Some v -> v.(State) = Leased -> held_back e = false ->
        end_post p alias observed e = <[alias := u]> p /\ (u.(State) = Cooldown \/ u.(State) = Quarantined)
        /\ u.(NextEligible) = observed + (cooldown + guard)).
Proof using cycle_fits.
  assert (forall state next, exists u, (ignoring p (release p alias state next) = p \/ exists v, p !! alias = Some v /\ u.(Alias) = v.(Alias)
        /\ ignoring p (release p alias state next) = <[alias := u]> p)
      /\ (forall v, p !! alias = Some v -> v.(State) = Leased ->
            ignoring p (release p alias state next) = <[alias := u]> p /\ u.(State) = state /\ u.(NextEligible) = next)) as REL.
  { intros state next. unfold release. destruct (p !! alias) as [v|]; [|exists (mkUser alias state next 0); split; [by left|done]].
    exists (mkUser (Alias v) state next (Tie v)). case_bool_decide as E; (split; [|intros ? [= <-] HL]); [by left|done| |done].
    right. by exists v. }
  assert (wrap64 (cooldown + guard) = cooldown + guard) as W by (by apply wrap64_id).
  unfold end_post, Accepted, Quarantine. destruct e as [| |retry|]; cbn [held_back].
  - destruct (REL Cooldown (observed + wrap64 (cooldown + guard))) as (u & H1 & H2). exists u. split; [done|]. intros v V L _.
    destruct (H2 v V L) as (-> & S & ->). rewrite W. auto.
  - destruct (REL Quarantined (observed + wrap64 (cooldown + guard))) as (u & H1 & H2). exists u. split; [done|]. intros v V L _.
    destruct (H2 v V L) as (-> & S & ->). rewrite W. auto.
  - unfold RateLimited. destruct (REL Quarantined (observed + wrap64 ((if cooldown <? retry then retry else cooldown) + guard))) as (u & H1 & H2).
    exists u. split; [done|]. intros v V L HB. destruct (H2 v V L) as (-> & S & ->). rewrite HB, W. auto.
  - unfold Disable. destruct (p !! alias) as [v|]; [|exists (mkUser alias Disabled 0 0); split; [by left|done]].
    exists (with_state v Disabled). split; [|done]. right. by exists v.
Qed.

(** A step that leaves a user alone keeps its standing. *)
Lemma standing_frame l l' a v o : standing l a v o -> l'.(posting) !! a = l.(posting) !! a -> standing l' a v o.
Proof.
  intros [L P|j s L P B|j L P B] E; rewrite <- E in P; [by apply never_leased|by eapply posting_for|by apply resting_from].
Qed.

Lemma load_inv_step A l l' last : load_inv A l last -> load_step l l' -> exists last', load_inv A l' last'.
Proof using cycle_fits.
  clear guard_nonneg cooldown_pos budget_nonneg.
  intros [I1 I2 I3 I4 I5] H. destruct H as [now u p' H1 H2 H3| |alias since observed e H1 H2|alias].
  - pose proof (Lease_spec _ now I1) as HL. rewrite H3 in HL. destruct HL as (v & V1 & V2 & -> & -> & _). cbn in *.
    exists (<[Alias v := arrivals l]> last). constructor; cbn; [by apply pool_ok_insert|lia|..].
    + intros a b j [[<- <-]|[N1 A1]]%lookup_insert_Some [[<- E]|[N2 A2]]%lookup_insert_Some; [done| | |by eapply I3].
      * apply I4 in A2. lia.
      * subst j. apply I4 in A1. lia.
    + intros a j [[<- <-]|[N1 A1]]%lookup_insert_Some; [lia|]. apply I4 in A1. lia.
    + intros a HA HL. destruct (I5 a HA HL) as [w [W1 W2]]. destruct (decide (a = Alias v)) as [->|N].
      * exists (with_state v Leased). rewrite !lookup_insert_eq. split; [done|].
        apply (posting_for _ _ _ _ now); cbn; [done|apply lookup_insert_eq|lia].
      * exists w. rewrite (lookup_insert_ne last) by done. split; [by rewrite lookup_insert_ne|]. apply (standing_frame l); [done|]. cbn. by apply lookup_insert_ne.
  - exists last. constructor; cbn; [done|lia|done| |].
    + intros a j A1. apply I4 in A1. lia.
    + intros a HA HL. destruct (I5 a HA HL) as [w [W1 W2]]. exists w. split; [done|]. by apply (standing_frame l).
  - destruct (end_post_cases (pool l) alias observed e) as (u & C1 & C2). exists last.
    assert (forall a, a <> alias -> end_post (pool l) alias observed e !! a = pool l !! a) as FR.
    { intros a N. destruct C1 as [->|(v & _ & _ & ->)]; [done|by rewrite lookup_insert_ne]. }
    constructor; cbn; [|done..|].
    + destruct C1 as [->|(v & V1 & E & ->)]; [done|]. apply pool_ok_insert; [done|]. rewrite E. by apply (I1 _ _ V1).
    + intros a HA HL. assert (held_back e = false \/ a <> alias) as HB by (destruct (held_back e); [right; set_solver|by left]).
      assert (a ∉ lost l) as HL' by (destruct (held_back e); set_solver). destruct (I5 a HA HL') as [w [W1 W2]].
      destruct (decide (a = alias)) as [->|N].
      * destruct HB as [HB|?]; [|done]. exists u.
        destruct W2 as [L P|j s L P B|j L P B]; [congruence| |congruence]. rewrite H1 in P. injection P as ->.
        destruct (C2 _ W1 L HB) as (-> & S & NE). split; [apply lookup_insert_eq|].
        apply resting_from; cbn; [done|apply lookup_delete_eq|lia].
      * exists w. split; [by rewrite FR|]. apply (standing_frame l); [done|]. cbn. by apply lookup_delete_ne.
  - exists last. constructor; cbn; [|done..|].
    + unfold Disable. destruct (pool l !! alias) as [v|] eqn:V; cbn; [|done]. apply pool_ok_insert; [done|]. by apply (I1 _ _ V).
    + intros a HA HL. destruct (I5 a HA ltac:(set_solver)) as [w [W1 W2]]. exists w. split; [|by apply (standing_frame l)].
      unfold Disable. destruct (pool l !! alias) as [v|] eqn:V; cbn; [|done]. rewrite lookup_insert_ne; [done|]. set_solver.
Qed.

(** A user who cannot be leased was leased for one of the last arrivals. *)
Lemma busy_user l a v o now : standing l a v o -> leasable now v = false -> prompt l now -> due l.(arrivals) <= now -> origin <= now ->
  exists j, o = Some j /\ due l.(arrivals) < due j + (cooldown + guard + budget + slack).
Proof using guard_nonneg cooldown_pos budget_nonneg.
  intros HS HL HP HD HO. destruct HS as [L P|j s L P B|j L P B].
  - exfalso. unfold leasable in *. destruct (State v); try done; bools; lia.
  - exists j. split; [done|]. specialize (HP _ _ P). lia.
  - exists j. split; [done|]. unfold leasable in HL. destruct L as [L|L]; rewrite L in HL; bools; lia.
Qed.
End Load.

(** ** A pool of the required size *)

Lemma int_of_ceil_range elsewhere x : in_int64 elsewhere -> in_int64 (int_of_ceil elsewhere x).
Proof.
  intros He. unfold int_of_ceil. destruct x as [s| s| |s m e]; try done.
  set (c := if 0 <=? e then _ else _). clearbody c. cbn. case_match eqn:E; [|done]. unfold IsInt64 in E. bools. done.
Qed.

(** The smallest number of users: those a load keeps busy, and a spare one. *)
Definition busy_users (rate : Q) (cycle : Z) : Z := ceilBigRat (Qmult rate (cycle # 1000000000)).

Lemma RequiredUsers_spec elsewhere rate cooldown guard budget headroom n : in_int64 elsewhere ->
  in_int64 (cooldown + guard + budget) -> in_int64 (busy_users rate (cooldown + guard + budget)) -> 0 < n ->
  RequiredUsers elsewhere (Some rate) cooldown guard budget headroom = inr n ->
  0 < cooldown /\ 0 <= guard /\ 0 <= budget
  /\ n = busy_users rate (cooldown + guard + budget) + spare_users elsewhere (busy_users rate (cooldown + guard + budget)) headroom
  /\ exists p q, rate = (Zpos p # q)
     /\ (cooldown + guard + budget) * Zpos p <= busy_users rate (cooldown + guard + budget) * (Zpos q * second).
Proof.
  intros He Hc Hb Hn H. unfold RequiredUsers in H. destruct (positive_rate (Some rate)) as [r|] eqn:ER; [|done].
  apply positive_rate_inv in ER as ([= <-] & p & q & ->). destruct (_ || _) eqn:EB; [done|]. bools. injection H as <-.
  assert (wrap64 (cooldown + guard) = cooldown + guard) as W by (apply wrap64_id; unfold in_int64, int64_min in *; lia).
  rewrite W, (wrap64_id _ Hc) in *. unfold ceilRat in *. fold (busy_users (Zpos p # q) (cooldown + guard + budget)) in *.
  rewrite (wrap64_id _ Hb) in *.
  set (C := cooldown + guard + budget) in *. set (base := busy_users _ _) in *.
  assert (forall i, i < base <-> i * (Zpos q * second) < C * Zpos p) as HB.
  { intros i. unfold base, busy_users, Qmult. cbn [Qnum Qden]. rewrite ceil_spec, Pos2Z.inj_mul by nia. unfold second. lia. }
  assert (0 < base) by (apply HB; nia).
  assert (1 <= spare_users elsewhere base headroom <= int64_max) as HS.
  { unfold spare_users. pose proof (int_of_ceil_range elsewhere (SFdiv 53 1024 (SFmul 53 1024 (RunCode.float64_of_Z base) headroom)
      (RunCode.float64_of_Z 100)) He) as [_ R]. cbn zeta. case_match; bools; unfold int64_max in *; lia. }
  split_and!; try done.
  - unfold wrap64 in *. unfold in_int64, int64_min, int64_max in *.
    pose proof (Z.div_mod (base + spare_users elsewhere base headroom + 2 ^ 63) (2 ^ 64) ltac:(lia)).
    pose proof (Z.mod_pos_bound (base + spare_users elsewhere base headroom + 2 ^ 63) (2 ^ 64) ltac:(lia)). lia.
  - exists p, q. split; [done|]. pose proof (HB base). lia.
Qed.

Lemma CountEligible_aliases p0 origin : pool_ok p0 -> exists A : gset string,
  CountEligible p0 origin = Z.of_nat (size A)
  /\ forall a, a ∈ A -> exists v, p0 !! a = Some v /\ leasable origin v = true.
Proof.
  intros Hp. set (l := filter (fun u => u.(State) <> Disabled /\ u.(State) <> Leased /\ u.(NextEligible) <= origin) (users p0)).
  exists (list_to_set (map Alias l)). split.
  - unfold CountEligible. fold l. rewrite size_list_to_set; [by rewrite length_map|].
    apply NoDup_fmap_2_strong.
    + intros x y Hx Hy E. apply list_elem_of_filter in Hx as [_ Hx], Hy as [_ Hy].
      apply (elem_of_users _ _ Hp) in Hx, Hy. rewrite E in Hx. congruence.
    + apply NoDup_filter. unfold users. apply NoDup_fmap_2_strong; [|apply NoDup_map_to_list].
      intros [k x] [k' y] Hx%elem_of_map_to_list Hy%elem_of_map_to_list E. cbn in E. subst y.
      rewrite <- (Hp _ _ Hx), <- (Hp _ _ Hy). done.
  - intros a Ha. apply elem_of_list_to_set, list_elem_of_fmap in Ha as (v & -> & Hv).
    apply list_elem_of_filter in Hv as [(H1 & H2 & H3) Hv]. apply (elem_of_users _ _ Hp) in Hv. exists v. split; [done|].
    unfold leasable. destruct (State v); try done; by apply Z.leb_le.
Qed.

Lemma load_reach_inv rate cooldown guard budget origin slack A p0 l : in_int64 (cooldown + guard) -> pool_ok p0 ->
  (forall a, a ∈ A -> exists v, p0 !! a = Some v /\ leasable origin v = true) ->
  load_reach rate cooldown guard budget origin slack p0 l ->
  exists last, load_inv rate cooldown guard budget origin slack A l last.
Proof.
  intros Hf Hp HA. induction 1 as [|l l' H [last IH] Hs].
  - exists ∅. constructor; cbn; [done|lia|by intros ? ? ? ?%lookup_empty_Some|by intros ? ? ?%lookup_empty_Some|]. intros a (v & H1 & H2)%HA _. exists v. rewrite lookup_empty. split; [done|].
    by apply never_leased.
  - by eapply load_inv_step.
Qed.

(** More users than one cycle keeps busy: one of them can be leased. *)
Lemma enough_users p q cooldown guard budget origin slack A l last now n :
  0 <= guard -> 0 < cooldown -> 0 <= budget ->
  load_inv (Zpos p # q) cooldown guard budget origin slack A l last -> n <= Z.of_nat (size (A ∖ l.(lost))) -> 0 < n ->
  (cooldown + guard + budget + slack) * Zpos p <= n * (Zpos q * second) ->
  OffsetFor (Zpos p # q) l.(arrivals) < int64_max ->
  due (Zpos p # q) origin l.(arrivals) <= now -> prompt budget l now ->
  exists u p', Lease l.(pool) now = (Some u, p').
Proof.
  intros Hg Hc Hb HI HA Hn HC HO HD HP. pose proof HI as [I1 I2 I3 I4 I5].
  pose proof (Lease_spec _ now I1) as HL. destruct (Lease (pool l) now) as [[u|] p'] eqn:E; [by eauto|].
  exfalso. destruct HL as [_ HL].
  assert (origin <= now) as HN by (pose proof (OffsetFor_nonneg p q (arrivals l) I2); unfold due in HD; lia).
  set (f := fun a => default 0 (last !! a)).
  assert (forall a, a ∈ A ∖ lost l -> exists j, last !! a = Some j /\ arrivals l - n < j < arrivals l) as HB.
  { intros a [HA1 HA2]%elem_of_difference. destruct (I5 a HA1 HA2) as (v & V1 & V2). destruct (busy_user _ _ _ _ _ _ Hg Hc Hb _ _ _ _ _ V2 (HL _ _ V1) HP HD HN) as (j & J1 & J2).
    exists j. split; [done|]. pose proof (I4 _ _ J1) as J3. unfold due in J2.
    pose proof (arrivals_apart p q (arrivals l) j (cooldown + guard + budget + slack) ltac:(lia) HO ltac:(lia)).
    unfold second in *. nia. }
  assert (length (map f (elements (A ∖ lost l))) <= length (seqZ (arrivals l - n + 1) (n - 1)))%nat as HLen.
  { apply submseteq_length, NoDup_submseteq.
    - apply NoDup_fmap_2_strong; [|apply NoDup_elements]. intros a b Ha%elem_of_elements Hb'%elem_of_elements E'.
      destruct (HB a Ha) as (j & J1 & _), (HB b Hb') as (k & K1 & _). unfold f in E'. rewrite J1, K1 in E'. cbn in E'. subst k. eauto.
    - intros j (a & -> & Ha%elem_of_elements)%list_elem_of_fmap. destruct (HB a Ha) as (j & J1 & J2). unfold f. rewrite J1. cbn.
      apply elem_of_seqZ. lia. }
  rewrite length_map, length_seqZ in HLen. change (length (elements (A ∖ lost l))) with (size (A ∖ lost l)) in HLen. lia.
Qed.

(** C39: A load has a user for its next arrival when, beyond the users who have
    been disabled or sent away for longer than a cooldown since, as many were
    eligible at its origin as [RequiredUsers] asks for, posts end within the
    latency budget, and arrivals are late by no more than the spare users make
    up for. *)
Theorem required_users_suffice elsewhere rate cooldown guard budget headroom n origin slack p0 l now :
  in_int64 elsewhere -> in_int64 (cooldown + guard + budget) -> in_int64 (busy_users rate (cooldown + guard + budget)) ->
  RequiredUsers elsewhere (Some rate) cooldown guard budget headroom = inr n -> 0 < n ->
  slack * Qnum rate <= spare_users elsewhere (busy_users rate (cooldown + guard + budget)) headroom * (QDen rate * second) ->
  pool_ok p0 -> load_reach rate cooldown guard budget origin slack p0 l ->
  n + Z.of_nat (size l.(lost)) <= CountEligible p0 origin ->
  OffsetFor rate l.(arrivals) < int64_max ->
  due rate origin l.(arrivals) <= now <= due rate origin l.(arrivals) + slack -> prompt budget l now ->
  exists u p', Lease l.(pool) now = (Some u, p').
Proof.
  intros He Hc Hb HR Hn Hs Hp Hr HA HO [HD _] HP.
  destruct (RequiredUsers_spec _ _ _ _ _ _ _ He Hc Hb Hn HR) as (C1 & C2 & C3 & C4 & p & q & -> & C5).
  destruct (CountEligible_aliases p0 origin Hp) as (A & A1 & A2).
  assert (in_int64 (cooldown + guard)) as Hf by (unfold in_int64, int64_min, int64_max in *; lia).
  destruct (load_reach_inv _ _ _ _ _ _ A p0 l Hf Hp A2 Hr) as [last HI].
  eapply (enough_users p q cooldown guard budget origin slack A l last now n); try done.
  - pose proof (size_difference_alt A l.(lost)). pose proof (subseteq_size (A ∩ l.(lost)) l.(lost) ltac:(set_solver)). lia.
  - cbn in Hs. lia.
Qed.

(** ** A new pool *)

Lemma add_users_spec aliases rng pool0 pool' : pool_ok pool0 -> add_users aliases rng pool0 = inr pool' ->
  pool_ok pool' /\ dom pool' = dom pool0 ∪ list_to_set aliases
  /\ (forall a, a ∈ aliases -> exists tie, pool' !! a = Some (mkUser a Eligible 0 tie))
  /\ (forall a v, pool0 !! a = Some v -> pool' !! a = Some v).
Proof.
  revert rng pool0. induction aliases as [|a rest IH]; intros rng pool0 Hp H; cbn [add_users] in H.
  - injection H as <-. split_and!; [done|set_solver|set_solver|done].
  - case_bool_decide; [done|]. destruct (pool0 !! a) eqn:E; [done|]. destruct (Uint64 rng) as [tie rng'].
    destruct (IH _ (<[a := mkUser a Eligible 0 tie]> pool0) ltac:(by apply pool_ok_insert) H) as (H1 & H2 & H3 & H4). split_and!; [done| | |].
    + rewrite H2, dom_insert_L. set_solver.
    + intros b [->|Hb]%elem_of_cons; [|by apply H3]. exists tie. apply H4, lookup_insert_eq.
    + intros b v Hb. apply H4. rewrite lookup_insert_ne; [done|]. congruence.
Qed.

Lemma NewPool_ok aliases seed pool' : NewPool aliases seed = inr pool' -> pool_ok pool' /\ dom pool' = list_to_set aliases
  /\ forall a, a ∈ aliases -> exists tie, pool' !! a = Some (mkUser a Eligible 0 tie).
Proof.
  unfold NewPool. destruct aliases as [|a l] eqn:E; [done|]. rewrite <- E. intros H.
  destruct (add_users_spec _ _ ∅ _ (map_Forall_empty _) H) as (H1 & H2 & H3 & _). split_and!; [done| |done].
  rewrite H2, dom_empty_L. set_solver.
Qed.

(** ** What happens to the users of a pool *)

Inductive pool_op :=
| OpLease (now : Z)
| OpLeaseAlias (alias : string) (now : Z)
| OpAccepted (alias : string) (observed cooldown guard : Z)
| OpQuarantine (alias : string) (observed cooldown guard : Z)
| OpRateLimited (alias : string) (observed cooldown guard retryAfter : Z)
| OpDisable (alias : string).

Inductive pool_event :=
| EvLeased (alias : string) (now : Z)
| EvReleased (alias : string) (next : Z)
| EvDisabled (alias : string).

Definition leased_event (now : Z) (r : option User * Pool) : list pool_event * Pool :=
  (match r.1 with Some u => [EvLeased u.(Alias) now] | None => [] end, r.2).

Definition released_event (pool : Pool) (alias : string) (next : Z) (r : error + Pool) : list pool_event * Pool :=
  match r with inl _ => ([], pool) | inr pool' => ([EvReleased alias next], pool') end.

Definition run_op (pool : Pool) (op : pool_op) : list pool_event * Pool :=
  match op with
  | OpLease now => leased_event now (Lease pool now)
  | OpLeaseAlias alias now => leased_event now (LeaseAlias pool alias now)
  | OpAccepted alias observed cooldown guard =>
      released_event pool alias (observed + wrap64 (cooldown + guard)) (Accepted pool alias observed cooldown guard)
  | OpQuarantine alias observed cooldown guard =>
      released_event pool alias (observed + wrap64 (cooldown + guard)) (Quarantine pool alias observed cooldown guard)
  | OpRateLimited alias observed cooldown guard retryAfter =>
      released_event pool alias (observed + wrap64 (Z.max cooldown retryAfter + guard))
        (RateLimited pool alias observed cooldown guard retryAfter)
  | OpDisable alias => match Disable pool alias with inl _ => ([], pool) | inr pool' => ([EvDisabled alias], pool') end
  end.

Fixpoint run_ops (pool : Pool) (ops : list pool_op) : list pool_event * Pool :=
  match ops with
  | [] => ([], pool)
  | op :: rest => let '(ev, pool) := run_op pool op in let '(evs, pool) := run_ops pool rest in (ev ++ evs, pool)
  end.

(** The life of one user: eligible from an instant on, leased, or disabled. *)
Inductive status := Idle (from : Z) | Busy | Off.

Definition status_of (u : User) : status :=
  match u.(State) with Eligible | Cooldown | Quarantined => Idle u.(NextEligible) | Leased => Busy | Disabled => Off end.

(** One event of that life; [None] when it is not allowed. *)
Definition live (alias : string) (ev : pool_event) (s : status) : option status :=
  match ev with
  | EvLeased a now =>
      if bool_decide (a = alias) then match s with Idle t => if t <=? now then Some Busy else None | _ => None end else Some s
  | EvReleased a next =>
      if bool_decide (a = alias) then match s with Busy => Some (Idle next) | _ => None end else Some s
  | EvDisabled a => if bool_decide (a = alias) then Some Off else Some s
  end.

Fixpoint lives (alias : string) (events : list pool_event) (s : status) : option status :=
  match events with [] => Some s | ev :: rest => live alias ev s ≫= lives alias rest end.

Lemma lives_app alias e1 e2 s : lives alias (e1 ++ e2) s = lives alias e1 s ≫= lives alias e2.
Proof. revert s. induction e1 as [|ev e1 IH]; intros s; cbn; [done|]. destruct (live alias ev s); cbn; [apply IH|done]. Qed.

Definition pool_status (pool : Pool) (alias : string) : option status := status_of <$> pool !! alias.

Lemma pool_status_insert pool a v alias : pool_status (<[a := v]> pool) alias
  = if bool_decide (a = alias) then Some (status_of v) else pool_status pool alias.
Proof.
  unfold pool_status. case_bool_decide as E; [subst; by rewrite lookup_insert_eq|by rewrite lookup_insert_ne].
Qed.

(** The events take a user from its status in one pool to that in another. *)
Definition follows (alias : string) (s : status) (r : list pool_event * Pool) : Prop :=
  pool_ok r.2 /\ exists s', lives alias r.1 s = Some s' /\ pool_status r.2 alias = Some s'.

Lemma follows_nothing pool alias s : pool_ok pool -> pool_status pool alias = Some s -> follows alias s ([], pool).
Proof. intros Hp Hs. split; [done|]. by exists s. Qed.

(** An operation that changes one user gives every user an event its life allows. *)
Lemma follows_event pool a v v' ev alias s : pool_ok pool -> v'.(Alias) = a -> pool_status pool alias = Some s ->
  pool !! a = Some v -> live a ev (status_of v) = Some (status_of v') -> (alias <> a -> live alias ev s = Some s) ->
  follows alias s ([ev], <[a := v']> pool).
Proof.
  intros Hp Ha Hs Hv H1 H2. split; [by apply pool_ok_insert|]. cbn [fst snd lives]. rewrite pool_status_insert. case_bool_decide as E.
  - subst alias. unfold pool_status in Hs. rewrite Hv in Hs. injection Hs as <-. rewrite H1. by eexists.
  - rewrite H2 by done. by exists s.
Qed.

Ltac other_user := intros; unfold live; by rewrite bool_decide_false by congruence.

Lemma release_follows pool alias state next nx r b s : pool_ok pool -> state = Cooldown \/ state = Quarantined -> nx = next ->
  r = release pool alias state next -> pool_status pool b = Some s -> follows b s (released_event pool alias nx r).
Proof.
  intros Hp Hst -> -> Hs. destruct (release pool alias state next) as [e|pool'] eqn:E; cbn [released_event]; [by apply follows_nothing|].
  apply release_spec in E as (v & V1 & V2 & ->). apply (follows_event _ _ v); [done|by apply (Hp _ _ V1)|done..| |other_user].
  unfold live, status_of. rewrite bool_decide_true, V2 by done. cbn. by destruct Hst as [-> | ->].
Qed.

Lemma lease_follows pool v now b s : pool_ok pool -> pool_status pool b = Some s -> pool !! v.(Alias) = Some v ->
  leasable now v = true -> follows b s ([EvLeased v.(Alias) now], <[v.(Alias) := with_state v Leased]> pool).
Proof.
  intros Hp Hs V1 V2. apply (follows_event _ _ v); [done..| |other_user].
  unfold leasable in V2. unfold live, status_of. cbn. rewrite bool_decide_true by done. destruct (State v); try done; by rewrite V2.
Qed.

Lemma run_op_follows pool op b s : pool_ok pool -> pool_status pool b = Some s -> follows b s (run_op pool op).
Proof.
  intros Hp Hs. destruct op as [now|alias now|alias o c g|alias o c g|alias o c g retry|alias]; cbn [run_op]; unfold leased_event.
  - pose proof (Lease_spec pool now Hp) as H. destruct (Lease pool now) as [[u|] pool']; cbn [fst snd].
    + destruct H as (v & V1 & V2 & -> & -> & _). exact (lease_follows pool v now b s Hp Hs V1 V2).
    + destruct H as [-> _]. by apply follows_nothing.
  - unfold LeaseAlias. destruct (pool !! alias) as [v|] eqn:V1; cbn [fst snd]; [|by apply follows_nothing].
    destruct (_ || _) eqn:E; cbn [fst snd]; [by apply follows_nothing|]. bools. pose proof (Hp _ _ V1) as Ha. cbn in Ha. subst alias.
    apply (lease_follows pool v now b s Hp Hs V1). unfold leasable. destruct (State v); try done; by apply Z.leb_le.
  - eapply release_follows; [done|by left|done..].
  - eapply release_follows; [done|by right|done..].
  - eapply release_follows; [done|by right| |done..]. do 3 f_equal. destruct (Z.ltb_spec c retry); lia.
  - unfold Disable. destruct (pool !! alias) as [v|] eqn:V1; [|by apply follows_nothing].
    apply (follows_event _ _ v); [done|by apply (Hp _ _ V1)|done..| |other_user]. unfold live. by rewrite bool_decide_true.
Qed.

Lemma run_ops_follow pool ops b s : pool_ok pool -> pool_status pool b = Some s -> follows b s (run_ops pool ops).
Proof.
  revert pool s. induction ops as [|op ops IH]; intros pool s Hp Hs; cbn [run_ops]; [by apply follows_nothing|].
  destruct (run_op_follows pool op b s Hp Hs) as (H1 & s1 & H2 & H3). destruct (run_op pool op) as [ev pool1]. cbn [fst snd] in *.
  destruct (IH pool1 s1 H1 H3) as (I1 & s2 & I2 & I3). destruct (run_ops pool1 ops) as [evs pool2]. cbn [fst snd] in *.
  split; [done|]. exists s2. cbn [fst snd]. by rewrite lives_app, H2.
Qed.

(** What lies between two leases of one user. *)
Lemma lives_idle alias mid s t : (forall now, EvLeased alias now ∉ mid) -> lives alias mid s = Some (Idle t) ->
  s = Idle t \/ exists m1 m2, mid = m1 ++ EvReleased alias t :: m2.
Proof.
  revert s. induction mid as [|ev mid IH]; intros s Hn H; [injection H as ->; by left|]. cbn in H.
  assert (forall now, EvLeased alias now ∉ mid) as Hn' by set_solver.
  destruct (live alias ev s) as [s1|] eqn:E; [|done]. destruct (IH s1 Hn' H) as [->|(m1 & m2 & ->)].
  - destruct ev as [a now|a next|a]; cbn in E; case_bool_decide; subst.
    + set_solver.
    + injection E as ->. by left.
    + destruct s; try done. injection E as ->. right. by exists [], mid.
    + injection E as ->. by left.
    + done.
    + injection E as ->. by left.
  - right. by exists (ev :: m1), m2.
Qed.

Lemma lives_off alias events s : lives alias events Off = Some s -> s = Off /\ forall now, EvLeased alias now ∉ events.
Proof.
  revert s. induction events as [|ev events IH]; intros s H; cbn in H; [injection H as <-; split; [done|]; set_solver|].
  destruct ev as [a now|a next|a]; cbn in H; case_bool_decide; subst; try done; cbn in H; destruct (IH _ H) as [-> H2];
    (split; [done|]); intros now' [E|E]%elem_of_cons; try congruence; by eapply H2.
Qed.

(** A benchmark user never posts twice at a time, and not before the instant
    of its last release (the end of the cooldown, with its guard); once disabled
    it never posts again. *)
Theorem cooldown_is_kept aliases seed pool ops a pre t1 mid t2 post : NewPool aliases seed = inr pool -> a ∈ aliases ->
  (run_ops pool ops).1 = pre ++ EvLeased a t1 :: mid ++ EvLeased a t2 :: post -> (forall t, EvLeased a t ∉ mid) ->
  (exists m1 next m2, mid = m1 ++ EvReleased a next :: m2 /\ next <= t2) /\ EvDisabled a ∉ pre ++ mid.
Proof.
  intros (Hp & _ & Hu)%NewPool_ok (tie & Ha)%Hu HE Hm.
  assert (pool_status pool a = Some (Idle 0)) as Hs by (unfold pool_status; by rewrite Ha).
  destruct (run_ops_follow pool ops a _ Hp Hs) as (_ & s' & HL & _). rewrite HE in HL.
  assert (forall e1 e2 s1 s2, lives a (e1 ++ e2) s1 = Some s2 -> exists s3, lives a e1 s1 = Some s3 /\ lives a e2 s3 = Some s2) as Split.
  { intros e1 e2 s1 s2. rewrite lives_app. intros (s3 & H1 & H2)%bind_Some. eauto. }
  apply Split in HL as (s1 & H1 & H2). change (EvLeased a t1 :: ?x) with ([EvLeased a t1] ++ x) in H2.
  apply Split in H2 as (s2 & H2 & H3). apply Split in H3 as (s3 & H3 & H4). cbn in H2, H4. rewrite bool_decide_true in H2, H4 by done.
  destruct s1 as [t0| |]; try done. destruct (t0 <=? t1); [|done]. injection H2 as <-. destruct s3 as [t3| |]; try done.
  destruct (t3 <=? t2) eqn:E3; [|done]. bools. split.
  - destruct (lives_idle _ _ _ _ Hm H3) as [?|(m1 & m2 & ->)]; [done|]. by exists m1, t3, m2.
  - assert (forall e s1 s2, lives a e s1 = Some s2 -> s2 <> Off -> EvDisabled a ∉ e) as NoOff.
    { intros e x y Hx Hy (e1 & e2 & ->)%list_elem_of_split. apply Split in Hx as (z & _ & Hz). cbn in Hz.
      rewrite bool_decide_true in Hz by done. cbn in Hz. by apply lives_off in Hz as [-> _]. }
    intros [HD|HD]%elem_of_app; revert HD; by eapply NoOff.
Qed.

(** ** Facts: the arrival plan *)

Lemma arrival_count_pos p q d n : ArrivalCount (Some (Zpos p # q)) d = inr n -> 0 < n.
Proof.
  unfold ArrivalCount. cbn. destruct (Z.leb_spec d 0); [done|]. destruct (negb _); [done|]. intros [= <-].
  unfold Qmult. cbn [Qnum Qden]. apply ceil_spec; lia.
Qed.

(** C40: The plan of a fixed-rate load consists of the arrivals that are due
    within its duration, all of them and no others, in order; each is due at its
    exact instant rounded down to a nanosecond. *)
Theorem arrivals_are_exact rate duration l : in_int64 duration -> FixedOffsets rate duration = inr l ->
  exists p q, rate = Some (Zpos p # q)
  /\ (forall i, 0 <= i -> i < Z.of_nat (length l) <-> OffsetFor (Zpos p # q) i < duration)
  /\ (forall i o, l !! i = Some o -> o < duration /\ o * Zpos p <= Z.of_nat i * (Zpos q * second) < (o + 1) * Zpos p)
  /\ (forall i j a b, (i <= j)%nat -> l !! i = Some a -> l !! j = Some b -> a <= b).
Proof.
  intros Hd H. unfold FixedOffsets in H. destruct (positive_rate rate) as [r|] eqn:ER; [|done].
  apply positive_rate_inv in ER as (-> & p & q & ->). destruct (ArrivalCount _ duration) as [e|n] eqn:EC; [done|].
  destruct (max_offsets <? n); [done|]. injection H as <-. pose proof (arrival_count_pos p q duration n EC). exists p, q.
  assert (forall i o, map (OffsetFor (Zpos p # q)) (seqZ 0 n) !! i = Some o ->
    Z.of_nat i < n /\ o = OffsetFor (Zpos p # q) (Z.of_nat i)) as HL.
  { intros i o (x & -> & Hx)%list_lookup_fmap_Some. apply lookup_seqZ in Hx as [-> Hx]. rewrite Z.add_0_l. split; [lia|done]. }
  split_and!; [done|..].
  - intros i Hi. rewrite length_map, length_seqZ, Z2Nat.id by lia. by apply arrival_count_spec.
  - intros i o [H1 ->]%HL. assert (OffsetFor (Zpos p # q) (Z.of_nat i) < duration) by (apply (arrival_count_spec p q duration n); [done|done|lia|done]).
    split; [done|]. apply OffsetFor_exact; [lia|]. unfold in_int64 in Hd. lia.
  - intros i j a b Hij [_ ->]%HL [_ ->]%HL. apply OffsetFor_mono. lia.
Qed.

(** ** Facts: random numbers and bursts *)

Lemma land_bound x m : 0 <= m -> 0 <= Z.land x m <= m.
Proof.
  intros Hm. assert (0 <= Z.land x m) by (apply Z.land_nonneg; lia). split; [done|].
  assert (Z.land x m + Z.ldiff m x = m) as E.
  { rewrite Z.add_nocarry_lxor.
    - apply Z.bits_inj'. intros k _. rewrite Z.lxor_spec, Z.land_spec, Z.ldiff_spec. by destruct (Z.testbit x k), (Z.testbit m k).
    - apply Z.bits_inj'. intros k _. rewrite !Z.land_spec, Z.ldiff_spec, Z.bits_0. by destruct (Z.testbit x k), (Z.testbit m k). }
  assert (0 <= Z.ldiff m x) by (apply Z.ldiff_nonneg; lia). lia.
Qed.

Lemma high_word x n : 0 <= x < 2 ^ 64 -> 0 < n -> 0 <= x * n / 2 ^ 64 < n.
Proof.
  intros Hx Hn. split; [apply Z.div_pos; nia|]. apply Z.div_lt_upper_bound; nia.
Qed.

Lemma Uint64_range p : 0 <= (Uint64 p).1 < 2 ^ 64.
Proof. unfold Uint64, u64. cbn [fst]. apply Z.mod_pos_bound. lia. Qed.

Lemma redraw_range fuel n thresh hi lo p : 0 < n -> 0 <= hi < n -> 0 <= (redraw fuel n thresh hi lo p).1 < n.
Proof.
  intros Hn. revert hi lo p. induction fuel as [|fuel IH]; intros hi lo p Hh; cbn [redraw]; [done|].
  destruct (lo <? thresh); [|done]. pose proof (Uint64_range p) as HU. destruct (Uint64 p) as [x p']. by apply IH, high_word.
Qed.

Lemma uint64n_range n p : 0 < n -> 0 <= (uint64n n p).1 < n.
Proof.
  intros Hn. unfold uint64n. pose proof (Uint64_range p) as HU. destruct (Uint64 p) as [x p']. cbn [fst] in HU.
  destruct (Z.land n (n - 1) =? 0); [pose proof (land_bound x (n - 1)); cbn [fst]; lia|].
  cbv zeta. destruct (_ <? _); [by apply redraw_range, high_word|]. by apply high_word.
Qed.

Lemma shuffle_perm {A} i (values : list A) p : (shuffle i values p).1 ≡ₚ values.
Proof.
  revert values p. induction i as [|i IH]; intros values p; cbn [shuffle]; [done|].
  destruct (uint64n _ p) as [j p']. rewrite IH. destruct (values !! S i) as [x|] eqn:E1; [|done].
  destruct (values !! Z.to_nat j) as [y|] eqn:E2; [|done]. by apply Permutation_insert_swap.
Qed.

Lemma burst_offsets_spec aliases jitter p : 0 <= jitter ->
  map BurstAlias (burst_offsets aliases jitter p) = aliases
  /\ Forall (fun b => 0 <= b.(BurstOffset) <= jitter) (burst_offsets aliases jitter p).
Proof.
  intros Hj. revert p. induction aliases as [|a rest IH]; intros p; cbn [burst_offsets]; [by split|].
  pose proof (uint64n_range (jitter + 1) p) as HU. destruct (uint64n (jitter + 1) p) as [o p']. cbn [fst] in HU.
  destruct (Z.ltb_spec 0 jitter); cbn [map]; [destruct (IH p') as [-> H2]|destruct (IH p) as [-> H2]];
    (split; [done|]); constructor; cbn; try done; lia.
Qed.

(** A burst takes as many distinct users as it has posts, and the plan does not
    depend on the order of the session file. *)
Lemma BurstPlan_spec aliases size seed jitter plan : NoDup aliases -> BurstPlan aliases size seed jitter = inr plan ->
  Z.of_nat (length plan) = size /\ NoDup (map BurstAlias plan) /\ (forall b, b ∈ plan -> b.(BurstAlias) ∈ aliases)
  /\ Forall (fun b => 0 <= b.(BurstOffset) <= jitter) plan
  /\ forall aliases', aliases' ≡ₚ aliases -> BurstPlan aliases' size seed jitter = inr plan.
Proof.
  intros HN HB. pose proof HB as H. unfold BurstPlan in H. destruct (_ || _) eqn:E; [done|]. bools.
  pose proof (shuffle_perm (length (merge_sort String.le aliases) - 1) (merge_sort String.le aliases)
    (mkPCG seed (Z.lxor seed 0xd1b54a32d192ed03))) as HP. destruct (shuffle _ _ _) as [values p]. injection H as <-. cbn [fst] in HP.
  rewrite merge_sort_Permutation in HP. destruct (burst_offsets_spec (take (Z.to_nat size) values) jitter p) as [B1 B2]; [done|].
  assert (NoDup values) as HV by (by rewrite HP). rewrite <- (take_drop (Z.to_nat size) values) in HV. apply NoDup_app in HV as [HV _].
  split_and!; [|by rewrite B1| |done|].
  - pose proof (f_equal length B1) as HL. rewrite length_map, length_take, (Permutation_length HP) in HL. lia.
  - intros b Hb. rewrite <- HP, <- (take_drop (Z.to_nat size) values). apply elem_of_app. left. rewrite <- B1.
    apply list_elem_of_fmap. eauto.
  - intros aliases' HA. rewrite <- HB. unfold BurstPlan. rewrite (Permutation_length HA).
    assert (merge_sort String.le aliases' = merge_sort String.le aliases) as ->; [|done].
    apply (StronglySorted_unique String.le); [apply (StronglySorted_merge_sort String.le)..|]. by rewrite !merge_sort_Permutation.
Qed.

(** The spread of a burst is the largest distance of two starts. *)
Lemma foldl_max_min x l : Forall (fun y => foldl Z.min x l <= y <= foldl Z.max x l) (x :: l).
Proof.
  revert x. induction l as [|y l IH]; intros x; cbn [foldl]; [repeat constructor; lia|].
  pose proof (IH (Z.min x y)) as H1. pose proof (IH (Z.max x y)) as H2. apply Forall_cons in H1 as [H1 H1'], H2 as [H2 H2'].
  constructor; [lia|]. constructor; [lia|]. rewrite Forall_forall in *. intros z Hz. specialize (H1' z Hz). specialize (H2' z Hz).
  cbn in *. lia.
Qed.

Lemma BurstSpread_bounds starts a b : a ∈ starts -> b ∈ starts -> a - b <= int64_max -> a - b <= BurstSpread starts.
Proof.
  intros Ha Hb Hd. destruct starts as [|x [|y l]]; [by apply elem_of_nil in Ha| |].
  - apply list_elem_of_singleton in Ha, Hb. subst. unfold BurstSpread. lia.
  - pose proof (foldl_max_min x (y :: l)) as HF. rewrite Forall_forall in HF. apply HF in Ha. apply HF in Hb.
    unfold BurstSpread, AuthDomain.Sub. set (M := foldl Z.max _ _) in *. set (m := foldl Z.min _ _) in *. clearbody M m.
    unfold int64_max, int64_min in *. lia.
Qed.

(** ** Witnesses *)

Lemma arrivals_are_exact_witness : FixedOffsets (Some (3 # 1)) 1000000000 = inr [0; 333333333; 666666666]
  /\ exists p q, Some (3 # 1) = Some (Zpos p # q)
     /\ (forall i, 0 <= i -> i < 3 <-> OffsetFor (Zpos p # q) i < 1000000000)
     /\ (forall i o, [0; 333333333; 666666666] !! i = Some o ->
           o < 1000000000 /\ o * Zpos p <= Z.of_nat i * (Zpos q * second) < (o + 1) * Zpos p)
     /\ (forall i j a b, (i <= j)%nat -> [0; 333333333; 666666666] !! i = Some a -> [0; 333333333; 666666666] !! j = Some b -> a <= b).
Proof.
  split; [vm_compute; reflexivity|]. apply (arrivals_are_exact (Some (3 # 1)) 1000000000 [0; 333333333; 666666666]).
  - split; vm_compute; discriminate.
  - vm_compute. reflexivity.
Defined.

(** Two posts a second, a second of cooldown: three users are busy, one is spare,
    and arrivals may be half a second late.  Six users; the first post is sent
    away for a minute, and the observer of the second is refused. *)
Definition demo_aliases : list string := ["ann"; "bob"; "cyd"; "dan"; "eve"; "fay"]%string.
Definition demo_pool : Pool := match NewPool demo_aliases 7 with inr pool => pool | inl _ => ∅ end.

Lemma demo_pool_ok : pool_ok demo_pool.
Proof.
  destruct (NewPool demo_aliases 7) as [e|pool] eqn:E; unfold demo_pool; rewrite E; [done|].
  by apply NewPool_ok in E as [H _].
Qed.

Definition leased (p : Pool) (now : Z) : string := match (Lease p now).1 with Some u => u.(Alias) | None => "" end.
Definition arrive (l : load) (now : Z) : load :=
  mkLoad (Lease l.(pool) now).2 (l.(arrivals) + 1) (<[leased l.(pool) now := now]> l.(posting)) l.(lost).
Definition settle (l : load) (alias : string) (observed : Z) (e : post_end) : load :=
  mkLoad (end_post 1000000000 100000000 l.(pool) alias observed e) l.(arrivals) (delete alias l.(posting))
    (if held_back 1000000000 e then {[alias]} ∪ l.(lost) else l.(lost)).

Definition demo_load0 : load := mkLoad demo_pool 0 ∅ ∅.
Definition demo_load1 : load := arrive demo_load0 5.
Definition demo_load2 : load := settle demo_load1 (leased demo_pool 5) 300000000 (PostLimited 60000000000).
Definition demo_load3 : load := arrive demo_load2 500000005.
Definition demo_load4 : load := settle demo_load3 (leased demo_load2.(pool) 500000005) 700000000 PostAccepted.
Definition demo_load5 : load :=
  let alias := leased demo_load2.(pool) 500000005 in
  mkLoad (ignoring demo_load4.(pool) (Disable demo_load4.(pool) alias)) demo_load4.(arrivals) demo_load4.(posting)
    ({[alias]} ∪ demo_load4.(lost)).

#[local] Notation demo_reach := (load_reach (2 # 1) 1000000000 100000000 400000000 5 500000000 demo_pool).
#[local] Notation demo_prompt := (prompt 400000000).

Lemma prompt_check l now : forallb (fun x : string * Z => now <=? x.2 + 400000000) (map_to_list l.(posting)) = true -> demo_prompt l now.
Proof.
  intros H alias since Hp. apply elem_of_map_to_list, list_elem_of_In in Hp. apply forallb_forall with (x := (alias, since)) in H; [|done].
  cbn in H. bools. done.
Qed.

Lemma demo_arrive l now : demo_reach l -> (due (2 # 1) 5 l.(arrivals) <=? now) && (now <=? due (2 # 1) 5 l.(arrivals) + 500000000) = true ->
  demo_prompt l now -> bool_decide (is_Some (Lease l.(pool) now).1) = true -> demo_reach (arrive l now).
Proof.
  intros HR HD HP HL. bools. destruct HL as [u HL]. unfold arrive, leased.
  destruct (Lease (pool l) now) as [o p'] eqn:E. cbn [fst snd] in *. subst o.
  eapply load_next; [exact HR|]. by eapply load_arrive.
Qed.

Lemma demo_settle l alias since observed e : demo_reach l -> l.(posting) !! alias = Some since ->
  (since <=? observed) && (observed <=? since + 400000000) = true -> demo_reach (settle l alias observed e).
Proof. intros HR HP HD. bools. eapply load_next; [exact HR|]. by eapply load_settle. Qed.

Lemma demo_load_reached : demo_reach demo_load5.
Proof.
  assert (demo_reach demo_load1) as H1.
  { apply demo_arrive; [apply load_start|vm_compute; reflexivity|apply prompt_check; vm_compute; reflexivity|vm_compute; reflexivity]. }
  assert (demo_reach demo_load2) as H2 by (eapply (demo_settle _ _ 5); [exact H1|vm_compute; reflexivity..]).
  assert (demo_reach demo_load3) as H3.
  { apply demo_arrive; [exact H2|vm_compute; reflexivity|apply prompt_check; vm_compute; reflexivity|vm_compute; reflexivity]. }
  assert (demo_reach demo_load4) as H4 by (eapply (demo_settle _ _ 500000005); [exact H3|vm_compute; reflexivity..]).
  eapply load_next; [exact H4|]. apply load_disable.
Qed.

Lemma required_users_suffice_witness :
  RequiredUsers 0 (Some (2 # 1)) 1000000000 100000000 400000000 (RunCode.float64_of_Z 25) = inr 4
  /\ demo_load5.(arrivals) = 2 /\ size demo_load5.(lost) = 2%nat
  /\ exists u p', Lease demo_load5.(pool) 1000000100 = (Some u, p').
Proof.
  split; [vm_compute; reflexivity|]. split; [vm_compute; reflexivity|]. split; [vm_compute; reflexivity|].
  apply (required_users_suffice 0 (2 # 1) 1000000000 100000000 400000000 (RunCode.float64_of_Z 25) 4 5 500000000 demo_pool
    demo_load5 1000000100).
  - split; vm_compute; discriminate.
  - split; vm_compute; discriminate.
  - split; vm_compute; discriminate.
  - vm_compute. reflexivity.
  - reflexivity.
  - vm_compute. discriminate.
  - apply demo_pool_ok.
  - exact demo_load_reached.
  - vm_compute. discriminate.
  - vm_compute. reflexivity.
  - split; vm_compute; discriminate.
  - apply prompt_check. vm_compute. reflexivity.
Defined.

Lemma cooldown_is_kept_witness : exists pool, NewPool ["ann"]%string 7 = inr pool
  /\ (run_ops pool [OpLease 3; OpAccepted "ann" 5 10 1; OpLease 20]).1
     = [EvLeased "ann" 3; EvReleased "ann" 16; EvLeased "ann" 20]
  /\ (exists m1 next m2, [EvReleased "ann" 16] = m1 ++ EvReleased "ann" next :: m2 /\ next <= 20).
Proof.
  destruct (NewPool ["ann"]%string 7) as [e|pool] eqn:E; [vm_compute in E; discriminate E|].
  exists pool. split; [reflexivity|].
  assert ((run_ops pool [OpLease 3; OpAccepted "ann" 5 10 1; OpLease 20]).1
     = [EvLeased "ann" 3; EvReleased "ann" 16; EvLeased "ann" 20]) as R.
  { vm_compute in E. injection E as <-. vm_compute. reflexivity. }
  split; [exact R|].
  destruct (cooldown_is_kept ["ann"]%string 7 pool [OpLease 3; OpAccepted "ann" 5 10 1; OpLease 20] "ann" [] 3
    [EvReleased "ann" 16] 20 []) as [H _]; [exact E|left|exact R| |exact H].
  intros t H. apply list_elem_of_singleton in H. discriminate H.
Defined.
