(* ===== verification/BenchConfig.v ===== *)
(** The controls of the judge benchmark: tools/benchmark/judge/internal/config/
    config.go (defaults, validation, the size of a run) and
    internal/credentials/credentials.go (checks of the session file, selection of
    the canonical sessions).

    Durations are nanoseconds, [float64] is [spec_float], a [*big.Rat] an
    [option Q].  [net.ParseIP] with [IsLoopback] is an argument; so is the text
    of [%q] and of floats in messages, which are left out of them. *)

From Stdlib Require Import QArith_base SpecFloat.
From S2P Require Import Prelude GoString GoError GoTime Patterns.
From S2P Require RunCode BenchScheduler.

#[local] Open Scope Z_scope.

(** ** Checks in order *)

Definition check (bad : bool) (text : string) : option error := if bad then Some (EText text) else None.
Definition also (first second : option error) : option error := match first with Some err => Some err | None => second end.
Definition when (b : bool) (checks : option error) : option error := if b then checks else None.

Declare Scope check_scope.
Delimit Scope check_scope with check.
Infix ";;;" := also (at level 61, left associativity) : check_scope.
#[local] Open Scope check_scope.

Definition same (a b : string) : bool := bool_decide (a = b).

(** ** The configuration *)

(** [*url.URL]: the parts that are looked at. *)
Record URL := mkURL {
  Scheme : string;
  Host : string;
  HasUser : bool;
  Path : string;
  RawQuery : string;
  Fragment : string;
}.

Definition ModeBurst : string := "burst".
Definition ModeSustained : string := "sustained".
Definition RefreshAuto : string := "auto".
Definition RefreshRequired : string := "required".
Definition RefreshOff : string := "off".
Definition ErrorPolicyStop : string := "stop".
Definition ErrorPolicyContinue : string := "continue".
Definition ObjectiveJudgeCapacity : string := "judge-capacity".
Definition ObjectiveAdmissionControl : string := "admission-control".
Definition ObjectiveMassiveBurst : string := "massive-burst".
Definition ObservationFull : string := "full".
Definition ObservationAdmissionOnly : string := "admission-only".
Definition ObservationRealistic : string := "realistic".

Record Config := mkConfig {
  Mode : string;
  BaseURL : option URL;
  UsersFile : string;
  ProblemID : Z;
  ProblemSlug : string;
  Language : string;
  SourceFile : string;
  ExpectedVerdict : string;
  ResultRoot : string;
  RunID : string;
  Repetition : Z;
  Seed : Z;
  WarmupCount : Z;
  WarmupTimeout : Z;
  SubmitCooldown : Z;
  CooldownGuard : Z;
  SubmitLatencyBudget : Z;
  PoolHeadroomPercent : spec_float;
  APITimeout : Z;
  SubmissionTimeout : Z;
  DrainTimeout : Z;
  Window : Z;
  MaxSubmissions : Z;
  MaxInFlight : Z;
  UserCount : Z;
  PreflightConcurrency : Z;
  BurstStartTimeout : Z;
  ErrorPolicy : string;
  Objective : string;
  ObservationMode : string;
  AdmissionPreflightSample : Z;
  SSEHoldDuration : Z;
  SSEConnectTimeout : Z;
  SSEIdleTimeout : Z;
  SSEMaxReconnects : Z;
  SSEBackoffBase : Z;
  SSEBackoffMax : Z;
  SafetyReconcileInterval : Z;
  ReconcileMaxQPS : spec_float;
  RefreshMode : string;
  AuthValidityMargin : Z;
  AllowRemote : bool;
  ConfirmTargetHost : string;
  BurstSize : Z;
  Jitter : Z;
  ScheduleDelayP95Budget : Z;
  Rate : option Q;
  Duration : Z;
  TotalSubmissions : Z;
}.

Definition Second : Z := 1000000000.
Definition Minute : Z := 60 * Second.
Definition Millisecond : Z := 1000000.

Definition Defaults (mode : string) : Config :=
  mkConfig mode None "" 0 "" "" "" "" "bench-results" "" 1 0 0 (2 * Minute) 0 (100 * Millisecond) (500 * Millisecond)
    (RunCode.float64_of_Z 25) (5 * Second) (5 * Minute) (5 * Minute) (30 * Second) 0 100 0 256 (2 * Minute) ErrorPolicyStop
    ObjectiveJudgeCapacity ObservationFull 32 (30 * Second) (10 * Second) (45 * Second) 5 Second (10 * Second) (60 * Second)
    (RunCode.float64_of_Z 2) RefreshAuto Minute false "" 0 0 (25 * Millisecond) None 0 0.

(** [ParseRate]; [SetString] is the parser of [big.Rat]. *)
Definition ParseRate (SetString : string -> option Q) (raw : string) : error + option Q :=
  if same raw "" then inr None
  else
    match SetString raw with
    | Some r => if Qnum r <=? 0 then inl (EText "--rate must be a positive decimal") else inr (Some r)
    | None => inl (EText "--rate must be a positive decimal")
    end.

(** ** The target *)

(** [strings.EqualFold] with a text of ASCII letters: two other characters fold
    to such letters, the long s and the Kelvin sign. *)
Definition fold_char (r : bytes) : bytes :=
  match r with
  | [c] => [lower_ascii c]
  | [a; b] => if is_byte 197 a && is_byte 191 b then [ascii_of_N 115] else r
  | [a; b; c] => if is_byte 226 a && is_byte 132 b && is_byte 170 c then [ascii_of_N 107] else r
  | _ => r
  end.

Definition EqualFold (s lower : string) : bool :=
  bool_decide (map fold_char (characters (chars s)) = map (fun c => [c]) (chars lower)).

(** [URL.Hostname]: the host without a valid port and without brackets. *)
Definition last_colon (l : bytes) : option (bytes * bytes) :=
  match split_on colon l with
  | [] | [_] => None
  | parts => Some (join_with colon (removelast parts), List.last parts [])
  end.

Definition Hostname (u : URL) : string :=
  let host := chars u.(Host) in
  let host := match last_colon host with
              | Some (h, port) => if forallb is_digit port then h else host
              | None => host
              end in
  match host with
  | a :: rest =>
      if is_byte 91 a && is_byte 93 (List.last rest a) && negb (bool_decide (rest = [])) then str (removelast rest) else str host
  | [] => ""
  end.

Definition isLoopbackHost (loopback_ip : string -> bool) (host : string) : bool :=
  EqualFold host "localhost" || loopback_ip host.

(** ** The size of a run *)

Definition maxInt : Z := int64_max.

(** [ceilRat] of this package: it saturates. *)
Definition ceilRat (value : Q) : Z :=
  let quotient := BenchScheduler.ceilBigRat value in
  if negb (BenchScheduler.IsInt64 quotient) || (maxInt <? quotient) then maxInt else quotient.

Definition plus_planned (planned n : Z) : Z := if wrap64 (maxInt - planned) <? n then maxInt else wrap64 (planned + n).

Definition PlannedSubmissions (c : Config) : Z :=
  let planned := c.(WarmupCount) in
  if same c.(Mode) ModeBurst then plus_planned planned c.(BurstSize)
  else if same c.(Mode) ModeSustained then
    if 0 <? c.(TotalSubmissions) then plus_planned planned c.(TotalSubmissions)
    else
      match c.(Rate) with
      | None => planned
      | Some rate =>
          if c.(Duration) <=? 0 then planned
          else plus_planned planned (ceilRat (Qmult rate (c.(Duration) # 1000000000)))
      end
  else planned.

(** ** Validation *)

Definition validLanguage (language : string) : bool :=
  bool_decide (language ∈ ["CPP"; "GO"; "PYTHON"; "JAVA"]%string).

Definition none_of (s : string) (l : list string) : bool := negb (bool_decide (s ∈ l)).

Definition validateRequired (c : Config) : option error :=
  check (same c.(UsersFile) "" || (c.(ProblemID) <=? 0) || same c.(ProblemSlug) "" || same c.(SourceFile) "" || same c.(Language) ""
    || same c.(ExpectedVerdict) "")
    "--users-file, --problem-id, --problem-slug, --language, --source-file, and --expected-verdict are required" ;;;
  check (negb (validLanguage c.(Language))) "unsupported --language" ;;;
  check ((c.(SubmitCooldown) <=? 0) || (c.(CooldownGuard) <? 0) || (c.(SubmitLatencyBudget) <? 0))
    "cooldown values must be non-negative and --submit-cooldown must be positive" ;;;
  check ((c.(WarmupCount) <? 0) || (c.(Repetition) <=? 0) || (c.(MaxInFlight) <=? 0) || (c.(UserCount) <? 0)
    || (100000 <? c.(UserCount)) || (c.(PreflightConcurrency) <=? 0) || (512 <? c.(PreflightConcurrency))
    || SFltb c.(PoolHeadroomPercent) (RunCode.float64_of_Z 0))
    "counts and pool headroom are invalid" ;;;
  check ((c.(APITimeout) <=? 0) || (c.(SubmissionTimeout) <=? 0) || (c.(DrainTimeout) <=? 0) || (c.(Window) <=? 0)
    || (c.(WarmupTimeout) <=? 0) || (c.(BurstStartTimeout) <=? 0))
    "timeouts and --window must be positive" ;;;
  check ((c.(SSEConnectTimeout) <=? 0) || (c.(SSEIdleTimeout) <=? 0) || (c.(SSEMaxReconnects) <? 0) || (c.(SSEBackoffBase) <=? 0)
    || (c.(SSEBackoffMax) <? c.(SSEBackoffBase)))
    "SSE controls are invalid" ;;;
  check (none_of c.(RefreshMode) [RefreshAuto; RefreshRequired; RefreshOff]) "--session-refresh must be auto, required, or off" ;;;
  check (none_of c.(ErrorPolicy) [ErrorPolicyStop; ErrorPolicyContinue]) "--submit-error-policy must be stop or continue" ;;;
  check (none_of c.(Objective) [ObjectiveJudgeCapacity; ObjectiveAdmissionControl; ObjectiveMassiveBurst])
    "--benchmark-objective must be judge-capacity, admission-control, or massive-burst" ;;;
  check (none_of c.(ObservationMode) [ObservationFull; ObservationAdmissionOnly; ObservationRealistic])
    "--observation-mode must be full, realistic, or admission-only" ;;;
  check (same c.(ResultRoot) "" || has_prefix [ascii_of_N 47] (chars c.(RunID))) "result root/run ID is invalid".

Definition massive_burst_checks (c : Config) : option error :=
  check ((c.(UserCount) <=? 0) || negb (c.(UserCount) =? c.(BurstSize))) "massive burst requires --user-count equal to --burst-size" ;;;
  check (negb (c.(WarmupCount) =? 0)) "massive burst requires --warmup-count=0 to preserve one submission per user" ;;;
  check (negb (c.(Jitter) =? 0)) "massive burst requires --jitter=0 for one common release origin" ;;;
  check (negb (same c.(ErrorPolicy) ErrorPolicyContinue))
    "massive burst requires --submit-error-policy=continue so every planned logical submission is released" ;;;
  check (c.(MaxInFlight) <? c.(BurstSize)) "massive burst requires --max-in-flight at least --burst-size" ;;;
  check (negb (c.(SafetyReconcileInterval) =? 0))
    "massive burst requires --safety-reconcile-interval=0 to avoid a periodic reconciliation storm".

Definition massive_burst (c : Config) : bool := same c.(Mode) ModeBurst && same c.(Objective) ObjectiveMassiveBurst.

Definition required_qps (c : Config) : spec_float :=
  SFdiv 53 1024 (RunCode.float64_of_Z c.(MaxInFlight))
    (SFadd 53 1024 (RunCode.float64_of_Z (Z.quot c.(SafetyReconcileInterval) Second))
       (SFdiv 53 1024 (RunCode.float64_of_Z (Z.rem c.(SafetyReconcileInterval) Second)) (RunCode.float64_of_Z Second))).

Definition Validate (loopback_ip : string -> bool) (c : Config) : option error :=
  match c.(BaseURL) with
  | None => Some (EText "--base-url is required")
  | Some u =>
      check (none_of u.(Scheme) ["http"; "https"]%string) "--base-url must use http or https" ;;;
      check (same u.(Host) "" || u.(HasUser) || negb (same u.(RawQuery) "") || negb (same u.(Fragment) ""))
        "--base-url must have a host and no userinfo, query, or fragment" ;;;
      check (none_of u.(Path) [""; "/"]%string) "--base-url must not include a path" ;;;
      validateRequired c ;;;
      when (negb (isLoopbackHost loopback_ip (Hostname u)))
        (check (negb (same u.(Scheme) "https")) "non-loopback targets require https" ;;;
         check (negb c.(AllowRemote) || negb (same c.(ConfirmTargetHost) (Hostname u)))
           "non-loopback targets require --allow-remote and exact --confirm-target-host" ;;;
         check (c.(MaxSubmissions) <=? 0) "non-loopback targets require --max-submissions") ;;;
      check (c.(TotalSubmissions) <? 0) "--total-submissions must not be negative" ;;;
      when (same c.(Mode) ModeBurst)
        (check (c.(BurstSize) <=? 0) "--burst-size must be positive for burst mode" ;;;
         check (negb (c.(TotalSubmissions) =? 0)) "--total-submissions is only valid for sustained mode" ;;;
         when (same c.(Objective) ObjectiveMassiveBurst) (massive_burst_checks c)) ;;;
      when (same c.(ObservationMode) ObservationAdmissionOnly)
        (check (negb (massive_burst c)) "--observation-mode=admission-only requires burst massive-burst mode" ;;;
         check ((c.(AdmissionPreflightSample) <? 0) || (c.(UserCount) <? c.(AdmissionPreflightSample)))
           "--admission-preflight-sample must be within 0..--user-count") ;;;
      when (same c.(ObservationMode) ObservationRealistic)
        (check (negb (massive_burst c)) "--observation-mode=realistic requires burst massive-burst mode" ;;;
         check (c.(SSEHoldDuration) <=? 0) "--sse-hold-duration must be positive for realistic observation") ;;;
      when (same c.(Mode) ModeSustained)
        (check (match c.(Rate) with None => true | Some _ => false end) "sustained mode requires positive --rate" ;;;
         check (c.(Duration) <? 0) "--duration must not be negative" ;;;
         check ((0 <? c.(Duration)) && (0 <? c.(TotalSubmissions)))
           "sustained mode accepts either --duration or --total-submissions, not both" ;;;
         check ((c.(Duration) =? 0) && (c.(TotalSubmissions) =? 0)) "sustained mode requires --duration or --total-submissions") ;;;
      check (c.(MaxSubmissions) <=? 0) "--max-submissions must be positive" ;;;
      check (c.(MaxSubmissions) <? PlannedSubmissions c)
        ("planned submissions " +:+ Itoa (PlannedSubmissions c) +:+ " exceed --max-submissions " +:+ Itoa c.(MaxSubmissions)) ;;;
      when (0 <? c.(SafetyReconcileInterval))
        (check (SFleb c.(ReconcileMaxQPS) (RunCode.float64_of_Z 0))
           "--reconcile-max-qps must be positive when safety reconciliation is enabled" ;;;
         check (SFltb c.(ReconcileMaxQPS) (required_qps c)) "reconciliation capacity cannot cover max-in-flight")
  end.

(** ** Sessions (credentials.go) *)

Definition SchemaVersion : Z := 1.
Definition MaxCanonicalSequence : Z := 100000.

Record SessionUser := mkSession { Alias : string; AccessToken : string; RefreshToken : string }.
Record File := mkFile { FileVersion : Z; Users : list SessionUser }.

(** [^[A-Za-z0-9._-]{1,64}$] *)
Definition alias_char (c : ascii) : bool :=
  within 65 90 c || within 97 122 c || is_digit c || is_byte 46 c || is_byte 95 c || is_byte 45 c.
Definition valid_alias (alias : string) : bool :=
  (1 <=? len alias) && (len alias <=? 64) && forallb alias_char (chars alias).

Fixpoint validate_users (users : list SessionUser) (aliases tokens : gset string) : option error :=
  match users with
  | [] => None
  | user :: rest =>
      check (negb (valid_alias user.(Alias))) "invalid benchmark alias" ;;;
      check (same user.(AccessToken) "") "user has no access_token" ;;;
      check (bool_decide (user.(Alias) ∈ aliases)) "duplicate benchmark alias" ;;;
      check (bool_decide (user.(AccessToken) ∈ tokens)) "duplicate access_token in credential file" ;;;
      validate_users rest ({[user.(Alias)]} ∪ aliases) ({[user.(AccessToken)]} ∪ tokens)
  end.

(** [credentials.Validate] *)
Definition ValidateFile (file : File) : option error :=
  check (negb (file.(FileVersion) =? SchemaVersion)) ("unsupported credential schema_version " +:+ Itoa file.(FileVersion)) ;;;
  check (match file.(Users) with [] => true | _ => false end) "credential file contains no users" ;;;
  validate_users file.(Users) ∅ ∅.

(** [fmt.Sprintf("bench-%03d", sequence)] *)
Definition canonical_alias (sequence : Z) : string := "bench-" +:+ str (pad 3 sequence).

(** [^bench-([0-9]+)$] *)
Definition canonical_digits (alias : string) : option bytes :=
  let prefix := chars "bench-" in
  let rest := drop (length prefix) (chars alias) in
  if has_prefix prefix (chars alias) && negb (bool_decide (rest = [])) && forallb is_digit rest then Some rest else None.

Definition canonical_sequence (user : SessionUser) : option Z :=
  match canonical_digits user.(Alias) with
  | None => None
  | Some digits =>
      match ParseInt (str digits) with
      | None => None
      | Some sequence =>
          if (sequence <? 1) || (MaxCanonicalSequence <? sequence) || negb (same user.(Alias) (canonical_alias sequence)) then None
          else Some sequence
      end
  end.

Fixpoint by_sequence (users : list SessionUser) (m : gmap Z SessionUser) : error + gmap Z SessionUser :=
  match users with
  | [] => inr m
  | user :: rest =>
      match canonical_sequence user with
      | None => inl (EText "benchmark session alias is not canonical")
      | Some sequence =>
          match m !! sequence with
          | Some _ => inl (EText "duplicate canonical benchmark alias")
          | None => by_sequence rest (<[sequence := user]> m)
          end
      end
  end.

Fixpoint select_range (m : gmap Z SessionUser) (sequences : list Z) : error + list SessionUser :=
  match sequences with
  | [] => inr []
  | sequence :: rest =>
      match m !! sequence with
      | None => inl (EText ("canonical benchmark session " +:+ canonical_alias sequence +:+ " is missing"))
      | Some user =>
          match select_range m rest with inl err => inl err | inr selected => inr (user :: selected) end
      end
  end.

Definition SelectCanonical (file : File) (count : Z) : error + File :=
  match ValidateFile file with
  | Some err => inl err
  | None =>
      if (count <? 1) || (MaxCanonicalSequence <? count)
      then inl (EText "canonical benchmark user count must be within 1..100000")
      else
        match by_sequence file.(Users) ∅ with
        | inl err => inl err
        | inr m =>
            match select_range m (seqZ 1 count) with
            | inl err => inl err
            | inr selected => inr (mkFile SchemaVersion selected)
            end
        end
  end.

(** ** Facts: checks *)

Lemma also_None a b : (a ;;; b) = None <-> a = None /\ b = None.
Proof. unfold also. destruct a; naive_solver. Qed.

Lemma check_None b text : check b text = None <-> b = false.
Proof. unfold check. destruct b; naive_solver. Qed.

Lemma when_None b checks : when b checks = None <-> (b = true -> checks = None).
Proof. unfold when. destruct b; naive_solver. Qed.

Lemma same_true a b : same a b = true <-> a = b.
Proof. apply bool_decide_eq_true. Qed.

(** Taking a passed validation apart. *)
Ltac passed :=
  repeat match goal with
  | H : (_ ;;; _) = None |- _ => rewrite also_None in H; destruct H
  | H : check _ _ = None |- _ => rewrite check_None in H
  | H : when _ _ = None |- _ => rewrite when_None in H
  end.

(** ** Facts: the size of a run *)

(** How many posts the runner makes at most: the warm-up, and the burst or the
    arrivals of the load. *)
Definition planned_posts (c : Config) : Z :=
  c.(WarmupCount) +
  (if same c.(Mode) ModeBurst then c.(BurstSize)
   else if same c.(Mode) ModeSustained then
     if 0 <? c.(TotalSubmissions) then c.(TotalSubmissions)
     else match BenchScheduler.ArrivalCount c.(Rate) c.(Duration) with inr n => n | inl _ => 0 end
   else 0).

Record int_fields (c : Config) : Prop := {
  if_warmup : in_int64 c.(WarmupCount);
  if_burst : in_int64 c.(BurstSize);
  if_total : in_int64 c.(TotalSubmissions);
  if_max : c.(MaxSubmissions) < int64_max;
  if_rate : forall r, c.(Rate) = Some r -> 0 < Qnum r;
}.

Lemma plus_planned_bound planned n limit : 0 <= planned <= int64_max -> 0 <= n <= int64_max -> limit < int64_max ->
  plus_planned planned n <= limit -> planned + n <= limit.
Proof.
  intros Hp Hn Hl. unfold plus_planned, maxInt. rewrite wrap64_id by (unfold in_int64, int64_min, int64_max in *; lia).
  destruct (Z.ltb_spec (int64_max - planned) n); [lia|]. rewrite wrap64_id by (unfold in_int64, int64_min, int64_max in *; lia). lia.
Qed.

Lemma PlannedSubmissions_bound c : int_fields c -> 0 <= c.(WarmupCount) ->
  (c.(Mode) = ModeBurst -> 0 < c.(BurstSize)) -> 0 <= c.(TotalSubmissions) ->
  PlannedSubmissions c <= c.(MaxSubmissions) -> planned_posts c <= c.(MaxSubmissions).
Proof.
  intros [F1 F2 F3 F4 F5] HW HB HT H. unfold PlannedSubmissions, planned_posts in *. unfold in_int64 in *.
  destruct (same (Mode c) ModeBurst) eqn:E1.
  { apply same_true in E1. specialize (HB E1). apply plus_planned_bound; try done; lia. }
  destruct (same (Mode c) ModeSustained); [|lia].
  destruct (Z.ltb_spec 0 (TotalSubmissions c)); [apply plus_planned_bound; try done; lia|].
  destruct (Rate c) as [r|]; [|cbn; lia]. pose proof (F5 r eq_refl) as Hr. unfold BenchScheduler.ArrivalCount, BenchScheduler.positive_rate.
  rewrite (proj2 (Z.ltb_lt 0 (Qnum r)) Hr). destruct (Z.leb_spec (Duration c) 0); [lia|].
  set (v := BenchScheduler.ceilBigRat _) in *. destruct (BenchScheduler.IsInt64 v) eqn:EV; cbn [negb]; [|].
  - unfold ceilRat in H. fold v in H. rewrite EV in H. cbn [negb orb] in H. unfold BenchScheduler.IsInt64 in EV. bools.
    assert (0 <= v) by (unfold v, Qmult; apply Z.lt_le_incl, BenchScheduler.ceil_spec; cbn; nia).
    rewrite (proj2 (Z.ltb_ge maxInt v)) in H by (unfold maxInt; lia). apply plus_planned_bound; try done; lia.
  - unfold ceilRat in H. fold v in H. rewrite EV in H. cbn [negb orb] in H. unfold plus_planned, maxInt in H.
    rewrite wrap64_id in H by (unfold in_int64, int64_min, int64_max in *; lia).
    destruct (Z.ltb_spec (int64_max - WarmupCount c) int64_max); [lia|].
    rewrite wrap64_id in H by (unfold in_int64, int64_min, int64_max in *; lia). lia.
Qed.

(** Following the conditions of the nested checks. *)
Ltac follow :=
  repeat match goal with
  | H : same ?a ?b = true -> _, H' : ?a = ?b |- _ => specialize (H (proj2 (same_true a b) H')); passed
  | H : negb ?b = true -> _, H' : ?b = false |- _ => specialize (H (proj2 (negb_true_iff b) H')); passed
  end; bools;
  repeat match goal with H : same _ _ = true |- _ => apply same_true in H end.

Lemma validateRequired_inv c : validateRequired c = None ->
  0 <= c.(WarmupCount) /\ c.(ObservationMode) ∈ [ObservationFull; ObservationAdmissionOnly; ObservationRealistic].
Proof.
  unfold validateRequired, none_of. intros H. passed.
  repeat match goal with H : _ = false |- _ => apply orb_false_iff in H; destruct H end. bools. split; [lia|done].
Qed.

Lemma massive_checks_inv c : massive_burst_checks c = None ->
  c.(UserCount) = c.(BurstSize) /\ c.(WarmupCount) = 0 /\ c.(Jitter) = 0 /\ c.(BurstSize) <= c.(MaxInFlight).
Proof. unfold massive_burst_checks. intros H. passed. bools. done. Qed.

Lemma Validate_inv loopback_ip c : Validate loopback_ip c = None -> exists u, c.(BaseURL) = Some u
  /\ validateRequired c = None
  /\ (isLoopbackHost loopback_ip (Hostname u) = false ->
      u.(Scheme) = "https"%string /\ c.(AllowRemote) = true /\ c.(ConfirmTargetHost) = Hostname u)
  /\ 0 <= c.(TotalSubmissions)
  /\ (c.(Mode) = ModeBurst -> 0 < c.(BurstSize))
  /\ (c.(Mode) = ModeBurst -> c.(Objective) = ObjectiveMassiveBurst -> massive_burst_checks c = None)
  /\ (c.(ObservationMode) = ObservationAdmissionOnly -> massive_burst c = true)
  /\ (c.(ObservationMode) = ObservationRealistic -> massive_burst c = true)
  /\ 0 < c.(MaxSubmissions) /\ PlannedSubmissions c <= c.(MaxSubmissions).
Proof.
  unfold Validate. intros H. destruct (BaseURL c) as [u|]; [|done]. exists u. passed.
  split_and!; intros; follow; done.
Qed.

(** A configuration that passes validation is safe to run: no more posts are
    planned than the cap allows; another machine is addressed only over https,
    with the operator's consent to exactly that host; a massive burst has one
    post per user, all at once; observing less than everything is for massive
    bursts only. *)
Theorem validated_run_is_safe loopback_ip c : int_fields c -> Validate loopback_ip c = None ->
  0 < c.(MaxSubmissions) /\ planned_posts c <= c.(MaxSubmissions)
  /\ (exists u, c.(BaseURL) = Some u
      /\ (isLoopbackHost loopback_ip (Hostname u) = false ->
          u.(Scheme) = "https"%string /\ c.(AllowRemote) = true /\ c.(ConfirmTargetHost) = Hostname u))
  /\ (c.(Mode) = ModeBurst -> c.(Objective) = ObjectiveMassiveBurst ->
      c.(UserCount) = c.(BurstSize) /\ planned_posts c = c.(UserCount) /\ c.(Jitter) = 0 /\ c.(BurstSize) <= c.(MaxInFlight))
  /\ (c.(ObservationMode) <> ObservationFull -> c.(Mode) = ModeBurst /\ c.(Objective) = ObjectiveMassiveBurst).
Proof.
  intros HI H. destruct (Validate_inv _ _ H) as (u & H1 & HR & H2 & H3 & H4 & H5 & H6 & H7 & H8 & H9).
  destruct (validateRequired_inv c HR) as [R1 R2]. split_and!; [done|by apply PlannedSubmissions_bound|by exists u|..].
  - intros EM EO. destruct (massive_checks_inv c (H5 EM EO)) as (M1 & M2 & M3 & M4). split_and!; try done.
    unfold planned_posts. rewrite (proj2 (same_true _ _) EM). lia.
  - intros HN. assert (massive_burst c = true) as HM.
    { apply elem_of_cons in R2 as [?|R2]; [done|]. apply elem_of_cons in R2 as [R2|R2%list_elem_of_singleton]; [by apply H6|by apply H7]. }
    unfold massive_burst in HM. bools. by rewrite <- !same_true.
Qed.

(** ** Facts: canonical sessions *)

Lemma by_sequence_spec users m0 m : by_sequence users m0 = inr m ->
  (forall k u, m !! k = Some u -> m0 !! k = Some u \/ u ∈ users /\ u.(Alias) = canonical_alias k).
Proof.
  revert m0. induction users as [|user rest IH]; intros m0 H k u Hk; cbn in H; [injection H as <-; by left|].
  destruct (canonical_sequence user) as [s|] eqn:ES; [|done]. destruct (m0 !! s) eqn:E0; [done|].
  destruct (IH _ H k u Hk) as [[[<- <-]|[_ ?]]%lookup_insert_Some|[? ?]]; [|by left|right; split; [by right|done]].
  right. split; [by left|]. unfold canonical_sequence in ES. destruct (canonical_digits _); [|done]. destruct (ParseInt _) as [z|]; [|done].
  destruct (_ || _) eqn:E; [done|]. injection ES as ->. bools. by apply same_true.
Qed.

Lemma select_range_spec m sequences selected : select_range m sequences = inr selected ->
  Forall2 (fun s u => m !! s = Some u) sequences selected.
Proof.
  revert selected. induction sequences as [|s rest IH]; intros selected H; cbn in H; [injection H as <-; constructor|].
  destruct (m !! s) as [u|] eqn:E; [|done]. destruct (select_range m rest) as [e|sel] eqn:ER; [done|]. injection H as <-.
  constructor; [done|by apply IH].
Qed.

Lemma validate_users_spec users aliases tokens : validate_users users aliases tokens = None ->
  NoDup (map AccessToken users) /\ (forall u, u ∈ users -> u.(AccessToken) <> ""%string /\ u.(AccessToken) ∉ tokens).
Proof.
  revert aliases tokens. induction users as [|u rest IH]; intros aliases tokens H; [split; [constructor|set_solver]|].
  cbn [validate_users] in H. passed. bools. destruct (IH _ _ ltac:(done)) as [I1 I2]. split.
  - cbn. constructor; [|done]. intros (u' & E & Hu)%list_elem_of_fmap. destruct (I2 u' Hu) as [_ I3]. set_solver.
  - intros u' [->|Hu]%elem_of_cons.
    + split; [|done]. intros E. apply (proj2 (same_true _ _)) in E. congruence.
    + destruct (I2 u' Hu) as [I3 I4]. split; [done|set_solver].
Qed.

(** The selection for a massive burst: exactly the sessions 1 to [count], in
    order, each with a token of its own. *)
Lemma SelectCanonical_spec file count file' : SelectCanonical file count = inr file' ->
  Forall2 (fun s u => u ∈ file.(Users) /\ u.(Alias) = canonical_alias s /\ u.(AccessToken) <> ""%string) (seqZ 1 count) file'.(Users)
  /\ NoDup (map AccessToken file.(Users)).
Proof.
  unfold SelectCanonical, ValidateFile. destruct (_ ;;; _) as [e|] eqn:EV; [done|]. passed.
  destruct (_ || _); [done|]. destruct (by_sequence _ _) as [e|m] eqn:EB; [done|]. destruct (select_range _ _) as [e|sel] eqn:ES; [done|].
  intros [= <-]. destruct (validate_users_spec _ _ _ ltac:(done)) as [V1 V2]. split; [|done].
  apply select_range_spec in ES. eapply Forall2_impl; [exact ES|]. intros s u Hu. cbn in Hu.
  destruct (by_sequence_spec _ _ _ EB s u Hu) as [Hn|[U1 U2]]; [by apply lookup_empty_Some in Hn|]. split_and!; [done|done|by apply V2].
Qed.

(** ** Witness *)

Definition demo_config : Config :=
  mkConfig ModeSustained (Some (mkURL "http" "localhost:8080" false "" "" "")) "users.json" 1 "sum" "CPP" "sum.cpp" "ACCEPTED"
    "bench-results" "" 1 7 2 (2 * Minute) (10 * Second) (100 * Millisecond) (500 * Millisecond)
    (RunCode.float64_of_Z 25) (5 * Second) (5 * Minute) (5 * Minute) (30 * Second) 1000 100 0 256 (2 * Minute) ErrorPolicyStop
    ObjectiveJudgeCapacity ObservationFull 32 (30 * Second) (10 * Second) (45 * Second) 5 Second (10 * Second) (60 * Second)
    (RunCode.float64_of_Z 2) RefreshAuto Minute false "" 0 0 (25 * Millisecond) (Some (3 # 2)) Minute 0.

Lemma validated_run_is_safe_witness : Validate (fun _ => false) demo_config = None /\ planned_posts demo_config = 92
  /\ 0 < demo_config.(MaxSubmissions) /\ planned_posts demo_config <= demo_config.(MaxSubmissions).
Proof.
  assert (Validate (fun _ => false) demo_config = None) as HV by (vm_compute; reflexivity).
  assert (int_fields demo_config) as HI.
  { constructor; [split; vm_compute; discriminate..|vm_compute; reflexivity|]. intros r Hr. injection Hr as <-. reflexivity. }
  split; [exact HV|]. split; [vm_compute; reflexivity|].
  destruct (validated_run_is_safe (fun _ => false) demo_config HI HV) as (H1 & H2 & _). split; [exact H1|exact H2].
Defined.
