(* ===== verification/BenchStats.v ===== *)
(** The statistics of the judge benchmark:
    tools/benchmark/judge/internal/stats/stats.go with the records of
    internal/model/model.go: distributions with nearest-rank percentiles, the
    ledger of accepted and completed submissions, the windows of a run and its
    classification.

    Instants are nanoseconds, [float64] is [spec_float], a pointer an [option]. *)

From Stdlib Require Import SpecFloat.
From S2P Require Import Prelude GoString.
From S2P Require RunCode BenchScheduler.

(** ** Floats *)

Definition f64 (z : Z) : spec_float := RunCode.float64_of_Z z.
Definition fdiv : spec_float -> spec_float -> spec_float := SFdiv 53 1024.
Definition fmul : spec_float -> spec_float -> spec_float := SFmul 53 1024.
Definition fadd : spec_float -> spec_float -> spec_float := SFadd 53 1024.
Definition fsub : spec_float -> spec_float -> spec_float := SFsub 53 1024.

(** The literal [n / 100]: a quotient of integers is rounded as a literal is. *)
Definition hundredths (n : Z) : spec_float := fdiv (f64 n) (f64 100).

(** [sort.Float64s]: NaN comes first. *)
Definition float_le (a b : spec_float) : Prop := SFleb a b = true \/ SFeqb a a = false.
#[export] Instance float_le_dec a b : Decision (float_le a b).
Proof. unfold float_le. apply _. Defined.

(** ** Distributions *)

Record Distribution := mkDistribution {
  Count : Z;
  Min : option spec_float;
  Mean : option spec_float;
  Std : option spec_float;
  CV : option spec_float;
  P50 : option spec_float;
  P90 : option spec_float;
  P95 : option spec_float;
  P99 : option spec_float;
  Max : option spec_float;
}.

Definition no_distribution : Distribution := mkDistribution 0 None None None None None None None None None.

(** The index of the nearest rank; the conversion of a float that is no int64
    does not arise below 2^53 values. *)
Definition rank (n : Z) (p : spec_float) : Z :=
  let index := BenchScheduler.int_of_ceil 0 (fmul p (f64 n)) - 1 in
  let index := if index <? 0 then 0 else index in
  if n <=? index then n - 1 else index.

Definition percentile (sorted : list spec_float) (p : spec_float) : option spec_float :=
  match sorted with [] => None | _ => sorted !! Z.to_nat (rank (Z.of_nat (length sorted)) p) end.

Definition distribution (values : list spec_float) : Distribution :=
  match values with
  | [] => no_distribution
  | _ =>
      let sorted := merge_sort float_le values in
      let n := f64 (Z.of_nat (length sorted)) in
      let sum := foldl fadd (f64 0) sorted in
      let mean := fdiv sum n in
      let variance := foldl (fun acc value => let delta := fsub value mean in fadd acc (fmul delta delta)) (f64 0) sorted in
      let std := SFsqrt 53 1024 (fdiv variance n) in
      let cv := if SFeqb mean (f64 0) then None else Some (fdiv std mean) in
      mkDistribution (Z.of_nat (length sorted)) (head sorted) (Some mean) (Some std) cv
        (percentile sorted (hundredths 50)) (percentile sorted (hundredths 90)) (percentile sorted (hundredths 95))
        (percentile sorted (hundredths 99)) (last sorted)
  end.

(** ** Records *)

Inductive Outcome :=
| OutcomeTerminal | OutcomeAccepted | OutcomeRejected429 | OutcomeRejected4xx | OutcomeServerError | OutcomeAmbiguousPost
| OutcomeAuthFailure | OutcomeUserExhausted | OutcomeLocalFailure | OutcomeCompletionTimeout | OutcomeObserverFailure
| OutcomeCancelled.
#[export] Instance Outcome_eq_dec : EqDecision Outcome.
Proof. solve_decision. Defined.

Inductive Phase := PhaseWarmup | PhaseLoad | PhaseDrain.
#[export] Instance Phase_eq_dec : EqDecision Phase.
Proof. solve_decision. Defined.

(** The fields of [SubmissionRecord] that the statistics and the summary read. *)
Record SubmissionRecord := mkRecord {
  RecPhase : Phase;
  IntendedAt : option Z;
  PostStartedAt : option Z;
  PostCompletedAt : option Z;
  ScheduleDelayMS : option spec_float;
  SubmitLatencyMS : option spec_float;
  RecAttempted : bool;
  RecAccepted : bool;
  SubmissionID : option Z;
  TerminalStatus : string;
  TerminalObservedAt : option Z;
  EndToEndLatencyMS : option spec_float;
  ObserverStartedAt : option Z;
  ObserverEndedAt : option Z;
  RecRateLimited : bool;
  RecOutcome : Outcome;
  CompletionSource : string;
  GETReconciliations : Z;
  SSEFailures : Z;
  TicketStartedAt : option Z;
  TicketLatencyMS : option spec_float;
  TicketAttempted : bool;
  TicketSucceeded : bool;
  SSEStartedAt : option Z;
  SSEEstablishedAt : option Z;
  SSEEstablishLatencyMS : option spec_float;
  SSEAttempted : bool;
  SSEEstablished : bool;
  SSECloseReason : string;
  SSETerminalDuringHold : bool;
  SSESurvivedFullHold : bool;
}.

(** The run id, the phase and the copies of the times in milliseconds are left out. *)
Record WindowRecord := mkWindow {
  WindowIndex : Z;
  WindowStart : Z;
  WindowEnd : Z;
  Intended : Z;
  Attempted : Z;
  Accepted : Z;
  Completed : Z;
  IntendedCumulative : Z;
  AttemptedCumulative : Z;
  AcceptedCumulative : Z;
  CompletedCumulative : Z;
  ClientOutstandingStart : Z;
  ClientOutstanding : Z;
  ClientOutstandingPeak : Z;
  TargetRatePerSecond : option spec_float;
  AttemptedRatePerSecond : spec_float;
  AcceptedRatePerSecond : spec_float;
  CompletionRatePerSecond : spec_float;
  ScheduleDelay : Distribution;
  SubmitLatency : Distribution;
  E2ELatency : Distribution;
  RateLimited : Z;
  Other4xx : Z;
  ServerErrors : Z;
  TransportFailures : Z;
  CompletionTimeouts : Z;
  ActiveObserversEnd : Z;
  PeakInFlight : Z;
}.

(** ** The ledger *)

Record Ledger := mkLedger { ledger_accepted : gset Z; ledger_terminal : gset Z }.

Definition NewLedger : Ledger := mkLedger ∅ ∅.

Definition Accept (l : Ledger) (id : Z) : bool * Ledger :=
  if id <=? 0 then (false, l)
  else if bool_decide (id ∈ l.(ledger_accepted)) then (false, l)
  else (true, mkLedger ({[id]} ∪ l.(ledger_accepted)) l.(ledger_terminal)).

Definition Complete (l : Ledger) (id : Z) : bool * Ledger :=
  if negb (bool_decide (id ∈ l.(ledger_accepted))) then (false, l)
  else if bool_decide (id ∈ l.(ledger_terminal)) then (false, l)
  else (true, mkLedger l.(ledger_accepted) ({[id]} ∪ l.(ledger_terminal))).

Definition Outstanding (l : Ledger) : Z := Z.of_nat (size l.(ledger_accepted)) - Z.of_nat (size l.(ledger_terminal)).

Record ledgerEvent := mkEvent { ev_at : Z; ev_accepted : bool; ev_id : Z }.

(** The order of [sort.SliceStable]: not "b less a". *)
Definition event_le (a b : ledgerEvent) : Prop :=
  a.(ev_at) < b.(ev_at) \/ a.(ev_at) = b.(ev_at) /\ (a.(ev_accepted) = true \/ b.(ev_accepted) = false).
#[export] Instance event_le_dec a b : Decision (event_le a b).
Proof. unfold event_le. apply _. Defined.

Fixpoint apply_events (l : Ledger) (events : list ledgerEvent) (peak : Z) : Ledger * Z :=
  match events with
  | [] => (l, peak)
  | e :: rest =>
      let l := if e.(ev_accepted) then (Accept l e.(ev_id)).2 else (Complete l e.(ev_id)).2 in
      apply_events l rest (if peak <? Outstanding l then Outstanding l else peak)
  end.

(** [merge_sort] keeps the order of equal elements, as [sort.SliceStable] does. *)
Definition applyLedgerEvents (l : Ledger) (events : list ledgerEvent) (peak : Z) : Ledger * Z :=
  apply_events l (merge_sort event_le events) peak.

(** ** Windows *)

Definition inWindow (value : option Z) (start end_ : Z) : bool :=
  match value with None => false | Some t => (start <=? t) && (t <? end_) end.

Definition before (value : option Z) (t : Z) : bool := match value with None => false | Some v => v <? t end.

Definition in_phase (filter : option Phase) (r : SubmissionRecord) : bool :=
  match filter with None => true | Some phase => bool_decide (r.(RecPhase) = phase) end.

Record WindowInput := mkInput {
  FilterPhase : option Phase;
  Start : Z;
  End : Z;
  Window : Z;
  TargetRate : option spec_float;
  Records : list SubmissionRecord;
  InPeakInFlight : Z;
}.

Definition count {A} (p : A -> bool) (l : list A) : Z := Z.of_nat (length (List.filter p l)).

(** The phase filter of both loops. *)
Definition selected_records (input : WindowInput) : list SubmissionRecord :=
  List.filter (in_phase input.(FilterPhase)) input.(Records).

Definition accept_event (r : SubmissionRecord) : list ledgerEvent :=
  match r.(PostCompletedAt), r.(SubmissionID) with Some t, Some id => [mkEvent t true id] | _, _ => [] end.
Definition terminal_event (r : SubmissionRecord) : list ledgerEvent :=
  match r.(TerminalObservedAt), r.(SubmissionID) with Some t, Some id => [mkEvent t false id] | _, _ => [] end.

Definition prior_events (records : list SubmissionRecord) (start : Z) : list ledgerEvent :=
  flat_map (fun r =>
    (if r.(RecAccepted) && before r.(PostCompletedAt) start then accept_event r else []) ++
    (if before r.(TerminalObservedAt) start then terminal_event r else [])) records.

Definition accepted_in (s e : Z) (r : SubmissionRecord) : bool := inWindow r.(PostCompletedAt) s e && r.(RecAccepted).
Definition completed_in (s e : Z) (r : SubmissionRecord) : bool :=
  inWindow r.(TerminalObservedAt) s e && negb (bool_decide (r.(TerminalStatus) = ""%string)).

Definition window_events (records : list SubmissionRecord) (s e : Z) : list ledgerEvent :=
  flat_map (fun r =>
    (if accepted_in s e r then accept_event r else []) ++ (if completed_in s e r then terminal_event r else [])) records.

Definition collect (f : SubmissionRecord -> option spec_float) (records : list SubmissionRecord) : list spec_float :=
  omap f records.

Definition activeObserversAt (records : list SubmissionRecord) (filter : option Phase) (at_ : Z) : Z :=
  count (fun r => in_phase filter r
    && match r.(ObserverStartedAt) with None => false | Some t => t <=? at_ end
    && match r.(ObserverEndedAt) with None => true | Some t => at_ <? t end) records.

(** [d.Seconds()]: whole seconds plus the fraction. *)
Definition Seconds (d : Z) : spec_float :=
  fadd (f64 (Z.quot d 1000000000)) (fdiv (f64 (Z.rem d 1000000000)) (f64 1000000000)).

Definition cumulative : Type := Z * Z * Z * Z.

Definition one_window (input : WindowInput) (index s e : Z) (l : Ledger) (cum : cumulative) : WindowRecord * Ledger * cumulative :=
  let records := selected_records input in
  let '(ci, ca, cc, cd) := cum in
  let attempted := List.filter (fun r => inWindow r.(PostStartedAt) s e) records in
  let accepted := List.filter (accepted_in s e) records in
  let completed := List.filter (completed_in s e) records in
  let intended := count (fun r => inWindow r.(IntendedAt) s e) records in
  let n {A} (x : list A) := Z.of_nat (length x) in
  let posted (p : SubmissionRecord -> bool) := count (fun r => inWindow r.(PostCompletedAt) s e && p r) records in
  let outcome o r := bool_decide (r.(RecOutcome) = o) in
  let '(l', peak) := applyLedgerEvents l (window_events records s e) (Outstanding l) in
  let cum := (ci + intended, ca + n attempted, cc + n accepted, cd + n completed) in
  let seconds := Seconds (e - s) in
  let rate k := fdiv (f64 k) seconds in
  (mkWindow index s e intended (n attempted) (n accepted) (n completed)
     (ci + intended) (ca + n attempted) (cc + n accepted) (cd + n completed)
     (Outstanding l) (Outstanding l') peak input.(TargetRate)
     (rate (n attempted)) (rate (n accepted)) (rate (n completed))
     (distribution (collect ScheduleDelayMS attempted)) (distribution (collect SubmitLatencyMS accepted))
     (distribution (collect EndToEndLatencyMS completed))
     (posted RecRateLimited) (posted (outcome OutcomeRejected4xx)) (posted (outcome OutcomeServerError))
     (posted (outcome OutcomeAmbiguousPost))
     (count (fun r => inWindow r.(TerminalObservedAt) s e && outcome OutcomeCompletionTimeout r) records)
     (activeObserversAt input.(Records) input.(FilterPhase) e) input.(InPeakInFlight), l', cum).

(** The loop over the windows; [fuel] bounds how many are left. *)
Fixpoint windows_loop (fuel : nat) (input : WindowInput) (index s : Z) (l : Ledger) (cum : cumulative) : list WindowRecord :=
  match fuel with
  | O => []
  | S fuel =>
      if s <? input.(End) then
        let e := Z.min (s + input.(Window)) input.(End) in
        let '(w, l, cum) := one_window input index s e l cum in
        w :: windows_loop fuel input (index + 1) (s + input.(Window)) l cum
      else []
  end.

(** Each window takes [Window > 0] off the rest, so the rest bounds their number. *)
Definition windows_fuel (input : WindowInput) : nat := S (Z.to_nat ((input.(End) - input.(Start)) / input.(Window))).

Definition BuildWindows (input : WindowInput) : list WindowRecord :=
  if (input.(Window) <=? 0) || (input.(End) <=? input.(Start)) then []
  else
    let '(l, _) := applyLedgerEvents NewLedger (prior_events (selected_records input) input.(Start)) 0 in
    windows_loop (windows_fuel input) input 0 input.(Start) l (0, 0, 0, 0).

(** ** Facts: percentiles *)

Lemma rank_range n p : 0 < n -> 0 <= rank n p < n.
Proof. intros Hn. unfold rank. cbn zeta. repeat case_match; bools; lia. Qed.

(** A percentile is one of the values. *)
Lemma percentile_elem l p : l <> [] -> exists v, percentile l p = Some v /\ v ∈ l.
Proof.
  intros Hl. unfold percentile. destruct l as [|x l]; [done|].
  destruct (lookup_lt_is_Some_2 (x :: l) (Z.to_nat (rank (Z.of_nat (length (x :: l))) p))) as [v Hv].
  { pose proof (rank_range (Z.of_nat (length (x :: l))) p ltac:(cbn; lia)). lia. }
  exists v. split; [done|]. by eapply list_elem_of_lookup_2.
Qed.

(** Up to a thousand values the rank computed with floats is the exact one. *)
Lemma rank_exact n k : 1 <= n <= 1000 -> k ∈ [50; 90; 95; 99] -> rank n (hundredths k) = (k * n + 99) / 100 - 1.
Proof.
  intros Hn Hk.
  assert (forallb (fun n => forallb (fun k => rank n (hundredths k) =? (k * n + 99) / 100 - 1) [50; 90; 95; 99]) (seqZ 1 1000) = true) as H
    by (vm_compute; reflexivity).
  rewrite forallb_forall in H. specialize (H n). rewrite forallb_forall in H. apply Z.eqb_eq, H; apply list_elem_of_In; [|done].
  apply elem_of_seqZ. lia.
Qed.

(** ** Facts: counting *)

Lemma count_cons {A} (p : A -> bool) x l : count p (x :: l) = Z.b2z (p x) + count p l.
Proof. unfold count. cbn. destruct (p x); cbn [length Z.b2z]; lia. Qed.

Lemma count_add {A} (p q r : A -> bool) l : (forall x, x ∈ l -> Z.b2z (p x) + Z.b2z (q x) = Z.b2z (r x)) -> count p l + count q l = count r l.
Proof.
  induction l as [|x l IH]; intros H; [done|]. rewrite !count_cons. pose proof (H x ltac:(by left)). rewrite <- IH; [lia|].
  intros y Hy. apply H. by right.
Qed.

Lemma count_ext {A} (p q : A -> bool) l : (forall x, x ∈ l -> p x = q x) -> count p l = count q l.
Proof.
  induction l as [|x l IH]; intros H; [done|]. rewrite !count_cons, (H x) by (by left). rewrite IH; [done|].
  intros y Hy. apply H. by right.
Qed.

Lemma inWindow_split v s m e : s <= m <= e -> Z.b2z (inWindow v s m) + Z.b2z (inWindow v m e) = Z.b2z (inWindow v s e).
Proof.
  intros H. unfold inWindow. destruct v as [t|]; [|done].
  destruct (Z.leb_spec s t), (Z.ltb_spec t m), (Z.leb_spec m t), (Z.ltb_spec t e); cbn; lia.
Qed.

(** ** Facts: the ledger *)

Definition ids (p : SubmissionRecord -> bool) (records : list SubmissionRecord) : list Z := omap SubmissionID (List.filter p records).

Definition accepted_before (t : Z) (r : SubmissionRecord) : bool := r.(RecAccepted) && before r.(PostCompletedAt) t.
Definition terminal_before (t : Z) (r : SubmissionRecord) : bool := before r.(TerminalObservedAt) t.

(** The ledger one expects at an instant. *)
Definition ledger_at (records : list SubmissionRecord) (t : Z) : Ledger :=
  mkLedger (list_to_set (ids (accepted_before t) records)) (list_to_set (ids (terminal_before t) records)).

(** What the runner records: an accepted post has an id of its own and an end; a
    terminal status was observed after the post was accepted. *)
Record consistent (records : list SubmissionRecord) : Prop := {
  co_accepted : forall r, r ∈ records -> r.(RecAccepted) = true ->
    exists id t, r.(SubmissionID) = Some id /\ 0 < id /\ r.(PostCompletedAt) = Some t;
  co_terminal : forall r t, r ∈ records -> r.(TerminalObservedAt) = Some t ->
    r.(RecAccepted) = true /\ r.(TerminalStatus) <> ""%string /\ exists t0, r.(PostCompletedAt) = Some t0 /\ t0 <= t;
  co_distinct : NoDup (ids RecAccepted records);
}.

Lemma elem_of_ids p records id : id ∈ ids p records <-> exists r, r ∈ records /\ p r = true /\ r.(SubmissionID) = Some id.
Proof.
  unfold ids. rewrite list_elem_of_omap. setoid_rewrite list_elem_of_In. setoid_rewrite filter_In. naive_solver.
Qed.

Lemma accept_eq l id : 0 < id -> (Accept l id).2 = mkLedger ({[id]} ∪ l.(ledger_accepted)) l.(ledger_terminal).
Proof.
  intros H. unfold Accept. destruct (Z.leb_spec id 0); [lia|]. case_bool_decide as E; [|done]. destruct l; cbn in *. f_equal. set_solver.
Qed.

Lemma complete_eq l id : id ∈ l.(ledger_accepted) -> (Complete l id).2 = mkLedger l.(ledger_accepted) ({[id]} ∪ l.(ledger_terminal)).
Proof.
  intros H. unfold Complete. rewrite bool_decide_true by done. cbn [negb]. case_bool_decide as E; [|done]. destruct l; cbn in *.
  f_equal. set_solver.
Qed.

Definition event_ids (accepted : bool) (events : list ledgerEvent) : gset Z :=
  list_to_set (map ev_id (List.filter (fun e => Bool.eqb e.(ev_accepted) accepted) events)).

Lemma elem_of_event_ids b events id : id ∈ event_ids b events <-> exists e, e ∈ events /\ e.(ev_accepted) = b /\ e.(ev_id) = id.
Proof.
  unfold event_ids. rewrite elem_of_list_to_set, list_elem_of_fmap. setoid_rewrite list_elem_of_In. setoid_rewrite filter_In.
  setoid_rewrite Bool.eqb_true_iff. naive_solver.
Qed.

(** Every completion has its acceptance in the ledger or before it. *)
Definition preceded (l : Ledger) (events : list ledgerEvent) : Prop :=
  forall e, e ∈ events -> e.(ev_accepted) = false ->
    e.(ev_id) ∈ l.(ledger_accepted) \/ exists a, a ∈ events /\ a.(ev_accepted) = true /\ a.(ev_id) = e.(ev_id) /\ a.(ev_at) <= e.(ev_at).

Lemma apply_events_sets events l peak : StronglySorted event_le events ->
  (forall e, e ∈ events -> e.(ev_accepted) = true -> 0 < e.(ev_id)) -> preceded l events ->
  (apply_events l events peak).1
  = mkLedger (event_ids true events ∪ l.(ledger_accepted)) (event_ids false events ∪ l.(ledger_terminal)).
Proof.
  revert l peak. induction events as [|x events IH]; intros l peak HS HP HC; cbn [apply_events].
  { unfold event_ids. cbn. destruct l. cbn. f_equal; set_solver. }
  apply StronglySorted_inv in HS as [HS HX]. rewrite Forall_forall in HX.
  assert (forall b, event_ids b (x :: events) = if Bool.eqb x.(ev_accepted) b then {[x.(ev_id)]} ∪ event_ids b events else event_ids b events) as HE.
  { intros b. unfold event_ids. cbn. by destruct (Bool.eqb (ev_accepted x) b). }
  rewrite !HE. destruct (ev_accepted x) eqn:EX; cbn [Bool.eqb].
  - assert (0 < ev_id x) as Hid by (apply HP; [by left|done]). rewrite (accept_eq _ _ Hid), IH; cbn [ledger_accepted ledger_terminal].
    + f_equal. set_solver.
    + done.
    + intros e He. apply HP. by right.
    + intros e He Ef. destruct (HC e ltac:(by right) Ef) as [H|(a & [->|Ha]%elem_of_cons & A1 & A2 & A3)]; cbn; [set_solver|rewrite A2; set_solver|].
      right. by exists a.
  - assert (ev_id x ∈ ledger_accepted l) as Hid.
    { destruct (HC x ltac:(by left) EX) as [H|(a & [->|Ha]%elem_of_cons & A1 & A2 & A3)]; [done|congruence|].
      specialize (HX a Ha). unfold event_le in HX. rewrite A1, EX in HX. exfalso. destruct HX as [?|[? [?|?]]]; [lia|done|done]. }
    rewrite (complete_eq _ _ Hid), IH; cbn [ledger_accepted ledger_terminal].
    + f_equal. set_solver.
    + done.
    + intros e He. apply HP. by right.
    + intros e He Ef. destruct (HC e ltac:(by right) Ef) as [H|(a & [->|Ha]%elem_of_cons & A1 & A2 & A3)]; [by left|congruence|].
      right. by exists a.
Qed.

#[export] Instance event_le_total : Total event_le.
Proof. intros a b. unfold event_le. destruct (Z.lt_trichotomy (ev_at a) (ev_at b)) as [|[|]], (ev_accepted a), (ev_accepted b); intuition lia. Qed.
#[export] Instance event_le_trans : Transitive event_le.
Proof. intros a b c. unfold event_le. destruct (ev_accepted a), (ev_accepted b), (ev_accepted c); intuition (try done; lia). Qed.

Lemma applyLedgerEvents_sets events l peak : (forall e, e ∈ events -> e.(ev_accepted) = true -> 0 < e.(ev_id)) -> preceded l events ->
  (applyLedgerEvents l events peak).1
  = mkLedger (event_ids true events ∪ l.(ledger_accepted)) (event_ids false events ∪ l.(ledger_terminal)).
Proof.
  intros HP HC. unfold applyLedgerEvents. rewrite apply_events_sets.
  - f_equal; f_equal; apply set_eq; intros id; rewrite !elem_of_event_ids; by setoid_rewrite merge_sort_Permutation.
  - apply (StronglySorted_merge_sort event_le).
  - intros e. rewrite merge_sort_Permutation. apply HP.
  - intros e. rewrite merge_sort_Permutation. intros He Ef. destruct (HC e He Ef) as [H|(a & A)]; [by left|right].
    exists a. by rewrite merge_sort_Permutation.
Qed.

(** ** Facts: windows *)

Section Windows.
Context (records : list SubmissionRecord) (C : consistent records).

Lemma accept_event_spec r e : r ∈ records -> r.(RecAccepted) = true ->
  e ∈ accept_event r <-> e.(ev_accepted) = true /\ r.(SubmissionID) = Some e.(ev_id) /\ r.(PostCompletedAt) = Some e.(ev_at).
Proof using C.
  intros Hr Ha. destruct (co_accepted _ C r Hr Ha) as (id & t & H1 & _ & H2). unfold accept_event. rewrite H1, H2, list_elem_of_singleton.
  destruct e; cbn. naive_solver.
Qed.

Lemma terminal_event_spec r t e : r ∈ records -> r.(TerminalObservedAt) = Some t ->
  e ∈ terminal_event r <-> e.(ev_accepted) = false /\ r.(SubmissionID) = Some e.(ev_id) /\ r.(TerminalObservedAt) = Some e.(ev_at).
Proof using C.
  intros Hr Ht. destruct (co_terminal _ C r t Hr Ht) as (Ha & _ & _). destruct (co_accepted _ C r Hr Ha) as (id & t' & H1 & _ & H2).
  unfold terminal_event. rewrite H1, Ht, list_elem_of_singleton. destruct e; cbn. naive_solver.
Qed.

(** The events of a stretch of time are those of the records that were accepted,
    and observed to be terminal, within it. *)
Definition stretch_events (pa pt : SubmissionRecord -> bool) : list ledgerEvent :=
  flat_map (fun r => (if pa r then accept_event r else []) ++ (if pt r then terminal_event r else [])) records.

Lemma elem_of_stretch pa pt e : (forall r, pa r = true -> r.(RecAccepted) = true) ->
  (forall r, pt r = true -> exists t, r.(TerminalObservedAt) = Some t) ->
  e ∈ stretch_events pa pt <-> exists r, r ∈ records /\ r.(SubmissionID) = Some e.(ev_id)
    /\ if e.(ev_accepted) then pa r = true /\ r.(PostCompletedAt) = Some e.(ev_at)
       else pt r = true /\ r.(TerminalObservedAt) = Some e.(ev_at).
Proof using C.
  intros Hpa Hpt. unfold stretch_events. rewrite list_elem_of_In, in_flat_map. setoid_rewrite <- list_elem_of_In.
  split; intros (r & Hr & H); exists r; (split; [done|]).
  - apply elem_of_app in H as [H|H].
    + destruct (pa r) eqn:E; [|by apply elem_of_nil in H]. apply (accept_event_spec r e Hr (Hpa r E)) in H as (-> & H1 & H2). done.
    + destruct (pt r) eqn:E; [|by apply elem_of_nil in H]. destruct (Hpt r E) as [t Ht].
      apply (terminal_event_spec r t e Hr Ht) in H as (-> & H1 & H2). done.
  - destruct H as [H1 H2]. apply elem_of_app. destruct (ev_accepted e) eqn:EA; destruct H2 as [H2 H3].
    + left. rewrite H2. by apply (accept_event_spec r e Hr (Hpa r H2)).
    + right. rewrite H2. by apply (terminal_event_spec r _ e Hr H3).
Qed.

(** Going through a stretch of events takes the ledger from one instant to a later one. *)
Lemma ledger_advance e p0 q0 pa pt l peak :
  (forall r, r ∈ records -> accepted_before e r = true <-> p0 r = true \/ pa r = true) ->
  (forall r, r ∈ records -> terminal_before e r = true <-> q0 r = true \/ pt r = true) ->
  (forall r, pa r = true -> r.(RecAccepted) = true) -> (forall r, pt r = true -> exists t, r.(TerminalObservedAt) = Some t) ->
  l = mkLedger (list_to_set (ids p0 records)) (list_to_set (ids q0 records)) -> (applyLedgerEvents l (stretch_events pa pt) peak).1 = ledger_at records e.
Proof using C.
  intros HA HT Hpa Hpt ->. rewrite applyLedgerEvents_sets.
  - unfold ledger_at. cbn [ledger_accepted ledger_terminal]. f_equal; apply set_eq; intros id;
      rewrite elem_of_union, elem_of_event_ids, !elem_of_list_to_set, !elem_of_ids; setoid_rewrite (elem_of_stretch pa pt _ Hpa Hpt).
    + split.
      * intros [(ev & (r & R1 & R2 & R3) & A & <-)|(r & R1 & R2 & R3)]; exists r; (split; [done|]); (split; [|done]); apply (HA r R1); [|by left].
        rewrite A in R3. right. by destruct R3.
      * intros (r & R1 & R2 & R3). apply (HA r R1) in R2 as [R2|R2]; [right; by exists r|].
        destruct (co_accepted _ C r R1 (Hpa r R2)) as (id' & t & I1 & _ & I2). left. exists (mkEvent t true id). cbn.
        split; [|done]. by exists r.
    + split.
      * intros [(ev & (r & R1 & R2 & R3) & A & <-)|(r & R1 & R2 & R3)]; exists r; (split; [done|]); (split; [|done]); apply (HT r R1); [|by left].
        rewrite A in R3. right. by destruct R3.
      * intros (r & R1 & R2 & R3). apply (HT r R1) in R2 as [R2|R2]; [right; by exists r|].
        destruct (Hpt r R2) as [t I2]. left. exists (mkEvent t false id). cbn. split; [|done]. by exists r.
  - intros ev (r & R1 & R2 & R3)%(elem_of_stretch pa pt _ Hpa Hpt) A. rewrite A in R3. destruct R3 as [R3 _].
    destruct (co_accepted _ C r R1 (Hpa r R3)) as (id & t & I1 & I2 & _). congruence.
  - intros ev (r & R1 & R2 & R3)%(elem_of_stretch pa pt _ Hpa Hpt) A. rewrite A in R3. destruct R3 as [R3 R4].
    destruct (co_terminal _ C r _ R1 R4) as (T1 & _ & t0 & T2 & T3).
    assert (accepted_before e r = true) as HB.
    { assert (terminal_before e r = true) as HB by (apply HT; [done|by right]). unfold terminal_before, accepted_before, before in *.
      rewrite R4, T1, T2 in *. bools. by apply Z.ltb_lt; lia. }
    apply (HA r R1) in HB as [HB|HB].
    + left. cbn. apply elem_of_list_to_set, elem_of_ids. by exists r.
    + right. exists (mkEvent t0 true (ev_id ev)). cbn. split_and!; [|done..]. apply (elem_of_stretch pa pt _ Hpa Hpt). by exists r.
Qed.

Definition outstanding_at (t : Z) : Z := count (fun r => accepted_before t r && negb (terminal_before t r)) records.

Lemma ids_count p : (forall r, r ∈ records -> p r = true -> r.(RecAccepted) = true) ->
  Z.of_nat (size (list_to_set (ids p records) : gset Z)) = count p records.
Proof using C.
  pose proof (co_accepted _ C) as HA. pose proof (co_distinct _ C) as HN. clear C. revert HA HN.
  unfold ids. induction records as [|r rest IH]; intros HA HN Hp; [done|]. rewrite count_cons.
  specialize (fun H1 H2 => IH H1 H2 (fun r0 Hr0 => Hp r0 (list_elem_of_further _ _ _ Hr0))).
  specialize (IH (fun r0 Hr0 => HA r0 (list_elem_of_further _ _ _ Hr0))).
  cbn [List.filter] in *. destruct (p r) eqn:E; cbn [Z.b2z].
  - pose proof (Hp r ltac:(by left) E) as Hr. destruct (HA r ltac:(by left) Hr) as (id & t & I1 & _). rewrite Hr in HN.
    cbn [omap list_omap] in *. rewrite I1 in *. apply NoDup_cons in HN as [HN1 HN2]. cbn [list_to_set]. rewrite size_union, size_singleton.
    + rewrite <- (IH HN2). lia.
    + apply disjoint_singleton_l. rewrite elem_of_list_to_set. intros (r' & R1 & R2 & R3)%elem_of_ids.
      apply HN1, (elem_of_ids RecAccepted). exists r'. split_and!; [done|apply Hp; [by right|done]|done].
  - rewrite IH; [lia|]. destruct (RecAccepted r); [|done]. cbn [omap list_omap] in HN. destruct (SubmissionID r); [|done].
    by apply NoDup_cons in HN as [_ HN].
Qed.

Lemma terminal_accepted t r : r ∈ records -> terminal_before t r = true -> accepted_before t r = true.
Proof using C.
  intros Hr H. unfold terminal_before, accepted_before, before in *. destruct (TerminalObservedAt r) as [t1|] eqn:E; [|done].
  destruct (co_terminal _ C r t1 Hr E) as (-> & _ & t0 & -> & Hle). bools. apply andb_true_iff. split; [done|]. apply Z.ltb_lt. lia.
Qed.

Lemma Outstanding_at t : Outstanding (ledger_at records t) = outstanding_at t.
Proof using C.
  unfold Outstanding, ledger_at. cbn [ledger_accepted ledger_terminal]. rewrite !ids_count.
  - enough (count (terminal_before t) records + outstanding_at t = count (accepted_before t) records) by lia.
    apply count_add. intros r Hr. pose proof (terminal_accepted t r Hr) as HT.
    destruct (terminal_before t r), (accepted_before t r); try done. by specialize (HT eq_refl).
  - intros r Hr H. pose proof (terminal_accepted t r Hr H) as HT. unfold accepted_before in HT. by bools.
  - intros r Hr H. unfold accepted_before in H. by bools.
Qed.

(** What a window says of a run that began at [start]. *)
Definition cumulative_at (start t : Z) : cumulative :=
  (count (fun r => inWindow r.(IntendedAt) start t) records, count (fun r => inWindow r.(PostStartedAt) start t) records,
   count (accepted_in start t) records, count (completed_in start t) records).

Record truthful (start : Z) (w : WindowRecord) : Prop := {
  tw_counts : (w.(Intended), w.(Attempted), w.(Accepted), w.(Completed)) = cumulative_at w.(WindowStart) w.(WindowEnd);
  tw_cumulative : (w.(IntendedCumulative), w.(AttemptedCumulative), w.(AcceptedCumulative), w.(CompletedCumulative))
    = cumulative_at start w.(WindowEnd);
  tw_before : w.(ClientOutstandingStart) = outstanding_at w.(WindowStart);
  tw_after : w.(ClientOutstanding) = outstanding_at w.(WindowEnd);
}.

Lemma cumulative_step start s e ci ca cc cd : start <= s <= e -> (ci, ca, cc, cd) = cumulative_at start s ->
  (ci + count (fun r => inWindow r.(IntendedAt) s e) records, ca + count (fun r => inWindow r.(PostStartedAt) s e) records,
   cc + count (accepted_in s e) records, cd + count (completed_in s e) records) = cumulative_at start e.
Proof.
  intros H [= -> -> -> ->]. unfold cumulative_at.
  assert (forall f, count (fun r => inWindow (f r) start s) records + count (fun r => inWindow (f r) s e) records
    = count (fun r => inWindow (f r) start e) records) as H1 by (intros f; apply count_add; intros; by apply inWindow_split).
  rewrite !H1. repeat f_equal; apply count_add; intros r _; unfold accepted_in, completed_in.
  - pose proof (inWindow_split (PostCompletedAt r) start s e H). destruct (RecAccepted r); rewrite ?andb_true_r, ?andb_false_r; [done|done].
  - pose proof (inWindow_split (TerminalObservedAt r) start s e H).
    destruct (negb _); rewrite ?andb_true_r, ?andb_false_r; [done|done].
Qed.

Lemma before_split v s e : s <= e -> before v e = true <-> before v s = true \/ inWindow v s e = true.
Proof.
  intros H. unfold before, inWindow. destruct v as [t|]; [|naive_solver].
  rewrite andb_true_iff, !Z.ltb_lt, Z.leb_le. lia.
Qed.

Lemma one_window_truthful input index start s e l cum : selected_records input = records -> start <= s <= e ->
  l = ledger_at records s -> cum = cumulative_at start s ->
  let '(w, l', cum') := one_window input index s e l cum in
  w.(WindowStart) = s /\ w.(WindowEnd) = e /\ truthful start w /\ l' = ledger_at records e /\ cum' = cumulative_at start e.
Proof using C.
  intros HR Hs -> Hc. unfold one_window. rewrite HR. destruct cum as [[[ci ca] cc] cd].
  pose proof (ledger_advance e (accepted_before s) (terminal_before s) (accepted_in s e) (completed_in s e) (ledger_at records s)
    (Outstanding (ledger_at records s))) as HL.
  change (window_events records s e) with (stretch_events (accepted_in s e) (completed_in s e)).
  destruct (applyLedgerEvents _ _ _) as [l' peak]. cbn [fst] in HL.
  rewrite HL; [|..|done].
  - pose proof (cumulative_step start s e ci ca cc cd Hs Hc) as HC. split_and!; cbn; [done|done| |done|done].
    constructor; cbn; [done|done|apply Outstanding_at..].
  - intros r Hr. unfold accepted_before, accepted_in. rewrite !andb_true_iff, (before_split _ s e) by lia. tauto.
  - intros r Hr. unfold terminal_before, completed_in. rewrite (before_split _ s e) by lia. rewrite andb_true_iff, negb_true_iff, bool_decide_eq_false.
    split; [|tauto]. intros [H|H]; [by left|right]. split; [done|]. unfold inWindow in H. destruct (TerminalObservedAt r) eqn:E; [|done].
    by destruct (co_terminal _ C r _ Hr E) as (_ & ? & _).
  - intros r H. unfold accepted_in in H. by bools.
  - intros r H. unfold completed_in, inWindow in H. destruct (TerminalObservedAt r); [by eexists|done].
Qed.

(** The windows follow one another from [s] to [e], none longer than [width]. *)
Fixpoint chained (width s e : Z) (ws : list WindowRecord) : Prop :=
  match ws with
  | [] => s = e
  | w :: rest => w.(WindowStart) = s /\ s < w.(WindowEnd) <= s + width /\ chained width w.(WindowEnd) e rest
  end.

Lemma windows_loop_spec fuel input index start s l cum : selected_records input = records -> 0 < input.(Window) ->
  start <= s < input.(End) -> input.(End) - s <= Z.of_nat fuel * input.(Window) ->
  l = ledger_at records s -> cum = cumulative_at start s ->
  chained input.(Window) s input.(End) (windows_loop fuel input index s l cum)
  /\ Forall (truthful start) (windows_loop fuel input index s l cum).
Proof using C.
  intros HR HW. revert index s l cum. induction fuel as [|fuel IH]; intros index s l cum Hs Hf Hl Hc; [lia|]. cbn [windows_loop].
  rewrite (proj2 (Z.ltb_lt s (End input))) by lia. set (e := Z.min (s + Window input) (End input)).
  pose proof (one_window_truthful input index start s e l cum HR ltac:(lia) Hl Hc) as H1.
  destruct (one_window input index s e l cum) as [[w l'] cum']. destruct H1 as (W1 & W2 & W3 & -> & ->). cbn [chained]. rewrite W1, W2.
  destruct (Z.lt_ge_cases (s + Window input) (End input)) as [Hlt|Hge].
  - assert (e = s + Window input) as He by lia. rewrite <- He.
    destruct (IH (index + 1) e (ledger_at records e) (cumulative_at start e)) as [I1 I2]; [lia|lia|done|done|]. rewrite He in I1 |- *.
    split; [split_and!; [done|lia|lia|done]|]. constructor; [done|]. by rewrite <- He.
  - assert (windows_loop fuel input (index + 1) (s + Window input) (ledger_at records e) (cumulative_at start e) = []) as ->.
    { destruct fuel; cbn; [done|]. by rewrite (proj2 (Z.ltb_ge _ _)). }
    split; [split_and!; cbn; [done|lia|lia|lia]|]. by constructor.
Qed.
End Windows.

(** The windows of a run follow one another without gap or overlap from its
    start to its end, each event of a submission is counted in one of them, and
    the outstanding work of a window, kept incrementally, is the number of
    submissions accepted before its end and not yet observed to be terminal. *)
Theorem windows_account_for_everything input : 0 < input.(Window) -> input.(Start) < input.(End) ->
  consistent (selected_records input) ->
  chained input.(Window) input.(Start) input.(End) (BuildWindows input)
  /\ Forall (truthful (selected_records input) input.(Start)) (BuildWindows input).
Proof.
  intros HW HE C. unfold BuildWindows. destruct (Z.leb_spec (Window input) 0); [lia|]. destruct (Z.leb_spec (End input) (Start input)); [lia|].
  cbn [orb]. set (records := selected_records input) in *.
  pose proof (ledger_advance records C (Start input) (fun _ => false) (fun _ => false) (accepted_before (Start input))
    (terminal_before (Start input)) NewLedger 0) as HL.
  change (prior_events records (Start input)) with (stretch_events records (accepted_before (Start input)) (terminal_before (Start input))).
  destruct (applyLedgerEvents _ _ _) as [l peak]. cbn [fst] in HL. apply (windows_loop_spec records C); [done|done|lia|..].
  - unfold windows_fuel. pose proof (Z.div_mod (End input - Start input) (Window input) ltac:(lia)).
    pose proof (Z.mod_pos_bound (End input - Start input) (Window input) HW).
    pose proof (Z.div_pos (End input - Start input) (Window input) ltac:(lia) HW). nia.
  - apply HL.
    + naive_solver.
    + naive_solver.
    + intros r H1. unfold accepted_before in H1. by bools.
    + intros r H1. unfold terminal_before, before in H1. destruct (TerminalObservedAt r); [by eexists|done].
    + assert (forall l : list SubmissionRecord, List.filter (fun _ => false) l = []) as HF by (intros x; by induction x).
      unfold NewLedger, ids. by rewrite HF.
  - unfold cumulative_at. assert (forall p : SubmissionRecord -> bool, (forall r, p r = false) -> count p records = 0) as HZ.
    { intros p Hp. clear -Hp. induction records as [|r l IH]; [done|]. by rewrite count_cons, Hp, IH. }
    assert (forall v, inWindow v (Start input) (Start input) = false) as H2.
    { intros v. unfold inWindow. destruct v as [t|]; [|done]. destruct (Z.leb_spec (Start input) t), (Z.ltb_spec t (Start input)); cbn; try done; lia. }
    rewrite !HZ; [done|..]; intros r; unfold accepted_in, completed_in; by rewrite H2.
Qed.

(** ** Witness *)

(** A post accepted at 5 and seen terminal at 25. *)
Definition demo_record : SubmissionRecord :=
  mkRecord PhaseLoad (Some 1) (Some 2) (Some 5) None None true true (Some 7) "ACCEPTED" (Some 25) None (Some 5) (Some 25) false
    OutcomeTerminal "sse_event" 0 0 None None false false None None None false false "" false false.

Definition demo_input : WindowInput := mkInput (Some PhaseLoad) 0 30 20 None [demo_record] 1.

Lemma windows_account_for_everything_witness :
  map (fun w => (w.(WindowStart), w.(WindowEnd), w.(Accepted), w.(Completed), w.(ClientOutstanding))) (BuildWindows demo_input)
  = [(0, 20, 1, 0, 1); (20, 30, 0, 1, 0)]
  /\ chained 20 0 30 (BuildWindows demo_input) /\ Forall (truthful [demo_record] 0) (BuildWindows demo_input).
Proof.
  split; [vm_compute; reflexivity|]. apply (windows_account_for_everything demo_input); [reflexivity|reflexivity|].
  constructor.
  - intros r ->%list_elem_of_singleton _. exists 7, 5. split; [reflexivity|]. split; reflexivity.
  - intros r t ->%list_elem_of_singleton Ht. injection Ht as <-. split; [reflexivity|]. split; [discriminate|].
    exists 5. split; [reflexivity|discriminate].
  - apply NoDup_singleton.
Defined.
