(* ===== verification/BenchRun.v ===== *)
(** The summary of a benchmark run: internal/runner/runner.go (summary, burst,
    admission and realistic metrics, the lifetime a session needs) and the
    classification of internal/stats/stats.go.

    The records are those of BenchStats.v; [quality] is the set of flags that
    were raised. *)

From Stdlib Require Import QArith_base SpecFloat.
From S2P Require Import Prelude GoString BenchConfig BenchStats.
From S2P Require AuthDomain BenchScheduler.

#[local] Open Scope Z_scope.

(** [Rat.Float64]: the nearest double.  1100 bits after the point and one that
    tells whether more follow decide every rounding. *)
Definition rat_float (q : Q) : spec_float :=
  let n := Qnum q * 2 ^ 1100 in
  let quotient := n / QDen q in
  binary_normalize 53 1024 (2 * quotient + (if n mod QDen q =? 0 then 0 else 1)) (-1101) false.

Definition rateFloat (rate : option Q) : spec_float := match rate with None => f64 0 | Some r => rat_float r end.

(** [Duration.Milliseconds] *)
Definition Milliseconds (d : Z) : Z := Z.quot d 1000000.

Definition ratio (numerator denominator : Z) : option spec_float :=
  if denominator =? 0 then None else Some (fdiv (f64 numerator) (f64 denominator)).

(** ** The summary *)

Record Counts := mkCounts {
  CIntended : Z;
  CAttempted : Z;
  CAccepted : Z;
  CTerminal : Z;
  CRateLimited : Z;
  COther4xx : Z;
  CServerErrors : Z;
  CTransportFailures : Z;
  CAmbiguousPosts : Z;
  CCompletionTimeouts : Z;
  CUserPoolExhaustions : Z;
}.

Record Rates := mkRates {
  TargetArrivalPerSecond : option spec_float;
  LoadAttemptedPerSecond : spec_float;
  LoadAcceptedPerSecond : spec_float;
  LoadPipelineTerminalCompletionSecond : spec_float;
}.

Record LoadWindow := mkLoadWindow {
  LDurationMS : Z;
  LAccepted : Z;
  BoundaryAcceptedAfterLoad : Z;
  LCompleted : Z;
  OutstandingAtEnd : Z;
  PostsInFlightAtEnd : Z;
  BurstSpreadMS : option Z;
}.

Record Drain := mkDrain {
  DDurationMS : Z;
  OutstandingAtStart : Z;
  DCompleted : Z;
  Remaining : Z;
  CompletionRate : option spec_float;
  TimedOut : bool;
}.

Record RunSummary := mkSummary {
  QualityFlags : list string;
  SumCounts : Counts;
  SumRates : Rates;
  SumLoadWindow : LoadWindow;
  SumDrain : Drain;
  OutstandingPeak : Z;
  SubmitMS : Distribution;
  EndToEndMS : Distribution;
  ScheduleMS : Distribution;
  Verdicts : gmap string Z;
  SSECompletions : Z;
  SumGETReconciliations : Z;
  SumSSEFailures : Z;
  TerminalObservationCoverage : option spec_float;
  RightCensored : bool;
  TerminalThroughputPerSec : option spec_float;
}.

Definition is_load (r : SubmissionRecord) : bool := bool_decide (r.(RecPhase) = PhaseLoad).
Definition load_records (records : list SubmissionRecord) : list SubmissionRecord := List.filter is_load records.

Definition has_outcome (o : Outcome) (r : SubmissionRecord) : bool := bool_decide (r.(RecOutcome) = o).
Definition terminal (r : SubmissionRecord) : bool := negb (bool_decide (r.(TerminalStatus) = ""%string)).
Definition by_sse (r : SubmissionRecord) : bool :=
  bool_decide (r.(CompletionSource) = "sse_snapshot"%string) || bool_decide (r.(CompletionSource) = "sse_event"%string).

Definition counts_of (load : list SubmissionRecord) : Counts :=
  mkCounts (Z.of_nat (length load)) (count RecAttempted load) (count RecAccepted load) (count terminal load)
    (count RecRateLimited load) (count (has_outcome OutcomeRejected4xx) load) (count (has_outcome OutcomeServerError) load)
    (count (has_outcome OutcomeAmbiguousPost) load) (count (has_outcome OutcomeAmbiguousPost) load)
    (count (has_outcome OutcomeCompletionTimeout) load) (count (has_outcome OutcomeUserExhausted) load).

(** [summary.Verdicts[record.TerminalStatus]++] *)
Definition add_verdict (r : SubmissionRecord) (m : gmap string Z) : gmap string Z :=
  if terminal r then <[r.(TerminalStatus) := default 0 (m !! r.(TerminalStatus)) + 1]> m else m.
Definition verdicts_of (load : list SubmissionRecord) : gmap string Z := foldl (fun m r => add_verdict r m) ∅ load.

Definition from_on (value : option Z) (t : Z) : bool := match value with None => false | Some v => t <=? v end.

Definition posts_in_flight (loadEnd : Z) (r : SubmissionRecord) : bool :=
  match r.(PostStartedAt) with
  | None => false
  | Some started => (started <=? loadEnd) && match r.(PostCompletedAt) with None => true | Some t => loadEnd <? t end
  end.

Definition sortedFlags (quality : gset string) : list string := merge_sort String.le (elements quality).
Definition containsFlag (quality : gset string) (flag : string) : bool := bool_decide (flag ∈ quality).

Definition summarize (cfg : Config) (records : list SubmissionRecord) (loadStart loadEnd drainStart drainEnd : Z)
    (quality : gset string) (peak : Z) : RunSummary :=
  let load := load_records records in
  let counts := counts_of load in
  let duration := Seconds (AuthDomain.Sub loadEnd loadStart) in
  let positive := SFltb (f64 0) duration in
  let acceptedDuringLoad := if positive then count (accepted_in loadStart loadEnd) load else 0 in
  let completedDuringLoad := count (fun r => inWindow r.(TerminalObservedAt) loadStart loadEnd) load in
  let rate n := fdiv (f64 n) duration in
  let rates :=
    if positive then mkRates (Some (rateFloat cfg.(Rate))) (rate counts.(CAttempted)) (rate acceptedDuringLoad) (rate completedDuringLoad)
    else mkRates None (f64 0) (f64 0) (f64 0) in
  let window :=
    mkLoadWindow (Milliseconds (AuthDomain.Sub loadEnd loadStart)) acceptedDuringLoad
      (count (fun r => r.(RecAccepted) && from_on r.(PostCompletedAt) loadEnd) load) completedDuringLoad
      (acceptedDuringLoad - completedDuringLoad) (count (posts_in_flight loadEnd) load)
      (if same cfg.(Mode) ModeBurst then Some (Milliseconds (BenchScheduler.BurstSpread (omap PostStartedAt load))) else None) in
  let drained := count (fun r => from_on r.(TerminalObservedAt) loadEnd) load in
  let drainMS := Milliseconds (AuthDomain.Sub drainEnd drainStart) in
  let drain :=
    mkDrain drainMS window.(OutstandingAtEnd) drained (counts.(CAccepted) - counts.(CTerminal))
      (if 0 <? drainMS then Some (fdiv (f64 drained) (fdiv (f64 drainMS) (f64 1000))) else None)
      (containsFlag quality "DRAIN_TIMEOUT") in
  mkSummary (sortedFlags quality) counts rates window drain peak
    (distribution (collect SubmitLatencyMS load)) (distribution (collect EndToEndLatencyMS load))
    (distribution (collect ScheduleDelayMS load)) (verdicts_of load)
    (count (fun r => terminal r && by_sse r) load) (sum_by GETReconciliations load) (sum_by SSEFailures load)
    (if 0 <? counts.(CAccepted) then ratio counts.(CTerminal) counts.(CAccepted) else None)
    ((0 <? counts.(CAccepted)) && (counts.(CTerminal) <? counts.(CAccepted)))
    (if negb (same cfg.(Mode) ModeBurst) && SFltb (f64 0) rates.(LoadPipelineTerminalCompletionSecond)
     then Some rates.(LoadPipelineTerminalCompletionSecond) else None).

(** ** Bursts *)

Definition intakeMetrics (values : list Z) : option Z * option spec_float :=
  match values with
  | [] | [_] => (None, None)
  | x :: rest =>
      let span := AuthDomain.Sub (foldl Z.max x rest) (foldl Z.min x rest) in
      if span <=? 0 then (None, None)
      else (Some (Milliseconds span), Some (fdiv (f64 (Z.of_nat (length values))) (Seconds span)))
  end.

Record BurstMetrics := mkBurstMetrics {
  AttemptedInterval : option Z * option spec_float;
  AcceptedInterval : option Z * option spec_float;
  TerminalInterval : option Z * option spec_float;
  PostStartOffsetMS : Distribution;
  LaunchCompletionMS : option Z;
  PeakLogicalInFlight : Z;
  PeakActiveObservers : Z;
}.

Definition burstMetrics (records : list SubmissionRecord) (origin : Z) (launchCompletion : option Z) (peakLogical peakObservers : Z)
  : BurstMetrics :=
  let load := load_records records in
  mkBurstMetrics (intakeMetrics (omap PostStartedAt load))
    (intakeMetrics (omap PostCompletedAt (List.filter RecAccepted load))) (intakeMetrics (omap TerminalObservedAt load))
    (distribution (map (fun t => fmul (Seconds (AuthDomain.Sub t origin)) (f64 1000)) (omap PostStartedAt load)))
    launchCompletion peakLogical peakObservers.

(** ** Did the system survive *)

Definition ClassificationFailed : string := "FAILED".
Definition ClassificationClientLimited : string := "CLIENT_LIMITED".
Definition ClassificationDegradedSurvival : string := "DEGRADED_SURVIVAL".

Definition client_limited (quality : gset string) : bool :=
  containsFlag quality "LOAD_GENERATOR_LIMITED" || containsFlag quality "MAX_IN_FLIGHT_REACHED".

(** What [admissionMetrics] and [realisticMetrics] conclude: [failed] and
    [degraded] are their conditions; a probe is [true] when it passed. *)
Definition system_survival (probes : list bool) (quality : gset string) (failed degraded : bool) : string :=
  if negb (forallb id probes) then ClassificationFailed
  else if client_limited quality then ClassificationClientLimited
  else if failed then ClassificationFailed
  else if degraded then ClassificationDegradedSurvival
  else ClassificationDegradedSurvival.

Definition posts_failed (c : Counts) : bool :=
  negb (c.(CAttempted) =? c.(CIntended)) || (0 <? c.(CServerErrors)) || (0 <? c.(CTransportFailures)) || (0 <? c.(CAmbiguousPosts)).
Definition posts_degraded (c : Counts) : bool :=
  negb (c.(CAccepted) =? c.(CIntended)) || (0 <? c.(CRateLimited)) || (0 <? c.(COther4xx)).

Record AdmissionMetrics := mkAdmission {
  EffectiveAcceptedIntakePerSec : option spec_float;
  PostStartSpreadMS : option Z;
  AdmissionSurvival : string;
}.

Definition admissionMetrics (summary : RunSummary) (burst : option BurstMetrics) (probes : list bool) (quality : gset string)
  : AdmissionMetrics :=
  mkAdmission (match burst with Some b => b.(AcceptedInterval).2 | None => None end)
    (match burst with Some _ => summary.(SumLoadWindow).(BurstSpreadMS) | None => None end)
    (system_survival probes quality (posts_failed summary.(SumCounts)) (posts_degraded summary.(SumCounts))).

Record StageMetrics := mkStage {
  StAttempted : Z;
  StSuccessful : Z;
  StSuccessPercent : option spec_float;
  StThroughputPerSec : option spec_float;
  StLatencyMS : Distribution;
}.

Record RealisticMetrics := mkRealistic {
  RmSubmission : StageMetrics;
  RmTicket : StageMetrics;
  RmSSE : StageMetrics;
  RmSSEFailed : Z;
  SurvivedFullHold : Z;
  ClosedEarly : Z;
  TerminalDuringHold : Z;
  CloseReasons : gmap string Z;
  StartSpreadMS : option Z;
  FullFlowSuccessPercent : option spec_float;
  RealisticSurvival : string;
}.

Definition add_reason (r : SubmissionRecord) (m : gmap string Z) : gmap string Z :=
  if bool_decide (r.(SSECloseReason) = ""%string) then m
  else <[r.(SSECloseReason) := default 0 (m !! r.(SSECloseReason)) + 1]> m.

Definition realisticMetrics (summary : RunSummary) (records : list SubmissionRecord) (burst : option BurstMetrics)
    (probes : list bool) (quality : gset string) : RealisticMetrics :=
  let load := load_records records in
  let c := summary.(SumCounts) in
  let tickets := count TicketAttempted load in
  let issued := count TicketSucceeded load in
  let streams := count SSEAttempted load in
  let established := count SSEEstablished load in
  let closedEarly := count (fun r => r.(SSEEstablished) && negb r.(SSESurvivedFullHold) && negb r.(SSETerminalDuringHold)) load in
  mkRealistic
    (mkStage c.(CAttempted) c.(CAccepted) (ratio c.(CAccepted) c.(CAttempted))
       (match burst with Some b => b.(AcceptedInterval).2 | None => None end) summary.(SubmitMS))
    (mkStage tickets issued (ratio issued tickets)
       (intakeMetrics (omap TicketStartedAt (List.filter TicketAttempted load))).2 (distribution (collect TicketLatencyMS load)))
    (mkStage streams established (ratio established streams)
       (intakeMetrics (omap SSEEstablishedAt (List.filter SSEEstablished load))).2 (distribution (collect SSEEstablishLatencyMS load)))
    (streams - established) (count SSESurvivedFullHold load) closedEarly (count SSETerminalDuringHold load)
    (foldl (fun m r => add_reason r m) ∅ load)
    (intakeMetrics (omap SSEStartedAt (List.filter SSEAttempted load))).1
    (ratio established c.(CIntended))
    (system_survival probes quality
       (posts_failed c || negb (issued =? c.(CAccepted)) || negb (established =? issued)) (posts_degraded c || (0 <? closedEarly))).

(** ** Classification (stats.go) *)

Definition fabs (x : spec_float) : spec_float :=
  match x with S754_finite _ m e => S754_finite false m e | S754_zero _ => S754_zero false | S754_infinity _ => S754_infinity false | _ => x end.

Definition lastWindows (values : list WindowRecord) (n : nat) : list WindowRecord := drop (length values - n) values.
Definition totalAccepted (values : list WindowRecord) : Z := sum_by BenchStats.Accepted values.
Definition totalCompleted (values : list WindowRecord) : Z := sum_by BenchStats.Completed values.

Fixpoint growing_from (previous : Z) (values : list WindowRecord) : bool :=
  match values with
  | [] => true
  | w :: rest => (previous <? w.(ClientOutstanding)) && growing_from w.(ClientOutstanding) rest
  end.
Definition strictlyGrowingOutstanding (values : list WindowRecord) : bool :=
  if (length values <? 3)%nat then false
  else match values with [] => false | w :: rest => growing_from w.(ClientOutstanding) rest end.

Definition balanced (values : list WindowRecord) : bool :=
  let accepted := totalAccepted values in
  let completed := totalCompleted values in
  let tenth := fmul (hundredths 10) (f64 accepted) in
  let limit := if SFleb tenth (f64 2) then f64 2 else tenth in
  (0 <? accepted) && SFleb (fabs (f64 (accepted - completed))) limit.

Definition latencyGrowth (d : Distribution) : bool :=
  match d.(P50), d.(P95) with
  | Some p50, Some p95 => (0 <? d.(Count)) && SFltb (fmul p50 (hundredths 125)) p95
  | _, _ => false
  end.

Definition close_to (value target tolerance : spec_float) : bool := SFleb (fabs (fsub value target)) (fmul target tolerance).

Definition request_failures (c : Counts) : bool :=
  (0 <? c.(CAmbiguousPosts)) || (0 <? c.(CUserPoolExhaustions)) || (0 <? c.(CCompletionTimeouts)) || (0 <? c.(CTransportFailures))
  || (0 <? c.(COther4xx)) || (0 <? c.(CServerErrors)).

Definition Classify (mode objective : string) (target : spec_float) (windows : list WindowRecord) (s : RunSummary)
    (externalLag : bool) : string * list string :=
  if same mode ModeBurst then ("N/A", ["BURST_MODE"])%string
  else if (s.(SumCounts).(CAccepted) <? 20) || (length windows <? 3)%nat then ("INCONCLUSIVE", ["INSUFFICIENT_SAMPLE"])%string
  else if negb (bool_decide (s.(QualityFlags) = [])) then ("INCONCLUSIVE"%string, s.(QualityFlags))
  else if negb (same objective ObjectiveAdmissionControl) && (0 <? s.(SumCounts).(CRateLimited))
  then ("INCONCLUSIVE", ["UNEXPECTED_429"])%string
  else if request_failures s.(SumCounts) then ("INCONCLUSIVE", ["REQUEST_OR_OBSERVER_FAILURE"])%string
  else
    let recent := lastWindows windows 3 in
    let growing := strictlyGrowingOutstanding recent in
    let accepted := totalAccepted recent in
    let completed := totalCompleted recent in
    let slow := latencyGrowth s.(EndToEndMS) in
    if (0 <? accepted) && SFltb (f64 completed) (fmul (hundredths 90) (f64 accepted)) && growing
       && (s.(SumDrain).(TimedOut) || externalLag || slow)
    then ("SATURATED", ["CLIENT_OUTSTANDING_GROWTH"; "COMPLETION_DEFICIT"])%string
    else if SFltb (f64 0) target && close_to s.(SumRates).(LoadAttemptedPerSecond) target (hundredths 5) && balanced recent
            && negb growing && negb slow && negb s.(SumDrain).(TimedOut) && (s.(SumDrain).(Remaining) =? 0)
    then ("STABLE", ["BALANCED_WINDOWS"; "PREDICTABLE_DRAIN"])%string
    else ("INCONCLUSIVE", ["INSUFFICIENT_STEADY_STATE_EVIDENCE"])%string.

(** ** How long a session must last *)

Definition saturatingDurationMultiply (value factor : Z) : Z :=
  if (value <=? 0) || (factor <=? 0) then 0
  else if Z.quot int64_max value <? factor then int64_max
  else wrap64 (value * factor).

Definition requiredSessionHorizonFor (cfg : Config) (sessions : Z) : Z :=
  if same cfg.(Mode) ModeSustained then
    let load :=
      match cfg.(Rate) with
      | Some rate => if 0 <? cfg.(TotalSubmissions) then BenchScheduler.OffsetFor rate (cfg.(TotalSubmissions) - 1) else cfg.(Duration)
      | None => cfg.(Duration)
      end in
    wrap64 (wrap64 (wrap64 (cfg.(WarmupTimeout) + load) + cfg.(DrainTimeout)) + cfg.(AuthValidityMargin))
  else
    let sessions := if sessions <? 1 then 1 else sessions in
    let concurrency := if cfg.(PreflightConcurrency) <? 1 then 1 else cfg.(PreflightConcurrency) in
    let batches := Z.quot (wrap64 (wrap64 (sessions + concurrency) - 1)) concurrency in
    let preflight := saturatingDurationMultiply cfg.(APITimeout) (wrap64 (batches * 2)) in
    let warmup := if 0 <? cfg.(WarmupCount) then cfg.(WarmupTimeout) else 0 in
    wrap64 (wrap64 (wrap64 (preflight + warmup) + cfg.(BurstStartTimeout)) + cfg.(AuthValidityMargin)).

(** ** Facts: the summary *)

Lemma count_ge_0 {A} (p : A -> bool) l : 0 <= count p l.
Proof. unfold count. lia. Qed.

Lemma verdicts_sum load m0 : msum id (foldl (fun m r => add_verdict r m) m0 load) = msum id m0 + count terminal load.
Proof.
  revert m0. induction load as [|r load IH]; intros m0; cbn [foldl]; [unfold count; cbn; lia|]. rewrite IH, count_cons. unfold add_verdict.
  destruct (terminal r); cbn [Z.b2z]; [|lia]. destruct (m0 !! TerminalStatus r) as [n|] eqn:E; cbn [default].
  - rewrite (msum_insert _ _ _ _ n) by done. unfold id. lia.
  - rewrite msum_insert_new by done. unfold id. lia.
Qed.

(** What the runner records of a load that began at [loadStart]. *)
Record load_consistent (loadStart : Z) (load : list SubmissionRecord) : Prop := {
  lc_records : consistent load;
  lc_terminal : forall r, r ∈ load -> terminal r = true <-> is_Some r.(TerminalObservedAt);
  lc_start : forall r t, r ∈ load -> r.(RecAccepted) = true -> r.(PostCompletedAt) = Some t -> loadStart <= t;
}.

Section Balance.
Context (loadStart loadEnd : Z) (load : list SubmissionRecord) (L : load_consistent loadStart load).
Context (order : loadStart <= loadEnd).

Lemma accepted_split : count (accepted_in loadStart loadEnd) load
  + count (fun r => r.(RecAccepted) && from_on r.(PostCompletedAt) loadEnd) load = count RecAccepted load.
Proof using L order.
  apply count_add. intros r Hr. unfold accepted_in, from_on, inWindow. destruct (RecAccepted r) eqn:EA; [|by rewrite andb_false_r].
  destruct (co_accepted _ (lc_records _ _ L) r Hr EA) as (id & t & _ & _ & Ht). pose proof (lc_start _ _ L r t Hr EA Ht). rewrite Ht, andb_true_r.
  destruct (Z.leb_spec loadStart t), (Z.ltb_spec t loadEnd), (Z.leb_spec loadEnd t); cbn; lia.
Qed.

Lemma observed_after_start r t : r ∈ load -> r.(TerminalObservedAt) = Some t -> loadStart <= t.
Proof using L.
  intros Hr Ht. destruct (co_terminal _ (lc_records _ _ L) r t Hr Ht) as (HA & _ & t0 & H0 & Hle).
  pose proof (lc_start _ _ L r t0 Hr HA H0). lia.
Qed.

Lemma terminal_split : count (fun r => inWindow r.(TerminalObservedAt) loadStart loadEnd) load
  + count (fun r => from_on r.(TerminalObservedAt) loadEnd) load = count terminal load.
Proof using L order.
  apply count_add. intros r Hr. pose proof (lc_terminal _ _ L r Hr) as HT. destruct (TerminalObservedAt r) as [t|] eqn:Ht.
  - rewrite (proj2 HT) by eauto. pose proof (observed_after_start r t Hr Ht). unfold inWindow, from_on.
    destruct (Z.leb_spec loadStart t), (Z.ltb_spec t loadEnd), (Z.leb_spec loadEnd t); cbn; lia.
  - destruct (terminal r); [|done]. by destruct (proj1 HT eq_refl).
Qed.

Lemma outstanding_end : count (accepted_in loadStart loadEnd) load - count (fun r => inWindow r.(TerminalObservedAt) loadStart loadEnd) load
  = outstanding_at load loadEnd.
Proof using L order.
  enough (count (fun r => inWindow r.(TerminalObservedAt) loadStart loadEnd) load + outstanding_at load loadEnd
    = count (accepted_in loadStart loadEnd) load) by lia.
  apply count_add. intros r Hr. pose proof (terminal_accepted load (lc_records _ _ L) loadEnd r Hr) as HT.
  assert (accepted_in loadStart loadEnd r = accepted_before loadEnd r) as ->.
  { unfold accepted_in, accepted_before. destruct (RecAccepted r) eqn:EA; [|by rewrite andb_false_r].
    destruct (co_accepted _ (lc_records _ _ L) r Hr EA) as (id & t & _ & _ & Ht). pose proof (lc_start _ _ L r t Hr EA Ht).
    rewrite Ht, andb_true_r. unfold inWindow, before. by rewrite (proj2 (Z.leb_le loadStart t)). }
  assert (inWindow (TerminalObservedAt r) loadStart loadEnd = terminal_before loadEnd r) as ->.
  { unfold terminal_before, inWindow, before. destruct (TerminalObservedAt r) as [t|] eqn:Ht; [|done].
    by rewrite (proj2 (Z.leb_le loadStart t)) by (by apply (observed_after_start r)). }
  destruct (terminal_before loadEnd r), (accepted_before loadEnd r); try done. by specialize (HT eq_refl).
Qed.

Lemma terminal_le_accepted : count terminal load <= count RecAccepted load.
Proof using L.
  enough (count terminal load + count (fun r => r.(RecAccepted) && negb (terminal r)) load = count RecAccepted load)
    by (pose proof (count_ge_0 (fun r => r.(RecAccepted) && negb (terminal r)) load); lia).
  apply count_add. intros r Hr. destruct (terminal r) eqn:ET; [|by rewrite andb_true_r].
  destruct (proj1 (lc_terminal _ _ L r Hr) ET) as [t Ht]. destruct (co_terminal _ (lc_records _ _ L) r t Hr Ht) as (-> & _). done.
Qed.
End Balance.

(** The books of a run balance: every accepted submission was accepted during
    the load or at its boundary, every terminal one was observed during the load
    or the drain; what is outstanding at the end of the load is what had been
    accepted and not yet observed; what remains is never negative; the verdicts
    add up to the terminal submissions. *)
Theorem summary_balances cfg records loadStart loadEnd drainStart drainEnd quality peak : loadStart <= loadEnd ->
  SFltb (f64 0) (Seconds (AuthDomain.Sub loadEnd loadStart)) = true -> load_consistent loadStart (load_records records) ->
  let s := summarize cfg records loadStart loadEnd drainStart drainEnd quality peak in
  s.(SumCounts).(CAccepted) = s.(SumLoadWindow).(LAccepted) + s.(SumLoadWindow).(BoundaryAcceptedAfterLoad)
  /\ s.(SumCounts).(CTerminal) = s.(SumLoadWindow).(LCompleted) + s.(SumDrain).(DCompleted)
  /\ s.(SumLoadWindow).(OutstandingAtEnd) = outstanding_at (load_records records) loadEnd
  /\ s.(SumDrain).(Remaining)
     = s.(SumLoadWindow).(OutstandingAtEnd) + s.(SumLoadWindow).(BoundaryAcceptedAfterLoad) - s.(SumDrain).(DCompleted)
  /\ 0 <= s.(SumDrain).(Remaining)
  /\ msum id s.(Verdicts) = s.(SumCounts).(CTerminal).
Proof.
  intros HO HP L. unfold summarize. rewrite HP. cbn.
  pose proof (accepted_split loadStart loadEnd _ L HO). pose proof (terminal_split loadStart loadEnd _ L HO).
  pose proof (outstanding_end loadStart loadEnd _ L HO). pose proof (terminal_le_accepted loadStart _ L).
  split_and!; try lia. unfold verdicts_of. rewrite verdicts_sum, msum_empty. lia.
Qed.

(** ** Facts: conclusions *)

(** A run is called stable only on evidence. *)
Lemma stable_is_earned mode objective target windows s lag reasons :
  Classify mode objective target windows s lag = ("STABLE"%string, reasons) ->
  mode <> ModeBurst /\ 20 <= s.(SumCounts).(CAccepted) /\ (3 <= length windows)%nat /\ s.(QualityFlags) = []
  /\ request_failures s.(SumCounts) = false /\ (objective = ObjectiveAdmissionControl \/ s.(SumCounts).(CRateLimited) <= 0)
  /\ close_to s.(SumRates).(LoadAttemptedPerSecond) target (hundredths 5) = true
  /\ strictlyGrowingOutstanding (lastWindows windows 3) = false /\ s.(SumDrain).(TimedOut) = false /\ s.(SumDrain).(Remaining) = 0.
Proof.
  unfold Classify. destruct (same mode ModeBurst) eqn:E1; [done|]. destruct (_ || _) eqn:E2; [done|].
  destruct (negb (bool_decide _)) eqn:E3; [done|]. destruct (negb _ && _) eqn:E4; [done|]. destruct (request_failures _) eqn:E5; [done|].
  cbv zeta. destruct (_ && _ && _ && _) eqn:E6; [done|]. destruct (_ && (_ =? 0)) eqn:E7; [|done]. intros _. bools. split_and!; try done.
  - intros EM. apply (proj2 (same_true _ _)) in EM. congruence.
  - by apply Nat.ltb_ge.
  - apply andb_false_iff in E4 as [E4|E4]; bools; [left; by apply same_true|by right].
Qed.

(** Without evidence from outside no run is called a clean survival, and a failed
    probe always counts. *)
Lemma survival_is_conservative probes quality failed degraded :
  system_survival probes quality failed degraded ∈ [ClassificationFailed; ClassificationClientLimited; ClassificationDegradedSurvival]
  /\ (forallb id probes = false -> system_survival probes quality failed degraded = ClassificationFailed).
Proof.
  unfold system_survival. split; [|by intros ->]. destruct (negb _), (client_limited quality), failed, degraded; set_solver.
Qed.

(** The windows never count a completion timeout: the runner gives such a record
    no instant of observation. *)
Lemma window_timeouts_are_lost input : (forall r, r ∈ input.(Records) -> r.(RecOutcome) = OutcomeCompletionTimeout -> r.(TerminalObservedAt) = None) ->
  Forall (fun w => w.(CompletionTimeouts) = 0) (BuildWindows input).
Proof.
  intros H. assert (forall s e, count (fun r => inWindow r.(TerminalObservedAt) s e && bool_decide (r.(RecOutcome) = OutcomeCompletionTimeout))
    (selected_records input) = 0) as HC.
  { intros s e. assert (forall r, r ∈ selected_records input -> r ∈ input.(Records)) as HS.
    { intros r. unfold selected_records. rewrite list_elem_of_In, filter_In, <- list_elem_of_In. by intros []. }
    induction (selected_records input) as [|r l IH]; [done|]. rewrite count_cons, IH by (intros r' Hr'; apply HS; by right).
    case_bool_decide as E; [|by rewrite andb_false_r]. by rewrite (H r (HS r ltac:(by left)) E). }
  assert (forall fuel i s l cum, Forall (fun w => w.(CompletionTimeouts) = 0) (windows_loop fuel input i s l cum)) as HL.
  { induction fuel as [|fuel IH]; intros i s l cum; cbn [windows_loop]; [constructor|].
    destruct (s <? End input); [|constructor]. unfold one_window. destruct cum as [[[a b] c] d]. destruct (applyLedgerEvents _ _ _) as [l2 pk].
    constructor; [cbn; apply HC|apply IH]. }
  unfold BuildWindows. destruct (_ || _); [constructor|]. destruct (applyLedgerEvents _ _ _) as [l p]. apply HL.
Qed.

(** ** Facts: the lifetime of sessions *)

Lemma saturating_spec value factor : 0 <= value <= int64_max -> 0 <= factor <= int64_max ->
  saturatingDurationMultiply value factor = Z.min int64_max (value * factor).
Proof.
  intros Hv Hf. unfold saturatingDurationMultiply. destruct (Z.leb_spec value 0); cbn [orb]; [assert (value = 0) as -> by lia; unfold int64_max; lia|].
  destruct (Z.leb_spec factor 0); [assert (factor = 0) as -> by lia; rewrite Z.mul_0_r; unfold int64_max; lia|].
  rewrite Z.quot_div_nonneg by (unfold int64_max; lia).
  pose proof (Z.mul_div_le int64_max value ltac:(lia)). pose proof (Z.mul_succ_div_gt int64_max value ltac:(lia)).
  destruct (Z.ltb_spec (int64_max / value) factor); [nia|]. rewrite wrap64_id; [nia|]. unfold in_int64, int64_min, int64_max in *. nia.
Qed.

(** ** Witness *)

Lemma summary_balances_witness :
  let s := summarize (Defaults ModeSustained) [demo_record] 0 20 20 30 ∅ 1 in
  s.(SumLoadWindow).(OutstandingAtEnd) = 1 /\ s.(SumDrain).(DCompleted) = 1 /\ s.(SumDrain).(Remaining) = 0
  /\ s.(SumCounts).(CAccepted) = s.(SumLoadWindow).(LAccepted) + s.(SumLoadWindow).(BoundaryAcceptedAfterLoad).
Proof.
  split; [vm_compute; reflexivity|]. split; [vm_compute; reflexivity|]. split; [vm_compute; reflexivity|].
  apply (summary_balances (Defaults ModeSustained) [demo_record] 0 20 20 30 ∅ 1); [discriminate|vm_compute; reflexivity|].
  constructor.
  - constructor.
    + intros r ->%list_elem_of_singleton _. exists 7, 5. split; [reflexivity|]. split; reflexivity.
    + intros r t ->%list_elem_of_singleton Ht. injection Ht as <-. split; [reflexivity|]. split; [discriminate|].
      exists 5. split; [reflexivity|discriminate].
    + apply NoDup_singleton.
  - intros r ->%list_elem_of_singleton. split; [intros _; by exists 25|reflexivity].
  - intros r t ->%list_elem_of_singleton _ Ht. injection Ht as <-. discriminate.
Defined.
